(* ===== verification/_CoqProject ===== *)
-Q . S2P
Prelude.v
SkTypes.v
AttrCodec.v
Wires.v
TeeClient.v
SkLib.v
SkLibTheorems.v
LibTeec.v
LibTeecTheorems.v
TeeApi.v
TeeRam.v
TaStorage.v
TaCrypto.v
TaShape.v
TeeLogic.v
TaTheorems.v
TaQueryTheorems.v
TaFindTheorems.v
TaCryptoTheorems.v
Link.v
ObjectStore.v
Refinement.v
RefinementReads.v
Stack.v
SkDrv.v
SkDrvTheorems.v
SkMp.v
SkMpTheorems.v
Sha2Spec.v
Sha2.v
HmacSha2.v
Handle.v
Rpmb.v
RpmbTheorems.v
SuppMem.v
SuppFs.v
SuppFsTheorems.v
SuppLoad.v
SuppSocket.v
Supplicant.v
SupplicantTheorems.v
P11Types.v
P11Template.v
P11State.v
P11Sessions.v
P11Objects.v
P11General.v
P11Api.v
P11Info.v
P11Crypto.v
P11Invariant.v
P11Theorems.v
P11SignTheorems.v
P11Stack.v
EngSobj.v
EngTheorems.v
FsCore.v
Bitstring.v
Dirfile.v
DirfileTheorems.v
Htree.v
HtreeRam.v
HtreeShape.v
HtreeLaws.v
HtreeBlocks.v
HtreeSync.v
HtreeCommit.v
HtreeOpen.v
HtreeSpec.v
HtreeTamper.v
HtreeTheorems.v
ReeFs.v
ReeLayout.v
ReeBytes.v
ReeSpec.v
ReeTheorems.v
ReeRefcount.v
