(* ===== verification/Prelude.v ===== *)
(** * Verification of the secure-object stack

    ** The program

    Under src/flexbuild/packages/apps the distribution carries a stack that keeps
    RSA keys in a trusted execution environment (TEE) and offers them to
    applications.  Its parts, from the application down:

    - the PKCS#11 library (libpkcs11/src): a token whose objects are the keys of
      the TEE; it reaches them through the function list of
    - the secure-key client library (secure_obj/securekey_lib/src/securekey.c):
      each call opens a session with the trusted application, passes its arguments
      in shared memory, invokes one command and releases everything; it uses
    - the TEE client library, libteec
      (optee_client/libteec/src/tee_client_api.c): contexts, sessions, shared
      memory and commands as system calls on the TEE driver;
    - the kernel's TEE driver and the TEE core, which carry a command to
    - the trusted application (secure_obj/secure_storage_ta/ta): creates, erases,
      finds and queries objects in the TEE's private storage and signs, decrypts
      and digests with them, through the TEE internal API.

    Beside it, the manufacturing-protection library
    (secure_obj/securekey_lib/src/securekey_mp.c) gets the key of the part and
    signatures of it from the CAAM engine through the kernel module
    secure_obj/securekeydev, and reads the part's registers through /dev/mem.

    An OpenSSL engine (secure_obj/secure_obj-openssl-engine/eng_secure_obj.c) is a second
    client of the secure-key library: it does the private-key operations of key files
    that a command line tool (securekey_lib/app/sobj_app.c) has written for stored keys.

    The trusted side in turn needs services of the normal world, and a daemon, the
    supplicant (optee_client/tee-supplicant/src), gives them: it waits for requests on
    a private device of the TEE driver and answers them from a pool of threads.  Its
    services are files, the replay-protected memory block of an eMMC (RPMB), the
    loading of trusted applications, shared memory, sockets and profiles; the private
    storage in which the trusted application above keeps its objects is made of the
    first two.

    Between that storage and the normal world's files lies the secure file system of the
    TEE, OP-TEE (optee_os/core/tee).  An object is a file whose blocks are encrypted and
    authenticated by the nodes of a hash tree (fs_htree.c); a directory file, itself such a
    tree, maps the names of objects to file numbers and root hashes (fs_dirfile.c); and
    tee_ree_fs.c puts both on files that the supplicant serves, each element of a tree in
    two versions so that a write never touches what is committed.

    Attribute arrays cross the boundary in a packed format that securekey.c and
    secure_storage_helper.c each implement.

    ** How it is modelled

    A C function is a Rocq function of the same name.  [outcome] is its result:
    [Ret], or [Undef] where C has no defined result (an access outside an object, a
    null or dangling pointer, a loop that never ends); a theorem that a call returns
    is therefore also one of memory safety.  [st W A] is a function over a state
    [W].  Integers are [Z] with the wrap-around of their width written out
    ([u8], [u16], [u32], [u64]); buffers are byte lists; a pointer that may be null
    is an [option].  Code that is not part of the stack is a class of operations
    over an abstract state, with a second class for what its documentation
    promises:

    - [TEEC] and [TEEC_laws] (TeeClient.v): the TEE client API, which the secure-key
      library is written against and libteec implements;
    - [TeeDriver] (LibTeec.v) and [Driver_laws] (LibTeecTheorems.v): the system
      calls of libteec;
    - [Link_laws] (Link.v): the kernel driver and the TEE core between libteec and
      the trusted application;
    - [TEE], [Crypto] and [TEE_laws] (TeeApi.v): the TEE internal API and the
      cryptography behind it;
    - [SK_FUNCTION_LIST] (P11State.v): the secure-key library as the PKCS#11
      library sees it;
    - [Kernel] (SkDrv.v) and [MpEngine] (SkDrvTheorems.v): the kernel around the
      secure-key driver and the CAAM engine; [MpSys] and [Board] (SkMp.v): the system
      calls of the manufacturing-protection library;
    - [Posix] (SuppMem.v), [Sockets] (SuppSocket.v), [TeeDevice] (Supplicant.v),
      [MmcDevice] and [LinuxMmc] (Rpmb.v): the calls of the supplicant, with [FileLaws],
      [TreeLaws] and [DirLaws] (SuppFsTheorems.v) for files and directories;
    - [OpenSSL] (EngSobj.v) and [OpenSSL_laws] (EngTheorems.v): numbers, key files and
      the own functions of OpenSSL under the engine;
    - [HeapOps] (FsCore.v): the allocator of OP-TEE; [DirfileOps] (Dirfile.v) and
      [DirfileLaws] (DirfileTheorems.v): the file under the directory; [HtreeStorage] and
      [HtreeCrypto] (Htree.v), [CryptoLaws] and [HtreeLaws] (HtreeLaws.v): the storage and
      the cryptography under the hash tree; [FsRpc] (ReeFs.v) and [FsRpcLaws] (ReeLayout.v):
      the calls to the normal world.  ReeFs.v makes [HtreeStorage] and [DirfileOps] from
      [FsRpc], and ReeLayout.v proves [HtreeLaws] of the former from [FsRpcLaws];
    - [Allocator] (P11Types.v), [Indet] (P11State.v) and [Loader] (P11General.v):
      allocation, unassigned variables and the dynamic loader under the PKCS#11
      library.

    ** Files

    - Prelude.v: outcomes and state passing with their notation and tactics, machine
      words, bytes and buffers, association lists, the relation [post].
    - SkTypes.v: constants and records of securekey_api_types.h,
      ta_secure_storage.h and the TEE headers.
    - AttrCodec.v, Wires.v: the packed attribute format (pack_attrs,
      unpack_sk_attrs and get_attr_size of securekey.c; pack_sk_attrs,
      unpack_sk_attrs, TA_GetSKAttr and TA_CompareSKAttr of
      secure_storage_helper.c).
    - TeeClient.v, LibTeec.v, LibTeecTheorems.v: tee_client_api.h and
      tee_client_api.c.
    - SkLib.v, SkLibTheorems.v: the SK_ functions of securekey.c.
    - TeeApi.v, TeeLogic.v, TeeRam.v: the TEE internal API, its program logic
      ([wps]) and an instance in memory.
    - TaStorage.v, TaCrypto.v: the trusted application (secure_storage_db.c,
      _rsa.c, _create.c, _generate.c, _common.c, _find.c, _crypto.c, _entry.c).
    - TaShape.v, TaTheorems.v, TaQueryTheorems.v, TaFindTheorems.v,
      TaCryptoTheorems.v: its properties.
    - Link.v, ObjectStore.v, Refinement.v, RefinementReads.v, Stack.v: the
      composition of client library, libteec and trusted application, and the
      abstract store it implements.
    - SkDrv.v, SkDrvTheorems.v: the kernel module (ioctl.c, securekey_caam.c,
      securekey_desc.h): heap blocks, DMA mappings, job descriptors, the global job
      status and the buffers of the process.
    - SkMp.v, SkMpTheorems.v: securekey_mp.c, and a process that runs it on the
      driver.
    - Sha2Spec.v: SHA-256 and HMAC as FIPS 180-4 and RFC 2104 define them, without the code;
      Sha2.v, HmacSha2.v: sha2.c and hmac_sha2.c, and that they compute them.
    - Handle.v: handle.c, a refinement of a finite map; its array can be touched only while
      the mutex is held.
    - Rpmb.v, RpmbTheorems.v: rpmb.c with its emulated and its Linux device; the state
      of the first is the key, the memory, the counter and the last operation.
    - SuppMem.v: the parameters and the shared memory list of tee_supplicant.c, memory as
      blocks of bytes, and the state [supp] of the services.
    - SuppFs.v, SuppFsTheorems.v: tee_supp_fs.c.
    - SuppLoad.v: teec_ta_load.c, gprof.c, allocation and release of shared memory.
    - SuppSocket.v: tee_socket.c.
    - Supplicant.v, SupplicantTheorems.v: the request loop and [main] of
      tee_supplicant.c, and the pool of threads as a step relation.
    - P11Types.v, P11Template.v, P11State.v, P11Sessions.v, P11Objects.v,
      P11General.v, P11Api.v, P11Info.v, P11Crypto.v: pkcs11t.h, objects.c, sessions.c,
      general.c, tee_slot.c, p11_general.c, p11_session_slot.c, p11_object.c,
      crypto.c and p11_crypto.c.  The state [lib] has the slot, its sessions and
      objects (addresses of heap nodes), the find lists (heap blocks) and the lock.
    - P11Invariant.v, P11Theorems.v, P11SignTheorems.v: their properties.
    - P11Stack.v: the PKCS#11 library on the whole stack below it.
    - EngSobj.v, EngTheorems.v: eng_secure_obj.c, the key file of sobj_app.c, the padding
      functions of OpenSSL they use (rsa_pk1.c), and the engine on the whole stack.  The
      state [eng] has the blocks of the process's heap.
    - FsCore.v: the error monad [ex] of the file layers and its rules ([wpx]).
    - Bitstring.v, Dirfile.v, DirfileTheorems.v: bitstring.h and fs_dirfile.c; the state is
      the bit string of file numbers in use and the number of entries.
    - Htree.v: fs_htree.c; a tree is an inductive type with the nodes of the code, beside it
      the header, the key and the flags.  HtreeRam.v: a storage in memory.
    - HtreeShape.v, HtreeLaws.v, HtreeBlocks.v, HtreeSync.v, HtreeCommit.v, HtreeOpen.v,
      HtreeSpec.v, HtreeTamper.v, HtreeTheorems.v: node numbers and paths, what is asked of
      the storage, one block, the write-back, the committed version, opening, the abstract
      file, files from an untrusted storage, and the theorems.
    - ReeFs.v: tee_ree_fs.c; the state is the table of open files, the shared directory
      handle with its number and its reference count.
    - ReeLayout.v, ReeBytes.v, ReeSpec.v, ReeTheorems.v, ReeRefcount.v: the places of the
      elements in a file, blocks as bytes, the abstract file of bytes, the theorems with a
      normal world in memory, and the reference count.

    ** What the theorems show

    - The whole stack below PKCS#11 (Stack.v): any sequence of calls behaves as the
      abstract object store ([stack_refines]); what is stored is what is read
      ([stored_is_read]); a created key signs ([created_key_signs]).
    - libteec and the client library: libteec keeps the promises of the client API;
      every call releases what it acquires, at the level of the client API and of
      system calls; what the calls return on every path.
    - The trusted application: each command returns, changes the storage exactly as
      its result says, leaves no handle behind and answers from what is stored;
      searches end.
    - The packed format: round trips, safety of the parser on any bytes.
    - PKCS#11: an invariant of every reachable state; private components are never
      exported ([private_components_not_exported]); searches, attribute reads, sessions, initialisation and signing do
      what they say.
    - PKCS#11 on the stack (P11Stack.v): its token objects are the keys of the store
      ([token_shows_store]) and its signatures those of the stored keys
      ([pkcs11_signs_raw], [pkcs11_signs_hash]).
    - The engine: a key file written for a stored key makes OpenSSL sign and decrypt
      with that key ([engine_signs], [engine_decrypts]); any other key goes to OpenSSL
      ([engine_passes_on]).
    - Manufacturing protection: the driver releases what a request takes, but for one block
      where the message to sign cannot be read ([ioctl_releases]); the caller gets the engine's key and signatures
      ([mp_public_key], [mp_signature]) and the registers ([mp_registers]).
    - The supplicant, hashing below 512 MiB: the codes are SHA-256 and HMAC
      ([sha256_in_pieces], [hmac_sha256_rfc]).  RPMB: only the holder of the key changes the
      partition ([rpmb_authenticated]), and a frame it wrote is read ([rpmb_write_read]).  Files:
      [fs_write_read], [fs_create_failure_clean], [fs_readdir_spec].  Handles and
      sockets: [handle_db_refines], [sockets_isolated].  The loop: no request that is
      answered breaks the shared memory or the bounds of [tee_supp_param_to_va]
      ([serve_memrefs_safe]), and the threads are never all busy ([pool_listens]).
    - The hash tree: reads, writes that leave no gap and synchronisations refine a file of
      blocks ([htree_refines]); the last commit survives any error among them
      ([htree_commit_atomic]); a root hash binds the nodes
      ([htree_tamper_evident]); what was committed is read back ([htree_file_roundtrip]).
      The directory: a finite map from names to files, under naming, moving, overwriting and
      removing ([dirfile_refines]), fresh file numbers ([dirfile_get_tmp_fresh]), complete listings ([dirfile_listing]), repair on
      opening ([dirfile_open_repairs]).
    - The secure file system: files refine strings of bytes with a commit
      ([ree_file_refines]) that is there when they are opened again, if there is any
      ([ree_commit_reopens]); elements of a tree do not overlap ([ree_layout_disjoint]);
      the reference count is that of the handles ([ree_refcount]).
    - Where the code does not: the theorems about undefined or surprising behaviour
      ([second_search_undefined], [failed_initialize_sticks],
      [hash_sign_ignores_tail], [failed_command_closes_fd0],
      [pack_sk_attrs_misplaced], [unpack_sk_attrs_32bit_wraps],
      [ta_find_objects_no_room], [ta_get_attributes_misplaced],
      [sk_get_attribute_null], [unlabelled_key_hides_token], [pub_key_len_wraps],
      [mp_tag_ignores_length], [interrupted_wait_zero_key], [get_param_range],
      [poll_timeout_spec], [rpmb_multi_frame_refused], [fs_rename_error_lost],
      [socket_stale_handle], [fresh_file_corrupt], [truncate_lost], [truncate_write_corrupt],
      [sparse_write_corrupt], [session_truncate], [session_stale_dir]).

    ** Fuel and bounds

    The two enumeration loops of secure_storage_find.c take fuel, and every
    theorem about them is for any fuel above the number of stored objects; the
    command then returns.  The link gives a command at least that much.  The loops of
    the supplicant that repeat an interrupted call, or read and write until done, take
    fuel too; the theorems about them are for any fuel above the number of interruptions
    the system has in store and the bytes or entries to go, and show that the loops
    end.  [serve] is cut off after any number of requests, as the loop of a thread has
    no end of its own.  The loops over
    the entries of the directory take fuel, and the theorems are for any fuel above their
    number, below 2^31.  A hash tree has fewer than 2^32 - 2 nodes; its functions recurse on
    the tree.  The theorems on bytes are for the first 2 GiB of a file, beyond which block
    numbers overflow.  All other loops are structural.  Pointers and [size_t] have 64 bits, except in
    [unpack_sk_attrs_32bit_wraps].  The refinement takes the values of one call to
    be short enough for the 16-bit lengths of the interface ([legal]).

    ** Not modelled

    - The TEE core but for its file layers, the kernel and the cryptography: third-party
      code behind the classes above.  Of the file layers: the variant that keeps the hash of
      the directory in RPMB (CFG_RPMB_FS, tee_rpmb_fs.c), the messages of tee_fs_rpc.c, the
      system calls of tee_svc_storage.c above, and the lock around each operation.
    - Trace and logging macros; time stamps of the benchmark framework.
    - PKCS#11 entry points that only return CKR_FUNCTION_NOT_SUPPORTED.
    - Threads: each call is one atomic step; the lock of the PKCS#11 library is
      modelled for one calling thread.  Of the supplicant's threads, the counter, the
      flag and the creation of threads interleave; the services run one at a time.
    - In the supplicant: the paths of the Android build, RPMB requests whose two buffers
      overlap, the usage message.
    - Concurrent requests of the kernel module, which share one completion and one
      status; a copy between kernel and process that stops half-way.
    - The command line tools but for the key file above: parsing of arguments, output
      and OpenSSL calls.  OpenSSL itself but for two padding functions.
    - The rest of the distribution (kernels, boot loaders, DPDK and the like):
      independent or vendored projects. *)

From stdpp Require Import base numbers list gmap.
From Stdlib Require Import ZArith Lia.

Declare Scope c_scope.
Delimit Scope c_scope with c.
Open Scope Z_scope.

(** ** Outcomes: a C computation returns a value or is undefined *)

(** [Undef] stands for a call without a defined result: an access outside an
    object, a null or dangling pointer dereference, a read of an unassigned
    variable, or a spin loop that never ends. *)
Inductive outcome (A : Type) : Type :=
| Ret (a : A)
| Undef.
Arguments Ret {A} a.
Arguments Undef {A}.

#[export] Instance outcome_ret : MRet outcome := fun A a => Ret a.
#[export] Instance outcome_bind : MBind outcome := fun A B f m =>
  match m with Ret a => f a | Undef => Undef end.
#[export] Instance outcome_fmap : FMap outcome := fun A B f m =>
  match m with Ret a => Ret (f a) | Undef => Undef end.
#[export] Instance outcome_eq_dec `{EqDecision A} : EqDecision (outcome A).
Proof. solve_decision. Defined.

(** An outcome is defined when it is not undefined behaviour. *)
Definition defined {A} (m : outcome A) : Prop := m <> Undef.

(** A Boolean guard: undefined behaviour when it fails. *)
Definition guard_c (b : bool) : outcome unit := if b then Ret tt else Undef.

(** The value behind a pointer that may be null. *)
Definition deref {A} (p : option A) : outcome A :=
  match p with Some a => Ret a | None => Undef end.

(** ** State passing: a C function that reads and writes a global state *)

Definition st (S A : Type) : Type := S -> outcome (A * S).

#[export] Instance st_ret {S} : MRet (st S) := fun A a s => Ret (a, s).
#[export] Instance st_bind {S} : MBind (st S) := fun A B f m s =>
  match m s with Ret (a, s') => f a s' | Undef => Undef end.

(** A stateless computation, a read of the state, and an update of it. *)
Definition lift {S A} (m : outcome A) : st S A := fun s =>
  match m with Ret a => Ret (a, s) | Undef => Undef end.
Definition gets {S A} (f : S -> A) : st S A := fun s => Ret (f s, s).
Definition modify {S} (f : S -> S) : st S unit := fun s => Ret (tt, f s).

(** ** Machine integers as [Z] with their wrap-around *)

Definition u8 (z : Z) : Z := z mod 2 ^ 8.
Definition u16 (z : Z) : Z := z mod 2 ^ 16.
Definition u32 (z : Z) : Z := z mod 2 ^ 32.
Definition u64 (z : Z) : Z := z mod 2 ^ 64.
Definition i16 (z : Z) : Z :=
  let r := u16 z in if r <? 2 ^ 15 then r else r - 2 ^ 16.
Definition i32 (z : Z) : Z := let r := u32 z in if r <? 2 ^ 31 then r else r - 2 ^ 32.
Definition i64 (z : Z) : Z := let r := u64 z in if r <? 2 ^ 63 then r else r - 2 ^ 64.

(** [ROUNDUP(v, size)] of securekey.c and secure_storage_helper.c. *)
Definition ROUNDUP (v size : Z) : Z := Z.land (v + (size - 1)) (Z.lnot (size - 1)).

(** ** Little-endian integers in byte lists *)

Fixpoint le_bytes (n : nat) (z : Z) : list Z :=
  match n with
  | O => []
  | S n' => z mod 256 :: le_bytes n' (z / 256)
  end.

Fixpoint le_val (bs : list Z) : Z :=
  match bs with
  | [] => 0
  | b :: r => b + 256 * le_val r
  end.

Definition is_byte (b : Z) : Prop := 0 <= b < 256.
#[export] Instance is_byte_dec b : Decision (is_byte b).
Proof. unfold is_byte. apply _. Defined.

(** ** Byte buffers: reads and writes that stay inside, or are undefined *)

Definition splice (b : list Z) (off : nat) (bs : list Z) : list Z :=
  take off b ++ bs ++ drop (off + length bs) b.

Definition in_range (b : list Z) (off len : Z) : bool :=
  (0 <=? off) && (0 <=? len) && (off + len <=? Z.of_nat (length b)).

Definition buf_read (b : list Z) (off len : Z) : outcome (list Z) :=
  if in_range b off len
  then Ret (take (Z.to_nat len) (drop (Z.to_nat off) b))
  else Undef.

Definition buf_write (b : list Z) (off : Z) (bs : list Z) : outcome (list Z) :=
  if in_range b off (Z.of_nat (length bs))
  then Ret (splice b (Z.to_nat off) bs)
  else Undef.

Definition read_u32 (b : list Z) (off : Z) : outcome Z :=
  le_val <$> buf_read b off 4.

Definition write_u32 (b : list Z) (off v : Z) : outcome (list Z) :=
  buf_write b off (le_bytes 4 v).

(** A fresh zero-filled block, as calloc, memset or TEE_Malloc give. *)
Definition zeros (n : Z) : list Z := replicate (Z.to_nat n) 0.

(** ** Automation *)

Create HintDb cmem.
Create Rewrite HintDb len.

(** Case analysis on the comparisons and tests a definition makes. *)
Ltac case_c :=
  repeat match goal with
  | H : context [if ?b then _ else _] |- _ => destruct b eqn:?
  | |- context [if ?b then _ else _] => destruct b eqn:?
  end.

(** Boolean hypotheses as propositions over [Z]. *)
Ltac boolz :=
  repeat match goal with
  | H : andb _ _ = true |- _ => apply andb_true_iff in H; destruct H
  | H : andb _ _ = false |- _ => apply andb_false_iff in H
  | H : orb _ _ = true |- _ => apply orb_true_iff in H
  | H : orb _ _ = false |- _ => apply orb_false_iff in H; destruct H
  | H : negb _ = true |- _ => apply negb_true_iff in H
  | H : negb _ = false |- _ => apply negb_false_iff in H
  | H : (_ =? _) = true |- _ => apply Z.eqb_eq in H
  | H : (_ =? _) = false |- _ => apply Z.eqb_neq in H
  | H : (_ <? _) = true |- _ => apply Z.ltb_lt in H
  | H : (_ <? _) = false |- _ => apply Z.ltb_ge in H
  | H : (_ <=? _) = true |- _ => apply Z.leb_le in H
  | H : (_ <=? _) = false |- _ => apply Z.leb_gt in H
  end.

(** Inverts a chain of binds that returned. *)
Ltac inv_ret :=
  repeat match goal with
  | H : Undef = Ret _ |- _ => discriminate H
  | H : Ret _ = Ret _ |- _ => injection H; clear H; intros; subst
  | H : mbind _ ?m = Ret _ |- _ =>
      destruct m eqn:?; cbn [mbind outcome_bind] in H; [| discriminate H]
  | H : fmap _ ?m = Ret _ |- _ =>
      destruct m eqn:?; cbn [fmap outcome_fmap] in H; [| discriminate H]
  | H : guard_c ?b = Ret _ |- _ => destruct b eqn:?; cbn in H; [| discriminate H]
  end.

(** Inverts a chain of state-passing binds that returned. *)
Lemma st_bind_inv {S A B} (f : A -> st S B) (m : st S A) s r :
  (m ≫= f) s = Ret r -> exists a s', m s = Ret (a, s') /\ f a s' = Ret r.
Proof.
  unfold mbind, st_bind. destruct (m s) as [[a s']|] eqn:E; [| done].
  intros H. by exists a, s'.
Qed.

Lemma st_run {S A B} (m : st S A) (f : A -> st S B) s a s' : m s = Ret (a, s') -> (m ≫= f) s = f a s'.
Proof. intros E. unfold mbind, st_bind. by rewrite E. Qed.

Lemma lift_inv {S A} (m : outcome A) (s : S) a s' :
  lift m s = Ret (a, s') -> m = Ret a /\ s' = s.
Proof. unfold lift. destruct m; [| done]. by intros [= -> ->]. Qed.

Lemma outcome_bind_inv {A B} (f : A -> outcome B) (m : outcome A) b :
  (m ≫= f) = Ret b -> exists a, m = Ret a /\ f a = Ret b.
Proof. destruct m as [a|]; [| done]. intros E. by exists a. Qed.

Ltac inv_st :=
  repeat match goal with
  | H : (_ ≫= _) _ = Ret _ |- _ =>
      let a := fresh "a" in let s := fresh "s" in let E := fresh "E" in
      apply st_bind_inv in H as (a & s & E & H)
  | H : mret _ _ = Ret _ |- _ => injection H; clear H; intros; subst
  | H : gets _ _ = Ret _ |- _ => injection H; clear H; intros; subst
  | H : modify _ _ = Ret _ |- _ => injection H; clear H; intros; subst
  | H : lift _ _ = Ret _ |- _ => apply lift_inv in H; destruct H as [? ?]; subst
  end.

#[export] Hint Rewrite @length_app @length_take @length_drop @length_replicate
  @length_cons @length_nil @length_fmap @length_insert : len.

Ltac len := autorewrite with len in *; cbn [length] in *; try lia.

(** A closed decidable goal, by evaluating its decision procedure. *)
Ltac decide_c := apply (bool_decide_unpack _); vm_compute; exact I.

(** ** Generic lemmas *)

Lemma ret_bind {A B} (a : A) (f : A -> outcome B) : (Ret a ≫= f) = f a.
Proof. reflexivity. Qed.

(** ** State computations that respect a relation *)

(** Whenever the computation returns, the states before and after are related. *)
Definition steps {S A} (R : S -> S -> Prop) (m : st S A) : Prop :=
  forall s a s', m s = Ret (a, s') -> R s s'.

(** Preservation of a predicate, as a relation. *)
Definition keeps {S} (I : S -> Prop) (s s' : S) : Prop := I s -> I s'.

#[export] Instance keeps_preorder {S} (I : S -> Prop) : PreOrder (keeps I).
Proof. unfold keeps. split; [intros ?; auto | intros ?????; auto]. Qed.

Create HintDb steps.

Section Steps.
Context {S : Type} (R : S -> S -> Prop) `{!PreOrder R}.

Lemma steps_ret {A} (a : A) : steps R (mret a).
Proof. intros s b s' [= <- <-]. reflexivity. Qed.
Lemma steps_gets {A} (f : S -> A) : steps R (gets f).
Proof. intros s b s' [= <- <-]. reflexivity. Qed.
Lemma steps_lift {A} (m : outcome A) : steps R (lift m).
Proof. intros s a s' [_ ->]%lift_inv. reflexivity. Qed.
Lemma steps_modify f : (forall s, R s (f s)) -> steps R (modify f).
Proof. intros H s b s' [= <- <-]. apply H. Qed.
Lemma steps_bind {A B} (m : st S A) (f : A -> st S B) :
  steps R m -> (forall a, steps R (f a)) -> steps R (m ≫= f).
Proof.
  intros Hm Hf s b s' (a & s1 & E1 & E2)%st_bind_inv.
  transitivity s1; [eapply Hm, E1 | eapply Hf, E2].
Qed.

(** The same with a fact about the result. *)
Definition post {A} (m : st S A) (Q : A -> Prop) : Prop :=
  forall s a s', m s = Ret (a, s') -> R s s' /\ Q a.

Lemma post_ret {A} (a : A) (Q : A -> Prop) : Q a -> post (mret a) Q.
Proof. intros HQ s b s' [= <- <-]. by split. Qed.
Lemma post_lift {A} (m : outcome A) : post (lift m) (fun a => m = Ret a).
Proof. intros s a s' [? ->]%lift_inv. by split. Qed.
Lemma post_steps {A} (m : st S A) : steps R m -> post m (fun _ => True).
Proof. intros Hm s a s' E. split; [eapply Hm, E | done]. Qed.
Lemma post_bind {A B} (m : st S A) (f : A -> st S B) (P : A -> Prop) (Q : B -> Prop) :
  post m P -> (forall a, P a -> post (f a) Q) -> post (m ≫= f) Q.
Proof.
  intros Hm Hf s b s' (a & s1 & E1 & E2)%st_bind_inv.
  apply Hm in E1 as [HR HP]. apply (Hf a HP) in E2 as [HR' HQ].
  split; [by transitivity s1 | done].
Qed.

End Steps.
Arguments post {S} R {A} m Q.
#[export] Hint Resolve steps_ret steps_gets steps_lift : steps.

(** Walks through a state-passing definition: binds, tests and matches. *)
Ltac steps_auto :=
  repeat first
    [ solve [auto with steps typeclass_instances]
    | apply steps_bind; [typeclasses eauto | | intros ?]
    | match goal with
      | |- steps _ (if ?b then _ else _) => destruct b eqn:?
      | |- steps _ (match ?x with _ => _ end) => destruct x eqn:?
      end ].

Lemma Forall_sub {A} (P : A -> Prop) l k : Forall P k -> l `sublist_of` k -> Forall P l.
Proof. rewrite !Forall_forall. intros H Hs x Hx. eapply H, elem_of_sublist; eauto. Qed.

Lemma length_splice b off bs :
  (off + length bs <= length b)%nat -> length (splice b off bs) = length b.
Proof. intros. unfold splice. len. Qed.

(** Writing two adjacent pieces is writing them at once. *)
Lemma splice_adjacent b off x y :
  (off + length x + length y <= length b)%nat ->
  splice (splice b off x) (off + length x) y = splice b off (x ++ y).
Proof.
  intros Hl. unfold splice. rewrite take_app_ge by len. rewrite length_take, Nat.min_l by lia.
  replace (off + length x - off)%nat with (length x) by lia. rewrite take_app_length.
  rewrite !drop_app_ge by len. rewrite !length_take, !Nat.min_l by lia. rewrite drop_drop.
  rewrite <- !app_assoc. do 4 f_equal. rewrite length_app. lia.
Qed.

Lemma splice_nil b off : splice b off [] = b.
Proof. unfold splice. cbn. by rewrite Nat.add_0_r, take_drop. Qed.

(** A region disjoint from a splice reads as before. *)
Lemma splice_other b off bs o n :
  (off + length bs <= length b)%nat ->
  (o + n <= off)%nat \/ (off + length bs <= o)%nat ->
  take n (drop o (splice b off bs)) = take n (drop o b).
Proof.
  intros Hb Ho. apply list_eq. intros i. destruct (decide (i < n)%nat) as [Hi|Hi].
  2: { rewrite !lookup_take_ge; [done | lia..]. }
  rewrite !lookup_take_lt, !lookup_drop by lia. unfold splice.
  destruct Ho as [Ho|Ho].
  - rewrite lookup_app_l by len. by rewrite lookup_take_lt by lia.
  - rewrite lookup_app_r by len. rewrite length_take.
    rewrite lookup_app_r by lia. rewrite lookup_drop. f_equal. lia.
Qed.

(** A region inside a splice reads what was written. *)
Lemma splice_same b off bs :
  (off + length bs <= length b)%nat ->
  take (length bs) (drop off (splice b off bs)) = bs.
Proof.
  intros Hb. unfold splice. rewrite drop_app_length' by len.
  by rewrite take_app_length.
Qed.

Lemma in_range_spec b off len :
  in_range b off len = true <-> 0 <= off /\ 0 <= len /\ off + len <= Z.of_nat (length b).
Proof. unfold in_range. rewrite !andb_true_iff, !Z.leb_le. tauto. Qed.

Lemma buf_read_ret b off len :
  0 <= off -> 0 <= len -> off + len <= Z.of_nat (length b) ->
  buf_read b off len = Ret (take (Z.to_nat len) (drop (Z.to_nat off) b)).
Proof. intros. unfold buf_read. by rewrite (proj2 (in_range_spec b off len)). Qed.

Lemma buf_read_length b off len v : buf_read b off len = Ret v -> Z.of_nat (length v) = len.
Proof.
  unfold buf_read. destruct (in_range b off len) eqn:E; [| done].
  apply in_range_spec in E. intros [= <-]. len.
Qed.

Lemma buf_write_ret b off bs :
  0 <= off -> off + Z.of_nat (length bs) <= Z.of_nat (length b) ->
  buf_write b off bs = Ret (splice b (Z.to_nat off) bs).
Proof. intros. unfold buf_write. rewrite (proj2 (in_range_spec _ _ _)); [done | lia]. Qed.

Lemma buf_write_inv b off bs b' :
  buf_write b off bs = Ret b' ->
  0 <= off /\ off + Z.of_nat (length bs) <= Z.of_nat (length b) /\
  b' = splice b (Z.to_nat off) bs.
Proof.
  unfold buf_write. destruct (in_range _ _ _) eqn:E; [| done].
  apply in_range_spec in E. intros [= <-]. split_and!; [lia.. | done].
Qed.

Lemma buf_write_length b off bs b' : buf_write b off bs = Ret b' -> length b' = length b.
Proof. intros (?&?&->)%buf_write_inv. apply length_splice. lia. Qed.

(** Writing leaves every disjoint region unchanged. *)
Lemma buf_read_write_other b off bs b' o n :
  buf_write b off bs = Ret b' ->
  o + n <= off \/ off + Z.of_nat (length bs) <= o ->
  buf_read b' o n = buf_read b o n.
Proof.
  intros Hw Hd. pose proof (buf_write_length _ _ _ _ Hw) as Hl.
  apply buf_write_inv in Hw as (H1 & H2 & ->). unfold buf_read, in_range.
  rewrite Hl. destruct (_ && _) eqn:E; [| done].
  fold (in_range b o n) in E. apply in_range_spec in E.
  rewrite splice_other; [done | lia | lia].
Qed.

Lemma buf_read_write_same b off bs b' :
  buf_write b off bs = Ret b' -> buf_read b' off (Z.of_nat (length bs)) = Ret bs.
Proof.
  intros Hw. pose proof (buf_write_length _ _ _ _ Hw) as Hl.
  apply buf_write_inv in Hw as (H1 & H2 & ->).
  rewrite buf_read_ret by lia. rewrite Nat2Z.id, splice_same by lia. done.
Qed.

Lemma length_le_bytes n z : length (le_bytes n z) = n.
Proof. revert z; induction n; intros; cbn; auto. Qed.

Lemma le_val_bytes n z : le_val (le_bytes n z) = z mod 2 ^ (8 * Z.of_nat n).
Proof.
  revert z; induction n as [|n IH]; intros z; cbn [le_bytes le_val].
  { by rewrite Z.mod_1_r. }
  rewrite IH. replace (8 * Z.of_nat (S n)) with (8 + 8 * Z.of_nat n) by lia.
  rewrite Z.pow_add_r, Z.rem_mul_r by lia. reflexivity.
Qed.

Lemma le_bytes_ok n z : Forall is_byte (le_bytes n z).
Proof.
  revert z; induction n as [|n IH]; intros z; constructor; [| apply IH].
  unfold is_byte. apply Z.mod_pos_bound. lia.
Qed.

Lemma le_val_bound bs :
  Forall is_byte bs -> 0 <= le_val bs < 2 ^ (8 * Z.of_nat (length bs)).
Proof.
  induction 1 as [|b r Hb Hr IH]; cbn [le_val length]; [lia |].
  replace (8 * Z.of_nat (S (length r))) with (8 + 8 * Z.of_nat (length r)) by lia.
  rewrite Z.pow_add_r by lia. unfold is_byte in Hb. lia.
Qed.

Lemma le_bytes_val bs :
  Forall is_byte bs -> le_bytes (length bs) (le_val bs) = bs.
Proof.
  induction 1 as [|b r Hb Hr IH]; cbn [le_val length le_bytes]; [done |].
  unfold is_byte in Hb. f_equal.
  - rewrite Z.mul_comm, Z_mod_plus_full. by apply Z.mod_small.
  - rewrite Z.mul_comm, Z_div_plus_full, (Z.div_small b 256), Z.add_0_l by lia. done.
Qed.

#[export] Hint Rewrite length_le_bytes : len.

Lemma read_write_u32_same b off v b' :
  write_u32 b off v = Ret b' -> read_u32 b' off = Ret (u32 v).
Proof.
  unfold write_u32, read_u32. intros Hw.
  apply buf_read_write_same in Hw. change (Z.of_nat (length (le_bytes 4 v))) with 4 in Hw.
  rewrite Hw. cbn [fmap outcome_fmap]. by rewrite le_val_bytes.
Qed.

Lemma u16_small z : 0 <= z < 2 ^ 16 -> u16 z = z.
Proof. apply Z.mod_small. Qed.
Lemma u32_small z : 0 <= z < 2 ^ 32 -> u32 z = z.
Proof. apply Z.mod_small. Qed.
Lemma u64_small z : 0 <= z < 2 ^ 64 -> u64 z = z.
Proof. apply Z.mod_small. Qed.
Lemma u16_bound z : 0 <= u16 z < 2 ^ 16.
Proof. apply Z.mod_pos_bound. lia. Qed.
Lemma u32_bound z : 0 <= u32 z < 2 ^ 32.
Proof. apply Z.mod_pos_bound. lia. Qed.

Lemma i16_small z : 0 <= z < 2 ^ 15 -> i16 z = z.
Proof. intros. unfold i16. rewrite u16_small by lia. case_c; boolz; lia. Qed.

Lemma i32_small z : - 2 ^ 31 <= z < 2 ^ 31 -> i32 z = z.
Proof.
  intros Hz. unfold i32, u32. destruct (decide (0 <= z)).
  - rewrite Z.mod_small by lia. rewrite (proj2 (Z.ltb_lt _ _)) by lia. done.
  - replace (z mod 2 ^ 32) with (z + 2 ^ 32) by (apply (Z.mod_unique_pos _ _ (-1)); lia).
    rewrite (proj2 (Z.ltb_ge _ _)) by lia. lia.
Qed.

(** [ROUNDUP(v, 4)] is the least multiple of four not below [v]. *)
Lemma ROUNDUP_4 v : ROUNDUP v 4 = 4 * ((v + 3) / 4).
Proof.
  unfold ROUNDUP. change (4 - 1) with (Z.ones 2).
  rewrite <- Z.ldiff_land, Z.ldiff_ones_r by lia.
  rewrite Z.shiftl_mul_pow2, Z.shiftr_div_pow2 by lia. apply Z.mul_comm.
Qed.

Lemma ROUNDUP_4_bounds v : v <= ROUNDUP v 4 < v + 4.
Proof. rewrite ROUNDUP_4. Z.div_mod_to_equations. lia. Qed.

(** A write inside the buffer succeeds, keeps the length, is read back, and
    leaves the rest alone. *)
Lemma buf_write_ok b off bs :
  0 <= off -> off + Z.of_nat (length bs) <= Z.of_nat (length b) ->
  exists b', buf_write b off bs = Ret b' /\ length b' = length b /\
    buf_read b' off (Z.of_nat (length bs)) = Ret bs /\
    (forall o n, o + n <= off \/ off + Z.of_nat (length bs) <= o ->
       buf_read b' o n = buf_read b o n).
Proof.
  intros H1 H2. pose proof (buf_write_ret _ _ _ H1 H2) as Hw. eexists; split_and!.
  - exact Hw.
  - eapply buf_write_length, Hw.
  - eapply buf_read_write_same, Hw.
  - intros. eapply buf_read_write_other; eauto.
Qed.

Lemma write_u32_ok b off v :
  0 <= off -> off + 4 <= Z.of_nat (length b) ->
  exists b', write_u32 b off v = Ret b' /\ length b' = length b /\
    read_u32 b' off = Ret (u32 v) /\
    (forall o n, o + n <= off \/ off + 4 <= o -> buf_read b' o n = buf_read b o n).
Proof.
  intros H1 H2. destruct (buf_write_ok b off (le_bytes 4 v)) as (b' & Hw & Hl & _ & Ho);
    [done | by rewrite length_le_bytes |].
  exists b'. split_and!; [done.. | by eapply read_write_u32_same | done].
Qed.

(** An address or handle above those in use. *)
Definition above (live : gset Z) : Z := 1 + set_fold Z.max 0 live.

Lemma above_spec live : 0 < above live /\ forall a, a ∈ live -> a < above live.
Proof.
  unfold above. enough (H : 0 <= set_fold Z.max 0 live /\ forall a, a ∈ live -> a <= set_fold Z.max 0 live).
  { destruct H as [? H]. split; [lia |]. intros a Ha. specialize (H a Ha). lia. }
  apply (set_fold_ind_L (fun r X => 0 <= r /\ forall a, a ∈ X -> a <= r)); [set_solver by lia |].
  intros x X r _ [H1 H2]. split; [lia |]. intros a [Ha%elem_of_singleton|Ha]%elem_of_union; [lia |].
  specialize (H2 a Ha). lia.
Qed.
Lemma above_not_in (X : gset Z) : above X ∉ X.
Proof. intros Hin. apply above_spec in Hin. lia. Qed.
