(* ===== verification/SkTypes.v ===== *)
(** * Constants and data of the secure-object interfaces

    The return codes, object types, attribute types and mechanisms of
    securekey_api_types.h, the attribute record [SK_ATTRIBUTE], and the result
    codes, flags, parameter types and algorithm identifiers that the TA takes
    from the TEE internal API headers and the client library from the TEE
    client API header. *)

From stdpp Require Import base numbers list.
From S2P Require Import Prelude.


(** ** Return codes of the SK library (securekey_api_types.h) *)

Definition SKR_OK : Z := 0x9000.
Definition SKR_ERR_NOT_SUPPORTED : Z := 0x7080.
Definition SKR_ERR_GENERAL_ERROR : Z := 0x7021.
Definition SKR_ERR_SHORT_BUFFER : Z := 0x7026.
Definition SKR_ERR_CRYPTO_ENGINE_FAILED : Z := 0x7027.
Definition SKR_ERR_IDENT_IDX_RANGE : Z := 0x7032.
Definition SKR_ERR_INIT_FAILED : Z := 0x6001.
Definition SKR_ERR_TEE_API : Z := 0x6002.
Definition SKR_ERR_TEE_COMM : Z := 0x6003.
Definition SKR_ERR_TEE_OS : Z := 0x6004.
Definition SKR_ERR_ACCESS_DENIED : Z := 0x6005.
Definition SKR_ERR_CANCEL : Z := 0x6006.
Definition SKR_ERR_ACCESS_CONFLICT : Z := 0x6007.
Definition SKR_ERR_EXCESS_DATA : Z := 0x6008.
Definition SKR_ERR_BAD_FORMAT : Z := 0x6009.
Definition SKR_ERR_BAD_PARAMETERS : Z := 0x6010.
Definition SKR_ERR_BAD_STATE : Z := 0x6011.
Definition SKR_ERR_ITEM_NOT_FOUND : Z := 0x6012.
Definition SKR_ERR_NOT_IMPLEMENTED : Z := 0x6013.
Definition SKR_ERR_NO_DATA : Z := 0x6015.
Definition SKR_ERR_OUT_OF_MEMORY : Z := 0x6016.
Definition SKR_ERR_BUSY : Z := 0x6017.
Definition SKR_ERR_COMMUNICATION : Z := 0x6018.
Definition SKR_ERR_SECURITY : Z := 0x6019.
Definition SKR_ERR_OBJECT_HANDLE_INVALID : Z := 0x6020.

(** ** Object, key and attribute types *)

Definition SK_ANY_TYPE : Z := 0x00000000.
Definition SK_KEY_PAIR : Z := 0x00010000.
Definition SK_PUBLIC_KEY : Z := 0x00020000.
Definition SKK_RSA : Z := 0x00000000.
Definition SKK_EC : Z := 0x00000001.
Definition SK_ATTR_OBJECT_TYPE : Z := 0.
Definition SK_ATTR_OBJECT_INDEX : Z := 1.
Definition SK_ATTR_OBJECT_LABEL : Z := 2.
Definition SK_ATTR_OBJECT_VALUE : Z := 3.
Definition SK_ATTR_KEY_TYPE : Z := 5.
Definition SK_ATTR_MODULUS_BITS : Z := 30.
Definition SK_ATTR_MODULUS : Z := 31.
Definition SK_ATTR_PUBLIC_EXPONENT : Z := 32.
Definition SK_ATTR_PRIVATE_EXPONENT : Z := 33.
Definition SK_ATTR_PRIME_1 : Z := 34.
Definition SK_ATTR_PRIME_2 : Z := 35.
Definition SK_ATTR_EXPONENT_1 : Z := 36.
Definition SK_ATTR_EXPONENT_2 : Z := 37.
Definition SK_ATTR_COEFFICIENT : Z := 38.

(** ** Mechanisms *)

Definition SKM_RSAES_PKCS1_V1_5 : Z := 101.
Definition SKM_RSAES_PKCS1_OAEP_MGF1_SHA1 : Z := 102.
Definition SKM_RSAES_PKCS1_OAEP_MGF1_SHA224 : Z := 103.
Definition SKM_RSAES_PKCS1_OAEP_MGF1_SHA256 : Z := 104.
Definition SKM_RSAES_PKCS1_OAEP_MGF1_SHA384 : Z := 105.
Definition SKM_RSAES_PKCS1_OAEP_MGF1_SHA512 : Z := 106.
Definition SKM_RSA_PKCS_NOPAD : Z := 107.
Definition SKM_RSASSA_PKCS1_V1_5_MD5 : Z := 111.
Definition SKM_RSASSA_PKCS1_V1_5_SHA1 : Z := 112.
Definition SKM_RSASSA_PKCS1_V1_5_SHA224 : Z := 113.
Definition SKM_RSASSA_PKCS1_V1_5_SHA256 : Z := 114.
Definition SKM_RSASSA_PKCS1_V1_5_SHA384 : Z := 115.
Definition SKM_RSASSA_PKCS1_V1_5_SHA512 : Z := 116.
Definition SKM_RSASSA_PKCS1_PSS_MGF1_SHA1 : Z := 117.
Definition SKM_RSASSA_PKCS1_PSS_MGF1_SHA224 : Z := 118.
Definition SKM_RSASSA_PKCS1_PSS_MGF1_SHA256 : Z := 119.
Definition SKM_RSASSA_PKCS1_PSS_MGF1_SHA384 : Z := 120.
Definition SKM_RSASSA_PKCS1_PSS_MGF1_SHA512 : Z := 121.
Definition SKM_MD5 : Z := 131.
Definition SKM_SHA1 : Z := 132.
Definition SKM_SHA224 : Z := 133.
Definition SKM_SHA256 : Z := 134.
Definition SKM_SHA384 : Z := 135.
Definition SKM_SHA512 : Z := 136.
Definition SKM_RSA_PKCS_KEY_PAIR_GEN : Z := 141.

(** ** Command identifiers of the TA (ta_secure_storage.h) *)

Definition TEE_CREATE_OBJECT : Z := 0x1.
Definition TEE_FIND_OBJECTS : Z := 0x2.
Definition TEE_GET_OBJ_ATTRIBUTES : Z := 0x3.
Definition TEE_ERASE_OBJECT : Z := 0x4.
Definition TEE_SIGN_DIGEST : Z := 0x5.
Definition TEE_DECRYPT_DATA : Z := 0x6.
Definition TEE_DIGEST_DATA : Z := 0x7.
Definition TEE_GENERATE_KEYPAIR : Z := 0x8.

(** ** TEE internal API (tee_api_defines.h) *)

Definition TEE_SUCCESS : Z := 0x00000000.
Definition TEE_ERROR_GENERIC : Z := 0xffff0000.
Definition TEE_ERROR_ACCESS_CONFLICT : Z := 0xffff0003.
Definition TEE_ERROR_BAD_PARAMETERS : Z := 0xffff0006.
Definition TEE_ERROR_BAD_STATE : Z := 0xffff0007.
Definition TEE_ERROR_ITEM_NOT_FOUND : Z := 0xffff0008.
Definition TEE_ERROR_NOT_SUPPORTED : Z := 0xffff000a.
Definition TEE_ERROR_OUT_OF_MEMORY : Z := 0xffff000c.
Definition TEE_ERROR_SHORT_BUFFER : Z := 0xffff0010.
Definition TEE_ERROR_STORAGE_NO_SPACE : Z := 0xffff3041.
Definition TEE_PARAM_TYPE_NONE : Z := 0.
Definition TEE_PARAM_TYPE_VALUE_INPUT : Z := 1.
Definition TEE_PARAM_TYPE_VALUE_OUTPUT : Z := 2.
Definition TEE_PARAM_TYPE_MEMREF_INPUT : Z := 5.
Definition TEE_PARAM_TYPE_MEMREF_OUTPUT : Z := 6.
Definition TEE_PARAM_TYPE_MEMREF_INOUT : Z := 7.
Definition TEE_DATA_FLAG_ACCESS_READ : Z := 0x00000001.
Definition TEE_DATA_FLAG_ACCESS_WRITE : Z := 0x00000002.
Definition TEE_DATA_FLAG_ACCESS_WRITE_META : Z := 0x00000004.
Definition TEE_DATA_FLAG_SHARE_READ : Z := 0x00000010.
Definition TEE_DATA_FLAG_SHARE_WRITE : Z := 0x00000020.
Definition TEE_DATA_FLAG_OVERWRITE : Z := 0x00000400.
Definition TEE_OBJECT_ID_MAX_LEN : Z := 64.
Definition TEE_ALG_RSASSA_PKCS1_V1_5_MD5 : Z := 0x70001830.
Definition TEE_ALG_RSASSA_PKCS1_V1_5_SHA1 : Z := 0x70002830.
Definition TEE_ALG_RSASSA_PKCS1_V1_5_SHA224 : Z := 0x70003830.
Definition TEE_ALG_RSASSA_PKCS1_V1_5_SHA256 : Z := 0x70004830.
Definition TEE_ALG_RSASSA_PKCS1_V1_5_SHA384 : Z := 0x70005830.
Definition TEE_ALG_RSASSA_PKCS1_V1_5_SHA512 : Z := 0x70006830.
Definition TEE_ALG_RSAES_PKCS1_V1_5 : Z := 0x60000130.
Definition TEE_ALG_RSA_NOPAD : Z := 0x60000030.
Definition TEE_ALG_MD5 : Z := 0x50000001.
Definition TEE_ALG_SHA1 : Z := 0x50000002.
Definition TEE_ALG_SHA224 : Z := 0x50000003.
Definition TEE_ALG_SHA256 : Z := 0x50000004.
Definition TEE_ALG_SHA384 : Z := 0x50000005.
Definition TEE_ALG_SHA512 : Z := 0x50000006.
Definition TEE_TYPE_RSA_PUBLIC_KEY : Z := 0xa0000030.
Definition TEE_TYPE_RSA_KEYPAIR : Z := 0xa1000030.
Definition TEE_ATTR_RSA_MODULUS : Z := 0xd0000130.
Definition TEE_ATTR_RSA_PUBLIC_EXPONENT : Z := 0xd0000230.
Definition TEE_ATTR_RSA_PRIVATE_EXPONENT : Z := 0xc0000330.
Definition TEE_ATTR_RSA_PRIME1 : Z := 0xc0000430.
Definition TEE_ATTR_RSA_PRIME2 : Z := 0xc0000530.
Definition TEE_ATTR_RSA_EXPONENT1 : Z := 0xc0000630.
Definition TEE_ATTR_RSA_EXPONENT2 : Z := 0xc0000730.
Definition TEE_ATTR_RSA_COEFFICIENT : Z := 0xc0000830.

Definition TEE_MODE_DECRYPT : Z := 1.
Definition TEE_MODE_SIGN : Z := 2.
Definition TEE_MODE_DIGEST : Z := 5.
Definition TEE_DATA_SEEK_SET : Z := 0.
Definition TEE_HANDLE_NULL : Z := 0.

Definition TEE_MD5_HASH_SIZE : Z := 16.
Definition TEE_SHA1_HASH_SIZE : Z := 20.
Definition TEE_SHA224_HASH_SIZE : Z := 28.
Definition TEE_SHA256_HASH_SIZE : Z := 32.
Definition TEE_SHA384_HASH_SIZE : Z := 48.
Definition TEE_SHA512_HASH_SIZE : Z := 64.

(** ** TEE client API (tee_client_api.h) *)

Definition TEEC_NONE : Z := 0x00000000.
Definition TEEC_VALUE_INPUT : Z := 0x00000001.
Definition TEEC_VALUE_OUTPUT : Z := 0x00000002.
Definition TEEC_VALUE_INOUT : Z := 0x00000003.
Definition TEEC_MEMREF_TEMP_INPUT : Z := 0x00000005.
Definition TEEC_MEMREF_TEMP_OUTPUT : Z := 0x00000006.
Definition TEEC_MEMREF_TEMP_INOUT : Z := 0x00000007.
Definition TEEC_MEMREF_WHOLE : Z := 0x0000000c.
Definition TEEC_MEMREF_PARTIAL_INPUT : Z := 0x0000000d.
Definition TEEC_MEMREF_PARTIAL_OUTPUT : Z := 0x0000000e.
Definition TEEC_MEMREF_PARTIAL_INOUT : Z := 0x0000000f.
Definition TEEC_MEM_INPUT : Z := 0x00000001.
Definition TEEC_MEM_OUTPUT : Z := 0x00000002.
Definition TEEC_SUCCESS : Z := 0x00000000.
Definition TEEC_ERROR_GENERIC : Z := 0xffff0000.
Definition TEEC_ERROR_ACCESS_DENIED : Z := 0xffff0001.
Definition TEEC_ERROR_CANCEL : Z := 0xffff0002.
Definition TEEC_ERROR_ACCESS_CONFLICT : Z := 0xffff0003.
Definition TEEC_ERROR_EXCESS_DATA : Z := 0xffff0004.
Definition TEEC_ERROR_BAD_FORMAT : Z := 0xffff0005.
Definition TEEC_ERROR_BAD_PARAMETERS : Z := 0xffff0006.
Definition TEEC_ERROR_BAD_STATE : Z := 0xffff0007.
Definition TEEC_ERROR_ITEM_NOT_FOUND : Z := 0xffff0008.
Definition TEEC_ERROR_NOT_IMPLEMENTED : Z := 0xffff0009.
Definition TEEC_ERROR_NOT_SUPPORTED : Z := 0xffff000a.
Definition TEEC_ERROR_NO_DATA : Z := 0xffff000b.
Definition TEEC_ERROR_OUT_OF_MEMORY : Z := 0xffff000c.
Definition TEEC_ERROR_BUSY : Z := 0xffff000d.
Definition TEEC_ERROR_COMMUNICATION : Z := 0xffff000e.
Definition TEEC_ERROR_SECURITY : Z := 0xffff000f.
Definition TEEC_ERROR_SHORT_BUFFER : Z := 0xffff0010.
Definition TEEC_ERROR_EXTERNAL_CANCEL : Z := 0xffff0011.
Definition TEEC_ERROR_TARGET_DEAD : Z := 0xffff3024.
Definition TEEC_ORIGIN_API : Z := 0x00000001.
Definition TEEC_ORIGIN_COMMS : Z := 0x00000002.
Definition TEEC_ORIGIN_TEE : Z := 0x00000003.
Definition TEEC_ORIGIN_TRUSTED_APP : Z := 0x00000004.
Definition TEEC_LOGIN_PUBLIC : Z := 0x00000000.

(** ** Parameter type words *)

(** [TEE_PARAM_TYPES] and [TEEC_PARAM_TYPES] build the same word. *)
Definition TEE_PARAM_TYPES (t0 t1 t2 t3 : Z) : Z :=
  Z.lor t0 (Z.lor (Z.shiftl t1 4) (Z.lor (Z.shiftl t2 8) (Z.shiftl t3 12))).
Definition TEEC_PARAM_TYPES (p0 p1 p2 p3 : Z) : Z :=
  Z.lor p0 (Z.lor (Z.shiftl p1 4) (Z.lor (Z.shiftl p2 8) (Z.shiftl p3 12))).

(** ** Attributes *)

(** [struct SK_ATTRIBUTE]: [sa_value] is the memory reachable from the [value]
    pointer up to the end of its object, [None] for a null pointer;
    [sa_valueLen] is a [uint16_t]. *)
Record SK_ATTRIBUTE := mkSK {
  sa_type : Z;
  sa_value : option (list Z);
  sa_valueLen : Z
}.
#[export] Instance SK_ATTRIBUTE_eq_dec : EqDecision SK_ATTRIBUTE.
Proof. solve_decision. Defined.

(** [struct SK_MECHANISM_INFO]: the code only uses its mechanism. *)
Record SK_MECHANISM_INFO := mkMech { mechanism : Z }.
