(* ===== verification/AttrCodec.v ===== *)
(** * Serialised attributes

    The wire format both sides of the TEE boundary use for attribute arrays:
    a 32-bit count, an array of twelve-byte entries (identifier, offset of the
    value, length), then the values, each padded to four bytes.
    [pack_attrs], [get_attr_size] and [client_unpack_sk_attrs] are the client
    library's side (securekey.c), [pack_sk_attrs], [unpack_sk_attrs],
    [TA_GetSKAttr] and [TA_CompareSKAttr] the trusted application's
    (secure_storage_helper.c).  Buffers are byte lists; an access outside one
    is [Undef], so a theorem that a routine returns is also a proof of its
    memory safety.  The theorems: the round trips client -> TA and TA -> TA,
    the safety of the TA's parser on arbitrary bytes, and what goes wrong
    outside their hypotheses. *)

From stdpp Require Import base numbers list.
From S2P Require Import Prelude SkTypes.

(** ** Sizes of the C structures *)

Definition sizeof_attr_packed : Z := 12.
Definition sizeof_uint32 : Z := 4.
(** [struct SK_ATTRIBUTE] by pointer width. *)
Definition sizeof_SK_ATTRIBUTE (wb : Z) : Z := if wb =? 64 then 24 else 12.

(** Byte offset of the fields of the packed entry [a[i]]. *)
Definition ent_id (i : Z) : Z := sizeof_uint32 + sizeof_attr_packed * i.
Definition ent_a (i : Z) : Z := ent_id i + 4.
Definition ent_b (i : Z) : Z := ent_id i + 8.

(** ** Client side (securekey.c) *)

(** [attrs[0 .. cnt-1]] of an array that may be a null pointer. *)
Definition attr_prefix (attrs : option (list SK_ATTRIBUTE)) (cnt : Z)
  : outcome (list SK_ATTRIBUTE) :=
  if cnt =? 0 then Ret []
  else l ← deref attrs;
       if cnt <=? Z.of_nat (length l) then Ret (take (Z.to_nat cnt) l) else Undef.

(** The [len] bytes at a pointer: null or too short is undefined, except that
    nothing is read when [len] is zero. *)
Definition mem_read (p : option (list Z)) (len : Z) : outcome (list Z) :=
  if len =? 0 then Ret [] else m ← deref p; buf_read m 0 len.

(** [memcpy] to the start of the memory at a pointer. *)
Definition mem_store (p : option (list Z)) (v : list Z) : outcome (option (list Z)) :=
  if Z.of_nat (length v) =? 0 then Ret p
  else m ← deref p; m' ← buf_write m 0 v; Ret (Some m').

Fixpoint pack_attrs_loop (attrs : list SK_ATTRIBUTE) (i b : Z) (buffer : list Z)
  : outcome (list Z) :=
  match attrs with
  | [] => Ret buffer
  | x :: rest =>
      buffer ← write_u32 buffer (ent_id i) (sa_type x);
      buffer ← write_u32 buffer (ent_b i) (sa_valueLen x);
      if sa_valueLen x =? 0
      then buffer ← write_u32 buffer (ent_a i) 0;
           pack_attrs_loop rest (i + 1) b buffer
      else v ← mem_read (sa_value x) (sa_valueLen x);
           buffer ← buf_write buffer b v;
           buffer ← write_u32 buffer (ent_a i) (u32 b);
           pack_attrs_loop rest (i + 1) (b + ROUNDUP (sa_valueLen x) 4) buffer
  end.

Definition pack_attrs (buffer : option (list Z)) (size : Z)
    (attrs : option (list SK_ATTRIBUTE)) (attr_cnt : Z)
  : outcome (Z * option (list Z)) :=
  match buffer with
  | None => Ret (SKR_ERR_BAD_PARAMETERS, None)
  | Some b0 =>
      if size =? 0 then Ret (SKR_ERR_BAD_PARAMETERS, buffer)
      else
        b1 ← write_u32 b0 0 attr_cnt;
        l ← attr_prefix attrs attr_cnt;
        b2 ← pack_attrs_loop l 0 (sizeof_uint32 + sizeof_attr_packed * attr_cnt) b1;
        Ret (SKR_OK, Some b2)
  end.

(** Room the values need, each rounded up; empty values take none. *)
Fixpoint values_size (attrs : list SK_ATTRIBUTE) : Z :=
  match attrs with
  | [] => 0
  | x :: rest =>
      (if sa_valueLen x =? 0 then 0 else ROUNDUP (sa_valueLen x) 4) + values_size rest
  end.

Definition get_attr_size (attrs : option (list SK_ATTRIBUTE)) (attr_cnt : Z) : outcome Z :=
  if (attr_cnt =? 0) || (match attrs with None => true | _ => false end)
  then Ret sizeof_uint32
  else l ← attr_prefix attrs attr_cnt;
       Ret (sizeof_uint32 + sizeof_attr_packed * attr_cnt + values_size l).

(** The loop of the client's [unpack_sk_attrs] from entry [n] on: it fills the
    caller's array in place, so what it has written stays when it fails. *)
Fixpoint client_unpack_loop (buf : list Z) (todo : nat) (n : Z) (a : list SK_ATTRIBUTE)
  : outcome (Z * list SK_ATTRIBUTE) :=
  match todo with
  | O => Ret (TEEC_SUCCESS, a)
  | S todo' =>
      x ← deref (a !! Z.to_nat n);
      id ← read_u32 buf (ent_id n);
      b ← read_u32 buf (ent_b n);
      let a1 := <[Z.to_nat n := mkSK id (sa_value x) (u16 b)]> a in
      p ← read_u32 buf (ent_a n);
      if negb (p =? 0) && (Z.of_nat (length buf) <? u64 (p + u16 b))
      then Ret (TEEC_ERROR_GENERIC, a1)
      else if p =? 0 then client_unpack_loop buf todo' (n + 1) a1
      else v ← buf_read buf p (u16 b);
           val ← mem_store (sa_value x) v;
           client_unpack_loop buf todo' (n + 1)
             (<[Z.to_nat n := mkSK id val (u16 b)]> a)
  end.

(** Result code, the caller's array afterwards, and the new count if set. *)
Definition client_unpack_sk_attrs (buf_addr : Z) (buf : list Z) (attrs : list SK_ATTRIBUTE)
  : outcome (Z * list SK_ATTRIBUTE * option Z) :=
  let blen := Z.of_nat (length buf) in
  if blen =? 0 then Ret (TEEC_SUCCESS, attrs, Some 0)
  else if negb (Z.land buf_addr 3 =? 0) || (blen <? sizeof_uint32)
  then Ret (TEEC_ERROR_GENERIC, attrs, None)
  else
    num_attrs ← read_u32 buf 0;
    if blen - sizeof_uint32 <? u64 (num_attrs * sizeof_attr_packed)
    then Ret (TEEC_ERROR_GENERIC, attrs, None)
    else
      '(res, a) ← client_unpack_loop buf (Z.to_nat num_attrs) 0 attrs;
      Ret (res, a, if res =? TEEC_SUCCESS then Some num_attrs else None).

(** ** Trusted application side (secure_storage_helper.c) *)

(** The attribute types [pack_sk_attrs] serialises. *)
Definition packable (ty : Z) : bool :=
  (ty =? SK_ATTR_OBJECT_TYPE) || (ty =? SK_ATTR_OBJECT_INDEX) ||
  (ty =? SK_ATTR_KEY_TYPE) || (ty =? SK_ATTR_OBJECT_LABEL) ||
  (ty =? SK_ATTR_MODULUS_BITS) || (ty =? SK_ATTR_MODULUS) ||
  (ty =? SK_ATTR_PUBLIC_EXPONENT).

(** Whether a value is written: a non-null pointer and a positive length as
    [int16_t]. *)
Definition has_value (x : SK_ATTRIBUTE) : bool :=
  match sa_value x with None => false | Some _ => 0 <? i16 (sa_valueLen x) end.

(** First loop of [pack_sk_attrs]: bytes needed and number of entries. *)
Fixpoint pack_size (attrs : list SK_ATTRIBUTE) (bl attr_pack : Z) : Z * Z :=
  match attrs with
  | [] => (bl, attr_pack)
  | x :: rest =>
      if packable (sa_type x)
      then pack_size rest
             (bl + sizeof_attr_packed
              + (if has_value x then ROUNDUP (sa_valueLen x) 4 else 0))
             (attr_pack + 1)
      else pack_size rest bl attr_pack
  end.

(** Second loop, from attribute [n] on: the entry written is [a[n]]. *)
Fixpoint pack_sk_loop (attrs : list SK_ATTRIBUTE) (n b : Z) (buf : list Z)
  : outcome (list Z) :=
  match attrs with
  | [] => Ret buf
  | x :: rest =>
      if packable (sa_type x)
      then
        buf ← write_u32 buf (ent_id n) (sa_type x);
        buf ← write_u32 buf (ent_b n) (sa_valueLen x);
        if negb (has_value x)
        then buf ← write_u32 buf (ent_a n) 0;
             pack_sk_loop rest (n + 1) b buf
        else v ← mem_read (sa_value x) (sa_valueLen x);
             buf ← buf_write buf b v;
             buf ← write_u32 buf (ent_a n) (u32 b);
             pack_sk_loop rest (n + 1) (b + ROUNDUP (sa_valueLen x) 4) buf
      else pack_sk_loop rest (n + 1) b buf
  end.

(** [malloc_ok] is the outcome of the one [TEE_Malloc] the routine makes. *)
Definition pack_sk_attrs (malloc_ok : bool) (attrs : list SK_ATTRIBUTE)
  : outcome (Z * option (list Z)) :=
  match attrs with
  | [] => Ret (TEE_SUCCESS, None)
  | _ =>
      let '(bl, attr_pack) := pack_size attrs sizeof_uint32 0 in
      if malloc_ok then
        b0 ← write_u32 (zeros bl) 0 attr_pack;
        b1 ← pack_sk_loop attrs 0 (sizeof_uint32 + sizeof_attr_packed * attr_pack) b0;
        Ret (TEE_SUCCESS, Some b1)
      else Ret (TEE_ERROR_OUT_OF_MEMORY, None)
  end.

(** An unpacked attribute: its value points into the buffer it was read from,
    so it is kept as an offset ([None] for the null pointer). *)
Record sk_ref := mkRef { r_type : Z; r_value : option Z; r_valueLen : Z }.
#[export] Instance sk_ref_eq_dec : EqDecision sk_ref.
Proof. solve_decision. Defined.

(** Loop of the TA's [unpack_sk_attrs]; [None] is TEE_ERROR_BAD_PARAMETERS.
    [wb] is the width of [size_t] and [uintptr_t], [cap] the number of
    attributes the allocated array holds. *)
Fixpoint unpack_loop (wb cap : Z) (buf : list Z) (todo : nat) (n : Z)
  : outcome (option (list sk_ref)) :=
  match todo with
  | O => Ret (Some [])
  | S todo' =>
      guard_c (n <? cap);;
      id ← read_u32 buf (ent_id n);
      b ← read_u32 buf (ent_b n);
      p ← read_u32 buf (ent_a n);
      if negb (p =? 0) && (Z.of_nat (length buf) <? (p + u16 b) mod 2 ^ wb)
      then Ret None
      else
        r ← unpack_loop wb cap buf todo' (n + 1);
        Ret (match r with
             | None => None
             | Some l => Some (mkRef id (if p =? 0 then None else Some p) (u16 b) :: l)
             end)
  end.

Definition unpack_sk_attrs (wb : Z) (malloc_ok : bool) (buf_addr : Z) (buf : list Z)
  : outcome (Z * list sk_ref) :=
  let blen := Z.of_nat (length buf) in
  if blen =? 0 then Ret (TEE_SUCCESS, [])
  else if negb (Z.land buf_addr 3 =? 0) || (blen <? sizeof_uint32)
  then Ret (TEE_ERROR_BAD_PARAMETERS, [])
  else
    num_attrs ← read_u32 buf 0;
    if blen - sizeof_uint32 <? (num_attrs * sizeof_attr_packed) mod 2 ^ wb
    then Ret (TEE_ERROR_BAD_PARAMETERS, [])
    else if num_attrs =? 0 then Ret (TEE_SUCCESS, [])
    else if negb malloc_ok then Ret (TEE_ERROR_OUT_OF_MEMORY, [])
    else
      let cap := (num_attrs * sizeof_SK_ATTRIBUTE wb) mod 2 ^ wb / sizeof_SK_ATTRIBUTE wb in
      r ← unpack_loop wb cap buf (Z.to_nat num_attrs) 0;
      Ret (match r with
           | Some a => (TEE_SUCCESS, a)
           | None => (TEE_ERROR_BAD_PARAMETERS, [])
           end).

(** The attribute a reference into [buf] denotes. *)
Definition sk_of_ref (buf : list Z) (r : sk_ref) : SK_ATTRIBUTE :=
  mkSK (r_type r) ((fun p => drop (Z.to_nat p) buf) <$> r_value r) (r_valueLen r).

(** First attribute of the type, [None] for the null result. *)
Fixpoint TA_GetSKAttr (type : Z) (attrs : list sk_ref) : option sk_ref :=
  match attrs with
  | [] => None
  | x :: rest => if type =? r_type x then Some x else TA_GetSKAttr type rest
  end.

(** 1 when the attributes match: type, length, then [memcmp] of the values. *)
Definition TA_CompareSKAttr (buf1 : list Z) (a1 : sk_ref) (buf2 : list Z) (a2 : sk_ref)
  : outcome Z :=
  if negb (r_type a1 =? r_type a2) then Ret 0
  else if negb (r_valueLen a1 =? r_valueLen a2) then Ret 0
  else
    v1 ← mem_read (sa_value (sk_of_ref buf1 a1)) (r_valueLen a1);
    v2 ← mem_read (sa_value (sk_of_ref buf2 a2)) (r_valueLen a1);
    Ret (if decide (v1 = v2) then 1 else 0).

(** ** What a packed buffer says *)

(** The content of an attribute as it travels: type, length and the value when
    one is sent. *)
Record wire := mkWire { w_type : Z; w_len : Z; w_payload : option (list Z) }.

Definition payload_of (sends : bool) (x : SK_ATTRIBUTE) : option (list Z) :=
  if sends then take (Z.to_nat (sa_valueLen x)) <$> sa_value x else None.

Definition client_wire (x : SK_ATTRIBUTE) : wire :=
  mkWire (sa_type x) (sa_valueLen x) (payload_of (negb (sa_valueLen x =? 0)) x).

Definition ta_wire (x : SK_ATTRIBUTE) : wire :=
  mkWire (sa_type x) (sa_valueLen x) (payload_of (has_value x) x).

(** The wire content a reference into [buf] denotes. *)
Definition ref_wire (buf : list Z) (r : sk_ref) : outcome wire :=
  match r_value r with
  | None => Ret (mkWire (r_type r) (r_valueLen r) None)
  | Some p => v ← buf_read buf p (r_valueLen r);
              Ret (mkWire (r_type r) (r_valueLen r) (Some v))
  end.

Definition wire_size (w : wire) : Z :=
  match w_payload w with None => 0 | Some _ => ROUNDUP (w_len w) 4 end.

Definition wires_size (ws : list wire) : Z := foldr (fun w s => wire_size w + s) 0 ws.

Definition wire_ok (w : wire) : Prop :=
  0 <= w_type w < 2 ^ 32 /\ 0 <= w_len w < 2 ^ 16 /\
  match w_payload w with None => True | Some v => Z.of_nat (length v) = w_len w end.

(** An attribute the C caller may legally pass: machine-width fields and a
    value at least as long as its length says. *)
Definition sk_wf (x : SK_ATTRIBUTE) : Prop :=
  0 <= sa_type x < 2 ^ 32 /\ 0 <= sa_valueLen x < 2 ^ 16 /\
  (match sa_value x with
   | None => sa_valueLen x = 0
   | Some v => sa_valueLen x <= Z.of_nat (length v)
   end).

(** Attributes a TA may pack: a value that is not written may carry any length
    (the answer to a size query, or the mark of a short buffer). *)
Definition sk_wf_ta (x : SK_ATTRIBUTE) : Prop :=
  0 <= sa_type x < 2 ^ 32 /\ 0 <= sa_valueLen x < 2 ^ 16 /\
  (match sa_value x with
   | None => True
   | Some v => has_value x = true -> sa_valueLen x <= Z.of_nat (length v)
   end).

#[export] Instance sk_wf_dec x : Decision (sk_wf x).
Proof. unfold sk_wf. destruct (sa_value x); apply _. Defined.
#[export] Instance sk_wf_ta_dec x : Decision (sk_wf_ta x).
Proof. unfold sk_wf_ta. destruct (sa_value x); apply _. Defined.

(** Entries from [i] on, with values from offset [b] on, encode [ws]. *)
Fixpoint encoded (buf : list Z) (ws : list wire) (i b : Z) : Prop :=
  match ws with
  | [] => True
  | w :: rest =>
      read_u32 buf (ent_id i) = Ret (w_type w) /\
      read_u32 buf (ent_b i) = Ret (w_len w) /\
      match w_payload w with
      | None => read_u32 buf (ent_a i) = Ret 0
      | Some v => read_u32 buf (ent_a i) = Ret b /\ buf_read buf b (w_len w) = Ret v
      end /\
      encoded buf rest (i + 1) (b + wire_size w)
  end.

(** The writer both packing loops are instances of. *)
Fixpoint write_wires (ws : list wire) (i b : Z) (buf : list Z) : outcome (list Z) :=
  match ws with
  | [] => Ret buf
  | w :: rest =>
      buf ← write_u32 buf (ent_id i) (w_type w);
      buf ← write_u32 buf (ent_b i) (w_len w);
      buf ← match w_payload w with
            | None => write_u32 buf (ent_a i) 0
            | Some v => buf ← buf_write buf b v; write_u32 buf (ent_a i) (u32 b)
            end;
      write_wires rest (i + 1) (b + wire_size w) buf
  end.

(** ** Lemmas *)

Lemma wire_size_bounds w : wire_ok w ->
  0 <= wire_size w /\ (match w_payload w with None => True | Some _ => w_len w <= wire_size w end).
Proof.
  intros (_ & Hl & _). unfold wire_size. pose proof (ROUNDUP_4_bounds (w_len w)).
  destruct (w_payload w); lia.
Qed.

Lemma wires_size_nonneg ws : Forall wire_ok ws -> 0 <= wires_size ws.
Proof.
  induction 1 as [|w ws Hw _ IH]; cbn; [lia |]. fold (wires_size ws).
  pose proof (wire_size_bounds w Hw). lia.
Qed.

Ltac unfold_ent := unfold ent_a, ent_b, ent_id, sizeof_uint32, sizeof_attr_packed in *.

(** One entry of the writer. *)
Lemma write_entry_ok w i b buf :
  wire_ok w -> 0 <= i -> ent_id (i + 1) <= b ->
  b + wire_size w <= Z.of_nat (length buf) -> b < 2 ^ 32 ->
  exists buf',
    (buf ← write_u32 buf (ent_id i) (w_type w);
     buf ← write_u32 buf (ent_b i) (w_len w);
     match w_payload w with
     | None => write_u32 buf (ent_a i) 0
     | Some v => buf ← buf_write buf b v; write_u32 buf (ent_a i) (u32 b)
     end) = Ret buf' /\
    length buf' = length buf /\
    encoded buf' [w] i b /\
    (forall o n, o + n <= ent_id i \/ (ent_id (i + 1) <= o /\ o + n <= b) \/
                 b + wire_size w <= o ->
       buf_read buf' o n = buf_read buf o n).
Proof.
  intros Hok Hi Hb Hlen Hb32. pose proof (wire_size_bounds w Hok) as [Hs0 Hs].
  destruct Hok as (Ht & Hl & Hp). unfold_ent.
  destruct (write_u32_ok buf (4 + 12 * i) (w_type w)) as (b1 & -> & L1 & R1 & F1); [lia..|].
  destruct (write_u32_ok b1 (4 + 12 * i + 8) (w_len w)) as (b2 & E2 & L2 & R2 & F2); [lia..|].
  cbn [mbind outcome_bind]. rewrite E2. cbn [mbind outcome_bind].
  unfold read_u32 in *. destruct (w_payload w) as [v|] eqn:Ep.
  - destruct (buf_write_ok b2 b v) as (b3 & E3 & L3 & R3 & F3); [lia..|].
    destruct (write_u32_ok b3 (4 + 12 * i + 4) (u32 b)) as (b4 & E4 & L4 & R4 & F4); [lia..|].
    rewrite E3. cbn [mbind outcome_bind]. rewrite E4. unfold read_u32 in R4.
    exists b4. split_and!; [done | lia | | ].
    + cbn [encoded]. unfold_ent. unfold read_u32. rewrite Ep. split_and!; try done.
      * rewrite F4, F3, F2, R1 by lia. by rewrite u32_small.
      * rewrite F4, F3, R2 by lia. rewrite u32_small by lia. done.
      * rewrite R4. rewrite !u32_small; [done | lia | rewrite u32_small; lia].
      * rewrite F4 by lia. rewrite <- Hp. done.
    + intros o n Ho. rewrite F4, F3, F2, F1 by lia. done.
  - destruct (write_u32_ok b2 (4 + 12 * i + 4) 0) as (b4 & E4 & L4 & R4 & F4); [lia..|].
    rewrite E4. unfold read_u32 in R4. exists b4. split_and!; [done | lia | | ].
    + cbn [encoded]. unfold_ent. unfold read_u32. rewrite Ep. split_and!; try done.
      * rewrite F4, F2, R1 by lia. by rewrite u32_small.
      * rewrite F4, R2 by lia. rewrite u32_small by lia. done.
    + intros o n Ho. rewrite F4, F2, F1 by lia. done.
Qed.

(** An entry stays encoded when its two regions keep their bytes. *)
Lemma encoded_one_frame w i b buf buf' :
  wire_ok w ->
  encoded buf [w] i b ->
  (forall o n, ent_id i <= o /\ o + n <= ent_id (i + 1) -> buf_read buf' o n = buf_read buf o n) ->
  (forall n, n <= wire_size w -> buf_read buf' b n = buf_read buf b n) ->
  encoded buf' [w] i b.
Proof.
  intros Hok (E1 & E2 & E3 & _) F1 F2. pose proof (wire_size_bounds w Hok) as [_ Hs].
  unfold_ent. cbn [encoded]. unfold_ent. unfold read_u32 in *.
  rewrite !F1 by lia. destruct (w_payload w); [| tauto].
  rewrite F2 by lia. tauto.
Qed.

Lemma encoded_cons buf w ws i b :
  encoded buf [w] i b -> encoded buf ws (i + 1) (b + wire_size w) -> encoded buf (w :: ws) i b.
Proof. cbn [encoded]. tauto. Qed.

(** The writer stays inside its regions and produces the encoding. *)
Lemma write_wires_ok ws : forall i b buf,
  Forall wire_ok ws -> 0 <= i -> ent_id (i + Z.of_nat (length ws)) <= b ->
  b + wires_size ws <= Z.of_nat (length buf) -> b + wires_size ws < 2 ^ 32 ->
  exists buf', write_wires ws i b buf = Ret buf' /\ length buf' = length buf /\
    encoded buf' ws i b /\
    (forall o n, o + n <= ent_id i \/
                 (ent_id (i + Z.of_nat (length ws)) <= o /\ o + n <= b) ->
       buf_read buf' o n = buf_read buf o n).
Proof.
  induction ws as [|w ws IH]; intros i b buf Hok Hi Hb Hlen H32.
  { cbn. exists buf. split_and!; try done. }
  inversion Hok as [|? ? Hw Hws]; subst. clear Hok.
  pose proof (wires_size_nonneg ws Hws). pose proof (wire_size_bounds w Hw) as [? _].
  change (wires_size (w :: ws)) with (wire_size w + wires_size ws) in *.
  assert (Hi1 : ent_id (i + 1) <= b) by (unfold_ent; len).
  destruct (write_entry_ok w i b buf Hw Hi Hi1) as (b1 & E1 & L1 & Enc1 & F1); [lia..|].
  destruct (IH (i + 1) (b + wire_size w) b1 Hws) as (b2 & E2 & L2 & Enc2 & F2);
    [lia | unfold_ent; len | len | lia |].
  exists b2. split_and!.
  - cbn [write_wires]. destruct (write_u32 buf (ent_id i) (w_type w)) as [c1|]; [| done].
    cbn [mbind outcome_bind] in *. destruct (write_u32 c1 _ _) as [c2|]; [| done].
    cbn [mbind outcome_bind] in *. rewrite E1. exact E2.
  - lia.
  - apply encoded_cons; [| done]. apply (encoded_one_frame w i b b1); [done | done | |].
    + intros o n ?. apply F2. unfold_ent. lia.
    + intros n ?. apply F2. unfold_ent. len.
  - intros o n Ho. rewrite F2 by (unfold_ent; len). apply F1. unfold_ent. len.
Qed.

(** *** The two packing loops are that writer *)

Lemma payload_read x v :
  sa_value x = Some v -> 0 <= sa_valueLen x <= Z.of_nat (length v) ->
  mem_read (sa_value x) (sa_valueLen x) = Ret (take (Z.to_nat (sa_valueLen x)) v).
Proof.
  intros -> H. unfold mem_read. destruct (_ =? 0) eqn:E; boolz.
  - by rewrite E.
  - cbn [deref mbind outcome_bind]. rewrite buf_read_ret by lia. by rewrite drop_0.
Qed.

Lemma pack_attrs_loop_wires attrs : forall i b buf, Forall sk_wf attrs ->
  pack_attrs_loop attrs i b buf = write_wires (client_wire <$> attrs) i b buf.
Proof.
  induction attrs as [|x xs IH]; intros i b buf Hwf; [done |].
  inversion Hwf as [|? ? (Ht & Hl & Hv) Hxs]; subst. cbn [pack_attrs_loop write_wires fmap list_fmap].
  unfold wire_size. change (w_type (client_wire x)) with (sa_type x).
  change (w_len (client_wire x)) with (sa_valueLen x).
  change (w_payload (client_wire x)) with (payload_of (negb (sa_valueLen x =? 0)) x).
  destruct (write_u32 buf _ _) as [b1|]; [| done]. cbn [mbind outcome_bind].
  destruct (write_u32 b1 _ _) as [b2|]; [| done]. cbn [mbind outcome_bind].
  unfold payload_of.
  destruct (sa_valueLen x =? 0) eqn:E0; cbn [negb].
  - destruct (write_u32 b2 _ _); [| done]. cbn [mbind outcome_bind].
    rewrite Z.add_0_r. by apply IH.
  - boolz. destruct (sa_value x) as [v|] eqn:Ev; [| lia]. rewrite <- Ev, (payload_read x v) by (auto; lia).
    rewrite Ev. cbn [fmap option_fmap option_map mbind outcome_bind].
    destruct (buf_write b2 _ _); [| done]. cbn [mbind outcome_bind].
    destruct (write_u32 _ _ _); [| done]. cbn [mbind outcome_bind]. by apply IH.
Qed.

Lemma pack_sk_loop_skip attrs : forall n b buf,
  Forall (fun x => packable (sa_type x) = false) attrs -> pack_sk_loop attrs n b buf = Ret buf.
Proof.
  induction attrs as [|x xs IH]; intros n b buf H; [done |].
  inversion H as [|? ? Hx Hxs]; subst. cbn [pack_sk_loop]. rewrite Hx. by apply IH.
Qed.

Lemma pack_sk_loop_wires attrs rest : forall i b buf,
  Forall (fun x => packable (sa_type x) = true) attrs -> Forall sk_wf_ta attrs ->
  Forall (fun x => packable (sa_type x) = false) rest ->
  pack_sk_loop (attrs ++ rest) i b buf = write_wires (ta_wire <$> attrs) i b buf.
Proof.
  induction attrs as [|x xs IH]; intros i b buf Hp Hwf Hr.
  { cbn [app fmap list_fmap write_wires]. by apply pack_sk_loop_skip. }
  inversion Hp as [|? ? Hpx Hpxs]; subst.
  inversion Hwf as [|? ? (Ht & Hl & Hv) Hxs]; subst.
  cbn [app pack_sk_loop write_wires fmap list_fmap]. rewrite Hpx.
  unfold wire_size. change (w_type (ta_wire x)) with (sa_type x).
  change (w_len (ta_wire x)) with (sa_valueLen x).
  change (w_payload (ta_wire x)) with (payload_of (has_value x) x).
  destruct (write_u32 buf _ _) as [b1|]; [| done]. cbn [mbind outcome_bind].
  destruct (write_u32 b1 _ _) as [b2|]; [| done]. cbn [mbind outcome_bind].
  unfold payload_of.
  destruct (has_value x) eqn:E0; cbn [negb].
  - destruct (sa_value x) as [v|] eqn:Ev; [| by unfold has_value in E0; rewrite Ev in E0].
    specialize (Hv eq_refl). rewrite <- Ev, (payload_read x v) by (auto; lia).
    rewrite Ev. cbn [fmap option_fmap option_map mbind outcome_bind].
    destruct (buf_write b2 _ _); [| done]. cbn [mbind outcome_bind].
    destruct (write_u32 _ _ _); [| done]. cbn [mbind outcome_bind]. by apply IH.
  - destruct (write_u32 b2 _ _); [| done]. cbn [mbind outcome_bind].
    rewrite Z.add_0_r. by apply IH.
Qed.

(** *** Reading an encoding back *)

Lemma buf_read_bounds b off n v :
  buf_read b off n = Ret v -> 0 <= off /\ 0 <= n /\ off + n <= Z.of_nat (length b).
Proof. unfold buf_read. destruct (in_range b off n) eqn:E; [| done]. by apply in_range_spec in E. Qed.

(** The references into such a buffer. *)
Fixpoint placed (ws : list wire) (b : Z) : list sk_ref :=
  match ws with
  | [] => []
  | w :: rest =>
      mkRef (w_type w) (match w_payload w with None => None | Some _ => Some b end) (w_len w)
      :: placed rest (b + wire_size w)
  end.

Lemma unpack_loop_encoded ws : forall i b buf cap,
  encoded buf ws i b -> Forall wire_ok ws -> 0 < b -> b + wires_size ws < 2 ^ 32 ->
  i + Z.of_nat (length ws) <= cap ->
  unpack_loop 64 cap buf (length ws) i = Ret (Some (placed ws b)) /\
  ref_wire buf <$> placed ws b = Ret <$> ws.
Proof.
  induction ws as [|w ws IH]; intros i b buf cap Henc Hok Hb H32 Hcap.
  { done. }
  inversion Hok as [|? ? Hw Hws]; subst. cbn [encoded] in Henc.
  destruct Henc as (E1 & E2 & E3 & Erest).
  pose proof (wire_size_bounds w Hw) as [? _]. pose proof (wires_size_nonneg ws Hws).
  change (wires_size (w :: ws)) with (wire_size w + wires_size ws) in *.
  destruct Hw as (Ht & Hl & Hp).
  destruct (IH (i + 1) (b + wire_size w) buf cap) as (ER & EW); [done | done | lia | lia | len |].
  cbn [length unpack_loop placed]. unfold guard_c. rewrite (proj2 (Z.ltb_lt i cap)) by len.
  cbn [mbind outcome_bind]. rewrite E1, E2. cbn [mbind outcome_bind].
  rewrite (u16_small (w_len w)) by lia.
  destruct (w_payload w) as [v|] eqn:Ep.
  - destruct E3 as [E3 Ev]. pose proof (buf_read_bounds _ _ _ _ Ev) as Hr.
    rewrite E3. cbn [mbind outcome_bind].
    rewrite (proj2 (Z.eqb_neq b 0)) by lia. cbn [negb andb].
    rewrite Z.mod_small by lia. rewrite (proj2 (Z.ltb_ge _ _)) by lia.
    rewrite ER. cbn [mbind outcome_bind]. split; [done |].
    cbn [fmap list_fmap]. f_equal; [| done]. unfold ref_wire. cbn [r_value r_valueLen r_type].
    rewrite Ev. cbn [mbind outcome_bind]. destruct w; cbn in *; by subst.
  - rewrite E3. cbn [mbind outcome_bind Z.eqb negb andb]. rewrite ER. cbn [mbind outcome_bind].
    split; [done |]. cbn [fmap list_fmap]. f_equal; [| done].
    unfold ref_wire. cbn [r_value r_valueLen r_type]. destruct w; cbn in *; by subst.
Qed.

Lemma cap_64 n : 0 <= n < 2 ^ 32 ->
  (n * sizeof_SK_ATTRIBUTE 64) mod 2 ^ 64 / sizeof_SK_ATTRIBUTE 64 = n.
Proof.
  intros. change (sizeof_SK_ATTRIBUTE 64) with 24. rewrite Z.mod_small by lia.
  by rewrite Z.div_mul.
Qed.

(** A whole buffer: count, then entries and values. *)
Lemma unpack_encoded buf addr ws :
  Z.land addr 3 = 0 -> ws <> [] -> Forall wire_ok ws ->
  read_u32 buf 0 = Ret (Z.of_nat (length ws)) ->
  encoded buf ws 0 (ent_id (Z.of_nat (length ws))) ->
  ent_id (Z.of_nat (length ws)) + wires_size ws <= Z.of_nat (length buf) ->
  ent_id (Z.of_nat (length ws)) + wires_size ws < 2 ^ 32 ->
  unpack_sk_attrs 64 true addr buf = Ret (TEE_SUCCESS, placed ws (ent_id (Z.of_nat (length ws)))) /\
  ref_wire buf <$> placed ws (ent_id (Z.of_nat (length ws))) = Ret <$> ws.
Proof.
  intros Ha Hne Hok Hn Henc Hlen H32. pose proof (wires_size_nonneg ws Hok).
  assert (0 < Z.of_nat (length ws)) by (destruct ws; [done | len]).
  unfold unpack_sk_attrs. unfold_ent.
  rewrite (proj2 (Z.eqb_neq _ 0)) by lia. rewrite Ha. cbn [Z.eqb negb orb].
  rewrite (proj2 (Z.ltb_ge _ _)) by lia. rewrite Hn. cbn [mbind outcome_bind].
  rewrite Z.mod_small by lia. rewrite (proj2 (Z.ltb_ge _ _)) by lia.
  rewrite (proj2 (Z.eqb_neq _ 0)) by lia. rewrite cap_64 by lia.
  rewrite Nat2Z.id.
  destruct (unpack_loop_encoded ws 0 (4 + 12 * Z.of_nat (length ws)) buf (Z.of_nat (length ws)))
    as (-> & ?); [done | done | lia | lia | lia |].
  cbn [mbind outcome_bind]. done.
Qed.

(** Writing a count and the wires into a block of sufficient size. *)
Lemma write_all_ok ws buf0 :
  Forall wire_ok ws ->
  ent_id (Z.of_nat (length ws)) + wires_size ws <= Z.of_nat (length buf0) ->
  ent_id (Z.of_nat (length ws)) + wires_size ws < 2 ^ 32 ->
  exists b1 b2, write_u32 buf0 0 (Z.of_nat (length ws)) = Ret b1 /\
    write_wires ws 0 (ent_id (Z.of_nat (length ws))) b1 = Ret b2 /\
    length b2 = length buf0 /\ read_u32 b2 0 = Ret (Z.of_nat (length ws)) /\
    encoded b2 ws 0 (ent_id (Z.of_nat (length ws))).
Proof.
  intros Hok Hlen H32. pose proof (wires_size_nonneg ws Hok).
  destruct (write_u32_ok buf0 0 (Z.of_nat (length ws))) as (b1 & E1 & L1 & R1 & F1);
    [lia | unfold_ent; lia |].
  destruct (write_wires_ok ws 0 (ent_id (Z.of_nat (length ws))) b1) as (b2 & E2 & L2 & Enc & F2);
    [done | lia | unfold_ent; lia | unfold_ent; lia | lia |].
  exists b1, b2. split_and!; [done | done | lia | | done].
  unfold read_u32 in *. rewrite F2 by (unfold_ent; lia). rewrite R1.
  rewrite u32_small by (unfold_ent; lia). done.
Qed.

(** *** From attributes to wires *)

Lemma client_wire_ok x : sk_wf x -> wire_ok (client_wire x).
Proof.
  intros (Ht & Hl & Hv). unfold wire_ok, client_wire, payload_of. cbn [w_type w_len w_payload].
  split_and!; [lia.. |]. destruct (sa_valueLen x =? 0) eqn:E; [done |]. cbn [negb].
  destruct (sa_value x); [| done]. cbn [fmap option_fmap option_map]. len.
Qed.

Lemma ta_wire_ok x : sk_wf_ta x -> wire_ok (ta_wire x).
Proof.
  intros (Ht & Hl & Hv). unfold wire_ok, ta_wire, payload_of. cbn [w_type w_len w_payload].
  split_and!; [lia.. |]. destruct (has_value x) eqn:E; [| done].
  destruct (sa_value x); [| done]. specialize (Hv eq_refl). cbn [fmap option_fmap option_map]. len.
Qed.

Lemma values_size_wires attrs : Forall sk_wf attrs ->
  values_size attrs = wires_size (client_wire <$> attrs).
Proof.
  induction 1 as [|x xs (Ht & Hl & Hv) _ IH]; [done |].
  cbn [values_size fmap list_fmap]. rewrite IH. cbn [wires_size foldr].
  unfold wires_size. f_equal. unfold wire_size. cbn [client_wire w_payload w_len].
  unfold payload_of. destruct (sa_valueLen x =? 0) eqn:E; cbn [negb]; [done |]. boolz.
  destruct (sa_value x); [done | lia].
Qed.

Lemma pack_size_wires attrs rest : forall bl ap,
  Forall (fun x => packable (sa_type x) = true) attrs ->
  Forall (fun x => packable (sa_type x) = false) rest ->
  pack_size (attrs ++ rest) bl ap =
    (bl + sizeof_attr_packed * Z.of_nat (length attrs) + wires_size (ta_wire <$> attrs),
     ap + Z.of_nat (length attrs)).
Proof.
  induction attrs as [|x xs IH]; intros bl ap Hp Hr.
  { cbn [app]. unfold wires_size. cbn [fmap list_fmap foldr length].
    revert bl ap. induction Hr as [|y ys Hy _ IHr]; intros; cbn [pack_size].
    - f_equal; lia.
    - rewrite Hy. apply IHr. }
  inversion Hp as [|? ? Hx Hxs]; subst. cbn [app pack_size]. rewrite Hx, IH by done.
  unfold wires_size. cbn [fmap list_fmap foldr length]. unfold wire_size at 2.
  cbn [ta_wire w_payload w_len]. unfold payload_of.
  assert (Hv : has_value x = true -> sa_value x <> None).
  { unfold has_value. by destruct (sa_value x). }
  f_equal; [| lia]. destruct (has_value x); [| unfold sizeof_attr_packed; lia].
  destruct (sa_value x); [| by destruct Hv]. cbn [fmap option_fmap option_map].
  unfold sizeof_attr_packed. lia.
Qed.

(** What the client's parser does to the caller's attribute [x] when the
    packed entry says [w]. *)
Definition fill (x : SK_ATTRIBUTE) (w : wire) : SK_ATTRIBUTE :=
  mkSK (w_type w)
       (match w_payload w with
        | None => sa_value x
        | Some v => (fun m => v ++ drop (length v) m) <$> sa_value x
        end) (w_len w).

(** The caller's buffer can take the value. *)
Definition room_for (x : SK_ATTRIBUTE) (w : wire) : Prop :=
  match w_payload w with
  | None => True
  | Some v => match sa_value x with None => False | Some m => (length v <= length m)%nat end
  end.

Lemma mem_store_ok m v : (length v <= length m)%nat ->
  mem_store (Some m) v = Ret (Some (v ++ drop (length v) m)).
Proof.
  intros H. unfold mem_store. destruct (_ =? 0) eqn:E; boolz.
  - destruct v; [| len]. by rewrite drop_0.
  - cbn [deref mbind outcome_bind]. rewrite buf_write_ret by lia. cbn [mbind outcome_bind].
    unfold splice. by rewrite take_0.
Qed.

Lemma client_unpack_loop_encoded ws : forall pre attrs buf b,
  encoded buf ws (Z.of_nat (length pre)) b -> Forall wire_ok ws -> 0 < b ->
  b + wires_size ws < 2 ^ 32 -> Forall2 room_for attrs ws ->
  client_unpack_loop buf (length ws) (Z.of_nat (length pre)) (pre ++ attrs) =
    Ret (TEEC_SUCCESS, pre ++ zip_with fill attrs ws).
Proof.
  induction ws as [|w ws IH]; intros pre attrs buf b Henc Hok Hb H32 Hroom.
  { inversion Hroom; subst. done. }
  inversion Hroom as [|x ? xs ? Hx Hxs]; subst. inversion Hok as [|? ? Hw Hws]; subst.
  cbn [encoded] in Henc. destruct Henc as (E1 & E2 & E3 & Erest).
  pose proof (wire_size_bounds w Hw) as [? _]. pose proof (wires_size_nonneg ws Hws).
  change (wires_size (w :: ws)) with (wire_size w + wires_size ws) in *.
  destruct Hw as (Ht & Hl & Hp).
  cbn [length client_unpack_loop]. rewrite Nat2Z.id, (list_lookup_middle pre xs x _ eq_refl).
  cbn [deref mbind outcome_bind]. rewrite E1, E2. cbn [mbind outcome_bind].
  rewrite u16_small by lia.
  assert (Hins : forall y, <[length pre := y]> (pre ++ x :: xs) = (pre ++ [y]) ++ xs).
  { intros y. rewrite (insert_app_r_alt pre (x :: xs)) by lia.
    rewrite Nat.sub_diag. by rewrite <- app_assoc. }
  assert (Hstep : forall y,
    client_unpack_loop buf (length ws) (Z.of_nat (length pre) + 1) ((pre ++ [y]) ++ xs) =
      Ret (TEEC_SUCCESS, (pre ++ [y]) ++ zip_with fill xs ws)).
  { intros y. replace (Z.of_nat (length pre) + 1) with (Z.of_nat (length (pre ++ [y]))) by len.
    apply (IH (pre ++ [y]) xs buf (b + wire_size w)); [| done | lia | lia | done].
    replace (Z.of_nat (length (pre ++ [y]))) with (Z.of_nat (length pre) + 1) by len. done. }
  unfold room_for in Hx. destruct (w_payload w) as [v|] eqn:Ep.
  - destruct E3 as [E3 Ev]. pose proof (buf_read_bounds _ _ _ _ Ev) as Hr. rewrite E3.
    cbn [mbind outcome_bind]. rewrite (proj2 (Z.eqb_neq b 0)) by lia. cbn [negb andb].
    rewrite u64_small by lia. rewrite (proj2 (Z.ltb_ge _ _)) by lia. rewrite Ev.
    cbn [mbind outcome_bind]. destruct (sa_value x) as [m|] eqn:Em; [| done].
    rewrite mem_store_ok by done. cbn [mbind outcome_bind]. rewrite Hins, Hstep.
    rewrite <- app_assoc. unfold fill. cbn [zip_with app]. rewrite Ep, Em. done.
  - rewrite E3. cbn [mbind outcome_bind Z.eqb negb andb]. rewrite Hins, Hstep.
    rewrite <- app_assoc. unfold fill. cbn [zip_with app]. rewrite Ep. done.
Qed.

Lemma client_unpack_encoded buf addr ws attrs :
  Z.land addr 3 = 0 -> ws <> [] -> Forall wire_ok ws ->
  read_u32 buf 0 = Ret (Z.of_nat (length ws)) ->
  encoded buf ws 0 (ent_id (Z.of_nat (length ws))) ->
  ent_id (Z.of_nat (length ws)) + wires_size ws <= Z.of_nat (length buf) ->
  ent_id (Z.of_nat (length ws)) + wires_size ws < 2 ^ 32 ->
  Forall2 room_for attrs ws ->
  client_unpack_sk_attrs addr buf attrs =
    Ret (TEEC_SUCCESS, zip_with fill attrs ws, Some (Z.of_nat (length ws))).
Proof.
  intros Ha Hne Hok Hn Henc Hlen H32 Hroom. pose proof (wires_size_nonneg ws Hok).
  assert (0 < Z.of_nat (length ws)) by (destruct ws; [done | len]).
  unfold client_unpack_sk_attrs. unfold_ent.
  rewrite (proj2 (Z.eqb_neq _ 0)) by lia. rewrite Ha. cbn [Z.eqb negb orb].
  rewrite (proj2 (Z.ltb_ge _ _)) by lia. rewrite Hn. cbn [mbind outcome_bind].
  rewrite u64_small by lia. rewrite (proj2 (Z.ltb_ge _ _)) by lia. rewrite Nat2Z.id.
  pose proof (client_unpack_loop_encoded ws [] attrs buf (4 + 12 * Z.of_nat (length ws))) as HL.
  cbn [app length] in HL. change (Z.of_nat 0) with 0 in HL. rewrite HL; [done | done | done | lia | lia | done].
Qed.

(** *** The parser on arbitrary bytes *)

Lemma Forall_bytes_read buf off n v :
  Forall is_byte buf -> buf_read buf off n = Ret v -> Forall is_byte v.
Proof.
  unfold buf_read. case_c; [| done]. intros H [= <-]. by apply Forall_take, Forall_drop.
Qed.

Lemma read_u32_in buf off :
  Forall is_byte buf -> 0 <= off -> off + 4 <= Z.of_nat (length buf) ->
  exists v, read_u32 buf off = Ret v /\ 0 <= v < 2 ^ 32.
Proof.
  intros Hb H1 H2. unfold read_u32. pose proof (buf_read_ret buf off 4 H1 ltac:(lia) H2) as E.
  rewrite E. eexists; split; [done |]. apply Forall_bytes_read in E as E'; [| done].
  apply buf_read_length in E. pose proof (le_val_bound _ E') as B.
  replace (8 * _) with 32 in B by lia. done.
Qed.

(** A reference whose value, if any, lies inside the buffer. *)
Definition ref_in (buf : list Z) (r : sk_ref) : Prop :=
  0 <= r_valueLen r < 2 ^ 16 /\ 0 <= r_type r < 2 ^ 32 /\
  match r_value r with
  | None => True
  | Some p => 0 < p /\ p + r_valueLen r <= Z.of_nat (length buf)
  end.

Lemma unpack_loop_safe buf cap todo : forall n,
  Forall is_byte buf -> 0 <= n -> n + Z.of_nat todo <= cap ->
  ent_id (n + Z.of_nat todo) <= Z.of_nat (length buf) ->
  exists r, unpack_loop 64 cap buf todo n = Ret r /\
    match r with None => True | Some l => Forall (ref_in buf) l /\ length l = todo end.
Proof.
  induction todo as [|todo IH]; intros n Hb Hn Hcap Hlen.
  { exists (Some []). done. }
  destruct (IH (n + 1)) as (r & Er & Hr); [done | lia | lia | unfold_ent; lia |].
  cbn [unpack_loop]. unfold guard_c. rewrite (proj2 (Z.ltb_lt n cap)) by lia.
  destruct (read_u32_in buf (ent_id n)) as (id & E1 & B1); [done | unfold_ent; lia.. |].
  destruct (read_u32_in buf (ent_b n)) as (b & E2 & B2); [done | unfold_ent; lia.. |].
  destruct (read_u32_in buf (ent_a n)) as (p & E3 & B3); [done | unfold_ent; lia.. |].
  rewrite E1, E2, E3. cbn [mbind outcome_bind]. pose proof (u16_bound b) as B4.
  rewrite Z.mod_small by lia. destruct (_ && _) eqn:Eg; [by exists None |].
  rewrite Er. cbn [mbind outcome_bind]. eexists; split; [done |].
  destruct r as [l|]; [| done]. destruct Hr as [Hr <-]. split; [| done].
  constructor; [| done]. unfold ref_in. cbn [r_value r_valueLen r_type].
  split_and!; [lia.. |]. destruct (p =? 0) eqn:Ep; [done |].
  cbn [negb andb] in Eg. boolz. lia.
Qed.

(** Client to TA, as the layers above use it. *)
(** The buffer is a packed attribute array that says [ws]. *)
Definition encodes (buf : list Z) (ws : list wire) : Prop :=
  ws <> [] /\ Forall wire_ok ws /\ read_u32 buf 0 = Ret (Z.of_nat (length ws)) /\
  encoded buf ws 0 (ent_id (Z.of_nat (length ws))) /\
  ent_id (Z.of_nat (length ws)) + wires_size ws <= Z.of_nat (length buf) /\
  Z.of_nat (length buf) < 2 ^ 32.

Lemma encodes_placed buf addr ws : Z.land addr 3 = 0 -> encodes buf ws ->
  unpack_sk_attrs 64 true addr buf = Ret (TEE_SUCCESS, placed ws (ent_id (Z.of_nat (length ws)))) /\
  ref_wire buf <$> placed ws (ent_id (Z.of_nat (length ws))) = Ret <$> ws.
Proof. intros Ha (? & ? & ? & ? & ? & ?). apply unpack_encoded; try done. lia. Qed.

Lemma encodes_unpack buf addr ws : Z.land addr 3 = 0 -> encodes buf ws ->
  exists refs, unpack_sk_attrs 64 true addr buf = Ret (TEE_SUCCESS, refs) /\
               ref_wire buf <$> refs = Ret <$> ws.
Proof. intros Ha He. destruct (encodes_placed buf addr ws Ha He). eauto. Qed.

(** Client to TA: a buffer of the size the client computes. *)
Lemma pack_client_encodes (attrs : list SK_ATTRIBUTE) (buf0 : list Z) :
  Forall sk_wf attrs -> attrs <> [] ->
  get_attr_size (Some attrs) (Z.of_nat (length attrs)) = Ret (Z.of_nat (length buf0)) ->
  Z.of_nat (length buf0) < 2 ^ 32 ->
  exists buf,
    pack_attrs (Some buf0) (Z.of_nat (length buf0)) (Some attrs) (Z.of_nat (length attrs))
      = Ret (SKR_OK, Some buf) /\
    length buf = length buf0 /\ encodes buf (client_wire <$> attrs).
Proof.
  intros Hwf Hne Hs H32.
  assert (Hn : 0 < Z.of_nat (length attrs)) by (destruct attrs; [done | len]).
  assert (Hp : attr_prefix (Some attrs) (Z.of_nat (length attrs)) = Ret attrs).
  { unfold attr_prefix. rewrite (proj2 (Z.eqb_neq _ 0)) by lia. cbn [deref mbind outcome_bind].
    rewrite (proj2 (Z.leb_le _ _)) by lia. by rewrite Nat2Z.id, take_ge. }
  unfold get_attr_size in Hs. rewrite (proj2 (Z.eqb_neq _ 0)) in Hs by lia.
  cbn [orb] in Hs. rewrite Hp in Hs. cbn [mbind outcome_bind] in Hs. injection Hs as Hs.
  rewrite values_size_wires in Hs by done. set (ws := client_wire <$> attrs) in *.
  assert (Hws : Forall wire_ok ws) by (apply Forall_fmap; eapply Forall_impl; [exact Hwf | apply client_wire_ok]).
  assert (Hlw : length ws = length attrs) by apply length_fmap.
  assert (Hsz : ent_id (Z.of_nat (length ws)) + wires_size ws = Z.of_nat (length buf0))
    by (rewrite Hlw; unfold_ent; lia).
  destruct (write_all_ok ws buf0 Hws) as (b1 & b2 & E1 & E2 & L & R & Enc); [lia.. |].
  exists b2. split; [| split; [done |]].
  2: { split_and!; try done; try lia. intros Hnil. rewrite Hnil in Hlw. cbn in Hlw. lia. }
  unfold pack_attrs.
  rewrite (proj2 (Z.eqb_neq _ 0)) by (unfold_ent; pose proof (wires_size_nonneg ws Hws); lia).
  rewrite <- Hlw, E1. cbn [mbind outcome_bind]. rewrite Hlw, Hp. cbn [mbind outcome_bind].
  rewrite pack_attrs_loop_wires by done. fold ws.
  change (sizeof_uint32 + sizeof_attr_packed * Z.of_nat (length attrs)) with (ent_id (Z.of_nat (length attrs))).
  rewrite <- Hlw, E2. done.
Qed.

Lemma pack_unpack_client (attrs : list SK_ATTRIBUTE) (buf0 : list Z) (addr : Z) :
  Forall sk_wf attrs -> attrs <> [] -> Z.land addr 3 = 0 ->
  get_attr_size (Some attrs) (Z.of_nat (length attrs)) = Ret (Z.of_nat (length buf0)) ->
  Z.of_nat (length buf0) < 2 ^ 32 ->
  exists buf refs,
    pack_attrs (Some buf0) (Z.of_nat (length buf0)) (Some attrs) (Z.of_nat (length attrs))
      = Ret (SKR_OK, Some buf) /\
    length buf = length buf0 /\
    unpack_sk_attrs 64 true addr buf = Ret (TEE_SUCCESS, refs) /\
    ref_wire buf <$> refs = Ret <$> (client_wire <$> attrs).
Proof.
  intros Hwf Hne Ha Hs H32. destruct (pack_client_encodes attrs buf0 Hwf Hne Hs H32) as (buf & E & L & He).
  destruct (encodes_unpack buf addr _ Ha He) as (refs & EU & EW). by exists buf, refs.
Qed.

(** The TA's parser on any buffer. *)
Lemma unpack_total (malloc_ok : bool) (addr : Z) (buf : list Z) :
  Forall is_byte buf -> Z.of_nat (length buf) < 2 ^ 32 ->
  exists res refs, unpack_sk_attrs 64 malloc_ok addr buf = Ret (res, refs) /\
    (res = TEE_SUCCESS \/
     (res = TEE_ERROR_BAD_PARAMETERS \/ res = TEE_ERROR_OUT_OF_MEMORY) /\ refs = []) /\
    Forall (ref_in buf) refs.
Proof.
  intros Hb Hl. unfold unpack_sk_attrs.
  destruct (_ =? 0) eqn:E0; [by eauto 10 |]. boolz.
  destruct (_ || _) eqn:E1; [by eauto 10 |]. boolz. unfold sizeof_uint32 in *.
  destruct (read_u32_in buf 0) as (num & En & Bn); [done | lia.. |].
  rewrite En. cbn [mbind outcome_bind]. unfold sizeof_attr_packed. rewrite Z.mod_small by lia.
  destruct (_ <? _) eqn:E2; [by eauto 10 |]. boolz.
  destruct (num =? 0) eqn:E3; [by eauto 10 |]. boolz.
  destruct malloc_ok; cbn [negb]; [| by eauto 10]. rewrite cap_64 by lia.
  destruct (unpack_loop_safe buf num (Z.to_nat num) 0) as (r & -> & Hr);
    [done | lia | lia | unfold_ent; lia |].
  cbn [mbind outcome_bind]. destruct r as [l|]; [| by eauto 10].
  destruct Hr as [Hr _]. by eauto 10.
Qed.

(** TA to TA. *)
Lemma pack_ta_encodes (attrs rest : list SK_ATTRIBUTE) :
  Forall sk_wf_ta attrs -> attrs <> [] ->
  Forall (fun x => packable (sa_type x) = true) attrs ->
  Forall (fun x => packable (sa_type x) = false) rest ->
  ent_id (Z.of_nat (length attrs)) + wires_size (ta_wire <$> attrs) < 2 ^ 32 ->
  exists data,
    pack_sk_attrs true (attrs ++ rest) = Ret (TEE_SUCCESS, Some data) /\
    Z.of_nat (length data) = ent_id (Z.of_nat (length attrs)) + wires_size (ta_wire <$> attrs) /\
    encodes data (ta_wire <$> attrs).
Proof.
  intros Hwf Hne Hp Hr H32. set (ws := ta_wire <$> attrs) in *.
  assert (Hws : Forall wire_ok ws)
    by (apply Forall_fmap; eapply Forall_impl; [exact Hwf | apply ta_wire_ok]).
  assert (Hlw : length ws = length attrs) by apply length_fmap.
  pose proof (wires_size_nonneg ws Hws).
  assert (Hz : Z.of_nat (length (zeros (ent_id (Z.of_nat (length ws)) + wires_size ws)))
               = ent_id (Z.of_nat (length ws)) + wires_size ws)
    by (unfold zeros; rewrite length_replicate; unfold_ent; lia).
  rewrite <- Hlw in *.
  destruct (write_all_ok ws (zeros (ent_id (Z.of_nat (length ws)) + wires_size ws)) Hws)
    as (b1 & b2 & E1 & E2 & L & R & Enc); [lia.. |].
  exists b2. split; [| split; [lia | split_and!; [by destruct attrs | done | done | done | lia | lia]]].
  unfold pack_sk_attrs. destruct (attrs ++ rest) eqn:Eapp; [by destruct attrs |]. rewrite <- Eapp.
  rewrite pack_size_wires by done. fold ws. rewrite <- Hlw, Z.add_0_l.
  change (sizeof_uint32 + sizeof_attr_packed * Z.of_nat (length ws)) with (ent_id (Z.of_nat (length ws))).
  rewrite E1. cbn [mbind outcome_bind]. rewrite pack_sk_loop_wires by done. fold ws.
  rewrite E2. done.
Qed.

(** ** Properties *)

(** C36: client to TA round trip.  For every array of legal attributes,
    [pack_attrs] into a shared-memory block of [get_attr_size] bytes (whatever
    its previous content) stays inside the block, and the TA's
    [unpack_sk_attrs] of that block succeeds and yields references that denote
    exactly the attributes packed: types, lengths and value bytes. *)
Theorem pack_attrs_roundtrip (attrs : list SK_ATTRIBUTE) (buf0 : list Z) (addr : Z) :
  Forall sk_wf attrs -> attrs <> [] -> Z.land addr 3 = 0 ->
  get_attr_size (Some attrs) (Z.of_nat (length attrs)) = Ret (Z.of_nat (length buf0)) ->
  Z.of_nat (length buf0) < 2 ^ 32 ->
  exists buf refs,
    pack_attrs (Some buf0) (Z.of_nat (length buf0)) (Some attrs) (Z.of_nat (length attrs))
      = Ret (SKR_OK, Some buf) /\
    length buf = length buf0 /\
    unpack_sk_attrs 64 true addr buf = Ret (TEE_SUCCESS, refs) /\
    ref_wire buf <$> refs = Ret <$> (client_wire <$> attrs).
Proof. exact (pack_unpack_client attrs buf0 addr). Qed.

Definition sample_attrs : list SK_ATTRIBUTE :=
  [mkSK SK_ATTR_OBJECT_TYPE (Some (le_bytes 4 SK_KEY_PAIR)) 4;
   mkSK SK_ATTR_OBJECT_LABEL (Some [107; 101; 121; 49; 0]) 5;
   mkSK SK_ATTR_OBJECT_INDEX None 0].

Lemma pack_attrs_roundtrip_witness :
  exists buf refs,
    pack_attrs (Some (zeros 52)) 52 (Some sample_attrs) 3 = Ret (SKR_OK, Some buf) /\
    length buf = 52%nat /\
    unpack_sk_attrs 64 true 4096 buf = Ret (TEE_SUCCESS, refs) /\
    ref_wire buf <$> refs = Ret <$> (client_wire <$> sample_attrs).
Proof.
  apply (pack_attrs_roundtrip sample_attrs (zeros 52) 4096).
  - apply (bool_decide_unpack (Forall sk_wf sample_attrs)). vm_compute. exact I.
  - discriminate.
  - reflexivity.
  - vm_compute. reflexivity.
  - vm_compute. reflexivity.
Defined.

(** C37: the TA's parser is memory safe on every buffer the normal world can
    send.  With 64-bit [size_t], [unpack_sk_attrs] of arbitrary bytes never
    reads outside the buffer or the array it allocates, returns success, bad
    parameters or out of memory, and every value pointer it hands out covers
    bytes inside the buffer. *)
Theorem unpack_sk_attrs_safe (malloc_ok : bool) (addr : Z) (buf : list Z) :
  Forall is_byte buf -> Z.of_nat (length buf) < 2 ^ 32 ->
  exists res refs, unpack_sk_attrs 64 malloc_ok addr buf = Ret (res, refs) /\
    (res = TEE_SUCCESS \/
     (res = TEE_ERROR_BAD_PARAMETERS \/ res = TEE_ERROR_OUT_OF_MEMORY) /\ refs = []) /\
    Forall (ref_in buf) refs.
Proof. exact (unpack_total malloc_ok addr buf). Qed.

Lemma unpack_sk_attrs_safe_witness :
  exists res refs, unpack_sk_attrs 64 true 0 (le_bytes 4 7 ++ zeros 60) = Ret (res, refs) /\
    (res = TEE_SUCCESS \/
     (res = TEE_ERROR_BAD_PARAMETERS \/ res = TEE_ERROR_OUT_OF_MEMORY) /\ refs = []) /\
    Forall (ref_in (le_bytes 4 7 ++ zeros 60)) refs.
Proof.
  apply unpack_sk_attrs_safe.
  - apply (bool_decide_unpack (Forall is_byte _)). vm_compute. exact I.
  - vm_compute. reflexivity.
Defined.

(** with a 32-bit [size_t] the same parser is not safe: the bound
    [p + valueLen > blen] wraps around, and a 16-byte buffer is accepted whose
    attribute points far outside it. *)
Theorem unpack_sk_attrs_32bit_wraps :
  exists buf r, Forall is_byte buf /\ length buf = 16%nat /\
    unpack_sk_attrs 32 true 0 buf = Ret (TEE_SUCCESS, [r]) /\
    r_value r = Some 0xfffffffc /\ ~ ref_in buf r /\
    mem_read (sa_value (sk_of_ref buf r)) (r_valueLen r) = Undef.
Proof.
  exists (le_bytes 4 1 ++ le_bytes 4 2 ++ le_bytes 4 0xfffffffc ++ le_bytes 4 8).
  exists (mkRef 2 (Some 0xfffffffc) 8). split_and!.
  - apply (bool_decide_unpack (Forall is_byte _)). vm_compute. exact I.
  - reflexivity.
  - vm_compute. reflexivity.
  - reflexivity.
  - unfold ref_in. cbn. lia.
  - unfold sk_of_ref, mem_read. cbn [r_value r_valueLen fmap option_fmap option_map sa_value].
    cbn [Z.eqb deref mbind outcome_bind]. rewrite drop_ge; [done |]. cbn [length app le_bytes]. lia.
Qed.

(** what the TA stores it can read back.  When the attributes it packs
    come before those it does not serialise, [pack_sk_attrs] stays inside the
    block it allocates and [unpack_sk_attrs] of the block returns references
    that denote exactly the packable attributes; the others (the private key
    parts) do not appear in the block's entries at all. *)
Theorem pack_sk_attrs_roundtrip (attrs rest : list SK_ATTRIBUTE) (addr : Z) :
  Forall sk_wf_ta attrs -> attrs <> [] -> Z.land addr 3 = 0 ->
  Forall (fun x => packable (sa_type x) = true) attrs ->
  Forall (fun x => packable (sa_type x) = false) rest ->
  ent_id (Z.of_nat (length attrs)) + wires_size (ta_wire <$> attrs) < 2 ^ 32 ->
  exists data refs,
    pack_sk_attrs true (attrs ++ rest) = Ret (TEE_SUCCESS, Some data) /\
    Z.of_nat (length data) = ent_id (Z.of_nat (length attrs)) + wires_size (ta_wire <$> attrs) /\
    unpack_sk_attrs 64 true addr data = Ret (TEE_SUCCESS, refs) /\
    ref_wire data <$> refs = Ret <$> (ta_wire <$> attrs).
Proof.
  intros Hwf Hne Ha Hp Hr H32.
  destruct (pack_ta_encodes attrs rest) as (data & E & L & Enc); [done.. |].
  destruct (encodes_unpack data addr (ta_wire <$> attrs) Ha Enc) as (refs & EU & EW). by exists data, refs.
Qed.

Lemma pack_sk_attrs_roundtrip_witness :
  exists data refs,
    pack_sk_attrs true (sample_attrs ++ [mkSK SK_ATTR_PRIVATE_EXPONENT (Some [9; 9]) 2])
      = Ret (TEE_SUCCESS, Some data) /\
    Z.of_nat (length data) =
      ent_id (Z.of_nat (length sample_attrs)) + wires_size (ta_wire <$> sample_attrs) /\
    unpack_sk_attrs 64 true 0 data = Ret (TEE_SUCCESS, refs) /\
    ref_wire data <$> refs = Ret <$> (ta_wire <$> sample_attrs).
Proof.
  apply pack_sk_attrs_roundtrip.
  - apply (bool_decide_unpack (Forall sk_wf_ta sample_attrs)). vm_compute. exact I.
  - discriminate.
  - reflexivity.
  - repeat constructor.
  - repeat constructor.
  - vm_compute. reflexivity.
Defined.

(** the order of the attributes matters: entries are written at the index
    of the attribute in the caller's array while only the serialised ones are
    counted.  Whenever an attribute that is not serialised comes before one
    that is, the entry of the latter is written outside the block. *)
Theorem pack_sk_attrs_misplaced (ty len : Z) (v : option (list Z)) (kt : list Z) :
  packable ty = false -> length kt = 4%nat ->
  pack_sk_attrs true [mkSK ty v len; mkSK SK_ATTR_KEY_TYPE (Some kt) 4] = Undef.
Proof.
  intros Hp Hk. unfold pack_sk_attrs. cbn [pack_size sa_type]. rewrite Hp.
  change (packable SK_ATTR_KEY_TYPE) with true. cbn [has_value sa_value sa_valueLen].
  change (0 <? i16 4) with true. change (ROUNDUP 4 4) with 4.
  change (4 + 12 + 4) with 20. cbn [pack_sk_loop sa_type]. rewrite Hp.
  change (packable SK_ATTR_KEY_TYPE) with true. reflexivity.
Qed.

Lemma pack_sk_attrs_misplaced_witness :
  pack_sk_attrs true [mkSK SK_ATTR_PRIVATE_EXPONENT (Some [1]) 1;
                      mkSK SK_ATTR_KEY_TYPE (Some (le_bytes 4 SKK_RSA)) 4] = Undef.
Proof. apply pack_sk_attrs_misplaced; reflexivity. Defined.
