(* ===== verification/Wires.v ===== *)
(** * What references denote

    The trusted application works on attributes that point into the buffer they
    were unpacked from ([sk_ref]).  This file relates them to the wires of the
    buffer: lookup by type, words and values, repacking, and the layout of the
    references a packed buffer yields. *)

From stdpp Require Import base numbers list.
From S2P Require Import Prelude SkTypes AttrCodec.

(** ** Lookup *)

Fixpoint find_wire (ty : Z) (ws : list wire) : option wire :=
  match ws with
  | [] => None
  | w :: rest => if ty =? w_type w then Some w else find_wire ty rest
  end.

Lemma find_wire_in ty ws w : find_wire ty ws = Some w -> w ∈ ws /\ w_type w = ty.
Proof.
  induction ws as [|x ws IH]; cbn; [done |]. destruct (ty =? w_type x) eqn:E; boolz.
  - intros [= ->]. split; [by left | done].
  - intros H. destruct (IH H). split; [by right | done].
Qed.

(** Stored attributes with a value say its length; those without say zero. *)
Definition wire_full (w : wire) : Prop :=
  match w_payload w with None => w_len w = 0 | Some _ => 0 < w_len w < 2 ^ 15 end.

Lemma wire_full_null w : wire_full w -> w_payload w = None -> w_len w = 0.
Proof. unfold wire_full. intros Hw E. by rewrite E in Hw. Qed.

Lemma ref_wire_type data r w : ref_wire data r = Ret w -> r_type r = w_type w /\ r_valueLen r = w_len w.
Proof. unfold ref_wire. intros E. destruct (r_value r); cbn in E; inv_ret; done. Qed.

(** A stored value is read as the wire says, and never through a null pointer. *)
Lemma ref_wire_read data r w : ref_wire data r = Ret w -> (w_payload w = None -> w_len w = 0) ->
  mem_read (sa_value (sk_of_ref data r)) (r_valueLen r) = Ret (default [] (w_payload w)).
Proof.
  unfold ref_wire, sk_of_ref. intros E Hf. cbn [sa_value].
  destruct (r_value r) as [p|] eqn:Ep; cbn in E; inv_ret; cbn in *.
  - pose proof (buf_read_bounds _ _ _ _ Heqo) as Hb. rewrite buf_read_ret in Heqo by len.
    injection Heqo as <-. unfold mem_read. destruct (_ =? 0) eqn:E0; boolz; [by rewrite E0 |].
    cbn. rewrite buf_read_ret by len. by rewrite drop_0.
  - by rewrite Hf.
Qed.

Lemma TA_GetSKAttr_wire data orefs ws ty : ref_wire data <$> orefs = Ret <$> ws ->
  match TA_GetSKAttr ty orefs with
  | None => find_wire ty ws = None
  | Some r => exists w, find_wire ty ws = Some w /\ w ∈ ws /\ w_type w = ty /\ ref_wire data r = Ret w
  end.
Proof.
  revert ws. induction orefs as [|r orefs IH]; intros [|w ws] E; try discriminate E; [done |].
  cbn in E. injection E as E1 E2. specialize (IH ws E2). cbn.
  destruct (ref_wire_type _ _ _ E1) as [-> _].
  destruct (ty =? w_type w) eqn:Et; boolz.
  - exists w. split_and!; [done | by left | done | done].
  - destruct (TA_GetSKAttr ty orefs) as [r'|]; [| done].
    destruct IH as (w' & ? & ? & ? & ?). exists w'. split_and!; [done | by right | done | done].
Qed.

(** ** Values *)

(** A value read at the start of a longer region. *)
Lemma buf_read_prefix b p n m : 0 <= n <= m -> forall v, buf_read b p m = Ret v ->
  buf_read b p n = Ret (take (Z.to_nat n) v).
Proof.
  intros Hn v Hv. pose proof (buf_read_bounds _ _ _ _ Hv). rewrite buf_read_ret in Hv |- * by lia.
  injection Hv as <-. f_equal. rewrite take_take. f_equal. lia.
Qed.

(** A word read through the value pointer. *)
Lemma ref_wire_word data r w v : ref_wire data r = Ret w -> w_payload w = Some v -> 4 <= w_len w ->
  exists p, r_value r = Some p /\ read_u32 data p = Ret (le_val (take 4 v)).
Proof.
  unfold ref_wire. intros E Ep Hl. destruct (r_value r) as [p|]; cbn in E; inv_ret; [| done].
  cbn in Ep, Hl. injection Ep as ->. exists p. split; [done |]. unfold read_u32.
  by rewrite (buf_read_prefix data p 4 (r_valueLen r) ltac:(lia) _ Heqo).
Qed.

(** Attributes the trusted application keeps as they are when it packs them: its
    test of the length is a signed 16-bit one. *)
Definition storable (w : wire) : Prop :=
  match w_payload w with None => True | Some _ => 0 < w_len w < 2 ^ 15 end.
#[export] Instance storable_dec w : Decision (storable w).
Proof. unfold storable. destruct (w_payload w); apply _. Defined.

Lemma sk_of_ref_wf buf r : ref_in buf r -> sk_wf_ta (sk_of_ref buf r).
Proof.
  unfold ref_in, sk_wf_ta, sk_of_ref. cbn. intros (? & ? & Hv). split_and!; [lia.. |].
  destruct (r_value r); cbn; [| done]. len.
Qed.

(** References to legal wires are attributes the trusted application may pack. *)
Lemma ref_wire_wf data r w : ref_wire data r = Ret w -> wire_ok w -> sk_wf_ta (sk_of_ref data r).
Proof.
  unfold ref_wire, sk_wf_ta, sk_of_ref. intros E (Ht & Hl & _).
  destruct (r_value r) as [p|]; cbn in E; inv_ret; cbn in *; [| split_and!; lia || done].
  pose proof (buf_read_bounds _ _ _ _ Heqo). split_and!; [lia.. |]. intros _. len.
Qed.

Lemma refs_wf data refs ws : ref_wire data <$> refs = Ret <$> ws -> Forall wire_ok ws ->
  Forall sk_wf_ta (sk_of_ref data <$> refs).
Proof.
  revert ws. induction refs as [|r refs IH]; intros [|w ws] E Hok; try discriminate E; [by constructor |].
  cbn in E. injection E as E1 E2. inversion Hok; subst. constructor; [by eapply ref_wire_wf | by eapply IH].
Qed.

Lemma ta_wire_of_ref data r w : ref_wire data r = Ret w -> storable w -> ta_wire (sk_of_ref data r) = w.
Proof.
  unfold ref_wire, ta_wire, sk_of_ref, payload_of, has_value, storable. intros E Hs.
  destruct (r_value r) as [p|]; cbn in *; inv_ret; cbn in *; [| done].
  rewrite i16_small, (proj2 (Z.ltb_lt _ _)) by lia.
  pose proof (buf_read_bounds _ _ _ _ Heqo). rewrite buf_read_ret in Heqo by lia. by injection Heqo as ->.
Qed.

Lemma ta_wires_of_refs data refs ws : ref_wire data <$> refs = Ret <$> ws -> Forall storable ws ->
  ta_wire <$> (sk_of_ref data <$> refs) = ws.
Proof.
  revert ws. induction refs as [|r refs IH]; intros [|w ws] E Hs; try discriminate E; [done |].
  cbn in E. injection E as E1 E2. inversion Hs; subst. cbn. f_equal; [by apply ta_wire_of_ref | by apply IH].
Qed.

Lemma refs_types data (refs : list sk_ref) (ws : list wire) : ref_wire data <$> refs = Ret <$> ws -> r_type <$> refs = w_type <$> ws.
Proof.
  revert ws. induction refs as [|r refs IH]; intros [|w ws] E; try discriminate E; [done |].
  cbn in E. injection E as E1 E2. cbn. f_equal; [by apply ref_wire_type in E1 as [-> _] | by apply IH].
Qed.

(** ** Layout *)

(** Requests whose values do not overlap. *)
Definition apart (o n : Z) (y : sk_ref) : Prop :=
  match r_value y with Some q => o + n <= q \/ q + r_valueLen y <= o | None => True end.
Fixpoint disjoint_refs (l : list sk_ref) : Prop :=
  match l with
  | [] => True
  | x :: rest =>
      match r_value x with Some p => Forall (apart p (r_valueLen x)) rest | None => True end /\
      disjoint_refs rest
  end.

Lemma placed_after ws : Forall wire_ok ws -> forall b o n, o + n <= b -> 0 <= n -> Forall (apart o n) (placed ws b).
Proof.
  induction 1 as [|w ws Hw _ IH]; intros b o n Hb Hn; cbn [placed]; [done |].
  pose proof (wire_size_bounds w Hw) as [? _]. constructor; [| apply IH; lia].
  unfold apart. cbn. destruct (w_payload w); [| done]. lia.
Qed.

(** The values of a packed buffer do not overlap. *)
Lemma placed_disjoint ws : Forall wire_ok ws -> forall b, disjoint_refs (placed ws b).
Proof.
  induction 1 as [|w ws Hw Hws IH]; intros b; cbn [placed disjoint_refs]; [done |]. split; [| by apply IH].
  cbn. destruct (w_payload w) as [v|] eqn:Ep; [| done]. apply placed_after; [done | | by destruct Hw; lia].
  unfold wire_size. rewrite Ep. destruct Hw as (_ & Hl & _). pose proof (ROUNDUP_4_bounds (w_len w)). lia.
Qed.

Lemma placed_in buf ws : forall i b, encoded buf ws i b -> Forall wire_ok ws -> 0 < b ->
  Forall (ref_in buf) (placed ws b).
Proof.
  induction ws as [|w ws IH]; intros i b He Hok Hb; cbn [placed]; [done |].
  inversion Hok as [|? ? Hw Hws]; subst. destruct He as (_ & _ & Hp & He).
  pose proof (wire_size_bounds w Hw) as [? _]. constructor; [| eapply IH; [exact He | done | lia]].
  destruct Hw as (Ht & Hl & _). split_and!; cbn; [lia.. |]. destruct (w_payload w); [| done].
  destruct Hp as [_ Hr]. pose proof (buf_read_bounds _ _ _ _ Hr). lia.
Qed.
