(* ===== verification/TeeClient.v ===== *)
(** * The TEE client API

    The data of tee_client_api.h and the interface through which the secure-key
    library reaches the TEE: the class [TEEC] has the functions securekey.c
    calls, over the state [W] of the system behind them, and [TEEC_laws] what
    their documentation promises.  LibTeec.v models the implementation, libteec,
    and shows that it keeps these promises. *)

From stdpp Require Import base numbers list.
From S2P Require Import Prelude SkTypes.

(** ** Data *)

Record TEEC_Context := mkCtx { ctx_fd : Z; ctx_reg_mem : bool }.
Record TEEC_Session := mkSess { sess_ctx : TEEC_Context; session_id : Z }.
Record TEEC_UUID := mkUuid {
  timeLow : Z; timeMid : Z; timeHiAndVersion : Z; clockSeqAndNode : list Z
}.
#[export] Instance ctx_eq_dec : EqDecision TEEC_Context.
Proof. solve_decision. Defined.
#[export] Instance sess_eq_dec : EqDecision TEEC_Session.
Proof. solve_decision. Defined.

(** [TEEC_SharedMemory].  A buffer is its address, zero for a null pointer, with
    the content of the memory there. *)
Record TEEC_SharedMemory := mkShm {
  shm_addr : Z;
  shm_buffer : list Z;
  shm_size : Z;
  shm_flags : Z;
  shm_id : Z;
  shm_alloced_size : Z;
  shm_shadow_addr : Z;
  shm_shadow : list Z;
  shm_registered_fd : Z;
  shm_buffer_allocated : bool
}.

(** A memory with only [size] and [flags] assigned. *)
Definition shm_new (size flags : Z) : TEEC_SharedMemory := mkShm 0 [] size flags 0 0 0 [] 0 false.

Definition set_buffer (shm : TEEC_SharedMemory) (b : list Z) : TEEC_SharedMemory :=
  mkShm (shm_addr shm) b (shm_size shm) (shm_flags shm) (shm_id shm) (shm_alloced_size shm)
    (shm_shadow_addr shm) (shm_shadow shm) (shm_registered_fd shm) (shm_buffer_allocated shm).

(** The union [TEEC_Parameter]: its member is chosen by the type the operation
    gives the parameter.  A memory reference holds the memory it points to. *)
Inductive TEEC_Parameter :=
| TP_none
| TP_value (a b : Z)
| TP_tmpref (buffer : option (list Z)) (size : Z)
| TP_memref (parent : TEEC_SharedMemory) (size offset : Z).

(** [TEEC_Operation]: [paramTypes] and the four [params]. *)
Record TEEC_Operation := mkOp { op_types : Z; op_params : list TEEC_Parameter }.

(** [op.params[i].memref] set to the whole of a shared memory. *)
Definition whole (shm : TEEC_SharedMemory) : TEEC_Parameter := TP_memref shm (shm_size shm) 0.

(** ** Operations *)

(** Each returns its result code and what it wrote through its output pointers:
    the context; the session and the error origin; the shared memory; the error
    origin and the parameters after the command. *)
Class TEEC (W : Type) := {
  TEEC_InitializeContext : option (list Z) -> st W (Z * TEEC_Context);
  TEEC_OpenSession : TEEC_Context -> TEEC_UUID -> Z -> option TEEC_Operation -> st W (Z * TEEC_Session * Z);
  TEEC_AllocateSharedMemory : TEEC_Context -> TEEC_SharedMemory -> st W (Z * TEEC_SharedMemory);
  TEEC_InvokeCommand : TEEC_Session -> Z -> TEEC_Operation -> st W (Z * Z * list TEEC_Parameter);
  TEEC_ReleaseSharedMemory : TEEC_SharedMemory -> st W unit;
  TEEC_CloseSession : TEEC_Session -> st W unit;
  TEEC_FinalizeContext : TEEC_Context -> st W unit
}.

(** ** Promises *)

(** A parameter after the command: a value stays a value, a memory reference
    keeps its memory, whose content may have changed. *)
Definition same_param (p q : TEEC_Parameter) : Prop :=
  match p, q with
  | TP_none, TP_none => True
  | TP_value _ _, TP_value _ _ => True
  | TP_tmpref b _, TP_tmpref b' _ => length <$> b' = length <$> b
  | TP_memref m _ _, TP_memref m' _ _ =>
      shm_id m' = shm_id m /\ shm_addr m' = shm_addr m /\
      length (shm_buffer m') = length (shm_buffer m)
  | _, _ => False
  end.

(** A call that returns from every state. *)
Definition total {W A} (m : st W A) : Prop := forall w, exists x, m w = Ret x.

(** The calls return.  An allocated memory is aligned and has the size asked
    for, and at least that when it is zero; a command leaves every parameter what
    it was. *)
Class TEEC_laws (W : Type) `{TEEC W} := {
  init_total name : total (TEEC_InitializeContext name);
  open_total ctx uuid login : total (TEEC_OpenSession ctx uuid login None);
  alloc_total ctx shm : 0 <= shm_size shm -> total (TEEC_AllocateSharedMemory ctx shm);
  release_total shm : total (TEEC_ReleaseSharedMemory shm);
  close_total sess : total (TEEC_CloseSession sess);
  finalize_total ctx : total (TEEC_FinalizeContext ctx);
  alloc_law ctx shm w shm' w' : 0 <= shm_size shm ->
    TEEC_AllocateSharedMemory ctx shm w = Ret ((TEEC_SUCCESS, shm'), w') ->
    shm_size shm' = shm_size shm /\ shm_flags shm' = shm_flags shm /\
    shm_size shm <= Z.of_nat (length (shm_buffer shm')) /\
    (0 < shm_size shm -> Z.of_nat (length (shm_buffer shm')) = shm_size shm) /\
    Z.land (shm_addr shm') 3 = 0;
  invoke_law sess cmd op w o ps w' :
    TEEC_InvokeCommand sess cmd op w = Ret ((TEEC_SUCCESS, o, ps), w') ->
    Forall2 same_param (op_params op) ps
}.
