(* ===== verification/SkLib.v ===== *)
(** * The secure-key client library

    The functions of securekey.c that the PKCS#11 library and applications
    call: each opens a session with the trusted application, moves its
    arguments through shared memory, invokes one command and releases what it
    acquired.  The TEE client API is the class [TEEC]; the operations of the file
    are state passing over its state [W].  A call that reads or writes outside an
    object is [Undef]. *)

From stdpp Require Import base numbers list.
From S2P Require Import Prelude SkTypes AttrCodec TeeClient.

(** The fields of [TA_SECURE_STORAGE_UUID] (ta_secure_storage.h). *)
Definition TA_SECURE_STORAGE_UUID : TEEC_UUID :=
  mkUuid 0xb05bcf48 0x9732 0x4efa [0xa9; 0xe0; 0x14; 0x1c; 0x7c; 0x88; 0x8c; 0x34].

(** ** Result codes *)

Definition map_teec_err_to_sk (tee_ret err_origin : Z) : Z :=
  if err_origin =? TEEC_ORIGIN_API then SKR_ERR_TEE_API
  else if err_origin =? TEEC_ORIGIN_COMMS then SKR_ERR_TEE_COMM
  else if tee_ret =? TEEC_ERROR_GENERIC then SKR_ERR_GENERAL_ERROR
  else if tee_ret =? TEEC_ERROR_ACCESS_DENIED then SKR_ERR_ACCESS_DENIED
  else if tee_ret =? TEEC_ERROR_CANCEL then SKR_ERR_CANCEL
  else if tee_ret =? TEEC_ERROR_ACCESS_CONFLICT then SKR_ERR_ACCESS_CONFLICT
  else if tee_ret =? TEEC_ERROR_EXCESS_DATA then SKR_ERR_EXCESS_DATA
  else if tee_ret =? TEEC_ERROR_BAD_FORMAT then SKR_ERR_BAD_FORMAT
  else if tee_ret =? TEEC_ERROR_BAD_PARAMETERS then SKR_ERR_BAD_PARAMETERS
  else if tee_ret =? TEEC_ERROR_BAD_STATE then SKR_ERR_BAD_STATE
  else if tee_ret =? TEEC_ERROR_ITEM_NOT_FOUND then SKR_ERR_ITEM_NOT_FOUND
  else if tee_ret =? TEEC_ERROR_NOT_IMPLEMENTED then SKR_ERR_NOT_IMPLEMENTED
  else if tee_ret =? TEEC_ERROR_NOT_SUPPORTED then SKR_ERR_NOT_SUPPORTED
  else if tee_ret =? TEEC_ERROR_NO_DATA then SKR_ERR_NO_DATA
  else if tee_ret =? TEEC_ERROR_OUT_OF_MEMORY then SKR_ERR_OUT_OF_MEMORY
  else if tee_ret =? TEEC_ERROR_BUSY then SKR_ERR_BUSY
  else if tee_ret =? TEEC_ERROR_COMMUNICATION then SKR_ERR_COMMUNICATION
  else if tee_ret =? TEEC_ERROR_SECURITY then SKR_ERR_SECURITY
  else if tee_ret =? TEEC_ERROR_SHORT_BUFFER then SKR_ERR_SHORT_BUFFER
  else if tee_ret =? TEEC_ERROR_TARGET_DEAD then SKR_ERR_BAD_PARAMETERS
  else SKR_ERR_GENERAL_ERROR.

Section SkLib.
Context {W : Type} `{TEEC W}.

(** ** The bracket every function of the file is written in *)

(** The part of each function from [TEEC_InitializeContext] to the labels
    [fail1] and [end]: [body] runs with the context and the session; [r] is what
    the function returns with a failure code when it does not get that far. *)
Definition with_ta_session {A} (r : A) (body : TEEC_Context -> TEEC_Session -> st W (Z * A)) : st W (Z * A) :=
  '(res, ctx) ← TEEC_InitializeContext None;
  if negb (res =? TEEC_SUCCESS) then mret (map_teec_err_to_sk res 0, r)
  else
    '(res, sess, err_origin) ← TEEC_OpenSession ctx TA_SECURE_STORAGE_UUID TEEC_LOGIN_PUBLIC None;
    x ← (if negb (res =? TEEC_SUCCESS) then mret (map_teec_err_to_sk res err_origin, r)
         else
           x ← body ctx sess;
           TEEC_CloseSession sess;;
           mret x);
    TEEC_FinalizeContext ctx;;
    mret x.

(** The part around one shared memory, from its allocation to its release. *)
Definition with_shm {A} (ctx : TEEC_Context) (size flags : Z) (r : A) (body : TEEC_SharedMemory -> st W (Z * A))
  : st W (Z * A) :=
  '(res, shm) ← TEEC_AllocateSharedMemory ctx (shm_new size flags);
  if negb (res =? TEEC_SUCCESS) then mret (map_teec_err_to_sk res 0, r)
  else
    x ← body shm;
    TEEC_ReleaseSharedMemory shm;;
    mret x.

(** Invocation of a command and the test of its result; [k] handles the
    parameters after a success. *)
Definition invoke {A} (sess : TEEC_Session) (cmd types : Z) (params : list TEEC_Parameter) (r : A)
    (k : list TEEC_Parameter -> outcome (Z * A)) : st W (Z * A) :=
  '(res, err_origin, ps) ← TEEC_InvokeCommand sess cmd (mkOp types params);
  if negb (res =? TEEC_SUCCESS) then mret (map_teec_err_to_sk res err_origin, r)
  else lift (k ps).

(** [op.params[i].value.a] and [op.params[i].memref]. *)
Definition param_a (ps : list TEEC_Parameter) (i : nat) : outcome Z :=
  match ps !! i with Some (TP_value a _) => Ret a | _ => Undef end.
Definition param_memref (ps : list TEEC_Parameter) (i : nat) : outcome (list Z * Z) :=
  match ps !! i with Some (TP_memref shm size _) => Ret (shm_buffer shm, size) | _ => Undef end.

(** [pack_attrs] into a shared memory; the memory with its new content. *)
Definition pack_shm (shm : TEEC_SharedMemory) (attrs : option (list SK_ATTRIBUTE)) (attr_cnt : Z)
  : outcome (Z * TEEC_SharedMemory) :=
  '(res, b) ← pack_attrs (Some (shm_buffer shm)) (shm_size shm) attrs attr_cnt;
  Ret (res, set_buffer shm (default (shm_buffer shm) b)).

Definition is_null {A} (p : option A) : bool := match p with None => true | Some _ => false end.

(** ** Objects *)

(** The result is the return code and what was stored in [*phObject]. *)
Definition SK_CreateObject (attr : option (list SK_ATTRIBUTE)) (attrCount : Z) (phObject : bool)
  : st W (Z * option Z) :=
  if is_null attr || (attrCount <=? 0) || negb phObject then mret (SKR_ERR_BAD_PARAMETERS, None)
  else
    with_ta_session None (fun ctx sess =>
      size ← lift (get_attr_size attr attrCount);
      with_shm ctx size TEEC_MEM_INPUT None (fun shm =>
        '(res, shm) ← lift (pack_shm shm attr attrCount);
        if negb (res =? SKR_OK) then mret (res, None)
        else
          invoke sess TEE_CREATE_OBJECT
            (TEEC_PARAM_TYPES TEEC_MEMREF_WHOLE TEEC_VALUE_OUTPUT TEEC_NONE TEEC_NONE)
            [whole shm; TP_value 0 0; TP_none; TP_none] None (fun ps =>
              a ← param_a ps 1; Ret (SKR_OK, Some a)))).

Definition SK_GenerateKeyPair (pMechanism : option SK_MECHANISM_INFO)
    (attr : option (list SK_ATTRIBUTE)) (attrCount : Z) (phKey : bool) : st W (Z * option Z) :=
  if is_null pMechanism || is_null attr || (attrCount <=? 0) || negb phKey
  then mret (SKR_ERR_BAD_PARAMETERS, None)
  else
    with_ta_session None (fun ctx sess =>
      size ← lift (get_attr_size attr attrCount);
      with_shm ctx size TEEC_MEM_INPUT None (fun shm =>
        '(res, shm) ← lift (pack_shm shm attr attrCount);
        if negb (res =? SKR_OK) then mret (res, None)
        else
          m ← lift (deref pMechanism);
          invoke sess TEE_GENERATE_KEYPAIR
            (TEEC_PARAM_TYPES TEEC_VALUE_INPUT TEEC_MEMREF_WHOLE TEEC_VALUE_OUTPUT TEEC_NONE)
            [TP_value (mechanism m) 0; whole shm; TP_value 0 0; TP_none] None (fun ps =>
              a ← param_a ps 2; Ret (SKR_OK, Some a)))).

Definition SK_EraseObject (hObject : Z) : st W Z :=
  x ← with_ta_session tt (fun _ sess =>
        invoke sess TEE_ERASE_OBJECT
          (TEEC_PARAM_TYPES TEEC_VALUE_INPUT TEEC_NONE TEEC_NONE TEEC_NONE)
          [TP_value hObject 0; TP_none; TP_none; TP_none] tt (fun _ => Ret (SKR_OK, tt)));
  mret x.1.

Definition sizeof_SK_OBJECT_HANDLE : Z := 4.

(** The [n] handles at the start of a buffer. *)
Fixpoint handles_of (b : list Z) (n : nat) : outcome (list Z) :=
  match n with
  | O => Ret []
  | S n' =>
      h ← read_u32 b 0;
      r ← handles_of (drop 4 b) n';
      Ret (h :: r)
  end.

(** [phObject] is the caller's array of handles; the result has it as it is
    afterwards with [*pulObjectCount] if that was set. *)
Definition SK_EnumerateObjects (pTemplate : option (list SK_ATTRIBUTE)) (attrCount : Z)
    (phObject : option (list Z)) (maxObjects : Z) (pulObjectCount : bool)
  : st W (Z * (option (list Z) * option Z)) :=
  let r := (phObject, None) in
  if is_null phObject || negb pulObjectCount then mret (SKR_ERR_BAD_PARAMETERS, r)
  else
    with_ta_session r (fun ctx sess =>
      size ← lift (get_attr_size pTemplate attrCount);
      with_shm ctx size TEEC_MEM_INPUT r (fun shm_in =>
        '(res, shm_in) ← lift (pack_shm shm_in pTemplate attrCount);
        if negb (res =? SKR_OK) then mret (res, r)
        else
          with_shm ctx (u64 (sizeof_SK_OBJECT_HANDLE * maxObjects)) TEEC_MEM_OUTPUT r (fun shm_out =>
            invoke sess TEE_FIND_OBJECTS
              (TEEC_PARAM_TYPES TEEC_MEMREF_WHOLE TEEC_MEMREF_WHOLE TEEC_VALUE_OUTPUT TEEC_NONE)
              [whole shm_in; whole shm_out; TP_value 0 0; TP_none] r (fun ps =>
                n ← param_a ps 2;
                '(b, _) ← param_memref ps 1;
                hs ← handles_of b (Z.to_nat n);
                arr ← deref phObject;
                guard_c (n <=? Z.of_nat (length arr));;
                Ret (SKR_OK, (Some (hs ++ drop (Z.to_nat n) arr), Some n)))))).

(** The result has the caller's attribute array as it is afterwards.  The
    argument check only sets [ret]; the code goes on and keeps that value
    unless a later failure replaces it. *)
Definition SK_GetObjectAttribute (hObject : Z) (attribute : option (list SK_ATTRIBUTE))
    (attrCount : Z) : st W (Z * option (list SK_ATTRIBUTE)) :=
  let ret := if is_null attribute || (attrCount <=? 0) then SKR_ERR_BAD_PARAMETERS else SKR_OK in
  with_ta_session attribute (fun ctx sess =>
    size ← lift (get_attr_size attribute attrCount);
    with_shm ctx size (Z.lor TEEC_MEM_INPUT TEEC_MEM_OUTPUT) attribute (fun shm_in =>
      '(res, shm_in) ← lift (pack_shm shm_in attribute attrCount);
      if negb (res =? SKR_OK) then mret (res, attribute)
      else
        invoke sess TEE_GET_OBJ_ATTRIBUTES
          (TEEC_PARAM_TYPES TEEC_VALUE_INPUT TEEC_MEMREF_WHOLE TEEC_NONE TEEC_NONE)
          [TP_value hObject 0; whole shm_in; TP_none; TP_none] attribute (fun ps =>
            '(b, _) ← param_memref ps 1;
            '(_, attrs, _) ← client_unpack_sk_attrs (shm_addr shm_in) b (default [] attribute);
            Ret (ret, (fun _ => attrs) <$> attribute)))).

(** ** Cryptography *)

(** The common body of [SK_Sign], [SK_Decrypt] and [SK_Digest]: the check of
    the arguments, the two shared memories, the command with [a] and [b] as its
    value parameter, and the copy of the result.  [out] and [outLen] are the
    caller's output buffer and length; the result has both as they are
    afterwards. *)
Definition crypto_command (cmd : Z) (value : SK_MECHANISM_INFO -> Z * Z)
    (pMechanismType : option SK_MECHANISM_INFO) (inData : option (list Z)) (inDataLen : Z)
    (out : option (list Z)) (outLen : option Z) : st W (Z * (option (list Z) * option Z)) :=
  let r := (out, outLen) in
  bad ← lift (if is_null pMechanismType || is_null inData || (inDataLen =? 0) then Ret true
              else if is_null out then l ← deref outLen; Ret (negb (l =? 0))
              else Ret false);
  if (bad : bool) then mret (SKR_ERR_BAD_PARAMETERS, r)
  else
    with_ta_session r (fun ctx sess =>
      with_shm ctx inDataLen TEEC_MEM_INPUT r (fun shm_in =>
        d ← lift (mem_read inData inDataLen);
        b_in ← lift (buf_write (shm_buffer shm_in) 0 d);
        l ← lift (deref outLen);
        with_shm ctx l TEEC_MEM_OUTPUT r (fun shm_out =>
          m ← lift (deref pMechanismType);
          invoke sess cmd
            (TEEC_PARAM_TYPES TEEC_VALUE_INPUT TEEC_MEMREF_WHOLE TEEC_MEMREF_WHOLE TEEC_NONE)
            [TP_value (value m).1 (value m).2; whole (set_buffer shm_in b_in);
             whole shm_out; TP_none] r (fun ps =>
              '(b, size) ← param_memref ps 2;
              let n := u16 size in
              if is_null out then Ret (SKR_OK, (out, Some n))
              else v ← buf_read b 0 n; o ← mem_store out v; Ret (SKR_OK, (o, Some n)))))).

Definition SK_Sign (pMechanismType : option SK_MECHANISM_INFO) (hObject : Z)
    (inDigest : option (list Z)) (inDigestLen : Z) (outSignature : option (list Z))
    (outSignatureLen : option Z) : st W (Z * (option (list Z) * option Z)) :=
  crypto_command TEE_SIGN_DIGEST (fun m => (hObject, mechanism m))
    pMechanismType inDigest inDigestLen outSignature outSignatureLen.

Definition SK_Decrypt (pMechanismType : option SK_MECHANISM_INFO) (hObject : Z)
    (inData : option (list Z)) (inDataLen : Z) (outData : option (list Z))
    (outDataLen : option Z) : st W (Z * (option (list Z) * option Z)) :=
  crypto_command TEE_DECRYPT_DATA (fun m => (hObject, mechanism m))
    pMechanismType inData inDataLen outData outDataLen.

Definition SK_Digest (pMechanismType : option SK_MECHANISM_INFO)
    (inData : option (list Z)) (inDataLen : Z) (outDigest : option (list Z))
    (outDigestLen : option Z) : st W (Z * (option (list Z) * option Z)) :=
  crypto_command TEE_DIGEST_DATA (fun m => (mechanism m, 0))
    pMechanismType inData inDataLen outDigest outDigestLen.

End SkLib.
