(* ===== verification/SkLibTheorems.v ===== *)
(** * Properties of the secure-key client library

    Every function of securekey.c acquires a context, a session and shared
    memory and leaves through a chain of labels that releases them.  The first
    part records the calls a run makes in a log and proves the log well
    bracketed on every path, failures included.  The second part proves, against
    the laws [TEEC_laws] of the TEE client API, that the functions return and
    what they return: a failure of the TEE is never reported as success, the
    attributes the caller passes are those the trusted application decodes, and
    the caller gets what the trusted application answered. *)

From stdpp Require Import base numbers list sets.
From S2P Require Import Prelude SkTypes AttrCodec TeeClient SkLib.

(** ** The calls of a run *)

Inductive event :=
| EContext (ctx : TEEC_Context)
| ESession (ctx : TEEC_Context) (sess : TEEC_Session)
| EShm (ctx : TEEC_Context) (id : Z)
| EInvoke (sess : TEEC_Session) (cmd : Z)
| EReleaseShm (id : Z)
| ECloseSession (sess : TEEC_Session)
| EFinalize (ctx : TEEC_Context).

(** [m] with the calls of its result appended to a log. *)
Definition log_call {W A} (m : st W A) (ev : A -> list event) : st (W * list event) A :=
  fun '(w, l) => '(x, w) ← m w; Ret (x, (w, l ++ ev x)).

(** The event of a call that succeeded. *)
Definition on_success {A} (res : Z) (e : A) : list A := if res =? TEEC_SUCCESS then [e] else [].

(** A TEE client API that also keeps a log of the calls that succeeded and of
    every release. *)
#[local] Instance logged {W} `{TEEC W} : TEEC (W * list event) := {|
  TEEC_InitializeContext name :=
    log_call (TEEC_InitializeContext name) (fun '(res, ctx) => on_success res (EContext ctx));
  TEEC_OpenSession ctx uuid login op :=
    log_call (TEEC_OpenSession ctx uuid login op) (fun '(res, sess, _) => on_success res (ESession ctx sess));
  TEEC_AllocateSharedMemory ctx shm :=
    log_call (TEEC_AllocateSharedMemory ctx shm) (fun '(res, shm) => on_success res (EShm ctx (shm_id shm)));
  TEEC_InvokeCommand sess cmd op := log_call (TEEC_InvokeCommand sess cmd op) (fun _ => [EInvoke sess cmd]);
  TEEC_ReleaseSharedMemory shm := log_call (TEEC_ReleaseSharedMemory shm) (fun _ => [EReleaseShm (shm_id shm)]);
  TEEC_CloseSession sess := log_call (TEEC_CloseSession sess) (fun _ => [ECloseSession sess]);
  TEEC_FinalizeContext ctx := log_call (TEEC_FinalizeContext ctx) (fun _ => [EFinalize ctx])
|}.

(** What is held, the most recent first. *)
Inductive resource := RContext (ctx : TEEC_Context) | RSession (sess : TEEC_Session) | RShm (id : Z).
#[export] Instance resource_eq_dec : EqDecision resource.
Proof. solve_decision. Defined.

(** The protocol of the API: a session and a shared memory need their context,
    a command its session, and only what was acquired last is released. *)
Definition track (e : event) (held : list resource) : option (list resource) :=
  let release r := match held with
                   | r' :: rest => if decide (r = r') then Some rest else None
                   | [] => None
                   end in
  match e with
  | EContext ctx => Some (RContext ctx :: held)
  | ESession ctx sess => if decide (RContext ctx ∈ held) then Some (RSession sess :: held) else None
  | EShm ctx id => if decide (RContext ctx ∈ held) then Some (RShm id :: held) else None
  | EInvoke sess _ => if decide (RSession sess ∈ held) then Some held else None
  | EReleaseShm id => release (RShm id)
  | ECloseSession sess => release (RSession sess)
  | EFinalize ctx => release (RContext ctx)
  end.

Fixpoint tracks (l : list event) (held : list resource) : option (list resource) :=
  match l with
  | [] => Some held
  | e :: rest => track e held ≫= tracks rest
  end.

Lemma tracks_app l k held : tracks (l ++ k) held = tracks l held ≫= tracks k.
Proof.
  revert held. induction l as [|e l IH]; intros held; [done |]. cbn [app tracks].
  destruct (track e held); cbn; [apply IH | done].
Qed.

(** Runs the checker over known events. *)
Ltac track_all :=
  repeat (cbn [tracks track mbind option_bind]; rewrite ?decide_True by (done || set_solver)); done.

(** A run that adds events after which exactly the same is held. *)
Definition balanced {W} (held : list resource) (s s' : W * list event) : Prop :=
  exists ev, s'.2 = s.2 ++ ev /\ tracks ev held = Some held.

#[export] Instance balanced_preorder {W} held : PreOrder (@balanced W held).
Proof.
  split.
  - intros [w l]. exists []. by rewrite app_nil_r.
  - intros [w1 l1] [w2 l2] [w3 l3] (e1 & E1 & T1) (e2 & E2 & T2). cbn in *.
    exists (e1 ++ e2). rewrite E2, E1, app_assoc. split; [done |].
    by rewrite tracks_app, T1.
Qed.

Lemma balanced_same {W} held (s s' : W * list event) : s'.2 = s.2 -> balanced held s s'.
Proof. intros E. exists []. by rewrite app_nil_r. Qed.

Lemma log_call_inv {W A} (m : st W A) ev s x s' : log_call m ev s = Ret (x, s') ->
  s'.2 = s.2 ++ ev x.
Proof.
  destruct s as [w l]. intros E. unfold log_call in E. apply outcome_bind_inv in E as ([y w1] & _ & E).
  by injection E as <- <-.
Qed.

Section Brackets.
Context {W : Type} `{TEEC W}.

Lemma balanced_session {A} held (r : A) body :
  (forall ctx sess, steps (balanced (RSession sess :: RContext ctx :: held)) (body ctx sess)) ->
  steps (balanced held) (with_ta_session (W := W * list event) r body).
Proof.
  intros Hb s a s' E. unfold with_ta_session in E. inv_st. destruct a0 as [res ctx].
  apply log_call_inv in E0. unfold on_success in E0.
  destruct (res =? TEEC_SUCCESS) eqn:Er; cbn [negb] in E; inv_st.
  2: { apply balanced_same. by rewrite E0, app_nil_r. }
  destruct a0 as [[res' sess] o]. apply log_call_inv in E1. unfold on_success in E1.
  destruct (res' =? TEEC_SUCCESS) eqn:Er'; cbn [negb] in E; inv_st.
  - apply Hb in E4 as (ev & El & T). apply log_call_inv in E3, E5.
    exists (EContext ctx :: ESession ctx sess :: ev ++ [ECloseSession sess; EFinalize ctx]). split.
    + by rewrite E3, E5, El, E1, E0, <- !app_assoc.
    + cbn [tracks track mbind option_bind]. rewrite decide_True by set_solver.
      cbn [mbind option_bind]. rewrite tracks_app, T. track_all.
  - apply log_call_inv in E3. exists [EContext ctx; EFinalize ctx].
    split; [by rewrite E3, E1, E0, app_nil_r, <- app_assoc | track_all].
Qed.

Lemma balanced_shm {A} held ctx size flags (r : A) body :
  RContext ctx ∈ held ->
  (forall shm, steps (balanced (RShm (shm_id shm) :: held)) (body shm)) ->
  steps (balanced held) (with_shm (W := W * list event) ctx size flags r body).
Proof.
  intros Hc Hb s a s' E. unfold with_shm in E. inv_st. destruct a0 as [res shm].
  apply log_call_inv in E0. unfold on_success in E0.
  destruct (res =? TEEC_SUCCESS) eqn:Er; cbn [negb] in E; inv_st.
  2: { apply balanced_same. by rewrite E0, app_nil_r. }
  apply Hb in E1 as (ev & El & T). apply log_call_inv in E2.
  exists (EShm ctx (shm_id shm) :: ev ++ [EReleaseShm (shm_id shm)]). split.
  - by rewrite E2, El, E0, <- !app_assoc.
  - cbn [tracks track]. rewrite decide_True by done. cbn [mbind option_bind].
    rewrite tracks_app, T. track_all.
Qed.

Lemma balanced_invoke {A} held sess cmd types ps (r : A) k :
  RSession sess ∈ held ->
  steps (balanced held) (invoke (W := W * list event) sess cmd types ps r k).
Proof.
  intros Hs s a s' E. unfold invoke in E. inv_st. destruct a0 as [[res o] ps'].
  apply log_call_inv in E0. assert (s' = s0) as -> by (destruct (negb _); by inv_st).
  exists [EInvoke sess cmd]. split; [done | track_all].
Qed.

End Brackets.

Ltac bracket :=
  repeat first
    [ apply balanced_session; intros ??
    | apply balanced_shm; [set_solver |]; intros ?
    | apply balanced_invoke; set_solver
    | solve [auto with steps typeclass_instances]
    | apply steps_bind; [typeclasses eauto | | intros ?]
    | match goal with
      | |- steps _ (if ?b then _ else _) => destruct b eqn:?
      | |- steps _ (match ?x with _ => _ end) => destruct x eqn:?
      end ].

(** ** Calls of the library, and their brackets *)

Inductive sk_call :=
| SkCreateObject (attr : option (list SK_ATTRIBUTE)) (n : Z) (ph : bool)
| SkGenerateKeyPair (m : option SK_MECHANISM_INFO) (attr : option (list SK_ATTRIBUTE)) (n : Z) (ph : bool)
| SkEraseObject (h : Z)
| SkEnumerateObjects (attr : option (list SK_ATTRIBUTE)) (n : Z) (ph : option (list Z)) (max : Z) (pn : bool)
| SkGetObjectAttribute (h : Z) (attr : option (list SK_ATTRIBUTE)) (n : Z)
| SkSign (m : option SK_MECHANISM_INFO) (h : Z) (d : option (list Z)) (n : Z) (o : option (list Z)) (on : option Z)
| SkDecrypt (m : option SK_MECHANISM_INFO) (h : Z) (d : option (list Z)) (n : Z) (o : option (list Z)) (on : option Z)
| SkDigest (m : option SK_MECHANISM_INFO) (d : option (list Z)) (n : Z) (o : option (list Z)) (on : option Z).

(** The return code of a call. *)
Definition run_sk {W} `{TEEC W} (c : sk_call) : st W Z :=
  match c with
  | SkCreateObject attr n ph => x ← SK_CreateObject attr n ph; mret x.1
  | SkGenerateKeyPair m attr n ph => x ← SK_GenerateKeyPair m attr n ph; mret x.1
  | SkEraseObject h => SK_EraseObject h
  | SkEnumerateObjects attr n ph max pn => x ← SK_EnumerateObjects attr n ph max pn; mret x.1
  | SkGetObjectAttribute h attr n => x ← SK_GetObjectAttribute h attr n; mret x.1
  | SkSign m h d n o on => x ← SK_Sign m h d n o on; mret x.1
  | SkDecrypt m h d n o on => x ← SK_Decrypt m h d n o on; mret x.1
  | SkDigest m d n o on => x ← SK_Digest m d n o on; mret x.1
  end.

Lemma run_sk_balanced {W} `{TEEC W} c : steps (balanced (W := W) []) (run_sk c).
Proof.
  destruct c; cbn [run_sk];
    unfold SK_CreateObject, SK_GenerateKeyPair, SK_EraseObject, SK_EnumerateObjects,
      SK_GetObjectAttribute, SK_Sign, SK_Decrypt, SK_Digest, crypto_command; bracket.
Qed.

(** ** Runs that return *)

(** A run returns from every state, with a result that satisfies [Q]. *)
Definition returns {W A} (m : st W A) (Q : A -> Prop) : Prop :=
  forall w, exists a w', m w = Ret (a, w') /\ Q a.

Lemma returns_bind {W A B} (m : st W A) (f : A -> st W B) P Q :
  returns m P -> (forall a, P a -> returns (f a) Q) -> returns (m ≫= f) Q.
Proof.
  intros Hm Hf w. destruct (Hm w) as (a & w1 & E & HP). destruct (Hf a HP w1) as (b & w2 & E2 & HQ).
  exists b, w2. unfold mbind, st_bind. by rewrite E.
Qed.
Lemma returns_lift {W A B} (m : outcome A) a (f : A -> st W B) Q :
  m = Ret a -> returns (f a) Q -> returns (lift m ≫= f) Q.
Proof. intros -> Hf w. exact (Hf w). Qed.
Lemma returns_ret {W A} (a : A) (Q : A -> Prop) : Q a -> returns (W := W) (mret a) Q.
Proof. intros HQ w. by exists a, w. Qed.

Lemma returns_at {W A B} (m : st W (A * B)) (Q : A -> B -> Prop) w :
  returns m (fun x => Q x.1 x.2) -> exists a b w', m w = Ret ((a, b), w') /\ Q a b.
Proof. intros Hm. destruct (Hm w) as ([a b] & w' & E & HQ). by exists a, b, w'. Qed.

Lemma map_teec_err_not_ok res o : map_teec_err_to_sk res o <> SKR_OK.
Proof. unfold map_teec_err_to_sk. case_c; discriminate. Qed.

Section Returns.
Context {W : Type} `{HT : TEEC W, HL : !TEEC_laws W}.

(** A context the library got. *)
Definition initialised (ctx : TEEC_Context) : Prop :=
  exists w w', TEEC_InitializeContext None w = Ret ((TEEC_SUCCESS, ctx), w').

(** [rc] reports the failure of a call of the client API: of a context, a session,
    a shared memory, or of one of the commands [C] admits. *)
Inductive api_failure (C : Z -> TEEC_Operation -> Prop) : Z -> Prop :=
| failed_context w res ctx w' :
    TEEC_InitializeContext None w = Ret ((res, ctx), w') -> res <> TEEC_SUCCESS ->
    api_failure C (map_teec_err_to_sk res 0)
| failed_session ctx w res sess o w' :
    initialised ctx ->
    TEEC_OpenSession ctx TA_SECURE_STORAGE_UUID TEEC_LOGIN_PUBLIC None w = Ret ((res, sess, o), w') ->
    res <> TEEC_SUCCESS -> api_failure C (map_teec_err_to_sk res o)
| failed_memory ctx size flags w res x w' :
    initialised ctx -> 0 <= size -> flags ∈ [1; 2; 3] ->
    TEEC_AllocateSharedMemory ctx (shm_new size flags) w = Ret ((res, x), w') -> res <> TEEC_SUCCESS ->
    api_failure C (map_teec_err_to_sk res 0)
| failed_command sess cmd op w res o ps w' :
    C cmd op -> TEEC_InvokeCommand sess cmd op w = Ret ((res, o, ps), w') -> res <> TEEC_SUCCESS ->
    api_failure C (map_teec_err_to_sk res o).

(** The parameters [ps] are the answer to a command [C] admits. *)
Definition answers (C : Z -> TEEC_Operation -> Prop) (ps : list TEEC_Parameter) : Prop :=
  exists sess cmd op w o w', C cmd op /\ TEEC_InvokeCommand sess cmd op w = Ret ((TEEC_SUCCESS, o, ps), w').

Lemma api_failure_not_ok C rc : api_failure C rc -> rc <> SKR_OK.
Proof. destruct 1; apply map_teec_err_not_ok. Qed.

(** [Q] holds of every such failure, with [r]. *)
Definition fails {A} C (r : A) (Q : Z * A -> Prop) : Prop := forall rc, api_failure C rc -> Q (rc, r).

Lemma returns_total {A B} (m : st W A) (f : A -> st W B) Q :
  total m -> (forall a w w', m w = Ret (a, w') -> returns (f a) Q) -> returns (m ≫= f) Q.
Proof.
  intros Hm Hf w. destruct (Hm w) as ([a w1] & E). destruct (Hf a w w1 E w1) as (b & w2 & E2 & HQ).
  exists b, w2. unfold mbind, st_bind. by rewrite E.
Qed.

Lemma returns_release {A B} (m : st W A) (b : B) (Q : B -> Prop) : total m -> Q b -> returns (m ;; mret b) Q.
Proof. intros Hm HQ. apply returns_total; [done |]. intros. by apply returns_ret. Qed.

Lemma returns_session {A} C (r : A) body Q :
  fails C r Q -> (forall ctx sess, initialised ctx -> returns (body ctx sess) Q) ->
  returns (with_ta_session (W := W) r body) Q.
Proof.
  intros HF HB. apply returns_total; [apply init_total |]. intros [res ctx] w w1 E1.
  destruct (res =? TEEC_SUCCESS) eqn:Er; boolz; cbn [negb].
  2: { apply returns_ret, HF. by eapply failed_context. }
  subst res. assert (Hi : initialised ctx) by (by exists w, w1).
  apply returns_total; [apply open_total |]. intros [[res' sess] o] w2 w3 E2.
  apply (returns_bind _ _ Q); [| intros x HQ; apply returns_release; [apply finalize_total | done]].
  destruct (res' =? TEEC_SUCCESS) eqn:Er'; boolz; cbn [negb].
  2: { apply returns_ret, HF. by eapply failed_session. }
  apply (returns_bind _ _ Q); [by apply HB |]. intros x HQ. apply returns_release; [apply close_total | done].
Qed.

Lemma returns_shm {A} C ctx size flags (r : A) body Q :
  initialised ctx -> flags ∈ [1; 2; 3] -> 0 <= size -> fails C r Q ->
  (forall shm, shm_size shm = size -> shm_flags shm = flags -> size <= Z.of_nat (length (shm_buffer shm)) ->
     (0 < size -> Z.of_nat (length (shm_buffer shm)) = size) ->
     Z.land (shm_addr shm) 3 = 0 -> returns (body shm) Q) ->
  returns (with_shm (W := W) ctx size flags r body) Q.
Proof.
  intros Hi Hfl Hs HF HB. apply returns_total; [by apply alloc_total |]. intros [res shm] w w1 E.
  destruct (res =? TEEC_SUCCESS) eqn:Er; boolz; cbn [negb].
  2: { apply returns_ret, HF. by eapply failed_memory. }
  subst res. apply alloc_law in E as (HL1 & HL2 & HL3 & HL4 & HL5); [| done].
  apply (returns_bind _ _ Q); [by apply HB |]. intros x HQ. apply returns_release; [apply release_total | done].
Qed.

Lemma returns_invoke {A} C sess cmd types ps (r : A) k Q :
  C cmd (mkOp types ps) ->
  (forall w, TEEC_InvokeCommand sess cmd (mkOp types ps) w <> Undef) ->
  fails C r Q ->
  (forall w o ps' w', TEEC_InvokeCommand sess cmd (mkOp types ps) w = Ret ((TEEC_SUCCESS, o, ps'), w') ->
     answers C ps' -> Forall2 same_param ps ps' -> exists x, k ps' = Ret x /\ Q x) ->
  returns (invoke (W := W) sess cmd types ps r k) Q.
Proof.
  intros HC HD HF HK w. unfold invoke. unfold mbind, st_bind, mret, st_ret, lift.
  destruct (TEEC_InvokeCommand sess cmd _ w) as [[[[res o] ps'] w1]|] eqn:E; [| by destruct (HD w)].
  destruct (res =? TEEC_SUCCESS) eqn:Er; boolz; cbn [negb].
  2: { eexists _, _. split; [done |]. apply HF. by eapply failed_command. }
  subst res. assert (HA : answers C ps') by (by exists sess, cmd, (mkOp types ps), w, o, w1).
  destruct (HK _ _ _ _ E HA (invoke_law _ _ _ _ _ _ _ E)) as (x & -> & HQ). by eauto.
Qed.

End Returns.

(** ** Commands *)

(** The shared memory carries the attributes: wherever the trusted application
    has it mapped, what its [unpack_sk_attrs] makes of it denotes them. *)
Definition carries (shm : TEEC_SharedMemory) (attrs : list SK_ATTRIBUTE) : Prop :=
  forall addr, Z.land addr 3 = 0 ->
    exists refs, unpack_sk_attrs 64 true addr (shm_buffer shm) = Ret (TEE_SUCCESS, refs) /\
      ref_wire (shm_buffer shm) <$> refs = Ret <$> (client_wire <$> attrs).

Definition attrs_ok (attrs : list SK_ATTRIBUTE) : Prop :=
  Forall sk_wf attrs /\ attrs <> [] /\
  ent_id (Z.of_nat (length attrs)) + values_size attrs < 2 ^ 32.
#[export] Instance attrs_ok_dec attrs : Decision (attrs_ok attrs).
Proof. unfold attrs_ok. apply _. Defined.

(** The operation each command is invoked with. *)
Definition create_op (shm : TEEC_SharedMemory) : TEEC_Operation :=
  mkOp (TEEC_PARAM_TYPES TEEC_MEMREF_WHOLE TEEC_VALUE_OUTPUT TEEC_NONE TEEC_NONE)
    [whole shm; TP_value 0 0; TP_none; TP_none].

Lemma get_attr_size_some attrs : attrs <> [] ->
  get_attr_size (Some attrs) (Z.of_nat (length attrs)) =
    Ret (ent_id (Z.of_nat (length attrs)) + values_size attrs).
Proof.
  intros Hne. assert (0 < Z.of_nat (length attrs)) by (destruct attrs; [done | len]).
  unfold get_attr_size, attr_prefix. rewrite (proj2 (Z.eqb_neq _ 0)) by lia. cbn [orb deref mbind outcome_bind].
  rewrite (proj2 (Z.leb_le _ _)) by lia. by rewrite Nat2Z.id, take_ge by lia.
Qed.

Lemma attrs_size_pos attrs : Forall sk_wf attrs -> 0 < ent_id (Z.of_nat (length attrs)) + values_size attrs.
Proof.
  intros Hwf. rewrite values_size_wires by done. enough (0 <= wires_size (client_wire <$> attrs)) by (unfold_ent; lia).
  apply wires_size_nonneg, Forall_fmap. eapply Forall_impl; [exact Hwf | apply client_wire_ok].
Qed.

(** [pack_attrs] into a memory of the size computed for the attributes. *)
Lemma pack_shm_encodes shm attrs :
  attrs_ok attrs -> shm_size shm = ent_id (Z.of_nat (length attrs)) + values_size attrs ->
  (0 < shm_size shm -> Z.of_nat (length (shm_buffer shm)) = shm_size shm) ->
  exists b, pack_shm shm (Some attrs) (Z.of_nat (length attrs)) = Ret (SKR_OK, set_buffer shm b) /\
    length b = length (shm_buffer shm) /\ encodes b (client_wire <$> attrs).
Proof.
  intros (Hwf & Hne & H32) Hs Hl. pose proof (get_attr_size_some attrs Hne) as Hg.
  pose proof (attrs_size_pos attrs Hwf). specialize (Hl ltac:(lia)).
  rewrite <- Hs, <- Hl in Hg.
  destruct (pack_client_encodes attrs (shm_buffer shm) Hwf Hne Hg) as (b & E & L & He); [lia |].
  exists b. unfold pack_shm. rewrite <- Hl, E. done.
Qed.

Lemma pack_shm_carries shm attrs :
  attrs_ok attrs -> shm_size shm = ent_id (Z.of_nat (length attrs)) + values_size attrs ->
  (0 < shm_size shm -> Z.of_nat (length (shm_buffer shm)) = shm_size shm) ->
  exists b, pack_shm shm (Some attrs) (Z.of_nat (length attrs)) = Ret (SKR_OK, set_buffer shm b) /\
    length b = length (shm_buffer shm) /\ carries (set_buffer shm b) attrs.
Proof.
  intros Hok Hs Hl. destruct (pack_shm_encodes shm attrs Hok Hs Hl) as (b & E & L & He).
  exists b. split_and!; [done | done |]. intros addr Ha. by apply encodes_unpack.
Qed.

Definition find_op (shm_in shm_out : TEEC_SharedMemory) : TEEC_Operation :=
  mkOp (TEEC_PARAM_TYPES TEEC_MEMREF_WHOLE TEEC_MEMREF_WHOLE TEEC_VALUE_OUTPUT TEEC_NONE)
    [whole shm_in; whole shm_out; TP_value 0 0; TP_none].

Definition get_op (h : Z) (shm : TEEC_SharedMemory) : TEEC_Operation :=
  mkOp (TEEC_PARAM_TYPES TEEC_VALUE_INPUT TEEC_MEMREF_WHOLE TEEC_NONE TEEC_NONE)
    [TP_value h 0; whole shm; TP_none; TP_none].

Definition sign_op (h : Z) (mech : SK_MECHANISM_INFO) (m_in m_out : TEEC_SharedMemory) : TEEC_Operation :=
  mkOp (TEEC_PARAM_TYPES TEEC_VALUE_INPUT TEEC_MEMREF_WHOLE TEEC_MEMREF_WHOLE TEEC_NONE)
    [TP_value h (mechanism mech); whole m_in; whole m_out; TP_none].

Lemma client_unpack_answer addr buf ws attrs :
  Z.land addr 3 = 0 -> encodes buf ws -> Forall2 room_for attrs ws ->
  client_unpack_sk_attrs addr buf attrs =
    Ret (TEEC_SUCCESS, zip_with fill attrs ws, Some (Z.of_nat (length ws))).
Proof.
  intros Ha (Hne & Hok & Hr & He & Hl & H32) Hroom. apply client_unpack_encoded; try done. lia.
Qed.

(** A template argument and the attributes it stands for: a count of zero for
    none, or an array of legal attributes. *)
Definition request (p : option (list SK_ATTRIBUTE)) (n : Z) (attrs : list SK_ATTRIBUTE) : Prop :=
  (n = 0 /\ attrs = []) \/
  (p = Some attrs /\ n = Z.of_nat (length attrs) /\ attrs_ok attrs).

Lemma request_size p n attrs : request p n attrs ->
  exists size, get_attr_size p n = Ret size /\
    (n = 0 /\ size = 4 \/ size = ent_id (Z.of_nat (length attrs)) + values_size attrs) /\ 0 < size.
Proof.
  intros [[-> ->] | (-> & -> & Hok)].
  - exists 4. split_and!; [done | by left | done].
  - destruct Hok as (? & ? & ?). eexists. split_and!; [by apply get_attr_size_some | by right | by apply attrs_size_pos].
Qed.

Lemma pack_request shm p n attrs size :
  request p n attrs -> get_attr_size p n = Ret size -> shm_size shm = size ->
  (0 < size -> Z.of_nat (length (shm_buffer shm)) = size) ->
  exists b, pack_shm shm p n = Ret (SKR_OK, set_buffer shm b) /\
    length b = length (shm_buffer shm) /\ carries (set_buffer shm b) attrs.
Proof.
  intros [[-> ->] | (-> & -> & Hok)] Es Hs Hl.
  - injection Es as <-. specialize (Hl eq_refl). unfold pack_shm, pack_attrs. rewrite Hs. cbn [Z.eqb].
    unfold sizeof_uint32 in *. destruct (write_u32_ok (shm_buffer shm) 0 0) as (b & E & L & R & _); [lia.. |].
    rewrite E. cbn. exists b. split_and!; [done | done |]. intros addr Ha.
    exists []. split; [| done]. unfold unpack_sk_attrs. cbn [shm_buffer set_buffer].
    rewrite L, Hl, Ha, R. done.
  - rewrite get_attr_size_some in Es by (by destruct Hok as (_ & ? & _)). injection Es as <-.
    apply pack_shm_carries; [done.. | by rewrite Hs].
Qed.

Lemma handles_of_ret n : forall b, 4 * Z.of_nat n <= Z.of_nat (length b) -> exists hs, handles_of b n = Ret hs.
Proof.
  induction n as [|n IH]; intros b Hb; cbn [handles_of]; [by eauto |].
  unfold read_u32. rewrite buf_read_ret by lia. cbn. destruct (IH (drop 4 b)) as (hs & ->); [len |].
  cbn. by eauto.
Qed.

Section Specs.
Context {W : Type} `{HT : TEEC W, HL : !TEEC_laws W}.

(** The create command for a memory that carries the attributes. *)
Definition create_command (attrs : list SK_ATTRIBUTE) (cmd : Z) (op : TEEC_Operation) : Prop :=
  cmd = TEE_CREATE_OBJECT /\ exists shm, op = create_op shm /\ carries shm attrs.

(** [SK_CreateObject] on legal attributes returns.  It fails only if a call
    of the client API does, and then stores no handle and reports that call's
    code; otherwise it reports [SKR_OK] with the first value the trusted
    application answered to a create command, whose memory the trusted
    application's parser decodes to exactly the attributes the caller passed. *)
Theorem sk_create_object_spec (attrs : list SK_ATTRIBUTE) (w : W) :
  attrs_ok attrs ->
  (forall sess shm w1, carries shm attrs ->
     TEEC_InvokeCommand sess TEE_CREATE_OBJECT (create_op shm) w1 <> Undef) ->
  exists rc h w', SK_CreateObject (Some attrs) (Z.of_nat (length attrs)) true w = Ret ((rc, h), w') /\
    ((api_failure (create_command attrs) rc /\ h = None) \/
     (rc = SKR_OK /\ exists ps a b, answers (create_command attrs) ps /\
        ps !! 1%nat = Some (TP_value a b) /\ h = Some a)).
Proof.
  intros Hok HD. pose proof Hok as (Hwf & Hne & H32).
  assert (Hn : 0 < Z.of_nat (length attrs)) by (destruct attrs; [done | len]).
  unfold SK_CreateObject. cbn [is_null orb negb]. rewrite (proj2 (Z.leb_gt _ _)) by lia. cbn [orb].
  apply (returns_at _ (fun rc h => _ \/ _)). eapply returns_session; [by left |].
  intros ctx sess Hi. eapply returns_lift; [by apply get_attr_size_some |].
  eapply returns_shm; [done | by repeat constructor | by apply Z.lt_le_incl, attrs_size_pos | by left |]. intros shm Hs _ _ Hl Ha.
  destruct (pack_shm_carries shm attrs) as (b' & Ep & _ & Hc); [done.. | by rewrite Hs |]. set (shm' := set_buffer shm b') in *.
  eapply returns_lift; [exact Ep |]. cbn [Z.eqb negb].
  apply (returns_invoke (create_command attrs)); [split; [done | by exists shm'] | | by left |].
  - intros w1. by apply HD.
  - intros w1 o ps w2 E HA Hsh. inversion Hsh as [|? ? ? ps1 ? Hsh1]; subst.
    inversion Hsh1 as [|? q ? ps2 Hq]; subst. destruct q as [|a b| |]; [done | | done..].
    eexists. split; [done |]. right. split; [done |]. by eexists _, a, b.
Qed.

(** The find command for a memory that carries the template and one for [max]
    handles. *)
Definition find_command (attrs : list SK_ATTRIBUTE) (max : Z) (cmd : Z) (op : TEEC_Operation) : Prop :=
  cmd = TEE_FIND_OBJECTS /\ exists shm_in shm_out, op = find_op shm_in shm_out /\ carries shm_in attrs /\
    shm_size shm_out = sizeof_SK_OBJECT_HANDLE * max.

(** [SK_EnumerateObjects] with an array of [max] handles returns, provided
    the trusted application never counts more objects than the output memory
    holds.  It fails only if a call of the client API does, with that call's
    code, the array untouched and no count given; otherwise the array starts with
    the handles in the output memory of a find command for the caller's template,
    and the count is the command's. *)
Theorem sk_enumerate_spec (p : option (list SK_ATTRIBUTE)) (n : Z) (attrs : list SK_ATTRIBUTE)
    (arr : list Z) (max : Z) (w : W) :
  request p n attrs -> 0 <= max < 2 ^ 32 -> max <= Z.of_nat (length arr) ->
  (forall sess shm_in shm_out w1, carries shm_in attrs ->
     TEEC_InvokeCommand sess TEE_FIND_OBJECTS (find_op shm_in shm_out) w1 <> Undef) ->
  (forall ps c b, answers (find_command attrs max) ps -> ps !! 2%nat = Some (TP_value c b) -> 0 <= c <= max) ->
  exists rc r w', SK_EnumerateObjects p n (Some arr) max true w = Ret ((rc, r), w') /\
    ((api_failure (find_command attrs max) rc /\ r = (Some arr, None)) \/
     (rc = SKR_OK /\ exists ps m size off c b hs, answers (find_command attrs max) ps /\
        ps !! 1%nat = Some (TP_memref m size off) /\ ps !! 2%nat = Some (TP_value c b) /\
        handles_of (shm_buffer m) (Z.to_nat c) = Ret hs /\
        r = (Some (hs ++ drop (Z.to_nat c) arr), Some c))).
Proof.
  intros Hreq Hmax Harr HD HC. unfold SK_EnumerateObjects. cbn [is_null orb negb].
  apply (returns_at _ (fun rc r => _ \/ _)). eapply returns_session; [by left |].
  intros ctx sess Hi. destruct (request_size p n attrs Hreq) as (size & Es & H4 & Hpos).
  eapply returns_lift; [exact Es |]. eapply returns_shm; [done | by repeat constructor | lia | by left |]. intros shm Hs _ _ Hl Ha.
  destruct (pack_request shm p n attrs size) as (b' & Ep & _ & Hc); [done.. |]. set (shm' := set_buffer shm b') in *.
  eapply returns_lift; [exact Ep |]. cbn [Z.eqb negb].
  unfold sizeof_SK_OBJECT_HANDLE in *. rewrite u64_small by lia. eapply returns_shm; [done | by repeat constructor | lia | by left |].
  intros shm2 Hs2 _ Hl2 _ _.
  apply (returns_invoke (find_command attrs max)); [split; [done | by exists shm', shm2] | | by left |].
  { intros w1. by apply HD. }
  intros w1 o ps w2 E HA Hsh.
  inversion Hsh as [|? ? ? ps1 ? Hsh1]; subst. inversion Hsh1 as [|? q ? ps2 Hq Hsh2]; subst.
  inversion Hsh2 as [|? v ? ps3 Hv]; subst. destruct q as [| | |m sz off]; [done.. |].
  destruct v as [|c b| |]; [done | | done..]. destruct Hq as (_ & _ & Hlen).
  destruct (HC _ c b HA eq_refl) as [Hc0 Hc1].
  destruct (handles_of_ret (Z.to_nat c) (shm_buffer m)) as (hs & Eh); [lia |].
  cbn. rewrite Eh. cbn. rewrite (proj2 (Z.leb_le _ _)) by lia. cbn.
  eexists. split; [done |]. right. split; [done |]. by eexists _, m, sz, off, c, b, hs.
Qed.

(** The query for a memory that carries the attributes. *)
Definition get_command (h : Z) (attrs : list SK_ATTRIBUTE) (cmd : Z) (op : TEEC_Operation) : Prop :=
  cmd = TEE_GET_OBJ_ATTRIBUTES /\ exists shm, op = get_op h shm /\ carries shm attrs.

(** [SK_GetObjectAttribute] on legal attributes returns, provided every
    successful answer of the trusted application encodes attributes that fit the
    caller's buffers.  It fails only if a call of the client API does, with that
    call's code and the attributes as they were; otherwise it reports [SKR_OK]
    and each attribute has the type and length of the answer to a query for the
    caller's attributes, with the answer's bytes at the start of its buffer. *)
Theorem sk_get_attribute_spec (h : Z) (attrs : list SK_ATTRIBUTE) (w : W) :
  attrs_ok attrs ->
  (forall sess shm w1, carries shm attrs ->
     TEEC_InvokeCommand sess TEE_GET_OBJ_ATTRIBUTES (get_op h shm) w1 <> Undef) ->
  (forall ps m size off, answers (get_command h attrs) ps -> ps !! 1%nat = Some (TP_memref m size off) ->
     exists ws, encodes (shm_buffer m) ws /\ Forall2 room_for attrs ws) ->
  exists rc r w', SK_GetObjectAttribute h (Some attrs) (Z.of_nat (length attrs)) w = Ret ((rc, r), w') /\
    ((api_failure (get_command h attrs) rc /\ r = Some attrs) \/
     (rc = SKR_OK /\ exists ps m size off ws, answers (get_command h attrs) ps /\
        ps !! 1%nat = Some (TP_memref m size off) /\ encodes (shm_buffer m) ws /\
        r = Some (zip_with fill attrs ws))).
Proof.
  intros Hok HD HA. pose proof Hok as (Hwf & Hne & H32).
  assert (Hn : 0 < Z.of_nat (length attrs)) by (destruct attrs; [done | len]).
  unfold SK_GetObjectAttribute. cbn [is_null orb]. rewrite (proj2 (Z.leb_gt _ _)) by lia.
  apply (returns_at _ (fun rc r => _ \/ _)).
  eapply returns_session; [by left |]. intros ctx sess Hi.
  eapply returns_lift; [by apply get_attr_size_some |].
  eapply returns_shm; [done | by repeat constructor | by apply Z.lt_le_incl, attrs_size_pos | by left |]. intros shm Hs _ _ Hl Ha.
  destruct (pack_shm_carries shm attrs) as (b' & Ep & _ & Hc); [done.. | by rewrite Hs |]. set (shm' := set_buffer shm b') in *.
  eapply returns_lift; [exact Ep |]. cbn [Z.eqb negb].
  apply (returns_invoke (get_command h attrs)); [split; [done | by exists shm'] | | by left |].
  { intros w1. by apply HD. }
  intros w1 o ps w2 E Hans Hsh. inversion Hsh as [|? ? ? ps1 ? Hsh1]; subst.
  inversion Hsh1 as [|? q ? ps2 Hq]; subst. destruct q as [| | |m sz off]; [done.. |].
  destruct (HA _ m sz off Hans eq_refl) as (ws & He & Hr).
  cbn [param_memref lookup list_lookup mbind outcome_bind]. change (default [] (Some attrs)) with attrs.
  rewrite (client_unpack_answer (shm_addr shm') (shm_buffer m) ws attrs); [| done | done | done].
  cbn [mbind outcome_bind]. eexists. split; [done |]. right. split; [done |]. by eexists _, m, sz, off, ws.
Qed.

(** [SK_GetObjectAttribute] does not stop at its argument check: with a null
    attribute array and a positive count it opens a session, allocates memory
    for the count alone and dereferences the null pointer. *)
Theorem sk_get_attribute_null (h n o : Z) (ctx : TEEC_Context) (sess : TEEC_Session) (shm : TEEC_SharedMemory)
    (w w1 w2 w3 : W) :
  0 < n < 2 ^ 32 ->
  TEEC_InitializeContext None w = Ret ((TEEC_SUCCESS, ctx), w1) ->
  TEEC_OpenSession ctx TA_SECURE_STORAGE_UUID TEEC_LOGIN_PUBLIC None w1 = Ret ((TEEC_SUCCESS, sess, o), w2) ->
  TEEC_AllocateSharedMemory ctx (shm_new 4 (Z.lor TEEC_MEM_INPUT TEEC_MEM_OUTPUT)) w2
    = Ret ((TEEC_SUCCESS, shm), w3) ->
  SK_GetObjectAttribute h None n w = Undef.
Proof.
  intros Hn E1 E2 E3. unfold SK_GetObjectAttribute, with_ta_session. unfold mbind at 1, st_bind at 1.
  rewrite E1. cbn [negb Z.eqb TEEC_SUCCESS]. unfold mbind at 1, st_bind at 1. rewrite E2.
  unfold mbind at 1, st_bind at 1. cbn [negb Z.eqb TEEC_SUCCESS]. unfold mbind at 1, st_bind at 1.
  unfold get_attr_size. rewrite orb_true_r. unfold mbind at 1, st_bind at 1. cbn [lift].
  unfold with_shm. unfold mbind at 1, st_bind at 1. unfold sizeof_uint32.
  rewrite E3. cbn [negb Z.eqb TEEC_SUCCESS].
  destruct (alloc_law _ (shm_new 4 _) _ _ _ ltac:(cbn; lia) E3) as (Hs & _ & _ & Hl & _). specialize (Hl eq_refl). cbn in Hs, Hl.
  unfold mbind at 1, st_bind at 1. unfold mbind at 1, st_bind at 1. unfold pack_shm, pack_attrs. rewrite Hs. cbn [Z.eqb].
  destruct (write_u32_ok (shm_buffer shm) 0 n) as (b' & -> & _); [lia.. |]. cbn [mbind outcome_bind].
  unfold attr_prefix. rewrite (proj2 (Z.eqb_neq _ 0)) by lia. done.
Qed.

(** The sign command for exactly the digest, with an output memory of [l]
    bytes. *)
Definition sign_command (h : Z) (mech : SK_MECHANISM_INFO) (digest : list Z) (l : Z) (cmd : Z)
    (op : TEEC_Operation) : Prop :=
  cmd = TEE_SIGN_DIGEST /\ exists m_in m_out, op = sign_op h mech m_in m_out /\
    shm_buffer m_in = digest /\ shm_size m_out = l.

(** [SK_Sign] with a digest of [n] bytes and a signature buffer of at least
    [l] bytes returns, provided the trusted application never claims more than
    the output memory holds.  It fails only if a call of the client API does,
    with that call's code and buffer and length as they were; otherwise the
    length is the one answered to a sign command for the key, the mechanism and
    exactly the digest, and that many bytes of the answer start the signature
    buffer. *)
Theorem sk_sign_spec (mech : SK_MECHANISM_INFO) (h : Z) (d : list Z) (n : Z) (sig : list Z) (l : Z) (w : W) :
  0 < n <= Z.of_nat (length d) -> 0 <= l < 2 ^ 16 -> l <= Z.of_nat (length sig) ->
  let C := sign_command h mech (take (Z.to_nat n) d) l in
  (forall sess op w1, C TEE_SIGN_DIGEST op -> TEEC_InvokeCommand sess TEE_SIGN_DIGEST op w1 <> Undef) ->
  (forall ps m size off, answers C ps -> ps !! 2%nat = Some (TP_memref m size off) -> 0 <= size <= l) ->
  exists rc r w', SK_Sign (Some mech) h (Some d) n (Some sig) (Some l) w = Ret ((rc, r), w') /\
    ((api_failure C rc /\ r = (Some sig, Some l)) \/
     (rc = SKR_OK /\ exists ps m size off, answers C ps /\ ps !! 2%nat = Some (TP_memref m size off) /\
        r = (Some (take (Z.to_nat size) (shm_buffer m) ++ drop (Z.to_nat size) sig), Some size))).
Proof.
  intros Hn Hl Hsig C HD HC. unfold SK_Sign, crypto_command. cbn [is_null orb].
  rewrite (proj2 (Z.eqb_neq n 0)) by lia. apply (returns_at _ (fun rc r => _ \/ _)).
  eapply returns_lift; [done |]. cbn beta iota. eapply returns_session; [by left |].
  intros ctx sess Hi. eapply returns_shm; [done | by repeat constructor | lia | by left |]. intros m_in Hs1 _ _ Hl1 _.
  specialize (Hl1 (proj1 Hn)).
  eapply returns_lift.
  { unfold mem_read. rewrite (proj2 (Z.eqb_neq n 0)) by lia. cbn [deref mbind outcome_bind].
    by apply buf_read_ret; lia. }
  rewrite drop_0. eapply returns_lift; [apply buf_write_ret; len |]. eapply returns_lift; [done |].
  eapply returns_shm; [done | by repeat constructor | lia | by left |]. intros m_out Hs2 _ Hl2 _ _. eapply returns_lift; [done |].
  assert (Hb : splice (shm_buffer m_in) (Z.to_nat 0) (take (Z.to_nat n) d) = take (Z.to_nat n) d).
  { unfold splice. rewrite drop_ge by len. by rewrite app_nil_r. }
  rewrite Hb. cbn [fst snd].
  assert (Hop : C TEE_SIGN_DIGEST (sign_op h mech (set_buffer m_in (take (Z.to_nat n) d)) m_out)).
  { split; [done |]. by eexists _, m_out. }
  apply (returns_invoke C); [exact Hop | | by left |].
  { intros w1. by apply HD. }
  intros w1 o ps w2 E HA Hsh. inversion Hsh as [|? ? ? ps1 ? Hsh1]; subst.
  inversion Hsh1 as [|? ? ? ps2 ? Hsh2]; subst. inversion Hsh2 as [|? q ? ps3 Hq]; subst.
  destruct q as [| | |m sz off]; [done.. |]. destruct Hq as (_ & _ & Hlen).
  pose proof (HC _ m sz off HA eq_refl) as Hsz.
  cbn [param_memref lookup list_lookup mbind outcome_bind is_null]. rewrite u16_small by lia.
  rewrite buf_read_ret by lia. cbn [mbind outcome_bind]. rewrite drop_0, mem_store_ok by len.
  cbn [mbind outcome_bind]. eexists. split; [done |]. right. split; [done |].
  eexists _, m, sz, off. split_and!; [exact HA | done |].
  cbn [snd]. do 3 f_equal. f_equal. len.
Qed.

End Specs.

(** whatever the TEE answers and wherever a call fails, every function of
    the library releases what it acquired: the calls it makes respect the
    protocol of the client API (a session and a shared memory are asked of an
    open context, a command is invoked in an open session, the last acquired is
    released first) and nothing is held when it returns. *)
Theorem sk_calls_bracketed {W} `{TEEC W} (c : sk_call) (w w' : W) (log log' : list event) (rc : Z) :
  run_sk c (w, log) = Ret (rc, (w', log')) ->
  exists ev, log' = log ++ ev /\ tracks ev [] = Some [].
Proof. intros E. exact (run_sk_balanced c _ _ _ E). Qed.

(** ** Instances *)

(** A TEE with one object, of handle 7: it answers an attribute query with the
    object type, a search with the handle, and a signature with the zeros of
    the output memory. *)
Definition demo_answer_buf : list Z :=
  le_bytes 4 1 ++ le_bytes 4 SK_ATTR_OBJECT_TYPE ++ le_bytes 4 16 ++ le_bytes 4 4 ++ le_bytes 4 SK_KEY_PAIR.

Definition demo_param (cmd : Z) (hit : bool) (i : nat) (p : TEEC_Parameter) : TEEC_Parameter :=
  match p with
  | TP_none | TP_tmpref _ _ => p
  | TP_value a b => TP_value (if cmd =? TEE_FIND_OBJECTS then Z.b2z hit else 7) 0
  | TP_memref m s o =>
      TP_memref
        (if (cmd =? TEE_FIND_OBJECTS) && (Z.of_nat i =? 1) && (4 <=? Z.of_nat (length (shm_buffer m)))
         then set_buffer m (le_bytes 4 7 ++ drop 4 (shm_buffer m))
         else if (cmd =? TEE_GET_OBJ_ATTRIBUTES) && (Z.of_nat (length (shm_buffer m)) =? 20)
         then set_buffer m demo_answer_buf
         else m) s o
  end.

Definition demo_invoke (cmd : Z) (op : TEEC_Operation) : Z * list TEEC_Parameter :=
  let '(len, size) := match op_params op !! 1%nat with
                      | Some (TP_memref m s _) => (Z.of_nat (length (shm_buffer m)), s)
                      | _ => (0, 0)
                      end in
  if (cmd =? TEE_GET_OBJ_ATTRIBUTES) && negb (len =? 20) then (TEEC_ERROR_BAD_PARAMETERS, op_params op)
  else (TEEC_SUCCESS, imap (demo_param cmd ((4 <=? size) && (4 <=? len))) (op_params op)).

Definition demo_ctx : TEEC_Context := mkCtx 1 false.
Definition demo_sess : TEEC_Session := mkSess demo_ctx 2.
Definition demo_shm (size flags : Z) : TEEC_SharedMemory :=
  mkShm 4096 (zeros size) size flags 3 size 0 [] (-1) true.

#[local] Instance demo_teec : TEEC unit := {|
  TEEC_InitializeContext _ w := Ret ((TEEC_SUCCESS, demo_ctx), w);
  TEEC_OpenSession _ _ _ _ w := Ret ((TEEC_SUCCESS, demo_sess, TEEC_ORIGIN_TRUSTED_APP), w);
  TEEC_AllocateSharedMemory _ shm w := Ret ((TEEC_SUCCESS, demo_shm (shm_size shm) (shm_flags shm)), w);
  TEEC_InvokeCommand _ cmd op w :=
    let '(res, ps) := demo_invoke cmd op in Ret ((res, TEEC_ORIGIN_TRUSTED_APP, ps), w);
  TEEC_ReleaseSharedMemory _ w := Ret (tt, w);
  TEEC_CloseSession _ w := Ret (tt, w);
  TEEC_FinalizeContext _ w := Ret (tt, w)
|}.

Lemma demo_param_same cmd hit i p : same_param p (demo_param cmd hit i p).
Proof. destruct p as [| | |m s o]; cbn; [done.. |]. case_c; boolz; cbn; split_and!; try done; len. Qed.

Lemma demo_invoke_law cmd op ps : demo_invoke cmd op = (TEEC_SUCCESS, ps) ->
  Forall2 same_param (op_params op) ps.
Proof.
  unfold demo_invoke. destruct (match _ !! _ with Some _ => _ | None => _ end) as [len size].
  destruct (_ && _); [discriminate |]. intros [= <-]. apply Forall2_same_length_lookup_2.
  { by rewrite length_imap. }
  intros i p q Hp Hq. rewrite list_lookup_imap, Hp in Hq. injection Hq as <-. apply demo_param_same.
Qed.

#[local] Instance demo_teec_laws : TEEC_laws unit.
Proof.
  split; try (intros; intros w0; by eexists).
  - intros ctx shm w shm' w' Hs E. injection E as <- <-. unfold demo_shm, zeros. cbn. split_and!; [len.. | done].
  - intros sess cmd op w o ps w'. cbn. destruct (demo_invoke cmd op) as [res ps'] eqn:E.
    intros E'. injection E' as -> _ <- _. by apply demo_invoke_law in E.
Qed.

Lemma demo_defined sess cmd op w : TEEC_InvokeCommand (W := unit) sess cmd op w <> Undef.
Proof. unfold TEEC_InvokeCommand, demo_teec. by destruct (demo_invoke cmd op). Qed.

Definition demo_attrs : list SK_ATTRIBUTE := [mkSK SK_ATTR_OBJECT_TYPE (Some (zeros 4)) 4].

Lemma sk_create_object_spec_witness :
  exists w', SK_CreateObject (Some demo_attrs) 1 true tt = Ret ((SKR_OK, Some 7), w').
Proof.
  destruct (sk_create_object_spec demo_attrs tt) as (rc & r & w' & E & _).
  - decide_c.
  - intros sess shm w1 _. apply demo_defined.
  - exists w'. transitivity (Ret ((rc, r), w') : outcome _); [exact E |]. vm_compute in E. injection E as <- <-. reflexivity.
Defined.

Lemma sk_enumerate_spec_witness :
  exists w', SK_EnumerateObjects None 0 (Some [0; 0; 0]) 3 true tt = Ret ((SKR_OK, (Some [7; 0; 0], Some 1)), w').
Proof.
  destruct (sk_enumerate_spec None 0 [] [0; 0; 0] 3 tt) as (rc & r & w' & E & _).
  - by left.
  - lia.
  - cbn. lia.
  - intros sess m1 m2 w1 _. apply demo_defined.
  - intros ps c b (sess & cmd & op & w1 & o & w2 & (-> & m1 & m2 & -> & _) & E) H2. cbn in E.
    injection E as <- <- <-. cbn in H2. injection H2 as <- <-.
    destruct (_ && _); cbn; lia.
  - exists w'. transitivity (Ret ((rc, r), w') : outcome _); [exact E |]. vm_compute in E. injection E as <- <-. reflexivity.
Defined.

Lemma sk_get_attribute_spec_witness :
  exists w', SK_GetObjectAttribute 7 (Some demo_attrs) 1 tt
    = Ret ((SKR_OK, Some [mkSK SK_ATTR_OBJECT_TYPE (Some (le_bytes 4 SK_KEY_PAIR)) 4]), w').
Proof.
  destruct (sk_get_attribute_spec 7 demo_attrs tt) as (rc & r & w' & E & _).
  - decide_c.
  - intros sess shm w1 _. apply demo_defined.
  - intros ps m size off (sess & cmd & op & w1 & o & w2 & (-> & shm & -> & _) & E) H1. cbn in E.
    destruct (Z.of_nat (length (shm_buffer shm)) =? 20) eqn:El; cbn in E; [| discriminate E].
    injection E as <- <- <-.
    cbn in H1. injection H1 as <- <- <-.
    exists [mkWire SK_ATTR_OBJECT_TYPE 4 (Some (le_bytes 4 SK_KEY_PAIR))]. split.
    + split_and!; [discriminate | repeat constructor; vm_compute; congruence | done | done..].
    + repeat constructor.
  - exists w'. transitivity (Ret ((rc, r), w') : outcome _); [exact E |]. vm_compute in E. injection E as <- <-. reflexivity.
Defined.

Lemma sk_get_attribute_null_witness : SK_GetObjectAttribute (W := unit) 7 None 1 tt = Undef.
Proof.
  apply (sk_get_attribute_null 7 1 TEEC_ORIGIN_TRUSTED_APP demo_ctx demo_sess (demo_shm 4 3) tt tt tt tt);
    [lia | reflexivity..].
Defined.

Lemma sk_sign_spec_witness :
  exists w', SK_Sign (Some (mkMech SKM_RSASSA_PKCS1_V1_5_SHA1)) 7 (Some (zeros 20)) 20
      (Some (zeros 128)) (Some 128) tt = Ret ((SKR_OK, (Some (zeros 128), Some 128)), w').
Proof.
  destruct (sk_sign_spec (mkMech SKM_RSASSA_PKCS1_V1_5_SHA1) 7 (zeros 20) 20 (zeros 128) 128 tt)
    as (rc & r & w' & E & _).
  - vm_compute. intuition congruence.
  - lia.
  - vm_compute. congruence.
  - intros sess op w1 _. apply demo_defined.
  - intros ps m size off (sess & cmd & op & w1 & o & w2 & (-> & m1 & m2 & -> & _ & Hs) & E) H2. cbn in E.
    injection E as <- <- <-. cbn in H2. injection H2 as <- <- <-. lia.
  - exists w'. transitivity (Ret ((rc, r), w') : outcome _); [exact E |]. vm_compute in E. injection E as <- <-. reflexivity.
Defined.

Lemma sk_calls_bracketed_witness :
  exists ev, [EContext demo_ctx; ESession demo_ctx demo_sess; EInvoke demo_sess TEE_ERASE_OBJECT;
     ECloseSession demo_sess; EFinalize demo_ctx] = [] ++ ev /\
    tracks ev [] = Some [].
Proof.
  apply (sk_calls_bracketed (W := unit) (SkEraseObject 7) tt tt [] _ SKR_OK). vm_compute. reflexivity.
Defined.
