(* ===== verification/LibTeec.v ===== *)
(** * The TEE client library (libteec)

    tee_client_api.c over the system calls it makes: the class [TeeDriver] has
    the device of the TEE driver (open, the ioctls, close), the mappings and the
    heap, over the state [W] of the system.  Memory registered with the driver or
    mapped from it is shared with the TEE: an ioctl takes the content of each
    memory its parameters refer to and gives back the content afterwards.  The
    references of one operation are taken to name different memories.  The trace
    macros, the benchmark time stamps and the mutex around one assignment are left
    out, and so are null pointers to contexts, sessions and shared memory; the session
    member of an operation is the argument of TEEC_RequestCancellation. *)

From stdpp Require Import base numbers list.
From S2P Require Import Prelude SkTypes AttrCodec TeeClient.

(** ** The driver (linux/tee.h) *)

Definition TEE_GEN_CAP_GP : Z := 1.
Definition TEE_GEN_CAP_REG_MEM : Z := 4.
Definition TEE_IMPL_ID_OPTEE : Z := 1.
Definition TEE_OPTEE_CAP_TZ : Z := 1.
Definition TEE_IOCTL_PARAM_ATTR_TYPE_MEMREF_INPUT : Z := 5.
Definition TEE_IOCTL_PARAM_ATTR_TYPE_MEMREF_OUTPUT : Z := 6.
Definition TEE_IOCTL_PARAM_ATTR_TYPE_MEMREF_INOUT : Z := 7.
Definition ENOMEM : Z := 12.

Record tee_ioctl_version_data := mkVers { impl_id : Z; impl_caps : Z; gen_caps : Z }.

(** [struct tee_ioctl_param]: zero-filled, a value, or a reference to [size] bytes
    at [shm_offs] of the memory [shm_id], with the content of that memory. *)
Inductive tee_ioctl_param :=
| IP_none
| IP_value (attr a b : Z)
| IP_memref (attr shm_offs size shm_id : Z) (mem : list Z).

(** A failed ioctl gives the error number, a successful one what it wrote: result,
    origin, session, parameters. *)
Class TeeDriver (W : Type) := {
  sys_open : Z -> W -> Z * W;
  sys_close : Z -> W -> W;
  ioctl_version : Z -> W -> option tee_ioctl_version_data * W;
  ioctl_shm_alloc : Z -> Z -> W -> (Z * Z) * W;
  ioctl_shm_register : Z -> Z -> Z -> W -> (Z * Z) * W;
  ioctl_shm_register_fd : Z -> Z -> W -> (Z * Z * Z) * W;
  sys_mmap : Z -> Z -> W -> option (Z * list Z) * W;
  sys_munmap : Z -> Z -> W -> W;
  sys_malloc : Z -> W -> option (Z * list Z) * W;
  sys_free : Z -> W -> W;
  ioctl_open_session : Z -> list Z -> Z -> list tee_ioctl_param -> st W (Z + Z * Z * Z * list tee_ioctl_param);
  ioctl_invoke : Z -> Z -> Z -> list tee_ioctl_param -> st W (Z + Z * Z * list tee_ioctl_param);
  ioctl_close_session : Z -> Z -> W -> W;
  ioctl_cancel : Z -> Z -> Z -> W -> W
}.

Definition TEEC_MAX_DEV_SEQ : nat := 10.

(** [TEEC_PARAM_TYPE_GET]. *)
Definition TEEC_PARAM_TYPE_GET (p i : Z) : Z := Z.land (Z.shiftr p (i * 4)) 0xF.

(** The text of [capabilities] libteec knows, with its terminating zero. *)
Definition optee_tz : list Z := [111; 112; 116; 101; 101; 45; 116; 122; 0].

Definition MAP_FAILED : Z := 2 ^ 64 - 1.

Definition is_temp (ty : Z) : bool :=
  (ty =? TEEC_MEMREF_TEMP_INPUT) || (ty =? TEEC_MEMREF_TEMP_OUTPUT) || (ty =? TEEC_MEMREF_TEMP_INOUT).
Definition is_partial (ty : Z) : bool :=
  (ty =? TEEC_MEMREF_PARTIAL_INPUT) || (ty =? TEEC_MEMREF_PARTIAL_OUTPUT) || (ty =? TEEC_MEMREF_PARTIAL_INOUT).
Definition is_value (ty : Z) : bool :=
  (ty =? TEEC_VALUE_INPUT) || (ty =? TEEC_VALUE_OUTPUT) || (ty =? TEEC_VALUE_INOUT).

(** The memory the TEE sees: the shadow buffer where there is one. *)
Definition shared_mem (shm : TEEC_SharedMemory) : list Z :=
  if shm_shadow_addr shm =? 0 then shm_buffer shm else shm_shadow shm.
Definition set_shared_mem (shm : TEEC_SharedMemory) (b : list Z) : TEEC_SharedMemory :=
  if shm_shadow_addr shm =? 0 then set_buffer shm b
  else mkShm (shm_addr shm) (shm_buffer shm) (shm_size shm) (shm_flags shm) (shm_id shm) (shm_alloced_size shm)
         (shm_shadow_addr shm) b (shm_registered_fd shm) (shm_buffer_allocated shm).

(** [memcpy] of [n] bytes at [off] of the second buffer to [off] of the first. *)
Definition copy_at (dst src : list Z) (off n : Z) : outcome (list Z) :=
  d ← buf_read src off n; buf_write dst off d.

(** The copies between a memory and its shadow buffer, made if it has one and [b]
    holds. *)
Definition to_shadow (b : bool) (shm : TEEC_SharedMemory) (off n : Z) : outcome TEEC_SharedMemory :=
  if negb (shm_shadow_addr shm =? 0) && b
  then set_shared_mem shm <$> copy_at (shm_shadow shm) (shm_buffer shm) off n
  else Ret shm.
Definition from_shadow (b : bool) (shm : TEEC_SharedMemory) (off n : Z) : outcome TEEC_SharedMemory :=
  if negb (shm_shadow_addr shm =? 0) && b
  then set_buffer shm <$> copy_at (shm_buffer shm) (shm_shadow shm) off n
  else Ret shm.

Module LibTeec.
Section LibTeec.
Context {W : Type} `{TeeDriver W}.

Definition sys {A} (f : W -> A * W) : st W A := fun w => Ret (f w).
Definition sys_ (f : W -> W) : st W unit := fun w => Ret (tt, f w).

(** ** Devices and contexts *)

(** The file descriptor, or -1, and [*gen_caps]. *)
Definition teec_open_dev (n : Z) (capabilities : option (list Z)) : st W (Z * Z) :=
  fd ← sys (sys_open n);
  if fd <? 0 then mret (-1, 0)
  else
    vers ← sys (ioctl_version fd);
    let err := sys_ (sys_close fd);; mret (-1, 0) in
    match vers with
    | None => err
    | Some v =>
        if Z.land (gen_caps v) TEE_GEN_CAP_GP =? 0 then err
        else match capabilities with
             | None => mret (fd, gen_caps v)
             | Some c =>
                 if bool_decide (c = optee_tz) then
                   if negb (impl_id v =? TEE_IMPL_ID_OPTEE) then err
                   else if Z.land (impl_caps v) TEE_OPTEE_CAP_TZ =? 0 then err
                   else mret (fd, gen_caps v)
                 else err
             end
    end.

(** Shared memory file descriptor, negative on failure, and [*id]. *)
Definition teec_shm_alloc (fd size : Z) : st W (Z * Z) :=
  '(shm_fd, id) ← sys (ioctl_shm_alloc fd size);
  if shm_fd <? 0 then mret (-1, 0) else mret (shm_fd, id).

Definition teec_shm_register (fd buf size : Z) : st W (Z * Z) :=
  '(shm_fd, id) ← sys (ioctl_shm_register fd buf size);
  if shm_fd <? 0 then mret (-1, 0) else mret (shm_fd, id).

(** The loop over the devices from number [n] on. *)
Fixpoint open_devices (todo : nat) (n : Z) (name : option (list Z)) : st W (Z * TEEC_Context) :=
  match todo with
  | O => mret (TEEC_ERROR_ITEM_NOT_FOUND, mkCtx 0 false)
  | S todo =>
      '(fd, caps) ← teec_open_dev n name;
      if 0 <=? fd then mret (TEEC_SUCCESS, mkCtx fd (negb (Z.land caps TEE_GEN_CAP_REG_MEM =? 0)))
      else open_devices todo (n + 1) name
  end.

Definition TEEC_InitializeContext (name : option (list Z)) : st W (Z * TEEC_Context) :=
  open_devices TEEC_MAX_DEV_SEQ 0 name.

Definition TEEC_FinalizeContext (ctx : TEEC_Context) : st W unit := sys_ (sys_close (ctx_fd ctx)).

(** ** Shared memory *)

(** [!flags || (flags & ~(TEEC_MEM_INPUT | TEEC_MEM_OUTPUT))]. *)
Definition bad_flags (flags : Z) : bool :=
  (flags =? 0) || negb (Z.land flags (Z.lnot (Z.lor TEEC_MEM_INPUT TEEC_MEM_OUTPUT)) =? 0).

(** The members the three functions below assign on success, and the identifier
    they set when the mapping fails. *)
Definition shm_set (shm : TEEC_SharedMemory) (addr : Z) (b : list Z) (id s : Z) (shadow : Z) (sb : list Z)
    (rfd : Z) (allocated : bool) : TEEC_SharedMemory :=
  mkShm addr b (shm_size shm) (shm_flags shm) id s shadow sb rfd allocated.
Definition set_pointer (shm : TEEC_SharedMemory) (addr : Z) (b : list Z) (id : Z) : TEEC_SharedMemory :=
  mkShm addr b (shm_size shm) (shm_flags shm) id (shm_alloced_size shm)
    (shm_shadow_addr shm) (shm_shadow shm) (shm_registered_fd shm) (shm_buffer_allocated shm).

Definition TEEC_AllocateSharedMemory (ctx : TEEC_Context) (shm : TEEC_SharedMemory)
  : st W (Z * TEEC_SharedMemory) :=
  if bad_flags (shm_flags shm) then mret (TEEC_ERROR_BAD_PARAMETERS, shm)
  else
    let s := if shm_size shm =? 0 then 8 else shm_size shm in
    if ctx_reg_mem ctx then
      p ← sys (sys_malloc s);
      match p with
      | None => mret (TEEC_ERROR_OUT_OF_MEMORY, set_pointer shm 0 [] (shm_id shm))
      | Some (addr, b) =>
          '(fd, id) ← teec_shm_register (ctx_fd ctx) addr s;
          if fd <? 0 then
            sys_ (sys_free addr);;
            mret (TEEC_ERROR_OUT_OF_MEMORY, set_pointer shm 0 [] (shm_id shm))
          else mret (TEEC_SUCCESS, shm_set shm addr b id s 0 [] fd true)
      end
    else
      '(fd, id) ← teec_shm_alloc (ctx_fd ctx) s;
      if fd <? 0 then mret (TEEC_ERROR_OUT_OF_MEMORY, shm)
      else
        p ← sys (sys_mmap fd s);
        sys_ (sys_close fd);;
        match p with
        | None => mret (TEEC_ERROR_OUT_OF_MEMORY, set_pointer shm MAP_FAILED [] (-1))
        | Some (addr, b) => mret (TEEC_SUCCESS, shm_set shm addr b id s 0 [] (-1) true)
        end.

Definition TEEC_RegisterSharedMemory (ctx : TEEC_Context) (shm : TEEC_SharedMemory)
  : st W (Z * TEEC_SharedMemory) :=
  if bad_flags (shm_flags shm) then mret (TEEC_ERROR_BAD_PARAMETERS, shm)
  else
    let s := if shm_size shm =? 0 then 8 else shm_size shm in
    if ctx_reg_mem ctx then
      '(fd, id) ← teec_shm_register (ctx_fd ctx) (shm_addr shm) s;
      if fd <? 0 then mret (TEEC_ERROR_OUT_OF_MEMORY, shm)
      else mret (TEEC_SUCCESS, shm_set shm (shm_addr shm) (shm_buffer shm) id s 0 [] fd false)
    else
      '(fd, id) ← teec_shm_alloc (ctx_fd ctx) s;
      if fd <? 0 then mret (TEEC_ERROR_OUT_OF_MEMORY, shm)
      else
        p ← sys (sys_mmap fd s);
        sys_ (sys_close fd);;
        match p with
        | None =>
            mret (TEEC_ERROR_OUT_OF_MEMORY,
                  shm_set shm (shm_addr shm) (shm_buffer shm) (-1) (shm_alloced_size shm) MAP_FAILED []
                    (shm_registered_fd shm) (shm_buffer_allocated shm))
        | Some (addr, b) =>
            mret (TEEC_SUCCESS, shm_set shm (shm_addr shm) (shm_buffer shm) id s addr b (-1) false)
        end.

Definition TEEC_RegisterSharedMemoryFileDescriptor (ctx : TEEC_Context) (shm : TEEC_SharedMemory) (fd : Z)
  : st W (Z * TEEC_SharedMemory) :=
  if (fd <? 0) || bad_flags (shm_flags shm) then mret (TEEC_ERROR_BAD_PARAMETERS, shm)
  else
    '(rfd, id, size) ← sys (ioctl_shm_register_fd (ctx_fd ctx) fd);
    if rfd <? 0 then mret (TEEC_ERROR_BAD_PARAMETERS, shm)
    else mret (TEEC_SUCCESS, mkShm 0 [] size (shm_flags shm) id (shm_alloced_size shm) 0 [] rfd
                               (shm_buffer_allocated shm)).

Definition TEEC_ReleaseSharedMemory (shm : TEEC_SharedMemory) : st W TEEC_SharedMemory :=
  if shm_id shm =? -1 then mret shm
  else
    (if negb (shm_shadow_addr shm =? 0) then sys_ (sys_munmap (shm_shadow_addr shm) (shm_alloced_size shm))
     else if negb (shm_addr shm =? 0) then
       if 0 <=? shm_registered_fd shm then
         (if shm_buffer_allocated shm then sys_ (sys_free (shm_addr shm)) else mret tt);;
         sys_ (sys_close (shm_registered_fd shm))
       else sys_ (sys_munmap (shm_addr shm) (shm_alloced_size shm))
     else if 0 <=? shm_registered_fd shm then sys_ (sys_close (shm_registered_fd shm))
     else mret tt);;
    mret (mkShm 0 [] (shm_size shm) (shm_flags shm) (-1) (shm_alloced_size shm) 0 [] (-1) false).

(** ** Parameters *)

(** [memset] of a [TEEC_SharedMemory] to zero. *)
Definition shm_zero : TEEC_SharedMemory := shm_new 0 0.

(** A parameter while an operation runs: the caller's, the driver's, and the
    shared memory libteec made for it. *)
Definition slot : Type := TEEC_Parameter * tee_ioctl_param * TEEC_SharedMemory.

Definition teec_pre_process_tmpref (ctx : TEEC_Context) (param_type : Z) (buffer : option (list Z)) (size : Z)
  : st W (Z * slot) :=
  let p := TP_tmpref buffer size in
  let go attr flags :=
    '(res, shm) ← TEEC_AllocateSharedMemory ctx (shm_new size flags);
    if negb (res =? TEEC_SUCCESS) then mret (res, (p, IP_value attr 0 0, shm))
    else
      d ← lift (mem_read buffer size);
      b ← lift (buf_write (shm_buffer shm) 0 d);
      let shm := set_buffer shm b in
      mret (TEEC_SUCCESS, (p, IP_memref attr 0 size (shm_id shm) (shared_mem shm), shm)) in
  if param_type =? TEEC_MEMREF_TEMP_INPUT
  then go TEE_IOCTL_PARAM_ATTR_TYPE_MEMREF_INPUT TEEC_MEM_INPUT
  else if param_type =? TEEC_MEMREF_TEMP_OUTPUT
  then go TEE_IOCTL_PARAM_ATTR_TYPE_MEMREF_OUTPUT TEEC_MEM_OUTPUT
  else if param_type =? TEEC_MEMREF_TEMP_INOUT
  then go TEE_IOCTL_PARAM_ATTR_TYPE_MEMREF_INOUT (Z.lor TEEC_MEM_INPUT TEEC_MEM_OUTPUT)
  else mret (TEEC_ERROR_BAD_PARAMETERS, (p, IP_none, shm_zero)).

Definition teec_pre_process_whole (parent : TEEC_SharedMemory) (size offset : Z) : outcome (Z * slot) :=
  let inout := Z.lor TEEC_MEM_INPUT TEEC_MEM_OUTPUT in
  let flags := Z.land (shm_flags parent) inout in
  let go attr :=
    shm ← to_shadow (negb (Z.land flags TEEC_MEM_INPUT =? 0)) parent 0 (shm_size parent);
    Ret (TEEC_SUCCESS,
         (TP_memref shm size offset, IP_memref attr 0 (shm_size shm) (shm_id shm) (shared_mem shm), shm_zero)) in
  if flags =? inout then go TEE_IOCTL_PARAM_ATTR_TYPE_MEMREF_INOUT
  else if negb (Z.land flags TEEC_MEM_INPUT =? 0) then go TEE_IOCTL_PARAM_ATTR_TYPE_MEMREF_INPUT
  else if negb (Z.land flags TEEC_MEM_OUTPUT =? 0) then go TEE_IOCTL_PARAM_ATTR_TYPE_MEMREF_OUTPUT
  else Ret (TEEC_ERROR_BAD_PARAMETERS, (TP_memref parent size offset, IP_none, shm_zero)).

Definition teec_pre_process_partial (param_type : Z) (parent : TEEC_SharedMemory) (size offset : Z)
  : outcome (Z * slot) :=
  let bad := Ret (TEEC_ERROR_BAD_PARAMETERS, (TP_memref parent size offset, IP_none, shm_zero)) in
  let go attr req_shm_flags :=
    if negb (Z.land (shm_flags parent) req_shm_flags =? req_shm_flags) then bad
    else
      shm ← to_shadow (negb (param_type =? TEEC_MEMREF_PARTIAL_OUTPUT)) parent offset size;
      Ret (TEEC_SUCCESS,
           (TP_memref shm size offset, IP_memref attr offset size (shm_id shm) (shared_mem shm), shm_zero)) in
  if param_type =? TEEC_MEMREF_PARTIAL_INPUT
  then go TEE_IOCTL_PARAM_ATTR_TYPE_MEMREF_INPUT TEEC_MEM_INPUT
  else if param_type =? TEEC_MEMREF_PARTIAL_OUTPUT
  then go TEE_IOCTL_PARAM_ATTR_TYPE_MEMREF_OUTPUT TEEC_MEM_OUTPUT
  else if param_type =? TEEC_MEMREF_PARTIAL_INOUT
  then go TEE_IOCTL_PARAM_ATTR_TYPE_MEMREF_INOUT (Z.lor TEEC_MEM_OUTPUT TEEC_MEM_INPUT)
  else bad.

(** The body of the loop of [teec_pre_process_operation] for one parameter. *)
Definition pre_process_param (ctx : TEEC_Context) (param_type : Z) (p : TEEC_Parameter) : st W (Z * slot) :=
  if param_type =? TEEC_NONE then mret (TEEC_SUCCESS, (p, IP_none, shm_zero))
  else if is_value param_type then
    match p with
    | TP_value a b => mret (TEEC_SUCCESS, (p, IP_value param_type a b, shm_zero))
    | _ => lift Undef
    end
  else if is_temp param_type then
    match p with
    | TP_tmpref b size => teec_pre_process_tmpref ctx param_type b size
    | _ => lift Undef
    end
  else if param_type =? TEEC_MEMREF_WHOLE then
    match p with
    | TP_memref shm size offset => lift (teec_pre_process_whole shm size offset)
    | _ => lift Undef
    end
  else if is_partial param_type then
    match p with
    | TP_memref shm size offset => lift (teec_pre_process_partial param_type shm size offset)
    | _ => lift Undef
    end
  else mret (TEEC_ERROR_BAD_PARAMETERS, (p, IP_none, shm_zero)).

(** Slots that were not reached are as [memset] left them. *)
Fixpoint pre_process_params (ctx : TEEC_Context) (types n : Z) (ps : list TEEC_Parameter)
  : st W (Z * list slot) :=
  match ps with
  | [] => mret (TEEC_SUCCESS, [])
  | p :: ps =>
      '(res, x) ← pre_process_param ctx (TEEC_PARAM_TYPE_GET types n) p;
      if negb (res =? TEEC_SUCCESS) then mret (res, x :: ((fun p => (p, IP_none, shm_zero)) <$> ps))
      else
        '(res, xs) ← pre_process_params ctx types (n + 1) ps;
        mret (res, x :: xs)
  end.

Definition teec_pre_process_operation (ctx : TEEC_Context) (operation : option TEEC_Operation)
  : st W (Z * list slot) :=
  match operation with
  | None => mret (TEEC_SUCCESS, replicate 4 (TP_none, IP_none, shm_zero))
  | Some op => pre_process_params ctx (op_types op) 0 (op_params op)
  end.

(** The content the driver left in a memory that a parameter referred to. *)
Definition mem_after (shm : TEEC_SharedMemory) (param : tee_ioctl_param) : TEEC_SharedMemory :=
  match param with IP_memref _ _ _ _ mem => set_shared_mem shm mem | _ => shm end.

Definition teec_post_process_tmpref (param_type : Z) (buffer : option (list Z)) (size : Z)
    (param : tee_ioctl_param) (shm : TEEC_SharedMemory) : outcome (TEEC_Parameter * TEEC_SharedMemory) :=
  let shm := mem_after shm param in
  if negb (param_type =? TEEC_MEMREF_TEMP_INPUT) then
    match param with
    | IP_memref _ _ psize _ _ =>
        b ← (match buffer with
             | Some b => if psize <=? size then d ← buf_read (shm_buffer shm) 0 psize; Some <$> buf_write b 0 d
                         else Ret buffer
             | None => Ret buffer
             end);
        Ret (TP_tmpref b psize, shm)
    | _ => Undef
    end
  else Ret (TP_tmpref buffer size, shm).

Definition teec_post_process_whole (parent : TEEC_SharedMemory) (size offset : Z) (param : tee_ioctl_param)
  : outcome TEEC_Parameter :=
  let shm := mem_after parent param in
  if negb (Z.land (shm_flags shm) TEEC_MEM_OUTPUT =? 0) then
    match param with
    | IP_memref _ _ psize _ _ =>
        shm ← from_shadow (psize <=? shm_size shm) shm 0 psize;
        Ret (TP_memref shm psize offset)
    | _ => Undef
    end
  else Ret (TP_memref shm size offset).

Definition teec_post_process_partial (param_type : Z) (parent : TEEC_SharedMemory) (size offset : Z)
    (param : tee_ioctl_param) : outcome TEEC_Parameter :=
  let shm := mem_after parent param in
  if negb (param_type =? TEEC_MEMREF_PARTIAL_INPUT) then
    match param with
    | IP_memref _ _ psize _ _ =>
        shm ← from_shadow (psize <=? size) shm offset psize;
        Ret (TP_memref shm psize offset)
    | _ => Undef
    end
  else Ret (TP_memref shm size offset).

(** The body of the loop of [teec_post_process_operation]: the caller's parameter
    and libteec's shared memory afterwards. *)
Definition post_process_param (param_type : Z) (x : slot) : outcome (TEEC_Parameter * TEEC_SharedMemory) :=
  let '(p, param, shm) := x in
  if param_type =? TEEC_VALUE_INPUT then Ret (p, shm)
  else if is_value param_type then
    match param with IP_value _ a b => Ret (TP_value (u32 a) (u32 b), shm) | _ => Undef end
  else if is_temp param_type then
    match p with TP_tmpref b size => teec_post_process_tmpref param_type b size param shm | _ => Undef end
  else if param_type =? TEEC_MEMREF_WHOLE then
    match p with
    | TP_memref parent size offset => q ← teec_post_process_whole parent size offset param; Ret (q, shm)
    | _ => Undef
    end
  else if is_partial param_type then
    match p with
    | TP_memref parent size offset =>
        q ← teec_post_process_partial param_type parent size offset param; Ret (q, shm)
    | _ => Undef
    end
  else Ret (p, shm).

Fixpoint teec_post_process_operation (types n : Z) (xs : list slot)
  : outcome (list (TEEC_Parameter * TEEC_SharedMemory)) :=
  match xs with
  | [] => Ret []
  | x :: xs =>
      y ← post_process_param (TEEC_PARAM_TYPE_GET types n) x;
      ys ← teec_post_process_operation types (n + 1) xs;
      Ret (y :: ys)
  end.

Fixpoint teec_free_temp_refs (types n : Z) (shms : list TEEC_SharedMemory) : st W unit :=
  match shms with
  | [] => mret tt
  | shm :: shms =>
      (if is_temp (TEEC_PARAM_TYPE_GET types n) then TEEC_ReleaseSharedMemory shm;; mret tt else mret tt);;
      teec_free_temp_refs types (n + 1) shms
  end.

Definition ioctl_errno_to_res (err : Z) : Z :=
  if err =? ENOMEM then TEEC_ERROR_OUT_OF_MEMORY else TEEC_ERROR_GENERIC.

(** ** Sessions and commands *)

Definition uuid_to_octets (s : TEEC_UUID) : list Z :=
  [u8 (Z.shiftr (timeLow s) 24); u8 (Z.shiftr (timeLow s) 16); u8 (Z.shiftr (timeLow s) 8); u8 (timeLow s);
   u8 (Z.shiftr (timeMid s) 8); u8 (timeMid s);
   u8 (Z.shiftr (timeHiAndVersion s) 8); u8 (timeHiAndVersion s)] ++ clockSeqAndNode s.

(** The parameters the driver gives back, in the slots. *)
Definition answer_slots (xs : list slot) (params : list tee_ioctl_param) : list slot :=
  zip_with (fun (x : slot) q => (x.1.1, q, x.2)) xs params.

(** An operation that is null has no parameters to process. *)
Definition free_refs (operation : option TEEC_Operation) (shms : list TEEC_SharedMemory) : st W unit :=
  match operation with
  | None => mret tt
  | Some op => teec_free_temp_refs (op_types op) 0 shms
  end.
Definition post_process (operation : option TEEC_Operation) (xs : list slot)
  : outcome (list (TEEC_Parameter * TEEC_SharedMemory)) :=
  match operation with
  | None => Ret ((fun x : slot => (x.1.1, x.2)) <$> xs)
  | Some op => teec_post_process_operation (op_types op) 0 xs
  end.

(** Result, session, error origin and the parameters of the operation.  The
    session of a failed call is not assigned. *)
Definition TEEC_OpenSession (ctx : TEEC_Context) (destination : TEEC_UUID) (connection_method : Z)
    (operation : option TEEC_Operation) : st W (Z * TEEC_Session * Z * list TEEC_Parameter) :=
  let none := mkSess ctx 0 in
  '(res, xs) ← teec_pre_process_operation ctx operation;
  let fail res eorig :=
    free_refs operation xs.*2;;
    mret (res, none, eorig, xs.*1.*1) in
  if negb (res =? TEEC_SUCCESS) then fail res TEEC_ORIGIN_API
  else
    rc ← ioctl_open_session (ctx_fd ctx) (uuid_to_octets destination) connection_method xs.*1.*2;
    match rc with
    | inl errno => fail (ioctl_errno_to_res errno) TEEC_ORIGIN_COMMS
    | inr (ret, ret_origin, session, params) =>
        ys ← lift (post_process operation (answer_slots xs params));
        free_refs operation ys.*2;;
        mret (ret, if ret =? TEEC_SUCCESS then mkSess ctx session else none, ret_origin, ys.*1)
    end.

Definition TEEC_CloseSession (session : TEEC_Session) : st W unit :=
  sys_ (ioctl_close_session (ctx_fd (sess_ctx session)) (session_id session)).

Definition TEEC_InvokeCommand (session : TEEC_Session) (cmd_id : Z) (operation : option TEEC_Operation)
  : st W (Z * Z * list TEEC_Parameter) :=
  '(res, xs) ← teec_pre_process_operation (sess_ctx session) operation;
  let fail res eorig :=
    free_refs operation xs.*2;;
    mret (res, eorig, xs.*1.*1) in
  if negb (res =? TEEC_SUCCESS) then fail res TEEC_ORIGIN_API
  else
    rc ← ioctl_invoke (ctx_fd (sess_ctx session)) (session_id session) cmd_id xs.*1.*2;
    match rc with
    | inl errno => fail (ioctl_errno_to_res errno) TEEC_ORIGIN_COMMS
    | inr (ret, ret_origin, params) =>
        ys ← lift (post_process operation (answer_slots xs params));
        free_refs operation ys.*2;;
        mret (ret, ret_origin, ys.*1)
    end.

(** [session] is the member of the operation, null before its first command. *)
Definition TEEC_RequestCancellation (session : option TEEC_Session) : st W unit :=
  match session with
  | None => mret tt
  | Some s => sys_ (ioctl_cancel (ctx_fd (sess_ctx s)) (session_id s) 0)
  end.

End LibTeec.
End LibTeec.

(** The implementation of the client API. *)
#[export] Instance libteec {W} `{TeeDriver W} : TEEC W := {|
  TEEC_InitializeContext := LibTeec.TEEC_InitializeContext;
  TEEC_OpenSession ctx uuid login op :=
    '(res, sess, o, _) ← LibTeec.TEEC_OpenSession ctx uuid login op; mret (res, sess, o);
  TEEC_AllocateSharedMemory := LibTeec.TEEC_AllocateSharedMemory;
  TEEC_InvokeCommand sess cmd op := LibTeec.TEEC_InvokeCommand sess cmd (Some op);
  TEEC_ReleaseSharedMemory shm := LibTeec.TEEC_ReleaseSharedMemory shm;; mret tt;
  TEEC_CloseSession := LibTeec.TEEC_CloseSession;
  TEEC_FinalizeContext := LibTeec.TEEC_FinalizeContext
|}.
