(* ===== verification/LibTeecTheorems.v ===== *)
(** * Properties of the TEE client library

    libteec keeps the promises of the TEE client API if the system calls keep
    theirs ([Driver_laws]), and every function of the secure-key library, run on
    libteec, leaves no descriptor, mapping or heap block behind, whatever the
    system answers. *)

From stdpp Require Import base numbers list sets.
From S2P Require Import Prelude SkTypes AttrCodec TeeClient SkLib SkLibTheorems LibTeec.

(** ** What the system promises *)

(** A parameter after an ioctl: of the same kind, and the memory of a reference
    still as large. *)
Definition same_ioctl_param (p q : tee_ioctl_param) : Prop :=
  match p, q with
  | IP_none, IP_none => True
  | IP_value _ _ _, IP_value _ _ _ => True
  | IP_memref _ _ _ _ m, IP_memref _ _ _ _ m' => length m' = length m
  | _, _ => False
  end.

(** A block of memory of [n] bytes. *)
Definition block (n addr : Z) (b : list Z) : Prop :=
  addr <> 0 /\ Z.land addr 3 = 0 /\ (0 <= n -> Z.of_nat (length b) = n).

Class Driver_laws (W : Type) `{TeeDriver W} := {
  malloc_block n w addr b w' : sys_malloc n w = (Some (addr, b), w') -> block n addr b;
  mmap_block fd n w addr b w' : sys_mmap fd n w = (Some (addr, b), w') -> block n addr b;
  shm_alloc_id fd n w sfd id w' : ioctl_shm_alloc fd n w = ((sfd, id), w') -> 0 <= sfd -> 0 <= id;
  shm_register_id fd addr n w sfd id w' : ioctl_shm_register fd addr n w = ((sfd, id), w') -> 0 <= sfd -> 0 <= id;
  open_session_total fd uuid login ps : Forall (fun p => p = IP_none) ps ->
    total (ioctl_open_session fd uuid login ps);
  invoke_params fd session cmd ps w ret o ps' w' :
    ioctl_invoke fd session cmd ps w = Ret (inr (ret, o, ps'), w') -> Forall2 same_ioctl_param ps ps'
}.

(** ** Parameters before and after a command *)

Lemma same_param_refl p : same_param p p.
Proof. by destruct p. Qed.

Lemma same_param_trans p q r : same_param p q -> same_param q r -> same_param p r.
Proof. destruct p, q, r; cbn; try done; intuition congruence. Qed.

Lemma copy_at_length dst src off n b : copy_at dst src off n = Ret b -> length b = length dst.
Proof.
  unfold copy_at. intros E. apply outcome_bind_inv in E as (d & _ & E). by eapply buf_write_length.
Qed.

(** Two states of one memory. *)
Definition same_shm (m m' : TEEC_SharedMemory) : Prop :=
  shm_id m' = shm_id m /\ shm_addr m' = shm_addr m /\
  length (shm_buffer m') = length (shm_buffer m) /\ length (shared_mem m') = length (shared_mem m).

Lemma set_shared_mem_same shm b : length b = length (shared_mem shm) -> same_shm shm (set_shared_mem shm b).
Proof.
  unfold same_shm, set_shared_mem, shared_mem. destruct (_ =? 0) eqn:E; cbn; rewrite E; cbn; intuition.
Qed.

Lemma to_shadow_same b shm off n shm' : to_shadow b shm off n = Ret shm' -> same_shm shm shm'.
Proof.
  unfold to_shadow. destruct (_ && _) eqn:Eb; [| by intros [= <-]]. intros E. inv_ret.
  apply set_shared_mem_same. erewrite copy_at_length by done. unfold shared_mem.
  apply andb_true_iff in Eb as [Eb _]. by apply negb_true_iff in Eb as ->.
Qed.

Lemma from_shadow_same b shm off n shm' : from_shadow b shm off n = Ret shm' ->
  shm_id shm' = shm_id shm /\ shm_addr shm' = shm_addr shm /\ length (shm_buffer shm') = length (shm_buffer shm).
Proof.
  unfold from_shadow. destruct (_ && _) eqn:Eb; [| by intros [= <-]]. intros E. inv_ret. cbn.
  split_and!; [done.. |]. by eapply copy_at_length.
Qed.

(** A slot that was prepared for a parameter: the driver's reference is to the
    memory of the caller's. *)
Definition slot_of (p : TEEC_Parameter) (x : LibTeec.slot) : Prop :=
  same_param p x.1.1 /\
  match x.1.1, x.1.2 with
  | TP_memref m _ _, IP_memref _ _ _ _ mem => length mem = length (shared_mem m)
  | TP_value _ _, IP_value _ _ _ => True
  | _, IP_value _ _ _ => False
  | _, _ => True
  end.

Lemma memref_slot m shm size off attr o sz id s :
  same_shm m shm -> slot_of (TP_memref m size off) ((TP_memref shm size off, IP_memref attr o sz id (shared_mem shm)), s).
Proof. intros (? & ? & ? & ?). done. Qed.

Lemma pre_whole_slot m size off res x :
  LibTeec.teec_pre_process_whole m size off = Ret (res, x) -> res = TEEC_SUCCESS -> slot_of (TP_memref m size off) x.
Proof.
  intros E ->. unfold LibTeec.teec_pre_process_whole in E.
  case_c; [.. | discriminate]; inv_ret; (eapply memref_slot, to_shadow_same; eassumption).
Qed.

Lemma pre_partial_slot ty m size off res x :
  LibTeec.teec_pre_process_partial ty m size off = Ret (res, x) -> res = TEEC_SUCCESS ->
  slot_of (TP_memref m size off) x.
Proof.
  intros E ->. unfold LibTeec.teec_pre_process_partial in E.
  case_c; try discriminate; inv_ret; (eapply memref_slot, to_shadow_same; eassumption).
Qed.

Section Laws.
Context {W : Type} `{HD : TeeDriver W}.

Lemma pre_param_slot ctx ty p w res x w' :
  LibTeec.pre_process_param ctx ty p w = Ret ((res, x), w') -> res = TEEC_SUCCESS -> slot_of p x.
Proof.
  intros E Hr. unfold LibTeec.pre_process_param in E.
  destruct (ty =? TEEC_NONE); [inv_st; split; [apply same_param_refl | by destruct p] |].
  destruct (is_value ty); [destruct p; [discriminate | | discriminate..]; inv_st; done |].
  destruct (is_temp ty).
  { destruct p as [| |b size|]; [discriminate.. | | discriminate]. unfold LibTeec.teec_pre_process_tmpref in E.
    subst res. case_c; inv_st; try discriminate; repeat case_match; inv_st; boolz; subst; try congruence; done. }
  destruct (ty =? TEEC_MEMREF_WHOLE).
  { destruct p; [discriminate.. |]. apply lift_inv in E as [E _]. by eapply pre_whole_slot. }
  destruct (is_partial ty); [| inv_st; discriminate].
  destruct p; [discriminate.. |]. apply lift_inv in E as [E _]. by eapply pre_partial_slot.
Qed.

Lemma pre_params_slots ctx types ps : forall n w res xs w',
  LibTeec.pre_process_params ctx types n ps w = Ret ((res, xs), w') -> res = TEEC_SUCCESS -> Forall2 slot_of ps xs.
Proof.
  induction ps as [|p ps IH]; intros n w res xs w' E Hr; cbn [LibTeec.pre_process_params] in E; inv_st; [constructor |].
  destruct a as [res1 x]. destruct (res1 =? TEEC_SUCCESS) eqn:Er; cbn [negb] in E; inv_st; boolz; [| done].
  destruct a as [res2 xs2]. inv_st. constructor; [by eapply pre_param_slot | by eapply IH].
Qed.

(** The memory of a reference after the driver returned. *)
Lemma mem_after_same m size off ip q s : slot_of (TP_memref m size off) (TP_memref m size off, ip, s) ->
  same_ioctl_param ip q -> same_shm m (LibTeec.mem_after m q).
Proof.
  intros [_ Hm] Hq. cbn in Hm. destruct ip, q; try done. apply set_shared_mem_same. cbn in Hq. congruence.
Qed.

Lemma post_memref_same b m m1 size off o n psize m2 :
  same_shm m m1 -> from_shadow b m1 o n = Ret m2 -> same_param (TP_memref m size off) (TP_memref m2 psize off).
Proof. intros (? & ? & ? & _) E. apply from_shadow_same in E as (? & ? & ?). cbn. intuition congruence. Qed.

Lemma post_tmpref_same ty b size q s y : LibTeec.teec_post_process_tmpref ty b size q s = Ret y ->
  same_param (TP_tmpref b size) y.1.
Proof.
  unfold LibTeec.teec_post_process_tmpref. intros E. destruct (negb _); [| by injection E as <-].
  destruct q as [| |attr o n id mem]; [discriminate.. |]. apply outcome_bind_inv in E as (b' & Eb & E).
  injection E as <-. cbn. destruct b as [b|]; [| by injection Eb as <-].
  destruct (_ <=? _); [| by injection Eb as <-]. inv_ret. cbn. f_equal. by eapply buf_write_length.
Qed.

Lemma post_param_same ty p x q y :
  slot_of p x -> same_ioctl_param x.1.2 q -> LibTeec.post_process_param ty (x.1.1, q, x.2) = Ret y ->
  same_param p y.1.
Proof.
  destruct x as [[p' ip] s]. intros [Hp Hm] Hq E. cbn in Hp, Hm, Hq. eapply same_param_trans; [exact Hp |].
  assert (Hs : slot_of p' (p', ip, s)) by (split; [apply same_param_refl | done]). clear Hp Hm.
  unfold LibTeec.post_process_param in E. cbn [fst snd] in E.
  destruct (ty =? TEEC_VALUE_INPUT); [injection E as <-; apply same_param_refl |].
  destruct (is_value ty).
  { destruct q; [discriminate | | discriminate]. injection E as <-. destruct Hs as [_ Hs]. cbn in Hs.
    by destruct ip, p'. }
  destruct (is_temp ty); [destruct p'; try discriminate; by eapply post_tmpref_same |].
  destruct (ty =? TEEC_MEMREF_WHOLE); [| destruct (is_partial ty); [| injection E as <-; apply same_param_refl]].
  all: destruct p' as [| | |m size off]; [discriminate.. |]; apply outcome_bind_inv in E as (p2 & E & E');
    injection E' as <-; pose proof (mem_after_same _ _ _ _ _ _ Hs Hq) as Hm;
    unfold LibTeec.teec_post_process_whole, LibTeec.teec_post_process_partial in E;
    (destruct (negb _); [| injection E as <-; destruct Hm as (? & ? & ? & ?); done]);
    (destruct q as [| |attr o n id mem]; [discriminate.. |]); apply outcome_bind_inv in E as (m2 & Em & E);
    injection E as <-; by eapply post_memref_same.
Qed.

Lemma post_params_same types ps xs : Forall2 slot_of ps xs -> forall n qs ys,
  Forall2 same_ioctl_param xs.*1.*2 qs ->
  LibTeec.teec_post_process_operation types n (LibTeec.answer_slots xs qs) = Ret ys ->
  Forall2 same_param ps ys.*1.
Proof.
  induction 1 as [|p x ps xs Hx _ IH]; intros n qs ys Hq E.
  { cbn in E. injection E as <-. constructor. }
  inversion Hq as [|? q ? qs' Hq1 Hq2]; subst. cbn [LibTeec.answer_slots zip_with] in E.
  cbn [LibTeec.teec_post_process_operation] in E. inv_ret. cbn. constructor; [by eapply post_param_same |].
  by eapply IH.
Qed.

(** ** The promises of the client API *)

Lemma total_sys {A} (f : W -> A * W) : total (LibTeec.sys f).
Proof. intros w. by eexists. Qed.
Lemma total_sys_ (f : W -> W) : total (LibTeec.sys_ f).
Proof. intros w. by eexists. Qed.
Lemma total_ret {A} (a : A) : total (W := W) (mret a).
Proof. intros w. by eexists. Qed.
Lemma total_bind {A B} (m : st W A) (f : A -> st W B) : total m -> (forall a, total (f a)) -> total (m ≫= f).
Proof. intros Hm Hf w. destruct (Hm w) as ([a w1] & E). unfold mbind, st_bind. rewrite E. apply Hf. Qed.

Ltac run_total :=
  repeat first
    [ apply total_sys | apply total_sys_ | apply total_ret
    | apply total_bind; [| intros ?]
    | match goal with
      | |- total (if ?b then _ else _) => destruct b
      | |- total (match ?x with _ => _ end) => destruct x
      end ].

Lemma open_devices_total name todo : forall n, total (LibTeec.open_devices todo n name).
Proof.
  induction todo as [|todo IH]; intros n; cbn [LibTeec.open_devices]; [apply total_ret |].
  unfold LibTeec.teec_open_dev. run_total. apply IH.
Qed.

Lemma release_total_libteec shm : total (LibTeec.TEEC_ReleaseSharedMemory shm).
Proof. unfold LibTeec.TEEC_ReleaseSharedMemory. run_total. Qed.

Lemma allocate_total ctx shm : total (LibTeec.TEEC_AllocateSharedMemory ctx shm).
Proof. unfold LibTeec.TEEC_AllocateSharedMemory, LibTeec.teec_shm_register, LibTeec.teec_shm_alloc. run_total. Qed.

Context `{HL : !Driver_laws W}.

Lemma open_session_returns ctx uuid login : total (LibTeec.TEEC_OpenSession ctx uuid login None).
Proof.
  assert (Ht : total (ioctl_open_session (ctx_fd ctx) (LibTeec.uuid_to_octets uuid) login (replicate 4 IP_none)))
    by (by apply open_session_total; repeat constructor).
  intros w. destruct (Ht w) as ([rc w1] & E).
  unfold LibTeec.TEEC_OpenSession, LibTeec.teec_pre_process_operation. unfold mbind, st_bind, mret, st_ret. cbn in *.
  rewrite E. destruct rc as [errno | [[[ret o] session] qs]]; by eexists.
Qed.

Lemma allocate_law ctx shm w shm' w' :
  LibTeec.TEEC_AllocateSharedMemory ctx shm w = Ret ((TEEC_SUCCESS, shm'), w') ->
  shm_size shm' = shm_size shm /\ shm_flags shm' = shm_flags shm /\
  block (if shm_size shm =? 0 then 8 else shm_size shm) (shm_addr shm') (shm_buffer shm').
Proof.
  intros E. unfold LibTeec.TEEC_AllocateSharedMemory in E. set (s := if shm_size shm =? 0 then _ else _) in *.
  destruct (LibTeec.bad_flags (shm_flags shm)); [inv_st; discriminate |]. destruct (ctx_reg_mem ctx); inv_st.
  - unfold LibTeec.sys in E0. destruct (sys_malloc s w) as [p w1] eqn:Em. injection E0 as <- <-.
    destruct p as [[addr b]|]; inv_st; [| discriminate]. destruct a as [fd id]. destruct (fd <? 0); inv_st; [discriminate |].
    cbn. split_and!; [done.. |]. by eapply malloc_block.
  - destruct a as [fd id]. destruct (fd <? 0); inv_st; [discriminate |].
    unfold LibTeec.sys in E1. destruct (sys_mmap fd s s0) as [p w1] eqn:Em. injection E1 as <- <-.
    destruct p as [[addr b]|]; inv_st; [| discriminate]. cbn. split_and!; [done.. |]. by eapply mmap_block.
Qed.

(** C34: libteec keeps the promises of the TEE client API that the secure-key
    library relies on, for every system whose allocations, mappings and ioctls do
    what they document: opening and closing a context or a session, allocating and
    releasing memory return, an allocated memory is aligned and of the size asked for,
    and a command that succeeds, whatever its parameter types, leaves each parameter of the kind it was, in the same memory. *)
Theorem libteec_keeps_promises : TEEC_laws W.
Proof.
  split.
  - intros name. apply open_devices_total.
  - intros ctx uuid login. apply total_bind; [apply open_session_returns |]. intros [[[? ?] ?] ?]. apply total_ret.
  - intros ctx shm _. apply allocate_total.
  - intros shm. apply total_bind; [apply release_total_libteec | intros ?; apply total_ret].
  - intros sess. apply total_sys_.
  - intros ctx. apply total_sys_.
  - intros ctx shm w shm' w' Hs E. destruct (allocate_law _ _ _ _ _ E) as (? & ? & ? & ? & Hl).
    split_and!; [done.. | | | done]; destruct (_ =? 0) eqn:E0; boolz; lia.
  - intros sess cmd op w o ps w' E. cbn in E. unfold LibTeec.TEEC_InvokeCommand in E. inv_st.
    destruct a as [res xs]. destruct (res =? TEEC_SUCCESS) eqn:Er; boolz; cbn [negb] in E; inv_st; [| congruence].
    destruct a as [errno | [[ret ro] qs]].
    + apply st_bind_inv in E as (? & ? & _ & E). inv_st. unfold LibTeec.ioctl_errno_to_res in *. by case_c.
    + inv_st. eapply post_params_same; [by eapply pre_params_slots | by eapply invoke_params | done].
Qed.

End Laws.

(** ** Descriptors, mappings, heap blocks and sessions *)

(** The system calls of a run that acquire, use or release something. *)
Inductive sys_event :=
| SOpen (fd : Z)
| SShm (fd shm_fd : Z)
| SMap (fd addr : Z)
| SMalloc (addr : Z)
| SSession (fd session : Z)
| SUse (fd : Z)
| SClose (fd : Z)
| SUnmap (addr : Z)
| SFree (addr : Z)
| SInvoke (fd session : Z)
| SCloseSession (fd session : Z).

Inductive sys_resource := RFd (fd : Z) | RMap (addr : Z) | RBlock (addr : Z) | RSess (fd session : Z).
#[export] Instance sys_resource_eq_dec : EqDecision sys_resource.
Proof. solve_decision. Defined.

Fixpoint take_out (r : sys_resource) (held : list sys_resource) : option (list sys_resource) :=
  match held with
  | [] => None
  | r' :: rest => if decide (r = r') then Some rest else (r' ::.) <$> take_out r rest
  end.

(** What is held after a call; [None] if it uses or releases what is not held. *)
Definition sys_track (e : sys_event) (held : list sys_resource) : option (list sys_resource) :=
  let needs r := if decide (r ∈ held) then Some held else None in
  match e with
  | SOpen fd => Some (RFd fd :: held)
  | SShm fd shm_fd => (RFd shm_fd ::.) <$> needs (RFd fd)
  | SMap fd addr => (RMap addr ::.) <$> needs (RFd fd)
  | SMalloc addr => Some (RBlock addr :: held)
  | SSession fd session => (RSess fd session ::.) <$> needs (RFd fd)
  | SUse fd => needs (RFd fd)
  | SInvoke fd session => if decide (RFd fd ∈ held) then needs (RSess fd session) else None
  | SClose fd => take_out (RFd fd) held
  | SUnmap addr => take_out (RMap addr) held
  | SFree addr => take_out (RBlock addr) held
  | SCloseSession fd session => if decide (RFd fd ∈ held) then take_out (RSess fd session) held else None
  end.

Fixpoint sys_tracks (l : list sys_event) (held : list sys_resource) : option (list sys_resource) :=
  match l with
  | [] => Some held
  | e :: rest => sys_track e held ≫= sys_tracks rest
  end.

Lemma sys_tracks_app l k held : sys_tracks (l ++ k) held = sys_tracks l held ≫= sys_tracks k.
Proof.
  revert held. induction l as [|e l IH]; intros held; [done |]. cbn [app sys_tracks].
  destruct (sys_track e held); cbn; [apply IH | done].
Qed.

(** A system that also keeps the log of these calls. *)
Definition log_sys {W A} (f : W -> A * W) (ev : A -> list sys_event) : W * list sys_event -> A * (W * list sys_event) :=
  fun '(w, l) => let '(x, w) := f w in (x, (w, l ++ ev x)).
Definition log_sys_ {W} (f : W -> W) (e : sys_event) : W * list sys_event -> W * list sys_event :=
  fun '(w, l) => (f w, l ++ [e]).
Definition log_st {W A} (m : st W A) (ev : A -> list sys_event) : st (W * list sys_event) A :=
  fun '(w, l) => '(x, w) ← m w; Ret (x, (w, l ++ ev x)).

#[local] Instance logged_driver {W} `{TeeDriver W} : TeeDriver (W * list sys_event) := {|
  sys_open n := log_sys (sys_open n) (fun fd => if fd <? 0 then [] else [SOpen fd]);
  sys_close fd := log_sys_ (sys_close fd) (SClose fd);
  ioctl_version fd := log_sys (ioctl_version fd) (fun _ => [SUse fd]);
  ioctl_shm_alloc fd n :=
    log_sys (ioctl_shm_alloc fd n) (fun '(sfd, _) => if sfd <? 0 then [SUse fd] else [SShm fd sfd]);
  ioctl_shm_register fd a n :=
    log_sys (ioctl_shm_register fd a n) (fun '(sfd, _) => if sfd <? 0 then [SUse fd] else [SShm fd sfd]);
  ioctl_shm_register_fd fd d :=
    log_sys (ioctl_shm_register_fd fd d) (fun '(sfd, _, _) => if sfd <? 0 then [SUse fd] else [SShm fd sfd]);
  sys_mmap fd n :=
    log_sys (sys_mmap fd n) (fun p => match p with Some (a, _) => [SMap fd a] | None => [SUse fd] end);
  sys_munmap a n := log_sys_ (sys_munmap a n) (SUnmap a);
  sys_malloc n := log_sys (sys_malloc n) (fun p => match p with Some (a, _) => [SMalloc a] | None => [] end);
  sys_free a := log_sys_ (sys_free a) (SFree a);
  ioctl_open_session fd u l ps :=
    log_st (ioctl_open_session fd u l ps) (fun rc =>
      match rc with
      | inr (ret, _, s, _) => if ret =? TEEC_SUCCESS then [SSession fd s] else [SUse fd]
      | inl _ => [SUse fd]
      end);
  ioctl_invoke fd s c ps := log_st (ioctl_invoke fd s c ps) (fun _ => [SInvoke fd s]);
  ioctl_close_session fd s := log_sys_ (ioctl_close_session fd s) (SCloseSession fd s);
  ioctl_cancel fd s n := log_sys_ (ioctl_cancel fd s n) (SInvoke fd s)
|}.

(** The run [m], started with [held], makes only legal calls, and its result and
    what is held then satisfy [Q]. *)
Definition tracked {W A} (m : st (W * list sys_event) A) (held : list sys_resource)
    (Q : A -> list sys_resource -> Prop) : Prop :=
  forall s a s', m s = Ret (a, s') ->
    exists ev held', s'.2 = s.2 ++ ev /\ sys_tracks ev held = Some held' /\ Q a held'.

Section Tracked.
Context {W : Type} `{HD : TeeDriver W}.
#[local] Abbreviation WL := (W * list sys_event)%type.

Lemma tracked_ret {A} (a : A) held (Q : A -> list sys_resource -> Prop) : Q a held -> tracked (W := W) (mret a) held Q.
Proof. intros HQ s b s' E. inv_st. exists [], held. by rewrite app_nil_r. Qed.

Lemma tracked_lift {A} (m : outcome A) held (Q : A -> list sys_resource -> Prop) :
  (forall a, m = Ret a -> Q a held) -> tracked (W := W) (lift m) held Q.
Proof. intros HQ s a s' E. apply lift_inv in E as [E ->]. exists [], held. rewrite app_nil_r. eauto. Qed.

Lemma tracked_bind {A B} (m : st WL A) (f : A -> st WL B) held P Q :
  tracked m held P -> (forall a held', P a held' -> tracked (f a) held' Q) -> tracked (m ≫= f) held Q.
Proof.
  intros Hm Hf s b s' E. apply st_bind_inv in E as (a & s1 & E1 & E2).
  destruct (Hm _ _ _ E1) as (e1 & h1 & L1 & T1 & HP). destruct (Hf _ _ HP _ _ _ E2) as (e2 & h2 & L2 & T2 & HQ).
  exists (e1 ++ e2), h2. rewrite L2, L1, app_assoc, sys_tracks_app, T1. done.
Qed.

Lemma tracked_lift_bind {A B} (m : outcome A) (k : A -> st WL B) held Q :
  (forall a, m = Ret a -> tracked (k a) held Q) -> tracked (lift m ≫= k) held Q.
Proof.
  intros Hk. apply (tracked_bind _ _ _ (fun a h => m = Ret a /\ h = held)); [by apply tracked_lift |].
  intros a h [E ->]. eauto.
Qed.

Lemma tracked_ret_bind {A B} (a : A) (k : A -> st WL B) held Q : tracked (k a) held Q -> tracked (mret a ≫= k) held Q.
Proof. done. Qed.

Lemma tracked_mono {A} (m : st WL A) held (P Q : A -> list sys_resource -> Prop) :
  tracked m held P -> (forall a h, P a h -> Q a h) -> tracked m held Q.
Proof. intros Hm HPQ s a s' E. destruct (Hm _ _ _ E) as (ev & h & ? & ? & ?). eauto 6. Qed.

(** A system call, and what it leaves held. *)
Lemma tracked_sys {A B} (f : W -> A * W) ev held held' (k : A -> st WL B) Q :
  (forall a, sys_tracks (ev a) held = Some (held' a)) ->
  (forall a w w', f w = (a, w') -> tracked (k a) (held' a) Q) ->
  tracked (LibTeec.sys (log_sys f ev) ≫= k) held Q.
Proof.
  intros Ht Hk. apply (tracked_bind _ _ _ (fun a h => h = held' a /\ exists w w', f w = (a, w'))).
  - intros [w l] a s' E. unfold LibTeec.sys, log_sys in E. destruct (f w) as [x w1] eqn:Ef. injection E as <- <-. eauto 8.
  - intros a h (-> & w & w' & E). eauto.
Qed.

Lemma tracked_last (f : W -> W) e held held' (Q : unit -> list sys_resource -> Prop) :
  sys_track e held = Some held' -> Q tt held' -> tracked (LibTeec.sys_ (log_sys_ f e)) held Q.
Proof.
  intros Ht HQ [w l] a s' E. unfold LibTeec.sys_, log_sys_ in E. injection E as <- <-.
  exists [e], held'. cbn. by rewrite Ht.
Qed.

Lemma tracked_sys_ {B} (f : W -> W) e held held' (k : unit -> st WL B) Q :
  sys_track e held = Some held' -> tracked (k tt) held' Q -> tracked (LibTeec.sys_ (log_sys_ f e) ≫= k) held Q.
Proof.
  intros Ht Hk. apply (tracked_bind _ _ _ (fun _ h => h = held')); [| by intros [] h ->]. by eapply tracked_last.
Qed.

Lemma tracked_st {A B} (m : st W A) ev held held' (k : A -> st WL B) Q :
  (forall a, sys_tracks (ev a) held = Some (held' a)) ->
  (forall a, tracked (k a) (held' a) Q) -> tracked (log_st m ev ≫= k) held Q.
Proof.
  intros Ht Hk. apply (tracked_bind _ _ _ (fun a h => h = held' a)); [| by intros a h ->].
  intros [w l] a s' E. unfold log_st in E. apply outcome_bind_inv in E as ([x w1] & Em & E). injection E as <- <-. eauto.
Qed.

(** Evaluates the checker on known events. *)
Ltac sys_legal :=
  cbn [sys_tracks sys_track take_out mbind option_bind fmap option_fmap option_map];
  repeat (rewrite ?decide_True by (done || set_solver); rewrite ?decide_False by (done || congruence);
          cbn [sys_tracks sys_track take_out mbind option_bind fmap option_fmap option_map]);
  try done.

Definition holds_fd (held : list sys_resource) (fd : Z) : list sys_resource :=
  if fd <? 0 then held else RFd fd :: held.

Lemma open_dev_tracked n caps held :
  tracked (W := W) (LibTeec.teec_open_dev n caps) held (fun x h => h = holds_fd held x.1).
Proof.
  unfold LibTeec.teec_open_dev. apply (tracked_sys _ _ _ (holds_fd held)).
  { intros fd. unfold holds_fd. by destruct (fd <? 0). }
  intros fd _ _ _. unfold holds_fd at 1. destruct (fd <? 0) eqn:Ef; [by apply tracked_ret |].
  apply (tracked_sys _ _ _ (fun _ => RFd fd :: held)); [intros; sys_legal |]. intros v _ _ _.
  assert (Herr : tracked (W := W) (LibTeec.sys_ (sys_close fd);; mret (-1, 0)) (RFd fd :: held)
            (fun (x : Z * Z) h => h = holds_fd held x.1)).
  { eapply tracked_sys_; [sys_legal | by apply tracked_ret]. }
  assert (Hok : forall c, tracked (W := W) (mret (fd, c)) (RFd fd :: held)
            (fun (x : Z * Z) h => h = holds_fd held x.1)).
  { intros c. apply tracked_ret. unfold holds_fd. cbn. by rewrite Ef. }
  repeat case_match; done.
Qed.

Lemma init_tracked name todo held : forall n,
  tracked (W := W) (LibTeec.open_devices todo n name) held
    (fun x h => h = if x.1 =? TEEC_SUCCESS then RFd (ctx_fd x.2) :: held else held).
Proof.
  induction todo as [|todo IH]; intros n; cbn [LibTeec.open_devices]; [by apply tracked_ret |].
  eapply tracked_bind; [apply open_dev_tracked |]. intros [fd caps] h ->. unfold holds_fd. cbn [fst].
  destruct (0 <=? fd) eqn:E; boolz.
  - rewrite (proj2 (Z.ltb_ge _ _)) by lia. by apply tracked_ret.
  - rewrite (proj2 (Z.ltb_lt _ _)) by lia. apply IH.
Qed.

(** An allocated shared memory, and what it keeps held. *)
Definition allocated (shm : TEEC_SharedMemory) : Prop :=
  shm_id shm <> -1 /\ shm_shadow_addr shm = 0 /\ shm_addr shm <> 0 /\ shm_buffer_allocated shm = true.
Definition shm_holds (shm : TEEC_SharedMemory) (held : list sys_resource) : list sys_resource :=
  if 0 <=? shm_registered_fd shm then RFd (shm_registered_fd shm) :: RBlock (shm_addr shm) :: held
  else RMap (shm_addr shm) :: held.

Lemma take_out_block a fd held : take_out (RBlock a) (RFd fd :: RBlock a :: held) = Some (RFd fd :: held).
Proof. sys_legal. Qed.
Lemma take_out_fd a fd held : take_out (RFd fd) (RMap a :: RFd fd :: held) = Some (RMap a :: held).
Proof. sys_legal. Qed.

Lemma release_tracked shm held : allocated shm ->
  tracked (W := W) (LibTeec.TEEC_ReleaseSharedMemory shm) (shm_holds shm held) (fun _ h => h = held).
Proof.
  intros (Hid & Hsh & Ha & Hb). unfold LibTeec.TEEC_ReleaseSharedMemory, shm_holds.
  rewrite (proj2 (Z.eqb_neq _ (-1)) Hid), Hsh, (proj2 (Z.eqb_neq _ 0) Ha), Hb. cbn [Z.eqb negb].
  apply (tracked_bind _ _ _ (fun _ h => h = held)); [| intros _ h ->; by apply tracked_ret].
  destruct (0 <=? shm_registered_fd shm).
  - eapply tracked_sys_; [apply take_out_block |]. eapply tracked_last; [sys_legal | done].
  - eapply tracked_last; [sys_legal | done].
Qed.

Lemma release_tracked' shm held : allocated shm ->
  tracked (W := W) (TEEC_ReleaseSharedMemory shm) (shm_holds shm held) (fun _ h => h = held).
Proof.
  intros Ha. eapply tracked_bind; [by apply release_tracked |]. intros _ h ->. by apply tracked_ret.
Qed.

Context `{HL : !Driver_laws W}.

(** [teec_shm_alloc] and [teec_shm_register]: a descriptor with a valid identifier,
    or nothing. *)
Lemma shm_call_tracked (f : W -> (Z * Z) * W) fd held :
  (forall w sfd id w', f w = ((sfd, id), w') -> 0 <= sfd -> 0 <= id) -> RFd fd ∈ held ->
  tracked (W := W)
    ('(shm_fd, id) ← LibTeec.sys (log_sys f (fun '(sfd, _) => if sfd <? 0 then [SUse fd] else [SShm fd sfd]));
     if shm_fd <? 0 then mret (-1, 0) else mret (shm_fd, id)) held
    (fun x h => h = holds_fd held x.1 /\ (0 <= x.1 -> 0 <= x.2)).
Proof.
  intros Hf Hc. apply (tracked_sys _ _ _ (fun x => holds_fd held x.1)).
  { intros [sfd id]. unfold holds_fd. cbn. destruct (sfd <? 0); sys_legal. }
  intros [sfd id] w1 w2 Er. unfold holds_fd. cbn [fst]. destruct (sfd <? 0) eqn:E; boolz; apply tracked_ret; cbn.
  { split; [done | lia]. }
  rewrite (proj2 (Z.ltb_ge _ _)) by lia. eauto.
Qed.

Lemma allocate_tracked ctx shm held : RFd (ctx_fd ctx) ∈ held ->
  tracked (W := W) (LibTeec.TEEC_AllocateSharedMemory ctx shm) held
    (fun x h => (x.1 = TEEC_SUCCESS /\ allocated x.2 /\ h = shm_holds x.2 held) \/ (x.1 <> TEEC_SUCCESS /\ h = held)).
Proof.
  intros Hc. unfold LibTeec.TEEC_AllocateSharedMemory. set (s := if shm_size shm =? 0 then _ else _) in *.
  clearbody s.
  destruct (LibTeec.bad_flags (shm_flags shm)); [apply tracked_ret; by right |]. destruct (ctx_reg_mem ctx).
  - apply (tracked_sys _ _ _ (fun p => match p with Some (a, _) => RBlock a :: held | None => held end)).
    { by intros [[a b]|]. }
    intros [[a b]|] w w' Em; [| apply tracked_ret; by right]. apply malloc_block in Em as (Ha & _).
    eapply tracked_bind; [apply shm_call_tracked; [apply shm_register_id | set_solver] |].
    intros [fd id] h [-> Hid]. unfold holds_fd. cbn [fst snd] in *. destruct (fd <? 0) eqn:E; boolz.
    + eapply tracked_sys_; [sys_legal |]. apply tracked_ret. by right.
    + apply tracked_ret. left. unfold allocated, shm_holds. cbn. rewrite (proj2 (Z.leb_le _ _)) by lia.
      split_and!; [done | lia | done..].
  - eapply tracked_bind; [apply shm_call_tracked; [apply shm_alloc_id | done] |].
    intros [fd id] h [-> Hid]. unfold holds_fd. cbn [fst snd] in *. destruct (fd <? 0) eqn:E; boolz.
    { apply tracked_ret. by right. }
    apply (tracked_sys _ _ _ (fun p => match p with Some (a, _) => RMap a :: RFd fd :: held | None => RFd fd :: held end)).
    { intros [[a b]|]; sys_legal. }
    intros [[a b]|] w w' Em.
    + eapply tracked_sys_; [apply take_out_fd |]. apply mmap_block in Em as (Ha & _).
      apply tracked_ret. left. split_and!; [done | | done]. split_and!; [cbn; lia | done..].
    + eapply tracked_sys_; [sys_legal |]. apply tracked_ret. by right.
Qed.

Lemma open_tracked ctx uuid login held : RFd (ctx_fd ctx) ∈ held ->
  tracked (W := W) (TEEC_OpenSession ctx uuid login None) held
    (fun x h => sess_ctx x.1.2 = ctx /\
       h = if x.1.1 =? TEEC_SUCCESS then RSess (ctx_fd ctx) (session_id x.1.2) :: held else held).
Proof.
  intros Hc. apply (tracked_bind _ _ _ (fun x h => sess_ctx x.1.1.2 = ctx /\
    h = if x.1.1.1 =? TEEC_SUCCESS then RSess (ctx_fd ctx) (session_id x.1.1.2) :: held else held)).
  2: { intros [[[res sess] o] ps] h Hx. by apply tracked_ret. }
  unfold LibTeec.TEEC_OpenSession. apply tracked_ret_bind. cbn [negb Z.eqb TEEC_SUCCESS].
  apply (tracked_st _ _ _ (fun rc : Z + Z * Z * Z * list tee_ioctl_param =>
    match rc with
    | inr (ret, _, s, _) => if ret =? TEEC_SUCCESS then RSess (ctx_fd ctx) s :: held else held
    | inl _ => held
    end)).
  { intros [errno | [[[ret o] s] qs]]; [sys_legal |]. destruct (ret =? TEEC_SUCCESS); sys_legal. }
  intros [errno | [[[ret o] s] qs]].
  - apply tracked_ret_bind, tracked_ret. split; [done |]. cbn. unfold LibTeec.ioctl_errno_to_res. by case_c.
  - apply tracked_lift_bind. intros ys _. apply tracked_ret_bind.
    apply tracked_ret. cbn. by destruct (ret =? TEEC_SUCCESS).
Qed.

(** No parameter of the operation is a temporary reference. *)
Fixpoint no_temp (types n : Z) {A} (ps : list A) : bool :=
  match ps with
  | [] => true
  | _ :: ps => negb (is_temp (TEEC_PARAM_TYPE_GET types n)) && no_temp types (n + 1) ps
  end.

Lemma pre_tracked ctx types ps held : forall n, no_temp types n ps = true ->
  tracked (W := W) (LibTeec.pre_process_params ctx types n ps) held (fun x h => h = held /\ length x.2 = length ps).
Proof.
  induction ps as [|p ps IH]; intros n Hn; cbn [LibTeec.pre_process_params]; [by apply tracked_ret |].
  cbn in Hn. apply andb_true_iff in Hn as [Ht Hn]. apply negb_true_iff in Ht.
  apply (tracked_bind _ _ _ (fun _ h => h = held)).
  { unfold LibTeec.pre_process_param. rewrite Ht.
    repeat case_match; try (by apply tracked_ret); by apply tracked_lift. }
  intros [res x] h ->. destruct (negb _); [apply tracked_ret; cbn; by rewrite length_fmap |].
  eapply tracked_bind; [by apply IH |]. intros [res2 xs] h [-> Hl]. apply tracked_ret. cbn in *. by rewrite Hl.
Qed.

Lemma free_tracked types shms held : forall n, no_temp types n shms = true ->
  tracked (W := W) (LibTeec.teec_free_temp_refs types n shms) held (fun _ h => h = held).
Proof.
  induction shms as [|m shms IH]; intros n Hn; cbn [LibTeec.teec_free_temp_refs]; [by apply tracked_ret |].
  cbn in Hn. apply andb_true_iff in Hn as [Ht Hn]. apply negb_true_iff in Ht. rewrite Ht.
  apply tracked_ret_bind. by apply IH.
Qed.

Lemma no_temp_length {A B} types (l : list A) (k : list B) : forall n, (length l <= length k)%nat ->
  no_temp types n k = true -> no_temp types n l = true.
Proof.
  revert k. induction l as [|x l IH]; intros [|y k] n Hl Hk; cbn in *; try done; [lia |].
  apply andb_true_iff in Hk as [-> Hk]. cbn. apply (IH k); [lia | done].
Qed.

Lemma post_length types xs : forall n ys,
  LibTeec.teec_post_process_operation types n xs = Ret ys -> length ys = length xs.
Proof.
  induction xs as [|x xs IH]; intros n ys E; cbn [LibTeec.teec_post_process_operation] in E; inv_ret; [done |].
  cbn. f_equal. by eapply IH.
Qed.

Lemma invoke_tracked sess cmd op held :
  RFd (ctx_fd (sess_ctx sess)) ∈ held -> RSess (ctx_fd (sess_ctx sess)) (session_id sess) ∈ held ->
  no_temp (op_types op) 0 (op_params op) = true ->
  tracked (W := W) (TEEC_InvokeCommand sess cmd op) held (fun _ h => h = held).
Proof.
  intros Hf Hs Hn. cbn [TEEC_InvokeCommand libteec]. unfold LibTeec.TEEC_InvokeCommand.
  eapply tracked_bind; [by apply pre_tracked |]. intros [res xs] h [-> Hl]. cbn [snd] in Hl.
  assert (Hfree : forall (ms : list TEEC_SharedMemory) {B} (b : B), (length ms <= length xs)%nat ->
    tracked (W := W) (LibTeec.free_refs (Some op) ms;; mret b) held (fun _ h => h = held)).
  { intros ms B b Hms. eapply tracked_bind; [apply free_tracked; apply (no_temp_length _ _ (op_params op)); [by rewrite <- Hl | exact Hn] |].
    intros _ h ->. by apply tracked_ret. }
  destruct (negb _); [apply Hfree; by rewrite length_fmap |].
  apply (tracked_st _ _ _ (fun _ => held)); [intros; sys_legal |].
  intros [errno | [[ret o] qs]]; [apply Hfree; by rewrite length_fmap |].
  apply tracked_lift_bind. intros ys E. apply post_length in E. apply Hfree. rewrite length_fmap, E.
  unfold LibTeec.answer_slots. rewrite length_zip_with. apply Nat.le_min_l.
Qed.

(** ** The secure-key library on libteec *)

Definition keeps_held {A} (m : st WL A) (held : list sys_resource) : Prop := tracked m held (fun _ h => h = held).

Lemma keeps_session {A} held (r : A) body :
  (forall ctx sess, sess_ctx sess = ctx ->
     keeps_held (body ctx sess) (RSess (ctx_fd ctx) (session_id sess) :: RFd (ctx_fd ctx) :: held)) ->
  keeps_held (with_ta_session (W := WL) r body) held.
Proof.
  intros Hb. unfold with_ta_session. eapply tracked_bind; [apply init_tracked |]. intros [res ctx] h ->. cbn [fst snd].
  destruct (res =? TEEC_SUCCESS); cbn [negb]; [| by apply tracked_ret].
  eapply tracked_bind; [apply open_tracked; set_solver |]. intros [[res' sess] o] h [Hc ->]. cbn [fst snd] in *.
  eapply (tracked_bind _ _ _ (fun _ h => h = RFd (ctx_fd ctx) :: held)).
  - destruct (res' =? TEEC_SUCCESS); cbn [negb]; [| by apply tracked_ret].
    eapply tracked_bind; [by apply Hb |]. intros x h ->.
    eapply tracked_sys_; [rewrite Hc; sys_legal | by apply tracked_ret].
  - intros x h ->. eapply tracked_sys_; [sys_legal | by apply tracked_ret].
Qed.

Lemma keeps_shm {A} held ctx size flags (r : A) body : RFd (ctx_fd ctx) ∈ held ->
  (forall shm, keeps_held (body shm) (shm_holds shm held)) ->
  keeps_held (with_shm (W := WL) ctx size flags r body) held.
Proof.
  intros Hc Hb. unfold with_shm. eapply tracked_bind; [by apply allocate_tracked |].
  intros [res shm] h [(Hr & Ha & ->) | [Hr ->]]; cbn [fst snd] in *.
  - subst res. cbn [negb Z.eqb TEEC_SUCCESS]. eapply tracked_bind; [apply Hb |]. intros x h ->.
    eapply tracked_bind; [by apply release_tracked' |]. intros _ h ->. by apply tracked_ret.
  - rewrite (proj2 (Z.eqb_neq _ _) Hr). by apply tracked_ret.
Qed.

Lemma keeps_invoke {A} held sess cmd types ps (r : A) k :
  RFd (ctx_fd (sess_ctx sess)) ∈ held -> RSess (ctx_fd (sess_ctx sess)) (session_id sess) ∈ held ->
  no_temp types 0 ps = true -> keeps_held (invoke (W := WL) sess cmd types ps r k) held.
Proof.
  intros Hf Hs Hn. unfold invoke. eapply tracked_bind; [by apply invoke_tracked |]. intros [[res o] qs] h ->.
  destruct (negb _); [by apply tracked_ret | by apply tracked_lift].
Qed.

Lemma shm_holds_in r shm held : r ∈ held -> r ∈ shm_holds shm held.
Proof. unfold shm_holds. destruct (0 <=? _); set_solver. Qed.

Lemma keeps_bind {A B} (m : st WL A) (k : A -> st WL B) held :
  keeps_held m held -> (forall a, keeps_held (k a) held) -> keeps_held (m ≫= k) held.
Proof. intros Hm Hk. eapply tracked_bind; [exact Hm |]. intros a h ->. apply Hk. Qed.

Ltac keep :=
  repeat first
    [ apply keeps_session; intros ?? <-
    | apply keeps_shm; [repeat apply shm_holds_in; set_solver |]; intros ?
    | apply keeps_invoke; [repeat apply shm_holds_in; set_solver.. | reflexivity]
    | by apply tracked_lift
    | by apply tracked_ret
    | apply keeps_bind; [| intros ?]
    | match goal with
      | |- keeps_held (if ?b then _ else _) _ => destruct b
      | |- keeps_held (match ?x with _ => _ end) _ => destruct x
      end ].

Lemma run_sk_keeps c : keeps_held (run_sk (W := WL) c) [].
Proof.
  destruct c; cbn [run_sk];
    unfold SK_CreateObject, SK_GenerateKeyPair, SK_EraseObject, SK_EnumerateObjects,
      SK_GetObjectAttribute, SK_Sign, SK_Decrypt, SK_Digest, crypto_command; keep.
Qed.

(** C33: every function of the secure-key library, run on libteec, leaves nothing of
    the system behind, whatever its arguments, whatever the driver answers and
    wherever a call fails: the descriptors, mappings, heap blocks and sessions it
    acquires are all released, each exactly once, and no call uses a descriptor or
    a session that is not open. *)
Theorem sk_leaves_nothing (c : sk_call) (w w' : W) (log log' : list sys_event) (rc : Z) :
  run_sk c (w, log) = Ret (rc, (w', log')) ->
  exists ev, log' = log ++ ev /\ sys_tracks ev [] = Some [].
Proof. intros E. destruct (run_sk_keeps c _ _ _ E) as (ev & h & El & Et & ->). eauto. Qed.

End Tracked.

(** when libteec gets no memory for a temporary reference, it releases the
    zero-filled description it prepared for it, whose descriptor reads as zero: the
    command fails and descriptor 0 of the process, its standard input, is closed. *)
Theorem failed_command_closes_fd0 {W} `{TeeDriver W} (fd session cmd n sfd id : Z) (b : option (list Z)) (w w1 : W) :
  0 < n -> sfd < 0 -> ioctl_shm_alloc fd n w = ((sfd, id), w1) ->
  let op := mkOp (TEEC_PARAM_TYPES TEEC_MEMREF_TEMP_INPUT TEEC_NONE TEEC_NONE TEEC_NONE)
              [TP_tmpref b n; TP_none; TP_none; TP_none] in
  LibTeec.TEEC_InvokeCommand (mkSess (mkCtx fd false) session) cmd (Some op) w
    = Ret ((TEEC_ERROR_OUT_OF_MEMORY, TEEC_ORIGIN_API, op_params op), sys_close 0 w1).
Proof.
  intros Hn Hs E op.
  assert (Hp : LibTeec.pre_process_param (mkCtx fd false) TEEC_MEMREF_TEMP_INPUT (TP_tmpref b n) w
    = Ret ((TEEC_ERROR_OUT_OF_MEMORY,
            (TP_tmpref b n, IP_value TEE_IOCTL_PARAM_ATTR_TYPE_MEMREF_INPUT 0 0, shm_new n TEEC_MEM_INPUT)), w1)).
  { change (LibTeec.pre_process_param _ _ _ w)
      with (LibTeec.teec_pre_process_tmpref (mkCtx fd false) TEEC_MEMREF_TEMP_INPUT b n w).
    unfold LibTeec.teec_pre_process_tmpref. rewrite Z.eqb_refl. unfold mbind at 1, st_bind at 1.
    unfold LibTeec.TEEC_AllocateSharedMemory, LibTeec.teec_shm_alloc. cbn [shm_size shm_new ctx_reg_mem ctx_fd].
    change (LibTeec.bad_flags _) with false. cbn iota. rewrite (proj2 (Z.eqb_neq n 0)) by lia.
    unfold LibTeec.sys, mbind, st_bind, mret, st_ret. rewrite E, (proj2 (Z.ltb_lt _ _) Hs). reflexivity. }
  unfold LibTeec.TEEC_InvokeCommand, LibTeec.teec_pre_process_operation, op.
  cbn [op_types op_params LibTeec.pre_process_params sess_ctx]. unfold mbind, st_bind.
  change (TEEC_PARAM_TYPE_GET (TEEC_PARAM_TYPES _ _ _ _) 0) with TEEC_MEMREF_TEMP_INPUT. rewrite Hp. reflexivity.
Qed.

(** ** An instance *)

(** A system with one device, whose memory stops at a megabyte and whose trusted
    application answers every command with success and the parameters it got.  Its
    state is the list of the descriptors closed. *)
#[local] Instance demo_driver : TeeDriver (list Z) := {|
  sys_open n w := (if n =? 1 then 3 else -1, w);
  sys_close fd w := w ++ [fd];
  ioctl_version _ w := (Some (mkVers TEE_IMPL_ID_OPTEE TEE_OPTEE_CAP_TZ TEE_GEN_CAP_GP), w);
  ioctl_shm_alloc _ n w := (if n <? 2 ^ 20 then (4, 1) else (-1, 0), w);
  ioctl_shm_register _ _ _ w := ((-1, 0), w);
  ioctl_shm_register_fd _ _ w := ((-1, 0, 0), w);
  sys_mmap _ n w := (Some (4096, zeros n), w);
  sys_munmap _ _ w := w;
  sys_malloc n w := (None, w);
  sys_free _ w := w;
  ioctl_open_session _ _ _ ps w := Ret (inr (TEEC_SUCCESS, TEEC_ORIGIN_TRUSTED_APP, 7, ps), w);
  ioctl_invoke _ _ _ ps w := Ret (inr (TEEC_SUCCESS, TEEC_ORIGIN_TRUSTED_APP, ps), w);
  ioctl_close_session _ _ w := w;
  ioctl_cancel _ _ _ w := w
|}.

Lemma same_ioctl_param_refl p : same_ioctl_param p p.
Proof. by destruct p. Qed.

#[local] Instance demo_driver_laws : Driver_laws (list Z).
Proof.
  split; cbn; try (intros; discriminate).
  - intros fd n w addr b w' [= <- <- <-]. split_and!; [done.. |]. intros. unfold zeros. len.
  - intros fd n w sfd id w'. destruct (n <? _); intros [= <- <- <-]; lia.
  - intros fd a n w sfd id w' [= <- <- <-]. lia.
  - intros fd u l ps _ w. by eexists.
  - intros fd s c ps w ret o ps' w' [= <- <- <- <-]. apply Forall_Forall2_diag, Forall_true, same_ioctl_param_refl.
Qed.

Lemma libteec_keeps_promises_witness : TEEC_laws (list Z).
Proof. exact libteec_keeps_promises. Defined.

(** The calls of an erase on this system. *)
Lemma sk_leaves_nothing_witness :
  exists ev, [SOpen 3; SUse 3; SSession 3 7; SInvoke 3 7; SCloseSession 3 7; SClose 3] = [] ++ ev /\
    sys_tracks ev [] = Some [].
Proof. apply (sk_leaves_nothing (SkEraseObject 5) [] [3] [] _ SKR_OK). vm_compute. reflexivity. Defined.

Lemma failed_command_closes_fd0_witness :
  LibTeec.TEEC_InvokeCommand (W := list Z) (mkSess (mkCtx 3 false) 7) 1
    (Some (mkOp (TEEC_PARAM_TYPES TEEC_MEMREF_TEMP_INPUT TEEC_NONE TEEC_NONE TEEC_NONE)
                [TP_tmpref None (2 ^ 20); TP_none; TP_none; TP_none])) []
  = Ret ((TEEC_ERROR_OUT_OF_MEMORY, TEEC_ORIGIN_API, [TP_tmpref None (2 ^ 20); TP_none; TP_none; TP_none]), [0]).
Proof.
  exact (failed_command_closes_fd0 (W := list Z) 3 7 1 (2 ^ 20) (-1) 0 None [] []
    ltac:(lia) ltac:(lia) eq_refl).
Defined.
