(* ===== verification/TeeApi.v ===== *)
(** * The TEE internal API as the trusted application uses it

    The trusted application (secure_storage_ta) is a client of the
    GlobalPlatform TEE Internal Core API.  The class [TEE] has the operations it
    calls, over the state [W] of the TEE; a call that panics is [Undef].  What
    the operations promise is said on a [view] of that state: the persistent
    objects of the private storage, the open handles, enumerators, transient
    objects and operations.  [TEE_laws] states for each operation the result it
    may give and the change of the view it then makes; the trusted
    application's theorems are proved against these laws. *)

From stdpp Require Import base numbers list gmap.
From S2P Require Import Prelude SkTypes.

(** ** Data *)

Record TEE_ObjectInfo := mkInfo { objectType : Z; objectSize : Z; dataSize : Z }.

(** A [TEE_Attribute] set by [TEE_InitRefAttribute]: the identifier, the bytes
    the buffer pointer and length give ([None] for a null pointer) and the length.
    Zero-filled memory is the attribute [zero_attr]. *)
Record TEE_Attribute := mkTeeAttr { attributeID : Z; at_buffer : option (list Z); at_length : Z }.
Definition zero_attr : TEE_Attribute := mkTeeAttr 0 None 0.

(** ** Operations *)

(** Each returns its result code and what it wrote through its output pointers;
    handles are [TEE_HANDLE_NULL] when none was assigned. *)
Class TEE (W : Type) := {
  TEE_Malloc : Z -> st W (option Z);
  TEE_Free : Z -> st W unit;
  TEE_OpenPersistentObject : list Z -> Z -> st W (Z * Z);
  TEE_CreatePersistentObject : list Z -> Z -> Z -> list Z -> st W Z;
  TEE_CloseObject : Z -> st W unit;
  TEE_CloseAndDeletePersistentObject : Z -> st W unit;
  TEE_GetObjectInfo1 : Z -> st W (Z * TEE_ObjectInfo);
  TEE_ReadObjectData : Z -> Z -> st W (Z * list Z);
  TEE_WriteObjectData : Z -> list Z -> st W Z;
  TEE_SeekObjectData : Z -> Z -> Z -> st W Z;
  TEE_AllocatePersistentObjectEnumerator : st W (Z * Z);
  TEE_StartPersistentObjectEnumerator : Z -> st W Z;
  TEE_GetNextPersistentObject : Z -> st W (Z * TEE_ObjectInfo * list Z);
  TEE_FreePersistentObjectEnumerator : Z -> st W unit;
  TEE_AllocateTransientObject : Z -> Z -> st W (Z * Z);
  TEE_PopulateTransientObject : Z -> list TEE_Attribute -> st W Z;
  TEE_GenerateKey : Z -> Z -> list TEE_Attribute -> st W Z;
  TEE_GetObjectBufferAttribute : Z -> Z -> Z -> st W (Z * list Z);
  TEE_CopyObjectAttributes1 : Z -> Z -> st W Z;
  TEE_FreeTransientObject : Z -> st W unit;
  TEE_AllocateOperation : Z -> Z -> Z -> st W (Z * Z);
  TEE_SetOperationKey : Z -> Z -> st W Z;
  TEE_DigestDoFinal : Z -> list Z -> Z -> st W (Z * list Z);
  TEE_AsymmetricSignDigest : Z -> list Z -> Z -> st W (Z * list Z);
  TEE_AsymmetricDecrypt : Z -> list Z -> Z -> st W (Z * list Z);
  TEE_FreeOperation : Z -> st W unit
}.

(** ** The view *)

(** Key material.  What an operation computes from it is [Undef] where the API
    panics on the arguments, and no value where it answers
    [TEE_ERROR_BAD_PARAMETERS]. *)
Class Crypto (K : Type) := {
  populated : Z -> Z -> list TEE_Attribute -> outcome (option K);
  key_attr : K -> Z -> option (list Z);
  sign_of : Z -> K -> list Z -> outcome (option (list Z));
  decrypt_of : Z -> K -> list Z -> outcome (option (list Z));
  digest_of : Z -> list Z -> list Z
}.

(** A persistent object; a pure data object has no key. *)
Record pobj (K : Type) := mkPobj { po_type : Z; po_size : Z; po_key : option K; po_data : list Z }.
Arguments mkPobj {K}. Arguments po_type {K}. Arguments po_size {K}.
Arguments po_key {K}. Arguments po_data {K}.

Record tobj (K : Type) := mkTobj { t_type : Z; t_size : Z; t_key : option K }.
Arguments mkTobj {K}. Arguments t_type {K}. Arguments t_size {K}. Arguments t_key {K}.

Record opstate (K : Type) := mkOpSt { op_alg : Z; op_mode : Z; op_max : Z; op_key : option K }.
Arguments mkOpSt {K}. Arguments op_alg {K}. Arguments op_mode {K}. Arguments op_max {K}.
Arguments op_key {K}.

(** An open handle: the identifier of the object, the access it was opened for
    and the position in the data stream. *)
Record handle := mkHandle { h_id : list Z; h_flags : Z; h_pos : Z }.
Definition at_pos (p : Z) (x : handle) : handle := mkHandle (h_id x) (h_flags x) p.
Definition allows (x : handle) (flag : Z) : Prop := Z.land (h_flags x) flag = flag.

(** The storage by object identifier, the open handles, the enumerators with the
    identifiers still to come, the transient objects and the operations. *)
Record tview (K : Type) := mkView {
  v_store : gmap (list Z) (pobj K);
  v_open : gmap Z handle;
  v_enum : gmap Z (list (list Z));
  v_trans : gmap Z (tobj K);
  v_ops : gmap Z (opstate K)
}.
Arguments mkView {K}. Arguments v_store {K}. Arguments v_open {K}. Arguments v_enum {K}.
Arguments v_trans {K}. Arguments v_ops {K}.

Section Update.
Context {K : Type}.
Definition with_store (f : gmap (list Z) (pobj K) -> gmap (list Z) (pobj K)) (v : tview K) : tview K :=
  mkView (f (v_store v)) (v_open v) (v_enum v) (v_trans v) (v_ops v).
Definition with_open (f : gmap Z handle -> gmap Z handle) (v : tview K) : tview K :=
  mkView (v_store v) (f (v_open v)) (v_enum v) (v_trans v) (v_ops v).
Definition with_enum (f : gmap Z (list (list Z)) -> gmap Z (list (list Z))) (v : tview K) : tview K :=
  mkView (v_store v) (v_open v) (f (v_enum v)) (v_trans v) (v_ops v).
Definition with_trans (f : gmap Z (tobj K) -> gmap Z (tobj K)) (v : tview K) : tview K :=
  mkView (v_store v) (v_open v) (v_enum v) (f (v_trans v)) (v_ops v).
Definition with_ops (f : gmap Z (opstate K) -> gmap Z (opstate K)) (v : tview K) : tview K :=
  mkView (v_store v) (v_open v) (v_enum v) (v_trans v) (f (v_ops v)).
End Update.

Definition with_data {K} (d : list Z) (o : pobj K) : pobj K :=
  mkPobj (po_type o) (po_size o) (po_key o) d.
Definition with_key {K} (k : option K) (t : tobj K) : tobj K := mkTobj (t_type t) (t_size t) k.
Definition info {K} (o : pobj K) : TEE_ObjectInfo :=
  mkInfo (po_type o) (po_size o) (Z.of_nat (length (po_data o))).

(** [d] written at position [p] of a data stream that is long enough to reach
    it; a longer write extends the stream. *)
Definition overwrite (old : list Z) (p : Z) (d : list Z) : list Z :=
  take (Z.to_nat p) old ++ d ++ drop (Z.to_nat p + length d) old.

(** ** Promises *)

(** A fresh handle of a table. *)
Definition fresh_handle {A} (h : Z) (m : gmap Z A) : Prop := h <> TEE_HANDLE_NULL /\ m !! h = None.

(** [out] into [n] bytes: what an operation with a sized output answers when it
    computed [out]. *)
Definition sized (out : list Z) (n res : Z) (d : list Z) : Prop :=
  (res = TEE_SUCCESS /\ d = out /\ Z.of_nat (length out) <= n) \/
  (res = TEE_ERROR_SHORT_BUFFER /\ n < Z.of_nat (length out)).

(** [refuses] are the result codes with which the TEE refuses an operation for a
    reason of its own (no memory, no space, a corrupt object, a key size it does
    not support): no operation fails but with one of them or for the cause its
    law names, and a failure changes nothing of the view.  The premises of a law
    are the conditions under which the API does not panic. *)
Class TEE_laws (W K : Type) `{TEE W, Crypto K} := {
  view : W -> tview K;
  refuses : Z -> Prop;
  refuses_error res : refuses res -> res <> TEE_SUCCESS /\ res <> TEE_ERROR_ITEM_NOT_FOUND;
  malloc_law n w : exists p w', TEE_Malloc n w = Ret (p, w') /\ view w' = view w /\
    match p with Some a => Z.land a 3 = 0 | None => refuses TEE_ERROR_OUT_OF_MEMORY end;
  free_law a w : exists w', TEE_Free a w = Ret (tt, w') /\ view w' = view w;
  open_law id flags w : exists res h w', TEE_OpenPersistentObject id flags w = Ret ((res, h), w') /\
    ((res = TEE_SUCCESS /\ is_Some (v_store (view w) !! id) /\ fresh_handle h (v_open (view w)) /\
      view w' = with_open <[h := mkHandle id flags 0]> (view w)) \/
     ((refuses res \/ (res = TEE_ERROR_ITEM_NOT_FOUND /\ v_store (view w) !! id = None)) /\
      h = TEE_HANDLE_NULL /\ view w' = view w));
  create_law id flags attributes d w : Z.land flags TEE_DATA_FLAG_OVERWRITE = 0 ->
    (attributes = TEE_HANDLE_NULL \/ exists t, v_trans (view w) !! attributes = Some t /\ is_Some (t_key t)) ->
    exists res w', TEE_CreatePersistentObject id flags attributes d w = Ret (res, w') /\
    ((res = TEE_SUCCESS /\ v_store (view w) !! id = None /\ exists o,
      view w' = with_store <[id := o]> (view w) /\ po_data o = d /\
      (forall t, v_trans (view w) !! attributes = Some t ->
         po_type o = t_type t /\ po_size o = t_size t /\ po_key o = t_key t)) \/
     ((refuses res \/ (res = TEE_ERROR_ACCESS_CONFLICT /\ is_Some (v_store (view w) !! id))) /\
      view w' = view w));
  close_law h w : is_Some (v_open (view w) !! h) ->
    exists w', TEE_CloseObject h w = Ret (tt, w') /\ view w' = with_open (delete h) (view w);
  delete_law h x w : v_open (view w) !! h = Some x -> allows x TEE_DATA_FLAG_ACCESS_WRITE_META ->
    exists w', TEE_CloseAndDeletePersistentObject h w = Ret (tt, w') /\
    view w' = with_store (delete (h_id x)) (with_open (delete h) (view w));
  info_law h x o w : v_open (view w) !! h = Some x -> v_store (view w) !! h_id x = Some o ->
    exists res i w', TEE_GetObjectInfo1 h w = Ret ((res, i), w') /\ view w' = view w /\
    ((res = TEE_SUCCESS /\ i = info o) \/ refuses res);
  read_law h x o n w : v_open (view w) !! h = Some x -> v_store (view w) !! h_id x = Some o ->
    allows x TEE_DATA_FLAG_ACCESS_READ ->
    exists res d w', TEE_ReadObjectData h n w = Ret ((res, d), w') /\
    ((res = TEE_SUCCESS /\ d = take (Z.to_nat n) (drop (Z.to_nat (h_pos x)) (po_data o)) /\
      view w' = with_open <[h := at_pos (h_pos x + Z.of_nat (length d)) x]> (view w)) \/
     (refuses res /\ d = [] /\ view w' = view w));
  write_law h x o d w : v_open (view w) !! h = Some x -> v_store (view w) !! h_id x = Some o ->
    allows x TEE_DATA_FLAG_ACCESS_WRITE ->
    exists res w', TEE_WriteObjectData h d w = Ret (res, w') /\
    ((res = TEE_SUCCESS /\
      view w' = with_store <[h_id x := with_data (overwrite (po_data o) (h_pos x) d) o]>
                  (with_open <[h := at_pos (h_pos x + Z.of_nat (length d)) x]> (view w))) \/
     (refuses res /\ view w' = view w));
  seek_law h x off w : v_open (view w) !! h = Some x -> 0 <= off ->
    exists res w', TEE_SeekObjectData h off TEE_DATA_SEEK_SET w = Ret (res, w') /\
    ((res = TEE_SUCCESS /\ view w' = with_open <[h := at_pos off x]> (view w)) \/
     (refuses res /\ view w' = view w));
  enum_alloc_law w : exists res h w', TEE_AllocatePersistentObjectEnumerator w = Ret ((res, h), w') /\
    ((res = TEE_SUCCESS /\ fresh_handle h (v_enum (view w)) /\ view w' = with_enum <[h := []]> (view w)) \/
     (refuses res /\ h = TEE_HANDLE_NULL /\ view w' = view w));
  enum_start_law h w : is_Some (v_enum (view w) !! h) ->
    exists res w', TEE_StartPersistentObjectEnumerator h w = Ret (res, w') /\
    ((res = TEE_SUCCESS /\ exists ids, ids ≡ₚ (map_to_list (v_store (view w))).*1 /\
      view w' = with_enum <[h := ids]> (view w)) \/
     ((refuses res \/ (res = TEE_ERROR_ITEM_NOT_FOUND /\ v_store (view w) = ∅)) /\ view w' = view w));
  enum_next_law h l w : v_enum (view w) !! h = Some l ->
    exists res i id w', TEE_GetNextPersistentObject h w = Ret ((res, i, id), w') /\
    ((exists rest, res = TEE_SUCCESS /\ l = id :: rest /\ view w' = with_enum <[h := rest]> (view w) /\
      (forall o, v_store (view w) !! id = Some o -> i = info o)) \/
     ((refuses res \/ (res = TEE_ERROR_ITEM_NOT_FOUND /\ l = [])) /\ view w' = view w));
  enum_free_law h w : is_Some (v_enum (view w) !! h) ->
    exists w', TEE_FreePersistentObjectEnumerator h w = Ret (tt, w') /\
    view w' = with_enum (delete h) (view w);
  trans_alloc_law ty size w : exists res h w', TEE_AllocateTransientObject ty size w = Ret ((res, h), w') /\
    ((res = TEE_SUCCESS /\ fresh_handle h (v_trans (view w)) /\
      view w' = with_trans <[h := mkTobj ty size None]> (view w)) \/
     (refuses res /\ h = TEE_HANDLE_NULL /\ view w' = view w));
  populate_law h t attrs k w : v_trans (view w) !! h = Some t -> t_key t = None ->
    populated (t_type t) (t_size t) attrs = Ret k ->
    exists res w', TEE_PopulateTransientObject h attrs w = Ret (res, w') /\
    ((res = TEE_SUCCESS /\ is_Some k /\ view w' = with_trans <[h := with_key k t]> (view w)) \/
     ((refuses res \/ (res = TEE_ERROR_BAD_PARAMETERS /\ k = None)) /\ view w' = view w));
  generate_law h t size attrs w : v_trans (view w) !! h = Some t -> t_key t = None -> size <= t_size t ->
    exists res w', TEE_GenerateKey h size attrs w = Ret (res, w') /\
    ((res = TEE_SUCCESS /\ exists k, view w' = with_trans <[h := with_key (Some k) t]> (view w) /\
      (t_type t = TEE_TYPE_RSA_KEYPAIR ->
       is_Some (key_attr k TEE_ATTR_RSA_MODULUS) /\ is_Some (key_attr k TEE_ATTR_RSA_PUBLIC_EXPONENT))) \/
     (refuses res /\ view w' = view w));
  buffer_attr_law h t k id x n w : v_trans (view w) !! h = Some t -> t_key t = Some k ->
    key_attr k id = Some x ->
    exists res d w', TEE_GetObjectBufferAttribute h id n w = Ret ((res, d), w') /\ view w' = view w /\
    (sized x n res d \/ refuses res);
  copy_law dst t src x o w :
    v_trans (view w) !! dst = Some t -> v_open (view w) !! src = Some x ->
    v_store (view w) !! h_id x = Some o -> is_Some (po_key o) -> t_key t = None ->
    t_type t = po_type o -> po_size o <= t_size t ->
    exists res w', TEE_CopyObjectAttributes1 dst src w = Ret (res, w') /\
    ((res = TEE_SUCCESS /\ view w' = with_trans <[dst := with_key (po_key o) t]> (view w)) \/
     (refuses res /\ view w' = view w));
  trans_free_law h w : is_Some (v_trans (view w) !! h) ->
    exists w', TEE_FreeTransientObject h w = Ret (tt, w') /\ view w' = with_trans (delete h) (view w);
  op_alloc_law alg mode size w : exists res h w', TEE_AllocateOperation alg mode size w = Ret ((res, h), w') /\
    ((res = TEE_SUCCESS /\ fresh_handle h (v_ops (view w)) /\
      view w' = with_ops <[h := mkOpSt alg mode size None]> (view w)) \/
     (refuses res /\ h = TEE_HANDLE_NULL /\ view w' = view w));
  set_key_law h op key t w : v_ops (view w) !! h = Some op -> v_trans (view w) !! key = Some t ->
    is_Some (t_key t) -> t_size t <= op_max op ->
    exists res w', TEE_SetOperationKey h key w = Ret (res, w') /\
    ((res = TEE_SUCCESS /\
      view w' = with_ops <[h := mkOpSt (op_alg op) (op_mode op) (op_max op) (t_key t)]> (view w)) \/
     (refuses res /\ view w' = view w));
  digest_law h op d n w : v_ops (view w) !! h = Some op -> op_mode op = TEE_MODE_DIGEST ->
    exists res out w', TEE_DigestDoFinal h d n w = Ret ((res, out), w') /\ view w' = view w /\
    (sized (digest_of (op_alg op) d) n res out \/ refuses res);
  sign_law h op k d n x w : v_ops (view w) !! h = Some op -> op_mode op = TEE_MODE_SIGN ->
    op_key op = Some k -> sign_of (op_alg op) k d = Ret x ->
    exists res out w', TEE_AsymmetricSignDigest h d n w = Ret ((res, out), w') /\ view w' = view w /\
    ((exists s, x = Some s /\ sized s n res out) \/ refuses res \/
     (res = TEE_ERROR_BAD_PARAMETERS /\ x = None));
  decrypt_law h op k d n x w : v_ops (view w) !! h = Some op -> op_mode op = TEE_MODE_DECRYPT ->
    op_key op = Some k -> decrypt_of (op_alg op) k d = Ret x ->
    exists res out w', TEE_AsymmetricDecrypt h d n w = Ret ((res, out), w') /\ view w' = view w /\
    ((exists s, x = Some s /\ sized s n res out) \/ refuses res \/
     (res = TEE_ERROR_BAD_PARAMETERS /\ x = None));
  op_free_law h w : is_Some (v_ops (view w) !! h) ->
    exists w', TEE_FreeOperation h w = Ret (tt, w') /\ view w' = with_ops (delete h) (view w)
}.
