(* ===== verification/TeeRam.v ===== *)
(** * A TEE in memory

    A model of the laws of the TEE internal API ([TeeApi]): the state is the view
    itself, handles are numbered from one, memory and storage never run out, and
    the cryptography is a stand-in that tags its input.  It shows that the laws
    can hold, and runs the trusted application on concrete inputs. *)

From stdpp Require Import base numbers list gmap.
From S2P Require Import Prelude SkTypes AttrCodec TeeApi.

(** Keys are the attributes an object was populated with. *)
Definition ram_key : Type := list TEE_Attribute.
Definition ram : Type := tview ram_key.

Definition ram_empty : ram := mkView ∅ ∅ ∅ ∅ ∅.

(** The value of an attribute of a key. *)
Fixpoint ram_attr (k : ram_key) (id : Z) : option (list Z) :=
  match k with
  | [] => None
  | x :: rest => if attributeID x =? id then at_buffer x else ram_attr rest id
  end.

(** Cryptography is a stand-in: a signature, say, is its input with a tag. *)
#[export] Instance ram_crypto : Crypto ram_key := {|
  populated _ _ attrs := Ret (Some attrs);
  key_attr := ram_attr;
  sign_of alg k d := Ret (Some (1 :: d));
  decrypt_of alg k d := Ret (Some (2 :: tail d));
  digest_of alg d := 3 :: d
|}.

(** A generated key has the attributes asked for, a modulus and an exponent. *)
Definition ram_generated (attrs : list TEE_Attribute) : ram_key :=
  filter (fun x => is_Some (at_buffer x)) attrs ++
  [mkTeeAttr TEE_ATTR_RSA_MODULUS (Some [193; 7]) 2;
   mkTeeAttr TEE_ATTR_RSA_PUBLIC_EXPONENT (Some [1; 0; 1]) 3].

Lemma ram_generated_attr attrs id :
  id = TEE_ATTR_RSA_MODULUS \/ id = TEE_ATTR_RSA_PUBLIC_EXPONENT ->
  is_Some (ram_attr (ram_generated attrs) id).
Proof.
  intros Hid. unfold ram_generated. induction attrs as [|x attrs IH].
  - destruct Hid as [-> | ->]; by eexists.
  - rewrite filter_cons. destruct (decide _) as [Hx|]; [| done]. cbn. by case_match.
Qed.

Definition fresh {A} (m : gmap Z A) : Z := above (dom m).

Lemma fresh_ok {A} (m : gmap Z A) : fresh_handle (fresh m) m.
Proof.
  unfold fresh_handle, fresh. destruct (above_spec (dom m)) as [H1 H2]. split; [unfold TEE_HANDLE_NULL; lia |].
  apply not_elem_of_dom. intros Hin. specialize (H2 _ Hin). lia.
Qed.

(** An output that does not fit the given size is refused. *)
Definition fitted (out : list Z) (n : Z) : Z * list Z :=
  if Z.of_nat (length out) <=? n then (TEE_SUCCESS, out) else (TEE_ERROR_SHORT_BUFFER, []).

Definition no_info : TEE_ObjectInfo := mkInfo 0 0 0.

(** The open object behind a handle, with its identifier and position. *)
Definition opened (h : Z) (v : ram) : option (handle * pobj ram_key) :=
  x ← v_open v !! h; o ← v_store v !! h_id x; Some (x, o).

#[export] Instance ram_tee : TEE ram := {|
  TEE_Malloc _ v := Ret (Some 4096, v);
  TEE_Free _ v := Ret (tt, v);
  TEE_OpenPersistentObject id flags v :=
    match v_store v !! id with
    | Some _ => let h := fresh (v_open v) in Ret ((TEE_SUCCESS, h), with_open <[h := mkHandle id flags 0]> v)
    | None => Ret ((TEE_ERROR_ITEM_NOT_FOUND, TEE_HANDLE_NULL), v)
    end;
  TEE_CreatePersistentObject id _ attributes d v :=
    match v_store v !! id with
    | Some _ => Ret (TEE_ERROR_ACCESS_CONFLICT, v)
    | None =>
        let o := match v_trans v !! attributes with
                 | Some t => mkPobj (t_type t) (t_size t) (t_key t) d
                 | None => mkPobj 0 0 None d
                 end in
        Ret (TEE_SUCCESS, with_store <[id := o]> v)
    end;
  TEE_CloseObject h v := Ret (tt, with_open (delete h) v);
  TEE_CloseAndDeletePersistentObject h v :=
    match v_open v !! h with
    | Some x => Ret (tt, with_store (delete (h_id x)) (with_open (delete h) v))
    | None => Undef
    end;
  TEE_GetObjectInfo1 h v :=
    match opened h v with Some (_, o) => Ret ((TEE_SUCCESS, info o), v) | None => Undef end;
  TEE_ReadObjectData h n v :=
    match opened h v with
    | Some (x, o) =>
        let d := take (Z.to_nat n) (drop (Z.to_nat (h_pos x)) (po_data o)) in
        Ret ((TEE_SUCCESS, d), with_open <[h := at_pos (h_pos x + Z.of_nat (length d)) x]> v)
    | None => Undef
    end;
  TEE_WriteObjectData h d v :=
    match opened h v with
    | Some (x, o) =>
        Ret (TEE_SUCCESS, with_store <[h_id x := with_data (overwrite (po_data o) (h_pos x) d) o]>
                            (with_open <[h := at_pos (h_pos x + Z.of_nat (length d)) x]> v))
    | None => Undef
    end;
  TEE_SeekObjectData h off _ v :=
    match v_open v !! h with
    | Some x => Ret (TEE_SUCCESS, with_open <[h := at_pos off x]> v)
    | None => Undef
    end;
  TEE_AllocatePersistentObjectEnumerator v :=
    let h := fresh (v_enum v) in Ret ((TEE_SUCCESS, h), with_enum <[h := []]> v);
  TEE_StartPersistentObjectEnumerator h v :=
    Ret (TEE_SUCCESS, with_enum <[h := (map_to_list (v_store v)).*1]> v);
  TEE_GetNextPersistentObject h v :=
    match v_enum v !! h with
    | Some (id :: rest) =>
        Ret ((TEE_SUCCESS, default no_info (info <$> v_store v !! id), id), with_enum <[h := rest]> v)
    | Some [] => Ret ((TEE_ERROR_ITEM_NOT_FOUND, no_info, []), v)
    | None => Undef
    end;
  TEE_FreePersistentObjectEnumerator h v := Ret (tt, with_enum (delete h) v);
  TEE_AllocateTransientObject ty size v :=
    let h := fresh (v_trans v) in Ret ((TEE_SUCCESS, h), with_trans <[h := mkTobj ty size None]> v);
  TEE_PopulateTransientObject h attrs v :=
    match v_trans v !! h with
    | Some t => Ret (TEE_SUCCESS, with_trans <[h := with_key (K := ram_key) (Some attrs) t]> v)
    | None => Undef
    end;
  TEE_GenerateKey h _ attrs v :=
    match v_trans v !! h with
    | Some t => Ret (TEE_SUCCESS, with_trans <[h := with_key (Some (ram_generated attrs)) t]> v)
    | None => Undef
    end;
  TEE_GetObjectBufferAttribute h id n v :=
    match t ← v_trans v !! h; k ← t_key t; ram_attr k id with
    | Some x => Ret (fitted x n, v)
    | None => Ret ((TEE_ERROR_ITEM_NOT_FOUND, []), v)
    end;
  TEE_CopyObjectAttributes1 dst src v :=
    match v_trans v !! dst, opened src v with
    | Some t, Some (_, o) => Ret (TEE_SUCCESS, with_trans <[dst := with_key (po_key o) t]> v)
    | _, _ => Undef
    end;
  TEE_FreeTransientObject h v := Ret (tt, with_trans (delete h) v);
  TEE_AllocateOperation alg mode size v :=
    let h := fresh (v_ops v) in Ret ((TEE_SUCCESS, h), with_ops <[h := mkOpSt alg mode size None]> v);
  TEE_SetOperationKey h key v :=
    match v_ops v !! h, v_trans v !! key with
    | Some op, Some t =>
        Ret (TEE_SUCCESS, with_ops <[h := mkOpSt (op_alg op) (op_mode op) (op_max op) (t_key t)]> v)
    | _, _ => Undef
    end;
  TEE_DigestDoFinal h d n v :=
    match v_ops v !! h with
    | Some op => Ret (fitted (digest_of (K := ram_key) (op_alg op) d) n, v)
    | None => Undef
    end;
  TEE_AsymmetricSignDigest h d n v :=
    match v_ops v !! h with
    | Some op =>
        k ← deref (op_key op);
        x ← sign_of (op_alg op) k d;
        Ret (match x with Some s => fitted s n | None => (TEE_ERROR_BAD_PARAMETERS, []) end, v)
    | None => Undef
    end;
  TEE_AsymmetricDecrypt h d n v :=
    match v_ops v !! h with
    | Some op =>
        k ← deref (op_key op);
        x ← decrypt_of (op_alg op) k d;
        Ret (match x with Some s => fitted s n | None => (TEE_ERROR_BAD_PARAMETERS, []) end, v)
    | None => Undef
    end;
  TEE_FreeOperation h v := Ret (tt, with_ops (delete h) v)
|}.

Lemma opened_some h v x o : v_open v !! h = Some x -> v_store v !! h_id x = Some o ->
  opened h v = Some (x, o).
Proof. intros Ho Hs. unfold opened. rewrite Ho. cbn. by rewrite Hs. Qed.

Lemma fitted_sized out n res d : fitted out n = (res, d) -> sized out n res d.
Proof. unfold fitted, sized. case_c; boolz; intros [= <- <-]; [by left | by right]. Qed.

#[export] Instance ram_laws : TEE_laws ram ram_key.
Proof.
  apply (Build_TEE_laws ram ram_key _ _ (fun v => v) (fun _ => False)).
  - done.
  - intros n v. by eexists _, v.
  - intros a v. by exists v.
  - intros id flags v. cbn. destruct (v_store v !! id) as [o|] eqn:E; eexists _, _, _; (split; [done |]).
    + left. split_and!; [done | by exists o | apply fresh_ok | done].
    + right. split_and!; [by right | done | done].
  - intros id flags a d v _ _. cbn. destruct (v_store v !! id) as [o|] eqn:E; eexists _, _; (split; [done |]).
    + right. split; [right; split; [done | by eexists] | done].
    + left. split_and!; [done | done |]. eexists. split_and!; [done | by case_match |]. intros t ->. done.
  - intros h v _. by eexists.
  - intros h x v Ho _. cbn. rewrite Ho. by eexists.
  - intros h x o v Ho Hs. cbn. rewrite (opened_some _ _ _ _ Ho Hs). eexists _, _, _. split_and!; [done | done | by left].
  - intros h x o n v Ho Hs _. cbn. rewrite (opened_some _ _ _ _ Ho Hs). eexists _, _, _. split; [done |]. by left.
  - intros h x o d v Ho Hs _. cbn. rewrite (opened_some _ _ _ _ Ho Hs). eexists _, _. split; [done |]. by left.
  - intros h x off v Ho _. cbn. rewrite Ho. eexists _, _. split; [done |]. by left.
  - intros v. eexists _, _, _. split; [done |]. left. split_and!; [done | apply fresh_ok.. | done].
  - intros h v _. eexists _, _. split; [done |]. left. split; [done |]. by eexists.
  - intros h l v Hl. cbn. rewrite Hl. destruct l as [|id rest]; eexists _, _, _, _; (split; [done |]).
    + right. split; [by right | done].
    + left. exists rest. split_and!; [done.. |]. by intros o ->.
  - intros h v _. by eexists.
  - intros ty size v. eexists _, _, _. split; [done |]. left. split_and!; [done | apply fresh_ok.. | done].
  - intros h t attrs k v Ht _ E. cbn. rewrite Ht. injection E as <-. eexists _, _. split; [done |]. left.
    split_and!; [done | by eexists | done].
  - intros h t size attrs v Ht _ _. cbn. rewrite Ht. eexists _, _. split; [done |]. left. split; [done |].
    eexists. split; [done |]. intros _. split; apply ram_generated_attr; auto.
  - intros h t k id x n v Ht Hk Hx. cbn in *. rewrite Ht. cbn. rewrite Hk. cbn. rewrite Hx.
    destruct (fitted x n) as [res d] eqn:E. eexists _, _, _. split_and!; [done | done |].
    left. by apply fitted_sized.
  - intros dst t src x o v Ht Ho Hs _ _ _ _. cbn. rewrite Ht, (opened_some _ _ _ _ Ho Hs).
    eexists _, _. split; [done |]. by left.
  - intros h v _. by eexists.
  - intros alg mode size v. eexists _, _, _. split; [done |]. left. split_and!; [done | apply fresh_ok.. | done].
  - intros h op key t v Ho Ht _ _. cbn. rewrite Ho, Ht. eexists _, _. split; [done |]. by left.
  - intros h op d n v Ho _. cbn. rewrite Ho. destruct (fitted _ n) as [res out] eqn:E. eexists _, _, _.
    split_and!; [done | done |]. left. by apply fitted_sized.
  - intros h op k d n x v Ho _ Hk E0. cbn. rewrite Ho, Hk. injection E0 as <-. cbn. destruct (fitted _ n) as [res out] eqn:E.
    eexists _, _, _. split_and!; [done | done |]. left. eexists. split; [done | by apply fitted_sized].
  - intros h op k d n x v Ho _ Hk E0. cbn. rewrite Ho, Hk. injection E0 as <-. cbn. destruct (fitted _ n) as [res out] eqn:E.
    eexists _, _, _. split_and!; [done | done |]. left. eexists. split; [done | by apply fitted_sized].
  - intros h v _. by eexists.
Defined.
