(* ===== verification/TaStorage.v ===== *)
(** * The trusted application: object storage

    The commands of secure_storage_ta that keep objects in the TEE's private
    storage: the object-identifier counter (secure_storage_db.c), creation
    (secure_storage_create.c, secure_storage_rsa.c), key generation
    (secure_storage_generate.c), erasing and attribute queries
    (secure_storage_common.c) and search (secure_storage_find.c).  A command is
    state passing over the TEE ([TEE W]) and takes and returns its four
    parameters.  The label [out] of a C function is the function of the same
    purpose here; a [goto out] is a call of it with what is held then.  The
    attributes [unpack_sk_attrs] yields point into the buffer they were unpacked
    from, so a command that writes through them carries that buffer along.
    Pointers are 64 bits wide. *)

From stdpp Require Import base numbers list.
From S2P Require Import Prelude SkTypes AttrCodec TeeApi.

(** ** Parameters *)

(** [TEE_Param]: a value, or a memory reference with the address of the buffer,
    its content ([None] for a null pointer) and its size. *)
Inductive TEE_Param :=
| VParam (a b : Z)
| MParam (addr : Z) (buffer : option (list Z)) (size : Z)
| NParam.

Definition param_value (ps : list TEE_Param) (i : nat) : outcome (Z * Z) :=
  match ps !! i with Some (VParam a b) => Ret (a, b) | _ => Undef end.
Definition param_mem (ps : list TEE_Param) (i : nat) : outcome (Z * option (list Z) * Z) :=
  match ps !! i with Some (MParam addr b size) => Ret (addr, b, size) | _ => Undef end.

(** [params[i].value.a = v]. *)
Definition set_value_a (ps : list TEE_Param) (i : nat) (v : Z) : outcome (list TEE_Param) :=
  '(_, b) ← param_value ps i; Ret (<[i := VParam v b]> ps).

Section Storage.
Context {W : Type} `{TEE W}.

(** [if (p) TEE_Free(p)] and the like. *)
Definition free_opt (p : option Z) : st W unit :=
  match p with Some a => TEE_Free a | None => mret tt end.
Definition unless_null (h : Z) (m : st W unit) : st W unit :=
  if h =? TEE_HANDLE_NULL then mret tt else m.

(** ** Unpacking and packing with the TEE's allocator *)

(** [unpack_sk_attrs] with its allocation made in the TEE: the routine reaches
    the allocation when it would fail for lack of memory.  Result code,
    attributes and the address of the array. *)
Definition unpack (addr : Z) (buf : list Z) : st W (Z * list sk_ref * option Z) :=
  '(res, refs) ← lift (unpack_sk_attrs 64 false addr buf);
  if negb (res =? TEE_ERROR_OUT_OF_MEMORY) then mret (res, refs, None)
  else
    num_attrs ← lift (read_u32 buf 0);
    a ← TEE_Malloc (num_attrs * sizeof_SK_ATTRIBUTE 64);
    match a with
    | None => mret (TEE_ERROR_OUT_OF_MEMORY, [], None)
    | Some _ =>
        '(res, refs) ← lift (unpack_sk_attrs 64 true addr buf);
        if res =? TEE_SUCCESS then mret (res, refs, a)
        else free_opt a;; mret (res, [], None)
    end.

(** [pack_sk_attrs] likewise: result code, the packed buffer and its address. *)
Definition pack (attrs : list SK_ATTRIBUTE) : st W (Z * list Z * option Z) :=
  match attrs with
  | [] => mret (TEE_SUCCESS, [], None)
  | _ =>
      b ← TEE_Malloc (pack_size attrs sizeof_uint32 0).1;
      '(res, d) ← lift (pack_sk_attrs (match b with Some _ => true | None => false end) attrs);
      mret (res, default [] d, b)
  end.

(** ** Database of object identifiers (secure_storage_db.c) *)

(** The characters of [db_obj_id] with the terminating zero. *)
Definition db_obj_id : list Z := [111; 98; 106; 95; 100; 98; 0].
Definition get_obj_db_id_size : Z := Z.of_nat (length db_obj_id).

Definition TA_OpenDatabase : st W Z :=
  '(ret, hObject) ← TEE_OpenPersistentObject db_obj_id
    (Z.lor TEE_DATA_FLAG_SHARE_READ TEE_DATA_FLAG_ACCESS_READ);
  if ret =? TEE_SUCCESS then TEE_CloseObject hObject;; mret ret
  else if negb (ret =? TEE_ERROR_ITEM_NOT_FOUND) then mret ret
  else TEE_CreatePersistentObject db_obj_id TEE_DATA_FLAG_ACCESS_WRITE TEE_HANDLE_NULL (le_bytes 4 0).

(** The result code and [*next_obj_id], zero unless it was assigned. *)
Definition TA_GetNextObjectID : st W (Z * Z) :=
  '(ret, hObject) ← TEE_OpenPersistentObject db_obj_id
    (Z.lor (Z.lor TEE_DATA_FLAG_ACCESS_WRITE TEE_DATA_FLAG_SHARE_WRITE)
           (Z.lor TEE_DATA_FLAG_ACCESS_READ TEE_DATA_FLAG_SHARE_READ));
  let out ret next_obj_id :=
    unless_null hObject (TEE_CloseObject hObject);; mret (ret, next_obj_id) in
  if negb (ret =? TEE_SUCCESS) then out ret 0
  else
    '(ret, d) ← TEE_ReadObjectData hObject 4;
    if negb (ret =? TEE_SUCCESS) && negb (Z.of_nat (length d) =? 4) then out ret 0
    else
      let obj_id := le_val d in
      ret ← TEE_SeekObjectData hObject 0 TEE_DATA_SEEK_SET;
      if negb (ret =? TEE_SUCCESS) then out ret obj_id
      else
        ret ← TEE_WriteObjectData hObject (le_bytes 4 (u32 (obj_id + 1)));
        out ret obj_id.

(** ** RSA attributes for the TEE (secure_storage_rsa.c) *)

Definition rsa_keypair_attrs : list (Z * Z) :=
  [(SK_ATTR_MODULUS, TEE_ATTR_RSA_MODULUS);
   (SK_ATTR_PUBLIC_EXPONENT, TEE_ATTR_RSA_PUBLIC_EXPONENT);
   (SK_ATTR_PRIVATE_EXPONENT, TEE_ATTR_RSA_PRIVATE_EXPONENT);
   (SK_ATTR_PRIME_1, TEE_ATTR_RSA_PRIME1);
   (SK_ATTR_PRIME_2, TEE_ATTR_RSA_PRIME2);
   (SK_ATTR_EXPONENT_1, TEE_ATTR_RSA_EXPONENT1);
   (SK_ATTR_EXPONENT_2, TEE_ATTR_RSA_EXPONENT2);
   (SK_ATTR_COEFFICIENT, TEE_ATTR_RSA_COEFFICIENT)].

Definition rsa_pubkey_attrs : list (Z * Z) :=
  [(SK_ATTR_MODULUS, TEE_ATTR_RSA_MODULUS);
   (SK_ATTR_PUBLIC_EXPONENT, TEE_ATTR_RSA_PUBLIC_EXPONENT)].

Definition TEE_InitRefAttribute (id : Z) (x : SK_ATTRIBUTE) : TEE_Attribute :=
  mkTeeAttr id (take (Z.to_nat (sa_valueLen x)) <$> sa_value x) (sa_valueLen x).

(** The slots [tee_attrs[i]] from the current one on, with the number of them
    that was set: slot [i] belongs to the [i]-th attribute of the table, found or
    not. *)
Fixpoint fill_rsa_tee_attr (table : list (Z * Z)) (buf : list Z) (attrs : list sk_ref)
  : list TEE_Attribute * Z :=
  match table with
  | [] => ([], 0)
  | (sk, tee) :: rest =>
      let '(slots, attr_cnt) := fill_rsa_tee_attr rest buf attrs in
      match TA_GetSKAttr sk attrs with
      | Some attr_key => (TEE_InitRefAttribute tee (sk_of_ref buf attr_key) :: slots, attr_cnt + 1)
      | None => (zero_attr :: slots, attr_cnt)
      end
  end.

Definition fill_rsa_keypair_tee_attr := fill_rsa_tee_attr rsa_keypair_attrs.
Definition fill_rsa_pubkey_tee_attr := fill_rsa_tee_attr rsa_pubkey_attrs.

(** ** Creation (secure_storage_create.c) *)

(** A 32-bit word read through the value pointer of an attribute. *)
Definition word_at (buf : list Z) (r : sk_ref) : outcome Z :=
  p ← deref (r_value r); read_u32 buf p.

(** [sizeof(TEE_Attribute)]. *)
Definition sizeof_TEE_Attribute : Z := 24.

(** What [TA_GetTEEObjectTypeAndAttr] leaves behind its output pointers. *)
Record tee_spec := mkSpec {
  ts_ptr : option Z;
  ts_attrs : list TEE_Attribute;
  ts_type : Z;
  ts_size : Z
}.
Definition no_spec : tee_spec := mkSpec None [] 0 0.

(** The branch of an RSA key: its size, the attribute array and its content. *)
Definition rsa_object (obj_type : Z) (table : list (Z * Z)) (buf : list Z) (attrs : list sk_ref)
  : st W (Z * tee_spec) :=
  match TA_GetSKAttr SK_ATTR_MODULUS_BITS attrs with
  | None => mret (TEE_ERROR_BAD_PARAMETERS, no_spec)
  | Some attr_obj_size =>
      obj_size ← lift (word_at buf attr_obj_size);
      p ← TEE_Malloc (Z.of_nat (length table) * sizeof_TEE_Attribute);
      match p with
      | None => mret (TEE_ERROR_OUT_OF_MEMORY, mkSpec None [] obj_type obj_size)
      | Some _ =>
          let '(slots, cnt) := fill_rsa_tee_attr table buf attrs in
          mret (TEE_SUCCESS, mkSpec p (take (Z.to_nat cnt) slots) obj_type obj_size)
      end
  end.

Definition TA_GetTEEObjectTypeAndAttr (buf : list Z) (attrs : list sk_ref) : st W (Z * tee_spec) :=
  match TA_GetSKAttr SK_ATTR_OBJECT_TYPE attrs with
  | None => mret (TEE_ERROR_BAD_PARAMETERS, no_spec)
  | Some attr_obj_type =>
      sk_obj_type ← lift (word_at buf attr_obj_type);
      if (sk_obj_type =? SK_KEY_PAIR) || (sk_obj_type =? SK_PUBLIC_KEY) then
        match TA_GetSKAttr SK_ATTR_KEY_TYPE attrs with
        | None => mret (TEE_ERROR_BAD_PARAMETERS, no_spec)
        | Some attr_key_type =>
            key_type ← lift (word_at buf attr_key_type);
            if key_type =? SKK_RSA then
              if sk_obj_type =? SK_KEY_PAIR
              then rsa_object TEE_TYPE_RSA_KEYPAIR rsa_keypair_attrs buf attrs
              else rsa_object TEE_TYPE_RSA_PUBLIC_KEY rsa_pubkey_attrs buf attrs
            else if key_type =? SKK_EC then mret (TEE_ERROR_NOT_SUPPORTED, no_spec)
            else mret (TEE_ERROR_BAD_PARAMETERS, no_spec)
        end
      else mret (TEE_ERROR_BAD_PARAMETERS, no_spec)
  end.

(** The tail [TA_CreateObject] and [TA_GenerateKeyPair] share: pack the
    attributes, take an identifier, create the object and return its
    identifier in parameter [i]. *)
Definition store_object (tObject : Z) (attrs : list SK_ATTRIBUTE) (i : nat) (ps : list TEE_Param)
    (out : Z -> option Z -> list TEE_Param -> st W (Z * list TEE_Param)) : st W (Z * list TEE_Param) :=
  '(res, d, data) ← pack attrs;
  if negb (res =? TEE_SUCCESS) then out res data ps
  else
    '(res, next_obj_id) ← TA_GetNextObjectID;
    if negb (res =? TEE_SUCCESS) then out res data ps
    else
      res ← TEE_CreatePersistentObject (le_bytes 4 next_obj_id)
        (Z.lor TEE_DATA_FLAG_ACCESS_WRITE TEE_DATA_FLAG_ACCESS_READ) tObject d;
      if negb (res =? TEE_SUCCESS) then out res data ps
      else ps ← lift (set_value_a ps i next_obj_id); out res data ps.

Definition TA_CreateObject (param_types : Z) (params : list TEE_Param) : st W (Z * list TEE_Param) :=
  let exp_param_types := TEE_PARAM_TYPES TEE_PARAM_TYPE_MEMREF_INPUT TEE_PARAM_TYPE_VALUE_OUTPUT
                           TEE_PARAM_TYPE_NONE TEE_PARAM_TYPE_NONE in
  if negb (param_types =? exp_param_types) then mret (TEE_ERROR_BAD_PARAMETERS, params)
  else
    '(addr, buffer, size) ← lift (param_mem params 0);
    buf ← lift (mem_read buffer size);
    '(res, attrs, p_attrs) ← unpack addr buf;
    let out res tObject tee_attrs data ps :=
      unless_null tObject (TEE_FreeTransientObject tObject);;
      free_opt p_attrs;; free_opt tee_attrs;; free_opt data;;
      mret (res, ps) in
    if negb (res =? TEE_SUCCESS) then out res TEE_HANDLE_NULL None None params
    else
      '(res, ts) ← TA_GetTEEObjectTypeAndAttr buf attrs;
      if negb (res =? TEE_SUCCESS) then out res TEE_HANDLE_NULL (ts_ptr ts) None params
      else
        '(res, tObject) ← TEE_AllocateTransientObject (ts_type ts) (ts_size ts);
        if negb (res =? TEE_SUCCESS) then out res tObject (ts_ptr ts) None params
        else
          res ← TEE_PopulateTransientObject tObject (ts_attrs ts);
          if negb (res =? TEE_SUCCESS) then out res tObject (ts_ptr ts) None params
          else store_object tObject (sk_of_ref buf <$> attrs) 1 params
                 (fun res data ps => out res tObject (ts_ptr ts) data ps).

(** ** Key generation (secure_storage_generate.c) *)

Definition MAX_KEY_SIZE_BYTES : Z := 512.

(** The optional attribute of a type, as the array of attributes gets it. *)
Definition given (ty : Z) (buf : list Z) (in_attrs : list sk_ref) : list SK_ATTRIBUTE :=
  match TA_GetSKAttr ty in_attrs with Some r => [sk_of_ref buf r] | None => [] end.

(** A static buffer of [MAX_KEY_SIZE_BYTES] bytes whose start was filled.  Only
    the filled part is read, so the rest is shown as zeros. *)
Definition filled (d : list Z) : list Z := d ++ zeros (MAX_KEY_SIZE_BYTES - Z.of_nat (length d)).

(** The result code, the transient object, and the attributes appended to the
    array. *)
Definition TA_GenerateRSAKeyPair (addr : Z) (buf : list Z) : st W (Z * Z * list SK_ATTRIBUTE) :=
  '(res, in_attrs, p_attrs) ← unpack addr buf;
  let out res tObject attrs := free_opt p_attrs;; mret (res, tObject, attrs) in
  if negb (res =? TEE_SUCCESS) then out res TEE_HANDLE_NULL []
  else
    match TA_GetSKAttr SK_ATTR_MODULUS_BITS in_attrs with
    | None => mret (TEE_ERROR_BAD_PARAMETERS, TEE_HANDLE_NULL, [])
    | Some get_attr =>
        obj_size ← lift (word_at buf get_attr);
        let attrs := [sk_of_ref buf get_attr] in
        '(res, tObject) ← TEE_AllocateTransientObject TEE_TYPE_RSA_KEYPAIR obj_size;
        if negb (res =? TEE_SUCCESS) then out res tObject attrs
        else
          let exp_attr := match TA_GetSKAttr SK_ATTR_PUBLIC_EXPONENT in_attrs with
                          | Some r => [TEE_InitRefAttribute TEE_ATTR_RSA_PUBLIC_EXPONENT (sk_of_ref buf r)]
                          | None => []
                          end in
          res ← TEE_GenerateKey tObject obj_size exp_attr;
          if negb (res =? TEE_SUCCESS) then out res tObject attrs
          else
            '(res, n) ← TEE_GetObjectBufferAttribute tObject TEE_ATTR_RSA_MODULUS MAX_KEY_SIZE_BYTES;
            if negb (res =? TEE_SUCCESS) then out res tObject attrs
            else
              let attrs := attrs ++ [mkSK SK_ATTR_MODULUS (Some (filled n)) (u16 (Z.of_nat (length n)))] in
              '(res, e) ← TEE_GetObjectBufferAttribute tObject TEE_ATTR_RSA_PUBLIC_EXPONENT MAX_KEY_SIZE_BYTES;
              if negb (res =? TEE_SUCCESS) then out res tObject attrs
              else
                out res tObject
                  (attrs ++ [mkSK SK_ATTR_PUBLIC_EXPONENT (Some (filled e)) (u16 (Z.of_nat (length e)))] ++
                   given SK_ATTR_OBJECT_INDEX buf in_attrs ++ given SK_ATTR_OBJECT_LABEL buf in_attrs)
    end.

Definition TA_GenerateKeyPair (param_types : Z) (params : list TEE_Param) : st W (Z * list TEE_Param) :=
  let exp_param_types := TEE_PARAM_TYPES TEE_PARAM_TYPE_VALUE_INPUT TEE_PARAM_TYPE_MEMREF_INPUT
                           TEE_PARAM_TYPE_VALUE_OUTPUT TEE_PARAM_TYPE_NONE in
  if negb (param_types =? exp_param_types) then mret (TEE_ERROR_BAD_PARAMETERS, params)
  else
    '(mech, _) ← lift (param_value params 0);
    if negb (mech =? SKM_RSA_PKCS_KEY_PAIR_GEN) then mret (TEE_ERROR_BAD_PARAMETERS, params)
    else
      let attrs := [mkSK SK_ATTR_OBJECT_TYPE (Some (le_bytes 4 SK_KEY_PAIR)) 4;
                    mkSK SK_ATTR_KEY_TYPE (Some (le_bytes 4 SKK_RSA)) 4] in
      '(addr, buffer, size) ← lift (param_mem params 1);
      buf ← lift (mem_read buffer size);
      '(res, tObject, more) ← TA_GenerateRSAKeyPair addr buf;
      let out res data ps :=
        unless_null tObject (TEE_FreeTransientObject tObject);;
        free_opt data;; mret (res, ps) in
      if negb (res =? TEE_SUCCESS) then out res None params
      else store_object tObject (attrs ++ more) 2 params out.

(** ** Erasing (secure_storage_common.c) *)

Definition TA_EraseObject (param_types : Z) (params : list TEE_Param) : st W (Z * list TEE_Param) :=
  let exp_param_types := TEE_PARAM_TYPES TEE_PARAM_TYPE_VALUE_INPUT TEE_PARAM_TYPE_NONE
                           TEE_PARAM_TYPE_NONE TEE_PARAM_TYPE_NONE in
  if negb (param_types =? exp_param_types) then mret (TEE_ERROR_BAD_PARAMETERS, params)
  else
    '(obj_id, _) ← lift (param_value params 0);
    '(res, pObject) ← TEE_OpenPersistentObject (le_bytes 4 obj_id) TEE_DATA_FLAG_ACCESS_WRITE_META;
    if negb (res =? TEE_SUCCESS) then mret (res, params)
    else TEE_CloseAndDeletePersistentObject pObject;; mret (res, params).

(** ** Attribute queries (secure_storage_common.c) *)

(** One round of the loop over the requested attributes: [buf] is the shared
    buffer the request [x] points into, [data] the object's.  Buffer, request and
    [res_attr] afterwards. *)
Definition query_one (data : list Z) (obj_attrs : list sk_ref) (buf : list Z) (x : sk_ref)
    (res_attr : Z) : outcome (list Z * sk_ref * Z) :=
  match TA_GetSKAttr (r_type x) obj_attrs with
  | None => Ret (buf, x, TEE_ERROR_BAD_PARAMETERS)
  | Some match_attr =>
      match r_value x with
      | None => Ret (buf, mkRef (r_type x) None (r_valueLen match_attr), res_attr)
      | Some p =>
          if r_valueLen x <? r_valueLen match_attr
          then Ret (buf, mkRef (r_type x) (Some p) (u16 (-1)), TEE_ERROR_SHORT_BUFFER)
          else
            v ← mem_read (sa_value (sk_of_ref data match_attr)) (r_valueLen match_attr);
            buf ← buf_write buf p v;
            Ret (buf, mkRef (r_type x) (Some p) (r_valueLen match_attr), res_attr)
      end
  end.

Fixpoint query_loop (data : list Z) (obj_attrs : list sk_ref) (buf : list Z) (attrs : list sk_ref)
    (res_attr : Z) : outcome (list Z * list sk_ref * Z) :=
  match attrs with
  | [] => Ret (buf, [], res_attr)
  | x :: rest =>
      '(buf, x, res_attr) ← query_one data obj_attrs buf x res_attr;
      '(buf, l, res_attr) ← query_loop data obj_attrs buf rest res_attr;
      Ret (buf, x :: l, res_attr)
  end.

(** The memory of a reference after its first bytes became [buf]. *)
Definition written (buffer : option (list Z)) (buf : list Z) : option (list Z) :=
  (fun b => buf ++ drop (length buf) b) <$> buffer.

(** Reads the whole data stream of an object of which [n] bytes are expected
    into zero-filled memory: result code, the memory, the bytes read and the
    address. *)
Definition read_data (hObject n : Z) : st W (Z * list Z * Z * option Z) :=
  p ← TEE_Malloc n;
  match p with
  | None => mret (TEE_ERROR_OUT_OF_MEMORY, [], 0, None)
  | Some _ =>
      '(res, d) ← TEE_ReadObjectData hObject n;
      mret (res, d ++ zeros (n - Z.of_nat (length d)), Z.of_nat (length d), p)
  end.

(** Unpacks the attributes of an object from its data stream.  The array the
    code allocates first is replaced by the one [unpack_sk_attrs] allocates; it
    is the one released when that fails. *)
Definition unpack_object (p_data : Z) (data : list Z) (data_len : Z)
  : st W (Z * list sk_ref * option Z) :=
  obj_attr_cnt ← lift (read_u32 data 0);
  obj_attrs ← TEE_Malloc (sizeof_SK_ATTRIBUTE 64 * obj_attr_cnt);
  match obj_attrs with
  | None => mret (TEE_ERROR_OUT_OF_MEMORY, [], None)
  | Some _ =>
      '(res, refs, a) ← unpack p_data (take (Z.to_nat data_len) data);
      mret (res, refs, if res =? TEE_SUCCESS then a else obj_attrs)
  end.

Definition TA_GetObjectAttributes (param_types : Z) (params : list TEE_Param) : st W (Z * list TEE_Param) :=
  let exp_param_types := TEE_PARAM_TYPES TEE_PARAM_TYPE_VALUE_INPUT TEE_PARAM_TYPE_MEMREF_INOUT
                           TEE_PARAM_TYPE_NONE TEE_PARAM_TYPE_NONE in
  if negb (param_types =? exp_param_types) then mret (TEE_ERROR_BAD_PARAMETERS, params)
  else
    '(addr, buffer, size) ← lift (param_mem params 1);
    buf ← lift (mem_read buffer size);
    '(res, attrs, p_attrs) ← unpack addr buf;
    let out res pObject data obj_attrs data_out ps :=
      unless_null pObject (TEE_CloseObject pObject);;
      free_opt p_attrs;; free_opt data;; free_opt obj_attrs;; free_opt data_out;;
      mret (res, ps) in
    if negb (res =? TEE_SUCCESS) then out res TEE_HANDLE_NULL None None None params
    else
      '(obj_id, _) ← lift (param_value params 0);
      '(res, pObject) ← TEE_OpenPersistentObject (le_bytes 4 obj_id)
        (Z.lor TEE_DATA_FLAG_ACCESS_READ TEE_DATA_FLAG_SHARE_READ);
      if negb (res =? TEE_SUCCESS) then out res pObject None None None params
      else
        '(res, objectInfo) ← TEE_GetObjectInfo1 pObject;
        if negb (res =? TEE_SUCCESS) then out res pObject None None None params
        else
          '(res, data, data_len, p_data) ← read_data pObject (dataSize objectInfo);
          match p_data with
          | None => out res pObject None None None params
          | Some a_data =>
              if negb (res =? TEE_SUCCESS) || negb (data_len =? dataSize objectInfo)
              then out res pObject p_data None None params
              else
                '(res, obj_attrs, p_obj) ← unpack_object a_data data data_len;
                if negb (res =? TEE_SUCCESS) then out res pObject p_data p_obj None params
                else
                  '(buf, attrs, res_attr) ← lift (query_loop data obj_attrs buf attrs TEE_SUCCESS);
                  let ps := <[1%nat := MParam addr (written buffer buf) size]> params in
                  '(res, d, data_out) ← pack (sk_of_ref buf <$> attrs);
                  if negb (res =? TEE_SUCCESS) then out res pObject p_data p_obj data_out ps
                  else if size <? Z.of_nat (length d)
                  then out TEE_ERROR_SHORT_BUFFER pObject p_data p_obj data_out ps
                  else
                    b ← lift (mem_store (written buffer buf) d);
                    out (if negb (res_attr =? TEE_SUCCESS) then res_attr else res) pObject p_data p_obj
                      data_out (<[1%nat := MParam addr b size]> params)
          end.

(** ** Search (secure_storage_find.c) *)

(** The identifier buffer after an identifier was stored in it. *)
Definition id_buffer (obj_id id : list Z) : list Z := id ++ drop (length id) obj_id.

(** The loop of [TA_FindAllObjects]; [fuel] bounds its rounds.  The result of
    the last call, the array of handles and their number. *)
Fixpoint find_all_loop (fuel : nat) (ehandle : Z) (obj_id obj : list Z) (cnt max_obj_cnt : Z)
  : st W (Z * list Z * Z) :=
  match fuel with
  | O => lift Undef
  | S fuel' =>
      '(res, _, id) ← TEE_GetNextPersistentObject ehandle;
      if negb (res =? TEE_SUCCESS) then mret (res, obj, cnt)
      else
        let obj_id := id_buffer obj_id id in
        if negb (Z.of_nat (length id) =? 4)
        then find_all_loop fuel' ehandle obj_id obj cnt max_obj_cnt
        else
          obj ← lift (buf_write obj (4 * cnt) (take 4 obj_id));
          if max_obj_cnt <=? cnt + 1 then mret (res, obj, cnt + 1)
          else find_all_loop fuel' ehandle obj_id obj (cnt + 1) max_obj_cnt
  end.

(** The part both searches share: the enumerator and the handling of the last
    result.  Result code, the array of handles, and the count if assigned. *)
Definition with_enumerator (obj : list Z) (loop : Z -> st W (Z * list Z * Z)) : st W (Z * list Z * Z) :=
  '(res, ehandle) ← TEE_AllocatePersistentObjectEnumerator;
  let out res obj cnt :=
    unless_null ehandle (TEE_FreePersistentObjectEnumerator ehandle);; mret (res, obj, cnt) in
  if negb (res =? TEE_SUCCESS) then out res obj 0
  else
    res ← TEE_StartPersistentObjectEnumerator ehandle;
    if negb (res =? TEE_SUCCESS) then out res obj 0
    else
      '(res, obj, cnt) ← loop ehandle;
      if res =? TEE_ERROR_ITEM_NOT_FOUND then out TEE_SUCCESS obj cnt
      else if negb (res =? TEE_SUCCESS) then out res obj 0
      else out res obj cnt.

Definition TA_FindAllObjects (fuel : nat) (obj : list Z) (max_obj_cnt : Z) : st W (Z * list Z * Z) :=
  with_enumerator obj (fun ehandle =>
    find_all_loop fuel ehandle (zeros TEE_OBJECT_ID_MAX_LEN) obj 0 max_obj_cnt).

(** The comparison of the template with the attributes of an object. *)
Fixpoint match_loop (buf : list Z) (attrs : list sk_ref) (data : list Z) (obj_attrs : list sk_ref)
    (m : Z) : outcome Z :=
  match attrs with
  | [] => Ret m
  | x :: rest =>
      match TA_GetSKAttr (r_type x) obj_attrs with
      | None => Ret 0
      | Some match_attr =>
          m ← TA_CompareSKAttr buf x data match_attr;
          if m =? 0 then Ret 0 else match_loop buf rest data obj_attrs m
      end
  end.

(** The result code and [*match]. *)
Definition match_attr_obj (buf : list Z) (attrs : list sk_ref) (obj_id : list Z)
    (objectInfo : TEE_ObjectInfo) : st W (Z * Z) :=
  '(res, hObject) ← TEE_OpenPersistentObject (take 4 obj_id)
    (Z.lor TEE_DATA_FLAG_ACCESS_READ TEE_DATA_FLAG_SHARE_READ);
  let out res data obj_attrs m :=
    unless_null hObject (TEE_CloseObject hObject);;
    free_opt data;; free_opt obj_attrs;; mret (res, m) in
  if negb (res =? TEE_SUCCESS) then out res None None 0
  else
    '(res, data, data_len, p_data) ← read_data hObject (dataSize objectInfo);
    match p_data with
    | None => out res None None 0
    | Some a_data =>
        if negb (res =? TEE_SUCCESS) && negb (data_len =? dataSize objectInfo)
        then out res p_data None 0
        else
          '(res, obj_attrs, p_obj) ← unpack_object a_data data data_len;
          if negb (res =? TEE_SUCCESS) then out res p_data p_obj 0
          else
            m ← lift (match_loop buf attrs data obj_attrs 0);
            out res p_data p_obj m
    end.

Fixpoint find_match_loop (fuel : nat) (ehandle : Z) (buf : list Z) (attrs : list sk_ref)
    (obj_id obj : list Z) (cnt max_obj_cnt : Z) : st W (Z * list Z * Z) :=
  match fuel with
  | O => lift Undef
  | S fuel' =>
      '(res, objectInfo, id) ← TEE_GetNextPersistentObject ehandle;
      if negb (res =? TEE_SUCCESS) then mret (res, obj, cnt)
      else
        let obj_id := id_buffer obj_id id in
        if Z.of_nat (length id) =? get_obj_db_id_size
        then find_match_loop fuel' ehandle buf attrs obj_id obj cnt max_obj_cnt
        else
          '(res, m) ← match_attr_obj buf attrs obj_id objectInfo;
          if negb (res =? TEE_SUCCESS) then mret (res, obj, cnt)
          else if m =? 0 then find_match_loop fuel' ehandle buf attrs obj_id obj cnt max_obj_cnt
          else
            obj ← lift (buf_write obj (4 * cnt) (take 4 obj_id));
            if max_obj_cnt <=? cnt + 1 then mret (res, obj, cnt + 1)
            else find_match_loop fuel' ehandle buf attrs obj_id obj (cnt + 1) max_obj_cnt
  end.

Definition TA_FindAttrMatchObjects (fuel : nat) (buf : list Z) (attrs : list sk_ref) (obj : list Z)
    (max_obj_cnt : Z) : st W (Z * list Z * Z) :=
  with_enumerator obj (fun ehandle =>
    find_match_loop fuel ehandle buf attrs (zeros TEE_OBJECT_ID_MAX_LEN) obj 0 max_obj_cnt).

(** [fuel] bounds the rounds of the search. *)
Definition TA_FindObjects (fuel : nat) (param_types : Z) (params : list TEE_Param)
  : st W (Z * list TEE_Param) :=
  let exp_param_types := TEE_PARAM_TYPES TEE_PARAM_TYPE_MEMREF_INPUT TEE_PARAM_TYPE_MEMREF_OUTPUT
                           TEE_PARAM_TYPE_VALUE_OUTPUT TEE_PARAM_TYPE_NONE in
  if negb (param_types =? exp_param_types) then mret (TEE_ERROR_BAD_PARAMETERS, params)
  else
    '(oaddr, obuffer, osize) ← lift (param_mem params 1);
    let obj := default [] obuffer in
    let max_obj_cnt := osize / 4 in
    '(addr, buffer, size) ← lift (param_mem params 0);
    buf ← lift (mem_read buffer size);
    '(res, attrs, p_attrs) ← unpack addr buf;
    let out res ps := free_opt p_attrs;; mret (res, ps) in
    if negb (res =? TEE_SUCCESS) then out res params
    else
      '(res, obj, obj_cnt) ← match attrs with
                             | [] => TA_FindAllObjects fuel obj max_obj_cnt
                             | _ => TA_FindAttrMatchObjects fuel buf attrs obj max_obj_cnt
                             end;
      let ps := <[1%nat := MParam oaddr ((fun _ => obj) <$> obuffer) osize]> params in
      if negb (res =? TEE_SUCCESS) then out res ps
      else ps ← lift (set_value_a ps 2 obj_cnt); out res ps.

End Storage.
