(* ===== verification/TaCrypto.v ===== *)
(** * The trusted application: cryptography and entry points

    The commands of secure_storage_crypto.c and the entry points of
    secure_storage_entry.c, which dispatch a command identifier to its
    command. *)

From stdpp Require Import base numbers list.
From S2P Require Import Prelude SkTypes AttrCodec TeeApi TaStorage.

Section Crypto.
Context {W : Type} `{TEE W}.

(** ** Mechanisms *)

Definition digest_algorithm (m : Z) : option (Z * Z) :=
  if m =? SKM_MD5 then Some (TEE_ALG_MD5, TEE_MD5_HASH_SIZE)
  else if m =? SKM_SHA1 then Some (TEE_ALG_SHA1, TEE_SHA1_HASH_SIZE)
  else if m =? SKM_SHA224 then Some (TEE_ALG_SHA224, TEE_SHA224_HASH_SIZE)
  else if m =? SKM_SHA256 then Some (TEE_ALG_SHA256, TEE_SHA256_HASH_SIZE)
  else if m =? SKM_SHA384 then Some (TEE_ALG_SHA384, TEE_SHA384_HASH_SIZE)
  else if m =? SKM_SHA512 then Some (TEE_ALG_SHA512, TEE_SHA512_HASH_SIZE)
  else None.

Definition sign_algorithm (m : Z) : option Z :=
  if m =? SKM_RSASSA_PKCS1_V1_5_MD5 then Some TEE_ALG_RSASSA_PKCS1_V1_5_MD5
  else if m =? SKM_RSASSA_PKCS1_V1_5_SHA1 then Some TEE_ALG_RSASSA_PKCS1_V1_5_SHA1
  else if m =? SKM_RSASSA_PKCS1_V1_5_SHA224 then Some TEE_ALG_RSASSA_PKCS1_V1_5_SHA224
  else if m =? SKM_RSASSA_PKCS1_V1_5_SHA256 then Some TEE_ALG_RSASSA_PKCS1_V1_5_SHA256
  else if m =? SKM_RSASSA_PKCS1_V1_5_SHA384 then Some TEE_ALG_RSASSA_PKCS1_V1_5_SHA384
  else if m =? SKM_RSASSA_PKCS1_V1_5_SHA512 then Some TEE_ALG_RSASSA_PKCS1_V1_5_SHA512
  else None.

Definition decrypt_algorithm (m : Z) : option Z :=
  if m =? SKM_RSAES_PKCS1_V1_5 then Some TEE_ALG_RSAES_PKCS1_V1_5
  else if m =? SKM_RSA_PKCS_NOPAD then Some TEE_ALG_RSA_NOPAD
  else None.

(** ** Commands *)

Definition crypto_param_types : Z :=
  TEE_PARAM_TYPES TEE_PARAM_TYPE_VALUE_INPUT TEE_PARAM_TYPE_MEMREF_INPUT
    TEE_PARAM_TYPE_MEMREF_OUTPUT TEE_PARAM_TYPE_NONE.

(** [out] written at the start of the output memory of parameter 2, whose size
    becomes its length. *)
Definition store_output (params : list TEE_Param) (out : list Z) : outcome (list TEE_Param) :=
  '(addr, b, _) ← param_mem params 2;
  b ← mem_store b out;
  Ret (<[2%nat := MParam addr b (Z.of_nat (length out))]> params).

Definition TA_DigestData (param_types : Z) (params : list TEE_Param) : st W (Z * list TEE_Param) :=
  if negb (param_types =? crypto_param_types) then mret (TEE_ERROR_BAD_PARAMETERS, params)
  else
    '(a, _) ← lift (param_value params 0);
    match digest_algorithm a with
    | None => mret (TEE_ERROR_BAD_PARAMETERS, params)
    | Some (algorithm, digest_size) =>
        '(oaddr, obuffer, osize) ← lift (param_mem params 2);
        match obuffer with
        | None => mret (TEE_SUCCESS, <[2%nat := MParam oaddr None digest_size]> params)
        | Some _ =>
            if osize <? digest_size then mret (TEE_ERROR_SHORT_BUFFER, params)
            else
              '(res, operation) ← TEE_AllocateOperation algorithm TEE_MODE_DIGEST 0;
              let out res ps := unless_null operation (TEE_FreeOperation operation);; mret (res, ps) in
              if negb (res =? TEE_SUCCESS) then out res params
              else
                '(_, buffer, size) ← lift (param_mem params 1);
                d ← lift (mem_read buffer size);
                '(res, digest) ← TEE_DigestDoFinal operation d osize;
                if negb (res =? TEE_SUCCESS) then out res params
                else ps ← lift (store_output params digest); out res ps
        end
    end.

(** [TA_SignDigest] and [TA_DecryptData] are the same but for the table of
    algorithms, the mode and the last operation. *)
Definition asymmetric_command (algorithms : Z -> option Z) (mode : Z)
    (operate : Z -> list Z -> Z -> st W (Z * list Z)) (param_types : Z) (params : list TEE_Param)
  : st W (Z * list TEE_Param) :=
  if negb (param_types =? crypto_param_types) then mret (TEE_ERROR_BAD_PARAMETERS, params)
  else
    '(obj_id, m) ← lift (param_value params 0);
    '(res, pObject) ← TEE_OpenPersistentObject (le_bytes 4 obj_id)
      (Z.lor TEE_DATA_FLAG_ACCESS_READ TEE_DATA_FLAG_SHARE_READ);
    let out res tObject operation ps :=
      unless_null pObject (TEE_CloseObject pObject);;
      unless_null tObject (TEE_FreeTransientObject tObject);;
      unless_null operation (TEE_FreeOperation operation);;
      mret (res, ps) in
    if negb (res =? TEE_SUCCESS) then out res TEE_HANDLE_NULL TEE_HANDLE_NULL params
    else
      '(res, objectInfo) ← TEE_GetObjectInfo1 pObject;
      if negb (res =? TEE_SUCCESS) then out res TEE_HANDLE_NULL TEE_HANDLE_NULL params
      else
        '(oaddr, obuffer, osize) ← lift (param_mem params 2);
        match obuffer with
        | None => out res TEE_HANDLE_NULL TEE_HANDLE_NULL
                    (<[2%nat := MParam oaddr None (objectSize objectInfo)]> params)
        | Some _ =>
            '(res, tObject) ← TEE_AllocateTransientObject (objectType objectInfo) (objectSize objectInfo);
            if negb (res =? TEE_SUCCESS) then out res tObject TEE_HANDLE_NULL params
            else
              res ← TEE_CopyObjectAttributes1 tObject pObject;
              if negb (res =? TEE_SUCCESS) then out res tObject TEE_HANDLE_NULL params
              else
                match algorithms m with
                | None => out TEE_ERROR_BAD_PARAMETERS tObject TEE_HANDLE_NULL params
                | Some algorithm =>
                    '(res, operation) ← TEE_AllocateOperation algorithm mode (objectSize objectInfo);
                    if negb (res =? TEE_SUCCESS) then out res tObject operation params
                    else
                      res ← TEE_SetOperationKey operation tObject;
                      if negb (res =? TEE_SUCCESS) then out res tObject operation params
                      else
                        '(_, buffer, size) ← lift (param_mem params 1);
                        d ← lift (mem_read buffer size);
                        '(res, result) ← operate operation d osize;
                        if negb (res =? TEE_SUCCESS) then out res tObject operation params
                        else ps ← lift (store_output params result); out res tObject operation ps
                end
        end.

Definition TA_SignDigest := asymmetric_command sign_algorithm TEE_MODE_SIGN TEE_AsymmetricSignDigest.
Definition TA_DecryptData := asymmetric_command decrypt_algorithm TEE_MODE_DECRYPT TEE_AsymmetricDecrypt.

(** ** Entry points (secure_storage_entry.c) *)

Definition TA_CreateEntryPoint : st W Z := TA_OpenDatabase.

Definition TA_OpenSessionEntryPoint (param_types : Z) : Z :=
  if negb (param_types =? TEE_PARAM_TYPES TEE_PARAM_TYPE_NONE TEE_PARAM_TYPE_NONE
                            TEE_PARAM_TYPE_NONE TEE_PARAM_TYPE_NONE)
  then TEE_ERROR_BAD_PARAMETERS else TEE_SUCCESS.

Definition TA_InvokeCommandEntryPoint (fuel : nat) (cmd_id param_types : Z) (params : list TEE_Param)
  : st W (Z * list TEE_Param) :=
  if cmd_id =? TEE_CREATE_OBJECT then TA_CreateObject param_types params
  else if cmd_id =? TEE_FIND_OBJECTS then TA_FindObjects fuel param_types params
  else if cmd_id =? TEE_GET_OBJ_ATTRIBUTES then TA_GetObjectAttributes param_types params
  else if cmd_id =? TEE_ERASE_OBJECT then TA_EraseObject param_types params
  else if cmd_id =? TEE_SIGN_DIGEST then TA_SignDigest param_types params
  else if cmd_id =? TEE_DECRYPT_DATA then TA_DecryptData param_types params
  else if cmd_id =? TEE_DIGEST_DATA then TA_DigestData param_types params
  else if cmd_id =? TEE_GENERATE_KEYPAIR then TA_GenerateKeyPair param_types params
  else mret (TEE_ERROR_BAD_PARAMETERS, params).

End Crypto.
