(* ===== verification/TaShape.v ===== *)
(** * The parameters of the trusted application's commands

    Whatever the TEE answers, a command gives back each parameter with its kind,
    and a memory reference with its address and as many bytes behind it: it writes
    nothing outside the memories its client shared. *)

From stdpp Require Import base numbers list.
From S2P Require Import Prelude SkTypes AttrCodec TeeApi TeeRam TaStorage TaCrypto.

Definition same_tee_param (p q : TEE_Param) : Prop :=
  match p, q with
  | NParam, NParam => True
  | VParam _ _, VParam _ _ => True
  | MParam a b _, MParam a' b' _ => a' = a /\ length <$> b' = length <$> b
  | _, _ => False
  end.

(** The parameters [qs] have the shape of [ps]. *)
Definition same_shape (ps qs : list TEE_Param) : Prop := Forall2 same_tee_param ps qs.

Lemma same_tee_param_refl p : same_tee_param p p.
Proof. by destruct p. Qed.
#[export] Instance same_shape_preorder : PreOrder same_shape.
Proof.
  split.
  - intros ps. apply Forall_Forall2_diag, Forall_true, same_tee_param_refl.
  - intros ps qs rs. apply Forall2_trans. intros [] [] []; cbn; intuition congruence.
Qed.

Lemma shape_insert ps i p q : ps !! i = Some p -> same_tee_param p q -> same_shape ps (<[i := q]> ps).
Proof.
  intros Hi Hpq. rewrite <- (list_insert_id ps i p Hi) at 1. apply Forall2_insert; [| done].
  apply (reflexivity (R := same_shape)).
Qed.

Lemma param_mem_shape ps i addr b size b' size' : param_mem ps i = Ret (addr, b, size) ->
  length <$> b' = length <$> b -> same_shape ps (<[i := MParam addr b' size']> ps).
Proof.
  unfold param_mem. destruct (ps !! i) as [[]|] eqn:E; try discriminate. intros [= -> -> ->] Hb.
  by eapply shape_insert.
Qed.

Lemma set_value_a_shape ps i v ps' : set_value_a ps i v = Ret ps' -> same_shape ps ps'.
Proof.
  unfold set_value_a, param_value. destruct (ps !! i) as [[]|] eqn:E; try discriminate. intros [= <-].
  by eapply shape_insert.
Qed.

Lemma mem_store_shape b out b' : mem_store b out = Ret b' -> length <$> b' = length <$> b.
Proof.
  unfold mem_store. destruct (_ =? 0); [by intros [= <-] |]. destruct b as [b|]; [| discriminate]. cbn. intros E.
  inv_ret. cbn. f_equal. by eapply buf_write_length.
Qed.

Lemma store_output_shape ps out ps' : store_output ps out = Ret ps' -> same_shape ps ps'.
Proof.
  unfold store_output. intros E. apply outcome_bind_inv in E as ([[addr b] size] & Em & E).
  apply outcome_bind_inv in E as (b' & Eb & [= <-]). eapply param_mem_shape; [exact Em | by eapply mem_store_shape].
Qed.

Lemma query_loop_length data orefs attrs : forall buf acc buf' l acc',
  query_loop data orefs buf attrs acc = Ret (buf', l, acc') -> length buf' = length buf.
Proof.
  induction attrs as [|x attrs IH]; intros buf acc buf' l acc' E; cbn [query_loop] in E; [by injection E as <- _ _ |].
  apply outcome_bind_inv in E as ([[b1 x1] a1] & E1 & E). apply outcome_bind_inv in E as ([[b2 l2] a2] & E2 & E).
  injection E as <- _ _. rewrite (IH _ _ _ _ _ E2). unfold query_one in E1.
  repeat case_match; try (by injection E1 as <- _ _). inv_ret. by eapply buf_write_length.
Qed.

(** The memory of a reference after bytes read from it were written back. *)
Lemma written_shape b size buf buf' : mem_read b size = Ret buf -> length buf' = length buf ->
  length <$> written b buf' = length <$> b.
Proof.
  unfold mem_read, written. intros E Hl. destruct b as [b|]; [| done]. cbn. f_equal.
  enough (length buf <= length b)%nat by len.
  destruct (size =? 0); [injection E as <-; cbn; lia |]. cbn in E. pose proof (buf_read_bounds _ _ _ _ E).
  rewrite buf_read_ret in E by lia. injection E as <-. len.
Qed.

(** ** Results of a run *)

Section Shape.
Context {W : Type} `{HT : TEE W}.

Definition any_state (s s' : W) : Prop := True.
#[local] Instance any_state_preorder : PreOrder any_state.
Proof. by split. Qed.

Definition yields {A} (m : st W A) (Q : A -> Prop) : Prop := post any_state m Q.

Lemma yields_any {A} (m : st W A) : yields m (fun _ => True).
Proof. by intros s a s'. Qed.
Lemma yields_bind {A B} (m : st W A) (f : A -> st W B) P Q :
  yields m P -> (forall a, P a -> yields (f a) Q) -> yields (m ≫= f) Q.
Proof. apply post_bind, _. Qed.
Lemma yields_lift {A B} (m : outcome A) (f : A -> st W B) Q :
  (forall a, m = Ret a -> yields (f a) Q) -> yields (lift m ≫= f) Q.
Proof. apply yields_bind, post_lift, _. Qed.
Lemma yields_skip {A B} (m : st W A) (f : A -> st W B) Q : (forall a, yields (f a) Q) -> yields (m ≫= f) Q.
Proof. intros Hf. eapply yields_bind; [apply yields_any |]. auto. Qed.
Lemma yields_ret {A} (a : A) (Q : A -> Prop) : Q a -> yields (mret a) Q.
Proof. apply post_ret, _. Qed.

(** Walks through a command; what is left are the results it returns. *)
Ltac yields :=
  repeat first
    [ apply yields_ret
    | apply yields_lift; intros
    | apply yields_skip; intros
    | match goal with
      | |- yields (if ?b then _ else _) _ => destruct b
      | |- yields (match ?x with _ => _ end) _ => destruct x eqn:?
      | |- yields (let _ := _ in _) _ => cbn zeta
      end ].

(** ** Commands *)

Definition keeps_shape (ps : list TEE_Param) (r : Z * list TEE_Param) : Prop := same_shape ps r.2.

(** The results of a walk: the parameters as they were, or with one replaced. *)
Ltac shape_leaf :=
  unfold keeps_shape; cbn [snd];
  first
    [ apply (reflexivity (R := same_shape))
    | by eapply set_value_a_shape
    | by eapply store_output_shape
    | eapply param_mem_shape; [eassumption |]; first [done | by eapply written_shape]
    | eapply param_mem_shape; [eassumption |]; etrans; [by eapply mem_store_shape | by eapply written_shape] ].

Lemma create_shape types ps : yields (TA_CreateObject types ps) (keeps_shape ps).
Proof. unfold TA_CreateObject. yields; shape_leaf. Qed.

Lemma generate_shape types ps : yields (TA_GenerateKeyPair types ps) (keeps_shape ps).
Proof. unfold TA_GenerateKeyPair. yields; shape_leaf. Qed.

Lemma erase_shape types ps : yields (TA_EraseObject types ps) (keeps_shape ps).
Proof. unfold TA_EraseObject. yields; shape_leaf. Qed.

Lemma digest_shape types ps : yields (TA_DigestData types ps) (keeps_shape ps).
Proof. unfold TA_DigestData. yields; subst; shape_leaf. Qed.

Lemma asymmetric_shape algs mode operate types ps : yields (asymmetric_command algs mode operate types ps) (keeps_shape ps).
Proof. unfold asymmetric_command. yields; subst; shape_leaf. Qed.

Lemma query_shape types ps : yields (TA_GetObjectAttributes types ps) (keeps_shape ps).
Proof.
  unfold TA_GetObjectAttributes. yields; subst;
    repeat match goal with H : query_loop _ _ _ _ _ = Ret _ |- _ => apply query_loop_length in H end; shape_leaf.
Qed.

(** The array of handles keeps its length. *)
Definition keeps_array (obj : list Z) (r : Z * list Z * Z) : Prop := length r.1.2 = length obj.

Lemma keeps_array_write obj off d obj' r : buf_write obj off d = Ret obj' -> keeps_array obj' r -> keeps_array obj r.
Proof. unfold keeps_array. intros E ->. by eapply buf_write_length. Qed.

Lemma yields_mono {A} (m : st W A) (P Q : A -> Prop) : yields m P -> (forall a, P a -> Q a) -> yields m Q.
Proof. intros Hm HPQ s a s' E. destruct (Hm s a s' E). split; auto. Qed.

Lemma find_all_shape h max : forall fuel id obj cnt, yields (find_all_loop fuel h id obj cnt max) (keeps_array obj).
Proof.
  induction fuel as [|fuel IH]; intros id obj cnt; cbn [find_all_loop]; [by intros ? ? ? [? _]%lift_inv |].
  yields; first [done | apply IH | by eapply keeps_array_write; [eassumption |] | idtac].
  eapply yields_mono; [apply IH |]. intros r. by eapply keeps_array_write.
Qed.

Lemma find_match_shape h buf attrs max : forall fuel id obj cnt,
  yields (find_match_loop fuel h buf attrs id obj cnt max) (keeps_array obj).
Proof.
  induction fuel as [|fuel IH]; intros id obj cnt; cbn [find_match_loop]; [by intros ? ? ? [? _]%lift_inv |].
  yields; first [done | apply IH | by eapply keeps_array_write; [eassumption |] | idtac].
  eapply yields_mono; [apply IH |]. intros r. by eapply keeps_array_write.
Qed.

Lemma enumerator_shape obj loop : (forall h, yields (loop h) (keeps_array obj)) ->
  yields (with_enumerator obj loop) (keeps_array obj).
Proof.
  intros Hl. unfold with_enumerator. apply yields_skip. intros [res h]. destruct (negb _); [yields; done |].
  apply yields_skip. intros res'. destruct (negb _); [yields; done |].
  eapply yields_bind; [apply Hl |]. intros [[r o] n] Ho. yields; done.
Qed.

Lemma find_shape fuel types ps : yields (TA_FindObjects fuel types ps) (keeps_shape ps).
Proof.
  unfold TA_FindObjects. destruct (negb _); [yields; shape_leaf |].
  apply yields_lift. intros [[oaddr obuf] osize] Eo. apply yields_lift. intros [[addr buf] size] _.
  apply yields_lift. intros b _. apply yields_skip. intros [[res attrs] p]. destruct (negb _); [yields; shape_leaf |].
  apply (yields_bind _ _ (keeps_array (default [] obuf))).
  { destruct attrs; apply enumerator_shape; intros; [apply find_all_shape | apply find_match_shape]. }
  intros [[r obj] n] Ho.
  assert (Hs : same_shape ps (<[1%nat := MParam oaddr ((fun _ => obj) <$> obuf) osize]> ps)).
  { eapply param_mem_shape; [exact Eo |]. destruct obuf; [| done]. cbn. f_equal. exact Ho. }
  yields; unfold keeps_shape; cbn [snd]; [done |]. etrans; [exact Hs | by eapply set_value_a_shape].
Qed.

(** Whatever the TEE answers, a command of the trusted application that returns
    gives back parameters of the shape it was given: values stay values, references
    keep their address, and the memory behind them keeps its size.  On parameters
    of any kind and number, known and unknown commands alike. *)
Lemma ta_keeps_parameters (fuel : nat) (cmd types : Z) (ps qs : list TEE_Param) (res : Z) (w w' : W) :
  TA_InvokeCommandEntryPoint fuel cmd types ps w = Ret ((res, qs), w') -> same_shape ps qs.
Proof.
  assert (H : yields (TA_InvokeCommandEntryPoint fuel cmd types ps) (keeps_shape ps)).
  { unfold TA_InvokeCommandEntryPoint, TA_SignDigest, TA_DecryptData.
    repeat match goal with |- yields (if ?b then _ else _) _ => destruct b end;
      first [apply create_shape | apply find_shape | apply query_shape | apply erase_shape | apply asymmetric_shape |
             apply digest_shape | apply generate_shape | yields; shape_leaf]. }
  intros E. by apply H in E as [_ ?].
Qed.
End Shape.
