(* ===== verification/TeeLogic.v ===== *)
(** * Reasoning about programs over the TEE

    [wps v m Q]: started in any state whose view is [v], the computation [m]
    returns, and its result and the view afterwards satisfy [Q].  There is one
    rule per operation of the API, derived from its law; the proofs about the
    trusted application walk through its code with them. *)

From stdpp Require Import base numbers list gmap.
From S2P Require Import Prelude SkTypes AttrCodec TeeApi TaStorage.

Section Logic.
Context {W K : Type} `{HT : TEE W, HC : Crypto K, HL : !TEE_laws W K}.

Definition wps {A} (v : tview K) (m : st W A) (Q : A -> tview K -> Prop) : Prop :=
  forall w, view w = v -> exists a w', m w = Ret (a, w') /\ Q a (view w').

Lemma wps_bind {A B} v (m : st W A) (f : A -> st W B) Q :
  wps v m (fun a v' => wps v' (f a) Q) -> wps v (m ≫= f) Q.
Proof.
  intros Hm w Hv. destruct (Hm w Hv) as (a & w1 & E & HQ). destruct (HQ w1 eq_refl) as (b & w2 & E2 & HQ2).
  exists b, w2. unfold mbind, st_bind. by rewrite E.
Qed.
Lemma wps_ret {A} v (a : A) (Q : A -> tview K -> Prop) : Q a v -> wps v (mret a) Q.
Proof. intros HQ w <-. by exists a, w. Qed.
Lemma wps_lift {A} v (m : outcome A) a (Q : A -> tview K -> Prop) : m = Ret a -> Q a v -> wps v (lift m) Q.
Proof. intros -> HQ w <-. by exists a, w. Qed.
Lemma wps_mono {A} v (m : st W A) (P Q : A -> tview K -> Prop) :
  wps v m P -> (forall a v', P a v' -> Q a v') -> wps v m Q.
Proof. intros Hm HPQ w Hv. destruct (Hm w Hv) as (a & w' & E & HP). exists a, w'. eauto. Qed.

(** ** Rules of the operations *)

Lemma refuses_not_success res : refuses res -> res <> TEE_SUCCESS.
Proof. intros Hr. by destruct (refuses_error res Hr). Qed.
Lemma refuses_not_missing res : refuses res -> res <> TEE_ERROR_ITEM_NOT_FOUND.
Proof. intros Hr. by destruct (refuses_error res Hr). Qed.

(** The two outcomes of an operation. *)
Ltac outcomes E Hv := eexists _, _; (split; [exact E | rewrite Hv; auto using refuses_not_success]).

Lemma wps_malloc v n Q :
  (forall a, Z.land a 3 = 0 -> Q (Some a) v) -> (refuses TEE_ERROR_OUT_OF_MEMORY -> Q None v) ->
  wps v (TEE_Malloc n) Q.
Proof.
  intros H1 H2 w <-. destruct (malloc_law n w) as ([a|] & w' & E & Hv & Ha); outcomes E Hv.
Qed.
Lemma wps_free v a Q : Q tt v -> wps v (TEE_Free a) Q.
Proof. intros HQ w <-. destruct (free_law a w) as (w' & E & Hv). outcomes E Hv. Qed.

Lemma wps_open v id flags Q :
  (forall h, is_Some (v_store v !! id) -> fresh_handle h (v_open v) ->
     Q (TEE_SUCCESS, h) (with_open <[h := mkHandle id flags 0]> v)) ->
  (forall res, res <> TEE_SUCCESS ->
     refuses res \/ (res = TEE_ERROR_ITEM_NOT_FOUND /\ v_store v !! id = None) ->
     Q (res, TEE_HANDLE_NULL) v) ->
  wps v (TEE_OpenPersistentObject id flags) Q.
Proof.
  intros H1 H2 w <-. destruct (open_law id flags w) as (res & h & w' & E & [(-> & ? & ? & Hv) | (Hc & -> & Hv)]);
    outcomes E Hv. apply H2; [| done]. destruct Hc as [?|[-> _]]; [by apply refuses_not_success | done].
Qed.

(** Opening an object that is there. *)
Lemma wps_open_stored v id flags Q :
  is_Some (v_store v !! id) ->
  (forall h, fresh_handle h (v_open v) -> Q (TEE_SUCCESS, h) (with_open <[h := mkHandle id flags 0]> v)) ->
  (forall res, res <> TEE_SUCCESS -> refuses res -> Q (res, TEE_HANDLE_NULL) v) ->
  wps v (TEE_OpenPersistentObject id flags) Q.
Proof.
  intros [o Ho] H1 H2. apply wps_open; [auto |]. intros res Hres [Hr|[_ Hn]]; [auto |]. by rewrite Ho in Hn.
Qed.

Lemma wps_create v id flags attributes d Q :
  Z.land flags TEE_DATA_FLAG_OVERWRITE = 0 ->
  (attributes = TEE_HANDLE_NULL \/ exists t, v_trans v !! attributes = Some t /\ is_Some (t_key t)) ->
  (forall o, v_store v !! id = None -> po_data o = d ->
     (forall t, v_trans v !! attributes = Some t ->
        po_type o = t_type t /\ po_size o = t_size t /\ po_key o = t_key t) ->
     Q TEE_SUCCESS (with_store <[id := o]> v)) ->
  (forall res, res <> TEE_SUCCESS ->
     refuses res \/ (res = TEE_ERROR_ACCESS_CONFLICT /\ is_Some (v_store v !! id)) -> Q res v) ->
  wps v (TEE_CreatePersistentObject id flags attributes d) Q.
Proof.
  intros Hf Ha H1 H2 w <-. destruct (create_law id flags attributes d w Hf Ha)
    as (res & w' & E & [(-> & ? & o & Hv & ? & ?) | [Hc Hv]]); outcomes E Hv.
  apply H2; [| done]. destruct Hc as [?|[-> _]]; [by apply refuses_not_success | done].
Qed.

Lemma wps_close v h Q : is_Some (v_open v !! h) -> Q tt (with_open (delete h) v) -> wps v (TEE_CloseObject h) Q.
Proof. intros Hh HQ w <-. destruct (close_law h w Hh) as (w' & E & Hv). outcomes E Hv. Qed.

Lemma wps_delete v h x Q : v_open v !! h = Some x -> allows x TEE_DATA_FLAG_ACCESS_WRITE_META ->
  Q tt (with_store (delete (h_id x)) (with_open (delete h) v)) -> wps v (TEE_CloseAndDeletePersistentObject h) Q.
Proof. intros Ho Ha HQ w <-. destruct (delete_law h x w Ho Ha) as (w' & E & Hv). outcomes E Hv. Qed.

Lemma wps_info v h x o Q : v_open v !! h = Some x -> v_store v !! h_id x = Some o ->
  Q (TEE_SUCCESS, info o) v -> (forall res i, res <> TEE_SUCCESS -> refuses res -> Q (res, i) v) ->
  wps v (TEE_GetObjectInfo1 h) Q.
Proof.
  intros Ho Hs H1 H2 w <-. destruct (info_law h x o w Ho Hs) as (res & i & w' & E & Hv & [[-> ->] | Hr]);
    outcomes E Hv.
Qed.

Lemma wps_read v h x o n Q : v_open v !! h = Some x -> v_store v !! h_id x = Some o ->
  allows x TEE_DATA_FLAG_ACCESS_READ ->
  (forall d, d = take (Z.to_nat n) (drop (Z.to_nat (h_pos x)) (po_data o)) ->
     Q (TEE_SUCCESS, d) (with_open <[h := at_pos (h_pos x + Z.of_nat (length d)) x]> v)) ->
  (forall res, res <> TEE_SUCCESS -> refuses res -> Q (res, []) v) ->
  wps v (TEE_ReadObjectData h n) Q.
Proof.
  intros Ho Hs Ha H1 H2 w <-. destruct (read_law h x o n w Ho Hs Ha)
    as (res & d & w' & E & [(-> & ? & Hv) | (? & -> & Hv)]); outcomes E Hv.
Qed.

Lemma wps_write v h x o d Q : v_open v !! h = Some x -> v_store v !! h_id x = Some o ->
  allows x TEE_DATA_FLAG_ACCESS_WRITE ->
  Q TEE_SUCCESS (with_store <[h_id x := with_data (overwrite (po_data o) (h_pos x) d) o]>
                  (with_open <[h := at_pos (h_pos x + Z.of_nat (length d)) x]> v)) ->
  (forall res, res <> TEE_SUCCESS -> refuses res -> Q res v) ->
  wps v (TEE_WriteObjectData h d) Q.
Proof.
  intros Ho Hs Ha H1 H2 w <-. destruct (write_law h x o d w Ho Hs Ha) as (res & w' & E & [(-> & Hv) | (? & Hv)]);
    outcomes E Hv.
Qed.

Lemma wps_seek v h x off Q : v_open v !! h = Some x -> 0 <= off ->
  Q TEE_SUCCESS (with_open <[h := at_pos off x]> v) ->
  (forall res, res <> TEE_SUCCESS -> refuses res -> Q res v) ->
  wps v (TEE_SeekObjectData h off TEE_DATA_SEEK_SET) Q.
Proof.
  intros Ho Hoff H1 H2 w <-. destruct (seek_law h x off w Ho Hoff) as (res & w' & E & [(-> & Hv) | (? & Hv)]);
    outcomes E Hv.
Qed.

Lemma wps_enum_alloc v Q :
  (forall h, fresh_handle h (v_enum v) -> Q (TEE_SUCCESS, h) (with_enum <[h := []]> v)) ->
  (forall res, res <> TEE_SUCCESS -> refuses res -> Q (res, TEE_HANDLE_NULL) v) ->
  wps v TEE_AllocatePersistentObjectEnumerator Q.
Proof.
  intros H1 H2 w <-. destruct (enum_alloc_law w) as (res & h & w' & E & [(-> & ? & Hv) | (? & -> & Hv)]);
    outcomes E Hv.
Qed.

Lemma wps_enum_start v h Q : is_Some (v_enum v !! h) ->
  (forall ids, ids ≡ₚ (map_to_list (v_store v)).*1 -> Q TEE_SUCCESS (with_enum <[h := ids]> v)) ->
  (forall res, res <> TEE_SUCCESS ->
     refuses res \/ (res = TEE_ERROR_ITEM_NOT_FOUND /\ v_store v = ∅) -> Q res v) ->
  wps v (TEE_StartPersistentObjectEnumerator h) Q.
Proof.
  intros He H1 H2 w <-. destruct (enum_start_law h w He) as (res & w' & E & [(-> & ids & ? & Hv) | (Hc & Hv)]);
    outcomes E Hv. apply H2; [| done]. destruct Hc as [?|[-> _]]; [by apply refuses_not_success | done].
Qed.

Lemma wps_enum_next v h l Q : v_enum v !! h = Some l ->
  (forall id rest i, l = id :: rest -> (forall o, v_store v !! id = Some o -> i = info o) ->
     Q (TEE_SUCCESS, i, id) (with_enum <[h := rest]> v)) ->
  (forall res i id, res <> TEE_SUCCESS -> refuses res \/ (res = TEE_ERROR_ITEM_NOT_FOUND /\ l = []) ->
     Q (res, i, id) v) ->
  wps v (TEE_GetNextPersistentObject h) Q.
Proof.
  intros He H1 H2 w <-. destruct (enum_next_law h l w He)
    as (res & i & id & w' & E & [(rest & -> & ? & Hv & ?) | (Hc & Hv)]); outcomes E Hv.
  apply H2; [| done]. destruct Hc as [?|[-> _]]; [by apply refuses_not_success | done].
Qed.

Lemma wps_enum_free v h Q : is_Some (v_enum v !! h) -> Q tt (with_enum (delete h) v) ->
  wps v (TEE_FreePersistentObjectEnumerator h) Q.
Proof. intros Hh HQ w <-. destruct (enum_free_law h w Hh) as (w' & E & Hv). outcomes E Hv. Qed.

Lemma wps_trans_alloc v ty size Q :
  (forall h, fresh_handle h (v_trans v) -> Q (TEE_SUCCESS, h) (with_trans <[h := mkTobj ty size None]> v)) ->
  (forall res, res <> TEE_SUCCESS -> refuses res -> Q (res, TEE_HANDLE_NULL) v) ->
  wps v (TEE_AllocateTransientObject ty size) Q.
Proof.
  intros H1 H2 w <-.
  destruct (trans_alloc_law ty size w) as (res & h & w' & E & [(-> & ? & Hv) | (? & -> & Hv)]); outcomes E Hv.
Qed.

Lemma wps_populate v h t attrs k Q : v_trans v !! h = Some t -> t_key t = None ->
  populated (t_type t) (t_size t) attrs = Ret k ->
  (is_Some k -> Q TEE_SUCCESS (with_trans <[h := with_key k t]> v)) ->
  (forall res, res <> TEE_SUCCESS -> refuses res \/ (res = TEE_ERROR_BAD_PARAMETERS /\ k = None) -> Q res v) ->
  wps v (TEE_PopulateTransientObject h attrs) Q.
Proof.
  intros Ht Hn Hp H1 H2 w <-. destruct (populate_law h t attrs k w Ht Hn Hp)
    as (res & w' & E & [(-> & ? & Hv) | (Hc & Hv)]); outcomes E Hv.
  apply H2; [| done]. destruct Hc as [?|[-> _]]; [by apply refuses_not_success | done].
Qed.

Lemma wps_generate v h t size attrs Q : v_trans v !! h = Some t -> t_key t = None -> size <= t_size t ->
  (forall k, (t_type t = TEE_TYPE_RSA_KEYPAIR ->
      is_Some (key_attr k TEE_ATTR_RSA_MODULUS) /\ is_Some (key_attr k TEE_ATTR_RSA_PUBLIC_EXPONENT)) ->
     Q TEE_SUCCESS (with_trans <[h := with_key (Some k) t]> v)) ->
  (forall res, res <> TEE_SUCCESS -> refuses res -> Q res v) ->
  wps v (TEE_GenerateKey h size attrs) Q.
Proof.
  intros Ht Hn Hsz H1 H2 w <-. destruct (generate_law h t size attrs w Ht Hn Hsz)
    as (res & w' & E & [(-> & k & Hv & ?) | (? & Hv)]); outcomes E Hv.
Qed.

(** Operations with a sized output. *)
Lemma sized_outcome {A} (x : list Z) (n res : Z) (d : list Z) (v : A) (Q : Z * list Z -> A -> Prop) :
  (Z.of_nat (length x) <= n -> Q (TEE_SUCCESS, x) v) ->
  (forall res d, res <> TEE_SUCCESS ->
     refuses res \/ (res = TEE_ERROR_SHORT_BUFFER /\ n < Z.of_nat (length x)) -> Q (res, d) v) ->
  sized x n res d \/ refuses res -> Q (res, d) v.
Proof.
  intros H1 H2 [[(-> & -> & ?) | [-> ?]] | Hr]; [auto | apply H2; [done | by right] |].
  apply H2; [by apply refuses_not_success | by left].
Qed.

Lemma wps_buffer_attr v h t k id x n Q : v_trans v !! h = Some t -> t_key t = Some k ->
  key_attr k id = Some x ->
  (Z.of_nat (length x) <= n -> Q (TEE_SUCCESS, x) v) ->
  (forall res d, res <> TEE_SUCCESS ->
     refuses res \/ (res = TEE_ERROR_SHORT_BUFFER /\ n < Z.of_nat (length x)) -> Q (res, d) v) ->
  wps v (TEE_GetObjectBufferAttribute h id n) Q.
Proof.
  intros Ht Hk Hx H1 H2 w <-. destruct (buffer_attr_law h t k id x n w Ht Hk Hx) as (res & d & w' & E & Hv & Hd).
  exists (res, d), w'. split; [exact E |]. rewrite Hv. by eapply sized_outcome.
Qed.

Lemma wps_copy v dst t src x o Q :
  v_trans v !! dst = Some t -> v_open v !! src = Some x -> v_store v !! h_id x = Some o ->
  is_Some (po_key o) -> t_key t = None -> t_type t = po_type o -> po_size o <= t_size t ->
  Q TEE_SUCCESS (with_trans <[dst := with_key (po_key o) t]> v) ->
  (forall res, res <> TEE_SUCCESS -> refuses res -> Q res v) ->
  wps v (TEE_CopyObjectAttributes1 dst src) Q.
Proof.
  intros Ht Ho Hs Hk Hn Hty Hsz H1 H2 w <-. destruct (copy_law dst t src x o w Ht Ho Hs Hk Hn Hty Hsz)
    as (res & w' & E & [(-> & Hv) | (? & Hv)]); outcomes E Hv.
Qed.

Lemma wps_trans_free v h Q : is_Some (v_trans v !! h) -> Q tt (with_trans (delete h) v) ->
  wps v (TEE_FreeTransientObject h) Q.
Proof. intros Hh HQ w <-. destruct (trans_free_law h w Hh) as (w' & E & Hv). outcomes E Hv. Qed.

Lemma wps_op_alloc v alg mode size Q :
  (forall h, fresh_handle h (v_ops v) -> Q (TEE_SUCCESS, h) (with_ops <[h := mkOpSt alg mode size None]> v)) ->
  (forall res, res <> TEE_SUCCESS -> refuses res -> Q (res, TEE_HANDLE_NULL) v) ->
  wps v (TEE_AllocateOperation alg mode size) Q.
Proof.
  intros H1 H2 w <-.
  destruct (op_alloc_law alg mode size w) as (res & h & w' & E & [(-> & ? & Hv) | (? & -> & Hv)]); outcomes E Hv.
Qed.

Lemma wps_set_key v h op key t Q : v_ops v !! h = Some op -> v_trans v !! key = Some t ->
  is_Some (t_key t) -> t_size t <= op_max op ->
  Q TEE_SUCCESS (with_ops <[h := mkOpSt (op_alg op) (op_mode op) (op_max op) (t_key t)]> v) ->
  (forall res, res <> TEE_SUCCESS -> refuses res -> Q res v) ->
  wps v (TEE_SetOperationKey h key) Q.
Proof.
  intros Ho Ht Hk Hsz H1 H2 w <-. destruct (set_key_law h op key t w Ho Ht Hk Hsz)
    as (res & w' & E & [(-> & Hv) | (? & Hv)]); outcomes E Hv.
Qed.

Lemma wps_digest v h op d n Q : v_ops v !! h = Some op -> op_mode op = TEE_MODE_DIGEST ->
  (Z.of_nat (length (digest_of (op_alg op) d)) <= n -> Q (TEE_SUCCESS, digest_of (op_alg op) d) v) ->
  (forall res out, res <> TEE_SUCCESS -> refuses res \/
     (res = TEE_ERROR_SHORT_BUFFER /\ n < Z.of_nat (length (digest_of (op_alg op) d))) -> Q (res, out) v) ->
  wps v (TEE_DigestDoFinal h d n) Q.
Proof.
  intros Ho Hm H1 H2 w <-. destruct (digest_law h op d n w Ho Hm) as (res & out & w' & E & Hv & Hd).
  exists (res, out), w'. split; [exact E |]. rewrite Hv. by eapply sized_outcome.
Qed.

(** Why an operation on [x], the result it computes, fails. *)
Definition op_cause (x : option (list Z)) (n res : Z) : Prop :=
  refuses res \/ (res = TEE_ERROR_BAD_PARAMETERS /\ x = None) \/
  (res = TEE_ERROR_SHORT_BUFFER /\ exists s, x = Some s /\ n < Z.of_nat (length s)).

Lemma op_outcome {A} (x : option (list Z)) (n res : Z) (d : list Z) (v : A) (Q : Z * list Z -> A -> Prop) :
  (forall s, x = Some s -> Z.of_nat (length s) <= n -> Q (TEE_SUCCESS, s) v) ->
  (forall res d, res <> TEE_SUCCESS -> op_cause x n res -> Q (res, d) v) ->
  (exists s, x = Some s /\ sized s n res d) \/ refuses res \/ (res = TEE_ERROR_BAD_PARAMETERS /\ x = None) ->
  Q (res, d) v.
Proof.
  intros H1 H2 [(s & -> & Hs) | [Hr | [-> ->]]].
  - eapply sized_outcome; [by apply H1 | | by left]. intros res' d' Hn Hc. apply H2; [done |].
    unfold op_cause. destruct Hc as [?|[? ?]]; [by left | right; right; eauto].
  - apply H2; [by apply refuses_not_success | by left].
  - apply H2; [done |]. right. by left.
Qed.

Lemma wps_sign v h op k d n x Q : v_ops v !! h = Some op -> op_mode op = TEE_MODE_SIGN ->
  op_key op = Some k -> sign_of (op_alg op) k d = Ret x ->
  (forall s, x = Some s -> Z.of_nat (length s) <= n -> Q (TEE_SUCCESS, s) v) ->
  (forall res out, res <> TEE_SUCCESS -> op_cause x n res -> Q (res, out) v) ->
  wps v (TEE_AsymmetricSignDigest h d n) Q.
Proof.
  intros Ho Hm Hk Hx H1 H2 w <-. destruct (sign_law h op k d n x w Ho Hm Hk Hx) as (res & out & w' & E & Hv & Hd).
  exists (res, out), w'. split; [exact E |]. rewrite Hv. by eapply op_outcome.
Qed.

Lemma wps_decrypt v h op k d n x Q : v_ops v !! h = Some op -> op_mode op = TEE_MODE_DECRYPT ->
  op_key op = Some k -> decrypt_of (op_alg op) k d = Ret x ->
  (forall s, x = Some s -> Z.of_nat (length s) <= n -> Q (TEE_SUCCESS, s) v) ->
  (forall res out, res <> TEE_SUCCESS -> op_cause x n res -> Q (res, out) v) ->
  wps v (TEE_AsymmetricDecrypt h d n) Q.
Proof.
  intros Ho Hm Hk Hx H1 H2 w <-. destruct (decrypt_law h op k d n x w Ho Hm Hk Hx) as (res & out & w' & E & Hv & Hd).
  exists (res, out), w'. split; [exact E |]. rewrite Hv. by eapply op_outcome.
Qed.

Lemma wps_op_free v h Q : is_Some (v_ops v !! h) -> Q tt (with_ops (delete h) v) -> wps v (TEE_FreeOperation h) Q.
Proof. intros Hh HQ w <-. destruct (op_free_law h w Hh) as (w' & E & Hv). outcomes E Hv. Qed.

(** ** Helpers of the trusted application *)

Lemma wps_free_opt v p Q : Q tt v -> wps v (free_opt p) Q.
Proof. intros HQ. destruct p; [by apply wps_free | by apply wps_ret]. Qed.
Lemma wps_unless v h m Q :
  (h = TEE_HANDLE_NULL -> Q tt v) -> (h <> TEE_HANDLE_NULL -> wps v m Q) -> wps v (unless_null h m) Q.
Proof.
  intros H1 H2. unfold unless_null. destruct (h =? TEE_HANDLE_NULL) eqn:E; boolz;
    [apply wps_ret | ]; auto.
Qed.

End Logic.

(** Fresh handles and what closing them restores. *)
Lemma with_open_id {K} (v : tview K) h x : v_open v !! h = None ->
  with_open (delete h) (with_open <[h := x]> v) = v.
Proof. intros Hn. destruct v. unfold with_open. cbn in *. by rewrite delete_insert_id. Qed.
Lemma with_open_delete_insert {K} (v : tview K) h x :
  with_open (delete h) (with_open <[h := x]> v) = with_open (delete h) v.
Proof. unfold with_open. cbn. by rewrite delete_insert_eq. Qed.
Lemma with_open_insert_insert {K} (v : tview K) h x y :
  with_open <[h := x]> (with_open <[h := y]> v) = with_open <[h := x]> v.
Proof. unfold with_open. cbn. by rewrite insert_insert_eq. Qed.
Lemma with_trans_id {K} (v : tview K) h x : v_trans v !! h = None ->
  with_trans (delete h) (with_trans <[h := x]> v) = v.
Proof. intros Hn. destruct v. unfold with_trans. cbn in *. by rewrite delete_insert_id. Qed.
Lemma with_trans_insert_insert {K} (v : tview K) h x y :
  with_trans <[h := x]> (with_trans <[h := y]> v) = with_trans <[h := x]> v.
Proof. unfold with_trans. cbn. by rewrite insert_insert_eq. Qed.
Lemma with_ops_id {K} (v : tview K) h x : v_ops v !! h = None ->
  with_ops (delete h) (with_ops <[h := x]> v) = v.
Proof. intros Hn. destruct v. unfold with_ops. cbn in *. by rewrite delete_insert_id. Qed.
Lemma with_ops_insert_insert {K} (v : tview K) h x y :
  with_ops <[h := x]> (with_ops <[h := y]> v) = with_ops <[h := x]> v.
Proof. unfold with_ops. cbn. by rewrite insert_insert_eq. Qed.
Lemma with_enum_id {K} (v : tview K) h x : v_enum v !! h = None ->
  with_enum (delete h) (with_enum <[h := x]> v) = v.
Proof. intros Hn. destruct v. unfold with_enum. cbn in *. by rewrite delete_insert_id. Qed.
Lemma with_enum_insert_insert {K} (v : tview K) h x y :
  with_enum <[h := x]> (with_enum <[h := y]> v) = with_enum <[h := x]> v.
Proof. unfold with_enum. cbn. by rewrite insert_insert_eq. Qed.
