(* ===== verification/TaTheorems.v ===== *)
(** * Properties of the trusted application

    Proved against the laws of the TEE internal API ([TEE_laws]): the commands
    return, release every handle they open, change the storage exactly as their
    results say, and answer from what is stored. *)

From stdpp Require Import base numbers list gmap sets.
From S2P Require Import Prelude SkTypes AttrCodec Wires TeeApi TeeRam TaStorage TeeLogic.

Lemma neq_eqb a b : a <> b -> (a =? b) = false.
Proof. apply Z.eqb_neq. Qed.

(** Lookups in a view that was just updated: the handle is held, or holds what
    was put there. *)
Ltac held := cbn; rewrite ?lookup_insert_eq; by eexists.
Ltac view_lookup :=
  cbn [v_store v_open v_enum v_trans v_ops with_store with_open with_enum with_trans with_ops
       h_id h_flags h_pos at_pos t_key with_key op_mode op_key];
  rewrite ?lookup_insert_eq; done.

(** Takes one step of a program over the TEE: opens binds, finishes returns,
    releases what is held, and evaluates a test of a result code that is known. *)
Ltac wp_step :=
  match goal with
  | |- wps _ (_ ≫= _) _ => apply wps_bind
  | |- wps _ (mret _) _ => apply wps_ret
  | |- wps _ (free_opt _) _ => apply wps_free_opt
  | |- wps _ (TEE_Free _) _ => apply wps_free
  | |- wps _ (TEE_CloseObject _) _ => apply wps_close; [held |]
  | |- wps _ (TEE_FreeTransientObject _) _ => apply wps_trans_free; [held |]
  | |- wps _ (TEE_FreeOperation _) _ => apply wps_op_free; [held |]
  | |- wps _ (TEE_FreePersistentObjectEnumerator _) _ => apply wps_enum_free; [held |]
  | |- context [TEE_SUCCESS =? TEE_SUCCESS] => rewrite (Z.eqb_refl TEE_SUCCESS)
  | H : ?r <> TEE_SUCCESS |- context [?r =? TEE_SUCCESS] => rewrite (neq_eqb _ _ H)
  | H : ?h <> TEE_HANDLE_NULL |- wps _ (unless_null ?h _) _ =>
      apply wps_unless; [by intros ? | intros _]
  | |- wps _ (unless_null TEE_HANDLE_NULL _) _ => apply wps_unless; [intros _ | done]
  end; cbn beta iota.
Ltac wp := cbn [negb andb orb]; repeat (wp_step; cbn [negb andb orb]).

Lemma alter_at {A} (f : A -> A) (m : gmap (list Z) A) k x :
  m !! k = Some x -> alter f k m = <[k := f x]> m.
Proof.
  intros Hk. apply map_eq. intros j. destruct (decide (k = j)) as [<-|Hj].
  - by rewrite lookup_alter_eq, lookup_insert_eq, Hk.
  - by rewrite lookup_alter_ne, lookup_insert_ne.
Qed.

(** Without memory [unpack_sk_attrs] gives what it gives with memory, unless it
    reaches its allocation, which needs a readable count. *)
Lemma unpack_no_memory addr buf res refs :
  unpack_sk_attrs 64 true addr buf = Ret (res, refs) ->
  unpack_sk_attrs 64 false addr buf = Ret (res, refs) \/
  (unpack_sk_attrs 64 false addr buf = Ret (TEE_ERROR_OUT_OF_MEMORY, []) /\
   exists n, read_u32 buf 0 = Ret n).
Proof.
  unfold unpack_sk_attrs. intros E.
  repeat (case_match; [by left |]). destruct (read_u32 buf 0) as [n|]; [| done]. cbn in *.
  repeat (case_match; [by left |]). right. by eauto.
Qed.
Lemma unpack_no_oom addr buf refs :
  unpack_sk_attrs 64 true addr buf <> Ret (TEE_ERROR_OUT_OF_MEMORY, refs).
Proof.
  unfold unpack_sk_attrs. intros E. repeat (case_match; [discriminate E |]).
  destruct (read_u32 buf 0) as [n|]; [| done]. cbn [mbind outcome_bind] in E.
  repeat (case_match; [discriminate E |]). cbn [negb] in E.
  destruct (unpack_loop _ _ _ _ _) as [[l|]|]; discriminate E.
Qed.

Lemma mem_read_whole b : mem_read (Some b) (Z.of_nat (length b)) = Ret b.
Proof.
  unfold mem_read. destruct (_ =? 0) eqn:E; boolz.
  - by destruct b; [| len].
  - cbn. rewrite buf_read_ret by lia. by rewrite Nat2Z.id, drop_0, take_ge.
Qed.

(** A property of all elements of an explicit list. *)
Ltac forall_list :=
  repeat first [assumption | apply Forall_app_2 | apply Forall_cons_2 | apply Forall_nil_2].

Section Theorems.
Context {W K : Type} `{HT : TEE W, HC : Crypto K, HL : !TEE_laws W K}.

(** ** The identifier counter *)

(** The database object holds the next identifier [n]. *)
Definition counter (v : tview K) (n : Z) : Prop :=
  0 <= n < 2 ^ 32 /\ exists o, v_store v !! db_obj_id = Some o /\ po_data o = le_bytes 4 n.

(** The view with the counter advanced. *)
Definition advance (n : Z) (v : tview K) : tview K :=
  with_store (alter (with_data (le_bytes 4 (u32 (n + 1)))) db_obj_id) v.

Lemma overwrite_all old d : length d = length old -> overwrite old 0 d = d.
Proof. intros Hl. unfold overwrite. cbn. rewrite drop_ge by lia. by rewrite app_nil_r. Qed.

Lemma get_next_id_wps v n : counter v n ->
  wps v TA_GetNextObjectID (fun '(res, id) v' =>
    (res = TEE_SUCCESS /\ id = n /\ v' = advance n v) \/ (refuses res /\ v' = v)).
Proof.
  intros (Hn & o & Ho & Hd). unfold TA_GetNextObjectID. wp. apply wps_open_stored; [by eexists | |].
  2: { intros res Hres Hr. wp. by right. }
  intros h [Hh Hf]. wp. eapply wps_read; [view_lookup | exact Ho | done | |].
  2: { intros res Hres Hr. wp. change (Z.of_nat (length []) =? 4) with false. wp.
       right. split; [done |]. by apply with_open_id. }
  intros d Ed. rewrite Hd in Ed. cbn [Z.to_nat drop h_pos] in Ed.
  assert (d = le_bytes 4 n) as -> by (rewrite Ed; done). clear Ed. wp.
  assert (le_val (le_bytes 4 n) = n) as -> by (rewrite le_val_bytes; by apply Z.mod_small).
  rewrite with_open_insert_insert. eapply wps_seek; [view_lookup | lia | |].
  2: { intros res Hres Hr. wp. right. split; [done |]. by apply with_open_id. }
  wp. rewrite with_open_insert_insert. eapply wps_write; [view_lookup | exact Ho | done | |].
  2: { intros res Hres Hr. wp. right. split; [done |]. by apply with_open_id. }
  wp. left. split_and!; [done | done |]. rewrite with_open_insert_insert. cbn [h_pos h_id at_pos].
  rewrite overwrite_all by (rewrite Hd; done). destruct v as [vs vo ve vt vp]. cbn in *.
  unfold advance, with_store, with_open. cbn. f_equal; [| by apply delete_insert_id].
  by rewrite (alter_at _ vs db_obj_id o).
Qed.

(** With a database that holds the identifier [n], [TA_GetNextObjectID]
    returns [n] and leaves [n + 1] (modulo 2^32) in the database, unless the TEE
    refuses an operation, whose code it then returns with the storage as it was;
    either way its handle is closed. *)
Theorem ta_next_object_id_spec (w : W) (n : Z) :
  counter (view w) n ->
  exists res id w', TA_GetNextObjectID w = Ret ((res, id), w') /\
    ((res = TEE_SUCCESS /\ id = n /\ view w' = advance n (view w)) \/
     (refuses res /\ view w' = view w)).
Proof.
  intros Hn. destruct (get_next_id_wps (view w) n Hn w eq_refl) as ([res id] & w' & E & HQ).
  by exists res, id, w'.
Qed.

(** [TA_OpenDatabase] finds the database or creates it with the identifier 0. *)
Definition db_opened (v v' : tview K) : Prop :=
  (is_Some (v_store v !! db_obj_id) /\ v' = v) \/
  (v_store v !! db_obj_id = None /\ exists o, po_data o = le_bytes 4 0 /\ v' = with_store <[db_obj_id := o]> v).

Lemma open_database_wps v :
  wps v TA_OpenDatabase (fun res v' => (res = TEE_SUCCESS /\ db_opened v v') \/ (refuses res /\ v' = v)).
Proof.
  unfold TA_OpenDatabase, db_opened. wp. apply wps_open.
  - intros h Hs [Hh Hf]. wp. left. split; [done |]. left. split; [done |]. by apply with_open_id.
  - intros res Hres [Hr | [-> Hn]]; wp.
    + rewrite (proj2 (Z.eqb_neq _ _)) by (by apply refuses_not_missing). wp. by right.
    + change (TEE_ERROR_ITEM_NOT_FOUND =? TEE_ERROR_ITEM_NOT_FOUND) with true. wp.
      apply wps_create; [done | by left | |].
      * intros o _ Hd _. left. split; [done |]. right. split; [done |]. by exists o.
      * intros res Hres2 Hc. right. split; [| done]. destruct Hc as [? | [_ [o Ho]]]; [done | congruence].
Qed.

(** ** Unpacking and packing *)

Definition buffer_ok (buf : list Z) : Prop := Forall is_byte buf /\ Z.of_nat (length buf) < 2 ^ 32.

(** The routine succeeds, or its allocation fails. *)
Lemma unpack_ok_wps v addr buf refs (Q : Z * list sk_ref * option Z -> tview K -> Prop) :
  unpack_sk_attrs 64 true addr buf = Ret (TEE_SUCCESS, refs) ->
  (forall p, Q (TEE_SUCCESS, refs, p) v) ->
  (forall res, res <> TEE_SUCCESS -> refuses res -> Q (res, [], None) v) ->
  wps v (unpack addr buf) Q.
Proof.
  intros E H1 H2. unfold unpack.
  destruct (unpack_no_memory addr buf _ _ E) as [E0 | [E0 (n & En)]]; wp;
    (eapply wps_lift; [exact E0 |]); cbn beta iota.
  { change (TEE_SUCCESS =? TEE_ERROR_OUT_OF_MEMORY) with false. wp. apply H1. }
  change (TEE_ERROR_OUT_OF_MEMORY =? TEE_ERROR_OUT_OF_MEMORY) with true. wp.
  eapply wps_lift; [exact En |]. wp. apply wps_malloc; [intros a _ | intros Hr]; wp; [| by apply H2].
  eapply wps_lift; [exact E |]. wp. apply H1.
Qed.

(** Attributes [pack_sk_attrs] handles: those it serialises come first. *)
Definition packs (attrs : list SK_ATTRIBUTE) (data : list Z) : Prop :=
  pack_sk_attrs true attrs = Ret (TEE_SUCCESS, Some data).

Lemma pack_wps v attrs data (Q : Z * list Z * option Z -> tview K -> Prop) :
  packs attrs data ->
  (forall p, Q (TEE_SUCCESS, data, p) v) ->
  (forall res p, res <> TEE_SUCCESS -> refuses res -> Q (res, [], p) v) ->
  wps v (pack attrs) Q.
Proof.
  intros Hp H1 H2. unfold pack, packs in *. destruct attrs as [|x l]; [done |]. wp.
  apply wps_malloc; [intros a _ | intros Hr]; wp.
  - eapply wps_lift; [exact Hp |]. wp. apply H1.
  - unfold pack_sk_attrs. destruct (pack_size _ _ _) as [bl ap]. eapply wps_lift; [done |].
    wp. by apply H2.
Qed.

(** ** Creating objects *)

(** The attributes the code reads words through have a value of a word at
    least. *)
Definition words_given (ws : list wire) : Prop :=
  Forall (fun ty => forall w, find_wire ty ws = Some w -> 4 <= w_len w /\ is_Some (w_payload w))
    [SK_ATTR_OBJECT_TYPE; SK_ATTR_KEY_TYPE; SK_ATTR_MODULUS_BITS].

(** The word of an attribute, if there is one. *)
Definition word_of (ws : list wire) (ty : Z) : option Z :=
  w ← find_wire ty ws; v ← w_payload w; Some (le_val (take 4 v)).

(** Reading the word of the attribute of a type. *)
Lemma word_at_wire buf refs ws ty : ref_wire buf <$> refs = Ret <$> ws -> words_given ws ->
  ty ∈ [SK_ATTR_OBJECT_TYPE; SK_ATTR_KEY_TYPE; SK_ATTR_MODULUS_BITS] ->
  match TA_GetSKAttr ty refs with
  | None => word_of ws ty = None
  | Some r => exists w n, find_wire ty ws = Some w /\ ref_wire buf r = Ret w /\
      word_at buf r = Ret n /\ word_of ws ty = Some n
  end.
Proof.
  intros Er Hw Hty. pose proof (TA_GetSKAttr_wire buf refs ws ty Er) as HG. unfold word_of.
  destruct (TA_GetSKAttr ty refs) as [r|]; [| by rewrite HG].
  destruct HG as (w & Hf & _ & _ & Hr). unfold words_given in Hw. rewrite Forall_forall in Hw.
  destruct (Hw ty Hty w Hf) as (Hl & v & Ev). destruct (ref_wire_word _ _ _ _ Hr Ev Hl) as (p & Ep & En).
  exists w, (le_val (take 4 v)). rewrite Hf. cbn. rewrite Ev. split_and!; [done.. | | done].
  unfold word_at. by rewrite Ep.
Qed.

(** The attributes the TEE gets for the key parts of a request: a slot for each
    part of the table, of which as many as parts are there are passed. *)
Fixpoint part_slots (table : list (Z * Z)) (ws : list wire) : list TEE_Attribute * Z :=
  match table with
  | [] => ([], 0)
  | (sk, tee) :: rest =>
      let '(slots, cnt) := part_slots rest ws in
      match find_wire sk ws with
      | Some w => (mkTeeAttr tee (w_payload w) (w_len w) :: slots, cnt + 1)
      | None => (zero_attr :: slots, cnt)
      end
  end.
Definition key_parts (table : list (Z * Z)) (ws : list wire) : list TEE_Attribute :=
  let '(slots, cnt) := part_slots table ws in take (Z.to_nat cnt) slots.

Lemma init_ref_wire buf r w tee : ref_wire buf r = Ret w ->
  TEE_InitRefAttribute tee (sk_of_ref buf r) = mkTeeAttr tee (w_payload w) (w_len w).
Proof.
  unfold ref_wire, TEE_InitRefAttribute, sk_of_ref. intros E.
  destruct (r_value r) as [p|]; cbn in E; inv_ret; cbn; [| done].
  pose proof (buf_read_bounds _ _ _ _ Heqo). rewrite buf_read_ret in Heqo by lia. by injection Heqo as ->.
Qed.

Lemma fill_slots table buf refs ws : ref_wire buf <$> refs = Ret <$> ws ->
  fill_rsa_tee_attr table buf refs = part_slots table ws.
Proof.
  intros Er. induction table as [|[sk tee] rest IH]; cbn; [done |]. rewrite IH. destruct (part_slots rest ws).
  pose proof (TA_GetSKAttr_wire buf refs ws sk Er) as HG.
  destruct (TA_GetSKAttr sk refs) as [r|]; [| by rewrite HG].
  destruct HG as (w & -> & _ & _ & Hr). by rewrite (init_ref_wire _ _ _ _ Hr).
Qed.

(** They are the parts of the request in the order of the table, provided no part
    is missing before one that is there. *)
Lemma key_parts_prefix (t1 t2 : list (Z * Z)) ws :
  Forall (fun e => is_Some (find_wire e.1 ws)) t1 -> Forall (fun e => find_wire e.1 ws = None) t2 ->
  Forall2 (fun e x => exists w, find_wire e.1 ws = Some w /\ x = mkTeeAttr e.2 (w_payload w) (w_len w))
    t1 (key_parts (t1 ++ t2) ws).
Proof.
  intros H1 H2. unfold key_parts.
  assert (Hno : exists slots, part_slots t2 ws = (slots, 0)).
  { induction H2 as [|[sk tee] rest E _ [slots IH]]; cbn; [by eexists |]. rewrite IH. cbn in E. rewrite E. by eexists. }
  destruct Hno as [s2 E2].
  enough (exists l, Forall2 (fun e x => exists w, find_wire e.1 ws = Some w /\
            x = mkTeeAttr e.2 (w_payload w) (w_len w)) t1 l /\
          part_slots (t1 ++ t2) ws = (l ++ s2, Z.of_nat (length l))) as (l & HF & ->).
  { by rewrite Nat2Z.id, take_app_length. }
  induction H1 as [|[sk tee] rest [w E] _ (l & HF & IH)]; [by exists [] |].
  exists (mkTeeAttr tee (w_payload w) (w_len w) :: l). split; [constructor; [by exists w | done] |].
  cbn [app part_slots]. rewrite IH. cbn in E. rewrite E. cbn [app length]. f_equal. lia.
Qed.

(** The TEE object a request asks for: type, size and key parts.  Only RSA key
    pairs and public keys whose size is given can be created. *)
Definition requested (ws : list wire) : option (Z * Z * list TEE_Attribute) :=
  t ← word_of ws SK_ATTR_OBJECT_TYPE;
  k ← word_of ws SK_ATTR_KEY_TYPE;
  bits ← word_of ws SK_ATTR_MODULUS_BITS;
  if negb (k =? SKK_RSA) then None
  else if t =? SK_KEY_PAIR then Some (TEE_TYPE_RSA_KEYPAIR, bits, key_parts rsa_keypair_attrs ws)
  else if t =? SK_PUBLIC_KEY then Some (TEE_TYPE_RSA_PUBLIC_KEY, bits, key_parts rsa_pubkey_attrs ws)
  else None.

(** The key the TEE makes of it; [Undef] if it panics on the key parts. *)
Definition requested_key (ws : list wire) : outcome (option K) :=
  match requested ws with
  | None => Ret None
  | Some (ty, size, parts) => populated ty size parts
  end.

(** A request that asks for no object is refused for it. *)
Definition unsuitable (ws : list wire) (res : Z) : Prop :=
  (res = TEE_ERROR_BAD_PARAMETERS \/ res = TEE_ERROR_NOT_SUPPORTED) /\ requested ws = None.

Section Request.
Context (buf : list Z) (refs : list sk_ref) (ws : list wire).
Context (Er : ref_wire buf <$> refs = Ret <$> ws) (Hw : words_given ws).

Lemma rsa_object_wps v ty table :
  wps v (rsa_object ty table buf refs) (fun '(res, ts) v' => v' = v /\
    ((res = TEE_SUCCESS /\ word_of ws SK_ATTR_MODULUS_BITS = Some (ts_size ts) /\
      ts_type ts = ty /\ ts_attrs ts = key_parts table ws) \/
     (res <> TEE_SUCCESS /\ (refuses res \/
        (res = TEE_ERROR_BAD_PARAMETERS /\ word_of ws SK_ATTR_MODULUS_BITS = None))))).
Proof.
  unfold rsa_object, key_parts. pose proof (word_at_wire buf refs ws SK_ATTR_MODULUS_BITS Er Hw) as HG.
  destruct (TA_GetSKAttr _ refs) as [r|].
  2: { wp. split; [done |]. right. split; [done |]. right. split; [done |]. apply HG. set_solver. }
  destruct HG as (w & n & _ & _ & En & ->); [set_solver |]. wp. eapply wps_lift; [exact En |]. wp.
  rewrite (fill_slots table buf refs ws Er). destruct (part_slots table ws).
  apply wps_malloc; [intros a _ | intros Hr]; wp; (split; [done |]); [by left | right]. by split; [| left].
Qed.

(** A request refused as unsuitable. *)
Ltac refused_request :=
  wp; split; [done |]; right; split; [done |]; right; split; [by auto |]; repeat case_match; done.

Lemma object_type_wps v :
  wps v (TA_GetTEEObjectTypeAndAttr buf refs) (fun '(res, ts) v' => v' = v /\
    ((res = TEE_SUCCESS /\ requested ws = Some (ts_type ts, ts_size ts, ts_attrs ts)) \/
     (res <> TEE_SUCCESS /\ (refuses res \/ unsuitable ws res)))).
Proof.
  unfold TA_GetTEEObjectTypeAndAttr, unsuitable, requested.
  pose proof (word_at_wire buf refs ws SK_ATTR_OBJECT_TYPE Er Hw) as HG.
  destruct (TA_GetSKAttr SK_ATTR_OBJECT_TYPE refs) as [r|].
  2: { rewrite HG by set_solver. refused_request. }
  destruct HG as (w & n & _ & _ & En & ->); [set_solver |]. wp. eapply wps_lift; [exact En |].
  cbn [mbind option_bind]. pose proof (word_at_wire buf refs ws SK_ATTR_KEY_TYPE Er Hw) as HG.
  destruct (TA_GetSKAttr SK_ATTR_KEY_TYPE refs) as [r'|].
  2: { rewrite HG by set_solver. case_match; refused_request. }
  destruct HG as (w' & n' & _ & _ & En' & ->); [set_solver |]. cbn [mbind option_bind].
  destruct (n =? SK_KEY_PAIR) eqn:Ek; [| destruct (n =? SK_PUBLIC_KEY) eqn:Ep]; cbn [orb].
  3: { destruct (word_of ws SK_ATTR_MODULUS_BITS); refused_request. }
  all: wp; eapply wps_lift; [exact En' |]; destruct (n' =? SKK_RSA); cbn [negb].
  2, 4: destruct (n' =? SKK_EC), (word_of ws SK_ATTR_MODULUS_BITS); refused_request.
  all: eapply wps_mono; [by apply rsa_object_wps |]; intros [res ts] v' [-> HR]; split; [done |];
    destruct HR as [(-> & -> & <- & <-) | (Hres & [Hr | [-> ->]])]; by auto 10.
Qed.

End Request.

Lemma store_object_wps v n tObject t attrs data i a b ps out Q :
  counter v n -> packs attrs data -> ps !! i = Some (VParam a b) ->
  v_trans v !! tObject = Some t -> is_Some (t_key t) ->
  (forall res p, res <> TEE_SUCCESS -> refuses res -> wps v (out res p ps) Q) ->
  (forall res p, res <> TEE_SUCCESS ->
     refuses res \/ (res = TEE_ERROR_ACCESS_CONFLICT /\ is_Some (v_store v !! le_bytes 4 n)) ->
     wps (advance n v) (out res p ps) Q) ->
  (forall o p, v_store v !! le_bytes 4 n = None -> po_data o = data ->
     po_type o = t_type t -> po_size o = t_size t -> po_key o = t_key t ->
     wps (with_store <[le_bytes 4 n := o]> (advance n v)) (out TEE_SUCCESS p (<[i := VParam n b]> ps)) Q) ->
  wps v (store_object (W := W) tObject attrs i ps out) Q.
Proof.
  intros Hn Hp Hi Ht Hk H1 H2 H3. unfold store_object. wp. eapply pack_wps; [exact Hp | |].
  2: { intros res p Hres Hr. wp. by apply H1. }
  intros p. wp. eapply wps_mono; [by apply get_next_id_wps |].
  intros [res id] v' [(-> & -> & ->) | [Hr ->]].
  2: { pose proof (refuses_not_success _ Hr). wp. by apply H1. }
  assert (Hst : v_store (advance n v) !! le_bytes 4 n = v_store v !! le_bytes 4 n)
    by (unfold advance; cbn; by rewrite lookup_alter_ne).
  wp. apply wps_create; [done | right; by exists t | |]; rewrite Hst.
  2: { intros res Hres Hc. wp. by apply H2. }
  intros o Hnone Hd Hot. destruct (Hot t Ht) as (? & ? & ?). wp.
  eapply wps_lift; [unfold set_value_a, param_value; by rewrite Hi |]. by apply H3.
Qed.

(** A creation changed the storage only by advancing the counter. *)
Definition only_counter (n : Z) (v v' : tview K) : Prop := v' = v \/ v' = advance n v.

(** The object [o] was added under the identifier [n] and the counter
    advanced. *)
Definition object_added (n : Z) (o : pobj K) (v v' : tview K) : Prop :=
  v_store v !! le_bytes 4 n = None /\ v' = with_store <[le_bytes 4 n := o]> (advance n v).

(** A creation that failed, for the given cause or because the identifier is
    taken: parameters and objects are as they were. *)
Definition not_created (n : Z) (cause : Z -> Prop) (ps : list TEE_Param) (v : tview K)
    (r : Z * list TEE_Param) (v' : tview K) : Prop :=
  r.1 <> TEE_SUCCESS /\
  (cause r.1 \/ (r.1 = TEE_ERROR_ACCESS_CONFLICT /\ is_Some (v_store v !! le_bytes 4 n))) /\
  r.2 = ps /\ only_counter n v v'.

(** A creation that succeeded: it returns the counter's identifier, under which
    nothing was stored, and adds one object with the type, size and key given,
    whose data stream is one of [says]. *)
Definition created (n : Z) (i : nat) (b : Z) (ps : list TEE_Param) (ty size : Z) (k : K)
    (says : list Z -> Prop) (v : tview K) (r : Z * list TEE_Param) (v' : tview K) : Prop :=
  r = (TEE_SUCCESS, <[i := VParam n b]> ps) /\
  exists d, says d /\ object_added n (mkPobj ty size (Some k) d) v v'.

Definition create_types : Z :=
  TEE_PARAM_TYPES TEE_PARAM_TYPE_MEMREF_INPUT TEE_PARAM_TYPE_VALUE_OUTPUT
    TEE_PARAM_TYPE_NONE TEE_PARAM_TYPE_NONE.

(** Why a creation of a key from a request fails. *)
Definition creation_cause (k : option K) (res : Z) : Prop :=
  refuses res \/ (k = None /\ (res = TEE_ERROR_BAD_PARAMETERS \/ res = TEE_ERROR_NOT_SUPPORTED)).

(** The outcome of a creation from the request [ws], of which [k] is the key and
    [says] the data streams that may be stored. *)
Definition creation (n b : Z) (ps : list TEE_Param) (ws : list wire) (k : option K)
    (says : list Z -> Prop) (v : tview K) (r : Z * list TEE_Param) (v' : tview K) : Prop :=
  not_created n (creation_cause k) ps v r v' \/
  exists ty size parts key, requested ws = Some (ty, size, parts) /\ k = Some key /\
    created n 1 b ps ty size key says v r v'.

Lemma create_object_wps v n addr buf a b p2 p3 refs ws data k :
  counter v n -> unpack_sk_attrs 64 true addr buf = Ret (TEE_SUCCESS, refs) ->
  ref_wire buf <$> refs = Ret <$> ws -> words_given ws -> requested_key ws = Ret k ->
  packs (sk_of_ref buf <$> refs) data ->
  let ps := [MParam addr (Some buf) (Z.of_nat (length buf)); VParam a b; p2; p3] in
  wps v (TA_CreateObject create_types ps) (creation n b ps ws k (eq data) v).
Proof.
  intros Hn Hu Er Hw Hk Hp ps. unfold TA_CreateObject, creation, not_created, creation_cause.
  change (create_types =? _) with true. wp.
  eapply wps_lift; [done |]. wp. eapply wps_lift; [apply mem_read_whole |]. wp.
  eapply unpack_ok_wps; [exact Hu | |].
  2: { intros res Hres Hr. wp. left. split_and!; [done | by auto | done | by left]. }
  intros p. wp. eapply wps_mono; [by apply (object_type_wps buf refs ws) |]. unfold requested_key in Hk.
  intros [res ts] v' [-> [(-> & Hreq) | (Hres & Hc)]].
  2: { wp. left. split_and!; [done | | done | by left]. left. destruct Hc as [Hr | [Hr Hnone]]; [by left |].
       right. rewrite Hnone in Hk. injection Hk as <-. by split. }
  rewrite Hreq in Hk. wp. apply wps_trans_alloc.
  2: { intros res Hres Hr. wp. left. split_and!; [done | by auto | done | by left]. }
  intros h [Hh Hf]. wp. eapply wps_populate; [view_lookup | done | exact Hk | |].
  2: { intros res Hres Hc. wp. left. split_and!; [done | left | done | left; by apply with_trans_id].
       destruct Hc as [? | [-> ->]]; auto. }
  intros [key ->]. wp. rewrite with_trans_insert_insert.
  eapply store_object_wps; [exact Hn | exact Hp | reflexivity | view_lookup | by eexists | | |].
  - intros res q Hres Hr. wp. left. split_and!; [done | by auto | done | left; by apply with_trans_id].
  - intros res q Hres Hr. wp. left. split_and!; [done | | done | right].
    { destruct Hr; [left; by left | by right]. }
    unfold advance. destruct v. cbn in *. unfold with_trans. cbn. by rewrite delete_insert_id.
  - intros [oty osz ok od] q Hnone Hd Hty Hsz Hkey. cbn in Hd, Hty, Hsz, Hkey. subst. wp. right.
    eexists _, _, _, key. split_and!; [done | done |]. split; [done |]. exists data. split; [done |].
    split; [exact Hnone |]. unfold advance. destruct v. cbn in *. unfold with_trans, with_store. cbn.
    by rewrite delete_insert_id.
Qed.

(** What the trusted application packs of references to storable wires, those it
    serialises first. *)
Lemma refs_pack buf refs (pub priv : list wire) :
  ref_wire buf <$> refs = Ret <$> (pub ++ priv) -> Forall wire_ok pub -> Forall storable pub -> pub <> [] ->
  Forall (fun w => packable (w_type w) = true) pub -> Forall (fun w => packable (w_type w) = false) priv ->
  ent_id (Z.of_nat (length pub)) + wires_size pub < 2 ^ 32 ->
  exists data, packs (sk_of_ref buf <$> refs) data /\ encodes data pub.
Proof.
  intros Er Hok Hst Hne Hpub Hpriv Hsz. rewrite fmap_app in Er.
  assert (exists r1 r2, refs = r1 ++ r2 /\ ref_wire buf <$> r1 = Ret <$> pub /\ ref_wire buf <$> r2 = Ret <$> priv)
    as (r1 & r2 & -> & E1 & E2) by (apply fmap_app_inv in Er as (? & ? & ? & ? & ?); by eauto 10).
  pose proof (ta_wires_of_refs _ _ _ E1 Hst) as HTW. pose proof (refs_types _ _ _ E1) as HY1.
  pose proof (refs_types _ _ _ E2) as HY2.
  assert (Hl : length (sk_of_ref buf <$> r1) = length pub).
  { rewrite length_fmap. apply (f_equal length) in HY1. by rewrite !length_fmap in HY1. }
  destruct (pack_ta_encodes (sk_of_ref buf <$> r1) (sk_of_ref buf <$> r2)) as (data & Hp & _ & He).
  - by eapply refs_wf.
  - intros Hn. rewrite Hn in Hl. by destruct pub.
  - apply Forall_fmap. change (Forall ((fun ty => packable ty = true) ∘ r_type) r1).
    rewrite <- Forall_fmap, HY1. by apply Forall_fmap.
  - apply Forall_fmap. change (Forall ((fun ty => packable ty = false) ∘ r_type) r2).
    rewrite <- Forall_fmap, HY2. by apply Forall_fmap.
  - by rewrite Hl, HTW.
  - rewrite HTW in He. rewrite <- fmap_app in Hp. by exists data.
Qed.

(** C30: [TA_CreateObject] on a request whose serialisable attributes [pub] come
    first returns and releases every handle.  It succeeds unless the TEE refuses
    an operation, no key can be made of the request, or the identifier is taken.
    On success the identifier it returns is the counter's, no object had it, and
    the storage has exactly one more object: it has the type, size and key the
    request asks for, and its data stream decodes to exactly [pub], so the
    private key parts are not in it.  No other object changes, and on failure
    nothing but the counter does. *)
Theorem ta_create_object_spec (w : W) (n addr a b : Z) (buf : list Z) (refs : list sk_ref)
    (pub priv : list wire) (k : option K) (p2 p3 : TEE_Param) :
  counter (view w) n -> unpack_sk_attrs 64 true addr buf = Ret (TEE_SUCCESS, refs) ->
  ref_wire buf <$> refs = Ret <$> (pub ++ priv) -> words_given (pub ++ priv) ->
  requested_key (pub ++ priv) = Ret k ->
  Forall wire_ok pub -> Forall storable pub -> pub <> [] ->
  Forall (fun x => packable (w_type x) = true) pub -> Forall (fun x => packable (w_type x) = false) priv ->
  ent_id (Z.of_nat (length pub)) + wires_size pub < 2 ^ 32 ->
  let ps := [MParam addr (Some buf) (Z.of_nat (length buf)); VParam a b; p2; p3] in
  exists r w', TA_CreateObject create_types ps w = Ret (r, w') /\
    creation n b ps (pub ++ priv) k (fun d => encodes d pub) (view w) r (view w').
Proof.
  intros Hn Hu Er Hw Hk Hok Hst Hne Hpub Hpriv Hsz ps.
  destruct (refs_pack buf refs pub priv) as (data & Hp & He); [done.. |].
  destruct (create_object_wps (view w) n addr buf a b p2 p3 refs (pub ++ priv) data k Hn Hu Er Hw Hk Hp w eq_refl)
    as (r & w' & E & HQ). exists r, w'. split; [exact E |].
  destruct HQ as [HQ | (ty & size & parts & key & Hreq & -> & -> & d & <- & Ho)]; [by left | right].
  exists ty, size, parts, key. split_and!; [done | done |]. split; [done |]. by exists data.
Qed.

(** ** Erasing *)

Definition erase_types : Z :=
  TEE_PARAM_TYPES TEE_PARAM_TYPE_VALUE_INPUT TEE_PARAM_TYPE_NONE TEE_PARAM_TYPE_NONE TEE_PARAM_TYPE_NONE.

(** The outcome of erasing the object with an identifier. *)
Definition erased (id : Z) (v : tview K) (res : Z) (v' : tview K) : Prop :=
  (res = TEE_SUCCESS /\ is_Some (v_store v !! le_bytes 4 id) /\ v' = with_store (delete (le_bytes 4 id)) v) \/
  ((refuses res \/ (res = TEE_ERROR_ITEM_NOT_FOUND /\ v_store v !! le_bytes 4 id = None)) /\ v' = v).

Lemma erase_wps v id b rest :
  wps v (TA_EraseObject erase_types (VParam id b :: rest))
    (fun r v' => r.2 = VParam id b :: rest /\ erased id v r.1 v').
Proof.
  unfold TA_EraseObject. change (erase_types =? _) with true. wp. eapply wps_lift; [done |]. wp. apply wps_open.
  - intros h Hs [Hh Hf]. wp. eapply wps_delete; [view_lookup | done |]. wp. split; [done |]. left.
    split_and!; [done | done |]. by rewrite with_open_id.
  - intros res Hres Hc. wp. split; [done |]. by right.
Qed.

(** [TA_EraseObject] removes exactly the object with the given identifier
    and nothing else; it fails only if there is none or the TEE refuses, and the
    storage is then as it was.  The identifier database cannot be erased, since
    its identifier is longer than those the command takes. *)
Theorem ta_erase_object_spec (w : W) (id b : Z) (rest : list TEE_Param) :
  exists res w', TA_EraseObject erase_types (VParam id b :: rest) w = Ret ((res, VParam id b :: rest), w') /\
    v_store (view w') !! db_obj_id = v_store (view w) !! db_obj_id /\ erased id (view w) res (view w').
Proof.
  destruct (erase_wps (view w) id b rest w eq_refl) as ([res ps] & w' & E & Hp & HQ). cbn in Hp, HQ. subst ps.
  exists res, w'. split_and!; [exact E | | exact HQ].
  destruct HQ as [(_ & _ & ->) | [_ ->]]; [| done]. cbn. by rewrite lookup_delete_ne.
Qed.

(** ** Generating key pairs *)

(** A value of some bytes as an attribute. *)
Definition value_wire (ty : Z) (d : list Z) : wire :=
  mkWire ty (Z.of_nat (length d)) (match d with [] => None | _ => Some d end).

(** The attributes stored with a generated key: type and kind, the requested
    size, the modulus and exponent of the key, and index and label if given. *)
Definition generated (ws : list wire) (bits : wire) (md e : list Z) : list wire :=
  [value_wire SK_ATTR_OBJECT_TYPE (le_bytes 4 SK_KEY_PAIR); value_wire SK_ATTR_KEY_TYPE (le_bytes 4 SKK_RSA);
   bits; value_wire SK_ATTR_MODULUS md; value_wire SK_ATTR_PUBLIC_EXPONENT e] ++
  option_list (find_wire SK_ATTR_OBJECT_INDEX ws) ++ option_list (find_wire SK_ATTR_OBJECT_LABEL ws).

(** The array of attributes the code builds. *)
Definition generated_attrs (buf : list Z) (refs : list sk_ref) (bits : sk_ref) (md e : list Z) : list SK_ATTRIBUTE :=
  [mkSK SK_ATTR_OBJECT_TYPE (Some (le_bytes 4 SK_KEY_PAIR)) 4;
   mkSK SK_ATTR_KEY_TYPE (Some (le_bytes 4 SKK_RSA)) 4] ++
  [sk_of_ref buf bits] ++
  [mkSK SK_ATTR_MODULUS (Some (filled md)) (u16 (Z.of_nat (length md)))] ++
  [mkSK SK_ATTR_PUBLIC_EXPONENT (Some (filled e)) (u16 (Z.of_nat (length e)))] ++
  given SK_ATTR_OBJECT_INDEX buf refs ++ given SK_ATTR_OBJECT_LABEL buf refs.

Lemma filled_wire ty d : 0 <= ty < 2 ^ 32 -> Z.of_nat (length d) <= MAX_KEY_SIZE_BYTES ->
  sk_wf_ta (mkSK ty (Some (filled d)) (u16 (Z.of_nat (length d)))) /\
  ta_wire (mkSK ty (Some (filled d)) (u16 (Z.of_nat (length d)))) = value_wire ty d.
Proof.
  unfold MAX_KEY_SIZE_BYTES. intros Ht Hd. rewrite u16_small by lia. split.
  - split_and!; cbn; try lia. intros _. unfold filled. len.
  - unfold ta_wire, value_wire, payload_of, has_value. cbn. f_equal. rewrite i16_small by lia.
    destruct d as [|x d]; [done |]. rewrite (proj2 (Z.ltb_lt _ _)) by len. cbn [fmap option_fmap option_map].
    unfold filled. by rewrite Nat2Z.id, take_app_length.
Qed.

Lemma given_wire buf refs ws ty : ref_wire buf <$> refs = Ret <$> ws -> Forall wire_ok ws -> Forall storable ws ->
  packable ty = true ->
  Forall sk_wf_ta (given ty buf refs) /\ Forall (fun x => packable (sa_type x) = true) (given ty buf refs) /\
  ta_wire <$> given ty buf refs = option_list (find_wire ty ws).
Proof.
  intros Er Hok Hst Hp. unfold given. pose proof (TA_GetSKAttr_wire buf refs ws ty Er) as HG.
  destruct (TA_GetSKAttr ty refs) as [r|]; [| by rewrite HG].
  destruct HG as (w & -> & Hin & Ht & Hr). rewrite Forall_forall in Hok, Hst. cbn.
  destruct (ref_wire_type _ _ _ Hr) as [Hrt _]. split_and!.
  - constructor; [| done]. eapply ref_wire_wf; [exact Hr | by apply Hok].
  - constructor; [| done]. cbn. by rewrite Hrt, Ht.
  - by rewrite (ta_wire_of_ref _ _ _ Hr) by (by apply Hst).
Qed.

Lemma wires_size_le ws : Forall wire_ok ws -> wires_size ws <= 2 ^ 17 * Z.of_nat (length ws).
Proof.
  induction 1 as [|w ws Hw _ IH]; cbn [wires_size foldr length]; [lia |].
  assert (wire_size w <= 2 ^ 17); [| unfold wires_size in IH; lia].
  destruct Hw as (_ & Hl & _). unfold wire_size. destruct (w_payload w); [| lia].
  pose proof (ROUNDUP_4_bounds (w_len w)). lia.
Qed.

Lemma generated_packs buf refs ws bits wb md e :
  ref_wire buf <$> refs = Ret <$> ws -> Forall wire_ok ws -> Forall storable ws ->
  ref_wire buf bits = Ret wb -> find_wire SK_ATTR_MODULUS_BITS ws = Some wb ->
  wb ∈ ws -> w_type wb = SK_ATTR_MODULUS_BITS ->
  Z.of_nat (length md) <= MAX_KEY_SIZE_BYTES -> Z.of_nat (length e) <= MAX_KEY_SIZE_BYTES ->
  exists data, packs (generated_attrs buf refs bits md e) data /\ encodes data (generated ws wb md e).
Proof.
  intros Er Hok Hst Hb Hf Hin Ht Hm He.
  destruct (given_wire buf refs ws SK_ATTR_OBJECT_INDEX Er Hok Hst eq_refl) as (G1 & G2 & G3).
  destruct (given_wire buf refs ws SK_ATTR_OBJECT_LABEL Er Hok Hst eq_refl) as (G4 & G5 & G6).
  destruct (filled_wire SK_ATTR_MODULUS md ltac:(done) Hm) as [M1 M2].
  destruct (filled_wire SK_ATTR_PUBLIC_EXPONENT e ltac:(done) He) as [E1 E2].
  rewrite Forall_forall in Hok, Hst. pose proof (ref_wire_wf _ _ _ Hb (Hok _ Hin)) as Hbw.
  destruct (ref_wire_type _ _ _ Hb) as [Hbt _].
  assert (HTW : ta_wire <$> generated_attrs buf refs bits md e = generated ws wb md e).
  { unfold generated_attrs, generated. rewrite !fmap_app, G3, G6. cbn [fmap list_fmap app].
    by rewrite M2, E2, (ta_wire_of_ref _ _ _ Hb) by (by apply Hst). }
  assert (Hwf : Forall sk_wf_ta (generated_attrs buf refs bits md e)).
  { unfold generated_attrs. forall_list; decide_c. }
  assert (Hlen : (length (generated_attrs buf refs bits md e) <= 7)%nat).
  { unfold generated_attrs. apply (f_equal length) in G3, G6. rewrite !length_fmap in G3, G6.
    rewrite !length_app, G3, G6. cbn [length].
    destruct (find_wire SK_ATTR_OBJECT_INDEX ws), (find_wire SK_ATTR_OBJECT_LABEL ws); cbn; lia. }
  assert (Hwok : Forall wire_ok (ta_wire <$> generated_attrs buf refs bits md e)).
  { apply Forall_fmap. eapply Forall_impl; [exact Hwf | apply ta_wire_ok]. }
  pose proof (wires_size_le _ Hwok) as Hsz. rewrite length_fmap in Hsz.
  destruct (pack_ta_encodes (generated_attrs buf refs bits md e) []) as (data & Hp & _ & Hen);
    [done | discriminate | | done | |].
  - unfold generated_attrs. forall_list; try done. cbn. by rewrite Hbt, Ht.
  - unfold ent_id, sizeof_uint32, sizeof_attr_packed. lia.
  - rewrite app_nil_r in Hp. rewrite HTW in Hen. by exists data.
Qed.

(** Why a generation fails: the TEE refuses, no size is given, or a part of the
    generated key does not fit its buffer. *)
Definition generation_cause (ws : list wire) (res : Z) : Prop :=
  refuses res \/
  (res = TEE_ERROR_BAD_PARAMETERS /\ find_wire SK_ATTR_MODULUS_BITS ws = None) \/
  (res = TEE_ERROR_SHORT_BUFFER /\
   exists (k : K) id d, key_attr k id = Some d /\ MAX_KEY_SIZE_BYTES < Z.of_nat (length d)).

(** A generated key of the size [bits] says, with its modulus and public
    exponent. *)
Definition generated_key (ws : list wire) (bits : wire) (size : Z) (k : K) (md e : list Z) : Prop :=
  find_wire SK_ATTR_MODULUS_BITS ws = Some bits /\ word_of ws SK_ATTR_MODULUS_BITS = Some size /\
  key_attr k TEE_ATTR_RSA_MODULUS = Some md /\ key_attr k TEE_ATTR_RSA_PUBLIC_EXPONENT = Some e /\
  Z.of_nat (length md) <= MAX_KEY_SIZE_BYTES /\ Z.of_nat (length e) <= MAX_KEY_SIZE_BYTES.

(** What [TA_GenerateRSAKeyPair] leaves: a failure with no or a fresh transient
    object, or a fresh object with a key and the attributes of it. *)
Definition generation (buf : list Z) (refs : list sk_ref) (ws : list wire) (v : tview K)
    (r : Z * Z * list SK_ATTRIBUTE) (v' : tview K) : Prop :=
  let '(res, h, more) := r in
  (res <> TEE_SUCCESS /\ generation_cause ws res /\
     ((h = TEE_HANDLE_NULL /\ v' = v) \/
      (fresh_handle h (v_trans v) /\ exists t, v' = with_trans <[h := t]> v))) \/
  (res = TEE_SUCCESS /\ fresh_handle h (v_trans v) /\
   exists bits wb md e size k, generated_key ws wb size k md e /\ ref_wire buf bits = Ret wb /\
     v' = with_trans <[h := mkTobj TEE_TYPE_RSA_KEYPAIR size (Some k)]> v /\
     [mkSK SK_ATTR_OBJECT_TYPE (Some (le_bytes 4 SK_KEY_PAIR)) 4;
      mkSK SK_ATTR_KEY_TYPE (Some (le_bytes 4 SKK_RSA)) 4] ++ more = generated_attrs buf refs bits md e).

Lemma generate_rsa_wps v addr buf refs ws :
  unpack_sk_attrs 64 true addr buf = Ret (TEE_SUCCESS, refs) ->
  ref_wire buf <$> refs = Ret <$> ws -> words_given ws ->
  wps v (TA_GenerateRSAKeyPair addr buf) (generation buf refs ws v).
Proof.
  intros Hu Er Hw. unfold TA_GenerateRSAKeyPair, generation, generation_cause. wp.
  eapply unpack_ok_wps; [exact Hu | |].
  2: { intros res Hres Hr. wp. left. by auto 10. }
  intros p. wp. pose proof (TA_GetSKAttr_wire buf refs ws SK_ATTR_MODULUS_BITS Er) as HN.
  pose proof (word_at_wire buf refs ws SK_ATTR_MODULUS_BITS Er Hw) as HG.
  destruct (TA_GetSKAttr SK_ATTR_MODULUS_BITS refs) as [bits|].
  2: { wp. left. split_and!; [done | by auto | by left]. }
  destruct HG as (wb & n & Hf & Hb & En & Ew); [set_solver |]. wp. eapply wps_lift; [exact En |]. wp.
  apply wps_trans_alloc.
  2: { intros res Hres Hr. wp. left. by auto 10. }
  intros h Hfr. wp. eapply wps_generate; [view_lookup | done | done | |].
  2: { intros res Hres Hr. wp. left. split_and!; eauto. }
  intros k Hka. destruct Hka as [[md Hmd] [e He]]; [done |]. wp. rewrite with_trans_insert_insert.
  eapply wps_buffer_attr; [view_lookup | done | exact Hmd | |].
  2: { intros res d Hres Hc. wp. left. split_and!; [done | destruct Hc as [?|[-> ?]]; eauto 10 | eauto]. }
  intros Hml. wp. eapply wps_buffer_attr; [view_lookup | done | exact He | |].
  2: { intros res d Hres Hc. wp. left. split_and!; [done | destruct Hc as [?|[-> ?]]; eauto 10 | eauto]. }
  intros Hel. wp. right. split_and!; [done | by destruct Hfr.. |].
  exists bits, wb, md, e, n, k. split_and!; [done | done | done |]. unfold generated_attrs. by rewrite <- !app_assoc.
Qed.

Definition generate_types : Z :=
  TEE_PARAM_TYPES TEE_PARAM_TYPE_VALUE_INPUT TEE_PARAM_TYPE_MEMREF_INPUT
    TEE_PARAM_TYPE_VALUE_OUTPUT TEE_PARAM_TYPE_NONE.

(** The outcome of a generation from the request [ws]. *)
Definition key_generated (n b : Z) (ps : list TEE_Param) (ws : list wire) (v : tview K)
    (r : Z * list TEE_Param) (v' : tview K) : Prop :=
  not_created n (generation_cause ws) ps v r v' \/
  exists bits size k md e, generated_key ws bits size k md e /\
    created n 2 b ps TEE_TYPE_RSA_KEYPAIR size k (fun d => encodes d (generated ws bits md e)) v r v'.

Lemma generate_wps v n addr b0 a b buf refs ws p3 :
  counter v n -> unpack_sk_attrs 64 true addr buf = Ret (TEE_SUCCESS, refs) ->
  ref_wire buf <$> refs = Ret <$> ws -> words_given ws -> Forall wire_ok ws -> Forall storable ws ->
  let ps := [VParam SKM_RSA_PKCS_KEY_PAIR_GEN b0; MParam addr (Some buf) (Z.of_nat (length buf));
             VParam a b; p3] in
  wps v (TA_GenerateKeyPair generate_types ps) (key_generated n b ps ws v).
Proof.
  intros Hn Hu Er Hw Hok Hst ps. unfold key_generated.
  unfold TA_GenerateKeyPair, not_created. change (generate_types =? _) with true. wp. eapply wps_lift; [done |].
  cbn beta iota. rewrite Z.eqb_refl. wp. eapply wps_lift; [done |]. wp.
  eapply wps_lift; [apply mem_read_whole |]. wp.
  eapply wps_mono; [by apply (generate_rsa_wps v addr buf refs ws) |].
  intros [[res h] more] v' [(Hres & Hc & HF) | HS].
  { destruct HF as [[-> ->] | [[Hh Hf] (t & ->)]]; wp; left; (split_and!; [done | by left | done | left]); [done |].
    by apply with_trans_id. }
  destruct HS as (-> & [Hh Hf] & bits & wb & md & e & size & k & Hg & Hb & -> & Eg). wp. rewrite Eg.
  pose proof Hg as (Eb & _ & _ & _ & Hm & He). destruct (find_wire_in _ _ _ Eb) as [Hin Hty].
  destruct (generated_packs buf refs ws bits wb md e Er Hok Hst Hb Eb Hin Hty Hm He) as (data & Hp & Hen).
  eapply store_object_wps; [exact Hn | exact Hp | reflexivity | view_lookup | by eexists | | |].
  - intros res q Hres Hr. wp. left. split_and!; [done | left; by left | done | left; by apply with_trans_id].
  - intros res q Hres Hr. wp. left. split_and!; [done | | done | right].
    { destruct Hr; [left; by left | by right]. }
    unfold advance. destruct v. cbn in *. unfold with_trans. cbn. by rewrite delete_insert_id.
  - intros [oty osz ok od] q Hnone Hd Hoty Hsz Hkey. cbn in Hd, Hoty, Hsz, Hkey. subst. wp. right.
    exists wb, size, k, md, e. split; [done |]. split; [done |]. exists data. split; [done |].
    split; [exact Hnone |]. unfold advance. destruct v. cbn in *. unfold with_trans, with_store. cbn.
    by rewrite delete_insert_id.
Qed.

(** [TA_GenerateKeyPair] returns and releases every handle.  It succeeds
    unless the TEE refuses, the request gives no size, a part of the generated
    key exceeds its buffer or the identifier is taken.  On success it stored one
    new object under the counter's identifier, a key pair of the requested size,
    whose data stream decodes to the object and key type, the requested size, the
    modulus and public exponent of exactly that key, and index and label if they
    were given: nothing of the private key.  On failure the storage changed at
    most in the counter. *)
Theorem ta_generate_key_pair_spec (w : W) (n addr b0 a b : Z) (buf : list Z) (refs : list sk_ref)
    (ws : list wire) (p3 : TEE_Param) :
  counter (view w) n -> unpack_sk_attrs 64 true addr buf = Ret (TEE_SUCCESS, refs) ->
  ref_wire buf <$> refs = Ret <$> ws -> words_given ws -> Forall wire_ok ws -> Forall storable ws ->
  let ps := [VParam SKM_RSA_PKCS_KEY_PAIR_GEN b0; MParam addr (Some buf) (Z.of_nat (length buf));
             VParam a b; p3] in
  exists r w', TA_GenerateKeyPair generate_types ps w = Ret (r, w') /\
    key_generated n b ps ws (view w) r (view w').
Proof. intros Hn Hu Er Hw Hok Hst ps. by eapply generate_wps. Qed.

End Theorems.

(** ** Instances *)

(** A storage that holds the database with the identifier 5, and a key. *)
Definition demo_db : ram :=
  with_store (fun s => <[le_bytes 4 4 := mkPobj TEE_TYPE_RSA_KEYPAIR 2048 (Some []) []]>
                       (<[db_obj_id := mkPobj 0 0 None (le_bytes 4 5)]> s)) ram_empty.

Lemma demo_db_counter : counter (view demo_db) 5.
Proof. split; [lia |]. exists (mkPobj 0 0 None (le_bytes 4 5)). split; vm_compute; reflexivity. Qed.

Lemma ta_next_object_id_spec_witness :
  exists w', TA_GetNextObjectID demo_db = Ret ((TEE_SUCCESS, 5), w') /\ view w' = advance 5 (view demo_db).
Proof.
  destruct (ta_next_object_id_spec (K := ram_key) demo_db 5 demo_db_counter) as (res & id & w' & E & [H|H]).
  - destruct H as (-> & -> & Hv). by exists w'.
  - by destruct H as [[] _].
Defined.

Lemma ta_erase_object_spec_witness :
  exists w', TA_EraseObject erase_types [VParam 4 0] demo_db = Ret ((TEE_SUCCESS, [VParam 4 0]), w') /\
    view w' = with_store (delete (le_bytes 4 4)) (view demo_db).
Proof.
  destruct (ta_erase_object_spec (K := ram_key) demo_db 4 0 []) as (res & w' & E & _ & [H|H]).
  - destruct H as (-> & _ & Hv). by exists w'.
  - destruct H as [[[] | [_ H]] _]. vm_compute in H. discriminate H.
Defined.

(** A request to create a key pair: the public attributes, then the private
    exponent. *)
Definition demo_request : list Z :=
  match pack_attrs (Some (zeros 100)) 100
          (Some [mkSK SK_ATTR_OBJECT_TYPE (Some (le_bytes 4 SK_KEY_PAIR)) 4;
                 mkSK SK_ATTR_KEY_TYPE (Some (le_bytes 4 SKK_RSA)) 4;
                 mkSK SK_ATTR_MODULUS_BITS (Some (le_bytes 4 2048)) 4;
                 mkSK SK_ATTR_MODULUS (Some [193; 7]) 2;
                 mkSK SK_ATTR_PUBLIC_EXPONENT (Some [1; 0; 1]) 3;
                 mkSK SK_ATTR_PRIVATE_EXPONENT (Some [9; 9; 9]) 3]) 6 with
  | Ret (_, Some d) => d
  | _ => []
  end.
Definition demo_refs : list sk_ref :=
  [mkRef SK_ATTR_OBJECT_TYPE (Some 76) 4; mkRef SK_ATTR_KEY_TYPE (Some 80) 4;
   mkRef SK_ATTR_MODULUS_BITS (Some 84) 4; mkRef SK_ATTR_MODULUS (Some 88) 2;
   mkRef SK_ATTR_PUBLIC_EXPONENT (Some 92) 3; mkRef SK_ATTR_PRIVATE_EXPONENT (Some 96) 3].
Definition demo_pub : list wire :=
  [mkWire SK_ATTR_OBJECT_TYPE 4 (Some (le_bytes 4 SK_KEY_PAIR));
   mkWire SK_ATTR_KEY_TYPE 4 (Some (le_bytes 4 SKK_RSA));
   mkWire SK_ATTR_MODULUS_BITS 4 (Some (le_bytes 4 2048));
   mkWire SK_ATTR_MODULUS 2 (Some [193; 7]); mkWire SK_ATTR_PUBLIC_EXPONENT 3 (Some [1; 0; 1])].
Definition demo_priv : list wire := [mkWire SK_ATTR_PRIVATE_EXPONENT 3 (Some [9; 9; 9])].

(** The key the TEE makes of it. *)
Definition demo_key : ram_key :=
  [mkTeeAttr TEE_ATTR_RSA_MODULUS (Some [193; 7]) 2; mkTeeAttr TEE_ATTR_RSA_PUBLIC_EXPONENT (Some [1; 0; 1]) 3;
   mkTeeAttr TEE_ATTR_RSA_PRIVATE_EXPONENT (Some [9; 9; 9]) 3].

Lemma demo_words_given : words_given (demo_pub ++ demo_priv).
Proof. repeat constructor; vm_compute in H; injection H as <-; cbn; try lia; eexists; reflexivity. Qed.

Lemma ta_create_object_spec_witness :
  let ps := [MParam 4096 (Some demo_request) (Z.of_nat (length demo_request)); VParam 0 0; NParam; NParam] in
  exists r w' d, TA_CreateObject create_types ps demo_db = Ret (r, w') /\
    r = (TEE_SUCCESS, <[1%nat := VParam 5 0]> ps) /\ encodes d demo_pub /\
    v_store w' !! le_bytes 4 5 = Some (mkPobj TEE_TYPE_RSA_KEYPAIR 2048 (Some demo_key) d).
Proof.
  intros ps.
  destruct (ta_create_object_spec (K := ram_key) demo_db 5 4096 0 0 demo_request demo_refs demo_pub demo_priv
    (Some demo_key) NParam NParam) as (r & w' & E & H).
  - exact demo_db_counter.
  - vm_compute. reflexivity.
  - vm_compute. reflexivity.
  - exact demo_words_given.
  - vm_compute. reflexivity.
  - repeat constructor; vm_compute; congruence.
  - repeat constructor.
  - discriminate.
  - repeat constructor.
  - repeat constructor.
  - vm_compute. reflexivity.
  - destruct H as [(_ & [[[] | [H _]] | [_ [o H]]] & _) | (ty & size & parts & key & Hr & Hk & -> & d & Hd & _ & Hv)].
    + discriminate H.
    + vm_compute in H. discriminate H.
    + exists (TEE_SUCCESS, <[1%nat := VParam 5 0]> ps), w', d. split; [exact E |]. split; [reflexivity |].
      split; [exact Hd |]. injection Hk as <-. vm_compute in Hr. injection Hr as <- <- _.
      change (v_store (view w') !! le_bytes 4 5 = Some (mkPobj TEE_TYPE_RSA_KEYPAIR 2048 (Some demo_key) d)).
      rewrite Hv. apply lookup_insert_eq.
Defined.

Lemma ta_generate_key_pair_spec_witness :
  let ps := [VParam SKM_RSA_PKCS_KEY_PAIR_GEN 0;
             MParam 4096 (Some demo_request) (Z.of_nat (length demo_request)); VParam 0 0; NParam] in
  exists r w', TA_GenerateKeyPair generate_types ps demo_db = Ret (r, w') /\ r.1 = TEE_SUCCESS /\
    is_Some (v_store w' !! le_bytes 4 5).
Proof.
  intros ps.
  destruct (ta_generate_key_pair_spec (K := ram_key) demo_db 5 4096 0 0 0 demo_request demo_refs
    (demo_pub ++ demo_priv) NParam) as (r & w' & E & _).
  - exact demo_db_counter.
  - vm_compute. reflexivity.
  - vm_compute. reflexivity.
  - exact demo_words_given.
  - repeat constructor; vm_compute; congruence.
  - repeat constructor.
  - exists r, w'. split; [exact E |]. vm_compute in E. injection E as <- <-. split; [reflexivity |].
    eexists. vm_compute. reflexivity.
Defined.
