(* ===== verification/TaQueryTheorems.v ===== *)
(** * Attribute queries of the trusted application

    [TA_GetObjectAttributes] unpacks the requests from the shared buffer, looks
    each up in the object's data stream, writes the values through the request
    pointers, that is into the shared buffer, and packs the requests over the
    same buffer.  The theorem says what the client reads there. *)

From stdpp Require Import base numbers list gmap sets.
From S2P Require Import Prelude SkTypes AttrCodec Wires TeeApi TaStorage TeeLogic TeeRam TaTheorems.

(** ** The answer to a request *)

(** What the client finds in place of its request [x], whose value points into
    [buf]: the request unchanged when the object has no such attribute, the
    length alone when no buffer was given, the length 65535 when the buffer is
    too short, and otherwise the stored attribute. *)
Definition answer (ws : list wire) (buf : list Z) (x : sk_ref) : wire :=
  match find_wire (r_type x) ws with
  | None => ta_wire (sk_of_ref buf x)
  | Some m =>
      match r_value x with
      | None => mkWire (r_type x) (w_len m) None
      | Some _ => if r_valueLen x <? w_len m then mkWire (r_type x) (u16 (-1)) None else m
      end
  end.

(** The error a request adds, if any; the last one counts. *)
Definition request_error (ws : list wire) (x : sk_ref) : option Z :=
  match find_wire (r_type x) ws with
  | None => Some TEE_ERROR_BAD_PARAMETERS
  | Some m =>
      match r_value x with
      | None => None
      | Some _ => if r_valueLen x <? w_len m then Some TEE_ERROR_SHORT_BUFFER else None
      end
  end.
Definition query_status (ws : list wire) (refs : list sk_ref) (acc : Z) : Z :=
  foldl (fun r x => default r (request_error ws x)) acc refs.

(** ** The loop *)

(** The region of the request [x] has the same bytes in both buffers. *)
Definition same_region (x : sk_ref) (b b' : list Z) : Prop :=
  length b' = length b /\
  forall p, r_value x = Some p -> buf_read b' p (r_valueLen x) = buf_read b p (r_valueLen x).

(** A request reads as the bytes of its region. *)
Lemma ta_wire_same_region x b b' : ref_in b x -> same_region x b b' ->
  ta_wire (sk_of_ref b' x) = ta_wire (sk_of_ref b x).
Proof.
  unfold ref_in, ta_wire, sk_of_ref, payload_of, has_value. intros (Hl & _ & Hv) [Hlen Hr]. cbn.
  destruct (r_value x) as [p|]; cbn; [| done]. specialize (Hr p eq_refl).
  rewrite !buf_read_ret in Hr by lia. injection Hr as ->. done.
Qed.

Lemma answer_same_region ws x b b' : ref_in b x -> same_region x b b' -> answer ws b' x = answer ws b x.
Proof.
  intros Hx Hs. unfold answer. destruct (find_wire _ _); [done |]. by apply ta_wire_same_region.
Qed.

(** What one round gives: an answer that stays readable as long as the region of
    the request does not change. *)
Definition round_ok (ws : list wire) (x : sk_ref) (buf buf1 : list Z) (x' : sk_ref) : Prop :=
  length buf1 = length buf /\ r_type x' = r_type x /\
  (forall o n, apart o n x -> buf_read buf1 o n = buf_read buf o n) /\
  forall b, same_region x buf1 b ->
    sk_wf_ta (sk_of_ref b x') /\ ta_wire (sk_of_ref b x') = answer ws buf x.

Lemma query_one_found data r m buf x p (acc : Z) :
  ref_in buf x -> r_value x = Some p -> ref_wire data r = Ret m -> wire_full m -> wire_ok m ->
  w_type m = r_type x -> w_len m <= r_valueLen x ->
  exists buf1,
    (v ← mem_read (sa_value (sk_of_ref data r)) (r_valueLen r);
     buf' ← buf_write buf p v;
     Ret (buf', mkRef (r_type x) (Some p) (r_valueLen r), acc)) =
      Ret (buf1, mkRef (r_type x) (Some p) (r_valueLen r), acc) /\
    length buf1 = length buf /\
    (forall o n, apart o n x -> buf_read buf1 o n = buf_read buf o n) /\
    forall b, same_region x buf1 b ->
      sk_wf_ta (sk_of_ref b (mkRef (r_type x) (Some p) (r_valueLen r))) /\
      ta_wire (sk_of_ref b (mkRef (r_type x) (Some p) (r_valueLen r))) = m.
Proof.
  intros Hx Ep Hr Hf Hok Ht Hle. pose proof Hx as (Hl & Hty & Hp). rewrite Ep in Hp.
  rewrite (ref_wire_read _ _ _ Hr (wire_full_null _ Hf)). destruct (ref_wire_type _ _ _ Hr) as [_ ->].
  cbn [mbind outcome_bind]. destruct Hok as (_ & Hml & Hpl).
  assert (Hlen : Z.of_nat (length (default [] (w_payload m))) = w_len m).
  { unfold wire_full in Hf. destruct (w_payload m) as [v|]; cbn; [done | lia]. }
  destruct (buf_write_ok buf p (default [] (w_payload m))) as (b1 & -> & L1 & R1 & F1); [lia.. |].
  exists b1. split_and!; [done | done | |].
  - intros o n Ha. unfold apart in Ha. rewrite Ep in Ha. apply F1. lia.
  - intros b [Lb Rb]. specialize (Rb p Ep). rewrite Hlen in R1. split.
    { split_and!; cbn; try lia. intros _. len. }
    destruct m as [mt ml mp]. cbn in *; subst mt; unfold wire_full in Hf. cbn in Hf.
    unfold ta_wire, sk_of_ref, payload_of, has_value. cbn. f_equal.
    destruct mp as [v|]; cbn in *; [| subst ml; done].
    rewrite i16_small, (proj2 (Z.ltb_lt _ _)) by lia. f_equal.
    rewrite !buf_read_ret in Rb by lia. injection Rb as Rb. rewrite buf_read_ret in R1 by lia.
    injection R1 as R1.
    replace (Z.to_nat ml) with (Z.to_nat ml `min` Z.to_nat (r_valueLen x))%nat by lia.
    rewrite <- take_take, Rb, take_take. rewrite <- R1. f_equal. lia.
Qed.

Lemma query_one_ok data orefs ws buf x acc :
  ref_wire data <$> orefs = Ret <$> ws -> Forall wire_ok ws -> Forall wire_full ws -> ref_in buf x ->
  exists buf1 x', query_one data orefs buf x acc
      = Ret (buf1, x', default acc (request_error ws x)) /\ round_ok ws x buf buf1 x'.
Proof.
  intros Ho Hok Hf Hx. pose proof (TA_GetSKAttr_wire data orefs ws (r_type x) Ho) as HG.
  pose proof Hx as (Hl & Hty & Hp). unfold query_one, request_error, round_ok, answer.
  destruct (TA_GetSKAttr (r_type x) orefs) as [r|]; [destruct HG as (m & -> & Hin & Ht & Hr) | rewrite HG].
  2: { exists buf, x. split_and!; try done. intros b [Lb Rb]. split.
       - apply sk_of_ref_wf. unfold ref_in. by rewrite Lb.
       - by apply ta_wire_same_region. }
  rewrite Forall_forall in Hok, Hf. destruct (ref_wire_type _ _ _ Hr) as [_ Hrl].
  destruct (Hok m Hin) as (_ & Hml & _).
  destruct (r_value x) as [p|] eqn:Ep.
  - rewrite Hrl. destruct (r_valueLen x <? w_len m) eqn:El; boolz.
    + eexists buf, _. split; [done |]. split_and!; done.
    + rewrite <- Hrl. destruct (query_one_found data r m buf x p acc) as (b1 & -> & L & F & A); auto.
      by eexists b1, _.
  - eexists buf, _. split; [done |]. split_and!; try done. intros b _. rewrite <- Hrl. split.
    + split_and!; cbn; try done; lia.
    + unfold ta_wire, sk_of_ref, payload_of, has_value. done.
Qed.

(** The whole loop: the requests afterwards read as the answers, and bytes
    outside all request regions are as before. *)
Lemma query_loop_ok data orefs ws : ref_wire data <$> orefs = Ret <$> ws ->
  Forall wire_ok ws -> Forall wire_full ws ->
  forall refs buf acc, Forall (ref_in buf) refs -> disjoint_refs refs ->
  exists buf' refs', query_loop data orefs buf refs acc = Ret (buf', refs', query_status ws refs acc) /\
    length buf' = length buf /\ r_type <$> refs' = r_type <$> refs /\
    (forall o n, Forall (apart o n) refs -> buf_read buf' o n = buf_read buf o n) /\
    Forall sk_wf_ta (sk_of_ref buf' <$> refs') /\
    ta_wire <$> (sk_of_ref buf' <$> refs') = answer ws buf <$> refs.
Proof.
  intros Ho Hok Hf. induction refs as [|x rest IH]; intros buf acc Hin Hdis.
  { exists buf, []. split_and!; done. }
  inversion Hin as [|? ? Hx Hrest]; subst. destruct Hdis as [Hxd Hdis].
  destruct (query_one_ok data orefs ws buf x acc Ho Hok Hf Hx) as (b1 & x' & E1 & L1 & T1 & F1 & A1).
  destruct (IH b1 (default acc (request_error ws x))) as (b2 & rest' & E2 & L2 & T2 & F2 & W2 & A2); [| done |].
  { eapply Forall_impl; [exact Hrest |]. intros y. unfold ref_in. by rewrite L1. }
  assert (Hsx : same_region x b1 b2).
  { split; [done |]. intros p Hp. rewrite Hp in Hxd. by apply F2. }
  destruct (A1 b2 Hsx) as [Wx Ax].
  exists b2, (x' :: rest'). cbn [query_loop]. rewrite E1. cbn [mbind outcome_bind]. rewrite E2.
  cbn [mbind outcome_bind fmap list_fmap]. split_and!.
  - done.
  - lia.
  - by rewrite T1, T2.
  - intros o n Hap. inversion Hap; subst. rewrite F2, F1; done.
  - by constructor.
  - rewrite Ax, A2. f_equal. apply list_fmap_ext. intros i y Hy.
    apply answer_same_region; [by eapply Forall_lookup_1 |]. split; [done |].
    intros q Hq. apply F1. unfold apart. destruct (r_value x) as [p|]; [| done].
    eapply Forall_lookup_1 in Hxd; [| exact Hy]. unfold apart in Hxd. rewrite Hq in Hxd. lia.
Qed.

(** An encoding followed by other bytes is one. *)
Lemma buf_read_app b t o n v : buf_read b o n = Ret v -> buf_read (b ++ t) o n = Ret v.
Proof.
  intros E. pose proof (buf_read_bounds _ _ _ _ E). rewrite buf_read_ret in E |- * by len.
  injection E as <-. f_equal. rewrite drop_app_le by lia. by rewrite take_app_le by len.
Qed.

Lemma encodes_app b t ws : encodes b ws -> Z.of_nat (length (b ++ t)) < 2 ^ 32 -> encodes (b ++ t) ws.
Proof.
  assert (HR : forall o x, read_u32 b o = Ret x -> read_u32 (b ++ t) o = Ret x).
  { unfold read_u32. intros o x E. destruct (buf_read b o 4) eqn:Eb; [| done].
    by rewrite (buf_read_app _ _ _ _ _ Eb). }
  assert (HE : forall ws i o, encoded b ws i o -> encoded (b ++ t) ws i o).
  { induction ws0 as [|x rest IH]; intros i o; cbn [encoded]; [done |].
    intros (H1 & H2 & H3 & H4). split_and!; [by apply HR | by apply HR | | by apply IH].
    destruct (w_payload x); [destruct H3; split; [by apply HR | by apply buf_read_app] | by apply HR]. }
  intros (H1 & H2 & H3 & H4 & H5 & H6) Hl. split_and!; auto. len.
Qed.

Section Query.
Context {W K : Type} `{HT : TEE W, HC : Crypto K, HL : !TEE_laws W K}.

Lemma read_data_wps v h x o (Q : Z * list Z * Z * option Z -> tview K -> Prop) :
  v_open v !! h = Some x -> v_store v !! h_id x = Some o -> allows x TEE_DATA_FLAG_ACCESS_READ -> h_pos x = 0 ->
  (forall res d n, res <> TEE_SUCCESS -> refuses res -> Q (res, d, n, None) v) ->
  (forall res d a, res <> TEE_SUCCESS -> refuses res -> Q (res, d, 0, Some a) v) ->
  (forall a, Z.land a 3 = 0 -> let n := Z.of_nat (length (po_data o)) in
     Q (TEE_SUCCESS, po_data o, n, Some a) (with_open <[h := at_pos n x]> v)) ->
  wps v (read_data h (Z.of_nat (length (po_data o)))) Q.
Proof.
  intros Ho Hs Ha H0 H1 H2 H3. unfold read_data. wp. apply wps_malloc; [intros a Hal | intros Hr]; wp; [| by apply H1].
  eapply wps_read; [exact Ho | exact Hs | exact Ha | |].
  - intros d ->. wp. rewrite H0, Nat2Z.id. cbn [Z.to_nat]. rewrite drop_0, take_ge by lia.
    rewrite Z.sub_diag. cbn [zeros Z.to_nat replicate]. rewrite app_nil_r. by apply H3.
  - intros res Hres Hr. wp. by apply H2.
Qed.

Lemma unpack_object_wps v a data ws (Q : Z * list sk_ref * option Z -> tview K -> Prop) :
  encodes data ws -> Z.land a 3 = 0 ->
  (forall refs p, ref_wire data <$> refs = Ret <$> ws -> Q (TEE_SUCCESS, refs, p) v) ->
  (forall res refs p, res <> TEE_SUCCESS -> refuses res -> Q (res, refs, p) v) ->
  wps v (unpack_object a data (Z.of_nat (length data))) Q.
Proof.
  intros He Ha H1 H2. pose proof He as (_ & _ & Hn & _).
  destruct (encodes_unpack data a ws Ha He) as (refs & Eu & Er).
  unfold unpack_object. wp. eapply wps_lift; [exact Hn |]. wp.
  apply wps_malloc; [intros b _ | intros Hr]; wp; [| by apply H2]. rewrite Nat2Z.id, take_ge by lia.
  eapply unpack_ok_wps; [exact Eu | |].
  - intros p. wp. by apply H1.
  - intros res Hres Hr. wp. by apply H2.
Qed.

Definition query_types : Z :=
  TEE_PARAM_TYPES TEE_PARAM_TYPE_VALUE_INPUT TEE_PARAM_TYPE_MEMREF_INOUT
    TEE_PARAM_TYPE_NONE TEE_PARAM_TYPE_NONE.

(** The outcome of a query that got as far as answering: the status of the
    requests, and a buffer of the same length that encodes the answers. *)
Definition answered (ws : list wire) (buf : list Z) (refs : list sk_ref) (addr : Z)
    (ps : list TEE_Param) (r : Z * list TEE_Param) : Prop :=
  r.1 = query_status ws refs TEE_SUCCESS /\
  exists out, r.2 = <[1%nat := MParam addr (Some out) (Z.of_nat (length buf))]> ps /\
    length out = length buf /\ encodes out (answer ws buf <$> refs).

Lemma query_wps v id b addr buf refs o ws p2 p3 :
  Forall (ref_in buf) refs -> Z.of_nat (length buf) < 2 ^ 32 -> unpack_sk_attrs 64 true addr buf = Ret (TEE_SUCCESS, refs) -> refs <> [] ->
  Forall (fun r => packable (r_type r) = true) refs -> disjoint_refs refs ->
  ent_id (Z.of_nat (length refs)) + wires_size (answer ws buf <$> refs) <= Z.of_nat (length buf) ->
  v_store v !! le_bytes 4 id = Some o -> encodes (po_data o) ws -> Forall wire_full ws ->
  let ps := [VParam id b; MParam addr (Some buf) (Z.of_nat (length buf)); p2; p3] in
  wps v (TA_GetObjectAttributes query_types ps)
    (fun r v' => v' = v /\ (refuses r.1 \/ answered ws buf refs addr ps r)).
Proof.
  intros Hin Hb Hu Hne Hpk Hdis Hfit Hs Henc Hfull ps. unfold TA_GetObjectAttributes.
  change (query_types =? _) with true. wp.
  eapply wps_lift; [done |]. wp. eapply wps_lift; [apply mem_read_whole |]. wp.
  eapply unpack_ok_wps; [exact Hu | |].
  2: { intros res Hres Hr. wp. split; [done | by left]. }
  intros p. wp. eapply wps_lift; [done |]. wp. apply wps_open_stored; [by eexists | |].
  2: { intros res Hres Hr. wp. split; [done | by left]. }
  intros h [Hh Hf]. wp. eapply wps_info; [view_lookup | exact Hs | |].
  2: { intros res i Hres Hr. wp. split; [by apply with_open_id | by left]. }
  wp. cbn [dataSize info]. eapply read_data_wps; [view_lookup | exact Hs | done | done | | |].
  { intros res d n Hres Hr. wp. split; [by apply with_open_id | by left]. }
  { intros res d a Hres Hr. wp. split; [by apply with_open_id | by left]. }
  intros a Ha. cbn zeta. rewrite with_open_insert_insert. wp. rewrite Z.eqb_refl. wp.
  eapply unpack_object_wps; [exact Henc | exact Ha | |].
  2: { intros res rs q Hres Hr. wp. split; [by apply with_open_id | by left]. }
  intros orefs q Hor. wp. pose proof Henc as (_ & Hok & _).
  destruct (query_loop_ok _ _ _ Hor Hok Hfull refs buf TEE_SUCCESS Hin Hdis)
    as (buf' & refs' & E & L & T & _ & Wf & A).
  eapply wps_lift; [exact E |]. wp.
  destruct (pack_ta_encodes (sk_of_ref buf' <$> refs') []) as (data & Hp & Hlen & He); [done | | | done | |].
  { intros Hn. apply Hne. apply (f_equal length) in T. apply (f_equal length) in Hn.
    rewrite !length_fmap in *. destruct refs; [done |]. cbn in *. lia. }
  { apply Forall_fmap. change (Forall ((fun ty => packable ty = true) ∘ r_type) refs').
    rewrite <- Forall_fmap, T. by apply Forall_fmap. }
  { rewrite A, length_fmap. apply (f_equal length) in T. rewrite !length_fmap in T. rewrite T.
    lia. }
  rewrite A in Hlen, He. apply (f_equal length) in T. rewrite !length_fmap in *. rewrite T in Hlen.
  eapply pack_wps; [rewrite app_nil_r in Hp; exact Hp | |].
  2: { intros res z Hres Hr. wp. split; [by apply with_open_id | by left]. }
  intros z. wp. rewrite (proj2 (Z.ltb_ge _ _)) by lia. wp.
  unfold written. cbn [fmap option_fmap option_map]. rewrite L, drop_ge, app_nil_r by lia.
  eapply wps_lift; [apply mem_store_ok; lia |]. wp. split; [by apply with_open_id |]. right.
  split; [cbn [fst]; by destruct (_ =? _) eqn:Eq; boolz |]. eexists. split; [done |].
  split; [len | apply encodes_app; [done | len]].
Qed.

(** A query for an object that is not there. *)
Lemma query_missing_wps v id b addr buf refs p2 p3 :
  unpack_sk_attrs 64 true addr buf = Ret (TEE_SUCCESS, refs) -> v_store v !! le_bytes 4 id = None ->
  let ps := [VParam id b; MParam addr (Some buf) (Z.of_nat (length buf)); p2; p3] in
  wps v (TA_GetObjectAttributes query_types ps)
    (fun r v' => v' = v /\ (refuses r.1 \/ r.1 = TEE_ERROR_ITEM_NOT_FOUND)).
Proof.
  intros Hu Hs ps. unfold TA_GetObjectAttributes. change (query_types =? _) with true. wp.
  eapply wps_lift; [done |]. wp. eapply wps_lift; [apply mem_read_whole |]. wp.
  eapply unpack_ok_wps; [exact Hu | |].
  2: { intros res Hres Hr. wp. split; [done | by left]. }
  intros p. wp. eapply wps_lift; [done |]. wp. apply wps_open.
  - intros h [o Ho]. congruence.
  - intros res Hres [Hr | [-> _]]; wp; (split; [done |]); [by left | by right].
Qed.

(** [TA_GetObjectAttributes] on requests for serialisable attributes whose
    buffers do not overlap returns, leaves the storage and every handle as they
    were, and unless the TEE refuses an operation answers: the buffer then encodes, for each request
    in order, the stored attribute, its length alone if no buffer was given, the
    length 65535 if the buffer was too short, or the request itself if the object
    has no such attribute, and the result code is that of the last request that
    was not satisfied. *)
Theorem ta_get_attributes_spec (w : W) (id b addr : Z) (buf : list Z) (refs : list sk_ref)
    (o : pobj K) (ws : list wire) (p2 p3 : TEE_Param) :
  buffer_ok buf -> unpack_sk_attrs 64 true addr buf = Ret (TEE_SUCCESS, refs) -> refs <> [] ->
  Forall (fun r => packable (r_type r) = true) refs -> disjoint_refs refs ->
  ent_id (Z.of_nat (length refs)) + wires_size (answer ws buf <$> refs) <= Z.of_nat (length buf) ->
  v_store (view w) !! le_bytes 4 id = Some o -> encodes (po_data o) ws -> Forall wire_full ws ->
  let ps := [VParam id b; MParam addr (Some buf) (Z.of_nat (length buf)); p2; p3] in
  exists r w', TA_GetObjectAttributes query_types ps w = Ret (r, w') /\ view w' = view w /\
    (refuses r.1 \/ answered ws buf refs addr ps r).
Proof.
  intros [Hb Hl] Hu Hne Hpk Hdis Hfit Hs Henc Hfull ps.
  destruct (unpack_total true addr buf Hb Hl) as (res & refs0 & E & _ & Hin). rewrite Hu in E. injection E as <- <-.
  apply (query_wps (view w) id b addr buf refs o ws p2 p3); done.
Qed.

End Query.

(** ** Instances *)

(** The object data a key pair with the label [l] has. *)
Definition demo_stored : list SK_ATTRIBUTE :=
  [mkSK SK_ATTR_OBJECT_TYPE (Some (le_bytes 4 SK_KEY_PAIR)) 4;
   mkSK SK_ATTR_OBJECT_LABEL (Some [107; 49]) 2].
Definition demo_data : list Z :=
  match pack_sk_attrs true demo_stored with Ret (_, Some d) => d | _ => [] end.
Definition demo_object : pobj ram_key := mkPobj TEE_TYPE_RSA_KEYPAIR 2048 (Some []) demo_data.
Definition demo_storage : ram :=
  with_store (fun s => <[le_bytes 4 5 := demo_object]> (<[db_obj_id := mkPobj 0 0 None (le_bytes 4 6)]> s)) ram_empty.

(** A query for the label, with a buffer of four bytes, and the type, without. *)
Definition demo_query : list Z :=
  match pack_attrs (Some (zeros 32)) 32
          (Some [mkSK SK_ATTR_OBJECT_LABEL (Some (zeros 4)) 4; mkSK SK_ATTR_OBJECT_TYPE None 0]) 2 with
  | Ret (_, Some d) => d
  | _ => []
  end.
Definition demo_query_refs : list sk_ref :=
  [mkRef SK_ATTR_OBJECT_LABEL (Some 28) 4; mkRef SK_ATTR_OBJECT_TYPE None 0].

Lemma demo_data_encodes : encodes demo_data (ta_wire <$> demo_stored).
Proof.
  destruct (pack_ta_encodes demo_stored []) as (d & E & _ & He);
    [decide_c | discriminate | repeat constructor.. | vm_compute; reflexivity |].
  vm_compute in E. injection E as <-. exact He.
Qed.

Lemma ta_get_attributes_spec_witness :
  let ps := [VParam 5 0; MParam 4096 (Some demo_query) (Z.of_nat (length demo_query)); NParam; NParam] in
  exists r w', TA_GetObjectAttributes query_types ps demo_storage = Ret (r, w') /\
    answered (ta_wire <$> demo_stored) demo_query demo_query_refs 4096 ps r.
Proof.
  intros ps.
  destruct (ta_get_attributes_spec (K := ram_key) demo_storage 5 0 4096 demo_query demo_query_refs demo_object
    (ta_wire <$> demo_stored) NParam NParam) as (r & w' & E & _ & [[] | H]).
  - split; [decide_c | vm_compute; reflexivity].
  - vm_compute. reflexivity.
  - discriminate.
  - repeat constructor.
  - repeat constructor.
  - vm_compute. discriminate.
  - vm_compute. reflexivity.
  - apply demo_data_encodes.
  - repeat constructor; vm_compute; intuition congruence.
  - exists r, w'. split; [exact E | exact H].
Defined.
