(* ===== verification/TaFindTheorems.v ===== *)
(** * Search in the trusted application

    [TA_FindObjects] enumerates the private storage and writes the identifiers
    of the objects that match the template to the output memory, at most as many
    as fit.  The theorems say which identifiers those are, that the loops end,
    and that the search changes nothing. *)

From stdpp Require Import base numbers list gmap sets.
From S2P Require Import Prelude SkTypes AttrCodec Wires TeeApi TeeRam TaStorage TeeLogic TaTheorems.
From S2P Require Import TaQueryTheorems.

(** The array of handles after the identifiers [l] were stored from index [cnt]. *)
Definition stored_ids (obj : list Z) (cnt : Z) (l : list (list Z)) : list Z :=
  splice obj (4 * Z.to_nat cnt) (concat l).

Definition is_id (id : list Z) : Prop := length id = 4%nat.
#[export] Instance is_id_dec id : Decision (is_id id).
Proof. unfold is_id. apply _. Defined.

Lemma length_concat_ids l : Forall is_id l -> length (concat l) = (4 * length l)%nat.
Proof. induction 1 as [|id l Hid _ IH]; cbn [concat length]; [done |]. rewrite length_app, IH, Hid. lia. Qed.

(** Storing one identifier, then more. *)
Lemma stored_ids_cons obj cnt id l : is_id id -> Forall is_id l -> 0 <= cnt ->
  4 * (cnt + 1 + Z.of_nat (length l)) <= Z.of_nat (length obj) ->
  exists obj1, buf_write obj (4 * cnt) id = Ret obj1 /\ length obj1 = length obj /\
    stored_ids obj1 (cnt + 1) l = stored_ids obj cnt (id :: l).
Proof.
  intros Hid Hl Hc Hlen. unfold is_id in Hid. pose proof (length_concat_ids l Hl) as HL.
  exists (splice obj (Z.to_nat (4 * cnt)) id). rewrite buf_write_ret by lia. split_and!; [done | |].
  - apply length_splice. lia.
  - unfold stored_ids. cbn [concat]. replace (Z.to_nat (4 * cnt)) with (4 * Z.to_nat cnt)%nat by lia.
    rewrite <- splice_adjacent by lia. f_equal. lia.
Qed.

Lemma encodes_length b ws : encodes b ws -> 4 <= Z.of_nat (length b).
Proof.
  intros (_ & Hok & _ & _ & Hl & _). pose proof (wires_size_nonneg ws Hok).
  unfold ent_id, sizeof_uint32, sizeof_attr_packed in Hl. lia.
Qed.

Section Find.
Context {W K : Type} `{HT : TEE W, HC : Crypto K, HL : !TEE_laws W K}.

(** How a search loop that started with [cnt] of [max] handles in [obj] ends when
    the identifiers still to come that qualify are [ids]: the TEE refused, or the
    first of them that fit are stored. *)
Definition searched (h : Z) (ids : list (list Z)) (obj : list Z) (cnt max : Z) (v : tview K)
    (r : Z * list Z * Z) (v' : tview K) : Prop :=
  let '(res, obj', cnt') := r in
  (exists rest, v' = with_enum <[h := rest]> v) /\
  (((res = TEE_SUCCESS \/ res = TEE_ERROR_ITEM_NOT_FOUND) /\
    let l := take (Z.to_nat (max - cnt)) ids in
    obj' = stored_ids obj cnt l /\ cnt' = cnt + Z.of_nat (length l)) \/
   refuses res).

Lemma with_enum_same (v : tview K) h l : v_enum v !! h = Some l -> v = with_enum <[h := l]> v.
Proof. intros Hl. destruct v. unfold with_enum. cbn in *. by rewrite insert_id. Qed.

Lemma searched_end h obj cnt max v res l :
  v_enum v !! h = Some l -> refuses res \/ (res = TEE_ERROR_ITEM_NOT_FOUND /\ l = []) ->
  forall ids, (l = [] -> ids = []) -> searched h ids obj cnt max v (res, obj, cnt) v.
Proof.
  intros Hl Hc ids Hids. split; [exists l; by apply with_enum_same |].
  destruct Hc as [Hr | [-> Hnil]]; [by right | left].
  split; [by right |]. rewrite Hids by done. rewrite take_nil. cbn [length].
  unfold stored_ids. cbn [concat]. rewrite splice_nil. split; [done | lia].
Qed.

(** The same after the enumerator moved past an identifier. *)
Lemma searched_skip h ids obj cnt max v rest r v' :
  searched h ids obj cnt max (with_enum <[h := rest]> v) r v' -> searched h ids obj cnt max v r v'.
Proof.
  destruct r as [[res obj'] cnt']. intros [(k & ->) HR]. split; [| exact HR].
  exists k. by rewrite with_enum_insert_insert.
Qed.

(** An identifier is stored, and it was the last that fits. *)
Lemma searched_last h id ids obj obj1 cnt max v rest :
  is_id id -> 0 <= cnt < max -> max <= cnt + 1 -> 4 * max <= Z.of_nat (length obj) ->
  buf_write obj (4 * cnt) id = Ret obj1 ->
  searched h (id :: ids) obj cnt max v (TEE_SUCCESS, obj1, cnt + 1) (with_enum <[h := rest]> v).
Proof.
  intros Hid Hc Hm Hl Hw. split; [by eexists |]. left. split; [by left |].
  replace (Z.to_nat (max - cnt)) with 1%nat by lia. cbn [take length].
  destruct (stored_ids_cons obj cnt id [] Hid) as (o & E & _ & HS); [done | lia | cbn; lia |].
  rewrite E in Hw. injection Hw as ->. rewrite take_0, <- HS. unfold stored_ids. cbn [concat length].
  rewrite splice_nil. split; [done | lia].
Qed.

(** An identifier is stored and the search goes on. *)
Lemma searched_more h id ids obj obj1 cnt max v rest r v' :
  is_id id -> Forall is_id ids -> 0 <= cnt < max -> 4 * max <= Z.of_nat (length obj) ->
  buf_write obj (4 * cnt) id = Ret obj1 ->
  searched h ids obj1 (cnt + 1) max (with_enum <[h := rest]> v) r v' ->
  searched h (id :: ids) obj cnt max v r v'.
Proof.
  intros Hid Hids Hc Hl Hw. destruct r as [[res obj'] cnt']. intros [(k & ->) HR].
  split; [exists k; by rewrite with_enum_insert_insert |].
  destruct HR as [[Hr [-> ->]] | HR]; [left | by right]. split; [done |].
  replace (Z.to_nat (max - cnt)) with (S (Z.to_nat (max - (cnt + 1)))) by lia. cbn [take length].
  set (l := take (Z.to_nat (max - (cnt + 1))) ids).
  assert (Hln : (length l <= Z.to_nat (max - (cnt + 1)))%nat) by (subst l; rewrite length_take; lia).
  destruct (stored_ids_cons obj cnt id l Hid) as (o & E & _ & HS);
    [subst l; by apply Forall_take | lia | lia |].
  rewrite E in Hw. injection Hw as ->. rewrite HS. split; [done | lia].
Qed.

(** ** All objects *)

Lemma find_all_loop_wps h max ids : forall fuel v obj_id obj cnt,
  v_enum v !! h = Some ids -> (length ids < fuel)%nat -> 0 <= cnt < max ->
  4 * max <= Z.of_nat (length obj) ->
  wps v (find_all_loop fuel h obj_id obj cnt max) (searched h (filter is_id ids) obj cnt max v).
Proof.
  induction ids as [|id ids IH]; intros fuel v obj_id obj cnt Hi Hfuel Hc Hl;
    (destruct fuel as [|fuel]; [cbn in Hfuel; lia |]); cbn [find_all_loop]; wp;
    (eapply wps_enum_next; [exact Hi | |]);
    try (intros res i id' Hres Hc0; wp; eapply searched_end; [exact Hi | exact Hc0 | by intros [=]]).
  - intros id rest i [=].
  - intros id' rest i [= -> ->] _. wp. cbn [length] in Hfuel.
    assert (Hin : v_enum (with_enum <[h := rest]> v) !! h = Some rest) by view_lookup.
    destruct (decide (is_id id')) as [Hid|Hid].
    + rewrite filter_cons_True by done. change (Z.of_nat (length id') =? 4) with (Z.of_nat (length id') =? Z.of_nat 4).
      rewrite (proj2 (Z.eqb_eq _ _)) by (unfold is_id in Hid; lia). wp.
      assert (Ht : take 4 (id_buffer obj_id id') = id').
      { unfold id_buffer. by rewrite take_app_length' by (by unfold is_id in Hid). }
      destruct (stored_ids_cons obj cnt id' [] Hid) as (obj1 & E & L1 & _); [done | lia | cbn; lia |].
      eapply wps_lift; [rewrite Ht; exact E |]. destruct (max <=? cnt + 1) eqn:Em; boolz.
      * wp. by eapply searched_last.
      * eapply wps_mono; [apply IH; [done | lia | lia | by rewrite L1] |].
        intros r v' HR. eapply searched_more; try done. apply Forall_forall. by intros x [? _]%list_elem_of_filter.
    + rewrite filter_cons_False by done. rewrite (proj2 (Z.eqb_neq _ _)) by (unfold is_id in Hid; lia). wp.
      eapply wps_mono; [apply IH; [done | lia | done | done] |]. intros r v'. apply searched_skip.
Qed.
(** ** Objects that match a template *)

(** A template attribute occurs in the object with the same length and bytes. *)
Definition wire_in (ws : list wire) (x : wire) : bool :=
  match find_wire (w_type x) ws with
  | None => false
  | Some w => (w_len x =? w_len w) && bool_decide (default [] (w_payload x) = default [] (w_payload w))
  end.
Definition template_in (ws txs : list wire) : bool := forallb (wire_in ws) txs.

(** A null value has length zero. *)
Definition null_ok (w : wire) : Prop := w_payload w = None -> w_len w = 0.

Lemma match_loop_ok buf data orefs ws : ref_wire data <$> orefs = Ret <$> ws -> Forall null_ok ws ->
  forall refs txs m, ref_wire buf <$> refs = Ret <$> txs -> Forall null_ok txs ->
  match_loop buf refs data orefs m =
    Ret (if template_in ws txs then match txs with [] => m | _ => 1 end else 0).
Proof.
  intros Ho Hf. induction refs as [|x refs IH]; intros [|tx txs] m E Ht; try discriminate E; [done |].
  cbn in E. injection E as Ex Er. inversion Ht as [|? ? Hx Hxs]; subst.
  cbn [match_loop template_in forallb]. unfold wire_in at 1.
  destruct (ref_wire_type _ _ _ Ex) as [Hty Hlen].
  pose proof (TA_GetSKAttr_wire data orefs ws (r_type x) Ho) as HG. rewrite <- Hty.
  destruct (TA_GetSKAttr (r_type x) orefs) as [r|]; [destruct HG as (w & -> & Hin & Hwt & Hr) | by rewrite HG].
  rewrite Forall_forall in Hf. destruct (ref_wire_type _ _ _ Hr) as [Hrt Hrl].
  unfold TA_CompareSKAttr. rewrite Hrt, Hwt, Z.eqb_refl, Hlen, Hrl. cbn [negb].
  destruct (w_len tx =? w_len w) eqn:El; cbn [negb andb]; [| done]. boolz.
  rewrite <- Hlen, (ref_wire_read _ _ _ Ex Hx). cbn [mbind outcome_bind].
  rewrite Hlen, El, <- Hrl, (ref_wire_read _ _ _ Hr (Hf w Hin)). cbn [mbind outcome_bind].
  destruct (decide (default [] (w_payload tx) = default [] (w_payload w))) as [Hd|Hd].
  - rewrite (bool_decide_true _ Hd). cbn [andb]. change (1 =? 0) with false.
    rewrite (IH txs 1 Er Hxs). fold (template_in ws txs). destruct (template_in ws txs); [| done].
    by destruct txs.
  - rewrite (bool_decide_false _ Hd). done.
Qed.

(** The storage holds, besides the database, objects with four-byte identifiers
    whose data streams encode the attributes [f] assigns to their identifiers. *)
Definition storage_says (v : tview K) (f : list Z -> list wire) : Prop :=
  forall id o, v_store v !! id = Some o -> id <> db_obj_id ->
    is_id id /\ encodes (po_data o) (f id) /\ Forall null_ok (f id).

Lemma match_attr_obj_wps v buf refs txs ws id o obj_id :
  ref_wire buf <$> refs = Ret <$> txs -> Forall null_ok txs -> txs <> [] ->
  v_store v !! id = Some o -> encodes (po_data o) ws -> Forall null_ok ws -> take 4 obj_id = id ->
  wps v (match_attr_obj buf refs obj_id (info o))
    (fun '(res, m) v' => v' = v /\
      ((res = TEE_SUCCESS /\ m = if template_in ws txs then 1 else 0) \/
       refuses res)).
Proof.
  intros Er Ht Hne Hs Henc Hnull Hid. unfold match_attr_obj. wp. rewrite Hid.
  apply wps_open_stored; [by eexists | |].
  2: { intros res Hres Hr. wp. split; [done | by right]. }
  intros h [Hh Hf]. wp. cbn [dataSize info]. eapply read_data_wps; [view_lookup | exact Hs | done | done | | |].
  { intros res d n Hres Hr. wp. split; [by apply with_open_id | by right]. }
  { intros res d a Hres Hr. wp.
    rewrite (proj2 (Z.eqb_neq _ _)) by (pose proof (encodes_length _ _ Henc); lia).
    wp. split; [by apply with_open_id | by right]. }
  intros a Ha. cbn zeta. rewrite with_open_insert_insert. wp.
  eapply unpack_object_wps; [exact Henc | exact Ha | |].
  2: { intros res rs q Hres Hr. wp. split; [by apply with_open_id | by right]. }
  intros orefs q Hor. wp. eapply wps_lift; [by apply (match_loop_ok buf _ orefs ws Hor Hnull refs txs) |].
  wp. split; [by apply with_open_id |]. left. split; [done |]. destruct txs; [done |]. by case_match.
Qed.

(** The object with the identifier is not the database and has the template's
    attributes. *)
Definition qualifies (f : list Z -> list wire) (txs : list wire) (id : list Z) : Prop :=
  id <> db_obj_id /\ template_in (f id) txs = true.
#[local] Instance qualifies_dec f txs id : Decision (qualifies f txs id).
Proof. unfold qualifies. apply _. Defined.

Lemma find_match_loop_wps h max f buf refs txs ids :
  ref_wire buf <$> refs = Ret <$> txs -> Forall null_ok txs -> txs <> [] ->
  forall fuel v obj_id obj cnt, storage_says v f -> (forall id, id ∈ ids -> is_Some (v_store v !! id)) ->
  v_enum v !! h = Some ids -> (length ids < fuel)%nat -> 0 <= cnt < max ->
  4 * max <= Z.of_nat (length obj) ->
  wps v (find_match_loop fuel h buf refs obj_id obj cnt max)
    (searched h (filter (qualifies f txs) ids) obj cnt max v).
Proof.
  intros Er Ht Hne. induction ids as [|id ids IH]; intros fuel v obj_id obj cnt Hsay Hall Hi Hfuel Hc Hl;
    (destruct fuel as [|fuel]; [cbn in Hfuel; lia |]); cbn [find_match_loop]; wp;
    (eapply wps_enum_next; [exact Hi | |]);
    try (intros res i id' Hres Hc0; wp; eapply searched_end; [exact Hi | exact Hc0 | by intros [=]]).
  { intros id rest i [=]. }
  intros id' rest i [= <- <-] Hinfo. wp. cbn [length] in Hfuel.
  assert (Hin : v_enum (with_enum <[h := ids]> v) !! h = Some ids) by view_lookup.
  assert (Hall' : forall id0, id0 ∈ ids -> is_Some (v_store (with_enum <[h := ids]> v) !! id0))
    by (intros; apply Hall; by right).
  assert (Hskip : forall oid, ¬ qualifies f txs id ->
    wps (with_enum <[h := ids]> v) (find_match_loop fuel h buf refs oid obj cnt max)
      (searched h (filter (qualifies f txs) (id :: ids)) obj cnt max v)).
  { intros oid Hq. rewrite filter_cons_False by done.
    eapply wps_mono; [apply IH; [done | done | done | lia | done | done] |]. intros r v'. apply searched_skip. }
  destruct (Hall id) as [o Ho]; [by left |]. rewrite (Hinfo o Ho).
  destruct (decide (id = db_obj_id)) as [->|Hdb].
  { change (Z.of_nat (length db_obj_id) =? get_obj_db_id_size) with true. apply Hskip. by intros [? _]. }
  destruct (Hsay id o Ho Hdb) as (Hid & Henc & Hnull).
  rewrite (proj2 (Z.eqb_neq _ _)) by (unfold is_id in Hid; rewrite Hid; discriminate). wp.
  assert (Htk : take 4 (id_buffer obj_id id) = id).
  { unfold id_buffer. by rewrite take_app_length' by (by unfold is_id in Hid). }
  eapply wps_mono; [eapply (match_attr_obj_wps _ buf refs txs (f id) id o); done |].
  intros [res m] v' [-> [[-> ->] | Hr]].
  2: { pose proof (refuses_not_success _ Hr). wp. split; [by eexists | by right]. }
  wp.
  destruct (template_in (f id) txs) eqn:Etm; cbn [Z.eqb].
  2: { apply Hskip. intros [_ ?]. congruence. }
  rewrite filter_cons_True by done.
  destruct (stored_ids_cons obj cnt id [] Hid) as (obj1 & E & L1 & _); [done | lia | cbn; lia |].
  wp. eapply wps_lift; [rewrite Htk; exact E |]. destruct (max <=? cnt + 1) eqn:Em; boolz.
  { wp. by eapply searched_last. }
  eapply wps_mono; [apply IH; [done | done | done | lia | lia | by rewrite L1] |].
  intros r v' HR. eapply searched_more; try done. apply Forall_forall.
  intros x [[Hx _] Hx2]%list_elem_of_filter. destruct (Hall x) as [ox Hox]; [by right |].
  by destruct (Hsay x ox Hox Hx).
Qed.

(** ** The enumerator and the command *)

(** The identifiers in the storage, in the order an enumeration gives them. *)
Definition listing (v : tview K) (ids : list (list Z)) : Prop := ids ≡ₚ (map_to_list (v_store v)).*1.

Lemma listing_elem v ids id : listing v ids -> id ∈ ids -> is_Some (v_store v !! id).
Proof.
  intros Hp Hid. rewrite Hp in Hid. apply list_elem_of_fmap in Hid as ([k o] & -> & Hk).
  apply elem_of_map_to_list in Hk. by exists o.
Qed.

Lemma listing_length v ids : listing v ids -> length ids = size (v_store v).
Proof. intros ->. by rewrite length_fmap, length_map_to_list. Qed.

(** Why a search fails: the TEE refuses, or it has no object at all, not even the
    database. *)
Definition search_cause (v : tview K) (res : Z) : Prop :=
  refuses res \/ (res = TEE_ERROR_ITEM_NOT_FOUND /\ v_store v = ∅).

Lemma search_cause_error v res : search_cause v res -> res <> TEE_SUCCESS.
Proof. intros [Hr | [-> _]]; [by apply refuses_not_success | done]. Qed.

Lemma with_enumerator_wps v obj max loop (sel : list (list Z) -> list (list Z)) :
  (forall h ids, listing v ids -> v_enum v !! h = None ->
     let v1 := with_enum <[h := ids]> v in
     wps v1 (loop h) (searched h (sel ids) obj 0 max v1)) ->
  wps v (with_enumerator obj loop) (fun '(res, obj', cnt) v' => v' = v /\
    (search_cause v res \/
     exists ids, listing v ids /\ let l := take (Z.to_nat max) (sel ids) in
       res = TEE_SUCCESS /\ obj' = stored_ids obj 0 l /\ cnt = Z.of_nat (length l))).
Proof.
  intros Hloop. unfold with_enumerator. wp. apply wps_enum_alloc.
  2: { intros res Hres Hr. wp. split; [done | left; by left]. }
  intros h [Hh Hf]. wp. apply wps_enum_start; [held | |].
  2: { intros res Hres Hc. wp. split; [by apply with_enum_id | by left]. }
  intros ids Hids. rewrite with_enum_insert_insert. wp.
  eapply wps_mono; [by apply Hloop |]. intros [[res obj'] cnt] v' [(rest & ->) HR].
  rewrite with_enum_insert_insert.
  destruct HR as [[Hr [-> ->]] | Hr].
  - rewrite Z.sub_0_r, Z.add_0_l. destruct Hr as [-> | ->].
    + change (TEE_SUCCESS =? TEE_ERROR_ITEM_NOT_FOUND) with false. wp.
      split; [by apply with_enum_id |]. right. by exists ids.
    + change (TEE_ERROR_ITEM_NOT_FOUND =? TEE_ERROR_ITEM_NOT_FOUND) with true. wp.
      split; [by apply with_enum_id |]. right. by exists ids.
  - pose proof (refuses_not_success _ Hr). rewrite (proj2 (Z.eqb_neq _ _)) by (by apply refuses_not_missing). wp.
    split; [by apply with_enum_id | left; by left].
Qed.

(** Without a template the search takes every identifier of four bytes, that is
    all but the database. *)
Lemma filter_all v f (ids : list (list Z)) : storage_says v f -> (forall id, id ∈ ids -> is_Some (v_store v !! id)) ->
  filter is_id ids = filter (qualifies f []) ids.
Proof.
  intros Hsay. induction ids as [|id ids IH]; intros Hall; [done |].
  rewrite !filter_cons. rewrite IH by (intros; apply Hall; by right).
  destruct (Hall id) as [o Ho]; [by left |].
  destruct (decide (id = db_obj_id)) as [->|Hdb].
  - rewrite decide_False by done. rewrite decide_False; [done |]. by intros [? _].
  - destruct (Hsay id o Ho Hdb) as (Hid & _). by rewrite !decide_True.
Qed.

Definition find_types : Z :=
  TEE_PARAM_TYPES TEE_PARAM_TYPE_MEMREF_INPUT TEE_PARAM_TYPE_MEMREF_OUTPUT
    TEE_PARAM_TYPE_VALUE_OUTPUT TEE_PARAM_TYPE_NONE.

(** What a search that succeeds returns: the identifiers of the objects that
    qualify, in some order of enumeration, as many as the output memory holds,
    and their number. *)
Definition found (f : list Z -> list wire) (txs : list wire) (v : tview K) (oaddr b : Z) (obuf : list Z)
    (ps : list TEE_Param) (r : Z * list TEE_Param) : Prop :=
  exists ids, listing v ids /\
    let l := take (Z.to_nat (Z.of_nat (length obuf) / 4)) (filter (qualifies f txs) ids) in
    r = (TEE_SUCCESS, <[2%nat := VParam (Z.of_nat (length l)) b]>
           (<[1%nat := MParam oaddr (Some (stored_ids obuf 0 l)) (Z.of_nat (length obuf))]> ps)).

Lemma find_wps v fuel addr oaddr a b buf obuf refs txs f p3 :
  unpack_sk_attrs 64 true addr buf = Ret (TEE_SUCCESS, refs) ->
  ref_wire buf <$> refs = Ret <$> txs -> Forall null_ok txs -> storage_says v f ->
  (size (v_store v) < fuel)%nat -> 4 <= Z.of_nat (length obuf) ->
  let ps := [MParam addr (Some buf) (Z.of_nat (length buf));
             MParam oaddr (Some obuf) (Z.of_nat (length obuf)); VParam a b; p3] in
  wps v (TA_FindObjects fuel find_types ps) (fun r v' => v' = v /\
    (search_cause v r.1 \/ found f txs v oaddr b obuf ps r)).
Proof.
  intros Hu Er Ht Hsay Hfuel Hlen ps. set (max := Z.of_nat (length obuf) / 4).
  assert (Hmax : 0 < max /\ 4 * max <= Z.of_nat (length obuf)).
  { subst max. Z.div_mod_to_equations. lia. }
  unfold TA_FindObjects. change (find_types =? _) with true. wp. eapply wps_lift; [done |]. wp.
  eapply wps_lift; [done |]. wp. eapply wps_lift; [apply mem_read_whole |]. wp.
  eapply unpack_ok_wps; [exact Hu | |].
  2: { intros res Hres Hr. wp. split; [done | left; by left]. }
  intros p. wp. change (default [] (Some obuf)) with obuf. fold max.
  eapply wps_mono with (P := fun '(res, obj', cnt) v' => v' = v /\
    (search_cause v res \/
     exists ids, listing v ids /\ let l := take (Z.to_nat max) (filter (qualifies f txs) ids) in
       res = TEE_SUCCESS /\ obj' = stored_ids obuf 0 l /\ cnt = Z.of_nat (length l))).
  - destruct refs as [|x refs]; (destruct txs as [|tx txs]; try discriminate Er); apply with_enumerator_wps;
      intros h ids Hids Hf; cbn zeta; pose proof (listing_length _ _ Hids) as Hln.
    + rewrite <- (filter_all v f ids Hsay (fun id => listing_elem v ids id Hids)).
      apply find_all_loop_wps; [view_lookup | lia | lia | lia].
    + apply find_match_loop_wps; [done | done | done | done | | view_lookup | lia | lia | lia].
      intros id. by apply (listing_elem v).
  - intros [[res obj'] cnt] v' [-> [HR | (ids & Hids & -> & -> & ->)]].
    { pose proof (search_cause_error _ _ HR). wp. split; [done | by left]. }
    wp. eapply wps_lift; [done |]. wp. split; [done |]. right. by exists ids.
Qed.

(** C32: [TA_FindObjects] with room for at least one handle returns (the loop ends
    after at most one round per stored object), leaves the storage and every
    handle as they were, and unless the TEE refuses or stores nothing at all gives
    exactly the identifiers of the objects that have all attributes of the
    template, up to the capacity of the output memory, and their number; the
    identifier database is never among them. *)
Theorem ta_find_objects_spec (w : W) (fuel : nat) (addr oaddr a b : Z) (buf obuf : list Z)
    (refs : list sk_ref) (txs : list wire) (f : list Z -> list wire) (p3 : TEE_Param) :
  unpack_sk_attrs 64 true addr buf = Ret (TEE_SUCCESS, refs) ->
  ref_wire buf <$> refs = Ret <$> txs -> Forall null_ok txs -> storage_says (view w) f ->
  (size (v_store (view w)) < fuel)%nat -> 4 <= Z.of_nat (length obuf) ->
  let ps := [MParam addr (Some buf) (Z.of_nat (length buf));
             MParam oaddr (Some obuf) (Z.of_nat (length obuf)); VParam a b; p3] in
  exists r w', TA_FindObjects fuel find_types ps w = Ret (r, w') /\ view w' = view w /\
    (search_cause (view w) r.1 \/ found f txs (view w) oaddr b obuf ps r).
Proof. intros Hu Er Ht Hsay Hfuel Hlen ps. by eapply find_wps. Qed.
End Find.

(** ** Instances *)

(** The attributes of the one object of [demo_storage]. *)
Definition demo_says (id : list Z) : list wire := ta_wire <$> demo_stored.

(** A template with the object type. *)
Definition demo_template : list Z :=
  match pack_attrs (Some (zeros 20)) 20
          (Some [mkSK SK_ATTR_OBJECT_TYPE (Some (le_bytes 4 SK_KEY_PAIR)) 4]) 1 with
  | Ret (_, Some d) => d
  | _ => []
  end.

Lemma demo_storage_says : storage_says (view demo_storage) demo_says.
Proof.
  intros id o Ho Hdb. unfold view, ram_laws in Ho. cbn in Ho.
  apply lookup_insert_Some in Ho as [[<- <-] | [_ Ho]].
  - split; [done |]. split; [apply demo_data_encodes | repeat constructor; discriminate].
  - apply lookup_insert_Some in Ho as [[<- _] | [_ Ho]]; [done | by rewrite lookup_empty in Ho].
Qed.

Lemma ta_find_objects_spec_witness :
  let ps := [MParam 4096 (Some demo_template) (Z.of_nat (length demo_template));
             MParam 8192 (Some (zeros 8)) (Z.of_nat (length (zeros 8))); VParam 0 0; NParam] in
  exists r w', TA_FindObjects 10 find_types ps demo_storage = Ret (r, w') /\
    found demo_says [mkWire SK_ATTR_OBJECT_TYPE 4 (Some (le_bytes 4 SK_KEY_PAIR))]
      (view demo_storage) 8192 0 (zeros 8) ps r.
Proof.
  intros ps.
  destruct (ta_find_objects_spec (K := ram_key) demo_storage 10 4096 8192 0 0 demo_template (zeros 8)
    [mkRef SK_ATTR_OBJECT_TYPE (Some 16) 4] [mkWire SK_ATTR_OBJECT_TYPE 4 (Some (le_bytes 4 SK_KEY_PAIR))]
    demo_says NParam) as (r & w' & E & _ & [[[] | [_ H]] | H]).
  - vm_compute. reflexivity.
  - vm_compute. reflexivity.
  - repeat constructor. discriminate.
  - exact demo_storage_says.
  - vm_compute. repeat constructor.
  - vm_compute. discriminate.
  - vm_compute in H. discriminate H.
  - exists r, w'. split; [exact E | exact H].
Defined.

(** [TA_FindObjects] stores a handle before it checks the capacity: asked
    with an output memory that holds no handle, it writes outside it. *)
Theorem ta_find_objects_no_room :
  TA_FindObjects 10 find_types
    [MParam 4096 (Some (le_bytes 4 0)) 4; MParam 8192 (Some []) 0; VParam 0 0; NParam] demo_storage = Undef.
Proof. vm_compute. reflexivity. Qed.

(** A query that names an attribute the trusted application does not
    serialise before one it does makes it write outside the memory it
    allocates. *)
Theorem ta_get_attributes_misplaced :
  exists buf, pack_attrs (Some (zeros 28)) 28
      (Some [mkSK SK_ATTR_PRIVATE_EXPONENT None 0; mkSK SK_ATTR_OBJECT_TYPE None 0]) 2 = Ret (SKR_OK, Some buf) /\
    TA_GetObjectAttributes query_types [VParam 5 0; MParam 4096 (Some buf) 28; NParam; NParam]
      demo_storage = Undef.
Proof. eexists. split; [vm_compute; reflexivity |]. vm_compute. reflexivity. Qed.
