(* ===== verification/TaCryptoTheorems.v ===== *)
(** * Cryptographic commands of the trusted application

    Signing and decryption use exactly the key stored under the identifier the
    client names, leave the storage and every handle, transient object and
    operation as they were, and write no more than the output memory holds. *)

From stdpp Require Import base numbers list gmap sets.
From S2P Require Import Prelude SkTypes AttrCodec Wires TeeApi TeeRam TaStorage TaCrypto TeeLogic.
From S2P Require Import TaTheorems TaQueryTheorems.

Section Crypto.
Context {W K : Type} `{HT : TEE W, HC : Crypto K, HL : !TEE_laws W K}.

(** The output memory with [out] at its start and its length as the size. *)
Definition with_output (ps : list TEE_Param) (oaddr : Z) (obuf out : list Z) : list TEE_Param :=
  <[2%nat := MParam oaddr (Some (out ++ drop (length out) obuf)) (Z.of_nat (length out))]> ps.

(** [x] is what the algorithm of the mechanism makes of the input with the key
    stored under the identifier. *)
Definition result_of (algorithms : Z -> option Z) (op_of : Z -> K -> list Z -> outcome (option (list Z)))
    (v : tview K) (id m : Z) (d : list Z) (x : option (list Z)) : Prop :=
  exists o k alg, v_store v !! le_bytes 4 id = Some o /\ po_key o = Some k /\ algorithms m = Some alg /\
    op_of alg k d = Ret x.

(** The object, if there is one, has a key, and the operation does not panic on
    the input. *)
Definition acceptable (algorithms : Z -> option Z) (op_of : Z -> K -> list Z -> outcome (option (list Z)))
    (v : tview K) (id m : Z) (d : list Z) : Prop :=
  forall o, v_store v !! le_bytes 4 id = Some o ->
    exists k, po_key o = Some k /\ forall alg, algorithms m = Some alg -> op_of alg k d <> Undef.

(** A success of an asymmetric command: the result fits the output memory and is
    there. *)
Definition operated (algorithms : Z -> option Z) (op_of : Z -> K -> list Z -> outcome (option (list Z)))
    (v : tview K) (id m : Z) (d : list Z) (oaddr : Z) (obuf : list Z) (ps : list TEE_Param)
    (r : Z * list TEE_Param) : Prop :=
  exists s, result_of algorithms op_of v id m d (Some s) /\
    Z.of_nat (length s) <= Z.of_nat (length obuf) /\ r = (TEE_SUCCESS, with_output ps oaddr obuf s).

(** Why it fails: the TEE refuses, there is no such object, the mechanism is not
    known, the operation refuses the input, or the output memory is too short. *)
Definition command_cause (algorithms : Z -> option Z) (op_of : Z -> K -> list Z -> outcome (option (list Z)))
    (v : tview K) (id m : Z) (d : list Z) (n res : Z) : Prop :=
  refuses res \/
  (res = TEE_ERROR_ITEM_NOT_FOUND /\ v_store v !! le_bytes 4 id = None) \/
  (res = TEE_ERROR_BAD_PARAMETERS /\ algorithms m = None) \/
  exists x, result_of algorithms op_of v id m d x /\ op_cause x n res.

Lemma asymmetric_wps algorithms mode operate op_of v id m iaddr oaddr d obuf p3 :
  (forall v h op k y n x Q, v_ops v !! h = Some op -> op_mode op = mode -> op_key op = Some k ->
     op_of (op_alg op) k y = Ret x ->
     (forall s, x = Some s -> Z.of_nat (length s) <= n -> Q (TEE_SUCCESS, s) v) ->
     (forall res out, res <> TEE_SUCCESS -> op_cause x n res -> Q (res, out) v) ->
     wps (W := W) v (operate h y n) Q) ->
  acceptable algorithms op_of v id m d ->
  let ps := [VParam id m; MParam iaddr (Some d) (Z.of_nat (length d));
             MParam oaddr (Some obuf) (Z.of_nat (length obuf)); p3] in
  wps v (asymmetric_command algorithms mode operate crypto_param_types ps) (fun r v' => v' = v /\
    ((command_cause algorithms op_of v id m d (Z.of_nat (length obuf)) r.1 /\ r.2 = ps) \/
     operated algorithms op_of v id m d oaddr obuf ps r)).
Proof.
  intros Hop Hacc ps. unfold asymmetric_command, command_cause. rewrite Z.eqb_refl. wp. eapply wps_lift; [done |]. wp.
  apply wps_open.
  2: { intros res Hres Hc. wp. split; [done |]. left. split; [| done]. destruct Hc; [by left | right; by left]. }
  intros h [o Ho] [Hh Hf]. destruct (Hacc o Ho) as (k & Hk & Hsafe).
  wp. eapply wps_info; [view_lookup | exact Ho | |].
  2: { intros res i Hres Hr. wp. split; [by apply with_open_id | left; by auto]. }
  wp. eapply wps_lift; [done |]. wp. apply wps_trans_alloc.
  2: { intros res Hres Hr. wp. split; [by apply with_open_id | left; by auto]. }
  intros t [Hth Htf]. wp. cbn [v_trans with_open] in Htf.
  assert (Hopen : forall x y, with_trans (delete t) (with_open (delete h)
    (with_trans <[t := x]> (with_open <[h := y]> v))) = v).
  { intros x y. destruct v. cbn in *. unfold with_trans, with_open. cbn. by rewrite !delete_insert_id. }
  eapply wps_copy; [view_lookup | view_lookup | exact Ho | by eexists | done | done | done | |].
  2: { intros res Hres Hr. wp. split; [apply Hopen | left; by auto]. }
  wp. rewrite with_trans_insert_insert. destruct (algorithms m) as [alg|] eqn:Ea.
  2: { wp. split; [apply Hopen |]. left. by auto 10. }
  destruct (op_of alg k d) as [x|] eqn:Ex; [| by destruct (Hsafe alg)].
  assert (HR : result_of algorithms op_of v id m d x) by (by exists o, k, alg).
  wp. apply wps_op_alloc.
  2: { intros res Hres Hr. wp. split; [apply Hopen | left; by auto]. }
  intros q [Hqh Hqf]. wp. cbn [v_ops with_trans with_open] in Hqf.
  assert (Hops : forall x y z, with_ops (delete q) (with_trans (delete t) (with_open (delete h)
    (with_ops <[q := x]> (with_trans <[t := y]> (with_open <[h := z]> v))))) = v).
  { intros ? ? ?. destruct v. cbn in *. unfold with_ops, with_trans, with_open. cbn. by rewrite !delete_insert_id. }
  eapply wps_set_key; [view_lookup | view_lookup | by eexists | done | |].
  2: { intros res Hres Hr. wp. split; [apply Hops | left; by auto]. }
  wp. rewrite with_ops_insert_insert. eapply wps_lift; [done |]. wp.
  eapply wps_lift; [apply mem_read_whole |]. wp.
  eapply Hop; [view_lookup | done | exact Hk | exact Ex | |].
  2: { intros res out Hres Hc. wp. split; [apply Hops |]. left. split; [| done]. right. right. right. by exists x. }
  intros s -> Hlen. wp. eapply wps_lift.
  { unfold store_output, param_mem. cbn [lookup list_lookup ps mbind outcome_bind].
    rewrite mem_store_ok by lia. reflexivity. }
  wp. split; [apply Hops |]. right. by exists s.
Qed.

Lemma sign_command_wps v id m iaddr oaddr d obuf p3 : acceptable sign_algorithm sign_of v id m d ->
  let ps := [VParam id m; MParam iaddr (Some d) (Z.of_nat (length d));
             MParam oaddr (Some obuf) (Z.of_nat (length obuf)); p3] in
  wps v (TA_SignDigest crypto_param_types ps) (fun r v' => v' = v /\
    ((command_cause sign_algorithm sign_of v id m d (Z.of_nat (length obuf)) r.1 /\ r.2 = ps) \/
     operated sign_algorithm sign_of v id m d oaddr obuf ps r)).
Proof.
  intros Hacc. apply (asymmetric_wps sign_algorithm TEE_MODE_SIGN TEE_AsymmetricSignDigest sign_of); [| done].
  intros. by eapply wps_sign.
Qed.

(** [TA_SignDigest] returns and leaves the storage and every handle as they
    were, provided the TEE accepts the digest for the key.  Unless it fails for
    one of the causes given, the output memory starts with the signature of
    exactly the digest given, made with the key stored under the identifier and
    the algorithm of the mechanism, and the size returned is the signature's.  On
    failure the parameters are untouched. *)
Theorem ta_sign_digest_spec (w : W) (id m iaddr oaddr : Z) (d obuf : list Z) (p3 : TEE_Param) :
  acceptable sign_algorithm sign_of (view w) id m d ->
  let ps := [VParam id m; MParam iaddr (Some d) (Z.of_nat (length d));
             MParam oaddr (Some obuf) (Z.of_nat (length obuf)); p3] in
  exists r w', TA_SignDigest crypto_param_types ps w = Ret (r, w') /\ view w' = view w /\
    ((command_cause sign_algorithm sign_of (view w) id m d (Z.of_nat (length obuf)) r.1 /\ r.2 = ps) \/
     operated sign_algorithm sign_of (view w) id m d oaddr obuf ps r).
Proof. intros Hacc. by apply sign_command_wps. Qed.

Lemma decrypt_command_wps v id m iaddr oaddr d obuf p3 : acceptable decrypt_algorithm decrypt_of v id m d ->
  let ps := [VParam id m; MParam iaddr (Some d) (Z.of_nat (length d));
             MParam oaddr (Some obuf) (Z.of_nat (length obuf)); p3] in
  wps v (TA_DecryptData crypto_param_types ps) (fun r v' => v' = v /\
    ((command_cause decrypt_algorithm decrypt_of v id m d (Z.of_nat (length obuf)) r.1 /\ r.2 = ps) \/
     operated decrypt_algorithm decrypt_of v id m d oaddr obuf ps r)).
Proof.
  intros Hacc. apply (asymmetric_wps decrypt_algorithm TEE_MODE_DECRYPT TEE_AsymmetricDecrypt decrypt_of); [| done].
  intros. by eapply wps_decrypt.
Qed.

(** [TA_DecryptData] likewise: unless it fails for one of the causes given,
    the output is the decryption of exactly the input with the stored key and the
    algorithm of the mechanism, and nothing changed in storage or handles. *)
Theorem ta_decrypt_data_spec (w : W) (id m iaddr oaddr : Z) (d obuf : list Z) (p3 : TEE_Param) :
  acceptable decrypt_algorithm decrypt_of (view w) id m d ->
  let ps := [VParam id m; MParam iaddr (Some d) (Z.of_nat (length d));
             MParam oaddr (Some obuf) (Z.of_nat (length obuf)); p3] in
  exists r w', TA_DecryptData crypto_param_types ps w = Ret (r, w') /\ view w' = view w /\
    ((command_cause decrypt_algorithm decrypt_of (view w) id m d (Z.of_nat (length obuf)) r.1 /\ r.2 = ps) \/
     operated decrypt_algorithm decrypt_of (view w) id m d oaddr obuf ps r).
Proof. intros Hacc. by apply decrypt_command_wps. Qed.

(** Why a digest fails: the TEE refuses, the mechanism is not known, or the output
    memory is shorter than the digest. *)
Definition digest_cause (m : Z) (d : list Z) (n res : Z) : Prop :=
  refuses res \/
  (res = TEE_ERROR_BAD_PARAMETERS /\ digest_algorithm m = None) \/
  (res = TEE_ERROR_SHORT_BUFFER /\ exists alg size, digest_algorithm m = Some (alg, size) /\
     (n < size \/ n < Z.of_nat (length (digest_of alg d)))).

Lemma digest_command_wps v m b iaddr oaddr d obuf p3 :
  let ps := [VParam m b; MParam iaddr (Some d) (Z.of_nat (length d));
             MParam oaddr (Some obuf) (Z.of_nat (length obuf)); p3] in
  wps v (TA_DigestData crypto_param_types ps) (fun r v' => v' = v /\
    ((digest_cause m d (Z.of_nat (length obuf)) r.1 /\ r.2 = ps) \/
     exists alg size, digest_algorithm m = Some (alg, size) /\ size <= Z.of_nat (length obuf) /\
       Z.of_nat (length (digest_of alg d)) <= Z.of_nat (length obuf) /\
       r = (TEE_SUCCESS, with_output ps oaddr obuf (digest_of alg d)))).
Proof.
  intros ps.
  unfold TA_DigestData, digest_cause. rewrite Z.eqb_refl. wp. eapply wps_lift; [done |]. wp.
  destruct (digest_algorithm m) as [[alg size]|]; wp; [| split; [done |]; left; by auto].
  eapply wps_lift; [done |]. wp. destruct (_ <? size) eqn:El; boolz; wp.
  { split; [done |]. left. split; [| done]. right. right. split; [done |]. exists alg, size. by auto. }
  apply wps_op_alloc.
  2: { intros res Hres Hr. wp. split; [done | left; by auto]. }
  intros h [Hh Hf]. wp. eapply wps_lift; [done |]. wp. eapply wps_lift; [apply mem_read_whole |]. wp.
  eapply wps_digest; [view_lookup | done | |].
  2: { intros res out Hres Hc. wp. split; [by apply with_ops_id |]. left. split; [| done].
       destruct Hc as [Hr | [-> Hc]]; [by left |]. right. right. split; [done |]. exists alg, size. by auto. }
  cbn [op_alg]. intros Hlen. wp. eapply wps_lift.
  { unfold store_output, param_mem. cbn [lookup list_lookup ps mbind outcome_bind].
    rewrite mem_store_ok by lia. reflexivity. }
  wp. split; [by apply with_ops_id |]. right. by exists alg, size.
Qed.


(** [TA_DigestData] needs no object: unless the TEE refuses, it succeeds
    exactly for a known digest mechanism and an output memory of at least the
    digest's size, and returns the digest of exactly the input. *)
Theorem ta_digest_data_spec (w : W) (m b iaddr oaddr : Z) (d obuf : list Z) (p3 : TEE_Param) :
  let ps := [VParam m b; MParam iaddr (Some d) (Z.of_nat (length d));
             MParam oaddr (Some obuf) (Z.of_nat (length obuf)); p3] in
  exists r w', TA_DigestData crypto_param_types ps w = Ret (r, w') /\ view w' = view w /\
    ((digest_cause m d (Z.of_nat (length obuf)) r.1 /\ r.2 = ps) \/
     exists alg size, digest_algorithm m = Some (alg, size) /\ size <= Z.of_nat (length obuf) /\
       Z.of_nat (length (digest_of alg d)) <= Z.of_nat (length obuf) /\
       r = (TEE_SUCCESS, with_output ps oaddr obuf (digest_of alg d))).
Proof. by apply digest_command_wps. Qed.

End Crypto.

(** ** Instances *)

Definition demo_sign_params (m : Z) : list TEE_Param :=
  [VParam 5 m; MParam 4096 (Some (zeros 20)) (Z.of_nat (length (zeros 20)));
   MParam 8192 (Some (zeros 64)) (Z.of_nat (length (zeros 64))); NParam].

Lemma ta_sign_digest_spec_witness :
  exists r w', TA_SignDigest crypto_param_types (demo_sign_params SKM_RSASSA_PKCS1_V1_5_SHA1) demo_storage
      = Ret (r, w') /\ r.1 = TEE_SUCCESS.
Proof.
  destruct (ta_sign_digest_spec (K := ram_key) demo_storage 5 SKM_RSASSA_PKCS1_V1_5_SHA1 4096 8192
    (zeros 20) (zeros 64) NParam) as (r & w' & E & _).
  - intros o Ho. vm_compute in Ho. injection Ho as <-. exists []. split; [reflexivity | discriminate].
  - exists r, w'. split; [exact E |]. vm_compute in E. injection E as <- _. reflexivity.
Defined.

Lemma ta_decrypt_data_spec_witness :
  exists r w', TA_DecryptData crypto_param_types (demo_sign_params SKM_RSAES_PKCS1_V1_5) demo_storage
      = Ret (r, w') /\ r.1 = TEE_SUCCESS.
Proof.
  destruct (ta_decrypt_data_spec (K := ram_key) demo_storage 5 SKM_RSAES_PKCS1_V1_5 4096 8192
    (zeros 20) (zeros 64) NParam) as (r & w' & E & _).
  - intros o Ho. vm_compute in Ho. injection Ho as <-. exists []. split; [reflexivity | discriminate].
  - exists r, w'. split; [exact E |]. vm_compute in E. injection E as <- _. reflexivity.
Defined.

Lemma ta_digest_data_spec_witness :
  exists r w', TA_DigestData crypto_param_types
      [VParam SKM_SHA1 0; MParam 4096 (Some (zeros 20)) (Z.of_nat (length (zeros 20)));
       MParam 8192 (Some (zeros 64)) (Z.of_nat (length (zeros 64))); NParam] demo_storage
      = Ret (r, w') /\ r.1 = TEE_SUCCESS.
Proof.
  destruct (ta_digest_data_spec (K := ram_key) demo_storage SKM_SHA1 0 4096 8192
    (zeros 20) (zeros 64) NParam) as (r & w' & E & _).
  exists r, w'. split; [exact E |]. vm_compute in E. injection E as <- _. reflexivity.
Defined.
