(* ===== verification/Link.v ===== *)
(** * From the client library to the trusted application

    Between libteec and the trusted application stand the kernel's TEE driver and
    the TEE core, which are not modelled.  [Link_laws] says what they do for the
    client: a session runs the trusted application's entry points, a command is
    the trusted application's command on the parameters of the ioctl, and nothing
    else touches the secure world.  The rules of this file carry a call of the
    secure-key library through libteec and this link down to the trusted
    application, so that its theorems speak about the client's calls. *)

From stdpp Require Import base numbers list gmap.
From S2P Require Import Prelude SkTypes AttrCodec Wires TeeClient SkLib SkLibTheorems LibTeec LibTeecTheorems.
From S2P Require Import TeeApi TaStorage TaCrypto TeeLogic TaTheorems.

(** ** Parameters on both sides *)

Definition ioctl_attr (p : tee_ioctl_param) : Z :=
  match p with IP_none => 0 | IP_value attr _ _ => attr | IP_memref attr _ _ _ _ => attr end.

Definition ta_types (ps : list tee_ioctl_param) : Z :=
  match ps with
  | [p0; p1; p2; p3] => TEE_PARAM_TYPES (ioctl_attr p0) (ioctl_attr p1) (ioctl_attr p2) (ioctl_attr p3)
  | _ => 0
  end.

(** The parameter the trusted application gets: a memory reference is mapped at
    [addr]. *)
Definition ta_param (addr : Z) (p : tee_ioctl_param) : TEE_Param :=
  match p with
  | IP_none => NParam
  | IP_value _ a b => VParam a b
  | IP_memref _ offs size _ mem => MParam addr (Some (take (Z.to_nat size) (drop (Z.to_nat offs) mem))) size
  end.

(** The parameter the client gets back: values that are an output, the content of
    the memory, and its size if it is an output. *)
Definition client_param (p : tee_ioctl_param) (q : TEE_Param) : tee_ioctl_param :=
  match p, q with
  | IP_value attr _ _, VParam a b => if attr =? TEEC_VALUE_INPUT then p else IP_value attr a b
  | IP_memref attr offs size id mem, MParam _ (Some d) size' =>
      IP_memref attr offs (if attr =? TEE_IOCTL_PARAM_ATTR_TYPE_MEMREF_INPUT then size else size') id
        (splice mem (Z.to_nat offs) d)
  | _, _ => p
  end.

(** A reference to at least one byte inside its memory. *)
Definition usable (p : tee_ioctl_param) : Prop :=
  match p with
  | IP_memref _ offs size _ mem => 0 <= offs /\ 0 < size /\ offs + size <= Z.of_nat (length mem)
  | _ => True
  end.

(** What is left of the state of the trusted application when its instance ends. *)
Definition cleared {K} (v : tview K) : tview K := mkView (v_store v) ∅ ∅ ∅ ∅.

(** [secure w] is the secure world of the system [w], and [connected w fd s] says
    that [s] is a session of the descriptor [fd] with the secure storage
    application.  [link_down] has the results and origins with which the driver
    and the TEE core fail for reasons of their own.  [rounds w] is fuel for the
    trusted application's loops, more than there are objects. *)
Class Link_laws (W S K : Type) `{TeeDriver W, HS : TEE S, Crypto K, !TEE_laws S K} := {
  secure : W -> S;
  connected : W -> Z -> Z -> Prop;
  link_down : Z -> Z -> Prop;
  rounds : W -> nat;
  rounds_enough w : (size (v_store (view (secure w))) < rounds w)%nat;
  down_fails res o : link_down res o -> res <> TEEC_SUCCESS;
  undisturbed w w' := secure w' = secure w /\ forall fd s, connected w fd s -> connected w' fd s;
  connected_fd w fd s : connected w fd s -> 0 <= fd;
  open_frame n w : undisturbed w (sys_open n w).2;
  version_frame fd w : undisturbed w (ioctl_version fd w).2;
  alloc_frame fd n w : undisturbed w (ioctl_shm_alloc fd n w).2;
  register_frame fd a n w : undisturbed w (ioctl_shm_register fd a n w).2;
  mmap_frame fd n w : undisturbed w (sys_mmap fd n w).2;
  munmap_frame a n w : undisturbed w (sys_munmap a n w);
  malloc_frame n w : undisturbed w (sys_malloc n w).2;
  free_frame a w : undisturbed w (sys_free a w);
  close_frame fd w : secure (sys_close fd w) = secure w /\
    forall fd' s, connected w fd' s -> fd' <> fd -> connected (sys_close fd w) fd' s;
  alloc_fresh fd n w sfd id w' fd' s : ioctl_shm_alloc fd n w = ((sfd, id), w') -> 0 <= sfd ->
    connected w fd' s -> fd' <> sfd;
  register_fresh fd a n w sfd id w' fd' s : ioctl_shm_register fd a n w = ((sfd, id), w') -> 0 <= sfd ->
    connected w fd' s -> fd' <> sfd;
  open_session_law fd login w rc w' :
    ioctl_open_session fd (LibTeec.uuid_to_octets TA_SECURE_STORAGE_UUID) login (replicate 4 IP_none) w = Ret (rc, w') ->
    match rc with
    | inr (ret, _, s, _) => ret = TEEC_SUCCESS /\ connected w' fd s /\
                             TA_CreateEntryPoint (secure w) = Ret (TEE_SUCCESS, secure w')
    | inl _ => False
    end \/
    ((forall o s qs, rc <> inr (TEEC_SUCCESS, o, s, qs)) /\
     (secure w' = secure w \/ exists res, TA_CreateEntryPoint (secure w) = Ret (res, secure w')));
  close_session_law fd s w : connected w fd s ->
    view (secure (ioctl_close_session fd s w)) = cleared (view (secure w));
  invoke_session_law fd s cmd ps w : connected w fd s -> length ps = 4%nat -> Forall usable ps ->
    exists addrs, length addrs = 4%nat /\ Forall (fun a => Z.land a 3 = 0) addrs /\
    forall res qs s',
      TA_InvokeCommandEntryPoint (rounds w) cmd (ta_types ps) (zip_with ta_param addrs ps) (secure w)
        = Ret ((res, qs), s') ->
      exists rc w', ioctl_invoke fd s cmd ps w = Ret (rc, w') /\ connected w' fd s /\
        ((rc = inr (res, TEEC_ORIGIN_TRUSTED_APP, zip_with client_param ps qs) /\ secure w' = s') \/
         (match rc with
          | inl errno => link_down (LibTeec.ioctl_errno_to_res errno) TEEC_ORIGIN_COMMS
          | inr (ret, o, _) => link_down ret o
          end /\ secure w' = secure w))
}.

Section Rules.
Context {W S K : Type} `{HD : TeeDriver W, HS : TEE S, HC : Crypto K, HL : !TEE_laws S K}.
Context `{HDL : !Driver_laws W, HLL : !Link_laws W S K}.

(** ** Runs of the client *)

(** Started in a state that satisfies [P], [m] returns, and its result and the state
    then satisfy [Q]. *)
Definition runs {A} (m : st W A) (P : W -> Prop) (Q : A -> W -> Prop) : Prop :=
  forall w, P w -> exists a w', m w = Ret (a, w') /\ Q a w'.

Lemma runs_ret {A} (a : A) (P : W -> Prop) (Q : A -> W -> Prop) : (forall w, P w -> Q a w) -> runs (mret a) P Q.
Proof. intros HQ w HP. exists a, w. auto. Qed.

Lemma runs_lift {A B} (m : outcome A) a (f : A -> st W B) P Q : m = Ret a -> runs (f a) P Q -> runs (lift m ≫= f) P Q.
Proof. intros -> Hf w HP. apply (Hf w HP). Qed.

Lemma runs_bind {A B} (m : st W A) (f : A -> st W B) P R Q :
  runs m P R -> (forall a, runs (f a) (R a) Q) -> runs (m ≫= f) P Q.
Proof.
  intros Hm Hf w HP. destruct (Hm w HP) as (a & w1 & E & HR). destruct (Hf a w1 HR) as (b & w2 & E2 & HQ).
  exists b, w2. unfold mbind, st_bind. by rewrite E.
Qed.

Lemma runs_mono {A} (m : st W A) (P : W -> Prop) (R Q : A -> W -> Prop) :
  runs m P R -> (forall a w, R a w -> Q a w) -> runs m P Q.
Proof. intros Hm HRQ w HP. destruct (Hm w HP) as (a & w1 & E & HR). eauto. Qed.

(** A system call, by what it does to the state. *)
Lemma runs_sys {A B} (f : W -> A * W) (k : A -> st W B) P R Q :
  (forall w, P w -> R (f w).1 (f w).2) -> (forall a, runs (k a) (R a) Q) -> runs (LibTeec.sys f ≫= k) P Q.
Proof.
  intros Hf Hk. eapply runs_bind; [| exact Hk]. intros w HP. specialize (Hf w HP). unfold LibTeec.sys.
  destruct (f w) as [a w1]. eauto.
Qed.
Lemma runs_sys_ {B} (f : W -> W) (k : unit -> st W B) P R Q :
  (forall w, P w -> R (f w)) -> runs (k tt) R Q -> runs (LibTeec.sys_ f ≫= k) P Q.
Proof. intros Hf Hk w HP. apply (Hk (f w)). by apply Hf. Qed.

(** ** The secure world during a call *)

Definition sees (v : tview K) (w : W) : Prop := view (secure w) = v.
Definition in_session (sess : TEEC_Session) (v : tview K) (w : W) : Prop :=
  sees v w /\ connected w (ctx_fd (sess_ctx sess)) (session_id sess).

Lemma sees_undisturbed v w w' : undisturbed w w' -> sees v w -> sees v w'.
Proof. intros [E _]. unfold sees. by rewrite E. Qed.
Lemma in_session_undisturbed sess v w w' : undisturbed w w' -> in_session sess v w -> in_session sess v w'.
Proof. intros Hu [Hs Hc]. split; [by eapply sees_undisturbed | by apply Hu]. Qed.
Lemma sees_close v fd w : sees v w -> sees v (sys_close fd w).
Proof. unfold sees. by destruct (close_frame fd w) as [-> _]. Qed.
Lemma in_session_close sess v fd w : ctx_fd (sess_ctx sess) <> fd -> in_session sess v w -> in_session sess v (sys_close fd w).
Proof. intros Hf [Hs Hc]. split; [by apply sees_close | by apply close_frame]. Qed.

(** ** Sessions *)

Lemma open_dev_runs n name v :
  runs (LibTeec.teec_open_dev n name) (sees v) (fun _ => sees v).
Proof.
  unfold LibTeec.teec_open_dev. apply (runs_sys _ _ _ (fun _ => sees v)).
  { intros w. apply sees_undisturbed, open_frame. }
  intros fd. destruct (fd <? 0); [by apply runs_ret |]. apply (runs_sys _ _ _ (fun _ => sees v)).
  { intros w. apply sees_undisturbed, version_frame. }
  assert (Herr : runs (LibTeec.sys_ (sys_close fd);; mret (-1, 0)) (sees v) (fun (_ : Z * Z) => sees v)).
  { apply (runs_sys_ _ _ _ (sees v)); [intros w; apply sees_close | by apply runs_ret]. }
  intros vers. repeat case_match; try exact Herr; by apply runs_ret.
Qed.

Lemma init_runs name v : runs (TEEC_InitializeContext name) (sees v) (fun _ => sees v).
Proof.
  cbn [TEEC_InitializeContext libteec]. unfold LibTeec.TEEC_InitializeContext. generalize 0.
  induction TEEC_MAX_DEV_SEQ as [|todo IH]; intros n; cbn [LibTeec.open_devices]; [by apply runs_ret |].
  eapply runs_bind; [apply open_dev_runs |]. intros [fd caps]. destruct (0 <=? fd); [by apply runs_ret | apply IH].
Qed.

(** The view when a session was asked for. *)
Definition entered (v v' : tview K) : Prop := v' = v \/ db_opened v v'.

Lemma open_session_runs ctx v :
  runs (TEEC_OpenSession ctx TA_SECURE_STORAGE_UUID TEEC_LOGIN_PUBLIC None) (sees v)
    (fun x w => sess_ctx x.1.2 = ctx /\
       ((x.1.1 = TEEC_SUCCESS /\ exists v', db_opened v v' /\ in_session x.1.2 v' w) \/
        (x.1.1 <> TEEC_SUCCESS /\ exists v', entered v v' /\ sees v' w))).
Proof.
  intros w Hv. destruct (open_database_wps v (secure w) Hv) as (res0 & s0 & E0 & HQ).
  destruct (open_session_total (ctx_fd ctx) (LibTeec.uuid_to_octets TA_SECURE_STORAGE_UUID) TEEC_LOGIN_PUBLIC
    (replicate 4 IP_none) ltac:(repeat constructor) w) as ([rc w1] & E).
  assert (Hent : secure w1 = secure w \/ (exists res, TA_CreateEntryPoint (secure w) = Ret (res, secure w1)) ->
    exists v', entered v v' /\ sees v' w1).
  { intros [Es | [res Er]].
    - exists v. split; [by left |]. unfold sees. by rewrite Es.
    - unfold TA_CreateEntryPoint in Er. rewrite E0 in Er. injection Er as <- Es. rewrite Es in HQ.
      exists (view (secure w1)). split; [| done]. destruct HQ as [[_ ?] | [_ ->]]; [by right | by left]. }
  pose proof (open_session_law _ _ _ _ _ E) as HL1.
  cbn [TEEC_OpenSession libteec]. unfold LibTeec.TEEC_OpenSession, LibTeec.teec_pre_process_operation.
  unfold mbind, st_bind, mret, st_ret. cbn [Z.eqb negb TEEC_SUCCESS replicate fmap list_fmap fst snd].
  cbn [replicate] in E. rewrite E. destruct rc as [errno | [[[ret o] s] qs]]; cbn; eexists _, _; (split; [reflexivity |]);
    cbn [fst snd].
  - split; [done |]. right. split; [unfold LibTeec.ioctl_errno_to_res; by case_c |].
    destruct HL1 as [[] | [_ Hs]]. by apply Hent.
  - destruct HL1 as [(-> & Hc & Er) | [Hne Hs]].
    + split; [done |]. left. split; [done |]. exists (view (secure w1)).
      unfold TA_CreateEntryPoint in Er. rewrite E0 in Er. injection Er as -> ->.
      split; [by destruct HQ as [[_ ?] | [Hr _]]; [| by apply refuses_not_success in Hr] | by split].
    + destruct (ret =? TEEC_SUCCESS) eqn:Er; boolz; [subst; by destruct (Hne o s qs) |].
      split; [done |]. right. split; [done |]. by apply Hent.
Qed.

(** The codes of a failure of the client API other than of a command. *)
Definition outage (rc : Z) : Prop := api_failure (W := W) (fun _ _ => False) rc.

(** A call that runs in a session: [R] relates its result to the view it leaves. *)
Definition session_runs {A} (sess : TEEC_Session) (v : tview K) (m : st W A) (R : A -> tview K -> Prop) : Prop :=
  runs m (in_session sess v) (fun x w => exists v', in_session sess v' w /\ R x v').

Lemma with_session_runs {A} v (r : A) body (R : Z * A -> tview K -> Prop) :
  cleared v = v ->
  (forall rc v', outage rc -> entered v v' -> R (rc, r) v') ->
  (forall ctx sess v', initialised (W := W) ctx -> sess_ctx sess = ctx -> db_opened v v' ->
     session_runs sess v' (body ctx sess) (fun x v2 => R x (cleared v2))) ->
  runs (with_ta_session r body) (sees v) (fun x w => R x (view (secure w))).
Proof.
  intros Hq HF HB w0 Hv0. unfold with_ta_session. unfold mbind at 1, st_bind at 1.
  destruct (init_runs None v w0 Hv0) as ([res ctx] & w1 & E1 & Hv1). rewrite E1.
  destruct (res =? TEEC_SUCCESS) eqn:Er; boolz; cbn [negb].
  2: { eexists _, w1. split; [reflexivity |]. rewrite Hv1. apply HF; [by eapply failed_context | by left]. }
  subst res. assert (Hi : initialised (W := W) ctx) by (by exists w0, w1).
  unfold mbind at 1, st_bind at 1.
  destruct (open_session_runs ctx v w1 Hv1) as ([[res' sess] o] & w2 & E2 & Hctx & HS2). rewrite E2. cbn [fst snd] in *.
  destruct HS2 as [(-> & v' & Hdb & Hin) | (Hne & v' & Hen & Hv2)].
  - cbn [negb Z.eqb TEEC_SUCCESS]. destruct (HB ctx sess v' Hi Hctx Hdb w2 Hin) as (x & w3 & E3 & v2 & [Hv3 Hc3] & HR).
    unfold mbind, st_bind. rewrite E3. eexists _, _. split; [reflexivity |].
    destruct (close_frame (ctx_fd ctx) (ioctl_close_session (ctx_fd (sess_ctx sess)) (session_id sess) w3)) as [-> _].
    rewrite close_session_law by done. by rewrite Hv3.
  - rewrite (proj2 (Z.eqb_neq _ _) Hne). cbn [negb]. eexists _, _. split; [reflexivity |].
    destruct (close_frame (ctx_fd ctx) w2) as [-> _]. rewrite Hv2. apply HF; [by eapply failed_session | done].
Qed.

(** ** Shared memory *)

(** A memory libteec allocated for a session: not the session's descriptor. *)
Definition shm_ready (sess : TEEC_Session) (shm : TEEC_SharedMemory) : Prop :=
  shm_shadow_addr shm = 0 /\ ctx_fd (sess_ctx sess) <> shm_registered_fd shm.

Lemma shm_call_runs sess v (f : W -> (Z * Z) * W) :
  (forall w, undisturbed w (f w).2) ->
  (forall w sfd id w' fd s, f w = ((sfd, id), w') -> 0 <= sfd -> connected w fd s -> fd <> sfd) ->
  runs ('(shm_fd, id) ← LibTeec.sys f; if shm_fd <? 0 then mret (-1, 0) else mret (shm_fd, id)) (in_session sess v)
    (fun x w => in_session sess v w /\ (0 <= x.1 -> ctx_fd (sess_ctx sess) <> x.1)).
Proof.
  intros Hu Hf. apply (runs_sys _ _ _ (fun x w => in_session sess v w /\ (0 <= x.1 -> ctx_fd (sess_ctx sess) <> x.1))).
  { intros w Hw. split; [by eapply in_session_undisturbed |]. intros H0. destruct (f w) as [[sfd id] w'] eqn:E.
    eapply Hf; [exact E | done | apply Hw]. }
  intros [sfd id]. destruct (sfd <? 0) eqn:Es; boolz; apply runs_ret; intros w [Hw Hn]; (split; [done |]); cbn in *; [lia | done].
Qed.

Lemma allocate_runs sess v shm :
  runs (TEEC_AllocateSharedMemory (sess_ctx sess) shm) (in_session sess v)
    (fun x w => in_session sess v w /\ (x.1 = TEEC_SUCCESS -> shm_ready sess x.2)).
Proof.
  cbn [TEEC_AllocateSharedMemory libteec]. unfold LibTeec.TEEC_AllocateSharedMemory.
  set (s := if _ =? 0 then _ else _). clearbody s.
  destruct (LibTeec.bad_flags _); [by apply runs_ret |]. destruct (ctx_reg_mem _).
  - apply (runs_sys _ _ _ (fun _ => in_session sess v)); [intros w; apply in_session_undisturbed, malloc_frame |].
    intros [[addr b]|]; [| by apply runs_ret].
    eapply runs_bind; [by apply shm_call_runs; [apply register_frame | apply register_fresh] |].
    intros [fd id]. destruct (fd <? 0) eqn:Es; boolz; cbn [fst snd].
    + apply (runs_sys_ _ _ _ (in_session sess v)); [| by apply runs_ret].
      intros w [Hw _]. by eapply in_session_undisturbed; [apply free_frame |].
    + apply runs_ret. intros w [Hw Hn]. split; [done |]. intros _. split; [done |]. cbn. by apply Hn.
  - eapply runs_bind; [by apply shm_call_runs; [apply alloc_frame | apply alloc_fresh] |].
    intros [fd id]. destruct (fd <? 0) eqn:Es; boolz; cbn [fst snd].
    { apply runs_ret. by intros w [Hw _]. }
    apply (runs_sys _ _ _ (fun _ w => in_session sess v w /\ ctx_fd (sess_ctx sess) <> fd)).
    { intros w [Hw Hn]. split; [by eapply in_session_undisturbed; [apply mmap_frame |] | by apply Hn]. }
    intros p. apply (runs_sys_ _ _ _ (in_session sess v)); [intros w [Hw Hn]; by apply in_session_close |].
    destruct p as [[addr b]|]; apply runs_ret; intros w Hw; (split; [done |]); [| done].
    intros _. split; [done |]. destruct Hw as [_ Hc]. apply connected_fd in Hc. cbn. lia.
Qed.

Lemma release_runs sess v shm : shm_ready sess shm ->
  runs (TEEC_ReleaseSharedMemory shm) (in_session sess v) (fun _ => in_session sess v).
Proof.
  intros [Hs Hf]. apply (runs_bind _ _ _ (fun _ => in_session sess v)); [| intros ?; by apply runs_ret].
  unfold LibTeec.TEEC_ReleaseSharedMemory. destruct (shm_id shm =? -1); [by apply runs_ret |].
  rewrite Hs. cbn [negb Z.eqb]. apply (runs_bind _ _ _ (fun _ => in_session sess v)); [| intros ?; by apply runs_ret].
  assert (Hclose : runs (LibTeec.sys_ (sys_close (shm_registered_fd shm))) (in_session sess v) (fun _ => in_session sess v)).
  { intros w Hw. eexists _, _. split; [reflexivity |]. by apply in_session_close. }
  destruct (negb (shm_addr shm =? 0)); [destruct (0 <=? shm_registered_fd shm) |
    destruct (0 <=? shm_registered_fd shm); [done | by apply runs_ret]].
  - apply (runs_bind _ _ _ (fun _ => in_session sess v)); [| intros ?; exact Hclose].
    destruct (shm_buffer_allocated shm); [| by apply runs_ret]. intros w Hw. eexists _, _. split; [reflexivity |].
    by eapply in_session_undisturbed; [apply free_frame |].
  - intros w Hw. eexists _, _. split; [reflexivity |]. by eapply in_session_undisturbed; [apply munmap_frame |].
Qed.

Lemma with_shm_runs {A} sess v size flags (r : A) body (R : Z * A -> tview K -> Prop) :
  initialised (W := W) (sess_ctx sess) -> flags ∈ [1; 2; 3] -> 0 < size -> (forall rc, outage rc -> R (rc, r) v) ->
  (forall shm, shm_shadow_addr shm = 0 -> shm_size shm = size -> shm_flags shm = flags ->
     Z.of_nat (length (shm_buffer shm)) = size -> Z.land (shm_addr shm) 3 = 0 ->
     session_runs sess v (body shm) R) ->
  session_runs sess v (with_shm (sess_ctx sess) size flags r body) R.
Proof.
  intros Hi Hfg Hs HF HB w Hw. unfold with_shm. unfold mbind at 1, st_bind at 1.
  destruct (allocate_runs sess v (shm_new size flags) w Hw) as ([res shm] & w1 & E & Hin & Hr). rewrite E. cbn [fst snd] in Hr.
  destruct (res =? TEEC_SUCCESS) eqn:Er; boolz; cbn [negb].
  2: { eexists _, w1. split; [reflexivity |]. exists v. split; [done |]. apply HF. eapply failed_memory; [done | | done..]. lia. }
  subst res. specialize (Hr eq_refl). destruct (allocate_law _ _ _ _ _ E) as (Hsz & Hfl & _ & Ha & Hl).
  cbn [shm_size shm_flags shm_new] in *. rewrite (proj2 (Z.eqb_neq _ 0)) in Hl by lia.
  destruct (HB shm (proj1 Hr) Hsz Hfl (Hl ltac:(lia)) Ha w1 Hin) as (x & w2 & E2 & v2 & Hin2 & HR).
  destruct (release_runs sess v2 shm Hr w2 Hin2) as ([] & w3 & E3 & Hin3).
  unfold mbind, st_bind. rewrite E2, E3. eexists _, w3. split; [reflexivity |]. eauto.
Qed.

(** ** Commands *)

(** What libteec passes for a parameter of a type it needs no memory of its own
    for, and what it makes of the driver's answer. *)
Definition whole_attr (flags : Z) : Z :=
  if Z.land flags 3 =? 3 then TEE_IOCTL_PARAM_ATTR_TYPE_MEMREF_INOUT
  else if negb (Z.land flags TEEC_MEM_INPUT =? 0) then TEE_IOCTL_PARAM_ATTR_TYPE_MEMREF_INPUT
  else TEE_IOCTL_PARAM_ATTR_TYPE_MEMREF_OUTPUT.

(** The parameters of the secure-key library's commands: none, values, and whole
    memories without a shadow buffer. *)
Inductive plain : Z -> TEEC_Parameter -> tee_ioctl_param -> Prop :=
| plain_none : plain TEEC_NONE TP_none IP_none
| plain_in a b : plain TEEC_VALUE_INPUT (TP_value a b) (IP_value TEEC_VALUE_INPUT a b)
| plain_out a b : plain TEEC_VALUE_OUTPUT (TP_value a b) (IP_value TEEC_VALUE_OUTPUT a b)
| plain_whole m : shm_shadow_addr m = 0 -> shm_flags m ∈ [1; 2; 3] ->
    plain TEEC_MEMREF_WHOLE (whole m) (IP_memref (whole_attr (shm_flags m)) 0 (shm_size m) (shm_id m) (shm_buffer m)).

Definition after (p : TEEC_Parameter) (ip q : tee_ioctl_param) : TEEC_Parameter :=
  match p, q with
  | TP_value _ _, IP_value _ a b => if ioctl_attr ip =? TEEC_VALUE_INPUT then p else TP_value (u32 a) (u32 b)
  | TP_memref m size off, IP_memref _ _ n _ mem =>
      TP_memref (set_buffer m mem) (if ioctl_attr ip =? TEE_IOCTL_PARAM_ATTR_TYPE_MEMREF_INPUT then size else n) off
  | _, _ => p
  end.

Lemma plain_pre ctx ty p ip w : plain ty p ip ->
  LibTeec.pre_process_param ctx ty p w = Ret ((TEEC_SUCCESS, (p, ip, LibTeec.shm_zero)), w).
Proof.
  intros Hp. inversion Hp as [| | |m Hs Hf]; subst; try reflexivity.
  unfold LibTeec.pre_process_param, whole. cbn -[LibTeec.teec_pre_process_whole].
  unfold LibTeec.teec_pre_process_whole, to_shadow, shared_mem, whole_attr. rewrite Hs. cbn [negb andb Z.eqb].
  rewrite !elem_of_cons in Hf. destruct Hf as [E | [E | [E | []%elem_of_nil]]]; rewrite ?E; cbn; rewrite ?Hs; reflexivity.
Qed.

Lemma plain_post ty p ip q s : plain ty p ip -> same_ioctl_param ip q ->
  LibTeec.post_process_param ty (p, q, s) = Ret (after p ip q, s).
Proof.
  intros Hp Hq. inversion Hp as [| | |m Hs Hf]; subst; destruct q; try done.
  unfold LibTeec.post_process_param, whole. cbn -[LibTeec.teec_post_process_whole].
  unfold LibTeec.teec_post_process_whole, LibTeec.mem_after, set_shared_mem, from_shadow. rewrite Hs. cbn.
  unfold whole_attr. rewrite !elem_of_cons in Hf. rewrite ?Hs. destruct Hf as [E | [E | [E | []%elem_of_nil]]]; rewrite ?E; cbn; rewrite ?Hs; reflexivity.
Qed.

Definition param_types (types : Z) : list Z :=
  [TEEC_PARAM_TYPE_GET types 0; TEEC_PARAM_TYPE_GET types 1; TEEC_PARAM_TYPE_GET types 2; TEEC_PARAM_TYPE_GET types 3].

(** An operation whose four parameters are plain, with what libteec passes for
    them. *)
Definition plain_op (op : TEEC_Operation) (ips : list tee_ioctl_param) : Prop :=
  Forall3 plain (param_types (op_types op)) (op_params op) ips.

Lemma plain_op4 types t0 t1 t2 t3 p0 p1 p2 p3 q0 q1 q2 q3 :
  param_types types = [t0; t1; t2; t3] -> plain t0 p0 q0 -> plain t1 p1 q1 -> plain t2 p2 q2 -> plain t3 p3 q3 ->
  plain_op (mkOp types [p0; p1; p2; p3]) [q0; q1; q2; q3].
Proof. intros E ????. unfold plain_op. cbn [op_types op_params]. rewrite E. by repeat constructor. Qed.

Lemma plain_op_pre ctx op ips w : plain_op op ips ->
  LibTeec.teec_pre_process_operation ctx (Some op) w
    = Ret ((TEEC_SUCCESS, zip_with (fun p ip => (p, ip, LibTeec.shm_zero)) (op_params op) ips), w).
Proof.
  destruct op as [types ps]. unfold plain_op, param_types. cbn. intros Hp.
  repeat match goal with H : Forall3 plain _ _ _ |- _ => inversion H; subst; clear H end.
  cbn [LibTeec.pre_process_params zip_with]. unfold mbind, st_bind, mret, st_ret.
  repeat (erewrite plain_pre by eassumption; cbn [Z.eqb negb TEEC_SUCCESS Z.add Pos.add Pos.succ]). reflexivity.
Qed.

Lemma plain_op_post op ips qs : plain_op op ips -> Forall2 same_ioctl_param ips qs ->
  LibTeec.post_process (Some op)
    (LibTeec.answer_slots (zip_with (fun p ip => (p, ip, LibTeec.shm_zero)) (op_params op) ips) qs)
  = Ret (zip_with (fun p x => (after p x.1 x.2, LibTeec.shm_zero)) (op_params op) (zip ips qs)).
Proof.
  destruct op as [types ps]. unfold plain_op, param_types. cbn. intros Hp Hq.
  repeat match goal with H : Forall3 plain _ _ _ |- _ => inversion H; subst; clear H end.
  repeat match goal with H : Forall2 same_ioctl_param _ _ |- _ => inversion H; subst; clear H end.
  cbn [LibTeec.teec_post_process_operation LibTeec.answer_slots zip_with zip fst snd].
  repeat (erewrite plain_post by eassumption; cbn [mbind outcome_bind Z.add Pos.add Pos.succ]). reflexivity.
Qed.

(** The parameters the client finds after the trusted application's [qs]. *)
Definition params_after (ps : list TEEC_Parameter) (ips : list tee_ioctl_param) (qs : list TEE_Param)
  : list TEEC_Parameter :=
  zip_with (fun p x => after p x.1 x.2) ps (zip ips (zip_with client_param ips qs)).

Lemma plain_op_free op ips (l : list TEEC_SharedMemory) w : plain_op op ips -> length l = 4%nat ->
  LibTeec.free_refs (Some op) l w = Ret (tt, w).
Proof.
  destruct op as [types ps]. unfold plain_op, param_types. cbn. intros Hp Hl.
  assert (Hno : forall ty p ip, plain ty p ip -> is_temp ty = false) by (by inversion 1).
  repeat match goal with H : Forall3 plain _ _ _ |- _ => inversion H; subst; clear H end.
  repeat (destruct l as [|? l]; try discriminate Hl). cbn [LibTeec.teec_free_temp_refs].
  repeat match goal with H : plain _ _ _ |- _ => apply Hno in H end.
  unfold mbind, st_bind, mret, st_ret. change (0 + 1) with 1. change (1 + 1) with 2. change (2 + 1) with 3.
  repeat match goal with H : is_temp _ = false |- _ => rewrite H; clear H end. reflexivity.
Qed.

(** A command, by what the trusted application does. *)
Lemma invoke_runs {A} sess v cmd types ps ips (r : A) k (Q : list Z -> Z * list TEE_Param -> tview K -> Prop)
    (R : Z * A -> tview K -> Prop) :
  plain_op (mkOp types ps) ips -> Forall usable ips ->
  (forall addrs fuel, length addrs = 4%nat -> Forall (fun a => Z.land a 3 = 0) addrs ->
     (size (v_store v) < fuel)%nat ->
     wps v (TA_InvokeCommandEntryPoint fuel cmd (ta_types ips) (zip_with ta_param addrs ips)) (Q addrs)) ->
  (forall res o, link_down res o -> R (map_teec_err_to_sk res o, r) v) ->
  (forall addrs res qs v', Q addrs (res, qs) v' -> res <> TEE_SUCCESS ->
     R (map_teec_err_to_sk res TEEC_ORIGIN_TRUSTED_APP, r) v') ->
  (forall addrs qs v', Q addrs (TEE_SUCCESS, qs) v' ->
     exists x, k (params_after ps ips qs) = Ret x /\ R x v') ->
  session_runs sess v (invoke sess cmd types ps r k) R.
Proof.
  intros Hp Hu HQ Hdown Hfail Hok w [Hv Hc]. pose proof Hp as Hp0.
  assert (Hlen : length ips = 4%nat /\ length ps = 4%nat).
  { unfold plain_op in Hp. pose proof (Forall3_length_lm _ _ _ _ Hp). pose proof (Forall3_length_lr _ _ _ _ Hp). cbn in *. lia. }
  destruct Hlen as [Hli Hlp].
  destruct (invoke_session_law _ _ cmd ips w Hc Hli Hu) as (addrs & Hla & Hal & HT).
  destruct (HQ addrs (rounds w) Hla Hal) with (w := secure w) as ([res qs] & s' & ET & HQ');
    [rewrite <- Hv; apply rounds_enough | exact Hv |].
  destruct (HT res qs s' ET) as (rc & w' & EI & Hc' & HR). unfold invoke. unfold mbind at 1, st_bind at 1.
  assert (EL : LibTeec.TEEC_InvokeCommand sess cmd (Some (mkOp types ps)) w = Ret
    (match rc with
     | inl errno => ((LibTeec.ioctl_errno_to_res errno, TEEC_ORIGIN_COMMS,
         (zip_with (fun p ip => (p, ip, LibTeec.shm_zero)) ps ips).*1.*1), w')
     | inr (ret, o, qs') => ((ret, o, zip_with (fun p x => after p x.1 x.2) ps (zip ips qs')), w')
     end)).
  { unfold LibTeec.TEEC_InvokeCommand. unfold mbind at 1, st_bind at 1. rewrite (plain_op_pre _ _ _ _ Hp).
    cbn [Z.eqb negb TEEC_SUCCESS op_params]. unfold mbind at 1, st_bind at 1.
    assert (Hips : (zip_with (fun p ip => (p, ip, LibTeec.shm_zero)) ps ips).*1.*2 = ips).
    { clear -Hli Hlp. revert ps Hlp Hli. generalize 4%nat. induction ips as [|ip ips IH]; intros n [|p ps] ? ?; cbn in *; try lia; [done |].
      f_equal. eapply (IH (pred n)); lia. }
    rewrite Hips, EI. destruct rc as [errno | [[ret o] qs']].
    - unfold mbind, st_bind. by rewrite (plain_op_free _ _ _ _ Hp) by (rewrite length_fmap, length_zip_with; lia).
    - unfold mbind, st_bind. rewrite (plain_op_post _ _ _ Hp) by (by eapply invoke_params).
      assert (length qs' = 4%nat) by (apply invoke_params, Forall2_length in EI; lia).
      unfold lift. rewrite (plain_op_free _ _ _ _ Hp) by (rewrite length_fmap, length_zip_with, length_zip; cbn; lia).
      unfold mret, st_ret. do 3 f_equal. cbn [op_params].
      clear. revert ips qs'. induction ps as [|p ps IH]; intros [|ip ips] [|q qs']; try done. cbn. f_equal. apply IH. }
  cbn [TEEC_InvokeCommand libteec]. rewrite EL. clear EL.
  destruct HR as [[-> Hs'] | [Hd Hs']].
  - destruct (res =? TEEC_SUCCESS) eqn:Er; boolz; cbn [negb].
    + subst res. destruct (Hok addrs qs (view s') HQ') as (x & Ek & HR). unfold lift, params_after in *. rewrite Ek.
      eexists _, w'. split; [reflexivity |]. exists (view s'). split; [| done]. split; [by unfold sees; rewrite Hs' | done].
    + eexists _, w'. split; [reflexivity |]. exists (view s').
      split; [split; [by unfold sees; rewrite Hs' | done] | by eapply Hfail].
  - assert (Hin : in_session sess v w') by (split; [unfold sees; rewrite Hs'; exact Hv | done]).
    destruct rc as [errno | [[ret o] qs']]; pose proof (down_fails _ _ Hd) as Hne;
      rewrite (proj2 (Z.eqb_neq _ _) Hne); cbn [negb]; eexists _, w'; (split; [reflexivity |]); exists v; auto.
Qed.

End Rules.
