(* ===== verification/ObjectStore.v ===== *)
(** * An abstract object store

    What the secure-object stack promises its clients, without buffers, sessions or
    handles: a finite map from identifiers to objects, each a key and its public
    attributes, and a counter for new identifiers.  [astep] says which results a
    call may give and what it does to the store; Refinement.v shows that the stack
    does nothing else. *)

From stdpp Require Import base numbers list gmap.
From S2P Require Import Prelude SkTypes AttrCodec Wires TeeClient SkLib SkLibTheorems TeeApi TaStorage TaCrypto.
From S2P Require Import TeeLogic TaTheorems TaFindTheorems.

(** ** Calls and results *)

(** The calls of a client with the arguments they need; the arrays are the
    caller's buffers. *)
Inductive call :=
| CCreate (attrs : list SK_ATTRIBUTE)
| CGenerate (attrs : list SK_ATTRIBUTE)
| CErase (h : Z)
| CFind (attrs : list SK_ATTRIBUTE) (arr : list Z)
| CGet (h : Z) (attrs : list SK_ATTRIBUTE)
| CSign (m : SK_MECHANISM_INFO) (h : Z) (d out : list Z)
| CDecrypt (m : SK_MECHANISM_INFO) (h : Z) (d out : list Z)
| CDigest (m : SK_MECHANISM_INFO) (d out : list Z).

(** Return code, and what the caller finds in its memory: a handle, an array of
    handles and their number, the attributes, a buffer and its length. *)
Inductive result :=
| RHandle (rc : Z) (h : option Z)
| RCode (rc : Z)
| RFound (rc : Z) (arr : option (list Z)) (n : option Z)
| RAttrs (rc : Z) (attrs : option (list SK_ATTRIBUTE))
| RBytes (rc : Z) (out : option (list Z)) (n : option Z).

(** The template of a search without attributes is a null pointer. *)
Definition template (attrs : list SK_ATTRIBUTE) : option (list SK_ATTRIBUTE) :=
  match attrs with [] => None | _ => Some attrs end.

Definition perform {W} `{TEEC W} (c : call) : st W result :=
  match c with
  | CCreate attrs => '(rc, h) ← SK_CreateObject (Some attrs) (Z.of_nat (length attrs)) true; mret (RHandle rc h)
  | CGenerate attrs =>
      '(rc, h) ← SK_GenerateKeyPair (Some (mkMech SKM_RSA_PKCS_KEY_PAIR_GEN)) (Some attrs) (Z.of_nat (length attrs)) true;
      mret (RHandle rc h)
  | CErase h => rc ← SK_EraseObject h; mret (RCode rc)
  | CFind attrs arr =>
      '(rc, (arr, n)) ← SK_EnumerateObjects (template attrs) (Z.of_nat (length attrs)) (Some arr) (Z.of_nat (length arr)) true;
      mret (RFound rc arr n)
  | CGet h attrs => '(rc, l) ← SK_GetObjectAttribute h (Some attrs) (Z.of_nat (length attrs)); mret (RAttrs rc l)
  | CSign m h d out =>
      '(rc, (o, n)) ← SK_Sign (Some m) h (Some d) (Z.of_nat (length d)) (Some out) (Some (Z.of_nat (length out)));
      mret (RBytes rc o n)
  | CDecrypt m h d out =>
      '(rc, (o, n)) ← SK_Decrypt (Some m) h (Some d) (Z.of_nat (length d)) (Some out) (Some (Z.of_nat (length out)));
      mret (RBytes rc o n)
  | CDigest m d out =>
      '(rc, (o, n)) ← SK_Digest (Some m) (Some d) (Z.of_nat (length d)) (Some out) (Some (Z.of_nat (length out)));
      mret (RBytes rc o n)
  end.

Section Store.
Context {K : Type} `{HC : Crypto K}.

(** ** The store *)

Record aobj := mkAobj { ao_type : Z; ao_size : Z; ao_key : K; ao_attrs : list wire }.
Record astate := mkA { a_next : Z; a_objs : gmap Z aobj }.

Definition bump (a : astate) : astate := mkA (u32 (a_next a + 1)) (a_objs a).
Definition add_obj (x : aobj) (a : astate) : astate := mkA (u32 (a_next a + 1)) (<[a_next a := x]> (a_objs a)).
Definition remove_obj (h : Z) (a : astate) : astate := mkA (a_next a) (delete h (a_objs a)).

(** The attributes of a request that are kept. *)
Definition public (ws : list wire) : list wire := filter (fun w => packable (w_type w) = true) ws.

(** The identifiers of the objects that have the attributes of a template. *)
Definition matches (a : astate) (txs : list wire) : list Z :=
  (filter (fun p => template_in (ao_attrs p.2) txs = true) (map_to_list (a_objs a))).*1.

(** What a caller's attribute becomes when the object has the attributes [ws]:
    length and value, or the length alone if it has no buffer; [None] if the object
    has no such attribute or the buffer is too short, with the error that counts. *)
Definition read_attr (ws : list wire) (x : SK_ATTRIBUTE) : SK_ATTRIBUTE + Z :=
  match find_wire (sa_type x) ws with
  | None => inr TEE_ERROR_BAD_PARAMETERS
  | Some m =>
      if sa_valueLen x =? 0 then inl (mkSK (sa_type x) (sa_value x) (w_len m))
      else if sa_valueLen x <? w_len m then inr TEE_ERROR_SHORT_BUFFER
      else inl (fill x m)
  end.

(** The attributes read, or the error of the last that could not be. *)
Fixpoint read_attrs (ws : list wire) (attrs : list SK_ATTRIBUTE) : list SK_ATTRIBUTE + Z :=
  match attrs with
  | [] => inl []
  | x :: rest =>
      match read_attrs ws rest, read_attr ws x with
      | inr e, _ => inr e
      | inl _, inr e => inr e
      | inl l, inl y => inl (y :: l)
      end
  end.

(** The code the client sees for a result of the trusted application. *)
Definition code (res : Z) : Z := map_teec_err_to_sk res TEEC_ORIGIN_TRUSTED_APP.

(** ** Steps *)

(** [denied] are the codes with which the system below fails for reasons of its
    own. *)
Context (denied : Z -> Prop).

Definition create_cause (a : astate) (ws : list wire) (rc : Z) : Prop :=
  denied rc \/
  (requested_key ws = Ret None /\ (rc = code TEE_ERROR_BAD_PARAMETERS \/ rc = code TEE_ERROR_NOT_SUPPORTED)) \/
  (is_Some (a_objs a !! a_next a) /\ rc = code TEE_ERROR_ACCESS_CONFLICT).

Definition generate_cause (a : astate) (ws : list wire) (rc : Z) : Prop :=
  denied rc \/
  (find_wire SK_ATTR_MODULUS_BITS ws = None /\ rc = code TEE_ERROR_BAD_PARAMETERS) \/
  ((exists (k : K) id d, key_attr k id = Some d /\ MAX_KEY_SIZE_BYTES < Z.of_nat (length d)) /\
   rc = code TEE_ERROR_SHORT_BUFFER) \/
  (is_Some (a_objs a !! a_next a) /\ rc = code TEE_ERROR_ACCESS_CONFLICT).

(** An operation with the key of the object [h]: its result, and why it fails. *)
Definition crypt (algorithms : Z -> option Z) (op_of : Z -> K -> list Z -> outcome (option (list Z)))
    (a : astate) (m h : Z) (d : list Z) (x : option (list Z)) : Prop :=
  exists o alg, a_objs a !! h = Some o /\ algorithms m = Some alg /\ op_of alg (ao_key o) d = Ret x.
Definition crypt_cause (algorithms : Z -> option Z) (op_of : Z -> K -> list Z -> outcome (option (list Z)))
    (a : astate) (m h : Z) (d : list Z) (n : Z) (rc : Z) : Prop :=
  denied rc \/
  (a_objs a !! h = None /\ rc = code TEE_ERROR_ITEM_NOT_FOUND) \/
  (algorithms m = None /\ rc = code TEE_ERROR_BAD_PARAMETERS) \/
  (crypt algorithms op_of a m h d None /\ rc = code TEE_ERROR_BAD_PARAMETERS) \/
  (exists s, crypt algorithms op_of a m h d (Some s) /\ n < Z.of_nat (length s) /\ rc = code TEE_ERROR_SHORT_BUFFER).

(** A buffer with [s] at its start. *)
Definition filled_with (s out : list Z) : list Z := s ++ drop (length s) out.

Inductive astep (a : astate) : call -> result -> astate -> Prop :=
| st_create attrs ty size parts k :
    let ws := client_wire <$> attrs in
    requested ws = Some (ty, size, parts) -> populated ty size parts = Ret (Some k) ->
    a_objs a !! a_next a = None ->
    astep a (CCreate attrs) (RHandle SKR_OK (Some (a_next a))) (add_obj (mkAobj ty size k (public ws)) a)
| st_create_fail attrs rc a' :
    create_cause a (client_wire <$> attrs) rc -> a' = a \/ a' = bump a ->
    astep a (CCreate attrs) (RHandle rc None) a'
| st_generate attrs bits size k md e :
    let ws := client_wire <$> attrs in
    generated_key ws bits size k md e -> a_objs a !! a_next a = None ->
    astep a (CGenerate attrs) (RHandle SKR_OK (Some (a_next a)))
      (add_obj (mkAobj TEE_TYPE_RSA_KEYPAIR size k (generated ws bits md e)) a)
| st_generate_fail attrs rc a' :
    generate_cause a (client_wire <$> attrs) rc -> a' = a \/ a' = bump a ->
    astep a (CGenerate attrs) (RHandle rc None) a'
| st_erase h x :
    a_objs a !! h = Some x -> astep a (CErase h) (RCode SKR_OK) (remove_obj h a)
| st_erase_fail h rc :
    denied rc \/ (a_objs a !! h = None /\ rc = code TEE_ERROR_ITEM_NOT_FOUND) ->
    astep a (CErase h) (RCode rc) a
| st_find attrs arr ids :
    ids ≡ₚ matches a (client_wire <$> attrs) ->
    let hs := take (length arr) ids in
    astep a (CFind attrs arr) (RFound SKR_OK (Some (hs ++ drop (length hs) arr)) (Some (Z.of_nat (length hs)))) a
| st_find_fail attrs arr rc :
    denied rc -> astep a (CFind attrs arr) (RFound rc (Some arr) None) a
| st_get h attrs x l :
    a_objs a !! h = Some x -> read_attrs (ao_attrs x) attrs = inl l ->
    astep a (CGet h attrs) (RAttrs SKR_OK (Some l)) a
| st_get_fail h attrs rc :
    denied rc \/ (a_objs a !! h = None /\ rc = code TEE_ERROR_ITEM_NOT_FOUND) \/
    (exists x e, a_objs a !! h = Some x /\ read_attrs (ao_attrs x) attrs = inr e /\ rc = code e) ->
    astep a (CGet h attrs) (RAttrs rc (Some attrs)) a
| st_sign m h d out s :
    crypt sign_algorithm sign_of a (mechanism m) h d (Some s) -> Z.of_nat (length s) <= Z.of_nat (length out) ->
    astep a (CSign m h d out) (RBytes SKR_OK (Some (filled_with s out)) (Some (Z.of_nat (length s)))) a
| st_sign_fail m h d out rc :
    crypt_cause sign_algorithm sign_of a (mechanism m) h d (Z.of_nat (length out)) rc ->
    astep a (CSign m h d out) (RBytes rc (Some out) (Some (Z.of_nat (length out)))) a
| st_decrypt m h d out s :
    crypt decrypt_algorithm decrypt_of a (mechanism m) h d (Some s) -> Z.of_nat (length s) <= Z.of_nat (length out) ->
    astep a (CDecrypt m h d out) (RBytes SKR_OK (Some (filled_with s out)) (Some (Z.of_nat (length s)))) a
| st_decrypt_fail m h d out rc :
    crypt_cause decrypt_algorithm decrypt_of a (mechanism m) h d (Z.of_nat (length out)) rc ->
    astep a (CDecrypt m h d out) (RBytes rc (Some out) (Some (Z.of_nat (length out)))) a
| st_digest m d out alg size :
    digest_algorithm (mechanism m) = Some (alg, size) -> size <= Z.of_nat (length out) ->
    Z.of_nat (length (digest_of alg d)) <= Z.of_nat (length out) ->
    astep a (CDigest m d out)
      (RBytes SKR_OK (Some (filled_with (digest_of alg d) out)) (Some (Z.of_nat (length (digest_of alg d))))) a
| st_digest_fail m d out rc :
    denied rc \/ (digest_algorithm (mechanism m) = None /\ rc = code TEE_ERROR_BAD_PARAMETERS) \/
    (exists alg size, digest_algorithm (mechanism m) = Some (alg, size) /\ rc = code TEE_ERROR_SHORT_BUFFER /\
       (Z.of_nat (length out) < size \/ Z.of_nat (length out) < Z.of_nat (length (digest_of alg d)))) ->
    astep a (CDigest m d out) (RBytes rc (Some out) (Some (Z.of_nat (length out)))) a.

(** Sequences of calls. *)
Inductive asteps : astate -> list call -> list result -> astate -> Prop :=
| asteps_nil a : asteps a [] [] a
| asteps_cons a c r a1 cs rs a2 : astep a c r a1 -> asteps a1 cs rs a2 -> asteps a (c :: cs) (r :: rs) a2.

(** ** Legal calls *)

(** Values the trusted application stores as they are. *)
Definition short_values (attrs : list SK_ATTRIBUTE) : Prop := Forall (fun x => sa_valueLen x < 2 ^ 15) attrs.

(** The arguments a C caller may pass.  A request for a new object names the
    attributes that are kept before the others, gives words where words are read,
    and key parts on which the TEE does not panic; buffers are not empty and their
    lengths are those of the C types; an operation does not panic on the input. *)
Definition legal (c : call) : Prop :=
  match c with
  | CCreate attrs =>
      let ws := client_wire <$> attrs in
      attrs_ok attrs /\ short_values attrs /\ words_given ws /\ requested_key (K := K) ws <> Undef /\
      public ws <> [] /\ exists priv, ws = public ws ++ priv
  | CGenerate attrs => attrs_ok attrs /\ short_values attrs /\ words_given (client_wire <$> attrs)
  | CErase h => 0 <= h < 2 ^ 32
  | CFind attrs arr => (attrs = [] \/ attrs_ok attrs) /\ 0 < Z.of_nat (length arr) < 2 ^ 32
  | CGet h attrs =>
      0 <= h < 2 ^ 32 /\ attrs_ok attrs /\ Forall (fun x => packable (sa_type x) = true) attrs
  | CSign m h d out =>
      0 <= h < 2 ^ 32 /\ 0 < Z.of_nat (length d) < 2 ^ 16 /\ 0 < Z.of_nat (length out) < 2 ^ 16 /\
      forall k alg, sign_algorithm (mechanism m) = Some alg -> sign_of alg k d <> Undef
  | CDecrypt m h d out =>
      0 <= h < 2 ^ 32 /\ 0 < Z.of_nat (length d) < 2 ^ 16 /\ 0 < Z.of_nat (length out) < 2 ^ 16 /\
      forall k alg, decrypt_algorithm (mechanism m) = Some alg -> decrypt_of alg k d <> Undef
  | CDigest m d out => 0 < Z.of_nat (length d) < 2 ^ 16 /\ 0 < Z.of_nat (length out) < 2 ^ 16
  end.

End Store.
Arguments aobj : clear implicits.
Arguments astate : clear implicits.
