(* ===== verification/Refinement.v ===== *)
(** * The stack refines the object store

    Every call of the secure-key library, run on libteec, the link to the secure
    world and the trusted application, is a step of the abstract store of
    ObjectStore.v. *)

From stdpp Require Import base numbers list gmap.
From S2P Require Import Prelude SkTypes AttrCodec Wires TeeClient SkLib SkLibTheorems LibTeec LibTeecTheorems.
From S2P Require Import TeeApi TaStorage TaCrypto TeeLogic TaTheorems TaQueryTheorems TaFindTheorems TaCryptoTheorems.
From S2P Require Import Link ObjectStore.

Section Represents.
Context {K : Type}.

(** ** The abstraction relation *)

(** The persistent object [o] is the object [x]. *)
Definition stored (x : aobj K) (o : pobj K) : Prop :=
  po_type o = ao_type x /\ po_size o = ao_size x /\ po_key o = Some (ao_key x) /\
  encodes (po_data o) (ao_attrs x) /\ Forall wire_full (ao_attrs x).

(** The trusted application's view represents the store: between calls no handle is
    open, the database, once there, holds the counter, and the other objects of the
    storage are those of the store. *)
Record represents (v : tview K) (a : astate K) : Prop := {
  rep_quiet : cleared v = v;
  rep_next : 0 <= a_next a < 2 ^ 32;
  rep_db : match v_store v !! db_obj_id with
           | Some o => po_data o = le_bytes 4 (a_next a)
           | None => a_next a = 0
           end;
  rep_objs n x : a_objs a !! n = Some x ->
    0 <= n < 2 ^ 32 /\ exists o, v_store v !! le_bytes 4 n = Some o /\ stored x o;
  rep_store id o : v_store v !! id = Some o -> id <> db_obj_id ->
    exists n x, 0 <= n < 2 ^ 32 /\ id = le_bytes 4 n /\ a_objs a !! n = Some x /\ stored x o
}.

Lemma le_bytes_inj n m : 0 <= n < 2 ^ 32 -> 0 <= m < 2 ^ 32 -> le_bytes 4 n = le_bytes 4 m -> n = m.
Proof. intros Hn Hm E. apply (f_equal le_val) in E. rewrite !le_val_bytes in E. rewrite !Z.mod_small in E; done. Qed.

Lemma id_not_db n : le_bytes 4 n <> db_obj_id.
Proof. done. Qed.

Lemma cleared_store (v : tview K) f : cleared v = v -> cleared (with_store f v) = with_store f v.
Proof. destruct v as [vs vo ve vt vp]. unfold cleared, with_store. cbn. by intros [= <- <- <- <-]. Qed.

Context {a : astate K} {v : tview K} (HR : represents v a).

Lemma rep_lookup h : 0 <= h < 2 ^ 32 ->
  match a_objs a !! h with
  | Some x => exists o, v_store v !! le_bytes 4 h = Some o /\ stored x o
  | None => v_store v !! le_bytes 4 h = None
  end.
Proof.
  intros Hh. destruct (a_objs a !! h) as [x|] eqn:E; [by apply (rep_objs _ _ HR) in E as [_ ?] |].
  destruct (v_store v !! le_bytes 4 h) as [o|] eqn:Es; [| done].
  destruct (rep_store _ _ HR _ _ Es (id_not_db h)) as (n & x & Hn & En & Ex & _).
  apply le_bytes_inj in En; [congruence | done | done].
Qed.

(** A stored identifier is one of the store's. *)
Lemma rep_none h : 0 <= h < 2 ^ 32 -> v_store v !! le_bytes 4 h = None -> a_objs a !! h = None.
Proof. intros Hh E. pose proof (rep_lookup h Hh) as HL. destruct (_ !! h); [| done]. destruct HL as (o & ? & _). congruence. Qed.
Lemma rep_some h : 0 <= h < 2 ^ 32 -> is_Some (v_store v !! le_bytes 4 h) -> is_Some (a_objs a !! h).
Proof. intros Hh [o E]. pose proof (rep_lookup h Hh) as HL. destruct (_ !! h); [by eexists | congruence]. Qed.

Lemma rep_opened v' : db_opened v v' -> represents v' a /\ counter v' (a_next a).
Proof.
  destruct HR as [Hq Hn Hdb Ho Hs]. intros [[[o Eo] ->] | (E & o & Hd & ->)].
  - split; [by split |]. rewrite Eo in Hdb. split; [done |]. by exists o.
  - rewrite E in Hdb. split.
    + split; [by apply cleared_store | done | | |].
      * cbn. by rewrite lookup_insert_eq, Hd, Hdb.
      * intros n x Ex. destruct (Ho n x Ex) as (? & o' & ? & ?). split; [done |]. exists o'. cbn.
        by rewrite lookup_insert_ne by (intros Heq; by apply (id_not_db n)).
      * intros id o' Es Hid. cbn in Es. rewrite lookup_insert_ne in Es by done. by apply Hs.
    + split; [by rewrite Hdb |]. exists o. cbn. by rewrite lookup_insert_eq, Hd, Hdb.
Qed.

Lemma rep_entered v' : entered v v' -> represents v' a.
Proof. intros [-> | Hd]; [done |]. by apply rep_opened. Qed.

Lemma u32_range n : 0 <= u32 n < 2 ^ 32.
Proof. unfold u32. apply Z.mod_pos_bound. lia. Qed.

Lemma rep_advance : counter v (a_next a) -> represents (advance (a_next a) v) (bump a).
Proof.
  intros (_ & o & Eo & Ed). destruct HR as [Hq Hn Hdb Ho Hs]. unfold advance. split.
  - by apply cleared_store.
  - apply u32_range.
  - cbn. by rewrite lookup_alter_eq, Eo.
  - intros n x Ex. destruct (Ho n x Ex) as (? & o' & ? & ?). split; [done |]. exists o'. cbn.
    by rewrite lookup_alter_ne by (intros Heq; by apply (id_not_db n)).
  - intros id o' Es Hid. cbn in Es. rewrite lookup_alter_ne in Es by done. by apply Hs.
Qed.
End Represents.

Section Changes.
Context {K : Type}.

Lemma rep_add (a : astate K) v x o : represents v a -> counter v (a_next a) -> stored x o ->
  represents (with_store <[le_bytes 4 (a_next a) := o]> (advance (a_next a) v)) (add_obj x a).
Proof.
  intros HR Hc Hx. pose proof (rep_next _ _ HR) as Hn0. pose proof (rep_advance HR Hc) as [Hq Hn Hdb Ho Hs]. split.
  - by apply cleared_store.
  - done.
  - cbn [v_store with_store]. rewrite lookup_insert_ne by done. exact Hdb.
  - intros n y Ey. cbn in Ey. apply lookup_insert_Some in Ey as [[<- <-] | [Hne Ey]].
    + split; [done |]. exists o. cbn [v_store with_store]. by rewrite lookup_insert_eq.
    + destruct (Ho n y Ey) as (Hr & o' & ? & ?). split; [done |]. exists o'. cbn [v_store with_store].
      rewrite lookup_insert_ne; [done |]. intros E. apply Hne. by apply le_bytes_inj.
  - intros id o' Es Hid. cbn [v_store with_store] in Es. apply lookup_insert_Some in Es as [[<- <-] | [Hne Es]].
    + exists (a_next a), x. cbn. by rewrite lookup_insert_eq.
    + destruct (Hs _ _ Es Hid) as (n & y & ? & ? & Ey & ?). exists n, y. cbn. split; [done |]. split; [done |]. split; [| done].
      rewrite lookup_insert_ne; [done |]. congruence.
Qed.

Lemma rep_remove (a : astate K) v h : represents v a -> 0 <= h < 2 ^ 32 ->
  represents (with_store (delete (le_bytes 4 h)) v) (remove_obj h a).
Proof.
  intros [Hq Hn Hdb Ho Hs] Hh. split.
  - by apply cleared_store.
  - done.
  - cbn. rewrite lookup_delete_ne by done. exact Hdb.
  - intros n y Ey. cbn in Ey. apply lookup_delete_Some in Ey as [Hne Ey].
    destruct (Ho n y Ey) as (Hr & o' & ? & ?). split; [done |]. exists o'. cbn.
    rewrite lookup_delete_ne; [done |]. intros E. apply Hne. by apply le_bytes_inj.
  - intros id o' Es Hid. cbn in Es. apply lookup_delete_Some in Es as [Hne Es].
    destruct (Hs _ _ Es Hid) as (n & y & ? & ? & Ey & ?). exists n, y. cbn. split; [done |]. split; [done |]. split; [| done].
    rewrite lookup_delete_ne; [done |]. intros ->. by apply Hne.
Qed.
End Changes.

Section Refines.
Context {W S K : Type} `{HD : TeeDriver W, HS : TEE S, HC : Crypto K, HL : !TEE_laws S K}.
Context `{HDL : !Driver_laws W, HLL : !Link_laws W S K}.

(** The codes with which the system below the client fails for its own reasons: the
    client API gives no context, session or memory, the link fails, or the TEE
    refuses. *)
Inductive denied : Z -> Prop :=
| denied_outage rc : outage rc -> denied rc
| denied_link res o : link_down res o -> denied (map_teec_err_to_sk res o)
| denied_tee res : refuses res -> denied (code res).

(** The result [r] of the call [c] on the store [a], and the view it leaves. *)
Definition simulates (a : astate K) (c : call) (r : result) (v' : tview K) : Prop :=
  exists a', astep denied a c r a' /\ represents v' a'.

Definition refines (c : call) : Prop :=
  forall a v, represents v a -> legal (K := K) c ->
    runs (perform c) (sees v) (fun r w => simulates a c r (view (secure w))).

Lemma simulates_same a c r v : represents v a -> astep denied a c r a -> simulates a c r v.
Proof. intros HR Hs. by exists a. Qed.

Lemma rep_cleared (a : astate K) v : represents v a -> represents (cleared v) a.
Proof. intros HR. by rewrite (rep_quiet _ _ HR). Qed.

(** The client's call around the session it runs in; [f] is the result it gives. *)
Lemma refines_session {A} a v c (r : A) body (f : Z * A -> result) :
  represents v a ->
  (forall rc, denied rc -> astep denied a c (f (rc, r)) a) ->
  (forall ctx sess v', initialised (W := W) ctx -> sess_ctx sess = ctx -> represents v' a -> counter v' (a_next a) ->
     session_runs sess v' (body ctx sess) (fun x v2 => simulates a c (f x) (cleared v2))) ->
  runs (with_ta_session r body) (sees v) (fun x w => simulates a c (f x) (view (secure w))).
Proof.
  intros HR Hden HB. apply (with_session_runs v r body (fun x v' => simulates a c (f x) v')).
  - by destruct HR.
  - intros rc v' Ho He. apply simulates_same; [by eapply rep_entered | by apply Hden, denied_outage].
  - intros ctx sess v' Hi Hs Hd. destruct (rep_opened HR _ Hd). by apply HB.
Qed.

(** The result of a call from what the library's function returns. *)
Lemma refines_result {A} a v c (m : st W (Z * A)) g (f : Z * A -> result) :
  (forall x, g x = mret (f x)) ->
  runs m (sees v) (fun x w => simulates a c (f x) (view (secure w))) ->
  runs (m ≫= g) (sees v) (fun r w => simulates a c r (view (secure w))).
Proof. intros Hg Hm. eapply runs_bind; [exact Hm |]. intros x. rewrite Hg. by apply runs_ret. Qed.

(** The command of a call in its session: [HQ] is what the trusted application does,
    the other hypotheses are the steps of the store that answer it. *)
Lemma refines_invoke {A} a v c sess cmd types ps ips (r : A) k (f : Z * A -> result)
    (Q : list Z -> Z * list TEE_Param -> tview K -> Prop) :
  represents v a ->
  (forall rc, denied rc -> astep denied a c (f (rc, r)) a) ->
  plain_op (mkOp types ps) ips -> Forall usable ips ->
  (forall addrs fuel, length addrs = 4%nat -> Forall (fun a => Z.land a 3 = 0) addrs ->
     (size (v_store v) < fuel)%nat ->
     wps v (TA_InvokeCommandEntryPoint fuel cmd (ta_types ips) (zip_with ta_param addrs ips)) (Q addrs)) ->
  (forall addrs res qs v', Q addrs (res, qs) v' -> res <> TEE_SUCCESS -> simulates a c (f (code res, r)) (cleared v')) ->
  (forall addrs qs v', Q addrs (TEE_SUCCESS, qs) v' ->
     exists x, k (params_after ps ips qs) = Ret x /\ simulates a c (f x) (cleared v')) ->
  session_runs sess v (invoke sess cmd types ps r k) (fun x v2 => simulates a c (f x) (cleared v2)).
Proof.
  intros HR Hden Hp Hu HQ Hf Hk. eapply invoke_runs; [done.. | | exact Hf | exact Hk].
  intros res o Hd. apply simulates_same; [by apply rep_cleared |]. by apply Hden, denied_link.
Qed.

Lemma refines_erase h : refines (CErase h).
Proof.
  intros a v HR Hh. cbn [perform legal] in *. unfold SK_EraseObject.
  eapply runs_bind; [| intros rc; apply runs_ret; intros w HQ; exact HQ].
  eapply runs_bind; [| intros x; apply runs_ret; intros w HQ; exact HQ].
  assert (Hden : forall rc, denied rc -> astep denied a (CErase h) (RCode rc) a) by (intros; apply st_erase_fail; by left).
  apply (refines_session a v (CErase h) tt _ (fun x => RCode x.1)); [done.. |].
  intros ctx sess v' _ _ HR' _.
  eapply (refines_invoke _ _ _ _ _ _ _ [IP_value TEEC_VALUE_INPUT h 0; IP_none; IP_none; IP_none] _ _
    (fun x => RCode x.1) (fun addrs r v2 => erased h v' r.1 v2)); [done.. | repeat constructor | repeat constructor | | |].
  - intros addrs fuel Hl _ _. do 4 (destruct addrs as [|? addrs]; [discriminate Hl |]). destruct addrs; [| discriminate Hl].
    eapply wps_mono; [apply (erase_wps v' h 0 [NParam; NParam; NParam]) |]. intros r v2 [_ HE]. exact HE.
  - intros addrs res qs v2 HE Hne. cbn in HE. destruct HE as [(-> & _) | [Hc ->]]; [done |].
    apply simulates_same; [by apply rep_cleared |]. cbn. apply st_erase_fail.
    destruct Hc as [Hr | [-> Hn]]; [left; by apply denied_tee | right; split; [| done]].
    by eapply rep_none.
  - intros addrs qs v2 HE. cbn in HE. eexists. split; [done |]. cbn.
    destruct HE as [(_ & Hs & ->) | [[Hr | [? _]] _]]; [| by apply refuses_not_success in Hr | done].
    destruct (rep_some HR' h Hh Hs) as [x Ex].
    exists (remove_obj h a). split; [by eapply st_erase |]. apply rep_cleared. by apply rep_remove.
Qed.

(** The part of a call around a shared memory. *)
Lemma refines_shm {A} a v c sess size flags (r : A) body (f : Z * A -> result) :
  represents v a -> (forall rc, denied rc -> astep denied a c (f (rc, r)) a) ->
  initialised (W := W) (sess_ctx sess) -> flags ∈ [1; 2; 3] -> 0 < size ->
  (forall shm, shm_shadow_addr shm = 0 -> shm_size shm = size -> shm_flags shm = flags ->
     Z.of_nat (length (shm_buffer shm)) = size -> Z.land (shm_addr shm) 3 = 0 ->
     session_runs sess v (body shm) (fun x v2 => simulates a c (f x) (cleared v2))) ->
  session_runs sess v (with_shm (sess_ctx sess) size flags r body) (fun x v2 => simulates a c (f x) (cleared v2)).
Proof.
  intros HR Hden Hi Hfl Hs HB. apply with_shm_runs; [done.. | | done].
  intros rc Ho. apply simulates_same; [by apply rep_cleared |]. by apply Hden, denied_outage.
Qed.

(** What libteec passes for a whole memory, and what the trusted application gets. *)
Definition whole_ip (m : TEEC_SharedMemory) : tee_ioctl_param :=
  IP_memref (whole_attr (shm_flags m)) 0 (shm_size m) (shm_id m) (shm_buffer m).

Lemma plain_whole_ip m : shm_shadow_addr m = 0 -> shm_flags m ∈ [1; 2; 3] -> plain TEEC_MEMREF_WHOLE (whole m) (whole_ip m).
Proof. by constructor. Qed.

Lemma ta_param_whole addr m : Z.of_nat (length (shm_buffer m)) = shm_size m ->
  ta_param addr (whole_ip m) = MParam addr (Some (shm_buffer m)) (Z.of_nat (length (shm_buffer m))).
Proof. intros Hl. cbn. rewrite <- Hl, Nat2Z.id, drop_0, take_ge by lia. done. Qed.

Lemma usable_whole m : 0 < shm_size m -> Z.of_nat (length (shm_buffer m)) = shm_size m -> usable (whole_ip m).
Proof. cbn. lia. Qed.

Lemma public_split (ws priv : list wire) : ws = public ws ++ priv ->
  Forall (fun w => packable (w_type w) = true) (public ws) /\ Forall (fun w => packable (w_type w) = false) priv.
Proof.
  intros E. split; [apply Forall_forall; by intros w [? _]%list_elem_of_filter |].
  assert (Hf : public priv = []).
  { apply (f_equal public) in E. unfold public in E. rewrite filter_app in E.
    apply (f_equal length) in E. rewrite length_app in E.
    assert (Hid : forall l : list wire, filter (fun w => packable (w_type w) = true) (filter (fun w => packable (w_type w) = true) l)
      = filter (fun w => packable (w_type w) = true) l).
    { intros l. induction l as [|w l IH]; [done |]. rewrite !filter_cons. case_decide; [| done].
      rewrite filter_cons_True by done. by rewrite IH. }
    rewrite Hid in E. apply length_zero_iff_nil. unfold public. lia. }
  apply Forall_forall. intros w Hw. destruct (packable (w_type w)) eqn:Ep; [| done].
  assert (w ∈ public priv) as Hp by (by apply list_elem_of_filter). rewrite Hf in Hp. by apply elem_of_nil in Hp.
Qed.

(** The wires of legal attributes with short values. *)
Lemma client_wires_ok attrs : Forall sk_wf attrs -> Forall wire_ok (client_wire <$> attrs).
Proof. intros H. apply Forall_fmap. eapply Forall_impl; [exact H | apply client_wire_ok]. Qed.

Lemma client_wires_full attrs : Forall sk_wf attrs -> short_values attrs ->
  Forall wire_full (client_wire <$> attrs).
Proof.
  intros Hw Hs. apply Forall_fmap, Forall_forall. intros x Hx. rewrite Forall_forall in Hw.
  unfold short_values in Hs. rewrite Forall_forall in Hs.
  destruct (Hw x Hx) as (_ & Hl & Hv). specialize (Hs x Hx). unfold wire_full, client_wire, payload_of. cbn.
  destruct (sa_valueLen x =? 0) eqn:E; boolz; cbn; [done |]. destruct (sa_value x); cbn; lia.
Qed.

Lemma wire_full_storable w : wire_full w -> storable w.
Proof. unfold wire_full, storable. by destruct (w_payload w). Qed.

Lemma wires_size_app l k : wires_size (l ++ k) = wires_size l + wires_size k.
Proof. induction l as [|w l IH]; [done |]. cbn [app]. unfold wires_size in *. cbn [foldr]. lia. Qed.

(** A creation that failed changed the counter at most. *)
Lemma creation_failed (a : astate K) v c r v' : represents v a -> counter v (a_next a) -> only_counter (a_next a) v v' ->
  (forall a', a' = a \/ a' = bump a -> astep denied a c r a') -> simulates a c r (cleared v').
Proof.
  intros HR Hc Hv Ha. destruct Hv as [-> | ->].
  - exists a. split; [apply Ha; by left | by apply rep_cleared].
  - exists (bump a). split; [apply Ha; by right | by apply rep_cleared, rep_advance].
Qed.

(** Four aligned addresses. *)
Lemma four_addrs addrs : length addrs = 4%nat -> Forall (fun a => Z.land a 3 = 0) addrs ->
  exists a0 a1 a2 a3, addrs = [a0; a1; a2; a3] /\ Z.land a0 3 = 0 /\ Z.land a1 3 = 0 /\ Z.land a2 3 = 0.
Proof.
  intros Hl Ha. destruct addrs as [|a0 [|a1 [|a2 [|a3 [|]]]]]; try discriminate Hl.
  inversion Ha as [|? ? H0 Ha1]; subst. inversion Ha1 as [|? ? H1 Ha2]; subst. inversion Ha2 as [|? ? H2 _]; subst.
  by exists a0, a1, a2, a3.
Qed.

Lemma encodes_ok b ws : encodes b ws -> Forall wire_ok ws /\ ent_id (Z.of_nat (length ws)) + wires_size ws < 2 ^ 32.
Proof. intros (_ & ? & _ & _ & ? & ?). split; [done | lia]. Qed.

(** A creation request in a memory the trusted application has mapped. *)
Lemma create_request_wps v n addr b ws priv k :
  counter v n -> Z.land addr 3 = 0 -> encodes b ws -> Forall wire_full ws -> ws = public ws ++ priv ->
  public ws <> [] -> words_given ws -> requested_key (K := K) ws = Ret k ->
  let ps := [MParam addr (Some b) (Z.of_nat (length b)); VParam 0 0; NParam; NParam] in
  wps (W := S) v (TA_CreateObject create_types ps) (creation n 0 ps ws k (fun d => encodes d (public ws)) v).
Proof.
  intros Hc Ha He Hfull Epriv Hne Hw Hk ps. destruct (public_split ws priv Epriv) as [Hpub Hpriv].
  destruct (encodes_unpack b addr ws Ha He) as (refs & Hu & Er). destruct (encodes_ok b ws He) as [Hok H32].
  assert (Hsub : Forall wire_ok (public ws) /\ Forall wire_ok priv /\ Forall storable (public ws)).
  { rewrite Epriv in Hok, Hfull. apply Forall_app in Hok as [? ?]. apply Forall_app in Hfull as [Hf _].
    split_and!; [done.. |]. eapply Forall_impl; [exact Hf | apply wire_full_storable]. }
  destruct Hsub as (Hok1 & Hok2 & Hst).
  destruct (refs_pack b refs (public ws) priv) as (data & Hp & Hd); [by rewrite <- Epriv | done.. | |].
  { pose proof (wires_size_nonneg priv Hok2). rewrite Epriv, length_app, wires_size_app in H32. unfold_ent. lia. }
  eapply wps_mono; [by apply (create_object_wps v n addr b 0 0 NParam NParam refs ws data k) |].
  intros r v2 [HF | (ty & size & parts & key & ? & ? & -> & d & <- & ?)]; [by left | right].
  exists ty, size, parts, key. split_and!; [done.. |]. split; [done |]. by exists data.
Qed.

Lemma refines_create attrs : refines (CCreate attrs).
Proof.
  intros a v HR (Hok & Hshort & Hw & Hk & Hne & priv & Epriv). cbn [perform]. set (ws := client_wire <$> attrs) in *.
  set (c := CCreate attrs). pose proof Hok as (Hwf & Hnil & H32).
  assert (Hn : 0 < Z.of_nat (length attrs)) by (destruct attrs; [done | len]).
  assert (Hden : forall rc, denied rc -> astep denied a c (RHandle rc None) a)
    by (intros; apply st_create_fail; [by left | by left]).
  unfold SK_CreateObject. cbn [is_null orb negb]. rewrite (proj2 (Z.leb_gt _ _)) by lia. cbn [orb].
  apply (refines_result _ _ _ _ _ (fun x => RHandle x.1 x.2)); [by intros [] |].
  apply (refines_session a v c None _ (fun x => RHandle x.1 x.2)); [done.. |].
  intros ctx sess v' Hi <- HR' Hc. eapply runs_lift; [by apply get_attr_size_some |].
  apply refines_shm; [done.. | by repeat constructor | by apply attrs_size_pos |]. intros shm Hsh Hs Hf Hl _.
  destruct (pack_shm_encodes shm attrs) as (b & Ep & Lb & He); [done.. | congruence |].
  eapply runs_lift; [exact Ep |]. cbn [Z.eqb negb SKR_OK]. set (m := set_buffer shm b).
  assert (Hml : Z.of_nat (length (shm_buffer m)) = shm_size m) by (cbn; lia).
  destruct (requested_key ws) as [k|] eqn:Ek; [| done].
  eapply (refines_invoke _ _ _ _ _ _ _ [whole_ip m; IP_value TEEC_VALUE_OUTPUT 0 0; IP_none; IP_none] _ _
    (fun x => RHandle x.1 x.2)
    (fun _ r v2 => exists addr,
       creation (a_next a) 0 [MParam addr (Some b) (Z.of_nat (length b)); VParam 0 0; NParam; NParam] ws k
         (fun d => encodes d (public ws)) v' r v2)); [done.. | | | | |].
  - eapply plain_op4; [reflexivity | apply plain_whole_ip; [done | cbn; rewrite Hf; set_solver] | constructor..].
  - constructor; [apply usable_whole; [cbn; rewrite Hs; by apply attrs_size_pos | done] | by repeat constructor].
  - intros addrs fuel Hla Hal _. destruct (four_addrs addrs Hla Hal) as (a0 & a1 & a2 & a3 & -> & Ha0 & _).
    cbn [zip_with]. rewrite ta_param_whole by done. cbn [shm_buffer m set_buffer].
    assert (ta_types [whole_ip m; IP_value TEEC_VALUE_OUTPUT 0 0; IP_none; IP_none] = create_types) as ->
      by (cbn; by rewrite Hf).
    eapply wps_mono; [eapply create_request_wps; [done | exact Ha0 | exact He | by apply client_wires_full | exact Epriv | done..] |].
    intros r v2 HQ. by exists a0.
  - intros _ res qs v2 (addr & [(_ & Hcause & _ & Hv2) | (? & ? & ? & ? & _ & _ & E & _)]) Hres; [| by injection E].
    cbn [fst] in *. apply (creation_failed a v' (CCreate attrs)); [done | done | exact Hv2 |]. intros a' Ha'. apply st_create_fail; [| done].
    destruct Hcause as [[Hr | [-> Hr]] | [-> Hs2]].
    + left. by apply denied_tee.
    + right. left. split; [done |]. by destruct Hr as [-> | ->]; [left | right].
    + right. right. split; [| done]. by eapply rep_some; [| apply HR' |].
  - intros _ qs v2 (addr & [([] & _) | (ty & size & parts & key & Hreq & -> & E & d & Hd & Hnone & ->)]); [done |].
    injection E as ->. eexists. split; [reflexivity |]. cbn -[u32 simulates]. rewrite (u32_small (a_next a)) by apply Hc.
    exists (add_obj (mkAobj ty size key (public ws)) a). split.
    + eapply st_create; [exact Hreq | unfold requested_key in Ek; by rewrite Hreq in Ek |]. eapply rep_none; [exact HR' | apply HR' | done].
    + apply rep_cleared, rep_add; [done.. |]. split_and!; [done.. |].
      pose proof (client_wires_full attrs Hwf Hshort) as HF. fold ws in HF. rewrite Epriv in HF. by apply Forall_app in HF as [? _].
Qed.

Lemma value_wire_full ty d : Z.of_nat (length d) <= MAX_KEY_SIZE_BYTES -> wire_full (value_wire ty d).
Proof. intros Hl. unfold wire_full, value_wire. cbn. destruct d; [done |]. cbn. unfold MAX_KEY_SIZE_BYTES in *. cbn in *. lia. Qed.

Lemma generated_full ws bits size (k : K) md e : Forall wire_full ws -> generated_key ws bits size k md e ->
  Forall wire_full (generated ws bits md e).
Proof.
  intros Hf (Hb & _ & _ & _ & Hm & He). rewrite Forall_forall in Hf.
  assert (Hin : forall ty, Forall wire_full (option_list (find_wire ty ws))).
  { intros ty. destruct (find_wire ty ws) as [w|] eqn:E; [| constructor]. constructor; [| constructor].
    apply Hf. by apply find_wire_in in E as [? _]. }
  unfold generated. repeat (apply Forall_app; split); [| apply Hin | apply Hin].
  repeat constructor; try (by apply value_wire_full); try done. apply Hf. by apply find_wire_in in Hb as [? _].
Qed.

Lemma refines_generate attrs : refines (CGenerate attrs).
Proof.
  intros a v HR (Hok & Hshort & Hw). cbn [perform]. set (ws := client_wire <$> attrs) in *.
  set (c := CGenerate attrs). pose proof Hok as (Hwf & Hnil & H32).
  assert (Hn : 0 < Z.of_nat (length attrs)) by (destruct attrs; [done | len]).
  assert (Hden : forall rc, denied rc -> astep denied a c (RHandle rc None) a)
    by (intros; apply st_generate_fail; [by left | by left]).
  pose proof (client_wires_full attrs Hwf Hshort) as Hfull. fold ws in Hfull.
  unfold SK_GenerateKeyPair. cbn [is_null orb negb]. rewrite (proj2 (Z.leb_gt _ _)) by lia. cbn [orb].
  apply (refines_result _ _ _ _ _ (fun x => RHandle x.1 x.2)); [by intros [] |].
  apply (refines_session a v c None _ (fun x => RHandle x.1 x.2)); [done.. |].
  intros ctx sess v' Hi <- HR' Hc. eapply runs_lift; [by apply get_attr_size_some |].
  apply refines_shm; [done.. | by repeat constructor | by apply attrs_size_pos |]. intros shm Hsh Hs Hf Hl _.
  destruct (pack_shm_encodes shm attrs) as (b & Ep & Lb & He); [done.. | congruence |].
  eapply runs_lift; [exact Ep |]. cbn [Z.eqb negb SKR_OK]. set (m := set_buffer shm b).
  assert (Hml : Z.of_nat (length (shm_buffer m)) = shm_size m) by (cbn; lia).
  eapply runs_lift; [done |]. cbn [mechanism].
  eapply (refines_invoke _ _ _ _ _ _ _ [IP_value TEEC_VALUE_INPUT SKM_RSA_PKCS_KEY_PAIR_GEN 0; whole_ip m;
      IP_value TEEC_VALUE_OUTPUT 0 0; IP_none] _ _ (fun x => RHandle x.1 x.2)
    (fun _ r v2 => exists addr, key_generated (a_next a) 0 [VParam SKM_RSA_PKCS_KEY_PAIR_GEN 0;
        MParam addr (Some b) (Z.of_nat (length b)); VParam 0 0; NParam] ws v' r v2)); [done.. | | | | |].
  - eapply plain_op4; [reflexivity | constructor | apply plain_whole_ip; [done | cbn; rewrite Hf; set_solver] | constructor..].
  - constructor; [done |]. constructor; [apply usable_whole; [cbn; rewrite Hs; by apply attrs_size_pos | done] | by repeat constructor].
  - intros addrs fuel Hla Hal _. destruct (four_addrs addrs Hla Hal) as (a0 & a1 & a2 & a3 & -> & _ & Ha1 & _).
    cbn [zip_with]. rewrite ta_param_whole by done. cbn [shm_buffer m set_buffer].
    assert (ta_types [IP_value TEEC_VALUE_INPUT SKM_RSA_PKCS_KEY_PAIR_GEN 0; whole_ip m;
      IP_value TEEC_VALUE_OUTPUT 0 0; IP_none] = generate_types) as -> by (cbn; by rewrite Hf).
    destruct (encodes_unpack b a1 _ Ha1 He) as (refs & Hu & Er).
    eapply wps_mono; [eapply (generate_wps v' (a_next a) a1 0 0 0 b refs ws NParam); [done.. | |] |].
    + by apply client_wires_ok.
    + eapply Forall_impl; [exact Hfull | apply wire_full_storable].
    + intros r v2 HQ. by exists a1.
  - intros _ res qs v2 (addr & [(_ & Hcause & _ & Hv2) | (? & ? & ? & ? & ? & _ & E & _)]) Hres; [| by injection E].
    cbn [fst] in *. apply (creation_failed a v' (CGenerate attrs)); [done | done | exact Hv2 |].
    intros a' Ha'. apply st_generate_fail; [| done].
    destruct Hcause as [[Hr | [[-> Hr] | [-> Hr]]] | [-> Hs2]].
    + left. by apply denied_tee.
    + right. left. by split.
    + right. right. left. by split.
    + right. right. right. split; [| done]. by eapply rep_some; [| apply HR' |].
  - intros _ qs v2 (addr & [([] & _) | (bits & size & k & md & e & Hg & E & d & Hd & Hnone & ->)]); [done |].
    injection E as ->. eexists. split; [reflexivity |]. cbn -[u32 simulates]. rewrite (u32_small (a_next a)) by apply Hc.
    exists (add_obj (mkAobj TEE_TYPE_RSA_KEYPAIR size k (generated ws bits md e)) a). split.
    + eapply st_generate; [exact Hg |]. eapply rep_none; [exact HR' | apply HR' | done].
    + apply rep_cleared, rep_add; [done.. |]. split_and!; [done.. |]. by eapply generated_full.
Qed.

End Refines.
