(* ===== verification/RefinementReads.v ===== *)
(** * The reading calls of the stack

    Search, query and the cryptographic commands: each returns what the abstract
    store of ObjectStore.v says, and leaves the store as it was. *)

From stdpp Require Import base numbers list gmap.
From S2P Require Import Prelude SkTypes AttrCodec Wires TeeClient SkLib SkLibTheorems LibTeec LibTeecTheorems.
From S2P Require Import TeeApi TaStorage TaCrypto TeeLogic TaTheorems TaQueryTheorems TaFindTheorems TaCryptoTheorems.
From S2P Require Import Link ObjectStore Refinement.

Section Reads.
Context {W S K : Type} `{HD : TeeDriver W, HS : TEE S, HC : Crypto K, HL : !TEE_laws S K}.
Context `{HDL : !Driver_laws W, HLL : !Link_laws W S K}.

(** ** Search *)

(** The attributes of the object with an identifier. *)
Definition attrs_of (a : astate K) (id : list Z) : list wire :=
  match a_objs a !! le_val id with Some x => ao_attrs x | None => [] end.

Lemma le_val_id n : 0 <= n < 2 ^ 32 -> le_val (le_bytes 4 n) = n.
Proof. intros Hn. rewrite le_val_bytes. by apply Z.mod_small. Qed.

Lemma rep_says (a : astate K) v : represents v a -> storage_says v (attrs_of a).
Proof.
  intros HR id o Ho Hid. destruct (rep_store _ _ HR _ _ Ho Hid) as (n & x & Hn & -> & Ex & _ & _ & _ & He & Hf).
  unfold attrs_of. rewrite le_val_id, Ex by done. split_and!; [done | done |].
  eapply Forall_impl; [exact Hf | intros w Hw; unfold null_ok; by apply wire_full_null].
Qed.

Lemma matches_elem (a : astate K) txs n :
  n ∈ matches a txs <-> exists x, a_objs a !! n = Some x /\ template_in (ao_attrs x) txs = true.
Proof.
  unfold matches. rewrite list_elem_of_fmap. split.
  - intros ([k x] & -> & [Ht Hk]%list_elem_of_filter). apply elem_of_map_to_list in Hk. by exists x.
  - intros (x & Ex & Ht). exists (n, x). split; [done |]. apply list_elem_of_filter. split; [done |]. by apply elem_of_map_to_list.
Qed.

Lemma matches_NoDup (a : astate K) txs : NoDup (matches a txs).
Proof.
  unfold matches. pose proof (NoDup_fst_map_to_list (a_objs a)) as Hn. revert Hn.
  induction (map_to_list (a_objs a)) as [|[k x] l IH]; intros Hn; [constructor |]. cbn in Hn.
  apply NoDup_cons in Hn as [Hk Hn]. rewrite filter_cons. case_decide; [| by apply IH]. cbn. constructor; [| by apply IH].
  intros Hin. apply Hk. apply list_elem_of_fmap in Hin as (y & -> & Hy). apply list_elem_of_filter in Hy as [_ Hy].
  by apply list_elem_of_fmap_2.
Qed.

(** The identifiers a search yields are those of the objects that match. *)
Lemma listing_matches (a : astate K) v ids txs : represents v a -> listing v ids ->
  le_val <$> filter (qualifies (attrs_of a) txs) ids ≡ₚ matches a txs /\
  Forall is_id (filter (qualifies (attrs_of a) txs) ids).
Proof.
  intros HR Hl.
  assert (Hq : forall id, id ∈ filter (qualifies (attrs_of a) txs) ids ->
    exists n x, 0 <= n < 2 ^ 32 /\ id = le_bytes 4 n /\ a_objs a !! n = Some x /\ template_in (ao_attrs x) txs = true).
  { intros id [[Hdb Ht] Hid]%list_elem_of_filter. destruct (listing_elem v ids id Hl Hid) as [o Ho].
    destruct (rep_store _ _ HR _ _ Ho Hdb) as (n & x & Hn & -> & Ex & _). exists n, x. split_and!; [lia.. | done | done |].
    unfold attrs_of in Ht. by rewrite le_val_id, Ex in Ht. }
  split; [| apply Forall_forall; intros id Hid; by destruct (Hq id Hid) as (n & x & _ & -> & _)].
  apply NoDup_Permutation; [| apply matches_NoDup |].
  - assert (Hnd : NoDup (filter (qualifies (attrs_of a) txs) ids)).
    { apply NoDup_filter. rewrite Hl. apply NoDup_fst_map_to_list. }
    revert Hnd Hq. induction (filter _ ids) as [|id l IH]; intros Hnd Hq; [constructor |].
    apply NoDup_cons in Hnd as [Hni Hnd]. cbn. constructor; [| apply IH; [done |]; intros; apply Hq; by right].
    intros (id' & E & Hid')%list_elem_of_fmap. apply Hni.
    destruct (Hq id) as (n & _ & Hn & -> & _); [by left |]. destruct (Hq id') as (n' & _ & Hn' & -> & _); [by right |].
    rewrite !le_val_id in E by done. by subst.
  - intros n. rewrite matches_elem, list_elem_of_fmap. split.
    + intros (id & -> & Hid). destruct (Hq id Hid) as (n & x & Hn & -> & Ex & Ht). exists x. by rewrite le_val_id.
    + intros (x & Ex & Ht). destruct (rep_objs _ _ HR _ _ Ex) as (Hn & o & Ho & _).
      exists (le_bytes 4 n). split; [by rewrite le_val_id |]. apply list_elem_of_filter. split.
      * split; [apply id_not_db |]. unfold attrs_of. by rewrite le_val_id, Ex.
      * rewrite Hl. apply list_elem_of_fmap. exists (le_bytes 4 n, o). split; [done |]. by apply elem_of_map_to_list.
Qed.

Lemma handles_of_ids l rest : Forall is_id l -> handles_of (concat l ++ rest) (length l) = Ret (le_val <$> l).
Proof.
  induction 1 as [|id l Hid _ IH]; [done |]. cbn [concat length handles_of]. unfold is_id in Hid.
  unfold read_u32. rewrite <- !app_assoc. rewrite buf_read_ret by len.
  rewrite drop_0, take_app_length' by done. cbn [fmap outcome_fmap mbind outcome_bind].
  rewrite drop_app_length' by done. by rewrite IH.
Qed.

Lemma splice_all b d : length d = length b -> splice b 0 d = d.
Proof. intros E. unfold splice. cbn. by rewrite drop_ge, app_nil_r by lia. Qed.

Lemma template_request attrs : attrs = [] \/ attrs_ok attrs -> request (template attrs) (Z.of_nat (length attrs)) attrs.
Proof.
  intros [-> | Hok]; [by left |]. right. destruct attrs as [|x attrs]; [by destruct Hok as (_ & [] & _) | done].
Qed.

Lemma client_wires_null attrs : Forall sk_wf attrs -> Forall null_ok (client_wire <$> attrs).
Proof.
  intros H. apply Forall_fmap. eapply Forall_impl; [exact H |]. intros x (_ & _ & Hv). unfold null_ok. cbn.
  unfold payload_of. destruct (sa_value x); [| done]. destruct (sa_valueLen x =? 0) eqn:E; boolz; [done |]. cbn. discriminate.
Qed.

(** The answer of a search in the caller's terms. *)
Lemma refines_found (a : astate K) v attrs arr oaddr b obuf p0 p1 p2 p3 qs :
  represents v a -> Z.of_nat (length obuf) = 4 * Z.of_nat (length arr) ->
  found (attrs_of a) (client_wire <$> attrs) v oaddr b obuf [p0; p1; p2; p3] (TEE_SUCCESS, qs) ->
  exists out n hs, qs = [p0; MParam oaddr (Some out) (Z.of_nat (length obuf)); VParam (Z.of_nat n) b; p3] /\
    length out = length obuf /\ (n <= length arr)%nat /\
    handles_of out n = Ret hs /\
    astep denied a (CFind attrs arr) (RFound SKR_OK (Some (hs ++ drop n arr)) (Some (Z.of_nat n))) a.
Proof.
  intros HR Hlen (ids & Hids & E). cbn zeta in E. rewrite Hlen in E.
  replace (Z.to_nat (4 * Z.of_nat (length arr) / 4)) with (length arr) in E
    by (rewrite Z.mul_comm, Z.div_mul by done; lia).
  destruct (listing_matches a v ids (client_wire <$> attrs) HR Hids) as [Hm Hf].
  set (q := filter _ ids) in *. set (l := take (length arr) q) in *. injection E as ->.
  assert (Hl : Forall is_id l) by (by apply Forall_take).
  assert (Hn : (length l <= length arr)%nat) by (subst l; rewrite length_take; lia).
  pose proof (length_concat_ids l Hl) as Hc.
  exists (stored_ids obuf 0 l), (length l), (le_val <$> l). split_and!.
  - by rewrite Hlen.
  - apply length_splice. lia.
  - done.
  - unfold stored_ids, splice. cbn [Z.to_nat Nat.mul take Nat.add app]. by apply handles_of_ids.
  - pose proof (st_find denied a attrs arr (le_val <$> q) Hm) as Hst. cbn zeta in Hst.
    rewrite <- fmap_take in Hst. fold l in Hst. by rewrite length_fmap in Hst.
Qed.

Lemma refines_find attrs arr : refines (CFind attrs arr).
Proof.
  intros a v HR [Hreq%template_request Harr]. cbn [perform]. set (c := CFind attrs arr).
  assert (Hnull : Forall null_ok (client_wire <$> attrs)).
  { destruct Hreq as [[_ ->] | (_ & _ & Hwf & _)]; [by constructor | by apply client_wires_null]. }
  set (f := fun x : Z * (option (list Z) * option Z) => RFound x.1 x.2.1 x.2.2).
  assert (Hden : forall rc, denied rc -> astep denied a c (f (rc, (Some arr, None))) a) by (intros; by apply st_find_fail).
  unfold SK_EnumerateObjects. cbn [is_null orb negb].
  apply (refines_result _ _ _ _ _ f); [by intros [? []] |].
  apply (refines_session a v c (Some arr, None) _ f); [done.. |]. intros ctx sess v' Hi <- HR' Hc.
  destruct (request_size _ _ _ Hreq) as (size & Es & _ & Hpos). eapply runs_lift; [exact Es |].
  apply refines_shm; [done.. | by repeat constructor | done |]. intros shm Hsh Hs Hf Hl _.
  destruct (pack_request shm (template attrs) (Z.of_nat (length attrs)) attrs size) as (b & Ep & Lb & Hca); [done.. |].
  eapply runs_lift; [exact Ep |]. cbn [Z.eqb negb SKR_OK]. set (m := set_buffer shm b) in *.
  unfold sizeof_SK_OBJECT_HANDLE. rewrite u64_small by lia. apply refines_shm; [done.. | by repeat constructor | lia |].
  intros shm2 Hsh2 Hs2 Hf2 Hl2 _.
  assert (Hml : Z.of_nat (length (shm_buffer m)) = shm_size m) by (cbn; lia).
  eapply (refines_invoke _ _ _ _ _ _ _ [whole_ip m; whole_ip shm2; IP_value TEEC_VALUE_OUTPUT 0 0; IP_none] _ _ f
    (fun addrs r v2 => v2 = v' /\ (search_cause v' r.1 \/ exists addr oaddr,
      found (attrs_of a) (client_wire <$> attrs) v' oaddr 0 (shm_buffer shm2)
        [MParam addr (Some b) (Z.of_nat (length b)); MParam oaddr (Some (shm_buffer shm2)) (Z.of_nat (length (shm_buffer shm2)));
         VParam 0 0; NParam] r))); [done.. | | | | |].
  - eapply plain_op4; [reflexivity | apply plain_whole_ip; [done | cbn; rewrite Hf; by left] |
      apply plain_whole_ip; [done | rewrite Hf2; right; by left] | constructor..].
  - repeat constructor; cbn; lia.
  - intros addrs fuel Hla Hal Hfu. destruct (four_addrs addrs Hla Hal) as (a0 & a1 & a2 & a3 & -> & Ha0 & _).
    cbn [zip_with]. rewrite !ta_param_whole by (done || lia). cbn [shm_buffer m set_buffer].
    assert (ta_types [whole_ip m; whole_ip shm2; IP_value TEEC_VALUE_OUTPUT 0 0; IP_none] = find_types) as ->
      by (cbn; by rewrite Hf, Hf2).
    destruct (Hca a0 Ha0) as (refs & Hu & Er).
    eapply wps_mono; [eapply (find_wps v' fuel a0 a1 0 0 b (shm_buffer shm2) refs (client_wire <$> attrs) (attrs_of a) NParam);
      [done.. | by apply rep_says | done | lia] |].
    intros r v2 [-> HQ]. split; [done |]. destruct HQ; [by left | right; by exists a0, a1].
  - intros _ res qs v2 [-> [[Hr | [_ He]] | (? & ? & ? & _ & E)]] Hne; [| | by injection E].
    + apply simulates_same; [by apply rep_cleared |]. by apply Hden, denied_tee.
    + destruct Hc as (_ & o & Ho & _). by rewrite He in Ho.
  - intros _ qs v2 [-> [Hsc | (addr & oaddr & Hfo)]]; [by apply search_cause_error in Hsc |].
    destruct (refines_found _ _ _ arr _ _ (shm_buffer shm2) _ _ _ _ _ HR' ltac:(lia) Hfo) as (out & n & hs & -> & Lo & Hn & Eh & Hst).
    cbn -[u32]. rewrite splice_all by done. rewrite u32_small by lia. rewrite Nat2Z.id, Eh. cbn.
    unfold guard_c. rewrite (proj2 (Z.leb_le (Z.of_nat n) (Z.of_nat (length arr)))) by lia. cbn. eexists. split; [reflexivity |].
    by apply simulates_same; [apply rep_cleared |].
Qed.

(** ** Query *)

(** The request of a caller's attribute, at the position [b] of the buffer. *)
Definition request_ref (x : SK_ATTRIBUTE) (b : Z) : sk_ref :=
  mkRef (sa_type x) (match w_payload (client_wire x) with None => None | Some _ => Some b end) (sa_valueLen x).

Lemma request_null x b : sk_wf x -> r_value (request_ref x b) = if sa_valueLen x =? 0 then None else Some b.
Proof.
  intros (_ & _ & Hv). cbn. unfold payload_of. destruct (sa_valueLen x =? 0) eqn:E; boolz; [done |].
  cbn. destruct (sa_value x); [done | lia].
Qed.

(** What the caller reads is the trusted application's answer. *)
Lemma read_attr_answer ws buf x b : Forall wire_ok ws -> sk_wf x ->
  match read_attr ws x with
  | inl y => request_error ws (request_ref x b) = None /\
             room_for x (answer ws buf (request_ref x b)) /\ y = fill x (answer ws buf (request_ref x b))
  | inr e => request_error ws (request_ref x b) = Some e /\ e <> TEE_SUCCESS
  end.
Proof.
  intros Hok Hx. unfold read_attr, request_error, answer. rewrite (request_null x b Hx). cbn [r_type r_valueLen request_ref].
  destruct (find_wire (sa_type x) ws) as [m|] eqn:Em; [| done].
  apply find_wire_in in Em as [Hin Ht]. rewrite Forall_forall in Hok. destruct (Hok m Hin) as (_ & Hl & Hp).
  destruct (sa_valueLen x =? 0) eqn:E0; boolz; [done |]. destruct (_ <? _) eqn:El; boolz; [done |].
  split_and!; [done | | done]. unfold room_for. destruct (w_payload m); [| done].
  destruct Hx as (_ & _ & Hv). destruct (sa_value x); lia.
Qed.

Lemma ROUNDUP_mono a b : a <= b -> ROUNDUP a 4 <= ROUNDUP b 4.
Proof. rewrite !ROUNDUP_4. Z.div_mod_to_equations. lia. Qed.

(** An answer takes no more room than its request. *)
Lemma answer_size ws buf x b : Forall wire_ok ws -> sk_wf x ->
  wire_size (answer ws buf (request_ref x b)) <= wire_size (client_wire x).
Proof.
  intros Hok Hx. pose proof (client_wire_ok x Hx) as Hw. pose proof (wire_size_bounds _ Hw) as [H0 _].
  unfold answer. cbn [r_type request_ref]. destruct (find_wire (sa_type x) ws) as [m|] eqn:Em.
  - rewrite (request_null x b Hx). destruct (sa_valueLen x =? 0) eqn:E0; [done |]. cbn [r_valueLen request_ref].
    destruct (_ <? _) eqn:El; boolz; [done |]. unfold wire_size at 1. destruct (w_payload m); [| done].
    unfold wire_size. cbn. unfold payload_of. rewrite (proj2 (Z.eqb_neq _ _) E0). cbn.
    destruct Hx as (_ & _ & Hv). destruct (sa_value x); [by apply ROUNDUP_mono | lia].
  - unfold wire_size, ta_wire, sk_of_ref, payload_of, has_value. cbn -[client_wire].
    destruct (w_payload (client_wire x)); cbn -[client_wire]; [| done].
    destruct (0 <? _); cbn; [done |]. pose proof (ROUNDUP_4_bounds (sa_valueLen x)). destruct Hx as (_ & ? & _). lia.
Qed.

Lemma answers_size ws buf attrs : Forall wire_ok ws -> Forall sk_wf attrs -> forall b,
  wires_size (answer ws buf <$> placed (client_wire <$> attrs) b) <= wires_size (client_wire <$> attrs).
Proof.
  intros Hok. induction 1 as [|x attrs Hx _ IH]; intros b; [done |].
  cbn [fmap list_fmap placed]. unfold wires_size in *. cbn [foldr].
  apply Z.add_le_mono; [by apply answer_size | apply IH].
Qed.

(** The status of a query, and what the caller reads after a success. *)
Lemma read_attrs_status ws attrs : Forall wire_ok ws -> Forall sk_wf attrs -> forall b acc,
  query_status ws (placed (client_wire <$> attrs) b) acc = match read_attrs ws attrs with inr e => e | inl _ => acc end.
Proof.
  intros Hok. induction 1 as [|x attrs Hx _ IH]; intros b acc; [done |]. cbn [fmap list_fmap placed read_attrs].
  unfold query_status in *. cbn [foldl]. rewrite IH. pose proof (read_attr_answer ws [] x b Hok Hx) as HA.
  destruct (read_attrs ws attrs); [| done].
  change (mkRef _ _ _) with (request_ref x b).
  destruct (read_attr ws x); destruct HA as [-> _]; done.
Qed.

Lemma read_attrs_error ws attrs e : Forall wire_ok ws -> Forall sk_wf attrs -> read_attrs ws attrs = inr e -> e <> TEE_SUCCESS.
Proof.
  intros Hok. induction 1 as [|x attrs Hx _ IH]; [done |]. cbn [read_attrs].
  pose proof (read_attr_answer ws [] x 0 Hok Hx) as HA. destruct (read_attrs ws attrs); [| by intros [= ->]; apply IH].
  destruct (read_attr ws x); [done |]. intros [= ->]. by destruct HA.
Qed.

Lemma read_attrs_filled ws buf attrs l : Forall wire_ok ws -> Forall sk_wf attrs -> read_attrs ws attrs = inl l -> forall b,
  let as_ := answer ws buf <$> placed (client_wire <$> attrs) b in
  Forall2 room_for attrs as_ /\ l = zip_with fill attrs as_.
Proof.
  intros Hok Hwf. revert l. induction Hwf as [|x attrs Hx _ IH]; intros l; cbn [read_attrs]; [by intros [= <-] |].
  intros E b. pose proof (read_attr_answer ws buf x b Hok Hx) as HA.
  destruct (read_attrs ws attrs) as [l'|]; [| discriminate E]. destruct (read_attr ws x) as [y|]; [| discriminate E].
  injection E as <-. destruct HA as (_ & Hr & ->). destruct (IH l' eq_refl (b + wire_size (client_wire x))) as [Hf ->].
  cbn [fmap list_fmap placed zip_with]. split; [by constructor | done].
Qed.

(** The trusted application's part of a query, on the memory the client packed. *)
Lemma query_request_wps (a : astate K) v h addr b attrs : represents v a -> 0 <= h < 2 ^ 32 -> Z.land addr 3 = 0 ->
  Forall sk_wf attrs -> attrs <> [] -> Forall (fun x => packable (sa_type x) = true) attrs ->
  encodes b (client_wire <$> attrs) ->
  let refs := placed (client_wire <$> attrs) (ent_id (Z.of_nat (length (client_wire <$> attrs)))) in
  let ps := [VParam h 0; MParam addr (Some b) (Z.of_nat (length b)); NParam; NParam] in
  wps (W := S) v (TA_GetObjectAttributes query_types ps) (fun r v' => v' = v /\
    (refuses r.1 \/ (a_objs a !! h = None /\ r.1 = TEE_ERROR_ITEM_NOT_FOUND) \/
     exists x, a_objs a !! h = Some x /\ Forall wire_ok (ao_attrs x) /\ answered (ao_attrs x) b refs addr ps r)).
Proof.
  intros HR Hh Ha Hwf Hne Hpk He refs ps. destruct (encodes_placed b addr _ Ha He) as [Hu Er].
  pose proof He as (_ & Hok & _ & Hen & Hfit & H32). pose proof (rep_lookup HR h Hh) as Hlook.
  destruct (a_objs a !! h) as [x|] eqn:Ex.
  - destruct Hlook as (o & Ho & _ & _ & _ & Hx & Hfull). pose proof Hx as (_ & Hokx & _).
    eapply wps_mono; [apply (query_wps v h 0 addr b refs o (ao_attrs x) NParam NParam) |]; try done.
    + eapply placed_in; [exact Hen | done | unfold_ent; lia].
    + by destruct attrs.
    + change (Forall ((fun ty => packable ty = true) ∘ r_type) refs). rewrite <- Forall_fmap.
      unfold refs. rewrite (refs_types _ _ _ Er). rewrite Forall_fmap, Forall_fmap. exact Hpk.
    + by apply placed_disjoint.
    + assert (length refs = length (client_wire <$> attrs)) as ->.
      { apply (f_equal length) in Er. unfold refs. by rewrite (length_fmap (ref_wire b)), (length_fmap Ret) in Er. }
      pose proof (answers_size (ao_attrs x) b attrs Hokx Hwf (ent_id (Z.of_nat (length (client_wire <$> attrs))))).
      subst refs. lia.
    + intros r v2 [-> HQ]. split; [done |]. destruct HQ; [by left | right; right; by exists x].
  - eapply wps_mono; [by apply (query_missing_wps v h 0 addr b refs NParam NParam) |].
    intros r v2 [-> HQ]. split; [done |]. destruct HQ; [by left | right; by left].
Qed.

Lemma refines_get h attrs : refines (CGet h attrs).
Proof.
  intros a v HR (Hh & Hok & Hpk). pose proof Hok as (Hwf & Hnil & _). cbn [perform]. set (c := CGet h attrs).
  assert (Hn : 0 < Z.of_nat (length attrs)) by (destruct attrs; [done | len]).
  set (f := fun x : Z * option (list SK_ATTRIBUTE) => RAttrs x.1 x.2).
  assert (Hden : forall rc, denied rc -> astep denied a c (f (rc, Some attrs)) a) by (intros; apply st_get_fail; by left).
  unfold SK_GetObjectAttribute. cbn [is_null orb]. rewrite (proj2 (Z.leb_gt _ _)) by lia.
  apply (refines_result _ _ _ _ _ f); [by intros [] |].
  apply (refines_session a v c (Some attrs) _ f); [done.. |]. intros ctx sess v' Hi <- HR' Hc.
  eapply runs_lift; [by apply get_attr_size_some |]. apply refines_shm; [done.. | by repeat constructor | by apply attrs_size_pos |].
  intros shm Hsh Hs Hf Hl Hal. destruct (pack_shm_encodes shm attrs) as (b & Ep & Lb & He); [done.. | congruence |].
  eapply runs_lift; [exact Ep |]. cbn [Z.eqb negb SKR_OK]. set (m := set_buffer shm b) in *.
  assert (Hml : Z.of_nat (length (shm_buffer m)) = shm_size m) by (cbn; lia).
  set (refs := placed (client_wire <$> attrs) (ent_id (Z.of_nat (length (client_wire <$> attrs))))).
  eapply (refines_invoke _ _ _ _ _ _ _ [IP_value TEEC_VALUE_INPUT h 0; whole_ip m; IP_none; IP_none] _ _ f
    (fun addrs r v2 => v2 = v' /\ (refuses r.1 \/ (a_objs a !! h = None /\ r.1 = TEE_ERROR_ITEM_NOT_FOUND) \/
      exists x addr, a_objs a !! h = Some x /\ Forall wire_ok (ao_attrs x) /\ answered (ao_attrs x) b refs addr
        [VParam h 0; MParam addr (Some b) (Z.of_nat (length b)); NParam; NParam] r))); [done.. | | | | |].
  - eapply plain_op4; [reflexivity | constructor | apply plain_whole_ip; [done | cbn; rewrite Hf; right; right; by left] | constructor..].
  - constructor; [done |]. constructor; [apply usable_whole; [cbn; rewrite Hs; by apply attrs_size_pos | done] | by repeat constructor].
  - intros addrs fuel Hla Haa _. destruct (four_addrs addrs Hla Haa) as (a0 & a1 & a2 & a3 & -> & _ & Ha1 & _).
    cbn [zip_with]. rewrite ta_param_whole by done. cbn [shm_buffer m set_buffer].
    assert (ta_types [IP_value TEEC_VALUE_INPUT h 0; whole_ip m; IP_none; IP_none] = query_types) as ->
      by (cbn; by rewrite Hf).
    eapply wps_mono; [by apply (query_request_wps a v' h a1 b attrs) |].
    intros r v2 [-> HQ]. split; [done |]. destruct HQ as [? | [? | (x & ? & ?)]]; [by left | right; by left |].
    right. right. by exists x, a1.
  - intros _ res qs v2 [-> HQ] Hne. apply simulates_same; [by apply rep_cleared |]. cbn [fst] in HQ.
    destruct HQ as [Hr | [[Hx ->] | (x & addr & Hx & Hokx & Est & _)]]; [by apply Hden, denied_tee | |].
    + apply st_get_fail. right. by left.
    + apply st_get_fail. right. right. exists x, res. split_and!; [done | | done]. cbn [fst] in Est.
      unfold refs in Est. rewrite read_attrs_status in Est by done. destruct (read_attrs _ attrs); by subst.
  - intros _ qs v2 [-> HQ]. cbn [fst] in HQ.
    destruct HQ as [Hr | [[_ ?] | (x & addr & Hx & Hokx & Est & out & Eq & Lo & Hout)]];
      [by apply refuses_not_success in Hr | done |]. cbn [fst snd] in *.
    unfold refs in Est. rewrite read_attrs_status in Est by done.
    destruct (read_attrs (ao_attrs x) attrs) as [l|e] eqn:Er; [| by destruct (read_attrs_error _ _ _ Hokx Hwf Er)].
    destruct (read_attrs_filled _ b attrs l Hokx Hwf Er (ent_id (Z.of_nat (length (client_wire <$> attrs))))) as [Hroom ->].
    subst qs. cbn [params_after zip_with zip client_param whole_ip after whole insert list_insert mbind outcome_bind].
    rewrite splice_all by (cbn; lia). cbn [param_memref lookup list_lookup mbind outcome_bind shm_buffer set_buffer after fst snd].
    change (default [] (Some attrs)) with attrs.
    rewrite (client_unpack_answer (shm_addr m) _ _ attrs Hal Hout Hroom). cbn. eexists. split; [reflexivity |].
    apply simulates_same; [by apply rep_cleared |]. by eapply st_get.
Qed.

(** ** Cryptography *)

(** What a cryptographic command of the trusted application does, as a step of the
    store: it fails with the caller's buffer as it was, or gives a result that fits. *)
Definition crypto_outcome (a : astate K) (c : call) (out obuf : list Z) (oaddr : Z) (ps : list TEE_Param) (r : Z * list TEE_Param) : Prop :=
  (r.1 <> TEE_SUCCESS /\ astep denied a c (RBytes (code r.1) (Some out) (Some (Z.of_nat (length out)))) a) \/
  exists s, r = (TEE_SUCCESS, with_output ps oaddr obuf s) /\ Z.of_nat (length s) <= Z.of_nat (length obuf) /\
    astep denied a c (RBytes SKR_OK (Some (filled_with s out)) (Some (Z.of_nat (length s)))) a.

Definition crypto_params (x y iaddr oaddr : Z) (d obuf : list Z) : list TEE_Param :=
  [VParam x y; MParam iaddr (Some d) (Z.of_nat (length d)); MParam oaddr (Some obuf) (Z.of_nat (length obuf)); NParam].

Lemma refines_crypto (a : astate K) v c cmd value m d out :
  represents v a -> 0 < Z.of_nat (length d) < 2 ^ 16 -> 0 < Z.of_nat (length out) < 2 ^ 16 ->
  (forall rc, denied rc -> astep denied a c (RBytes rc (Some out) (Some (Z.of_nat (length out)))) a) ->
  (forall v' fuel iaddr oaddr obuf, represents v' a -> length obuf = length out ->
     let ps := crypto_params (value m).1 (value m).2 iaddr oaddr d obuf in
     wps v' (TA_InvokeCommandEntryPoint fuel cmd crypto_param_types ps) (fun r v2 => v2 = v' /\ crypto_outcome a c out obuf oaddr ps r)) ->
  runs ('(rc, (o, n)) ← crypto_command cmd value (Some m) (Some d) (Z.of_nat (length d)) (Some out) (Some (Z.of_nat (length out)));
        mret (RBytes rc o n)) (sees v) (fun r w => simulates a c r (view (secure w))).
Proof.
  intros HR Hd Ho Hden HTA. set (f := fun x : Z * (option (list Z) * option Z) => RBytes x.1 x.2.1 x.2.2).
  apply (refines_result _ _ _ _ _ f); [by intros [? []] |]. unfold crypto_command. cbn [is_null orb].
  rewrite (proj2 (Z.eqb_neq _ 0)) by lia. eapply runs_lift; [reflexivity |]. cbn [deref].
  apply (refines_session a v c (Some out, Some (Z.of_nat (length out))) _ f); [done.. |]. intros ctx sess v' Hi <- HR' _.
  apply refines_shm; [done.. | by repeat constructor | lia |]. intros shm Hsh Hs Hf Hl _.
  eapply runs_lift; [apply mem_read_whole |]. eapply runs_lift; [apply buf_write_ret; lia |].
  eapply runs_lift; [reflexivity |]. apply refines_shm; [done.. | by repeat constructor | lia |]. intros shm2 Hsh2 Hs2 Hf2 Hl2 _.
  eapply runs_lift; [reflexivity |]. cbn [Z.to_nat]. rewrite splice_all by lia. set (mi := set_buffer shm d).
  eapply (refines_invoke _ _ _ _ _ _ _ [IP_value TEEC_VALUE_INPUT (value m).1 (value m).2; whole_ip mi; whole_ip shm2; IP_none] _ _ f
    (fun addrs r v2 => v2 = v' /\ exists iaddr oaddr, crypto_outcome a c out (shm_buffer shm2) oaddr
      (crypto_params (value m).1 (value m).2 iaddr oaddr d (shm_buffer shm2)) r)); [done.. | | | | |].
  - eapply plain_op4; [reflexivity | constructor | apply plain_whole_ip; [done | cbn; rewrite Hf; by left] |
      apply plain_whole_ip; [done | rewrite Hf2; right; by left] | constructor].
  - repeat constructor; cbn; lia.
  - intros addrs fuel Hla Hal _. destruct (four_addrs addrs Hla Hal) as (a0 & a1 & a2 & a3 & -> & _).
    cbn [zip_with]. rewrite !ta_param_whole by (cbn; lia). cbn [shm_buffer mi set_buffer].
    assert (ta_types [IP_value TEEC_VALUE_INPUT (value m).1 (value m).2; whole_ip mi; whole_ip shm2; IP_none]
      = crypto_param_types) as -> by (cbn; by rewrite Hf, Hf2).
    eapply wps_mono; [apply (HTA v' fuel a1 a2 (shm_buffer shm2) HR'); lia |].
    intros r v2 [-> HQ]. split; [done |]. by exists a1, a2.
  - intros _ res qs v2 (-> & ? & ? & [[_ Hst] | (s & E & _)]) Hne; [| by injection E].
    by apply simulates_same; [apply rep_cleared |].
  - intros _ qs v2 (-> & ? & oaddr & [[[] _] | (s & E & Hle & Hst)]); [done |]. injection E as ->.
    assert (Hwa : (whole_attr (shm_flags shm2) =? TEE_IOCTL_PARAM_ATTR_TYPE_MEMREF_INPUT) = false) by (by rewrite Hf2).
    cbn. rewrite Hwa, splice_all by len. cbn. rewrite ?Hwa.
    rewrite (u16_small (Z.of_nat (length s))) by lia. rewrite buf_read_ret by len. rewrite Nat2Z.id, drop_0, take_app_length. cbn.
    rewrite mem_store_ok by lia. cbn. eexists. split; [reflexivity |].
    by apply simulates_same; [apply rep_cleared |].
Qed.

Section Asymmetric.
Context (algorithms : Z -> option Z) (op_of : Z -> K -> list Z -> outcome (option (list Z))).
Context {a : astate K} {v : tview K} (HR : represents v a) {h : Z} (Hh : 0 <= h < 2 ^ 32).

Lemma rep_acceptable m d : (forall k alg, algorithms m = Some alg -> op_of alg k d <> Undef) ->
  acceptable algorithms op_of v h m d.
Proof.
  intros Hsafe o Ho. pose proof (rep_lookup HR h Hh) as HL0. destruct (a_objs a !! h) as [x|]; [| congruence].
  destruct HL0 as (o' & Ho' & _ & _ & Hk & _). rewrite Ho in Ho'. injection Ho' as <-. exists (ao_key x). auto.
Qed.

Lemma rep_result m d x : result_of algorithms op_of v h m d x -> crypt algorithms op_of a m h d x.
Proof.
  intros (o & k & alg & Ho & Hk & Ha & Hx). pose proof (rep_lookup HR h Hh) as HL0.
  destruct (a_objs a !! h) as [y|] eqn:Ey; [| congruence]. destruct HL0 as (o' & Ho' & _ & _ & Hk' & _).
  exists y, alg. rewrite Ho in Ho'. injection Ho' as <-. rewrite Hk in Hk'. by injection Hk' as <-.
Qed.

Lemma rep_cause m d n res : command_cause algorithms op_of v h m d n res ->
  res <> TEE_SUCCESS /\ crypt_cause denied algorithms op_of a m h d n (code res).
Proof.
  intros [Hr | [[-> Hn] | [[-> Ha] | (x & Hx%rep_result & [Hr | [[-> ->] | (-> & s & -> & Hs)]])]]].
  - split; [by apply refuses_not_success | left; by apply denied_tee].
  - split; [done | right; left; split; [by eapply rep_none | done]].
  - split; [done | right; right; by left].
  - split; [by apply refuses_not_success | left; by apply denied_tee].
  - split; [done | by do 3 right; left].
  - split; [done | do 4 right; by exists s].
Qed.

(** An asymmetric command as a step of the store. *)
Lemma asymmetric_outcome c m d out obuf oaddr ps r : length obuf = length out ->
  (forall rc, crypt_cause denied algorithms op_of a m h d (Z.of_nat (length out)) rc ->
     astep denied a c (RBytes rc (Some out) (Some (Z.of_nat (length out)))) a) ->
  (forall s, crypt algorithms op_of a m h d (Some s) -> Z.of_nat (length s) <= Z.of_nat (length out) ->
     astep denied a c (RBytes SKR_OK (Some (filled_with s out)) (Some (Z.of_nat (length s)))) a) ->
  (command_cause algorithms op_of v h m d (Z.of_nat (length obuf)) r.1 /\ r.2 = ps) \/
    operated algorithms op_of v h m d oaddr obuf ps r ->
  crypto_outcome a c out obuf oaddr ps r.
Proof.
  intros Hlen Hf Hs [[Hc _] | (s & Hx%rep_result & Hl & ->)].
  - apply rep_cause in Hc as [Hne Hc]. left. split; [done |]. apply Hf. by rewrite <- Hlen.
  - right. exists s. split_and!; [done | done |]. apply Hs; [done | by rewrite <- Hlen].
Qed.
End Asymmetric.

Lemma refines_sign m h d out : refines (CSign m h d out).
Proof.
  intros a v HR (Hh & Hd & Ho & Hsafe). apply refines_crypto; [done.. | |].
  { intros rc Hrc. apply st_sign_fail. by left. }
  intros v' fuel iaddr oaddr obuf HR' Hlen ps. eapply wps_mono.
  { apply (sign_command_wps v' h (mechanism m) iaddr oaddr d obuf NParam). by eapply rep_acceptable. }
  intros r v2 [-> HQ]. split; [done |]. eapply asymmetric_outcome; [done.. | | | exact HQ]; [apply st_sign_fail | apply st_sign].
Qed.

Lemma refines_decrypt m h d out : refines (CDecrypt m h d out).
Proof.
  intros a v HR (Hh & Hd & Ho & Hsafe). apply refines_crypto; [done.. | |].
  { intros rc Hrc. apply st_decrypt_fail. by left. }
  intros v' fuel iaddr oaddr obuf HR' Hlen ps. eapply wps_mono.
  { apply (decrypt_command_wps v' h (mechanism m) iaddr oaddr d obuf NParam). by eapply rep_acceptable. }
  intros r v2 [-> HQ]. split; [done |]. eapply asymmetric_outcome; [done.. | | | exact HQ]; [apply st_decrypt_fail | apply st_decrypt].
Qed.

Lemma refines_digest m d out : refines (CDigest m d out).
Proof.
  intros a v HR (Hd & Ho). apply refines_crypto; [done.. | |].
  { intros rc Hrc. apply st_digest_fail. by left. }
  intros v' fuel iaddr oaddr obuf HR' Hlen ps. eapply wps_mono.
  { apply (digest_command_wps v' (mechanism m) 0 iaddr oaddr d obuf NParam). }
  intros r v2 [-> HQ]. split; [done |]. rewrite Hlen in HQ.
  destruct HQ as [[[Hr | [[E Ha] | (E & alg & size & Ha & Hs)]] _] | (alg & size & Ha & Hs & Hl & ->)].
  - left. split; [by apply refuses_not_success |]. apply st_digest_fail. left. by apply denied_tee.
  - left. rewrite E. split; [done |]. apply st_digest_fail. right. by left.
  - left. rewrite E. split; [done |]. apply st_digest_fail. right. right. by exists alg, size.
  - right. eexists. split; [reflexivity |]. rewrite Hlen. split; [done |]. by eapply st_digest.
Qed.

(** ** Every call, and every sequence of calls *)

Lemma refines_all c : refines c.
Proof.
  destruct c; [apply refines_create | apply refines_generate | apply refines_erase | apply refines_find |
    apply refines_get | apply refines_sign | apply refines_decrypt | apply refines_digest].
Qed.

End Reads.
