(* ===== verification/Stack.v ===== *)
(** * The stack, from the client's calls to the stored objects

    The refinement theorem for sequences of calls, two of its consequences for
    clients (what was stored is what is read; a key that was created signs), and a
    system in memory on which the whole stack runs. *)

From stdpp Require Import base numbers list gmap.
From S2P Require Import Prelude SkTypes AttrCodec Wires TeeClient SkLib SkLibTheorems LibTeec LibTeecTheorems.
From S2P Require Import TeeApi TeeRam TaStorage TaCrypto TaShape TeeLogic TaTheorems TaQueryTheorems TaFindTheorems TaCryptoTheorems.
From S2P Require Import Link ObjectStore Refinement RefinementReads.

Section Stack.
Context {W S K : Type} `{HD : TeeDriver W, HS : TEE S, HC : Crypto K, HL : !TEE_laws S K}.
Context `{HDL : !Driver_laws W, HLL : !Link_laws W S K}.

(** A client that makes the calls in order. *)
Fixpoint perform_all (cs : list call) : st W (list result) :=
  match cs with
  | [] => mret []
  | c :: cs => r ← perform c; rs ← perform_all cs; mret (r :: rs)
  end.

(** C1: The stack refines the object store.  From a state that represents a store,
    any sequence of legal calls of the secure-key library, run through libteec, the
    link to the secure world and the trusted application, returns; its results are
    ones the store gives for these calls, failures of the system below included,
    and the state it leaves represents the store afterwards. *)
Theorem stack_refines (cs : list call) (a : astate K) (w : W) :
  represents (view (secure w)) a -> Forall (legal (K := K)) cs ->
  exists rs w' a', perform_all cs w = Ret (rs, w') /\ asteps denied a cs rs a' /\
    represents (view (secure w')) a'.
Proof.
  intros HR Hcs. revert a w HR. induction Hcs as [|c cs Hc _ IH]; intros a w HR.
  { exists [], w, a. split_and!; [done | constructor | done]. }
  destruct (refines_all c a _ HR Hc w eq_refl) as (r & w1 & E1 & a1 & Hst & HR1).
  destruct (IH a1 w1 HR1) as (rs & w2 & a2 & E2 & Hsts & HR2).
  exists (r :: rs), w2, a2. cbn [perform_all]. unfold mbind, st_bind, mret, st_ret. rewrite E1, E2.
  split_and!; [done | by econstructor | done].
Qed.

(** ** What was stored is what is read *)

(** The attributes of a request that are kept and have a value. *)
Definition kept (attrs : list SK_ATTRIBUTE) : list SK_ATTRIBUTE :=
  filter (fun x => packable (sa_type x) = true /\ 0 < sa_valueLen x) attrs.

(** A query for an attribute with a buffer of its length, and the attribute with
    just its value. *)
Definition blank (x : SK_ATTRIBUTE) : SK_ATTRIBUTE := mkSK (sa_type x) (Some (zeros (sa_valueLen x))) (sa_valueLen x).
Definition trimmed (x : SK_ATTRIBUTE) : SK_ATTRIBUTE :=
  mkSK (sa_type x) (take (Z.to_nat (sa_valueLen x)) <$> sa_value x) (sa_valueLen x).

Lemma find_public attrs x : NoDup (sa_type <$> attrs) -> x ∈ attrs -> packable (sa_type x) = true ->
  find_wire (sa_type x) (public (client_wire <$> attrs)) = Some (client_wire x).
Proof.
  intros Hnd Hx Hp. induction attrs as [|y attrs IH]; [by apply elem_of_nil in Hx |].
  cbn [fmap list_fmap] in *. apply NoDup_cons in Hnd as [Hy Hnd]. unfold public in *. rewrite filter_cons.
  apply elem_of_cons in Hx as [<- | Hx].
  - rewrite decide_True by done. cbn [find_wire]. by rewrite Z.eqb_refl.
  - case_decide; [| by apply IH]. cbn [find_wire].
    rewrite (proj2 (Z.eqb_neq _ _)); [by apply IH |]. intros E. apply Hy. cbn in E. rewrite <- E. by apply list_elem_of_fmap_2.
Qed.

Lemma read_blank attrs x : NoDup (sa_type <$> attrs) -> Forall sk_wf attrs -> x ∈ kept attrs ->
  read_attr (public (client_wire <$> attrs)) (blank x) = inl (trimmed x).
Proof.
  intros Hnd Hwf [[Hp Hl] Hx]%list_elem_of_filter. unfold read_attr. cbn [sa_type blank sa_valueLen].
  rewrite (find_public attrs x Hnd Hx Hp). cbn [w_len client_wire]. rewrite (proj2 (Z.eqb_neq _ 0)) by lia.
  rewrite Z.ltb_irrefl. f_equal. unfold fill, trimmed. cbn. unfold payload_of.
  rewrite (proj2 (Z.eqb_neq _ 0)) by lia. rewrite Forall_forall in Hwf. destruct (Hwf x Hx) as (_ & _ & Hv).
  destruct (sa_value x) as [v|]; [| lia]. cbn. do 2 f_equal. rewrite drop_ge, app_nil_r; [done |].
  unfold zeros. rewrite length_replicate, length_take. lia.
Qed.

Lemma read_all_blank ws l : Forall (fun x => read_attr ws (blank x) = inl (trimmed x)) l ->
  read_attrs ws (blank <$> l) = inl (trimmed <$> l).
Proof. induction 1 as [|x l Hx _ IH]; [done |]. rewrite !fmap_cons. cbn [read_attrs]. by rewrite IH, Hx. Qed.

(** A client that stores an object and reads the attributes back. *)
Definition store_and_read (attrs q : list SK_ATTRIBUTE) : st W (result * option result) :=
  r ← perform (CCreate attrs);
  match r with
  | RHandle _ (Some h) => r' ← perform (CGet h q); mret (r, Some r')
  | _ => mret (r, None)
  end.

(** C10: what a client stores is what it reads.  A client that creates an object with
    attributes of different types and then asks for those that are kept, with
    buffers of their lengths, gets exactly the values it gave, unless the creation
    failed for a reason named or the system below failed during the query. *)
Theorem stored_is_read (attrs : list SK_ATTRIBUTE) (a : astate K) (w : W) :
  represents (view (secure w)) a -> legal (K := K) (CCreate attrs) -> NoDup (sa_type <$> attrs) ->
  attrs_ok (blank <$> kept attrs) ->
  exists r w', store_and_read attrs (blank <$> kept attrs) w = Ret (r, w') /\
    match r with
    | (RHandle rc (Some h), Some r') => rc = SKR_OK /\
        (r' = RAttrs SKR_OK (Some (trimmed <$> kept attrs)) \/
         exists rc', denied rc' /\ r' = RAttrs rc' (Some (blank <$> kept attrs)))
    | (RHandle rc None, None) => create_cause denied a (client_wire <$> attrs) rc
    | _ => False
    end.
Proof.
  intros HR Hleg Hnd Hq. destruct (refines_all _ a _ HR Hleg w eq_refl) as (r & w1 & E1 & a1 & Hst & HR1).
  pose proof Hleg as ((Hwf & _) & _). unfold store_and_read. unfold mbind at 1, st_bind at 1. rewrite E1.
  inversion Hst as [? ty size parts k ws Hreq Hpop Hfree| ? rc ? Hc| | | | | | | | | | | | | |]; subst.
  2: { by eexists _, w1. }
  assert (Hh : 0 <= a_next a < 2 ^ 32) by (by destruct HR).
  destruct (refines_all (CGet (a_next a) (blank <$> kept attrs)) _ _ HR1) with (w := w1) as (r & w2 & E2 & a2 & Hst2 & _); [| done |].
  { split_and!; [lia | lia | done |]. apply Forall_fmap, Forall_forall. intros x [[Hp _] _]%list_elem_of_filter. exact Hp. }
  unfold mbind, st_bind. rewrite E2. eexists _, w2. split; [reflexivity |]. cbn. split; [done |].
  assert (Hread : read_attrs (public ws) (blank <$> kept attrs) = inl (trimmed <$> kept attrs)).
  { apply read_all_blank, Forall_forall. intros x Hx. by apply read_blank. }
  inversion Hst2 as [| | | | | | | |? ? x l Hx Hl|? ? rc Hc| | | | | |]; subst.
  - cbn in Hx. rewrite lookup_insert_eq in Hx. injection Hx as <-. cbn in Hl. rewrite Hread in Hl. injection Hl as <-. by left.
  - destruct Hc as [Hd | [[Hn _] | (x & e & Hx & He & _)]]; [right; by exists rc | |].
    + cbn in Hn. by rewrite lookup_insert_eq in Hn.
    + cbn in Hx. rewrite lookup_insert_eq in Hx. injection Hx as <-. cbn in He. by rewrite Hread in He.
Qed.

(** ** A key that was created signs *)

(** C11: progress of the stack.  While nothing below fails, a client that creates an
    object from supported key parts, with the next identifier free, and then signs
    with it gets both: the creation gives the handle, and the signature is the one
    the key of these parts makes of the digest, at the start of the client's
    buffer. *)
Theorem created_key_signs (attrs : list SK_ATTRIBUTE) (m : SK_MECHANISM_INFO) (d out sig : list Z)
    (ty size alg : Z) (parts : list TEE_Attribute) (k : K) (a : astate K) (w : W) :
  (forall rc, ~ denied (W := W) (S := S) (K := K) rc) ->
  represents (view (secure w)) a -> a_objs a !! a_next a = None ->
  legal (K := K) (CCreate attrs) -> legal (K := K) (CSign m (a_next a) d out) ->
  requested (client_wire <$> attrs) = Some (ty, size, parts) -> populated ty size parts = Ret (Some k) ->
  sign_algorithm (mechanism m) = Some alg -> sign_of alg k d = Ret (Some sig) -> (length sig <= length out)%nat ->
  exists w', perform_all [CCreate attrs; CSign m (a_next a) d out] w
    = Ret ([RHandle SKR_OK (Some (a_next a)); RBytes SKR_OK (Some (filled_with sig out)) (Some (Z.of_nat (length sig)))], w').
Proof.
  intros Hup HR Hfree Hl1 Hl2 Hreq Hpop Halg Hsig Hlen.
  destruct (refines_all _ a _ HR Hl1 w eq_refl) as (r1 & w1 & E1 & a1 & Hst1 & HR1).
  destruct (refines_all _ a1 _ HR1 Hl2 w1 eq_refl) as (r2 & w2 & E2 & a2 & Hst2 & _).
  cbn [perform_all]. unfold mbind, st_bind, mret, st_ret. rewrite E1, E2. exists w2. do 2 f_equal.
  assert (Hkey : requested_key (K := K) (client_wire <$> attrs) = Ret (Some k)) by (unfold requested_key; by rewrite Hreq).
  inversion Hst1 as [? ty' size' parts' k' ws Hreq' Hpop'| ? rc ? Hc| | | | | | | | | | | | | |]; subst.
  2: { destruct Hc as [Hd | [[Hn _] | [[x Hx] _]]]; [by destruct (Hup rc) | congruence | congruence]. }
  assert (ty' = ty /\ size' = size /\ parts' = parts) as (-> & -> & ->) by (subst ws; rewrite Hreq in Hreq'; by simplify_eq).
  rewrite Hpop in Hpop'. injection Hpop' as <-.
  assert (Hres : forall x, crypt sign_algorithm sign_of (add_obj (mkAobj ty size k (public ws)) a) (mechanism m) (a_next a) d x ->
    x = Some sig).
  { intros x (o & alg' & Ho & Ha & Hx). cbn in Ho. rewrite lookup_insert_eq in Ho. injection Ho as <-. cbn in Hx. congruence. }
  inversion Hst2 as [| | | | | | | | | |? ? ? ? s Hs|? ? ? ? rc Hc| | | |]; subst.
  - apply Hres in Hs. injection Hs as ->. done.
  - destruct Hc as [Hd | [[Hn _] | [[Hn _] | [[Hn _] | (s & Hs & Hle & _)]]]].
    + by destruct (Hup rc).
    + cbn in Hn. by rewrite lookup_insert_eq in Hn.
    + congruence.
    + by apply Hres in Hn.
    + apply Hres in Hs. injection Hs as ->. lia.
Qed.
End Stack.

(** ** A system in memory *)

(** One device with descriptor 3, memories with descriptor 4, and behind session 7
    the trusted application on the TEE in memory of TeeRam.v, which is all the
    state there is.  The application gets its parameters at the addresses 4096 to
    16384. *)
Definition ram_addrs : list Z := [4096; 8192; 12288; 16384].

#[export] Instance ram_driver : TeeDriver ram := {|
  sys_open n w := (3, w);
  sys_close _ w := w;
  ioctl_version _ w := (Some (mkVers TEE_IMPL_ID_OPTEE TEE_OPTEE_CAP_TZ TEE_GEN_CAP_GP), w);
  ioctl_shm_alloc _ _ w := ((4, 1), w);
  ioctl_shm_register _ _ _ w := ((-1, 0), w);
  ioctl_shm_register_fd _ _ w := ((-1, 0, 0), w);
  sys_mmap _ n w := (Some (4096, zeros n), w);
  sys_munmap _ _ w := w;
  sys_malloc _ w := (None, w);
  sys_free _ w := w;
  ioctl_open_session fd _ _ ps w :=
    if fd =? 3 then
      '(res, w) ← TA_CreateEntryPoint (W := ram) w;
      Ret (inr (res, TEEC_ORIGIN_TRUSTED_APP, 7, ps), w)
    else Ret (inl 9, w);
  ioctl_invoke fd s cmd ps w :=
    if negb (Z.of_nat (length ps) =? 4) then Ret (inl 22, w) else
    '((res, qs), w) ← TA_InvokeCommandEntryPoint (W := ram) (Datatypes.S (size (v_store w))) cmd (ta_types ps)
       (zip_with ta_param ram_addrs ps) w;
    Ret (inr (res, TEEC_ORIGIN_TRUSTED_APP, zip_with client_param ps qs), w);
  ioctl_close_session _ _ w := cleared w;
  ioctl_cancel _ _ _ w := w
|}.

Lemma splice_region (mem d : list Z) (offs size : Z) :
  length d = length (take (Z.to_nat size) (drop (Z.to_nat offs) mem)) -> length (splice mem (Z.to_nat offs) d) = length mem.
Proof. intros Hd. unfold splice. rewrite !length_app, length_take, !length_drop, Hd, length_take, length_drop. lia. Qed.

(** What a command leaves is of the kind of what it was given. *)
Lemma client_params_same addrs ps qs : length addrs = length ps -> same_shape (zip_with ta_param addrs ps) qs ->
  Forall2 same_ioctl_param ps (zip_with client_param ps qs).
Proof.
  revert addrs qs. induction ps as [|p ps IH]; intros [|addr addrs] qs Hl Hs; try discriminate Hl; [constructor |].
  cbn [zip_with] in Hs. inversion Hs as [|? q ? qs' Hq Hqs]; subst. cbn [zip_with]. constructor; [| by eapply IH; [| exact Hqs]; injection Hl].
  destruct p as [|? ? ?|attr offs size id mem], q as [? ?|addr' buf n|]; cbn in *; try done; [by destruct (_ =? _) |].
  destruct Hq as [_ Hq]. destruct buf as [d|]; [| discriminate]. cbn in Hq. injection Hq as Hq. cbn. by eapply splice_region.
Qed.

Lemma ram_open_total (w : ram) : exists res w', TA_CreateEntryPoint (W := ram) w = Ret (res, w').
Proof. destruct (open_database_wps (view (K := ram_key) w) w eq_refl) as (res & w' & E & _). by exists res, w'. Qed.

#[export] Instance ram_driver_laws : Driver_laws ram.
Proof.
  split.
  - intros n w addr b w' E. discriminate E.
  - intros fd n w addr b w' [= <- <- <-]. split_and!; [done.. |]. intros. unfold zeros. len.
  - by intros fd n w sfd id w' [= <- <- <-].
  - intros fd a n w sfd id w' [= <- <- <-]. lia.
  - intros fd u l ps _ w. unfold ioctl_open_session, ram_driver. destruct (fd =? 3); [| by eexists].
    destruct (ram_open_total w) as (res & w1 & E). rewrite E. by eexists.
  - intros fd s cmd ps w ret o ps' w'. unfold ioctl_invoke, ram_driver. destruct (negb _) eqn:El; [discriminate |].
    apply negb_false_iff, Z.eqb_eq in El. intros E. apply outcome_bind_inv in E as ([[res qs] w1] & E & E').
    injection E' as <- <- <- <-. apply ta_keeps_parameters in E. eapply client_params_same; [| exact E]. cbn. lia.
Qed.

#[export] Instance ram_link : Link_laws ram ram ram_key.
Proof.
  apply (Build_Link_laws ram ram ram_key _ _ _ _ (fun w => w) (fun _ fd s => fd = 3 /\ s = 7) (fun _ _ => False)
    (fun w => Datatypes.S (size (v_store w)))); try (by intros; split).
  - intros w. cbn. lia.
  - done.
  - intros w fd s [-> _]. lia.
  - intros fd n w sfd id w' fd' s E _ [-> _]. cbn in E. by injection E as <- _ _.
  - intros fd a n w sfd id w' fd' s E Hs. cbn in E. injection E as <- _ _. lia.
  - intros fd login w rc w'. unfold ioctl_open_session, ram_driver. destruct (fd =? 3) eqn:Ef; boolz.
    + intros E. apply outcome_bind_inv in E as ([res w1] & E & E'). injection E' as <- <-.
      destruct (decide (res = TEEC_SUCCESS)) as [-> | Hne]; [by left |]. right. split; [by intros o s qs [=] | right; by exists res].
    + intros [= <- <-]. right. split; [done | by left].
  - intros fd s cmd ps w [-> ->] Hl _. exists ram_addrs. split_and!; [done | repeat constructor |].
    intros res qs s' E. eexists _, s'. split; [| split; [by split | left; split; [reflexivity | done]]].
    unfold ioctl_invoke, ram_driver. rewrite Hl. cbn [negb Z.eqb Z.of_nat]. by rewrite E.
Defined.

(** Nothing fails in this system. *)
Lemma ram_opens (w : ram) : exists w', TA_CreateEntryPoint (W := ram) w = Ret (TEE_SUCCESS, w').
Proof.
  destruct (open_database_wps (view (K := ram_key) w) w eq_refl) as (res & w' & E & [[-> _] | [[] _]]). by exists w'.
Qed.

Lemma ram_session (w : ram) login ps : exists w',
  ioctl_open_session 3 (LibTeec.uuid_to_octets TA_SECURE_STORAGE_UUID) login ps w
    = Ret (inr (TEEC_SUCCESS, TEEC_ORIGIN_TRUSTED_APP, 7, ps), w').
Proof.
  destruct (ram_opens w) as (w' & E). exists w'. unfold ioctl_open_session, ram_driver. rewrite Z.eqb_refl. by rewrite E.
Qed.

Lemma ram_never_denied rc : ~ denied (W := ram) (S := ram) (K := ram_key) rc.
Proof.
  assert (Hctx : forall w res ctx w', TEEC_InitializeContext (W := ram) None w = Ret ((res, ctx), w') ->
    res = TEEC_SUCCESS /\ ctx = mkCtx 3 false) by (intros w res ctx w' [= <- <- <-]; done).
  intros [? Ho | ? ? [] | ? []]. destruct Ho as [w res ctx w' E Hne | ctx w res sess o w' [w0 [w1 E0]] E Hne |
    ctx size flags w res x w' [w0 [w1 E0]] Hs Hf E Hne | ? ? ? ? ? ? ? ? []].
  - by apply Hctx in E as [? _].
  - apply Hctx in E0 as [_ ->]. cbn [TEEC_OpenSession libteec] in E. unfold LibTeec.TEEC_OpenSession in E.
    destruct (ram_session w TEEC_LOGIN_PUBLIC (replicate 4 IP_none)) as (w2 & E2). cbn [replicate] in E2.
    unfold LibTeec.teec_pre_process_operation, mbind, st_bind, mret, st_ret in E.
    cbn [Z.eqb negb TEEC_SUCCESS replicate fmap list_fmap fst snd ctx_fd] in E. rewrite E2 in E. cbn in E. congruence.
  - apply Hctx in E0 as [_ ->]. rewrite !elem_of_cons in Hf.
    destruct Hf as [-> | [-> | [-> | []%elem_of_nil]]]; cbn in E; injection E as <- _ _; by apply Hne.
Qed.

(** ** Runs *)

(** A key pair with its public attributes, a label and its private exponent. *)
Definition stack_attrs : list SK_ATTRIBUTE :=
  [mkSK SK_ATTR_OBJECT_TYPE (Some (le_bytes 4 SK_KEY_PAIR)) 4;
   mkSK SK_ATTR_KEY_TYPE (Some (le_bytes 4 SKK_RSA)) 4;
   mkSK SK_ATTR_MODULUS_BITS (Some (le_bytes 4 2048)) 4;
   mkSK SK_ATTR_OBJECT_LABEL (Some [107; 49]) 2;
   mkSK SK_ATTR_MODULUS (Some [193; 7]) 2;
   mkSK SK_ATTR_PUBLIC_EXPONENT (Some [1; 0; 1]) 3;
   mkSK SK_ATTR_PRIVATE_EXPONENT (Some [9; 9; 9]) 3].

Definition no_objects : astate ram_key := mkA 0 ∅.

Lemma ram_represents : represents (view (K := ram_key) ram_empty) no_objects.
Proof.
  split; [done | cbn; lia | done | |].
  - intros n x E. discriminate E.
  - intros id o E. discriminate E.
Qed.

Lemma stack_attrs_legal : legal (K := ram_key) (CCreate stack_attrs).
Proof.
  split_and!.
  - decide_c.
  - repeat constructor.
  - repeat constructor; vm_compute in H; injection H as <-; cbn; try lia; eexists; reflexivity.
  - discriminate.
  - discriminate.
  - eexists [_]. vm_compute. reflexivity.
Qed.

(** A client's day: a key pair is created, another generated, the key pairs are
    listed, the label read, a digest signed, and both keys erased. *)
Definition stack_calls : list call :=
  [CCreate stack_attrs;
   CGenerate [mkSK SK_ATTR_MODULUS_BITS (Some (le_bytes 4 2048)) 4];
   CFind [mkSK SK_ATTR_OBJECT_TYPE (Some (le_bytes 4 SK_KEY_PAIR)) 4] [0; 0; 0];
   CGet 0 [mkSK SK_ATTR_OBJECT_LABEL (Some (zeros 8)) 8; mkSK SK_ATTR_MODULUS None 0];
   CSign (mkMech SKM_RSASSA_PKCS1_V1_5_SHA1) 0 [5; 6] (zeros 4);
   CSign (mkMech SKM_RSASSA_PKCS1_V1_5_SHA1) 0 [5; 6] (zeros 2);
   CErase 0; CErase 0;
   CDigest (mkMech SKM_SHA1) [5; 6] (zeros 32);
   CFind [] [0; 0]].

Definition stack_results : list result :=
  [RHandle SKR_OK (Some 0); RHandle SKR_OK (Some 1);
   RFound SKR_OK (Some [0; 1; 0]) (Some 2);
   RAttrs SKR_OK (Some [mkSK SK_ATTR_OBJECT_LABEL (Some [107; 49; 0; 0; 0; 0; 0; 0]) 2; mkSK SK_ATTR_MODULUS None 2]);
   RBytes SKR_OK (Some [1; 5; 6; 0]) (Some 3);
   RBytes SKR_ERR_SHORT_BUFFER (Some (zeros 2)) (Some 2);
   RCode SKR_OK; RCode SKR_ERR_ITEM_NOT_FOUND;
   RBytes SKR_OK (Some ([3; 5; 6] ++ zeros 29)) (Some 3);
   RFound SKR_OK (Some [1; 0]) (Some 1)].

Lemma stack_refines_witness :
  exists w' a', perform_all stack_calls ram_empty = Ret (stack_results, w') /\
    asteps (denied (W := ram) (S := ram)) no_objects stack_calls stack_results a' /\
    represents (view (secure (W := ram) w')) a'.
Proof.
  destruct (stack_refines (W := ram) (S := ram) (K := ram_key) stack_calls no_objects ram_empty) as (rs & w' & a' & E & Hs & HR).
  - exact ram_represents.
  - repeat (apply Forall_cons; split); [exact stack_attrs_legal | ..]; try (by constructor);
      cbn -[attrs_ok]; split_and!; try decide_c; try lia; try discriminate; try (by repeat constructor);
      try (right; decide_c); try (by left).
    repeat constructor; vm_compute in H; try discriminate H; injection H as <-; cbn; try lia; eexists; reflexivity.
  - vm_compute in E. injection E as <- <-. eexists _, a'. split; [vm_compute; reflexivity |]. split; [exact Hs | exact HR].
Defined.

Lemma stored_is_read_witness :
  exists w', store_and_read stack_attrs (blank <$> kept stack_attrs) ram_empty =
    Ret ((RHandle SKR_OK (Some 0), Some (RAttrs SKR_OK (Some (trimmed <$> kept stack_attrs)))), w').
Proof.
  destruct (stored_is_read (W := ram) (S := ram) (K := ram_key) stack_attrs no_objects ram_empty) as (r & w' & E & _).
  - exact ram_represents.
  - exact stack_attrs_legal.
  - decide_c.
  - decide_c.
  - exists w'. rewrite E. vm_compute in E. injection E as <- _. vm_compute. reflexivity.
Defined.

Lemma created_key_signs_witness :
  exists w', perform_all [CCreate stack_attrs; CSign (mkMech SKM_RSASSA_PKCS1_V1_5_SHA1) 0 [5; 6] (zeros 4)] ram_empty
    = Ret ([RHandle SKR_OK (Some 0); RBytes SKR_OK (Some (filled_with [1; 5; 6] (zeros 4))) (Some 3)], w').
Proof.
  apply (created_key_signs (W := ram) (S := ram) (K := ram_key) stack_attrs (mkMech SKM_RSASSA_PKCS1_V1_5_SHA1) [5; 6] (zeros 4)
    [1; 5; 6] TEE_TYPE_RSA_KEYPAIR 2048 TEE_ALG_RSASSA_PKCS1_V1_5_SHA1
    [mkTeeAttr TEE_ATTR_RSA_MODULUS (Some [193; 7]) 2; mkTeeAttr TEE_ATTR_RSA_PUBLIC_EXPONENT (Some [1; 0; 1]) 3;
     mkTeeAttr TEE_ATTR_RSA_PRIVATE_EXPONENT (Some [9; 9; 9]) 3]
    [mkTeeAttr TEE_ATTR_RSA_MODULUS (Some [193; 7]) 2; mkTeeAttr TEE_ATTR_RSA_PUBLIC_EXPONENT (Some [1; 0; 1]) 3;
     mkTeeAttr TEE_ATTR_RSA_PRIVATE_EXPONENT (Some [9; 9; 9]) 3] no_objects ram_empty).
  - exact ram_never_denied.
  - exact ram_represents.
  - reflexivity.
  - exact stack_attrs_legal.
  - split_and!; try decide_c. discriminate.
  - vm_compute. reflexivity.
  - reflexivity.
  - reflexivity.
  - reflexivity.
  - vm_compute. repeat constructor.
Defined.
