(* ===== verification/SkDrv.v ===== *)
(** * The secure-key driver (securekeydev)

    The kernel module behind /dev/securekeydev: ioctl.c checks and copies the
    request of a process, maps its buffers for the CAAM engine and cleans up;
    securekey_caam.c and securekey_desc.h build the job descriptor, submit it and
    wait.  The state has the blocks of the kernel heap, the DMA mappings, the global
    [job_comp_status] and the buffers of the calling process; a pointer into the
    kernel heap is a block and an offset.  The rest of the kernel and the engine are
    the class [Kernel].  The structure at the ioctl's argument is read in place, once
    on the way in and once on the way out: each command carries what it holds then. *)

From stdpp Require Import base numbers list gmap.
From S2P Require Import Prelude.

(** ** Data (securekey_driver.h, securekey_driver_pvt.h, securekey_caam.h) *)

(** The user's structures; pointers are addresses of the process. *)
Record sk_mp_pub_key_info := mkPubInfo { pi_x : Z; pi_x_len : Z; pi_y : Z; pi_y_len : Z }.
Record sk_mp_sign_req_info := mkSignInfo {
  si_msg : Z; si_msg_len : Z; si_hash : Z; si_hash_len : Z; si_r : Z; si_r_len : Z; si_s : Z; si_s_len : Z }.

(** The command with the structure at its argument on the way in and on the way out;
    [None] where the address cannot be read. *)
Inductive mp_ioctl :=
| SK_MP_GET_PUB_KEY (arg arg' : option sk_mp_pub_key_info)
| SK_MP_SIGN (arg arg' : option sk_mp_sign_req_info)
| SK_OTHER_CMD.

(** A pointer into the kernel heap. *)
Notation kptr := (Z * Z)%type (only parsing).
Definition padd (p : kptr) (n : Z) : kptr := (p.1, p.2 + n).

Record sk_mp_pub_key_info_k := mkPubK { pub_key : kptr; pub_key_len : Z }.
Record sk_mp_sign_req_info_k := mkSignK {
  k_msg : kptr; k_msg_len : Z; k_hash : kptr; k_hash_len : Z; k_r : kptr; k_r_len : Z; k_s : kptr; k_s_len : Z }.

(** [struct sk_req]: the union by its [type], and [mem_pointer]. *)
Inductive sk_req_u := mp_pub_key_req (r : sk_mp_pub_key_info_k) | mp_sign_req (r : sk_mp_sign_req_info_k).
Record sk_req := mkReq { req_u : sk_req_u; mem_pointer : Z }.

(** [struct caam_req], with DMA addresses. *)
Record caam_mp_pub_key_req := mkCPub { c_pub_key_size : Z; c_pub_key : Z }.
Record caam_mp_sign_req := mkCSign {
  c_msg : Z; c_msg_len : Z; c_hash : Z; c_hash_len : Z; c_r : Z; c_r_len : Z; c_s : Z; c_s_len : Z }.
Inductive caam_req := c_mp_pub_key (r : caam_mp_pub_key_req) | c_mp_sign (r : caam_mp_sign_req).

Definition EPERM : Z := 1.
Definition EIO : Z := 5.
Definition ENOMEM : Z := 12.
Definition EFAULT : Z := 14.
Definition EBUSY : Z := 16.
Definition ENODEV : Z := 19.
Definition EINVAL : Z := 22.

(** ** Job descriptors (securekey_desc.h) *)

Definition PDB_SGF_SIGN_SHIFT : Z := 28.
Definition PDB_SGF_PUB_KEY_SHIFT : Z := 31.
Definition PDB_CSEL_SHIFT : Z := 17.
Definition OP_PCLID_SHIFT : Z := 16.
Definition OP_PCLID_MP_PUB_KEY : Z := Z.shiftl 0x14 OP_PCLID_SHIFT.
Definition OP_PCLID_MP_SIGN : Z := Z.shiftl 0x15 OP_PCLID_SHIFT.
Definition MP_EC_CURVE : Z := Z.shiftl 0x3 PDB_CSEL_SHIFT.
Definition MP_PUB_KEY_SGF_BIT : Z := Z.shiftl 0x0 PDB_SGF_PUB_KEY_SHIFT.
Definition MP_SIGN_SGF_BIT : Z := Z.shiftl 0x0 PDB_SGF_SIGN_SHIFT.

(** A descriptor is what the CAAM helper functions append to it. *)
Inductive desc_item :=
| init_job_desc_pdb (options pdb_bytes : Z)
| append_cmd (command : Z)
| append_ptr (ptr : Z)
| append_u32 (word : Z)
| append_operation (options : Z).

(** Sizes of the two packed parameter blocks, with 64-bit DMA addresses. *)
Definition sizeof_pdb_mp_public_key : Z := 4 + 8.
Definition sizeof_pdb_mp_sign : Z := 4 + 4 * 8 + 4.

(** ** The kernel and the engine *)

(** The outcome of a job: not accepted, done with a status after it wrote through
    DMA addresses, or still running when a signal ends the wait. *)
Inductive job :=
| Refused (rc : Z)
| Done (status : Z) (writes : list (Z * list Z))
| Interrupted.

(** [OP_TYPE_SHIFT] of caam/desc.h; whether an allocation and a mapping succeed; the
    job rings; the engine behind a ring, which sees the mapped memory. *)
Class Kernel (E : Type) := {
  OP_TYPE_SHIFT : Z;
  alloc_ok : Z -> E -> bool * E;
  dma_ok : Z -> E -> bool * E;
  caam_jr_alloc : E -> option Z * E;
  caam_jr_free : Z -> E -> E;
  jr_run : Z -> list desc_item -> (Z -> option (list Z)) -> E -> job * E
}.

Record kern (E : Type) := mkKern {
  k_heap : gmap Z (list Z);
  k_maps : gmap Z (kptr * Z);
  job_comp_status : Z;
  k_user : gmap Z (list Z);
  k_env : E
}.
Arguments mkKern {E} _ _ _ _ _.
Arguments k_heap {E} _.
Arguments k_maps {E} _.
Arguments job_comp_status {E} _.
Arguments k_user {E} _.
Arguments k_env {E} _.

Section Driver.
Context {E : Type} `{Kernel E}.

Definition OP_TYPE_MP_GET_PUB_KEY : Z := Z.shiftl 0x086 OP_TYPE_SHIFT.
Definition OP_TYPE_MP_SIGN : Z := Z.shiftl 0x86 OP_TYPE_SHIFT.

Definition set_heap (m : gmap Z (list Z)) (s : kern E) : kern E :=
  mkKern m (k_maps s) (job_comp_status s) (k_user s) (k_env s).
Definition set_maps (m : gmap Z (kptr * Z)) (s : kern E) : kern E :=
  mkKern (k_heap s) m (job_comp_status s) (k_user s) (k_env s).
Definition set_status (n : Z) (s : kern E) : kern E :=
  mkKern (k_heap s) (k_maps s) n (k_user s) (k_env s).
Definition set_user (m : gmap Z (list Z)) (s : kern E) : kern E :=
  mkKern (k_heap s) (k_maps s) (job_comp_status s) m (k_env s).
Definition set_env (e : E) (s : kern E) : kern E :=
  mkKern (k_heap s) (k_maps s) (job_comp_status s) (k_user s) e.

(** A block of [n] bytes, cleared by the [memset] that follows each allocation of a
    buffer. *)
Definition kmalloc (n : Z) : st (kern E) (option Z) := fun s =>
  let '(ok, e) := alloc_ok n (k_env s) in
  if (ok : bool) then
    let b := above (dom (k_heap s)) in
    Ret (Some b, set_env e (set_heap (<[b := zeros n]> (k_heap s)) s))
  else Ret (None, set_env e s).

Definition kfree (b : Z) : st (kern E) unit := fun s =>
  match k_heap s !! b with
  | Some _ => Ret (tt, set_heap (delete b (k_heap s)) s)
  | None => Undef
  end.

(** [dma_map_single] and its error test. *)
Definition dma_map_single (p : kptr) (len : Z) : st (kern E) (option Z) := fun s =>
  let '(ok, e) := dma_ok len (k_env s) in
  if (ok : bool) then
    let a := above (dom (k_maps s)) in
    Ret (Some a, set_env e (set_maps (<[a := (p, len)]> (k_maps s)) s))
  else Ret (None, set_env e s).

Definition dma_unmap_single (a : Z) : st (kern E) unit := fun s =>
  match k_maps s !! a with
  | Some _ => Ret (tt, set_maps (delete a (k_maps s)) s)
  | None => Undef
  end.

(** Reading and writing kernel memory. *)
Definition kread (p : kptr) (n : Z) : st (kern E) (list Z) := fun s =>
  match k_heap s !! p.1 with
  | Some b => match buf_read b p.2 n with Ret d => Ret (d, s) | Undef => Undef end
  | None => Undef
  end.
Definition kwrite (p : kptr) (d : list Z) : st (kern E) unit := fun s =>
  match k_heap s !! p.1 with
  | Some b =>
      match buf_write b p.2 d with Ret b' => Ret (tt, set_heap (<[p.1 := b']> (k_heap s)) s) | Undef => Undef end
  | None => Undef
  end.

(** Whether [copy_to_user] succeeds: a buffer of the process is a mapping of its own,
    and a copy that does not fit faults and copies nothing. *)
Definition copy_to_user (dst : Z) (p : kptr) (n : Z) : st (kern E) bool :=
  if n =? 0 then mret true
  else
    d ← kread p n;
    us ← gets k_user;
    match us !! dst with
    | Some u => if n <=? Z.of_nat (length u) then modify (set_user (<[dst := splice u 0 d]> us));; mret true
                else mret false
    | None => mret false
    end.

Definition copy_from_user (p : kptr) (src : Z) (n : Z) : st (kern E) bool :=
  if n =? 0 then mret true
  else
    u ← gets (fun s => k_user s !! src);
    match u with
    | Some u => if n <=? Z.of_nat (length u) then kwrite p (take (Z.to_nat n) u);; mret true else mret false
    | None => mret false
    end.

(** ** Requests (ioctl.c) *)

(** The code and the request; the union is filled as far as the code gets. *)
Definition sk_copy_data_from_user (cmd : mp_ioctl) : st (kern E) (Z * option sk_req) :=
  match cmd with
  | SK_MP_GET_PUB_KEY arg _ =>
      u ← lift (deref arg);
      let len := u8 (pi_x_len u + pi_y_len u) in
      temp ← kmalloc len;
      match temp with
      | None => mret (- ENOMEM, None)
      | Some t => mret (0, Some (mkReq (mp_pub_key_req (mkPubK (t, 0) len)) t))
      end
  | SK_MP_SIGN arg _ =>
      u ← lift (deref arg);
      temp ← kmalloc (si_hash_len u + si_msg_len u + si_r_len u + si_s_len u);
      match temp with
      | None => mret (- ENOMEM, None)
      | Some t =>
          let msg := (t, 0) in
          let hash := padd msg (si_msg_len u) in
          let r := padd hash (si_hash_len u) in
          let s := padd r (si_r_len u) in
          let req := mkReq (mp_sign_req (mkSignK msg (si_msg_len u) hash (si_hash_len u) r (si_r_len u) s (si_s_len u))) t in
          ok ← copy_from_user msg (si_msg u) (si_msg_len u);
          if negb ok then mret (- EFAULT, Some req) else mret (0, Some req)
      end
  | SK_OTHER_CMD => mret (- EINVAL, None)
  end.

Definition sk_copy_data_to_user (req : sk_req_u) (cmd : mp_ioctl) : st (kern E) Z :=
  match req, cmd with
  | mp_pub_key_req k, SK_MP_GET_PUB_KEY _ arg =>
      u ← lift (deref arg);
      ok ← copy_to_user (pi_x u) (pub_key k) (pi_x_len u);
      if negb ok then mret (- EFAULT)
      else
        ok ← copy_to_user (pi_y u) (padd (pub_key k) (pi_x_len u)) (pi_y_len u);
        if negb ok then mret (- EFAULT) else mret 0
  | mp_sign_req k, SK_MP_SIGN _ arg =>
      u ← lift (deref arg);
      ok ← copy_to_user (si_hash u) (k_hash k) (k_hash_len k);
      if negb ok then mret (- EFAULT)
      else
        ok ← copy_to_user (si_r u) (k_r k) (k_r_len k);
        if negb ok then mret (- EFAULT)
        else
          ok ← copy_to_user (si_s u) (k_s k) (k_s_len k);
          if negb ok then mret (- EFAULT) else mret 0
  | _, _ => mret (- EINVAL)
  end.

(** [ptr] is the block of the [caam_req]. *)
Definition sk_unmap (c : caam_req) (ptr : Z) : st (kern E) unit :=
  match c with
  | c_mp_pub_key r => dma_unmap_single (c_pub_key r)
  | c_mp_sign r =>
      dma_unmap_single (c_msg r);; dma_unmap_single (c_hash r);; dma_unmap_single (c_r r);; dma_unmap_single (c_s r)
  end;;
  kfree ptr.

Definition sk_mp_get_pub_key_map (k : sk_mp_pub_key_info_k) : st (kern E) (option caam_mp_pub_key_req) :=
  a ← dma_map_single (pub_key k) (pub_key_len k);
  mret ((fun a => mkCPub (pub_key_len k) a) <$> a).

(** The labels [s_map_fail] to [msg_map_fail] are the nested failure branches. *)
Definition sk_mp_sign_map (k : sk_mp_sign_req_info_k) : st (kern E) (option caam_mp_sign_req) :=
  m ← dma_map_single (k_msg k) (k_msg_len k);
  match m with
  | None => mret None
  | Some m =>
      h ← dma_map_single (k_hash k) (k_hash_len k);
      match h with
      | None => dma_unmap_single m;; mret None
      | Some h =>
          r ← dma_map_single (k_r k) (k_r_len k);
          match r with
          | None => dma_unmap_single h;; dma_unmap_single m;; mret None
          | Some r =>
              s ← dma_map_single (k_s k) (k_s_len k);
              match s with
              | None => dma_unmap_single r;; dma_unmap_single h;; dma_unmap_single m;; mret None
              | Some s => mret (Some (mkCSign m (k_msg_len k) h (k_hash_len k) r (k_r_len k) s (k_s_len k)))
              end
          end
      end
  end.

Definition sizeof_caam_req : Z := 72.
Definition sizeof_sk_req : Z := 104.

(** The code, and the request in DMA addresses with the block it is in. *)
Definition sk_map_caam_req (req : sk_req_u) : st (kern E) (Z * option (caam_req * Z)) :=
  c ← kmalloc sizeof_caam_req;
  match c with
  | None => mret (- ENOMEM, None)
  | Some c =>
      m ← match req with
          | mp_pub_key_req k => r ← sk_mp_get_pub_key_map k; mret (c_mp_pub_key <$> r)
          | mp_sign_req k => r ← sk_mp_sign_map k; mret (c_mp_sign <$> r)
          end;
      match m with
      | None => kfree c;; mret (- ENOMEM, None)
      | Some r => mret (0, Some (r, c))
      end
  end.

(** ** Jobs (securekey_desc.h, securekey_caam.c) *)

Definition build_mp_get_pubkey_desc (dest : Z) : list desc_item :=
  [init_job_desc_pdb 0 sizeof_pdb_mp_public_key; append_cmd (Z.lor MP_PUB_KEY_SGF_BIT MP_EC_CURVE); append_ptr dest;
   append_operation (Z.lor (Z.lor OP_TYPE_MP_GET_PUB_KEY OP_PCLID_MP_PUB_KEY) 0)].

Definition build_mp_sign_desc (msg msg_len hash c d : Z) : list desc_item :=
  [init_job_desc_pdb 0 sizeof_pdb_mp_sign; append_cmd (Z.lor MP_SIGN_SGF_BIT MP_EC_CURVE);
   append_ptr msg; append_ptr hash; append_ptr c; append_ptr d; append_u32 (u32 msg_len);
   append_operation (Z.lor (Z.lor OP_TYPE_MP_SIGN OP_PCLID_MP_SIGN) 0)].

(** What the engine finds at a DMA address. *)
Definition mapped (s : kern E) (a : Z) : option (list Z) :=
  '(p, len) ← k_maps s !! a;
  b ← k_heap s !! p.1;
  Some (take (Z.to_nat len) (drop (Z.to_nat p.2) b)).

(** The engine's writes: one that does not stay inside its mapping goes astray. *)
Fixpoint dma_writes (ws : list (Z * list Z)) : st (kern E) unit :=
  match ws with
  | [] => mret tt
  | (a, d) :: ws =>
      m ← gets (fun s => k_maps s !! a);
      '(p, len) ← lift (deref m);
      lift (guard_c (Z.of_nat (length d) <=? len));;
      kwrite p d;;
      dma_writes ws
  end.

(** [submit_job] with the callback [caam_op_done]: an interrupted wait is not
    noticed. *)
Definition submit_job (jrdev : Z) (desc : list desc_item) : st (kern E) Z := fun s =>
  let '(j, e) := jr_run jrdev desc (mapped s) (k_env s) in
  let s := set_env e s in
  match j with
  | Refused rc => Ret (rc, s)
  | Done status ws => (dma_writes ws;; modify (set_status status);; gets job_comp_status) s
  | Interrupted => Ret (job_comp_status s, s)
  end.

Definition CAAM_DESC_BYTES_MAX : Z := 256.

(** The body the two submit functions share; the builders return 1, so their failure
    branch is never taken. *)
Definition submit_desc (dev : Z) (build : list desc_item) : st (kern E) Z :=
  desc ← kmalloc CAAM_DESC_BYTES_MAX;
  match desc with
  | None => mret (-1)
  | Some desc => ret ← submit_job dev build; kfree desc;; mret ret
  end.

Definition caam_submit_mp_get_pub_key_op (dev : Z) (r : caam_mp_pub_key_req) : st (kern E) Z :=
  submit_desc dev (build_mp_get_pubkey_desc (c_pub_key r)).
Definition caam_submit_mp_sign_op (dev : Z) (r : caam_mp_sign_req) : st (kern E) Z :=
  submit_desc dev (build_mp_sign_desc (c_msg r) (c_msg_len r) (c_hash r) (c_r r) (c_s r)).

Definition caam_job_submit (jrdev : Z) (c : caam_req) : st (kern E) Z :=
  match c with
  | c_mp_pub_key r => caam_submit_mp_get_pub_key_op jrdev r
  | c_mp_sign r => caam_submit_mp_sign_op jrdev r
  end.

(** ** The file operations (ioctl.c) *)

(** The file's [private_data] is the job ring. *)
Definition securekeydev_open : st (kern E) (Z * option Z) := fun s =>
  let '(dev, e) := caam_jr_alloc (k_env s) in
  Ret (match dev with None => (- ENODEV, None) | Some dev => (0, Some dev) end, set_env e s).

Definition securekeydev_release (private_data : Z) : st (kern E) Z :=
  modify (fun s => set_env (caam_jr_free private_data (k_env s)) s);; mret 0.

(** Steps 2 to 4 of the ioctl, up to the label [desc_init_error]. *)
Definition run_request (jrdev : Z) (cmd : mp_ioctl) (r : sk_req) : st (kern E) Z :=
  '(ret, c) ← sk_map_caam_req (req_u r);
  ret ← (if negb (ret =? 0) then mret ret
         else
           '(c, ptr) ← lift (deref c);
           ret ← caam_job_submit jrdev c;
           ret ← (if ret =? 0 then sk_copy_data_to_user (req_u r) cmd else mret (-1));
           sk_unmap c ptr;;
           mret ret);
  kfree (mem_pointer r);;
  mret ret.

Definition securekeydev_ioctl (jrdev : Z) (cmd : mp_ioctl) : st (kern E) Z :=
  req ← kmalloc sizeof_sk_req;
  match req with
  | None => mret (- ENOMEM)
  | Some req =>
      match cmd with
      | SK_OTHER_CMD => kfree req;; mret (- EINVAL)
      | _ =>
          '(ret, r) ← sk_copy_data_from_user cmd;
          ret ← (if negb (ret =? 0) then mret ret else r ← lift (deref r); run_request jrdev cmd r);
          kfree req;;
          mret ret
      end
  end.

(** The entry point for 32-bit processes. *)
Definition securekeydev_compat_ioctl (jrdev : Z) (cmd : mp_ioctl) : st (kern E) Z := mret 0.

Definition securekeydev_poll : st (kern E) Z := mret 0.

End Driver.

(** ** The module (ioctl.c) *)

(** Whether the device is registered, and [verbosity_sysctl_header]. *)
Record module_state := mkModule { misc_registered : bool; verbosity_sysctl_header : option Z }.

(** [rc] is the answer of [misc_register], [header] that of [register_sysctl_table]. *)
Definition securekeydev_register (rc : Z) (m : module_state) : Z * module_state :=
  if negb (rc =? 0) then (rc, m) else (0, mkModule true (verbosity_sysctl_header m)).
Definition securekeydev_deregister (m : module_state) : module_state := mkModule false (verbosity_sysctl_header m).

Definition init_securekeydev (rc : Z) (header : option Z) (m : module_state) : Z * module_state :=
  let '(rc, m) := securekeydev_register rc m in
  if negb (rc =? 0) then (rc, m) else (0, mkModule (misc_registered m) header).

(** With the table that is unregistered, if there is one. *)
Definition exit_securekeydev (m : module_state) : option Z * module_state :=
  (verbosity_sysctl_header m, securekeydev_deregister m).
