(* ===== verification/SkDrvTheorems.v ===== *)
(** * The secure-key driver: what a request returns and releases

    [wp] is total correctness for the driver's state passing, with one rule per kernel
    operation.  [MpEngine] says what the CAAM promises for the two jobs.  On top of it:
    the two requests deliver the engine's answer, every path gives back the blocks and
    mappings it took, and the places where a request does neither. *)

From stdpp Require Import base numbers list gmap.
From S2P Require Import Prelude SkDrv.

(** ** Total correctness *)

Definition wp {S A} (m : st S A) (Q : A -> S -> Prop) (s : S) : Prop :=
  exists a s', m s = Ret (a, s') /\ Q a s'.

Section Wp.
Context {S : Type}.

Lemma wp_ret {A} (a : A) (Q : A -> S -> Prop) s : Q a s -> wp (mret a) Q s.
Proof. intros HQ. by exists a, s. Qed.
Lemma wp_bind {A B} (m : st S A) (f : A -> st S B) Q s : wp m (fun a => wp (f a) Q) s -> wp (m ≫= f) Q s.
Proof.
  intros (a & s1 & E & b & s2 & E2 & HQ). exists b, s2. unfold mbind, st_bind. by rewrite E.
Qed.
Lemma wp_mono {A} (m : st S A) (P Q : A -> S -> Prop) s : wp m P s -> (forall a s', P a s' -> Q a s') -> wp m Q s.
Proof. intros (a & s' & E & HP) H. exists a, s'. eauto. Qed.
Lemma wp_gets {A} (f : S -> A) (Q : A -> S -> Prop) s : Q (f s) s -> wp (gets f) Q s.
Proof. intros HQ. by exists (f s), s. Qed.
Lemma wp_modify (f : S -> S) (Q : unit -> S -> Prop) s : Q tt (f s) -> wp (modify f) Q s.
Proof. intros HQ. by exists tt, (f s). Qed.
Lemma wp_lift {A} (m : outcome A) a (Q : A -> S -> Prop) s : m = Ret a -> Q a s -> wp (lift m) Q s.
Proof. intros -> HQ. by exists a, s. Qed.
Lemma wp_same {A} (m m' : st S A) Q s s' : m s = m' s' -> wp m' Q s' -> wp m Q s.
Proof. intros E. unfold wp. by rewrite E. Qed.

(** A step that returns, followed by undefined behaviour. *)
Lemma wp_crash {A B} (m : st S A) (f : A -> st S B) s : wp m (fun a s' => f a s' = Undef) s -> (m ≫= f) s = Undef.
Proof. intros (a & s' & Em & Ef). unfold mbind, st_bind. by rewrite Em. Qed.
Lemma crash_bind {A B} (m : st S A) (f : A -> st S B) s : m s = Undef -> (m ≫= f) s = Undef.
Proof. intros Em. unfold mbind, st_bind. by rewrite Em. Qed.
End Wp.

(** Walks through binds and returns. *)
Ltac wp_step :=
  match goal with
  | |- wp (mret _) _ _ => apply wp_ret
  | |- wp (_ ≫= _) _ _ => apply wp_bind
  | |- wp (gets _) _ _ => apply wp_gets
  | |- wp (modify _) _ _ => apply wp_modify
  | |- wp (lift _) _ _ => eapply wp_lift; [reflexivity |]
  end; cbn beta iota delta [fmap option_fmap option_map].
Ltac wps := repeat wp_step.

Lemma above_fresh {A} (m : gmap Z A) : m !! above (dom m) = None.
Proof.
  apply not_elem_of_dom, above_not_in.
Qed.

(** ** Rules of the kernel operations *)

Section Rules.
Context {E : Type} `{HK : Kernel E}.
Implicit Types (h : gmap Z (list Z)) (m : gmap Z (kptr * Z)) (u : gmap Z (list Z)) (e : E).

Lemma wp_kmalloc n Q h m j u e :
  (forall b e', h !! b = None -> Q (Some b) (mkKern (<[b := zeros n]> h) m j u e')) ->
  (forall e', Q None (mkKern h m j u e')) ->
  wp (kmalloc n) Q (mkKern h m j u e).
Proof.
  intros H1 H2. unfold wp, kmalloc. cbn. destruct (alloc_ok n e) as [[] e'].
  - eexists _, _. split; [reflexivity |]. apply H1, above_fresh.
  - eexists _, _. split; [reflexivity | apply H2].
Qed.

Lemma wp_kfree b Q h m j u e :
  is_Some (h !! b) -> Q tt (mkKern (delete b h) m j u e) -> wp (kfree b) Q (mkKern h m j u e).
Proof. intros [d Hd] HQ. unfold wp, kfree. cbn. rewrite Hd. eexists _, _. split; [reflexivity | exact HQ]. Qed.

Lemma wp_dma_map p len Q h m j u e :
  (forall a e', m !! a = None -> Q (Some a) (mkKern h (<[a := (p, len)]> m) j u e')) ->
  (forall e', Q None (mkKern h m j u e')) ->
  wp (dma_map_single p len) Q (mkKern h m j u e).
Proof.
  intros H1 H2. unfold wp, dma_map_single. cbn. destruct (dma_ok len e) as [[] e'].
  - eexists _, _. split; [reflexivity |]. apply H1, above_fresh.
  - eexists _, _. split; [reflexivity | apply H2].
Qed.

Lemma wp_dma_unmap a Q h m j u e :
  is_Some (m !! a) -> Q tt (mkKern h (delete a m) j u e) -> wp (dma_unmap_single a) Q (mkKern h m j u e).
Proof. intros [d Hd] HQ. unfold wp, dma_unmap_single. cbn. rewrite Hd. eexists _, _. split; [reflexivity | exact HQ]. Qed.

Lemma wp_kwrite b off d bs bs' Q h m j u e :
  h !! b = Some bs -> buf_write bs off d = Ret bs' -> Q tt (mkKern (<[b := bs']> h) m j u e) ->
  wp (kwrite (b, off) d) Q (mkKern h m j u e).
Proof. intros Hb Hw HQ. unfold wp, kwrite. cbn. rewrite Hb, Hw. eexists _, _. split; [reflexivity | exact HQ]. Qed.

(** A copy to the process of [n] bytes the block holds, into a buffer that has room. *)
Lemma wp_copy_to_user dst b off n d bs us Q h m j u e :
  h !! b = Some bs -> buf_read bs off n = Ret d -> u !! dst = Some us -> n <= Z.of_nat (length us) ->
  Q true (mkKern h m j (<[dst := splice us 0 d]> u) e) ->
  wp (copy_to_user dst (b, off) n) Q (mkKern h m j u e).
Proof.
  intros Hb Hr Hu Hn HQ. unfold copy_to_user. destruct (n =? 0) eqn:E0; boolz.
  - subst n. apply buf_read_length in Hr. destruct d; [| done]. wps.
    unfold splice in HQ. cbn in HQ. by rewrite drop_0, insert_id in HQ.
  - wps. exists d, (mkKern h m j u e). split; [unfold kread; cbn; by rewrite Hb, Hr |]. wps. cbn [k_user]. rewrite Hu.
    rewrite (proj2 (Z.leb_le _ _) Hn). by wps.
Qed.

Lemma wp_copy_from_user b off src n bs bs' us Q h m j u e :
  h !! b = Some bs -> u !! src = Some us -> 0 <= n <= Z.of_nat (length us) ->
  buf_write bs off (take (Z.to_nat n) us) = Ret bs' -> Q true (mkKern (<[b := bs']> h) m j u e) ->
  wp (copy_from_user (b, off) src n) Q (mkKern h m j u e).
Proof.
  intros Hb Hu Hn Hw HQ. unfold copy_from_user. destruct (n =? 0) eqn:E0; boolz.
  - subst n. apply buf_write_inv in Hw as (_ & _ & ->). wps.
    change (Z.to_nat 0) with 0%nat in HQ. rewrite take_0 in HQ. unfold splice in HQ. cbn [app length] in HQ.
    by rewrite Nat.add_0_r, take_drop, insert_id in HQ.
  - wps. cbn [k_user]. rewrite Hu. rewrite (proj2 (Z.leb_le _ _)) by lia. wps. eapply wp_kwrite; [done.. |]. by wps.
Qed.

End Rules.

(** Walks over the releases at the end of a request; the map equations that remain say
    that what was inserted was deleted. *)
Ltac fresh_facts :=
  repeat match goal with H : <[_ := _]> _ !! _ = None |- _ => apply lookup_insert_None in H as [? ?] end.
Ltac wp_if :=
  match goal with
  | |- wp (if ?b then _ else _) _ _ =>
      let v := eval vm_compute in b in
      match v with true => idtac | false => idtac end; change b with v; cbv iota
  end.
Ltac release :=
  repeat first [ wp_step | wp_if | match goal with |- wp (sk_unmap _ _) _ _ => unfold sk_unmap; cbn [c_pub_key c_msg c_hash c_r c_s] end
   | apply wp_dma_unmap; [by simplify_map_eq |] | apply wp_kfree; [by simplify_map_eq |] ].
Ltac gone := apply map_eq; let k := fresh "k" in intros k;
  repeat match goal with
  | |- context [delete ?x _] => lazymatch goal with H : k <> x |- _ => fail | _ => destruct (decide (k = x)) as [->|?] end
  end; by simplify_map_eq.
Ltac fails := intros; fresh_facts; release; cbn [k_heap k_maps k_user]; split_and!; [gone | gone || done | by eauto 10].

(** ** What the engine promises *)

(** The outputs of a job: addresses and the bytes it may write there. *)
Definition within (outs : list (Z * Z)) (ws : list (Z * list Z)) : Prop :=
  Forall (fun w => exists n, (w.1, n) ∈ outs /\ Z.of_nat (length w.2) <= n) ws.

(** An accepted job that succeeds makes the writes [good]; one that fails may have
    written some of its outputs; the wait is cut short only where [signals] hold. *)
Definition job_ok (signals : Prop) (outs : list (Z * Z)) (good : list (Z * list Z) -> Prop) (j : job) : Prop :=
  match j with
  | Refused rc => rc <> 0
  | Done status ws => if status =? 0 then good ws else within outs ws
  | Interrupted => signals
  end.

(** The two descriptors as the engine documents them: the parameter block (curve P-256 is
    3 in the selection field at bit 17), the addresses, and the protocol operation. *)
Definition mp_operation {E} `{Kernel E} (pclid : Z) : Z := Z.lor (Z.shiftl 0x86 OP_TYPE_SHIFT) (Z.shiftl pclid 16).
Definition pub_desc {E} `{Kernel E} (dest : Z) : list desc_item :=
  [init_job_desc_pdb 0 12; append_cmd 0x60000; append_ptr dest; append_operation (mp_operation 0x14)].
Definition sign_desc {E} `{Kernel E} (m n h c d : Z) : list desc_item :=
  [init_job_desc_pdb 0 40; append_cmd 0x60000; append_ptr m; append_ptr h; append_ptr c; append_ptr d; append_u32 n;
   append_operation (mp_operation 0x15)].

Lemma build_pub_desc {E} `{Kernel E} dest : build_mp_get_pubkey_desc dest = pub_desc dest.
Proof. unfold build_mp_get_pubkey_desc. by rewrite Z.lor_0_r. Qed.
Lemma build_sign_desc {E} `{Kernel E} m n h c d : 0 <= n < 2 ^ 32 -> build_mp_sign_desc m n h c d = sign_desc m n h c d.
Proof. intros Hn. unfold build_mp_sign_desc. by rewrite Z.lor_0_r, u32_small. Qed.

(** The manufacturing-protection key of the part, the digest of a message, and the
    signatures of a digest (a signature has a nonce). *)
Class MpEngine (E : Type) `{Kernel E} := {
  mp_x : list Z;
  mp_y : list Z;
  mp_digest : list Z -> list Z;
  mp_signs : list Z -> list Z -> list Z -> Prop;
  signals : Prop;
  mp_x_len : length mp_x = 32%nat;
  mp_y_len : length mp_y = 32%nat;
  mp_digest_len msg : length (mp_digest msg) = 32%nat;
  mp_signs_len d r s : mp_signs d r s -> length r = 32%nat /\ length s = 32%nat;
  pub_law jr dest mem e :
    job_ok signals [(dest, 64)] (fun ws => ws = [(dest, mp_x ++ mp_y)])
      (jr_run jr (pub_desc dest) mem e).1;
  sign_law jr m n h c d mem e msg :
    mem m = Some msg -> Z.of_nat (length msg) = n ->
    job_ok signals [(h, 32); (c, 32); (d, 32)]
      (fun ws => exists r s, mp_signs (mp_digest msg) r s /\ ws = [(h, mp_digest msg); (c, r); (d, s)])
      (jr_run jr (sign_desc m n h c d) mem e).1
}.

Section Jobs.
Context {E : Type} `{HK : Kernel E}.
Implicit Types (h : gmap Z (list Z)) (m : gmap Z (kptr * Z)) (u : gmap Z (list Z)) (e : E).

(** The writes of a job to one block. *)
Inductive lands m (t : Z) : list (Z * list Z) -> list Z -> list Z -> Prop :=
| lands_nil bs : lands m t [] bs bs
| lands_cons a d ws off len bs bs' bs'' :
    m !! a = Some ((t, off), len) -> Z.of_nat (length d) <= len -> buf_write bs off d = Ret bs' ->
    lands m t ws bs' bs'' -> lands m t ((a, d) :: ws) bs bs''.

Lemma wp_dma_writes m t ws bs bs' : lands m t ws bs bs' ->
  forall Q h j u e, h !! t = Some bs -> Q tt (mkKern (<[t := bs']> h) m j u e) ->
  wp (dma_writes ws) Q (mkKern h m j u e).
Proof.
  induction 1 as [bs | a d ws off len bs bs1 bs2 Ha Hl Hw _ IH]; intros Q h j u e Hb HQ; cbn [dma_writes].
  { wps. by rewrite insert_id in HQ. }
  wps. cbn [k_maps]. rewrite Ha. wps. rewrite (proj2 (Z.leb_le _ _) Hl). wps. eapply wp_kwrite; [done.. |].
  wps. apply IH; [by simplify_map_eq |]. by rewrite insert_insert_eq.
Qed.

(** The outputs are mapped inside the block. *)
Definition outs_in m (t : Z) (outs : list (Z * Z)) (bs : list Z) : Prop :=
  Forall (fun o => exists off len, m !! o.1 = Some ((t, off), len) /\ 0 <= off /\ o.2 <= len /\
    off + o.2 <= Z.of_nat (length bs)) outs.

Lemma within_lands m t outs ws : forall bs, outs_in m t outs bs -> within outs ws ->
  exists bs', lands m t ws bs bs' /\ length bs' = length bs.
Proof.
  induction ws as [|[a d] ws IH]; intros bs Ho Hw; [by exists bs; split; [constructor |] |].
  apply Forall_cons in Hw as [(n & Hin & Hn) Hw]. cbn in Hin, Hn.
  destruct (proj1 (Forall_forall _ _) Ho _ Hin) as (off & len & Hm & ? & ? & ?). cbn in *.
  destruct (buf_write_ok bs off d) as (bs1 & Hb1 & Hl1 & _); [lia.. |].
  destruct (IH bs1) as (bs2 & HL & Hl2); [unfold outs_in in *; by rewrite Hl1 | done |].
  exists bs2. split; [econstructor; [done | lia | done | done] | congruence].
Qed.

(** A submitted job: it fails with a non-zero code, lands its writes, or is cut short. *)
Lemma wp_submit_desc sig dev desc outs good t bs Q h m j u e :
  (forall d e', h !! d = None ->
     job_ok sig outs good (jr_run dev desc (mapped (mkKern (<[d := zeros CAAM_DESC_BYTES_MAX]> h) m j u e')) e').1) ->
  h !! t = Some bs -> outs_in m t outs bs ->
  (forall rc bs' j' e', rc <> 0 -> length bs' = length bs -> Q rc (mkKern (<[t := bs']> h) m j' u e')) ->
  (forall ws e', good ws -> exists bs', lands m t ws bs bs' /\ Q 0 (mkKern (<[t := bs']> h) m 0 u e')) ->
  (sig -> forall e', Q j (mkKern h m j u e')) ->
  wp (submit_desc dev desc) Q (mkKern h m j u e).
Proof.
  intros Hjob Ht Ho Hbad Hgood Hsig. unfold submit_desc. wps. apply wp_kmalloc; cbn beta iota.
  2: { intros e'. wps. rewrite <- (insert_id h t bs Ht). by apply Hbad. }
  intros d e1 Hd. specialize (Hjob d e1 Hd). wps. unfold submit_job, wp, set_env. cbn [k_heap k_maps job_comp_status k_user k_env].
  assert (Hdt : d <> t) by congruence. destruct (jr_run _ _ _ _) as [jb e2]. cbn [fst] in Hjob. destruct jb as [rc|status ws|].
  - eexists _, _. split; [reflexivity |]. apply wp_bind, wp_kfree; [by simplify_map_eq |]. wps.
    rewrite delete_insert_id by done. rewrite <- (insert_id h t bs Ht). by apply Hbad.
  - assert (HL : exists bs', lands m t ws bs bs' /\ Q status (mkKern (<[t := bs']> h) m status u e2)).
    { unfold job_ok in Hjob. destruct (status =? 0) eqn:Es; boolz; [subst; auto |].
      destruct (within_lands m t outs ws bs) as (bs' & HL & Hl); eauto. }
    destruct HL as (bs' & HL & HQ). fold (wp (dma_writes ws;; modify (set_status status);; gets job_comp_status)
      (fun a => wp (kfree d;; mret a) Q) (mkKern (<[d := zeros CAAM_DESC_BYTES_MAX]> h) m j u e2)).
    apply wp_bind. eapply wp_dma_writes; [exact HL | by simplify_map_eq |]. wps.
    unfold set_status. cbn [k_heap k_maps job_comp_status k_user k_env].
    rewrite insert_insert_ne by done. apply wp_bind, wp_kfree; [by simplify_map_eq |]. wps.
    by rewrite delete_insert_id by (done || by simplify_map_eq).
  - eexists _, _. split; [reflexivity |]. apply wp_bind, wp_kfree; [by simplify_map_eq |]. wps.
    rewrite delete_insert_id by done. by apply Hsig.
Qed.

End Jobs.

(** ** The two requests *)

Section Requests.
Context {E : Type} `{HK : Kernel E, HM : !MpEngine E}.
Implicit Types (h : gmap Z (list Z)) (m : gmap Z (kptr * Z)) (u : gmap Z (list Z)) (e : E).

(** The kernel gives back what a request took; the buffers of the process are filled,
    or the request fails and they are as before. *)
Definition answered (s : kern E) (good : gmap Z (list Z) -> Prop) (ret : Z) (s' : kern E) : Prop :=
  k_heap s' = k_heap s /\ k_maps s' = k_maps s /\
  (ret = 0 /\ good (k_user s') \/ (ret = - ENOMEM \/ ret = -1) /\ k_user s' = k_user s).

(** The process's buffers after the public key went out. *)
Definition key_out (i : sk_mp_pub_key_info) (bx by_ x y : list Z) (u : gmap Z (list Z)) : gmap Z (list Z) :=
  <[pi_y i := splice by_ 0 y]> (<[pi_x i := splice bx 0 x]> u).

Lemma wp_key_to_user i t bs bx by_ x y Q h m j u e :
  pi_x_len i = 32 -> pi_y_len i = 32 -> pi_x i <> pi_y i ->
  h !! t = Some bs -> buf_read bs 0 32 = Ret x -> buf_read bs 32 32 = Ret y ->
  u !! pi_x i = Some bx -> u !! pi_y i = Some by_ -> (32 <= length bx)%nat -> (32 <= length by_)%nat ->
  Q 0 (mkKern h m j (key_out i bx by_ x y u) e) ->
  wp (sk_copy_data_to_user (mp_pub_key_req (mkPubK (t, 0) 64)) (SK_MP_GET_PUB_KEY (Some i) (Some i))) Q (mkKern h m j u e).
Proof.
  intros Hxl Hyl Hne Ht Hx Hy Hux Huy Hlx Hly HQ. cbn [sk_copy_data_to_user]. wps. rewrite Hxl, Hyl. cbn [pub_key padd fst snd].
  eapply wp_copy_to_user; [done.. | lia |]. cbn [negb]. wps.
  eapply wp_copy_to_user; [done.. | by simplify_map_eq | lia |]. cbn [negb]. by wps.
Qed.

Lemma zeros_read n off len : 0 <= off -> 0 <= len -> off + len <= n -> buf_read (zeros n) off len = Ret (zeros len).
Proof.
  intros. rewrite buf_read_ret by (unfold zeros; len). f_equal. unfold zeros.
  rewrite drop_replicate, take_replicate. f_equal. lia.
Qed.

(** What was written as two halves reads as each of them. *)
Lemma buf_read_halves bs x y :
  buf_read bs 0 (Z.of_nat (length x + length y)) = Ret (x ++ y) ->
  buf_read bs 0 (Z.of_nat (length x)) = Ret x /\
  buf_read bs (Z.of_nat (length x)) (Z.of_nat (length y)) = Ret y.
Proof.
  unfold buf_read at 1. destruct (in_range _ _ _) eqn:Er; [| done]. apply in_range_spec in Er as (_ & _ & Er).
  rewrite Nat2Z.id, drop_0. intros [= Hbs]. rewrite !buf_read_ret by lia. rewrite !Nat2Z.id, drop_0.
  assert (Hx : take (length x) bs = x).
  { rewrite <- (take_app_length x y) at 2. rewrite <- Hbs, take_take. f_equal. lia. }
  split; [by rewrite Hx |]. f_equal. rewrite take_drop_commute, Hbs. by rewrite drop_app_length.
Qed.

(** Asking for the public key with the lengths of the curve. *)
Lemma pub_key_request jr i bx by_ s :
  pi_x_len i = 32 -> pi_y_len i = 32 -> pi_x i <> pi_y i ->
  k_user s !! pi_x i = Some bx -> k_user s !! pi_y i = Some by_ -> (32 <= length bx)%nat -> (32 <= length by_)%nat ->
  wp (securekeydev_ioctl jr (SK_MP_GET_PUB_KEY (Some i) (Some i)))
    (answered s (fun u' => u' = key_out i bx by_ mp_x mp_y (k_user s) \/
       signals /\ job_comp_status s = 0 /\ u' = key_out i bx by_ (zeros 32) (zeros 32) (k_user s))) s.
Proof.
  intros Hxl Hyl Hne Hux Huy Hlx Hly. destruct s as [h m j u e]. cbn [k_user] in *. unfold securekeydev_ioctl, answered.
  cbn [k_heap k_maps k_user job_comp_status]. wps. apply wp_kmalloc; [| intros; wps; auto 10].
  intros r e1 Hr. wps. cbn [sk_copy_data_from_user]. wps. rewrite Hxl, Hyl. change (u8 (32 + 32)) with 64.
  apply wp_kmalloc; [| fails].
  intros t e2 Ht. release. unfold run_request, sk_map_caam_req. cbn [req_u mem_pointer]. wps.
  apply wp_kmalloc; [| fails].
  intros c e3 Hc. fresh_facts. wps. unfold sk_mp_get_pub_key_map. wps. cbn [pub_key pub_key_len].
  apply wp_dma_map; [| fails].
  intros a e4 Ha. release. cbn [caam_job_submit]. unfold caam_submit_mp_get_pub_key_op. cbn [c_pub_key].
  eapply wp_submit_desc with (t := t) (bs := zeros 64);
    [intros; rewrite build_pub_desc; apply pub_law | by simplify_map_eq | | | |].
  - constructor; [| constructor]. exists 0, 64. cbn [fst snd]. rewrite lookup_insert_eq. unfold zeros. split_and!; [done | lia..| len].
  - intros rc bs' j' e5 Hrc Hl. rewrite (proj2 (Z.eqb_neq _ _) Hrc). fails.
  - intros ws e5 ->. destruct (buf_write_ok (zeros 64) 0 (mp_x ++ mp_y)) as (bs' & Hw & Hl & Hrd & _);
      [done | rewrite length_app, mp_x_len, mp_y_len; done |].
    exists bs'. split.
    { econstructor; [by rewrite lookup_insert_eq | rewrite length_app, mp_x_len, mp_y_len; done | exact Hw | constructor]. }
    rewrite length_app in Hrd. apply buf_read_halves in Hrd as [Hx Hy]. rewrite mp_x_len in *. rewrite mp_y_len in *.
    rewrite Z.eqb_refl. wps.
    eapply wp_key_to_user with (t := t) (bs := bs'); [done | done | done | by simplify_map_eq | done.. |]. fails.
  - intros Hs e5. destruct (j =? 0) eqn:Ej; boolz; [| fails]. subst j. wps.
    eapply wp_key_to_user with (t := t); [done | done | done | by simplify_map_eq | by apply zeros_read | by apply zeros_read | done.. |].
    fails.
Qed.
(** The process's buffers after digest and signature went out. *)
Definition sign_out (i : sk_mp_sign_req_info) (bh br bs d r s : list Z) (u : gmap Z (list Z)) : gmap Z (list Z) :=
  <[si_s i := splice bs 0 s]> (<[si_r i := splice br 0 r]> (<[si_hash i := splice bh 0 d]> u)).

(** A request the library makes: the lengths of the curve, a readable message and three
    buffers with room. *)
Definition sign_args (i : sk_mp_sign_req_info) (msg bm bh br bs : list Z) (u : gmap Z (list Z)) : Prop :=
  (si_hash_len i = 32 /\ si_r_len i = 32 /\ si_s_len i = 32 /\ si_msg_len i = Z.of_nat (length msg)) /\
  (si_hash i <> si_r i /\ si_hash i <> si_s i /\ si_r i <> si_s i) /\
  (u !! si_msg i = Some bm /\ take (length msg) bm = msg) /\
  (u !! si_hash i = Some bh /\ u !! si_r i = Some br /\ u !! si_s i = Some bs) /\
  (32 <= length bh /\ 32 <= length br /\ 32 <= length bs)%nat.

Lemma wp_signature_to_user i msg bm bh br bs t n blk d r s Q h m j u e :
  sign_args i msg bm bh br bs u -> 0 <= n -> h !! t = Some blk ->
  buf_read blk n 32 = Ret d -> buf_read blk (n + 32) 32 = Ret r -> buf_read blk (n + 32 + 32) 32 = Ret s ->
  Q 0 (mkKern h m j (sign_out i bh br bs d r s u) e) ->
  wp (sk_copy_data_to_user
        (mp_sign_req (mkSignK (t, 0) n (t, n) 32 (t, n + 32) 32 (t, n + 32 + 32) 32))
        (SK_MP_SIGN (Some i) (Some i))) Q (mkKern h m j u e).
Proof.
  intros (_ & (? & ? & ?) & _ & (Hh & Hr & Hs) & (? & ? & ?)) Hn Ht Hd1 Hd2 Hd3 HQ.
  cbn [sk_copy_data_to_user k_hash k_hash_len k_r k_r_len k_s k_s_len]. wps.
  eapply wp_copy_to_user; [done.. | lia |]. cbn [negb]. wps.
  eapply wp_copy_to_user; [done | done | by simplify_map_eq | lia |]. cbn [negb]. wps.
  eapply wp_copy_to_user; [done | done | by simplify_map_eq | lia |]. cbn [negb]. by wps.
Qed.

(** Digest and signature written one after the other into the block. *)
Lemma lands_signature m t blk n (ah ar as_ : Z) d r s :
  0 <= n -> Z.of_nat (length blk) = n + 96 -> (length d = 32 /\ length r = 32 /\ length s = 32)%nat ->
  m !! ah = Some ((t, n), 32) -> m !! ar = Some ((t, n + 32), 32) -> m !! as_ = Some ((t, n + 32 + 32), 32) ->
  exists blk', lands m t [(ah, d); (ar, r); (as_, s)] blk blk' /\
    buf_read blk' n 32 = Ret d /\ buf_read blk' (n + 32) 32 = Ret r /\ buf_read blk' (n + 32 + 32) 32 = Ret s.
Proof.
  intros Hn Hb (Hd & Hr & Hs) Hmh Hmr Hms.
  destruct (buf_write_ok blk n d) as (b1 & Hw1 & Hl1 & Hs1 & _); [lia.. |].
  destruct (buf_write_ok b1 (n + 32) r) as (b2 & Hw2 & Hl2 & Hs2 & Ho2); [lia.. |].
  destruct (buf_write_ok b2 (n + 32 + 32) s) as (b3 & Hw3 & Hl3 & Hs3 & Ho3); [lia.. |].
  rewrite Hd in *. rewrite Hr in *. rewrite Hs in *. change (Z.of_nat 32) with 32 in *.
  exists b3. split; [| split_and!].
  - do 3 (econstructor; [done | lia | done |]). constructor.
  - by rewrite Ho3, Ho2 by lia.
  - by rewrite Ho3 by lia.
  - done.
Qed.

(** The request in kernel memory: message, digest and signature in one block. *)
Definition sign_block (msg : list Z) : list Z := msg ++ zeros 96.
Definition sign_req_k (t n : Z) : sk_mp_sign_req_info_k :=
  mkSignK (t, 0) n (t, n) 32 (t, n + 32) 32 (t, n + 32 + 32) 32.

Lemma wp_sign_copy_in i i' msg bm bh br bs Q h m j u e :
  sign_args i msg bm bh br bs u ->
  (forall t e', h !! t = None ->
     Q (0, Some (mkReq (mp_sign_req (sign_req_k t (Z.of_nat (length msg)))) t)) (mkKern (<[t := sign_block msg]> h) m j u e')) ->
  (forall e', Q (- ENOMEM, None) (mkKern h m j u e')) ->
  wp (sk_copy_data_from_user (SK_MP_SIGN (Some i) i')) Q (mkKern h m j u e).
Proof.
  intros ((Hl1 & Hl2 & Hl3 & Hl4) & _ & (Hm & Hmsg) & _) H1 H2. cbn [sk_copy_data_from_user]. wps.
  rewrite Hl1, Hl2, Hl3, Hl4.
  apply wp_kmalloc; [| intros; by wps]. intros t e' Ht. wps. unfold padd. cbn [fst snd]. rewrite Z.add_0_l.
  assert (length msg <= length bm)%nat by (rewrite <- Hmsg at 1; len).
  eapply wp_copy_from_user; [by simplify_map_eq | done | lia | rewrite Nat2Z.id, Hmsg; apply buf_write_ret; unfold zeros; len |].
  cbn [negb]. wps. rewrite insert_insert_eq. replace (splice _ _ _) with (sign_block msg); [by apply H1 |].
  unfold splice, sign_block, zeros. cbn [Z.to_nat take app]. rewrite take_0, drop_replicate. cbn [app]. do 2 f_equal. lia.
Qed.

Lemma wp_sign_map_req t n Q h m j u e :
  (forall am ah ar as_ e', m !! am = None -> <[am := ((t, 0), n)]> m !! ah = None ->
     <[ah := ((t, n), 32)]> (<[am := ((t, 0), n)]> m) !! ar = None ->
     <[ar := ((t, n + 32), 32)]> (<[ah := ((t, n), 32)]> (<[am := ((t, 0), n)]> m)) !! as_ = None ->
     Q (Some (mkCSign am n ah 32 ar 32 as_ 32))
       (mkKern h (<[as_ := ((t, n + 32 + 32), 32)]> (<[ar := ((t, n + 32), 32)]>
          (<[ah := ((t, n), 32)]> (<[am := ((t, 0), n)]> m)))) j u e')) ->
  (forall m' e', m' = m -> Q None (mkKern h m' j u e')) ->
  wp (sk_mp_sign_map (sign_req_k t n)) Q (mkKern h m j u e).
Proof.
  intros H1 H2. unfold sk_mp_sign_map. cbn [sign_req_k k_msg k_msg_len k_hash k_hash_len k_r k_r_len k_s k_s_len]. wps.
  apply wp_dma_map; [| intros; wps; by apply H2]. intros am e1 Hm. wps.
  apply wp_dma_map; [| intros; fresh_facts; release; apply H2; gone]. intros ah e2 Hh. wps.
  apply wp_dma_map; [| intros; fresh_facts; release; apply H2; gone]. intros ar e3 Hr. wps.
  apply wp_dma_map; [| intros; fresh_facts; release; apply H2; gone]. intros as_ e4 Hs. wps. by apply H1.
Qed.

Lemma sign_block_reads msg n : n = Z.of_nat (length msg) ->
  Z.of_nat (length (sign_block msg)) = n + 96 /\
  buf_read (sign_block msg) n 32 = Ret (zeros 32) /\ buf_read (sign_block msg) (n + 32) 32 = Ret (zeros 32) /\
  buf_read (sign_block msg) (n + 32 + 32) 32 = Ret (zeros 32).
Proof.
  intros ->. unfold sign_block, zeros. split; [len |]. split_and!; rewrite buf_read_ret by len; f_equal;
    (rewrite drop_app_ge by lia; rewrite drop_replicate, take_replicate; f_equal; lia).
Qed.

(** Signing with the lengths of the curve. *)
Lemma sign_request jr i msg bm bh br bs s :
  (length msg < 256)%nat -> sign_args i msg bm bh br bs (k_user s) ->
  wp (securekeydev_ioctl jr (SK_MP_SIGN (Some i) (Some i)))
    (answered s (fun u' =>
       (exists r z, mp_signs (mp_digest msg) r z /\ u' = sign_out i bh br bs (mp_digest msg) r z (k_user s)) \/
       signals /\ job_comp_status s = 0 /\ u' = sign_out i bh br bs (zeros 32) (zeros 32) (zeros 32) (k_user s))) s.
Proof.
  intros Hmsg Hargs. destruct s as [h m j u e]. cbn [k_user] in *. unfold securekeydev_ioctl, answered.
  cbn [k_heap k_maps k_user job_comp_status]. wps. apply wp_kmalloc; [| intros; wps; auto 10].
  intros q e1 Hq. wps. eapply wp_sign_copy_in; [exact Hargs | | fails].
  intros t e2 Ht. release. unfold run_request, sk_map_caam_req. cbn [req_u mem_pointer]. wps.
  apply wp_kmalloc; [| fails]. intros c e3 Hc. fresh_facts. wps.
  remember (Z.of_nat (length msg)) as n eqn:Hn. destruct (sign_block_reads msg n Hn) as (Hbl & Hz1 & Hz2 & Hz3).
  apply wp_sign_map_req; [| intros m' e' ->; fails]. intros am ah ar as_ e4 Ham Hah Har Has. fresh_facts. release.
  cbn [caam_job_submit]. unfold caam_submit_mp_sign_op. cbn [c_msg c_msg_len c_hash c_r c_s].
  eapply wp_submit_desc with (t := t) (bs := sign_block msg); [| by simplify_map_eq | | | |].
  - intros d e' Hd. fresh_facts. rewrite build_sign_desc by lia. apply sign_law; [| done]. unfold mapped. cbn [k_maps k_heap]. simplify_map_eq.
    cbn. simplify_map_eq. cbn [fst snd mbind option_bind].
    change (Z.to_nat 0) with 0%nat. unfold sign_block. by rewrite Nat2Z.id, drop_0, take_app_length.
  - repeat constructor; cbn [fst snd]; eexists _, _; (split; [by simplify_map_eq | lia]).
  - intros rc b' j' e5 Hrc Hl. rewrite (proj2 (Z.eqb_neq _ _) Hrc). fails.
  - intros ws e5 (r & z & Hsig & ->). destruct (mp_signs_len _ _ _ Hsig) as [Hr Hz].
    edestruct (lands_signature (<[as_ := ((t, n + 32 + 32), 32)]> (<[ar := ((t, n + 32), 32)]>
      (<[ah := ((t, n), 32)]> (<[am := ((t, 0), n)]> m)))) t (sign_block msg) n ah ar as_ (mp_digest msg) r z)
      as (b' & HL & H'1 & H'2 & H'3); [lia | lia | by rewrite mp_digest_len | by simplify_map_eq.. |].
    exists b'. split; [exact HL |]. rewrite Z.eqb_refl. wps.
    eapply wp_signature_to_user; [done | lia | by simplify_map_eq | done.. |]. fails.
  - intros Hs e5. destruct (j =? 0) eqn:Ej; boolz; [| fails]. subst j. wps.
    eapply wp_signature_to_user; [done | lia | by simplify_map_eq | done.. |]. fails.
Qed.
End Requests.

(** ** What a request takes it gives back *)

Section Resources.
Context {E : Type} `{HK : Kernel E}.
Implicit Types s : kern E.

Lemma taken_released (D : gset Z) b : b ∉ D -> ({[b]} ∪ D) ∖ {[b]} = D.
Proof. set_solver. Qed.

(** The same blocks and the same mappings. *)
Definition same_res (s s' : kern E) : Prop := dom (k_heap s') = dom (k_heap s) /\ k_maps s' = k_maps s.

#[local] Instance same_res_preorder : PreOrder same_res.
Proof. split; [by split |]. intros s1 s2 s3 [H1 H2] [H3 H4]. split; congruence. Qed.

Lemma kmalloc_res n s r s' : kmalloc n s = Ret (r, s') ->
  k_maps s' = k_maps s /\
  match r with
  | None => dom (k_heap s') = dom (k_heap s)
  | Some b => (b ∉ dom (k_heap s)) /\ dom (k_heap s') = {[b]} ∪ dom (k_heap s)
  end.
Proof.
  unfold kmalloc. destruct (alloc_ok _ _) as [[] e]; intros [= <- <-]; cbn; [| done].
  split_and!; [done | apply not_elem_of_dom, above_fresh | apply dom_insert_L].
Qed.

Lemma kfree_res b s a s' : kfree b s = Ret (a, s') ->
  k_maps s' = k_maps s /\ dom (k_heap s') = dom (k_heap s) ∖ {[b]}.
Proof. unfold kfree. destruct (_ !! b); [| done]. intros [= <- <-]. cbn. split; [done | apply dom_delete_L]. Qed.

Lemma dma_map_res p len s r s' : dma_map_single p len s = Ret (r, s') ->
  dom (k_heap s') = dom (k_heap s) /\
  match r with
  | None => k_maps s' = k_maps s
  | Some a => k_maps s !! a = None /\ k_maps s' = <[a := (p, len)]> (k_maps s)
  end.
Proof.
  unfold dma_map_single. destruct (dma_ok _ _) as [[] e]; intros [= <- <-]; cbn; [| done].
  split_and!; [done | apply above_fresh | done].
Qed.

Lemma dma_unmap_res a s b s' : dma_unmap_single a s = Ret (b, s') ->
  dom (k_heap s') = dom (k_heap s) /\ k_maps s' = delete a (k_maps s).
Proof. unfold dma_unmap_single. destruct (_ !! a); [| done]. by intros [= <- <-]. Qed.

Lemma kread_steps p n : steps same_res (kread p n).
Proof. intros s d s'. unfold kread. repeat case_match; by intros [= <- <-]. Qed.
Lemma kwrite_steps p d : steps same_res (kwrite p d).
Proof.
  intros s a s'. unfold kwrite. destruct (_ !! _) eqn:Eb; [| done]. destruct (buf_write _ _ _); [| done].
  intros [= <- <-]. split; [cbn; rewrite dom_insert_L; apply subseteq_union_1_L, singleton_subseteq_l; by eapply elem_of_dom_2 | done].
Qed.
#[local] Hint Resolve kread_steps kwrite_steps : steps.

Lemma copy_to_user_steps dst p n : steps same_res (copy_to_user dst p n).
Proof. unfold copy_to_user. steps_auto. apply steps_modify. by split. Qed.
Lemma copy_from_user_steps p src n : steps same_res (copy_from_user p src n).
Proof. unfold copy_from_user. steps_auto. Qed.
#[local] Hint Resolve copy_to_user_steps copy_from_user_steps : steps.

Lemma copy_data_to_user_steps r cmd : steps same_res (sk_copy_data_to_user r cmd).
Proof. unfold sk_copy_data_to_user. steps_auto. Qed.
Lemma dma_writes_steps ws : steps same_res (dma_writes ws).
Proof. induction ws as [|[a d] ws IH]; cbn [dma_writes]; steps_auto. Qed.
#[local] Hint Resolve copy_data_to_user_steps dma_writes_steps : steps.

Lemma submit_job_steps dev desc : steps same_res (submit_job dev desc).
Proof.
  intros s a s'. unfold submit_job. destruct (jr_run _ _ _ _) as [[] e].
  - by intros [= <- <-].
  - intros Ej. assert (Hs : steps same_res (dma_writes writes;; modify (set_status status);; gets (job_comp_status (E := E)))).
    { steps_auto. by apply steps_modify. }
    by apply Hs in Ej.
  - by intros [= <- <-].
Qed.

Lemma submit_desc_steps dev desc : steps same_res (submit_desc dev desc).
Proof.
  intros s a s' Ej. unfold submit_desc in Ej. inv_st. apply kmalloc_res in E0 as [Hm Hb].
  destruct a0 as [d|]; inv_st; [| by split]. apply submit_job_steps in E0 as [H1 H2]. apply kfree_res in E1 as [H3 H4].
  destruct Hb as [Hb Hd]. split; [by rewrite H4, H1, Hd, taken_released | congruence].
Qed.
Lemma caam_job_submit_steps dev c : steps same_res (caam_job_submit dev c).
Proof. destruct c; apply submit_desc_steps. Qed.


(** After [s] the request holds one more block and the mappings that unmapping [c]
    releases. *)
Definition holds_req (s s1 : kern E) (c : caam_req) (ptr : Z) : Prop :=
  (ptr ∉ dom (k_heap s)) /\ dom (k_heap s1) = {[ptr]} ∪ dom (k_heap s) /\
  forall s2 a s3, same_res s1 s2 -> sk_unmap c ptr s2 = Ret (a, s3) -> same_res s s3.

Lemma pub_key_map_res k s r s1 : sk_mp_get_pub_key_map k s = Ret (r, s1) ->
  dom (k_heap s1) = dom (k_heap s) /\
  match r with
  | None => k_maps s1 = k_maps s
  | Some c => delete (c_pub_key c) (k_maps s1) = k_maps s
  end.
Proof.
  unfold sk_mp_get_pub_key_map. intros Ek. inv_st. apply dma_map_res in E0 as [Hd Hm].
  split; [done |]. destruct a as [a|]; cbn; [| done]. destruct Hm as [Hn ->]. by apply delete_insert_id.
Qed.

Ltac maps_res :=
  repeat match goal with
  | H : dma_map_single _ _ _ = Ret (?r, _) |- _ => apply dma_map_res in H as [? ?]; destruct r as [?|]; destruct_and?
  | H : dma_unmap_single _ _ = Ret _ |- _ => apply dma_unmap_res in H as [? ?]
  end.

Lemma sign_map_res k s r s1 : sk_mp_sign_map k s = Ret (r, s1) ->
  dom (k_heap s1) = dom (k_heap s) /\
  match r with
  | None => k_maps s1 = k_maps s
  | Some c => delete (c_s c) (delete (c_r c) (delete (c_hash c) (delete (c_msg c) (k_maps s1)))) = k_maps s
  end.
Proof.
  unfold sk_mp_sign_map. intros Ek. repeat first [progress inv_st | progress maps_res].
  all: split; [congruence |].
  all: repeat match goal with H : k_maps _ = _ |- _ => rewrite H in *; clear H end; fresh_facts.
  all: cbn [c_msg c_hash c_r c_s]; try done; gone.
Qed.

Lemma unmap_res c ptr s a s' : sk_unmap c ptr s = Ret (a, s') ->
  dom (k_heap s') = dom (k_heap s) ∖ {[ptr]} /\
  k_maps s' =
    match c with
    | c_mp_pub_key r => delete (c_pub_key r) (k_maps s)
    | c_mp_sign r => delete (c_s r) (delete (c_r r) (delete (c_hash r) (delete (c_msg r) (k_maps s))))
    end.
Proof.
  unfold sk_unmap. intros Eu. inv_st. apply kfree_res in Eu as [Hm Hd].
  destruct c; repeat first [progress inv_st | progress maps_res]; split; congruence.
Qed.

Lemma map_caam_req_res req s ret o s1 : sk_map_caam_req req s = Ret ((ret, o), s1) ->
  (ret = 0 /\ exists c ptr, o = Some (c, ptr) /\ holds_req s s1 c ptr) \/ (ret <> 0 /\ same_res s s1).
Proof.
  unfold sk_map_caam_req. intros Em. inv_st. apply kmalloc_res in E0 as [Hm Hd].
  destruct a as [p|]; inv_st; [| by right]. destruct Hd as [Hp Hd].
  match goal with H : _ = Ret (a, s2) |- _ => rename H into Er end.
  assert (Hr : dom (k_heap s2) = dom (k_heap s0) /\
    match a with
    | None => k_maps s2 = k_maps s0
    | Some (c_mp_pub_key r) => delete (c_pub_key r) (k_maps s2) = k_maps s0
    | Some (c_mp_sign r) => delete (c_s r) (delete (c_r r) (delete (c_hash r) (delete (c_msg r) (k_maps s2)))) = k_maps s0
    end).
  { destruct req; inv_st; [apply pub_key_map_res in E0 | apply sign_map_res in E0]; by destruct a0. }
  destruct Hr as [Hd2 Hm2]. destruct a as [c|]; inv_st.
  - left. split; [done |]. exists c, p. split; [done |]. split; [done |]. split; [congruence |].
    intros s3 x s4 [Hd3 Hm3] [Hd4 Hm4]%unmap_res. split; [by rewrite Hd4, Hd3, Hd2, Hd, taken_released |].
    rewrite Hm4, Hm3. destruct c; congruence.
  - right. split; [done |]. apply kfree_res in E0 as [Hm3 Hd3].
    split; [by rewrite Hd3, Hd2, Hd, taken_released | congruence].
Qed.

(** Whether [n] bytes can be read from the address [src] of the process. *)
Definition readable (s : kern E) (src n : Z) : bool :=
  (n =? 0) || match k_user s !! src with Some u => n <=? Z.of_nat (length u) | None => false end.

Lemma kmalloc_user n s b s1 : kmalloc n s = Ret (b, s1) -> k_user s1 = k_user s.
Proof. unfold kmalloc. destruct (alloc_ok n _) as [[] ?]; by intros [= _ <-]. Qed.

Lemma copy_from_user_readable p src n s b s1 : copy_from_user p src n s = Ret (b, s1) -> b = readable s src n.
Proof.
  unfold copy_from_user, readable. intros Ec. destruct (n =? 0); cbn [orb]; inv_st; [done |].
  destruct (k_user _ !! src); [destruct (_ <=? _) |]; by inv_st.
Qed.

(** Copying a request in takes one block, or none; only a message that cannot be read
    leaves the block behind. *)
Lemma copy_in_res cmd s ret o s1 : sk_copy_data_from_user cmd s = Ret ((ret, o), s1) ->
  k_maps s1 = k_maps s /\
  match o with
  | None => ret <> 0 /\ dom (k_heap s1) = dom (k_heap s)
  | Some r =>
      (mem_pointer r ∉ dom (k_heap s)) /\ dom (k_heap s1) = {[mem_pointer r]} ∪ dom (k_heap s) /\
      (ret = 0 \/ ret = - EFAULT /\ exists u a', cmd = SK_MP_SIGN (Some u) a' /\ readable s (si_msg u) (si_msg_len u) = false)
  end.
Proof.
  intros Ec. destruct cmd as [a a'|a a'|]; cbn [sk_copy_data_from_user] in Ec; inv_st; [| | done].
  - apply kmalloc_res in E1 as [Hm Hd]. destruct a1 as [t|]; inv_st; [| done]. destruct Hd. by eauto 10.
  - pose proof (kmalloc_user _ _ _ _ E1) as Hu. apply kmalloc_res in E1 as [Hm Hd]. destruct a1 as [t|]; inv_st; [| done]. destruct Hd as [Ht Hd].
    pose proof (copy_from_user_readable _ _ _ _ _ _ E0) as Hr. unfold readable in Hr. rewrite Hu in Hr.
    apply copy_from_user_steps in E0 as [Hd2 Hm2]. destruct a1; cbn [negb] in Ec; inv_st; cbn [mem_pointer].
    all: rewrite Hm2, Hd2; split_and!; eauto 10.
    right. split; [done |]. destruct a as [u|]; [| done]. injection H as <-. by exists u, a'.
Qed.

Lemma run_request_res jr cmd r s ret s' : run_request jr cmd r s = Ret (ret, s') ->
  k_maps s' = k_maps s /\ dom (k_heap s') = dom (k_heap s) ∖ {[mem_pointer r]}.
Proof.
  unfold run_request. intros Er. inv_st. destruct a as [ret1 c]. apply map_caam_req_res in E0. inv_st.
  assert (Hs : same_res s s1).
  { destruct E0 as [(-> & c' & ptr & -> & Hh)|[Hne Hs]].
    - rewrite Z.eqb_refl in E1. cbn [negb] in E1. inv_st. injection H as <-. inv_st.
      apply caam_job_submit_steps in E0. destruct Hh as (_ & _ & Hun). eapply Hun; [| done]. transitivity s2; [done |].
      destruct (_ =? 0); inv_st; [by eapply copy_data_to_user_steps | done].
    - apply Z.eqb_neq in Hne. rewrite Hne in E1. cbn [negb] in E1. by inv_st. }
  apply kfree_res in E2 as [Hm Hd]. destruct Hs as [Hd1 Hm1]. by rewrite Hm, Hd, Hd1.
Qed.

(** One more block than before, after a sign request whose message cannot be read. *)
Definition leaves_block (cmd : mp_ioctl) (ret : Z) (s s' : kern E) : Prop :=
  ret = - EFAULT /\ (exists u a', cmd = SK_MP_SIGN (Some u) a' /\ readable s (si_msg u) (si_msg_len u) = false) /\ k_maps s' = k_maps s /\
  exists b, (b ∉ dom (k_heap s)) /\ dom (k_heap s') = {[b]} ∪ dom (k_heap s).

Lemma copied_request_res jr cmd s ret1 o s1 ret s2 :
  sk_copy_data_from_user cmd s = Ret ((ret1, o), s1) ->
  (if negb (ret1 =? 0) then mret ret1 else r ← lift (deref o); run_request jr cmd r) s1 = Ret (ret, s2) ->
  same_res s s2 \/ leaves_block cmd ret s s2.
Proof.
  intros [Hm1 Ho]%copy_in_res E2. destruct o as [r|].
  - destruct Ho as (Ht & Hd1 & [-> | [-> Hc]]).
    + rewrite Z.eqb_refl in E2. cbn [negb] in E2. inv_st. injection H as <-. apply run_request_res in E2 as [Hm2 Hd2].
      left. split; [by rewrite Hd2, Hd1, taken_released | congruence].
    + change (negb (- EFAULT =? 0)) with true in E2. cbv iota in E2. inv_st. right.
      split; [done |]. split; [done |]. split; [done |]. by exists (mem_pointer r).
  - destruct Ho as [Hne Hd]. apply Z.eqb_neq in Hne. rewrite Hne in E2. cbn [negb] in E2. inv_st. by left.
Qed.

Lemma ioctl_resources jr cmd s ret s' : securekeydev_ioctl jr cmd s = Ret (ret, s') ->
  same_res s s' \/ leaves_block cmd ret s s'.
Proof.
  unfold securekeydev_ioctl. intros Ei. inv_st. pose proof (kmalloc_user _ _ _ _ E0) as Hu. apply kmalloc_res in E0 as [Hm Hd].
  destruct a as [q|]; inv_st; [| by left]. destruct Hd as [Hq Hd].
  assert (Hback : forall s1 s2 x, same_res s0 s1 -> kfree q s1 = Ret (x, s2) -> same_res s s2).
  { intros s1 s2 x [Hd1 Hm1] [Hm2 Hd2]%kfree_res. split; [by rewrite Hd2, Hd1, Hd, taken_released | congruence]. }
  assert (Hleak : forall c s1 s2 x, leaves_block c ret s0 s1 -> kfree q s1 = Ret (x, s2) -> leaves_block c ret s s2).
  { intros c s1 s2 x (Hr & Hc & Hm1 & b & Hb & Hd1) [Hm2 Hd2]%kfree_res. split; [done |].
    split; [unfold readable in *; by rewrite <- Hu |]. split; [congruence |]. exists b. rewrite Hd2, Hd1, Hd. rewrite Hd in Hb. clear -Hb Hq. split; set_solver. }
  destruct cmd; [| | inv_st; left; eapply Hback; [| done]; done].
  all: inv_st; destruct a as [ret1 o]; inv_st.
  all: match goal with H : sk_copy_data_from_user _ _ = _, H' : (if _ then _ else _) _ = Ret _ |- _ =>
         destruct (copied_request_res _ _ _ _ _ _ _ _ H H') end; eauto.
Qed.
End Resources.

(** ** Claims *)

Section Claims.
Context {E : Type} `{HK : Kernel E}.

(** C19: Whatever a process asks for and whatever the kernel and the engine do, a request
    that returns has released every block and every DMA mapping it took, with one
    exception: a sign request whose message cannot be read from the process returns
    -EFAULT and leaves one block of kernel memory behind. *)
Theorem ioctl_releases jr cmd s ret s' : securekeydev_ioctl jr cmd s = Ret (ret, s') ->
  same_res s s' \/ leaves_block cmd ret s s'.
Proof. apply ioctl_resources. Qed.

(** A kernel that has memory and mappings to give, and an engine that answers a request
    for the key. *)
Definition serves (jr : Z) (key : list Z) : Prop :=
  (forall n e, (alloc_ok n e).1 = true) /\ (forall n e, (dma_ok n e).1 = true) /\
  (forall dest mem e, (jr_run jr (pub_desc dest) mem e).1 = Done 0 [(dest, key)]) /\ length key = 64%nat.

Lemma served_kmalloc jr key n Q h m j u (e : E) : serves jr key ->
  (forall b e', h !! b = None -> Q (Some b) (mkKern (<[b := zeros n]> h) m j u e')) -> wp (kmalloc n) Q (mkKern h m j u e).
Proof.
  intros (Hal & _) HQ. unfold wp, kmalloc. cbn. specialize (Hal n e). destruct (alloc_ok n e) as [b1 e1].
  cbn in Hal. subst b1. eexists _, _. split; [reflexivity |]. apply HQ, above_fresh.
Qed.
Lemma served_map jr key p n Q h m j u (e : E) : serves jr key ->
  (forall a e', m !! a = None -> Q (Some a) (mkKern h (<[a := (p, n)]> m) j u e')) -> wp (dma_map_single p n) Q (mkKern h m j u e).
Proof.
  intros (_ & Hdma & _) HQ. unfold wp, dma_map_single. cbn. specialize (Hdma n e). destruct (dma_ok n e) as [b1 e1].
  cbn in Hdma. subst b1. eexists _, _. split; [reflexivity |]. apply HQ, above_fresh.
Qed.

(** The engine's write of the key. *)
Lemma served_job jr key dest h m j u (e : E) : serves jr key ->
  exists e', submit_job jr (build_mp_get_pubkey_desc dest) (mkKern h m j u e) =
    (dma_writes [(dest, key)];; modify (set_status 0);; gets job_comp_status) (mkKern h m j u e').
Proof.
  intros (_ & _ & Hjob & _). rewrite build_pub_desc. unfold submit_job. cbn [k_env].
  specialize (Hjob dest (mapped (mkKern h m j u e)) e). destruct (jr_run _ _ _ _) as [jb e1]. cbn in Hjob. subst jb. by exists e1.
Qed.

(** It goes astray in a short block and fills one of 64 bytes or more. *)
Lemma served_submit jr key t a w h m j u (e : E) : serves jr key ->
  h !! t = Some (zeros w) -> m !! a = Some ((t, 0), w) -> 0 <= w ->
  caam_submit_mp_get_pub_key_op jr (mkCPub w a) (mkKern h m j u e) = Undef \/
  wp (caam_submit_mp_get_pub_key_op jr (mkCPub w a))
    (fun ret s' => ret = 0 /\ exists bs e', length bs = Z.to_nat w /\ s' = mkKern (<[t := bs]> h) m 0 u e') (mkKern h m j u e).
Proof.
  intros Hs Ht Ha Hw. assert (Hkey : length key = 64%nat) by apply Hs.
  unfold caam_submit_mp_get_pub_key_op, submit_desc. cbn [c_pub_key]. destruct (decide (64 <= w)) as [Hl|Hl].
  - right. wps. eapply served_kmalloc; [done |]. intros d e1 Hd. assert (d <> t) by congruence. wps.
    destruct (served_job jr key a (<[d := zeros CAAM_DESC_BYTES_MAX]> h) m j u e1 Hs) as [e2 Ej].
    eapply wp_same; [exact Ej |]. wps. destruct (buf_write_ok (zeros w) 0 key) as (bs & Hb & Hbl & _); [lia | unfold zeros; len |].
    eapply (wp_dma_writes m t _ (zeros w) bs); [econstructor; [done | lia | done | constructor] | by simplify_map_eq |]. wps.
    unfold set_status. cbn [k_heap k_maps job_comp_status k_user k_env]. rewrite insert_insert_ne by done.
    apply wp_kfree; [by simplify_map_eq |]. wps. split; [done |]. exists bs, e2.
    split; [rewrite Hbl; unfold zeros; len |]. by rewrite delete_insert_id by by simplify_map_eq.
  - left. apply wp_crash. eapply served_kmalloc; [done |]. intros d e1 Hd. apply crash_bind.
    destruct (served_job jr key a (<[d := zeros CAAM_DESC_BYTES_MAX]> h) m j u e1 Hs) as [e2 ->].
    apply crash_bind. cbn [dma_writes]. apply wp_crash. wps. cbn [k_maps]. rewrite Ha. apply wp_crash. wps.
    apply crash_bind. unfold lift, guard_c. by rewrite (proj2 (Z.leb_gt _ _)) by lia.
Qed.

(** [pub_key_len] is a byte: coordinate lengths that add up to 256 or more wrap, the
    block is too small, and a request for the key that the kernel and the engine serve
    reads or writes past it. *)
Theorem pub_key_len_wraps jr i s key :
  serves jr key -> 0 <= pi_x_len i < 256 -> 0 <= pi_y_len i < 256 -> 256 <= pi_x_len i + pi_y_len i ->
  securekeydev_ioctl jr (SK_MP_GET_PUB_KEY (Some i) (Some i)) s = Undef.
Proof.
  intros Hs Hx Hy Hwrap. destruct s as [h m j u e].
  unfold securekeydev_ioctl. apply wp_crash. eapply served_kmalloc; [done |]. intros q e1 Hq. cbn [sk_copy_data_from_user].
  set (w := u8 (pi_x_len i + pi_y_len i)).
  assert (Hw : 0 <= w < pi_x_len i).
  { unfold w, u8. replace (_ mod _) with (pi_x_len i + pi_y_len i - 256); [lia |]. apply (Z.mod_unique_pos _ _ 1); lia. }
  apply wp_crash. wps. eapply served_kmalloc; [done |]. intros t e2 Ht. wps. rewrite Z.eqb_refl. cbn [negb].
  apply crash_bind, wp_crash. wps. unfold run_request. apply wp_crash. unfold sk_map_caam_req. wps.
  eapply served_kmalloc; [done |]. intros c e3 Hc. fresh_facts. wps. cbn [req_u]. wps. unfold sk_mp_get_pub_key_map. wps.
  cbn [pub_key pub_key_len]. eapply served_map; [done |]. intros a e4 Ha. wps. rewrite Z.eqb_refl. cbn [negb].
  apply crash_bind, wp_crash. wps. cbn [caam_job_submit].
  edestruct (served_submit jr key t a w) as [Hc|Hc]; [done | | apply lookup_insert_eq | lia | apply crash_bind, Hc |].
  { by simplify_map_eq. }
  apply wp_crash. eapply wp_mono; [exact Hc |]. intros ret s' (-> & bs & e5 & Hbl & ->). rewrite Z.eqb_refl.
  apply crash_bind. cbn [sk_copy_data_to_user]. apply wp_crash. wps. apply crash_bind. unfold copy_to_user.
  rewrite (proj2 (Z.eqb_neq _ _)) by lia. apply crash_bind. unfold kread. cbn [pub_key fst snd k_heap].
  rewrite lookup_insert_eq. unfold buf_read, in_range. rewrite Hbl.
  by rewrite (proj2 (Z.leb_gt (0 + pi_x_len i) _)), andb_false_r by lia.
Qed.
End Claims.

(** ** A kernel and two engines *)

Module Bench.

Definition key_x : list Z := seqZ 1 32.
Definition key_y : list Z := seqZ 101 32.
Definition digest (msg : list Z) : list Z := replicate 32 (foldr Z.add 0 msg mod 256).

(** What an engine with that key makes of a descriptor. *)
Definition serve (desc : list desc_item) (mem : Z -> option (list Z)) : job :=
  match desc with
  | [_; _; append_ptr dest; _] => Done 0 [(dest, key_x ++ key_y)]
  | [_; _; append_ptr m; append_ptr h; append_ptr c; append_ptr d; append_u32 _; _] =>
      match mem m with
      | Some msg => Done 0 [(h, digest msg); (c, reverse (digest msg)); (d, digest (digest msg))]
      | None => Done 1 []
      end
  | _ => Refused (- EINVAL)
  end.

(** One engine answers, the other is always too late for the signal. *)
Inductive calm := Calm.
Inductive noisy := Noisy.

#[export] Instance calm_kernel : Kernel calm := {|
  OP_TYPE_SHIFT := 24;
  alloc_ok _ e := (true, e);
  dma_ok _ e := (true, e);
  caam_jr_alloc e := (Some 1, e);
  caam_jr_free _ e := e;
  jr_run _ desc mem e := (serve desc mem, e)
|}.
#[export] Instance noisy_kernel : Kernel noisy := {|
  OP_TYPE_SHIFT := 24;
  alloc_ok _ e := (true, e);
  dma_ok _ e := (true, e);
  caam_jr_alloc e := (Some 1, e);
  caam_jr_free _ e := e;
  jr_run _ _ _ e := (Interrupted, e)
|}.

#[export] Instance calm_engine : MpEngine calm.
Proof.
  refine {| mp_x := key_x; mp_y := key_y; mp_digest := digest; signals := False;
            mp_signs d r s := length d = 32%nat /\ r = reverse d /\ s = digest d |}; [done | done | done | | done |].
  - intros d r s (Hd & -> & ->). by rewrite length_reverse.
  - intros jr m n h c d mem e msg Hm _. cbn. rewrite Hm. cbn. eexists _, _. by split.
Defined.

(** A process with filled buffers; the last job succeeded. *)
Definition user : gmap Z (list Z) :=
  {[10 := replicate 40 255; 20 := replicate 32 255; 30 := [1; 2; 3]; 40 := replicate 32 255]}.
Definition start {E} (e : E) : kern E := mkKern ∅ ∅ 0 user e.
Definition key_request (n : Z) : mp_ioctl :=
  let i := Some (mkPubInfo 10 n 20 n) in SK_MP_GET_PUB_KEY i i.
Definition lost_request : mp_ioctl :=
  let i := Some (mkSignInfo 99 3 10 32 20 32 40 32) in SK_MP_SIGN i i.

Definition outcome_of {E} (m : outcome (Z * kern E)) : option (Z * option (list Z) * option (list Z) * nat) :=
  match m with
  | Ret (ret, s) => Some (ret, k_user s !! 10, k_user s !! 20, size (k_heap s))
  | Undef => None
  end.

Example key_delivered : outcome_of (securekeydev_ioctl 1 (key_request 32) (start Calm)) =
  Some (0, Some (key_x ++ replicate 8 255), Some key_y, 0%nat).
Proof. vm_compute. reflexivity. Qed.

End Bench.

Import Bench.

(** A signal during the wait is not noticed: the request then takes the status of an
    earlier job for its own.  After a job that succeeded, the process gets success and a
    public key of zeros, while the engine still has the buffer that was just freed. *)
Theorem interrupted_wait_zero_key : outcome_of (securekeydev_ioctl 1 (key_request 32) (start Noisy)) =
  Some (0, Some (zeros 32 ++ replicate 8 255), Some (zeros 32), 0%nat).
Proof. vm_compute. reflexivity. Qed.

(** The request with an unreadable message is the exception. *)
Lemma ioctl_releases_witness :
  exists s', securekeydev_ioctl 1 lost_request (start Calm) = Ret (- EFAULT, s') /\ size (k_heap s') = 1%nat /\
    (same_res (start Calm) s' \/ leaves_block lost_request (- EFAULT) (start Calm) s').
Proof.
  eexists. split; [vm_compute; reflexivity |]. split; [vm_compute; reflexivity |].
  apply (ioctl_releases 1 lost_request (start Calm) (- EFAULT)). vm_compute. reflexivity.
Defined.

Lemma pub_key_len_wraps_witness : securekeydev_ioctl 1 (key_request 160) (start Calm) = Undef.
Proof.
  apply (pub_key_len_wraps 1 (mkPubInfo 10 160 20 160) (start Calm) (key_x ++ key_y)).
  - split_and!; reflexivity.
  - cbn; lia.
  - cbn; lia.
  - cbn; lia.
Defined.
