(* ===== verification/SkMp.v ===== *)
(** * The manufacturing-protection library (securekey_mp.c)

    The part of the secure-key library that talks to the secure-key driver and reads
    the fuse and CAAM registers through /dev/mem.  The state is the static [fd] and the
    system; the system calls the library makes are the class [MpSys], a call that fails
    returning its error number beside its result.  [proc_sys] implements them with the
    driver of SkDrv.v: a process with its files and mappings on top of the kernel. *)

From stdpp Require Import base numbers list gmap strings.
From S2P Require Import Prelude SkDrv.

(** ** Data (securekey_mp.h) *)

Definition SK_SUCCESS : Z := 0.
Definition SK_FAILURE : Z := -1.

(** Pointers are addresses; 0 is NULL. *)
Record sk_EC_point := mkPoint { pt_x : Z; pt_y : Z; pt_len : Z }.
Record sk_EC_sig := mkSig { sg_r : Z; sg_s : Z; sg_len : Z }.

Definition MP_PUB_KEY_LEN : Z := 32.
Definition MP_DIGEST_LEN : Z := 32.
Definition MP_SIG_LEN : Z := 32.
Definition MP_TAG_LEN : Z := 32.
Definition FUID_LEN : Z := 8.
Definition MP_BASE_ADDRESS : Z := 0x01700000.
Definition SFP_BASE_ADDRESS : Z := 0x01E80000.

Definition sk_mp_get_pub_key_len : Z := MP_PUB_KEY_LEN.
Definition sk_mp_get_digest_len : Z := MP_DIGEST_LEN.
Definition sk_mp_get_sig_len : Z := MP_SIG_LEN.
Definition sk_mp_get_tag_len : Z := MP_TAG_LEN.
Definition sk_get_fuid_len : Z := FUID_LEN.

(** The status goes through an [int16_t]. *)
Definition sk_translate_error_code (error : Z) : string :=
  let e := i16 error in
  if e =? SK_FAILURE then "Device is not initiated"
  else if e =? - EIO then "Cannot map [CAAM] descriptor"
  else if e =? - EBUSY then "[CAAM]: queue is full"
  else if e =? - ENOMEM then "Memory allocation failed"
  else if e =? - EINVAL then "Invalid argument is passed"
  else if e =? - EFAULT then "Bad address passed"
  else if e =? - ENODEV then "No Such device exists"
  else "No Valid error code".

(** ** System calls *)

Inductive device := dev_securekeydev | dev_mem.

(** Results with error numbers; [data_word p i] is the 32-bit word [i] of the page
    mapped at [p], [store p off bs] a write to the caller's memory. *)
Class MpSys (W : Type) := {
  sys_open : device -> st W (Z * Z);
  sys_close : Z -> st W (Z * Z);
  sys_ioctl : Z -> mp_ioctl -> st W (Z * Z);
  sys_mmap : Z -> Z -> st W (option Z * Z);
  sys_munmap : Z -> st W unit;
  sys_malloc : Z -> st W (option Z);
  sys_free : Z -> st W unit;
  data_word : Z -> Z -> st W Z;
  store : Z -> Z -> list Z -> st W unit
}.

(** The library's static [fd] and the system. *)
Record mp_lib (W : Type) := mkMp { mp_fd : Z; mp_sys : W }.
Arguments mkMp {W} _ _.
Arguments mp_fd {W} _.
Arguments mp_sys {W} _.

Definition initial_fd : Z := 0xFFFF.

Section Lib.
Context {W : Type} `{MpSys W}.

Definition sys {A} (m : st W A) : st (mp_lib W) A := fun l =>
  match m (mp_sys l) with Ret (a, w) => Ret (a, mkMp (mp_fd l) w) | Undef => Undef end.
Definition set_fd (n : Z) (l : mp_lib W) : mp_lib W := mkMp n (mp_sys l).

Definition sk_lib_init : st (mp_lib W) Z :=
  '(n, _) ← sys (sys_open dev_securekeydev);
  modify (set_fd n);;
  if n <? 0 then mret SK_FAILURE else mret SK_SUCCESS.

Definition sk_lib_exit : st (mp_lib W) unit :=
  n ← gets mp_fd;
  if negb (n =? initial_fd) then sys (sys_close n);; mret tt else mret tt.

Definition sizeof_sk_mp_pub_key_info : Z := 32.
Definition sizeof_sk_mp_sign_req_info : Z := 64.

(** The structure is the library's own: the driver finds it unchanged on the way out. *)
Definition sk_mp_get_pub_key (req : sk_EC_point) : st (mp_lib W) Z :=
  if (pt_x req =? 0) || (pt_y req =? 0) then mret (i32 (- EFAULT))
  else if negb (pt_len req =? MP_PUB_KEY_LEN) then mret (i32 (- EINVAL))
  else
    p ← sys (sys_malloc sizeof_sk_mp_pub_key_info);
    match p with
    | None => mret (i32 (- ENOMEM))
    | Some p =>
        let r := Some (mkPubInfo (pt_x req) (pt_len req) (pt_y req) (pt_len req)) in
        n ← gets mp_fd;
        '(ret, errno) ← sys (sys_ioctl n (SK_MP_GET_PUB_KEY r r));
        let ret := if negb (u32 ret =? 0) then - errno else ret in
        sys (sys_free p);;
        mret (i32 ret)
    end.

Definition sk_mp_sign (msg msg_len : Z) (sig : sk_EC_sig) (digest digest_len : Z) : st (mp_lib W) Z :=
  if (sg_r sig =? 0) || (sg_s sig =? 0) || (msg =? 0) || (digest =? 0) then mret (i32 (- EFAULT))
  else if negb (sg_len sig =? MP_SIG_LEN) || negb (digest_len =? MP_DIGEST_LEN) then mret (i32 (- EINVAL))
  else
    p ← sys (sys_malloc sizeof_sk_mp_sign_req_info);
    match p with
    | None => mret (i32 (- ENOMEM))
    | Some p =>
        let r := Some (mkSignInfo msg msg_len digest digest_len (sg_r sig) (sg_len sig) (sg_s sig) (sg_len sig)) in
        n ← gets mp_fd;
        '(ret, errno) ← sys (sys_ioctl n (SK_MP_SIGN r r));
        let ret := if negb (u32 ret =? 0) then - errno else ret in
        sys (sys_free p);;
        mret (i32 ret)
    end.

(** [dst[k] = data[first + k]] for the [n] words from [k] on. *)
Fixpoint copy_words (dst ptr first : Z) (k : Z) (n : nat) : st (mp_lib W) unit :=
  match n with
  | O => mret tt
  | S n =>
      w ← sys (data_word ptr (first + k));
      sys (store dst (4 * k) (le_bytes 4 w));;
      copy_words dst ptr first (k + 1) n
  end.

(** The body of the three register readers. *)
Definition read_registers (dst base first : Z) (n : nat) : st (mp_lib W) Z :=
  '(mem, errno) ← sys (sys_open dev_mem);
  if mem =? -1 then mret (i32 (- errno))
  else
    '(ptr, errno) ← sys (sys_mmap mem base);
    ret ← match ptr with
          | None => mret (i32 (- errno))
          | Some ptr =>
              copy_words dst ptr first 0 n;;
              sys (sys_munmap ptr);;
              mret SK_SUCCESS
          end;
    sys (sys_close mem);;
    mret ret.

(** The length is not looked at. *)
Definition sk_mp_get_mp_tag (mp_tag_ptr mp_tag_len : Z) : st (mp_lib W) Z :=
  read_registers mp_tag_ptr MP_BASE_ADDRESS 224 8.

Definition sk_get_fuid (fuid : Z) : st (mp_lib W) Z := read_registers fuid SFP_BASE_ADDRESS 135 2.

(** With the [*oem_id_len] it leaves. *)
Definition sk_get_oemid (oem_id : Z) : st (mp_lib W) (Z * Z) :=
  ret ← read_registers oem_id SFP_BASE_ADDRESS 157 5;
  mret (ret, if ret =? SK_SUCCESS then 20 else 0).

End Lib.

(** ** A process on the driver *)

(** What user space adds to the kernel: whether [malloc] succeeds, whether /dev/mem can
    be opened and mapped (0, or the error number), and the words of a page of it. *)
Class Board (E : Type) := {
  malloc_ok : Z -> E -> bool * E;
  mem_open : E -> Z * E;
  mem_map : E -> Z * E;
  reg_word : Z -> Z -> Z
}.

(** Open files (the driver's have their job ring), and mapped pages by base address. *)
Record proc (E : Type) := mkProc {
  p_kern : kern E;
  p_files : gmap Z (option Z);
  p_pages : gmap Z Z;
  p_blocks : gset Z
}.
Arguments mkProc {E} _ _ _ _.
Arguments p_kern {E} _.
Arguments p_files {E} _.
Arguments p_pages {E} _.
Arguments p_blocks {E} _.

Definition EBADF : Z := 9.
Definition ENOTTY : Z := 25.

Section Process.
Context {E : Type} `{Kernel E, Board E}.

Definition on_kern {A} (m : st (kern E) A) : st (proc E) A := fun p =>
  match m (p_kern p) with
  | Ret (a, k) => Ret (a, mkProc k (p_files p) (p_pages p) (p_blocks p))
  | Undef => Undef
  end.
Definition set_files (f : gmap Z (option Z)) (p : proc E) : proc E := mkProc (p_kern p) f (p_pages p) (p_blocks p).
Definition set_pages (f : gmap Z Z) (p : proc E) : proc E := mkProc (p_kern p) (p_files p) f (p_blocks p).
Definition set_blocks (b : gset Z) (p : proc E) : proc E := mkProc (p_kern p) (p_files p) (p_pages p) b.
Definition ask {A} (f : E -> A * E) : st (proc E) A := on_kern (fun s =>
  let '(a, e) := f (k_env s) in Ret (a, set_env e s)).

(** A negative return of the kernel is -1 with its error number. *)
Definition sysret (ret : Z) : Z * Z := if ret <? 0 then (-1, - ret) else (ret, 0).

Definition proc_open (d : device) : st (proc E) (Z * Z) :=
  '(err, dev) ← match d with
                | dev_securekeydev => '(ret, jr) ← on_kern securekeydev_open; mret (- ret, jr)
                | dev_mem => err ← ask mem_open; mret (err, None)
                end;
  if negb (err =? 0) then mret (-1, err)
  else
    f ← gets p_files;
    let n := above (dom f) in
    modify (set_files (<[n := dev]> f));;
    mret (n, 0).

Definition proc_close (n : Z) : st (proc E) (Z * Z) :=
  f ← gets p_files;
  match f !! n with
  | None => mret (-1, EBADF)
  | Some dev =>
      match dev with Some jr => on_kern (securekeydev_release jr);; mret tt | None => mret tt end;;
      modify (set_files (delete n f));;
      mret (0, 0)
  end.

Definition proc_ioctl (n : Z) (cmd : mp_ioctl) : st (proc E) (Z * Z) :=
  f ← gets p_files;
  match f !! n with
  | None => mret (-1, EBADF)
  | Some None => mret (-1, ENOTTY)
  | Some (Some jr) => ret ← on_kern (securekeydev_ioctl jr cmd); mret (sysret ret)
  end.

Definition proc_mmap (n base : Z) : st (proc E) (option Z * Z) :=
  f ← gets p_files;
  match f !! n with
  | Some None =>
      err ← ask mem_map;
      if negb (err =? 0) then mret (None, err)
      else
        g ← gets p_pages;
        let a := above (dom g) in
        modify (set_pages (<[a := base]> g));;
        mret (Some a, 0)
  | _ => mret (None, EBADF)
  end.

Definition proc_munmap (a : Z) : st (proc E) unit := modify (fun p => set_pages (delete a (p_pages p)) p).

Definition proc_malloc (n : Z) : st (proc E) (option Z) :=
  ok ← ask (malloc_ok n);
  if (ok : bool) then
    b ← gets p_blocks;
    let a := above b in
    modify (set_blocks ({[a]} ∪ b));;
    mret (Some a)
  else mret None.
Definition proc_free (a : Z) : st (proc E) unit :=
  b ← gets p_blocks;
  lift (guard_c (bool_decide (a ∈ b)));;
  modify (set_blocks (b ∖ {[a]})).

Definition proc_word (a i : Z) : st (proc E) Z :=
  g ← gets p_pages;
  base ← lift (deref (g !! a));
  lift (guard_c ((0 <=? i) && (i <? 1024)));;
  mret (u32 (reg_word base i)).

(** The caller's memory is the buffers the driver sees. *)
Definition proc_store (a off : Z) (bs : list Z) : st (proc E) unit :=
  u ← gets (fun p => k_user (p_kern p));
  b ← lift (deref (u !! a));
  b ← lift (buf_write b off bs);
  on_kern (modify (set_user (<[a := b]> u))).

#[export] Instance proc_sys : MpSys (proc E) := {|
  sys_open := proc_open;
  sys_close := proc_close;
  sys_ioctl := proc_ioctl;
  sys_mmap := proc_mmap;
  sys_munmap := proc_munmap;
  sys_malloc := proc_malloc;
  sys_free := proc_free;
  data_word := proc_word;
  store := proc_store
|}.

End Process.
