(* ===== verification/SkMpTheorems.v ===== *)
(** * Manufacturing protection end to end

    The library of SkMp.v on the driver of SkDrv.v: a caller gets the key of the part
    and signatures of it, register readers deliver the registers, and every call leaves
    files, mappings, memory and the kernel's resources as they were. *)

From stdpp Require Import base numbers list gmap strings.
From S2P Require Import Prelude SkDrv SkDrvTheorems SkMp.

Lemma wp_sys {W} {A} (m : st W A) (Q : A -> mp_lib W -> Prop) n w :
  wp m (fun a w' => Q a (mkMp n w')) w -> wp (sys m) Q (mkMp n w).
Proof. intros (a & w' & E & HQ). exists a, (mkMp n w'). unfold sys. cbn. by rewrite E. Qed.

Lemma wp_on_kern {E A} (m : st (kern E) A) (Q : A -> proc E -> Prop) k f g b :
  wp m (fun a k' => Q a (mkProc k' f g b)) k -> wp (on_kern m) Q (mkProc k f g b).
Proof. intros (a & k' & Em & HQ). exists a, (mkProc k' f g b). unfold on_kern. cbn. by rewrite Em. Qed.

Section Process.
Context {E : Type} `{HK : Kernel E, HB : Board E}.

(** Everything but the caller's buffers and the outside world. *)
Definition proc_same (p p' : proc E) : Prop :=
  k_heap (p_kern p') = k_heap (p_kern p) /\ k_maps (p_kern p') = k_maps (p_kern p) /\
  p_files p' = p_files p /\ p_pages p' = p_pages p /\ p_blocks p' = p_blocks p.

Lemma wp_ask {A} (f : E -> A * E) (Q : A -> proc E -> Prop) h m j u e g pg b :
  (forall a e', (f e).1 = a -> Q a (mkProc (mkKern h m j u e') g pg b)) ->
  wp (ask f) Q (mkProc (mkKern h m j u e) g pg b).
Proof.
  intros HQ. apply wp_on_kern. unfold wp. cbn. destruct (f e) as [a e'].
  exists a. eexists. split; [reflexivity |]. by apply HQ.
Qed.

Lemma wp_malloc n (Q : option Z -> proc E -> Prop) h m j u e f g b :
  (forall a e', a ∉ b -> Q (Some a) (mkProc (mkKern h m j u e') f g ({[a]} ∪ b))) ->
  (forall e', Q None (mkProc (mkKern h m j u e') f g b)) ->
  wp (proc_malloc n) Q (mkProc (mkKern h m j u e) f g b).
Proof.
  intros H1 H2. unfold proc_malloc. wps. apply wp_ask. intros [] e' _; wps; [| done]. unfold set_blocks. cbn. apply H1.
  intros Ha. destruct (above_spec b) as [_ Hb]. specialize (Hb _ Ha). lia.
Qed.

Lemma wp_free a (Q : unit -> proc E -> Prop) k f g b :
  a ∉ b -> Q tt (mkProc k f g b) -> wp (proc_free a) Q (mkProc k f g ({[a]} ∪ b)).
Proof.
  intros Ha HQ. unfold proc_free. wps. cbn [p_blocks]. rewrite bool_decide_true by set_solver. wps.
  unfold set_blocks. cbn. by rewrite taken_released.
Qed.

(** An ioctl on the driver's file. *)
Lemma wp_ioctl n jr cmd (Q : Z * Z -> proc E -> Prop) k f g b :
  f !! n = Some (Some jr) ->
  wp (securekeydev_ioctl jr cmd) (fun ret k' => Q (sysret ret) (mkProc k' f g b)) k ->
  wp (proc_ioctl n cmd) Q (mkProc k f g b).
Proof. intros Hn Hk. unfold proc_ioctl. wps. cbn [p_files]. rewrite Hn. wps. apply wp_on_kern. 
  eapply wp_mono; [exact Hk |]. intros ret k' HQ. by wps. Qed.

End Process.

Section EndToEnd.
Context {E : Type} `{HK : Kernel E, HB : Board E, HM : !MpEngine E}.

(** The status the library makes of the driver's answer. *)
Definition lib_answered (p : proc E) (good : gmap Z (list Z) -> Prop) (ret : Z) (p' : proc E) : Prop :=
  proc_same p p' /\
  (ret = SK_SUCCESS /\ good (k_user (p_kern p')) \/
   (ret = - ENOMEM \/ ret = SK_FAILURE) /\ k_user (p_kern p') = k_user (p_kern p)).

Lemma status_of_answer ret : (ret = 0 \/ ret = - ENOMEM \/ ret = -1) ->
  i32 (if negb (u32 (sysret ret).1 =? 0) then - (sysret ret).2 else (sysret ret).1) = ret.
Proof. by intros [-> | [-> | ->]]. Qed.

Lemma wp_status a l jr cmd n h m j u e f g b good :
  f !! n = Some (Some jr) -> a ∉ b -> l = mkProc (mkKern h m j u e) f g b ->
  (forall e', wp (securekeydev_ioctl jr cmd) (answered (mkKern h m j u e') good) (mkKern h m j u e')) ->
  forall e', wp ('(ret, errno) ← sys (sys_ioctl n cmd);
      let ret := if negb (u32 ret =? 0) then - errno else ret in
      sys (sys_free a);; mret (i32 ret))
    (fun ret l' => mp_fd l' = n /\ lib_answered l good ret (mp_sys l'))
    (mkMp n (mkProc (mkKern h m j u e') f g ({[a]} ∪ b))).
Proof.
  intros Hn Ha -> Hio e'. wps. apply wp_sys. eapply wp_ioctl; [exact Hn |].
  eapply wp_mono; [apply Hio |]. intros ret k' (Hh & Hm & Hr). destruct (sysret ret) as [r1 r2] eqn:Es. cbv zeta. wps.
  apply wp_sys, wp_free; [done |]. wps. split; [done |].
  pose proof (status_of_answer ret ltac:(tauto)) as Hst. rewrite Es in Hst. cbn [fst snd] in Hst. rewrite Hst.
  split; [| exact Hr]. by repeat split.
Qed.

(** The library's file is open on the driver. *)
Definition attached (l : mp_lib (proc E)) (jr : Z) : Prop := p_files (mp_sys l) !! mp_fd l = Some (Some jr).

(** C18: A caller with two buffers of 32 bytes who asks an initialised library for the
    manufacturing-protection key gets an answer: the key of the part in its buffers and
    success, or one of two error codes and untouched buffers; only where signals cut the
    wait short can success mean something else, namely zeros.  Kernel memory, mappings,
    open files and the library's own memory are as before. *)
Theorem mp_public_key l jr req bx by_ :
  attached l jr ->
  pt_x req <> 0 -> pt_y req <> 0 -> pt_x req <> pt_y req -> pt_len req = sk_mp_get_pub_key_len ->
  k_user (p_kern (mp_sys l)) !! pt_x req = Some bx -> k_user (p_kern (mp_sys l)) !! pt_y req = Some by_ ->
  (32 <= length bx)%nat -> (32 <= length by_)%nat ->
  wp (sk_mp_get_pub_key req)
    (fun ret l' => mp_fd l' = mp_fd l /\ lib_answered (mp_sys l) (fun u' =>
       let out x y := key_out (mkPubInfo (pt_x req) 32 (pt_y req) 32) bx by_ x y (k_user (p_kern (mp_sys l))) in
       u' = out mp_x mp_y \/
       signals /\ job_comp_status (p_kern (mp_sys l)) = 0 /\ u' = out (zeros 32) (zeros 32)) ret (mp_sys l')) l.
Proof.
  intros Hat Hx Hy Hne Hlen Hbx Hby Hlx Hly. destruct l as [n [[h m j u e] f g b]].
  unfold attached in Hat. cbn in Hat, Hbx, Hby |- *. unfold sk_mp_get_pub_key. rewrite Hlen.
  apply Z.eqb_neq in Hx, Hy. rewrite Hx, Hy. repeat wp_if. wps. apply wp_sys, wp_malloc; cbn beta iota.
  2: { intros e'. wps. split; [done |]. split; [by repeat split | right; by auto]. }
  intros a e1 Ha. cbv zeta. apply wp_bind, wp_gets. cbn beta. cbn [mp_fd]. eapply wp_status; [exact Hat | exact Ha | reflexivity |].
  intros e2. by apply pub_key_request.
Qed.

(** The same for signatures of a message of up to 255 bytes: the caller gets the digest
    the engine computes and a signature of it. *)
Theorem mp_signature l jr msg_ptr sig digest msg bm bh br bs :
  attached l jr ->
  msg_ptr <> 0 -> digest <> 0 -> sg_r sig <> 0 -> sg_s sig <> 0 -> (length msg < 256)%nat ->
  let i := mkSignInfo msg_ptr (Z.of_nat (length msg)) digest sk_mp_get_digest_len
             (sg_r sig) (sg_len sig) (sg_s sig) (sg_len sig) in
  sign_args i msg bm bh br bs (k_user (p_kern (mp_sys l))) ->
  wp (sk_mp_sign msg_ptr (Z.of_nat (length msg)) sig digest sk_mp_get_digest_len)
    (fun ret l' => mp_fd l' = mp_fd l /\ lib_answered (mp_sys l) (fun u' =>
       let out d r s := sign_out i bh br bs d r s (k_user (p_kern (mp_sys l))) in
       (exists r s, mp_signs (mp_digest msg) r s /\ u' = out (mp_digest msg) r s) \/
       signals /\ job_comp_status (p_kern (mp_sys l)) = 0 /\ u' = out (zeros 32) (zeros 32) (zeros 32)) ret (mp_sys l')) l.
Proof.
  intros Hat Hm Hd Hr Hs Hmsg i Hargs. destruct l as [n [[h m j u e] f g b]].
  unfold attached in Hat. cbn [mp_fd mp_sys p_files p_kern k_user job_comp_status] in *. unfold sk_mp_sign.
  assert (Hsl : sg_len sig = 32) by apply Hargs. apply Z.eqb_neq in Hm, Hd, Hr, Hs. rewrite Hm, Hd, Hr, Hs. wp_if.
  rewrite (proj2 (Z.eqb_eq (sg_len sig) MP_SIG_LEN) Hsl). wp_if. wps. apply wp_sys, wp_malloc; cbn beta iota.
  2: { intros e'. wps. split; [done |]. split; [by repeat split | right; by auto]. }
  intros a e1 Ha. cbv zeta. apply wp_bind, wp_gets. cbn beta. cbn [mp_fd]. eapply wp_status; [exact Hat | exact Ha | reflexivity |].
  intros e2. by eapply sign_request.
Qed.

End EndToEnd.

(** ** Registers *)

Section Registers.
Context {E : Type} `{HK : Kernel E, HB : Board E}.

(** The bytes of [n] registers of a page from [i] on. *)
Fixpoint reg_bytes (base i : Z) (n : nat) : list Z :=
  match n with
  | O => []
  | S n => le_bytes 4 (u32 (reg_word base i)) ++ reg_bytes base (i + 1) n
  end.

Lemma length_reg_bytes base n : forall i, length (reg_bytes base i n) = (4 * n)%nat.
Proof. induction n as [|n IH]; intros i; cbn [reg_bytes]; [done |]. rewrite length_app, IH, length_le_bytes. lia. Qed.

Lemma wp_store a off bs buf buf' (Q : unit -> proc E -> Prop) h m j u e f g b :
  u !! a = Some buf -> buf_write buf off bs = Ret buf' ->
  Q tt (mkProc (mkKern h m j (<[a := buf']> u) e) f g b) ->
  wp (proc_store a off bs) Q (mkProc (mkKern h m j u e) f g b).
Proof.
  intros Ha Hw HQ. unfold proc_store. wps. cbn [p_kern k_user]. rewrite Ha. wps. eapply wp_lift; [exact Hw |]. wps.
  by apply wp_on_kern, wp_modify.
Qed.

Lemma wp_copy_words dst ptr base first n : forall k buf (Q : unit -> mp_lib (proc E) -> Prop) fd h m j u e f g b,
  g !! ptr = Some base -> u !! dst = Some buf -> 0 <= k -> 0 <= first -> first + k + Z.of_nat n <= 1024 ->
  4 * (k + Z.of_nat n) <= Z.of_nat (length buf) ->
  Q tt (mkMp fd (mkProc (mkKern h m j (<[dst := splice buf (Z.to_nat (4 * k)) (reg_bytes base (first + k) n)]> u) e) f g b)) ->
  wp (copy_words dst ptr first k n) Q (mkMp fd (mkProc (mkKern h m j u e) f g b)).
Proof.
  induction n as [|n IH]; intros k buf Q fd h m j u e f g b Hg Hu Hk Hf Hn Hl HQ; cbn [copy_words].
  { wps. cbn [reg_bytes] in HQ. by rewrite splice_nil, insert_id in HQ. }
  wps. apply wp_sys. cbn [data_word proc_sys]. unfold proc_word. wps. cbn [p_pages]. rewrite Hg. wps.
  rewrite (proj2 (Z.leb_le _ _)), (proj2 (Z.ltb_lt _ _)) by lia. wps. apply wp_sys.
  pose proof (length_le_bytes 4 (u32 (reg_word base (first + k)))) as Hw.
  eapply wp_store; [done | apply buf_write_ret; lia |].
  eapply IH; [done | by simplify_map_eq | lia | lia | lia | rewrite length_splice; cbn [length]; lia |].
  rewrite insert_insert_eq. replace (first + (k + 1)) with (first + k + 1) by lia.
  replace (Z.to_nat (4 * (k + 1))) with (Z.to_nat (4 * k) + length (le_bytes 4 (u32 (reg_word base (first + k)))))%nat by lia.
  rewrite splice_adjacent; [done |]. rewrite length_reg_bytes. lia.
Qed.

Context (Hopen : forall e, 0 <= (mem_open e).1 < 4096) (Hmap : forall e, 0 <= (mem_map e).1 < 4096).

Lemma errno_status err : 0 <= err < 4096 -> i32 (- err) = - err.
Proof. intros. apply i32_small. lia. Qed.

Lemma wp_open_mem (Q : Z * Z -> proc E -> Prop) h m j u e f g b :
  (forall n e', 0 < n -> f !! n = None -> Q (n, 0) (mkProc (mkKern h m j u e') (<[n := None]> f) g b)) ->
  (forall err e', (mem_open e).1 = err -> 0 < err < 4096 -> Q (-1, err) (mkProc (mkKern h m j u e') f g b)) ->
  wp (proc_open dev_mem) Q (mkProc (mkKern h m j u e) f g b).
Proof.
  intros H1 H2. unfold proc_open. wps. apply wp_ask. intros err e1 Herr. pose proof (Hopen e) as He. rewrite Herr in He. wps.
  destruct (err =? 0) eqn:E0; boolz; cbn [negb]; wps; [| apply H2; [done | lia]].
  apply H1; [by destruct (above_spec (dom f)) | apply above_fresh].
Qed.

Lemma wp_mmap n base (Q : option Z * Z -> proc E -> Prop) h m j u e f g b :
  f !! n = Some None ->
  (forall a e', g !! a = None -> Q (Some a, 0) (mkProc (mkKern h m j u e') f (<[a := base]> g) b)) ->
  (forall err e', (mem_map e).1 = err -> 0 < err < 4096 -> Q (None, err) (mkProc (mkKern h m j u e') f g b)) ->
  wp (proc_mmap n base) Q (mkProc (mkKern h m j u e) f g b).
Proof.
  intros Hn H1 H2. unfold proc_mmap. wps. cbn [p_files]. rewrite Hn. wps. apply wp_ask. intros err e1 Herr.
  pose proof (Hmap e) as He. rewrite Herr in He.
  destruct (err =? 0) eqn:E0; boolz; cbn [negb]; wps; [| apply H2; [done | lia]]. apply H1, above_fresh.
Qed.

Lemma wp_close_mem n (Q : Z * Z -> proc E -> Prop) k f g b :
  f !! n = None -> Q (0, 0) (mkProc k f g b) -> wp (proc_close n) Q (mkProc k (<[n := None]> f) g b).
Proof.
  intros Hn HQ. unfold proc_close. wps. cbn [p_files]. rewrite lookup_insert_eq. wps.
  unfold set_files. cbn [p_kern p_pages p_blocks]. by rewrite delete_insert_id.
Qed.

(** A register reader delivers the registers, or an error number and nothing; it closes
    and unmaps what it opened. *)
Lemma wp_read_registers dst base first n buf l :
  k_user (p_kern (mp_sys l)) !! dst = Some buf -> 0 <= first -> first + Z.of_nat n <= 1024 ->
  4 * Z.of_nat n <= Z.of_nat (length buf) ->
  wp (read_registers dst base first n)
    (fun ret l' => mp_fd l' = mp_fd l /\ proc_same (mp_sys l) (mp_sys l') /\
       (ret = SK_SUCCESS /\ k_user (p_kern (mp_sys l')) = <[dst := splice buf 0 (reg_bytes base first n)]> (k_user (p_kern (mp_sys l))) \/
        -4096 < ret < 0 /\ k_user (p_kern (mp_sys l')) = k_user (p_kern (mp_sys l)))) l.
Proof.
  intros Hu Hf Hn Hl. destruct l as [fd [[h m j u e] f g b]]. cbn [mp_fd mp_sys p_kern k_user] in *.
  unfold read_registers. wps. apply wp_sys, wp_open_mem.
  2: { intros err e1 _ He. wps. wp_if. wps. rewrite errno_status by lia. split; [done |]. split; [by repeat split |].
       right. split; [lia | done]. }
  intros fm e1 Hpos Hfm. wps. rewrite (proj2 (Z.eqb_neq fm (-1))) by lia. wps. apply wp_sys.
  apply wp_mmap; [by rewrite lookup_insert_eq | |].
  2: { intros err e2 _ He. wps. apply wp_sys, wp_close_mem; [done |]. wps. rewrite errno_status by lia.
       split; [done |]. split; [by repeat split |]. right. split; [lia | done]. }
  intros a e2 Ha. wps. eapply wp_copy_words; [by rewrite lookup_insert_eq | done | lia | lia | lia | lia |]. wps.
  apply wp_sys, wp_modify. unfold set_pages. cbn [p_pages p_kern p_files p_blocks]. rewrite delete_insert_id by done. wps.
  apply wp_sys, wp_close_mem; [done |]. wps. rewrite Z.add_0_r. split; [done |]. split; [by repeat split |]. by left.
Qed.

(** The three register readers: given a buffer with room for what the part has (32
    bytes of tag, 8 of FUID, 20 of OEM identifier), a call returns and either the buffer
    holds the registers, little-endian from its start, or the error number of a refused
    open or mapping comes back, the OEM length is 0 and no byte is written.  /dev/mem is
    closed and unmapped on each path. *)
Theorem mp_registers l dst len buf :
  k_user (p_kern (mp_sys l)) !! dst = Some buf ->
  let reads base first n ret l' :=
    mp_fd l' = mp_fd l /\ proc_same (mp_sys l) (mp_sys l') /\
    (ret = SK_SUCCESS /\ k_user (p_kern (mp_sys l')) = <[dst := splice buf 0 (reg_bytes base first n)]> (k_user (p_kern (mp_sys l))) \/
     -4096 < ret < 0 /\ k_user (p_kern (mp_sys l')) = k_user (p_kern (mp_sys l))) in
  ((32 <= length buf)%nat -> wp (sk_mp_get_mp_tag dst len) (reads 0x01700000 (0x380 / 4) 8%nat) l) /\
  ((8 <= length buf)%nat -> wp (sk_get_fuid dst) (reads 0x01E80000 (0x21C / 4) 2%nat) l) /\
  ((20 <= length buf)%nat ->
     wp (sk_get_oemid dst) (fun '(ret, n) l' => reads 0x01E80000 (0x274 / 4) 5%nat ret l' /\ n = if ret =? 0 then 20 else 0) l).
Proof.
  intros Hu reads. split_and!; intros Hl; [apply wp_read_registers; (done || lia) .. |].
  unfold sk_get_oemid. apply wp_bind. eapply wp_mono; [apply wp_read_registers; [exact Hu | lia..] |].
  intros ret l' Hr. by apply wp_ret.
Qed.

(** Copying more words than the buffer has room for. *)
Lemma copy_words_crash dst ptr base first n : forall k buf fd h m j u e f g b,
  g !! ptr = Some base -> u !! dst = Some buf -> 0 <= k -> 0 <= first -> first + k + Z.of_nat n <= 1024 ->
  4 * k <= Z.of_nat (length buf) < 4 * (k + Z.of_nat n) ->
  copy_words dst ptr first k n (mkMp fd (mkProc (mkKern h m j u e) f g b)) = Undef.
Proof.
  induction n as [|n IH]; intros k buf fd h m j u e f g b Hg Hu Hk Hf Hn Hl; [lia |]. cbn [copy_words].
  apply wp_crash, wp_sys. cbn [data_word proc_sys]. unfold proc_word. wps. cbn [p_pages]. rewrite Hg. wps.
  rewrite (proj2 (Z.leb_le _ _)), (proj2 (Z.ltb_lt _ _)) by lia. wps.
  pose proof (length_le_bytes 4 (u32 (reg_word base (first + k)))) as Hw.
  destruct (decide (4 * k + 4 <= Z.of_nat (length buf))) as [Hr|Hr].
  - apply wp_crash, wp_sys. eapply wp_store; [done | apply buf_write_ret; lia |].
    eapply IH; [done | apply lookup_insert_eq | lia.. | rewrite length_splice; lia].
  - unfold mbind, st_bind, sys. cbn [mp_sys store proc_sys]. unfold proc_store, mbind, st_bind, gets, lift. cbn [p_kern k_user].
    rewrite Hu. cbn [deref]. unfold buf_write, in_range. rewrite Hw.
    replace (4 * k + Z.of_nat 4 <=? _) with false by (symmetry; apply Z.leb_gt; lia). by rewrite andb_false_r.
Qed.

(** The length a caller passes to [sk_mp_get_mp_tag] is not looked at: with a buffer
    of fewer than 32 bytes the call writes past its end, whatever length it is given. *)
Theorem mp_tag_ignores_length l dst mp_tag_len buf :
  (forall e, (mem_open e).1 = 0) -> (forall e, (mem_map e).1 = 0) ->
  k_user (p_kern (mp_sys l)) !! dst = Some buf -> (length buf < 32)%nat ->
  sk_mp_get_mp_tag dst mp_tag_len l = Undef.
Proof.
  intros Ho Hm Hu Hl. destruct l as [fd [[h m j u e] f g b]]. cbn [mp_sys p_kern k_user] in Hu.
  unfold sk_mp_get_mp_tag, read_registers. apply wp_crash, wp_sys, wp_open_mem; [| intros err e' He; rewrite Ho in He; lia].
  intros n e1 Hpos Hn. rewrite (proj2 (Z.eqb_neq n (-1))) by lia. apply wp_crash, wp_sys.
  apply wp_mmap; [by rewrite lookup_insert_eq | | intros err e' He; rewrite Hm in He; lia].
  intros a e2 Ha. unfold mbind at 1, st_bind at 1. unfold mbind at 1, st_bind at 1.
  erewrite copy_words_crash; [done | apply lookup_insert_eq | done | lia..].
Qed.
End Registers.

(** ** A board *)

Module BenchBoard.
Import Bench.

#[export] Instance calm_board : Board calm := {|
  malloc_ok _ e := (true, e);
  mem_open e := (0, e);
  mem_map e := (0, e);
  reg_word base i := base + i
|}.

Lemma board_open_ok (e : calm) : 0 <= (mem_open e).1 < 4096.
Proof. cbn. lia. Qed.
Lemma board_map_ok (e : calm) : 0 <= (mem_map e).1 < 4096.
Proof. cbn. lia. Qed.

Definition boot : mp_lib (proc calm) := mkMp initial_fd (mkProc (start Calm) ∅ ∅ ∅).
(** After [sk_lib_init]. *)
Definition ready : mp_lib (proc calm) := mkMp 1 (mkProc (start Calm) {[1 := Some 1]} ∅ ∅).

Definition point : sk_EC_point := mkPoint 10 20 32.
Definition signature : sk_EC_sig := mkSig 20 40 32.

Definition user_after (m : outcome (Z * mp_lib (proc calm))) : option (Z * list (option (list Z))) :=
  match m with
  | Ret (ret, l) => Some (ret, (fun a => k_user (p_kern (mp_sys l)) !! a) <$> [10; 20; 40])
  | Undef => None
  end.

Example lib_session :
  user_after ((_ ← sk_lib_init; r ← sk_mp_get_pub_key point; sk_lib_exit;; mret r) boot) =
    Some (0, [Some (key_x ++ replicate 8 255); Some key_y; Some (replicate 32 255)]) /\
  user_after ((_ ← sk_lib_init; sk_mp_sign 30 3 signature 10 32) boot) =
    Some (0, [Some (digest [1; 2; 3] ++ replicate 8 255); Some (reverse (digest [1; 2; 3])); Some (digest (digest [1; 2; 3]))]) /\
  user_after (sk_get_fuid 20 ready) =
    Some (0, [Some (replicate 40 255); Some ([135; 0; 232; 1; 136; 0; 232; 1] ++ replicate 24 255); Some (replicate 32 255)]).
Proof. split_and!; vm_compute; reflexivity. Qed.

(** [sk_lib_exit] does not reset [fd]: a second call closes whatever file has got the
    number in between. *)
Example second_exit_closes_another :
  exists l, (_ ← sk_lib_init; sk_lib_exit;; sys (sys_open dev_mem)) boot = Ret ((1, 0), l) /\
    p_files (mp_sys l) = {[1 := None]} /\
    exists l', sk_lib_exit l = Ret (tt, l') /\ p_files (mp_sys l') = ∅.
Proof. eexists. split; [vm_compute; reflexivity |]. split; [done |]. eexists. split; vm_compute; reflexivity. Qed.

(** A job that fails is reported as a library that was not initialised. *)
Example job_failure_message : sk_translate_error_code (i32 (- (sysret (-1)).2)) = "Device is not initiated"%string.
Proof. reflexivity. Qed.

End BenchBoard.

Import Bench BenchBoard.

Lemma mp_public_key_witness :
  wp (sk_mp_get_pub_key point)
    (fun ret l' => mp_fd l' = mp_fd ready /\ lib_answered (mp_sys ready) (fun u' =>
       let out x y := key_out (mkPubInfo (pt_x point) 32 (pt_y point) 32) (replicate 40 255) (replicate 32 255) x y
         (k_user (p_kern (mp_sys ready))) in
       u' = out mp_x mp_y \/
       signals /\ job_comp_status (p_kern (mp_sys ready)) = 0 /\ u' = out (zeros 32) (zeros 32)) ret (mp_sys l')) ready.
Proof.
  apply (mp_public_key ready 1 point (replicate 40 255) (replicate 32 255)).
  1, 5, 6, 7: vm_compute; reflexivity.
  all: apply (bool_decide_unpack _); vm_compute; exact I.
Defined.

Lemma mp_signature_witness :
  let i := mkSignInfo 30 (Z.of_nat (length [1; 2; 3])) 10 sk_mp_get_digest_len
             (sg_r signature) (sg_len signature) (sg_s signature) (sg_len signature) in
  wp (sk_mp_sign 30 (Z.of_nat (length [1; 2; 3])) signature 10 sk_mp_get_digest_len)
    (fun ret l' => mp_fd l' = mp_fd ready /\ lib_answered (mp_sys ready) (fun u' =>
       let out d r s := sign_out i (replicate 40 255) (replicate 32 255) (replicate 32 255) d r s
         (k_user (p_kern (mp_sys ready))) in
       (exists r s, mp_signs (mp_digest [1; 2; 3]) r s /\ u' = out (mp_digest [1; 2; 3]) r s) \/
       signals /\ job_comp_status (p_kern (mp_sys ready)) = 0 /\
         u' = out (zeros 32) (zeros 32) (zeros 32)) ret (mp_sys l')) ready.
Proof.
  apply (mp_signature ready 1 30 signature 10 [1; 2; 3] [1; 2; 3] (replicate 40 255) (replicate 32 255) (replicate 32 255)).
  1: vm_compute; reflexivity.
  all: apply (bool_decide_unpack _); vm_compute; exact I.
Defined.

Lemma mp_registers_witness : exists ret l', sk_get_fuid 20 ready = Ret (ret, l') /\
  (ret = SK_SUCCESS /\ k_user (p_kern (mp_sys l')) = <[20 := splice (replicate 32 255) 0 (reg_bytes 0x01E80000 135 2)]> user \/
   -4096 < ret < 0 /\ k_user (p_kern (mp_sys l')) = user).
Proof.
  destruct (mp_registers board_open_ok board_map_ok
    ready 20 0 (replicate 32 255) ltac:(vm_compute; reflexivity)) as (_ & Hf & _).
  destruct (Hf ltac:(apply (bool_decide_unpack _); vm_compute; exact I)) as (ret & l' & E & _ & _ & H).
  exists ret, l'. split; [exact E | exact H].
Defined.

Lemma mp_tag_ignores_length_witness : sk_mp_get_mp_tag 30 3 ready = Undef.
Proof.
  apply (mp_tag_ignores_length board_open_ok board_map_ok
    ready 30 3 [1; 2; 3] (fun _ => eq_refl) (fun _ => eq_refl)); [vm_compute; reflexivity | cbn; lia].
Defined.
