(* ===== verification/Sha2Spec.v ===== *)
(** * SHA-256 and HMAC as the standards define them (FIPS 180-4, RFC 2104)

    The reference the code of Sha2.v and HmacSha2.v is compared with, written from the
    standards and not from that code: the constants are computed from the primes they are
    defined by, the words of a block are numbered from the first and the hash is a fold
    over the blocks of the padded message. *)

From stdpp Require Import base numbers list.
From S2P Require Import Prelude.

Module Fips.

(** ** Words of 32 bits (sections 2.2 and 4.1.2) *)

Definition add (l : list Z) : Z := foldr Z.add 0 l mod 2 ^ 32.
Definition SHR (n x : Z) : Z := x / 2 ^ n.
Definition RotR (n x : Z) : Z := Z.lor (x / 2 ^ n) ((x * 2 ^ (32 - n)) mod 2 ^ 32).
Definition complement (x : Z) : Z := (2 ^ 32 - 1 - x) mod 2 ^ 32.
Definition Ch (x y z : Z) : Z := Z.lxor (Z.land x y) (Z.land (complement x) z).
(** The majority of the bits: at least two of them are set. *)
Definition Maj (x y z : Z) : Z := Z.lor (Z.land x y) (Z.land z (Z.lor x y)).
Definition Sigma0 (x : Z) : Z := foldr Z.lxor 0 [RotR 2 x; RotR 13 x; RotR 22 x].
Definition Sigma1 (x : Z) : Z := foldr Z.lxor 0 [RotR 6 x; RotR 11 x; RotR 25 x].
Definition sigma0 (x : Z) : Z := foldr Z.lxor 0 [RotR 7 x; RotR 18 x; SHR 3 x].
Definition sigma1 (x : Z) : Z := foldr Z.lxor 0 [RotR 17 x; RotR 19 x; SHR 10 x].

(** ** Constants (sections 4.2.2 and 5.3.3) *)

Definition is_prime (p : nat) : bool := forallb (fun d => negb (p mod d =? 0)%nat) (seq 2 (p - 2)).
(** The primes up to 311, which are 64. *)
Definition primes : list Z := Z.of_nat <$> List.filter is_prime (seq 2 310).

(** The integer cube root, bit by bit. *)
Fixpoint cbrt_from (n : nat) (r x : Z) : Z :=
  match n with
  | O => r
  | S n => let r' := r + 2 ^ Z.of_nat n in cbrt_from n (if r' ^ 3 <=? x then r' else r) x
  end.
Definition cbrt (x : Z) : Z := cbrt_from 40 0 x.

(** The first 32 bits of the fractional parts of the square and cube roots of the primes. *)
Definition H0 : list Z := (fun p => Z.sqrt (p * 2 ^ 64) mod 2 ^ 32) <$> take 8 primes.
Definition K : list Z := (fun p => cbrt (p * 2 ^ 96) mod 2 ^ 32) <$> primes.

Example primes_64 : length primes = 64%nat /\ take 8 primes = [2; 3; 5; 7; 11; 13; 17; 19].
Proof. vm_compute. done. Qed.
Example cbrt_primes : forallb (fun p => let r := cbrt (p * 2 ^ 96) in (r ^ 3 <=? p * 2 ^ 96) && (p * 2 ^ 96 <? (r + 1) ^ 3)) primes = true.
Proof. vm_compute. done. Qed.

(** ** The hash (sections 5 and 6.2) *)

(** Big-endian bytes to a word, and a number to [n] big-endian bytes. *)
Definition word (bs : list Z) : Z := fold_left (fun w b => Z.lor (Z.shiftl w 8) b) bs 0.
Definition be_bytes (n : nat) (x : Z) : list Z := (fun i => x / 2 ^ (8 * Z.of_nat (n - 1 - i)) mod 2 ^ 8) <$> seq 0 n.

(** A one bit, the least number of zeros that ends 8 bytes before the end of a block, and
    the length in bits. *)
Definition pad (m : list Z) : list Z :=
  let n := Z.of_nat (length m) in
  m ++ [0x80] ++ zeros ((55 - n) mod 64) ++ be_bytes 8 (8 * n).

Definition blocks (p : list Z) : list (list Z) := (fun i => take 64 (drop (64 * i) p)) <$> seq 0 (length p / 64).

(** The message schedule: sixteen words of the block, then one from four before it. *)
Definition block_words (b : list Z) : list Z := (fun t => word (take 4 (drop (4 * t) b))) <$> seq 0 16.
Fixpoint extend (n : nat) (w : list Z) : list Z :=
  match n with
  | O => w
  | S n =>
      let t := length w in
      let W i := nth (t - i) w 0 in
      extend n (w ++ [add [sigma1 (W 2%nat); W 7%nat; sigma0 (W 15%nat); W 16%nat]])
  end.
Definition message_schedule (b : list Z) : list Z := extend 48 (block_words b).

(** Step [t] of the computation on the variables a to h. *)
Definition step (W : list Z) (v : list Z) (t : nat) : list Z :=
  let x i := nth i v 0 in
  let '(a, b, c, d, e, f, g, h) := (x 0%nat, x 1%nat, x 2%nat, x 3%nat, x 4%nat, x 5%nat, x 6%nat, x 7%nat) in
  let T1 := add [h; Sigma1 e; Ch e f g; nth t K 0; nth t W 0] in
  let T2 := add [Sigma0 a; Maj a b c] in
  [add [T1; T2]; a; b; c; add [d; T1]; e; f; g].

Definition compress (h b : list Z) : list Z :=
  let v := fold_left (step (message_schedule b)) (seq 0 64) h in
  (fun i => add [nth i v 0; nth i h 0]) <$> seq 0 8.

Definition SHA256 (m : list Z) : list Z :=
  concat (be_bytes 4 <$> fold_left compress (blocks (pad m)) H0).

(** ** HMAC (RFC 2104) *)

(** A key brought to the size of a block. *)
Definition block_key (key : list Z) : list Z :=
  let k := if 64 <? Z.of_nat (length key) then SHA256 key else key in
  k ++ zeros (64 - Z.of_nat (length k)).
Definition xor (k : list Z) (byte : Z) : list Z := zip_with Z.lxor k (replicate 64 byte).
Definition hmac (key m : list Z) : list Z :=
  SHA256 (xor (block_key key) 0x5c ++ SHA256 (xor (block_key key) 0x36 ++ m)).

(** The examples of the standards: the hash of "abc", and the second test case of RFC 4231. *)
Example sha256_vector : SHA256 [0x61; 0x62; 0x63] =
  concat (be_bytes 4 <$> [0xba7816bf; 0x8f01cfea; 0x414140de; 0x5dae2223; 0xb00361a3; 0x96177a9c; 0xb410ff61; 0xf20015ad]).
Proof. vm_compute. done. Qed.
Example hmac_vector : hmac [0x4a; 0x65; 0x66; 0x65]
    ([0x77; 0x68; 0x61; 0x74; 0x20; 0x64; 0x6f; 0x20; 0x79; 0x61] ++ [0x20; 0x77; 0x61; 0x6e; 0x74; 0x20; 0x66; 0x6f; 0x72; 0x20] ++
     [0x6e; 0x6f; 0x74; 0x68; 0x69; 0x6e; 0x67; 0x3f]) =
  concat (be_bytes 4 <$> [0x5bdcc146; 0xbf60754e; 0x6a042426; 0x089575c7; 0x5a003f08; 0x9d273983; 0x9dec58b9; 0x64ec3843]).
Proof. vm_compute. done. Qed.

End Fips.
