(* ===== verification/Sha2.v ===== *)
(** * SHA-256 of the supplicant (sha2.c, sha2.h)

    The hash behind the emulated RPMB partition, on machine words: the block function,
    the incremental interface with its partial block, and the padding.  The context is
    the C structure: eight words, the 128-byte block, the number of bytes in it and the
    number of bytes hashed, the lengths 32 bits wide.  The theorems compare it with the
    SHA-256 of Sha2Spec.v, which shares no definition with it. *)

From stdpp Require Import base numbers list.
From Stdlib Require Import Btauto.
From S2P Require Import Prelude Sha2Spec.

Definition SHA256_DIGEST_SIZE : Z := 32.
Definition SHA256_BLOCK_SIZE : Z := 64.

Record sha256_ctx := mkSha { sha_tot_len : Z; sha_len : Z; sha_block : list Z; sha_h : list Z }.

(** ** Words *)

Definition SHFR (x n : Z) : Z := Z.shiftr x n.
Definition ROTR (x n : Z) : Z := Z.lor (Z.shiftr x n) (u32 (Z.shiftl x (32 - n))).
Definition CH (x y z : Z) : Z := Z.lxor (Z.land x y) (Z.land (u32 (Z.lnot x)) z).
Definition MAJ (x y z : Z) : Z := Z.lxor (Z.lxor (Z.land x y) (Z.land x z)) (Z.land y z).
Definition SHA256_F1 (x : Z) : Z := Z.lxor (Z.lxor (ROTR x 2) (ROTR x 13)) (ROTR x 22).
Definition SHA256_F2 (x : Z) : Z := Z.lxor (Z.lxor (ROTR x 6) (ROTR x 11)) (ROTR x 25).
Definition SHA256_F3 (x : Z) : Z := Z.lxor (Z.lxor (ROTR x 7) (ROTR x 18)) (SHFR x 3).
Definition SHA256_F4 (x : Z) : Z := Z.lxor (Z.lxor (ROTR x 17) (ROTR x 19)) (SHFR x 10).

(** [UNPACK32] writes a word big-endian, [PACK32] reads one. *)
Definition UNPACK32 (x : Z) : list Z := [u8 (Z.shiftr x 24); u8 (Z.shiftr x 16); u8 (Z.shiftr x 8); u8 x].
Definition PACK32 (s : list Z) : Z :=
  match s with
  | a :: b :: c :: d :: _ => Z.lor (Z.lor (Z.lor d (Z.shiftl c 8)) (Z.shiftl b 16)) (Z.shiftl a 24)
  | _ => 0
  end.

Definition sha256_h0 : list Z :=
  0x6a09e667 :: 0xbb67ae85 :: 0x3c6ef372 :: 0xa54ff53a :: 0x510e527f :: 0x9b05688c :: 0x1f83d9ab :: 0x5be0cd19 :: [].

Definition sha256_k : list Z :=
  0x428a2f98 :: 0x71374491 :: 0xb5c0fbcf :: 0xe9b5dba5 :: 0x3956c25b :: 0x59f111f1 :: 0x923f82a4 :: 0xab1c5ed5 ::
  0xd807aa98 :: 0x12835b01 :: 0x243185be :: 0x550c7dc3 :: 0x72be5d74 :: 0x80deb1fe :: 0x9bdc06a7 :: 0xc19bf174 ::
  0xe49b69c1 :: 0xefbe4786 :: 0x0fc19dc6 :: 0x240ca1cc :: 0x2de92c6f :: 0x4a7484aa :: 0x5cb0a9dc :: 0x76f988da ::
  0x983e5152 :: 0xa831c66d :: 0xb00327c8 :: 0xbf597fc7 :: 0xc6e00bf3 :: 0xd5a79147 :: 0x06ca6351 :: 0x14292967 ::
  0x27b70a85 :: 0x2e1b2138 :: 0x4d2c6dfc :: 0x53380d13 :: 0x650a7354 :: 0x766a0abb :: 0x81c2c92e :: 0x92722c85 ::
  0xa2bfe8a1 :: 0xa81a664b :: 0xc24b8b70 :: 0xc76c51a3 :: 0xd192e819 :: 0xd6990624 :: 0xf40e3585 :: 0x106aa070 ::
  0x19a4c116 :: 0x1e376c08 :: 0x2748774c :: 0x34b0bcb5 :: 0x391c0cb3 :: 0x4ed8aa4a :: 0x5b9cca4f :: 0x682e6ff3 ::
  0x748f82ee :: 0x78a5636f :: 0x84c87814 :: 0x8cc70208 :: 0x90befffa :: 0xa4506ceb :: 0xbef9a3f7 :: 0xc67178f2 :: [].

(** ** The block function *)

(** [w[0..15]] from a block of 64 bytes. *)
Fixpoint load_words (n : nat) (s : list Z) : list Z :=
  match n with
  | O => []
  | S n => PACK32 s :: load_words n (drop 4 s)
  end.

(** [SHA256_SCR], with the words so far, the latest first. *)
Definition SHA256_SCR (w : list Z) : Z :=
  let at_ k := nth k w 0 in
  u32 (SHA256_F4 (at_ 1%nat) + at_ 6%nat + SHA256_F3 (at_ 14%nat) + at_ 15%nat).
Fixpoint schedule (n : nat) (w : list Z) : list Z :=
  match n with
  | O => w
  | S n => schedule n (SHA256_SCR w :: w)
  end.

(** The eight working variables [wv[0..7]]. *)
Definition round (wv : list Z) (kw : Z * Z) : list Z :=
  match wv with
  | [a; b; c; d; e; f; g; h] =>
      let t1 := u32 (h + SHA256_F2 e + CH e f g + kw.1 + kw.2) in
      let t2 := u32 (SHA256_F1 a + MAJ a b c) in
      [u32 (t1 + t2); a; b; c; u32 (d + t1); e; f; g]
  | _ => wv
  end.

Definition transf_block (h : list Z) (block : list Z) : list Z :=
  let w := rev (schedule 48 (rev (load_words 16 block))) in
  zip_with (fun x y => u32 (x + y)) h (fold_left round (zip sha256_k w) h).

Fixpoint transf_blocks (n : nat) (h : list Z) (message : list Z) : list Z :=
  match n with
  | O => h
  | S n => transf_blocks n (transf_block h message) (drop 64 message)
  end.

(** [block_nb] blocks of [message]; reading past its end is undefined. *)
Definition sha256_transf (ctx : sha256_ctx) (message : list Z) (block_nb : Z) : outcome sha256_ctx :=
  guard_c (64 * block_nb <=? Z.of_nat (length message));;
  Ret (mkSha (sha_tot_len ctx) (sha_len ctx) (sha_block ctx) (transf_blocks (Z.to_nat block_nb) (sha_h ctx) message)).

(** ** The incremental interface *)

(** [block] is what the uninitialised member holds. *)
Definition sha256_init (block : list Z) : sha256_ctx := mkSha 0 0 block sha256_h0.

Definition set_block (ctx : sha256_ctx) (b : list Z) : sha256_ctx := mkSha (sha_tot_len ctx) (sha_len ctx) b (sha_h ctx).

Definition sha256_update (ctx : sha256_ctx) (message : list Z) : outcome sha256_ctx :=
  let len := Z.of_nat (length message) in
  let tmp_len := u32 (SHA256_BLOCK_SIZE - sha_len ctx) in
  let rem_len := if len <? tmp_len then len else tmp_len in
  b ← buf_write (sha_block ctx) (sha_len ctx) (take (Z.to_nat rem_len) message);
  if u32 (sha_len ctx + len) <? SHA256_BLOCK_SIZE then Ret (mkSha (sha_tot_len ctx) (u32 (sha_len ctx + len)) b (sha_h ctx))
  else
    let new_len := u32 (len - rem_len) in
    let block_nb := new_len / SHA256_BLOCK_SIZE in
    let shifted_message := drop (Z.to_nat rem_len) message in
    ctx ← sha256_transf (set_block ctx b) b 1;
    ctx ← sha256_transf ctx shifted_message block_nb;
    let rem_len := new_len mod SHA256_BLOCK_SIZE in
    rest ← buf_read shifted_message (Z.shiftl block_nb 6) rem_len;
    b ← buf_write (sha_block ctx) 0 rest;
    Ret (mkSha (u32 (sha_tot_len ctx + Z.shiftl (block_nb + 1) 6)) rem_len b (sha_h ctx)).

Definition sha256_final (ctx : sha256_ctx) : outcome (list Z) :=
  let block_nb := 1 + (if SHA256_BLOCK_SIZE - 9 <? sha_len ctx mod SHA256_BLOCK_SIZE then 1 else 0) in
  let len_b := u32 (Z.shiftl (sha_tot_len ctx + sha_len ctx) 3) in
  let pm_len := Z.shiftl block_nb 6 in
  b ← buf_write (sha_block ctx) (sha_len ctx) (zeros (pm_len - sha_len ctx));
  b ← buf_write b (sha_len ctx) [0x80];
  b ← buf_write b (pm_len - 4) (UNPACK32 len_b);
  ctx ← sha256_transf ctx b block_nb;
  Ret (concat (UNPACK32 <$> sha_h ctx)).

(** In one call; [junk] is the uninitialised block. *)
Definition sha256 (junk message : list Z) : outcome (list Z) :=
  ctx ← sha256_update (sha256_init junk) message;
  sha256_final ctx.

(** Test vectors of the standard: "abc" and the empty message. *)
Example sha256_abc : sha256 (replicate 128 7) [0x61; 0x62; 0x63] =
  Ret (concat (UNPACK32 <$> [0xba7816bf; 0x8f01cfea; 0x414140de; 0x5dae2223; 0xb00361a3; 0x96177a9c; 0xb410ff61; 0xf20015ad])).
Proof. vm_compute. reflexivity. Qed.
Example sha256_empty : sha256 (zeros 128) [] =
  Ret (concat (UNPACK32 <$> [0xe3b0c442; 0x98fc1c14; 0x9afbf4c8; 0x996fb924; 0x27ae41e4; 0x649b934c; 0xa495991b; 0x7852b855])).
Proof. vm_compute. reflexivity. Qed.

(** ** The words and bytes of the standard *)

Lemma be_bytes_word x : Fips.be_bytes 4 x = UNPACK32 x.
Proof. unfold UNPACK32. rewrite !Z.shiftr_div_pow2 by lia. unfold Fips.be_bytes. cbn -[Z.pow Z.div Z.modulo]. change (2 ^ 0) with 1. by rewrite Z.div_1_r. Qed.

Lemma word_PACK32 s : (4 <= length s)%nat -> Fips.word (take 4 s) = PACK32 s.
Proof.
  intros Hl. destruct s as [|a [|b [|c [|d s]]]]; cbn in Hl; try lia. unfold Fips.word, PACK32. cbn [take]. rewrite take_0. cbn [fold_left].
  rewrite !Z.shiftl_lor, !Z.shiftl_shiftl by lia. rewrite !Z.shiftl_0_l. change (8 + (8 + 8)) with 24. change (8 + 8) with 16.
  apply Z.bits_inj. intros i. rewrite !Z.lor_spec, ?Z.bits_0. btauto.
Qed.

Lemma rotr_fips n x : 0 <= n <= 32 -> ROTR x n = Fips.RotR n x.
Proof. intros Hn. unfold ROTR, Fips.RotR. by rewrite Z.shiftr_div_pow2, Z.shiftl_mul_pow2 by lia. Qed.
Lemma shr_fips n x : 0 <= n -> SHFR x n = Fips.SHR n x.
Proof. intros Hn. unfold SHFR, Fips.SHR. by rewrite Z.shiftr_div_pow2. Qed.

Ltac sigma := cbn [foldr]; rewrite !rotr_fips, ?shr_fips, Z.lxor_0_r, Z.lxor_assoc by lia; reflexivity.
Lemma F1_fips x : SHA256_F1 x = Fips.Sigma0 x. Proof. unfold SHA256_F1, Fips.Sigma0. sigma. Qed.
Lemma F2_fips x : SHA256_F2 x = Fips.Sigma1 x. Proof. unfold SHA256_F2, Fips.Sigma1. sigma. Qed.
Lemma F3_fips x : SHA256_F3 x = Fips.sigma0 x. Proof. unfold SHA256_F3, Fips.sigma0. sigma. Qed.
Lemma F4_fips x : SHA256_F4 x = Fips.sigma1 x. Proof. unfold SHA256_F4, Fips.sigma1. sigma. Qed.

Lemma ch_fips x y z : CH x y z = Fips.Ch x y z.
Proof.
  unfold CH, Fips.Ch, Fips.complement, u32. do 2 f_equal. rewrite <- (Z.mod_add (Z.lnot x) 1) by lia. f_equal. unfold Z.lnot. lia.
Qed.
Lemma maj_fips x y z : MAJ x y z = Fips.Maj x y z.
Proof.
  unfold MAJ, Fips.Maj. apply Z.bits_inj. intros i. rewrite !Z.lxor_spec, !Z.lor_spec, !Z.land_spec, !Z.lor_spec. btauto.
Qed.

Lemma h0_fips : Fips.H0 = sha256_h0.
Proof. vm_compute. reflexivity. Qed.
Lemma k_fips : Fips.K = sha256_k.
Proof. vm_compute. reflexivity. Qed.

(** ** The block function is the standard's *)

Lemma length_load_words n : forall s, length (load_words n s) = n.
Proof. induction n as [|n IH]; intros s; cbn; [done | by rewrite IH]. Qed.

Lemma load_words_fips n : forall s, (4 * n <= length s)%nat ->
  load_words n s = (fun t => Fips.word (take 4 (drop (4 * t) s))) <$> seq 0 n.
Proof.
  induction n as [|n IH]; intros s Hl; [done |]. cbn [load_words seq fmap list_fmap]. rewrite drop_0, word_PACK32 by lia. f_equal.
  rewrite IH by (rewrite length_drop; lia). rewrite <- fmap_S_seq, <- list_fmap_compose. apply list_fmap_ext. intros _ t _.
  unfold compose. rewrite drop_drop. do 3 f_equal. lia.
Qed.

Lemma length_schedule n : forall w, length (schedule n w) = (n + length w)%nat.
Proof. induction n as [|n IH]; intros w; cbn [schedule]; [done |]. rewrite IH. cbn. lia. Qed.

Lemma nth_rev_at (w : list Z) k t : (k < length w)%nat -> t = (length w - 1 - k)%nat -> nth k w 0 = nth t (rev w) 0.
Proof. intros Hk ->. rewrite rev_nth by lia. f_equal. lia. Qed.

(** The code keeps the words the latest first. *)
Lemma schedule_fips n : forall w, (16 <= length w)%nat -> rev (schedule n w) = Fips.extend n (rev w).
Proof.
  induction n as [|n IH]; intros w Hw; [done |]. cbn [schedule Fips.extend]. rewrite IH by (cbn; lia). cbn [rev]. do 3 f_equal.
  unfold SHA256_SCR, Fips.add, u32. cbn [foldr]. rewrite length_rev, F3_fips, F4_fips.
  rewrite (nth_rev_at w 1 (length w - 2)), (nth_rev_at w 6 (length w - 7)), (nth_rev_at w 14 (length w - 15)),
    (nth_rev_at w 15 (length w - 16)) by lia. f_equal. lia.
Qed.

Lemma round_length wv kw : length wv = 8%nat -> length (round wv kw) = 8%nat.
Proof. destruct wv as [|? [|? [|? [|? [|? [|? [|? [|? [|]]]]]]]]]; done. Qed.
Lemma rounds_length kws : forall wv, length wv = 8%nat -> length (fold_left round kws wv) = 8%nat.
Proof. induction kws as [|kw kws IH]; intros wv Hl; [done |]. cbn. by apply IH, round_length. Qed.
Lemma transf_block_length h s : length h = 8%nat -> length (transf_block h s) = 8%nat.
Proof. intros Hl. unfold transf_block. rewrite length_zip_with, rounds_length by done. by rewrite Hl. Qed.
Lemma transf_blocks_length n : forall h s, length h = 8%nat -> length (transf_blocks n h s) = 8%nat.
Proof. induction n as [|n IH]; intros h s Hl; [done |]. cbn [transf_blocks]. by apply IH, transf_block_length. Qed.

Lemma add_fips x y : u32 (x + y) = Fips.add [x; y].
Proof. unfold u32, Fips.add. cbn [foldr]. by rewrite Z.add_0_r. Qed.

Lemma round_fips W v t : length v = 8%nat -> round v (nth t Fips.K 0, nth t W 0) = Fips.step W v t.
Proof.
  destruct v as [|a [|b [|c [|d [|e [|f [|g [|h [|]]]]]]]]]; try done. intros _. unfold round, Fips.step. cbn [nth fst snd].
  assert (E1 : u32 (h + SHA256_F2 e + CH e f g + nth t Fips.K 0 + nth t W 0) = Fips.add [h; Fips.Sigma1 e; Fips.Ch e f g; nth t Fips.K 0; nth t W 0])
    by (unfold u32, Fips.add; cbn [foldr]; rewrite F2_fips, ch_fips; f_equal; lia).
  assert (E2 : u32 (SHA256_F1 a + MAJ a b c) = Fips.add [Fips.Sigma0 a; Fips.Maj a b c])
    by (unfold u32, Fips.add; cbn [foldr]; rewrite F1_fips, maj_fips; f_equal; lia).
  by rewrite E1, E2, !add_fips.
Qed.

(** Pairs taken in order are pairs taken by their number. *)
Lemma zip_nth (k : list Z) : forall w : list Z, length k = length w -> zip k w = (fun t => (nth t k 0, nth t w 0)) <$> seq 0 (length k).
Proof.
  induction k as [|x k IH]; intros [|y w] Hl; try done. cbn [zip zip_with length seq fmap list_fmap nth]. f_equal.
  injection Hl as Hl. rewrite <- fmap_S_seq, <- list_fmap_compose. by apply IH.
Qed.

Lemma rounds_fips W ts : forall v, length v = 8%nat ->
  fold_left round ((fun t => (nth t Fips.K 0, nth t W 0)) <$> ts) v = fold_left (Fips.step W) ts v.
Proof.
  induction ts as [|t ts IH]; intros v Hv; [done |]. cbn [fmap list_fmap fold_left]. rewrite IH by by apply round_length. by rewrite round_fips.
Qed.

Lemma sum_fips (h v : list Z) : length h = 8%nat -> length v = 8%nat ->
  zip_with (fun x y => u32 (x + y)) h v = (fun i => Fips.add [nth i v 0; nth i h 0]) <$> seq 0 8.
Proof.
  intros Hh Hv. destruct h as [|? [|? [|? [|? [|? [|? [|? [|? [|]]]]]]]]]; try done.
  destruct v as [|? [|? [|? [|? [|? [|? [|? [|? [|]]]]]]]]]; try done. unfold Fips.add, u32. cbn [zip_with seq fmap list_fmap nth foldr].
  rewrite !Z.add_0_r. repeat (f_equal; [rewrite Z.add_comm; reflexivity |]). by rewrite Z.add_comm.
Qed.

Lemma transf_block_fips h s : length h = 8%nat -> (64 <= length s)%nat -> transf_block h s = Fips.compress h (take 64 s).
Proof.
  intros Hh Hs. unfold transf_block, Fips.compress.
  assert (Hw : rev (schedule 48 (rev (load_words 16 s))) = Fips.message_schedule (take 64 s)).
  { rewrite schedule_fips, rev_involutive by (rewrite length_rev, length_load_words; lia). unfold Fips.message_schedule, Fips.block_words.
    f_equal. rewrite load_words_fips by lia. apply list_fmap_ext. intros i t [-> Hi]%lookup_seq.
    cbn [Nat.add]. rewrite skipn_firstn_comm, take_take. do 2 f_equal. lia. }
  assert (Hl : length (rev (schedule 48 (rev (load_words 16 s)))) = 64%nat) by (by rewrite length_rev, length_schedule, length_rev, length_load_words).
  rewrite Hw in *. set (W := Fips.message_schedule _) in *. rewrite <- k_fips, zip_nth by by rewrite Hl.
  change (length Fips.K) with 64%nat. rewrite rounds_fips by done. apply sum_fips; [done |].
  rewrite <- rounds_fips by done. by apply rounds_length.
Qed.

(** ** Blocks of a message *)

Lemma PACK32_take s r : (4 <= length s)%nat -> PACK32 (s ++ r) = PACK32 s.
Proof. intros Hl. destruct s as [|? [|? [|? [|? ?]]]]; cbn in *; try lia; done. Qed.

Lemma load_words_app n : forall s r, (4 * n <= length s)%nat -> load_words n (s ++ r) = load_words n s.
Proof.
  induction n as [|n IH]; intros s r Hl; [done |]. cbn [load_words]. rewrite PACK32_take by lia. f_equal.
  rewrite drop_app_le by lia. apply IH. rewrite length_drop. lia.
Qed.

Lemma transf_block_app h s r : (64 <= length s)%nat -> transf_block h (s ++ r) = transf_block h s.
Proof. intros Hl. unfold transf_block. by rewrite load_words_app by lia. Qed.

Lemma blocks_fips n : forall h s, length h = 8%nat -> (64 * n <= length s)%nat ->
  fold_left Fips.compress ((fun i => take 64 (drop (64 * i) s)) <$> seq 0 n) h = transf_blocks n h s.
Proof.
  induction n as [|n IH]; intros h s Hh Hs; [done |]. cbn [seq fmap list_fmap fold_left transf_blocks].
  rewrite drop_0, <- transf_block_fips by lia. rewrite <- IH by (first [by apply transf_block_length | rewrite length_drop; lia]).
  f_equal. rewrite <- fmap_S_seq, <- list_fmap_compose. apply list_fmap_ext. intros _ i _. unfold compose. rewrite drop_drop. do 2 f_equal. lia.
Qed.

(** The standard's hash through the code's block function. *)
Lemma sha256_blocks m : Fips.SHA256 m = concat (UNPACK32 <$> transf_blocks (length (Fips.pad m) / 64) sha256_h0 (Fips.pad m)).
Proof.
  unfold Fips.SHA256, Fips.blocks. rewrite h0_fips, blocks_fips; [| done |].
  - f_equal. apply list_fmap_ext. intros _ x _. apply be_bytes_word.
  - pose proof (Nat.Div0.mul_div_le (length (Fips.pad m)) 64). lia.
Qed.

Lemma transf_blocks_app n : forall h s r, (64 * n <= length s)%nat -> transf_blocks n h (s ++ r) = transf_blocks n h s.
Proof.
  induction n as [|n IH]; intros h s r Hl; [done |]. cbn [transf_blocks].
  rewrite transf_block_app, drop_app_le, IH by (rewrite ?length_drop; lia). done.
Qed.

Lemma transf_blocks_add a : forall b h s, transf_blocks (a + b) h s = transf_blocks b (transf_blocks a h s) (drop (64 * a) s).
Proof.
  induction a as [|a IH]; intros b h s; [by rewrite drop_0 |]. cbn [transf_blocks plus].
  rewrite IH, drop_drop. do 2 f_equal. lia.
Qed.

(** Hashing the blocks of a message and then those of what follows. *)
Lemma transf_blocks_split a b h s r : length s = (64 * a)%nat ->
  transf_blocks (a + b) h (s ++ r) = transf_blocks b (transf_blocks a h s) r.
Proof. intros Hl. rewrite transf_blocks_add, transf_blocks_app, drop_app_length' by lia. done. Qed.

Lemma transf_blocks_take n h s : (64 * n <= length s)%nat -> transf_blocks n h s = transf_blocks n h (take (64 * n) s).
Proof. intros Hl. rewrite <- (take_drop (64 * n) s) at 1. rewrite transf_blocks_app; [done | len]. Qed.

(** ** What a context stands for *)

(** The context after the bytes [m]: [q] whole blocks are hashed, the rest is in the
    block. *)
Definition absorbed (m : list Z) (c : sha256_ctx) : Prop :=
  exists q r, length m = (64 * q + r)%nat /\ (r < 64)%nat /\
    sha_tot_len c = Z.of_nat (64 * q) /\ sha_len c = Z.of_nat r /\ length (sha_block c) = 128%nat /\
    take r (sha_block c) = drop (64 * q) m /\ sha_h c = transf_blocks q sha256_h0 m.

Lemma init_absorbed junk : length junk = 128%nat -> absorbed [] (sha256_init junk).
Proof. intros Hj. exists 0%nat, 0%nat. cbn. split_and!; (done || lia). Qed.

Lemma sha256_transf_ret c s n : 64 * n <= Z.of_nat (length s) ->
  sha256_transf c s n = Ret (mkSha (sha_tot_len c) (sha_len c) (sha_block c) (transf_blocks (Z.to_nat n) (sha_h c) s)).
Proof. intros Hl. unfold sha256_transf, guard_c. by rewrite (proj2 (Z.leb_le _ _) Hl). Qed.

(** A message longer than this has a bit length the code does not keep. *)
Definition SHA256_LIMIT : Z := 2 ^ 29.

Lemma take_splice_front b off d : (off + length d <= length b)%nat -> take (off + length d) (splice b off d) = take off b ++ d.
Proof. intros Hl. unfold splice. rewrite app_assoc, take_app_length' by len. done. Qed.

(** A message that leaves the block unfilled. *)
Lemma update_short m msg c q r :
  length m = (64 * q + r)%nat -> (r + length msg < 64)%nat -> length (sha_block c) = 128%nat ->
  take r (sha_block c) = drop (64 * q) m -> sha_h c = transf_blocks q sha256_h0 m -> sha_tot_len c = Z.of_nat (64 * q) ->
  absorbed (m ++ msg) (mkSha (sha_tot_len c) (Z.of_nat (r + length msg)) (splice (sha_block c) r msg) (sha_h c)).
Proof.
  intros Hm Hr Hb Hrest Hh Htot. exists q, (r + length msg)%nat. cbn [sha_tot_len sha_len sha_block sha_h].
  split_and!; [len | lia | done | lia | rewrite length_splice; lia | |].
  - rewrite take_splice_front by lia. by rewrite Hrest, drop_app_le by lia.
  - by rewrite transf_blocks_app by lia.
Qed.

(** One that fills it: [k] bytes complete the block, [n] more blocks follow. *)
Lemma update_full m msg q r b h n :
  let k := (64 - r)%nat in
  let rest := drop (k + 64 * n) msg in
  length m = (64 * q + r)%nat -> (r < 64)%nat -> (k + 64 * n <= length msg)%nat -> (length rest < 64)%nat ->
  length b = 128%nat -> take r b = drop (64 * q) m -> h = transf_blocks q sha256_h0 m ->
  absorbed (m ++ msg)
    (mkSha (Z.of_nat (64 * (q + 1 + n))) (Z.of_nat (length rest)) (splice (splice b r (take k msg)) 0 rest)
       (transf_blocks n (transf_blocks 1 h (splice b r (take k msg))) (drop k msg))).
Proof.
  intros k rest Hm Hr Hl Hrest Hb Hbm ->. assert (Hk : length (take k msg) = k) by len.
  set (b1 := splice b r (take k msg)). assert (Hb1 : length b1 = 128%nat) by (unfold b1; rewrite length_splice; lia).
  assert (Hrl : length rest = (length msg - k - 64 * n)%nat) by (unfold rest; len).
  exists (q + 1 + n)%nat, (length rest). cbn [sha_tot_len sha_len sha_block sha_h].
  split_and!; [len | done | done | done | rewrite length_splice; [done | lia] | |].
  - change (length rest) with (0 + length rest)%nat at 1. rewrite take_splice_front by lia. rewrite take_0, drop_app_ge by lia.
    cbn [app]. unfold rest. f_equal. lia.
  - assert (Hfront : take 64 b1 = drop (64 * q) m ++ take k msg).
    { rewrite <- Hbm. replace 64%nat with (r + length (take k msg))%nat by lia. apply take_splice_front. lia. }
    assert (E : m ++ msg = take (64 * q) m ++ (take 64 b1 ++ drop k msg)).
    { rewrite Hfront, <- app_assoc, take_drop, app_assoc, take_drop. done. }
    rewrite E, <- Nat.add_assoc, transf_blocks_split by len. rewrite (transf_blocks_split 1) by len.
    f_equal. rewrite (transf_blocks_take 1) by lia. f_equal. by rewrite (transf_blocks_take q) by lia.
Qed.

Lemma update_absorbed m msg c : absorbed m c -> Z.of_nat (length m + length msg) < SHA256_LIMIT ->
  exists c', sha256_update c msg = Ret c' /\ absorbed (m ++ msg) c'.
Proof.
  intros (q & r & Hm & Hr & Htot & Hlen & Hb & Hrest & Hh) Hlim. unfold SHA256_LIMIT in Hlim.
  unfold sha256_update, SHA256_BLOCK_SIZE. rewrite Hlen, Htot. rewrite (u32_small (64 - _)) by lia. rewrite (u32_small (_ + _)) by lia.
  destruct (Z.ltb_spec (Z.of_nat r + Z.of_nat (length msg)) 64) as [Hs|Hs].
  { rewrite (proj2 (Z.ltb_lt (Z.of_nat (length msg)) _)) by lia. rewrite Nat2Z.id, firstn_all.
    rewrite buf_write_ret by lia. rewrite Nat2Z.id. eexists. split; [reflexivity |].
    rewrite <- Htot, <- Nat2Z.inj_add. eapply update_short; (done || lia). }
  set (k := (64 - r)%nat). rewrite (proj2 (Z.ltb_ge (Z.of_nat (length msg)) _)) by lia.
  replace (64 - Z.of_nat r) with (Z.of_nat k) by lia. rewrite Nat2Z.id.
  assert (Hk : length (take k msg) = k) by len. rewrite buf_write_ret by lia. rewrite Nat2Z.id. cbn [mbind outcome_bind].
  assert (Hb1 : length (splice (sha_block c) r (take k msg)) = 128%nat) by (rewrite length_splice; lia).
  rewrite sha256_transf_ret by lia. cbn [mbind outcome_bind set_block sha_tot_len sha_len sha_block sha_h].
  set (l := (length msg - k)%nat). replace (u32 (Z.of_nat (length msg) - Z.of_nat k)) with (Z.of_nat l) by (rewrite u32_small; lia).
  set (n := (l / 64)%nat). replace (Z.of_nat l / 64) with (Z.of_nat n) by (unfold n; by rewrite Nat2Z.inj_div).
  replace (Z.of_nat l mod 64) with (Z.of_nat (l mod 64)) by (by rewrite Nat2Z.inj_mod).
  assert (Hl : length (drop k msg) = l) by len. pose proof (Nat.div_mod_eq l 64) as Hdm. fold n in Hdm.
  pose proof (Nat.mod_upper_bound l 64 ltac:(lia)) as Hmod.
  rewrite sha256_transf_ret by lia. cbn [mbind outcome_bind sha_tot_len sha_len sha_block sha_h].
  rewrite !Z.shiftl_mul_pow2 by lia. rewrite buf_read_ret by lia. cbn [mbind outcome_bind]. rewrite !Nat2Z.id.
  replace (Z.to_nat (Z.of_nat n * 2 ^ 6)) with (64 * n)%nat by lia. rewrite drop_drop.
  assert (Hrest' : length (drop (k + 64 * n) msg) = (l mod 64)%nat) by len. rewrite (take_ge (drop (k + 64 * n) msg)) by lia.
  rewrite buf_write_ret by lia. eexists. split; [reflexivity |].
  rewrite <- Hrest', u32_small by lia. replace (_ + _ * 2 ^ 6) with (Z.of_nat (64 * (q + 1 + n))) by lia.
  eapply update_full; fold k; (done || lia).
Qed.

(** ** Padding *)

Lemma u8_shiftr_small x n : 0 <= x < 2 ^ n -> 0 <= n -> u8 (Z.shiftr x n) = 0.
Proof. intros Hx Hn. rewrite Z.shiftr_div_pow2, Z.div_small by lia. done. Qed.

(** The upper half of the bit length is zero below the limit. *)
Lemma be64_small n : 0 <= n < 2 ^ 32 -> Fips.be_bytes 8 n = zeros 4 ++ UNPACK32 n.
Proof.
  intros Hn. rewrite <- be_bytes_word. unfold Fips.be_bytes. cbn -[Z.pow Z.div Z.modulo].
  rewrite (Z.div_small n (2 ^ (8 * Z.of_nat 7))), (Z.div_small n (2 ^ (8 * Z.of_nat 6))), (Z.div_small n (2 ^ (8 * Z.of_nat 5))), (Z.div_small n (2 ^ (8 * Z.of_nat 4))) by lia. done.
Qed.

Lemma splice_mid (a x y c : list Z) i : i = length a -> length x = length y -> splice (a ++ x ++ c) i y = a ++ y ++ c.
Proof.
  intros -> Hl. unfold splice. rewrite take_app_length. do 2 f_equal.
  rewrite app_assoc, drop_app_length'; [done | len].
Qed.

(** The block that [sha256_final] builds, up to [pm]. *)
Lemma padded_block b r pm w : length b = 128%nat -> (r + 9 <= pm <= 128)%nat -> length w = 4%nat ->
  take pm (splice (splice (splice b r (zeros (Z.of_nat (pm - r)))) r [0x80]) (pm - 4) w) =
    take r b ++ [0x80] ++ zeros (Z.of_nat (pm - r - 5)) ++ w.
Proof.
  intros Hb Hr Hw. unfold zeros. rewrite !Nat2Z.id. assert (Hr' : length (take r b) = r) by len.
  set (z := (pm - r - 5)%nat). unfold splice at 3. rewrite length_replicate. replace (pm - r)%nat with (1 + z + 4)%nat by lia.
  rewrite !replicate_add. change (replicate 1 0) with [0]. rewrite <- !app_assoc.
  rewrite (splice_mid _ [0] [0x80]) by done. rewrite (app_assoc (take r b)), (app_assoc _ (replicate _ 0)).
  rewrite splice_mid by len. rewrite app_assoc, take_app_length' by len. by rewrite <- !app_assoc.
Qed.

(** The padding of a message whose last block has [r] bytes. *)
Lemma pad_split m q r : length m = (64 * q + r)%nat -> (r < 64)%nat -> Z.of_nat (length m) < SHA256_LIMIT ->
  let pm := if (r <=? 55)%nat then 64%nat else 128%nat in
  Fips.pad m = take (64 * q) m ++ drop (64 * q) m ++ [0x80] ++ zeros (Z.of_nat (pm - r - 5)) ++ UNPACK32 (8 * Z.of_nat (length m)).
Proof.
  intros Hm Hr Hlim pm. unfold SHA256_LIMIT in Hlim. unfold Fips.pad. rewrite be64_small by lia.
  rewrite (app_assoc (take _ m)), take_drop. do 2 f_equal. rewrite app_assoc. f_equal. unfold zeros.
  rewrite <- replicate_add. f_equal. rewrite Nat2Z.id, Hm.
  assert (Hp : (55 - Z.of_nat (64 * q + r)) mod 64 = Z.of_nat (pm - r - 9)).
  { subst pm. destruct (Nat.leb_spec r 55).
    - symmetry. apply (Z.mod_unique_pos _ _ (- Z.of_nat q)); lia.
    - symmetry. apply (Z.mod_unique_pos _ _ (- Z.of_nat q - 1)); lia. }
  rewrite Hp. subst pm. destruct (Nat.leb_spec r 55); lia.
Qed.

Lemma final_absorbed m c : absorbed m c -> Z.of_nat (length m) < SHA256_LIMIT -> sha256_final c = Ret (Fips.SHA256 m).
Proof.
  intros (q & r & Hm & Hr & Htot & Hlen & Hb & Hrest & Hh) Hlim. pose proof (pad_split m q r Hm Hr Hlim) as Hpad.
  unfold SHA256_LIMIT in Hlim. unfold sha256_final, SHA256_BLOCK_SIZE. rewrite Hlen, Htot. rewrite (Z.mod_small (Z.of_nat r)) by lia.
  set (pm := if (r <=? 55)%nat then 64%nat else 128%nat) in *. cbv zeta in Hpad.
  replace (1 + _) with (Z.of_nat (pm / 64)).
  2: { subst pm. destruct (Nat.leb_spec r 55), (Z.ltb_spec (64 - 9) (Z.of_nat r)); (lia || done). }
  assert (Hpm : pm = (64 * (pm / 64))%nat /\ (r + 9 <= pm <= 128)%nat) by (subst pm; destruct (Nat.leb_spec r 55); cbn; lia).
  rewrite !Z.shiftl_mul_pow2 by lia. change (2 ^ 3) with 8. change (2 ^ 6) with 64. rewrite u32_small by lia.
  replace ((_ + _) * 8) with (8 * Z.of_nat (length m)) by lia. replace (_ * 64) with (Z.of_nat pm) by lia.
  replace (Z.of_nat pm - Z.of_nat r) with (Z.of_nat (pm - r)) by lia.
  assert (Hz : length (zeros (Z.of_nat (pm - r))) = (pm - r)%nat) by (unfold zeros; len).
  pose proof (length_splice (sha_block c) r (zeros (Z.of_nat (pm - r))) ltac:(lia)) as Hb1. set (b1 := splice _ _ _) in *.
  pose proof (length_splice b1 r [0x80] ltac:(cbn; lia)) as Hb2. set (b2 := splice b1 _ _) in *.
  set (w := UNPACK32 _). assert (Hw : length w = 4%nat) by done.
  pose proof (length_splice b2 (pm - 4) w ltac:(lia)) as Hb3. set (b3 := splice b2 _ _) in *.
  rewrite buf_write_ret by lia. rewrite Nat2Z.id. cbn [mbind outcome_bind]. fold b1.
  rewrite buf_write_ret by (cbn [length]; lia). rewrite Nat2Z.id. cbn [mbind outcome_bind]. fold b2.
  rewrite buf_write_ret by lia. cbn [mbind outcome_bind]. replace (Z.to_nat (Z.of_nat pm - 4)) with (pm - 4)%nat by lia. fold b3.
  rewrite sha256_transf_ret by lia. cbn [mbind outcome_bind sha_h]. rewrite Nat2Z.id. f_equal. rewrite sha256_blocks. do 2 f_equal.
  rewrite (transf_blocks_take (pm / 64)) by lia. rewrite <- (proj1 Hpm). unfold b3, b2, b1. rewrite padded_block by (done || lia).
  rewrite Hrest, Hh, Hpad. set (tail := drop (64 * q) m ++ _).
  assert (Htl : length tail = pm) by (unfold tail, zeros; len).
  replace (length (take (64 * q) m ++ tail) / 64)%nat with (q + pm / 64)%nat.
  2: { rewrite length_app, Htl. replace (length (take (64 * q) m)) with (q * 64)%nat by len. by rewrite Nat.div_add_l. }
  rewrite transf_blocks_split by len. f_equal. by rewrite (transf_blocks_take q) by lia.
Qed.

(** ** Messages in pieces *)

Fixpoint sha256_updates (ctx : sha256_ctx) (pieces : list (list Z)) : outcome sha256_ctx :=
  match pieces with
  | [] => Ret ctx
  | p :: pieces => ctx ← sha256_update ctx p; sha256_updates ctx pieces
  end.

Lemma updates_absorbed pieces : forall m c, absorbed m c -> Z.of_nat (length m + length (concat pieces)) < SHA256_LIMIT ->
  exists c', sha256_updates c pieces = Ret c' /\ absorbed (m ++ concat pieces) c'.
Proof.
  induction pieces as [|p pieces IH]; intros m c Hc Hl; cbn [sha256_updates concat] in *.
  { exists c. by rewrite app_nil_r. }
  rewrite length_app in Hl. destruct (update_absorbed m p c Hc) as (c1 & E1 & Hc1); [lia |].
  destruct (IH (m ++ p) c1 Hc1) as (c2 & E2 & Hc2); [len |]. exists c2. rewrite E1. cbn [mbind outcome_bind].
  by rewrite app_assoc.
Qed.

(** C40: Hashing in pieces.  However a message of less than 512 MiB is cut into pieces, and
    whatever the context's block holds at the start, the sequence of [sha256_update] calls
    and the final [sha256_final] return the SHA-256 of the whole message as the standard
    defines it; no access leaves the block or a piece. *)
Theorem sha256_in_pieces junk pieces :
  length junk = 128%nat -> Z.of_nat (length (concat pieces)) < SHA256_LIMIT ->
  (sha256_updates (sha256_init junk) pieces ≫= sha256_final) = Ret (Fips.SHA256 (concat pieces)).
Proof.
  intros Hj Hl. destruct (updates_absorbed pieces [] (sha256_init junk)) as (c & -> & Hc); [by apply init_absorbed | done |].
  by apply final_absorbed.
Qed.

Lemma sha256_in_pieces_witness :
  (sha256_updates (sha256_init (replicate 128 7)) [[0x61]; []; [0x62; 0x63]] ≫= sha256_final) = Ret (Fips.SHA256 [0x61; 0x62; 0x63]).
Proof. apply (sha256_in_pieces (replicate 128 7) [[0x61]; []; [0x62; 0x63]]); [reflexivity | vm_compute; reflexivity]. Defined.
