(* ===== verification/HmacSha2.v ===== *)
(** * HMAC-SHA-256 of the supplicant (hmac_sha2.c, hmac_sha2.h)

    The message authentication code of the emulated RPMB partition, over Sha2.v, and that
    it is the HMAC of RFC 2104 however the message is cut. *)

From stdpp Require Import base numbers list.
From S2P Require Import Prelude Sha2Spec Sha2.

Record hmac_sha256_ctx := mkHmac {
  ctx_inside : sha256_ctx; ctx_outside : sha256_ctx;
  ctx_inside_reinit : sha256_ctx; ctx_outside_reinit : sha256_ctx;
  block_ipad : list Z; block_opad : list Z }.

(** The key as the loop uses it, from the key's bytes; [junk] is an uninitialised block. *)
Definition key_used (junk key : list Z) : outcome (list Z) :=
  let key_size := Z.of_nat (length key) in
  if key_size =? SHA256_BLOCK_SIZE then Ret key
  else if SHA256_BLOCK_SIZE <? key_size then sha256 junk key
  else Ret key.

Definition masked (mask : Z) (k : list Z) : list Z := (fun b : Z => Z.lxor b mask) <$> k.

(** [memset] of the tail and the loop over the key: the padded key under a mask. *)
Definition pad_key (mask : Z) (key : list Z) : list Z :=
  masked mask key ++ replicate (Z.to_nat SHA256_BLOCK_SIZE - length key) mask.

Definition hmac_sha256_init (junk key : list Z) : outcome hmac_sha256_ctx :=
  k ← key_used junk key;
  let ipad := pad_key 0x36 k in
  let opad := pad_key 0x5c k in
  inside ← sha256_update (sha256_init junk) ipad;
  outside ← sha256_update (sha256_init junk) opad;
  Ret (mkHmac inside outside inside outside ipad opad).

Definition hmac_sha256_reinit (ctx : hmac_sha256_ctx) : hmac_sha256_ctx :=
  mkHmac (ctx_inside_reinit ctx) (ctx_outside_reinit ctx) (ctx_inside_reinit ctx) (ctx_outside_reinit ctx)
    (block_ipad ctx) (block_opad ctx).

Definition set_inside (ctx : hmac_sha256_ctx) (c : sha256_ctx) : hmac_sha256_ctx :=
  mkHmac c (ctx_outside ctx) (ctx_inside_reinit ctx) (ctx_outside_reinit ctx) (block_ipad ctx) (block_opad ctx).

Definition hmac_sha256_update (ctx : hmac_sha256_ctx) (message : list Z) : outcome hmac_sha256_ctx :=
  c ← sha256_update (ctx_inside ctx) message;
  Ret (set_inside ctx c).

(** The first [mac_size] bytes of the code; the context is spent. *)
Definition hmac_sha256_final (ctx : hmac_sha256_ctx) (mac_size : Z) : outcome (list Z) :=
  digest_inside ← sha256_final (ctx_inside ctx);
  c ← sha256_update (ctx_outside ctx) digest_inside;
  mac_temp ← sha256_final c;
  buf_read mac_temp 0 mac_size.

Definition hmac_sha256 (junk key message : list Z) (mac_size : Z) : outcome (list Z) :=
  ctx ← hmac_sha256_init junk key;
  ctx ← hmac_sha256_update ctx message;
  hmac_sha256_final ctx mac_size.

Fixpoint hmac_sha256_updates (ctx : hmac_sha256_ctx) (pieces : list (list Z)) : outcome hmac_sha256_ctx :=
  match pieces with
  | [] => Ret ctx
  | p :: pieces => ctx ← hmac_sha256_update ctx p; hmac_sha256_updates ctx pieces
  end.

(** ** Equivalence *)

Lemma length_UNPACK32s (l : list Z) : length (concat (UNPACK32 <$> l)) = (4 * length l)%nat.
Proof. induction l as [|x l IH]; [done |]. cbn [fmap list_fmap concat]. rewrite length_app, IH. cbn. lia. Qed.

Lemma sha256_spec_length m : length (Fips.SHA256 m) = 32%nat.
Proof. by rewrite sha256_blocks, length_UNPACK32s, transf_blocks_length. Qed.

Lemma key_used_spec (junk key : list Z) : length junk = 128%nat -> Z.of_nat (length key) < SHA256_LIMIT ->
  key_used junk key = Ret (if 64 <? Z.of_nat (length key) then Fips.SHA256 key else key).
Proof.
  intros Hj Hl. unfold key_used, SHA256_BLOCK_SIZE. destruct (Z.eqb_spec (Z.of_nat (length key)) 64) as [->|Hne]; [done |].
  destruct (64 <? _); [| done]. pose proof (updates_absorbed [key] [] (sha256_init junk) (init_absorbed junk Hj)) as H.
  cbn [concat app length] in H. rewrite app_nil_r in H. destruct (H Hl) as (c & E & Hc). cbn [sha256_updates] in E.
  unfold sha256. apply outcome_bind_inv in E as (c1 & -> & [= ->]). cbn [mbind outcome_bind]. by apply final_absorbed.
Qed.

Lemma pad_key_mask mask k : (length k <= 64)%nat -> 0 <= mask ->
  pad_key mask k = masked mask (k ++ zeros (64 - Z.of_nat (length k))).
Proof.
  intros Hk Hm. unfold pad_key, masked, zeros. rewrite fmap_app, fmap_replicate, Z.lxor_0_l. do 2 f_equal. unfold SHA256_BLOCK_SIZE. lia.
Qed.

Lemma hmac_key_length key : length (Fips.block_key key) = 64%nat.
Proof.
  unfold Fips.block_key. destruct (Z.ltb_spec 64 (Z.of_nat (length key))); unfold zeros; autorewrite with len; rewrite ?sha256_spec_length; lia.
Qed.

(** The standard's mask of a block. *)
Lemma xor_masked mask key : Fips.xor (Fips.block_key key) mask = masked mask (Fips.block_key key).
Proof. unfold Fips.xor, masked. by rewrite zip_with_replicate_r_eq by apply hmac_key_length. Qed.

Lemma masked_length mask key : length (masked mask (Fips.block_key key)) = 64%nat.
Proof. unfold masked. by rewrite length_fmap, hmac_key_length. Qed.

Lemma masked_absorbed (junk : list Z) mask key : length junk = 128%nat ->
  let p := masked mask (Fips.block_key key) in
  exists c, sha256_update (sha256_init junk) p = Ret c /\ absorbed p c.
Proof.
  intros Hj p. assert (Hp : length p = 64%nat) by apply masked_length.
  destruct (update_absorbed [] p (sha256_init junk) (init_absorbed junk Hj)) as (c & E & Hc); [rewrite Hp; done |]. by exists c.
Qed.

(** What an HMAC context stands for after the bytes [m]. *)
Definition keyed (key m : list Z) (x : hmac_sha256_ctx) : Prop :=
  absorbed (masked 0x36 (Fips.block_key key) ++ m) (ctx_inside x) /\
  absorbed (masked 0x5c (Fips.block_key key)) (ctx_outside x).

Lemma init_keyed (junk key : list Z) : length junk = 128%nat -> Z.of_nat (length key) < SHA256_LIMIT ->
  exists x, hmac_sha256_init junk key = Ret x /\ keyed key [] x.
Proof.
  intros Hj Hl. unfold hmac_sha256_init. rewrite key_used_spec by done. cbn [mbind outcome_bind].
  remember (if 64 <? Z.of_nat (length key) then Fips.SHA256 key else key) as k eqn:Ek. assert (Hk : (length k <= 64)%nat).
  { subst k. destruct (Z.ltb_spec 64 (Z.of_nat (length key))); [by rewrite sha256_spec_length; lia | lia]. }
  rewrite !pad_key_mask by done. replace (k ++ zeros (64 - Z.of_nat (length k))) with (Fips.block_key key) by (unfold Fips.block_key; by rewrite Ek).
  destruct (masked_absorbed junk 0x36 key Hj) as (c1 & -> & H1). destruct (masked_absorbed junk 0x5c key Hj) as (c2 & -> & H2).
  eexists. split; [reflexivity |]. split; [by rewrite app_nil_r | done].
Qed.

Lemma updates_keyed key pieces : forall m x, keyed key m x ->
  Z.of_nat (64 + length m + length (concat pieces)) < SHA256_LIMIT ->
  exists x', hmac_sha256_updates x pieces = Ret x' /\ keyed key (m ++ concat pieces) x'.
Proof.
  induction pieces as [|p pieces IH]; intros m x [Hi Ho] Hl; cbn [hmac_sha256_updates concat] in *.
  { exists x. rewrite app_nil_r. done. }
  rewrite length_app in Hl. unfold hmac_sha256_update.
  destruct (update_absorbed _ p _ Hi) as (c & -> & Hc); [rewrite length_app, masked_length; lia |].
  cbn [mbind outcome_bind]. destruct (IH (m ++ p) (set_inside x c)) as (x' & E & Hx); [| len |].
  - split; [by rewrite app_assoc | done].
  - exists x'. by rewrite app_assoc.
Qed.

Lemma final_keyed key m x : keyed key m x -> Z.of_nat (64 + length m) < SHA256_LIMIT ->
  hmac_sha256_final x 32 = Ret (Fips.hmac key m).
Proof.
  intros [Hi Ho] Hl. unfold hmac_sha256_final.
  rewrite (final_absorbed _ _ Hi) by (rewrite length_app, masked_length; lia). cbn [mbind outcome_bind].
  destruct (update_absorbed _ (Fips.SHA256 (masked 0x36 (Fips.block_key key) ++ m)) _ Ho) as (c & -> & Hc);
    [rewrite masked_length, sha256_spec_length; done |].
  cbn [mbind outcome_bind]. rewrite (final_absorbed _ _ Hc).
  2: { rewrite length_app, masked_length, sha256_spec_length. done. }
  cbn [mbind outcome_bind]. unfold Fips.hmac. rewrite !xor_masked.
  rewrite buf_read_ret, drop_0, take_ge by (rewrite ?sha256_spec_length; lia). done.
Qed.

(** The code over a message in pieces, as the callers use it. *)
Definition hmac_pieces (junk key : list Z) (pieces : list (list Z)) : outcome (list Z) :=
  ctx ← hmac_sha256_init junk key;
  ctx ← hmac_sha256_updates ctx pieces;
  hmac_sha256_final ctx 32.

Lemma hmac_pieces_spec (junk key : list Z) pieces :
  length junk = 128%nat -> Z.of_nat (length key) < SHA256_LIMIT -> Z.of_nat (64 + length (concat pieces)) < SHA256_LIMIT ->
  hmac_pieces junk key pieces = Ret (Fips.hmac key (concat pieces)).
Proof.
  intros Hj Hk Hl. unfold hmac_pieces. destruct (init_keyed junk key Hj Hk) as (x & -> & Hx). cbn [mbind outcome_bind].
  destruct (updates_keyed key pieces [] x Hx Hl) as (x' & -> & Hx'). by apply final_keyed.
Qed.

(** C25: The message authentication code is the HMAC of RFC 2104 over the SHA-256 of FIPS
    180-4, as Sha2Spec.v has them: for any key below 512 MiB, a message that is below 512
    MiB with the block of the key before it, in any pieces, and any content of the
    uninitialised blocks. *)
Theorem hmac_sha256_rfc (junk key : list Z) (pieces : list (list Z)) :
  length junk = 128%nat -> Z.of_nat (length key) < SHA256_LIMIT -> Z.of_nat (64 + length (concat pieces)) < SHA256_LIMIT ->
  (ctx ← hmac_sha256_init junk key; ctx ← hmac_sha256_updates ctx pieces; hmac_sha256_final ctx 32) =
    Ret (Fips.hmac key (concat pieces)).
Proof. apply hmac_pieces_spec. Qed.

(** The second test case of RFC 4231: key "Jefe". *)
Example hmac_jefe :
  hmac_sha256 (replicate 128 7) [0x4a; 0x65; 0x66; 0x65]
    ([0x77; 0x68; 0x61; 0x74; 0x20; 0x64; 0x6f; 0x20; 0x79; 0x61] ++ [0x20; 0x77; 0x61; 0x6e; 0x74; 0x20; 0x66; 0x6f; 0x72; 0x20] ++
     [0x6e; 0x6f; 0x74; 0x68; 0x69; 0x6e; 0x67; 0x3f]) 32 =
  Ret (concat (UNPACK32 <$> [0x5bdcc146; 0xbf60754e; 0x6a042426; 0x089575c7; 0x5a003f08; 0x9d273983; 0x9dec58b9; 0x64ec3843])).
Proof. vm_compute. reflexivity. Qed.

Lemma hmac_sha256_rfc_witness :
  (ctx ← hmac_sha256_init (zeros 128) [1; 2; 3]; ctx ← hmac_sha256_updates ctx [[4]; [5; 6]]; hmac_sha256_final ctx 32) =
    Ret (Fips.hmac [1; 2; 3] (concat [[4]; [5; 6]])).
Proof. apply (hmac_sha256_rfc (zeros 128) [1; 2; 3] [[4]; [5; 6]]); [reflexivity | |]; vm_compute; reflexivity. Defined.
