(* ===== verification/Handle.v ===== *)
(** * The handle database (handle.c, handle.h)

    Small integers for the pointers a client holds, here the open directories of the file
    service.  [ptrs] is the array with its capacity as length and 0 for NULL; [mu] is the
    mutex, if any, and whether it is held.  The array may only be read or written while
    the mutex, if there is one, is held: [shared] and [set_ptrs] are undefined otherwise,
    as a data race is.  Under it: the code implements a finite map from handles that hands
    out the least unused one. *)

From stdpp Require Import base numbers list gmap fin_maps fin_map_dom.
From S2P Require Import Prelude.

Record handle_db := mkDb { ptrs : list Z; mu : option bool }.

Definition max_ptrs (db : handle_db) : Z := Z.of_nat (length (ptrs db)).
Definition HANDLE_DB_INITIAL_MAX_PTRS : Z := 4.
Definition HANDLE_DB_INITIALIZER : handle_db := mkDb [] None.
Definition HANDLE_DB_INITIALIZER_WITH_MUTEX : handle_db := mkDb [] (Some false).
Definition SIZEOF_PTR : Z := 8.

(** Locking a held mutex never returns; unlocking a free one is undefined. *)
Definition mutex_lock (db : handle_db) : outcome handle_db :=
  match mu db with
  | None => Ret db
  | Some held => guard_c (negb held);; Ret (mkDb (ptrs db) (Some true))
  end.
Definition mutex_unlock (db : handle_db) : outcome handle_db :=
  match mu db with
  | None => Ret db
  | Some held => guard_c held;; Ret (mkDb (ptrs db) (Some false))
  end.

(** The array of a database other threads may use: reading it, or writing it, without
    holding its mutex is a data race. *)
Definition in_section (db : handle_db) : bool := match mu db with None => true | Some held => held end.
Definition shared (db : handle_db) : outcome (list Z) := guard_c (in_section db);; Ret (ptrs db).
Definition set_ptrs (db : handle_db) (l : list Z) : outcome handle_db := guard_c (in_section db);; Ret (mkDb l (mu db)).

Definition handle_db_set_mutex (db : handle_db) (m : option bool) : handle_db := mkDb (ptrs db) m.

(** A NULL [db] is [None]. *)
Definition handle_db_destroy (db : option handle_db) : outcome (option handle_db) :=
  match db with
  | None => Ret None
  | Some db => db ← mutex_lock db; db ← set_ptrs db []; Some <$> mutex_unlock db
  end.

(** The index of the first empty location from [n] on. *)
Fixpoint find_empty (n : nat) (l : list Z) : option nat :=
  match l with
  | [] => None
  | p :: l => if p =? 0 then Some n else find_empty (S n) l
  end.

Section Get.
(** Whether [realloc] finds a block of that many bytes. *)
Context (realloc : Z -> bool).

Definition handle_get (db : option handle_db) (ptr : Z) : outcome (Z * option handle_db) :=
  match db with
  | None => Ret (-1, None)
  | Some db =>
      if ptr =? 0 then Ret (-1, Some db)
      else
        db ← mutex_lock db;
        ps ← shared db;
        '(ret, db) ← (match find_empty 0 ps with
                      | Some n => db ← set_ptrs db (<[n:=ptr]> ps); Ret (i32 (Z.of_nat n), db)
                      | None =>
                          let n := length ps in
                          let new_max_ptrs := if max_ptrs db =? 0 then HANDLE_DB_INITIAL_MAX_PTRS else u64 (max_ptrs db * 2) in
                          if negb (realloc (u64 (new_max_ptrs * SIZEOF_PTR))) then Ret (-1, db)
                          else
                            let l := ps ++ zeros (new_max_ptrs - max_ptrs db) in
                            guard_c (Z.of_nat n <? Z.of_nat (length l));;
                            db ← set_ptrs db (<[n:=ptr]> l);
                            Ret (i32 (Z.of_nat n), db)
                      end);
        db ← mutex_unlock db;
        Ret (ret, Some db)
  end.
End Get.

Definition handle_put (db : option handle_db) (handle : Z) : outcome (Z * option handle_db) :=
  match db with
  | None => Ret (0, None)
  | Some db =>
      if handle <? 0 then Ret (0, Some db)
      else
        db ← mutex_lock db;
        ps ← shared db;
        '(p, db) ← (if max_ptrs db <=? u64 handle then Ret (0, db)
                    else p ← deref (ps !! Z.to_nat handle);
                         db ← set_ptrs db (<[Z.to_nat handle:=0]> ps);
                         Ret (p, db));
        db ← mutex_unlock db;
        Ret (p, Some db)
  end.

Definition handle_lookup (db : option handle_db) (handle : Z) : outcome (Z * option handle_db) :=
  match db with
  | None => Ret (0, None)
  | Some db =>
      if handle <? 0 then Ret (0, Some db)
      else
        db ← mutex_lock db;
        ps ← shared db;
        p ← (if max_ptrs db <=? u64 handle then Ret 0 else deref (ps !! Z.to_nat handle));
        db ← mutex_unlock db;
        Ret (p, Some db)
  end.

Section Foreach.
(** The callback, with the state it works on. *)
Context {W : Type} (cb : Z -> Z -> W -> W).

Fixpoint foreach_loop (n : nat) (l : list Z) (w : W) : list Z * W :=
  match l with
  | [] => ([], w)
  | p :: l =>
      let w := if p =? 0 then w else cb (i32 (Z.of_nat n)) p w in
      let '(l, w) := foreach_loop (S n) l w in
      (0 :: l, w)
  end.

Definition handle_foreach_put (db : option handle_db) (w : W) : outcome (option handle_db * W) :=
  match db with
  | None => Ret (None, w)
  | Some db =>
      db ← mutex_lock db;
      ps ← shared db;
      let '(l, w) := foreach_loop 0 ps w in
      db ← set_ptrs db l;
      db ← mutex_unlock db;
      Ret (Some db, w)
  end.
End Foreach.

(** ** The abstract database *)

Inductive handle_op :=
  | OpGet (ptr : Z) | OpPut (handle : Z) | OpLookup (handle : Z) | OpForeach | OpDestroy.

(** What an operation reports: an integer or pointer, or the callback's calls. *)
Inductive handle_ans := AnsInt (z : Z) | AnsCalls (c : gmap nat Z) | AnsUnit.

Definition the_ptr (o : option Z) : Z := default 0 o.

(** A step of a map from handles to pointers; [oom] says whether memory may run out. *)
Inductive handle_step (oom : Prop) (m : gmap nat Z) : handle_op -> handle_ans -> gmap nat Z -> Prop :=
  | step_get ptr h : ptr <> 0 -> m !! h = None -> (forall k, (k < h)%nat -> is_Some (m !! k)) ->
      handle_step oom m (OpGet ptr) (AnsInt (Z.of_nat h)) (<[h:=ptr]> m)
  | step_get_null : handle_step oom m (OpGet 0) (AnsInt (-1)) m
  | step_get_oom ptr : oom -> handle_step oom m (OpGet ptr) (AnsInt (-1)) m
  | step_put (h : nat) : handle_step oom m (OpPut (Z.of_nat h)) (AnsInt (the_ptr (m !! h))) (delete h m)
  | step_put_neg z : z < 0 -> handle_step oom m (OpPut z) (AnsInt 0) m
  | step_lookup (h : nat) : handle_step oom m (OpLookup (Z.of_nat h)) (AnsInt (the_ptr (m !! h))) m
  | step_lookup_neg z : z < 0 -> handle_step oom m (OpLookup z) (AnsInt 0) m
  | step_foreach : handle_step oom m OpForeach (AnsCalls m) ∅
  | step_destroy : handle_step oom m OpDestroy AnsUnit ∅.

Inductive handle_steps (oom : Prop) : gmap nat Z -> list handle_op -> list handle_ans -> gmap nat Z -> Prop :=
  | steps_nil m : handle_steps oom m [] [] m
  | steps_cons m op a m1 ops as_ m2 :
      handle_step oom m op a m1 -> handle_steps oom m1 ops as_ m2 -> handle_steps oom m (op :: ops) (a :: as_) m2.

(** ** Running the code *)

(** The callback that records its calls. *)
Definition record_call (h p : Z) (c : gmap nat Z) : gmap nat Z := <[Z.to_nat h:=p]> c.

Definition handle_run1 (realloc : Z -> bool) (op : handle_op) (db : option handle_db) : outcome (handle_ans * option handle_db) :=
  match op with
  | OpGet p => '(r, db) ← handle_get realloc db p; Ret (AnsInt r, db)
  | OpPut h => '(r, db) ← handle_put db h; Ret (AnsInt r, db)
  | OpLookup h => '(r, db) ← handle_lookup db h; Ret (AnsInt r, db)
  | OpForeach => '(db, c) ← handle_foreach_put record_call db ∅; Ret (AnsCalls c, db)
  | OpDestroy => db ← handle_db_destroy db; Ret (AnsUnit, db)
  end.

Fixpoint handle_run (realloc : Z -> bool) (ops : list handle_op) (db : option handle_db) : outcome (list handle_ans * option handle_db) :=
  match ops with
  | [] => Ret ([], db)
  | op :: ops =>
      '(a, db) ← handle_run1 realloc op db;
      '(as_, db) ← handle_run realloc ops db;
      Ret (a :: as_, db)
  end.

Example handle_run_ex :
  fst <$> handle_run (fun _ => true) [OpGet 7; OpGet 8; OpPut 0; OpGet 9; OpLookup 1; OpLookup 99; OpGet 0] (Some HANDLE_DB_INITIALIZER_WITH_MUTEX) =
    Ret (AnsInt <$> [0; 1; 7; 0; 8; 0; -1]).
Proof. vm_compute. reflexivity. Qed.

(** ** Refinement *)

(** What the array stands for. *)
Definition handles (l : list Z) : gmap nat Z := omap (fun p => if p =? 0 then None else Some p) (map_seq 0 l).

Definition live_ptr (l : list Z) (k : nat) : option Z :=
  match l !! k with Some p => if p =? 0 then None else Some p | None => None end.

Lemma handles_lookup l k : handles l !! k = live_ptr l k.
Proof. unfold handles, live_ptr. rewrite lookup_omap, lookup_map_seq_0. by destruct (l !! k). Qed.

Lemma handles_insert l n p : (n < length l)%nat -> p <> 0 -> handles (<[n:=p]> l) = <[n:=p]> (handles l).
Proof.
  intros Hn Hp. apply map_eq. intros k. rewrite handles_lookup. unfold live_ptr. destruct (decide (k = n)) as [->|Hne].
  - rewrite lookup_insert_eq, list_lookup_insert_eq by done. by rewrite (proj2 (Z.eqb_neq _ _) Hp).
  - rewrite lookup_insert_ne, list_lookup_insert_ne by done. by rewrite handles_lookup.
Qed.

Lemma handles_clear l n : handles (<[n:=0]> l) = delete n (handles l).
Proof.
  apply map_eq. intros k. rewrite handles_lookup. unfold live_ptr. destruct (decide (k = n)) as [->|Hne].
  - rewrite lookup_delete_eq. destruct (decide (n < length l)%nat).
    + by rewrite list_lookup_insert_eq.
    + rewrite list_insert_ge by lia. by rewrite lookup_ge_None_2 by lia.
  - rewrite lookup_delete_ne, list_lookup_insert_ne by done. by rewrite handles_lookup.
Qed.

Lemma handles_grow l n : handles (l ++ zeros n) = handles l.
Proof.
  apply map_eq. intros k. rewrite !handles_lookup. unfold live_ptr, zeros. destruct (decide (k < length l)%nat).
  - by rewrite lookup_app_l.
  - rewrite lookup_app_r, (lookup_ge_None_2 l) by lia. destruct (replicate _ 0 !! _) eqn:E; [| done].
    apply lookup_replicate in E as [-> _]. done.
Qed.

Lemma live_ptr_lookup l k p : l !! k = Some p -> the_ptr (live_ptr l k) = p.
Proof. intros E. unfold live_ptr. rewrite E. destruct (Z.eqb_spec p 0) as [->|]; done. Qed.
Lemma live_ptr_out l k : (length l <= k)%nat -> live_ptr l k = None.
Proof. intros Hk. unfold live_ptr. by rewrite lookup_ge_None_2. Qed.

Lemma find_empty_Some l : forall n k, find_empty n l = Some k ->
  exists j, k = (n + j)%nat /\ l !! j = Some 0 /\ forall i, (i < j)%nat -> is_Some (live_ptr l i).
Proof.
  induction l as [|p l IH]; intros n k; cbn [find_empty]; [done |]. destruct (Z.eqb_spec p 0) as [->|Hp].
  - intros [= <-]. exists 0%nat. split_and!; [lia | done | lia].
  - intros (j & -> & E & Hlt)%IH. exists (S j). split_and!; [lia | done |]. intros [|i] Hi.
    + unfold live_ptr. cbn. rewrite (proj2 (Z.eqb_neq _ _) Hp). by eexists.
    + apply (Hlt i). lia.
Qed.
Lemma find_empty_None l : forall n, find_empty n l = None -> forall i, (i < length l)%nat -> is_Some (live_ptr l i).
Proof.
  induction l as [|p l IH]; intros n; cbn [find_empty length]; [lia |]. destruct (Z.eqb_spec p 0) as [->|Hp]; [done |].
  intros Hl [|i] Hi.
  - unfold live_ptr. cbn. rewrite (proj2 (Z.eqb_neq _ _) Hp). by eexists.
  - apply (IH _ Hl i). lia.
Qed.

Lemma size_insert_le (m : gmap nat Z) h p : (size (<[h:=p]> m) <= S (size m))%nat.
Proof. rewrite map_size_insert. destruct (m !! h); cbn; lia. Qed.
Lemma size_delete_le (m : gmap nat Z) h : (size (delete h m) <= size m)%nat.
Proof. rewrite map_size_delete. destruct (m !! h); cbn; lia. Qed.

(** As many handles are live as precede an unused one. *)
Lemma live_prefix (m : gmap nat Z) n : (forall k, (k < n)%nat -> is_Some (m !! k)) -> (n <= size m)%nat.
Proof.
  intros Hk. rewrite <- size_dom, <- (size_set_seq (C := gset nat) 0 n). apply subseteq_size.
  intros k. rewrite elem_of_set_seq, elem_of_dom. intros ?. apply Hk. lia.
Qed.

Lemma foreach_loop_spec l : forall n c, Z.of_nat (n + length l) < 2 ^ 31 ->
  foreach_loop record_call n l c =
    (replicate (length l) 0, omap (fun p => if p =? 0 then None else Some p) (map_seq n l) ∪ c).
Proof.
  induction l as [|p l IH]; intros n c Hn; cbn [foreach_loop length replicate map_seq] in *.
  { by rewrite omap_empty, map_empty_union. }
  rewrite IH by lia. f_equal. unfold record_call. rewrite i32_small, Nat2Z.id by lia.
  assert (Hf : (map_seq (S n) l : gmap nat Z) !! n = None) by (apply lookup_map_seq_None; lia).
  destruct (Z.eqb_spec p 0) as [->|Hp].
  - rewrite omap_insert_None by (done || by rewrite lookup_omap, Hf). f_equal. by rewrite delete_id by (by rewrite lookup_omap, Hf).
  - rewrite (omap_insert_Some _ _ n p p) by (by rewrite (proj2 (Z.eqb_neq _ _) Hp)).
    rewrite <- insert_union_l, insert_union_r; [done | by rewrite lookup_omap, Hf].
Qed.

(** A database between calls, after at most [n] of them: the mutex is free. *)
Definition db_rep (u : option bool) (n : nat) (m : gmap nat Z) (db : option handle_db) : Prop :=
  exists l, db = Some (mkDb l u) /\ u <> Some true /\ m = handles l /\
    (size m <= n)%nat /\ (length l <= 4 + 2 * n)%nat.

(** The integer argument of an operation is a C [int]. *)
Definition op_ok (op : handle_op) : Prop :=
  match op with OpPut h | OpLookup h => - 2 ^ 31 <= h < 2 ^ 31 | _ => True end.

Definition held (u : option bool) : option bool := match u with None => None | Some _ => Some true end.
Lemma lock_free l u : u <> Some true -> mutex_lock (mkDb l u) = Ret (mkDb l (held u)).
Proof. by destruct u as [[]|]. Qed.
Lemma unlock_held l u : u <> Some true -> mutex_unlock (mkDb l (held u)) = Ret (mkDb l u).
Proof. by destruct u as [[]|]. Qed.

Lemma shared_held l u : shared (mkDb l (held u)) = Ret l.
Proof. by destruct u. Qed.
Lemma set_ptrs_held l u l' : set_ptrs (mkDb l (held u)) l' = Ret (mkDb l' (held u)).
Proof. by destruct u. Qed.

(** The steps of a call between its lock and its unlock. *)
Ltac section_step :=
  repeat (first [rewrite lock_free by done | rewrite unlock_held by done | rewrite shared_held | rewrite set_ptrs_held];
    cbn [mbind outcome_bind ptrs]).

Lemma db_rep_more n m l u : u <> Some true -> m = handles l -> (size m <= n)%nat -> (length l <= 4 + 2 * n)%nat ->
  db_rep u (S n) m (Some (mkDb l u)).
Proof. intros. exists l. split_and!; (done || lia). Qed.

Lemma db_rep_insert n l u h p : u <> Some true -> (h < length l)%nat -> p <> 0 ->
  (size (handles l) <= n)%nat -> (length l <= 4 + 2 * n)%nat ->
  db_rep u (S n) (<[h:=p]> (handles l)) (Some (mkDb (<[h:=p]> l) u)).
Proof.
  intros Hu Hh Hp Hs Hl. exists (<[h:=p]> l). rewrite length_insert, handles_insert by done. split_and!; [done | done | done | | lia].
  pose proof (size_insert_le (handles l) h p). lia.
Qed.

Section Run.
Context (realloc : Z -> bool).

Lemma run1_get u n m db p : db_rep u n m db -> Z.of_nat n < 2 ^ 30 ->
  exists a db' m', handle_run1 realloc (OpGet p) db = Ret (a, db') /\
    handle_step (exists z, realloc z = false) m (OpGet p) a m' /\ db_rep u (S n) m' db'.
Proof.
  intros (l & -> & Hu & -> & Hs & Hl) Hn. cbn [handle_run1]. unfold handle_get. destruct (Z.eqb_spec p 0) as [->|Hp].
  { do 3 eexists. split_and!; [done | apply step_get_null | by eapply db_rep_more]. }
  section_step. unfold max_ptrs. cbn [ptrs].
  destruct (find_empty 0 l) as [k|] eqn:E.
  - apply find_empty_Some in E as (j & -> & Ej & Hlt). cbn [plus]. apply lookup_lt_Some in Ej as Hj.
    assert (Hfull : forall k, (k < j)%nat -> is_Some (handles l !! k)) by (intros k Hk; rewrite handles_lookup; auto).
    pose proof (live_prefix _ _ Hfull). section_step. rewrite i32_small by lia.
    do 3 eexists. split_and!; [done | apply step_get; [done | | done] | by apply db_rep_insert].
    rewrite handles_lookup. unfold live_ptr. by rewrite Ej.
  - pose proof (find_empty_None _ _ E) as Hall.
    assert (Hfull : forall k, (k < length l)%nat -> is_Some (handles l !! k)) by (intros k Hk; rewrite handles_lookup; auto).
    pose proof (live_prefix _ _ Hfull) as Hsz.
    assert (Hmax : exists g, (if Z.of_nat (length l) =? 0 then HANDLE_DB_INITIAL_MAX_PTRS else u64 (Z.of_nat (length l) * 2)) =
      Z.of_nat (length l + S g) /\ (length l + S g <= 4 + 2 * n)%nat).
    { destruct (Z.eqb_spec (Z.of_nat (length l)) 0); [exists 3%nat; unfold HANDLE_DB_INITIAL_MAX_PTRS; lia |].
      exists (length l - 1)%nat. rewrite u64_small; lia. }
    destruct Hmax as (g & -> & Hg). destruct (realloc _) eqn:Er; cbn [negb].
    + replace (Z.of_nat (length l + S g) - Z.of_nat (length l)) with (Z.of_nat (S g)) by lia. set (l' := l ++ zeros _).
      assert (Hl' : length l' = (length l + S g)%nat) by (unfold l', zeros; len). unfold guard_c.
      rewrite (proj2 (Z.ltb_lt _ _)) by lia. cbn [mbind outcome_bind]. section_step.
      rewrite i32_small by lia. do 3 eexists. split_and!; [done | apply step_get; [done | | done] |].
      * rewrite handles_lookup. by apply live_ptr_out.
      * rewrite <- (handles_grow l (Z.of_nat (S g))). apply db_rep_insert; try done; fold l'; [lia | unfold l'; by rewrite handles_grow | lia].
    + cbn [mbind outcome_bind]. section_step. do 3 eexists.
      split_and!; [done | apply step_get_oom; by eexists | by eapply db_rep_more].
Qed.

Lemma lookup_ptr l h : 0 <= h < 2 ^ 31 ->
  (if Z.of_nat (length l) <=? u64 h then Ret 0 else deref (l !! Z.to_nat h)) = Ret (the_ptr (handles l !! Z.to_nat h)).
Proof.
  intros Hh. rewrite handles_lookup, u64_small by lia. destruct (Z.leb_spec (Z.of_nat (length l)) h).
  - by rewrite live_ptr_out by lia.
  - destruct (lookup_lt_is_Some_2 l (Z.to_nat h)) as [p E]; [lia |]. by rewrite E, (live_ptr_lookup l _ p).
Qed.

Lemma run1_other u n m db op : (forall p, op <> OpGet p) -> op_ok op -> db_rep u n m db -> Z.of_nat n < 2 ^ 29 ->
  exists a db' m', handle_run1 realloc op db = Ret (a, db') /\
    handle_step (exists z, realloc z = false) m op a m' /\ db_rep u (S n) m' db'.
Proof.
  intros Hop Hok (l & -> & Hu & -> & Hs & Hl) Hn. pose proof (db_rep_more n _ l u Hu eq_refl Hs Hl) as Hsame.
  destruct op as [p|h|h| |]; [by destruct (Hop p) | | | |]; cbn [handle_run1 op_ok] in *.
  - unfold handle_put. destruct (Z.ltb_spec h 0); [do 3 eexists; split_and!; [done | by apply step_put_neg | done] |].
    section_step. unfold max_ptrs. cbn [ptrs].
    pose proof (lookup_ptr l h ltac:(lia)) as E. destruct (Z.leb_spec (Z.of_nat (length l)) (u64 h)) as [Hge|Hlt].
    + rewrite u64_small in Hge by lia. cbn [mbind outcome_bind]. section_step.
      injection E as E. do 3 eexists. split_and!; [done | | done]. rewrite <- (delete_id (handles l) (Z.to_nat h)) at 2.
      2: { rewrite handles_lookup. apply live_ptr_out. lia. }
      rewrite <- (Z2Nat.id h) at 1 by lia. rewrite E. apply step_put.
    + rewrite E. cbn [mbind outcome_bind]. section_step. do 3 eexists. split_and!; [done | |].
      * rewrite <- (Z2Nat.id h) at 1 by lia. apply step_put.
      * exists (<[Z.to_nat h:=0]> l). rewrite length_insert, handles_clear. split_and!; try done; [| lia].
        pose proof (size_delete_le (handles l) (Z.to_nat h)). lia.
  - unfold handle_lookup. destruct (Z.ltb_spec h 0); [do 3 eexists; split_and!; [done | by apply step_lookup_neg | done] |].
    section_step. unfold max_ptrs. cbn [ptrs]. rewrite lookup_ptr by lia.
    cbn [mbind outcome_bind]. section_step. do 3 eexists. split_and!; [done | | done].
    rewrite <- (Z2Nat.id h) at 1 by lia. apply step_lookup.
  - unfold handle_foreach_put. section_step. rewrite foreach_loop_spec by lia. section_step. do 3 eexists. split_and!; [done | rewrite map_union_empty; apply step_foreach |].
    exists (replicate (length l) 0). rewrite length_replicate. split_and!; try done; [| rewrite map_size_empty; lia | lia].
    replace (replicate (length l) 0) with ([] ++ zeros (Z.of_nat (length l))) by (unfold zeros; by rewrite Nat2Z.id).
    by rewrite handles_grow.
  - unfold handle_db_destroy. section_step.
    do 3 eexists. split_and!; [done | apply step_destroy |]. exists []. split_and!; try done; rewrite ?map_size_empty; cbn; lia.
Qed.
End Run.

Lemma run1_rep realloc u n m db op : op_ok op -> db_rep u n m db -> Z.of_nat n < 2 ^ 29 ->
  exists a db' m', handle_run1 realloc op db = Ret (a, db') /\
    handle_step (exists z, realloc z = false) m op a m' /\ db_rep u (S n) m' db'.
Proof.
  intros Hok Hdb Hn. destruct op as [p|h|h| |]; [apply run1_get; [done | lia] | ..]; by eapply run1_other.
Qed.

Lemma run_rep realloc u ops : forall n m db, Forall op_ok ops -> db_rep u n m db -> Z.of_nat (n + length ops) <= 2 ^ 29 ->
  exists as_ db' m', handle_run realloc ops db = Ret (as_, db') /\
    handle_steps (exists z, realloc z = false) m ops as_ m' /\ db_rep u (n + length ops) m' db'.
Proof.
  induction ops as [|op ops IH]; intros n m db Hok Hdb Hn; cbn [handle_run length] in *.
  { exists [], db, m. rewrite Nat.add_0_r. split_and!; [done | constructor | done]. }
  apply Forall_cons in Hok as [Hop Hok]. destruct (run1_rep realloc u n m db op) as (a & db1 & m1 & -> & Hs & Hdb1); [done | done | lia |].
  cbn [mbind outcome_bind]. destruct (IH (S n) m1 db1) as (as_ & db2 & m2 & -> & Hss & Hdb2); [done | done | lia |].
  do 3 eexists. split_and!; [done | by econstructor | by rewrite Nat.add_succ_r].
Qed.

(** C22: The handle database is a finite map.  Any sequence of at most 2^29 calls, with handles
    that are C integers, on a new database, with or without a mutex, runs without an access
    outside the array, touches the array only while its mutex is held, never locks a mutex
    that is held nor unlocks a free one, and is a run of the abstract map: [handle_get] hands out the least
    handle not in use, [handle_lookup] and [handle_put] answer with the pointer stored
    under a handle and NULL for any other integer, [handle_put] frees that handle only,
    the callback sees each live handle with its pointer, and memory is the only reason
    a non-NULL pointer is refused.  The mutex is free after every call. *)
Theorem handle_db_refines realloc ops u : u <> Some true -> Forall op_ok ops -> Z.of_nat (length ops) <= 2 ^ 29 ->
  exists as_ l m, handle_run realloc ops (Some (mkDb [] u)) = Ret (as_, Some (mkDb l u)) /\
    handle_steps (exists z, realloc z = false) ∅ ops as_ m /\ m = handles l.
Proof.
  intros Hu Hok Hn. destruct (run_rep realloc u ops 0 ∅ (Some (mkDb [] u))) as (as_ & db' & m & -> & Hs & (l & -> & _ & -> & _)); [done | | done |].
  - exists []. split_and!; try done; cbn; lia.
  - by exists as_, l, (handles l).
Qed.

Definition example_ops : list handle_op := [OpGet 7; OpGet 8; OpPut 0; OpGet 9; OpForeach; OpDestroy].
Lemma handle_db_refines_witness :
  exists as_ l m, handle_run (fun _ => true) example_ops (Some (mkDb [] (Some false))) = Ret (as_, Some (mkDb l (Some false))) /\
    handle_steps (exists z : Z, (fun _ : Z => true) z = false) ∅ example_ops as_ m /\ m = handles l.
Proof.
  apply (handle_db_refines (fun _ => true) example_ops (Some false)); [done | |].
  - repeat constructor; cbn; lia.
  - vm_compute. discriminate.
Defined.
