(* ===== verification/Rpmb.v ===== *)
(** * The RPMB service of the supplicant (rpmb.c)

    Requests to the replay protected memory block of an eMMC device, and the device the
    supplicant emulates.  [MmcDevice] is what the request code uses of a device: its two
    instances are the emulation, with its state, and the Linux device over the system
    calls it makes.  A data frame is the C structure with the 16- and 32-bit fields as
    the host reads them: little-endian, so that [ntohs] and [htons] swap bytes. *)

From stdpp Require Import base numbers list strings pretty.
From S2P Require Import Prelude SkTypes Sha2 HmacSha2.

Definition swap16 (x : Z) : Z := Z.lor (Z.shiftr x 8) (u16 (Z.shiftl x 8)).
Definition ntohs (x : Z) : Z := swap16 x.
Definition htons (x : Z) : Z := swap16 x.
Definition htonl (x : Z) : Z :=
  Z.lor (Z.lor (Z.shiftr x 24) (Z.land (Z.shiftr x 8) 0xff00)) (Z.lor (Z.land (u32 (Z.shiftl x 8)) 0xff0000) (u32 (Z.shiftl x 24))).

(** ** Requests and frames *)

Record rpmb_req := mkReq { rq_cmd : Z; rq_dev_id : Z; rq_block_count : Z }.
Definition SIZEOF_RPMB_REQ : Z := 6.
Definition RPMB_CMD_DATA_REQ : Z := 0.
Definition RPMB_CMD_GET_DEV_INFO : Z := 1.

(** [struct rpmb_dev_info]: the CID, [rpmb_size_mult], [rel_wr_sec_c] and [ret_code], a byte each. *)
Definition SIZEOF_DEV_INFO : Z := 19.
Definition RPMB_CMD_GET_DEV_INFO_RET_OK : Z := 0.

Record rpmb_data_frame := mkFrm {
  fr_stuff : list Z; fr_key_mac : list Z; fr_data : list Z; fr_nonce : list Z;
  fr_write_counter : Z; fr_address : Z; fr_block_count : Z; fr_op_result : Z; fr_msg_type : Z }.

Definition RPMB_RESULT_OK : Z := 0.
Definition RPMB_RESULT_GENERAL_FAILURE : Z := 1.
Definition RPMB_RESULT_AUTH_FAILURE : Z := 2.
Definition RPMB_RESULT_ADDRESS_FAILURE : Z := 4.
Definition RPMB_MSG_TYPE_REQ_AUTH_KEY_PROGRAM : Z := 1.
Definition RPMB_MSG_TYPE_REQ_WRITE_COUNTER_VAL_READ : Z := 2.
Definition RPMB_MSG_TYPE_REQ_AUTH_DATA_WRITE : Z := 3.
Definition RPMB_MSG_TYPE_REQ_AUTH_DATA_READ : Z := 4.
Definition RPMB_MSG_TYPE_REQ_RESULT_READ : Z := 5.
Definition RPMB_MSG_TYPE_RESP_AUTH_KEY_PROGRAM : Z := 0x100.
Definition RPMB_MSG_TYPE_RESP_WRITE_COUNTER_VAL_READ : Z := 0x200.
Definition RPMB_MSG_TYPE_RESP_AUTH_DATA_WRITE : Z := 0x300.
Definition RPMB_MSG_TYPE_RESP_AUTH_DATA_READ : Z := 0x400.

Definition slice (b : list Z) (off n : nat) : list Z := take n (drop off b).

(** The structures over the bytes of shared memory. *)
Definition req_of (b : list Z) : rpmb_req := mkReq (le_val (slice b 0 2)) (le_val (slice b 2 2)) (le_val (slice b 4 2)).

Definition frame_of (b : list Z) : rpmb_data_frame :=
  mkFrm (slice b 0 196) (slice b 196 32) (slice b 228 256) (slice b 484 16)
    (le_val (slice b 500 4)) (le_val (slice b 504 2)) (le_val (slice b 506 2)) (le_val (slice b 508 2)) (le_val (slice b 510 2)).
Definition frame_bytes (f : rpmb_data_frame) : list Z :=
  fr_stuff f ++ fr_key_mac f ++ fr_data f ++ fr_nonce f ++
  le_bytes 4 (fr_write_counter f) ++ le_bytes 2 (fr_address f) ++ le_bytes 2 (fr_block_count f) ++
  le_bytes 2 (fr_op_result f) ++ le_bytes 2 (fr_msg_type f).
Fixpoint frames_of (n : nat) (b : list Z) : list rpmb_data_frame :=
  match n with
  | O => []
  | S n => frame_of b :: frames_of n (drop 512 b)
  end.
Definition frames_bytes (l : list rpmb_data_frame) : list Z := concat (frame_bytes <$> l).

Definition set_key_mac (f : rpmb_data_frame) (m : list Z) : rpmb_data_frame :=
  mkFrm (fr_stuff f) m (fr_data f) (fr_nonce f) (fr_write_counter f) (fr_address f) (fr_block_count f) (fr_op_result f) (fr_msg_type f).
Definition set_data (f : rpmb_data_frame) (d : list Z) : rpmb_data_frame :=
  mkFrm (fr_stuff f) (fr_key_mac f) d (fr_nonce f) (fr_write_counter f) (fr_address f) (fr_block_count f) (fr_op_result f) (fr_msg_type f).
Definition set_nonce (f : rpmb_data_frame) (n : list Z) : rpmb_data_frame :=
  mkFrm (fr_stuff f) (fr_key_mac f) (fr_data f) n (fr_write_counter f) (fr_address f) (fr_block_count f) (fr_op_result f) (fr_msg_type f).
Definition set_wc (f : rpmb_data_frame) (x : Z) : rpmb_data_frame :=
  mkFrm (fr_stuff f) (fr_key_mac f) (fr_data f) (fr_nonce f) x (fr_address f) (fr_block_count f) (fr_op_result f) (fr_msg_type f).
Definition set_address (f : rpmb_data_frame) (x : Z) : rpmb_data_frame :=
  mkFrm (fr_stuff f) (fr_key_mac f) (fr_data f) (fr_nonce f) (fr_write_counter f) x (fr_block_count f) (fr_op_result f) (fr_msg_type f).
Definition set_block_count (f : rpmb_data_frame) (x : Z) : rpmb_data_frame :=
  mkFrm (fr_stuff f) (fr_key_mac f) (fr_data f) (fr_nonce f) (fr_write_counter f) (fr_address f) x (fr_op_result f) (fr_msg_type f).
Definition set_op_result (f : rpmb_data_frame) (x : Z) : rpmb_data_frame :=
  mkFrm (fr_stuff f) (fr_key_mac f) (fr_data f) (fr_nonce f) (fr_write_counter f) (fr_address f) (fr_block_count f) x (fr_msg_type f).
Definition set_msg_type (f : rpmb_data_frame) (x : Z) : rpmb_data_frame :=
  mkFrm (fr_stuff f) (fr_key_mac f) (fr_data f) (fr_nonce f) (fr_write_counter f) (fr_address f) (fr_block_count f) (fr_op_result f) x.

(** ** The device interface *)

Definition MMC_SEND_EXT_CSD : Z := 8.
Definition MMC_READ_MULTIPLE_BLOCK : Z := 18.
Definition MMC_WRITE_MULTIPLE_BLOCK : Z := 25.
(** [_IOWR(MMC_BLOCK_MAJOR, 0, struct mmc_ioc_cmd)], the structure 72 bytes long. *)
Definition MMC_IOC_CMD : Z := Z.lor (Z.lor (Z.shiftl 3 30) (Z.shiftl 72 16)) (Z.shiftl 179 8).
Definition MMC_RSP_R1 : Z := Z.lor (Z.lor (Z.shiftl 1 0) (Z.shiftl 1 2)) (Z.shiftl 1 4).
Definition MMC_CMD_ADTC : Z := Z.shiftl 1 5.
Definition MMC_CMD23_ARG_REL_WR : Z := i32 (Z.shiftl 1 31).

(** The command of the MMC ioctl; [write_flag] is an [int]. *)
Record mmc_ioc_cmd := mkCmd {
  cmd_write_flag : Z; cmd_opcode : Z; cmd_flags : Z; cmd_blksz : Z; cmd_blocks : Z; cmd_postsleep : Z * Z }.

(** The memory [data_ptr] points to: frames, or the extended CSD register. *)
Inductive mmc_data := DFrames (l : list rpmb_data_frame) | DBytes (b : list Z).

Class MmcDevice (D : Type) := {
  (** The bytes of the CID written, all sixteen on success. *)
  read_cid : Z -> st D (Z * list Z);
  mmc_rpmb_fd : Z -> st D Z;
  mmc_fd : Z -> st D Z;
  close_mmc_fd : Z -> st D unit;
  IOCTL : Z -> mmc_ioc_cmd -> mmc_data -> st D (Z * mmc_data) }.

(** ** The emulated device *)

Definition EMU_RPMB_REL_WR_SEC_C : Z := 1.
Definition EMU_RPMB_SIZE_MULT : Z := 1.
Definition EMU_RPMB_SIZE_BYTES : Z := EMU_RPMB_SIZE_MULT * 128 * 1024.

Record rpmb_last_op := mkLast { lo_msg_type : Z; lo_op_result : Z; lo_address : Z }.
Record rpmb_emu := mkEmu {
  em_buf : list Z; em_size : Z; em_key : list Z; em_key_set : bool; em_nonce : list Z;
  em_write_counter : Z; em_last_op : rpmb_last_op }.
(** With the descriptor [mem_for_fd] has seen first. *)
Record emu_state := mkEmuState { es_mem : rpmb_emu; es_sfd : Z }.

Definition rpmb_emu_init : rpmb_emu :=
  mkEmu (zeros EMU_RPMB_SIZE_BYTES) EMU_RPMB_SIZE_BYTES (zeros 32) false (zeros 16) 0 (mkLast 0 0 0).
Definition emu_init : emu_state := mkEmuState rpmb_emu_init (-1).

Definition em_set_buf (m : rpmb_emu) (b : list Z) (wc : Z) : rpmb_emu :=
  mkEmu b (em_size m) (em_key m) (em_key_set m) (em_nonce m) wc (em_last_op m).
Definition em_set_key (m : rpmb_emu) (k : list Z) : rpmb_emu :=
  mkEmu (em_buf m) (em_size m) k true (em_nonce m) (em_write_counter m) (em_last_op m).
Definition em_set_nonce (m : rpmb_emu) (n : list Z) : rpmb_emu :=
  mkEmu (em_buf m) (em_size m) (em_key m) (em_key_set m) n (em_write_counter m) (em_last_op m).
Definition em_set_last (m : rpmb_emu) (l : rpmb_last_op) : rpmb_emu :=
  mkEmu (em_buf m) (em_size m) (em_key m) (em_key_set m) (em_nonce m) (em_write_counter m) l.

Definition mem_for_fd (fd : Z) (s : emu_state) : option rpmb_emu * emu_state :=
  let sfd := if es_sfd s =? -1 then fd else es_sfd s in
  let s := mkEmuState (es_mem s) sfd in
  if negb (sfd =? fd) then (None, s) else (Some (es_mem s), s).

Section Emu.
(** What the block of an uninitialised hash context holds. *)
Context (junk : list Z).

Definition hmac_update_frm (ctx : hmac_sha256_ctx) (frm : rpmb_data_frame) : outcome hmac_sha256_ctx :=
  ctx ← hmac_sha256_update ctx (fr_data frm);
  ctx ← hmac_sha256_update ctx (fr_nonce frm);
  ctx ← hmac_sha256_update ctx (le_bytes 4 (fr_write_counter frm));
  ctx ← hmac_sha256_update ctx (le_bytes 2 (fr_address frm));
  ctx ← hmac_sha256_update ctx (le_bytes 2 (fr_block_count frm));
  ctx ← hmac_sha256_update ctx (le_bytes 2 (fr_op_result frm));
  hmac_sha256_update ctx (le_bytes 2 (fr_msg_type frm)).

Fixpoint hmac_update_frms (ctx : hmac_sha256_ctx) (l : list rpmb_data_frame) : outcome hmac_sha256_ctx :=
  match l with
  | [] => Ret ctx
  | f :: l => ctx ← hmac_update_frm ctx f; hmac_update_frms ctx l
  end.

(** The loop over [nfrm] frames; reading past the frames is undefined. *)
Definition hmac_of_frames (mem : rpmb_emu) (frm : list rpmb_data_frame) (nfrm : nat) : outcome (list Z) :=
  ctx ← hmac_sha256_init junk (em_key mem);
  guard_c (nfrm <=? length frm)%nat;;
  ctx ← hmac_update_frms ctx (take nfrm frm);
  hmac_sha256_final ctx 32.

(** The frame before [frm + nfrm]: the last one, or memory before the buffer. *)
Definition last_frame (frm : list rpmb_data_frame) (nfrm : nat) : outcome rpmb_data_frame :=
  guard_c (negb (nfrm =? 0)%nat);;
  deref (frm !! (nfrm - 1)%nat).

Definition is_hmac_valid (mem : rpmb_emu) (frm : list rpmb_data_frame) (nfrm : nat) : outcome bool :=
  if negb (em_key_set mem) then Ret false
  else
    mac ← hmac_of_frames mem frm nfrm;
    f ← last_frame frm nfrm;
    Ret (bool_decide (mac = fr_key_mac f)).

Definition compute_hmac (mem : rpmb_emu) (frm : list rpmb_data_frame) (nfrm : nat) : outcome (Z * list rpmb_data_frame) :=
  if negb (em_key_set mem) then Ret (RPMB_RESULT_GENERAL_FAILURE, frm)
  else
    mac ← hmac_of_frames mem frm nfrm;
    f ← last_frame frm nfrm;
    Ret (RPMB_RESULT_OK, <[(nfrm - 1)%nat:=set_key_mac f mac]> frm).

(** The loop of a transfer, from frame [i] on, [n] frames to go. *)
Fixpoint write_loop (n i : nat) (start : Z) (mem : rpmb_emu) (frm : list rpmb_data_frame) : outcome (rpmb_emu * list rpmb_data_frame) :=
  match n with
  | O => Ret (mem, frm)
  | S n =>
      f ← deref (frm !! i);
      buf ← buf_write (em_buf mem) (start + Z.of_nat i * 256) (fr_data f);
      let wc := u32 (em_write_counter mem + 1) in
      let f := set_op_result (set_msg_type (set_wc f (htonl wc)) (htons RPMB_MSG_TYPE_RESP_AUTH_DATA_WRITE)) RPMB_RESULT_OK in
      write_loop n (S i) start (em_set_buf mem buf wc) (<[i:=f]> frm)
  end.
Fixpoint read_loop (n i : nat) (start : Z) (nfrm : Z) (mem : rpmb_emu) (frm : list rpmb_data_frame) : outcome (list rpmb_data_frame) :=
  match n with
  | O => Ret frm
  | S n =>
      f ← deref (frm !! i);
      d ← buf_read (em_buf mem) (start + Z.of_nat i * 256) 256;
      let f := set_msg_type (set_data f d) (htons RPMB_MSG_TYPE_RESP_AUTH_DATA_READ) in
      let f := set_block_count (set_address f (htons (lo_address (em_last_op mem)))) (u16 nfrm) in
      let f := set_op_result (set_nonce f (em_nonce mem)) RPMB_RESULT_OK in
      read_loop n (S i) start nfrm mem (<[i:=f]> frm)
  end.

Definition ioctl_emu_mem_transfer (mem : rpmb_emu) (frm : list rpmb_data_frame) (nfrm : Z) (to_mmc : bool)
    : outcome (Z * rpmb_emu * list rpmb_data_frame) :=
  let start := lo_address (em_last_op mem) * 256 in
  let size := nfrm * 256 in
  if (em_size mem <? start) || (em_size mem <? start + size) then Ret (RPMB_RESULT_ADDRESS_FAILURE, mem, frm)
  else
    let n := Z.to_nat nfrm in
    valid ← (if to_mmc then is_hmac_valid mem frm n else Ret true);
    if negb valid then Ret (RPMB_RESULT_AUTH_FAILURE, mem, frm)
    else if to_mmc then
      '(mem, frm) ← write_loop n 0 start mem frm;
      Ret (RPMB_RESULT_OK, mem, frm)
    else
      frm ← read_loop n 0 start nfrm mem frm;
      '(_, frm) ← compute_hmac mem frm n;
      Ret (RPMB_RESULT_OK, mem, frm).

Definition ioctl_emu_get_write_result (mem : rpmb_emu) (frm : list rpmb_data_frame) : outcome (list rpmb_data_frame) :=
  f ← deref (frm !! 0%nat);
  let f := set_op_result (set_msg_type f (htons RPMB_MSG_TYPE_RESP_AUTH_DATA_WRITE)) (lo_op_result (em_last_op mem)) in
  let f := set_wc (set_address f (htons (lo_address (em_last_op mem)))) (htonl (em_write_counter mem)) in
  '(_, frm) ← compute_hmac mem (<[0%nat:=f]> frm) 1;
  Ret frm.

Definition ioctl_emu_setkey (mem : rpmb_emu) (frm : rpmb_data_frame) : Z * rpmb_emu :=
  if em_key_set mem then (RPMB_RESULT_GENERAL_FAILURE, mem)
  else (RPMB_RESULT_OK, em_set_key mem (fr_key_mac frm)).

Definition ioctl_emu_get_keyprog_result (mem : rpmb_emu) (frm : list rpmb_data_frame) : outcome (list rpmb_data_frame) :=
  f ← deref (frm !! 0%nat);
  Ret (<[0%nat:=set_op_result (set_msg_type f (htons RPMB_MSG_TYPE_RESP_AUTH_KEY_PROGRAM)) (lo_op_result (em_last_op mem))]> frm).

Definition ioctl_emu_read_ctr (mem : rpmb_emu) (frm : list rpmb_data_frame) : outcome (list rpmb_data_frame) :=
  f ← deref (frm !! 0%nat);
  let f := set_nonce (set_wc (set_msg_type f (htons RPMB_MSG_TYPE_RESP_WRITE_COUNTER_VAL_READ)) (htonl (em_write_counter mem))) (em_nonce mem) in
  '(res, frm) ← compute_hmac mem (<[0%nat:=f]> frm) 1;
  f ← deref (frm !! 0%nat);
  Ret (<[0%nat:=set_op_result f res]> frm).

Definition ioctl_emu_set_ext_csd (ext_csd : list Z) : outcome (list Z) :=
  b ← buf_write ext_csd 168 [EMU_RPMB_SIZE_MULT];
  buf_write b 222 [EMU_RPMB_REL_WR_SEC_C].

(** [MMC_WRITE_MULTIPLE_BLOCK]: a request frame. *)
Definition emu_write_blocks (mem : rpmb_emu) (frm : list rpmb_data_frame) (blocks : Z) : outcome (rpmb_emu * list rpmb_data_frame) :=
  f ← deref (frm !! 0%nat);
  let msg_type := ntohs (fr_msg_type f) in
  let last := em_last_op mem in
  if msg_type =? RPMB_MSG_TYPE_REQ_AUTH_KEY_PROGRAM then
    let mem := em_set_last mem (mkLast msg_type (lo_op_result last) (lo_address last)) in
    let '(res, mem) := ioctl_emu_setkey mem f in
    Ret (em_set_last mem (mkLast msg_type res (lo_address last)), frm)
  else if msg_type =? RPMB_MSG_TYPE_REQ_AUTH_DATA_WRITE then
    let mem := em_set_last mem (mkLast msg_type (lo_op_result last) (ntohs (fr_address f))) in
    '(res, mem, frm) ← ioctl_emu_mem_transfer mem frm blocks true;
    Ret (em_set_last mem (mkLast msg_type res (ntohs (fr_address f))), frm)
  else if (msg_type =? RPMB_MSG_TYPE_REQ_WRITE_COUNTER_VAL_READ) || (msg_type =? RPMB_MSG_TYPE_REQ_AUTH_DATA_READ) then
    let mem := em_set_nonce mem (fr_nonce f) in
    Ret (em_set_last mem (mkLast msg_type (lo_op_result last) (ntohs (fr_address f))), frm)
  else Ret (mem, frm).

(** [MMC_READ_MULTIPLE_BLOCK]: the answer to the last request. *)
Definition emu_read_blocks (mem : rpmb_emu) (frm : list rpmb_data_frame) (blocks : Z) : outcome (rpmb_emu * list rpmb_data_frame) :=
  _ ← deref (frm !! 0%nat);
  let msg_type := lo_msg_type (em_last_op mem) in
  if msg_type =? RPMB_MSG_TYPE_REQ_AUTH_KEY_PROGRAM then
    frm ← ioctl_emu_get_keyprog_result mem frm; Ret (mem, frm)
  else if msg_type =? RPMB_MSG_TYPE_REQ_AUTH_DATA_WRITE then
    frm ← ioctl_emu_get_write_result mem frm; Ret (mem, frm)
  else if msg_type =? RPMB_MSG_TYPE_REQ_WRITE_COUNTER_VAL_READ then
    frm ← ioctl_emu_read_ctr mem frm; Ret (mem, frm)
  else if msg_type =? RPMB_MSG_TYPE_REQ_AUTH_DATA_READ then
    '(_, mem, frm) ← ioctl_emu_mem_transfer mem frm blocks false; Ret (mem, frm)
  else Ret (mem, frm).

Definition ioctl_emu (fd request : Z) (cmd : mmc_ioc_cmd) (d : mmc_data) : st emu_state (Z * mmc_data) := fun s =>
  let '(mem, s) := mem_for_fd fd s in
  if negb (request =? MMC_IOC_CMD) then Ret ((-1, d), s)
  else match mem with
  | None => Ret ((-1, d), s)
  | Some mem =>
      if cmd_opcode cmd =? MMC_SEND_EXT_CSD then
        match d with
        | DBytes b => b ← ioctl_emu_set_ext_csd b; Ret ((0, DBytes b), s)
        | DFrames _ => Undef
        end
      else if (cmd_opcode cmd =? MMC_WRITE_MULTIPLE_BLOCK) || (cmd_opcode cmd =? MMC_READ_MULTIPLE_BLOCK) then
        match d with
        | DFrames l =>
            '(mem, l) ← (if cmd_opcode cmd =? MMC_WRITE_MULTIPLE_BLOCK then emu_write_blocks mem l (cmd_blocks cmd)
                         else emu_read_blocks mem l (cmd_blocks cmd));
            Ret ((0, DFrames l), mkEmuState mem (es_sfd s))
        | DBytes _ => Undef
        end
      else Ret ((-1, d), s)
  end.

Definition test_cid : list Z := [0xfe; 0x01; 0x4e; 0x4d; 0x4d; 0x43; 0x30; 0x34; 0x47; 0x42; 0xc8; 0xf6; 0x55; 0x2a; 0x61; 0x15].

#[export] Instance emu_device : MmcDevice emu_state := {
  read_cid dev_id := mret (TEEC_SUCCESS, test_cid);
  mmc_rpmb_fd dev_id := mret 0;
  mmc_fd dev_id := mret 0;
  close_mmc_fd fd := mret tt;
  IOCTL fd := ioctl_emu fd MMC_IOC_CMD }.
End Emu.

(** ** The Linux device *)

(** The digits of [strtol] in base 16 over the bytes of a string. *)
Definition hex_digit (c : Z) : option Z :=
  if (48 <=? c) && (c <=? 57) then Some (c - 48)
  else if (65 <=? c) && (c <=? 70) then Some (c - 55)
  else if (97 <=? c) && (c <=? 102) then Some (c - 87)
  else None.
Fixpoint hex_digits (acc : Z) (s : list Z) : Z :=
  match s with
  | [] => acc
  | c :: s => match hex_digit c with Some d => hex_digits (16 * acc + d) s | None => acc end
  end.
Definition is_space (c : Z) : bool := (c =? 32) || ((9 <=? c) && (c <=? 13)).
Fixpoint skip_space (s : list Z) : list Z :=
  match s with
  | c :: r => if is_space c then skip_space r else s
  | [] => []
  end.
(** Of a string of two characters, where a prefix 0x leaves no digit. *)
Definition strtol16 (s : list Z) : Z :=
  match skip_space s with
  | c :: r => if c =? 45 then - hex_digits 0 r else if c =? 43 then hex_digits 0 r else hex_digits 0 (c :: r)
  | [] => 0
  end.

Definition O_RDONLY : Z := 0.
Definition O_RDWR : Z := 2.

(** The system calls the supplicant makes on a device. *)
Class LinuxMmc (K : Type) := {
  k_open : string -> Z -> st K Z;
  k_close : Z -> st K unit;
  (** The result of [read] and the bytes it stored. *)
  k_read : Z -> Z -> st K (Z * list Z);
  k_ioctl : Z -> mmc_ioc_cmd -> mmc_data -> st K (Z * mmc_data) }.

Section Linux.
Context {K : Type} `{LinuxMmc K}.

(** With the function-static [id] and [fd] of [mmc_rpmb_fd]. *)
Record linux_state := mkLinux { lx_id : Z; lx_fd : Z; lx_kern : K }.

Definition on_lx {A} (m : st K A) : st linux_state A := fun s =>
  '(a, k) ← m (lx_kern s);
  Ret (a, mkLinux (lx_id s) (lx_fd s) k).

Definition linux_rpmb_fd (dev_id : Z) : st linux_state Z := fun s =>
  '(ok, s) ← (if lx_fd s <? 0 then
                '(fd, k) ← k_open ("/dev/mmcblk" +:+ pretty dev_id +:+ "rpmb") O_RDWR (lx_kern s);
                if fd <? 0 then Ret (false, mkLinux (lx_id s) fd k) else Ret (true, mkLinux dev_id fd k)
              else Ret (true, s));
  if negb ok then Ret (-1, s)
  else if negb (lx_id s =? dev_id) then Ret (-1, s)
  else Ret (lx_fd s, s).

Definition linux_mmc_fd (dev_id : Z) : st linux_state Z :=
  on_lx (k_open ("/dev/mmcblk" +:+ pretty dev_id) O_RDONLY).

(** The loop of [read_cid]: [hex] keeps its bytes from one round to the next. *)
Fixpoint cid_loop (n : nat) (fd : Z) (hex : list Z) : st linux_state (Z * list Z) :=
  match n with
  | O => mret (TEEC_SUCCESS, [])
  | S n =>
      r ← on_lx (k_read fd 2);
      let '(sz, bytes) := r in
      let hex := bytes ++ drop (length bytes) hex in
      if sz <? 0 then mret (TEEC_ERROR_NO_DATA, [])
      else
        r ← cid_loop n fd hex;
        mret (r.1, u8 (strtol16 (hex)) :: r.2)
  end.

Definition linux_read_cid (dev_id : Z) : st linux_state (Z * list Z) :=
  fd ← on_lx (k_open ("/sys/class/mmc_host/mmc" +:+ pretty dev_id +:+ "/mmc" +:+ pretty dev_id +:+ ":0001/cid") O_RDONLY);
  if fd <? 0 then mret (TEEC_ERROR_ITEM_NOT_FOUND, [])
  else
    r ← cid_loop 16 fd [0; 0; 0];
    _ ← on_lx (k_close fd);
    mret r.

#[export] Instance linux_device : MmcDevice linux_state := {
  read_cid := linux_read_cid;
  mmc_rpmb_fd := linux_rpmb_fd;
  mmc_fd := linux_mmc_fd;
  close_mmc_fd fd := on_lx (k_close fd);
  IOCTL fd cmd d := on_lx (k_ioctl fd cmd d) }.
End Linux.
Arguments linux_state : clear implicits.

(** ** Requests *)

Section Requests.
Context {D : Type} `{MmcDevice D}.

Definition ext_csd_cmd : mmc_ioc_cmd := mkCmd 0 MMC_SEND_EXT_CSD (Z.lor MMC_RSP_R1 MMC_CMD_ADTC) 512 1 (0, 0).

(** [ext_csd] is the caller's buffer. *)
Definition read_ext_csd (fd : Z) (ext_csd : list Z) : st D (Z * list Z) :=
  r ← IOCTL fd ext_csd_cmd (DBytes ext_csd);
  let '(res, d) := r in
  b ← lift (match d with DBytes b => Ret b | DFrames _ => Undef end);
  mret (if res <? 0 then TEEC_ERROR_GENERIC else TEEC_SUCCESS, b).

(** One ioctl over frames. *)
Definition ioctl_frames (fd : Z) (cmd : mmc_ioc_cmd) (l : list rpmb_data_frame) : st D (Z * list rpmb_data_frame) :=
  r ← IOCTL fd cmd (DFrames l);
  let '(res, d) := r in
  l ← lift (match d with DFrames l => Ret l | DBytes _ => Undef end);
  mret (res, l).

(** The first command of a request, and those that follow it. *)
Definition req_cmd (req_nfrm : Z) : mmc_ioc_cmd :=
  mkCmd 1 MMC_WRITE_MULTIPLE_BLOCK (Z.lor MMC_RSP_R1 MMC_CMD_ADTC) 512 (u32 req_nfrm) (0, 0).
Definition rel_wr_cmd (c : mmc_ioc_cmd) : mmc_ioc_cmd :=
  mkCmd (Z.lor (cmd_write_flag c) MMC_CMD23_ARG_REL_WR) (cmd_opcode c) (cmd_flags c) (cmd_blksz c) (cmd_blocks c) (20000, 50000).
Definition result_cmd (c : mmc_ioc_cmd) : mmc_ioc_cmd :=
  mkCmd (Z.land (cmd_write_flag c) (Z.lnot MMC_CMD23_ARG_REL_WR)) (cmd_opcode c) (cmd_flags c) (cmd_blksz c) (cmd_blocks c) (0, 0).
Definition response_cmd (c : mmc_ioc_cmd) (rsp_nfrm : Z) : mmc_ioc_cmd :=
  mkCmd 0 MMC_READ_MULTIPLE_BLOCK (cmd_flags c) (cmd_blksz c) (u32 rsp_nfrm) (cmd_postsleep c).

(** [memset(rsp_frm, 0, 1)]: one byte. *)
Definition clear_first_byte (f : rpmb_data_frame) : rpmb_data_frame :=
  mkFrm (<[0%nat:=0]> (fr_stuff f)) (fr_key_mac f) (fr_data f) (fr_nonce f) (fr_write_counter f) (fr_address f)
    (fr_block_count f) (fr_op_result f) (fr_msg_type f).

(** The result and the frames of both buffers. *)
Definition rpmb_data_req (fd : Z) (req rsp : list rpmb_data_frame) : st D (Z * (list rpmb_data_frame * list rpmb_data_frame)) :=
  let req_nfrm := Z.of_nat (length req) in
  let rsp_nfrm := Z.of_nat (length rsp) in
  f0 ← lift (deref (req !! 0%nat));
  let msg_type := ntohs (fr_msg_type f0) in
  let cmd := req_cmd req_nfrm in
  if existsb (fun f => negb (fr_msg_type f =? msg_type)) (drop 1 req) then mret (TEEC_ERROR_BAD_PARAMETERS, (req, rsp))
  else if (msg_type =? RPMB_MSG_TYPE_REQ_AUTH_KEY_PROGRAM) || (msg_type =? RPMB_MSG_TYPE_REQ_AUTH_DATA_WRITE) then
    if negb (rsp_nfrm =? 1) then mret (TEEC_ERROR_BAD_PARAMETERS, (req, rsp))
    else
      let cmd := rel_wr_cmd cmd in
      r ← ioctl_frames fd cmd req;
      let '(res, req) := r in
      if res <? 0 then mret (TEEC_ERROR_GENERIC, (req, rsp))
      else
        f ← lift (deref (rsp !! 0%nat));
        let rsp := <[0%nat:=set_msg_type (clear_first_byte f) (htons RPMB_MSG_TYPE_REQ_RESULT_READ)]> rsp in
        let cmd := result_cmd cmd in
        r ← ioctl_frames fd cmd rsp;
        let '(res, rsp) := r in
        if res <? 0 then mret (TEEC_ERROR_GENERIC, (req, rsp))
        else
          r ← ioctl_frames fd (response_cmd cmd rsp_nfrm) rsp;
          let '(res, rsp) := r in
          mret (if res <? 0 then TEEC_ERROR_GENERIC else TEEC_SUCCESS, (req, rsp))
  else if (msg_type =? RPMB_MSG_TYPE_REQ_WRITE_COUNTER_VAL_READ) || (msg_type =? RPMB_MSG_TYPE_REQ_AUTH_DATA_READ) then
    if (msg_type =? RPMB_MSG_TYPE_REQ_WRITE_COUNTER_VAL_READ) && negb (rsp_nfrm =? 1) then mret (TEEC_ERROR_BAD_PARAMETERS, (req, rsp))
    else if negb (req_nfrm =? 1) then mret (TEEC_ERROR_BAD_PARAMETERS, (req, rsp))
    else
      r ← ioctl_frames fd cmd req;
      let '(res, req) := r in
      if res <? 0 then mret (TEEC_ERROR_GENERIC, (req, rsp))
      else
        r ← ioctl_frames fd (response_cmd cmd rsp_nfrm) rsp;
        let '(res, rsp) := r in
        mret (if res <? 0 then TEEC_ERROR_GENERIC else TEEC_SUCCESS, (req, rsp))
  else mret (TEEC_ERROR_GENERIC, (req, rsp)).

(** [info] is the response buffer; [ext_csd] the uninitialised local. *)
Definition rpmb_get_dev_info (ext_csd : list Z) (dev_id : Z) (info : list Z) : st D (Z * list Z) :=
  r ← read_cid dev_id;
  let '(res, cid) := r in
  info ← lift (buf_write info 0 cid);
  if negb (res =? TEEC_SUCCESS) then mret (res, info)
  else
    fd ← mmc_fd dev_id;
    if fd <? 0 then mret (TEEC_ERROR_BAD_PARAMETERS, info)
    else
      r ← read_ext_csd fd ext_csd;
      let '(res, csd) := r in
      info ← (if negb (res =? TEEC_SUCCESS) then mret info
              else
                c ← lift (buf_read csd 222 1);
                m ← lift (buf_read csd 168 1);
                lift (buf_write info 16 (m ++ c ++ [RPMB_CMD_GET_DEV_INFO_RET_OK])));
      _ ← close_mmc_fd fd;
      mret (res, info).

(** Over the request and response buffers, which do not overlap. *)
Definition rpmb_process_request_unlocked (junk_csd : list Z) (req rsp : list Z) : st D (Z * (list Z * list Z)) :=
  let req_size := Z.of_nat (length req) in
  let rsp_size := Z.of_nat (length rsp) in
  if req_size <? SIZEOF_RPMB_REQ then mret (TEEC_ERROR_BAD_PARAMETERS, (req, rsp))
  else
    let sreq := req_of req in
    if rq_cmd sreq =? RPMB_CMD_DATA_REQ then
      let req_nfrm := Z.to_nat ((req_size - SIZEOF_RPMB_REQ) / 512) in
      let rsp_nfrm := Z.to_nat (rsp_size / 512) in
      fd ← mmc_rpmb_fd (rq_dev_id sreq);
      if fd <? 0 then mret (TEEC_ERROR_BAD_PARAMETERS, (req, rsp))
      else
        r ← rpmb_data_req fd (frames_of req_nfrm (drop 6 req)) (frames_of rsp_nfrm rsp);
        let '(res, (qf, pf)) := r in
        mret (res, (take 6 req ++ frames_bytes qf ++ drop (6 + 512 * req_nfrm) req, frames_bytes pf ++ drop (512 * rsp_nfrm) rsp))
    else if rq_cmd sreq =? RPMB_CMD_GET_DEV_INFO then
      if negb (req_size =? SIZEOF_RPMB_REQ) || negb (rsp_size =? SIZEOF_DEV_INFO) then mret (TEEC_ERROR_BAD_PARAMETERS, (req, rsp))
      else
        r ← rpmb_get_dev_info junk_csd (rq_dev_id sreq) rsp;
        let '(res, rsp) := r in
        mret (res, (req, rsp))
    else mret (TEEC_ERROR_BAD_PARAMETERS, (req, rsp)).

(** Under [rpmb_mutex]: the flag says whether it is held. *)
Definition rpmb_process_request (junk_csd : list Z) (req rsp : list Z) : st (bool * D) (Z * (list Z * list Z)) := fun '(held, d) =>
  guard_c (negb held);;
  '(r, d) ← rpmb_process_request_unlocked junk_csd req rsp d;
  Ret (r, (false, d)).
End Requests.

(** The supplicant built with the emulated device. *)
Definition emu_process_request (junk junk_csd : list Z) (req rsp : list Z) : st (bool * emu_state) (Z * (list Z * list Z)) :=
  rpmb_process_request (H := emu_device junk) junk_csd req rsp.

(** A sequence of requests, each with its response buffer: the results. *)
Fixpoint emu_run (junk junk_csd : list Z) (reqs : list (list Z * list Z)) : st (bool * emu_state) (list Z) :=
  match reqs with
  | [] => mret []
  | (req, rsp) :: reqs =>
      r ← emu_process_request junk junk_csd req rsp;
      rs ← emu_run junk junk_csd reqs;
      mret (r.1 :: rs)
  end.
