(* ===== verification/RpmbTheorems.v ===== *)
(** * Theorems on the RPMB service

    The wire format of a frame, the authentication of the emulated device, its key that is
    written once, and what a reader gets back. *)

From stdpp Require Import base numbers list strings.
From S2P Require Import Prelude SkTypes Sha2Spec Sha2 HmacSha2 Rpmb.

(** ** Frames and bytes *)

Definition u16_ok (x : Z) : Prop := 0 <= x < 2 ^ 16.
Definition frame_ok (f : rpmb_data_frame) : Prop :=
  length (fr_stuff f) = 196%nat /\ length (fr_key_mac f) = 32%nat /\ length (fr_data f) = 256%nat /\ length (fr_nonce f) = 16%nat /\
  0 <= fr_write_counter f < 2 ^ 32 /\ u16_ok (fr_address f) /\ u16_ok (fr_block_count f) /\ u16_ok (fr_op_result f) /\ u16_ok (fr_msg_type f).

(** For a constant, by evaluation. *)
Lemma u16_const x : (0 <=? x) && (x <? 2 ^ 16) = true -> u16_ok x.
Proof. intros [H1 H2]%andb_true_iff. unfold u16_ok. lia. Qed.

Lemma length_frame_bytes f : frame_ok f -> length (frame_bytes f) = 512%nat.
Proof. intros (?&?&?&?&_). unfold frame_bytes. rewrite !length_app, !length_le_bytes. lia. Qed.

Lemma slice_app_l (a b : list Z) off n : (off + n <= length a)%nat -> slice (a ++ b) off n = slice a off n.
Proof. intros Hl. unfold slice. rewrite drop_app_le, take_app_le by (rewrite ?length_drop; lia). done. Qed.
Lemma slice_skip (a b : list Z) la off n : length a = la -> (la <= off)%nat -> slice (a ++ b) off n = slice b (off - la) n.
Proof. intros <- Hl. unfold slice. by rewrite drop_app_ge. Qed.
Lemma slice_all (a : list Z) n : length a = n -> slice a 0 n = a.
Proof. intros Hl. unfold slice. rewrite drop_0. apply take_ge. lia. Qed.
Lemma slice_head (a b : list Z) n : length a = n -> slice (a ++ b) 0 n = a.
Proof. intros Hl. rewrite slice_app_l by lia. by apply slice_all. Qed.

(** Skip the parts of a frame before the one read, then take it. *)
Ltac slices :=
  repeat (erewrite slice_skip by first [eassumption | apply length_le_bytes | lia]; cbn [Nat.sub]);
  first [rewrite slice_head by (rewrite ?length_le_bytes; assumption || reflexivity)
        | rewrite slice_all by (rewrite ?length_le_bytes; assumption || reflexivity)].

Lemma le_val_small n z : 0 <= z < 2 ^ (8 * Z.of_nat n) -> le_val (le_bytes n z) = z.
Proof. intros Hz. by rewrite le_val_bytes, Z.mod_small. Qed.

Lemma frame_of_bytes f r : frame_ok f -> frame_of (frame_bytes f ++ r) = f.
Proof.
  intros Hf. unfold frame_of. rewrite !slice_app_l by (rewrite length_frame_bytes by done; lia).
  destruct Hf as (H1 & H2 & H3 & H4 & H5 & H6 & H7 & H8 & H9). unfold u16_ok in *.
  destruct f as [s k d n wc a bc o t]; cbn [fr_stuff fr_key_mac fr_data fr_nonce fr_write_counter fr_address fr_block_count fr_op_result fr_msg_type] in *.
  unfold frame_bytes. cbn [fr_stuff fr_key_mac fr_data fr_nonce fr_write_counter fr_address fr_block_count fr_op_result fr_msg_type].
  f_equal.
  all: slices; try done; apply le_val_small; cbn; lia.
Qed.

Lemma frames_of_bytes l : forall r, Forall frame_ok l -> frames_of (length l) (frames_bytes l ++ r) = l.
Proof.
  induction l as [|f l IH]; intros r Hl; [done |]. apply Forall_cons in Hl as [Hf Hl].
  unfold frames_bytes. cbn [length frames_of fmap list_fmap concat]. rewrite <- app_assoc, frame_of_bytes by done. f_equal.
  rewrite drop_app_length' by (by rewrite length_frame_bytes). by apply IH.
Qed.

Lemma slice_bytes (b : list Z) off n : Forall is_byte b -> Forall is_byte (slice b off n).
Proof. intros Hb. by apply Forall_take, Forall_drop. Qed.
Lemma length_slice (b : list Z) off n : (off + n <= length b)%nat -> length (slice b off n) = n.
Proof. intros Hl. unfold slice. len. Qed.
Lemma le_val_slice (b : list Z) off n : Forall is_byte b -> (off + n <= length b)%nat -> (0 <= le_val (slice b off n) < 2 ^ (8 * Z.of_nat n))%Z.
Proof. intros Hb Hl. pose proof (le_val_bound _ (slice_bytes b off n Hb)) as H. by rewrite length_slice in H. Qed.

Lemma frame_of_ok b : Forall is_byte b -> (512 <= length b)%nat -> frame_ok (frame_of b).
Proof.
  intros Hb Hl. unfold frame_ok, u16_ok, frame_of. cbn [fr_stuff fr_key_mac fr_data fr_nonce fr_write_counter fr_address fr_block_count fr_op_result fr_msg_type].
  split_and!; try (apply length_slice; lia);
    match goal with |- context [le_val (slice b ?o ?n)] => pose proof (le_val_slice b o n Hb ltac:(lia)) end; cbn in *; lia.
Qed.
Lemma frames_of_ok n : forall b, Forall is_byte b -> (512 * n <= length b)%nat -> Forall frame_ok (frames_of n b).
Proof.
  induction n as [|n IH]; intros b Hb Hl; cbn [frames_of]; constructor; [apply frame_of_ok; [done | lia] |].
  apply IH; [by apply Forall_drop | rewrite length_drop; lia].
Qed.
Lemma length_frames_of n : forall b, length (frames_of n b) = n.
Proof. induction n as [|n IH]; intros b; cbn; [done | by rewrite IH]. Qed.

Lemma swap16_range x : u16_ok x -> u16_ok (swap16 x) /\ swap16 (swap16 x) = x.
Proof.
  unfold u16_ok, swap16, u16. intros Hx. rewrite !Z.shiftr_div_pow2, !Z.shiftl_mul_pow2 by lia. change (2 ^ 8) with 256. change (2 ^ 16) with 65536 in *.
  assert (E : forall a b, 0 <= a < 256 -> 0 <= b < 256 -> Z.lor a (b * 256) = a + b * 256).
  { intros a b Ha Hb. rewrite <- Z.add_lor_land. replace (Z.land a (b * 256)) with 0; [lia |]. symmetry.
    apply Z.bits_inj'. intros k Hk. rewrite Z.land_spec, Z.bits_0. destruct (Z_lt_dec k 8).
    - change 256 with (2 ^ 8). rewrite Z.mul_pow2_bits_low by lia. apply andb_false_r.
    - rewrite <- (Z.mod_small a (2 ^ 8)), Z.mod_pow2_bits_high by (change (2 ^ 8) with 256; lia). done. }
  assert (D : x * 256 mod 65536 = (x mod 256) * 256) by (rewrite (Z.mul_comm x), (Z.mul_comm (x mod 256)); apply (Z.mul_mod_distr_l x 256 256); lia).
  pose proof (Z.mod_pos_bound x 256 ltac:(lia)). assert (0 <= x / 256 < 256) by (split; [apply Z.div_pos; lia | apply Z.div_lt_upper_bound; lia]).
  rewrite D, E by lia. split; [lia |].
  assert (D1 : (x / 256 + x mod 256 * 256) / 256 = x mod 256) by (rewrite Z.div_add by lia; rewrite Z.div_small by lia; lia).
  assert (D2 : (x / 256 + x mod 256 * 256) * 256 mod 65536 = x / 256 * 256).
  { rewrite (Z.mul_comm _ 256). change 65536 with (256 * 256). rewrite Z.mul_mod_distr_l, Z.mod_add, Z.mod_small by lia. lia. }
  rewrite D1, D2, E by lia. pose proof (Z.div_mod x 256). lia.
Qed.

Lemma lor_range n a b : 0 <= n -> 0 <= a < 2 ^ n -> 0 <= b < 2 ^ n -> 0 <= Z.lor a b < 2 ^ n.
Proof.
  intros Hn Ha Hb. replace (Z.lor a b) with (Z.lor a b mod 2 ^ n); [apply Z.mod_pos_bound; lia |].
  rewrite <- !Z.land_ones, Z.land_lor_distr_l, !Z.land_ones, !Z.mod_small by lia. done.
Qed.
Lemma land_range a m : 0 <= m < 2 ^ 32 -> 0 <= Z.land a m < 2 ^ 32.
Proof.
  intros Hm. replace (Z.land a m) with (Z.land a m mod 2 ^ 32); [apply Z.mod_pos_bound; lia |].
  rewrite <- (Z.land_ones _ 32), <- Z.land_assoc, Z.land_ones, (Z.mod_small m) by lia. done.
Qed.
Lemma htonl_range x : 0 <= x < 2 ^ 32 -> 0 <= htonl x < 2 ^ 32.
Proof.
  intros Hx. unfold htonl. assert (Hs : 0 <= Z.shiftr x 24 < 2 ^ 32).
  { rewrite Z.shiftr_div_pow2 by lia. split; [apply Z.div_pos; lia | apply Z.div_lt_upper_bound; lia]. }
  repeat apply lor_range; try lia; try (apply land_range; lia); apply u32_bound.
Qed.

(** ** Authentication *)

(** The 284 bytes of a frame its code covers. *)
Definition mac_bytes (f : rpmb_data_frame) : list Z :=
  fr_data f ++ fr_nonce f ++ le_bytes 4 (fr_write_counter f) ++ le_bytes 2 (fr_address f) ++ le_bytes 2 (fr_block_count f) ++
  le_bytes 2 (fr_op_result f) ++ le_bytes 2 (fr_msg_type f).
Definition frames_mac (key : list Z) (l : list rpmb_data_frame) : list Z := Fips.hmac key (concat (mac_bytes <$> l)).

(** Frames the holder of the key authenticated: the code is in the last one. *)
Definition authentic (key : list Z) (l : list rpmb_data_frame) : Prop :=
  fr_key_mac <$> last l = Some (frames_mac key l).

Lemma length_mac_bytes f : frame_ok f -> length (mac_bytes f) = 284%nat.
Proof. intros (?&?&?&?&_). unfold mac_bytes. rewrite !length_app, !length_le_bytes. lia. Qed.
Lemma length_macs l : Forall frame_ok l -> length (concat (mac_bytes <$> l)) = (284 * length l)%nat.
Proof.
  induction 1 as [|f l Hf Hl IH]; [done |]. cbn [fmap list_fmap concat length]. rewrite length_app, length_mac_bytes, IH by done. lia.
Qed.

(** The updates a frame makes are those of its pieces. *)
Definition mac_pieces (f : rpmb_data_frame) : list (list Z) :=
  [fr_data f; fr_nonce f; le_bytes 4 (fr_write_counter f); le_bytes 2 (fr_address f); le_bytes 2 (fr_block_count f);
   le_bytes 2 (fr_op_result f); le_bytes 2 (fr_msg_type f)].
Lemma updates_app a : forall ctx b, hmac_sha256_updates ctx (a ++ b) = (c ← hmac_sha256_updates ctx a; hmac_sha256_updates c b).
Proof.
  induction a as [|p a IH]; intros ctx b; [done |]. cbn [app hmac_sha256_updates].
  destruct (hmac_sha256_update ctx p); cbn [mbind outcome_bind]; [apply IH | done].
Qed.
Lemma bind_ret {A} (m : outcome A) : (m ≫= fun x => Ret x) = m.
Proof. by destruct m. Qed.
Lemma update_frm_pieces ctx f : hmac_update_frm ctx f = hmac_sha256_updates ctx (mac_pieces f).
Proof.
  unfold hmac_update_frm, mac_pieces. cbn [hmac_sha256_updates].
  repeat match goal with |- (?m ≫= _) = (?m ≫= _) => destruct m; cbn [mbind outcome_bind]; try done end.
  by rewrite bind_ret.
Qed.
Lemma update_frms_pieces l : forall ctx, hmac_update_frms ctx l = hmac_sha256_updates ctx (concat (mac_pieces <$> l)).
Proof.
  induction l as [|f l IH]; intros ctx; [done |]. cbn [hmac_update_frms fmap list_fmap concat]. rewrite updates_app, update_frm_pieces.
  destruct (hmac_sha256_updates ctx (mac_pieces f)); cbn [mbind outcome_bind]; [apply IH | done].
Qed.
Lemma concat_pieces l : concat (concat (mac_pieces <$> l)) = concat (mac_bytes <$> l).
Proof.
  induction l as [|f l IH]; [done |]. cbn [fmap list_fmap concat]. rewrite concat_app, IH. done.
Qed.

(** The emulated device between requests. *)
Definition emu_ok (m : rpmb_emu) : Prop :=
  length (em_buf m) = Z.to_nat EMU_RPMB_SIZE_BYTES /\ em_size m = EMU_RPMB_SIZE_BYTES /\ length (em_key m) = 32%nat /\
  length (em_nonce m) = 16%nat /\ 0 <= em_write_counter m < 2 ^ 32 /\ u16_ok (lo_op_result (em_last_op m)) /\ u16_ok (lo_address (em_last_op m)).

Section Device.
Context (junk : list Z) (Hjunk : length junk = 128%nat).

Lemma hmac_of_frames_spec m l n : emu_ok m -> Forall frame_ok l -> (n <= length l)%nat -> (n <= 512)%nat ->
  hmac_of_frames junk m l n = Ret (frames_mac (em_key m) (take n l)).
Proof.
  intros (_ & _ & Hk & _) Hl Hn Hlim. unfold hmac_of_frames. rewrite (proj2 (Nat.leb_le _ _) Hn).
  assert (Ht : length (concat (mac_bytes <$> take n l)) = (284 * n)%nat) by (rewrite length_macs by (by apply Forall_take); len).
  unfold frames_mac. rewrite <- concat_pieces in *. rewrite <- (hmac_pieces_spec junk).
  - unfold hmac_pieces. destruct (hmac_sha256_init junk (em_key m)); cbn [mbind outcome_bind guard_c]; [| done]. by rewrite update_frms_pieces.
  - done.
  - rewrite Hk. done.
  - rewrite Ht. unfold SHA256_LIMIT. lia.
Qed.

Lemma last_frame_spec l n : (0 < n <= length l)%nat -> exists f, last_frame l n = Ret f /\ last (take n l) = Some f /\ l !! (n - 1)%nat = Some f.
Proof.
  intros Hn. destruct (lookup_lt_is_Some_2 l (n - 1)) as [f E]; [lia |]. exists f. unfold last_frame.
  rewrite (proj2 (Nat.eqb_neq _ _)) by lia. cbn [negb guard_c mbind outcome_bind]. rewrite E. split_and!; [done | | done].
  rewrite last_lookup, length_take, Nat.min_l by lia. rewrite lookup_take_lt by lia. by replace (pred n) with (n - 1)%nat by lia.
Qed.

Lemma is_hmac_valid_spec m l n : emu_ok m -> Forall frame_ok l -> (0 < n <= length l)%nat -> (n <= 512)%nat ->
  exists b, is_hmac_valid junk m l n = Ret b /\ (b = true <-> em_key_set m = true /\ authentic (em_key m) (take n l)).
Proof.
  intros Hm Hl Hn Hlim. unfold is_hmac_valid. destruct (em_key_set m); cbn [negb]; [| exists false; by split; [| split; [| intros [? _]]]].
  rewrite hmac_of_frames_spec by (done || lia). destruct (last_frame_spec l n Hn) as (f & -> & El & _). cbn [mbind outcome_bind].
  eexists. split; [done |]. rewrite bool_decide_eq_true. unfold authentic. rewrite El. cbn. split; [intros ->; done | by intros [_ [= ->]]].
Qed.

Lemma frames_mac_length key l : length (frames_mac key l) = 32%nat.
Proof. apply sha256_spec_length. Qed.
Lemma set_key_mac_ok f k : frame_ok f -> length k = 32%nat -> frame_ok (set_key_mac f k).
Proof. intros (?&?&?&?&?) Hk. unfold frame_ok. cbn. split_and!; tauto. Qed.

Lemma compute_hmac_spec m l n : emu_ok m -> Forall frame_ok l -> (0 < n <= length l)%nat -> (n <= 512)%nat ->
  exists r l', compute_hmac junk m l n = Ret (r, l') /\ u16_ok r /\ Forall frame_ok l' /\ length l' = length l /\
    (em_key_set m = true -> exists f, r = RPMB_RESULT_OK /\ l !! (n - 1)%nat = Some f /\
       l' = <[(n - 1)%nat := set_key_mac f (frames_mac (em_key m) (take n l))]> l).
Proof.
  intros Hm Hl Hn Hlim. unfold compute_hmac. destruct (em_key_set m) eqn:Ek; cbn [negb].
  - rewrite hmac_of_frames_spec by (done || lia). destruct (last_frame_spec l n Hn) as (f & -> & El & Elk). cbn [mbind outcome_bind].
    do 2 eexists. split_and!; [done | done | | by rewrite length_insert | intros _; by exists f].
    apply Forall_insert; [done |]. apply set_key_mac_ok; [by eapply Forall_lookup_1 | apply frames_mac_length].
  - do 2 eexists. split_and!; try done. 
Qed.

(** Setting a field to a value of its width keeps a frame well formed. *)
Ltac frm_ok :=
  match goal with H : frame_ok ?f |- frame_ok _ =>
    destruct H as (?&?&?&?&?&?&?&?&?); unfold frame_ok;
    cbn [fr_stuff fr_key_mac fr_data fr_nonce fr_write_counter fr_address fr_block_count fr_op_result fr_msg_type
         set_key_mac set_data set_nonce set_wc set_address set_block_count set_op_result set_msg_type];
    split_and!; try assumption; try lia; try (apply u16_const; reflexivity); try (apply htonl_range; assumption)
  end.

Lemma length_datas l : Forall frame_ok l -> length (concat (fr_data <$> l)) = (256 * length l)%nat.
Proof.
  induction 1 as [|f l Hf Hl IH]; [done |]. destruct Hf as (_ & _ & Hd & _). cbn [fmap list_fmap concat length].
  rewrite length_app, IH. lia.
Qed.

Lemma write_loop_spec n : forall i start m l, (i + n = length l)%nat -> Forall frame_ok l -> emu_ok m ->
  0 <= start -> start + 256 * Z.of_nat (i + n) <= EMU_RPMB_SIZE_BYTES ->
  exists buf wc l', write_loop n i start m l = Ret (em_set_buf m buf wc, l') /\
    emu_ok (em_set_buf m buf wc) /\ Forall frame_ok l' /\ length l' = length l /\
    buf = splice (em_buf m) (Z.to_nat start + 256 * i) (concat (fr_data <$> drop i l)) /\ wc = u32 (em_write_counter m + Z.of_nat n).
Proof.
  induction n as [|n IH]; intros i start m l Hi Hl Hm Hs Hb; cbn [write_loop].
  { exists (em_buf m), (em_write_counter m), l. rewrite drop_ge by lia. cbn [fmap list_fmap concat]. rewrite splice_nil, Z.add_0_r.
    destruct Hm as (?&?&?&?&?&?&?). rewrite u32_small by lia. by destruct m. }
  destruct (lookup_lt_is_Some_2 l i) as [f E]; [lia |]. rewrite E. cbn [deref mbind outcome_bind].
  assert (Hf : frame_ok f) by (by eapply Forall_lookup_1). assert (Hd : length (fr_data f) = 256%nat) by apply Hf.
  assert (Hbuf : length (em_buf m) = Z.to_nat EMU_RPMB_SIZE_BYTES) by apply Hm.
  rewrite buf_write_ret by lia. cbn [mbind outcome_bind]. set (wc := u32 (em_write_counter m + 1)). pose proof (u32_bound (em_write_counter m + 1)) as Hwc. fold wc in Hwc.
  set (f' := set_op_result _ _). assert (Hf' : frame_ok f') by (subst f'; frm_ok).
  set (m' := em_set_buf m _ wc). assert (Hm' : emu_ok m').
  { destruct Hm as (?&?&?&?&?&?&?). unfold m', emu_ok. cbn. split_and!; try done; try lia. rewrite length_splice; lia. }
  destruct (IH (S i) start m' (<[i:=f']> l)) as (buf & wc' & l' & -> & Hok & Hl' & Hlen & -> & ->);
    [rewrite length_insert; lia | by apply Forall_insert | done | done | lia |].
  rewrite length_insert in Hlen. do 3 eexists. split; [reflexivity |]. split; [apply Hok |]. split_and!; [done | done | |].
  - unfold m'. cbn [em_set_buf em_buf]. rewrite drop_insert_lt by lia. rewrite (drop_S l f i E). cbn [fmap list_fmap concat].
    replace (Z.to_nat (start + Z.of_nat i * 256)) with (Z.to_nat start + 256 * i)%nat by lia.
    replace (Z.to_nat start + 256 * S i)%nat with (Z.to_nat start + 256 * i + length (fr_data f))%nat by lia.
    rewrite splice_adjacent; [done |]. rewrite length_datas by (by apply Forall_drop). rewrite length_drop. lia.
  - unfold m', wc. cbn [em_set_buf em_write_counter]. unfold u32. rewrite Zplus_mod_idemp_l. f_equal. lia.
Qed.

Lemma read_loop_spec n : forall i start m l, (i + n = length l)%nat -> Forall frame_ok l -> emu_ok m ->
  0 <= start -> start + 256 * Z.of_nat (i + n) <= EMU_RPMB_SIZE_BYTES ->
  exists l', read_loop n i start (Z.of_nat (length l)) m l = Ret l' /\ Forall frame_ok l' /\ length l' = length l /\
    take i l' = take i l /\
    forall j f, (i <= j)%nat -> l' !! j = Some f -> fr_data f = slice (em_buf m) (Z.to_nat start + 256 * j) 256 /\ fr_nonce f = em_nonce m /\
      fr_address f = htons (lo_address (em_last_op m)) /\ fr_op_result f = RPMB_RESULT_OK /\ fr_msg_type f = htons RPMB_MSG_TYPE_RESP_AUTH_DATA_READ.
Proof.
  induction n as [|n IH]; intros i start m l Hi Hl Hm Hs Hb; cbn [read_loop].
  { exists l. split_and!; try done. intros j f Hj Ej. apply lookup_lt_Some in Ej. lia. }
  destruct (lookup_lt_is_Some_2 l i) as [f E]; [lia |]. rewrite E. cbn [deref mbind outcome_bind].
  assert (Hf : frame_ok f) by (by eapply Forall_lookup_1). 
  pose proof Hm as (Hbuf & _ & _ & Hn & _ & _ & Ha). rewrite buf_read_ret by lia. cbn [mbind outcome_bind].
  replace (Z.to_nat (start + Z.of_nat i * 256)) with (Z.to_nat start + 256 * i)%nat by lia. change (Z.to_nat 256) with 256%nat.
  fold (slice (em_buf m) (Z.to_nat start + 256 * i) 256). set (f' := set_op_result _ _).
  assert (Hf' : frame_ok f').
  { subst f'. pose proof (proj1 (swap16_range _ Ha)). frm_ok; [apply length_slice; lia | apply (u16_bound (Z.of_nat (length l)))]. }
  destruct (IH (S i) start m (<[i:=f']> l)) as (l' & E' & Hl' & Hlen & Ht & Hall); [rewrite length_insert; lia | by apply Forall_insert | done | done | lia |].
  rewrite length_insert in E', Hlen. rewrite E'. exists l'. split_and!; [done | done | done | |].
  - apply (f_equal (take i)) in Ht. rewrite !take_take, Nat.min_l in Ht by lia. by rewrite Ht, take_insert_ge by lia.
  - intros j g Hj Ej. destruct (decide (j = i)) as [->|Hne]; [| apply Hall; [lia | done]].
    apply (f_equal (fun x => x !! i)) in Ht. rewrite !lookup_take_lt, Ej, list_lookup_insert_eq in Ht by lia. injection Ht as ->. done.
Qed.

(** What a transfer of the frames [l] to address [a] does. *)
Definition in_partition (a : Z) (l : list rpmb_data_frame) : Prop := a * 256 + 256 * Z.of_nat (length l) <= EMU_RPMB_SIZE_BYTES.
Definition write_frames (a : Z) (l : list rpmb_data_frame) (m : rpmb_emu) : rpmb_emu :=
  em_set_buf m (splice (em_buf m) (Z.to_nat (a * 256)) (concat (fr_data <$> l))) (u32 (em_write_counter m + Z.of_nat (length l))).

Lemma write_transfer_spec m l : emu_ok m -> Forall frame_ok l -> (0 < length l)%nat ->
  let a := lo_address (em_last_op m) in
  exists r m' l', ioctl_emu_mem_transfer junk m l (Z.of_nat (length l)) true = Ret (r, m', l') /\ emu_ok m' /\ u16_ok r /\
    Forall frame_ok l' /\ length l' = length l /\
    ((r <> RPMB_RESULT_OK /\ m' = m /\ ~ (in_partition a l /\ em_key_set m = true /\ authentic (em_key m) l)) \/
     (r = RPMB_RESULT_OK /\ in_partition a l /\ em_key_set m = true /\ authentic (em_key m) l /\ m' = write_frames a l m)).
Proof.
  intros Hm Hl Hpos a. pose proof Hm as (Hbuf & Hsz & _ & _ & _ & _ & Ha). fold a in Ha. unfold u16_ok in Ha. unfold ioctl_emu_mem_transfer. fold a.
  rewrite Hsz. unfold in_partition. destruct (Z.ltb_spec EMU_RPMB_SIZE_BYTES (a * 256 + Z.of_nat (length l) * 256)) as [Hout|Hin].
  { rewrite orb_true_r. do 3 eexists. split; [done |]. split; [done |]. split; [by apply u16_const |]. do 2 (split; [done |]). left. split_and!; [done | done | lia]. }
  rewrite (proj2 (Z.ltb_ge _ _)) by lia. cbn [orb]. rewrite Nat2Z.id.
  assert (Hlim : (length l <= 512)%nat) by (unfold EMU_RPMB_SIZE_BYTES, EMU_RPMB_SIZE_MULT in *; lia).
  destruct (is_hmac_valid_spec m l (length l) Hm Hl) as (b & -> & Hb); [lia | lia |]. rewrite firstn_all in Hb. cbn [mbind outcome_bind].
  destruct b; cbn [negb].
  - destruct (proj1 Hb eq_refl) as [Hk Hauth]. destruct (write_loop_spec (length l) 0 (a * 256) m l) as (buf & wc & l' & -> & Hok & Hl' & Hlen & Eb & ->);
      [lia | done | done | lia | lia |]. rewrite Nat.mul_0_r, Nat.add_0_r, drop_0 in Eb. cbn [mbind outcome_bind]. subst buf.
    do 3 eexists. split; [done |]. split; [done |]. split; [by apply u16_const |]. do 2 (split; [done |]). right. split_and!; try done. lia.
  - do 3 eexists. split; [done |]. split; [done |]. split; [by apply u16_const |]. do 2 (split; [done |]). left. split_and!; [done | done |]. intros (_ & Hk & Hauth).
    by discriminate (proj2 Hb (conj Hk Hauth)).
Qed.

(** How a request of the frames [l] may change the device. *)
Definition emu_step (l : list rpmb_data_frame) (m m' : rpmb_emu) : Prop :=
  (em_key_set m = true -> em_key m' = em_key m /\ em_key_set m' = true) /\
  ((em_buf m' = em_buf m /\ em_write_counter m' = em_write_counter m) \/
   exists f, l !! 0%nat = Some f /\ ntohs (fr_msg_type f) = RPMB_MSG_TYPE_REQ_AUTH_DATA_WRITE /\
     in_partition (ntohs (fr_address f)) l /\ em_key_set m = true /\ authentic (em_key m) l /\
     em_buf m' = em_buf (write_frames (ntohs (fr_address f)) l m) /\
     em_write_counter m' = em_write_counter (write_frames (ntohs (fr_address f)) l m)).

Lemma emu_ok_last m o : emu_ok m -> u16_ok (lo_op_result o) -> u16_ok (lo_address o) -> emu_ok (em_set_last m o).
Proof. intros (?&?&?&?&?&?&?) Hr Ha. unfold emu_ok. by cbn. Qed.

Lemma write_blocks_spec m l f : emu_ok m -> Forall frame_ok l -> l !! 0%nat = Some f ->
  exists m' l', emu_write_blocks junk m l (Z.of_nat (length l)) = Ret (m', l') /\ emu_ok m' /\ Forall frame_ok l' /\ length l' = length l /\ emu_step l m m'.
Proof.
  intros Hm Hl E. unfold emu_write_blocks. rewrite E. cbn [deref mbind outcome_bind].
  assert (Hf : frame_ok f) by (by eapply Forall_lookup_1). pose proof Hf as (_ & Hmac & _ & Hnon & _ & Ha & _).
  apply swap16_range, proj1 in Ha. fold (ntohs (fr_address f)) in Ha. pose proof Hm as (Hb & Hs & Hk & Hn & Hwc & Hor & Hoa).
  repeat match goal with |- context [if ?c then _ else _] => destruct c eqn:? end.
  - unfold ioctl_emu_setkey. cbn [em_set_last em_key_set]. destruct (em_key_set m) eqn:Ek.
    + do 2 eexists. split; [done |]. split; [apply emu_ok_last; [by apply emu_ok_last | by apply u16_const | done] |].
      do 2 (split; [done |]). split; [by cbn | by left].
    + do 2 eexists. split_and!; [done | | done | done |].
      * apply emu_ok_last; [| by apply u16_const | done]. unfold emu_ok. by cbn.
      * split; [by rewrite Ek | by left].
  - set (m1 := em_set_last m _). assert (Hm1 : emu_ok m1) by (by apply emu_ok_last).
    destruct (write_transfer_spec m1 l Hm1 Hl) as (r & m' & l' & -> & Hm' & Hr & Hl' & Hlen & Hcase); [by apply lookup_lt_Some in E |].
    cbn [mbind outcome_bind]. do 2 eexists. split_and!; [done | by apply emu_ok_last | done | done |].
    destruct Hcase as [(_ & -> & _)|(_ & Hin & Hks & Hau & ->)]; (split; [by cbn |]); [by left | right].
    exists f. split_and!; try done. by apply Z.eqb_eq.
  - do 2 eexists. split_and!; [done | | done | done | split; [by cbn | by left]]. unfold emu_ok. by cbn.
  - do 2 eexists. split_and!; [done | done | done | done | split; [done | by left]].
Qed.

Lemma read_blocks_spec m l : emu_ok m -> Forall frame_ok l -> (0 < length l)%nat ->
  exists l', emu_read_blocks junk m l (Z.of_nat (length l)) = Ret (m, l') /\ Forall frame_ok l' /\ length l' = length l.
Proof.
  intros Hm Hl Hpos. pose proof Hm as (Hb & Hs & Hk & Hn & Hwc & Hor & Hoa).
  destruct l as [|f l0] eqn:El; [cbn in Hpos; lia |]. rewrite <- El in *. clear El. unfold emu_read_blocks.
  destruct (lookup_lt_is_Some_2 l 0 Hpos) as [g E]. rewrite E. cbn [deref mbind outcome_bind].
  assert (Hg : frame_ok g) by (by eapply Forall_lookup_1). pose proof (proj1 (swap16_range _ Hoa)) as Hsw.
  repeat match goal with |- context [if ?c then _ else _] => destruct c eqn:? end.
  - unfold ioctl_emu_get_keyprog_result. rewrite E. cbn [deref mbind outcome_bind]. eexists. split_and!; [done | | by rewrite length_insert].
    apply Forall_insert; [done |]. frm_ok.
  - unfold ioctl_emu_get_write_result. rewrite E. cbn [deref mbind outcome_bind]. set (g' := set_wc _ _).
    assert (Hg' : frame_ok g') by (unfold g'; frm_ok).
    destruct (compute_hmac_spec m (<[0%nat:=g']> l) 1 Hm) as (r & l' & -> & _ & Hl' & Hlen & _); [by apply Forall_insert | rewrite length_insert; lia | lia |].
    rewrite length_insert in Hlen. cbn [mbind outcome_bind]. by exists l'.
  - unfold ioctl_emu_read_ctr. rewrite E. cbn [deref mbind outcome_bind]. set (g' := set_nonce _ _).
    assert (Hg' : frame_ok g') by (unfold g'; frm_ok).
    destruct (compute_hmac_spec m (<[0%nat:=g']> l) 1 Hm) as (r & l' & -> & Hr & Hl' & Hlen & _); [by apply Forall_insert | rewrite length_insert; lia | lia |].
    rewrite length_insert in Hlen. cbn [mbind outcome_bind]. destruct (lookup_lt_is_Some_2 l' 0) as [h Eh]; [lia |]. rewrite Eh.
    cbn [deref mbind outcome_bind]. eexists. split_and!; [done | | by rewrite length_insert]. apply Forall_insert; [done |].
    assert (Hh : frame_ok h) by (by eapply Forall_lookup_1). frm_ok.
  - unfold ioctl_emu_mem_transfer. rewrite Hs. destruct (Z.ltb_spec EMU_RPMB_SIZE_BYTES (lo_address (em_last_op m) * 256 + Z.of_nat (length l) * 256)) as [Hout|Hin].
    { rewrite orb_true_r. cbn [mbind outcome_bind]. by exists l. }
    unfold u16_ok in Hoa. rewrite (proj2 (Z.ltb_ge _ _)) by lia. cbn [orb mbind outcome_bind negb]. rewrite Nat2Z.id.
    destruct (read_loop_spec (length l) 0 (lo_address (em_last_op m) * 256) m l) as (l1 & -> & Hl1 & Hlen1 & _); [lia | done | done | lia | lia |].
    cbn [mbind outcome_bind]. destruct (compute_hmac_spec m l1 (length l) Hm Hl1) as (r & l' & -> & _ & Hl' & Hlen & _); [lia | |].
    { unfold EMU_RPMB_SIZE_BYTES, EMU_RPMB_SIZE_MULT in *. lia. }
    cbn [mbind outcome_bind]. exists l'. split_and!; [done | done | lia].
  - by exists l.
Qed.

(** ** Requests on the emulated device *)

#[local] Instance emu : MmcDevice emu_state := emu_device junk.

Definition emu_state_ok (s : emu_state) : Prop := emu_ok (es_mem s) /\ (es_sfd s = -1 \/ es_sfd s = 0).

Lemma ioctl_write cmd l s : emu_state_ok s -> cmd_opcode cmd = MMC_WRITE_MULTIPLE_BLOCK ->
  ioctl_frames 0 cmd l s = ('(m, l) ← emu_write_blocks junk (es_mem s) l (cmd_blocks cmd); Ret ((0, l), mkEmuState m 0)).
Proof.
  intros [_ Hfd] Hop. unfold ioctl_frames. cbn [IOCTL emu emu_device]. unfold mbind at 1, st_bind, ioctl_emu, mem_for_fd.
  destruct s as [m sfd]. cbn [es_sfd es_mem] in *. rewrite Hop. destruct Hfd as [-> | ->]; cbn -[emu_write_blocks]; by destruct (emu_write_blocks _ _ _ _) as [[]|].
Qed.
Lemma ioctl_read cmd l s : emu_state_ok s -> cmd_opcode cmd = MMC_READ_MULTIPLE_BLOCK ->
  ioctl_frames 0 cmd l s = ('(m, l) ← emu_read_blocks junk (es_mem s) l (cmd_blocks cmd); Ret ((0, l), mkEmuState m 0)).
Proof.
  intros [_ Hfd] Hop. unfold ioctl_frames. cbn [IOCTL emu emu_device]. unfold mbind at 1, st_bind, ioctl_emu, mem_for_fd.
  destruct s as [m sfd]. cbn [es_sfd es_mem] in *. rewrite Hop. destruct Hfd as [-> | ->]; cbn -[emu_read_blocks]; by destruct (emu_read_blocks _ _ _ _) as [[]|].
Qed.

Lemma send_request cmd l f s : emu_state_ok s -> Forall frame_ok l -> l !! 0%nat = Some f ->
  cmd_opcode cmd = MMC_WRITE_MULTIPLE_BLOCK -> cmd_blocks cmd = Z.of_nat (length l) ->
  exists l' s', ioctl_frames 0 cmd l s = Ret ((0, l'), s') /\ emu_state_ok s' /\ Forall frame_ok l' /\ length l' = length l /\
    emu_step l (es_mem s) (es_mem s').
Proof.
  intros Hs Hl E Hop Hb. rewrite ioctl_write by done. rewrite Hb.
  destruct (write_blocks_spec (es_mem s) l f) as (m & l' & -> & Hm & Hl' & Hlen & Hst); [apply Hs | done | done |].
  do 2 eexists. split; [done |]. split; [split; [done | by right] | done].
Qed.

Lemma read_response cmd l s : emu_state_ok s -> Forall frame_ok l -> (0 < length l)%nat ->
  cmd_opcode cmd = MMC_READ_MULTIPLE_BLOCK -> cmd_blocks cmd = Z.of_nat (length l) ->
  exists l', ioctl_frames 0 cmd l s = Ret ((0, l'), mkEmuState (es_mem s) 0) /\ Forall frame_ok l' /\ length l' = length l.
Proof.
  intros Hs Hl Hp Hop Hb. rewrite ioctl_read by done. rewrite Hb.
  destruct (read_blocks_spec (es_mem s) l) as (l' & -> & Hl' & Hlen); [apply Hs | done | done |]. by exists l'.
Qed.

(** A result request changes nothing. *)
Lemma result_request cmd l f s : emu_state_ok s -> l !! 0%nat = Some f -> fr_msg_type f = htons RPMB_MSG_TYPE_REQ_RESULT_READ ->
  cmd_opcode cmd = MMC_WRITE_MULTIPLE_BLOCK ->
  ioctl_frames 0 cmd l s = Ret ((0, l), mkEmuState (es_mem s) 0).
Proof. intros Hs E Ht Hop. rewrite ioctl_write by done. unfold emu_write_blocks. rewrite E. cbn [deref mbind outcome_bind]. by rewrite Ht. Qed.

Lemma step_same l m : emu_step l m m.
Proof. split; [done | by left]. Qed.

Lemma result_frame_ok f : frame_ok f -> frame_ok (set_msg_type (clear_first_byte f) (htons RPMB_MSG_TYPE_REQ_RESULT_READ)).
Proof.
  intros (?&?&?&?&?&?&?&?&?). unfold frame_ok. cbn [set_msg_type clear_first_byte fr_stuff fr_key_mac fr_data fr_nonce fr_write_counter fr_address fr_block_count fr_op_result fr_msg_type].
  rewrite length_insert. repeat (split; [assumption |]). by apply u16_const.
Qed.

Lemma data_req_spec req rsp s : emu_state_ok s -> Forall frame_ok req -> Forall frame_ok rsp ->
  0 < Z.of_nat (length req) < 2 ^ 32 -> 0 < Z.of_nat (length rsp) < 2 ^ 32 ->
  exists res req' rsp' s', rpmb_data_req 0 req rsp s = Ret ((res, (req', rsp')), s') /\ emu_state_ok s' /\ emu_step req (es_mem s) (es_mem s') /\
    Forall frame_ok rsp' /\ length rsp' = length rsp.
Proof.
  intros Hs Hq Hp Hqn Hpn. destruct (lookup_lt_is_Some_2 req 0) as [f E]; [lia |]. unfold rpmb_data_req.
  rewrite (st_run _ _ s f s) by (unfold lift; by rewrite E).
  assert (Hbad : forall r : Z, exists res req' rsp' s', Ret ((r, (req, rsp)), s) = Ret ((res, (req', rsp')), s') /\ emu_state_ok s' /\
    emu_step req (es_mem s) (es_mem s') /\ Forall frame_ok rsp' /\ length rsp' = length rsp).
  { intros r. do 4 eexists. split; [done |]. split_and!; (done || apply step_same). }
  destruct (existsb _ _); [apply Hbad |]. destruct (_ || _).
  - destruct (Z.eqb_spec (Z.of_nat (length rsp)) 1) as [H1|]; cbn [negb]; [| apply Hbad].
    destruct (send_request (rel_wr_cmd (req_cmd (Z.of_nat (length req)))) req f s) as (req' & s' & E1 & Hs' & Hq' & Hlq & Hst);
      [done | done | done | done | apply u32_small; lia |].
    rewrite (st_run _ _ _ _ _ E1). cbn [Z.ltb Z.compare]. destruct (lookup_lt_is_Some_2 rsp 0) as [g Eg]; [lia |].
    rewrite (st_run _ _ s' g s') by (unfold lift; by rewrite Eg). set (rsp1 := <[0%nat:=_]> rsp). set (c2 := result_cmd _).
    assert (Hp1 : Forall frame_ok rsp1) by (apply Forall_insert; [done | apply result_frame_ok; by apply (Forall_lookup_1 _ _ _ _ Hp Eg)]).
    assert (Hl1 : length rsp1 = length rsp) by apply length_insert.
    rewrite (st_run _ _ s' (0, rsp1) (mkEmuState (es_mem s') 0))
      by (eapply result_request; [done | apply list_lookup_insert_eq; lia | done | done]).
    cbn [Z.ltb Z.compare].
    destruct (read_response (response_cmd c2 (Z.of_nat (length rsp))) rsp1 (mkEmuState (es_mem s') 0)) as (rsp2 & E2 & Hp2 & Hl2);
      [split; [apply Hs' | by right] | done | lia | done | cbn [cmd_blocks response_cmd]; rewrite u32_small by lia; lia |].
    rewrite (st_run _ _ _ _ _ E2). do 4 eexists. split; [done |]. split; [split; [apply Hs' | by right] |]. split; [exact Hst |]. split; [done | lia].
  - destruct (_ || _); [| apply Hbad]. destruct (_ && _); [apply Hbad |].
    destruct (Z.eqb_spec (Z.of_nat (length req)) 1) as [H1|]; cbn [negb]; [| apply Hbad].
    destruct (send_request (req_cmd (Z.of_nat (length req))) req f s) as (req' & s' & E1 & Hs' & Hq' & Hlq & Hst);
      [done | done | done | done | apply u32_small; lia |].
    rewrite (st_run _ _ _ _ _ E1). cbn [Z.ltb Z.compare].
    destruct (read_response (response_cmd (req_cmd (Z.of_nat (length req))) (Z.of_nat (length rsp))) rsp s') as (rsp2 & E2 & Hp2 & Hl2);
      [done | done | lia | done | cbn [cmd_blocks response_cmd]; rewrite u32_small by lia; lia |].
    rewrite (st_run _ _ _ _ _ E2). do 4 eexists. split; [done |]. split; [split; [apply Hs' | by right] |]. split; [exact Hst |]. split; [done | lia].
Qed.

(** ** A write and a read, frame by frame *)

Lemma single_frame_mac m (g : rpmb_data_frame) : emu_ok m -> frame_ok g -> em_key_set m = true ->
  compute_hmac junk m [g] 1 = Ret (RPMB_RESULT_OK, [set_key_mac g (frames_mac (em_key m) [g])]).
Proof.
  intros Hm Hg Hk. destruct (compute_hmac_spec m [g] 1 Hm) as (r & l & E & _ & _ & _ & H); [by constructor | cbn; lia | lia |].
  destruct (H Hk) as (f & -> & Ef & ->). cbn in Ef. injection Ef as ->. done.
Qed.
Lemma authentic_single k g : authentic k [set_key_mac g (frames_mac k [g])].
Proof. done. Qed.

(** An authenticated write of one frame. *)
Lemma write_one f g s : let m := es_mem s in let a := ntohs (fr_address f) in
  emu_state_ok s -> frame_ok f -> frame_ok g -> ntohs (fr_msg_type f) = RPMB_MSG_TYPE_REQ_AUTH_DATA_WRITE ->
  in_partition a [f] -> em_key_set m = true -> authentic (em_key m) [f] ->
  exists req' h s', rpmb_data_req 0 [f] [g] s = Ret ((TEEC_SUCCESS, (req', [h])), s') /\ emu_state_ok s' /\
    frame_ok h /\ authentic (em_key m) [h] /\ fr_op_result h = RPMB_RESULT_OK /\ fr_msg_type h = htons RPMB_MSG_TYPE_RESP_AUTH_DATA_WRITE /\
    fr_write_counter h = htonl (u32 (em_write_counter m + 1)) /\
    em_key (es_mem s') = em_key m /\ em_key_set (es_mem s') = true /\
    em_buf (es_mem s') = splice (em_buf m) (Z.to_nat (a * 256)) (fr_data f) /\
    em_write_counter (es_mem s') = u32 (em_write_counter m + 1).
Proof.
  intros m a Hs Hf Hg Ht Hin Hks Hau. assert (Hm : emu_ok m) by apply Hs. pose proof Hm as (Hb & Hsz & Hkl & Hn & Hwc & Hor & Hoa).
  assert (Ha : u16_ok a) by (apply swap16_range, Hf). set (m1 := em_set_last m (mkLast 3 (lo_op_result (em_last_op m)) a)).
  assert (Hm1 : emu_ok m1) by (by apply emu_ok_last).
  destruct (write_transfer_spec m1 [f] Hm1) as (r & m2 & req' & E & Hm2 & Hr & _ & _ & Hcase); [by constructor | cbn; lia |].
  destruct Hcase as [(_ & _ & Hno)|(-> & _ & _ & _ & ->)]; [by destruct Hno |]. change (lo_address (em_last_op m1)) with a in *.
  set (m3 := em_set_last (write_frames a [f] m1) (mkLast 3 RPMB_RESULT_OK a)). set (s3 := mkEmuState m3 0).
  assert (Hm3 : emu_ok m3) by (apply emu_ok_last; [done | by apply u16_const | done]).
  assert (Hs3 : emu_state_ok s3) by (split; [done | by right]).
  set (g1 := set_msg_type (clear_first_byte g) (htons RPMB_MSG_TYPE_REQ_RESULT_READ)). assert (Hg1 : frame_ok g1) by (by apply result_frame_ok).
  set (h0 := set_wc (set_address (set_op_result (set_msg_type g1 (htons RPMB_MSG_TYPE_RESP_AUTH_DATA_WRITE)) RPMB_RESULT_OK) (htons a))
               (htonl (u32 (em_write_counter m + 1)))).
  pose proof (u32_bound (em_write_counter m + 1)) as Hw1. pose proof (proj1 (swap16_range a Ha)) as Hsa.
  assert (Hh0 : frame_ok h0) by (unfold h0; frm_ok).
  exists req', (set_key_mac h0 (frames_mac (em_key m) [h0])), s3.
  assert (E1 : ioctl_frames 0 (rel_wr_cmd (req_cmd 1)) [f] s = Ret ((0, req'), s3)).
  { rewrite ioctl_write by done. unfold emu_write_blocks. cbn [lookup list_lookup deref mbind outcome_bind]. rewrite Ht.
    change (cmd_blocks (rel_wr_cmd (req_cmd 1))) with (Z.of_nat (length [f])). cbn [Z.eqb Pos.eqb RPMB_MSG_TYPE_REQ_AUTH_KEY_PROGRAM RPMB_MSG_TYPE_REQ_AUTH_DATA_WRITE].
    change (em_set_last (es_mem s) _) with m1. rewrite E. done. }
  assert (E2 : forall c, cmd_opcode c = MMC_READ_MULTIPLE_BLOCK -> ioctl_frames 0 c [g1] s3 = Ret ((0, [set_key_mac h0 (frames_mac (em_key m) [h0])]), s3)).
  { intros c Hc. rewrite ioctl_read by done. unfold emu_read_blocks. cbn [lookup list_lookup deref mbind outcome_bind].
    change (lo_msg_type (em_last_op (es_mem s3))) with 3. cbn [Z.eqb Pos.eqb RPMB_MSG_TYPE_REQ_AUTH_KEY_PROGRAM RPMB_MSG_TYPE_REQ_AUTH_DATA_WRITE].
    unfold ioctl_emu_get_write_result. cbn [lookup list_lookup deref mbind outcome_bind]. change (<[0%nat:=_]> [g1]) with [h0].
    change (es_mem s3) with m3. rewrite single_frame_mac by done. done. }
  split.
  { unfold rpmb_data_req. rewrite (st_run _ _ s f s) by done. rewrite Ht.
    cbn [existsb drop length Z.of_nat Pos.of_succ_nat Z.eqb Pos.eqb orb negb RPMB_MSG_TYPE_REQ_AUTH_KEY_PROGRAM RPMB_MSG_TYPE_REQ_AUTH_DATA_WRITE].
    change (Z.of_nat 1) with 1. cbn [Z.eqb Pos.eqb negb].
    rewrite (st_run _ _ _ _ _ E1). cbn [Z.ltb Z.compare]. rewrite (st_run _ _ s3 g s3) by done. change (<[0%nat:=_]> [g]) with [g1].
    rewrite (st_run _ _ s3 (0, [g1]) s3) by (eapply result_request; done). cbn [Z.ltb Z.compare].
    set (c := response_cmd _ _). rewrite (st_run _ _ _ _ _ (E2 c eq_refl)). done. }
  split; [done |]. split; [apply set_key_mac_ok; [done | apply frames_mac_length] |]. split; [apply authentic_single |].
  split_and!; try done. cbn. by rewrite app_nil_r.
Qed.

(** A read of one frame. *)
Lemma read_one f g s : let m := es_mem s in let a := ntohs (fr_address f) in
  emu_state_ok s -> frame_ok f -> frame_ok g -> ntohs (fr_msg_type f) = RPMB_MSG_TYPE_REQ_AUTH_DATA_READ ->
  in_partition a [f] -> em_key_set m = true ->
  exists h s', rpmb_data_req 0 [f] [g] s = Ret ((TEEC_SUCCESS, ([f], [h])), s') /\ frame_ok h /\
    fr_data h = slice (em_buf m) (Z.to_nat (a * 256)) 256 /\ fr_nonce h = fr_nonce f /\ fr_address h = fr_address f /\
    fr_op_result h = RPMB_RESULT_OK /\ fr_msg_type h = htons RPMB_MSG_TYPE_RESP_AUTH_DATA_READ /\ authentic (em_key m) [h].
Proof.
  intros m a Hs Hf Hg Ht Hin Hks. assert (Hm : emu_ok m) by apply Hs. pose proof Hm as (Hb & Hsz & Hkl & Hn & Hwc & Hor & Hoa).
  destruct (swap16_range (fr_address f)) as [Ha Ea]; [apply Hf |]. fold (ntohs (fr_address f)) in Ha, Ea. fold a in Ha, Ea.
  set (m1 := em_set_last (em_set_nonce m (fr_nonce f)) (mkLast 4 (lo_op_result (em_last_op m)) a)). set (s1 := mkEmuState m1 0).
  assert (Hm1 : emu_ok m1) by (apply emu_ok_last; [unfold emu_ok; cbn; split_and!; (done || apply Hf || lia) | done | done]).
  assert (Hs1 : emu_state_ok s1) by (split; [done | by right]).
  assert (E1 : ioctl_frames 0 (req_cmd 1) [f] s = Ret ((0, [f]), s1)).
  { rewrite ioctl_write by done. unfold emu_write_blocks. cbn [lookup list_lookup deref mbind outcome_bind]. rewrite Ht. done. }
  unfold in_partition in Hin. cbn [length] in Hin. unfold u16_ok in Ha.
  destruct (read_loop_spec 1 0 (a * 256) m1 [g]) as (l' & Er & Hl' & Hlen & _ & Hall); [done | by constructor | done | lia | lia |].
  destruct l' as [|h0 [|]]; [done | | done]. destruct (Hall 0%nat h0) as (Hd & Hno & Had & Hre & Hty); [lia | done |].
  apply Forall_cons in Hl' as [Hh0 _]. set (h := set_key_mac h0 (frames_mac (em_key m) [h0])).
  assert (E2 : ioctl_frames 0 (response_cmd (req_cmd 1) 1) [g] s1 = Ret ((0, [h]), s1)).
  { rewrite ioctl_read by done. unfold emu_read_blocks. cbn [lookup list_lookup deref mbind outcome_bind].
    change (lo_msg_type (em_last_op (es_mem s1))) with 4. cbn [Z.eqb Pos.eqb RPMB_MSG_TYPE_REQ_AUTH_KEY_PROGRAM RPMB_MSG_TYPE_REQ_AUTH_DATA_WRITE
      RPMB_MSG_TYPE_REQ_WRITE_COUNTER_VAL_READ RPMB_MSG_TYPE_REQ_AUTH_DATA_READ].
    change (cmd_blocks (response_cmd (req_cmd 1) 1)) with 1. unfold ioctl_emu_mem_transfer. change (es_mem s1) with m1.
    change (em_size m1) with (em_size m). change (lo_address (em_last_op m1)) with a. rewrite Hsz.
    rewrite !(proj2 (Z.ltb_ge _ _)) by lia. cbn [orb mbind outcome_bind negb]. change (Z.to_nat 1) with 1%nat.
    change (Z.of_nat (length [g])) with 1 in Er. rewrite Er. cbn [mbind outcome_bind]. by rewrite single_frame_mac. }
  exists h, s1. split.
  { unfold rpmb_data_req. rewrite (st_run _ _ s f s) by done. rewrite Ht.
    cbn [existsb drop length Z.eqb Pos.eqb orb andb negb RPMB_MSG_TYPE_REQ_AUTH_KEY_PROGRAM RPMB_MSG_TYPE_REQ_AUTH_DATA_WRITE
      RPMB_MSG_TYPE_REQ_WRITE_COUNTER_VAL_READ RPMB_MSG_TYPE_REQ_AUTH_DATA_READ].
    change (Z.of_nat 1) with 1. cbn [Z.eqb Pos.eqb negb]. rewrite (st_run _ _ _ _ _ E1). cbn [Z.ltb Z.compare].
    rewrite (st_run _ _ _ _ _ E2). done. }
  split; [apply set_key_mac_ok; [done | apply frames_mac_length] |]. rewrite Nat.mul_0_r, Nat.add_0_r in Hd.
  unfold h. cbn [fr_data fr_nonce fr_address fr_op_result fr_msg_type set_key_mac]. split_and!; try done.
  by rewrite Had.
Qed.

(** ** Requests as bytes *)

Context (csd : list Z) (Hcsd : length csd = 512%nat).

Definition req_frames (req : list Z) : list rpmb_data_frame := frames_of (Z.to_nat ((Z.of_nat (length req) - 6) / 512)) (drop 6 req).

(** Bytes, within 4 GiB, and for a data request at least one frame each way. *)
Definition request_ok (req rsp : list Z) : Prop :=
  Forall is_byte req /\ Forall is_byte rsp /\ Z.of_nat (length req) < 2 ^ 32 /\ Z.of_nat (length rsp) < 2 ^ 32 /\
  ((6 <= length req)%nat -> rq_cmd (req_of req) = RPMB_CMD_DATA_REQ -> (518 <= length req)%nat /\ (512 <= length rsp)%nat).

Lemma req_frames_ok req rsp : request_ok req rsp -> (518 <= length req)%nat ->
  Forall frame_ok (req_frames req) /\ 0 < Z.of_nat (length (req_frames req)) < 2 ^ 32.
Proof.
  intros (Hq & _ & Hlim & _) Hl. unfold req_frames. rewrite length_frames_of. pose proof (Z.div_mod (Z.of_nat (length req) - 6) 512 ltac:(lia)) as Hd.
  pose proof (Z.mod_pos_bound (Z.of_nat (length req) - 6) 512 ltac:(lia)) as Hm. split; [| lia].
  apply frames_of_ok; [by apply Forall_drop |]. rewrite length_drop. lia.
Qed.
Lemma rsp_frames_ok (rsp : list Z) : Forall is_byte rsp -> (512 <= length rsp)%nat -> Z.of_nat (length rsp) < 2 ^ 32 ->
  let l := frames_of (Z.to_nat (Z.of_nat (length rsp) / 512)) rsp in Forall frame_ok l /\ 0 < Z.of_nat (length l) < 2 ^ 32.
Proof.
  intros Hp Hl Hlim. cbv zeta. rewrite length_frames_of. pose proof (Z.div_mod (Z.of_nat (length rsp)) 512 ltac:(lia)) as Hd.
  pose proof (Z.mod_pos_bound (Z.of_nat (length rsp)) 512 ltac:(lia)) as Hm. split; [| lia].
  apply frames_of_ok; [done | lia].
Qed.

Lemma dev_info_spec dev_id (info : list Z) s : emu_state_ok s -> length info = 19%nat ->
  exists r s', rpmb_get_dev_info csd dev_id info s = Ret (r, s') /\ emu_state_ok s' /\ es_mem s' = es_mem s /\
    r = (TEEC_SUCCESS, test_cid ++ [EMU_RPMB_SIZE_MULT; EMU_RPMB_REL_WR_SEC_C; RPMB_CMD_GET_DEV_INFO_RET_OK]).
Proof.
  intros Hs Hi. unfold rpmb_get_dev_info. rewrite (st_run _ _ s (TEEC_SUCCESS, test_cid) s) by done.
  rewrite (st_run _ _ s (splice info 0 test_cid) s) by (unfold lift; rewrite buf_write_ret; [done | lia | rewrite Hi; cbn; lia]).
  change (negb (TEEC_SUCCESS =? TEEC_SUCCESS)) with false. cbv iota. rewrite (st_run _ _ s 0 s) by done. cbn [Z.ltb Z.compare].
  set (c1 := splice csd 168 [EMU_RPMB_SIZE_MULT]). assert (Hc1 : length c1 = 512%nat) by (unfold c1; rewrite length_splice; cbn; lia).
  set (c2 := splice c1 222 [EMU_RPMB_REL_WR_SEC_C]). assert (Hc2 : length c2 = 512%nat) by (unfold c2; rewrite length_splice; cbn; lia).
  assert (Eset : ioctl_emu_set_ext_csd csd = Ret c2).
  { unfold ioctl_emu_set_ext_csd. rewrite buf_write_ret by (cbn; lia). cbn [mbind outcome_bind]. rewrite buf_write_ret; [done | lia | ].
    change (splice csd _ _) with c1. rewrite Hc1. cbn. lia. }
  assert (Er : read_ext_csd 0 csd s = Ret ((TEEC_SUCCESS, c2), mkEmuState (es_mem s) 0)).
  { destruct s as [m sfd], Hs as [_ Hfd]. cbn [es_sfd es_mem] in *. unfold read_ext_csd. rewrite (st_run _ _ _ (0, DBytes c2) (mkEmuState m 0)); [done |].
    change (IOCTL 0) with (ioctl_emu junk 0 MMC_IOC_CMD). unfold ioctl_emu, mem_for_fd. cbn [es_sfd].
    destruct Hfd as [-> | ->]; cbn -[ioctl_emu_set_ext_csd]; by rewrite Eset. }
  rewrite (st_run _ _ _ _ _ Er). change (negb (TEEC_SUCCESS =? TEEC_SUCCESS)) with false.
  assert (E222 : buf_read c2 222 1 = Ret [EMU_RPMB_REL_WR_SEC_C]).
  { rewrite buf_read_ret by lia. f_equal. change (Z.to_nat 1) with (length [EMU_RPMB_REL_WR_SEC_C]). unfold c2. apply splice_same. rewrite Hc1. cbn. lia. }
  assert (E168 : buf_read c2 168 1 = Ret [EMU_RPMB_SIZE_MULT]).
  { rewrite buf_read_ret by lia. f_equal. unfold c2. rewrite splice_other by (rewrite ?Hc1; cbn; lia).
    change (Z.to_nat 1) with (length [EMU_RPMB_SIZE_MULT]). unfold c1. apply splice_same. rewrite Hcsd. cbn. lia. }
  cbv iota. set (info1 := splice info 0 test_cid). assert (Hi1 : length info1 = 19%nat) by (unfold info1; rewrite length_splice; rewrite ?Hi; cbn; lia).
  set (bytes := [EMU_RPMB_SIZE_MULT] ++ [EMU_RPMB_REL_WR_SEC_C] ++ [RPMB_CMD_GET_DEV_INFO_RET_OK]).
  set (s1 := mkEmuState (es_mem s) 0). rewrite (st_run _ _ s1 (splice info1 16 bytes) s1).
  2: { rewrite (st_run _ _ s1 [EMU_RPMB_REL_WR_SEC_C] s1) by (unfold lift; by rewrite E222).
       rewrite (st_run _ _ s1 [EMU_RPMB_SIZE_MULT] s1) by (unfold lift; by rewrite E168).
       unfold lift. rewrite buf_write_ret; [done | lia | rewrite Hi1; cbn; lia]. }
  rewrite (st_run _ _ s1 tt s1) by done. do 2 eexists. split; [done |]. split; [split; [apply Hs | by right] |]. split; [done |].
  f_equal. unfold info1, splice. change (length bytes) with 3%nat. change (length test_cid) with 16%nat. rewrite take_0. cbn [app Nat.add].
  rewrite take_app_length' by done. rewrite (drop_ge (test_cid ++ _)) by (rewrite length_app, length_drop, Hi; cbn; lia).
  by rewrite app_nil_r.
Qed.

(** What a whole request may do to the device: nothing unless it is a data request. *)
Definition request_step (req : list Z) (m m' : rpmb_emu) : Prop :=
  emu_step (req_frames req) m m' /\ (rq_cmd (req_of req) <> RPMB_CMD_DATA_REQ -> m' = m).

Lemma process_spec req rsp s : emu_state_ok s -> request_ok req rsp ->
  exists r s', emu_process_request junk csd req rsp (false, s) = Ret (r, (false, s')) /\ emu_state_ok s' /\
    request_step req (es_mem s) (es_mem s').
Proof.
  intros Hs Hok. pose proof Hok as (Hq & Hp & Hql & Hpl & Hfit).
  assert (Hsame : forall (r : Z * (list Z * list Z)) s1, emu_state_ok s1 -> es_mem s1 = es_mem s -> exists r' s', Ret (r, (false, s1)) = Ret (r', (false, s')) /\ emu_state_ok s' /\
    request_step req (es_mem s) (es_mem s')).
  { intros r s1 H1 E. exists r, s1. unfold request_step. rewrite E. split; [done |]. split; [done |]. split; [apply step_same | done]. }
  unfold emu_process_request, rpmb_process_request. cbn [negb guard_c mbind outcome_bind]. unfold rpmb_process_request_unlocked.
  destruct (Z.ltb_spec (Z.of_nat (length req)) SIZEOF_RPMB_REQ) as [Hlt|Hge]; [by apply Hsame |]. unfold SIZEOF_RPMB_REQ in *.
  destruct (Z.eqb_spec (rq_cmd (req_of req)) RPMB_CMD_DATA_REQ) as [Ec|Ec].
  - destruct Hfit as [Hq518 Hp512]; [lia | done |]. rewrite (st_run _ _ s 0 s) by done. cbn [Z.ltb Z.compare].
    destruct (req_frames_ok req rsp Hok Hq518) as [Hf Hn]. destruct (rsp_frames_ok rsp Hp Hp512 Hpl) as [Hf' Hn'].
    destruct (data_req_spec _ _ s Hs Hf Hf' Hn Hn') as (res & q' & p' & s' & E & Hs' & Hst & _). unfold req_frames in E.
    rewrite (st_run _ _ _ _ _ E). do 2 eexists. split; [done |]. split; [done |]. split; [done | done].
  - destruct (_ =? RPMB_CMD_GET_DEV_INFO); [| by apply Hsame]. destruct (_ || _) eqn:Esz; [by apply Hsame |].
    apply orb_false_iff in Esz as [_ Esz]. apply negb_false_iff, Z.eqb_eq in Esz. unfold SIZEOF_DEV_INFO in Esz.
    destruct (dev_info_spec (rq_dev_id (req_of req)) rsp s Hs) as (r & s' & E & Hs' & Hm & ->); [lia |].
    rewrite (st_run _ _ _ _ _ E). by apply Hsame.
Qed.

Lemma run_forged k reqs : forall s, emu_state_ok s -> em_key_set (es_mem s) = true -> em_key (es_mem s) = k ->
  Forall (fun r => request_ok r.1 r.2 /\ ~ authentic k (req_frames r.1)) reqs ->
  exists rs s', emu_run junk csd reqs (false, s) = Ret (rs, (false, s')) /\ emu_state_ok s' /\
    em_key_set (es_mem s') = true /\ em_key (es_mem s') = k /\
    em_buf (es_mem s') = em_buf (es_mem s) /\ em_write_counter (es_mem s') = em_write_counter (es_mem s).
Proof.
  induction reqs as [|[req rsp] reqs IH]; intros s Hs Hks Hk Hr; cbn [emu_run].
  { exists [], s. split; [done |]. by split_and!; try apply Hs. }
  apply Forall_cons in Hr as [[Hok Hna] Hr]. cbn [fst snd] in *.
  destruct (process_spec req rsp s Hs Hok) as (r & s1 & E & Hs1 & [[Hkey Hmem] _]). destruct (Hkey Hks) as [Hk1 Hks1].
  destruct Hmem as [[Hb Hw]|(f & _ & _ & _ & _ & Hau & _)]; [| rewrite Hk in Hau; by destruct Hna].
  destruct (IH s1) as (rs & s2 & E2 & Hs2 & Hks2 & Hk2 & Hb2 & Hw2); [done | done | by rewrite Hk1 | done |].
  rewrite (st_run _ _ _ _ _ E), (st_run _ _ _ _ _ E2). do 2 eexists. split; [done |]. split; [done |]. split_and!; congruence.
Qed.

(** A data request of one frame [f] of type [ty], with room for one in the response. *)
Definition frame_request (ty : Z) (req rsp : list Z) (f : rpmb_data_frame) : Prop :=
  request_ok req rsp /\ length req = 518%nat /\ length rsp = 512%nat /\ rq_cmd (req_of req) = RPMB_CMD_DATA_REQ /\
  f = frame_of (drop 6 req) /\ ntohs (fr_msg_type f) = ty.

Lemma frame_request_ok ty req rsp f : frame_request ty req rsp f -> frame_ok f /\ frame_ok (frame_of rsp).
Proof.
  clear Hjunk Hcsd. intros ((Hq & Hp & _) & Hl & Hl' & _ & -> & _). split; apply frame_of_ok; [by apply Forall_drop | len | done | lia].
Qed.

Lemma process_frame ty req rsp f s res q h s' : frame_request ty req rsp f -> frame_ok h ->
  rpmb_data_req 0 [f] [frame_of rsp] s = Ret ((res, (q, [h])), s') ->
  exists r, emu_process_request junk csd req rsp (false, s) = Ret ((res, r), (false, s')) /\ frame_of r.2 = h.
Proof.
  intros (_ & Hl & Hl' & Hc & -> & _) Hh E. unfold emu_process_request, rpmb_process_request. cbn [negb guard_c mbind outcome_bind].
  unfold rpmb_process_request_unlocked. rewrite Hl, Hl', Hc. change (Z.of_nat 518 <? SIZEOF_RPMB_REQ) with false.
  change (RPMB_CMD_DATA_REQ =? RPMB_CMD_DATA_REQ) with true. cbv iota. rewrite (st_run _ _ s 0 s) by done.
  change (Z.to_nat ((Z.of_nat 518 - SIZEOF_RPMB_REQ) / 512)) with 1%nat. change (Z.to_nat (Z.of_nat 512 / 512)) with 1%nat.
  cbn [Z.ltb Z.compare frames_of]. rewrite (st_run _ _ _ _ _ E). eexists. split; [done |].
  unfold frames_bytes. cbn [snd fmap list_fmap concat]. rewrite <- app_assoc. by apply frame_of_bytes.
Qed.
End Device.

(** C8: Only the holder of the key changes the partition.  Whatever request the emulated
    device gets, authenticated or not, well formed or not, as long as a data request
    brings a frame and room for one, the supplicant answers without touching memory
    outside the two buffers and the device; a key once programmed stays as it is; and
    the memory and the write counter stay as they are unless the request is a write
    whose code is the HMAC of its frames under the key, in which case the data of the
    frames is at the address of the first one and the counter has moved by their number. *)
Theorem rpmb_authenticated junk csd req rsp s :
  length junk = 128%nat -> length csd = 512%nat -> emu_state_ok s -> request_ok req rsp ->
  exists r s', emu_process_request junk csd req rsp (false, s) = Ret (r, (false, s')) /\ emu_state_ok s' /\
    emu_step (req_frames req) (es_mem s) (es_mem s').
Proof.
  intros Hj Hc Hs Hok. destruct (process_spec junk Hj csd Hc req rsp s Hs Hok) as (r & s' & E & Hs' & [Hst _]). by exists r, s'.
Qed.

(** C13: What was written is read back.  With the key programmed, an authenticated write of
    a frame inside the partition succeeds and is answered with an authenticated result;
    after any requests that are not authenticated under the key, a read at the same
    address succeeds and returns the data that was written, with the nonce of the read
    request, under a code of the key. *)
Theorem rpmb_write_read junk csd s k wreq wrsp f forged rreq rrsp g :
  length junk = 128%nat -> length csd = 512%nat -> emu_state_ok s -> em_key_set (es_mem s) = true -> em_key (es_mem s) = k ->
  frame_request RPMB_MSG_TYPE_REQ_AUTH_DATA_WRITE wreq wrsp f -> in_partition (ntohs (fr_address f)) [f] -> authentic k [f] ->
  Forall (fun r => request_ok r.1 r.2 /\ ~ authentic k (req_frames r.1)) forged ->
  frame_request RPMB_MSG_TYPE_REQ_AUTH_DATA_READ rreq rrsp g -> fr_address g = fr_address f ->
  exists w s1 rs s2 r s3,
    emu_process_request junk csd wreq wrsp (false, s) = Ret ((TEEC_SUCCESS, w), (false, s1)) /\
    fr_op_result (frame_of w.2) = RPMB_RESULT_OK /\ authentic k [frame_of w.2] /\
    emu_run junk csd forged (false, s1) = Ret (rs, (false, s2)) /\
    emu_process_request junk csd rreq rrsp (false, s2) = Ret ((TEEC_SUCCESS, r), (false, s3)) /\
    fr_data (frame_of r.2) = fr_data f /\ fr_nonce (frame_of r.2) = fr_nonce g /\ authentic k [frame_of r.2].
Proof.
  intros Hj Hc Hs Hks Hk Hw Hin Hau Hforged Hr Had. destruct (frame_request_ok _ _ _ _ Hw) as [Hf Hwr]. destruct (frame_request_ok _ _ _ _ Hr) as [Hg Hrr].
  destruct (write_one junk Hj f (frame_of wrsp) s) as (q1 & h1 & s1 & E1 & Hs1 & Hh1 & Ha1 & Hr1 & _ & _ & Hk1 & Hks1 & Hb1 & _);
    [done | done | done | apply Hw | done | done | by rewrite Hk |].
  destruct (process_frame junk csd _ _ _ _ _ _ _ _ _ Hw Hh1 E1) as (w & Ew & Ehw).
  destruct (run_forged junk Hj csd Hc k forged s1) as (rs & s2 & E2 & Hs2 & Hks2 & Hk2 & Hb2 & _); [done | done | by rewrite Hk1 | done |].
  destruct (read_one junk Hj g (frame_of rrsp) s2) as (h2 & s3 & E3 & Hh2 & Hd2 & Hn2 & _ & _ & _ & Ha2);
    [done | done | done | apply Hr | by rewrite Had | done |].
  destruct (process_frame junk csd _ _ _ _ _ _ _ _ _ Hr Hh2 E3) as (r & Er & Ehr).
  exists w, s1, rs, s2, r, s3. rewrite Ehw, Ehr, Hd2, Hb2, Hb1, Had. rewrite Hk in Ha1. rewrite Hk2 in Ha2. split_and!; try done.
  assert (Hd : length (fr_data f) = 256%nat) by apply Hf. unfold slice. rewrite <- Hd. apply splice_same. destruct Hs as [(-> & _) _].
  unfold in_partition in Hin. cbn [length] in Hin. pose proof (proj1 (swap16_range (fr_address f) ltac:(apply Hf))) as Hu. unfold u16_ok in Hu.
  fold (ntohs (fr_address f)) in Hu. lia.
Qed.

(** A request of several frames is refused.  On any device, frames of the same type, as
    the protocol requires and in the byte order it requires, are refused by the check
    that all have the same type, which compares the type in host order with the type in
    network order; nothing is sent to the device. *)
Theorem rpmb_multi_frame_refused {D} `{MmcDevice D} fd req rsp ty d :
  In ty [RPMB_MSG_TYPE_REQ_AUTH_KEY_PROGRAM; RPMB_MSG_TYPE_REQ_WRITE_COUNTER_VAL_READ; RPMB_MSG_TYPE_REQ_AUTH_DATA_WRITE;
         RPMB_MSG_TYPE_REQ_AUTH_DATA_READ] ->
  (2 <= length req)%nat -> Forall (fun f => fr_msg_type f = htons ty) req ->
  rpmb_data_req fd req rsp d = Ret ((TEEC_ERROR_BAD_PARAMETERS, (req, rsp)), d).
Proof.
  intros Hty Hl Hall. destruct req as [|f0 [|f1 req]]; [cbn in Hl; lia.. |]. unfold rpmb_data_req.
  rewrite (st_run _ _ d f0 d) by done. apply Forall_cons in Hall as [E0 [E1 _]%Forall_cons]. rewrite E0. cbn [drop existsb]. rewrite E1.
  assert (Hne : (htons ty =? ntohs (htons ty)) = false) by (cbn in Hty; destruct Hty as [<-|[<-|[<-|[<-|[]]]]]; reflexivity).
  by rewrite Hne.
Qed.

(** ** Witnesses *)

#[export] Instance authentic_dec k l : Decision (authentic k l).
Proof. unfold authentic. apply _. Defined.
#[export] Instance u16_ok_dec x : Decision (u16_ok x).
Proof. unfold u16_ok. apply _. Defined.
#[export] Instance request_ok_dec req rsp : Decision (request_ok req rsp).
Proof. unfold request_ok. apply _. Defined.

(** A device with a key, a frame to write at block 2, and a read of that block. *)
Definition ex_key : list Z := replicate 32 9.
Definition ex_state : emu_state := mkEmuState (em_set_key rpmb_emu_init ex_key) 0.
Definition ex_frame (ty : Z) : rpmb_data_frame :=
  mkFrm (zeros 196) (zeros 32) (replicate 256 5) (replicate 16 3) 0 (htons 2) (htons 1) 0 (htons ty).
Definition ex_signed : rpmb_data_frame := set_key_mac (ex_frame 3) (frames_mac ex_key [ex_frame 3]).
Definition ex_request (f : rpmb_data_frame) : list Z := zeros 6 ++ frame_bytes f.

Lemma ex_state_ok : emu_state_ok ex_state.
Proof.
  split; [| by right]. unfold emu_ok, ex_state, rpmb_emu_init. cbn [es_mem em_set_key em_buf em_size em_key em_nonce em_write_counter em_last_op].
  split; [apply length_replicate |]. split_and!; (done || by apply u16_const).
Defined.
Lemma ex_write_ok : frame_request RPMB_MSG_TYPE_REQ_AUTH_DATA_WRITE (ex_request ex_signed) (zeros 512) ex_signed.
Proof. split; [decide_c |]. split; [vm_compute; reflexivity |]. repeat (split; [vm_compute; reflexivity |]). vm_compute. reflexivity. Defined.
Lemma ex_read_ok : frame_request RPMB_MSG_TYPE_REQ_AUTH_DATA_READ (ex_request (ex_frame 4)) (zeros 512) (ex_frame 4).
Proof. split; [decide_c |]. split; [vm_compute; reflexivity |]. repeat (split; [vm_compute; reflexivity |]). vm_compute. reflexivity. Defined.

Lemma rpmb_authenticated_witness :
  exists r s', emu_process_request (zeros 128) (zeros 512) (ex_request (ex_frame 3)) (zeros 512) (false, ex_state) = Ret (r, (false, s')) /\
    emu_state_ok s' /\ emu_step (req_frames (ex_request (ex_frame 3))) (es_mem ex_state) (es_mem s').
Proof.
  apply (rpmb_authenticated (zeros 128) (zeros 512) (ex_request (ex_frame 3)) (zeros 512) ex_state); [reflexivity | reflexivity | apply ex_state_ok | decide_c].
Defined.

Lemma rpmb_write_read_witness :
  exists w s1 rs s2 r s3,
    emu_process_request (zeros 128) (zeros 512) (ex_request ex_signed) (zeros 512) (false, ex_state) = Ret ((TEEC_SUCCESS, w), (false, s1)) /\
    fr_op_result (frame_of w.2) = RPMB_RESULT_OK /\ authentic ex_key [frame_of w.2] /\
    emu_run (zeros 128) (zeros 512) [(ex_request (ex_frame 3), zeros 512)] (false, s1) = Ret (rs, (false, s2)) /\
    emu_process_request (zeros 128) (zeros 512) (ex_request (ex_frame 4)) (zeros 512) (false, s2) = Ret ((TEEC_SUCCESS, r), (false, s3)) /\
    fr_data (frame_of r.2) = fr_data ex_signed /\ fr_nonce (frame_of r.2) = fr_nonce (ex_frame 4) /\ authentic ex_key [frame_of r.2].
Proof.
  apply (rpmb_write_read (zeros 128) (zeros 512) ex_state ex_key (ex_request ex_signed) (zeros 512) ex_signed [(ex_request (ex_frame 3), zeros 512)]
    (ex_request (ex_frame 4)) (zeros 512) (ex_frame 4));
    [reflexivity | reflexivity | apply ex_state_ok | reflexivity | reflexivity | apply ex_write_ok | vm_compute; discriminate | apply authentic_single | | apply ex_read_ok | reflexivity].
  apply Forall_singleton. split; decide_c.
Defined.

Lemma rpmb_multi_frame_refused_witness :
  rpmb_data_req (H := emu_device (zeros 128)) 0 [ex_frame 3; ex_frame 3] [ex_frame 0] ex_state =
    Ret ((TEEC_ERROR_BAD_PARAMETERS, ([ex_frame 3; ex_frame 3], [ex_frame 0])), ex_state).
Proof.
  apply (rpmb_multi_frame_refused (H := emu_device (zeros 128)) 0 [ex_frame 3; ex_frame 3] [ex_frame 0] 3 ex_state);
    [right; right; left; reflexivity | cbn; lia | repeat constructor].
Defined.
