(* ===== verification/SuppMem.v ===== *)
(** * Shared memory and parameters of the supplicant (tee_supplicant.c)

    The parameters of a request as the driver delivers them, the list of shared memory
    objects the secure world has had allocated, and the functions that turn a memory
    reference into an address.  An address is a block and an offset in it; [sp_mem] has
    the bytes of the blocks, so that an access outside a block is undefined.  [K] is the
    state of the system the supplicant runs on, reached through the class [Posix]. *)

From stdpp Require Import base numbers list gmap.
From S2P Require Import Prelude SkTypes Handle.

(** ** Parameters *)

(** [struct tee_ioctl_param]: the attribute and the three words of the union, which are
    [value.a], [value.b], [value.c] or [memref.shm_offs], [memref.size], [memref.shm_id]. *)
Record tee_ioctl_param := mkIop { ip_attr : Z; ip_a : Z; ip_b : Z; ip_c : Z }.

Definition ATTR_TYPE_MASK : Z := 0xff.
Definition ATTR_META : Z := 0x100.
Definition ATTR_VALUE_INPUT : Z := 1.
Definition ATTR_VALUE_OUTPUT : Z := 2.
Definition ATTR_VALUE_INOUT : Z := 3.
Definition ATTR_MEMREF_INPUT : Z := 5.
Definition ATTR_MEMREF_OUTPUT : Z := 6.
Definition ATTR_MEMREF_INOUT : Z := 7.

Definition attr_type (p : tee_ioctl_param) : Z := Z.land (ip_attr p) ATTR_TYPE_MASK.
Definition has_type (ty : Z) (p : tee_ioctl_param) : bool := attr_type p =? ty.

Definition set_a (p : tee_ioctl_param) (x : Z) : tee_ioctl_param := mkIop (ip_attr p) x (ip_b p) (ip_c p).
Definition set_b (p : tee_ioctl_param) (x : Z) : tee_ioctl_param := mkIop (ip_attr p) (ip_a p) x (ip_c p).
Definition set_c (p : tee_ioctl_param) (x : Z) : tee_ioctl_param := mkIop (ip_attr p) (ip_a p) (ip_b p) x.

Definition tee_supp_param_is_memref (p : tee_ioctl_param) : bool :=
  has_type ATTR_MEMREF_INPUT p || has_type ATTR_MEMREF_OUTPUT p || has_type ATTR_MEMREF_INOUT p.
Definition tee_supp_param_is_value (p : tee_ioctl_param) : bool :=
  has_type ATTR_VALUE_INPUT p || has_type ATTR_VALUE_OUTPUT p || has_type ATTR_VALUE_INOUT p.

(** The value parameter at [idx], or the failure. *)
Definition get_value (params : list tee_ioctl_param) (idx : nat) : option tee_ioctl_param :=
  match params !! idx with
  | Some p => if tee_supp_param_is_value p then Some p else None
  | None => None
  end.

(** ** Shared memory *)

Record tee_shm := mkTshm { ts_id : Z; ts_p : Z; ts_size : Z; ts_registered : bool; ts_fd : Z }.

(** The list from [shm_head], by its links; each function is one critical section of
    [shm_mutex]. *)
Fixpoint find_tshm (id : Z) (l : list tee_shm) : option tee_shm :=
  match l with
  | [] => None
  | t :: l => if ts_id t =? id then Some t else find_tshm id l
  end.
Fixpoint pop_tshm (id : Z) (l : list tee_shm) : option tee_shm * list tee_shm :=
  match l with
  | [] => (None, [])
  | t :: l => if ts_id t =? id then (Some t, l) else let '(r, l) := pop_tshm id l in (r, t :: l)
  end.
Definition push_tshm (t : tee_shm) (l : list tee_shm) : list tee_shm := t :: l.

(** The sockets of a trusted application instance, each descriptor plus one (tee_socket.c). *)
Record sock_instance := mkSock { si_id : Z; si_db : handle_db }.

(** The state of the supplicant: the shared memory list, the memory, the open directories
    and the root of the file service, the sockets, and the system. *)
Record supp (K : Type) := mkSupp {
  sp_shm : list tee_shm; sp_mem : gmap Z (list Z); sp_dirs : handle_db; sp_root : list Z; sp_socks : list sock_instance; sp_kern : K }.
Arguments mkSupp {_}. Arguments sp_shm {_}. Arguments sp_mem {_}. Arguments sp_dirs {_}. Arguments sp_root {_}. Arguments sp_socks {_}. Arguments sp_kern {_}.

(** An address: a block and an offset. *)
Definition addr : Type := Z * Z.

Definition tee_supp_param_to_va (shm : list tee_shm) (p : tee_ioctl_param) : option addr :=
  if negb (tee_supp_param_is_memref p) then None
  else
    let end_offs := u64 (ip_b p + ip_a p) in
    if (end_offs <? ip_b p) || (end_offs <? ip_a p) then None
    else
      match find_tshm (i32 (ip_c p)) shm with
      | None => None
      | Some t => if ts_size t <? end_offs then None else Some (ts_p t, ip_a p)
      end.

(** [TEEC_SharedMemory] as [get_param] fills it: the buffer and its size. *)
Record shm_ref := mkRef { sr_buffer : option addr; sr_size : Z; sr_id : Z; sr_flags : Z }.
Definition ref_zero : shm_ref := mkRef None 0 0 0.

Definition get_param (shm : list tee_shm) (params : list tee_ioctl_param) (idx : nat) : option shm_ref :=
  match params !! idx with
  | None => None
  | Some p =>
      if negb (tee_supp_param_is_memref p) then None
      else
        match find_tshm (i32 (ip_c p)) shm with
        | None => if has_type ATTR_MEMREF_INPUT p then None else Some ref_zero
        | Some t =>
            if u64 (ip_b p + ip_a p) <? ip_b p then None
            else if ts_size t <? u64 (ip_b p + ip_a p) then None
            else Some (mkRef (Some (ts_p t, ip_a p)) (u64 (ip_b p - ip_a p)) (i32 (ip_c p)) (Z.lor TEEC_MEM_INPUT TEEC_MEM_OUTPUT))
        end
  end.

(** ** Memory *)

Definition mem_read (mem : gmap Z (list Z)) (a : addr) (n : Z) : outcome (list Z) :=
  b ← deref (mem !! a.1);
  buf_read b a.2 n.
Definition mem_write (mem : gmap Z (list Z)) (a : addr) (bs : list Z) : outcome (gmap Z (list Z)) :=
  b ← deref (mem !! a.1);
  b ← buf_write b a.2 bs;
  Ret (<[a.1:=b]> mem).

(** The C string at the start of the bytes: up to the NUL, which must be there. *)
Fixpoint cstr (b : list Z) : outcome (list Z) :=
  match b with
  | [] => Undef
  | c :: b => if c =? 0 then Ret [] else (s ← cstr b; Ret (c :: s))
  end.
Definition mem_cstr (mem : gmap Z (list Z)) (a : addr) : outcome (list Z) :=
  b ← deref (mem !! a.1);
  guard_c (a.2 <=? Z.of_nat (length b));;
  cstr (drop (Z.to_nat a.2) b).

(** ** The system *)

Definition EINTR : Z := 4.
Definition ENOENT : Z := 2.
Definition EEXIST : Z := 17.

(** System and library calls: the result and [errno], which means something on failure. *)
Class Posix (K : Type) := {
  p_open : list Z -> Z -> Z -> st K (Z * Z);
  p_close : Z -> st K (Z * Z);
  (** The bytes read are as many as the result says when it is not negative. *)
  p_pread : Z -> Z -> Z -> st K (Z * Z * list Z);
  p_pwrite : Z -> list Z -> Z -> st K (Z * Z);
  p_write : Z -> list Z -> st K (Z * Z);
  p_ftruncate : Z -> Z -> st K (Z * Z);
  p_mkdir : list Z -> Z -> st K (Z * Z);
  p_rmdir : list Z -> st K (Z * Z);
  p_unlink : list Z -> st K (Z * Z);
  p_rename : list Z -> list Z -> st K (Z * Z);
  (** The result and whether the mode is that of a directory. *)
  p_stat : list Z -> st K (Z * bool);
  (** A directory stream, 0 for NULL. *)
  p_opendir : list Z -> st K Z;
  p_readdir : Z -> st K (option (list Z));
  p_rewinddir : Z -> st K unit;
  p_closedir : Z -> st K unit;
  (** A file stream, 0 for NULL; the position after [fseek]; the bytes of [fread]. *)
  p_fopen : list Z -> st K Z;
  p_fseek_end : Z -> st K Z;
  p_fseek_set : Z -> st K Z;
  p_ftell : Z -> st K Z;
  p_fread : Z -> Z -> st K (list Z);
  p_fclose : Z -> st K unit;
  (** Memory: whether an allocation of that many bytes succeeds. *)
  p_alloc : Z -> st K bool;
  p_mmap : Z -> Z -> st K bool;
  p_munmap : Z -> Z -> st K Z;
  (** The ioctls of the private TEE device; the descriptor and the id of the memory. *)
  p_shm_alloc : Z -> Z -> st K (Z * Z * Z);
  p_shm_register : Z -> Z -> Z -> st K (Z * Z) }.

Section OnKernel.
Context {K : Type}.
Definition on_sys {A} (m : st K A) : st (supp K) A := fun s =>
  '(a, k) ← m (sp_kern s);
  Ret (a, mkSupp (sp_shm s) (sp_mem s) (sp_dirs s) (sp_root s) (sp_socks s) k).
Definition set_mem (m : gmap Z (list Z)) (s : supp K) : supp K := mkSupp (sp_shm s) m (sp_dirs s) (sp_root s) (sp_socks s) (sp_kern s).
Definition set_dirs (d : handle_db) (s : supp K) : supp K := mkSupp (sp_shm s) (sp_mem s) d (sp_root s) (sp_socks s) (sp_kern s).
Definition set_shm (l : list tee_shm) (s : supp K) : supp K := mkSupp l (sp_mem s) (sp_dirs s) (sp_root s) (sp_socks s) (sp_kern s).
Definition set_root (r : list Z) (s : supp K) : supp K := mkSupp (sp_shm s) (sp_mem s) (sp_dirs s) r (sp_socks s) (sp_kern s).
Definition set_socks (l : list sock_instance) (s : supp K) : supp K := mkSupp (sp_shm s) (sp_mem s) (sp_dirs s) (sp_root s) l (sp_kern s).
Definition set_kern (k : K) (s : supp K) : supp K := mkSupp (sp_shm s) (sp_mem s) (sp_dirs s) (sp_root s) (sp_socks s) k.

(** Bytes into memory. *)
Definition store (a : addr) (bs : list Z) : st (supp K) unit := fun s =>
  mem ← mem_write (sp_mem s) a bs;
  Ret (tt, set_mem mem s).

(** Again as long as a call is interrupted, at most [fuel] times. *)
Fixpoint retry {A} (fuel : nat) (m : st (supp K) A) (again : A -> bool) : st (supp K) A :=
  match fuel with
  | O => fun _ => Undef
  | S fuel => a ← m; if again a then retry fuel m again else mret a
  end.
End OnKernel.
