(* ===== verification/SuppFs.v ===== *)
(** * The file service of the supplicant (tee_supp_fs.c)

    Secure storage keeps its files in the normal world: the secure world opens, reads,
    writes and lists them through these commands.  Paths are byte strings; each command
    is the C function of the same name over the parameters of the request and returns its
    status with the parameters as it leaves them.  The loops over interrupted and partial
    transfers take [fuel]. *)

From stdpp Require Import base numbers list gmap.
From S2P Require Import Prelude SkTypes Handle SuppMem.

Definition OPTEE_MRF_OPEN : Z := 0.
Definition OPTEE_MRF_CREATE : Z := 1.
Definition OPTEE_MRF_CLOSE : Z := 2.
Definition OPTEE_MRF_READ : Z := 3.
Definition OPTEE_MRF_WRITE : Z := 4.
Definition OPTEE_MRF_TRUNCATE : Z := 5.
Definition OPTEE_MRF_REMOVE : Z := 6.
Definition OPTEE_MRF_RENAME : Z := 7.
Definition OPTEE_MRF_OPENDIR : Z := 8.
Definition OPTEE_MRF_CLOSEDIR : Z := 9.
Definition OPTEE_MRF_READDIR : Z := 10.

Definition PATH_MAX : Z := 4096.
Definition F_O_RDONLY : Z := 0.
Definition F_O_RDWR : Z := 2.
Definition F_O_CREAT : Z := 0x40.
Definition F_O_TRUNC : Z := 0x200.
Definition F_O_SYNC : Z := 0x101000.
Definition slash : Z := 47.
Definition dot : Z := 46.

(** The path under the root, or [None] where the C function returns 0. *)
Definition tee_fs_get_absolute_filename (root file : list Z) (out_size : Z) : option (list Z) :=
  if out_size <=? Z.of_nat (length root) + 1 then None
  else
    let out := root ++ file in
    if out_size <=? Z.of_nat (length out) then None else if (length out =? 0)%nat then None else Some out.

(** [dirname]: the path without its last component and the slashes around it. *)
Fixpoint drop_slashes (r : list Z) : list Z :=
  match r with
  | c :: r' => if c =? slash then drop_slashes r' else r
  | [] => []
  end.
Fixpoint drop_component (r : list Z) : list Z :=
  match r with
  | c :: r' => if c =? slash then r else drop_component r'
  | [] => []
  end.
Definition dirname (path : list Z) : list Z :=
  let r := drop_slashes (rev path) in
  match r with
  | [] => match path with c :: _ => if c =? slash then [slash] else [dot] | [] => [dot] end
  | _ =>
      match drop_component r with
      | [] => [dot]
      | d => match drop_slashes d with [] => [slash] | d => rev d end
      end
  end.

Example dirname_ex : dirname [47; 97; 47; 47; 98; 47] = [47; 97] /\ dirname [47; 97] = [47] /\ dirname [97] = [46].
Proof. done. Qed.

Section Fs.
Context {K : Type} `{Posix K}.
(** How often a call that is interrupted is made again. *)
Context (fuel : nat).
(** [TEE_FS_PARENT_PATH], what an uninitialised [struct stat] says of a directory, and
    whether [realloc] finds the memory of the handle database. *)
Context (parent_path : list Z) (junk_isdir : bool) (realloc : Z -> bool).

Definition do_mkdir (path : list Z) (mode : Z) : st (supp K) Z :=
  r ← on_sys (p_mkdir path mode);
  let '(res, errno) := r in
  if negb (res =? 0) && negb (errno =? EEXIST) then mret (-1)
  else
    r ← on_sys (p_stat path);
    let '(res, isdir) := r in
    let isdir := if res =? 0 then isdir else junk_isdir in
    if negb (res =? 0) && negb isdir then mret (-1) else mret 0.

(** The loop over the slashes: [seen] is the path up to here in reverse, [seg] says
    whether the component so far has characters. *)
Fixpoint mkpath_loop (seen : list Z) (seg : bool) (rest : list Z) (mode : Z) : st (supp K) Z :=
  match rest with
  | [] => mret 0
  | c :: rest =>
      if c =? slash then
        status ← (if seg then do_mkdir (rev seen) mode else mret 0);
        if status =? 0 then mkpath_loop (c :: seen) false rest mode else mret status
      else mkpath_loop (c :: seen) true rest mode
  end.
Definition mkpath (path : list Z) (mode : Z) : st (supp K) Z :=
  status ← mkpath_loop [] false path mode;
  if status =? 0 then do_mkdir path mode else mret status.

(** "/tee/" *)
Definition tee_suffix : list Z := [47; 116; 101; 101; 47].
Definition tee_supp_fs_init : st (supp K) Z :=
  let root := parent_path ++ tee_suffix in
  modify (set_root (take (Z.to_nat (PATH_MAX - 1)) root));;
  if PATH_MAX <=? Z.of_nat (length root) then mret (-1)
  else
    r ← mkpath root 0x1c0;
    if negb (r =? 0) then mret (-1) else mret 0.

Definition interrupted (r : Z * Z) : bool := (r.1 <? 0) && (r.2 =? EINTR).
Definition interrupted_nz (r : Z * Z) : bool := negb (r.1 =? 0) && (r.2 =? EINTR).

Definition open_wrapper (fname : list Z) (flags : Z) : st (supp K) (Z * Z) :=
  retry fuel (on_sys (p_open fname (Z.lor flags F_O_SYNC) 0x180)) interrupted.

(** A file name parameter as an absolute path; the C string ends inside its block. *)
Definition path_param (p : tee_ioctl_param) : st (supp K) (option (list Z)) := fun s =>
  match tee_supp_param_to_va (sp_shm s) p with
  | None => Ret (None, s)
  | Some a => fname ← mem_cstr (sp_mem s) a; Ret (tee_fs_get_absolute_filename (sp_root s) fname PATH_MAX, s)
  end.

Definition ree_fs_new_open (params : list tee_ioctl_param) : st (supp K) (Z * list tee_ioctl_param) :=
  match params with
  | [p0; p1; p2] =>
      if negb (has_type ATTR_VALUE_INPUT p0) || negb (has_type ATTR_MEMREF_INPUT p1) || negb (has_type ATTR_VALUE_OUTPUT p2)
      then mret (TEEC_ERROR_BAD_PARAMETERS, params)
      else
        path ← path_param p1;
        match path with
        | None => mret (TEEC_ERROR_BAD_PARAMETERS, params)
        | Some abs_filename =>
            r ← open_wrapper abs_filename F_O_RDWR;
            r ← (if r.1 <? 0 then open_wrapper abs_filename F_O_RDONLY else mret r);
            let fd := r.1 in
            if fd <? 0 then mret (TEEC_ERROR_ITEM_NOT_FOUND, params)
            else mret (TEEC_SUCCESS, [p0; p1; set_a p2 (u64 fd)])
        end
  | _ => mret (TEEC_ERROR_BAD_PARAMETERS, params)
  end.

(** The descriptor of the created file, or the failure, removing the directories made. *)
Definition create_file (abs_filename : list Z) : st (supp K) (option Z) :=
  let flags := Z.lor (Z.lor F_O_RDWR F_O_CREAT) F_O_TRUNC in
  r ← open_wrapper abs_filename flags;
  if 0 <=? r.1 then mret (Some r.1)
  else if negb (r.2 =? ENOENT) then mret None
  else
    let d := dirname abs_filename in
    m ← on_sys (p_mkdir d 0x1c0);
    if m.1 =? 0 then
      r ← open_wrapper abs_filename flags;
      if 0 <=? r.1 then mret (Some r.1)
      else
        _ ← on_sys (p_rmdir d);
        mret None
    else if negb (m.2 =? ENOENT) then mret None
    else
      m ← on_sys (p_mkdir (dirname d) 0x1c0);
      if negb (m.1 =? 0) then mret None
      else
        m ← on_sys (p_mkdir d 0x1c0);
        if negb (m.1 =? 0) then
          _ ← on_sys (p_rmdir (dirname d));
          mret None
        else
          r ← open_wrapper abs_filename flags;
          if r.1 <? 0 then
            _ ← on_sys (p_rmdir d);
            _ ← on_sys (p_rmdir (dirname d));
            mret None
          else mret (Some r.1).

Definition ree_fs_new_create (params : list tee_ioctl_param) : st (supp K) (Z * list tee_ioctl_param) :=
  match params with
  | [p0; p1; p2] =>
      if negb (has_type ATTR_VALUE_INPUT p0) || negb (has_type ATTR_MEMREF_INPUT p1) || negb (has_type ATTR_VALUE_OUTPUT p2)
      then mret (TEEC_ERROR_BAD_PARAMETERS, params)
      else
        path ← path_param p1;
        match path with
        | None => mret (TEEC_ERROR_BAD_PARAMETERS, params)
        | Some abs_filename =>
            r ← create_file abs_filename;
            match r with
            | None => mret (TEEC_ERROR_GENERIC, params)
            | Some fd => mret (TEEC_SUCCESS, [p0; p1; set_a p2 (u64 fd)])
            end
        end
  | _ => mret (TEEC_ERROR_BAD_PARAMETERS, params)
  end.

Definition ree_fs_new_close (params : list tee_ioctl_param) : st (supp K) (Z * list tee_ioctl_param) :=
  match params with
  | [p0] =>
      if negb (has_type ATTR_VALUE_INPUT p0) then mret (TEEC_ERROR_BAD_PARAMETERS, params)
      else
        r ← retry fuel (on_sys (p_close (i32 (ip_b p0)))) interrupted_nz;
        mret (if r.1 =? 0 then TEEC_SUCCESS else TEEC_ERROR_GENERIC, params)
  | _ => mret (TEEC_ERROR_BAD_PARAMETERS, params)
  end.

(** The number of bytes read, or [None] after an error. *)
Fixpoint pread_loop (n : nat) (fd : Z) (buf : addr) (len offs s : Z) : st (supp K) (option Z) :=
  match n with
  | O => fun _ => Undef
  | S n =>
      if len =? 0 then mret (Some s)
      else
        x ← on_sys (p_pread fd len offs);
        let '(r, errno, bytes) := x in
        if r <? 0 then if errno =? EINTR then pread_loop n fd buf len offs s else mret None
        else
          _ ← lift (guard_c (r <=? len));
          store buf bytes;;
          if r =? 0 then mret (Some s)
          else pread_loop n fd (buf.1, buf.2 + r) (len - r) (offs + r) (s + r)
  end.

Definition ree_fs_new_read (params : list tee_ioctl_param) : st (supp K) (Z * list tee_ioctl_param) :=
  match params with
  | [p0; p1] =>
      if negb (has_type ATTR_VALUE_INPUT p0) || negb (has_type ATTR_MEMREF_OUTPUT p1) then mret (TEEC_ERROR_BAD_PARAMETERS, params)
      else
        shm ← gets sp_shm;
        match tee_supp_param_to_va shm p1 with
        | None => mret (TEEC_ERROR_BAD_PARAMETERS, params)
        | Some buf =>
            r ← pread_loop fuel (i32 (ip_b p0)) buf (ip_b p1) (i64 (ip_c p0)) 0;
            match r with
            | None => mret (TEEC_ERROR_GENERIC, params)
            | Some s => mret (TEEC_SUCCESS, [p0; set_b p1 s])
            end
        end
  | _ => mret (TEEC_ERROR_BAD_PARAMETERS, params)
  end.

(** Whether all [len] bytes went out. *)
Fixpoint pwrite_loop (n : nat) (fd : Z) (buf : addr) (len offs : Z) : st (supp K) bool :=
  match n with
  | O => fun _ => Undef
  | S n =>
      if len =? 0 then mret true
      else
        mem ← gets sp_mem;
        bytes ← lift (mem_read mem buf len);
        x ← on_sys (p_pwrite fd bytes offs);
        let '(r, errno) := x in
        if r <? 0 then if errno =? EINTR then pwrite_loop n fd buf len offs else mret false
        else
          _ ← lift (guard_c (r <=? len));
          pwrite_loop n fd (buf.1, buf.2 + r) (len - r) (offs + r)
  end.

Definition ree_fs_new_write (params : list tee_ioctl_param) : st (supp K) (Z * list tee_ioctl_param) :=
  match params with
  | [p0; p1] =>
      if negb (has_type ATTR_VALUE_INPUT p0) || negb (has_type ATTR_MEMREF_INPUT p1) then mret (TEEC_ERROR_BAD_PARAMETERS, params)
      else
        shm ← gets sp_shm;
        match tee_supp_param_to_va shm p1 with
        | None => mret (TEEC_ERROR_BAD_PARAMETERS, params)
        | Some buf =>
            ok ← pwrite_loop fuel (i32 (ip_b p0)) buf (ip_b p1) (i64 (ip_c p0));
            mret (if ok : bool then TEEC_SUCCESS else TEEC_ERROR_GENERIC, params)
        end
  | _ => mret (TEEC_ERROR_BAD_PARAMETERS, params)
  end.

Definition ree_fs_new_truncate (params : list tee_ioctl_param) : st (supp K) (Z * list tee_ioctl_param) :=
  match params with
  | [p0] =>
      if negb (has_type ATTR_VALUE_INPUT p0) then mret (TEEC_ERROR_BAD_PARAMETERS, params)
      else
        r ← retry fuel (on_sys (p_ftruncate (i32 (ip_b p0)) (i64 (ip_c p0)))) interrupted_nz;
        mret (if r.1 =? 0 then TEEC_SUCCESS else TEEC_ERROR_GENERIC, params)
  | _ => mret (TEEC_ERROR_BAD_PARAMETERS, params)
  end.

Definition ree_fs_new_remove (params : list tee_ioctl_param) : st (supp K) (Z * list tee_ioctl_param) :=
  match params with
  | [p0; p1] =>
      if negb (has_type ATTR_VALUE_INPUT p0) || negb (has_type ATTR_MEMREF_INPUT p1) then mret (TEEC_ERROR_BAD_PARAMETERS, params)
      else
        path ← path_param p1;
        match path with
        | None => mret (TEEC_ERROR_BAD_PARAMETERS, params)
        | Some abs_filename =>
            r ← on_sys (p_unlink abs_filename);
            if negb (r.1 =? 0) then mret (if r.2 =? ENOENT then TEEC_ERROR_ITEM_NOT_FOUND else TEEC_ERROR_GENERIC, params)
            else
              let d := dirname abs_filename in
              r ← on_sys (p_rmdir d);
              _ ← (if r.1 =? 0 then on_sys (p_rmdir (dirname d)) else mret r);
              mret (TEEC_SUCCESS, params)
        end
  | _ => mret (TEEC_ERROR_BAD_PARAMETERS, params)
  end.

Definition ree_fs_new_rename (params : list tee_ioctl_param) : st (supp K) (Z * list tee_ioctl_param) :=
  match params with
  | [p0; p1; p2] =>
      if negb (has_type ATTR_VALUE_INPUT p0) || negb (has_type ATTR_MEMREF_INPUT p1) || negb (has_type ATTR_MEMREF_INPUT p2)
      then mret (TEEC_ERROR_BAD_PARAMETERS, params)
      else
        let overwrite := negb (ip_b p0 =? 0) in
        shm ← gets sp_shm;
        match tee_supp_param_to_va shm p1, tee_supp_param_to_va shm p2 with
        | Some _, Some _ =>
            old ← path_param p1;
            match old with
            | None => mret (TEEC_ERROR_BAD_PARAMETERS, params)
            | Some old =>
                new ← path_param p2;
                match new with
                | None => mret (TEEC_ERROR_BAD_PARAMETERS, params)
                | Some new =>
                    exists_ ← (if overwrite then mret false else (r ← on_sys (p_stat new); mret (r.1 =? 0)));
                    if exists_ : bool then mret (TEEC_ERROR_ACCESS_CONFLICT, params)
                    else
                      r ← on_sys (p_rename old new);
                      if negb (r.1 =? 0) && (r.2 =? ENOENT) then mret (TEEC_ERROR_ITEM_NOT_FOUND, params)
                      else mret (TEEC_SUCCESS, params)
                end
            end
        | _, _ => mret (TEEC_ERROR_BAD_PARAMETERS, params)
        end
  | _ => mret (TEEC_ERROR_BAD_PARAMETERS, params)
  end.

(** The next entry that does not start with a dot. *)
Definition hidden (name : list Z) : bool := match name with c :: _ => c =? dot | [] => false end.
Fixpoint next_entry (n : nat) (dir : Z) : st (supp K) (option (list Z)) :=
  match n with
  | O => fun _ => Undef
  | S n =>
      d ← on_sys (p_readdir dir);
      match d with
      | None => mret None
      | Some name => if hidden name then next_entry n dir else mret (Some name)
      end
  end.

Definition ree_fs_new_opendir (params : list tee_ioctl_param) : st (supp K) (Z * list tee_ioctl_param) :=
  match params with
  | [p0; p1; p2] =>
      if negb (has_type ATTR_VALUE_INPUT p0) || negb (has_type ATTR_MEMREF_INPUT p1) || negb (has_type ATTR_VALUE_OUTPUT p2)
      then mret (TEEC_ERROR_BAD_PARAMETERS, params)
      else
        path ← path_param p1;
        match path with
        | None => mret (TEEC_ERROR_BAD_PARAMETERS, params)
        | Some abs_filename =>
            dir ← on_sys (p_opendir abs_filename);
            if dir =? 0 then mret (TEEC_ERROR_ITEM_NOT_FOUND, params)
            else
              e ← next_entry fuel dir;
              match e with
              | None => _ ← on_sys (p_closedir dir); mret (TEEC_ERROR_ITEM_NOT_FOUND, params)
              | Some _ =>
                  _ ← on_sys (p_rewinddir dir);
                  db ← gets sp_dirs;
                  h ← lift (handle_get realloc (Some db) dir);
                  db ← lift (deref h.2);
                  modify (set_dirs db);;
                  if h.1 <? 0 then _ ← on_sys (p_closedir dir); mret (TEEC_ERROR_OUT_OF_MEMORY, params)
                  else mret (TEEC_SUCCESS, [p0; p1; set_a p2 (u64 h.1)])
              end
        end
  | _ => mret (TEEC_ERROR_BAD_PARAMETERS, params)
  end.

Definition ree_fs_new_closedir (params : list tee_ioctl_param) : st (supp K) (Z * list tee_ioctl_param) :=
  match params with
  | [p0] =>
      if negb (has_type ATTR_VALUE_INPUT p0) then mret (TEEC_ERROR_BAD_PARAMETERS, params)
      else
        db ← gets sp_dirs;
        h ← lift (handle_put (Some db) (i32 (ip_b p0)));
        db ← lift (deref h.2);
        modify (set_dirs db);;
        if h.1 =? 0 then mret (TEEC_ERROR_BAD_PARAMETERS, params)
        else
          _ ← on_sys (p_closedir h.1);
          mret (TEEC_SUCCESS, params)
  | _ => mret (TEEC_ERROR_BAD_PARAMETERS, params)
  end.

Definition ree_fs_new_readdir (params : list tee_ioctl_param) : st (supp K) (Z * list tee_ioctl_param) :=
  match params with
  | [p0; p1] =>
      if negb (has_type ATTR_VALUE_INPUT p0) || negb (has_type ATTR_MEMREF_OUTPUT p1) then mret (TEEC_ERROR_BAD_PARAMETERS, params)
      else
        shm ← gets sp_shm;
        match tee_supp_param_to_va shm p1 with
        | None => mret (TEEC_ERROR_BAD_PARAMETERS, params)
        | Some buf =>
            let len := ip_b p1 in
            db ← gets sp_dirs;
            h ← lift (handle_lookup (Some db) (i32 (ip_b p0)));
            db ← lift (deref h.2);
            modify (set_dirs db);;
            if h.1 =? 0 then mret (TEEC_ERROR_BAD_PARAMETERS, params)
            else
              e ← next_entry fuel h.1;
              match e with
              | None => mret (TEEC_ERROR_ITEM_NOT_FOUND, params)
              | Some name =>
                  let fname_len := Z.of_nat (length name) + 1 in
                  let params := [p0; set_b p1 fname_len] in
                  if len <? fname_len then mret (TEEC_ERROR_SHORT_BUFFER, params)
                  else
                    store buf (name ++ [0]);;
                    mret (TEEC_SUCCESS, params)
              end
        end
  | _ => mret (TEEC_ERROR_BAD_PARAMETERS, params)
  end.

Definition tee_supp_fs_process (params : list tee_ioctl_param) : st (supp K) (Z * list tee_ioctl_param) :=
  match params with
  | [] => mret (TEEC_ERROR_BAD_PARAMETERS, params)
  | p0 :: _ =>
      if negb (tee_supp_param_is_value p0) then mret (TEEC_ERROR_BAD_PARAMETERS, params)
      else if ip_a p0 =? OPTEE_MRF_OPEN then ree_fs_new_open params
      else if ip_a p0 =? OPTEE_MRF_CREATE then ree_fs_new_create params
      else if ip_a p0 =? OPTEE_MRF_CLOSE then ree_fs_new_close params
      else if ip_a p0 =? OPTEE_MRF_READ then ree_fs_new_read params
      else if ip_a p0 =? OPTEE_MRF_WRITE then ree_fs_new_write params
      else if ip_a p0 =? OPTEE_MRF_TRUNCATE then ree_fs_new_truncate params
      else if ip_a p0 =? OPTEE_MRF_REMOVE then ree_fs_new_remove params
      else if ip_a p0 =? OPTEE_MRF_RENAME then ree_fs_new_rename params
      else if ip_a p0 =? OPTEE_MRF_OPENDIR then ree_fs_new_opendir params
      else if ip_a p0 =? OPTEE_MRF_CLOSEDIR then ree_fs_new_closedir params
      else if ip_a p0 =? OPTEE_MRF_READDIR then ree_fs_new_readdir params
      else mret (TEEC_ERROR_BAD_PARAMETERS, params)
  end.
End Fs.
