(* ===== verification/SuppFsTheorems.v ===== *)
(** * Theorems on shared memory and the file service

    Memory references stay inside their shared memory object; a write followed by a read
    returns the bytes through short and interrupted transfers; a failed creation leaves
    the directories as they were; what a directory listing returns.  The classes
    [FileLaws], [TreeLaws] and [DirLaws] state what the proofs use of the system calls. *)

From stdpp Require Import base numbers list gmap.
From S2P Require Import Prelude SkTypes Handle SuppMem SuppFs.

(** ** Memory references *)

Definition u64_ok (x : Z) : Prop := 0 <= x < 2 ^ 64.
Definition param_ok (p : tee_ioctl_param) : Prop := u64_ok (ip_a p) /\ u64_ok (ip_b p) /\ u64_ok (ip_c p).

(** Every shared memory object has its bytes. *)
Definition shm_ok {K} (s : supp K) : Prop :=
  Forall (fun t => ts_size t < 2 ^ 64 /\ exists b, sp_mem s !! ts_p t = Some b /\ ts_size t <= Z.of_nat (length b)) (sp_shm s).

Lemma find_tshm_in id l t : find_tshm id l = Some t -> t ∈ l /\ ts_id t = id.
Proof.
  induction l as [|x l IH]; cbn; [done |]. destruct (Z.eqb_spec (ts_id x) id) as [E|]; intros Ht.
  - injection Ht as ->. split; [apply list_elem_of_here | done].
  - apply IH in Ht as [? ?]. split; [by apply list_elem_of_further | done].
Qed.

(** A memory reference that is accepted lies in its object. *)
Lemma param_to_va_in {K} (s : supp K) p a : shm_ok s -> param_ok p -> tee_supp_param_to_va (sp_shm s) p = Some a ->
  exists b, sp_mem s !! a.1 = Some b /\ 0 <= a.2 /\ a.2 + ip_b p <= Z.of_nat (length b).
Proof.
  intros Hs (Ha & Hb & Hc) E. unfold tee_supp_param_to_va in E. unfold u64_ok in *. destruct (negb _); [done |].
  destruct (_ || _) eqn:Ew; [done |]. apply orb_false_iff in Ew as [E1 E2]. apply Z.ltb_ge in E1, E2.
  destruct (find_tshm _ _) as [t|] eqn:Ef; [| done]. destruct (Z.ltb_spec (ts_size t) (u64 (ip_b p + ip_a p))) as [|Hsz]; [done |]. injection E as <-.
  apply find_tshm_in in Ef as [Hin _]. pose proof (proj1 (Forall_forall _ _) Hs t Hin) as (Hts & b & Eb & Hl). exists b. cbn [fst snd]. split; [done |].
  split; [lia |]. enough (u64 (ip_b p + ip_a p) = ip_b p + ip_a p) by lia.
  destruct (decide (ip_b p + ip_a p < 2 ^ 64)); [apply u64_small; lia |]. exfalso.
  assert (u64 (ip_b p + ip_a p) = ip_b p + ip_a p - 2 ^ 64) by (symmetry; apply (Z.mod_unique_pos _ _ 1); lia). lia.
Qed.

Definition is_param (p : tee_ioctl_param) (a : addr) {K} (s : supp K) : Prop := tee_supp_param_to_va (sp_shm s) p = Some a.

(** ** Buffers in memory *)

Lemma mem_read_ret mem (a : addr) n b : mem !! a.1 = Some b -> 0 <= a.2 -> 0 <= n -> a.2 + n <= Z.of_nat (length b) ->
  mem_read mem a n = Ret (take (Z.to_nat n) (drop (Z.to_nat a.2) b)).
Proof. intros E Ha Hn Hl. unfold mem_read. rewrite E. cbn [deref mbind outcome_bind]. by apply buf_read_ret. Qed.
Lemma mem_write_ret mem (a : addr) bs b : mem !! a.1 = Some b -> 0 <= a.2 -> a.2 + Z.of_nat (length bs) <= Z.of_nat (length b) ->
  mem_write mem a bs = Ret (<[a.1:=splice b (Z.to_nat a.2) bs]> mem).
Proof. intros E Ha Hl. unfold mem_write. rewrite E. cbn [deref mbind outcome_bind]. by rewrite buf_write_ret. Qed.

Lemma on_sys_run {K A} (m : st K A) (s : supp K) a k : m (sp_kern s) = Ret (a, k) -> on_sys m s = Ret (a, set_kern k s).
Proof. intros E. unfold on_sys. by rewrite E. Qed.

(** ** Files *)

(** The content of a file after the bytes [bs] are written at [offs]. *)
Definition write_at (d : list Z) (offs : Z) (bs : list Z) : list Z :=
  let d := d ++ zeros (offs + Z.of_nat (length bs) - Z.of_nat (length d)) in
  splice d (Z.to_nat offs) bs.

(** Regular files without input and output errors, opened for reading and writing, on a
    device with room and without a limit on the size of a file (an idealisation: a full
    device or a read-only descriptor would make a transfer fail for another reason than an
    interruption, and the loops of the service then report an error): a read returns some of the bytes
    asked for that the file has and none only at the end; a write stores some, at least
    one; a call that is interrupted does nothing, and it is not interrupted for ever. *)
Class FileLaws (K : Type) `{Posix K} := {
  file_at : K -> Z -> option (list Z);
  patience : K -> nat;
  pread_law : forall k fd len offs d, file_at k fd = Some d -> 0 < len -> 0 <= offs ->
    exists r e bs k', p_pread fd len offs k = Ret ((r, e, bs), k') /\ file_at k' fd = Some d /\
      ((r < 0 /\ e = EINTR /\ (patience k' < patience k)%nat) \/
       (0 <= r <= len /\ Z.of_nat (length bs) = r /\ bs = take (Z.to_nat r) (drop (Z.to_nat offs) d) /\
        (r = 0 -> Z.of_nat (length d) <= offs) /\ (patience k' <= patience k)%nat));
  pwrite_law : forall k fd bs offs d, file_at k fd = Some d -> (0 < length bs)%nat -> 0 <= offs ->
    exists r e k', p_pwrite fd bs offs k = Ret ((r, e), k') /\
      ((r < 0 /\ e = EINTR /\ (patience k' < patience k)%nat /\ file_at k' fd = Some d) \/
       (0 < r <= Z.of_nat (length bs) /\ file_at k' fd = Some (write_at d offs (take (Z.to_nat r) bs)) /\ (patience k' <= patience k)%nat)) }.

Lemma write_at_nil d offs : 0 <= offs <= Z.of_nat (length d) -> write_at d offs [] = d.
Proof. intros Ho. unfold write_at, zeros. cbn [length]. rewrite splice_nil. replace (Z.to_nat _) with 0%nat by lia. by rewrite app_nil_r. Qed.

Lemma length_write_at d offs bs : 0 <= offs -> Z.of_nat (length (write_at d offs bs)) = Z.max (Z.of_nat (length d)) (offs + Z.of_nat (length bs)).
Proof. intros Ho. unfold write_at, zeros. rewrite length_splice; rewrite length_app, length_replicate; lia. Qed.

(** Two writes one after the other are one write. *)
Lemma write_at_app d offs x y : 0 <= offs ->
  write_at (write_at d offs x) (offs + Z.of_nat (length x)) y = write_at d offs (x ++ y).
Proof.
  intros Ho. unfold write_at at 1. pose proof (length_write_at d offs x Ho) as Hl. rewrite Hl. unfold write_at. rewrite length_app.
  set (n1 := offs + Z.of_nat (length x) - Z.of_nat (length d)). set (n2 := offs + Z.of_nat (length x + length y) - Z.of_nat (length d)).
  assert (E : splice (d ++ zeros n1) (Z.to_nat offs) x ++ zeros (offs + Z.of_nat (length x) + Z.of_nat (length y) - Z.max (Z.of_nat (length d)) (offs + Z.of_nat (length x))) =
    splice (d ++ zeros n2) (Z.to_nat offs) x).
  { unfold splice. rewrite <- !app_assoc. assert (Hx : (Z.to_nat offs + length x <= length (d ++ zeros n1))%nat) by (unfold zeros; rewrite length_app, length_replicate; lia).
    assert (Ez : d ++ zeros n2 = (d ++ zeros n1) ++ zeros (offs + Z.of_nat (length x) + Z.of_nat (length y) - Z.max (Z.of_nat (length d)) (offs + Z.of_nat (length x)))).
    { rewrite <- app_assoc. f_equal. unfold zeros. rewrite <- replicate_add. f_equal. lia. }
    rewrite Ez, (take_app_le (d ++ zeros n1)), (drop_app_le (d ++ zeros n1)) by lia. done. }
  rewrite E. replace (Z.to_nat (offs + Z.of_nat (length x))) with (Z.to_nat offs + length x)%nat by lia.
  apply splice_adjacent. unfold zeros. rewrite length_app, length_replicate. lia.
Qed.

Lemma read_write_at d offs bs : 0 <= offs -> take (length bs) (drop (Z.to_nat offs) (write_at d offs bs)) = bs.
Proof. intros Ho. unfold write_at. apply splice_same. unfold zeros. rewrite length_app, length_replicate. lia. Qed.

Definition stored_at (d : list Z) (offs : Z) (bs : list Z) : list Z := match bs with [] => d | _ => write_at d offs bs end.

Lemma stored_at_step d offs bs (r : Z) : 0 <= offs -> 0 < r <= Z.of_nat (length bs) ->
  stored_at (write_at d offs (take (Z.to_nat r) bs)) (offs + r) (drop (Z.to_nat r) bs) = stored_at d offs bs.
Proof.
  intros Ho Hr. replace (stored_at d offs bs) with (write_at d offs bs) by (destruct bs; [cbn in Hr; lia | done]).
  destruct (drop (Z.to_nat r) bs) as [|c cs] eqn:E; cbn [stored_at].
  - by rewrite take_ge by (apply (f_equal length) in E; rewrite length_drop in E; cbn in E; lia).
  - rewrite <- E. replace r with (Z.of_nat (length (take (Z.to_nat r) bs))) at 2 by (rewrite length_take; lia).
    rewrite write_at_app by done. by rewrite take_drop.
Qed.

Lemma mem_read_bytes mem a n bs : mem_read mem a n = Ret bs -> Z.of_nat (length bs) = n /\ 0 <= n.
Proof.
  unfold mem_read. destruct (mem !! a.1) as [b|]; cbn [deref mbind outcome_bind]; [| done]. intros E. pose proof (buf_read_length _ _ _ _ E). lia.
Qed.
Lemma mem_read_drop mem a n bs r : mem_read mem a n = Ret bs -> 0 <= r <= n ->
  mem_read mem (a.1, a.2 + r) (n - r) = Ret (drop (Z.to_nat r) bs).
Proof.
  unfold mem_read. cbn [fst snd]. destruct (mem !! a.1) as [b|]; cbn [deref mbind outcome_bind]; [| done]. unfold buf_read at 1.
  destruct (in_range b a.2 n) eqn:E; [| done]. apply in_range_spec in E as (H1 & H2 & H3). intros [= <-] Hr.
  rewrite buf_read_ret by lia. f_equal. rewrite skipn_firstn_comm, drop_drop. f_equal; [lia |]. f_equal. lia.
Qed.

Section Transfers.
Context {K : Type} `{FileLaws K}.

Lemma pwrite_loop_spec n : forall fd buf len offs s d bs, file_at (sp_kern s) fd = Some d ->
  mem_read (sp_mem s) buf len = Ret bs -> 0 <= offs -> (patience (sp_kern s) + Z.to_nat len < n)%nat ->
  exists k, pwrite_loop n fd buf len offs s = Ret (true, set_kern k s) /\ file_at k fd = Some (stored_at d offs bs) /\ (patience k <= patience (sp_kern s))%nat.
Proof.
  induction n as [|n IH]; intros fd buf len offs s d bs Hf Hm Ho Hn; [lia |]. cbn [pwrite_loop]. destruct (mem_read_bytes _ _ _ _ Hm) as [Hl Hpos].
  destruct (Z.eqb_spec len 0) as [->|Hne].
  { exists (sp_kern s). destruct bs; [| cbn in Hl; lia]. by destruct s. }
  rewrite (st_run _ _ s (sp_mem s) s) by done. rewrite (st_run _ _ s bs s) by (unfold lift; by rewrite Hm).
  destruct (pwrite_law (sp_kern s) fd bs offs d) as (r & e & k & E & Hcase); [done | lia | done |].
  rewrite (st_run _ _ _ _ _ (on_sys_run _ _ _ _ E)). destruct Hcase as [(Hr & -> & Hpat & Hf')|(Hr & Hf' & Hpat)].
  - rewrite (proj2 (Z.ltb_lt _ _)) by lia. cbn [Z.eqb EINTR Pos.eqb].
    destruct (IH fd buf len offs (set_kern k s) d bs) as (k' & E' & Hk' & Hp'); [done | done | done | cbn [set_kern sp_kern]; lia |].
    exists k'. cbn [set_kern sp_kern] in *. split; [by rewrite E' | split; [done | lia]].
  - rewrite (proj2 (Z.ltb_ge _ _)) by lia. rewrite (st_run _ _ (set_kern k s) tt (set_kern k s)) by (unfold lift, guard_c; by rewrite (proj2 (Z.leb_le _ _)) by lia).
    destruct (IH fd (buf.1, buf.2 + r) (len - r) (offs + r) (set_kern k s) (write_at d offs (take (Z.to_nat r) bs)) (drop (Z.to_nat r) bs)) as (k' & E' & Hk' & Hp');
      [done | apply mem_read_drop; [done | lia] | lia | cbn [set_kern sp_kern]; lia |].
    exists k'. cbn [set_kern sp_kern] in *. rewrite E'. split; [done | split; [| lia]]. rewrite Hk'. f_equal. apply stored_at_step; [done | lia].
Qed.

(** What a read of [len] bytes at [offs] returns. *)
Definition content (d : list Z) (offs len : Z) : list Z := take (Z.to_nat len) (drop (Z.to_nat offs) d).

Lemma content_step d offs len r : 0 <= offs -> 0 <= r <= len ->
  content d offs len = take (Z.to_nat r) (drop (Z.to_nat offs) d) ++ content d (offs + r) (len - r).
Proof.
  intros Ho Hr. unfold content. rewrite <- (take_drop (Z.to_nat r) (take (Z.to_nat len) _)) at 1. rewrite take_take, Nat.min_l by lia. f_equal.
  rewrite skipn_firstn_comm, drop_drop. f_equal; [lia |]. f_equal. lia.
Qed.
Lemma length_content d offs len : 0 <= len -> Z.of_nat (length (content d offs len)) <= len.
Proof. intros Hl. unfold content. rewrite length_take. lia. Qed.

Lemma pread_loop_spec n : forall fd buf len offs c s d b, file_at (sp_kern s) fd = Some d ->
  sp_mem s !! buf.1 = Some b -> 0 <= buf.2 -> buf.2 + len <= Z.of_nat (length b) -> 0 <= len -> 0 <= offs ->
  (patience (sp_kern s) + Z.to_nat len < n)%nat ->
  let got := content d offs len in
  exists k, pread_loop n fd buf len offs c s =
      Ret (Some (c + Z.of_nat (length got)), set_kern k (set_mem (<[buf.1:=splice b (Z.to_nat buf.2) got]> (sp_mem s)) s)) /\
    file_at k fd = Some d.
Proof.
  induction n as [|n IH]; intros fd buf len offs c s d b Hf Hb H1 H2 Hl Ho Hn got; [lia |]. cbn [pread_loop].
  destruct (Z.eqb_spec len 0) as [->|Hne].
  { exists (sp_kern s). unfold got, content. cbn [Z.to_nat take length]. rewrite splice_nil, insert_id, Z.add_0_r by done. by destruct s. }
  destruct (pread_law (sp_kern s) fd len offs d) as (r & e & bs & k & E & Hf' & Hcase); [done | lia | done |].
  rewrite (st_run _ _ _ _ _ (on_sys_run _ _ _ _ E)). destruct Hcase as [(Hr & -> & Hpat)|(Hr & Hlb & -> & Hend & Hpat)].
  - rewrite (proj2 (Z.ltb_lt _ _)) by lia. cbn [Z.eqb EINTR Pos.eqb].
    destruct (IH fd buf len offs c (set_kern k s) d b) as (k' & E' & Hk'); [done | done | done | done | done | done | cbn [set_kern sp_kern]; lia |].
    exists k'. cbn [set_kern sp_kern sp_mem set_mem sp_shm sp_dirs sp_root] in *. rewrite E'. done.
  - rewrite (proj2 (Z.ltb_ge _ _)) by lia. set (s1 := set_kern k s). set (bs := take (Z.to_nat r) (drop (Z.to_nat offs) d)) in *.
    rewrite (st_run _ _ s1 tt s1) by (unfold lift, guard_c; by rewrite (proj2 (Z.leb_le _ _)) by lia).
    set (mem1 := <[buf.1:=splice b (Z.to_nat buf.2) bs]> (sp_mem s)). set (s2 := set_mem mem1 s1).
    rewrite (st_run _ _ s1 tt s2) by (unfold store; rewrite (mem_write_ret _ buf bs b); [done | done | lia | lia]).
    assert (Hgot : got = bs ++ content d (offs + r) (len - r)) by (apply content_step; lia).
    destruct (Z.eqb_spec r 0) as [->|Hr0].
    + exists k. assert (got = []) as Eg.
      { unfold got, content. rewrite drop_ge by (specialize (Hend eq_refl); lia). apply take_nil. }
      assert (bs = []) as Eb by done. unfold s2, s1, mem1. rewrite Eg, Eb. cbn [length]. rewrite Z.add_0_r. done.
    + destruct (IH fd (buf.1, buf.2 + r) (len - r) (offs + r) (c + r) s2 d (splice b (Z.to_nat buf.2) bs)) as (k' & E' & Hk');
        [done | apply lookup_insert_eq | cbn; lia | cbn [snd]; rewrite length_splice; lia | lia | lia | cbn [s2 s1 set_mem set_kern sp_kern]; lia |].
      assert (Ec : c + r + Z.of_nat (length (content d (offs + r) (len - r))) = c + Z.of_nat (length got)) by (rewrite Hgot, length_app; lia).
      assert (Em : <[buf.1:=splice (splice b (Z.to_nat buf.2) bs) (Z.to_nat (buf.2 + r)) (content d (offs + r) (len - r))]> (sp_mem s2) =
        <[buf.1:=splice b (Z.to_nat buf.2) got]> (sp_mem s)).
      { change (sp_mem s2) with mem1. unfold mem1. rewrite insert_insert_eq. f_equal. pose proof (length_content d (offs + r) (len - r)).
        replace (Z.to_nat (buf.2 + r)) with (Z.to_nat buf.2 + length bs)%nat by lia. rewrite splice_adjacent by lia. by rewrite Hgot. }
      exists k'. rewrite E'. cbn [fst snd]. rewrite Ec, Em. done.
Qed.
End Transfers.

(** C23: What is written to a file is read back.  On a file system whose transfers do not fail
    but by being interrupted, a write command and a read command of the same size at the
    same offset of an open file both succeed, whatever the sizes of the partial transfers
    and however often they are interrupted, and the second fills its buffer with the bytes
    of the first; that file has those bytes at the offset and is otherwise unchanged.  Of
    the supplicant's own state the write changes nothing and the read only those bytes of
    the buffer. *)
Theorem fs_write_read `{FileLaws K} fuel realloc (s : supp K) fd offs w r aw ar d :
  (patience (sp_kern s) + Z.to_nat (ip_b w) < fuel)%nat -> shm_ok s -> param_ok w -> param_ok r ->
  has_type ATTR_MEMREF_INPUT w = true -> has_type ATTR_MEMREF_OUTPUT r = true -> ip_b r = ip_b w ->
  tee_supp_param_to_va (sp_shm s) w = Some aw -> tee_supp_param_to_va (sp_shm s) r = Some ar ->
  0 <= fd < 2 ^ 31 -> 0 <= offs < 2 ^ 63 -> file_at (sp_kern s) fd = Some d ->
  let wp := [mkIop ATTR_VALUE_INPUT OPTEE_MRF_WRITE fd offs; w] in
  let rp := [mkIop ATTR_VALUE_INPUT OPTEE_MRF_READ fd offs; r] in
  exists bs buf k1 k2, mem_read (sp_mem s) aw (ip_b w) = Ret bs /\ sp_mem s !! ar.1 = Some buf /\
    let s1 := set_kern k1 s in
    let s2 := set_kern k2 (set_mem (<[ar.1:=splice buf (Z.to_nat ar.2) bs]> (sp_mem s)) s) in
    tee_supp_fs_process fuel realloc wp s = Ret ((TEEC_SUCCESS, wp), s1) /\ file_at k1 fd = Some (stored_at d offs bs) /\
    tee_supp_fs_process fuel realloc rp s1 = Ret ((TEEC_SUCCESS, rp), s2) /\ file_at k2 fd = Some (stored_at d offs bs) /\
    mem_read (sp_mem s2) ar (ip_b r) = Ret bs.
Proof.
  intros Hfuel Hs Hw Hr Htw Htr Hsz Eaw Ear Hfd Hoffs Hfile wp rp.
  destruct (param_to_va_in s w aw Hs Hw Eaw) as (bw & Ebw & Haw0 & Haw1). destruct (param_to_va_in s r ar Hs Hr Ear) as (br & Ebr & Har0 & Har1).
  assert (Hlen : 0 <= ip_b w) by apply Hw. pose proof (mem_read_ret _ aw (ip_b w) bw Ebw Haw0 Hlen Haw1) as Hm. set (bs := take _ _) in Hm.
  assert (Hi : i64 offs = offs) by (unfold i64; rewrite u64_small, (proj2 (Z.ltb_lt _ _)) by lia; done). assert (Hi32 : i32 fd = fd) by (apply i32_small; lia).
  destruct (pwrite_loop_spec fuel fd aw (ip_b w) offs s d bs) as (k1 & E1 & Hf1 & Hp1); [done | done | lia | lia |].
  set (s1 := set_kern k1 s) in *. destruct (mem_read_bytes _ _ _ _ Hm) as [Hbl _].
  destruct (pread_loop_spec fuel fd ar (ip_b r) offs 0 s1 (stored_at d offs bs) br) as (k2 & E2 & Hf2);
    [done | done | done | done | lia | lia | rewrite Hsz; cbn [s1 set_kern sp_kern]; lia |].
  assert (Hgot : content (stored_at d offs bs) offs (ip_b r) = bs).
  { rewrite Hsz. destruct bs as [|x bs0] eqn:Ebs; [unfold content; replace (Z.to_nat (ip_b w)) with 0%nat by (cbn in Hbl; lia); done |].
    cbn [stored_at]. unfold content. rewrite <- Hbl, Nat2Z.id. apply read_write_at. lia. }
  rewrite Hgot in E2. replace (0 + Z.of_nat (length bs)) with (ip_b r) in E2 by lia. set (s2 := set_kern k2 _) in E2.
  exists bs, br, k1, k2. split; [done |]. split; [done |]. fold s1. cbv zeta. change (set_kern k2 _) with s2. split.
  { unfold wp, tee_supp_fs_process. cbn [ip_a]. change (negb (tee_supp_param_is_value _)) with false. cbv iota.
    change (ree_fs_new_write fuel wp s = Ret (TEEC_SUCCESS, wp, s1)). unfold ree_fs_new_write, wp. rewrite Htw. change (has_type ATTR_VALUE_INPUT _) with true. cbn [negb orb].
    rewrite (st_run _ _ s (sp_shm s) s) by done. rewrite Eaw. cbn [ip_b ip_c]. rewrite Hi32, Hi, (st_run _ _ _ _ _ E1). done. }
  split; [done |]. split.
  { unfold rp, tee_supp_fs_process. cbn [ip_a]. change (negb (tee_supp_param_is_value _)) with false. cbv iota.
    change (ree_fs_new_read fuel rp s1 = Ret (TEEC_SUCCESS, rp, s2)). unfold ree_fs_new_read, rp. rewrite Htr. change (has_type ATTR_VALUE_INPUT _) with true. cbn [negb orb].
    rewrite (st_run _ _ s1 (sp_shm s) s1) by done. rewrite Ear. cbn [ip_b ip_c]. rewrite Hi32, Hi, (st_run _ _ _ _ _ E2). by destruct r. }
  split; [done |]. rewrite (mem_read_ret _ ar (ip_b r) (splice br (Z.to_nat ar.2) bs)); [| apply lookup_insert_eq | done | lia | rewrite length_splice; lia].
  f_equal. replace (Z.to_nat (ip_b r)) with (length bs) by lia. apply splice_same. lia.
Qed.

(** ** Creating files *)

(** The files and directories that exist: a directory is made in an existing one under a
    new name, an empty one can be removed, and a call that fails changes nothing.  This is an
    idealisation in two ways: a path names one entry (it is canonical, without links or
    [..]), and the removal of an empty directory does not fail for lack of permission. *)
Class TreeLaws (K : Type) `{Posix K} := {
  tree : K -> gset (list Z);
  tree_patience : K -> nat;
  tree_closed : forall k x, x ∈ tree k -> dirname x ∈ tree k;
  mkdir_law : forall k path mode, exists r e k', p_mkdir path mode k = Ret ((r, e), k') /\ (tree_patience k' <= tree_patience k)%nat /\
    ((r = 0 /\ path ∉ tree k /\ dirname path ∈ tree k /\ tree k' = ({[path]} ∪ tree k)) \/ (r <> 0 /\ tree k' = tree k));
  rmdir_law : forall k path, path ∈ tree k -> (forall x, x ∈ tree k -> dirname x <> path) ->
    exists e k', p_rmdir path k = Ret ((0, e), k') /\ (tree_patience k' <= tree_patience k)%nat /\ tree k' = (tree k ∖ {[path]});
  open_law : forall k path flags mode, exists r e k', p_open path flags mode k = Ret ((r, e), k') /\ (tree_patience k' <= tree_patience k)%nat /\
    (r < 0 -> tree k' = tree k) /\ (r < 0 -> e = EINTR -> (tree_patience k' < tree_patience k)%nat) }.

Section Creation.
Context {K : Type} `{TreeLaws K}.

Lemma open_retry n path flags mode : forall s, (tree_patience (sp_kern s) < n)%nat ->
  exists r e k, retry n (on_sys (p_open path flags mode)) interrupted s = Ret ((r, e), set_kern k s) /\
    (tree_patience k <= tree_patience (sp_kern s))%nat /\ (r < 0 -> tree k = tree (sp_kern s)).
Proof.
  induction n as [|n IH]; intros s Hn; [lia |]. cbn [retry]. destruct (open_law (sp_kern s) path flags mode) as (r & e & k & E & Hp & Ht & Hi).
  rewrite (st_run _ _ _ _ _ (on_sys_run _ _ _ _ E)). unfold interrupted at 1. cbn [fst snd].
  destruct (Z.ltb_spec r 0) as [Hr|Hr]; cbn [andb]; [destruct (Z.eqb_spec e EINTR) as [->|] |].
  - destruct (IH (set_kern k s)) as (r' & e' & k' & E' & Hp' & Ht'); [cbn [set_kern sp_kern]; specialize (Hi Hr eq_refl); lia |].
    exists r', e', k'. cbn [set_kern sp_kern] in *. split; [by rewrite E' | split; [lia |]]. intros Hr'. by rewrite Ht', Ht.
  - exists r, e, k. split; [done | split; [lia | done]].
  - exists r, e, k. split; [done | split; [lia | done]].
Qed.

(** Removing what has just been made gives back the tree. *)
Lemma rmdir_made k path t : tree k = ({[path]} ∪ t) -> path ∉ t -> (forall x, x ∈ t -> dirname x ∈ t) -> dirname path ∈ t ->
  exists e k', p_rmdir path k = Ret ((0, e), k') /\ (tree_patience k' <= tree_patience k)%nat /\ tree k' = t.
Proof.
  intros Et Hn Hcl Hd. destruct (rmdir_law k path) as (e & k' & E & Hp & Ht); [rewrite Et; set_solver | |].
  - intros x Hx Ex. rewrite Et in Hx. apply elem_of_union in Hx as [->%elem_of_singleton|Hx]; [rewrite Ex in Hd; done |].
    apply Hcl in Hx. rewrite Ex in Hx. done.
  - exists e, k'. split; [done | split; [done |]]. rewrite Ht, Et. set_solver.
Qed.

Definition outcome_of_create (s : supp K) (m : outcome (option Z * supp K)) : Prop :=
  exists r k, m = Ret (r, set_kern k s) /\ (r = None -> tree k = tree (sp_kern s)).

Lemma create_file_spec fuel path s : (tree_patience (sp_kern s) < fuel)%nat -> outcome_of_create s (create_file fuel path s).
Proof.
  intros Hf. unfold create_file, open_wrapper. set (flags := Z.lor (Z.lor (Z.lor F_O_RDWR F_O_CREAT) F_O_TRUNC) F_O_SYNC).
  set (t := tree (sp_kern s)). assert (Hcl : forall x, x ∈ t -> dirname x ∈ t) by apply tree_closed.
  destruct (open_retry fuel path flags 0x180 s Hf) as (r & e & k & E & Hp & Ht). rewrite (st_run _ _ _ _ _ E). cbn [fst snd].
  destruct (Z.leb_spec 0 r) as [Hr|Hr]; [by exists (Some r), k |]. specialize (Ht Hr). fold t in Ht.
  destruct (negb (e =? ENOENT)); [by exists None, k |]. set (d := dirname path). set (s1 := set_kern k s).
  destruct (mkdir_law k d 0x1c0) as (r2 & e2 & k2 & E2 & Hp2 & Hc2). rewrite (st_run _ _ s1 _ _ (on_sys_run _ s1 _ _ E2)). cbn [fst snd].
  change (set_kern k2 s1) with (set_kern k2 s). rewrite Ht in Hc2. destruct Hc2 as [(-> & Hn2 & Hd2 & Ht2)|(Hr2 & Ht2)].
  - cbn [Z.eqb]. destruct (open_retry fuel path flags 0x180 (set_kern k2 s)) as (r3 & e3 & k3 & E3 & Hp3 & Ht3); [cbn [set_kern sp_kern]; lia |].
    rewrite (st_run _ _ _ _ _ E3). cbn [fst snd set_kern sp_kern] in *. destruct (Z.leb_spec 0 r3) as [Hr3|Hr3]; [by exists (Some r3), k3 |].
    destruct (rmdir_made k3 d t) as (e4 & k4 & E4 & _ & Ht4); [by rewrite Ht3, Ht2 | done | done | done |].
    rewrite (st_run _ _ (set_kern k3 s) _ _ (on_sys_run _ (set_kern k3 s) _ _ E4)). by exists None, k4.
  - rewrite (proj2 (Z.eqb_neq _ _) Hr2). destruct (negb (e2 =? ENOENT)); [by exists None, k2 |].
    destruct (mkdir_law k2 (dirname d) 0x1c0) as (r3 & e3 & k3 & E3 & Hp3 & Hc3). rewrite (st_run _ _ (set_kern k2 s) _ _ (on_sys_run _ (set_kern k2 s) _ _ E3)). cbn [fst snd].
    change (set_kern k3 (set_kern k2 s)) with (set_kern k3 s). rewrite Ht2 in Hc3. destruct Hc3 as [(-> & Hn3 & Hd3 & Ht3)|(Hr3 & Ht3)].
    2: { rewrite (proj2 (Z.eqb_neq _ _) Hr3). by exists None, k3. }
    cbn [Z.eqb negb]. destruct (mkdir_law k3 d 0x1c0) as (r4 & e4 & k4 & E4 & Hp4 & Hc4). rewrite (st_run _ _ (set_kern k3 s) _ _ (on_sys_run _ (set_kern k3 s) _ _ E4)). cbn [fst snd].
    change (set_kern k4 (set_kern k3 s)) with (set_kern k4 s). destruct Hc4 as [(-> & Hn4 & Hd4 & Ht4)|(Hr4 & Ht4)].
    + cbn [Z.eqb negb]. destruct (open_retry fuel path flags 0x180 (set_kern k4 s)) as (r5 & e5 & k5 & E5 & Hp5 & Ht5); [cbn [set_kern sp_kern]; lia |].
      rewrite (st_run _ _ _ _ _ E5). cbn [fst snd set_kern sp_kern] in *. destruct (Z.ltb_spec r5 0) as [Hr5|Hr5]; [| by exists (Some r5), k5].
      destruct (rmdir_made k5 d (tree k3)) as (e6 & k6 & E6 & _ & Ht6); [by rewrite Ht5, Ht4 | done | apply tree_closed | done |].
      rewrite (st_run _ _ (set_kern k5 s) _ _ (on_sys_run _ (set_kern k5 s) _ _ E6)).
      destruct (rmdir_made k6 (dirname d) t) as (e7 & k7 & E7 & _ & Ht7); [by rewrite Ht6, Ht3 | done | done | done |].
      change (set_kern k6 (set_kern k5 s)) with (set_kern k6 s).
      rewrite (st_run _ _ (set_kern k6 s) _ _ (on_sys_run _ (set_kern k6 s) _ _ E7)). by exists None, k7.
    + rewrite (proj2 (Z.eqb_neq _ _) Hr4). cbn [negb].
      destruct (rmdir_made k4 (dirname d) t) as (e5 & k5 & E5 & _ & Ht5); [by rewrite Ht4, Ht3 | done | done | done |].
      rewrite (st_run _ _ (set_kern k4 s) _ _ (on_sys_run _ (set_kern k4 s) _ _ E5)). by exists None, k5.
Qed.
End Creation.

(** The file names of a request end inside their blocks. *)
Definition names_ok {K} (s : supp K) (params : list tee_ioctl_param) : Prop :=
  Forall (fun p => forall a, tee_supp_param_to_va (sp_shm s) p = Some a -> exists f, mem_cstr (sp_mem s) a = Ret f) params.

Lemma path_param_run {K} (s : supp K) p : names_ok s [p] -> exists o, path_param p s = Ret (o, s).
Proof.
  intros Hn. unfold path_param. destruct (tee_supp_param_to_va (sp_shm s) p) as [a|] eqn:E; [| by eexists].
  apply Forall_cons in Hn as [Hn _]. destruct (Hn a E) as [f ->]. cbn [mbind outcome_bind]. by eexists.
Qed.

Lemma path_param_some {K} (s : supp K) p a f o : tee_supp_param_to_va (sp_shm s) p = Some a -> mem_cstr (sp_mem s) a = Ret f ->
  tee_fs_get_absolute_filename (sp_root s) f PATH_MAX = Some o -> path_param p s = Ret (Some o, s).
Proof. intros E1 E2 E3. unfold path_param. rewrite E1, E2. cbn [mbind outcome_bind]. by rewrite E3. Qed.


(** ** Directories *)

(** The entries a directory stream has left; reading takes the first. *)
Class DirLaws (K : Type) `{Posix K} := {
  entries : K -> Z -> option (list (list Z));
  readdir_law : forall k dir l, entries k dir = Some l ->
    exists k', p_readdir dir k = Ret (head l, k') /\ entries k' dir = Some (tail l) }.

(** What remains once the entries that start with a dot are passed over. *)
Fixpoint visible (l : list (list Z)) : list (list Z) :=
  match l with
  | [] => []
  | name :: l' => if hidden name then visible l' else l
  end.

Lemma next_entry_spec `{DirLaws K} n dir : forall l (s : supp K), entries (sp_kern s) dir = Some l -> (length l < n)%nat ->
  exists k, next_entry n dir s = Ret (head (visible l), set_kern k s) /\ entries k dir = Some (tail (visible l)).
Proof.
  induction n as [|n IH]; intros l s El Hn; [lia |]. cbn [next_entry]. destruct (readdir_law _ _ _ El) as (k & E & Ek).
  rewrite (st_run _ _ _ _ _ (on_sys_run _ _ _ _ E)). destruct l as [|name l]; cbn [head tail visible] in *; [by exists k |].
  destruct (hidden name); [| by exists k]. cbn [length] in Hn.
  destruct (IH l (set_kern k s)) as (k' & E' & Ek'); [done | lia |]. exists k'. by rewrite E'.
Qed.

Lemma lookup_handle db h l u : db = mkDb l u -> u <> Some true -> 0 <= h < 2 ^ 31 ->
  handle_lookup (Some db) h = Ret (the_ptr (handles l !! Z.to_nat h), Some db).
Proof.
  intros -> Hu Hh. unfold handle_lookup. rewrite (proj2 (Z.ltb_ge _ _)) by lia. section_step.
  unfold max_ptrs. cbn [ptrs]. rewrite lookup_ptr by lia. cbn [mbind outcome_bind]. section_step. done.
Qed.

(** Reading a directory.  On an open handle the command returns the entries that do not
    start with a dot one by one, in the order of the system, as NUL-terminated names in
    the caller's buffer, and reports the end.  A buffer that is too short gets the size
    needed and the short-buffer error, and the entry is consumed all the same: a second
    call with a larger buffer returns the entry after it. *)
Theorem fs_readdir_spec `{DirLaws K} fuel (s : supp K) h p1 buf dir l names u :
  shm_ok s -> param_ok p1 -> has_type ATTR_MEMREF_OUTPUT p1 = true -> tee_supp_param_to_va (sp_shm s) p1 = Some buf ->
  0 <= h < 2 ^ 31 -> sp_dirs s = mkDb l u -> u <> Some true -> handles l !! Z.to_nat h = Some dir -> dir <> 0 ->
  entries (sp_kern s) dir = Some names -> (length names < fuel)%nat ->
  let p0 := mkIop ATTR_VALUE_INPUT OPTEE_MRF_READDIR h 0 in
  exists res p1' s', ree_fs_new_readdir fuel [p0; p1] s = Ret ((res, [p0; p1']), s') /\
    entries (sp_kern s') dir = Some (tail (visible names)) /\
    match head (visible names) with
    | None => res = TEEC_ERROR_ITEM_NOT_FOUND /\ p1' = p1 /\ sp_mem s' = sp_mem s
    | Some name =>
        p1' = set_b p1 (Z.of_nat (length name) + 1) /\
        if ip_b p1 <? Z.of_nat (length name) + 1 then res = TEEC_ERROR_SHORT_BUFFER /\ sp_mem s' = sp_mem s
        else res = TEEC_SUCCESS /\ mem_read (sp_mem s') buf (Z.of_nat (length name) + 1) = Ret (name ++ [0])
    end.
Proof.
  intros Hs Hp Ht Eva Hh Edb Hu Edir Hdir Een Hfuel p0. destruct (param_to_va_in s p1 buf Hs Hp Eva) as (b & Eb & Hb0 & Hb1).
  unfold ree_fs_new_readdir. rewrite Ht. change (has_type ATTR_VALUE_INPUT p0) with true. cbn [negb orb].
  rewrite (st_run _ _ s (sp_shm s) s) by done. rewrite Eva. rewrite (st_run _ _ s (sp_dirs s) s) by done.
  assert (El : handle_lookup (Some (sp_dirs s)) (i32 h) = Ret (dir, Some (sp_dirs s))).
  { rewrite i32_small by lia. rewrite (lookup_handle _ _ _ _ Edb Hu) by lia. by rewrite Edir. }
  cbn [p0 ip_b]. rewrite (st_run _ _ s (dir, Some (sp_dirs s)) s) by (unfold lift; by rewrite El). cbn [fst snd].
  rewrite (st_run _ _ s (sp_dirs s) s) by done. rewrite (st_run _ _ s tt s) by (unfold modify, set_dirs; by destruct s).
  rewrite (proj2 (Z.eqb_neq _ _) Hdir). destruct (next_entry_spec fuel dir names s Een Hfuel) as (k & E & Ek). rewrite (st_run _ _ _ _ _ E).
  destruct (head (visible names)) as [name|].
  - destruct (Z.ltb_spec (ip_b p1) (Z.of_nat (length name) + 1)) as [Hlt|Hge]; [by do 3 eexists |].
    set (s1 := set_kern k s).
    assert (Hlen : Z.of_nat (length (name ++ [0])) = Z.of_nat (length name) + 1) by (rewrite length_app; cbn; lia).
    assert (Ew : mem_write (sp_mem s) buf (name ++ [0]) = Ret (<[buf.1:=splice b (Z.to_nat buf.2) (name ++ [0])]> (sp_mem s))) by (apply mem_write_ret; [done | done | lia]).
    set (mem' := <[buf.1:=_]> _) in Ew. rewrite (st_run _ _ s1 tt (set_mem mem' s1)) by (unfold store; cbn [s1 set_kern sp_mem]; by rewrite Ew). do 3 eexists. split; [reflexivity |]. split; [done |]. split; [done |]. split; [done |].
    cbn [set_mem sp_mem]. rewrite (mem_read_ret _ buf _ (splice b (Z.to_nat buf.2) (name ++ [0]))); [| apply lookup_insert_eq | done | lia | rewrite length_splice; lia].
    f_equal. replace (Z.to_nat _) with (length (name ++ [0])) by lia. apply splice_same. lia.
  - by do 3 eexists.
Qed.

(** Errors of rename are lost.  When the system call fails for any reason but a missing
    file, the file stays where it was and the command reports success to the secure
    world. *)
Theorem fs_rename_error_lost `{Posix K} (s : supp K) p0 p1 p2 old new e k :
  has_type ATTR_VALUE_INPUT p0 = true -> has_type ATTR_MEMREF_INPUT p1 = true -> has_type ATTR_MEMREF_INPUT p2 = true -> ip_b p0 <> 0 ->
  path_param p1 s = Ret (Some old, s) -> path_param p2 s = Ret (Some new, s) ->
  p_rename old new (sp_kern s) = Ret ((-1, e), k) -> e <> ENOENT ->
  ree_fs_new_rename [p0; p1; p2] s = Ret ((TEEC_SUCCESS, [p0; p1; p2]), set_kern k s).
Proof.
  intros H0 H1 H2 Hov E1 E2 Er He. unfold ree_fs_new_rename. rewrite H0, H1, H2. cbn [negb orb]. rewrite (proj2 (Z.eqb_neq _ _) Hov). cbn [negb].
  rewrite (st_run _ _ s (sp_shm s) s) by done. pose proof E1 as E1'. pose proof E2 as E2'. unfold path_param in E1', E2'.
  destruct (tee_supp_param_to_va (sp_shm s) p1); [| done]. destruct (tee_supp_param_to_va (sp_shm s) p2); [| done].
  rewrite (st_run _ _ _ _ _ E1), (st_run _ _ _ _ _ E2), (st_run _ _ s false s) by done.
  rewrite (st_run _ _ _ _ _ (on_sys_run _ _ _ _ Er)). cbn [fst snd Z.eqb negb andb]. by rewrite (proj2 (Z.eqb_neq _ _) He).
Qed.

(** Memory references of the other services.  The reference [get_param] makes of a
    parameter starts inside its shared memory object, and without an offset it is the
    parameter's range, inside the object.  With an offset larger than the size, the size
    it computes, the difference of the two, wraps around: the reference reaches past the
    end of any object. *)
Theorem get_param_range {K} (s : supp K) params idx p r a :
  shm_ok s -> params !! idx = Some p -> param_ok p -> get_param (sp_shm s) params idx = Some r -> sr_buffer r = Some a ->
  exists b, sp_mem s !! a.1 = Some b /\ 0 <= a.2 <= Z.of_nat (length b) /\ a.2 + ip_b p <= Z.of_nat (length b) /\
    (ip_a p = 0 -> sr_size r = ip_b p /\ a.2 + sr_size r <= Z.of_nat (length b)) /\
    (ip_b p < ip_a p -> sr_size r = 2 ^ 64 + ip_b p - ip_a p /\ forall t, t ∈ sp_shm s -> ts_size t < a.2 + sr_size r).
Proof.
  intros Hs Ep (Ha & Hb & Hc) Eg Er. unfold u64_ok in *. unfold get_param in Eg. rewrite Ep in Eg. destruct (negb _); [done |].
  destruct (find_tshm _ _) as [t|] eqn:Ef; [| destruct (has_type _ _); [done |]; by injection Eg as <-].
  destruct (Z.ltb_spec (u64 (ip_b p + ip_a p)) (ip_b p)) as [|E1]; [done |]. destruct (Z.ltb_spec (ts_size t) (u64 (ip_b p + ip_a p))) as [|E2]; [done |].
  injection Eg as <-. cbn in Er. injection Er as <-. cbn [fst snd sr_size].
  apply find_tshm_in in Ef as [Hin _]. pose proof (proj1 (Forall_forall _ _) Hs t Hin) as (Hts & b & Eb & Hl). exists b.
  assert (Es : u64 (ip_b p + ip_a p) = ip_b p + ip_a p).
  { destruct (decide (ip_b p + ip_a p < 2 ^ 64)); [apply u64_small; lia |]. exfalso.
    assert (u64 (ip_b p + ip_a p) = ip_b p + ip_a p - 2 ^ 64) by (symmetry; apply (Z.mod_unique_pos _ _ 1); lia). lia. }
  rewrite Es in *. split; [done |]. split; [lia |]. split; [lia |]. split.
  - intros ->. rewrite Z.sub_0_r, u64_small by lia. lia.
  - intros Hlt. assert (Ew : u64 (ip_b p - ip_a p) = 2 ^ 64 + ip_b p - ip_a p) by (symmetry; apply (Z.mod_unique_pos _ _ (-1)); lia).
    split; [done |]. intros t' Ht'. pose proof (proj1 (Forall_forall _ _) Hs t' Ht') as (Hts' & _). lia.
Qed.

(** ** A system that satisfies the laws *)

(** Transfers of at most two bytes, some calls interrupted first, files that cannot be
    opened in any directory, and a rename that is refused. *)
Definition closed_tree (t : gset (list Z)) : Prop := set_Forall (fun x => dirname x ∈ t) t.
Record toy := mkToy {
  ty_files : gmap Z (list Z); ty_intr : nat; ty_tree : { t : gset (list Z) | bool_decide (closed_tree t) };
  ty_dirs : gmap Z (list (list Z)) }.
Definition toy_set (k : toy) : gset (list Z) := proj1_sig (ty_tree k).

Definition EACCES_toy : Z := 13.
Definition calm (k : toy) : toy := mkToy (ty_files k) (pred (ty_intr k)) (ty_tree k) (ty_dirs k).
Definition with_file (k : toy) (fd : Z) (d : list Z) : toy := mkToy (<[fd:=d]> (ty_files k)) (ty_intr k) (ty_tree k) (ty_dirs k).
Definition with_dir (k : toy) (dir : Z) (l : list (list Z)) : toy := mkToy (ty_files k) (ty_intr k) (ty_tree k) (<[dir:=l]> (ty_dirs k)).
Definition with_tree (k : toy) (t : gset (list Z)) : toy :=
  match decide (bool_decide (closed_tree t)) with left p => mkToy (ty_files k) (ty_intr k) (exist _ t p) (ty_dirs k) | right _ => k end.

Definition toy_pread (fd len offs : Z) : st toy (Z * Z * list Z) := fun k =>
  match ty_intr k with
  | S _ => Ret ((-1, EINTR, []), calm k)
  | O => let bs := take (Z.to_nat (Z.min 2 len)) (drop (Z.to_nat offs) (default [] (ty_files k !! fd))) in Ret ((Z.of_nat (length bs), 0, bs), k)
  end.
Definition toy_pwrite (fd : Z) (bs : list Z) (offs : Z) : st toy (Z * Z) := fun k =>
  match ty_intr k with
  | S _ => Ret ((-1, EINTR), calm k)
  | O => let bs := take 2 bs in Ret ((Z.of_nat (length bs), 0), with_file k fd (write_at (default [] (ty_files k !! fd)) offs bs))
  end.
Definition toy_mkdir (path : list Z) (mode : Z) : st toy (Z * Z) := fun k =>
  if decide (path ∈ toy_set k) then Ret ((-1, EEXIST), k)
  else if decide (dirname path ∈ toy_set k) then Ret ((0, 0), with_tree k (({[path]} : gset (list Z)) ∪ toy_set k))
  else Ret ((-1, ENOENT), k).
Definition toy_rmdir (path : list Z) : st toy (Z * Z) := fun k =>
  if decide (path ∈ toy_set k /\ set_Forall (fun x => dirname x <> path) (toy_set k)) then Ret ((0, 0), with_tree k (toy_set k ∖ {[path]}))
  else Ret ((-1, ENOENT), k).
Definition toy_open (path : list Z) (flags mode : Z) : st toy (Z * Z) := fun k =>
  match ty_intr k with
  | S _ => Ret ((-1, EINTR), calm k)
  | O => Ret ((-1, if decide (dirname path ∈ toy_set k) then EACCES_toy else ENOENT), k)
  end.

#[export] Instance toy_posix : Posix toy := {
  p_open := toy_open; p_close fd := mret (0, 0); p_pread := toy_pread; p_pwrite := toy_pwrite;
  p_write fd bs := mret (Z.of_nat (length bs), 0); p_ftruncate fd len := mret (0, 0);
  p_mkdir := toy_mkdir; p_rmdir := toy_rmdir; p_unlink path := mret (-1, ENOENT); p_rename old new := mret (-1, EACCES_toy);
  p_stat path := mret (-1, false); p_opendir path := mret 0;
  p_readdir dir := fun k => Ret (head (default [] (ty_dirs k !! dir)), with_dir k dir (tail (default [] (ty_dirs k !! dir))));
  p_rewinddir dir := mret tt; p_closedir dir := mret tt; p_fopen path := mret 0; p_fseek_end f := mret (-1); p_fseek_set f := mret (-1);
  p_ftell f := mret 0; p_fread f n := mret []; p_fclose f := mret tt; p_alloc n := mret false; p_mmap fd n := mret false;
  p_munmap blk n := mret 0; p_shm_alloc fd n := mret (-1, 0, 0); p_shm_register fd blk n := mret (-1, 0) }.

#[export] Instance toy_files : FileLaws toy.
Proof.
  refine {| file_at k fd := ty_files k !! fd; patience := ty_intr |}.
  - intros k fd len offs d Hd Hl Ho. cbn [p_pread toy_posix]. unfold toy_pread. destruct (ty_intr k) as [|n] eqn:En.
    + rewrite Hd. change (default [] (Some d)) with d. set (bs := take _ _). exists (Z.of_nat (length bs)), 0, bs, k. split; [done |]. split; [done |]. right.
      assert (Hbs : Z.of_nat (length bs) = Z.min (Z.min 2 len) (Z.of_nat (length d) - Z.min offs (Z.of_nat (length d)))) by (unfold bs; rewrite length_take, length_drop; lia).
      split; [lia |]. split; [done |]. split; [| split; [intros; lia | lia]]. rewrite Nat2Z.id. unfold bs at 1. symmetry.
      replace (length bs) with (Nat.min (length bs) (Z.to_nat (Z.min 2 len))) by lia. rewrite <- take_take. fold bs. by rewrite firstn_all.
    + exists (-1), EINTR, [], (calm k). split; [done |]. split; [done |]. left. split; [lia |]. split; [done |]. unfold calm. cbn [ty_intr]. rewrite En. cbn. lia.
  - intros k fd bs offs d Hd Hl Ho. cbn [p_pwrite toy_posix]. unfold toy_pwrite. destruct (ty_intr k) as [|n] eqn:En.
    + rewrite Hd. change (default [] (Some d)) with d. do 3 eexists. split; [done |]. right. assert (length (take 2 bs) = Nat.min 2 (length bs)) as Hlt by apply length_take.
      split; [lia |]. split; [| cbn [with_file ty_intr]; lia]. cbn [with_file ty_files]. rewrite lookup_insert_eq. do 2 f_equal. rewrite Nat2Z.id, Hlt.
      destruct (decide (2 <= length bs)%nat); [by rewrite Nat.min_l by lia |]. rewrite Nat.min_r, firstn_all by lia. apply take_ge. lia.
    + exists (-1), EINTR, (calm k). split; [done |]. left. split; [lia |]. split; [done |]. split; [| done]. unfold calm. cbn [ty_intr]. rewrite En. cbn. lia.
Defined.

Lemma with_tree_set k t : closed_tree t -> toy_set (with_tree k t) = t /\ ty_intr (with_tree k t) = ty_intr k.
Proof.
  intros Ht. unfold with_tree. destruct (decide _) as [p|n]; [done |]. destruct n. by apply bool_decide_pack.
Qed.
Lemma toy_closed k : closed_tree (toy_set k).
Proof. unfold toy_set. destruct (ty_tree k) as [t p]. exact (bool_decide_unpack _ p). Qed.

#[export] Instance toy_tree : TreeLaws toy.
Proof.
  refine {| tree := toy_set; tree_patience := ty_intr |}.
  - intros k x Hx. by apply (toy_closed k).
  - intros k path mode. cbn [p_mkdir toy_posix]. unfold toy_mkdir. destruct (decide _) as [Hin|Hn]; [do 3 eexists; split; [done |]; split; [lia | by right] |].
    destruct (decide _) as [Hd|]; [| do 3 eexists; split; [done |]; split; [lia | by right]].
    destruct (with_tree_set k (({[path]} : gset (list Z)) ∪ toy_set k)) as [E1 E2].
    { intros x [->%elem_of_singleton|Hx]%elem_of_union; [set_solver |]. apply (toy_closed k) in Hx. cbn in Hx. set_solver. }
    do 3 eexists. split; [done |]. rewrite E2. split; [lia | left]. by rewrite E1.
  - intros k path Hin Hc. cbn [p_rmdir toy_posix]. unfold toy_rmdir. rewrite decide_True by (split; [done | intros x Hx; by apply Hc]).
    destruct (with_tree_set k (toy_set k ∖ {[path]})) as [E1 E2].
    { intros x [Hx Hne]%elem_of_difference. pose proof (toy_closed k x Hx) as Hp. cbn in Hp. specialize (Hc x Hx). set_solver. }
    do 2 eexists. split; [done |]. rewrite E2. split; [lia | done].
  - intros k path flags mode. cbn [p_open toy_posix]. unfold toy_open. destruct (ty_intr k) as [|n] eqn:En.
    + do 3 eexists. split; [done |]. split; [lia |]. split; [done |]. intros _ He. destruct (decide _); discriminate He.
    + do 3 eexists. split; [done |]. cbn [calm ty_intr]. rewrite En. cbn. split; [lia |]. split; [done |]. intros _ _. lia.
Defined.

#[export] Instance toy_dirs : DirLaws toy.
Proof.
  refine {| entries k dir := ty_dirs k !! dir |}. intros k dir l El. cbn [p_readdir toy_posix]. rewrite El. eexists. split; [done |]. apply lookup_insert_eq.
Defined.

(** ** Witnesses *)

Definition root_tree : gset (list Z) := {[ [slash] ]}.
Lemma root_tree_closed : bool_decide (closed_tree root_tree).
Proof. apply bool_decide_pack. intros x ->%elem_of_singleton. apply elem_of_singleton. reflexivity. Defined.

(** One file of three bytes, one directory, two interruptions to come. *)
Definition toy0 : toy := mkToy {[ 5 := [9; 8; 7] ]} 2 (exist _ root_tree root_tree_closed) {[ 70 := [[dot]; [97]; [98; 99]] ]}.
(** Two shared memory objects: a name and four bytes. *)
Definition ex_shm : list tee_shm := [mkTshm 1 100 8 true 3; mkTshm 2 200 4 true 4].
Definition ex_supp : supp toy :=
  mkSupp ex_shm {[ 100 := [97; 47; 98; 0; 1; 2; 3; 4]; 200 := [0; 0; 0; 0] ]} (mkDb [0; 70; 0; 0] (Some false)) [slash] [] toy0.
Definition ex_in : tee_ioctl_param := mkIop ATTR_MEMREF_INPUT 4 4 1.
Definition ex_out : tee_ioctl_param := mkIop ATTR_MEMREF_OUTPUT 0 4 2.
Definition ex_name : tee_ioctl_param := mkIop ATTR_MEMREF_INPUT 0 4 1.

Lemma ex_shm_ok : shm_ok ex_supp.
Proof.
  repeat apply Forall_cons_2; [| | apply Forall_nil_2]; (split; [vm_compute; reflexivity |]); eexists; (split; [vm_compute; reflexivity | vm_compute; discriminate]).
Defined.
Lemma ex_names_ok l : Forall (fun p => p = ex_name \/ tee_supp_param_to_va ex_shm p = None) l -> names_ok ex_supp l.
Proof.
  intros Hl. eapply Forall_impl; [exact Hl |]. intros p [-> | E] a Ea; [| cbn [sp_shm ex_supp] in Ea; rewrite E in Ea; discriminate].
  vm_compute in Ea. injection Ea as <-. eexists. vm_compute. reflexivity.
Defined.

Ltac ex_range := unfold param_ok, u64_ok; cbn; lia.

Lemma fs_write_read_witness :
  exists bs buf k1 k2, mem_read (sp_mem ex_supp) (100, 4) 4 = Ret bs /\ sp_mem ex_supp !! 200 = Some buf /\
    let s1 := set_kern k1 ex_supp in
    let s2 := set_kern k2 (set_mem (<[200:=splice buf 0 bs]> (sp_mem ex_supp)) ex_supp) in
    tee_supp_fs_process 10 (fun _ => true) [mkIop ATTR_VALUE_INPUT OPTEE_MRF_WRITE 5 2; ex_in] ex_supp =
      Ret ((TEEC_SUCCESS, [mkIop ATTR_VALUE_INPUT OPTEE_MRF_WRITE 5 2; ex_in]), s1) /\
    file_at k1 5 = Some (stored_at [9; 8; 7] 2 bs) /\
    tee_supp_fs_process 10 (fun _ => true) [mkIop ATTR_VALUE_INPUT OPTEE_MRF_READ 5 2; ex_out] s1 =
      Ret ((TEEC_SUCCESS, [mkIop ATTR_VALUE_INPUT OPTEE_MRF_READ 5 2; ex_out]), s2) /\
    file_at k2 5 = Some (stored_at [9; 8; 7] 2 bs) /\ mem_read (sp_mem s2) (200, 0) 4 = Ret bs.
Proof.
  apply (fs_write_read 10 (fun _ => true) ex_supp 5 2 ex_in ex_out (100, 4) (200, 0) [9; 8; 7]);
    [vm_compute; lia | apply ex_shm_ok | ex_range | ex_range | reflexivity | reflexivity | reflexivity | vm_compute; reflexivity | vm_compute; reflexivity | lia | lia | vm_compute; reflexivity].
Defined.

Definition ex_create : list tee_ioctl_param := [mkIop ATTR_VALUE_INPUT OPTEE_MRF_CREATE 0 0; ex_name; mkIop ATTR_VALUE_OUTPUT 0 0 0].

Lemma fs_readdir_spec_witness :
  exists res p1' s', ree_fs_new_readdir 10 [mkIop ATTR_VALUE_INPUT OPTEE_MRF_READDIR 1 0; ex_out] ex_supp =
      Ret ((res, [mkIop ATTR_VALUE_INPUT OPTEE_MRF_READDIR 1 0; p1']), s') /\
    entries (sp_kern s') 70 = Some (tail (visible [[dot]; [97]; [98; 99]])) /\
    match head (visible [[dot]; [97]; [98; 99]]) with
    | None => res = TEEC_ERROR_ITEM_NOT_FOUND /\ p1' = ex_out /\ sp_mem s' = sp_mem ex_supp
    | Some name =>
        p1' = set_b ex_out (Z.of_nat (length name) + 1) /\
        if ip_b ex_out <? Z.of_nat (length name) + 1 then res = TEEC_ERROR_SHORT_BUFFER /\ sp_mem s' = sp_mem ex_supp
        else res = TEEC_SUCCESS /\ mem_read (sp_mem s') (200, 0) (Z.of_nat (length name) + 1) = Ret (name ++ [0])
    end.
Proof.
  apply (fs_readdir_spec 10 ex_supp 1 ex_out (200, 0) 70 [0; 70; 0; 0] [[dot]; [97]; [98; 99]] (Some false));
    [apply ex_shm_ok | ex_range | reflexivity | vm_compute; reflexivity | lia | reflexivity | discriminate | vm_compute; reflexivity | discriminate | vm_compute; reflexivity | cbn; lia].
Defined.

Lemma ex_path : path_param ex_name ex_supp = Ret (Some [47; 97; 47; 98], ex_supp).
Proof. apply (path_param_some ex_supp ex_name (100, 0) [97; 47; 98]); vm_compute; reflexivity. Defined.

Lemma fs_rename_error_lost_witness :
  ree_fs_new_rename [mkIop ATTR_VALUE_INPUT OPTEE_MRF_RENAME 1 0; ex_name; ex_name] ex_supp =
    Ret ((TEEC_SUCCESS, [mkIop ATTR_VALUE_INPUT OPTEE_MRF_RENAME 1 0; ex_name; ex_name]), set_kern toy0 ex_supp).
Proof.
  apply (fs_rename_error_lost ex_supp (mkIop ATTR_VALUE_INPUT OPTEE_MRF_RENAME 1 0) ex_name ex_name [47; 97; 47; 98] [47; 97; 47; 98] EACCES_toy toy0);
    [reflexivity | reflexivity | reflexivity | discriminate | apply ex_path | apply ex_path | reflexivity | discriminate].
Defined.

Definition ex_wrap : tee_ioctl_param := mkIop ATTR_MEMREF_INPUT 4 1 1.
Lemma get_param_range_witness :
  exists b, sp_mem ex_supp !! 100 = Some b /\ 0 <= 4 <= Z.of_nat (length b) /\ 4 + ip_b ex_wrap <= Z.of_nat (length b) /\
    (ip_a ex_wrap = 0 -> u64 (1 - 4) = ip_b ex_wrap /\ 4 + u64 (1 - 4) <= Z.of_nat (length b)) /\
    (ip_b ex_wrap < ip_a ex_wrap -> u64 (1 - 4) = 2 ^ 64 + ip_b ex_wrap - ip_a ex_wrap /\ forall t, t ∈ sp_shm ex_supp -> ts_size t < 4 + u64 (1 - 4)).
Proof.
  apply (get_param_range ex_supp [ex_wrap] 0 ex_wrap (mkRef (Some (100, 4)) (u64 (1 - 4)) 1 3) (100, 4));
    [apply ex_shm_ok | reflexivity | ex_range | vm_compute; reflexivity | reflexivity].
Defined.
