(* ===== verification/SuppLoad.v ===== *)
(** * Loading of trusted applications, shared memory allocation and profiles
      (tee_supplicant.c, teec_ta_load.c, gprof.c)

    The commands that read a trusted application from the file system into shared memory,
    that allocate and free shared memory, and that append profiling data to a file. *)

From stdpp Require Import base numbers list gmap.
From S2P Require Import Prelude SkTypes TeeClient SuppMem SuppFs.

(** ** Names *)

Definition hex_char (d : Z) : Z := if d <? 10 then 48 + d else 87 + d.
(** [%0<n>x] of a value of at most [n] digits. *)
Fixpoint hex_fixed (n : nat) (v : Z) : list Z :=
  match n with
  | O => []
  | S n => hex_fixed n (v / 16) ++ [hex_char (v mod 16)]
  end.
Definition dash : Z := 45.

(** From the sixteen octets of the two words of a value parameter. *)
Definition uuid_from_octets (s : list Z) : TEEC_UUID :=
  let at_ k := nth k s 0 in
  mkUuid
    (u32 (Z.lor (Z.lor (Z.lor (Z.shiftl (at_ 0%nat) 24) (Z.shiftl (at_ 1%nat) 16)) (Z.shiftl (at_ 2%nat) 8)) (at_ 3%nat)))
    (u16 (Z.lor (Z.shiftl (at_ 4%nat) 8) (at_ 5%nat)))
    (u16 (Z.lor (Z.shiftl (at_ 6%nat) 8) (at_ 7%nat)))
    (take 8 (drop 8 s)).
Definition value_octets (p : tee_ioctl_param) : list Z := le_bytes 8 (ip_a p) ++ le_bytes 8 (ip_b p).

(** The name of a trusted application; [sep] is the dash of the first try. *)
Definition ta_name (prefix dev_path : list Z) (u : TEEC_UUID) (sep : list Z) : list Z :=
  prefix ++ [slash] ++ dev_path ++ [slash] ++ hex_fixed 8 (timeLow u) ++ [dash] ++ hex_fixed 4 (timeMid u) ++ [dash] ++
  hex_fixed 4 (timeHiAndVersion u) ++ [dash] ++ concat (hex_fixed 2 <$> take 2 (clockSeqAndNode u)) ++ sep ++
  concat (hex_fixed 2 <$> drop 2 (clockSeqAndNode u)) ++ [46; 116; 97].

Definition TA_BINARY_FOUND : Z := 0.
Definition TA_BINARY_NOT_FOUND : Z := -1.
Definition TEE_GEN_CAP_REG_MEM : Z := 4.

Section Load.
Context {K : Type} `{Posix K}.
Context (fuel : nat).
(** [TEEC_LOAD_PATH], [TEEC_TEST_LOAD_PATH] where the build has it, and [ta_dir]. *)
Context (load_path : list Z) (test_load_path : option (list Z)) (ta_dir : list Z).

(** The two tries of the file name. *)
Definition open_ta (prefix dev_path : list Z) (u : TEEC_UUID) : st (supp K) (option Z) :=
  let try_ sep := ta_name prefix dev_path u sep in
  if PATH_MAX <=? Z.of_nat (length (try_ [dash])) then mret None
  else
    f ← on_sys (p_fopen (try_ [dash]));
    if negb (f =? 0) then mret (Some f)
    else if PATH_MAX <=? Z.of_nat (length (try_ [])) then mret None
    else
      f ← on_sys (p_fopen (try_ []));
      mret (if f =? 0 then None else Some f).

(** The result and the size. *)
Definition try_load_secure_module (prefix dev_path : list Z) (u : TEEC_UUID) (ta : option addr) (ta_size : Z) : st (supp K) (Z * Z) :=
  f ← open_ta prefix dev_path u;
  match f with
  | None => mret (TA_BINARY_NOT_FOUND, ta_size)
  | Some file =>
      r ← on_sys (p_fseek_end file);
      if negb (r =? 0) then _ ← on_sys (p_fclose file); mret (TA_BINARY_NOT_FOUND, ta_size)
      else
        t ← on_sys (p_ftell file);
        let s := u64 t in
        match (if ta_size <? s then None else ta) with
        | None => _ ← on_sys (p_fclose file); mret (TA_BINARY_FOUND, s)
        | Some a =>
            r ← on_sys (p_fseek_set file);
            if negb (r =? 0) then _ ← on_sys (p_fclose file); mret (TA_BINARY_NOT_FOUND, ta_size)
            else
              bytes ← on_sys (p_fread file s);
              store a bytes;;
              _ ← on_sys (p_fclose file);
              mret (if Z.of_nat (length bytes) =? s then (TA_BINARY_FOUND, s) else (TA_BINARY_NOT_FOUND, ta_size))
        end
  end.

Definition TEECI_LoadSecureModule (dev_path : list Z) (u : TEEC_UUID) (ta : option addr) (ta_size : Z) : st (supp K) (Z * Z) :=
  match test_load_path with
  | None => try_load_secure_module load_path dev_path u ta ta_size
  | Some p =>
      r ← try_load_secure_module p dev_path u ta ta_size;
      if negb (r.1 =? TA_BINARY_NOT_FOUND) then mret r else try_load_secure_module load_path dev_path u ta ta_size
  end.

Definition load_ta (params : list tee_ioctl_param) : st (supp K) (Z * list tee_ioctl_param) :=
  shm ← gets sp_shm;
  match params, get_value params 0, get_param shm params 1 with
  | [p0; p1], Some val_cmd, Some shm_ta =>
      let uuid := uuid_from_octets (value_octets val_cmd) in
      r ← TEECI_LoadSecureModule ta_dir uuid (sr_buffer shm_ta) (sr_size shm_ta);
      let '(ta_found, size) := r in
      if negb (ta_found =? TA_BINARY_FOUND) then mret (TEEC_ERROR_ITEM_NOT_FOUND, params)
      else
        let params := [p0; set_b p1 size] in
        if bool_decide (is_Some (sr_buffer shm_ta)) && (sr_size shm_ta <? size) then mret (TEEC_ERROR_SHORT_BUFFER, params)
        else mret (TEEC_SUCCESS, params)
  | _, _, _ => mret (TEEC_ERROR_BAD_PARAMETERS, params)
  end.

(** ** Shared memory *)

(** The bytes of an uninitialised allocation, and the size of a list cell. *)
Context (junk : Z -> list Z).
Definition SIZEOF_TEE_SHM : Z := 40.

(** A block that is not in use. *)
Definition new_block (bytes : list Z) : st (supp K) Z := fun s =>
  let blk := above (dom (sp_mem s)) in
  Ret (blk, set_mem (<[blk:=bytes]> (sp_mem s)) s).
Definition free_block (blk : Z) : st (supp K) unit := modify (fun s => set_mem (delete blk (sp_mem s)) s).

(** After a failed [mmap] the descriptor is read from the cell that was just freed. *)
Definition alloc_shm (fd size : Z) : st (supp K) (option tee_shm) :=
  ok ← on_sys (p_alloc SIZEOF_TEE_SHM);
  if negb ok then mret None
  else
    r ← on_sys (p_shm_alloc fd size);
    let '(shm_fd, id, data_size) := r in
    if shm_fd <? 0 then mret None
    else
      ok ← on_sys (p_mmap shm_fd data_size);
      if negb ok then lift Undef
      else
        p ← new_block (zeros data_size);
        mret (Some (mkTshm id p 0 false shm_fd)).

Definition register_local_shm (fd size : Z) : st (supp K) (option tee_shm) :=
  ok ← on_sys (p_alloc size);
  if negb ok then mret None
  else
    buf ← new_block (junk size);
    ok ← on_sys (p_alloc SIZEOF_TEE_SHM);
    if negb ok then free_block buf;; mret None
    else
      r ← on_sys (p_shm_register fd buf size);
      let '(shm_fd, id) := r in
      if shm_fd <? 0 then free_block buf;; mret None
      else mret (Some (mkTshm id buf 0 true shm_fd)).

Definition process_alloc (fd gen_caps : Z) (params : list tee_ioctl_param) : st (supp K) (Z * list tee_ioctl_param) :=
  match params, get_value params 0 with
  | [p0], Some val =>
      shm ← (if negb (Z.land gen_caps TEE_GEN_CAP_REG_MEM =? 0) then register_local_shm fd (ip_b val) else alloc_shm fd (ip_b val));
      match shm with
      | None => mret (TEEC_ERROR_OUT_OF_MEMORY, params)
      | Some t =>
          let t := mkTshm (ts_id t) (ts_p t) (ip_b val) (ts_registered t) (ts_fd t) in
          modify (fun s => set_shm (push_tshm t (sp_shm s)) s);;
          mret (TEEC_SUCCESS, [set_c p0 (u64 (ts_id t))])
      end
  | _, _ => mret (TEEC_ERROR_BAD_PARAMETERS, params)
  end.

Definition process_free (params : list tee_ioctl_param) : st (supp K) (Z * list tee_ioctl_param) :=
  match params, get_value params 0 with
  | [p0], Some val =>
      l ← gets sp_shm;
      let '(shm, l) := pop_tshm (i32 (ip_b val)) l in
      modify (set_shm l);;
      match shm with
      | None => mret (TEEC_ERROR_BAD_PARAMETERS, params)
      | Some t =>
          if ts_registered t then
            free_block (ts_p t);;
            _ ← on_sys (p_close (ts_fd t));
            mret (TEEC_SUCCESS, params)
          else
            r ← on_sys (p_munmap (ts_p t) (ts_size t));
            if negb (r =? 0) then _ ← on_sys (p_close (ts_fd t)); mret (TEEC_ERROR_BAD_PARAMETERS, params)
            else
              free_block (ts_p t);;
              _ ← on_sys (p_close (ts_fd t));
              mret (TEEC_SUCCESS, params)
      end
  | _, _ => mret (TEEC_ERROR_BAD_PARAMETERS, params)
  end.

(** ** Profiling data *)

Definition G_O_WRONLY : Z := 1.
Definition G_O_CREAT : Z := 0x40.
Definition G_O_EXCL : Z := 0x80.
Definition G_O_APPEND : Z := 0x400.

(** "/tmp/gmon-" and ".out" *)
Definition gmon_prefix : list Z := [47; 116; 109; 112; 47; 103; 109; 111; 110; 45].
Definition gmon_suffix : list Z := [46; 111; 117; 116].
(** [%d] of a number below 100. *)
Definition decimal (z : Z) : list Z := if z <? 10 then [48 + z] else [48 + z / 10; 48 + z mod 10].

Definition uuid_of_bytes (b : list Z) : TEEC_UUID :=
  mkUuid (le_val (take 4 b)) (le_val (take 2 (drop 4 b))) (le_val (take 2 (drop 6 b))) (take 8 (drop 8 b)).
Definition gmon_name (u : TEEC_UUID) (id : Z) : list Z :=
  gmon_prefix ++ hex_fixed 8 (timeLow u) ++ [dash] ++ hex_fixed 4 (timeMid u) ++ [dash] ++ hex_fixed 4 (timeHiAndVersion u) ++ [dash] ++
  concat (hex_fixed 2 <$> clockSeqAndNode u) ++ (if 1 <? id then 46 :: decimal (id - 1) else []) ++ gmon_suffix.

(** The file names from [id] on; the identity of the file written. *)
Fixpoint gprof_loop (n : nat) (id flags : Z) (u : TEEC_UUID) (bytes : list Z) : st (supp K) (option Z) :=
  match n with
  | O => fun _ => Undef
  | S n =>
      let path := gmon_name u id in
      if 255 <=? Z.of_nat (length path) then mret None
      else
        r ← on_sys (p_open path flags 0x180);
        let '(fd, errno) := r in
        if 0 <=? fd then
          w ← retry fuel (on_sys (p_write fd bytes)) interrupted;
          _ ← on_sys (p_close fd);
          let st := i32 w.1 in
          mret (if (st <? 0) || negb (st =? i32 (Z.of_nat (length bytes))) then None else Some id)
        else if negb (errno =? EEXIST) then mret None
        else if id =? 100 then mret None
        else gprof_loop n (id + 1) flags u bytes
  end.

Definition gprof_process (params : list tee_ioctl_param) : st (supp K) (Z * list tee_ioctl_param) :=
  match params with
  | [p0; p1; p2] =>
      if negb (has_type ATTR_VALUE_INOUT p0) || negb (has_type ATTR_MEMREF_INPUT p1) || negb (has_type ATTR_MEMREF_INPUT p2)
      then mret (TEEC_ERROR_BAD_PARAMETERS, params)
      else
        let id := i32 (ip_a p0) in
        if negb (ip_b p1 =? 16) then mret (TEEC_ERROR_BAD_PARAMETERS, params)
        else
          shm ← gets sp_shm;
          match tee_supp_param_to_va shm p1, tee_supp_param_to_va shm p2 with
          | Some u, Some buf =>
              if (id <? 0) || (100 <? id) then mret (TEEC_ERROR_BAD_PARAMETERS, params)
              else
                let flags := Z.lor G_O_APPEND G_O_WRONLY in
                let '(flags, id) := if id =? 0 then (Z.lor flags (Z.lor G_O_CREAT G_O_EXCL), 1) else (flags, id) in
                mem ← gets sp_mem;
                ub ← lift (mem_read mem u 16);
                bytes ← lift (mem_read mem buf (ip_b p2));
                r ← gprof_loop 101 id flags (uuid_of_bytes ub) bytes;
                match r with
                | None => mret (TEEC_ERROR_GENERIC, params)
                | Some id => mret (TEEC_SUCCESS, [set_a p0 (u64 id); p1; p2])
                end
          | _, _ => mret (TEEC_ERROR_BAD_PARAMETERS, params)
          end
  | _ => mret (TEEC_ERROR_BAD_PARAMETERS, params)
  end.
End Load.
