(* ===== verification/SuppSocket.v ===== *)
(** * The socket service of the supplicant (tee_socket.c)

    Sockets on behalf of trusted applications: each instance of one has a handle database
    of its own, in which a descriptor is stored plus one.  [Sockets] is what the code uses
    of the network; a failed assertion ends the process and is modelled like an undefined
    operation. *)

From stdpp Require Import base numbers list gmap.
From S2P Require Import Prelude SkTypes Handle Rpmb SuppMem.

Definition OPTEE_MRC_SOCKET_TIMEOUT_BLOCKING : Z := 0xffffffff.
Definition OPTEE_MRC_SOCKET_OPEN : Z := 0.
Definition OPTEE_MRC_SOCKET_CLOSE : Z := 1.
Definition OPTEE_MRC_SOCKET_CLOSE_ALL : Z := 2.
Definition OPTEE_MRC_SOCKET_SEND : Z := 3.
Definition OPTEE_MRC_SOCKET_RECV : Z := 4.
Definition OPTEE_MRC_SOCKET_IOCTL : Z := 5.
Definition TEE_IP_VERSION_DC : Z := 0.
Definition TEE_IP_VERSION_4 : Z := 1.
Definition TEE_IP_VERSION_6 : Z := 2.
Definition TEE_ISOCKET_ERROR_TIMEOUT : Z := 0xF1007003.
Definition TEE_ISOCKET_ERROR_OUT_OF_RESOURCES : Z := 0xF1007004.
Definition TEE_ISOCKET_ERROR_HOSTNAME : Z := 0xF1007007.
Definition TEE_ISOCKET_PROTOCOLID_TCP : Z := 0x65.
Definition TEE_ISOCKET_PROTOCOLID_UDP : Z := 0x66.
Definition TEE_TCP_SET_RECVBUF : Z := 0x65f00000.
Definition TEE_TCP_SET_SENDBUF : Z := 0x65f00001.
Definition TEE_UDP_CHANGEADDR : Z := 0x66000001.
Definition TEE_UDP_CHANGEPORT : Z := 0x66000002.
Definition AF_UNSPEC : Z := 0.
Definition AF_INET : Z := 2.
Definition AF_INET6 : Z := 10.
Definition SOCK_STREAM : Z := 1.
Definition SOCK_DGRAM : Z := 2.
Definition SO_SNDBUF : Z := 7.
Definition SO_RCVBUF : Z := 8.
Definition S_O_NONBLOCK : Z := 0x800.
Definition S_ENOMEM : Z := 12.
Definition S_ENOBUFS : Z := 105.
Definition S_ETIMEDOUT : Z := 110.
Definition S_EAGAIN : Z := 11.
Definition POLLIN : Z := 1.
Definition POLLOUT : Z := 4.
Definition INT_MAX : Z := 2 ^ 31 - 1.

(** A socket address: its family, the port in network order, the rest, and its length. *)
Record sockaddr := mkSa { sa_family : Z; sa_port : Z; sa_rest : Z; sa_len : Z }.
Definition SIZEOF_SOCKADDR_IN : Z := 16.
Definition SIZEOF_SOCKADDR_IN6 : Z := 28.

(** Network calls: the result and [errno].  An address of [getaddrinfo] is a number. *)
Class Sockets (K : Type) := {
  n_getaddrinfo : list Z -> Z -> Z -> Z -> st K (option (list Z));
  n_socket : Z -> st K (Z * Z);
  n_connect : Z -> Z -> st K (Z * Z);
  n_connect_sa : Z -> sockaddr -> st K (Z * Z);
  n_getfd : Z -> st K Z;
  n_setfl : Z -> Z -> st K Z;
  n_poll : Z -> Z -> Z -> st K (Z * Z);
  n_clock : st K (option (Z * Z));
  n_write : Z -> list Z -> st K (Z * Z);
  n_read : Z -> Z -> st K (Z * Z * list Z);
  n_setsockopt : Z -> Z -> option (list Z) -> st K Z;
  n_getsocktype : Z -> st K (Z * Z);
  n_getpeername : Z -> st K (Z * sockaddr);
  n_close : Z -> st K (Z * Z) }.

(** ** Handles *)

Fixpoint sock_instance_find (id : Z) (l : list sock_instance) : option sock_instance :=
  match l with
  | [] => None
  | si :: l => if si_id si =? id then Some si else sock_instance_find id l
  end.
(** The database of the first instance with that identity replaced. *)
Fixpoint set_instance (id : Z) (db : handle_db) (l : list sock_instance) : list sock_instance :=
  match l with
  | [] => []
  | si :: l => if si_id si =? id then mkSock (si_id si) db :: l else si :: set_instance id db l
  end.

Definition fd_to_handle_ptr (fd : Z) : outcome Z := guard_c (0 <=? fd);; Ret (fd + 1).
Definition handle_ptr_to_fd (ptr : Z) : outcome Z := guard_c (negb (ptr =? 0));; Ret (i32 (ptr - 1)).

Definition chk_pt (p : tee_ioctl_param) (type : Z) : bool := has_type type p.

(** ** Time *)

Definition TS_NSEC_PER_SEC : Z := 1000000000.
Record timespec := mkTs { tv_sec : Z; tv_nsec : Z }.

Definition ts_add (a b : timespec) : timespec :=
  let sec := tv_sec a + tv_sec b in
  let nsec := tv_nsec a + tv_nsec b in
  if TS_NSEC_PER_SEC <=? nsec then mkTs (sec + 1) (nsec - TS_NSEC_PER_SEC) else mkTs sec nsec.

(** [long] arithmetic, with the quotient of C, returned as an [int]. *)
Definition ts_diff_to_polltimeout (a b : timespec) : Z :=
  let sec := tv_sec a - tv_sec b in
  let nsec := tv_nsec a - tv_nsec b in
  let '(sec, nsec) := if tv_nsec a <? tv_nsec b then (sec - 1, nsec + TS_NSEC_PER_SEC) else (sec, nsec) in
  if INT_MAX ÷ 1000 <? sec - 1 then INT_MAX
  else i32 (sec * 1000 + nsec ÷ (TS_NSEC_PER_SEC ÷ 1000)).

Definition ts_delay_from_millis (millis : Z) : timespec := mkTs (millis / 1000) ((millis mod 1000) * (TS_NSEC_PER_SEC / 1000)).

Section Socket.
Context {K : Type} `{Sockets K}.
Context (fuel : nat) (realloc : Z -> bool) (calloc : bool).

Definition sock_handle_get (instance_id fd : Z) : st (supp K) Z := fun s =>
  let '(l, found) := match sock_instance_find instance_id (sp_socks s) with
                     | Some si => (sp_socks s, Some (si_db si))
                     | None => if calloc then (sp_socks s ++ [mkSock instance_id HANDLE_DB_INITIALIZER], Some HANDLE_DB_INITIALIZER)
                               else (sp_socks s, None)
                     end in
  match found with
  | None => Ret (-1, s)
  | Some db =>
      ptr ← fd_to_handle_ptr fd;
      '(handle, db) ← handle_get realloc (Some db) ptr;
      db ← deref db;
      Ret (handle, set_socks (set_instance instance_id db l) s)
  end.

Definition sock_handle_to_fd (instance_id handle : Z) : st (supp K) Z := fun s =>
  match sock_instance_find instance_id (sp_socks s) with
  | None => Ret (-1, s)
  | Some si =>
      '(ptr, db) ← handle_lookup (Some (si_db si)) (i32 handle);
      db ← deref db;
      fd ← handle_ptr_to_fd ptr;
      Ret (fd, set_socks (set_instance instance_id db (sp_socks s)) s)
  end.

Definition sock_handle_put (instance_id handle : Z) : st (supp K) unit := fun s =>
  match sock_instance_find instance_id (sp_socks s) with
  | None => Ret (tt, s)
  | Some si =>
      '(_, db) ← handle_put (Some (si_db si)) (i32 handle);
      db ← deref db;
      Ret (tt, set_socks (set_instance instance_id db (sp_socks s)) s)
  end.

(** ** Connections *)

(** The descriptor flags where the status flags are meant. *)
Definition fd_flags_add (fd flags : Z) : st (supp K) Z :=
  val ← on_sys (n_getfd fd);
  if val =? -1 then mret (-1) else on_sys (n_setfl fd (Z.lor val flags)).

(** The loop over the addresses, with the result so far. *)
Fixpoint connect_loop (r : Z) (l : list Z) : st (supp K) (Z * Z) :=
  match l with
  | [] => mret (r, -1)
  | ai :: l =>
      x ← on_sys (n_socket ai);
      let '(fd, errno) := x in
      if fd =? -1 then
        connect_loop (if (errno =? S_ENOMEM) || (errno =? S_ENOBUFS) then TEE_ISOCKET_ERROR_OUT_OF_RESOURCES else TEEC_ERROR_GENERIC) l
      else
        x ← on_sys (n_connect fd ai);
        let '(c, errno) := x in
        if negb (c =? 0) then
          _ ← on_sys (n_close fd);
          connect_loop (if errno =? S_ETIMEDOUT then TEE_ISOCKET_ERROR_TIMEOUT else TEEC_ERROR_COMMUNICATION) l
        else
          f ← fd_flags_add fd S_O_NONBLOCK;
          if negb (f =? 0) then
            _ ← on_sys (n_close fd);
            mret (TEEC_ERROR_GENERIC, -1)
          else mret (TEEC_SUCCESS, fd)
  end.

Definition sock_connect (ip_vers protocol : Z) (server : list Z) (port : Z) : st (supp K) (Z * Z) :=
  let family := if ip_vers =? TEE_IP_VERSION_DC then Some AF_UNSPEC
                else if ip_vers =? TEE_IP_VERSION_4 then Some AF_INET
                else if ip_vers =? TEE_IP_VERSION_6 then Some AF_INET6 else None in
  let socktype := if protocol =? TEE_ISOCKET_PROTOCOLID_TCP then Some SOCK_STREAM
                  else if protocol =? TEE_ISOCKET_PROTOCOLID_UDP then Some SOCK_DGRAM else None in
  match family, socktype with
  | Some family, Some socktype =>
      r ← on_sys (n_getaddrinfo server port family socktype);
      match r with
      | None => mret (TEE_ISOCKET_ERROR_HOSTNAME, -1)
      | Some l => connect_loop TEEC_ERROR_GENERIC l
      end
  | _, _ => mret (TEEC_ERROR_BAD_PARAMETERS, -1)
  end.

(** The byte before the end of a buffer. *)
Definition last_byte (a : addr) (size : Z) : st (supp K) Z := fun s =>
  b ← mem_read (sp_mem s) (a.1, a.2 + size - 1) 1;
  Ret (nth 0 b 0, s).
Definition cstr_param (a : addr) : st (supp K) (list Z) := fun s => c ← mem_cstr (sp_mem s) a; Ret (c, s).

Definition tee_socket_open (params : list tee_ioctl_param) : st (supp K) (Z * list tee_ioctl_param) :=
  match params with
  | [p0; p1; p2; p3] =>
      if negb (chk_pt p0 ATTR_VALUE_INPUT) || negb (chk_pt p1 ATTR_VALUE_INPUT) || negb (chk_pt p2 ATTR_MEMREF_INPUT) ||
         negb (chk_pt p3 ATTR_VALUE_OUTPUT)
      then mret (TEEC_ERROR_BAD_PARAMETERS, params)
      else
        shm ← gets sp_shm;
        match tee_supp_param_to_va shm p2 with
        | None => mret (TEE_ISOCKET_ERROR_HOSTNAME, params)
        | Some a =>
            c ← last_byte a (ip_b p2);
            if negb (c =? 0) then mret (TEE_ISOCKET_ERROR_HOSTNAME, params)
            else
              server ← cstr_param a;
              r ← sock_connect (u32 (ip_c p1)) (u32 (ip_b p1)) server (u16 (ip_a p1));
              let '(res, fd) := r in
              if negb (res =? TEEC_SUCCESS) then mret (res, params)
              else
                handle ← sock_handle_get (u32 (ip_b p0)) fd;
                if handle <? 0 then
                  _ ← on_sys (n_close fd);
                  mret (TEEC_ERROR_OUT_OF_MEMORY, params)
                else mret (TEEC_SUCCESS, [p0; p1; p2; set_a p3 (u64 handle)])
        end
  | _ => mret (TEEC_ERROR_BAD_PARAMETERS, params)
  end.

Definition tee_socket_close (params : list tee_ioctl_param) : st (supp K) (Z * list tee_ioctl_param) :=
  match params with
  | [p0] =>
      if negb (chk_pt p0 ATTR_VALUE_INPUT) then mret (TEEC_ERROR_BAD_PARAMETERS, params)
      else
        let instance_id := u32 (ip_b p0) in
        let handle := i32 (ip_c p0) in
        fd ← sock_handle_to_fd instance_id handle;
        if fd <? 0 then mret (TEEC_ERROR_BAD_PARAMETERS, params)
        else
          _ ← sock_handle_put instance_id handle;
          r ← on_sys (n_close fd);
          mret (if negb (r.1 =? 0) then TEEC_ERROR_GENERIC else TEEC_SUCCESS, params)
  | _ => mret (TEEC_ERROR_BAD_PARAMETERS, params)
  end.

(** The callback over the system, which a failed assertion stops. *)
Definition sock_close_cb (handle ptr : Z) (k : outcome K) : outcome K :=
  k ← k;
  fd ← handle_ptr_to_fd ptr;
  '(_, k) ← n_close fd k;
  Ret k.

Definition tee_socket_close_all (params : list tee_ioctl_param) : st (supp K) (Z * list tee_ioctl_param) := fun s =>
  match params with
  | [p0] =>
      if negb (chk_pt p0 ATTR_VALUE_INPUT) then Ret ((TEEC_ERROR_BAD_PARAMETERS, params), s)
      else
        let instance_id := u32 (ip_b p0) in
        match sock_instance_find instance_id (sp_socks s) with
        | None => Ret ((TEEC_SUCCESS, params), s)
        | Some si =>
            '(db, k) ← handle_foreach_put sock_close_cb (Some (si_db si)) (Ret (sp_kern s));
            db ← deref db;
            k ← k;
            Ret ((TEEC_SUCCESS, params), set_kern k (set_socks (set_instance instance_id db (sp_socks s)) s))
        end
  | _ => Ret ((TEEC_ERROR_BAD_PARAMETERS, params), s)
  end.

(** ** Transfers *)

(** The loop of [poll]: the deadline is absent when the wait is unlimited. *)
Fixpoint poll_loop (n : nat) (fd events : Z) (until : option timespec) (now : timespec) (to : Z) : st (supp K) Z :=
  match n with
  | O => fun _ => Undef
  | S n =>
      let to := match until with Some u => if negb (to =? -1) then ts_diff_to_polltimeout u now else to | None => to end in
      x ← on_sys (n_poll fd events to);
      let '(r, errno) := x in
      if r =? 0 then mret TEE_ISOCKET_ERROR_TIMEOUT
      else if r =? -1 then
        if errno =? EINTR then
          if negb (to =? -1) then
            t ← on_sys n_clock;
            match t with
            | None => mret TEEC_ERROR_GENERIC
            | Some (sec, nsec) => poll_loop n fd events until (mkTs sec nsec) to
            end
          else poll_loop n fd events until now to
        else mret TEEC_ERROR_BAD_PARAMETERS
      else mret TEEC_SUCCESS
  end.

Definition poll_with_timeout (fd events timeout : Z) : st (supp K) Z :=
  if timeout =? OPTEE_MRC_SOCKET_TIMEOUT_BLOCKING then poll_loop fuel fd events None (mkTs 0 0) (-1)
  else
    t ← on_sys n_clock;
    match t with
    | None => mret TEEC_ERROR_GENERIC
    | Some (sec, nsec) =>
        let now := mkTs sec nsec in
        poll_loop fuel fd events (Some (ts_add now (ts_delay_from_millis timeout))) now 0
    end.

Definition retry_errno (errno : Z) : bool := (errno =? S_EAGAIN) || (errno =? EINTR).

(** The result and the number of bytes; a NULL buffer is refused by the system. *)
Definition write_with_timeout (fd : Z) (buf : option addr) (blen timeout : Z) : st (supp K) (Z * Z) :=
  res ← poll_with_timeout fd POLLOUT timeout;
  if negb (res =? TEEC_SUCCESS) then mret (res, blen)
  else
    match buf with
    | None => mret (if blen =? 0 then TEEC_SUCCESS else TEEC_ERROR_BAD_PARAMETERS, blen)
    | Some a =>
        mem ← gets sp_mem;
        bytes ← lift (mem_read mem a blen);
        x ← on_sys (n_write fd bytes);
        let '(r, errno) := x in
        if r =? -1 then mret (if retry_errno errno then TEE_ISOCKET_ERROR_TIMEOUT else TEEC_ERROR_BAD_PARAMETERS, blen)
        else mret (TEEC_SUCCESS, u64 r)
    end.

Definition tee_socket_send (params : list tee_ioctl_param) : st (supp K) (Z * list tee_ioctl_param) :=
  match params with
  | [p0; p1; p2] =>
      if negb (chk_pt p0 ATTR_VALUE_INPUT) || negb (chk_pt p1 ATTR_MEMREF_INPUT) || negb (chk_pt p2 ATTR_VALUE_INOUT)
      then mret (TEEC_ERROR_BAD_PARAMETERS, params)
      else
        fd ← sock_handle_to_fd (u32 (ip_b p0)) (i32 (ip_c p0));
        if fd <? 0 then mret (TEEC_ERROR_BAD_PARAMETERS, params)
        else
          shm ← gets sp_shm;
          r ← write_with_timeout fd (tee_supp_param_to_va shm p1) (ip_b p1) (u32 (ip_a p2));
          mret (r.1, if r.1 =? TEEC_SUCCESS then [p0; p1; set_b p2 r.2] else params)
  | _ => mret (TEEC_ERROR_BAD_PARAMETERS, params)
  end.

Definition read_with_timeout (fd : Z) (buf : option addr) (blen timeout : Z) : st (supp K) (Z * Z) :=
  res ← poll_with_timeout fd POLLIN timeout;
  if negb (res =? TEEC_SUCCESS) then mret (res, blen)
  else
    match buf with
    | None => mret (if blen =? 0 then TEEC_SUCCESS else TEEC_ERROR_BAD_PARAMETERS, blen)
    | Some a =>
        x ← on_sys (n_read fd blen);
        let '(r, errno, bytes) := x in
        if r =? -1 then mret (if retry_errno errno then TEE_ISOCKET_ERROR_TIMEOUT else TEEC_ERROR_BAD_PARAMETERS, blen)
        else
          store a bytes;;
          mret (TEEC_SUCCESS, u64 r)
    end.

Definition tee_socket_recv (params : list tee_ioctl_param) : st (supp K) (Z * list tee_ioctl_param) :=
  match params with
  | [p0; p1; p2] =>
      if negb (chk_pt p0 ATTR_VALUE_INPUT) || negb (chk_pt p1 ATTR_MEMREF_OUTPUT) || negb (chk_pt p2 ATTR_VALUE_INPUT)
      then mret (TEEC_ERROR_BAD_PARAMETERS, params)
      else
        fd ← sock_handle_to_fd (u32 (ip_b p0)) (i32 (ip_c p0));
        if fd <? 0 then mret (TEEC_ERROR_BAD_PARAMETERS, params)
        else
          shm ← gets sp_shm;
          r ← read_with_timeout fd (tee_supp_param_to_va shm p1) (ip_b p1) (u32 (ip_a p2));
          mret (r.1, if r.1 =? TEEC_SUCCESS then [p0; set_b p1 r.2; p2] else params)
  | _ => mret (TEEC_ERROR_BAD_PARAMETERS, params)
  end.

(** ** Options *)

(** The bytes of a buffer for the system, if there is one. *)
Definition opt_bytes (buf : option addr) (blen : Z) : st (supp K) (option (list Z)) := fun s =>
  match buf with
  | None => Ret (None, s)
  | Some a => b ← mem_read (sp_mem s) a blen; Ret (Some b, s)
  end.

Definition tee_socket_ioctl_tcp (fd command : Z) (buf : option addr) (blen : Z) : st (supp K) Z :=
  if (command =? TEE_TCP_SET_RECVBUF) || (command =? TEE_TCP_SET_SENDBUF) then
    bytes ← opt_bytes buf blen;
    r ← on_sys (n_setsockopt fd (if command =? TEE_TCP_SET_RECVBUF then SO_RCVBUF else SO_SNDBUF) bytes);
    mret (if negb (r =? 0) then TEEC_ERROR_BAD_PARAMETERS else TEEC_SUCCESS)
  else mret TEEC_ERROR_NOT_SUPPORTED.

Definition sa_fits (sa : sockaddr) : bool :=
  ((sa_family sa =? AF_INET) && (SIZEOF_SOCKADDR_IN <=? sa_len sa)) || ((sa_family sa =? AF_INET6) && (SIZEOF_SOCKADDR_IN6 <=? sa_len sa)).
Definition sa_set_port (sa : sockaddr) (port : Z) : option sockaddr :=
  if sa_fits sa then Some (mkSa (sa_family sa) (htons port) (sa_rest sa) (sa_len sa)) else None.
Definition sa_get_port (sa : sockaddr) : option Z := if sa_fits sa then Some (ntohs (sa_port sa)) else None.

Fixpoint changeaddr_loop (fd r : Z) (l : list Z) : st (supp K) Z :=
  match l with
  | [] => mret r
  | ai :: l =>
      x ← on_sys (n_connect fd ai);
      let '(c, errno) := x in
      if negb (c =? 0) then changeaddr_loop fd (if errno =? S_ETIMEDOUT then TEE_ISOCKET_ERROR_TIMEOUT else TEEC_ERROR_COMMUNICATION) l
      else mret TEEC_SUCCESS
  end.
Definition udp_changeaddr (fd family : Z) (server : list Z) (port : Z) : st (supp K) Z :=
  r ← on_sys (n_getaddrinfo server port family SOCK_DGRAM);
  match r with
  | None => mret TEE_ISOCKET_ERROR_HOSTNAME
  | Some l => changeaddr_loop fd TEE_ISOCKET_ERROR_HOSTNAME l
  end.

Definition tee_socket_ioctl_udp (fd command : Z) (buf : option addr) (blen : Z) : st (supp K) Z :=
  x ← on_sys (n_getpeername fd);
  let '(r, sa) := x in
  if negb (r =? 0) then mret TEEC_ERROR_BAD_PARAMETERS
  else if command =? TEE_UDP_CHANGEADDR then
    match sa_get_port sa with
    | None => mret TEEC_ERROR_BAD_PARAMETERS
    | Some port =>
        a ← lift (deref buf);
        c ← last_byte a blen;
        if negb (c =? 0) then mret TEE_ISOCKET_ERROR_HOSTNAME
        else
          server ← cstr_param a;
          udp_changeaddr fd (sa_family sa) server port
    end
  else if command =? TEE_UDP_CHANGEPORT then
    if negb (blen =? 2) then mret TEEC_ERROR_BAD_PARAMETERS
    else
      a ← lift (deref buf);
      mem ← gets sp_mem;
      b ← lift (mem_read mem a 2);
      match sa_set_port sa (le_val b) with
      | None => mret TEEC_ERROR_BAD_PARAMETERS
      | Some sa =>
          x ← on_sys (n_connect_sa fd sa);
          mret (if negb (x.1 =? 0) then TEEC_ERROR_GENERIC else TEEC_SUCCESS)
      end
  else mret TEEC_ERROR_NOT_SUPPORTED.

Definition tee_socket_ioctl (params : list tee_ioctl_param) : st (supp K) (Z * list tee_ioctl_param) :=
  match params with
  | [p0; p1; p2] =>
      if negb (chk_pt p0 ATTR_VALUE_INPUT) || negb (chk_pt p1 ATTR_MEMREF_INOUT) || negb (chk_pt p2 ATTR_VALUE_INPUT)
      then mret (TEEC_ERROR_BAD_PARAMETERS, params)
      else
        let command := u32 (ip_a p2) in
        fd ← sock_handle_to_fd (u32 (ip_b p0)) (i32 (ip_c p0));
        if fd <? 0 then mret (TEEC_ERROR_BAD_PARAMETERS, params)
        else
          x ← on_sys (n_getsocktype fd);
          let '(r, socktype) := x in
          if negb (r =? 0) then mret (TEEC_ERROR_BAD_PARAMETERS, params)
          else
            shm ← gets sp_shm;
            let buf := tee_supp_param_to_va shm p1 in
            if socktype =? SOCK_STREAM then res ← tee_socket_ioctl_tcp fd command buf (ip_b p1); mret (res, params)
            else if socktype =? SOCK_DGRAM then res ← tee_socket_ioctl_udp fd command buf (ip_b p1); mret (res, params)
            else mret (TEEC_ERROR_BAD_PARAMETERS, params)
  | _ => mret (TEEC_ERROR_BAD_PARAMETERS, params)
  end.

Definition tee_socket_process (params : list tee_ioctl_param) : st (supp K) (Z * list tee_ioctl_param) :=
  match params with
  | [] => mret (TEEC_ERROR_BAD_PARAMETERS, params)
  | p0 :: _ =>
      if negb (tee_supp_param_is_value p0) then mret (TEEC_ERROR_BAD_PARAMETERS, params)
      else if ip_a p0 =? OPTEE_MRC_SOCKET_OPEN then tee_socket_open params
      else if ip_a p0 =? OPTEE_MRC_SOCKET_CLOSE then tee_socket_close params
      else if ip_a p0 =? OPTEE_MRC_SOCKET_CLOSE_ALL then tee_socket_close_all params
      else if ip_a p0 =? OPTEE_MRC_SOCKET_SEND then tee_socket_send params
      else if ip_a p0 =? OPTEE_MRC_SOCKET_RECV then tee_socket_recv params
      else if ip_a p0 =? OPTEE_MRC_SOCKET_IOCTL then tee_socket_ioctl params
      else mret (TEEC_ERROR_BAD_PARAMETERS, params)
  end.
End Socket.
