(* ===== verification/Supplicant.v ===== *)
(** * The request loop of the supplicant (tee_supplicant.c)

    Receiving a request, dispatching it to the services and answering it, and the start
    of the program.  [server] adds to the state of the services the RPMB device with its
    mutex, the number of waiting threads and the number of threads started; the thread
    pool as a whole is a step relation over the program points of its threads. *)

From stdpp Require Import base numbers list gmap.
From S2P Require Import Prelude SkTypes Handle Rpmb SuppMem SuppFs SuppLoad SuppSocket.

Definition RPC_NUM_PARAMS : Z := 5.
Definition OPTEE_MSG_RPC_CMD_LOAD_TA : Z := 0.
Definition OPTEE_MSG_RPC_CMD_RPMB : Z := 1.
Definition OPTEE_MSG_RPC_CMD_FS : Z := 2.
Definition OPTEE_MSG_RPC_CMD_SHM_ALLOC : Z := 6.
Definition OPTEE_MSG_RPC_CMD_SHM_FREE : Z := 7.
Definition OPTEE_MSG_RPC_CMD_GPROF : Z := 9.
Definition OPTEE_MSG_RPC_CMD_SOCKET : Z := 10.
Definition TEE_IMPL_ID_OPTEE : Z := 1.
Definition MAX_DEV_SEQ : nat := 10.
Definition D_O_RDWR : Z := 2.

(** The private device: opening it, its version, a request and its answer. *)
Class TeeDevice (K : Type) := {
  d_open : list Z -> st K Z;
  d_close : Z -> st K unit;
  (** The implementation and its capabilities. *)
  d_version : Z -> st K (option (Z * Z));
  (** The function and all parameters of the next request. *)
  d_recv : Z -> st K (option (Z * list tee_ioctl_param));
  d_send : Z -> Z -> list tee_ioctl_param -> st K bool;
  d_create_thread : st K bool }.

(** ** Requests *)

Definition is_meta (p : tee_ioctl_param) : bool := negb (Z.land (ip_attr p) ATTR_META =? 0).

(** The meta parameters in front, and the others if no meta parameter is among them. *)
Fixpoint count_meta (l : list tee_ioctl_param) : nat :=
  match l with
  | p :: l => if is_meta p then S (count_meta l) else O
  | [] => O
  end.
Definition find_params (l : list tee_ioctl_param) : option (nat * list tee_ioctl_param) :=
  let n := count_meta l in
  if existsb is_meta (drop n l) then None else Some (n, drop n l).

Record server (K D : Type) := mkServer { sv_supp : supp K; sv_dev : bool * D; sv_waiters : Z; sv_spawned : Z }.
Arguments mkServer {_ _}. Arguments sv_supp {_ _}. Arguments sv_dev {_ _}. Arguments sv_waiters {_ _}. Arguments sv_spawned {_ _}.

Section Server.
Context {K D : Type} `{Posix K} `{Sockets K} `{TeeDevice K} `{MmcDevice D}.
Context (fuel : nat) (realloc : Z -> bool) (calloc : bool) (junk : Z -> list Z) (junk_csd : list Z).
Context (load_path : list Z) (test_load_path : option (list Z)) (ta_dir parent_path : list Z) (junk_isdir : bool).

Definition on_supp {A} (m : st (supp K) A) : st (server K D) A := fun s =>
  '(a, x) ← m (sv_supp s);
  Ret (a, mkServer x (sv_dev s) (sv_waiters s) (sv_spawned s)).
Definition on_rpmb {A} (m : st (bool * D) A) : st (server K D) A := fun s =>
  '(a, x) ← m (sv_dev s);
  Ret (a, mkServer (sv_supp s) x (sv_waiters s) (sv_spawned s)).

(** The bytes of a reference, none for a NULL one. *)
Definition ref_bytes (r : shm_ref) : st (supp K) (list Z) := fun s =>
  match sr_buffer r with
  | None => Ret ([], s)
  | Some a => b ← mem_read (sp_mem s) a (sr_size r); Ret (b, s)
  end.
Definition ref_store (r : shm_ref) (bs : list Z) : st (supp K) unit :=
  match sr_buffer r with
  | None => mret tt
  | Some a => store a bs
  end.
Definition refs_disjoint (q p : shm_ref) : bool :=
  match sr_buffer q, sr_buffer p with
  | Some a, Some b => negb (a.1 =? b.1) || (a.2 + sr_size q <=? b.2) || (b.2 + sr_size p <=? a.2)
  | _, _ => true
  end.

(** Over disjoint buffers that lie in their objects. *)
Definition process_rpmb (params : list tee_ioctl_param) : st (server K D) (Z * list tee_ioctl_param) :=
  shm ← on_supp (gets sp_shm);
  match get_param shm params 0, get_param shm params 1 with
  | Some req, Some rsp =>
      _ ← on_supp (lift (guard_c (refs_disjoint req rsp)));
      q ← on_supp (ref_bytes req);
      p ← on_supp (ref_bytes rsp);
      r ← on_rpmb (rpmb_process_request junk_csd q p);
      let '(res, (q, p)) := r in
      _ ← on_supp (ref_store req q);
      _ ← on_supp (ref_store rsp p);
      mret (res, params)
  | _, _ => mret (TEEC_ERROR_BAD_PARAMETERS, params)
  end.

(** The switch of [process_one_request]. *)
Definition dispatch (fd gen_caps func : Z) (params : list tee_ioctl_param) : st (server K D) (Z * list tee_ioctl_param) :=
  if func =? OPTEE_MSG_RPC_CMD_LOAD_TA then on_supp (load_ta load_path test_load_path ta_dir params)
  else if func =? OPTEE_MSG_RPC_CMD_FS then on_supp (tee_supp_fs_process fuel realloc params)
  else if func =? OPTEE_MSG_RPC_CMD_RPMB then process_rpmb params
  else if func =? OPTEE_MSG_RPC_CMD_SHM_ALLOC then on_supp (process_alloc junk fd gen_caps params)
  else if func =? OPTEE_MSG_RPC_CMD_SHM_FREE then on_supp (process_free params)
  else if func =? OPTEE_MSG_RPC_CMD_GPROF then on_supp (gprof_process fuel params)
  else if func =? OPTEE_MSG_RPC_CMD_SOCKET then on_supp (tee_socket_process fuel realloc calloc params)
  else mret (TEEC_ERROR_NOT_SUPPORTED, params).

(** ** Threads *)

(** One critical section each; the assertions are undefined when they fail. *)
Definition num_waiters_inc : st (server K D) Z := fun s =>
  let w := u64 (sv_waiters s + 1) in
  guard_c (negb (w =? 0));;
  Ret (w, mkServer (sv_supp s) (sv_dev s) w (sv_spawned s)).
Definition num_waiters_dec : st (server K D) Z := fun s =>
  guard_c (negb (sv_waiters s =? 0));;
  let w := sv_waiters s - 1 in
  Ret (w, mkServer (sv_supp s) (sv_dev s) w (sv_spawned s)).

Definition spawn_thread : st (server K D) bool :=
  _ ← num_waiters_inc;
  ok ← on_supp (on_sys d_create_thread);
  if ok : bool then
    modify (fun s => mkServer (sv_supp s) (sv_dev s) (sv_waiters s) (sv_spawned s + 1));;
    mret true
  else
    _ ← num_waiters_dec;
    mret false.

Definition read_request (fd : Z) : st (server K D) (option (Z * list tee_ioctl_param)) := on_supp (on_sys (d_recv fd)).
Definition write_response (fd ret : Z) (params : list tee_ioctl_param) : st (server K D) bool := on_supp (on_sys (d_send fd ret params)).

Definition process_one_request (fd gen_caps : Z) : st (server K D) bool :=
  _ ← num_waiters_inc;
  r ← read_request fd;
  match r with
  | None => mret false
  | Some (func, all) =>
      match find_params all with
      | None => mret false
      | Some (num_meta, params) =>
          ok ← (if (num_meta =? 0)%nat then mret true
                else w ← num_waiters_dec; if w =? 0 then spawn_thread else mret true);
          if negb ok then mret false
          else
            x ← dispatch fd gen_caps func params;
            let '(ret, params) := x in
            write_response fd ret (take num_meta all ++ params)
      end
  end.

(** ** Start *)

(** "/dev/teepriv" and the digit. *)
Definition dev_name (n : nat) : list Z := [47; 100; 101; 118; 47; 116; 101; 101; 112; 114; 105; 118] ++ [48 + Z.of_nat n].

(** The descriptor and the capabilities. *)
Definition open_dev (devname : list Z) : st (server K D) (option (Z * Z)) :=
  fd ← on_supp (on_sys (d_open devname));
  if fd <? 0 then mret None
  else
    v ← on_supp (on_sys (d_version fd));
    match v with
    | Some (impl_id, gen_caps) =>
        if impl_id =? TEE_IMPL_ID_OPTEE then mret (Some (fd, gen_caps))
        else _ ← on_supp (on_sys (d_close fd)); mret None
    | None => _ ← on_supp (on_sys (d_close fd)); mret None
    end.

(** The devices from [n] on, [m] of them. *)
Fixpoint get_dev_fd (m n : nat) : st (server K D) (option (Z * Z)) :=
  match m with
  | O => mret None
  | S m =>
      r ← open_dev (dev_name n);
      match r with Some x => mret (Some x) | None => get_dev_fd m (S n) end
  end.

(** The loop of a thread, [n] requests of it. *)
Fixpoint serve (n : nat) (fd gen_caps : Z) : st (server K D) bool :=
  match n with
  | O => mret true
  | S n => ok ← process_one_request fd gen_caps; if ok : bool then serve n fd gen_caps else mret false
  end.

(** The program with at most one argument, up to [n] requests; [false] is an exit. *)
Definition main (n : nat) (arg : option (list Z)) : st (server K D) bool :=
  d ← (match arg with Some name => open_dev name | None => get_dev_fd MAX_DEV_SEQ 0 end);
  match d with
  | None => mret false
  | Some (fd, gen_caps) =>
      r ← on_supp (tee_supp_fs_init parent_path junk_isdir);
      if negb (r =? 0) then mret false
      else
        ok ← serve n fd gen_caps;
        if ok : bool then mret true
        else _ ← on_supp (on_sys (d_close fd)); mret false
  end.
End Server.

(** ** The pool of threads *)

(** Where a thread is: started but not yet counted off, at the test of [abort], past it,
    waiting for a request, with one that has meta parameters, with one that has none, about
    to start a thread, creating it, in a service, about to set [abort], or gone. *)
Inductive thread_at := Starting | LoopTop | Entering | Waiting | Got | GotPlain | Spawning | Creating | Working | Failing | Gone.

(** [num_waiters] is a [size_t]; it counts threads, so that the overflow
    [num_waiters_inc] asserts against would take 2^64 of them, and a natural number stands
    for it here. *)
Record pool := mkPool { po_abort : bool; po_waiters : nat; po_threads : list thread_at }.
Definition pool_init : pool := mkPool false 0 [LoopTop].

(** One thread moves; [meta] says whether every request has a meta parameter. *)
Inductive pool_step (meta : bool) : pool -> pool -> Prop :=
  | step_start ab w l i : l !! i = Some Starting -> pool_step meta (mkPool ab w l) (mkPool ab (w - 1) (<[i:=LoopTop]> l))
  | step_enter w l i : l !! i = Some LoopTop -> pool_step meta (mkPool false w l) (mkPool false w (<[i:=Entering]> l))
  | step_leave w l i : l !! i = Some LoopTop -> pool_step meta (mkPool true w l) (mkPool true w (<[i:=Gone]> l))
  | step_listen ab w l i : l !! i = Some Entering -> pool_step meta (mkPool ab w l) (mkPool ab (w + 1) (<[i:=Waiting]> l))
  | step_recv_fail ab w l i : l !! i = Some Waiting -> pool_step meta (mkPool ab w l) (mkPool ab w (<[i:=Failing]> l))
  | step_recv ab w l i : l !! i = Some Waiting -> pool_step meta (mkPool ab w l) (mkPool ab w (<[i:=Got]> l))
  | step_recv_plain ab w l i : meta = false -> l !! i = Some Waiting -> pool_step meta (mkPool ab w l) (mkPool ab w (<[i:=GotPlain]> l))
  | step_dec ab w l i : l !! i = Some Got ->
      pool_step meta (mkPool ab w l) (mkPool ab (w - 1) (<[i:=if (w - 1 =? 0)%nat then Spawning else Working]> l))
  | step_plain ab w l i : l !! i = Some GotPlain -> pool_step meta (mkPool ab w l) (mkPool ab w (<[i:=Working]> l))
  | step_spawn ab w l i : l !! i = Some Spawning -> pool_step meta (mkPool ab w l) (mkPool ab (w + 1) (<[i:=Creating]> l))
  | step_created ab w l i : l !! i = Some Creating -> pool_step meta (mkPool ab w l) (mkPool ab w (<[i:=Working]> l ++ [Starting]))
  | step_create_fail ab w l i : l !! i = Some Creating -> pool_step meta (mkPool ab w l) (mkPool ab (w - 1) (<[i:=Failing]> l))
  | step_done ab w l i : l !! i = Some Working -> pool_step meta (mkPool ab w l) (mkPool ab w (<[i:=LoopTop]> l))
  | step_send_fail ab w l i : l !! i = Some Working -> pool_step meta (mkPool ab w l) (mkPool ab w (<[i:=Failing]> l))
  | step_abort ab w l i : l !! i = Some Failing -> pool_step meta (mkPool ab w l) (mkPool true w (<[i:=LoopTop]> l)).
