(* ===== verification/SupplicantTheorems.v ===== *)
(** * Theorems on the request loop

    The pool of threads never has all of them busy; no request makes a listed shared
    memory object lose its bytes; parameters, sockets and timeouts. *)

From stdpp Require Import base numbers list gmap relations.
From S2P Require Import Prelude SkTypes Handle Rpmb SuppMem SuppFs SuppFsTheorems SuppLoad SuppSocket Supplicant.

(** ** The pool of threads *)

(** What a thread contributes to the number of waiters: itself, or the thread it creates. *)
Definition weight (t : thread_at) : nat := match t with Starting | Waiting | Got | Creating => 1 | _ => 0 end.
Fixpoint counted (l : list thread_at) : nat := match l with [] => 0 | t :: l => weight t + counted l end.

(** Neither in a service nor about to end: waiting, on its way to, or holding a request it
    will serve only after it has made up for itself (it takes itself off the count and, where
    nobody else waits, starts a thread). *)
Definition available (t : thread_at) : Prop := t <> Working /\ t <> Failing /\ t <> Gone /\ t <> GotPlain.

(** No thread has failed so far. *)
Definition running (p : pool) : Prop := po_abort p = false /\ Failing ∉ po_threads p.

Lemma counted_insert l t t' : forall i, l !! i = Some t -> (counted (<[i:=t']> l) + weight t = counted l + weight t')%nat.
Proof.
  induction l as [|x l IH]; intros [|i] E; try done.
  - injection E as ->. cbn [insert list_insert counted]. lia.
  - specialize (IH i E). change (<[S i:=t']> (x :: l)) with (x :: <[i:=t']> l). cbn [counted]. lia.
Qed.
Lemma counted_app l k : counted (l ++ k) = (counted l + counted k)%nat.
Proof. induction l as [|x l IH]; cbn [app counted]; [done | lia]. Qed.

(** A positive count has a thread behind it. *)
Lemma counted_pos l : (0 < counted l)%nat -> exists i t, l !! i = Some t /\ weight t = 1%nat.
Proof.
  induction l as [|x l IH]; cbn [counted]; [lia |]. intros Hc. destruct (weight x) as [|[|]] eqn:Ex.
  - destruct IH as (i & t & E & Ht); [lia |]. by exists (S i), t.
  - by exists 0%nat, x.
  - destruct x; discriminate.
Qed.
Lemma weight_available t : weight t = 1%nat -> available t.
Proof. by destruct t. Qed.

(** At least as many waiters as threads counted, so that no decrement fails; as long as
    nothing has failed exactly as many, and a thread available. *)
Definition pool_inv (p : pool) : Prop :=
  (counted (po_threads p) <= po_waiters p)%nat /\ Forall (.≠ GotPlain) (po_threads p) /\
  (running p -> po_waiters p = counted (po_threads p) /\ exists i t, po_threads p !! i = Some t /\ available t).

Lemma available_insert l i t : (i < length l)%nat -> available t -> exists j u, <[i:=t]> l !! j = Some u /\ available u.
Proof. intros Hi Ht. exists i, t. by rewrite list_lookup_insert_eq. Qed.

(** A failure stays visible: as the thread that is about to set [abort], then as [abort]. *)
Lemma running_before ab ab' w w' l l' i t t' : l !! i = Some t -> (t = Failing -> ab' = true) -> (ab' = false -> ab = false) ->
  running (mkPool ab' w' (<[i:=t']> l ++ l')) -> running (mkPool ab w l).
Proof.
  intros E Hf Hab [Ha Hn]. cbn [po_abort po_threads] in *. split; [by apply Hab |]. cbn [po_threads]. intros Hin.
  apply list_elem_of_lookup in Hin as [j Ej]. apply Hn, elem_of_app. left. apply list_elem_of_lookup. exists j. rewrite list_lookup_insert_ne; [done |].
  intros ->. rewrite E in Ej. injection Ej as ->. rewrite Hf in Ha by done. discriminate.
Qed.

Lemma pool_move ab ab' w w' l i t t' : l !! i = Some t -> t' <> GotPlain -> (t = Failing -> ab' = true) ->
  pool_inv (mkPool ab w l) -> (w + weight t' <= w' + weight t)%nat -> (ab' = false -> ab = false) ->
  (ab' = false -> t' <> Failing -> (w' + weight t = w + weight t')%nat /\ (available t' \/ (0 < w')%nat)) -> pool_inv (mkPool ab' w' (<[i:=t']> l)).
Proof.
  intros E Ht' Hf (Hle & Hpl & Hrun) Hw Hab Hav. unfold pool_inv. cbn [po_abort po_waiters po_threads] in *.
  pose proof (lookup_lt_Some _ _ _ E) as Hi. pose proof (counted_insert l t t' i E) as Hc.
  split; [lia |]. split; [by apply Forall_insert |]. intros Hr.
  destruct Hrun as [Hwl _]; [eapply (running_before ab ab' w w' l [] i t t' E Hf Hab); by rewrite app_nil_r |].
  destruct (Hav (proj1 Hr)) as [Hw' [Ht|Hpos]].
  - intros ->. apply (proj2 Hr). cbn [po_threads]. apply list_elem_of_lookup. exists i. by rewrite list_lookup_insert_eq.
  - split; [lia |]. by apply available_insert.
  - split; [lia |]. destruct (counted_pos (<[i:=t']> l)) as (j & u & Ej & Hu); [lia |]. exists j, u. split; [done | by apply weight_available].
Qed.

Lemma waiters_pos ab w l i t : pool_inv (mkPool ab w l) -> l !! i = Some t -> weight t = 1%nat -> (0 < w)%nat.
Proof.
  intros [Hle _] E Ht. cbn [po_waiters po_threads] in Hle. pose proof (counted_insert l t LoopTop i E) as Hc. cbn [weight] in Hc. lia.
Qed.

(** The new thread takes over the count its creator held. *)
Lemma pool_created ab w l i : l !! i = Some Creating -> pool_inv (mkPool ab w l) -> pool_inv (mkPool ab w (<[i:=Working]> l ++ [Starting])).
Proof.
  intros E (Hle & Hpl & Hrun). unfold pool_inv. cbn [po_abort po_waiters po_threads] in *. pose proof (counted_insert l Creating Working i E) as Hc.
  rewrite counted_app. cbn [counted weight] in *. split; [lia |].
  split; [apply Forall_app; split; [by apply Forall_insert | by apply Forall_singleton] |]. intros Hr.
  destruct Hrun as [Hw _]; [by eapply (running_before ab ab w w l [Starting] i Creating Working E) |]. split; [lia |].
  exists (length (<[i:=Working]> l)), Starting. split; [by rewrite list_lookup_middle | done].
Qed.

Lemma pool_step_inv p p' : pool_step true p p' -> pool_inv p -> pool_inv p'.
Proof.
  intros Hst Hinv.
  destruct Hst as [ab w l i E|w l i E|w l i E|ab w l i E|ab w l i E|ab w l i E|ab w l i Hm E|ab w l i E|ab w l i E|ab w l i E|ab w l i E|ab w l i E|ab w l i E|ab w l i E|ab w l i E];
    try discriminate Hm; try (pose proof (waiters_pos _ _ _ _ _ Hinv E eq_refl) as Hpos).
  10: { by apply pool_created. }
  7: { destruct (Nat.eqb_spec (w - 1) 0); (eapply (pool_move _ _ _ _ _ _ _ _ E); [done | done | exact Hinv | cbn [weight]; lia | done | intros _ _; cbn [weight]; split; [lia |]]); [by left | right; lia]. }
  7: { destruct Hinv as (_ & Hpl & _). by apply (Forall_lookup_1 _ _ _ _ Hpl) in E. }
  all: (eapply (pool_move _ _ _ _ _ _ _ _ E); [done | done | exact Hinv | cbn [weight]; lia | done | intros Hab Hf; first [discriminate Hab | done | cbn [weight]; split; [lia | by left]]]).
Qed.

(** C24: Some thread always listens.  When every request carries a meta parameter, in every
    state the pool can reach from one thread, and as long as no thread has failed, which
    ends the program, some thread is waiting for a request or on its way to: the threads
    are never all inside a service.  The number of waiters is never below the number of
    threads that are yet to be counted off, so no decrement of it fails. *)
Theorem pool_listens p : rtc (pool_step true) pool_init p ->
  (counted (po_threads p) <= po_waiters p)%nat /\
  (running p -> po_waiters p = counted (po_threads p) /\ exists i t, po_threads p !! i = Some t /\ available t).
Proof.
  intros Hr. enough (pool_inv p) as (H1 & _ & H2) by done.
  assert (Hinit : pool_inv pool_init).
  { split; [cbn; lia |]. split; [by apply Forall_singleton |]. intros _. split; [done |]. by exists 0%nat, LoopTop. }
  clear -Hr Hinit. revert Hinit. generalize pool_init Hr. clear Hr. intros q Hr. induction Hr as [|x y z Hst _ IH]; intros Hq; [done |].
  apply IH. by eapply pool_step_inv.
Qed.

(** Two requests, the second while the first is in its service. *)
Definition ex_pool : pool := mkPool false 0 [Working; LoopTop].
Lemma ex_pool_reached : rtc (pool_step true) pool_init ex_pool.
Proof.
  eapply rtc_l; [by apply (step_enter true 0 [LoopTop] 0) |]. eapply rtc_l; [by apply (step_listen true false 0 [Entering] 0) |]. eapply rtc_l; [by apply (step_recv true false 1 [Waiting] 0) |].
  eapply rtc_l; [by apply (step_dec true false 1 [Got] 0) |]. eapply rtc_l; [by apply (step_spawn true false 0 [Spawning] 0) |].
  eapply rtc_l; [by apply (step_created true false 1 [Creating] 0) |]. eapply rtc_l; [by apply (step_start true false 1 [Working; Starting] 1) |]. apply rtc_refl.
Defined.
Lemma pool_listens_witness :
  (counted (po_threads ex_pool) <= po_waiters ex_pool)%nat /\
  (running ex_pool -> po_waiters ex_pool = counted (po_threads ex_pool) /\ exists i t, po_threads ex_pool !! i = Some t /\ available t).
Proof. apply (pool_listens ex_pool). apply ex_pool_reached. Defined.

(** ** Shared memory objects *)

(** Every object on the list has its bytes, in a block of its own. *)
Definition shm_inv {K} (s : supp K) : Prop := shm_ok s /\ NoDup (ts_p <$> sp_shm s).
Definition kept {K} : supp K -> supp K -> Prop := keeps shm_inv.
#[local] Instance kept_preorder {K} : PreOrder (@kept K) := keeps_preorder shm_inv.

Section Kept.
Context {K : Type}.

Lemma shm_inv_same (s s' : supp K) : sp_shm s' = sp_shm s -> sp_mem s' = sp_mem s -> kept s s'.
Proof. intros E1 E2 [Hok Hnd]. unfold shm_inv, shm_ok. by rewrite E1, E2. Qed.

Lemma steps_on_sys {A} (m : st K A) : steps kept (on_sys m).
Proof. intros s a s'. unfold on_sys. destruct (m (sp_kern s)) as [[? ?]|]; [| done]. intros [= <- <-]. by apply shm_inv_same. Qed.

Lemma kept_mem (s : supp K) mem : (forall blk b, sp_mem s !! blk = Some b -> exists b', mem !! blk = Some b' /\ length b' = length b) -> kept s (set_mem mem s).
Proof.
  intros Hm [Hok Hnd]. split; [| done]. eapply Forall_impl; [exact Hok |]. intros t (Hsz & b & Eb & Hl). split; [done |].
  destruct (Hm _ _ Eb) as (b' & Eb' & Hl'). exists b'. split; [done | lia].
Qed.

Lemma steps_store a bs : steps kept (store (K := K) a bs).
Proof.
  intros s x s'. unfold store, mem_write. destruct (sp_mem s !! a.1) as [b|] eqn:Eb; cbn [deref mbind outcome_bind]; [| done].
  destruct (buf_write b a.2 bs) as [b'|] eqn:Ew; cbn [mbind outcome_bind]; [| done]. intros [= <- <-]. apply kept_mem. intros blk c Ec.
  destruct (decide (blk = a.1)) as [->|Hne].
  - exists b'. rewrite lookup_insert_eq. rewrite Eb in Ec. injection Ec as <-. split; [done | by eapply buf_write_length].
  - exists c. by rewrite lookup_insert_ne.
Qed.

Lemma steps_undef {S A} (R : S -> S -> Prop) : steps R ((fun _ => Undef) : st S A).
Proof. by intros s a s'. Qed.

Lemma steps_retry {A} n (m : st (supp K) A) again : steps kept m -> steps kept (retry n m again).
Proof. intros Hm. induction n as [|n IH]; [apply steps_undef |]. cbn [retry]. steps_auto. Qed.

Lemma steps_modify_same (f : supp K -> supp K) : (forall s, sp_shm (f s) = sp_shm s /\ sp_mem (f s) = sp_mem s) -> steps kept (modify f).
Proof. intros Hf. apply steps_modify. intros s. by apply shm_inv_same; apply Hf. Qed.

(** A computation that reads the state only. *)
Lemma steps_reader {A} (f : supp K -> outcome A) : steps kept (fun s => a ← f s; Ret (a, s)).
Proof. intros s a s'. destruct (f s); cbn [mbind outcome_bind]; [| done]. by intros [= <- <-]. Qed.
End Kept.
#[local] Hint Resolve steps_on_sys steps_store steps_undef steps_retry steps_reader : steps.
#[local] Hint Extern 2 (steps kept (modify _)) => apply steps_modify_same; intros ?; split; reflexivity : steps.

Section Services.
Context {K : Type} `{Posix K} `{Sockets K}.

Lemma steps_path_param p : steps kept (path_param (K := K) p).
Proof.
  intros s a s'. unfold path_param. destruct (tee_supp_param_to_va _ _); [| by intros [= <- <-]].
  destruct (mem_cstr _ _); cbn [mbind outcome_bind]; [| done]. by intros [= <- <-].
Qed.
Lemma steps_open_wrapper fuel f flags : steps kept (open_wrapper (K := K) fuel f flags).
Proof. unfold open_wrapper. auto with steps. Qed.
Lemma steps_create_file fuel f : steps kept (create_file (K := K) fuel f).
Proof. pose proof steps_open_wrapper. unfold create_file. steps_auto. Qed.
Lemma steps_pread n : forall fd buf len offs c, steps kept (pread_loop (K := K) n fd buf len offs c).
Proof. induction n as [|n IH]; intros; cbn [pread_loop]; steps_auto. Qed.
Lemma steps_pwrite n : forall fd buf len offs, steps kept (pwrite_loop (K := K) n fd buf len offs).
Proof. induction n as [|n IH]; intros; cbn [pwrite_loop]; steps_auto. Qed.
Lemma steps_next_entry n dir : steps kept (next_entry (K := K) n dir).
Proof. induction n as [|n IH]; cbn [next_entry]; steps_auto. Qed.
Hint Resolve steps_path_param steps_open_wrapper steps_create_file steps_pread steps_pwrite steps_next_entry : steps.

Lemma steps_fs fuel realloc params : steps kept (tee_supp_fs_process (K := K) fuel realloc params).
Proof.
  unfold tee_supp_fs_process, ree_fs_new_open, ree_fs_new_create, ree_fs_new_close, ree_fs_new_read, ree_fs_new_write, ree_fs_new_truncate,
    ree_fs_new_remove, ree_fs_new_rename, ree_fs_new_opendir, ree_fs_new_closedir, ree_fs_new_readdir. steps_auto.
Qed.

Lemma steps_load load_path test ta_dir params : steps kept (load_ta (K := K) load_path test ta_dir params).
Proof.
  assert (Ht : forall p d u ta n, steps kept (try_load_secure_module (K := K) p d u ta n)) by (intros; unfold try_load_secure_module, open_ta; steps_auto).
  unfold load_ta, TEECI_LoadSecureModule. steps_auto.
Qed.

Lemma steps_gprof fuel params : steps kept (gprof_process (K := K) fuel params).
Proof.
  assert (Hl : forall n id flags u b, steps kept (gprof_loop (K := K) fuel n id flags u b)) by (induction n as [|n IH]; intros; cbn [gprof_loop]; steps_auto).
  unfold gprof_process. steps_auto.
Qed.

Lemma steps_set_socks (f : supp K -> outcome (Z * list sock_instance)) : steps kept (fun s => '(a, l) ← f s; Ret (a, set_socks l s)).
Proof. intros s a s'. destruct (f s) as [[? ?]|]; cbn [mbind outcome_bind]; [| done]. intros [= <- <-]. by apply shm_inv_same. Qed.

Ltac inv_pairs := inv_ret; repeat (match goal with H : (let '(_, _) := ?p in _) = Ret _ |- _ => destruct p end; inv_ret).

Lemma steps_sock_get realloc calloc id fd : steps kept (sock_handle_get (K := K) realloc calloc id fd).
Proof.
  intros s a s'. unfold sock_handle_get. destruct (sock_instance_find id (sp_socks s)) as [si|]; [| destruct calloc; [| by intros [= <- <-]]]; intros E; inv_pairs; by apply shm_inv_same.
Qed.
Lemma steps_sock_fd id h : steps kept (sock_handle_to_fd (K := K) id h).
Proof.
  intros s a s'. unfold sock_handle_to_fd. destruct (sock_instance_find _ _); [| by intros [= <- <-]]. intros E. inv_pairs. by apply shm_inv_same.
Qed.
Lemma steps_sock_put id h : steps kept (sock_handle_put (K := K) id h).
Proof.
  intros s a s'. unfold sock_handle_put. destruct (sock_instance_find _ _); [| by intros [= <- <-]]. intros E. inv_pairs. by apply shm_inv_same.
Qed.
Lemma steps_close_all params : steps kept (tee_socket_close_all (K := K) params).
Proof.
  intros s a s'. unfold tee_socket_close_all. destruct params as [|p0 [|]]; try by intros [= <- <-].
  destruct (negb _); [by intros [= <- <-] |]. destruct (sock_instance_find _ _); [| by intros [= <- <-]]. intros E. inv_pairs. by apply shm_inv_same.
Qed.
(** The rest of the socket service respects any relation its calls and stores respect. *)
Section Socket.
Context (R : supp K -> supp K -> Prop) `{!PreOrder R}.
Context (Hsys : forall A (m : st K A), steps R (on_sys m)) (Hstore : forall a bs, steps R (store a bs)).
#[local] Hint Resolve Hsys Hstore : steps.

Lemma steps_connect r l : steps R (connect_loop (K := K) r l).
Proof. revert r. induction l as [|x l IH]; intros r; cbn [connect_loop]; unfold fd_flags_add; steps_auto. Qed.
Lemma steps_poll n : forall fd ev until now to, steps R (poll_loop (K := K) n fd ev until now to).
Proof. induction n as [|n IH]; intros; cbn [poll_loop]; steps_auto. Qed.
Lemma steps_changeaddr fd r l : steps R (changeaddr_loop (K := K) fd r l).
Proof. revert r. induction l as [|x l IH]; intros r; cbn [changeaddr_loop]; steps_auto. Qed.
Lemma steps_opt_bytes buf n : steps R (opt_bytes (K := K) buf n).
Proof. intros s a s'. unfold opt_bytes. destruct buf; [| by intros [= <- <-]]. intros E. inv_ret. reflexivity. Qed.
Lemma steps_last_byte a n : steps R (last_byte (K := K) a n).
Proof. intros s x s' E. unfold last_byte in E. inv_ret. reflexivity. Qed.
Lemma steps_cstr_param a : steps R (cstr_param (K := K) a).
Proof. intros s x s' E. unfold cstr_param in E. inv_ret. reflexivity. Qed.
#[local] Hint Resolve steps_connect steps_poll steps_changeaddr steps_opt_bytes steps_last_byte steps_cstr_param : steps.

Lemma steps_socket_with fuel realloc calloc p0 rest :
  (forall fd, steps R (sock_handle_get realloc calloc (u32 (ip_b p0)) fd)) -> (forall h, steps R (sock_handle_to_fd (u32 (ip_b p0)) h)) ->
  (forall h, steps R (sock_handle_put (u32 (ip_b p0)) h)) -> steps R (tee_socket_close_all (p0 :: rest)) ->
  steps R (tee_socket_process fuel realloc calloc (p0 :: rest)).
Proof.
  intros. unfold tee_socket_process, tee_socket_open, tee_socket_close, tee_socket_send, tee_socket_recv, tee_socket_ioctl, sock_connect,
    write_with_timeout, read_with_timeout, poll_with_timeout, tee_socket_ioctl_tcp, tee_socket_ioctl_udp, udp_changeaddr. steps_auto.
Qed.
End Socket.

Lemma steps_socket fuel realloc calloc params : steps kept (tee_socket_process (K := K) fuel realloc calloc params).
Proof.
  destruct params as [|p0 rest]; [apply steps_ret; apply _ |].
  apply steps_socket_with; auto using steps_on_sys, steps_store, steps_sock_get, steps_sock_fd, steps_sock_put, steps_close_all. apply _.
Qed.
End Services.

Lemma pop_tshm_spec id l : match pop_tshm id l with
  | (None, l') => l' = l /\ find_tshm id l = None
  | (Some t, l') => find_tshm id l = Some t /\ exists l1 l2, l = l1 ++ t :: l2 /\ l' = l1 ++ l2
  end.
Proof.
  induction l as [|x l IH]; cbn [pop_tshm find_tshm]; [done |]. destruct (ts_id x =? id); [split; [done |]; by exists [], l |].
  destruct (pop_tshm id l) as [[t|] l'].
  - destruct IH as (E & l1 & l2 & -> & ->). split; [done |]. by exists (x :: l1), l2.
  - destruct IH as [-> E]. done.
Qed.

Section Allocation.
Context {K : Type} `{Posix K}.

(** Freeing a block no object on the list uses. *)
Lemma kept_free (s : supp K) blk : blk ∉ (ts_p <$> sp_shm s) -> kept s (set_mem (delete blk (sp_mem s)) s).
Proof.
  intros Hn [Hok Hnd]. split; [| done]. apply Forall_forall. intros t Ht. pose proof (proj1 (Forall_forall _ _) Hok t Ht) as (Hsz & b & Eb & Hl).
  split; [done |]. exists b. split; [| done]. cbn [set_mem sp_mem]. rewrite lookup_delete_ne; [done |]. intros ->. apply Hn, list_elem_of_fmap. by exists t.
Qed.

(** A new block is not in use. *)
Lemma new_block_fresh (s : supp K) : shm_inv s -> sp_mem s !! above (dom (sp_mem s)) = None /\ above (dom (sp_mem s)) ∉ (ts_p <$> sp_shm s).
Proof.
  intros [Hok _]. assert (Hn : sp_mem s !! above (dom (sp_mem s)) = None).
  { apply not_elem_of_dom. intros Hin. apply (proj2 (above_spec (dom (sp_mem s)))) in Hin. lia. }
  split; [done |]. intros (t & Et & Ht)%list_elem_of_fmap. pose proof (proj1 (Forall_forall _ _) Hok t Ht) as (_ & b & Eb & _). by rewrite <- Et, Hn in Eb.
Qed.

(** What happens to an object that is off the list: its block may be freed. *)
Definition off_list (blk : Z) (s s' : supp K) : Prop := sp_shm s' = sp_shm s /\ (blk ∉ (ts_p <$> sp_shm s) -> kept s s').
#[local] Instance off_list_preorder blk : PreOrder (off_list blk).
Proof.
  split; [intros s; split; [done | by intros _] |]. intros x y z [E1 H1] [E2 H2]. split; [congruence |]. intros Hn.
  transitivity y; [by apply H1 | apply H2; by rewrite E1].
Qed.
Lemma off_list_sys {A} blk (m : st K A) : steps (off_list blk) (on_sys m).
Proof.
  intros s a s' E. split; [| intros _; by eapply steps_on_sys]. unfold on_sys in E. destruct (m (sp_kern s)) as [[? ?]|]; [| done]. by injection E as <- <-.
Qed.
Lemma off_list_free blk : steps (off_list blk) (free_block blk).
Proof. intros s a s' [= <- <-]. split; [done | apply kept_free]. Qed.
#[local] Hint Resolve off_list_sys off_list_free : steps.

Lemma popped_inv (s : supp K) l1 t l2 : sp_shm s = l1 ++ t :: l2 -> shm_inv s -> shm_inv (set_shm (l1 ++ l2) s) /\ ts_p t ∉ (ts_p <$> l1 ++ l2).
Proof.
  intros El [Hok Hnd]. unfold shm_inv, shm_ok in *. cbn [set_shm sp_shm sp_mem]. rewrite El in *. rewrite fmap_app, fmap_cons in Hnd. rewrite fmap_app.
  apply Forall_app in Hok as [Ho1 Ho2]. apply Forall_cons in Ho2 as [_ Ho2]. apply NoDup_app in Hnd as (N1 & Hx & N2). apply NoDup_cons in N2 as [Hn N2].
  split; [split; [by apply Forall_app | apply NoDup_app; split_and!; [done | | done]] |].
  - intros x Hx1 Hx2. apply (Hx x Hx1). by apply list_elem_of_further.
  - intros [Hi|Hi]%elem_of_app; [apply (Hx _ Hi), list_elem_of_here | done].
Qed.

Lemma steps_free params : steps kept (process_free (K := K) params).
Proof.
  unfold process_free. destruct params as [|p0 [|]]; try apply steps_ret; try apply _. destruct (get_value [p0] 0) as [val|]; [| apply steps_ret; apply _].
  intros s a s' E. apply st_bind_inv in E as (l & s0 & [= <- <-] & E). pose proof (pop_tshm_spec (i32 (ip_b val)) (sp_shm s)) as Hpop.
  destruct (pop_tshm _ _) as [[t|] l].
  2: { destruct Hpop as [-> _]. apply st_bind_inv in E as (? & ? & [= <- <-] & [= <- <-]). by apply shm_inv_same. }
  destruct Hpop as (_ & l1 & l2 & El & ->). intros Hinv. destruct (popped_inv s l1 t l2 El Hinv) as [Hs1 Hn].
  apply st_bind_inv in E as (? & s1 & [= <- <-] & E). assert (Htail : off_list (ts_p t) (set_shm (l1 ++ l2) s) s').
  { revert E. generalize (set_shm (l1 ++ l2) s), a, s'. match goal with |- forall x y z, ?m x = _ -> _ => change (steps (off_list (ts_p t)) m) end. steps_auto. }
  by apply Htail.
Qed.

(** The system's part of an allocation: memory at least as large as asked for. *)
Context (junk : Z -> list Z) (Hjunk : forall n, 0 <= n -> Z.of_nat (length (junk n)) = n).
Context (Halloc : forall fd size k shm_fd id data_size k', p_shm_alloc fd size k = Ret ((shm_fd, id, data_size), k') -> 0 <= shm_fd -> size <= data_size).

Definition allocated (size : Z) (r : option tee_shm) (s s' : supp K) : Prop :=
  sp_shm s' = sp_shm s /\ shm_inv s' /\
  match r with
  | Some t => (ts_p t ∉ (ts_p <$> sp_shm s')) /\ exists b, sp_mem s' !! ts_p t = Some b /\ size <= Z.of_nat (length b)
  | None => True
  end.

Lemma on_sys_inv {A} (m : st K A) (s : supp K) a s' : on_sys m s = Ret (a, s') -> exists k, m (sp_kern s) = Ret (a, k) /\ s' = set_kern k s.
Proof. unfold on_sys. destruct (m (sp_kern s)) as [[x k]|]; [| done]. intros [= <- <-]. by exists k. Qed.

Lemma new_block_inv bytes (s : supp K) : shm_inv s ->
  let s' := set_mem (<[above (dom (sp_mem s)):=bytes]> (sp_mem s)) s in
  shm_inv s' /\ (above (dom (sp_mem s)) ∉ (ts_p <$> sp_shm s')) /\ sp_mem s' !! above (dom (sp_mem s)) = Some bytes.
Proof.
  intros Hinv s'. destruct (new_block_fresh s Hinv) as [Hn Hnl]. split; [| split; [done | apply lookup_insert_eq]].
  apply kept_mem; [| done]. intros blk b Eb. exists b. rewrite lookup_insert_ne; [done |]. congruence.
Qed.

Lemma register_spec fd size (s s' : supp K) r : 0 <= size -> shm_inv s -> register_local_shm junk fd size s = Ret (r, s') -> allocated size r s s'.
Proof.
  intros Hsz Hinv E. unfold register_local_shm in E. apply st_bind_inv in E as (ok & s1 & (k1 & _ & ->)%on_sys_inv & E).
  destruct ok; cbn [negb] in E; [| injection E as <- <-; by split]. apply st_bind_inv in E as (buf & s2 & [= <- <-] & E).
  destruct (new_block_inv (junk size) (set_kern k1 s)) as (Hs2 & Hn2 & Eb2); [done |]. cbn [set_kern sp_mem] in *. set (s2 := set_mem _ _) in *. set (buf := above _) in *.
  assert (Hfail : forall k a s3, (free_block buf;; mret None) (set_kern k s2) = Ret (a, s3) -> allocated size a s s3).
  { intros k a s3 Ef. apply st_bind_inv in Ef as (? & ? & [= <- <-] & [= <- <-]). split; [done |]. split; [| done]. by apply (kept_free (set_kern k s2) buf). }
  apply st_bind_inv in E as (ok & s3 & (k3 & _ & ->)%on_sys_inv & E). destruct ok; cbn [negb] in E; [| by eapply Hfail].
  apply st_bind_inv in E as ([shm_fd id] & s4 & (k4 & _ & ->)%on_sys_inv & E).
  destruct (shm_fd <? 0); [by eapply (Hfail k4) |]. injection E as <- <-.
  split; [done |]. split; [done |]. split; [done |]. exists (junk size). split; [done |]. rewrite Hjunk; lia.
Qed.

Lemma alloc_spec fd size (s s' : supp K) r : shm_inv s -> alloc_shm fd size s = Ret (r, s') -> allocated size r s s'.
Proof.
  intros Hinv E. unfold alloc_shm in E. apply st_bind_inv in E as (ok & s1 & (k1 & _ & ->)%on_sys_inv & E).
  destruct ok; cbn [negb] in E; [| injection E as <- <-; by split].
  apply st_bind_inv in E as ([[shm_fd id] data_size] & s2 & (k2 & Ea & ->)%on_sys_inv & E). cbn [fst snd] in E.
  destruct (Z.ltb_spec shm_fd 0) as [|Hfd]; [injection E as <- <-; by split |]. apply Halloc in Ea; [| done].
  apply st_bind_inv in E as (ok & s3 & (k3 & _ & ->)%on_sys_inv & E). destruct ok; cbn [negb] in E; [| discriminate E].
  apply st_bind_inv in E as (buf & s4 & [= <- <-] & E). injection E as <- <-.
  destruct (new_block_inv (zeros data_size) (set_kern k3 s)) as (Hs2 & Hn2 & Eb2); [done |].
  split; [done |]. split; [done |]. split; [done |]. eexists. split; [exact Eb2 |]. unfold zeros. rewrite length_replicate. lia.
Qed.

Lemma pushed_inv (s : supp K) t : shm_inv s -> ts_p t ∉ (ts_p <$> sp_shm s) -> ts_size t < 2 ^ 64 ->
  (exists b, sp_mem s !! ts_p t = Some b /\ ts_size t <= Z.of_nat (length b)) -> shm_inv (set_shm (push_tshm t (sp_shm s)) s).
Proof.
  intros [Hok Hnd] Hn Hsz Hb. unfold shm_inv, shm_ok, push_tshm. cbn [set_shm sp_shm sp_mem]. split; [by apply Forall_cons |].
  rewrite fmap_cons. by apply NoDup_cons.
Qed.

Lemma steps_alloc fd caps params : Forall param_ok params -> steps kept (process_alloc junk fd caps params).
Proof.
  intros Hp. unfold process_alloc. destruct params as [|p0 [|]]; try apply steps_ret; try apply _.
  destruct (get_value [p0] 0) as [val|] eqn:Ev; [| apply steps_ret; apply _].
  assert (val = p0) as ->. { unfold get_value in Ev. cbn in Ev. destruct (tee_supp_param_is_value p0); [by injection Ev | done]. }
  apply Forall_cons in Hp as [(_ & Hb & _) _]. unfold u64_ok in Hb. intros s a s' E Hinv. apply st_bind_inv in E as (r & s1 & E1 & E).
  assert (Hal : allocated (ip_b p0) r s s1) by (destruct (negb _); [eapply register_spec; [lia | done | done] | by eapply alloc_spec]).
  destruct Hal as (_ & Hs1 & Ht). destruct r as [t|]; [| by injection E as <- <-]. destruct Ht as (Hn & Hbytes).
  apply st_bind_inv in E as (? & ? & [= <- <-] & [= <- <-]). apply pushed_inv; cbn [ts_p ts_size]; (done || lia).
Qed.
End Allocation.

(** ** The loop *)

Section Loop.
Context {K D : Type} `{Posix K} `{Sockets K} `{TeeDevice K} `{MmcDevice D}.
Context (fuel : nat) (realloc : Z -> bool) (calloc : bool) (junk : Z -> list Z) (junk_csd : list Z).
Context (load_path : list Z) (test_load_path : option (list Z)) (ta_dir : list Z).
Context (Hjunk : forall n, 0 <= n -> Z.of_nat (length (junk n)) = n).
Context (Halloc : forall fd size k shm_fd id data_size k', p_shm_alloc fd size k = Ret ((shm_fd, id, data_size), k') -> 0 <= shm_fd -> size <= data_size).
(** The words of the parameters the driver delivers are 64 bits wide. *)
Context (Hrecv : forall fd k func l k', d_recv fd k = Ret (Some (func, l), k') -> Forall param_ok l).

Definition served (s s' : server K D) : Prop := kept (sv_supp s) (sv_supp s').
#[local] Instance served_preorder : PreOrder served.
Proof. unfold served. split; [intros s; reflexivity | intros x y z Hxy Hyz; by transitivity (sv_supp y)]. Qed.

Lemma steps_on_supp {A} (m : st (supp K) A) : steps kept m -> steps served (on_supp m).
Proof. intros Hm s a s' E. unfold on_supp in E. destruct (m (sv_supp s)) as [[x t]|] eqn:Em; [| done]. injection E as <- <-. by eapply Hm. Qed.
Lemma steps_on_rpmb {A} (m : st (bool * D) A) : steps served (on_rpmb (K := K) m).
Proof. intros s a s' E. unfold on_rpmb in E. destruct (m (sv_dev s)) as [[x t]|]; [| done]. injection E as <- <-. unfold served. reflexivity. Qed.
Lemma steps_ref_bytes r : steps kept (ref_bytes (K := K) r).
Proof. intros s a s'. unfold ref_bytes. destruct (sr_buffer r); [| by intros [= <- <-]]. intros E. inv_ret. done. Qed.
Lemma steps_ref_store r bs : steps kept (ref_store (K := K) r bs).
Proof. unfold ref_store. steps_auto. Qed.
Lemma steps_inc : steps served num_waiters_inc.
Proof. intros s a s' E. unfold num_waiters_inc in E. inv_ret. unfold served. reflexivity. Qed.
Lemma steps_dec : steps served num_waiters_dec.
Proof. intros s a s' E. unfold num_waiters_dec in E. inv_ret. unfold served. reflexivity. Qed.
#[local] Hint Resolve steps_on_supp steps_on_rpmb steps_ref_bytes steps_ref_store steps_inc steps_dec steps_load steps_fs steps_free steps_gprof steps_socket : steps.

Lemma steps_dispatch fd caps func params : Forall param_ok params ->
  steps served (dispatch fuel realloc calloc junk junk_csd load_path test_load_path ta_dir fd caps func params).
Proof. intros Hp. pose proof (steps_alloc junk Hjunk Halloc fd caps params Hp). unfold dispatch, process_rpmb. steps_auto. Qed.

Lemma steps_spawn : steps served spawn_thread.
Proof. unfold spawn_thread. steps_auto. apply steps_modify. intros s. unfold served. reflexivity. Qed.
#[local] Hint Resolve steps_spawn : steps.

Lemma steps_one_request fd caps :
  steps served (process_one_request fuel realloc calloc junk junk_csd load_path test_load_path ta_dir fd caps).
Proof.
  unfold process_one_request, read_request. apply steps_bind; [apply _ | apply steps_inc | intros _]. intros s a s' E.
  apply st_bind_inv in E as (r & s1 & Er & E). unfold on_supp in Er. destruct (on_sys _ _) as [[r' x]|] eqn:Es; [| done]. injection Er as -> <-.
  apply on_sys_inv in Es as (k & Ek & ->). transitivity (mkServer (set_kern k (sv_supp s)) (sv_dev s) (sv_waiters s) (sv_spawned s)); [by apply shm_inv_same |].
  assert (Hl : forall func l, r = Some (func, l) -> Forall param_ok l) by (intros func l ->; by eapply Hrecv). clear Ek.
  revert E. generalize (mkServer (set_kern k (sv_supp s)) (sv_dev s) (sv_waiters s) (sv_spawned s)), a, s'.
  match goal with |- forall x y z, ?m x = _ -> _ => change (steps served m) end.
  destruct r as [[func l]|]; [| apply steps_ret; apply _]. specialize (Hl func l eq_refl). unfold find_params. destruct (existsb _ _); [apply steps_ret; apply _ |].
  pose proof (steps_dispatch fd caps func (drop (count_meta l) l) (Forall_drop _ _ _ Hl)). unfold write_response. steps_auto.
Qed.

Lemma steps_serve n fd caps : steps served (serve fuel realloc calloc junk junk_csd load_path test_load_path ta_dir n fd caps).
Proof. induction n as [|n IH]; cbn [serve]; [apply steps_ret; apply _ |]. pose proof steps_one_request. steps_auto. Qed.
End Loop.

(** C12: No request breaks the shared memory.  Whatever requests the secure world sends, of
    any service and with any parameters, and however many: in every state the loop reaches
    after requests that were all answered (none ended in undefined behaviour or ran out of
    fuel), every object on the shared memory list has its bytes, in memory no other object
    uses, and every memory reference that [tee_supp_param_to_va] resolves lies inside its
    object.  The references [load_ta] and the RPMB service take through [get_param] are
    another matter, for which see [get_param_range].  The driver delivers words of 64 bits
    and gives at least the memory asked for. *)
Theorem serve_memrefs_safe {K D} `{Posix K} `{Sockets K} `{TeeDevice K} `{MmcDevice D} fuel realloc calloc junk junk_csd load_path test_load_path ta_dir n fd caps
    (s s' : server K D) ok :
  (forall n, 0 <= n -> Z.of_nat (length (junk n)) = n) ->
  (forall fd size k shm_fd id data_size k', p_shm_alloc fd size k = Ret ((shm_fd, id, data_size), k') -> 0 <= shm_fd -> size <= data_size) ->
  (forall fd k func l k', d_recv fd k = Ret (Some (func, l), k') -> Forall param_ok l) ->
  sp_shm (sv_supp s) = [] ->
  serve fuel realloc calloc junk junk_csd load_path test_load_path ta_dir n fd caps s = Ret (ok, s') ->
  shm_inv (sv_supp s') /\
  forall p a, param_ok p -> tee_supp_param_to_va (sp_shm (sv_supp s')) p = Some a ->
    exists b, sp_mem (sv_supp s') !! a.1 = Some b /\ 0 <= a.2 /\ a.2 + ip_b p <= Z.of_nat (length b).
Proof.
  intros Hj Ha Hr Hs E. assert (Hinv : shm_inv (sv_supp s')).
  { eapply (steps_serve _ _ _ _ _ _ _ _ Hj Ha Hr) in E. apply E. unfold shm_inv, shm_ok. rewrite Hs. split; constructor. }
  split; [done |]. intros p a Hp Ep. apply (param_to_va_in _ p a); [apply Hinv | done | done].
Qed.

(** ** Parameters of a request *)

(** Meta parameters come first: the split is found exactly when none follows another one. *)
Lemma find_params_spec l n ps : find_params l = Some (n, ps) <->
  exists m, l = m ++ ps /\ length m = n /\ Forall (fun p => is_meta p = true) m /\ Forall (fun p => is_meta p = false) ps.
Proof.
  assert (Hc : forall l, Forall (fun p => is_meta p = true) (take (count_meta l) l) /\ match drop (count_meta l) l with p :: _ => is_meta p = false | [] => True end).
  { clear. induction l as [|p l [IH1 IH2]]; cbn [count_meta]; [done |]. destruct (is_meta p) eqn:E; cbn; [split; [by constructor | done] | done]. }
  assert (He : forall k, existsb is_meta k = false <-> Forall (fun p => is_meta p = false) k).
  { clear. induction k as [|p k IH]; cbn; [done |]. rewrite orb_false_iff, IH. split; [intros [? ?]; by constructor | by intros [? ?]%Forall_cons]. }
  unfold find_params. split.
  - destruct (existsb _ _) eqn:E; [done |]. intros [= <- <-]. exists (take (count_meta l) l). rewrite take_drop. split; [done |]. apply He in E.
    split; [| split; [apply Hc | done]]. rewrite length_take. enough (count_meta l <= length l)%nat by lia. clear. induction l as [|p l IH]; cbn; [lia |]. destruct (is_meta p); lia.
  - intros (m & -> & <- & Hm & Hps). assert (Hn : count_meta (m ++ ps) = length m).
    { clear -Hm Hps. induction Hm as [|p m Hp Hm IH]; cbn [app count_meta length].
      - destruct Hps as [|p ps Hp _]; cbn [count_meta]; [done | by rewrite Hp].
      - by rewrite Hp, IH. }
    rewrite Hn, drop_app_length. by rewrite (proj2 (He ps) Hps).
Qed.

(** ** Timeouts of sockets *)

Definition ts_ns (t : timespec) : Z := tv_sec t * TS_NSEC_PER_SEC + tv_nsec t.
Definition ts_ok (t : timespec) : Prop := 0 <= tv_nsec t < TS_NSEC_PER_SEC.

Lemma ts_diff_millis a b : ts_ok a -> ts_ok b ->
  let ms := (ts_ns a - ts_ns b) / 1000000 in
  ts_diff_to_polltimeout a b = if ms <? 2147485000 then i32 ms else INT_MAX.
Proof.
  intros Ha Hb ms. unfold ts_ok, ts_diff_to_polltimeout, TS_NSEC_PER_SEC in *. change (INT_MAX ÷ 1000) with 2147483. change (1000000000 ÷ 1000) with 1000000.
  set (D := tv_sec a - tv_sec b). set (n := tv_nsec a - tv_nsec b).
  assert (Hms : forall sec nsec, sec * 1000000000 + nsec = D * 1000000000 + n -> 0 <= nsec < 1000000000 ->
    ms = sec * 1000 + nsec / 1000000 /\ (2147483 <? sec - 1) = negb (ms <? 2147485000) /\ nsec ÷ 1000000 = nsec / 1000000).
  { intros sec nsec E Hn. assert (Em : ms = sec * 1000 + nsec / 1000000).
    { unfold ms, ts_ns, TS_NSEC_PER_SEC. replace (tv_sec a * _ + tv_nsec a - _) with (nsec + (sec * 1000) * 1000000) by (unfold D, n in E; lia). rewrite Z.div_add by lia. lia. }
    assert (0 <= nsec / 1000000 < 1000) by (split; [apply Z.div_pos; lia | apply Z.div_lt_upper_bound; lia]).
    split; [done |]. split; [| apply Z.quot_div_nonneg; lia]. destruct (Z.ltb_spec 2147483 (sec - 1)), (Z.ltb_spec ms 2147485000); cbn [negb]; lia. }
  destruct (Z.ltb_spec (tv_nsec a) (tv_nsec b)) as [Hlt|Hge].
  - destruct (Hms (D - 1) (n + 1000000000)) as (E1 & -> & ->); [lia | lia |]. rewrite <- E1. by destruct (ms <? 2147485000).
  - destruct (Hms D n) as (E1 & -> & ->); [lia | lia |]. rewrite <- E1. by destruct (ms <? 2147485000).
Qed.

Lemma i32_neg z : - 2 ^ 31 <= z < 0 \/ 2 ^ 31 <= z < 2 ^ 32 -> i32 z < 0.
Proof.
  intros [Hz|Hz]; [rewrite i32_small; lia |]. unfold i32. rewrite u32_small by lia. rewrite (proj2 (Z.ltb_ge _ _)) by lia. lia.
Qed.

(** Timeouts of socket transfers.  A transfer with a timeout waits that many
    milliseconds from the time it starts, if they are less than 2^31, about 24 days.
    Between that and 2147485 seconds the number passed on to [poll] is negative, and so
    it is once the deadline has passed when an interrupted wait is resumed: [poll] then
    waits without limit. *)
Theorem poll_timeout_spec now millis later :
  ts_ok now -> 0 <= millis < 2 ^ 32 -> ts_ok later ->
  let until := ts_add now (ts_delay_from_millis millis) in
  (millis < 2 ^ 31 -> ts_diff_to_polltimeout until now = millis) /\
  (2 ^ 31 <= millis < 2147485000 -> ts_diff_to_polltimeout until now < 0) /\
  (2147485000 <= millis -> ts_diff_to_polltimeout until now = INT_MAX) /\
  (ts_ns until < ts_ns later <= ts_ns until + 2147483648000000 -> ts_diff_to_polltimeout until later < 0).
Proof.
  intros Hnow Hm Hlater until. assert (Hd : ts_ok (ts_delay_from_millis millis) /\ ts_ns (ts_delay_from_millis millis) = millis * 1000000).
  { unfold ts_ok, ts_ns, ts_delay_from_millis, TS_NSEC_PER_SEC. cbn [tv_sec tv_nsec]. change (1000000000 / 1000) with 1000000.
    pose proof (Z.mod_pos_bound millis 1000 ltac:(lia)). pose proof (Z.div_mod millis 1000 ltac:(lia)). lia. }
  destruct Hd as [Hdok Hdns]. assert (Hu : ts_ok until /\ ts_ns until = ts_ns now + millis * 1000000).
  { rewrite <- Hdns. unfold until, ts_add, ts_ok, ts_ns in *. unfold TS_NSEC_PER_SEC in *.
    destruct (Z.leb_spec 1000000000 (tv_nsec now + tv_nsec (ts_delay_from_millis millis))); cbn [tv_sec tv_nsec]; lia. }
  destruct Hu as [Huok Huns]. assert (Hms : (ts_ns until - ts_ns now) / 1000000 = millis).
  { rewrite Huns. replace (_ + _ - _) with (millis * 1000000) by lia. by apply Z.div_mul. }
  pose proof (ts_diff_millis until now Huok Hnow) as E1. pose proof (ts_diff_millis until later Huok Hlater) as E2. cbv zeta in E1, E2. rewrite Hms in E1.
  split_and!; intros Hr.
  - rewrite E1, (proj2 (Z.ltb_lt _ _)), i32_small by lia. done.
  - rewrite E1, (proj2 (Z.ltb_lt _ _)) by lia. apply i32_neg. lia.
  - by rewrite E1, (proj2 (Z.ltb_ge _ _)) by lia.
  - set (ms := (ts_ns until - ts_ns later) / 1000000) in *. assert (-2147483648 <= ms < 0).
    { unfold ms. split; [apply Z.div_le_lower_bound; lia | apply Z.div_lt_upper_bound; lia]. }
    rewrite E2, (proj2 (Z.ltb_lt _ _)) by lia. apply i32_neg. lia.
Qed.

Lemma poll_timeout_spec_witness :
  let until := ts_add (mkTs 10 0) (ts_delay_from_millis 1500) in
  (1500 < 2 ^ 31 -> ts_diff_to_polltimeout until (mkTs 10 0) = 1500) /\
  (2 ^ 31 <= 1500 < 2147485000 -> ts_diff_to_polltimeout until (mkTs 10 0) < 0) /\
  (2147485000 <= 1500 -> ts_diff_to_polltimeout until (mkTs 10 0) = INT_MAX) /\
  (ts_ns until < ts_ns (mkTs 12 0) <= ts_ns until + 2147483648000000 -> ts_diff_to_polltimeout until (mkTs 12 0) < 0).
Proof. apply (poll_timeout_spec (mkTs 10 0) 1500 (mkTs 12 0)); unfold ts_ok, TS_NSEC_PER_SEC; cbn; lia. Defined.

(** ** Sockets *)

Section SocketInstances.
Context {K : Type} `{Sockets K}.

(** The sockets of every instance but one stay as they are. *)
Definition others (id : Z) (s s' : supp K) : Prop :=
  forall id', id' <> id -> sock_instance_find id' (sp_socks s') = sock_instance_find id' (sp_socks s).
#[local] Instance others_preorder id : PreOrder (others id).
Proof. split; [by intros s id' | intros x y z Hxy Hyz id' Hne; rewrite Hyz by done; by apply Hxy]. Qed.

Lemma find_set_instance id id' db l : id' <> id -> sock_instance_find id' (set_instance id db l) = sock_instance_find id' l.
Proof.
  intros Hne. induction l as [|si l IH]; cbn [set_instance sock_instance_find]; [done |]. destruct (Z.eqb_spec (si_id si) id) as [E|].
  - cbn [sock_instance_find si_id]. by rewrite (proj2 (Z.eqb_neq (si_id si) id')) by congruence.
  - cbn [sock_instance_find]. destruct (si_id si =? id'); [done | apply IH].
Qed.
Lemma find_app_other id' si l : si_id si <> id' -> sock_instance_find id' (l ++ [si]) = sock_instance_find id' l.
Proof.
  intros Hne. induction l as [|x l IH]; cbn [app sock_instance_find]; [by rewrite (proj2 (Z.eqb_neq _ _) Hne) |]. destruct (si_id x =? id'); [done | apply IH].
Qed.

Ltac inv_pairs := inv_ret; repeat (match goal with H : (let '(_, _) := ?p in _) = Ret _ |- _ => destruct p end; inv_ret).

Lemma others_sys {A} id (m : st K A) : steps (others id) (on_sys m).
Proof. intros s a s' (k & _ & ->)%on_sys_inv. by intros id'. Qed.
Lemma others_store id a bs : steps (others id) (store (K := K) a bs).
Proof. intros s x s' E. unfold store in E. inv_ret. by intros id'. Qed.
Lemma others_get realloc calloc id fd : steps (others id) (sock_handle_get (K := K) realloc calloc id fd).
Proof.
  intros s a s' E. unfold sock_handle_get in E. destruct (sock_instance_find id (sp_socks s)) as [si|]; [| destruct calloc; [| by injection E as <- <-]];
    inv_pairs; intros id' Hne; cbn [set_socks sp_socks]; rewrite find_set_instance by done; [done | by apply find_app_other].
Qed.
Lemma others_fd id h : steps (others id) (sock_handle_to_fd (K := K) id h).
Proof.
  intros s a s' E. unfold sock_handle_to_fd in E. destruct (sock_instance_find _ _); [| by injection E as <- <-]. inv_pairs.
  intros id' Hne. cbn [set_socks sp_socks]. by apply find_set_instance.
Qed.
Lemma others_put id h : steps (others id) (sock_handle_put (K := K) id h).
Proof.
  intros s a s' E. unfold sock_handle_put in E. destruct (sock_instance_find _ _); [| by injection E as <- <-]. inv_pairs.
  intros id' Hne. cbn [set_socks sp_socks]. by apply find_set_instance.
Qed.
Lemma others_close_all p0 rest : steps (others (u32 (ip_b p0))) (tee_socket_close_all (K := K) (p0 :: rest)).
Proof.
  intros s a s' E. unfold tee_socket_close_all in E. destruct rest; [| by injection E as <- <-]. destruct (negb _); [by injection E as <- <- |].
  destruct (sock_instance_find _ _); [| by injection E as <- <-]. inv_pairs. intros id' Hne. cbn [set_kern set_socks sp_socks]. by apply find_set_instance.
Qed.

Lemma others_socket fuel realloc calloc p0 rest : steps (others (u32 (ip_b p0))) (tee_socket_process (K := K) fuel realloc calloc (p0 :: rest)).
Proof.
  apply steps_socket_with; auto using others_sys, others_store, others_get, others_fd, others_put, others_close_all. apply _.
Qed.

Lemma stale_fd id h l s : sock_instance_find id (sp_socks s) = Some (mkSock id (mkDb l None)) -> 0 <= h < 2 ^ 31 ->
  handles l !! Z.to_nat h = None -> sock_handle_to_fd (K := K) id (i32 h) s = Undef.
Proof.
  intros Ef Hh Hn. unfold sock_handle_to_fd. rewrite Ef. cbn [si_db]. rewrite !(i32_small h) by lia.
  rewrite (lookup_handle _ h l None) by done. cbn [mbind outcome_bind]. by rewrite Hn.
Qed.
Lemma st_undef {A B} (m : st (supp K) A) (f : A -> st (supp K) B) s : m s = Undef -> (m ≫= f) s = Undef.
Proof. intros E. unfold mbind, st_bind. by rewrite E. Qed.
End SocketInstances.

(** C39: Sockets belong to one instance.  A socket command for one instance of a trusted
    application that returns leaves the handles of every other instance as they are: it can
    neither open, close nor renumber a socket of another.  A command that does not return,
    such as one with a stale handle, which ends the supplicant ([socket_stale_handle]), is
    not covered. *)
Theorem sockets_isolated `{Sockets K} fuel realloc calloc p0 rest (s s' : supp K) r id :
  tee_socket_process fuel realloc calloc (p0 :: rest) s = Ret (r, s') -> id <> u32 (ip_b p0) ->
  sock_instance_find id (sp_socks s') = sock_instance_find id (sp_socks s).
Proof. intros E Hne. by eapply others_socket. Qed.

(** A stale handle stops the supplicant.  Once an instance has had a socket, a command
    with a handle that is not in use, such as one that was closed, is not answered with
    the bad-parameters error the code has for it: the lookup returns NULL, and the
    conversion of it to a descriptor fails its assertion. *)
Theorem socket_stale_handle `{Sockets K} fuel realloc calloc (s : supp K) id h l p1 p2 :
  sock_instance_find (u32 id) (sp_socks s) = Some (mkSock (u32 id) (mkDb l None)) -> 0 <= h < 2 ^ 31 -> handles l !! Z.to_nat h = None ->
  let p0 cmd := mkIop ATTR_VALUE_INPUT cmd id h in
  tee_socket_process fuel realloc calloc [p0 OPTEE_MRC_SOCKET_CLOSE] s = Undef /\
  (has_type ATTR_MEMREF_INPUT p1 = true -> has_type ATTR_VALUE_INOUT p2 = true ->
   tee_socket_process fuel realloc calloc [p0 OPTEE_MRC_SOCKET_SEND; p1; p2] s = Undef).
Proof.
  intros Ef Hh Hn p0. pose proof (stale_fd _ h l s Ef Hh Hn) as Hu. split; [| intros H1 H2].
  - unfold tee_socket_process. change (negb (tee_supp_param_is_value (p0 OPTEE_MRC_SOCKET_CLOSE))) with false. cbv iota.
    change (tee_socket_close [p0 OPTEE_MRC_SOCKET_CLOSE] s = Undef). unfold tee_socket_close. change (negb (chk_pt _ _)) with false. cbv iota.
    apply st_undef. cbn [p0 ip_b ip_c]. exact Hu.
  - unfold tee_socket_process. change (negb (tee_supp_param_is_value (p0 OPTEE_MRC_SOCKET_SEND))) with false. cbv iota.
    change (tee_socket_send fuel [p0 OPTEE_MRC_SOCKET_SEND; p1; p2] s = Undef). unfold tee_socket_send. unfold chk_pt. rewrite H1, H2.
    change (has_type ATTR_VALUE_INPUT (p0 OPTEE_MRC_SOCKET_SEND)) with true. cbn [negb orb]. apply st_undef. cbn [p0 ip_b ip_c]. exact Hu.
Qed.

(** ** Witnesses *)

(** A system that delivers the requests of a queue, has memory for all of them, and a
    network on which every connection succeeds. *)
Record wire := mkWire { wi_queue : list (Z * list tee_ioctl_param); wi_next : Z }.

#[export] Instance wire_posix : Posix wire := {
  p_open path flags mode := mret (-1, ENOENT); p_close fd := mret (0, 0); p_pread fd len offs := mret (0, 0, []);
  p_pwrite fd bs offs := mret (Z.of_nat (length bs), 0); p_write fd bs := mret (Z.of_nat (length bs), 0); p_ftruncate fd len := mret (0, 0);
  p_mkdir path mode := mret (0, 0); p_rmdir path := mret (0, 0); p_unlink path := mret (-1, ENOENT); p_rename old new := mret (-1, ENOENT);
  p_stat path := mret (0, true); p_opendir path := mret 0; p_readdir dir := mret None; p_rewinddir dir := mret tt; p_closedir dir := mret tt;
  p_fopen path := mret 0; p_fseek_end f := mret (-1); p_fseek_set f := mret (-1); p_ftell f := mret 0; p_fread f n := mret []; p_fclose f := mret tt;
  p_alloc n := mret true; p_mmap fd n := mret true; p_munmap blk n := mret 0;
  p_shm_alloc fd n := fun k => Ret ((7, wi_next k, n), mkWire (wi_queue k) (wi_next k + 1));
  p_shm_register fd blk n := fun k => Ret ((7, wi_next k), mkWire (wi_queue k) (wi_next k + 1)) }.

#[export] Instance wire_sockets : Sockets wire := {
  n_getaddrinfo server port family socktype := mret (Some [1]); n_socket ai := mret (5, 0); n_connect fd ai := mret (0, 0); n_connect_sa fd sa := mret (0, 0);
  n_getfd fd := mret 0; n_setfl fd flags := mret 0; n_poll fd events to := mret (1, 0); n_clock := mret (Some (0, 0)); n_write fd bs := mret (Z.of_nat (length bs), 0);
  n_read fd n := mret (0, 0, []); n_setsockopt fd opt bs := mret 0; n_getsocktype fd := mret (0, SOCK_STREAM); n_getpeername fd := mret (-1, mkSa 0 0 0 0);
  n_close fd := mret (0, 0) }.

#[export] Instance param_ok_dec p : Decision (param_ok p).
Proof. unfold param_ok, u64_ok. apply _. Defined.

#[export] Instance wire_tee : TeeDevice wire := {
  d_open path := mret 3; d_close fd := mret tt; d_version fd := mret (Some (TEE_IMPL_ID_OPTEE, 0));
  d_recv fd := fun k => match wi_queue k with
                        | (func, l) :: q => if decide (Forall param_ok l) then Ret (Some (func, l), mkWire q (wi_next k)) else Ret (None, k)
                        | [] => Ret (None, k)
                        end;
  d_send fd ret l := mret true; d_create_thread := mret true }.

#[export] Instance no_mmc : MmcDevice unit := {
  read_cid dev_id := mret (TEEC_ERROR_ITEM_NOT_FOUND, []); mmc_rpmb_fd dev_id := mret (-1); mmc_fd dev_id := mret (-1); close_mmc_fd fd := mret tt;
  IOCTL fd cmd d := mret (-1, d) }.

Definition ex_wire : wire :=
  mkWire [(OPTEE_MSG_RPC_CMD_SHM_ALLOC, [mkIop ATTR_META 0 0 0; mkIop ATTR_VALUE_INOUT 0 16 0]);
          (OPTEE_MSG_RPC_CMD_SHM_ALLOC, [mkIop ATTR_META 0 0 0; mkIop ATTR_VALUE_INOUT 0 32 0]);
          (OPTEE_MSG_RPC_CMD_SHM_FREE, [mkIop ATTR_META 0 0 0; mkIop ATTR_VALUE_INPUT 0 1 0])] 1.
Definition ex_server : server wire unit := mkServer (mkSupp [] ∅ HANDLE_DB_INITIALIZER_WITH_MUTEX [] [] ex_wire) (false, tt) 0 0.
Definition ex_serve : outcome (bool * server wire unit) :=
  serve 10 (fun _ => true) true zeros (zeros 512) [] None [] 3 3 TEE_GEN_CAP_REG_MEM ex_server.
Definition ex_server' : server wire unit := match ex_serve with Ret (_, s) => s | Undef => ex_server end.

Example ex_served : fst <$> ex_serve = Ret true /\ ts_id <$> sp_shm (sv_supp ex_server') = [2].
Proof. vm_compute. done. Qed.

Lemma serve_memrefs_safe_witness :
  shm_inv (sv_supp ex_server') /\
  forall p a, param_ok p -> tee_supp_param_to_va (sp_shm (sv_supp ex_server')) p = Some a ->
    exists b, sp_mem (sv_supp ex_server') !! a.1 = Some b /\ 0 <= a.2 /\ a.2 + ip_b p <= Z.of_nat (length b).
Proof.
  apply (serve_memrefs_safe 10 (fun _ => true) true zeros (zeros 512) [] None [] 3 3 TEE_GEN_CAP_REG_MEM ex_server ex_server' true).
  - intros n Hn. unfold zeros. rewrite length_replicate. lia.
  - intros fd size k shm_fd id data_size k' [= <- <- <- <-] _. lia.
  - intros fd k func l k' E. cbn [d_recv wire_tee] in E. destruct (wi_queue k) as [|[f q] ?]; [discriminate E |].
    destruct (decide (Forall param_ok q)) as [Hq|]; [| discriminate E]. injection E as <- <- <-. exact Hq.
  - reflexivity.
  - vm_compute. reflexivity.
Defined.

(** Instance 1 with a closed socket, instance 2 with an open one. *)
Definition ex_socks : supp wire := mkSupp [] ∅ HANDLE_DB_INITIALIZER [] [mkSock 1 (mkDb [0; 0; 0; 0] None); mkSock 2 (mkDb [6; 0; 0; 0] None)] ex_wire.
Definition ex_close_all : tee_ioctl_param := mkIop ATTR_VALUE_INPUT OPTEE_MRC_SOCKET_CLOSE_ALL 2 0.
Definition ex_socks' : supp wire := match tee_socket_process 10 (fun _ => true) true [ex_close_all] ex_socks with Ret (_, s) => s | Undef => ex_socks end.

Lemma sockets_isolated_witness : sock_instance_find 1 (sp_socks ex_socks') = sock_instance_find 1 (sp_socks ex_socks).
Proof.
  apply (sockets_isolated 10 (fun _ => true) true ex_close_all [] ex_socks ex_socks' (TEEC_SUCCESS, [ex_close_all]) 1); [vm_compute; reflexivity | vm_compute; discriminate].
Defined.

Definition ex_mem_in : tee_ioctl_param := mkIop ATTR_MEMREF_INPUT 0 0 0.
Definition ex_value_io : tee_ioctl_param := mkIop ATTR_VALUE_INOUT 0 0 0.
Lemma socket_stale_handle_witness :
  tee_socket_process 10 (fun _ => true) true [mkIop ATTR_VALUE_INPUT OPTEE_MRC_SOCKET_CLOSE 1 0] ex_socks = Undef /\
  (has_type ATTR_MEMREF_INPUT ex_mem_in = true -> has_type ATTR_VALUE_INOUT ex_value_io = true ->
   tee_socket_process 10 (fun _ => true) true [mkIop ATTR_VALUE_INPUT OPTEE_MRC_SOCKET_SEND 1 0; ex_mem_in; ex_value_io] ex_socks = Undef).
Proof.
  apply (socket_stale_handle 10 (fun _ => true) true ex_socks 1 0 [0; 0; 0; 0] ex_mem_in ex_value_io); [vm_compute; reflexivity | lia | vm_compute; reflexivity].
Defined.
