(* ===== verification/P11Types.v ===== *)
(** * Constants and data of the PKCS#11 library

    The codes, flags, attribute types, mechanisms and object classes of
    pkcs11t.h that the sources under libpkcs11/src use, the attribute,
    mechanism and session records of the library (pkcs11t.h, objects.h,
    sessions.h, general.h), and the allocator the library calls. *)

From stdpp Require Import base numbers list gmap.
From S2P Require Import Prelude SkTypes.


(** ** Return values *)

Definition CKR_OK : Z := 0x00000000.
Definition CKR_HOST_MEMORY : Z := 0x00000002.
Definition CKR_SLOT_ID_INVALID : Z := 0x00000003.
Definition CKR_GENERAL_ERROR : Z := 0x00000005.
Definition CKR_ARGUMENTS_BAD : Z := 0x00000007.
Definition CKR_ATTRIBUTE_SENSITIVE : Z := 0x00000011.
Definition CKR_ATTRIBUTE_TYPE_INVALID : Z := 0x00000012.
Definition CKR_ATTRIBUTE_VALUE_INVALID : Z := 0x00000013.
Definition CKR_DATA_LEN_RANGE : Z := 0x00000021.
Definition CKR_FUNCTION_NOT_PARALLEL : Z := 0x00000051.
Definition CKR_FUNCTION_NOT_SUPPORTED : Z := 0x00000054.
Definition CKR_KEY_TYPE_INCONSISTENT : Z := 0x00000063.
Definition CKR_KEY_FUNCTION_NOT_PERMITTED : Z := 0x00000068.
Definition CKR_MECHANISM_INVALID : Z := 0x00000070.
Definition CKR_MECHANISM_PARAM_INVALID : Z := 0x00000071.
Definition CKR_OBJECT_HANDLE_INVALID : Z := 0x00000082.
Definition CKR_OPERATION_ACTIVE : Z := 0x00000090.
Definition CKR_OPERATION_NOT_INITIALIZED : Z := 0x00000091.
Definition CKR_SESSION_HANDLE_INVALID : Z := 0x000000b3.
Definition CKR_SESSION_PARALLEL_NOT_SUPPORTED : Z := 0x000000b4.
Definition CKR_RANDOM_NO_RNG : Z := 0x00000121.
Definition CKR_BUFFER_TOO_SMALL : Z := 0x00000150.
Definition CKR_CRYPTOKI_NOT_INITIALIZED : Z := 0x00000190.
Definition CKR_CRYPTOKI_ALREADY_INITIALIZED : Z := 0x00000191.

(** ** Attribute types *)

Definition CKA_CLASS : Z := 0x00000000.
Definition CKA_TOKEN : Z := 0x00000001.
Definition CKA_PRIVATE : Z := 0x00000002.
Definition CKA_LABEL : Z := 0x00000003.
Definition CKA_APPLICATION : Z := 0x00000010.
Definition CKA_VALUE : Z := 0x00000011.
Definition CKA_OBJECT_ID : Z := 0x00000012.
Definition CKA_CERTIFICATE_TYPE : Z := 0x00000080.
Definition CKA_ISSUER : Z := 0x00000081.
Definition CKA_SERIAL_NUMBER : Z := 0x00000082.
Definition CKA_AC_ISSUER : Z := 0x00000083.
Definition CKA_OWNER : Z := 0x00000084.
Definition CKA_ATTR_TYPES : Z := 0x00000085.
Definition CKA_TRUSTED : Z := 0x00000086.
Definition CKA_KEY_TYPE : Z := 0x00000100.
Definition CKA_SUBJECT : Z := 0x00000101.
Definition CKA_ID : Z := 0x00000102.
Definition CKA_SENSITIVE : Z := 0x00000103.
Definition CKA_ENCRYPT : Z := 0x00000104.
Definition CKA_DECRYPT : Z := 0x00000105.
Definition CKA_WRAP : Z := 0x00000106.
Definition CKA_UNWRAP : Z := 0x00000107.
Definition CKA_SIGN : Z := 0x00000108.
Definition CKA_SIGN_RECOVER : Z := 0x00000109.
Definition CKA_VERIFY : Z := 0x0000010a.
Definition CKA_VERIFY_RECOVER : Z := 0x0000010b.
Definition CKA_DERIVE : Z := 0x0000010c.
Definition CKA_START_DATE : Z := 0x00000110.
Definition CKA_END_DATE : Z := 0x00000111.
Definition CKA_MODULUS : Z := 0x00000120.
Definition CKA_MODULUS_BITS : Z := 0x00000121.
Definition CKA_PUBLIC_EXPONENT : Z := 0x00000122.
Definition CKA_PRIVATE_EXPONENT : Z := 0x00000123.
Definition CKA_PRIME_1 : Z := 0x00000124.
Definition CKA_PRIME_2 : Z := 0x00000125.
Definition CKA_EXPONENT_1 : Z := 0x00000126.
Definition CKA_EXPONENT_2 : Z := 0x00000127.
Definition CKA_COEFFICIENT : Z := 0x00000128.
Definition CKA_PRIME : Z := 0x00000130.
Definition CKA_SUBPRIME : Z := 0x00000131.
Definition CKA_BASE : Z := 0x00000132.
Definition CKA_PRIME_BITS : Z := 0x00000133.
Definition CKA_SUBPRIME_BITS : Z := 0x00000134.
Definition CKA_VALUE_BITS : Z := 0x00000160.
Definition CKA_VALUE_LEN : Z := 0x00000161.
Definition CKA_EXTRACTABLE : Z := 0x00000162.
Definition CKA_LOCAL : Z := 0x00000163.
Definition CKA_NEVER_EXTRACTABLE : Z := 0x00000164.
Definition CKA_ALWAYS_SENSITIVE : Z := 0x00000165.
Definition CKA_KEY_GEN_MECHANISM : Z := 0x00000166.
Definition CKA_MODIFIABLE : Z := 0x00000170.
Definition CKA_ECDSA_PARAMS : Z := 0x00000180.
Definition CKA_EC_POINT : Z := 0x00000181.
Definition CKA_ALWAYS_AUTHENTICATE : Z := 0x00000202.
Definition CKA_WRAP_WITH_TRUSTED : Z := 0x00000210.
Definition CKA_HW_FEATURE_TYPE : Z := 0x00000300.
Definition CKA_RESET_ON_INIT : Z := 0x00000301.
Definition CKA_HAS_RESET : Z := 0x00000302.
Definition CKA_VENDOR_DEFINED : Z := 0x80000000.
Definition CKA_ALLOWED_MECHANISMS : Z := Z.lor 0x40000000 0x00000600.
Definition CKA_UNWRAP_TEMPLATE : Z := Z.lor 0x40000000 0x00000212.
Definition CKA_WRAP_TEMPLATE : Z := Z.lor 0x40000000 0x00000211.

(** ** Mechanisms *)

Definition CKM_RSA_PKCS : Z := 0x00000001.
Definition CKM_MD5_RSA_PKCS : Z := 0x00000005.
Definition CKM_SHA1_RSA_PKCS : Z := 0x00000006.
Definition CKM_SHA256_RSA_PKCS : Z := 0x00000040.
Definition CKM_SHA384_RSA_PKCS : Z := 0x00000041.
Definition CKM_SHA512_RSA_PKCS : Z := 0x00000042.
Definition CKM_SHA224_RSA_PKCS : Z := 0x00000046.

(** ** Flags *)

Definition CKF_TOKEN_PRESENT : Z := 0x00000001.
Definition CKF_OS_LOCKING_OK : Z := 0x00000002.
Definition CKF_RW_SESSION : Z := 0x00000002.
Definition CKF_WRITE_PROTECTED : Z := 0x00000002.
Definition CKF_SERIAL_SESSION : Z := 0x00000004.
Definition CKF_TOKEN_INITIALIZED : Z := 0x00000400.
Definition CKF_SIGN : Z := 0x00000800.

(** ** Object classes, key types and session states *)

Definition CKK_RSA : Z := 0x00000000.
Definition CKS_RO_PUBLIC_SESSION : Z := 0.
Definition CKO_PUBLIC_KEY : Z := 0x00000002.
Definition CKO_PRIVATE_KEY : Z := 0x00000003.
Definition CKO_SECRET_KEY : Z := 0x00000004.

Definition CK_UNAVAILABLE_INFORMATION : Z := 2 ^ 64 - 1.
(** [(CK_ULONG)-1], the length PKCS#11 reports for an unavailable value. *)
Definition CK_ULONG_MINUS_1 : Z := 2 ^ 64 - 1.
Definition TEE_SLOT_ID : Z := 0.
Definition SLOT_COUNT : Z := 1.
Definition MAX_FIND_LIST_OBJECTS : Z := 100.
Definition MAX_MECHANISM_COUNT : Z := 6.
Definition MAX_RSA_KEYLEN : Z := 512.
Definition MAX_HASH_LEN : Z := 64.
Definition RSA_PKCS_BT_1 : Z := 1.

(** ** Records *)

(** [CK_ATTRIBUTE]; [pValue] is the memory at the pointer, [None] for null. *)
Record CK_ATTRIBUTE := mkCK { ck_type : Z; pValue : option (list Z); ulValueLen : Z }.
#[export] Instance CK_ATTRIBUTE_eq_dec : EqDecision CK_ATTRIBUTE.
Proof. solve_decision. Defined.

(** [CK_MECHANISM]: mechanism, parameter and its length. *)
Record CK_MECHANISM := mkCKM { ckm_mechanism : Z; ckm_param : option (list Z); ckm_paramLen : Z }.
#[export] Instance CK_MECHANISM_eq_dec : EqDecision CK_MECHANISM.
Proof. solve_decision. Defined.

(** [OBJECT] (objects.h): the SK handle it stands for, class, subclass, the
    attribute templates (head of the STAILQ first) and the slot. *)
Record OBJECT := mkObj {
  sk_obj_handle : Z;
  obj_class : Z;
  obj_subclass : Z;
  template_list : list CK_ATTRIBUTE;
  o_slotID : Z
}.

(** [CK_SESSION_INFO]. *)
Record CK_SESSION_INFO := mkSI { si_slotID : Z; si_state : Z; si_flags : Z; si_ulDeviceError : Z }.

(** [sign_verify_context] (sessions.h); [sc_context] is always null here. *)
Record sign_verify_context := mkSVC {
  sc_key : Z;
  sc_mech : CK_MECHANISM;
  sc_multi : bool;
  sc_recover : bool;
  sc_active : bool
}.

(** [session] (sessions.h); [find_list] is the address of a heap block. *)
Record session := mkSess {
  session_info : CK_SESSION_INFO;
  find_list : option Z;
  find_count : Z;
  find_idx : Z;
  op_active : bool;
  sign_ctx : sign_verify_context
}.

(** ** Memory allocation *)

(** [malloc] as the library sees it: a call may fail, and the address of a
    successful one is not null and not among the blocks still in use. *)
Class Allocator := {
  malloc_at : nat -> gset Z -> option Z;
  malloc_fresh : forall n live a, malloc_at n live = Some a -> a ∉ live;
  malloc_not_null : forall n live a, malloc_at n live = Some a -> a <> 0
}.

(** The allocations made so far and the addresses of the blocks in use that
    the library hands out or keeps by address. *)
Record heap := mkHeap { h_calls : nat; h_live : gset Z }.

Definition malloc `{Allocator} (h : heap) : option Z * heap :=
  match malloc_at (h_calls h) (h_live h) with
  | None => (None, mkHeap (S (h_calls h)) (h_live h))
  | Some a => (Some a, mkHeap (S (h_calls h)) ({[a]} ∪ h_live h))
  end.

Definition free (a : Z) (h : heap) : heap := mkHeap (h_calls h) (h_live h ∖ {[a]}).

(** [n] allocations whose addresses stay private: did all succeed? *)
Fixpoint mallocs `{Allocator} (n : nat) (h : heap) : bool * heap :=
  match n with
  | O => (true, h)
  | S n' =>
      let h1 := mkHeap (S (h_calls h)) (h_live h) in
      let '(ok, h2) := mallocs n' h1 in
      (bool_decide (is_Some (malloc_at (h_calls h) (h_live h))) && ok, h2)
  end.

(** A concrete allocator: every call but those [fails] picks succeeds, with the
    address after the highest one in use. *)
#[refine] Definition bump_allocator (fails : nat -> bool) : Allocator := {|
  malloc_at n live := if fails n then None else Some (above live)
|}.
Proof.
  - intros n live a. destruct (fails n); [done |]. intros [= <-] Ha.
    apply above_spec in Ha. lia.
  - intros n live a. destruct (fails n); [done |]. intros [= <-].
    destruct (above_spec live). lia.
Defined.

(** ** Scalars in attribute values *)

Definition ck_ulong (v : Z) : list Z := le_bytes 8 v.
Definition CK_TRUE_b : list Z := [1].
Definition CK_FALSE_b : list Z := [0].
