(* ===== verification/P11Template.v ===== *)
(** * Attribute templates of PKCS#11 objects (objects.c)

    An object's template is the list of its attributes, head of the STAILQ
    first.  This file models the template operations of objects.c: insertion
    with replacement, the default attributes of every class, lookup,
    comparison with a search template, class lookup, the exportability test,
    and the translation of SK attributes to PKCS#11 ones.  Allocation failures
    take the code's error paths; a null or short value that the C code would
    read is [Undef].  The theorems: a template never holds two attributes of
    one type, defaults do what their comments say on every allocation outcome,
    comparison is exactly sub-template equality, and private key material of a
    default private key is never exportable. *)

From stdpp Require Import base numbers list gmap.
From S2P Require Import Prelude SkTypes P11Types AttrCodec.

(** ** Operations *)

Definition p11_is_attribute_defined (attr_type : Z) : bool :=
  if CKA_VENDOR_DEFINED <=? attr_type then true
  else bool_decide (attr_type ∈
    [CKA_CLASS; CKA_TOKEN; CKA_PRIVATE; CKA_LABEL; CKA_APPLICATION; CKA_VALUE;
     CKA_CERTIFICATE_TYPE; CKA_ISSUER; CKA_SERIAL_NUMBER; CKA_KEY_TYPE; CKA_ID;
     CKA_SUBJECT; CKA_SENSITIVE; CKA_DECRYPT; CKA_ENCRYPT; CKA_WRAP; CKA_SIGN;
     CKA_UNWRAP; CKA_SIGN_RECOVER; CKA_VERIFY; CKA_DERIVE; CKA_VERIFY_RECOVER;
     CKA_START_DATE; CKA_END_DATE; CKA_PRIME; CKA_BASE; CKA_SUBPRIME;
     CKA_VALUE_BITS; CKA_EXTRACTABLE; CKA_LOCAL; CKA_VALUE_LEN;
     CKA_NEVER_EXTRACTABLE; CKA_MODIFIABLE; CKA_ECDSA_PARAMS;
     CKA_ALWAYS_SENSITIVE; CKA_EC_POINT; CKA_HW_FEATURE_TYPE; CKA_RESET_ON_INIT;
     CKA_KEY_GEN_MECHANISM; CKA_HAS_RESET; CKA_PRIME_BITS; CKA_OBJECT_ID;
     CKA_SUBPRIME_BITS; CKA_AC_ISSUER; CKA_ATTR_TYPES; CKA_OWNER; CKA_TRUSTED;
     CKA_MODULUS_BITS; CKA_MODULUS; CKA_PUBLIC_EXPONENT; CKA_PRIVATE_EXPONENT;
     CKA_PRIME_2; CKA_EXPONENT_1; CKA_PRIME_1; CKA_COEFFICIENT; CKA_EXPONENT_2]).

(** The [STAILQ_FOREACH] that removes the first node of the type and stops. *)
Fixpoint remove_type (ty : Z) (l : list CK_ATTRIBUTE) : list CK_ATTRIBUTE :=
  match l with
  | [] => []
  | x :: rest => if ty =? ck_type x then rest else x :: remove_type ty rest
  end.

(** Called with non-null arguments only; then it returns CKR_OK. *)
Definition p11_template_update_attr (tmpl : list CK_ATTRIBUTE) (new : CK_ATTRIBUTE)
  : list CK_ATTRIBUTE :=
  new :: remove_type (ck_type new) tmpl.

(** Successive calls, in the order of the source. *)
Definition update_all (tmpl new : list CK_ATTRIBUTE) : list CK_ATTRIBUTE :=
  foldl p11_template_update_attr tmpl new.

(** The three shapes of default attribute: a CK_BBOOL or CK_ULONG behind the
    attribute structure, or no value. *)
Definition bbool_attr (ty : Z) (v : bool) : CK_ATTRIBUTE :=
  mkCK ty (Some (if v then CK_TRUE_b else CK_FALSE_b)) 1.
Definition ulong_attr (ty v : Z) : CK_ATTRIBUTE := mkCK ty (Some (ck_ulong v)) 8.
Definition empty_attr (ty : Z) : CK_ATTRIBUTE := mkCK ty None 0.

(** A group of default attributes: [n] allocations, all released again when one
    of them fails; otherwise every attribute is put in the template. *)
Definition add_defaults `{Allocator} (n : nat) (new : list CK_ATTRIBUTE)
    (tmpl : list CK_ATTRIBUTE) (h : heap) : Z * list CK_ATTRIBUTE * heap :=
  let '(ok, h1) := mallocs n h in
  if ok then (CKR_OK, update_all tmpl new, h1) else (CKR_HOST_MEMORY, tmpl, h1).

Definition key_object_set_default_attr `{Allocator} (tmpl : list CK_ATTRIBUTE) (h : heap)
  : Z * list CK_ATTRIBUTE * heap :=
  add_defaults 8
    [empty_attr CKA_START_DATE; bbool_attr CKA_DERIVE false;
     empty_attr CKA_END_DATE; bbool_attr CKA_LOCAL false] tmpl h.

Definition pubk_add_default_attr `{Allocator} (tmpl : list CK_ATTRIBUTE) (h : heap)
  : Z * list CK_ATTRIBUTE * heap :=
  let '(rc, tmpl, h) := key_object_set_default_attr tmpl h in
  if negb (rc =? CKR_OK) then (rc, tmpl, h)
  else add_defaults 16
    [ulong_attr CKA_CLASS CKO_PUBLIC_KEY; empty_attr CKA_SUBJECT;
     bbool_attr CKA_ENCRYPT true; bbool_attr CKA_VERIFY false;
     bbool_attr CKA_VERIFY_RECOVER false; bbool_attr CKA_WRAP false;
     bbool_attr CKA_TRUSTED false; empty_attr CKA_WRAP_TEMPLATE] tmpl h.

Definition rsa_pubk_add_default_attr `{Allocator} (tmpl : list CK_ATTRIBUTE) (h : heap)
  : Z * list CK_ATTRIBUTE * heap :=
  let '(rc, tmpl, h) := pubk_add_default_attr tmpl h in
  if negb (rc =? CKR_OK) then (rc, tmpl, h)
  else add_defaults 6
    [ulong_attr CKA_KEY_TYPE CKK_RSA; empty_attr CKA_KEY_GEN_MECHANISM;
     empty_attr CKA_ALLOWED_MECHANISMS] tmpl h.

Definition privk_add_default_attr `{Allocator} (tmpl : list CK_ATTRIBUTE) (h : heap)
  : Z * list CK_ATTRIBUTE * heap :=
  let '(rc, tmpl, h) := key_object_set_default_attr tmpl h in
  if negb (rc =? CKR_OK) then (rc, tmpl, h)
  else add_defaults 26
    [ulong_attr CKA_CLASS CKO_PRIVATE_KEY; empty_attr CKA_SUBJECT;
     bbool_attr CKA_SENSITIVE true; bbool_attr CKA_DECRYPT false;
     bbool_attr CKA_SIGN true; bbool_attr CKA_SIGN_RECOVER false;
     bbool_attr CKA_UNWRAP false; bbool_attr CKA_EXTRACTABLE false;
     bbool_attr CKA_NEVER_EXTRACTABLE true; bbool_attr CKA_ALWAYS_SENSITIVE true;
     bbool_attr CKA_WRAP_WITH_TRUSTED false; empty_attr CKA_UNWRAP_TEMPLATE;
     bbool_attr CKA_ALWAYS_AUTHENTICATE false] tmpl h.

(** The mechanisms a default RSA private key allows. *)
Definition rsa_priv_mechs : list Z :=
  [CKM_RSA_PKCS; CKM_MD5_RSA_PKCS; CKM_SHA1_RSA_PKCS; CKM_SHA224_RSA_PKCS;
   CKM_SHA256_RSA_PKCS; CKM_SHA384_RSA_PKCS; CKM_SHA512_RSA_PKCS].

Definition rsa_privk_add_default_attr `{Allocator} (tmpl : list CK_ATTRIBUTE) (h : heap)
  : Z * list CK_ATTRIBUTE * heap :=
  let '(rc, tmpl, h) := privk_add_default_attr tmpl h in
  if negb (rc =? CKR_OK) then (rc, tmpl, h)
  else add_defaults 6
    [ulong_attr CKA_KEY_TYPE CKK_RSA; empty_attr CKA_KEY_GEN_MECHANISM;
     mkCK CKA_ALLOWED_MECHANISMS (Some (mjoin (ck_ulong <$> rsa_priv_mechs))) (7 * 8)] tmpl h.

Definition p11_template_add_default_common_attr `{Allocator} (tmpl : list CK_ATTRIBUTE) (h : heap)
  : Z * list CK_ATTRIBUTE * heap :=
  add_defaults 6
    [bbool_attr CKA_TOKEN true; bbool_attr CKA_MODIFIABLE false;
     bbool_attr CKA_PRIVATE false] tmpl h.

Definition set_template (obj : OBJECT) (t : list CK_ATTRIBUTE) : OBJECT :=
  mkObj (sk_obj_handle obj) (obj_class obj) (obj_subclass obj) t (o_slotID obj).

Definition p11_template_add_default_attr `{Allocator} (obj : OBJECT) (h : heap)
  : Z * OBJECT * heap :=
  let '(rc, t, h) := p11_template_add_default_common_attr (template_list obj) h in
  if negb (rc =? CKR_OK) then (rc, set_template obj t, h)
  else if obj_class obj =? CKO_PUBLIC_KEY then
    if obj_subclass obj =? CKK_RSA then
      let '(rc, t, h) := rsa_pubk_add_default_attr t h in (rc, set_template obj t, h)
    else (CKR_ATTRIBUTE_VALUE_INVALID, set_template obj t, h)
  else if obj_class obj =? CKO_PRIVATE_KEY then
    if obj_subclass obj =? CKK_RSA then
      let '(rc, t, h) := rsa_privk_add_default_attr t h in (rc, set_template obj t, h)
    else (CKR_ATTRIBUTE_VALUE_INVALID, set_template obj t, h)
  else (CKR_ATTRIBUTE_VALUE_INVALID, set_template obj t, h).

(** The loop over [pTemplate]; each attribute is copied to a fresh block. *)
Fixpoint p11_template_add_attr `{Allocator} (obj : OBJECT) (pTemplate : list CK_ATTRIBUTE)
    (h : heap) : outcome (Z * OBJECT * heap) :=
  match pTemplate with
  | [] => Ret (CKR_OK, obj, h)
  | x :: rest =>
      if negb (p11_is_attribute_defined (ck_type x)) then p11_template_add_attr obj rest h
      else
        let '(ok_attr, h) := mallocs 1 h in
        if negb ok_attr then Ret (CKR_HOST_MEMORY, obj, h)
        else
          v ← mem_read (pValue x) (ulValueLen x);
          let attr := mkCK (ck_type x)
                        (if ulValueLen x =? 0 then None else Some v) (ulValueLen x) in
          let '(ok_node, h) := mallocs 1 h in
          if negb ok_node then Ret (CKR_HOST_MEMORY, obj, h)
          else p11_template_add_attr
                 (set_template obj (p11_template_update_attr (template_list obj) attr)) rest h
  end.

Fixpoint p11_template_check_attr (tmpl : list CK_ATTRIBUTE) (type : Z) : option CK_ATTRIBUTE :=
  match tmpl with
  | [] => None
  | a :: rest => if type =? ck_type a then Some a else p11_template_check_attr rest type
  end.

(** The [for] loop of [p11_template_compare] over the search template. *)
Fixpoint template_compare_loop (t1 : list CK_ATTRIBUTE) (tmpl : list CK_ATTRIBUTE) : outcome bool :=
  match t1 with
  | [] => Ret true
  | attr1 :: rest =>
      match p11_template_check_attr tmpl (ck_type attr1) with
      | None => Ret false
      | Some attr2 =>
          if negb (ulValueLen attr1 =? ulValueLen attr2) then Ret false
          else
            v1 ← mem_read (pValue attr1) (ulValueLen attr1);
            v2 ← mem_read (pValue attr2) (ulValueLen attr1);
            if decide (v1 = v2) then template_compare_loop rest tmpl else Ret false
      end
  end.

Definition p11_template_compare (t1 : option (list CK_ATTRIBUTE)) (tmpl : list CK_ATTRIBUTE)
  : outcome bool :=
  match t1 with None => Ret false | Some l => template_compare_loop l tmpl end.

(** A CK_ULONG read through a value pointer. *)
Definition read_ulong (p : option (list Z)) : outcome Z := le_val <$> mem_read p 8.

(** [class] and [subclass] are the caller's variables: [None] while they have
    not been assigned. *)
Fixpoint p11_template_get_class (tmpl : list CK_ATTRIBUTE) (class subclass : option Z) (found : bool)
  : outcome (bool * option Z * option Z) :=
  match tmpl with
  | [] => Ret (found, class, subclass)
  | attr :: rest =>
      '(class, found) ← (if ck_type attr =? CKA_CLASS
                         then c ← read_ulong (pValue attr); Ret (Some c, true)
                         else Ret (class, found));
      subclass ← (if ck_type attr =? CKA_CERTIFICATE_TYPE
                  then c ← read_ulong (pValue attr); Ret (Some c) else Ret subclass);
      subclass ← (if ck_type attr =? CKA_KEY_TYPE
                  then c ← read_ulong (pValue attr); Ret (Some c) else Ret subclass);
      p11_template_get_class rest class subclass found
  end.

Definition check_rsa_privk_exportability (type : Z) : bool :=
  negb (bool_decide (type ∈ [CKA_PRIVATE_EXPONENT; CKA_PRIME_1; CKA_PRIME_2;
                             CKA_EXPONENT_1; CKA_EXPONENT_2; CKA_COEFFICIENT])).

Definition check_attr_exportability (tmpl : list CK_ATTRIBUTE) (type : Z) : outcome bool :=
  '(_, class, subclass) ← p11_template_get_class tmpl None None false;
  class ← deref class;
  if negb (class =? CKO_PRIVATE_KEY) && negb (class =? CKO_SECRET_KEY) then Ret true
  else
    match p11_template_check_attr tmpl CKA_SENSITIVE,
          p11_template_check_attr tmpl CKA_EXTRACTABLE with
    | Some sensitive, Some extractable =>
        s ← mem_read (pValue sensitive) 1;
        e ← mem_read (pValue extractable) 1;
        if (le_val s =? 0) && (le_val e =? 1) then Ret true
        else if class =? CKO_PRIVATE_KEY then
          subclass ← deref subclass;
          if subclass =? CKK_RSA then Ret (check_rsa_privk_exportability type) else Ret true
        else Ret true
    | _, _ => Ret false
    end.

(** [map_sk_to_pkcs_attr]: return value and, on success, the new attribute.
    A copy of [valueLen] bytes for label, index, modulus and exponent. *)
Definition map_copy `{Allocator} (ty : Z) (x : SK_ATTRIBUTE) (h : heap)
  : outcome (Z * option CK_ATTRIBUTE * heap) :=
  let '(ok, h) := mallocs 1 h in
  if negb ok then Ret (CKR_HOST_MEMORY, None, h)
  else v ← mem_read (sa_value x) (sa_valueLen x);
       Ret (CKR_OK, Some (mkCK ty (Some v) (sa_valueLen x)), h).

Definition map_ulong `{Allocator} (ty v : Z) (h : heap)
  : outcome (Z * option CK_ATTRIBUTE * heap) :=
  let '(ok, h) := mallocs 1 h in
  if negb ok then Ret (CKR_HOST_MEMORY, None, h)
  else Ret (CKR_OK, Some (ulong_attr ty v), h).

Definition map_sk_to_pkcs_attr `{Allocator} (sk : SK_ATTRIBUTE) (h : heap)
  : outcome (Z * option CK_ATTRIBUTE * heap) :=
  let ty := sa_type sk in
  if ty =? SK_ATTR_OBJECT_TYPE then
    t ← le_val <$> mem_read (sa_value sk) 4;
    if t =? SK_KEY_PAIR then map_ulong CKA_CLASS CKO_PRIVATE_KEY h
    else if t =? SK_PUBLIC_KEY then map_ulong CKA_CLASS CKO_PUBLIC_KEY h
    else Ret (CKR_ATTRIBUTE_TYPE_INVALID, None, h)
  else if ty =? SK_ATTR_KEY_TYPE then
    t ← le_val <$> mem_read (sa_value sk) 4;
    if t =? SKK_RSA then map_ulong CKA_KEY_TYPE CKK_RSA h
    else Ret (CKR_ATTRIBUTE_TYPE_INVALID, None, h)
  else if ty =? SK_ATTR_OBJECT_LABEL then map_copy CKA_LABEL sk h
  else if ty =? SK_ATTR_OBJECT_INDEX then map_copy CKA_ID sk h
  else if ty =? SK_ATTR_MODULUS_BITS then
    let '(ok, h) := mallocs 1 h in
    if negb ok then Ret (CKR_HOST_MEMORY, None, h)
    else v ← le_val <$> mem_read (sa_value sk) 4;
         Ret (CKR_OK, Some (ulong_attr CKA_MODULUS_BITS v), h)
  else if ty =? SK_ATTR_MODULUS then map_copy CKA_MODULUS sk h
  else if ty =? SK_ATTR_PUBLIC_EXPONENT then map_copy CKA_PUBLIC_EXPONENT sk h
  else Ret (CKR_ATTRIBUTE_TYPE_INVALID, None, h).

(** ** Lemmas *)

(** At most one attribute of a type. *)
Definition tmpl_nodup (t : list CK_ATTRIBUTE) : Prop := NoDup (ck_type <$> t).

(** A stored attribute: a null pointer exactly when the length is zero,
    otherwise at least [ulValueLen] bytes behind it. *)
Definition ck_wf (a : CK_ATTRIBUTE) : Prop :=
  0 <= ulValueLen a /\
  match pValue a with
  | None => ulValueLen a = 0
  | Some v => ulValueLen a <= Z.of_nat (length v)
  end.
#[export] Instance ck_wf_dec a : Decision (ck_wf a).
Proof. unfold ck_wf. destruct (pValue a); apply _. Defined.

Lemma check_remove_other ty ty' t : ty <> ty' ->
  p11_template_check_attr (remove_type ty' t) ty = p11_template_check_attr t ty.
Proof.
  intros Hne. induction t as [|a t IH]; [done |]. cbn [remove_type p11_template_check_attr].
  destruct (ty' =? ck_type a) eqn:E1.
  - boolz. rewrite (proj2 (Z.eqb_neq ty (ck_type a))) by congruence. done.
  - cbn [p11_template_check_attr]. by rewrite IH.
Qed.

(** Lookup after an update. *)
Lemma check_update t a ty :
  p11_template_check_attr (p11_template_update_attr t a) ty =
    if ty =? ck_type a then Some a else p11_template_check_attr t ty.
Proof.
  unfold p11_template_update_attr. cbn [p11_template_check_attr].
  destruct (ty =? ck_type a) eqn:E; [done |]. boolz. by apply check_remove_other.
Qed.

Lemma check_app t1 t2 ty :
  p11_template_check_attr (t1 ++ t2) ty =
    match p11_template_check_attr t1 ty with Some a => Some a | None => p11_template_check_attr t2 ty end.
Proof. induction t1 as [|a t1 IH]; [done |]. cbn. by destruct (ty =? ck_type a). Qed.

(** Lookup after a sequence of updates: the last one of the type wins. *)
Lemma check_update_all new : forall t ty,
  p11_template_check_attr (update_all t new) ty =
    match p11_template_check_attr (reverse new) ty with
    | Some a => Some a
    | None => p11_template_check_attr t ty
    end.
Proof.
  induction new as [|a new IH]; intros t ty; [done |].
  unfold update_all in *. cbn [foldl]. rewrite IH, check_update, reverse_cons, check_app.
  destruct (p11_template_check_attr (reverse new) ty); [done |].
  cbn. by destruct (ty =? ck_type a).
Qed.

Lemma check_None t ty : p11_template_check_attr t ty = None <-> ty ∉ (ck_type <$> t).
Proof.
  induction t as [|a t IH]; cbn [p11_template_check_attr fmap list_fmap]; [set_solver |].
  destruct (ty =? ck_type a) eqn:E; boolz; rewrite not_elem_of_cons; [split; [done | tauto] |].
  rewrite IH. tauto.
Qed.

Lemma check_Some_In t ty a :
  p11_template_check_attr t ty = Some a -> a ∈ t /\ ck_type a = ty.
Proof.
  induction t as [|x t IH]; cbn [p11_template_check_attr]; [done |].
  destruct (ty =? ck_type x) eqn:E; boolz.
  - intros [= ->]. split; [constructor | done].
  - intros H. destruct (IH H). split; [by constructor | done].
Qed.

Lemma remove_type_sub ty t x : x ∈ remove_type ty t -> x ∈ t.
Proof.
  induction t as [|a t IH]; cbn [remove_type]; [done |].
  destruct (ty =? ck_type a); rewrite ?elem_of_cons; intuition auto.
Qed.

Lemma remove_type_nodup ty t :
  tmpl_nodup t -> tmpl_nodup (remove_type ty t) /\ ty ∉ (ck_type <$> remove_type ty t).
Proof.
  unfold tmpl_nodup. induction t as [|a t IH]; cbn [remove_type fmap list_fmap].
  { intros _. split; [constructor | set_solver]. }
  rewrite NoDup_cons. intros [Ha Ht]. destruct (IH Ht) as [H1 H2].
  destruct (ty =? ck_type a) eqn:E; boolz; [by subst |].
  cbn [fmap list_fmap]. rewrite NoDup_cons, not_elem_of_cons. split_and!; try done.
  intros Hin. apply Ha. apply list_elem_of_fmap in Hin as (x & -> & Hx).
  apply list_elem_of_fmap. eauto using remove_type_sub.
Qed.

Lemma update_nodup t a : tmpl_nodup t -> tmpl_nodup (p11_template_update_attr t a).
Proof.
  intros H. destruct (remove_type_nodup (ck_type a) t H) as [H1 H2].
  unfold tmpl_nodup, p11_template_update_attr. cbn [fmap list_fmap]. by apply NoDup_cons.
Qed.

Lemma update_wf t a : Forall ck_wf t -> ck_wf a -> Forall ck_wf (p11_template_update_attr t a).
Proof.
  intros Ht Ha. constructor; [done |]. rewrite Forall_forall in *.
  intros x Hx. apply Ht. by eapply remove_type_sub.
Qed.

(** The invariant the template operations keep. *)
Definition tmpl_ok (t : list CK_ATTRIBUTE) : Prop := tmpl_nodup t /\ Forall ck_wf t.

Lemma update_ok t a : tmpl_ok t -> ck_wf a -> tmpl_ok (p11_template_update_attr t a).
Proof. intros [? ?] ?. split; [by apply update_nodup | by apply update_wf]. Qed.

Lemma update_all_ok new : forall t, tmpl_ok t -> Forall ck_wf new -> tmpl_ok (update_all t new).
Proof.
  induction new as [|a new IH]; intros t Ht Hn; [done |].
  inversion Hn; subst. unfold update_all in *. cbn [foldl]. apply IH; [by apply update_ok | done].
Qed.

Section Defaults.
Context `{Allocator}.

Lemma add_defaults_ok n new t h rc t' h' :
  add_defaults n new t h = (rc, t', h') -> Forall ck_wf new -> tmpl_ok t -> tmpl_ok t'.
Proof.
  unfold add_defaults. destruct (mallocs n h) as [[] h1]; intros [= <- <- <-] ? ?;
    [by apply update_all_ok | done].
Qed.

(** A group either puts all its attributes in, or fails with host memory and
    leaves the template as it was. *)
Lemma add_defaults_cases n new t h rc t' h' :
  add_defaults n new t h = (rc, t', h') ->
  (rc = CKR_OK /\ t' = update_all t new) \/ (rc = CKR_HOST_MEMORY /\ t' = t).
Proof. unfold add_defaults. destruct (mallocs n h) as [[] h1]; intros [= <- <- <-]; auto. Qed.

End Defaults.

(** Splits every call whose results the next statement names. *)
Ltac split_calls :=
  repeat match goal with
  | H : (match ?m with pair _ _ => _ end) = _ |- _ =>
      let E := fresh "E" in destruct m eqn:E
  end.

Section DefaultsOfKeys.
Context `{Allocator}.

(** All attributes the successful default groups of a private key set, in the
    order of insertion. *)
Definition privk_defaults : list CK_ATTRIBUTE :=
  [empty_attr CKA_START_DATE; bbool_attr CKA_DERIVE false;
   empty_attr CKA_END_DATE; bbool_attr CKA_LOCAL false] ++
  [ulong_attr CKA_CLASS CKO_PRIVATE_KEY; empty_attr CKA_SUBJECT;
   bbool_attr CKA_SENSITIVE true; bbool_attr CKA_DECRYPT false;
   bbool_attr CKA_SIGN true; bbool_attr CKA_SIGN_RECOVER false;
   bbool_attr CKA_UNWRAP false; bbool_attr CKA_EXTRACTABLE false;
   bbool_attr CKA_NEVER_EXTRACTABLE true; bbool_attr CKA_ALWAYS_SENSITIVE true;
   bbool_attr CKA_WRAP_WITH_TRUSTED false; empty_attr CKA_UNWRAP_TEMPLATE;
   bbool_attr CKA_ALWAYS_AUTHENTICATE false] ++
  [ulong_attr CKA_KEY_TYPE CKK_RSA; empty_attr CKA_KEY_GEN_MECHANISM;
   mkCK CKA_ALLOWED_MECHANISMS (Some (mjoin (ck_ulong <$> rsa_priv_mechs))) (7 * 8)].

Definition pubk_defaults : list CK_ATTRIBUTE :=
  [empty_attr CKA_START_DATE; bbool_attr CKA_DERIVE false;
   empty_attr CKA_END_DATE; bbool_attr CKA_LOCAL false] ++
  [ulong_attr CKA_CLASS CKO_PUBLIC_KEY; empty_attr CKA_SUBJECT;
   bbool_attr CKA_ENCRYPT true; bbool_attr CKA_VERIFY false;
   bbool_attr CKA_VERIFY_RECOVER false; bbool_attr CKA_WRAP false;
   bbool_attr CKA_TRUSTED false; empty_attr CKA_WRAP_TEMPLATE] ++
  [ulong_attr CKA_KEY_TYPE CKK_RSA; empty_attr CKA_KEY_GEN_MECHANISM;
   empty_attr CKA_ALLOWED_MECHANISMS].

Definition common_defaults : list CK_ATTRIBUTE :=
  [bbool_attr CKA_TOKEN true; bbool_attr CKA_MODIFIABLE false; bbool_attr CKA_PRIVATE false].

(** The effect of a sequence of default groups that sets [L]: all of it, or a
    prefix of it when an allocation fails. *)
Definition adds (L t : list CK_ATTRIBUTE) (rc : Z) (t' : list CK_ATTRIBUTE) : Prop :=
  (rc = CKR_OK /\ t' = update_all t L) \/
  (rc = CKR_HOST_MEMORY /\ exists L', L' `prefix_of` L /\ t' = update_all t L').

Lemma adds_one n L t h rc t' h' : add_defaults n L t h = (rc, t', h') -> adds L t rc t'.
Proof.
  intros [[-> ->]|[-> ->]]%add_defaults_cases; [by left |].
  right. split; [done |]. exists []. split; [apply prefix_nil | done].
Qed.

(** One more group after a sequence of them. *)
Lemma adds_seq (m : Z * list CK_ATTRIBUTE * heap) n L1 L2 t rc t' h' :
  adds L1 t m.1.1 m.1.2 ->
  (let '(rc, t, h) := m in
   if negb (rc =? CKR_OK) then (rc, t, h) else add_defaults n L2 t h) = (rc, t', h') ->
  adds (L1 ++ L2) t rc t'.
Proof.
  destruct m as [[rc1 t1] h1]. cbn [fst snd]. intros [[-> ->]|(-> & L' & HL & ->)].
  - rewrite Z.eqb_refl. cbn [negb]. intros [[-> ->]|(-> & L' & HL & ->)]%adds_one.
    + left. split; [done |]. unfold update_all. by rewrite foldl_app.
    + right. split; [done |]. exists (L1 ++ L'). split; [by apply prefix_app |].
      unfold update_all. by rewrite foldl_app.
  - change (CKR_HOST_MEMORY =? CKR_OK) with false. cbn [negb]. intros [= <- <- <-].
    right. split; [done |]. exists L'. split; [by apply prefix_app_r | done].
Qed.

Lemma rsa_privk_cases t h rc t' h' :
  rsa_privk_add_default_attr t h = (rc, t', h') -> adds privk_defaults t rc t'.
Proof.
  unfold rsa_privk_add_default_attr, privk_defaults. rewrite app_assoc.
  apply adds_seq. destruct (privk_add_default_attr t h) as [[rc1 t1] h1] eqn:E.
  cbn [fst snd]. revert E. unfold privk_add_default_attr. apply adds_seq.
  destruct (key_object_set_default_attr t h) as [[rc2 t2] h2] eqn:E2.
  eapply adds_one, E2.
Qed.

Lemma rsa_pubk_cases t h rc t' h' :
  rsa_pubk_add_default_attr t h = (rc, t', h') -> adds pubk_defaults t rc t'.
Proof.
  unfold rsa_pubk_add_default_attr, pubk_defaults. rewrite app_assoc.
  apply adds_seq. destruct (pubk_add_default_attr t h) as [[rc1 t1] h1] eqn:E.
  cbn [fst snd]. revert E. unfold pubk_add_default_attr. apply adds_seq.
  destruct (key_object_set_default_attr t h) as [[rc2 t2] h2] eqn:E2.
  eapply adds_one, E2.
Qed.

Lemma adds_ok L t rc t' : adds L t rc t' -> Forall ck_wf L -> tmpl_ok t -> tmpl_ok t'.
Proof.
  intros [[_ ->]|(_ & L' & [k ->] & ->)] HL Ht; apply update_all_ok; try done.
  by apply Forall_app in HL as [? _].
Qed.

(** The defaults of an object, by class and subclass. *)
Lemma add_default_attr_cases obj h rc obj' h' :
  p11_template_add_default_attr obj h = (rc, obj', h') ->
  obj' = set_template obj (template_list obj') /\
  ((obj_class obj = CKO_PRIVATE_KEY /\ obj_subclass obj = CKK_RSA /\
    adds (common_defaults ++ privk_defaults) (template_list obj) rc (template_list obj')) \/
   (obj_class obj = CKO_PUBLIC_KEY /\ obj_subclass obj = CKK_RSA /\
    adds (common_defaults ++ pubk_defaults) (template_list obj) rc (template_list obj')) \/
   ((rc = CKR_HOST_MEMORY \/
     rc = CKR_ATTRIBUTE_VALUE_INVALID /\
     (obj_subclass obj <> CKK_RSA \/ obj_class obj <> CKO_PUBLIC_KEY /\ obj_class obj <> CKO_PRIVATE_KEY)) /\
    exists L', L' `prefix_of` common_defaults /\
      template_list obj' = update_all (template_list obj) L')).
Proof.
  unfold p11_template_add_default_attr. intros E.
  destruct (p11_template_add_default_common_attr (template_list obj) h) as [[rc1 t1] h1] eqn:E1.
  apply adds_one in E1 as [[-> ->]|(-> & L' & HL & ->)]; cycle 1.
  { change (negb (CKR_HOST_MEMORY =? CKR_OK)) with true in E. injection E as <- <- <-.
    split; [done |]. right. right. eauto. }
  rewrite Z.eqb_refl in E. cbn [negb] in E.
  assert (Hseq : forall L t2 rc2, adds L (update_all (template_list obj) common_defaults) rc2 t2 ->
                 adds (common_defaults ++ L) (template_list obj) rc2 t2).
  { intros L t2 rc2 [[-> ->]|(-> & L' & HL & ->)].
    - left. split; [done |]. unfold update_all. by rewrite foldl_app.
    - right. split; [done |]. exists (common_defaults ++ L'). split; [by apply prefix_app |].
      unfold update_all. by rewrite foldl_app. }
  assert (Hinv : (CKR_ATTRIBUTE_VALUE_INVALID,
                  set_template obj (update_all (template_list obj) common_defaults), h1) = (rc, obj', h') ->
          obj' = set_template obj (template_list obj') /\ rc = CKR_ATTRIBUTE_VALUE_INVALID /\
          exists L', L' `prefix_of` common_defaults /\ template_list obj' = update_all (template_list obj) L').
  { intros [= <- <- <-]. split_and!; [done | done | by exists common_defaults]. }
  destruct (obj_class obj =? CKO_PUBLIC_KEY) eqn:Ec; boolz.
  - destruct (obj_subclass obj =? CKK_RSA) eqn:Es; boolz; [| destruct (Hinv E) as (? & ? & ?); auto 10].
    split_calls. injection E as <- <- <-. split; [done |]. right. left.
    split_and!; [done.. |]. eapply Hseq, rsa_pubk_cases; eauto.
  - destruct (obj_class obj =? CKO_PRIVATE_KEY) eqn:Ec'; boolz; [| destruct (Hinv E) as (? & ? & ?); auto 10].
    destruct (obj_subclass obj =? CKK_RSA) eqn:Es; boolz; [| destruct (Hinv E) as (? & ? & ?); auto 10].
    split_calls. injection E as <- <- <-. split; [done |]. left.
    split_and!; [done.. |]. eapply Hseq, rsa_privk_cases; eauto.
Qed.

End DefaultsOfKeys.

(** ** Adding caller attributes *)

(** The bytes of an attribute. *)
Definition value_of (x : CK_ATTRIBUTE) : list Z :=
  take (Z.to_nat (ulValueLen x)) (default [] (pValue x)).

(** The copy [p11_template_add_attr] stores. *)
Definition stored (x : CK_ATTRIBUTE) : CK_ATTRIBUTE :=
  mkCK (ck_type x)
    (if ulValueLen x =? 0 then None
     else Some (value_of x))
    (ulValueLen x).

(** The attributes of [pT] that are stored: those of a known type. *)
Definition stored_list (pT : list CK_ATTRIBUTE) : list CK_ATTRIBUTE :=
  stored <$> filter (fun x => p11_is_attribute_defined (ck_type x) = true) pT.

Lemma mem_read_wf x : ck_wf x ->
  mem_read (pValue x) (ulValueLen x) = Ret (value_of x).
Proof.
  intros [H1 H2]. unfold mem_read, value_of. destruct (ulValueLen x =? 0) eqn:E; boolz; [by rewrite E |].
  destruct (pValue x) as [v|]; cbn [default deref mbind outcome_bind] in *; [| lia].
  change (default [] (Some v)) with v. by rewrite buf_read_ret by lia.
Qed.

Lemma stored_wf x : ck_wf x -> ck_wf (stored x).
Proof.
  unfold ck_wf, stored, value_of. cbn [ulValueLen pValue]. intros [H1 H2]. split; [done |].
  case_c; boolz; [done |]. destruct (pValue x); [| done]. cbn [default from_option]. unfold id. len.
Qed.

Section AddAttr.
Context `{Allocator}.

Lemma add_attr_adds pT : forall obj h, Forall ck_wf pT ->
  exists rc obj' h', p11_template_add_attr obj pT h = Ret (rc, obj', h') /\
    obj' = set_template obj (template_list obj') /\
    adds (stored_list pT) (template_list obj) rc (template_list obj').
Proof.
  induction pT as [|x pT IH]; intros obj h Hwf; cbn [p11_template_add_attr].
  { eexists _, _, _. split_and!; [done | by destruct obj |]. by left. }
  inversion Hwf as [|?? Hx Hr]; subst. unfold stored_list. rewrite filter_cons.
  destruct (p11_is_attribute_defined (ck_type x)) eqn:Ed; cbn [negb].
  2: { rewrite decide_False by done. apply (IH obj h Hr). }
  rewrite decide_True by done. cbn [fmap list_fmap].
  assert (Hfail : forall h', exists rc obj' h'',
    Ret (CKR_HOST_MEMORY, obj, h' : heap) = Ret (rc, obj', h'') /\
    obj' = set_template obj (template_list obj') /\
    adds (stored x :: stored_list pT) (template_list obj) rc (template_list obj')).
  { intros h'. eexists _, _, _. split_and!; [done | by destruct obj |].
    right. split; [done |]. exists []. split; [apply prefix_nil | done]. }
  destruct (mallocs 1 h) as [[] h1]; cbn [negb]; [| apply Hfail].
  rewrite mem_read_wf by done. rewrite ret_bind.
  destruct (mallocs 1 h1) as [[] h2]; cbn [negb]; [| apply Hfail].
  fold (stored x).
  destruct (IH (set_template obj (p11_template_update_attr (template_list obj) (stored x))) h2 Hr)
    as (rc & obj' & h' & -> & Ho & Ha).
  exists rc, obj', h'. split_and!; [done | by rewrite Ho |].
  cbn [template_list set_template] in Ha. destruct Ha as [[-> Ha]|(-> & L' & HL & Ha)].
  - left. split; [done |]. by rewrite Ha.
  - right. split; [done |]. exists (stored x :: L'). split; [by apply prefix_cons | by rewrite Ha].
Qed.

Lemma stored_list_wf pT : Forall ck_wf pT -> Forall ck_wf (stored_list pT).
Proof.
  intros Hwf. unfold stored_list. apply Forall_fmap, Forall_forall. intros x Hx.
  apply list_elem_of_filter in Hx as [_ Hx]. rewrite Forall_forall in Hwf.
  by apply stored_wf, Hwf.
Qed.

End AddAttr.

Lemma common_defaults_wf : Forall ck_wf common_defaults.
Proof. decide_c. Qed.
Lemma privk_defaults_wf : Forall ck_wf privk_defaults.
Proof. decide_c. Qed.
Lemma pubk_defaults_wf : Forall ck_wf pubk_defaults.
Proof. decide_c. Qed.

(** ** Sub-templates *)

(** An attribute occurs in a template with the same length and bytes. *)
Definition attr_in (tmpl : list CK_ATTRIBUTE) (x : CK_ATTRIBUTE) : bool :=
  match p11_template_check_attr tmpl (ck_type x) with
  | Some a => bool_decide (ulValueLen x = ulValueLen a /\ value_of x = value_of a)
  | None => false
  end.

Lemma compare_sub_template t1 tmpl :
  Forall ck_wf t1 -> Forall ck_wf tmpl ->
  p11_template_compare (Some t1) tmpl = Ret (forallb (attr_in tmpl) t1).
Proof.
  intros H1 H2. cbn [p11_template_compare].
  induction H1 as [|x t1 Hx _ IH]; cbn [template_compare_loop forallb]; [done |]. unfold attr_in at 1.
  destruct (p11_template_check_attr tmpl (ck_type x)) as [a|] eqn:Ea; [| done].
  destruct (ulValueLen x =? ulValueLen a) eqn:El; boolz; cbn [negb]; cycle 1.
  { by rewrite bool_decide_false by tauto. }
  assert (Hwa : ck_wf a).
  { apply check_Some_In in Ea as [Ea _]. rewrite Forall_forall in H2. by apply H2. }
  rewrite (mem_read_wf x) by done. rewrite ret_bind, El, (mem_read_wf a) by done. rewrite ret_bind.
  destruct (decide (value_of x = value_of a)) as [Ev|Ev].
  - by rewrite bool_decide_true.
  - by rewrite bool_decide_false by tauto.
Qed.

(** ** Class lookup and exportability *)

(** In a template without duplicates the class scan reads what lookup finds. *)
Lemma get_class_spec t kc ks : forall c s f,
  tmpl_nodup t -> CKA_CERTIFICATE_TYPE ∉ (ck_type <$> t) ->
  (forall a, p11_template_check_attr t CKA_CLASS = Some a -> read_ulong (pValue a) = Ret kc) ->
  (forall a, p11_template_check_attr t CKA_KEY_TYPE = Some a -> read_ulong (pValue a) = Ret ks) ->
  exists f', p11_template_get_class t c s f =
    Ret (f', if p11_template_check_attr t CKA_CLASS is Some _ then Some kc else c,
         if p11_template_check_attr t CKA_KEY_TYPE is Some _ then Some ks else s).
Proof.
  unfold tmpl_nodup.
  induction t as [|a t IH]; intros c s f; cbn [fmap list_fmap p11_template_get_class]; [by eexists |].
  rewrite NoDup_cons, not_elem_of_cons. intros [Ha Hn] [Hc1 Hc2].
  cbn [p11_template_check_attr]. rewrite (Z.eqb_sym CKA_CLASS), (Z.eqb_sym CKA_KEY_TYPE).
  rewrite (proj2 (Z.eqb_neq (ck_type a) CKA_CERTIFICATE_TYPE)) by congruence.
  destruct (ck_type a =? CKA_CLASS) eqn:E1.
  - boolz. rewrite E1 in *. cbn [Z.eqb CKA_CLASS CKA_KEY_TYPE]. intros Hkc Hks.
    rewrite (Hkc a eq_refl). cbn [mbind outcome_bind].
    assert (Hnone : p11_template_check_attr t CKA_CLASS = None) by by apply check_None.
    destruct (IH (Some kc) s true) as [f' Hf]; try done; [by rewrite Hnone |].
    rewrite Hnone in Hf. by eexists.
  - destruct (ck_type a =? CKA_KEY_TYPE) eqn:E2; cbn [mbind outcome_bind]; intros Hkc Hks.
    + rewrite (Hks a eq_refl). cbn [mbind outcome_bind]. boolz.
      assert (Hnone : p11_template_check_attr t CKA_KEY_TYPE = None)
        by (apply check_None; congruence).
      destruct (IH c (Some ks) f) as [f' Hf]; try done; [by rewrite Hnone |].
      rewrite Hnone in Hf. by eexists.
    + by apply IH.
Qed.

(** The attributes that matter for access control of a private key. *)
Definition guarded_privk (t : list CK_ATTRIBUTE) : Prop :=
  p11_template_check_attr t CKA_CLASS = Some (ulong_attr CKA_CLASS CKO_PRIVATE_KEY) /\
    p11_template_check_attr t CKA_KEY_TYPE = Some (ulong_attr CKA_KEY_TYPE CKK_RSA) /\
    p11_template_check_attr t CKA_SENSITIVE = Some (bbool_attr CKA_SENSITIVE true) /\
    p11_template_check_attr t CKA_EXTRACTABLE = Some (bbool_attr CKA_EXTRACTABLE false) /\
    p11_template_check_attr t CKA_SIGN = Some (bbool_attr CKA_SIGN true) /\
  p11_template_check_attr t CKA_ALLOWED_MECHANISMS =
    Some (mkCK CKA_ALLOWED_MECHANISMS (Some (mjoin (ck_ulong <$> rsa_priv_mechs))) (7 * 8)).

Lemma guarded_exportability t ty :
  tmpl_nodup t -> CKA_CERTIFICATE_TYPE ∉ (ck_type <$> t) -> guarded_privk t ->
  check_attr_exportability t ty = Ret (check_rsa_privk_exportability ty).
Proof.
  intros Hn Hcert (Hc & Hk & Hs & He & _). unfold check_attr_exportability.
  destruct (get_class_spec t CKO_PRIVATE_KEY CKK_RSA None None false) as [f' ->]; try done.
  { rewrite Hc. by intros ? [= <-]. }
  { rewrite Hk. by intros ? [= <-]. }
  by rewrite Hc, Hk, Hs, He.
Qed.

(** ** Theorems *)

Section TemplateTheorems.
Context `{Allocator}.

(** adding caller attributes is defined on every allocation outcome, keeps
    a template free of duplicate types and well formed, answers CKR_OK or
    CKR_HOST_MEMORY only, and on CKR_OK a lookup finds the last known-type
    attribute of the call, and otherwise what was there before. *)
Theorem template_add_attr_ok obj pT h :
  tmpl_ok (template_list obj) -> Forall ck_wf pT ->
  exists rc obj' h', p11_template_add_attr obj pT h = Ret (rc, obj', h') /\
    tmpl_ok (template_list obj') /\ (rc = CKR_OK \/ rc = CKR_HOST_MEMORY) /\
    (rc = CKR_OK -> forall ty,
       p11_template_check_attr (template_list obj') ty =
         match p11_template_check_attr (reverse (stored_list pT)) ty with
         | Some a => Some a
         | None => p11_template_check_attr (template_list obj) ty
         end).
Proof.
  intros Hok Hwf. destruct (add_attr_adds pT obj h Hwf) as (rc & obj' & h' & E & _ & Ha).
  exists rc, obj', h'. split_and!; [done | | |].
  - eapply adds_ok; eauto using stored_list_wf.
  - destruct Ha as [[-> _]|[-> _]]; auto.
  - intros -> ty. destruct Ha as [[_ ->]|[? _]]; [apply check_update_all | done].
Qed.

(** What the defaults of an RSA private key leave in the template. *)
Lemma default_privk_guarded obj h rc obj' h' :
  obj_class obj = CKO_PRIVATE_KEY -> obj_subclass obj = CKK_RSA ->
  p11_template_add_default_attr obj h = (rc, obj', h') -> rc = CKR_OK ->
  guarded_privk (template_list obj') /\
  template_list obj' = update_all (template_list obj) (common_defaults ++ privk_defaults).
Proof.
  intros Hc Hs E ->. apply add_default_attr_cases in E as [_ [(_ & _ & Ha)|[(Hc' & _)|[Hn _]]]];
    [| rewrite Hc in Hc'; discriminate | by destruct Hn as [?|[? _]]].
  destruct Ha as [[_ ->]|[? _]]; [| done]. split; [| done].
  unfold guarded_privk. rewrite !check_update_all. split_and!; reflexivity.
Qed.

Lemma update_all_types new : forall t ty,
  ty ∉ (ck_type <$> t) -> ty ∉ (ck_type <$> new) -> ty ∉ (ck_type <$> update_all t new).
Proof.
  intros t ty H1 H2. apply check_None. rewrite check_update_all.
  rewrite (proj2 (check_None _ ty)); [by apply check_None |].
  rewrite fmap_reverse. by rewrite elem_of_reverse.
Qed.

(** the default attributes of an RSA private key object are all there or
    the call reports CKR_HOST_MEMORY; when they are, the object is sensitive,
    not extractable and allowed to sign, and exactly the six private RSA
    components are refused for export. *)
Theorem default_private_key_guarded obj h rc obj' h' ty :
  obj_class obj = CKO_PRIVATE_KEY -> obj_subclass obj = CKK_RSA ->
  tmpl_ok (template_list obj) ->
  CKA_CERTIFICATE_TYPE ∉ (ck_type <$> template_list obj) ->
  p11_template_add_default_attr obj h = (rc, obj', h') ->
  tmpl_ok (template_list obj') /\
  (rc = CKR_HOST_MEMORY \/
   rc = CKR_OK /\ guarded_privk (template_list obj') /\
   check_attr_exportability (template_list obj') ty =
     Ret (negb (bool_decide (ty ∈ [CKA_PRIVATE_EXPONENT; CKA_PRIME_1; CKA_PRIME_2;
                                   CKA_EXPONENT_1; CKA_EXPONENT_2; CKA_COEFFICIENT])))).
Proof.
  intros Hc Hs Hok Hcert E.
  pose proof (default_privk_guarded _ _ _ _ _ Hc Hs E) as Hg.
  apply add_default_attr_cases in E as [_ [(_ & _ & Ha)|[(Hc' & _)|(Hn & L & [k Hk] & Ht)]]];
    [| rewrite Hc in Hc'; discriminate |].
  - assert (Hok' : tmpl_ok (template_list obj')).
    { eapply adds_ok; [exact Ha | | done].
      apply Forall_app; split; [apply common_defaults_wf | apply privk_defaults_wf]. }
    split; [done |]. destruct Ha as [[-> Ha]|[-> _]]; [right | by left].
    destruct (Hg eq_refl) as [Hg' _]. split_and!; [done | done |].
    apply guarded_exportability; [apply Hok' | | done].
    rewrite Ha. apply update_all_types; [done |]. decide_c.
  - assert (Hok' : tmpl_ok (template_list obj')).
    { rewrite Ht. apply update_all_ok; [done |]. pose proof common_defaults_wf as Hw.
      rewrite Hk in Hw. by apply Forall_app in Hw as [? _]. }
    split; [done |]. left. destruct Hn as [?|[_ [?|[_ ?]]]]; done.
Qed.

(** a template matches a search template exactly when every search
    attribute occurs in it with the same length and the same bytes; no search
    template is read out of bounds. *)
Theorem p11_template_compare_spec t1 tmpl :
  Forall ck_wf t1 -> Forall ck_wf tmpl ->
  exists b, p11_template_compare (Some t1) tmpl = Ret b /\
    (b = true <-> Forall (fun x => exists a,
       p11_template_check_attr tmpl (ck_type x) = Some a /\
       ulValueLen x = ulValueLen a /\ value_of x = value_of a) t1).
Proof.
  intros H1 H2. eexists. split; [by apply compare_sub_template |].
  rewrite forallb_forall, Forall_forall. setoid_rewrite list_elem_of_In.
  split; intros H0 x Hx; specialize (H0 x Hx); revert H0; unfold attr_in;
    destruct (p11_template_check_attr tmpl (ck_type x)) as [a|]; try done.
  - intros Hd%bool_decide_eq_true. eauto.
  - intros (a' & [= <-] & ?). by apply bool_decide_eq_true.
  - by intros (a' & ? & _).
Qed.

End TemplateTheorems.

(** ** Witnesses *)

Definition sample_obj (class : Z) : OBJECT :=
  mkObj 7 class CKK_RSA [mkCK CKA_ID (Some [7; 0; 0; 0]) 4; mkCK CKA_LABEL (Some [65; 66]) 2] TEE_SLOT_ID.

Lemma template_add_attr_ok_witness :
  exists rc obj' h', p11_template_add_attr (H := bump_allocator (fun _ => false))
      (sample_obj CKO_PRIVATE_KEY) [mkCK CKA_LABEL (Some [67]) 1; mkCK 0x999 None 0] (mkHeap 0 ∅)
      = Ret (rc, obj', h') /\ tmpl_ok (template_list obj').
Proof.
  destruct (template_add_attr_ok (H := bump_allocator (fun _ => false)) (sample_obj CKO_PRIVATE_KEY)
    [mkCK CKA_LABEL (Some [67]) 1; mkCK 0x999 None 0] (mkHeap 0 ∅)) as (rc & obj' & h' & E & Ho & _).
  - split; decide_c.
  - decide_c.
  - exists rc, obj', h'. split; [exact E | exact Ho].
Defined.

Lemma default_private_key_guarded_witness :
  check_attr_exportability (template_list
    (p11_template_add_default_attr (H := bump_allocator (fun _ => false))
       (sample_obj CKO_PRIVATE_KEY) (mkHeap 0 ∅)).1.2) CKA_PRIME_1 = Ret false.
Proof.
  destruct (default_private_key_guarded (H := bump_allocator (fun _ => false))
    (sample_obj CKO_PRIVATE_KEY) (mkHeap 0 ∅)
    (p11_template_add_default_attr (H := bump_allocator (fun _ => false))
       (sample_obj CKO_PRIVATE_KEY) (mkHeap 0 ∅)).1.1
    (p11_template_add_default_attr (H := bump_allocator (fun _ => false))
       (sample_obj CKO_PRIVATE_KEY) (mkHeap 0 ∅)).1.2
    (p11_template_add_default_attr (H := bump_allocator (fun _ => false))
       (sample_obj CKO_PRIVATE_KEY) (mkHeap 0 ∅)).2 CKA_PRIME_1) as [_ [Hr|(_ & _ & Hr)]].
  - reflexivity.
  - reflexivity.
  - split; decide_c.
  - decide_c.
  - vm_compute. reflexivity.
  - vm_compute in Hr. discriminate Hr.
  - exact Hr.
Defined.

Lemma p11_template_compare_spec_witness :
  p11_template_compare (Some [mkCK CKA_LABEL (Some [65; 66; 0]) 2]) (template_list (sample_obj 3)) = Ret true.
Proof.
  destruct (p11_template_compare_spec [mkCK CKA_LABEL (Some [65; 66; 0]) 2] (template_list (sample_obj 3)))
    as (b & Hb & Hs).
  - decide_c.
  - decide_c.
  - rewrite Hb. f_equal. apply Hs. repeat constructor. eexists. split_and!; reflexivity.
Defined.
