(* ===== verification/P11State.v ===== *)
(** * State of the PKCS#11 library

    The library keeps one slot ([g_slot_info], general.c) with its list of
    objects and its list of sessions, the [initialized] flag and the global
    lock.  Object and session handles are the addresses of heap nodes, and a
    session keeps the address of its find list; the memory behind find lists is
    the [blocks] map, so that an address whose block was released has none.
    The secure-key library (libsecure_obj.so) is reached through its function
    list, here the class [SK_FUNCTION_LIST]; [token] is its state. *)

From stdpp Require Import base numbers list gmap.
From S2P Require Import Prelude SkTypes P11Types.

(** ** The secure-key library as its client sees it *)

(** The five members of [SK_FUNCTION_LIST] (securekey_api.h).  Each returns its
    SK return code and the memory it wrote.  [SK_EnumerateObjects] is given the
    capacity of the handle array and returns the handles it stored, their
    number being [*pulObjectCount]; the crypto calls are given the length cell
    and return the bytes they stored, the new length being their number. *)
Class SK_FUNCTION_LIST (T : Type) := {
  SK_EnumerateObjects : option (list SK_ATTRIBUTE) -> Z -> Z -> T -> outcome (Z * list Z * T);
  SK_GetObjectAttribute : Z -> list SK_ATTRIBUTE -> T -> outcome (Z * list SK_ATTRIBUTE * T);
  SK_Sign : SK_MECHANISM_INFO -> Z -> list Z -> Z -> T -> outcome (Z * list Z * T);
  SK_Decrypt : SK_MECHANISM_INFO -> Z -> list Z -> Z -> T -> outcome (Z * list Z * T);
  SK_Digest : SK_MECHANISM_INFO -> list Z -> Z -> T -> outcome (Z * list Z * T)
}.

(** The function list [SK_GetFunctionList] hands out is a static variable: the
    result code and whether [*ppFuncList] was set. *)
Definition SK_GetFunctionList (ppFuncList : bool) : Z * bool :=
  if negb ppFuncList then (SKR_ERR_BAD_PARAMETERS, false) else (SKR_OK, true).

(** Memory nobody has written yet: [n] bytes of some value. *)
Class Indet := {
  indet : Z -> list Z;
  indet_length : forall n, 0 <= n -> Z.of_nat (length (indet n)) = n
}.

(** ** The global lock *)

(** Which functions [global_locking] points to. *)
Inductive locking := LockDefault | LockCaller.
#[export] Instance locking_eq_dec : EqDecision locking.
Proof. solve_decision. Defined.

(** [global_lock]: no mutex, or one that is free or held. *)
Record lock_state := mkLock { global_lock : option bool; global_locking : option locking }.
#[export] Instance lock_state_eq_dec : EqDecision lock_state.
Proof. solve_decision. Defined.

(** ** The library *)

(** [struct slot_info]; a list holds its nodes with their addresses, head first.
    [sk_funcs] and [shared_lib_handle] record whether the pointer was set,
    [lib_open] whether the shared library is still loaded: [dlclose] leaves
    both pointers as they are. *)
Record slot_info := mkSlot {
  slot_id : Z;
  obj_list : list (Z * OBJECT);
  sess_list : list (Z * session);
  sk_funcs : bool;
  shared_lib_handle : bool;
  lib_open : bool
}.

Record lib (T : Type) := mkLib {
  initialized : bool;
  lk : lock_state;
  slot : slot_info;
  blocks : gmap Z (list Z);
  hp : heap;
  token : T
}.
Arguments mkLib {T} _ _ _ _ _ _.
Arguments initialized {T} _.
Arguments lk {T} _.
Arguments slot {T} _.
Arguments blocks {T} _.
Arguments hp {T} _.
Arguments token {T} _.

Section Updates.
Context {T : Type}.

Definition set_initialized (b : bool) (s : lib T) : lib T :=
  mkLib b (lk s) (slot s) (blocks s) (hp s) (token s).
Definition set_lk (l : lock_state) (s : lib T) : lib T :=
  mkLib (initialized s) l (slot s) (blocks s) (hp s) (token s).
Definition set_slot (f : slot_info -> slot_info) (s : lib T) : lib T :=
  mkLib (initialized s) (lk s) (f (slot s)) (blocks s) (hp s) (token s).
Definition set_blocks (b : gmap Z (list Z)) (s : lib T) : lib T :=
  mkLib (initialized s) (lk s) (slot s) b (hp s) (token s).
Definition set_hp (h : heap) (s : lib T) : lib T :=
  mkLib (initialized s) (lk s) (slot s) (blocks s) h (token s).
Definition set_token (t : T) (s : lib T) : lib T :=
  mkLib (initialized s) (lk s) (slot s) (blocks s) (hp s) t.

Definition set_objs (l : list (Z * OBJECT)) : lib T -> lib T :=
  set_slot (fun i => mkSlot (slot_id i) l (sess_list i) (sk_funcs i) (shared_lib_handle i) (lib_open i)).
Definition set_sess (l : list (Z * session)) : lib T -> lib T :=
  set_slot (fun i => mkSlot (slot_id i) (obj_list i) l (sk_funcs i) (shared_lib_handle i) (lib_open i)).

(** The three lists of the slot, as the code names them. *)
Definition objs (s : lib T) : list (Z * OBJECT) := obj_list (slot s).
Definition sessions (s : lib T) : list (Z * session) := sess_list (slot s).

(** Allocation and release of a node known by its address. *)
Definition malloc_node `{Allocator} : st (lib T) (option Z) := fun s =>
  let '(a, h) := malloc (hp s) in Ret (a, set_hp h s).
Definition free_node (a : Z) : st (lib T) unit := modify (fun s => set_hp (free a (hp s)) s).

(** A call through the function list; the library must still be loaded. *)
Definition call_sk {A} (f : T -> outcome (Z * A * T)) : st (lib T) (Z * A) := fun s =>
  if lib_open (slot s) then
    match f (token s) with
    | Ret (rc, a, t) => Ret ((rc, a), set_token t s)
    | Undef => Undef
    end
  else Undef.

End Updates.

(** ** Node lists *)

(** The node at an address: the object a handle points to. *)
Fixpoint assoc {A} (k : Z) (l : list (Z * A)) : option A :=
  match l with
  | [] => None
  | (k', a) :: r => if k =? k' then Some a else assoc k r
  end.

(** Writing through a node's address. *)
Fixpoint assoc_set {A} (k : Z) (a : A) (l : list (Z * A)) : list (Z * A) :=
  match l with
  | [] => []
  | (k', a') :: r => if k =? k' then (k', a) :: r else (k', a') :: assoc_set k a r
  end.

(** [STAILQ_REMOVE] of the node at an address. *)
Fixpoint assoc_remove {A} (k : Z) (l : list (Z * A)) : list (Z * A) :=
  match l with
  | [] => []
  | (k', a') :: r => if k =? k' then r else (k', a') :: assoc_remove k r
  end.

Lemma assoc_In {A} k (l : list (Z * A)) a : assoc k l = Some a -> (k, a) ∈ l.
Proof.
  induction l as [|[k' a'] l IH]; cbn [assoc]; [done |].
  destruct (k =? k') eqn:E; boolz; [intros [= ->]; subst; constructor |].
  intros H. constructor. by apply IH.
Qed.

Lemma assoc_None {A} k (l : list (Z * A)) : assoc k l = None <-> k ∉ l.*1.
Proof.
  induction l as [|[k' a'] l IH]; cbn [assoc fmap list_fmap fst]; [set_solver |].
  rewrite not_elem_of_cons. destruct (k =? k') eqn:E; boolz; [split; [done | tauto] |].
  rewrite IH. tauto.
Qed.

Lemma assoc_elem {A} k a (l : list (Z * A)) : NoDup l.*1 -> (k, a) ∈ l -> assoc k l = Some a.
Proof.
  induction l as [|[k' a'] l IH]; cbn [assoc fmap list_fmap fst]; [set_solver |].
  rewrite NoDup_cons, elem_of_cons. intros [Hn Hd] [[= -> ->]|Hin].
  - by rewrite Z.eqb_refl.
  - destruct (k =? k') eqn:E; boolz; [| by apply IH]. subst. exfalso. apply Hn.
    apply list_elem_of_fmap. by exists (k', a).
Qed.

Lemma assoc_set_keys {A} k (a : A) l : (assoc_set k a l).*1 = l.*1.
Proof.
  induction l as [|[k' a'] l IH]; cbn [assoc_set]; [done |].
  destruct (k =? k'); cbn [fmap list_fmap fst]; [done |]. by f_equal.
Qed.

Lemma assoc_set_same {A} k (a : A) l : is_Some (assoc k l) -> assoc k (assoc_set k a l) = Some a.
Proof.
  induction l as [|[k' a'] l IH]; cbn [assoc assoc_set]; [by intros [? ?] |].
  destruct (k =? k') eqn:E; cbn [assoc]; by rewrite E.
Qed.

Lemma assoc_set_other {A} k k' (a : A) l : k <> k' -> assoc k (assoc_set k' a l) = assoc k l.
Proof.
  intros Hn. induction l as [|[k0 a'] l IH]; cbn [assoc assoc_set]; [done |].
  destruct (k' =? k0) eqn:E; boolz; cbn [assoc].
  - by rewrite (proj2 (Z.eqb_neq k k0)) by congruence.
  - by rewrite IH.
Qed.

Lemma assoc_remove_keys {A} k (l : list (Z * A)) x :
  x ∈ (assoc_remove k l).*1 -> x ∈ l.*1.
Proof.
  induction l as [|[k' a'] l IH]; cbn [assoc_remove]; [done |].
  destruct (k =? k'); cbn [fmap list_fmap fst]; rewrite !elem_of_cons; intuition auto.
Qed.

Lemma assoc_remove_nodup {A} k (l : list (Z * A)) :
  NoDup l.*1 -> NoDup (assoc_remove k l).*1 /\ k ∉ (assoc_remove k l).*1.
Proof.
  induction l as [|[k' a'] l IH]; cbn [assoc_remove fmap list_fmap fst].
  { split; [constructor | set_solver]. }
  rewrite NoDup_cons. intros [Hn Hd]. destruct (IH Hd) as [H1 H2].
  destruct (k =? k') eqn:E; boolz; [by subst |]. cbn [fmap list_fmap fst].
  rewrite NoDup_cons, not_elem_of_cons. split_and!; try done.
  intros Hin. by eapply Hn, assoc_remove_keys.
Qed.

Lemma assoc_remove_other {A} k k' (l : list (Z * A)) :
  k <> k' -> assoc k (assoc_remove k' l) = assoc k l.
Proof.
  intros Hn. induction l as [|[k0 a'] l IH]; cbn [assoc assoc_remove]; [done |].
  destruct (k' =? k0) eqn:E; boolz; cbn [assoc].
  - by rewrite (proj2 (Z.eqb_neq k k0)) by congruence.
  - by rewrite IH.
Qed.
