(* ===== verification/P11Sessions.v ===== *)
(** * Sessions and the slot (sessions.c, and the slot lookups of general.c and
    objects.c)

    A session handle is the address of its node.  [is_session_valid] reads the
    slot number through the handle before it looks the handle up, so a handle
    that is not the address of a session node has no defined result here. *)

From stdpp Require Import base numbers list gmap.
From S2P Require Import Prelude SkTypes P11Types P11State.

Section Sessions.
Context {T : Type} `{Allocator}.

(** The null test on [get_global_slot_info]. *)
Definition get_global_slot_info (slotID : Z) : bool := slotID =? TEE_SLOT_ID.

(** The function list of the slot: null before it was loaded. *)
Definition get_slot_function_list (slotID : Z) : st (lib T) bool :=
  if negb (slotID =? TEE_SLOT_ID) then mret false
  else if negb (get_global_slot_info slotID) then mret false
  else gets (fun s => sk_funcs (slot s)).

(** The null test on [get_session_list] and on [get_object_list]: below
    SLOT_COUNT there is one slot, whose lists are in the state. *)
Definition get_session_list (slotID : Z) : bool := negb (SLOT_COUNT <=? slotID).
Definition get_object_list (slotID : Z) : bool := negb (SLOT_COUNT <=? slotID).

Definition initialize_session_list (slotID : Z) : st (lib T) Z :=
  if negb (get_session_list slotID) then mret CKR_ARGUMENTS_BAD
  else modify (set_sess []);; mret CKR_OK.

(** The node a session handle points to. *)
Definition session_at (hSession : Z) : st (lib T) session := fun s =>
  match assoc hSession (sessions s) with Some x => Ret (x, s) | None => Undef end.

Definition is_session_valid (hSession : Z) : st (lib T) bool :=
  sess ← session_at hSession;
  if negb (get_session_list (si_slotID (session_info sess))) then mret false
  else gets (fun s => existsb (fun temp => temp.1 =? hSession) (sessions s)).

(** [None] for a null result, otherwise the address of the session. *)
Definition get_session (hSession : Z) : st (lib T) (option Z) :=
  v ← is_session_valid hSession;
  if negb v then mret None else mret (Some hSession).

Definition null_sign_ctx : sign_verify_context :=
  mkSVC 0 (mkCKM 0 None 0) false false false.

(** Result code and, on success, the handle stored in [*phSession]. *)
Definition create_session (slotID flags : Z) : st (lib T) (Z * option Z) :=
  a ← malloc_node;
  match a with
  | None => mret (CKR_HOST_MEMORY, None)
  | Some s =>
      if negb (get_session_list slotID) then free_node s;; mret (CKR_ARGUMENTS_BAD, None)
      else
        let node := mkSess (mkSI slotID CKS_RO_PUBLIC_SESSION flags 0) None 0 0 false null_sign_ctx in
        l ← gets sessions;
        modify (set_sess ((s, node) :: l));;
        mret (CKR_OK, Some s)
  end.

Definition delete_session (hSession : Z) : st (lib T) Z :=
  if hSession =? 0 then mret CKR_OK
  else
    sess ← session_at hSession;
    if negb (get_session_list (si_slotID (session_info sess))) then mret CKR_ARGUMENTS_BAD
    else
      l ← gets sessions;
      modify (set_sess (assoc_remove hSession l));;
      free_node hSession;;
      mret CKR_OK.

(** The [while] loop that removes and frees the first node. *)
Fixpoint free_nodes (l : list Z) : st (lib T) unit :=
  match l with
  | [] => mret tt
  | a :: r => free_node a;; free_nodes r
  end.

Definition destroy_session_list (slotID : Z) : st (lib T) Z :=
  if negb (get_session_list slotID) then mret CKR_ARGUMENTS_BAD
  else
    l ← gets sessions;
    free_nodes (l.*1);;
    modify (set_sess []);;
    mret CKR_OK.

(** The result code and the copied information. *)
Definition get_session_info (hSession : Z) : st (lib T) (Z * CK_SESSION_INFO) :=
  sess ← session_at hSession;
  mret (CKR_OK, session_info sess).

(** Assignments through the session pointer. *)
Definition set_session (hSession : Z) (x : session) : st (lib T) unit :=
  l ← gets sessions; modify (set_sess (assoc_set hSession x l)).

End Sessions.

(** Field updates of a session. *)
Definition with_find (x : session) (fl : option Z) (count idx : Z) (active : bool) : session :=
  mkSess (session_info x) fl count idx active (sign_ctx x).
Definition with_sign_ctx (x : session) (c : sign_verify_context) : session :=
  mkSess (session_info x) (find_list x) (find_count x) (find_idx x) (op_active x) c.
