(* ===== verification/P11Objects.v ===== *)
(** * Token objects (objects.c, second half)

    The list of token objects is read once from the secure-key library: every
    RSA key pair becomes a public and a private key object, every RSA public
    key a public key object, each with the attributes the library reports and
    the defaults of its class.  Searches and attribute reads work on that list. *)

From stdpp Require Import base numbers list gmap.
From S2P Require Import Prelude SkTypes AttrCodec P11Types P11Template P11State P11Sessions.

Definition rsa_pub_attr_type : list Z :=
  [SK_ATTR_OBJECT_LABEL; SK_ATTR_OBJECT_INDEX; SK_ATTR_MODULUS; SK_ATTR_PUBLIC_EXPONENT;
   SK_ATTR_MODULUS_BITS].
Definition rsa_priv_attr_type : list Z :=
  [SK_ATTR_OBJECT_LABEL; SK_ATTR_OBJECT_INDEX; SK_ATTR_MODULUS; SK_ATTR_PUBLIC_EXPONENT].

(** ** Searching *)

(** The first [ulCount] elements of the caller's template. *)
Definition ck_prefix (pTemplate : option (list CK_ATTRIBUTE)) (ulCount : Z)
  : outcome (option (list CK_ATTRIBUTE)) :=
  match pTemplate with
  | None => Ret None
  | Some l => guard_c (ulCount <=? Z.of_nat (length l));; Ret (Some (take (Z.to_nat ulCount) l))
  end.

(** [object_handle[i] = h]: the array has [length block] elements. *)
Definition store_handle (block : list Z) (i h : Z) : outcome (list Z) :=
  guard_c (i <? Z.of_nat (length block));; Ret (<[Z.to_nat i := h]> block).

(** Both loops of [find_matching_objects]: [test] is [None] when [ulCount] is
    zero and every object is taken. *)
Fixpoint find_matching_loop (test : option (option (list CK_ATTRIBUTE)))
    (l : list (Z * OBJECT)) (i : Z) (block : list Z) : outcome (list Z * Z) :=
  match l with
  | [] => Ret (block, i)
  | (h, obj) :: rest =>
      ret ← match test with
            | Some pTemplate => p11_template_compare pTemplate (template_list obj)
            | None => Ret true
            end;
      if ret : bool then
        block ← store_handle block i h;
        if MAX_FIND_LIST_OBJECTS <? i + 1 then Ret (block, i + 1)
        else find_matching_loop test rest (i + 1) block
      else find_matching_loop test rest i block
  end.

(** The handle array after the call and [*pobjCount]; the code is CKR_OK. *)
Definition find_matching_objects (object_handle : list Z) (l : list (Z * OBJECT))
    (pTemplate : option (list CK_ATTRIBUTE)) (ulCount : Z) : outcome (list Z * Z) :=
  if negb (ulCount =? 0) then
    t ← ck_prefix pTemplate ulCount;
    find_matching_loop (Some t) l 0 object_handle
  else find_matching_loop None l 0 object_handle.

Section Objects.
Context {T : Type} `{Allocator, Indet, SK_FUNCTION_LIST T}.

(** ** The object list *)

Definition initialize_object_list (slotID : Z) : st (lib T) Z :=
  if negb (get_object_list slotID) then mret CKR_ARGUMENTS_BAD
  else modify (set_objs []);; mret CKR_OK.

(** Frees every node with its template. *)
Definition destroy_object_list (slotID : Z) : st (lib T) Z :=
  if negb (get_object_list slotID) then mret CKR_ARGUMENTS_BAD
  else
    l ← gets objs;
    free_nodes (l.*1);;
    modify (set_objs []);;
    mret CKR_OK.

Definition is_object_handle_valid (hObject slotID : Z) : st (lib T) bool :=
  if negb (get_object_list slotID) then mret false
  else gets (fun s => existsb (fun temp => temp.1 =? hObject) (objs s)).

(** The object a handle points to. *)
Definition object_at (hObject : Z) : st (lib T) OBJECT := fun s =>
  match assoc hObject (objs s) with Some x => Ret (x, s) | None => Undef end.

(** ** Reading attributes *)

(** The [for] loop of [get_attr_value] over the caller's template: the result
    code after it and the template as it was left. *)
Fixpoint get_attr_loop (obj_tmpl : list CK_ATTRIBUTE) (pTemplate : list CK_ATTRIBUTE) (ret : Z)
  : outcome (Z * list CK_ATTRIBUTE) :=
  match pTemplate with
  | [] => Ret (ret, [])
  | x :: rest =>
      let unavailable := mkCK (ck_type x) (pValue x) CK_ULONG_MINUS_1 in
      flag ← check_attr_exportability obj_tmpl (ck_type x);
      '(ret, x') ←
        (if negb flag then Ret (CKR_ATTRIBUTE_SENSITIVE, unavailable)
         else match p11_template_check_attr obj_tmpl (ck_type x) with
         | None => Ret (CKR_ATTRIBUTE_TYPE_INVALID, unavailable)
         | Some attr =>
             match pValue x with
             | None => Ret (ret, mkCK (ck_type x) None (ulValueLen attr))
             | Some m =>
                 if ulValueLen attr <=? ulValueLen x then
                   v ← mem_read (pValue attr) (ulValueLen attr);
                   m' ← mem_store (Some m) v;
                   Ret (ret, mkCK (ck_type x) m' (ulValueLen attr))
                 else Ret (CKR_BUFFER_TOO_SMALL, unavailable)
             end
         end);
      '(ret, rest') ← get_attr_loop obj_tmpl rest ret;
      Ret (ret, x' :: rest')
  end.

(** The result code and the caller's template after the call. *)
Definition get_attr_value (hSession hObject : Z) (pTemplate : option (list CK_ATTRIBUTE)) (ulCount : Z)
  : st (lib T) (Z * option (list CK_ATTRIBUTE)) :=
  match pTemplate with
  | None => mret (CKR_ARGUMENTS_BAD, None)
  | Some l =>
      if ulCount =? 0 then mret (CKR_ARGUMENTS_BAD, pTemplate)
      else
        v ← is_session_valid hSession;
        if negb v then mret (CKR_SESSION_HANDLE_INVALID, pTemplate)
        else
          sess ← get_session hSession;
          match sess with
          | None => mret (CKR_SESSION_HANDLE_INVALID, pTemplate)
          | Some sp =>
              sess ← session_at sp;
              ok ← is_object_handle_valid hObject (si_slotID (session_info sess));
              if negb ok then mret (CKR_OBJECT_HANDLE_INVALID, pTemplate)
              else
                obj ← object_at hObject;
                p ← lift (ck_prefix (Some l) ulCount);
                '(ret, l') ← lift (get_attr_loop (template_list obj) (default [] p) CKR_OK);
                mret (ret, Some (l' ++ drop (Z.to_nat ulCount) l))
          end
  end.

(** ** Reading the token *)

(** An allocation whose block the caller releases itself. *)
Definition malloc_tmp : st (lib T) bool := fun s =>
  let '(ok, h) := mallocs 1 (hp s) in Ret (ok, set_hp h s).

(** A template operation on the heap of the state. *)
Definition on_heap {A} (f : heap -> outcome (Z * A * heap)) : st (lib T) (Z * A) := fun s =>
  match f (hp s) with
  | Ret (rc, a, h) => Ret ((rc, a), set_hp h s)
  | Undef => Undef
  end.

(** The loop of [object_add_template] over the attributes the library reported. *)
Fixpoint object_add_loop (obj : OBJECT) (temp_sk_attr : list SK_ATTRIBUTE) : st (lib T) (Z * OBJECT) :=
  match temp_sk_attr with
  | [] => mret (CKR_OK, obj)
  | x :: rest =>
      if i16 (sa_valueLen x) =? -1 then object_add_loop obj rest
      else
        ok ← malloc_tmp;
        if negb ok then mret (CKR_HOST_MEMORY, obj)
        else
          let sk_attr := mkSK (sa_type x) (Some (indet (sa_valueLen x))) (sa_valueLen x) in
          '(ret, l) ← call_sk (SK_GetObjectAttribute (sk_obj_handle obj) [sk_attr]);
          if negb (ret =? SKR_OK) then mret (CKR_GENERAL_ERROR, obj)
          else
            sk_attr ← lift (deref (head l));
            '(rc, ck_attr) ← on_heap (map_sk_to_pkcs_attr sk_attr);
            if negb (rc =? CKR_OK) then mret (CKR_GENERAL_ERROR, obj)
            else
              ck_attr ← lift (deref ck_attr);
              '(rc, obj) ← on_heap (p11_template_add_attr obj [ck_attr]);
              if negb (rc =? CKR_OK) then mret (rc, obj)
              else object_add_loop obj rest
  end.

Definition object_add_template (obj : OBJECT) (sk_attr_type : list Z) : st (lib T) (Z * OBJECT) :=
  fl ← get_slot_function_list (o_slotID obj);
  if negb fl then mret (CKR_ARGUMENTS_BAD, obj)
  else
    let temp_sk_attr := (fun ty => mkSK ty None 0) <$> sk_attr_type in
    '(ret, temp_sk_attr) ← call_sk (SK_GetObjectAttribute (sk_obj_handle obj) temp_sk_attr);
    if negb (ret =? SKR_OK) then mret (CKR_GENERAL_ERROR, obj)
    else object_add_loop obj temp_sk_attr.

(** A new node with the attributes of the token object; class and subclass are
    still zero. *)
Definition create_rsa_pub_key_object (hObject slotID : Z) : st (lib T) (Z * option (Z * OBJECT)) :=
  a ← malloc_node;
  match a with
  | None => mret (CKR_HOST_MEMORY, None)
  | Some pub_key =>
      '(rc, obj) ← object_add_template (mkObj hObject 0 0 [] slotID) rsa_pub_attr_type;
      if negb (rc =? CKR_OK) then free_node pub_key;; mret (rc, None)
      else mret (CKR_OK, Some (pub_key, obj))
  end.

Definition create_rsa_priv_key_object (hObject slotID : Z) : st (lib T) (Z * option (Z * OBJECT)) :=
  a ← malloc_node;
  match a with
  | None => mret (CKR_HOST_MEMORY, None)
  | Some priv_key =>
      '(rc, obj) ← object_add_template (mkObj hObject 0 0 [] slotID) rsa_priv_attr_type;
      if negb (rc =? CKR_OK) then free_node priv_key;; mret (rc, None)
      else mret (CKR_OK, Some (priv_key, obj))
  end.

Definition set_class (obj : OBJECT) (class subclass : Z) : OBJECT :=
  mkObj (sk_obj_handle obj) class subclass (template_list obj) (o_slotID obj).

(** The lines that follow each [create_rsa_*_key_object] call: class, default
    attributes, insertion at the head of the list. *)
Definition insert_key_object (class : Z) (created : Z * option (Z * OBJECT)) : st (lib T) Z :=
  let '(rc, node) := created in
  if negb (rc =? CKR_OK) then mret rc
  else
    '(a, obj) ← lift (deref node);
    '(rc, obj) ← on_heap (fun h => Ret (p11_template_add_default_attr (set_class obj class CKK_RSA) h));
    if negb (rc =? CKR_OK) then mret rc
    else l ← gets objs; modify (set_objs ((a, obj) :: l));; mret CKR_OK.

(** The body of the loop for one token object whose type and key type are known. *)
Definition add_token_object (h obj_type key_type slotID : Z) : st (lib T) Z :=
  if obj_type =? SK_KEY_PAIR then
    if key_type =? SKK_RSA then
      created ← create_rsa_pub_key_object h slotID;
      rc ← insert_key_object CKO_PUBLIC_KEY created;
      if negb (rc =? CKR_OK) then mret rc
      else
        created ← create_rsa_priv_key_object h slotID;
        insert_key_object CKO_PRIVATE_KEY created
    else mret CKR_OK
  else if obj_type =? SK_PUBLIC_KEY then
    if key_type =? SKK_RSA then
      created ← create_rsa_pub_key_object h slotID;
      insert_key_object CKO_PUBLIC_KEY created
    else mret CKR_OK
  else mret CKR_OK.

(** The [for] loop; [obj_type] and [key_type] are the memory of the two
    variables the library fills in. *)
Fixpoint get_all_loop (handles : list Z) (obj_type key_type : list Z) (slotID : Z) : st (lib T) Z :=
  match handles with
  | [] => mret CKR_OK
  | h :: rest =>
      let temp_sk_attr := [mkSK SK_ATTR_OBJECT_TYPE (Some obj_type) 4;
                           mkSK SK_ATTR_KEY_TYPE (Some key_type) 4] in
      '(ret, l) ← call_sk (SK_GetObjectAttribute h temp_sk_attr);
      if negb (ret =? SKR_OK) then mret CKR_GENERAL_ERROR
      else
        a0 ← lift (deref (l !! 0%nat)); a1 ← lift (deref (l !! 1%nat));
        ot ← lift (mem_read (sa_value a0) 4); kt ← lift (mem_read (sa_value a1) 4);
        rc ← add_token_object h (le_val ot) (le_val kt) slotID;
        if negb (rc =? CKR_OK) then mret rc else get_all_loop rest ot kt slotID
  end.

Definition get_all_token_objects (slotID : Z) : st (lib T) Z :=
  fl ← get_slot_function_list slotID;
  if negb fl then mret CKR_ARGUMENTS_BAD
  else
    '(ret, handles) ← call_sk (SK_EnumerateObjects None 0 MAX_FIND_LIST_OBJECTS);
    if negb (ret =? SKR_OK) then mret CKR_GENERAL_ERROR
    else get_all_loop handles (indet 4) (indet 4) slotID.

End Objects.
