(* ===== verification/P11General.v ===== *)
(** * Global lock, slot set-up and tear-down (general.c)

    The lock functions on the [lock_state] of one calling thread: a lock that
    is already held, or an unlock of a mutex that is not, makes the [while]
    loops of the code spin forever, which is [Undef].  The dynamic loader is a
    parameter. *)

From stdpp Require Import base numbers list gmap.
From S2P Require Import Prelude SkTypes P11Types P11Template P11State P11Sessions P11Objects.

(** What [dlopen] and [dlsym] answer. *)
Class Loader := { dlopen_ok : bool; dlsym_ok : bool }.

(** [CK_C_INITIALIZE_ARGS]: the caller's [CreateMutex], if any, is given by its
    result code and whether it stores a mutex. *)
Record CK_C_INITIALIZE_ARGS := mkInit {
  CreateMutex : option (Z * bool);
  DestroyMutex : bool;
  LockMutex : bool;
  UnlockMutex : bool;
  ia_flags : Z;
  ia_pReserved : bool
}.

(** ** The lock *)

(** [lock_mutex] and [unlock_mutex] on a mutex that is held or free. *)
Definition lock_mutex (held : bool) : Z * bool :=
  if held then (CKR_GENERAL_ERROR, held) else (CKR_OK, true).
Definition unlock_mutex (held : bool) : Z * bool :=
  if held then (CKR_OK, false) else (CKR_GENERAL_ERROR, held).

Definition p11_global_lock (l : lock_state) : outcome lock_state :=
  match global_lock l with
  | None => Ret l
  | Some held =>
      match global_locking l with
      | None => Ret l
      | Some f =>
          let '(rc, held) := lock_mutex held in
          if rc =? CKR_OK then Ret (mkLock (Some held) (Some f)) else Undef
      end
  end.

(** [__p11_global_unlock] on a lock: the state of the mutex after it. *)
Definition __p11_global_unlock (lock : option bool) (locking : option locking)
  : outcome (option bool) :=
  match lock with
  | None => Ret None
  | Some held =>
      match locking with
      | None => Ret lock
      | Some _ =>
          let '(rc, held) := unlock_mutex held in
          if rc =? CKR_OK then Ret (Some held) else Undef
      end
  end.

Definition p11_global_unlock (l : lock_state) : outcome lock_state :=
  m ← __p11_global_unlock (global_lock l) (global_locking l);
  Ret (mkLock m (global_locking l)).

Definition p11_free_lock (l : lock_state) : outcome lock_state :=
  match global_lock l with
  | None => Ret l
  | Some held =>
      _ ← __p11_global_unlock (Some held) (global_locking l);
      Ret (mkLock None (global_locking l))
  end.

(** Which of the four functions the caller supplied, as the code's bit map. *)
Definition functions_map (p : CK_C_INITIALIZE_ARGS) : Z :=
  Z.lor (if CreateMutex p is Some _ then 1 else 0)
    (Z.lor (if DestroyMutex p then 2 else 0)
       (Z.lor (if LockMutex p then 4 else 0) (if UnlockMutex p then 8 else 0))).

Section General.
Context {T : Type} `{Allocator, Indet, SK_FUNCTION_LIST T, Loader}.

(** [global_locking->CreateMutex(&global_lock)]. *)
Definition create_global_lock (f : locking) (caller : option (Z * bool)) (s : lib T) : Z * lib T :=
  match f with
  | LockDefault =>
      let '(ok, h) := mallocs 1 (hp s) in
      if ok then (CKR_OK, set_hp h (set_lk (mkLock (Some false) (Some f)) s))
      else (CKR_GENERAL_ERROR, set_hp h (set_lk (mkLock None (Some f)) s))
  | LockCaller =>
      let '(rv, stored) := default (CKR_GENERAL_ERROR, false) caller in
      (rv, set_lk (mkLock (if stored : bool then Some false else None) (Some f)) s)
  end.

Definition p11_init_lock (pInitArgs : option CK_C_INITIALIZE_ARGS) : st (lib T) Z := fun s =>
  if global_lock (lk s) is Some _ then Ret (CKR_OK, s)
  else
    let s := set_lk (mkLock None None) s in
    match pInitArgs with
    | None => Ret (CKR_OK, s)
    | Some p =>
        if ia_pReserved p then Ret (CKR_ARGUMENTS_BAD, s)
        else
          let map := functions_map p in
          if negb (map =? 0) && negb (map =? 0x0f) then Ret (CKR_ARGUMENTS_BAD, s)
          else
            let os := negb (Z.land (ia_flags p) CKF_OS_LOCKING_OK =? 0) in
            let f := if negb os && (map =? 0) then None
                     else if os && (map =? 0) then Some LockDefault
                     else if negb os && negb (map =? 0) then Some LockCaller
                     else Some LockDefault in
            match f with
            | None => Ret (CKR_OK, s)
            | Some f => Ret (create_global_lock f (CreateMutex p) s)
            end
    end.

(** A lock operation on the state. *)
Definition on_lock (f : lock_state -> outcome lock_state) : st (lib T) unit := fun s =>
  match f (lk s) with Ret l => Ret (tt, set_lk l s) | Undef => Undef end.

(** ** The slot *)

Definition pkcs_lib_init : st (lib T) unit := modify (set_initialized true).
Definition pkcs_lib_finish : st (lib T) unit := modify (set_initialized false).
Definition is_lib_initialized : st (lib T) bool := gets initialized.

Definition set_lib (handle funcs opened : bool) : lib T -> lib T :=
  set_slot (fun i => mkSlot (slot_id i) (obj_list i) (sess_list i) funcs handle opened).

(** A failed [dlopen] gives null; a success loads the library. *)
Definition open_shared_lib : st (lib T) bool := fun s =>
  if dlopen_ok
  then Ret (true, set_lib (shared_lib_handle (slot s)) (sk_funcs (slot s)) true s)
  else Ret (false, s).

(** [dlclose] of a handle whose library is no longer loaded is undefined. *)
Definition close_shared_lib (handle : bool) : st (lib T) unit := fun s =>
  if handle then
    if lib_open (slot s) then Ret (tt, set_lib (shared_lib_handle (slot s)) (sk_funcs (slot s)) false s)
    else Undef
  else Ret (tt, s).

(** The C function's TRUE or FALSE. *)
Definition get_function_list (slotID : Z) : st (lib T) bool := fun s =>
  if negb dlsym_ok then Ret (false, s)
  else if negb (get_global_slot_info slotID) then Ret (false, s)
  else
    let '(rc, set) := SK_GetFunctionList true in
    let s := set_lib (shared_lib_handle (slot s)) (set || sk_funcs (slot s)) (lib_open (slot s)) s in
    if negb (rc =? SKR_OK) then Ret (false, s) else Ret (true, s).

Definition destroy_slot (slotID : Z) : st (lib T) Z :=
  if negb (slotID =? TEE_SLOT_ID) then mret CKR_GENERAL_ERROR
  else if negb (get_global_slot_info slotID) then mret CKR_GENERAL_ERROR
  else
    handle ← gets (fun s => shared_lib_handle (slot s));
    close_shared_lib handle;;
    rc ← destroy_object_list slotID;
    if negb (rc =? CKR_OK) then mret CKR_GENERAL_ERROR
    else
      rc ← destroy_session_list slotID;
      if negb (rc =? CKR_OK) then mret CKR_GENERAL_ERROR else mret CKR_OK.

Definition initialize_slot (slotID : Z) : st (lib T) Z :=
  if negb (slotID =? TEE_SLOT_ID) then mret CKR_ARGUMENTS_BAD
  else if negb (get_global_slot_info slotID) then mret CKR_GENERAL_ERROR
  else
    opened ← open_shared_lib;
    if negb opened then mret CKR_GENERAL_ERROR
    else
      modify (fun s => set_lib true (sk_funcs (slot s)) (lib_open (slot s)) s);;
      rc ← get_function_list slotID;
      if negb rc then mret CKR_GENERAL_ERROR
      else
        rc ← initialize_object_list slotID;
        if negb (rc =? CKR_OK) then mret CKR_GENERAL_ERROR
        else
          rc ← initialize_session_list slotID;
          if negb (rc =? CKR_OK) then mret CKR_GENERAL_ERROR else mret CKR_OK.

(** ** C_Initialize and C_Finalize (p11_general.c) *)

Definition C_Initialize (pInitArgs : option CK_C_INITIALIZE_ARGS) : st (lib T) Z :=
  i ← is_lib_initialized;
  if i : bool then mret CKR_CRYPTOKI_ALREADY_INITIALIZED
  else
    rc ← p11_init_lock pInitArgs;
    if negb (rc =? CKR_OK) then mret rc
    else
      on_lock p11_global_lock;;
      pkcs_lib_init;;
      rc ← initialize_slot TEE_SLOT_ID;
      rc ← (if negb (rc =? 0) then on_lock p11_free_lock;; mret CKR_GENERAL_ERROR else mret rc);
      on_lock p11_global_unlock;;
      mret rc.

Definition C_Finalize (pReserved : bool) : st (lib T) Z :=
  if pReserved then mret CKR_ARGUMENTS_BAD
  else
    on_lock p11_global_lock;;
    i ← is_lib_initialized;
    rc ← (if negb i then mret CKR_CRYPTOKI_NOT_INITIALIZED
          else rc ← destroy_slot TEE_SLOT_ID; pkcs_lib_finish;; mret rc);
    on_lock p11_free_lock;;
    mret rc.

(** The lock, the body of an entry point, and the unlock at its [end] label. *)
Definition locked {A} (body : st (lib T) A) : st (lib T) A :=
  on_lock p11_global_lock;;
  r ← body;
  on_lock p11_global_unlock;;
  mret r.

End General.
