(* ===== verification/P11Api.v ===== *)
(** * Entry points for slots, sessions and objects
    (tee_slot.c, p11_session_slot.c, p11_object.c)

    Every entry point takes the global lock, makes its checks in the order of
    the code, and releases the lock.  A pointer argument is an [option], [None]
    for null; what the call leaves behind it is part of the result. *)

From stdpp Require Import base numbers list gmap.
From stdpp Require Import strings.
From Stdlib Require Import Ascii.
From S2P Require Import Prelude SkTypes AttrCodec P11Types P11Template P11State P11Sessions.
From S2P Require Import P11Objects P11General.

(** ** The TEE slot (tee_slot.c) *)

(** The characters of a literal. *)
Definition chars (s : string) : list Z := (fun c => Z.of_nat (nat_of_ascii c)) <$> String.list_ascii_of_string s.

(** A field of [n] blanks with a text at its start. *)
Definition blank_padded (n : Z) (s : string) : list Z :=
  splice (replicate (Z.to_nat n) 32) 0 (chars s).

Record CK_SLOT_INFO := mkSlotInfo {
  slotDescription : list Z; sl_manufacturerID : list Z; sl_flags : Z;
  sl_hardwareVersion : Z * Z; sl_firmwareVersion : Z * Z }.

Definition Get_TEE_SlotInfo : CK_SLOT_INFO :=
  mkSlotInfo (blank_padded 64 "TEE_BASED_SLOT") (blank_padded 32 "NXP") CKF_TOKEN_PRESENT (0, 0) (0, 0).

Record CK_TOKEN_INFO := mkTokenInfo {
  tk_label : list Z; tk_manufacturerID : list Z; tk_model : list Z; serialNumber : list Z;
  tk_flags : Z;
  ulMaxSessionCount : Z; ulSessionCount : Z; ulMaxRwSessionCount : Z; ulRwSessionCount : Z;
  ulMaxPinLen : Z; ulMinPinLen : Z;
  ulTotalPublicMemory : Z; ulFreePublicMemory : Z; ulTotalPrivateMemory : Z; ulFreePrivateMemory : Z;
  tk_hardwareVersion : Z * Z; tk_firmwareVersion : Z * Z; utcTime : list Z }.

Definition Get_TEE_TokenInfo : CK_TOKEN_INFO :=
  mkTokenInfo (blank_padded 32 "TEE_BASED_TOKEN") (blank_padded 32 "NXP") (blank_padded 16 "")
    (blank_padded 16 "1") (Z.lor CKF_WRITE_PROTECTED CKF_TOKEN_INITIALIZED)
    CK_UNAVAILABLE_INFORMATION CK_UNAVAILABLE_INFORMATION CK_UNAVAILABLE_INFORMATION
    CK_UNAVAILABLE_INFORMATION 0 0
    CK_UNAVAILABLE_INFORMATION CK_UNAVAILABLE_INFORMATION CK_UNAVAILABLE_INFORMATION
    CK_UNAVAILABLE_INFORMATION (0, 0) (0, 0) (replicate 16 48).

Record CK_MECHANISM_INFO := mkMechInfo { ulMinKeySize : Z; ulMaxKeySize : Z; mi_flags : Z }.

Definition tee_mechanisms : list (Z * CK_MECHANISM_INFO) :=
  [(CKM_RSA_PKCS, mkMechInfo 512 2048 CKF_SIGN);
   (CKM_MD5_RSA_PKCS, mkMechInfo 512 2048 CKF_SIGN);
   (CKM_SHA1_RSA_PKCS, mkMechInfo 512 2048 CKF_SIGN);
   (CKM_SHA256_RSA_PKCS, mkMechInfo 512 2048 CKF_SIGN);
   (CKM_SHA384_RSA_PKCS, mkMechInfo 512 2048 CKF_SIGN);
   (CKM_SHA512_RSA_PKCS, mkMechInfo 512 2048 CKF_SIGN)].

(** Result code, the caller's list and its count. *)
Definition Get_TEE_MechanismList (pMechanismList : option (list Z)) (pulCount : Z)
  : outcome (Z * option (list Z) * Z) :=
  match pMechanismList with
  | None => Ret (CKR_OK, None, MAX_MECHANISM_COUNT)
  | Some l =>
      if pulCount <? MAX_MECHANISM_COUNT then Ret (CKR_BUFFER_TOO_SMALL, Some l, MAX_MECHANISM_COUNT)
      else
        guard_c (MAX_MECHANISM_COUNT <=? Z.of_nat (length l));;
        Ret (CKR_OK, Some (tee_mechanisms.*1 ++ drop (Z.to_nat MAX_MECHANISM_COUNT) l), MAX_MECHANISM_COUNT)
  end.

Definition Get_TEE_MechanismInfo (type : Z) : Z * option CK_MECHANISM_INFO :=
  match assoc type tee_mechanisms with
  | Some info => (CKR_OK, Some info)
  | None => (CKR_MECHANISM_INVALID, None)
  end.

Section Api.
Context {T : Type} `{Allocator, Indet, SK_FUNCTION_LIST T, Loader}.

(** The check every entry point starts with. *)
Definition when_initialized {A} (err : Z -> A) (body : st (lib T) A) : st (lib T) A :=
  i ← is_lib_initialized;
  if negb i then mret (err CKR_CRYPTOKI_NOT_INITIALIZED) else body.

(** ** Slots and tokens (p11_session_slot.c) *)

(** Result code, slot list and count; [None] for a null [pulCount]. *)
Definition C_GetSlotList (pSlotList : option (list Z)) (pulCount : option Z)
  : st (lib T) (Z * option (list Z) * option Z) :=
  locked (when_initialized (fun rc => (rc, pSlotList, pulCount))
    match pulCount with
    | None => mret (CKR_ARGUMENTS_BAD, pSlotList, None)
    | Some count =>
        match pSlotList with
        | None => mret (CKR_OK, None, Some SLOT_COUNT)
        | Some l =>
            if SLOT_COUNT <=? count then
              lift (guard_c (0 <? Z.of_nat (length l)));;
              modify (set_slot (fun i => mkSlot TEE_SLOT_ID (obj_list i) (sess_list i) (sk_funcs i)
                                           (shared_lib_handle i) (lib_open i)));;
              mret (CKR_OK, Some (<[0%nat := TEE_SLOT_ID]> l), Some SLOT_COUNT)
            else mret (CKR_BUFFER_TOO_SMALL, Some l, Some SLOT_COUNT)
        end
    end).

(** The three queries by slot: result code and the information stored. *)
Definition C_GetSlotInfo (slotID : Z) (pInfo : bool) : st (lib T) (Z * option CK_SLOT_INFO) :=
  locked (when_initialized (fun rc => (rc, None))
    (if negb pInfo then mret (CKR_ARGUMENTS_BAD, None)
     else if slotID =? TEE_SLOT_ID then mret (CKR_OK, Some Get_TEE_SlotInfo)
     else mret (CKR_SLOT_ID_INVALID, None))).

Definition C_GetTokenInfo (slotID : Z) (pInfo : bool) : st (lib T) (Z * option CK_TOKEN_INFO) :=
  locked (when_initialized (fun rc => (rc, None))
    (if negb pInfo then mret (CKR_ARGUMENTS_BAD, None)
     else if slotID =? TEE_SLOT_ID then mret (CKR_OK, Some Get_TEE_TokenInfo)
     else mret (CKR_SLOT_ID_INVALID, None))).

Definition C_GetMechanismList (slotID : Z) (pMechanismList : option (list Z)) (pulCount : option Z)
  : st (lib T) (Z * option (list Z) * option Z) :=
  locked (when_initialized (fun rc => (rc, pMechanismList, pulCount))
    match pulCount with
    | None => mret (CKR_ARGUMENTS_BAD, pMechanismList, None)
    | Some count =>
        if slotID =? TEE_SLOT_ID then
          '(rc, l, n) ← lift (Get_TEE_MechanismList pMechanismList count);
          mret (rc, l, Some n)
        else mret (CKR_SLOT_ID_INVALID, pMechanismList, pulCount)
    end).

Definition C_GetMechanismInfo (slotID type : Z) (pInfo : bool)
  : st (lib T) (Z * option CK_MECHANISM_INFO) :=
  locked (when_initialized (fun rc => (rc, None))
    (if negb pInfo then mret (CKR_ARGUMENTS_BAD, None)
     else if slotID =? TEE_SLOT_ID then mret (Get_TEE_MechanismInfo type)
     else mret (CKR_SLOT_ID_INVALID, None))).

(** ** Sessions (p11_session_slot.c) *)

(** Result code and the handle stored in [*phSession]. *)
Definition C_OpenSession (slotID flags : Z) (phSession : bool) : st (lib T) (Z * option Z) :=
  locked (when_initialized (fun rc => (rc, None))
    (if negb phSession then mret (CKR_ARGUMENTS_BAD, None)
     else if negb (Z.land flags CKF_RW_SESSION =? 0) then mret (CKR_ARGUMENTS_BAD, None)
     else if Z.land flags CKF_SERIAL_SESSION =? 0
       then mret (CKR_SESSION_PARALLEL_NOT_SUPPORTED, None)
     else if negb (slotID =? TEE_SLOT_ID) then mret (CKR_SLOT_ID_INVALID, None)
     else create_session slotID flags)).

Definition C_CloseSession (hSession : Z) : st (lib T) Z :=
  locked (when_initialized id
    (v ← is_session_valid hSession;
     if negb v then mret CKR_SESSION_HANDLE_INVALID else delete_session hSession)).

Definition C_CloseAllSessions (slotID : Z) : st (lib T) Z :=
  locked (when_initialized id (destroy_session_list slotID)).

Definition C_GetSessionInfo (hSession : Z) (pInfo : bool) : st (lib T) (Z * option CK_SESSION_INFO) :=
  locked (when_initialized (fun rc => (rc, None))
    (v ← is_session_valid hSession;
     if negb v then mret (CKR_SESSION_HANDLE_INVALID, None)
     else if negb pInfo then mret (CKR_ARGUMENTS_BAD, None)
     else '(rc, info) ← get_session_info hSession; mret (rc, Some info))).

(** The two tests on a session handle that the remaining entry points make,
    and what they do with the session they get. *)
Definition with_session {A} (hSession : Z) (err : Z -> A) (body : Z -> st (lib T) A) : st (lib T) A :=
  v ← is_session_valid hSession;
  if negb v then mret (err CKR_SESSION_HANDLE_INVALID)
  else
    sess ← get_session hSession;
    match sess with
    | None => mret (err CKR_SESSION_HANDLE_INVALID)
    | Some sp => body sp
    end.

(** ** Objects (p11_object.c) *)

Definition C_GetAttributeValue (hSession hObject : Z) (pTemplate : option (list CK_ATTRIBUTE)) (ulCount : Z)
  : st (lib T) (Z * option (list CK_ATTRIBUTE)) :=
  locked (when_initialized (fun rc => (rc, pTemplate))
    (get_attr_value hSession hObject pTemplate ulCount)).

(** The find list of the session: its block, allocated when there is none. *)
Definition find_block (sess : session) : st (lib T) (option Z) :=
  match find_list sess with
  | Some a => mret (Some a)
  | None =>
      a ← malloc_node;
      match a with
      | None => mret None
      | Some a =>
          b ← gets blocks;
          modify (set_blocks (<[a := replicate (Z.to_nat MAX_FIND_LIST_OBJECTS) 0]> b));;
          mret (Some a)
      end
  end.

(** The write of the matching handles through the find list.  An address whose
    block was released can still be passed; only a write through it is
    undefined. *)
Definition find_into (a : Z) (pTemplate : option (list CK_ATTRIBUTE)) (ulCount : Z) : st (lib T) Z := fun s =>
  match blocks s !! a with
  | Some block =>
      match find_matching_objects block (objs s) pTemplate ulCount with
      | Ret (block, count) => Ret (count, set_blocks (<[a := block]> (blocks s)) s)
      | Undef => Undef
      end
  | None =>
      match find_matching_objects [] (objs s) pTemplate ulCount with
      | Ret (_, count) => Ret (count, s)
      | Undef => Undef
      end
  end.

Definition C_FindObjectsInit (hSession : Z) (pTemplate : option (list CK_ATTRIBUTE)) (ulCount : Z)
  : st (lib T) Z :=
  locked (when_initialized id
    (if bool_decide (pTemplate = None) && (0 <? ulCount) then mret CKR_ARGUMENTS_BAD
     else with_session hSession id (fun sp =>
       sess ← session_at sp;
       if op_active sess then mret CKR_OPERATION_ACTIVE
       else if negb (get_object_list (si_slotID (session_info sess))) then mret CKR_ARGUMENTS_BAD
       else
         l ← gets objs;
         rc ← match l with
              | [] => get_all_token_objects (si_slotID (session_info sess))
              | _ => mret CKR_OK
              end;
         if negb (rc =? CKR_OK) then mret rc
         else
           fl ← find_block sess;
           match fl with
           | None => mret CKR_HOST_MEMORY
           | Some a =>
               count ← find_into a pTemplate ulCount;
               set_session sp (with_find sess (Some a) count 0 true);;
               mret CKR_OK
           end))).

(** [memcpy] of [count] handles from [find_list + idx]. *)
Definition read_handles (fl : option Z) (idx count : Z) : st (lib T) (list Z) := fun s =>
  if count =? 0 then Ret ([], s)
  else match fl ≫= fun a => blocks s !! a with
  | Some block =>
      if idx + count <=? Z.of_nat (length block)
      then Ret (take (Z.to_nat count) (drop (Z.to_nat idx) block), s)
      else Undef
  | None => Undef
  end.

(** Result code and, on success, the handles stored in the caller's array;
    [*pulObjectCount] is their number. *)
Definition C_FindObjects (hSession : Z) (phObject : bool) (ulMaxObjectCount : Z) (pulObjectCount : bool)
  : st (lib T) (Z * option (list Z)) :=
  locked (when_initialized (fun rc => (rc, None))
    (with_session hSession (fun rc => (rc, None)) (fun sp =>
       sess ← session_at sp;
       if negb (op_active sess) then mret (CKR_OPERATION_NOT_INITIALIZED, None)
       else if negb phObject || negb pulObjectCount then mret (CKR_ARGUMENTS_BAD, None)
       else
         let count := Z.min (u64 ulMaxObjectCount) (u64 (find_count sess - find_idx sess)) in
         hs ← read_handles (find_list sess) (find_idx sess) count;
         set_session sp (with_find sess (find_list sess) (find_count sess)
                           (u64 (find_idx sess + count)) (op_active sess));;
         mret (CKR_OK, Some hs)))).

(** [memset] of the find list and its release: undefined when it was released
    before. *)
Definition release_block (fl : option Z) : st (lib T) unit := fun s =>
  match fl with
  | None => Ret (tt, s)
  | Some a =>
      match blocks s !! a with
      | Some _ => Ret (tt, set_hp (free a (hp s)) (set_blocks (delete a (blocks s)) s))
      | None => Undef
      end
  end.

(** The address of the released list stays in the session. *)
Definition C_FindObjectsFinal (hSession : Z) : st (lib T) Z :=
  locked (when_initialized id
    (with_session hSession id (fun sp =>
       sess ← session_at sp;
       if negb (op_active sess) then mret CKR_OPERATION_NOT_INITIALIZED
       else
         set_session sp (with_find sess (find_list sess) 0 0 false);;
         release_block (find_list sess);;
         mret CKR_OK))).

End Api.
