(* ===== verification/P11Info.v ===== *)
(** * Library information and the function list (p11_general.c)

    The static [cryptoki_info], filled by the first C_GetInfo, and the static
    [global_function_list], filled by C_GetFunctionList.  A function pointer is the
    name of the function it points to. *)

From stdpp Require Import base numbers list gmap.
From stdpp Require Import strings.
From S2P Require Import Prelude SkTypes P11Types P11State P11General P11Api.
Local Open Scope string_scope.
Local Open Scope Z_scope.

Definition CRYPTOKI_VERSION_MAJOR : Z := 2.
Definition CRYPTOKI_VERSION_MINOR : Z := 40.

Record CK_INFO := mkCKInfo {
  cryptokiVersion : Z * Z; ci_manufacturerID : list Z; ci_flags : Z;
  libraryDescription : list Z; libraryVersion : Z * Z }.

(** The static before the first call. *)
Definition cryptoki_info_zero : CK_INFO := mkCKInfo (0, 0) (replicate 32 0) 0 (replicate 32 0) (0, 0).
Definition cryptoki_info_filled : CK_INFO :=
  mkCKInfo (CRYPTOKI_VERSION_MAJOR, CRYPTOKI_VERSION_MINOR) (blank_padded 32 "NXP") 0 (blank_padded 32 "libpkcs11") (1, 0).

Section Info.
Context {T : Type}.

(** Result code, what was copied to [*pInfo], and the static afterwards. *)
Definition C_GetInfo (pInfo : bool) (cryptoki_info : CK_INFO) : st (lib T) (Z * option CK_INFO * CK_INFO) :=
  if negb pInfo then mret (CKR_ARGUMENTS_BAD, None, cryptoki_info)
  else
    locked (i ← is_lib_initialized;
      if negb i then mret (CKR_CRYPTOKI_NOT_INITIALIZED, None, cryptoki_info)
      else
        let info := if default 0 (head (ci_manufacturerID cryptoki_info)) =? 0 then cryptoki_info_filled
                    else cryptoki_info in
        mret (CKR_OK, Some info, info)).
End Info.

(** The members of [CK_FUNCTION_LIST] (pkcs11f.h). *)
Definition function_members : list string :=
  ["C_Initialize"; "C_Finalize"; "C_GetInfo"; "C_GetFunctionList"; "C_GetSlotList";
   "C_GetSlotInfo"; "C_GetTokenInfo"; "C_GetMechanismList"; "C_GetMechanismInfo"; "C_InitToken";
   "C_InitPIN"; "C_SetPIN"; "C_OpenSession"; "C_CloseSession"; "C_CloseAllSessions";
   "C_GetSessionInfo"; "C_GetOperationState"; "C_SetOperationState"; "C_Login"; "C_Logout";
   "C_CreateObject"; "C_CopyObject"; "C_DestroyObject"; "C_GetObjectSize"; "C_GetAttributeValue";
   "C_SetAttributeValue"; "C_FindObjectsInit"; "C_FindObjects"; "C_FindObjectsFinal";
   "C_EncryptInit"; "C_Encrypt"; "C_EncryptUpdate"; "C_EncryptFinal"; "C_DecryptInit"; "C_Decrypt";
   "C_DecryptUpdate"; "C_DecryptFinal"; "C_DigestInit"; "C_Digest"; "C_DigestUpdate";
   "C_DigestKey"; "C_DigestFinal"; "C_SignInit"; "C_Sign"; "C_SignUpdate"; "C_SignFinal";
   "C_SignRecoverInit"; "C_SignRecover"; "C_VerifyInit"; "C_Verify"; "C_VerifyUpdate";
   "C_VerifyFinal"; "C_VerifyRecoverInit"; "C_VerifyRecover"; "C_DigestEncryptUpdate";
   "C_DecryptDigestUpdate"; "C_SignEncryptUpdate"; "C_DecryptVerifyUpdate"; "C_GenerateKey";
   "C_GenerateKeyPair"; "C_WrapKey"; "C_UnwrapKey"; "C_DeriveKey"; "C_SeedRandom";
   "C_GenerateRandom"; "C_GetFunctionStatus"; "C_CancelFunction"; "C_WaitForSlotEvent"].

(** The assignments of C_GetFunctionList. *)
Definition function_assignments : list (string * string) :=
  [("C_Initialize", "C_Initialize"); ("C_Finalize", "C_Finalize"); ("C_GetInfo", "C_GetInfo");
   ("C_GetFunctionList", "C_GetFunctionList"); ("C_GetSlotList", "C_GetSlotList");
   ("C_GetSlotInfo", "C_GetSlotInfo"); ("C_GetTokenInfo", "C_GetTokenInfo");
   ("C_GetMechanismList", "C_GetMechanismList"); ("C_GetMechanismInfo", "C_GetMechanismInfo");
   ("C_InitToken", "C_InitToken"); ("C_InitPIN", "C_InitPIN"); ("C_SetPIN", "C_SetPIN");
   ("C_OpenSession", "C_OpenSession"); ("C_CloseSession", "C_CloseSession");
   ("C_CloseAllSessions", "C_CloseAllSessions"); ("C_GetSessionInfo", "C_GetSessionInfo");
   ("C_GetOperationState", "C_GetOperationState"); ("C_SetOperationState", "C_SetOperationState");
   ("C_Login", "C_Login"); ("C_Logout", "C_Logout"); ("C_CreateObject", "C_CreateObject");
   ("C_CopyObject", "C_CopyObject"); ("C_DestroyObject", "C_DestroyObject");
   ("C_GetObjectSize", "C_GetObjectSize"); ("C_GetAttributeValue", "C_GetAttributeValue");
   ("C_SetAttributeValue", "C_SetAttributeValue"); ("C_FindObjectsInit", "C_FindObjectsInit");
   ("C_FindObjects", "C_FindObjects"); ("C_FindObjectsFinal", "C_FindObjectsFinal");
   ("C_EncryptInit", "C_EncryptInit"); ("C_Encrypt", "C_Encrypt");
   ("C_EncryptUpdate", "C_EncryptUpdate"); ("C_EncryptFinal", "C_EncryptFinal");
   ("C_DecryptInit", "C_DecryptInit"); ("C_Decrypt", "C_Decrypt");
   ("C_DecryptUpdate", "C_DecryptUpdate"); ("C_DecryptFinal", "C_DecryptFinal");
   ("C_DigestInit", "C_DigestInit"); ("C_Digest", "C_Digest");
   ("C_DigestUpdate", "C_DigestUpdate"); ("C_DigestKey", "C_DigestKey");
   ("C_DigestFinal", "C_DigestFinal"); ("C_SignInit", "C_SignInit"); ("C_Sign", "C_Sign");
   ("C_SignUpdate", "C_SignUpdate"); ("C_SignFinal", "C_SignFinal");
   ("C_SignRecoverInit", "C_SignRecoverInit"); ("C_SignRecover", "C_SignRecover");
   ("C_VerifyInit", "C_VerifyInit"); ("C_Verify", "C_Verify");
   ("C_VerifyUpdate", "C_VerifyUpdate"); ("C_VerifyFinal", "C_VerifyFinal");
   ("C_VerifyRecoverInit", "C_VerifyRecoverInit"); ("C_VerifyRecover", "C_VerifyRecover");
   ("C_DigestEncryptUpdate", "C_DigestEncryptUpdate");
   ("C_DecryptDigestUpdate", "C_DecryptDigestUpdate");
   ("C_SignEncryptUpdate", "C_SignEncryptUpdate");
   ("C_DecryptVerifyUpdate", "C_DecryptVerifyUpdate"); ("C_GenerateKey", "C_GenerateKey");
   ("C_GenerateKeyPair", "C_GenerateKeyPair"); ("C_WrapKey", "C_WrapKey");
   ("C_UnwrapKey", "C_UnwrapKey"); ("C_DeriveKey", "C_DeriveKey");
   ("C_SeedRandom", "C_SeedRandom"); ("C_GenerateRandom", "C_GenerateRandom");
   ("C_GetFunctionStatus", "C_GetFunctionStatus"); ("C_CancelFunction", "C_CancelFunction");
   ("C_WaitForSlotEvent", "C_WaitForSlotEvent")].

(** The version and the members of the static: [None] for a null pointer. *)
Record CK_FUNCTION_LIST := mkFunctionList { fl_version : Z * Z; fl_members : gmap string string }.
Definition function_list_zero : CK_FUNCTION_LIST := mkFunctionList (0, 0) ∅.

(** Result code and the static afterwards. *)
Definition C_GetFunctionList (ppFunctionList : bool) (l : CK_FUNCTION_LIST) : Z * CK_FUNCTION_LIST :=
  if negb ppFunctionList then (CKR_ARGUMENTS_BAD, l)
  else (CKR_OK, mkFunctionList (0x2, 0x28) (foldl (fun m p => <[p.1 := p.2]> m) (fl_members l) function_assignments)).

Definition C_GetFunctionStatus (hSession : Z) : Z := CKR_FUNCTION_NOT_PARALLEL.
Definition C_CancelFunction (hSession : Z) : Z := CKR_FUNCTION_NOT_PARALLEL.

(** ** Properties *)

Lemma assigned_last (l : list (string * string)) (m : gmap string string) (k : string) :
  foldl (fun m p => <[p.1 := p.2]> m) m l !! k = match list_to_map (M := gmap string string) (reverse l) !! k with
    Some v => Some v | None => m !! k end.
Proof.
  revert m. induction l as [|[x y] l IH]; intros m; [reflexivity |]. cbn [foldl]. rewrite IH, reverse_cons.
  rewrite list_to_map_app. rewrite lookup_union. destruct (list_to_map (reverse l) !! k) as [v|]; [by rewrite union_Some_l |].
  rewrite left_id by apply _. cbn. destruct (decide (k = x)) as [-> | Hne]; [by rewrite !lookup_insert_eq |].
  by rewrite !lookup_insert_ne, lookup_empty by done.
Qed.

(** After C_GetFunctionList every member of the structure points to the function of
    its name, whatever it held before. *)
Lemma function_list_complete (l : CK_FUNCTION_LIST) k : k ∈ function_members ->
  fl_members (C_GetFunctionList true l).2 !! k = Some k.
Proof.
  intros Hk. cbn [C_GetFunctionList negb snd fl_members]. rewrite assigned_last.
  assert (Hall : Forall (fun k => list_to_map (M := gmap string string) (reverse function_assignments) !! k = Some k) function_members)
    by decide_c.
  rewrite Forall_forall in Hall. by rewrite (Hall k Hk).
Qed.

(** On an initialised library C_GetInfo gives the same information on every call. *)
Lemma get_info_stable {T} (s : lib T) l : initialized s = true -> p11_global_lock (lk s) = Ret l -> p11_global_unlock l = Ret (lk s) ->
  C_GetInfo true cryptoki_info_zero s = Ret ((CKR_OK, Some cryptoki_info_filled, cryptoki_info_filled), s) /\
  C_GetInfo true cryptoki_info_filled s = Ret ((CKR_OK, Some cryptoki_info_filled, cryptoki_info_filled), s).
Proof.
  intros Hi Hl Hu. destruct s as [ini l0 sl bl h t]. cbn in *. subst ini.
  unfold C_GetInfo, locked, mbind, st_bind, on_lock, is_lib_initialized, gets. cbn. rewrite Hl. cbn. rewrite Hu. split; reflexivity.
Qed.
