(* ===== verification/P11Crypto.v ===== *)
(** * Signing (crypto.c and the signing entry points of p11_crypto.c)

    [sign_init] checks the key's attributes against the mechanism and records
    both in the session; [sign] runs the raw PKCS#1 v1.5 signature as a private
    key operation of the secure-key library, or a digest followed by a
    signature, and ends the operation.  Lengths are [CK_ULONG]s that the code
    hands to the secure-key library as 16-bit values. *)

From stdpp Require Import base numbers list gmap.
From S2P Require Import Prelude SkTypes AttrCodec P11Types P11Template P11State P11Sessions.
From S2P Require Import P11Objects P11General P11Api.

(** The 16-bit store through [(uint16_t * )pulLen]: the low half of the cell. *)
Definition store_u16 (cell v : Z) : Z := cell - u16 cell + u16 v.

Section Crypto.
Context {T : Type} `{Allocator, Indet, SK_FUNCTION_LIST T, Loader}.

(** The six RSA mechanisms [sign_init] accepts. *)
Definition rsa_sign_mechs : list Z :=
  [CKM_RSA_PKCS; CKM_MD5_RSA_PKCS; CKM_SHA1_RSA_PKCS; CKM_SHA256_RSA_PKCS;
   CKM_SHA384_RSA_PKCS; CKM_SHA512_RSA_PKCS].

(** The search for the mechanism in the [ulValueLen / 8] entries read. *)
Fixpoint mech_allowed (mechanism : Z) (n : nat) (mem : list Z) : bool :=
  match n with
  | O => false
  | S n' => if mechanism =? le_val (take 8 mem) then true else mech_allowed mechanism n' (drop 8 mem)
  end.

Definition set_ctx (hSession : Z) (c : sign_verify_context) : st (lib T) unit :=
  sess ← session_at hSession;
  set_session hSession (with_sign_ctx sess c).

(** The tests on the mechanism and on the key after its attributes were read:
    CKR_OK when the operation can start. *)
Definition check_sign_key (mech : CK_MECHANISM) (sign keytype class : Z) (mechs : CK_ATTRIBUTE) : Z :=
  if negb (sign =? 1) then CKR_KEY_FUNCTION_NOT_PERMITTED
  else if negb (mech_allowed (ckm_mechanism mech) (Z.to_nat (ulValueLen mechs / 8))
                  (default [] (pValue mechs))) then CKR_MECHANISM_INVALID
  else if bool_decide (ckm_mechanism mech ∈ rsa_sign_mechs) then
    if negb (ckm_paramLen mech =? 0) then CKR_MECHANISM_PARAM_INVALID
    else if negb (keytype =? CKK_RSA) then CKR_KEY_TYPE_INCONSISTENT
    else if negb (class =? CKO_PRIVATE_KEY) then CKR_KEY_FUNCTION_NOT_PERMITTED
    else CKR_OK
  else CKR_MECHANISM_INVALID.

(** [ctx] is the sign context of the session at [sp]. *)
Definition sign_init (hSession sp : Z) (mech : CK_MECHANISM) (recover_mode : bool) (key : Z)
  : st (lib T) Z :=
  sess ← session_at sp;
  if sc_active (sign_ctx sess) then mret CKR_OPERATION_ACTIVE
  else
    '(rc, a0) ← get_attr_value hSession key (Some [mkCK CKA_SIGN None 0]) 1;
    if negb (rc =? CKR_OK) then mret CKR_KEY_FUNCTION_NOT_PERMITTED
    else
      '(rc, a1) ← get_attr_value hSession key
          (Some [mkCK CKA_ALLOWED_MECHANISMS None 0; mkCK CKA_KEY_TYPE None 0; mkCK CKA_CLASS None 0]) 3;
      if negb (rc =? CKR_OK) then mret rc
      else
        let len (l : option (list CK_ATTRIBUTE)) i := ulValueLen (nth i (default [] l) (mkCK 0 None 0)) in
        ok ← malloc_tmp;
        if negb ok then mret CKR_HOST_MEMORY
        else
          '(rc, a) ← get_attr_value hSession key
              (Some [mkCK CKA_SIGN (Some CK_FALSE_b) (len a0 0%nat);
                     mkCK CKA_ALLOWED_MECHANISMS (Some (indet (len a1 0%nat))) (len a1 0%nat);
                     mkCK CKA_KEY_TYPE (Some (indet 8)) (len a1 1%nat);
                     mkCK CKA_CLASS (Some (indet 8)) (len a1 2%nat)]) 4;
          if negb (rc =? CKR_OK) then mret rc
          else
            let at_ i := nth i (default [] a) (mkCK 0 None 0) in
            sign ← lift (le_val <$> mem_read (pValue (at_ 0%nat)) 1);
            keytype ← lift (read_ulong (pValue (at_ 2%nat)));
            class ← lift (read_ulong (pValue (at_ 3%nat)));
            let rc := check_sign_key mech sign keytype class (at_ 1%nat) in
            if negb (rc =? CKR_OK) then mret rc
            else
              set_ctx sp (mkSVC key (mkCKM (ckm_mechanism mech) None (ckm_paramLen mech))
                            false recover_mode true);;
              mret CKR_OK.

(** The block EB = 00 || 01 || FF.. || 00 || D the raw signature builds in
    [data], and what the rest of the array holds. *)
Definition pkcs1_block (req_sig_len ulDataLen : Z) (d : list Z) : outcome (list Z) :=
  let padding_len := u64 (req_sig_len - 3 - ulDataLen) in
  let i := Z.max 2 (u64 (padding_len + 2)) in
  guard_c (i + 1 + ulDataLen <=? MAX_RSA_KEYLEN);;
  Ret ([0; RSA_PKCS_BT_1] ++ replicate (Z.to_nat (i - 2)) 255 ++ [0] ++ d
       ++ indet (MAX_RSA_KEYLEN - (i + 1 + ulDataLen))).

(** The signature of [n] bytes stored at [pSignature], with its length. *)
Definition store_signature (pSignature : option (list Z)) (pulSignatureLen : Z) (sig : list Z)
  : outcome (option (list Z) * Z) :=
  m ← mem_store pSignature sig;
  Ret (m, store_u16 pulSignatureLen (Z.of_nat (length sig))).

(** Result code, the signature buffer and the length cell. *)
Definition rsa_sign_pkcs (hSession sp : Z) (pData : list Z) (ulDataLen : Z)
    (pSignature : option (list Z)) (pulSignatureLen : Z)
  : st (lib T) (Z * option (list Z) * Z) :=
  let fail rc := mret (rc, pSignature, pulSignatureLen) in
  sess ← session_at sp;
  let ctx := sign_ctx sess in
  '(rc, a) ← get_attr_value hSession (sc_key ctx) (Some [mkCK CKA_MODULUS None 0]) 1;
  if negb (rc =? CKR_OK) then fail rc
  else
    let req_sig_len := ulValueLen (nth 0 (default [] a) (mkCK 0 None 0)) in
    match pSignature with
    | None => mret (CKR_OK, None, req_sig_len)
    | Some _ =>
        if pulSignatureLen <? req_sig_len then fail CKR_BUFFER_TOO_SMALL
        else if u64 (req_sig_len - 11) <? ulDataLen then fail CKR_DATA_LEN_RANGE
        else
          d ← lift (mem_read (Some pData) ulDataLen);
          data ← lift (pkcs1_block req_sig_len ulDataLen d);
          fl ← get_slot_function_list (si_slotID (session_info sess));
          if negb fl then fail CKR_ARGUMENTS_BAD
          else
            key ← object_at (sc_key ctx);
            input ← lift (buf_read data 0 (u16 req_sig_len));
            '(ret, sig) ← call_sk (SK_Decrypt (mkMech SKM_RSA_PKCS_NOPAD) (sk_obj_handle key)
                                     input (u16 pulSignatureLen));
            if negb (ret =? SKR_OK) then fail CKR_GENERAL_ERROR
            else
              '(m, n) ← lift (store_signature pSignature pulSignatureLen sig);
              mret (CKR_OK, m, n)
    end.

(** The SK mechanisms of a hash-and-sign mechanism: signature, then digest. *)
Definition hash_sign_mechs (mechanism : Z) : option (Z * Z) :=
  if mechanism =? CKM_MD5_RSA_PKCS then Some (SKM_RSASSA_PKCS1_V1_5_MD5, SKM_MD5)
  else if mechanism =? CKM_SHA1_RSA_PKCS then Some (SKM_RSASSA_PKCS1_V1_5_SHA1, SKM_SHA1)
  else if mechanism =? CKM_SHA256_RSA_PKCS then Some (SKM_RSASSA_PKCS1_V1_5_SHA256, SKM_SHA256)
  else if mechanism =? CKM_SHA384_RSA_PKCS then Some (SKM_RSASSA_PKCS1_V1_5_SHA384, SKM_SHA384)
  else if mechanism =? CKM_SHA512_RSA_PKCS then Some (SKM_RSASSA_PKCS1_V1_5_SHA512, SKM_SHA512)
  else None.

Definition rsa_hash_sign_pkcs (hSession sp : Z) (pData : list Z) (ulDataLen : Z)
    (pSignature : option (list Z)) (pulSignatureLen : Z)
  : st (lib T) (Z * option (list Z) * Z) :=
  let fail rc := mret (rc, pSignature, pulSignatureLen) in
  sess ← session_at sp;
  let ctx := sign_ctx sess in
  '(rc, a) ← get_attr_value hSession (sc_key ctx) (Some [mkCK CKA_MODULUS None 0]) 1;
  if negb (rc =? CKR_OK) then fail rc
  else
    let req_sig_len := ulValueLen (nth 0 (default [] a) (mkCK 0 None 0)) in
    match pSignature with
    | None => mret (CKR_OK, None, req_sig_len)
    | Some _ =>
        if pulSignatureLen <? req_sig_len then fail CKR_BUFFER_TOO_SMALL
        else
          fl ← get_slot_function_list (si_slotID (session_info sess));
          if negb fl then fail CKR_ARGUMENTS_BAD
          else
            match hash_sign_mechs (ckm_mechanism (sc_mech ctx)) with
            | None => fail CKR_MECHANISM_INVALID
            | Some (signType, digestType) =>
                key ← object_at (sc_key ctx);
                input ← lift (mem_read (Some pData) (u16 ulDataLen));
                '(ret, hash) ← call_sk (SK_Digest (mkMech digestType) input MAX_HASH_LEN);
                if negb (ret =? SKR_OK) then fail CKR_GENERAL_ERROR
                else
                  lift (guard_c (Z.of_nat (length hash) <=? MAX_HASH_LEN));;
                  '(ret, sig) ← call_sk (SK_Sign (mkMech signType) (sk_obj_handle key) hash
                                           (u16 pulSignatureLen));
                  if negb (ret =? SKR_OK) then fail CKR_GENERAL_ERROR
                  else
                    '(m, n) ← lift (store_signature pSignature pulSignatureLen sig);
                    mret (CKR_OK, m, n)
            end
    end.

(** A size query or a short buffer keeps the operation; any other outcome of a
    supported mechanism ends it. *)
Definition sign (hSession sp : Z) (pData : list Z) (ulDataLen : Z)
    (pSignature : option (list Z)) (pulSignatureLen : Z)
  : st (lib T) (Z * option (list Z) * Z) :=
  sess ← session_at sp;
  let ctx := sign_ctx sess in
  let mechanism := ckm_mechanism (sc_mech ctx) in
  if negb (sc_active ctx) then mret (CKR_OPERATION_NOT_INITIALIZED, pSignature, pulSignatureLen)
  else if bool_decide (mechanism ∈ rsa_sign_mechs) then
    '(rc, m, n) ← (if mechanism =? CKM_RSA_PKCS
                   then rsa_sign_pkcs hSession sp pData ulDataLen pSignature pulSignatureLen
                   else rsa_hash_sign_pkcs hSession sp pData ulDataLen pSignature pulSignatureLen);
    if (rc =? CKR_OK) && bool_decide (pSignature = None) || (rc =? CKR_BUFFER_TOO_SMALL)
    then mret (rc, m, n)
    else set_ctx sp null_sign_ctx;; mret (rc, m, n)
  else mret (CKR_MECHANISM_INVALID, pSignature, pulSignatureLen).

(** ** Entry points (p11_crypto.c) *)

Definition C_SignInit (hSession : Z) (pMechanism : option CK_MECHANISM) (hKey : Z) : st (lib T) Z :=
  locked (when_initialized id
    match pMechanism with
    | None => mret CKR_MECHANISM_INVALID
    | Some mech =>
        with_session hSession id (fun sp =>
          sess ← session_at sp;
          valid ← is_object_handle_valid hKey (si_slotID (session_info sess));
          if negb valid then mret CKR_OBJECT_HANDLE_INVALID
          else sign_init hSession sp mech false hKey)
    end).

(** Result code, signature buffer and length; [None] for a null length. *)
Definition C_Sign (hSession : Z) (pData : option (list Z)) (ulDataLen : Z)
    (pSignature : option (list Z)) (pulSignatureLen : option Z)
  : st (lib T) (Z * option (list Z) * option Z) :=
  locked (when_initialized (fun rc => (rc, pSignature, pulSignatureLen))
    match pData, pulSignatureLen with
    | Some d, Some n =>
        with_session hSession (fun rc => (rc, pSignature, pulSignatureLen)) (fun sp =>
          '(rc, m, n) ← sign hSession sp d ulDataLen pSignature n;
          mret (rc, m, Some n))
    | _, _ => mret (CKR_ARGUMENTS_BAD, pSignature, pulSignatureLen)
    end).

End Crypto.
