(* ===== verification/P11Invariant.v ===== *)
(** * Invariants of the PKCS#11 library

    [lib_ok] holds of a freshly loaded library and is kept by every entry
    point, whatever the allocator, the loader and the secure-key library
    answer: handles are distinct live addresses, every session belongs to the
    TEE slot and its find position stays inside its find list, and every object
    has a well-formed template that guards the private components of a private
    key. *)

From stdpp Require Import base numbers list gmap.
From S2P Require Import Prelude SkTypes AttrCodec P11Types P11Template P11State P11Sessions.
From S2P Require Import P11Objects P11General P11Api P11Crypto.

(** ** The invariant *)

(** The class attributes of a public key object. *)
Definition public_key_tmpl (t : list CK_ATTRIBUTE) : Prop :=
  p11_template_check_attr t CKA_CLASS = Some (ulong_attr CKA_CLASS CKO_PUBLIC_KEY) /\
  p11_template_check_attr t CKA_KEY_TYPE = Some (ulong_attr CKA_KEY_TYPE CKK_RSA) /\
  p11_template_check_attr t CKA_SIGN = None.

(** An object of the list: an RSA key with a well-formed template, guarded when
    it is a private key. *)
Definition obj_ok (o : OBJECT) : Prop :=
  tmpl_ok (template_list o) /\
  (CKA_CERTIFICATE_TYPE ∉ (ck_type <$> template_list o)) /\
  obj_subclass o = CKK_RSA /\ o_slotID o = TEE_SLOT_ID /\
  (obj_class o = CKO_PUBLIC_KEY /\ public_key_tmpl (template_list o) \/
   obj_class o = CKO_PRIVATE_KEY /\ guarded_privk (template_list o)).

(** A session: of the TEE slot, with its find position inside the find list. *)
Definition sess_ok (x : session) : Prop :=
  si_slotID (session_info x) = TEE_SLOT_ID /\
  0 <= find_idx x <= find_count x /\ find_count x <= MAX_FIND_LIST_OBJECTS.

Section Invariant.
Context {T : Type}.

(** The addresses the library knows. *)
Definition nodes (s : lib T) : list Z := (sessions s).*1 ++ (objs s).*1.

Record lib_ok (s : lib T) : Prop := mkOk {
  ok_nodup : NoDup (nodes s);
  ok_live : forall a, a ∈ nodes s \/ is_Some (blocks s !! a) -> a ∈ h_live (hp s);
  ok_apart : forall a, a ∈ nodes s -> blocks s !! a = None;
  ok_blocks : forall a b, blocks s !! a = Some b -> Z.of_nat (length b) = MAX_FIND_LIST_OBJECTS;
  ok_sess : Forall sess_ok (sessions s).*2;
  ok_objs : Forall obj_ok (objs s).*2
}.

(** ** Preservation *)

Lemma existsb_assoc {A} (l : list (Z * A)) k :
  existsb (fun t => t.1 =? k) l = true <-> is_Some (assoc k l).
Proof.
  induction l as [|[k' a] l IH]; cbn [existsb assoc fst]; [split; [done | by intros [? ?]] |].
  rewrite Z.eqb_sym. destruct (k =? k'); cbn [orb]; [| exact IH]. split; [by eexists | done].
Qed.

Lemma nodes_sess_nodup s : lib_ok s -> NoDup (sessions s).*1.
Proof. intros [H _ _ _ _ _]. by apply NoDup_app in H as [? _]. Qed.
Lemma nodes_objs_nodup s : lib_ok s -> NoDup (objs s).*1.
Proof. intros [H _ _ _ _ _]. by apply NoDup_app in H as (_ & _ & ?). Qed.

(** Steps that change neither lists nor blocks nor the set of live blocks. *)
Definition frame (s s' : lib T) : Prop :=
  initialized s' = initialized s /\ lk s' = lk s /\ slot s' = slot s /\
  blocks s' = blocks s /\ h_live (hp s') = h_live (hp s).

#[export] Instance frame_preorder : PreOrder frame.
Proof.
  split; [by intros ? |]. intros x y z (?&?&?&?&?) (?&?&?&?&?).
  unfold frame. split_and!; congruence.
Qed.

Lemma frame_ok s s' : frame s s' -> lib_ok s -> lib_ok s'.
Proof.
  intros (_ & _ & Hs & Hb & Hl) [H1 H2 H3 H4 H5 H6].
  unfold nodes, sessions, objs in *. rewrite <- Hs, <- Hb in *. split; try done.
  by rewrite Hl.
Qed.

Lemma frame_keeps {A} (m : st (lib T) A) : steps frame m -> steps (keeps lib_ok) m.
Proof. intros H s a s' E Hok. eapply frame_ok; [eapply H, E | done]. Qed.

(** A fresh address: live, and not yet a node or a block. *)
Definition fresh_node (a : Z) (s : lib T) : Prop :=
  a ∈ h_live (hp s) /\ (a ∉ nodes s) /\ blocks s !! a = None /\ a <> 0.

Lemma frame_fresh a s s' : frame s s' -> fresh_node a s -> fresh_node a s'.
Proof.
  intros (_ & _ & Hs & Hb & Hl). unfold fresh_node, nodes, sessions, objs.
  by rewrite Hs, Hb, Hl.
Qed.

Section Alloc.
Context `{Allocator}.

(** Allocation keeps the invariant and hands out a fresh address. *)
Lemma malloc_node_ok s r s' :
  lib_ok s -> malloc_node s = Ret (r, s') ->
  lib_ok s' /\ slot s' = slot s /\ blocks s' = blocks s /\ initialized s' = initialized s /\
  lk s' = lk s /\ token s' = token s /\
  match r with Some a => fresh_node a s' | None => True end.
Proof.
  intros [H1 H2 H3 H4 H5 H6]. unfold malloc_node, malloc.
  destruct (malloc_at _ _) as [a|] eqn:E; intros [= <- <-]; cbn [slot blocks set_hp initialized lk token];
    split_and!; try done.
  - split; try done. intros x Hx. cbn [hp set_hp h_live]. apply elem_of_union_r, H2, Hx.
  - unfold fresh_node. cbn [hp set_hp h_live blocks].
    assert (Ha : a ∉ h_live (hp s)) by by eapply malloc_fresh.
    split_and!; [set_solver | | | by eapply malloc_not_null].
    + intros Hin. apply Ha, H2. by left.
    + destruct (blocks s !! a) eqn:Eb; [| done]. exfalso. apply Ha, H2. right. by rewrite Eb.
Qed.

Lemma malloc_node_keeps : steps (keeps lib_ok) malloc_node.
Proof. intros s a s' E Hok. by apply malloc_node_ok in E as [? _]. Qed.

Lemma mallocs_live n h ok h' : mallocs n h = (ok, h') -> h_live h' = h_live h.
Proof.
  revert h ok h'. induction n as [|n IH]; intros h ok h'; cbn [mallocs]; [by intros [= <- <-] |].
  destruct (mallocs n _) as [ok' h2] eqn:E. intros [= <- <-]. by apply IH in E.
Qed.

Lemma malloc_tmp_frame : steps frame malloc_tmp.
Proof.
  intros s a s'. unfold malloc_tmp. destruct (mallocs 1 (hp s)) as [ok h] eqn:E.
  intros [= <- <-]. apply mallocs_live in E. unfold frame. cbn. by split_and!.
Qed.

(** Releasing an address that is neither a node nor a block. *)
Lemma free_node_keeps a s u s' :
  lib_ok s -> a ∉ nodes s -> blocks s !! a = None -> free_node a s = Ret (u, s') -> lib_ok s'.
Proof.
  intros [H1 H2 H3 H4 H5 H6] Hn Hb [= <- <-]. split; try done.
  intros x Hx. cbn [hp set_hp free h_live]. apply elem_of_difference. split; [by apply H2 |].
  apply not_elem_of_singleton. intros ->. destruct Hx as [Hx|[? Hx]]; [done |].
  cbn [blocks set_hp] in Hx. congruence.
Qed.

(** Heap operations of templates leave the live blocks alone. *)
Definition live_same {A} (f : heap -> outcome (Z * A * heap)) : Prop :=
  forall h rc a h', f h = Ret (rc, a, h') -> h_live h' = h_live h.

Lemma on_heap_frame {A} (f : heap -> outcome (Z * A * heap)) : live_same f -> steps frame (on_heap f).
Proof.
  intros Hf s a s'. unfold on_heap. destruct (f (hp s)) as [[[rc x] h]|] eqn:E; [| done].
  intros [= <- <-]. apply Hf in E. unfold frame. cbn. by split_and!.
Qed.

Lemma add_defaults_live n new t h rc t' h' :
  add_defaults n new t h = (rc, t', h') -> h_live h' = h_live h.
Proof.
  unfold add_defaults. destruct (mallocs n h) as [[] h1] eqn:E; intros [= <- <- <-];
    by apply mallocs_live in E.
Qed.

Lemma seq_live n L (m : Z * list CK_ATTRIBUTE * heap) h rc t' h' :
  h_live m.2 = h_live h ->
  (let '(rc, t, h) := m in
   if negb (rc =? CKR_OK) then (rc, t, h) else add_defaults n L t h) = (rc, t', h') ->
  h_live h' = h_live h.
Proof.
  destruct m as [[rc1 t1] h1]. cbn [snd]. intros H1. destruct (negb _).
  - by intros [= <- <- <-].
  - intros E%add_defaults_live. congruence.
Qed.

Lemma rsa_privk_live t h rc t' h' : rsa_privk_add_default_attr t h = (rc, t', h') -> h_live h' = h_live h.
Proof.
  apply seq_live. destruct (privk_add_default_attr t h) as [[? ?] ?] eqn:E. revert E. apply seq_live.
  destruct (key_object_set_default_attr t h) as [[? ?] ?] eqn:E. by eapply add_defaults_live.
Qed.

Lemma rsa_pubk_live t h rc t' h' : rsa_pubk_add_default_attr t h = (rc, t', h') -> h_live h' = h_live h.
Proof.
  apply seq_live. destruct (pubk_add_default_attr t h) as [[? ?] ?] eqn:E. revert E. apply seq_live.
  destruct (key_object_set_default_attr t h) as [[? ?] ?] eqn:E. by eapply add_defaults_live.
Qed.

Lemma add_default_attr_live obj h rc obj' h' :
  p11_template_add_default_attr obj h = (rc, obj', h') -> h_live h' = h_live h.
Proof.
  unfold p11_template_add_default_attr.
  destruct (p11_template_add_default_common_attr _ _) as [[? ?] ?] eqn:E1.
  apply add_defaults_live in E1. case_c; try (intros [= <- <- <-]; done).
  - destruct (rsa_pubk_add_default_attr _ _) as [[? ?] ?] eqn:E2. apply rsa_pubk_live in E2.
    intros [= <- <- <-]. congruence.
  - destruct (rsa_privk_add_default_attr _ _) as [[? ?] ?] eqn:E2. apply rsa_privk_live in E2.
    intros [= <- <- <-]. congruence.
Qed.

Lemma add_attr_live pT : forall obj, live_same (p11_template_add_attr obj pT).
Proof.
  induction pT as [|x pT IH]; intros obj h rc a h'; cbn [p11_template_add_attr]; [by intros [= <- <- <-] |].
  destruct (negb _); [by apply IH |].
  destruct (mallocs 1 h) as [[] h1] eqn:E1; cbn [negb]; apply mallocs_live in E1;
    [| by intros [= <- <- <-]].
  destruct (mem_read _ _); [| done]. rewrite ret_bind.
  destruct (mallocs 1 h1) as [[] h2] eqn:E2; cbn [negb]; apply mallocs_live in E2;
    [| by intros [= <- <- <-]; congruence].
  intros E3%IH. congruence.
Qed.

Lemma map_sk_live sk : live_same (map_sk_to_pkcs_attr sk).
Proof.
  intros h rc a h'. unfold map_sk_to_pkcs_attr, map_ulong, map_copy. intros E. case_c; inv_ret;
    try (destruct (mallocs 1 h) as [[] h1] eqn:E1; cbn [negb] in *; apply mallocs_live in E1);
    case_c; inv_ret; congruence.
Qed.

(** ** Objects read from the token *)

Lemma mem_read_length p n v : mem_read p n = Ret v -> Z.of_nat (length v) = n.
Proof.
  unfold mem_read. destruct (n =? 0) eqn:E; boolz; [intros [= <-]; cbn; lia |].
  destruct p; [| done]. apply buf_read_length.
Qed.

(** A translated attribute is well formed and of one of seven types. *)
Lemma map_sk_wf sk h rc a h' :
  map_sk_to_pkcs_attr sk h = Ret (rc, Some a, h') ->
  ck_wf a /\ ck_type a ∈ [CKA_CLASS; CKA_KEY_TYPE; CKA_LABEL; CKA_ID; CKA_MODULUS_BITS;
                          CKA_MODULUS; CKA_PUBLIC_EXPONENT].
Proof.
  unfold map_sk_to_pkcs_attr, map_ulong, map_copy. intros E. case_c; inv_ret;
    try (destruct (mallocs 1 h) as [[] h1]; cbn [negb] in *);
    case_c; inv_ret; try done;
    (split; [| cbn [ck_type ulong_attr]; set_solver]);
    repeat match goal with H : mem_read _ _ = Ret _ |- _ => apply mem_read_length in H end;
    unfold ck_wf; cbn [ulValueLen pValue ulong_attr]; unfold ck_ulong; rewrite ?length_le_bytes; lia.
Qed.

(** Types the token never reports. *)
Definition unreported : list Z := [CKA_CERTIFICATE_TYPE; CKA_SIGN].

(** What holds of an object under construction. *)
Definition tmpl_inv (o : OBJECT) : Prop :=
  tmpl_ok (template_list o) /\
  forall ty, ty ∈ unreported -> ty ∉ (ck_type <$> template_list o).

Lemma add_attr_inv a obj h rc obj' h' :
  ck_wf a -> ck_type a ∉ unreported ->
  p11_template_add_attr obj [a] h = Ret (rc, obj', h') ->
  obj' = set_template obj (template_list obj') /\ (tmpl_inv obj -> tmpl_inv obj').
Proof.
  intros Hw Ht E. destruct (add_attr_adds [a] obj h) as (rc' & obj'' & h'' & E' & Ho & Ha);
    [by constructor |]. rewrite E in E'. injection E' as <- <- <-. split; [done |].
  intros [H1 H2]. assert (Hs : Forall ck_wf (stored_list [a])) by (apply stored_list_wf; by constructor).
  assert (Hn : forall ty, ty ∈ unreported -> ty ∉ (ck_type <$> stored_list [a])).
  { intros ty Hty. unfold stored_list. rewrite filter_cons, filter_nil. destruct (decide _); cbn; [| apply not_elem_of_nil].
    apply not_elem_of_cons. split; [congruence | apply not_elem_of_nil]. }
  split; [by eapply adds_ok |]. intros ty Hty. specialize (Hn ty Hty).
  destruct Ha as [[_ ->]|(_ & L' & [k Hk] & ->)]; apply update_all_types; auto.
  rewrite Hk, fmap_app in Hn. by apply not_elem_of_app in Hn as [? _].
Qed.

Context `{HI : Indet, HS : !SK_FUNCTION_LIST T}.

Lemma call_sk_frame {A} (f : T -> outcome (Z * A * T)) : steps frame (call_sk f).
Proof.
  intros s a s'. unfold call_sk. destruct (lib_open _); [| done].
  destruct (f (token s)) as [[[? ?] ?]|]; [| done]. by intros [= <- <-].
Qed.

(** An object that grew by translated attributes. *)
Definition grown (obj : OBJECT) (r : Z * OBJECT) : Prop :=
  r.2 = set_template obj (template_list r.2) /\ (tmpl_inv obj -> tmpl_inv r.2).

Lemma grown_refl obj rc : grown obj (rc, obj).
Proof. split; [by destruct obj | done]. Qed.

Lemma grown_trans obj rc obj1 r : grown obj (rc, obj1) -> grown obj1 r -> grown obj r.
Proof. intros [G1 G2] [G3 G4]. cbn [snd] in *. split; [by rewrite G3, G1 | auto]. Qed.

Lemma map_sk_post sk :
  post frame (on_heap (map_sk_to_pkcs_attr sk))
    (fun r => forall a, r.2 = Some a -> ck_wf a /\ ck_type a ∉ unreported).
Proof.
  intros s [rc ck] s' E. split; [eapply on_heap_frame, E; apply map_sk_live |].
  unfold on_heap in E. destruct (map_sk_to_pkcs_attr sk (hp s)) as [[[? ?] ?]|] eqn:Em; [| done].
  injection E as -> -> <-. cbn [snd]. intros a ->. apply map_sk_wf in Em as [? Ht].
  split; [done |]. intros Hc. revert Hc. rewrite list_elem_of_In in Ht.
  cbn [In] in Ht. unfold unreported.
  repeat (destruct Ht as [<-|Ht]; [decide_c |]). done.
Qed.

Lemma add_attr_post obj a :
  ck_wf a -> ck_type a ∉ unreported ->
  post frame (on_heap (p11_template_add_attr obj [a])) (grown obj).
Proof.
  intros Hw Ht s [rc o] s' E. split; [eapply on_heap_frame, E; apply add_attr_live |].
  unfold on_heap in E. destruct (p11_template_add_attr obj [a] (hp s)) as [[[? ?] ?]|] eqn:Em; [| done].
  injection E as -> -> <-. by eapply add_attr_inv.
Qed.

Lemma object_add_loop_post l : forall obj, post frame (object_add_loop obj l) (grown obj).
Proof.
  induction l as [|x l IH]; intros obj; cbn [object_add_loop]; [apply post_ret, grown_refl; apply _ |].
  destruct (_ =? -1); [apply IH |].
  eapply post_bind; [apply _ | apply post_steps, malloc_tmp_frame | intros ok _].
  destruct (negb ok); [apply post_ret, grown_refl; apply _ |].
  eapply post_bind; [apply _ | apply post_steps, call_sk_frame | intros [ret l'] _].
  destruct (negb _); [apply post_ret, grown_refl; apply _ |].
  eapply post_bind; [apply _ | apply post_lift; apply _ | intros sk _].
  eapply post_bind; [apply _ | apply map_sk_post | intros [rc ck] Hck].
  destruct (negb _); [apply post_ret, grown_refl; apply _ |].
  eapply post_bind; [apply _ | apply post_lift; apply _ | intros a Ha].
  destruct ck as [ck|]; [| done]. injection Ha as ->. destruct (Hck a eq_refl) as [Hw Ht].
  eapply post_bind; [apply _ | by apply add_attr_post | intros [rc' obj1] Hg].
  destruct (negb _); [apply post_ret; [apply _ |]; exact Hg |].
  intros s r s' E. apply IH in E as [? ?]. split; [done |]. by eapply grown_trans.
Qed.

Lemma function_list_frame slotID : steps frame (get_slot_function_list slotID).
Proof. unfold get_slot_function_list. steps_auto. Qed.

Lemma object_add_template_post obj tys : post frame (object_add_template obj tys) (grown obj).
Proof.
  unfold object_add_template.
  eapply post_bind; [apply _ | apply post_steps, function_list_frame | intros fl _].
  destruct (negb fl); [apply post_ret, grown_refl; apply _ |].
  eapply post_bind; [apply _ | apply post_steps, call_sk_frame | intros [ret l'] _].
  destruct (negb _); [apply post_ret, grown_refl; apply _ | apply object_add_loop_post].
Qed.

(** A created node: nothing in the library changed, and on success the node is
    fresh and its object well formed. *)
Lemma create_key_ok tys h slotID s rc node s' :
  lib_ok s ->
  (a ← malloc_node;
   match a with
   | None => mret (CKR_HOST_MEMORY, None)
   | Some key =>
       '(rc, obj) ← object_add_template (mkObj h 0 0 [] slotID) tys;
       if negb (rc =? CKR_OK) then free_node key;; mret (rc, None)
       else mret (CKR_OK, Some (key, obj))
   end) s = Ret ((rc, node), s') ->
  lib_ok s' /\ match node with
  | Some (a, obj) => fresh_node a s' /\ tmpl_inv obj /\ o_slotID obj = slotID
  | None => True
  end.
Proof.
  intros Hok (r & s1 & E1 & E)%st_bind_inv.
  apply malloc_node_ok in E1 as (Hok1 & _ & _ & _ & _ & _ & Hf); [| done].
  destruct r as [a|]; [| by injection E as <- <- <-].
  apply st_bind_inv in E as ([rc' obj] & s2 & E2 & E).
  apply object_add_template_post in E2 as [Hfr [Ho Hi]]. cbn [snd] in *.
  pose proof (frame_ok _ _ Hfr Hok1) as Hok2. apply (frame_fresh a) in Hfr; [| done].
  destruct (negb _).
  - apply st_bind_inv in E as ([] & s3 & E3 & E). injection E as <- <- <-. split; [| done].
    destruct Hfr as (? & ? & ? & _). eapply free_node_keeps; [exact Hok2 | done | done | exact E3].
  - injection E as <- <- <-. split_and!; [done | done | | by rewrite Ho].
    apply Hi. split; [split; constructor | intros ty _; apply not_elem_of_nil].
Qed.

Lemma defaults_wf : Forall ck_wf (common_defaults ++ privk_defaults) /\
  Forall ck_wf (common_defaults ++ pubk_defaults) /\
  (CKA_CERTIFICATE_TYPE ∉ (ck_type <$> (common_defaults ++ privk_defaults))) /\
  (CKA_CERTIFICATE_TYPE ∉ (ck_type <$> (common_defaults ++ pubk_defaults))).
Proof. split_and!; decide_c. Qed.

(** The defaults turn a well-formed object of class public or private key into
    an object of the list. *)
Lemma defaults_obj_ok obj class h obj' h' :
  tmpl_inv obj -> o_slotID obj = TEE_SLOT_ID ->
  class = CKO_PUBLIC_KEY \/ class = CKO_PRIVATE_KEY ->
  p11_template_add_default_attr (set_class obj class CKK_RSA) h = (CKR_OK, obj', h') -> obj_ok obj'.
Proof.
  intros [Ht Hc] Hs Hcl E. destruct defaults_wf as (W1 & W2 & C1 & C2).
  pose proof E as E'. apply add_default_attr_cases in E as [Ho Hcases].
  assert (Hcase : exists L, template_list obj' = update_all (template_list obj) L /\ Forall ck_wf L /\
            (CKA_CERTIFICATE_TYPE ∉ (ck_type <$> L))).
  { destruct Hcases as [(_ & _ & [[_ Ha]|[? _]])|[(_ & _ & [[_ Ha]|[? _]])|[[?|[? _]] _]]]; try done; eauto. }
  destruct Hcase as (L & HL & HW & HC). unfold obj_ok. rewrite Ho. cbn [set_template template_list
    obj_class obj_subclass o_slotID set_class]. rewrite HL. split_and!; try done.
  - by apply update_all_ok.
  - apply update_all_types; [apply Hc; decide_c | done].
  - rewrite <- HL. destruct Hcl as [->| ->]; [left | right]; (split; [done |]).
    + destruct Hcases as [(? & _)|[(_ & _ & [[_ Ha]|[? _]])|[[?|[? _]] _]]]; try done.
      rewrite Ha. split_and!; [done | done |]. rewrite check_update_all.
      cbn [set_class template_list]. change (p11_template_check_attr (reverse (common_defaults ++ pubk_defaults)) CKA_SIGN)
        with (@None CK_ATTRIBUTE). cbv iota. apply check_None, Hc. decide_c.
    + by eapply default_privk_guarded in E' as [? _].
Qed.

Lemma insert_key_ok class rc0 node s rc s' :
  class = CKO_PUBLIC_KEY \/ class = CKO_PRIVATE_KEY -> lib_ok s ->
  match node with
  | Some (a, obj) => fresh_node a s /\ tmpl_inv obj /\ o_slotID obj = TEE_SLOT_ID
  | None => True
  end ->
  insert_key_object class (rc0, node) s = Ret (rc, s') -> lib_ok s'.
Proof.
  intros Hcl Hok Hn E. unfold insert_key_object in E. destruct (negb _); [by injection E as <- <- |].
  destruct node as [[a obj]|]; [| done]. destruct Hn as (Hf & Hi & Hs).
  apply st_bind_inv in E as ([a' obj0] & s0 & [E0 ->]%lift_inv & E). injection E0 as <- <-.
  apply st_bind_inv in E as ([rc1 obj1] & s1 & E1 & E).
  assert (Hfr : frame s s1).
  { eapply on_heap_frame, E1. intros h ??? [= E2]. by eapply add_default_attr_live. }
  pose proof (frame_ok _ _ Hfr Hok) as Hok1. apply (frame_fresh a) in Hfr; [| done].
  destruct (rc1 =? CKR_OK) eqn:Erc; cbn [negb] in E; [| by injection E as <- <-].
  boolz. subst rc1. unfold on_heap in E1.
  destruct (p11_template_add_default_attr _ _) as [[rc2 obj2] h2] eqn:E2.
  injection E1 as -> -> <-. apply defaults_obj_ok in E2; [| done..].
  inv_st. destruct Hok1 as [H1 H2 H3 H4 H5 H6], Hfr as (F1 & F2 & F3 & F4).
  assert (Hperm : Permutation (nodes (set_objs ((a, obj1) :: objs (set_hp h2 s)) (set_hp h2 s)))
            (a :: nodes (set_hp h2 s))).
  { unfold nodes. cbn. symmetry. apply Permutation_middle. }
  split.
  - rewrite Hperm. by apply NoDup_cons.
  - intros x. rewrite Hperm, elem_of_cons. intros [[->|Hx]|Hx]; [done | apply H2; by left | apply H2; by right].
  - intros x. rewrite Hperm, elem_of_cons. intros [->|Hx]; [done | by apply H3].
  - exact H4.
  - exact H5.
  - cbn. constructor; [done | exact H6].
Qed.

Lemma add_token_object_keeps h ot kt s rc s' :
  lib_ok s -> add_token_object h ot kt TEE_SLOT_ID s = Ret (rc, s') -> lib_ok s'.
Proof.
  intros Hok E. unfold add_token_object in E.
  destruct (ot =? SK_KEY_PAIR); [| destruct (ot =? SK_PUBLIC_KEY)];
    try (by injection E as <- <-); (destruct (kt =? SKK_RSA); [| by injection E as <- <-]).
  - apply st_bind_inv in E as ([rc1 n1] & s1 & E1 & E). apply create_key_ok in E1 as [Hok1 Hn1]; [| done].
    apply st_bind_inv in E as (rc2 & s2 & E2 & E). apply insert_key_ok in E2; [| auto..].
    destruct (negb _); [by injection E as <- <- |].
    apply st_bind_inv in E as ([rc3 n3] & s3 & E3 & E). apply create_key_ok in E3 as [Hok3 Hn3]; [| done].
    apply insert_key_ok in E; auto.
  - apply st_bind_inv in E as ([rc1 n1] & s1 & E1 & E). apply create_key_ok in E1 as [Hok1 Hn1]; [| done].
    apply insert_key_ok in E; auto.
Qed.

Lemma get_all_loop_keeps hs : forall ot kt, steps (keeps lib_ok) (get_all_loop hs ot kt TEE_SLOT_ID).
Proof.
  induction hs as [|h hs IH]; intros ot kt; cbn [get_all_loop]; [apply steps_ret, _ |].
  apply steps_bind; [apply _ | apply frame_keeps, call_sk_frame | intros [ret l]].
  destruct (negb _); [apply steps_ret, _ |].
  do 4 (apply steps_bind; [apply _ | apply steps_lift, _ | intros ?]).
  apply steps_bind; [apply _ | | intros rc].
  - intros s rc s' E Hok. by eapply add_token_object_keeps.
  - destruct (negb _); [apply steps_ret, _ | apply IH].
Qed.

Lemma get_all_token_objects_keeps : steps (keeps lib_ok) (get_all_token_objects TEE_SLOT_ID).
Proof.
  unfold get_all_token_objects.
  apply steps_bind; [apply _ | apply frame_keeps, function_list_frame | intros fl].
  destruct (negb fl); [apply steps_ret, _ |].
  apply steps_bind; [apply _ | apply frame_keeps, call_sk_frame | intros [ret l]].
  destruct (negb _); [apply steps_ret, _ | apply get_all_loop_keeps].
Qed.

(** ** Sessions *)

Lemma session_at_frame h : steps frame (session_at (T := T) h).
Proof. intros s a s'. unfold session_at. destruct (assoc _ _); [| done]. by intros [= <- <-]. Qed.
Lemma object_at_frame h : steps frame (object_at (T := T) h).
Proof. intros s a s'. unfold object_at. destruct (assoc _ _); [| done]. by intros [= <- <-]. Qed.

Lemma is_session_valid_frame h : steps frame (is_session_valid (T := T) h).
Proof.
  unfold is_session_valid. apply steps_bind; [apply _ | apply session_at_frame | intros x]. steps_auto.
Qed.
Lemma get_session_frame h : steps frame (get_session (T := T) h).
Proof.
  unfold get_session. apply steps_bind; [apply _ | apply is_session_valid_frame | intros x]. steps_auto.
Qed.

Lemma create_session_keeps flags : steps (keeps lib_ok) (create_session TEE_SLOT_ID flags).
Proof.
  intros s r s' (a & s1 & E1 & E)%st_bind_inv Hok.
  apply malloc_node_ok in E1 as (Hok1 & _ & _ & _ & _ & _ & Hf); [| done].
  destruct a as [a|]; [| by injection E as <- <-]. change (get_session_list TEE_SLOT_ID) with true in E. cbn [negb] in E. inv_st.
  destruct Hok1 as [H1 H2 H3 H4 H5 H6], Hf as (F1 & F2 & F3 & F4). split.
  - unfold nodes. cbn. by apply NoDup_cons.
  - intros x. unfold nodes. cbn. rewrite elem_of_cons.
    intros [[->|Hx]|Hx]; [done | apply H2; by left | apply H2; by right].
  - intros x. unfold nodes. cbn. rewrite elem_of_cons. intros [->|Hx]; [done | by apply H3].
  - exact H4.
  - cbn. constructor; [| exact H5]. by split_and!.
  - exact H6.
Qed.

(** Updating or dropping nodes: the new addresses are among the old ones. *)
Lemma shrink_ok s s' :
  lib_ok s -> blocks s' = blocks s -> hp s' = hp s -> nodes s' `sublist_of` nodes s ->
  Forall sess_ok (sessions s').*2 -> Forall obj_ok (objs s').*2 -> lib_ok s'.
Proof.
  intros [H1 H2 H3 H4 H5 H6] Hb Hh Hsub Hs Ho.
  assert (Hin : forall a, a ∈ nodes s' -> a ∈ nodes s).
  { intros a Ha. eapply elem_of_sublist; eauto. }
  split; try done.
  - by eapply sublist_NoDup.
  - intros a [Ha|Ha]; rewrite Hh; apply H2; [left; auto | right; congruence].
  - intros a Ha. rewrite Hb. auto.
  - rewrite Hb. exact H4.
Qed.

Lemma assoc_set_Forall {A} (P : A -> Prop) k x (l : list (Z * A)) :
  Forall P l.*2 -> P x -> Forall P (assoc_set k x l).*2.
Proof.
  intros Hl Hx. induction l as [|[k' a'] l IH]; cbn [assoc_set]; [done |].
  inversion Hl; subst. destruct (k =? k'); constructor; auto.
Qed.

Lemma set_session_ok h x s u s' :
  lib_ok s -> sess_ok x -> set_session h x s = Ret (u, s') -> lib_ok s'.
Proof.
  intros Hok Hx E. unfold set_session in E. inv_st. eapply shrink_ok; [exact Hok | done | done | | |].
  - unfold nodes. cbn. rewrite assoc_set_keys. done.
  - cbn. apply assoc_set_Forall; [apply Hok | done].
  - apply Hok.
Qed.

Lemma session_at_ok h s x s' : lib_ok s -> session_at h s = Ret (x, s') ->
  sess_ok x /\ s' = s /\ assoc h (sessions s) = Some x.
Proof.
  intros Hok. unfold session_at. destruct (assoc h (sessions s)) eqn:E; [| done].
  intros [= <- <-]. split; [| done]. apply assoc_In in E.
  pose proof (ok_sess _ Hok) as Hs. rewrite Forall_forall in Hs. apply Hs.
  apply list_elem_of_fmap. by exists (h, s0).
Qed.

Lemma set_ctx_keeps h c : steps (keeps lib_ok) (set_ctx (T := T) h c).
Proof.
  intros s u s' (x & s1 & E1 & E)%st_bind_inv Hok. apply session_at_ok in E1 as (Hx & -> & Ex); [| done].
  eapply set_session_ok; [exact Hok | | exact E]. exact Hx.
Qed.

Lemma assoc_remove_sub {A} k (l : list (Z * A)) : assoc_remove k l `sublist_of` l.
Proof.
  induction l as [|[k' a'] l IH]; cbn [assoc_remove]; [constructor |].
  destruct (k =? k'); [by constructor | by constructor].
Qed.

Lemma delete_session_keeps h : steps (keeps lib_ok) (delete_session (T := T) h).
Proof.
  intros s rc s' E Hok. unfold delete_session in E. destruct (h =? 0); [by injection E as <- <- |].
  apply st_bind_inv in E as (x & s1 & E1 & E). apply session_at_ok in E1 as (Hx & -> & Ex); [| done].
  destruct (negb _); [by injection E as <- <- |].
  apply st_bind_inv in E as (l & s2 & [= <- <-] & E).
  apply st_bind_inv in E as ([] & s3 & [= <-] & E).
  apply st_bind_inv in E as ([] & s4 & E4 & [= <- <-]).
  pose proof (assoc_remove_nodup h _ (nodes_sess_nodup _ Hok)) as [_ Hn].
  pose proof (ok_nodup _ Hok) as Hnd. apply NoDup_app in Hnd as (_ & Hd & _).
  assert (Hin : h ∈ (sessions s).*1).
  { apply list_elem_of_fmap. exists (h, x). split; [done | by apply assoc_In]. }
  eapply free_node_keeps; [| | | exact E4].
  - eapply shrink_ok; [exact Hok | done | done | | | apply Hok].
    + apply sublist_app; [| done]. apply fmap_sublist, assoc_remove_sub.
    + cbn. eapply Forall_sub; [apply Hok | apply fmap_sublist, assoc_remove_sub].
  - unfold nodes. cbn. rewrite not_elem_of_app. split; [done |]. by apply Hd.
  - apply (ok_apart _ Hok). apply elem_of_app. by left.
Qed.

Lemma free_nodes_spec l : forall (s : lib T) u s', free_nodes l s = Ret (u, s') ->
  slot s' = slot s /\ blocks s' = blocks s /\ initialized s' = initialized s /\ lk s' = lk s /\
  token s' = token s /\ forall a, a ∈ h_live (hp s') <-> a ∈ h_live (hp s) /\ a ∉ l.
Proof.
  induction l as [|x l IH]; intros s u s' E; cbn [free_nodes] in E.
  { injection E as <- <-. split_and!; try done. intros a. rewrite elem_of_nil. tauto. }
  apply st_bind_inv in E as ([] & s1 & [= <-] & E). apply IH in E as (-> & -> & -> & -> & -> & Hl).
  split_and!; try done. intros a. rewrite Hl. cbn [hp set_hp free h_live].
  rewrite elem_of_difference, elem_of_singleton, elem_of_cons. tauto.
Qed.

Lemma destroy_session_list_keeps slotID : steps (keeps lib_ok) (destroy_session_list (T := T) slotID).
Proof.
  intros s rc s' E [H1 H2 H3 H4 H5 H6]. unfold destroy_session_list in E.
  destruct (negb _); [by injection E as <- <- |].
  apply st_bind_inv in E as (l & s1 & [= <- <-] & E).
  apply st_bind_inv in E as (u & s2 & E2 & E).
  apply free_nodes_spec in E2 as (Hs & Hb & _ & _ & _ & Hl). inv_st.
  apply NoDup_app in H1 as (N1 & N2 & N3). unfold sessions, objs in *.
  assert (Hnodes : nodes (set_sess [] s2) = (obj_list (slot s)).*1) by (unfold nodes; cbn; by rewrite Hs).
  split.
  - by rewrite Hnodes.
  - intros a. rewrite Hnodes. cbn [hp set_sess set_slot blocks]. rewrite Hb, Hl.
    intros [Ha|Ha]; (split; [apply H2; rewrite ?elem_of_app; auto |]).
    + left. apply elem_of_app. by right.
    + intros Hin. exact (N2 a Hin Ha).
    + intros Hin. destruct Ha as [? Ha]. rewrite H3 in Ha; [done |]. apply elem_of_app. by left.
  - intros a. rewrite Hnodes. cbn [set_sess set_slot blocks]. rewrite Hb. intros Ha.
    apply H3, elem_of_app. by right.
  - cbn. by rewrite Hb.
  - constructor.
  - unfold objs. cbn. by rewrite Hs.
Qed.

Lemma destroy_object_list_keeps slotID : steps (keeps lib_ok) (destroy_object_list (T := T) slotID).
Proof.
  intros s rc s' E [H1 H2 H3 H4 H5 H6]. unfold destroy_object_list in E.
  destruct (negb _); [by injection E as <- <- |].
  apply st_bind_inv in E as (l & s1 & [= <- <-] & E).
  apply st_bind_inv in E as (u & s2 & E2 & E).
  apply free_nodes_spec in E2 as (Hs & Hb & _ & _ & _ & Hl). inv_st.
  apply NoDup_app in H1 as (N1 & N2 & N3). unfold sessions, objs in *.
  assert (Hnodes : nodes (set_objs [] s2) = (sess_list (slot s)).*1)
    by (unfold nodes; cbn; by rewrite Hs, app_nil_r).
  split.
  - by rewrite Hnodes.
  - intros a. rewrite Hnodes. cbn [hp set_objs set_slot blocks]. rewrite Hb, Hl.
    intros [Ha|Ha]; (split; [apply H2; rewrite ?elem_of_app; auto |]).
    + left. apply elem_of_app. by left.
    + by apply N2.
    + intros Hin. destruct Ha as [? Ha]. rewrite H3 in Ha; [done |]. apply elem_of_app. by right.
  - intros a. rewrite Hnodes. cbn [set_objs set_slot blocks]. rewrite Hb. intros Ha.
    apply H3, elem_of_app. by left.
  - cbn. by rewrite Hb.
  - unfold sessions. cbn. by rewrite Hs.
  - constructor.
Qed.

Lemma clear_lists_ok (s : lib T) : lib_ok s -> lib_ok (set_objs [] s) /\ lib_ok (set_sess [] s).
Proof.
  intros Hok. split; (eapply shrink_ok; [exact Hok | done | done | | | ]); try apply Hok; try done.
  - unfold nodes. cbn. rewrite app_nil_r. by apply sublist_inserts_r.
  - unfold nodes. cbn. by apply sublist_inserts_l.
Qed.

(** ** Searches *)

Lemma find_loop_bound test l : forall i block block' n, 0 <= i ->
  find_matching_loop test l i block = Ret (block', n) ->
  length block' = length block /\ i <= n /\ (n = i \/ n <= Z.of_nat (length block)).
Proof.
  induction l as [|[h obj] l IH]; intros i block block' n Hi E; cbn [find_matching_loop] in E.
  { injection E as <- <-. split_and!; [done | lia | by left]. }
  inv_ret. destruct a.
  - inv_ret. unfold store_handle in Heqo0. inv_ret. boolz. case_c; inv_ret.
    + rewrite length_insert. split_and!; [done | lia | right; lia].
    + apply IH in E as (L & H2 & H3); [| lia]. rewrite length_insert in L, H3. split_and!; [done | lia | lia].
  - apply IH in E as (L & H2 & H3); [| lia]. split_and!; [done | lia | lia].
Qed.

Lemma find_objects_bound block l pT n block' c :
  find_matching_objects block l pT n = Ret (block', c) ->
  length block' = length block /\ 0 <= c <= Z.of_nat (length block).
Proof.
  unfold find_matching_objects. intros E. case_c; inv_ret;
    apply find_loop_bound in E as (? & ? & ?); lia.
Qed.

Lemma find_block_ok x s r s' :
  lib_ok s -> find_block (T := T) x s = Ret (r, s') -> lib_ok s' /\ slot s' = slot s.
Proof.
  intros Hok E. unfold find_block in E. destruct (find_list x); [by injection E as <- <- |].
  apply st_bind_inv in E as (a & s1 & E1 & E).
  apply malloc_node_ok in E1 as (Hok1 & Hs1 & _ & _ & _ & _ & Hf); [| done].
  destruct a as [a|]; [| by injection E as <- <-]. inv_st.
  destruct Hok1 as [H1 H2 H3 H4 H5 H6], Hf as (F1 & F2 & F3 & F4). split; [| done]. split; try done.
  - intros y. cbn [hp set_blocks blocks]. intros [Hy|Hy]; [apply H2; by left |].
    destruct (decide (y = a)) as [->|Hn]; [done |]. rewrite lookup_insert_ne in Hy by done.
    apply H2. by right.
  - intros y Hy. cbn [set_blocks blocks]. rewrite lookup_insert_ne; [by apply H3 |].
    intros ->. by apply F2.
  - intros y b. cbn [set_blocks blocks]. intros [[<- <-]|[_ Hb]]%lookup_insert_Some; [done |].
    by eapply H4.
Qed.

Lemma find_into_ok a pT n s c s' :
  lib_ok s -> find_into (T := T) a pT n s = Ret (c, s') ->
  lib_ok s' /\ slot s' = slot s /\ 0 <= c <= MAX_FIND_LIST_OBJECTS.
Proof.
  intros Hok E. unfold find_into in E. destruct (blocks s !! a) as [b|] eqn:Eb.
  - destruct (find_matching_objects b _ _ _) as [[b' c']|] eqn:Ef; [| done]. injection E as <- <-.
    apply find_objects_bound in Ef as [Hl Hc]. destruct Hok as [H1 H2 H3 H4 H5 H6].
    pose proof (H4 _ _ Eb) as Hb. split; [| split; [done | lia]]. split; try done.
    + intros y. cbn [set_blocks blocks hp]. intros [Hy|Hy]; apply H2; [by left | right].
      destruct (decide (y = a)) as [->|Hn]; [by rewrite Eb |]. by rewrite lookup_insert_ne in Hy.
    + intros y Hy. cbn [set_blocks blocks]. rewrite lookup_insert_ne; [by apply H3 |].
      intros ->. rewrite (H3 _ Hy) in Eb. done.
    + intros y b0. cbn [set_blocks blocks]. intros [[<- <-]|[_ Hy]]%lookup_insert_Some; [lia |].
      by eapply H4.
  - destruct (find_matching_objects [] _ _ _) as [[b' c']|] eqn:Ef; [| done]. injection E as <- <-.
    apply find_objects_bound in Ef as [Hl Hc]. split; [done |]. split; [done |]. cbn in Hc. unfold MAX_FIND_LIST_OBJECTS. lia.
Qed.

Lemma release_block_keeps fl : steps (keeps lib_ok) (release_block (T := T) fl).
Proof.
  intros s u s' E Hok. unfold release_block in E. destruct fl as [a|]; [| by injection E as <- <-].
  destruct (blocks s !! a) as [b|] eqn:Eb; [| done]. injection E as <- <-.
  destruct Hok as [H1 H2 H3 H4 H5 H6]. split; try done.
  - intros y. cbn [set_hp set_blocks blocks hp free h_live].
    intros Hy. apply elem_of_difference. rewrite elem_of_singleton. destruct Hy as [Hy|[b0 Hy]].
    + split; [apply H2; by left |]. intros ->. rewrite (H3 _ Hy) in Eb. done.
    + apply lookup_delete_Some in Hy as [Hn Hy]. split; [apply H2; right; by eexists | congruence].
  - intros y Hy. cbn [set_hp set_blocks blocks]. apply lookup_delete_None. right. by apply H3.
  - intros y b0. cbn [set_hp set_blocks blocks]. intros [_ Hy]%lookup_delete_Some. by eapply H4.
Qed.

(** ** The bodies of the entry points leave lock and flag alone *)

Definition same_lk (s s' : lib T) : Prop := lk s' = lk s /\ initialized s' = initialized s.

#[export] Instance same_lk_preorder : PreOrder same_lk.
Proof. split; [by intros ? |]. intros ??? [? ?] [? ?]. split; congruence. Qed.

Lemma frame_same_lk {A} (m : st (lib T) A) : steps frame m -> steps same_lk m.
Proof. intros Hm s a s' E. by destruct (Hm _ _ _ E) as (? & ? & _). Qed.

Lemma same_lk_sess l : steps same_lk (modify (set_sess (T := T) l)).
Proof. by apply steps_modify. Qed.
Lemma same_lk_objs l : steps same_lk (modify (set_objs (T := T) l)).
Proof. by apply steps_modify. Qed.
Lemma same_lk_blocks l : steps same_lk (modify (set_blocks (T := T) l)).
Proof. by apply steps_modify. Qed.
Lemma same_lk_free a : steps same_lk (free_node (T := T) a).
Proof. by apply steps_modify. Qed.
Lemma same_lk_malloc : steps same_lk malloc_node.
Proof. intros s a s'. unfold malloc_node. destruct (malloc _). by intros [= <- <-]. Qed.
Lemma same_lk_release fl : steps same_lk (release_block (T := T) fl).
Proof.
  intros s a s'. unfold release_block. destruct fl; [| by intros [= <- <-]].
  destruct (_ !! _); [| done]. by intros [= <- <-].
Qed.
Lemma same_lk_find_into a pT n : steps same_lk (find_into (T := T) a pT n).
Proof.
  intros s c s'. unfold find_into. destruct (_ !! _); destruct (find_matching_objects _ _ _ _) as [[? ?]|];
    try done; by intros [= <- <-].
Qed.
Lemma same_lk_read fl i n : steps same_lk (read_handles (T := T) fl i n).
Proof. intros s c s'. unfold read_handles. case_c; [by intros [= <- <-] |]. destruct (_ ≫= _); [| done].
  case_c; [by intros [= <- <-] | done]. Qed.

Hint Resolve same_lk_sess same_lk_objs same_lk_blocks same_lk_free same_lk_malloc
  same_lk_release same_lk_find_into same_lk_read : steps.
Hint Resolve session_at_frame object_at_frame is_session_valid_frame get_session_frame
  malloc_tmp_frame call_sk_frame function_list_frame map_sk_live add_attr_live : steps.
Hint Extern 3 (steps same_lk _) => (apply frame_same_lk; solve [auto with steps]) : steps.

Lemma same_lk_free_nodes l : steps same_lk (free_nodes (T := T) l).
Proof. induction l as [|a l IH]; cbn [free_nodes]; steps_auto. Qed.
Hint Resolve same_lk_free_nodes : steps.

Lemma get_attr_value_frame hS hO pT n : steps frame (get_attr_value (T := T) hS hO pT n).
Proof. unfold get_attr_value, is_object_handle_valid. steps_auto. Qed.
Hint Resolve get_attr_value_frame : steps.

Lemma object_add_template_frame obj tys : steps frame (object_add_template obj tys).
Proof. intros s a s' E. by apply object_add_template_post in E as [? _]. Qed.
Hint Resolve object_add_template_frame : steps.

Lemma same_lk_insert c r : steps same_lk (insert_key_object (T := T) c r).
Proof.
  unfold insert_key_object. destruct r as [rc node]. steps_auto.
  apply frame_same_lk, on_heap_frame. intros h ??? [= E2]. by eapply add_default_attr_live.
Qed.
Hint Resolve same_lk_insert : steps.

Lemma same_lk_add_token h ot kt sl : steps same_lk (add_token_object h ot kt sl).
Proof.
  unfold add_token_object, create_rsa_pub_key_object, create_rsa_priv_key_object. steps_auto.
Qed.
Hint Resolve same_lk_add_token : steps.

Lemma same_lk_get_all_loop sl hs : forall ot kt, steps same_lk (get_all_loop hs ot kt sl).
Proof. induction hs as [|h hs IH]; intros; cbn [get_all_loop]; steps_auto. Qed.
Hint Resolve same_lk_get_all_loop : steps.

Lemma same_lk_get_all sl : steps same_lk (get_all_token_objects sl).
Proof. unfold get_all_token_objects. steps_auto. Qed.
Hint Resolve same_lk_get_all : steps.

(** ** Entry points *)

(** Between calls nobody holds the lock. *)
Definition lock_free (s : lib T) : Prop := global_lock (lk s) <> Some true.
Definition lib_inv (s : lib T) : Prop := lib_ok s /\ lock_free s.

Lemma ok_ext s s' : slot s' = slot s -> blocks s' = blocks s -> hp s' = hp s -> lib_ok s -> lib_ok s'.
Proof.
  intros Hs Hb Hh [H1 H2 H3 H4 H5 H6]. unfold nodes, sessions, objs in *.
  split; unfold nodes, sessions, objs; by rewrite ?Hs, ?Hb, ?Hh.
Qed.

Lemma on_lock_ok f s u s' : on_lock (T := T) f s = Ret (u, s') ->
  exists l, f (lk s) = Ret l /\ s' = set_lk l s.
Proof. unfold on_lock. destruct (f (lk s)) as [l|]; [| done]. intros [= <- <-]. by exists l. Qed.

Lemma lib_ok_set_lk l s : lib_ok s -> lib_ok (set_lk l s).
Proof. by apply ok_ext. Qed.

(** Lock, run, unlock: the lock is as it was. *)
Lemma lock_unlock l1 l2 l3 :
  p11_global_lock l1 = Ret l2 -> p11_global_unlock l2 = Ret l3 -> l3 = l1.
Proof.
  destruct l1 as [[[]|] [[]|]]; cbn; try done; intros [= <-] [= <-]; done.
Qed.

Lemma free_lock_None l l' : p11_free_lock l = Ret l' -> global_lock l' = None.
Proof. destruct l as [[[]|] [[]|]]; cbn; try done; by intros [= <-]. Qed.

Lemma unlock_None l l' : global_lock l = None -> p11_global_unlock l = Ret l' -> global_lock l' = None.
Proof. intros Hl. unfold p11_global_unlock. rewrite Hl. by intros [= <-]. Qed.

Lemma locked_steps {A} (body : st (lib T) A) :
  steps (keeps lib_ok) body -> steps same_lk body -> steps (keeps lib_inv) (locked body).
Proof.
  intros Hk Hl s a s' E [Hok Hf]. unfold locked in E.
  apply st_bind_inv in E as ([] & s1 & E1 & E). apply on_lock_ok in E1 as (l1 & L1 & ->).
  apply st_bind_inv in E as (r & s2 & E2 & E).
  pose proof (Hl _ _ _ E2) as [L2 _]. apply Hk in E2.
  assert (Hok2 : lib_ok s2) by by apply E2, lib_ok_set_lk.
  apply st_bind_inv in E as ([] & s3 & E3 & [= <- <-]). apply on_lock_ok in E3 as (l3 & L3 & ->).
  split; [by apply lib_ok_set_lk |]. unfold lock_free. cbn [lk set_lk] in *.
  rewrite L2 in L3. by rewrite (lock_unlock _ _ _ L1 L3).
Qed.

Lemma when_init_steps {A} R `{!PreOrder R} (err : Z -> A) (body : st (lib T) A) :
  steps R body -> steps R (when_initialized err body).
Proof. intros Hb. unfold when_initialized, is_lib_initialized. steps_auto. Qed.

Lemma with_session_frame {A} R `{!PreOrder R} h (err : Z -> A) (body : Z -> st (lib T) A) :
  (forall (B : Type) (m : st (lib T) B), steps frame m -> steps R m) ->
  (forall sp, steps R (body sp)) -> steps R (with_session h err body).
Proof.
  intros HR Hb. unfold with_session.
  apply steps_bind; [apply _ | apply HR, is_session_valid_frame | intros v].
  destruct (negb v); [by apply steps_ret |].
  apply steps_bind; [apply _ | apply HR, get_session_frame | intros [sp|]]; [done | by apply steps_ret].
Qed.

Lemma with_session_keeps {A} h (err : Z -> A) (body : Z -> st (lib T) A) :
  (forall sp, steps (keeps lib_ok) (body sp)) -> steps (keeps lib_ok) (with_session h err body).
Proof. apply with_session_frame; [apply _ | apply @frame_keeps]. Qed.
Lemma with_session_lk {A} h (err : Z -> A) (body : Z -> st (lib T) A) :
  (forall sp, steps same_lk (body sp)) -> steps same_lk (with_session h err body).
Proof. apply with_session_frame; [apply _ | apply @frame_same_lk]. Qed.

Hint Extern 3 (steps (keeps lib_ok) _) => (apply frame_keeps; solve [auto with steps]) : steps.
Hint Resolve create_session_keeps delete_session_keeps destroy_session_list_keeps
  destroy_object_list_keeps set_ctx_keeps release_block_keeps : steps.

Context `{HL : Loader}.

Lemma find_init_keeps sp pT n :
  steps (keeps lib_ok) (
    sess ← session_at sp;
    if op_active sess then mret CKR_OPERATION_ACTIVE
    else if negb (get_object_list (si_slotID (session_info sess))) then mret CKR_ARGUMENTS_BAD
    else
      l ← gets objs;
      rc ← match l with
           | [] => get_all_token_objects (si_slotID (session_info sess))
           | _ => mret CKR_OK
           end;
      if negb (rc =? CKR_OK) then mret rc
      else
        fl ← find_block sess;
        match fl with
        | None => mret CKR_HOST_MEMORY
        | Some a =>
            count ← find_into a pT n;
            set_session sp (with_find sess (Some a) count 0 true);;
            mret CKR_OK
        end).
Proof.
  intros s rc s' E Hok. apply st_bind_inv in E as (x & s1 & E1 & E).
  apply session_at_ok in E1 as (Hx & -> & Ex); [| done].
  destruct (op_active x); [by injection E as <- <- |].
  destruct (negb _); [by injection E as <- <- |]. destruct Hx as (Hsl & Hidx & Hcnt). rewrite Hsl in E.
  apply st_bind_inv in E as (l & s2 & [= <- <-] & E).
  apply st_bind_inv in E as (rc1 & s3 & E3 & E).
  assert (Hok3 : lib_ok s3).
  { destruct (objs s); [by eapply get_all_token_objects_keeps | by injection E3 as <- <-]. }
  destruct (negb _); [by injection E as <- <- |].
  apply st_bind_inv in E as (fl & s4 & E4 & E). apply find_block_ok in E4 as [Hok4 _]; [| done].
  destruct fl as [a|]; [| by injection E as <- <-].
  apply st_bind_inv in E as (c & s5 & E5 & E). apply find_into_ok in E5 as (Hok5 & _ & Hc); [| done].
  apply st_bind_inv in E as ([] & s6 & E6 & [= <- <-]).
  eapply set_session_ok; [exact Hok5 | | exact E6].
  split_and!; cbn [find_idx find_count with_find session_info]; try done; lia.
Qed.

Lemma same_lk_set_session h x : steps same_lk (set_session (T := T) h x).
Proof. unfold set_session. steps_auto. Qed.
Lemma same_lk_find_block x : steps same_lk (find_block (T := T) x).
Proof. unfold find_block. steps_auto. Qed.
Hint Resolve same_lk_set_session same_lk_find_block : steps.

Lemma find_init_inv hS pT n : steps (keeps lib_inv) (C_FindObjectsInit (T := T) hS pT n).
Proof.
  unfold C_FindObjectsInit. apply locked_steps; (apply when_init_steps; [apply _ |]);
    destruct (_ && _); try (apply steps_ret; apply _).
  - apply with_session_keeps. intros sp. apply find_init_keeps.
  - apply with_session_lk. intros sp. steps_auto.
Qed.

Lemma read_handles_pure fl i n (s : lib T) r s' : read_handles fl i n s = Ret (r, s') -> s' = s.
Proof.
  unfold read_handles. destruct (n =? 0); [by intros [= <- <-] |].
  destruct (_ ≫= _) as [b|]; [| done]. case_c; [by intros [= <- <-] | done].
Qed.

Lemma find_objects_inv hS p n q : steps (keeps lib_inv) (C_FindObjects (T := T) hS p n q).
Proof.
  unfold C_FindObjects. apply locked_steps; (apply when_init_steps; [apply _ |]).
  - apply with_session_keeps. intros sp s r s' E Hok.
    apply st_bind_inv in E as (x & s1 & E1 & E). apply session_at_ok in E1 as (Hx & -> & Ex); [| done].
    destruct (negb (op_active x)); [by injection E as <- <- |].
    destruct (negb p || negb q); [by injection E as <- <- |].
    apply st_bind_inv in E as (hs & s2 & E2 & E).
    apply read_handles_pure in E2 as ->.
    apply st_bind_inv in E as ([] & s3 & E3 & [= <- <-]).
    eapply set_session_ok; [exact Hok | | exact E3].
    destruct Hx as (H1 & H2 & H3). unfold MAX_FIND_LIST_OBJECTS in *.
    split_and!; cbn [find_idx find_count with_find session_info]; try done.
    + apply Z.mod_pos_bound. lia.
    + pose proof (Z.mod_pos_bound n (2 ^ 64) eq_refl). unfold u64.
      rewrite (Z.mod_small (find_count x - _)) by lia. rewrite Z.mod_small; lia.
  - apply with_session_lk. intros sp. steps_auto.
Qed.

Lemma find_final_inv hS : steps (keeps lib_inv) (C_FindObjectsFinal (T := T) hS).
Proof.
  unfold C_FindObjectsFinal. apply locked_steps; (apply when_init_steps; [apply _ |]).
  - apply with_session_keeps. intros sp s r s' E Hok.
    apply st_bind_inv in E as (x & s1 & E1 & E). apply session_at_ok in E1 as (Hx & -> & Ex); [| done].
    destruct (negb (op_active x)); [by injection E as <- <- |].
    apply st_bind_inv in E as ([] & s2 & E2 & E). apply st_bind_inv in E as ([] & s3 & E3 & [= <- <-]).
    apply set_session_ok in E2; [by eapply release_block_keeps | done |].
    destruct Hx as (H1 & H2 & H3). unfold MAX_FIND_LIST_OBJECTS in *.
    split_and!; cbn [find_idx find_count with_find session_info]; try done; unfold MAX_FIND_LIST_OBJECTS; lia.
  - apply with_session_lk. intros sp. steps_auto.
Qed.

Lemma same_lk_create_session sl fl : steps same_lk (create_session (T := T) sl fl).
Proof. unfold create_session. steps_auto. Qed.
Lemma same_lk_delete_session h : steps same_lk (delete_session (T := T) h).
Proof. unfold delete_session. steps_auto. Qed.
Lemma same_lk_destroy_sessions sl : steps same_lk (destroy_session_list (T := T) sl).
Proof. unfold destroy_session_list. steps_auto. Qed.
Lemma same_lk_destroy_objects sl : steps same_lk (destroy_object_list (T := T) sl).
Proof. unfold destroy_object_list. steps_auto. Qed.
Lemma same_lk_set_ctx h c : steps same_lk (set_ctx (T := T) h c).
Proof. unfold set_ctx. steps_auto. Qed.
Hint Resolve same_lk_create_session same_lk_delete_session same_lk_destroy_sessions
  same_lk_destroy_objects same_lk_set_ctx : steps.

Lemma open_session_inv sl fl p : steps (keeps lib_inv) (C_OpenSession (T := T) sl fl p).
Proof.
  unfold C_OpenSession. destruct (sl =? TEE_SLOT_ID) eqn:Es; boolz; try subst sl; cbn [negb];
    apply locked_steps; (apply when_init_steps; [apply _ |]); steps_auto.
Qed.

Lemma close_session_inv h : steps (keeps lib_inv) (C_CloseSession (T := T) h).
Proof. unfold C_CloseSession. apply locked_steps; (apply when_init_steps; [apply _ |]); steps_auto. Qed.
Lemma close_all_inv sl : steps (keeps lib_inv) (C_CloseAllSessions (T := T) sl).
Proof. unfold C_CloseAllSessions. apply locked_steps; (apply when_init_steps; [apply _ |]); steps_auto. Qed.
Lemma session_info_inv h p : steps (keeps lib_inv) (C_GetSessionInfo (T := T) h p).
Proof.
  unfold C_GetSessionInfo, get_session_info.
  apply locked_steps; (apply when_init_steps; [apply _ |]); steps_auto.
Qed.
Lemma attr_value_inv h o p n : steps (keeps lib_inv) (C_GetAttributeValue (T := T) h o p n).
Proof. unfold C_GetAttributeValue. apply locked_steps; (apply when_init_steps; [apply _ |]); steps_auto. Qed.

Lemma sign_init_inv h m k : steps (keeps lib_inv) (C_SignInit (T := T) h m k).
Proof.
  unfold C_SignInit. apply locked_steps; (apply when_init_steps; [apply _ |]); destruct m;
    try (apply steps_ret; apply _).
  - apply with_session_keeps. intros sp. unfold is_object_handle_valid, sign_init. steps_auto.
  - apply with_session_lk. intros sp. unfold is_object_handle_valid, sign_init. steps_auto.
Qed.

Lemma rsa_sign_frame h sp d n p q : steps frame (rsa_sign_pkcs h sp d n p q).
Proof. unfold rsa_sign_pkcs. steps_auto. Qed.
Lemma rsa_hash_sign_frame h sp d n p q : steps frame (rsa_hash_sign_pkcs h sp d n p q).
Proof. unfold rsa_hash_sign_pkcs. steps_auto. Qed.
Hint Resolve rsa_sign_frame rsa_hash_sign_frame : steps.

Lemma sign_inv h d n p q : steps (keeps lib_inv) (C_Sign (T := T) h d n p q).
Proof.
  unfold C_Sign. apply locked_steps; (apply when_init_steps; [apply _ |]); destruct d, q;
    try (apply steps_ret; apply _).
  - apply with_session_keeps. intros sp. unfold sign. steps_auto.
  - apply with_session_lk. intros sp. unfold sign. steps_auto.
Qed.

Lemma slot_list_inv p q : steps (keeps lib_inv) (C_GetSlotList (T := T) p q).
Proof.
  unfold C_GetSlotList. apply locked_steps; (apply when_init_steps; [apply _ |]); steps_auto.
  - apply steps_modify. intros s Hok. eapply shrink_ok; [exact Hok | done | done | done | apply Hok | apply Hok].
  - by apply steps_modify.
Qed.

(** ** Initialisation and finalisation *)

Definition slot_same (s s' : lib T) : Prop := blocks s' = blocks s /\ hp s' = hp s /\
  objs s' = objs s /\ sessions s' = sessions s.

Lemma slot_same_ok s s' : slot_same s s' -> lib_ok s -> lib_ok s'.
Proof.
  intros (Hb & Hh & Ho & Hs) Hok. eapply shrink_ok; [exact Hok | done | done | | |].
  - unfold nodes. by rewrite Ho, Hs.
  - rewrite Hs. apply Hok.
  - rewrite Ho. apply Hok.
Qed.

Lemma set_lib_same a b c (s : lib T) : slot_same s (set_lib a b c s).
Proof. by split_and!. Qed.

Lemma initialize_slot_keeps sl : steps (keeps lib_ok) (initialize_slot (T := T) sl).
Proof.
  unfold initialize_slot. steps_auto.
  - intros s a s'. unfold open_shared_lib. case_c; intros [= <- <-]; [| done].
    exact (slot_same_ok _ _ (set_lib_same _ _ _ _)).
  - apply steps_modify. intros s. exact (slot_same_ok _ _ (set_lib_same _ _ _ _)).
  - intros s r s'. unfold get_function_list. case_c; cbn; intros [= <- <-]; try done;
    exact (slot_same_ok _ _ (set_lib_same _ _ _ _)).
  - unfold initialize_object_list. steps_auto. apply steps_modify. intros s Hok. by apply clear_lists_ok.
  - unfold initialize_session_list. steps_auto. apply steps_modify. intros s Hok. by apply clear_lists_ok.
Qed.

Lemma initialize_slot_lk sl : steps same_lk (initialize_slot (T := T) sl).
Proof.
  unfold initialize_slot. steps_auto.
  - intros s a s'. unfold open_shared_lib. case_c; by intros [= <- <-].
  - by apply steps_modify.
  - intros s r s'. unfold get_function_list. case_c; cbn; by intros [= <- <-].
  - unfold initialize_object_list. steps_auto.
  - unfold initialize_session_list. steps_auto.
Qed.

Lemma destroy_slot_keeps sl : steps (keeps lib_ok) (destroy_slot (T := T) sl).
Proof.
  unfold destroy_slot. steps_auto. intros s u s'. unfold close_shared_lib. case_c; try done; intros [= <- <-];
    [exact (slot_same_ok _ _ (set_lib_same _ _ _ _)) | done].
Qed.

Lemma destroy_slot_lk sl : steps same_lk (destroy_slot (T := T) sl).
Proof.
  unfold destroy_slot. steps_auto. intros s u s'. unfold close_shared_lib. case_c; try done; by intros [= <- <-].
Qed.

Lemma init_lock_ok args s rc s' :
  lib_inv s -> p11_init_lock (T := T) args s = Ret (rc, s') -> lib_inv s'.
Proof.
  intros [Hok Hf] E. unfold p11_init_lock in E.
  destruct (global_lock (lk s)) eqn:El; [by injection E as <- <- |].
  assert (Hd : lib_inv (set_lk (mkLock None None) s)) by (split; [by apply lib_ok_set_lk | done]).
  destruct args as [p|]; [| by injection E as <- <-].
  destruct (ia_pReserved p); [by injection E as <- <- |].
  destruct (_ && _); [by injection E as <- <- |].
  match type of E with match ?f with _ => _ end = _ => destruct f as [[]|] end; [| | by injection E as <- <-].
  - unfold create_global_lock in E. destruct (mallocs 1 _) as [[] h] eqn:Em; injection E as <- <-;
      apply mallocs_live in Em; (split; [| done]); (eapply (frame_ok (set_lk (lk _) s)); [| by apply lib_ok_set_lk]);
      by split_and!.
  - unfold create_global_lock in E. destruct (default _ _) as [rv stored]. injection E as <- <-.
    split; [by do 2 apply lib_ok_set_lk |]. unfold lock_free. cbn. destruct stored; discriminate.
Qed.

Lemma initialize_inv args : steps (keeps lib_inv) (C_Initialize (T := T) args).
Proof.
  intros s rc s' E Hinv. unfold C_Initialize in E.
  apply st_bind_inv in E as (i & s0 & [= <- <-] & E). destruct (initialized s); [by injection E as <- <- |].
  apply st_bind_inv in E as (rc1 & s1 & E1 & E). apply init_lock_ok in E1 as [Hok1 Hf1]; [| done].
  destruct (negb _); [by injection E as <- <- |].
  apply st_bind_inv in E as ([] & s2 & E2 & E). apply on_lock_ok in E2 as (l2 & L2 & ->).
  apply st_bind_inv in E as ([] & s3 & [= <-] & E).
  apply st_bind_inv in E as (rc4 & s4 & E4 & E).
  pose proof (initialize_slot_lk _ _ _ _ E4) as [L4 _]. apply initialize_slot_keeps in E4.
  assert (Hok4 : lib_ok s4) by (apply E4; by eapply ok_ext, Hok1).
  cbn [lk set_lk set_initialized] in L4.
  apply st_bind_inv in E as (rc5 & s5 & E5 & E). apply st_bind_inv in E as ([] & s6 & E6 & [= <- <-]).
  apply on_lock_ok in E6 as (l6 & L6 & ->). destruct (negb _).
  - apply st_bind_inv in E5 as ([] & s7 & E7 & [= <- <-]). apply on_lock_ok in E7 as (l7 & L7 & ->).
    split; [by do 2 apply lib_ok_set_lk |]. unfold lock_free. cbn [lk set_lk] in *.
    apply free_lock_None in L7. by rewrite (unlock_None _ _ L7 L6).
  - injection E5 as <- <-. split; [by apply lib_ok_set_lk |]. unfold lock_free. cbn [lk set_lk].
    rewrite L4 in L6. by rewrite (lock_unlock _ _ _ L2 L6).
Qed.

Lemma finalize_inv p : steps (keeps lib_inv) (C_Finalize (T := T) p).
Proof.
  intros s rc s' E [Hok Hf]. unfold C_Finalize in E. destruct p; [by injection E as <- <- |].
  apply st_bind_inv in E as ([] & s1 & E1 & E). apply on_lock_ok in E1 as (l1 & L1 & ->).
  apply st_bind_inv in E as (i & s2 & [= <- <-] & E).
  apply st_bind_inv in E as (rc3 & s3 & E3 & E). apply st_bind_inv in E as ([] & s4 & E4 & [= <- <-]).
  apply on_lock_ok in E4 as (l4 & L4 & ->).
  assert (Hok3 : lib_ok s3).
  { destruct (negb _); [injection E3 as <- <-; by apply lib_ok_set_lk |].
    apply st_bind_inv in E3 as (rc5 & s5 & E5 & E3). apply destroy_slot_keeps in E5.
    apply st_bind_inv in E3 as ([] & s6 & [= <-] & [= <- <-]).
    eapply (ok_ext s5); [done.. |]. by apply E5, lib_ok_set_lk. }
  split; [by apply lib_ok_set_lk |]. unfold lock_free. cbn [lk set_lk].
  by rewrite (free_lock_None _ _ L4).
Qed.

(** ** Histories of calls *)

(** Every entry point of the library that reads or changes its state. *)
Inductive call :=
| Initialize (args : option CK_C_INITIALIZE_ARGS)
| Finalize (pReserved : bool)
| GetSlotList (pSlotList : option (list Z)) (pulCount : option Z)
| OpenSession (slotID flags : Z) (phSession : bool)
| CloseSession (hSession : Z)
| CloseAllSessions (slotID : Z)
| GetSessionInfo (hSession : Z) (pInfo : bool)
| GetAttributeValue (hSession hObject : Z) (pTemplate : option (list CK_ATTRIBUTE)) (ulCount : Z)
| FindObjectsInit (hSession : Z) (pTemplate : option (list CK_ATTRIBUTE)) (ulCount : Z)
| FindObjects (hSession : Z) (phObject : bool) (ulMaxObjectCount : Z) (pulObjectCount : bool)
| FindObjectsFinal (hSession : Z)
| SignInit (hSession : Z) (pMechanism : option CK_MECHANISM) (hKey : Z)
| Sign (hSession : Z) (pData : option (list Z)) (ulDataLen : Z) (pSignature : option (list Z))
    (pulSignatureLen : option Z).

(** The call's effect, with its return value. *)
Definition run (c : call) : st (lib T) Z :=
  match c with
  | Initialize args => C_Initialize args
  | Finalize p => C_Finalize p
  | GetSlotList p q => r ← C_GetSlotList p q; mret r.1.1
  | OpenSession sl fl p => r ← C_OpenSession sl fl p; mret r.1
  | CloseSession h => C_CloseSession h
  | CloseAllSessions sl => C_CloseAllSessions sl
  | GetSessionInfo h p => r ← C_GetSessionInfo h p; mret r.1
  | GetAttributeValue h o p n => r ← C_GetAttributeValue h o p n; mret r.1
  | FindObjectsInit h p n => C_FindObjectsInit h p n
  | FindObjects h p n q => r ← C_FindObjects h p n q; mret r.1
  | FindObjectsFinal h => C_FindObjectsFinal h
  | SignInit h m k => C_SignInit h m k
  | Sign h d n p q => r ← C_Sign h d n p q; mret r.1.1
  end.

Inductive api_step : lib T -> lib T -> Prop :=
| api_call c s rc s' : run c s = Ret (rc, s') -> api_step s s'.

(** The library as the loader leaves it: zeroed statics. *)
Definition loaded (t : T) : lib T :=
  mkLib false (mkLock None None) (mkSlot 0 [] [] false false false) ∅ (mkHeap 0 ∅) t.

Definition reachable (s : lib T) : Prop := exists t, rtc api_step (loaded t) s.

Lemma run_inv c : steps (keeps lib_inv) (run c).
Proof.
  destruct c; cbn [run]; try (apply steps_bind; [apply _ | | intros r; apply steps_ret, _]);
    auto using initialize_inv, finalize_inv, slot_list_inv, open_session_inv, close_session_inv,
      close_all_inv, session_info_inv, attr_value_inv, find_init_inv, find_objects_inv,
      find_final_inv, sign_init_inv, sign_inv.
Qed.

(** A history, with the return values of its calls. *)
Fixpoint run_calls (cs : list call) : st (lib T) (list Z) :=
  match cs with
  | [] => mret []
  | c :: r => rc ← run c; rcs ← run_calls r; mret (rc :: rcs)
  end.

Lemma run_calls_reachable t cs rcs s : run_calls cs (loaded t) = Ret (rcs, s) -> reachable s.
Proof.
  intros E. exists t. revert rcs E. generalize (loaded t) as s0.
  induction cs as [|c cs IH]; intros s0 rcs E; cbn [run_calls] in E; [injection E as <- <-; constructor |].
  apply st_bind_inv in E as (rc & s1 & E1 & E). apply st_bind_inv in E as (l & s2 & E2 & [= <- <-]).
  eapply rtc_l; [econstructor; exact E1 | by eapply IH].
Qed.

Lemma loaded_inv t : lib_inv (loaded t).
Proof.
  split; [| done]. split; cbn.
  - constructor.
  - intros a [Ha|[? Ha]]; [by apply elem_of_nil in Ha | by rewrite lookup_empty in Ha].
  - intros a Ha. by apply elem_of_nil in Ha.
  - intros a b Hb. by rewrite lookup_empty in Hb.
  - constructor.
  - constructor.
Qed.

Lemma reachable_inv s : reachable s -> lib_inv s.
Proof.
  intros [t Hr]. assert (Hi : lib_inv (loaded t)) by apply loaded_inv. revert Hi.
  induction Hr as [|x y z [c x' rc y' E] _ IH]; [done |].
  intros Hi. apply IH. by eapply run_inv.
Qed.

(** C9: in every state that any sequence of calls, with any arguments and any
    answers of allocator, loader and secure-key library, can reach from a
    freshly loaded library, all handles are distinct live addresses, every
    session is positioned inside its find list, every object's template has at
    most one attribute of a type and guards the private components of a private
    key, and no call has left the global lock held. *)
Theorem reachable_invariant s : reachable s -> lib_ok s /\ lock_free s.
Proof. apply reachable_inv. Qed.

End Alloc.
End Invariant.

(** ** A concrete library *)

(** A token with one RSA key pair, a malloc that never fails, a loader that
    finds the library, and zeroed fresh memory. *)
Definition demo_attr (ty : Z) : list Z :=
  if ty =? SK_ATTR_OBJECT_TYPE then le_bytes 4 SK_KEY_PAIR
  else if ty =? SK_ATTR_KEY_TYPE then le_bytes 4 SKK_RSA
  else if ty =? SK_ATTR_OBJECT_LABEL then [65; 66]
  else if ty =? SK_ATTR_OBJECT_INDEX then [7; 0; 0; 0]
  else if ty =? SK_ATTR_MODULUS then replicate 16 129
  else if ty =? SK_ATTR_PUBLIC_EXPONENT then [1; 0; 1]
  else le_bytes 4 128.

Definition demo_answer (x : SK_ATTRIBUTE) : SK_ATTRIBUTE :=
  let v := demo_attr (sa_type x) in
  match sa_value x with
  | None => mkSK (sa_type x) None (Z.of_nat (length v))
  | Some m => mkSK (sa_type x) (Some (v ++ drop (length v) m)) (Z.of_nat (length v))
  end.

Definition demo_token : SK_FUNCTION_LIST unit := {|
  SK_EnumerateObjects _ _ _ t := Ret (SKR_OK, [1], t);
  SK_GetObjectAttribute _ l t := Ret (SKR_OK, demo_answer <$> l, t);
  SK_Sign _ _ _ _ t := Ret (SKR_OK, replicate 16 1, t);
  SK_Decrypt _ _ d _ t := Ret (SKR_OK, rev d, t);
  SK_Digest _ _ _ t := Ret (SKR_OK, replicate 16 2, t)
|}.

Lemma zeros_length n : 0 <= n -> Z.of_nat (length (zeros n)) = n.
Proof. intros. unfold zeros. len. Qed.
Definition demo_indet : Indet := {| indet := zeros; indet_length := zeros_length |}.
Definition demo_loader : Loader := {| dlopen_ok := true; dlsym_ok := true |}.
Definition demo_alloc : Allocator := bump_allocator (fun _ => false).

Definition demo_run (cs : list call) : outcome (list Z * lib unit) :=
  run_calls (H := demo_alloc) (HI := demo_indet) (HS := demo_token) (HL := demo_loader) cs (loaded tt).
Definition demo_state (cs : list call) : lib unit :=
  match demo_run cs with Ret (_, s) => s | Undef => loaded tt end.

(** Initialise with the library's own mutex, open a session, search everything. *)
Definition demo_calls : list call :=
  [Initialize (Some (mkInit None false false false CKF_OS_LOCKING_OK false));
   OpenSession TEE_SLOT_ID CKF_SERIAL_SESSION true;
   FindObjectsInit 1 None 0].

Lemma reachable_invariant_witness :
  lib_ok (demo_state demo_calls) /\ length (objs (demo_state demo_calls)) = 2%nat.
Proof.
  split; [| vm_compute; reflexivity].
  apply (reachable_invariant (H := demo_alloc) (HI := demo_indet) (HS := demo_token) (HL := demo_loader)).
  apply (run_calls_reachable tt demo_calls [CKR_OK; CKR_OK; CKR_OK]). vm_compute. reflexivity.
Defined.

(** The same with a second, idle session: sessions 5 and 1, the private key
    object 3 and the public key object 2. *)
Definition demo_calls2 : list call :=
  demo_calls ++ [OpenSession TEE_SLOT_ID CKF_SERIAL_SESSION true].

#[export] Existing Instance demo_alloc | 100.
#[export] Existing Instance demo_indet | 100.
#[export] Existing Instance demo_token | 100.
#[export] Existing Instance demo_loader | 100.

Lemma demo_ok cs rcs s : demo_run cs = Ret (rcs, s) -> lib_ok s /\ lock_free s.
Proof. intros E. eapply reachable_inv, run_calls_reachable, E. Qed.

Lemma demo2_ok : lib_ok (demo_state demo_calls2) /\ lock_free (demo_state demo_calls2).
Proof. apply (demo_ok demo_calls2 [CKR_OK; CKR_OK; CKR_OK; CKR_OK]). vm_compute. reflexivity. Qed.

Definition demo_obj (h : Z) : OBJECT :=
  default (mkObj 0 0 0 [] 0) (assoc h (objs (demo_state demo_calls2))).
Definition demo_sess (h : Z) : session :=
  default (mkSess (mkSI 0 0 0 0) None 0 0 false null_sign_ctx)
    (assoc h (sessions (demo_state demo_calls2))).
