(* ===== verification/P11Theorems.v ===== *)
(** * Behaviour of the PKCS#11 entry points

    What a client can rely on in a reachable state: searches deliver exactly
    the matching objects, in chunks; attribute reads deliver the stored value,
    its size, or the error of the first rule that applies, and never a private
    component of a private key; sessions have fresh handles; and what goes wrong
    on the paths the code does not guard. *)

From stdpp Require Import base numbers list gmap.
From S2P Require Import Prelude SkTypes AttrCodec P11Types P11Template P11State P11Sessions.
From S2P Require Import P11Objects P11General P11Api P11Crypto P11Invariant.

(** ** Running an entry point *)

Section Running.
Context {T : Type}.

Lemma set_lk_lk (s : lib T) l : set_lk (lk s) (set_lk l s) = s.
Proof. by destruct s. Qed.

(** With the lock free an entry point runs its body under the lock, and gives
    it back. *)
Lemma locked_run {A} (body : st (lib T) A) s : lock_free s ->
  exists l, forall a s2, body (set_lk l s) = Ret (a, s2) -> lk s2 = l ->
    locked body s = Ret (a, set_lk (lk s) s2).
Proof.
  intros Hf. assert (Hl : exists l, p11_global_lock (lk s) = Ret l /\ p11_global_unlock l = Ret (lk s)).
  { unfold lock_free in Hf. destruct (lk s) as [[[]|] [[]|]]; cbn in *; try done; eauto. }
  destruct Hl as (l & H1 & H2). exists l. intros a s2 E El. unfold locked, on_lock, mbind, st_bind.
  rewrite H1, E, El, H2. done.
Qed.

Lemma locked_intro {A} (body : st (lib T) A) s a s' : lock_free s ->
  (forall l, exists s2, body (set_lk l s) = Ret (a, s2) /\ lk s2 = l /\ set_lk (lk s) s2 = s') ->
  locked body s = Ret (a, s').
Proof.
  intros Hf Hb. destruct (locked_run body s Hf) as [l Hrun].
  destruct (Hb l) as (s2 & E & El & <-). by apply Hrun.
Qed.

Lemma locked_undef {A} (body : st (lib T) A) s :
  (forall l, body (set_lk l s) = Undef) -> locked body s = Undef.
Proof.
  intros Hb. unfold locked, on_lock, mbind, st_bind. destruct (p11_global_lock (lk s)); [| done].
  by rewrite Hb.
Qed.

Lemma session_valid_run h x (s : lib T) : assoc h (sessions s) = Some x -> sess_ok x ->
  is_session_valid h s = Ret (true, s).
Proof.
  intros Ex (Hsl & _). unfold is_session_valid, session_at, mbind, st_bind. rewrite Ex, Hsl. cbn.
  unfold gets. rewrite (proj2 (existsb_assoc _ _)); [done | by rewrite Ex].
Qed.

Lemma with_session_run {A} h x (err : Z -> A) body (s : lib T) :
  assoc h (sessions s) = Some x -> sess_ok x -> with_session h err body s = body h s.
Proof.
  intros Ex Hx. unfold with_session, get_session, mbind, st_bind.
  rewrite (session_valid_run _ _ _ Ex Hx). cbn [negb]. by rewrite (session_valid_run _ _ _ Ex Hx).
Qed.

Lemma when_init_run {A} (err : Z -> A) body (s : lib T) :
  initialized s = true -> when_initialized err body s = body s.
Proof. intros Hi. unfold when_initialized, is_lib_initialized, gets, mbind, st_bind. by rewrite Hi. Qed.

Lemma session_at_run h x (s : lib T) : assoc h (sessions s) = Some x -> session_at h s = Ret (x, s).
Proof. intros Ex. unfold session_at. by rewrite Ex. Qed.

(** ** Searching *)

(** The handles of the objects a search should find, in list order. *)
Definition matching (pTemplate : option (list CK_ATTRIBUTE)) (ulCount : Z) (l : list (Z * OBJECT)) : list Z :=
  if ulCount =? 0 then l.*1
  else (filter (fun o => forallb (attr_in (template_list o.2))
          (take (Z.to_nat ulCount) (default [] pTemplate)) = true) l).*1.

(** A search template the caller may pass: null with a zero count, or an array
    of at least [ulCount] well-formed attributes. *)
Definition search_ok (pTemplate : option (list CK_ATTRIBUTE)) (ulCount : Z) : Prop :=
  match pTemplate with
  | None => ulCount = 0
  | Some l => 0 <= ulCount <= Z.of_nat (length l) /\ Forall ck_wf l
  end.

Lemma insert_app_cons (pre rest : list Z) h i :
  length pre = i -> rest <> [] -> <[i := h]> (pre ++ rest) = (pre ++ [h]) ++ drop 1 rest.
Proof.
  intros <- Hr. destruct rest as [|r rest]; [done |].
  rewrite insert_app_r_alt by lia. rewrite Nat.sub_diag. cbn. by rewrite <- app_assoc.
Qed.

(** The loop appends the matching handles to those stored so far. *)
Lemma find_loop_spec test keep l : forall pre rest,
  (forall o, o ∈ l.*2 -> match test with
    | Some p => p11_template_compare p (template_list o)
    | None => Ret true end = Ret (keep o)) ->
  Z.of_nat (length (pre ++ rest)) = MAX_FIND_LIST_OBJECTS ->
  let found := (filter (fun o => keep o.2 = true) l).*1 in
  find_matching_loop test l (Z.of_nat (length pre)) (pre ++ rest) =
    if Z.of_nat (length pre + length found) <=? MAX_FIND_LIST_OBJECTS
    then Ret (pre ++ found ++ drop (length found) rest, Z.of_nat (length pre + length found))
    else Undef.
Proof.
  unfold MAX_FIND_LIST_OBJECTS.
  induction l as [|[h obj] l IH]; intros pre rest Hk Hlen; cbn [find_matching_loop].
  { cbn. rewrite length_app in Hlen. rewrite (proj2 (Z.leb_le _ _)) by lia.
    by rewrite drop_0, Nat.add_0_r. }
  rewrite Hk by (cbn; constructor). rewrite ret_bind, filter_cons. cbn [snd].
  assert (Hk' : forall o, o ∈ l.*2 -> match test with
    | Some p => p11_template_compare p (template_list o) | None => Ret true end = Ret (keep o)).
  { intros o Ho. apply Hk. cbn. by constructor. }
  destruct (keep obj) eqn:Eo; cycle 1.
  { rewrite decide_False by done. by apply IH. }
  rewrite decide_True by done. cbn [fmap list_fmap fst length].
  unfold store_handle. destruct rest as [|r rest].
  { rewrite app_nil_r in *. rewrite Hlen, Z.ltb_irrefl. cbn [guard_c mbind outcome_bind].
    by rewrite (proj2 (Z.leb_gt _ _)) by lia. }
  rewrite length_app in Hlen. cbn [length] in Hlen.
  assert (Hlt : (Z.of_nat (length pre) <? Z.of_nat (length (pre ++ r :: rest))) = true)
    by (apply Z.ltb_lt; rewrite length_app; cbn [length]; lia).
  rewrite Hlt.
  cbn [guard_c mbind outcome_bind]. rewrite Nat2Z.id, (insert_app_cons pre (r :: rest)) by done.
  cbn [drop]. rewrite drop_0. unfold MAX_FIND_LIST_OBJECTS. rewrite (proj2 (Z.ltb_ge _ _)) by lia.
  replace (Z.of_nat (length pre) + 1) with (Z.of_nat (length (pre ++ [h]))) by (rewrite length_app; cbn; lia).
  rewrite IH; [| done | rewrite !length_app; cbn [length]; lia].
  rewrite length_app. cbn [length].
  replace (length pre + 1 + length (filter (λ o, keep o.2 = true) l).*1)%nat
    with (length pre + S (length (filter (λ o, keep o.2 = true) l).*1))%nat by lia.
  destruct (_ <=? _); [| done]. f_equal. f_equal. by rewrite <- app_assoc.
Qed.

Lemma filter_everything {A} (l : list A) : filter (fun _ => true = true) l = l.
Proof. induction l as [|a l IH]; [done |]. rewrite filter_cons, decide_True by done. by rewrite IH. Qed.

(** A search into a fresh find list stores exactly the handles of the
    matching objects, in list order, and their number; the 101st match is
    written one element past the list of 100. *)
Theorem find_matching_objects_spec block l pTemplate ulCount :
  Z.of_nat (length block) = MAX_FIND_LIST_OBJECTS ->
  search_ok pTemplate ulCount -> Forall obj_ok l.*2 ->
  let found := matching pTemplate ulCount l in
  find_matching_objects block l pTemplate ulCount =
    if Z.of_nat (length found) <=? MAX_FIND_LIST_OBJECTS
    then Ret (found ++ drop (length found) block, Z.of_nat (length found))
    else Undef.
Proof.
  intros Hb Hs Ho found. subst found. unfold find_matching_objects, matching.
  destruct (ulCount =? 0) eqn:E; cbn [negb]; boolz.
  - pose proof (find_loop_spec None (fun _ => true) l [] block) as Hf.
    rewrite filter_everything in Hf. by apply Hf.
  - destruct pTemplate as [p|]; [| done]. destruct Hs as [Hn Hp]. cbn [ck_prefix].
    rewrite (proj2 (Z.leb_le _ _)) by lia. cbn [guard_c mbind outcome_bind].
    apply (find_loop_spec (Some (Some (take (Z.to_nat ulCount) p)))
      (fun o => forallb (attr_in (template_list o)) (take (Z.to_nat ulCount) p)) l [] block); [| done].
    intros o Hin. rewrite Forall_forall in Ho. destruct (Ho o Hin) as [[_ Hw] _].
    apply compare_sub_template; [by apply Forall_take | done].
Qed.

(** Without a list behind the pointer the first match has nowhere to go. *)
Lemma find_loop_dangling test keep l :
  (forall o, o ∈ l.*2 -> match test with
    | Some p => p11_template_compare p (template_list o)
    | None => Ret true end = Ret (keep o)) ->
  filter (fun o : Z * OBJECT => keep o.2 = true) l <> [] -> find_matching_loop test l 0 [] = Undef.
Proof.
  induction l as [|[h obj] l IH]; intros Hk Hn; [done |]. cbn [find_matching_loop].
  rewrite Hk by (cbn; constructor). rewrite ret_bind. rewrite filter_cons in Hn. cbn [snd] in Hn.
  destruct (keep obj) eqn:Eo; [done |]. rewrite decide_False in Hn by done.
  apply IH; [| done]. intros o Ho. apply Hk. cbn. by constructor.
Qed.

Lemma find_dangling l pT n :
  search_ok pT n -> Forall obj_ok l.*2 -> 0 < Z.of_nat (length (matching pT n l)) ->
  find_matching_objects [] l pT n = Undef.
Proof.
  intros Hs Ho. unfold find_matching_objects, matching.
  destruct (n =? 0) eqn:E; cbn [negb]; boolz; rewrite length_fmap; intros Hpos.
  - apply (find_loop_dangling None (fun _ => true)); [done |]. rewrite filter_everything.
    by intros ->.
  - destruct pT as [p|]; [| done]. destruct Hs as [Hn Hp]. cbn [ck_prefix default] in *.
    rewrite (proj2 (Z.leb_le _ _)) by lia. cbn [guard_c mbind outcome_bind].
    apply (find_loop_dangling _ (fun o => forallb (attr_in (template_list o)) (take (Z.to_nat n) p))).
    + intros o Hin. rewrite Forall_forall in Ho. destruct (Ho o Hin) as [[_ Hw] _].
      apply compare_sub_template; [by apply Forall_take | done].
    + intros Hnil. revert Hpos. cbn [from_option]. unfold id. by rewrite Hnil.
Qed.

(** One C_FindObjects on a search in progress. *)
Lemma find_objects_run h n x a block (s : lib T) :
  lock_free s -> initialized s = true -> assoc h (sessions s) = Some x -> sess_ok x ->
  op_active x = true -> find_list x = Some a -> blocks s !! a = Some block ->
  Z.of_nat (length block) = MAX_FIND_LIST_OBJECTS ->
  let c := Z.min (u64 n) (find_count x - find_idx x) in
  C_FindObjects h true n true s =
    Ret ((CKR_OK, Some (take (Z.to_nat c) (drop (Z.to_nat (find_idx x)) block))),
         set_sess (assoc_set h (with_find x (Some a) (find_count x) (find_idx x + c) true) (sessions s)) s).
Proof.
  intros Hf Hi Ex Hx Ha Hl Hb Hlen c. pose proof Hx as (_ & Hidx & Hcnt).
  unfold MAX_FIND_LIST_OBJECTS in *.
  unfold C_FindObjects. apply locked_intro; [done |]. intros l.
  exists (set_sess (assoc_set h (with_find x (Some a) (find_count x) (find_idx x + c) true) (sessions s))
            (set_lk l s)). split_and!; [| done | by destruct s].
  rewrite when_init_run by done. rewrite (with_session_run h x) by done.
  unfold mbind, st_bind. rewrite (session_at_run h x) by done. rewrite Ha. cbn [negb orb].
  assert (Hu : u64 (find_count x - find_idx x) = find_count x - find_idx x) by (apply u64_small; lia).
  rewrite !Hu. cbv zeta. fold c. assert (Hc : 0 <= c <= find_count x - find_idx x).
  { unfold c, u64. pose proof (Z.mod_pos_bound n (2 ^ 64) eq_refl). lia. }
  clearbody c. unfold read_handles. rewrite Hl. cbn [mbind option_bind]. cbn [blocks set_lk]. rewrite Hb.
  rewrite (proj2 (Z.leb_le _ _)) by lia. rewrite (u64_small (find_idx x + c)) by lia.
  destruct (c =? 0) eqn:Ec; boolz; [| done]. rewrite Ec. done.
Qed.

(** Successive C_FindObjects calls with the given array sizes. *)
Fixpoint run_finds (h : Z) (ms : list Z) : st (lib T) (list (list Z)) :=
  match ms with
  | [] => mret []
  | m :: r => '(rc, hs) ← C_FindObjects h true m true; rest ← run_finds h r;
              mret (default [] hs :: rest)
  end.

Definition chunk_total (ms : list Z) : Z := foldr Z.add 0 ms.

Lemma run_finds_spec h a block ms : forall x (s : lib T),
  Forall (fun m => 0 <= m < 2 ^ 64) ms ->
  lock_free s -> initialized s = true -> assoc h (sessions s) = Some x -> sess_ok x ->
  op_active x = true -> find_list x = Some a -> blocks s !! a = Some block ->
  Z.of_nat (length block) = MAX_FIND_LIST_OBJECTS ->
  exists chunks s', run_finds h ms s = Ret (chunks, s') /\
    concat chunks = take (Z.to_nat (Z.min (chunk_total ms) (find_count x - find_idx x)))
                      (drop (Z.to_nat (find_idx x)) block) /\
    length chunks = length ms.
Proof.
  induction ms as [|m ms IH]; intros x s Hms Hf Hi Ex Hx Ha Hl Hb Hlen; cbn [run_finds chunk_total foldr].
  { exists [], s. split_and!; try done. destruct Hx as (_ & ? & _).
    rewrite Z.min_l by lia. done. }
  inversion Hms as [|?? Hm Hms']; subst. unfold mbind at 1, st_bind at 1.
  rewrite (find_objects_run h m x a block) by done.
  pose proof Hx as (Hsl & Hidx & Hcnt). unfold MAX_FIND_LIST_OBJECTS in *.
  unfold u64. rewrite (Z.mod_small m) by done. set (c := Z.min m (find_count x - find_idx x)).
  assert (Hc : 0 <= c <= find_count x - find_idx x) by lia.
  destruct (IH (with_find x (Some a) (find_count x) (find_idx x + c) true)
    (set_sess (assoc_set h (with_find x (Some a) (find_count x) (find_idx x + c) true) (sessions s)) s))
    as (chunks & s' & E & Hcat & Hn); try done.
  { cbn. apply assoc_set_same. by rewrite Ex. }
  { split_and!; cbn; try done; lia. }
  unfold mbind, st_bind. rewrite E. eexists _, _. split; [done |]. cbn [concat default].
  rewrite Hcat. cbn [find_idx find_count with_find length]. split; [| by rewrite Hn].
  rewrite Z2Nat.inj_add, <- drop_drop by lia.
  assert (Ht : 0 <= chunk_total ms).
  { clear -Hms'. induction Hms' as [|y l Hy _ IH]; cbn; [lia |]. unfold chunk_total in IH. lia. }
  replace (Z.to_nat (Z.min (m + foldr Z.add 0 ms) (find_count x - find_idx x)))
    with (Z.to_nat c + Z.to_nat (Z.min (chunk_total ms) (find_count x - (find_idx x + c))))%nat
    by (unfold chunk_total in *; lia).
  apply take_take_drop.
Qed.

Section Search.
Context `{Allocator, Indet, SK_FUNCTION_LIST T, Loader}.

(** The session a search starts from: open, with no operation active. *)
Definition idle_session (h : Z) (x : session) (s : lib T) : Prop :=
  initialized s = true /\ assoc h (sessions s) = Some x /\ op_active x = false /\ objs s <> [].

(** The state a successful C_FindObjectsInit leaves: a find list that starts
    with the matching handles. *)
Definition searching (h a : Z) (x : session) (found : list Z) (s : lib T) : Prop :=
  initialized s = true /\ assoc h (sessions s) = Some x /\ sess_ok x /\ op_active x = true /\
  find_list x = Some a /\ find_idx x = 0 /\ find_count x = Z.of_nat (length found) /\
  exists rest, blocks s !! a = Some (found ++ rest) /\
    Z.of_nat (length (found ++ rest)) = MAX_FIND_LIST_OBJECTS.

Lemma search_not_null pT n : search_ok pT n -> bool_decide (pT = None) && (0 <? n) = false.
Proof. destruct pT; cbn; [done |]. by intros ->. Qed.

Lemma set_session_run h x (s : lib T) :
  set_session h x s = Ret (tt, set_sess (assoc_set h x (sessions s)) s).
Proof. done. Qed.

(** The part of C_FindObjectsInit after its checks. *)
Definition find_tail (sp : Z) (sess : session) pT n : st (lib T) Z :=
  fl ← find_block sess;
  match fl with
  | None => mret CKR_HOST_MEMORY
  | Some a =>
      count ← find_into a pT n;
      set_session sp (with_find sess (Some a) count 0 true);;
      mret CKR_OK
  end.

(** On an idle session and a loaded object list the checks pass. *)
Lemma find_init_enter h x pT n (s : lib T) :
  sess_ok x -> idle_session h x s -> search_ok pT n ->
  exists body, C_FindObjectsInit h pT n s = locked body s /\
    forall l, body (set_lk l s) = find_tail h x pT n (set_lk l s).
Proof.
  intros (Hsl & Hrest) (Hi & Ex & Hact & Hobj) Hs. unfold C_FindObjectsInit. eexists. split; [done |].
  intros l. rewrite when_init_run by done. rewrite search_not_null by done.
  rewrite (with_session_run h x) by done.
  unfold mbind at 1, st_bind at 1. rewrite (session_at_run h x) by done. rewrite Hact, Hsl.
  change (negb (get_object_list TEE_SLOT_ID)) with false. cbv iota.
  unfold mbind at 1, st_bind at 1, gets. unfold objs in Hobj |- *. cbn [set_lk slot].
  destruct (obj_list (slot s)); done.
Qed.

(** Writing the matches into a block of the full size. *)
Lemma find_into_run a b pT n (s : lib T) :
  Forall obj_ok (objs s).*2 -> search_ok pT n -> blocks s !! a = Some b ->
  Z.of_nat (length b) = MAX_FIND_LIST_OBJECTS ->
  let found := matching pT n (objs s) in
  Z.of_nat (length found) <= MAX_FIND_LIST_OBJECTS ->
  find_into a pT n s =
    Ret (Z.of_nat (length found), set_blocks (<[a := found ++ drop (length found) b]> (blocks s)) s).
Proof.
  intros Ho Hs Hb Hlen found Hle. unfold find_into. rewrite Hb.
  rewrite find_matching_objects_spec by done. fold found. by rewrite (proj2 (Z.leb_le _ _)).
Qed.

(** The first search of a session on a loaded object list. *)
Lemma find_init_run h x pT n (s : lib T) :
  lib_ok s -> lock_free s -> idle_session h x s -> find_list x = None -> search_ok pT n ->
  let found := matching pT n (objs s) in
  Z.of_nat (length found) <= MAX_FIND_LIST_OBJECTS ->
  exists rc s1, C_FindObjectsInit h pT n s = Ret (rc, s1) /\ lock_free s1 /\ objs s1 = objs s /\
    (rc = CKR_HOST_MEMORY \/ rc = CKR_OK /\ exists a x1, searching h a x1 found s1).
Proof.
  intros Hok Hf Hidle Hfl Hs found Hle. pose proof Hidle as (Hi & Ex & Hact & Hobj).
  assert (Hx : sess_ok x).
  { eapply session_at_ok; [exact Hok |]. by apply session_at_run. }
  destruct (find_init_enter h x pT n s Hx Hidle Hs) as (body & -> & Hbody).
  destruct (malloc (hp s)) as [[a|] hp'] eqn:Em.
  - pose (b := replicate (Z.to_nat MAX_FIND_LIST_OBJECTS) 0).
    assert (Hb : Z.of_nat (length b) = MAX_FIND_LIST_OBJECTS) by done.
    pose (x1 := with_find x (Some a) (Z.of_nat (length found)) 0 true).
    pose (s1 := fun s : lib T => set_sess (assoc_set h x1 (sessions s))
      (set_blocks (<[a := found ++ drop (length found) b]> (<[a:=b]> (blocks s))) (set_hp hp' s))).
    exists CKR_OK, (s1 s). split_and!; [| done | done |].
    + apply locked_intro; [done |]. intros l. exists (s1 (set_lk l s)). split_and!; [| done | by destruct s].
      rewrite Hbody. unfold find_tail, find_block. rewrite Hfl. unfold mbind, st_bind, malloc_node.
      cbn [hp set_lk]. rewrite Em. cbn [gets modify mret st_ret].
      rewrite (find_into_run a b pT n); try done; [apply Hok |]. cbn [blocks set_blocks]. apply lookup_insert_eq.
    + right. split; [done |]. exists a, x1. split_and!; try done.
      * cbn. apply assoc_set_same. by rewrite Ex.
      * destruct Hx as (Hsl & _). split_and!; cbn; try done; lia.
      * exists (drop (length found) b). cbn. rewrite lookup_insert_eq. split; [done |].
        rewrite length_app, length_drop. lia.
  - exists CKR_HOST_MEMORY, (set_hp hp' s). split_and!; [| done | done | by left].
    apply locked_intro; [done |]. intros l.
    exists (set_hp hp' (set_lk l s)). split_and!; [| done | by destruct s].
    rewrite Hbody. unfold find_tail, find_block. rewrite Hfl. unfold mbind, st_bind, malloc_node.
    cbn [hp set_lk]. by rewrite Em.
Qed.

(** C20: a search on an idle session that has not searched before ([find_list] is NULL),
    in a library whose object list is loaded and has at most 100 matches (the size of the
    find list), either fails with CKR_HOST_MEMORY or starts, and then any sequence of
    C_FindObjects calls returns, chunk by chunk, the handles of exactly the
    matching objects, in list order and without repetition or loss. *)
Theorem search_delivers_matches h x pT n (s : lib T) :
  lib_ok s -> lock_free s -> idle_session h x s -> find_list x = None -> search_ok pT n ->
  Z.of_nat (length (matching pT n (objs s))) <= MAX_FIND_LIST_OBJECTS ->
  exists rc s1, C_FindObjectsInit h pT n s = Ret (rc, s1) /\
    (rc = CKR_HOST_MEMORY \/
     rc = CKR_OK /\ forall ms, Forall (fun m => 0 <= m < 2 ^ 64) ms ->
       exists chunks s2, run_finds h ms s1 = Ret (chunks, s2) /\ length chunks = length ms /\
         concat chunks = take (Z.to_nat (chunk_total ms)) (matching pT n (objs s))).
Proof.
  intros Hok Hf Hidle Hfl Hs Hle.
  destruct (find_init_run h x pT n s Hok Hf Hidle Hfl Hs Hle) as (rc & s1 & E & Hf1 & _ & Hrc).
  exists rc, s1. split; [done |]. destruct Hrc as [->|(-> & a & x1 & Hsr)]; [by left |]. right.
  split; [done |]. intros ms Hms. destruct Hsr as (Hi1 & Ex1 & Hx1 & Ha1 & Hl1 & H0' & Hc1 & rest & Hb1 & Hlen1).
  destruct (run_finds_spec h a _ ms x1 s1 Hms Hf1 Hi1 Ex1 Hx1 Ha1 Hl1 Hb1 Hlen1) as (chunks & s2 & Er & Hcat & Hn).
  exists chunks, s2. split_and!; [done | done |]. rewrite Hcat, H0', Hc1. cbn [Z.to_nat drop].
  assert (0 <= chunk_total ms).
  { clear -Hms. induction Hms as [|y l Hy _ IH]; cbn; [lia |]. unfold chunk_total in IH. lia. }
  set (f := matching pT n (objs s)) in *.
  destruct (Z.le_gt_cases (chunk_total ms) (Z.of_nat (length f))).
  - rewrite drop_0, take_app_le by lia. f_equal. lia.
  - rewrite drop_0, Z.min_r by lia. replace (Z.to_nat (Z.of_nat (length f) - 0)) with (length f) by lia.
    rewrite take_app_length, take_ge by lia. done.
Qed.

(** C_FindObjectsFinal on the search in progress: the list is released, its
    address is kept. *)
Lemma find_final_run h a x found (s : lib T) :
  lock_free s -> searching h a x found s ->
  C_FindObjectsFinal h s = Ret (CKR_OK,
    set_hp (free a (hp s)) (set_blocks (delete a (blocks s))
      (set_sess (assoc_set h (with_find x (Some a) 0 0 false) (sessions s)) s))).
Proof.
  intros Hf (Hi & Ex & Hx & Ha & Hl & _ & _ & rest & Hb & _). unfold C_FindObjectsFinal.
  apply locked_intro; [done |]. intros l.
  exists (set_hp (free a (hp s)) (set_blocks (delete a (blocks s))
    (set_sess (assoc_set h (with_find x (Some a) 0 0 false) (sessions s)) (set_lk l s)))).
  split_and!; [| done | by destruct s]. rewrite when_init_run by done. rewrite (with_session_run h x) by done.
  unfold mbind, st_bind. rewrite (session_at_run h x) by done. rewrite Ha, Hl. cbn [negb].
  rewrite set_session_run. unfold release_block. cbn [blocks set_sess set_slot set_lk]. by rewrite Hb.
Qed.

(** the second search of a session is undefined: C_FindObjectsFinal frees
    the find list but leaves its address in the session, and the next
    C_FindObjectsInit writes the first matching handle through it. *)
Theorem second_search_undefined h x pT n (s s1 s2 : lib T) rc2 :
  lib_ok s -> lock_free s -> idle_session h x s -> find_list x = None -> search_ok pT n ->
  0 < Z.of_nat (length (matching pT n (objs s))) <= MAX_FIND_LIST_OBJECTS ->
  C_FindObjectsInit h pT n s = Ret (CKR_OK, s1) -> C_FindObjectsFinal h s1 = Ret (rc2, s2) ->
  rc2 = CKR_OK /\ C_FindObjectsInit h pT n s2 = Undef.
Proof.
  intros Hok Hf Hidle Hfl Hs [Hpos Hle] E1 E2.
  destruct (find_init_run h x pT n s Hok Hf Hidle Hfl Hs Hle) as (rc & s1' & E & Hf1 & Ho1 & Hrc).
  rewrite E1 in E. injection E as <- <-. destruct Hrc as [?|(_ & a & x1 & Hsr)]; [done |].
  rewrite (find_final_run h a x1 _ _ Hf1 Hsr) in E2. injection E2 as <- <-. split; [done |].
  destruct Hsr as (Hi1 & Ex1 & Hx1 & Ha1 & Hl1 & H0' & Hc1 & rest & Hb1 & Hlen1).
  destruct Hidle as (Hi & Ex & Hact & Hobj).
  pose (x2 := with_find x1 (Some a) 0 0 false).
  match goal with |- C_FindObjectsInit h pT n ?s2 = _ => set (s2' := s2) end.
  assert (Hobjs : objs s2' = objs s) by (rewrite <- Ho1; done).
  destruct (find_init_enter h x2 pT n s2') as (body & -> & Hbody); [| | done |].
  { destruct Hx1 as (? & _). by split_and!. }
  { split_and!; [done | | done | by rewrite Hobjs]. apply assoc_set_same. by rewrite Ex1. }
  apply locked_undef. intros l. rewrite Hbody. unfold find_tail, find_block. cbn [find_list with_find x2].
  unfold mbind, st_bind. cbn [mret st_ret]. unfold find_into.
  cbn [blocks set_lk set_hp set_blocks s2']. rewrite lookup_delete_eq.
  change (objs (set_lk l s2')) with (objs s2'). rewrite Hobjs.
  rewrite find_dangling; [done | done | apply Hok | done].
Qed.
End Search.
End Running.

(** ** Reading attributes *)

(** The six private components of an RSA key. *)
Definition private_component (ty : Z) : bool := negb (check_rsa_privk_exportability ty).

Lemma exportability_ok o ty : obj_ok o ->
  check_attr_exportability (template_list o) ty =
    Ret (negb ((obj_class o =? CKO_PRIVATE_KEY) && private_component ty)).
Proof.
  intros ([Hn _] & Hc & _ & _ & [(-> & Hcl & Hk & _)|(-> & Hg)]).
  - unfold check_attr_exportability.
    destruct (get_class_spec (template_list o) CKO_PUBLIC_KEY CKK_RSA None None false) as [f' ->]; try done.
    { rewrite Hcl. by intros ? [= <-]. }
    { rewrite Hk. by intros ? [= <-]. }
    by rewrite Hcl, Hk.
  - rewrite guarded_exportability by done. rewrite Z.eqb_refl. cbn [andb]. unfold private_component.
    by rewrite negb_involutive.
Qed.

(** What an entry of the caller's template becomes: its error, if any, and the
    entry itself. *)
Definition answer (o : OBJECT) (x : CK_ATTRIBUTE) : option Z * CK_ATTRIBUTE :=
  let unavailable := mkCK (ck_type x) (pValue x) CK_ULONG_MINUS_1 in
  if (obj_class o =? CKO_PRIVATE_KEY) && private_component (ck_type x)
  then (Some CKR_ATTRIBUTE_SENSITIVE, unavailable)
  else match p11_template_check_attr (template_list o) (ck_type x) with
  | None => (Some CKR_ATTRIBUTE_TYPE_INVALID, unavailable)
  | Some a =>
      match pValue x with
      | None => (None, mkCK (ck_type x) None (ulValueLen a))
      | Some m =>
          if ulValueLen a <=? ulValueLen x
          then (None, mkCK (ck_type x) (Some (value_of a ++ drop (length (value_of a)) m)) (ulValueLen a))
          else (Some CKR_BUFFER_TOO_SMALL, unavailable)
      end
  end.

(** The return value: the error of the last entry that has one. *)
Definition last_error (ret : Z) (es : list (option Z)) : Z := foldl (fun r e => default r e) ret es.

Lemma value_of_length a : ck_wf a -> Z.of_nat (length (value_of a)) = ulValueLen a.
Proof.
  intros [H1 H2]. unfold value_of. destruct (pValue a); cbn [default from_option] in *; unfold id; len.
Qed.

Lemma get_attr_loop_spec o l : forall ret, obj_ok o -> Forall ck_wf l ->
  get_attr_loop (template_list o) l ret =
    Ret (last_error ret (answer o <$> l).*1, (answer o <$> l).*2).
Proof.
  intros ret Ho Hl. revert ret. induction Hl as [|x l Hx _ IH]; intros ret; cbn [get_attr_loop]; [done |].
  rewrite (exportability_ok o) by done. rewrite ret_bind, negb_involutive.
  match goal with |- mbind ?k ?m = _ =>
    assert (Hstep : m = Ret (default ret (answer o x).1, (answer o x).2)) end.
  { unfold answer. destruct (_ && _); [done |].
    destruct (p11_template_check_attr _ _) as [a|] eqn:Ea; [| done].
    assert (Ha : ck_wf a).
    { destruct Ho as ([_ Hw] & _). apply check_Some_In in Ea as [Ea _]. rewrite Forall_forall in Hw. by apply Hw. }
    destruct (pValue x) as [m|] eqn:Em; [| done].
    destruct (ulValueLen a <=? ulValueLen x) eqn:Ele; [| done]. boolz.
    rewrite mem_read_wf by done. rewrite ret_bind. pose proof (value_of_length a Ha) as Hva.
    assert (Hst : mem_store (Some m) (value_of a) = Ret (Some (value_of a ++ drop (length (value_of a)) m))).
    { unfold mem_store. destruct (_ =? 0) eqn:E0; boolz.
      - destruct (value_of a); [done | cbn in *; lia].
      - cbn [deref mbind outcome_bind]. destruct Hx as [_ Hx]. rewrite Em in Hx.
        rewrite buf_write_ret by lia. done. }
    by rewrite Hst. }
  rewrite Hstep. cbn [mbind outcome_bind]. by rewrite IH.
Qed.

Section Reads.
Context {T : Type} `{Allocator, Indet, SK_FUNCTION_LIST T, Loader}.

(** Reads through an open session, below the entry point. *)
Lemma get_attr_value_run h x hO o l (s : lib T) :
  assoc h (sessions s) = Some x -> sess_ok x -> assoc hO (objs s) = Some o -> obj_ok o ->
  l <> [] -> Forall ck_wf l ->
  get_attr_value h hO (Some l) (Z.of_nat (length l)) s =
    Ret ((last_error CKR_OK (answer o <$> l).*1, Some (answer o <$> l).*2), s).
Proof.
  intros Ex Hx Eo Ho Hl Hw. unfold get_attr_value.
  rewrite (proj2 (Z.eqb_neq _ _)) by (destruct l; [done | cbn; lia]).
  unfold mbind, st_bind. rewrite (session_valid_run h x) by done. cbn [negb].
  unfold get_session, mbind, st_bind. rewrite (session_valid_run h x) by done. cbn [negb mret st_ret].
  rewrite (session_at_run h x) by done. destruct Hx as (Hsl & _). rewrite Hsl.
  unfold is_object_handle_valid. change (negb (get_object_list TEE_SLOT_ID)) with false. cbv iota.
  unfold gets. rewrite (proj2 (existsb_assoc (objs s) hO)) by (exists o; exact Eo). cbn [negb].
  unfold object_at. rewrite Eo.
  unfold ck_prefix. rewrite Z.leb_refl. cbn [guard_c mbind outcome_bind lift].
  rewrite Nat2Z.id, firstn_all. cbn [default from_option]. unfold id.
  rewrite get_attr_loop_spec by done. cbn [lift]. by rewrite drop_all, app_nil_r.
Qed.

Lemma obj_at_ok hO o (s : lib T) : lib_ok s -> assoc hO (objs s) = Some o -> obj_ok o.
Proof.
  intros Hok Eo. pose proof (ok_objs _ Hok) as Hos. rewrite Forall_forall in Hos. apply Hos.
  apply list_elem_of_fmap. exists (hO, o). split; [done | by apply assoc_In].
Qed.

Lemma sess_at_ok h x (s : lib T) : lib_ok s -> assoc h (sessions s) = Some x -> sess_ok x.
Proof. intros Hok Ex. eapply session_at_ok; [exact Hok | by apply session_at_run]. Qed.

(** Reading attributes of an object through an open session: the call is
    defined, changes nothing in the library, and answers every entry of the
    caller's template by its own rule: a private component of a private key is
    refused as sensitive, an absent attribute is reported, a null buffer gets
    the size, a large enough buffer gets the stored bytes, a small one an
    error; the return value is the last entry's error, or CKR_OK. *)
Theorem attribute_read_spec h x hO o l (s : lib T) :
  lib_ok s -> lock_free s -> initialized s = true ->
  assoc h (sessions s) = Some x -> assoc hO (objs s) = Some o -> l <> [] -> Forall ck_wf l ->
  C_GetAttributeValue h hO (Some l) (Z.of_nat (length l)) s =
    Ret ((last_error CKR_OK (answer o <$> l).*1, Some (answer o <$> l).*2), s).
Proof.
  intros Hok Hf Hi Ex Eo Hl Hw. unfold C_GetAttributeValue.
  apply locked_intro; [done |]. intros lk0. exists (set_lk lk0 s).
  split_and!; [| done | apply set_lk_lk]. rewrite when_init_run by done.
  apply (get_attr_value_run h x hO o l (set_lk lk0 s)); eauto using sess_at_ok, obj_at_ok.
Qed.

Lemma object_handle_valid_frame hO sl : steps frame (is_object_handle_valid (T := T) hO sl).
Proof. unfold is_object_handle_valid. steps_auto. Qed.

Lemma attr_loop_private o l : forall ret ret' l' i x,
  obj_ok o -> obj_class o = CKO_PRIVATE_KEY ->
  get_attr_loop (template_list o) l ret = Ret (ret', l') ->
  (ret <> CKR_OK -> ret' <> CKR_OK) /\
  (l !! i = Some x -> private_component (ck_type x) = true ->
   ret' <> CKR_OK /\ l' !! i = Some (mkCK (ck_type x) (pValue x) CK_ULONG_MINUS_1)).
Proof.
  induction l as [|e l IH]; intros ret ret' l' i x Ho Hc E; cbn [get_attr_loop] in E.
  { injection E as <- <-. split; [done |]. by rewrite lookup_nil. }
  rewrite (exportability_ok o) in E by done. rewrite ret_bind, negb_involutive, Hc, Z.eqb_refl in E.
  cbn [andb] in E. apply outcome_bind_inv in E as ([r1 e1] & E1 & E).
  apply outcome_bind_inv in E as ([r2 l2] & E2 & [= <- <-]).
  assert (Hstep : (ret <> CKR_OK -> r1 <> CKR_OK) /\
    (private_component (ck_type e) = true -> r1 <> CKR_OK /\ e1 = mkCK (ck_type e) (pValue e) CK_ULONG_MINUS_1)).
  { destruct (private_component (ck_type e)) eqn:Ep.
    - injection E1 as <- <-. split; [discriminate | by intros _].
    - split; [| done]. destruct (p11_template_check_attr _ _) as [a|]; [| injection E1 as <- <-; discriminate].
      destruct (pValue e); [| by injection E1 as <- <-].
      destruct (_ <=? _); [inv_ret; done | injection E1 as <- <-; discriminate]. }
  destruct Hstep as [Hs1 Hs2]. destruct i as [|i].
  - destruct (IH r1 r2 l2 0%nat e Ho Hc E2) as [Hr _]. split; [auto |].
    intros [= ->] Hp. destruct (Hs2 Hp) as [? ->]. split; [auto | done].
  - destruct (IH r1 r2 l2 i x Ho Hc E2) as [Hr Hx]. split; [auto |]. exact Hx.
Qed.

(** C6: in no reachable state, and with no arguments, does C_GetAttributeValue
    write a private component of a private key object: the call does not return
    CKR_OK, the entry's buffer is left as it was and its length comes back as
    CK_UNAVAILABLE_INFORMATION, or, when the call is refused before any entry is
    looked at (library not initialised, bad session or object handle), the whole
    template is left as it was. *)
Theorem private_components_not_exported s hS hO o tmpl n rc out s' i x :
  reachable s -> assoc hO (objs s) = Some o -> obj_class o = CKO_PRIVATE_KEY ->
  C_GetAttributeValue hS hO (Some tmpl) n s = Ret ((rc, Some out), s') ->
  tmpl !! i = Some x -> Z.of_nat i < n -> private_component (ck_type x) = true ->
  rc <> CKR_OK /\
  (out !! i = Some (mkCK (ck_type x) (pValue x) CK_ULONG_MINUS_1) \/
   (out = tmpl /\ rc ∈ [CKR_CRYPTOKI_NOT_INITIALIZED; CKR_SESSION_HANDLE_INVALID; CKR_OBJECT_HANDLE_INVALID])).
Proof.
  intros Hr Eo Hc E Hi Hlt Hp. apply reachable_inv in Hr as [Hok _].
  assert (Ho : obj_ok o) by by eapply obj_at_ok.
  assert (Herr : rc ∈ [CKR_CRYPTOKI_NOT_INITIALIZED; CKR_SESSION_HANDLE_INVALID; CKR_OBJECT_HANDLE_INVALID] -> out = tmpl ->
    rc <> CKR_OK /\
    (out !! i = Some (mkCK (ck_type x) (pValue x) CK_ULONG_MINUS_1) \/
     (out = tmpl /\ rc ∈ [CKR_CRYPTOKI_NOT_INITIALIZED; CKR_SESSION_HANDLE_INVALID; CKR_OBJECT_HANDLE_INVALID]))).
  { intros Hn ->. split; [| auto]. rewrite !elem_of_cons, elem_of_nil in Hn. by destruct Hn as [->|[->|[->|[]]]]. }
  unfold C_GetAttributeValue, locked in E.
  apply st_bind_inv in E as ([] & s1 & E1 & E). apply on_lock_ok in E1 as (l1 & _ & ->).
  apply st_bind_inv in E as (r & s2 & E2 & E). apply st_bind_inv in E as ([] & s3 & _ & E).
  injection E as -> _. unfold when_initialized in E2.
  apply st_bind_inv in E2 as (b & s4 & [= <- <-] & E2).
  destruct (negb _); [injection E2 as <- <- _; refine (Herr _ eq_refl); rewrite !elem_of_cons; tauto |]. unfold get_attr_value in E2.
  destruct (n =? 0) eqn:En; [boolz; lia |].
  apply st_bind_inv in E2 as (v & s5 & E5 & E2). pose proof (is_session_valid_frame _ _ _ _ E5) as F5.
  destruct (negb v); [injection E2 as <- <- _; refine (Herr _ eq_refl); rewrite !elem_of_cons; tauto |].
  apply st_bind_inv in E2 as (sp & s6 & E6 & E2). pose proof (get_session_frame _ _ _ _ E6) as F6.
  destruct sp as [sp|]; [| injection E2 as <- <- _; refine (Herr _ eq_refl); rewrite !elem_of_cons; tauto].
  apply st_bind_inv in E2 as (xs & s7 & E7 & E2). pose proof (session_at_frame _ _ _ _ E7) as F7.
  apply st_bind_inv in E2 as (ok & s8 & E8 & E2).
  assert (F8 : frame s7 s8).
  { revert E8. apply (object_handle_valid_frame hO). }
  destruct (negb ok); [injection E2 as <- <- _; refine (Herr _ eq_refl); rewrite !elem_of_cons; tauto |].
  apply st_bind_inv in E2 as (o' & s9 & E9 & E2). unfold object_at in E9.
  assert (Hs8 : objs s8 = objs s).
  { destruct F5 as (_&_&F5&_), F6 as (_&_&F6&_), F7 as (_&_&F7&_), F8 as (_&_&F8&_).
    unfold objs. by rewrite F8, F7, F6, F5. }
  rewrite Hs8, Eo in E9. injection E9 as <- <-.
  apply st_bind_inv in E2 as (p & s10 & [E10 ->]%lift_inv & E2). cbn [ck_prefix] in E10.
  apply outcome_bind_inv in E10 as ([] & _ & [= <-]).
  apply st_bind_inv in E2 as ([ret l'] & s11 & [E11 ->]%lift_inv & E2). injection E2 as <- <- <-.
  cbn [default from_option] in E11. unfold id in E11.
  destruct (attr_loop_private o _ _ _ _ i x Ho Hc E11) as [_ Hx].
  destruct Hx as [Hne Hy]; [rewrite lookup_take_lt by lia; done | done |].
  split; [done |]. left. by apply lookup_app_l_Some.
Qed.
End Reads.

(** ** Sessions, initialisation and finalisation *)

Section Lifecycle.
Context {T : Type} `{Allocator, Indet, SK_FUNCTION_LIST T, Loader}.

(** A session as C_OpenSession creates it. *)
Definition new_session (flags : Z) : session :=
  mkSess (mkSI TEE_SLOT_ID CKS_RO_PUBLIC_SESSION flags 0) None 0 0 false null_sign_ctx.

Lemma open_session_run flags (s : lib T) :
  lock_free s -> initialized s = true ->
  Z.land flags CKF_RW_SESSION = 0 -> Z.land flags CKF_SERIAL_SESSION <> 0 ->
  C_OpenSession TEE_SLOT_ID flags true s =
    match malloc (hp s) with
    | (None, h) => Ret ((CKR_HOST_MEMORY, None), set_hp h s)
    | (Some a, h) => Ret ((CKR_OK, Some a), set_sess ((a, new_session flags) :: sessions s) (set_hp h s))
    end.
Proof.
  intros Hf Hi Hrw Hser. unfold C_OpenSession. cbn [negb]. rewrite Hrw. cbn [Z.eqb negb].
  rewrite (proj2 (Z.eqb_neq _ _)) by done. rewrite Z.eqb_refl. cbn [negb].
  destruct (malloc (hp s)) as [[a|] h] eqn:Em; (apply locked_intro; [done |]); intros l.
  - exists (set_sess ((a, new_session flags) :: sessions s) (set_hp h (set_lk l s))).
    split_and!; [| done | by destruct s]. rewrite when_init_run by done.
    unfold create_session, mbind, st_bind, malloc_node. cbn [hp set_lk]. by rewrite Em.
  - exists (set_hp h (set_lk l s)).
    split_and!; [| done | by destruct s]. rewrite when_init_run by done.
    unfold create_session, mbind, st_bind, malloc_node. cbn [hp set_lk]. by rewrite Em.
Qed.

(** a serial read-only session opens with a handle no session or object
    has, or the call reports CKR_HOST_MEMORY; its information is what was asked
    for, every other session is untouched, and closing it brings back exactly
    the sessions of before. *)
Theorem session_open_close flags (s : lib T) :
  lib_ok s -> lock_free s -> initialized s = true ->
  Z.land flags CKF_RW_SESSION = 0 -> Z.land flags CKF_SERIAL_SESSION <> 0 ->
  (exists s1, C_OpenSession TEE_SLOT_ID flags true s = Ret ((CKR_HOST_MEMORY, None), s1) /\
     sessions s1 = sessions s) \/
  (exists a s1, C_OpenSession TEE_SLOT_ID flags true s = Ret ((CKR_OK, Some a), s1) /\
     a <> 0 /\ (a ∉ nodes s) /\
     C_GetSessionInfo a true s1 =
       Ret ((CKR_OK, Some (mkSI TEE_SLOT_ID CKS_RO_PUBLIC_SESSION flags 0)), s1) /\
     (forall h, h <> a -> assoc h (sessions s1) = assoc h (sessions s)) /\
     exists s2, C_CloseSession a s1 = Ret (CKR_OK, s2) /\ sessions s2 = sessions s).
Proof.
  intros Hok Hf Hi Hrw Hser. rewrite open_session_run by done.
  destruct (malloc (hp s)) as [[a|] h] eqn:Em; cycle 1.
  { left. eexists. split; [done |]. done. }
  right. set (s1 := set_sess _ _). exists a, s1.
  assert (Hfresh : fresh_node a (set_hp h s)).
  { assert (E : malloc_node s = Ret (Some a, set_hp h s)) by (unfold malloc_node; by rewrite Em).
    by apply malloc_node_ok in E as (_ & _ & _ & _ & _ & _ & ?). }
  destruct Hfresh as (_ & Hn & _ & Hz).
  assert (Ea : forall l, assoc a (sessions (set_lk l s1)) = Some (new_session flags)).
  { intros l. cbn. by rewrite Z.eqb_refl. }
  assert (Hx : sess_ok (new_session flags)) by by split_and!.
  split_and!; [done | done | done | | |].
  - unfold C_GetSessionInfo. apply locked_intro; [done |]. intros l. exists (set_lk l s1).
    split_and!; [| done | apply set_lk_lk]. rewrite when_init_run by done.
    unfold mbind, st_bind. rewrite (session_valid_run a _ _ (Ea l) Hx). cbn [negb].
    unfold get_session_info, mbind, st_bind. by rewrite (session_at_run a _ _ (Ea l)).
  - intros k Hk. cbn. by rewrite (proj2 (Z.eqb_neq _ _)) by done.
  - exists (set_hp (free a h) (set_sess (sessions s) s)). split; [| done].
    unfold C_CloseSession. apply locked_intro; [done |]. intros l.
    exists (set_hp (free a h) (set_sess (sessions s) (set_lk l s))).
    split_and!; [| done | by destruct s]. rewrite when_init_run by done.
    unfold mbind, st_bind. rewrite (session_valid_run a _ _ (Ea l) Hx). cbn [negb].
    unfold delete_session. rewrite (proj2 (Z.eqb_neq _ _)) by done.
    unfold mbind, st_bind. rewrite (session_at_run a _ _ (Ea l)). cbn. by rewrite Z.eqb_refl.
Qed.

(** when the secure-key library cannot be loaded, C_Initialize reports an
    error but leaves the library marked as initialised, so that a second
    attempt is refused. *)
Theorem failed_initialize_sticks (s : lib T) :
  dlopen_ok = false -> initialized s = false -> global_lock (lk s) = None ->
  exists s1, C_Initialize None s = Ret (CKR_GENERAL_ERROR, s1) /\ initialized s1 = true /\
    C_Initialize None s1 = Ret (CKR_CRYPTOKI_ALREADY_INITIALIZED, s1).
Proof.
  intros Hd Hi Hg. eexists. split_and!.
  - unfold C_Initialize, mbind, st_bind, is_lib_initialized, gets. rewrite Hi.
    unfold p11_init_lock. rewrite Hg. cbn. unfold open_shared_lib. rewrite Hd. cbn. reflexivity.
  - done.
  - done.
Qed.

Lemma initialize_slot_ok (s s' : lib T) :
  initialize_slot TEE_SLOT_ID s = Ret (CKR_OK, s') ->
  lk s' = lk s /\ initialized s' = initialized s /\ objs s' = [] /\ sessions s' = [] /\
  lib_open (slot s') = true /\ sk_funcs (slot s') = true /\ shared_lib_handle (slot s') = true.
Proof.
  unfold initialize_slot, open_shared_lib, get_function_list, mbind, st_bind. cbn.
  destruct dlopen_ok; cbn; [| discriminate]. destruct dlsym_ok; cbn; [| discriminate].
  intros [= <-]. by split_and!.
Qed.

(** Finalising an empty slot with the lock free. *)
Lemma finalize_run (s : lib T) :
  lock_free s -> initialized s = true -> objs s = [] -> sessions s = [] ->
  lib_open (slot s) = true -> shared_lib_handle (slot s) = true ->
  exists s2, C_Finalize false s = Ret (CKR_OK, s2) /\ initialized s2 = false /\
    global_lock (lk s2) = None /\ objs s2 = [] /\ sessions s2 = [] /\ lib_open (slot s2) = false.
Proof.
  intros Hf Hi Ho Hs Hl Hh. destruct s as [ini [g lo] [id ol sl fu ha op] bl hp0 tk].
  cbv [objs sessions slot obj_list sess_list lib_open shared_lib_handle initialized lock_free lk global_lock] in *.
  subst. unfold C_Finalize, mbind, st_bind, on_lock.
  destruct g as [[]|]; [done | |]; destruct lo as [[]|]; cbn; eexists; split; try reflexivity; by split_and!.
Qed.

Lemma init_lock_free args (s s' : lib T) rc :
  lock_free s -> p11_init_lock args s = Ret (rc, s') -> lock_free s'.
Proof.
  intros Hf. unfold p11_init_lock. destruct (global_lock (lk s)) eqn:El; [by intros [= <- <-] |].
  destruct args as [p|]; [| by intros [= <- <-]]. destruct (ia_pReserved p); [by intros [= <- <-] |].
  destruct (_ && _); [by intros [= <- <-] |].
  match goal with |- match ?f with _ => _ end = _ -> _ => destruct f as [[]|] end; [| | by intros [= <- <-]].
  - unfold create_global_lock. destruct (mallocs 1 _) as [[] h]; by intros [= <- <-].
  - unfold create_global_lock. destruct (default _ _) as [rv []]; by intros [= <- <-].
Qed.

(** finalising what was initialised: from a library that is not
    initialised and has no lock, a successful C_Initialize gives an empty,
    loaded slot, and the C_Finalize that follows succeeds and leaves no
    session, no object, no lock and no loaded library behind. *)
Theorem initialize_finalize args (s s1 : lib T) :
  initialized s = false -> global_lock (lk s) = None ->
  C_Initialize args s = Ret (CKR_OK, s1) ->
  initialized s1 = true /\ objs s1 = [] /\ sessions s1 = [] /\ lib_open (slot s1) = true /\
  sk_funcs (slot s1) = true /\
  exists s2, C_Finalize false s1 = Ret (CKR_OK, s2) /\ initialized s2 = false /\
    global_lock (lk s2) = None /\ objs s2 = [] /\ sessions s2 = [] /\ lib_open (slot s2) = false.
Proof.
  intros Hi Hg E. unfold C_Initialize in E.
  apply st_bind_inv in E as (i & s0 & [= <- <-] & E). rewrite Hi in E.
  apply st_bind_inv in E as (rc1 & t1 & E1 & E). apply init_lock_free in E1; [| by unfold lock_free; rewrite Hg].
  destruct (negb _) eqn:Erc; [injection E as -> <-; done |].
  apply st_bind_inv in E as ([] & t2 & E2 & E). apply on_lock_ok in E2 as (l2 & L2 & ->).
  apply st_bind_inv in E as ([] & t3 & [= <-] & E).
  apply st_bind_inv in E as (rc4 & t4 & E4 & E). apply st_bind_inv in E as (rc5 & t5 & E5 & E).
  apply st_bind_inv in E as ([] & t6 & E6 & E). injection E as -> ->.
  apply on_lock_ok in E6 as (l6 & L6 & ->).
  destruct (rc4 =? 0) eqn:E0; cbn [negb] in E5; boolz; cycle 1.
  { apply st_bind_inv in E5 as ([] & t7 & _ & [= ? _]). }
  subst rc4. injection E5 as <-. apply initialize_slot_ok in E4 as (Hk & Hi4 & Ho & Hs & Hop & Hfu & Hha).
  rewrite Hk in L6. cbn [lk set_lk set_initialized] in L6. pose proof (lock_unlock _ _ _ L2 L6) as ->.
  split_and!; try done. by apply finalize_run.
Qed.
End Lifecycle.

(** ** Witnesses *)

Lemma find_matching_objects_spec_witness :
  find_matching_objects (zeros 100) (objs (demo_state demo_calls2)) None 0 = Ret ([3; 2] ++ zeros 98, 2).
Proof.
  rewrite (find_matching_objects_spec (zeros 100) (objs (demo_state demo_calls2)) None 0).
  - vm_compute. reflexivity.
  - vm_compute. reflexivity.
  - reflexivity.
  - apply ok_objs, demo2_ok.
Defined.

Lemma demo_idle : idle_session 5 (demo_sess 5) (demo_state demo_calls2).
Proof. split_and!; [vm_compute; reflexivity .. | vm_compute; discriminate]. Qed.

Lemma ret_fst_inv {A B} (a c : A) (b : B) : fst <$> Ret (a, b) = Ret c -> a = c.
Proof. by intros [= ->]. Qed.

Lemma search_delivers_matches_witness :
  exists s1 chunks s2, C_FindObjectsInit 5 None 0 (demo_state demo_calls2) = Ret (CKR_OK, s1) /\
    run_finds 5 [1; 5] s1 = Ret (chunks, s2) /\ length chunks = 2%nat /\ concat chunks = [3; 2].
Proof.
  destruct (search_delivers_matches 5 (demo_sess 5) None 0 (demo_state demo_calls2)) as (rc & s1 & E & Hrc).
  - apply demo2_ok.
  - apply demo2_ok.
  - apply demo_idle.
  - vm_compute. reflexivity.
  - vm_compute. reflexivity.
  - vm_compute. discriminate.
  - assert (E' : fst <$> C_FindObjectsInit 5 None 0 (demo_state demo_calls2) = Ret CKR_OK) by (vm_compute; reflexivity).
    rewrite E in E'. apply ret_fst_inv in E'. destruct Hrc as [Hrc|[-> Hrc]]; [rewrite E' in Hrc; discriminate Hrc |].
    destruct (Hrc [1; 5]) as (chunks & s2 & Er & Hl & Hc); [repeat constructor; discriminate |].
    exists s1, chunks, s2. split_and!; [exact E | exact Er | exact Hl |]. rewrite Hc. vm_compute. reflexivity.
Defined.

(** The states after C_FindObjectsInit and C_FindObjectsFinal on session 5. *)
Definition demo_search (cs : list call) : lib unit := demo_state (demo_calls2 ++ cs).

Lemma second_search_undefined_witness :
  C_FindObjectsInit 5 None 0 (demo_search [FindObjectsInit 5 None 0; FindObjectsFinal 5]) = Undef.
Proof.
  apply (second_search_undefined 5 (demo_sess 5) None 0 (demo_state demo_calls2)
    (demo_search [FindObjectsInit 5 None 0]) (demo_search [FindObjectsInit 5 None 0; FindObjectsFinal 5]) CKR_OK).
  - apply demo2_ok.
  - apply demo2_ok.
  - apply demo_idle.
  - vm_compute. reflexivity.
  - reflexivity.
  - vm_compute. split; [reflexivity | discriminate].
  - vm_compute. reflexivity.
  - vm_compute. reflexivity.
Defined.

Lemma attribute_read_spec_witness :
  C_GetAttributeValue 5 3 (Some [mkCK CKA_ID (Some (zeros 4)) 4; mkCK CKA_PRIME_1 (Some (zeros 64)) 64]) 2
    (demo_state demo_calls2) =
  Ret ((CKR_ATTRIBUTE_SENSITIVE,
        Some [mkCK CKA_ID (Some [7; 0; 0; 0]) 4; mkCK CKA_PRIME_1 (Some (zeros 64)) CK_ULONG_MINUS_1]),
       demo_state demo_calls2).
Proof.
  eapply eq_trans; [apply (attribute_read_spec 5 (demo_sess 5) 3 (demo_obj 3)
    [mkCK CKA_ID (Some (zeros 4)) 4; mkCK CKA_PRIME_1 (Some (zeros 64)) 64] (demo_state demo_calls2)) |].
  - apply demo2_ok.
  - apply demo2_ok.
  - vm_compute. reflexivity.
  - vm_compute. reflexivity.
  - vm_compute. reflexivity.
  - discriminate.
  - decide_c.
  - vm_compute. reflexivity.
Defined.

Lemma private_components_not_exported_witness :
  C_GetAttributeValue 5 3 (Some [mkCK CKA_PRIME_1 (Some (zeros 64)) 64]) 1 (demo_state demo_calls2) =
    Ret ((CKR_ATTRIBUTE_SENSITIVE, Some [mkCK CKA_PRIME_1 (Some (zeros 64)) CK_ULONG_MINUS_1]), demo_state demo_calls2) /\
  CKR_ATTRIBUTE_SENSITIVE <> CKR_OK /\
  ([mkCK CKA_PRIME_1 (Some (zeros 64)) CK_ULONG_MINUS_1] !! 0%nat = Some (mkCK CKA_PRIME_1 (Some (zeros 64)) CK_ULONG_MINUS_1) \/
   ([mkCK CKA_PRIME_1 (Some (zeros 64)) CK_ULONG_MINUS_1] = [mkCK CKA_PRIME_1 (Some (zeros 64)) 64] /\
    CKR_ATTRIBUTE_SENSITIVE ∈ [CKR_CRYPTOKI_NOT_INITIALIZED; CKR_SESSION_HANDLE_INVALID; CKR_OBJECT_HANDLE_INVALID])).
Proof.
  split; [vm_compute; reflexivity |]. apply (private_components_not_exported (demo_state demo_calls2) 5 3 (demo_obj 3)
    [mkCK CKA_PRIME_1 (Some (zeros 64)) 64] 1 CKR_ATTRIBUTE_SENSITIVE
    [mkCK CKA_PRIME_1 (Some (zeros 64)) CK_ULONG_MINUS_1] (demo_state demo_calls2) 0
    (mkCK CKA_PRIME_1 (Some (zeros 64)) 64)).
  - apply (run_calls_reachable tt demo_calls2 [CKR_OK; CKR_OK; CKR_OK; CKR_OK]). vm_compute. reflexivity.
  - vm_compute. reflexivity.
  - vm_compute. reflexivity.
  - vm_compute. reflexivity.
  - reflexivity.
  - reflexivity.
  - vm_compute. reflexivity.
Defined.

Lemma session_open_close_witness :
  (exists s1, C_OpenSession TEE_SLOT_ID CKF_SERIAL_SESSION true (demo_state demo_calls2) =
     Ret ((CKR_HOST_MEMORY, None), s1)) \/
  (exists a s1, C_OpenSession TEE_SLOT_ID CKF_SERIAL_SESSION true (demo_state demo_calls2) =
     Ret ((CKR_OK, Some a), s1)).
Proof.
  destruct (session_open_close CKF_SERIAL_SESSION (demo_state demo_calls2))
    as [(s1 & E & _)|(a & s1 & E & _)].
  - apply demo2_ok.
  - apply demo2_ok.
  - vm_compute. reflexivity.
  - vm_compute. reflexivity.
  - vm_compute. discriminate.
  - left. exists s1. exact E.
  - right. exists a, s1. exact E.
Defined.

Definition no_loader : Loader := {| dlopen_ok := false; dlsym_ok := false |}.

Lemma failed_initialize_sticks_witness :
  exists s1, C_Initialize (H2 := no_loader) None (loaded tt) = Ret (CKR_GENERAL_ERROR, s1).
Proof.
  destruct (failed_initialize_sticks (H2 := no_loader) (loaded tt)) as (s1 & E & _).
  - reflexivity.
  - reflexivity.
  - reflexivity.
  - exists s1. exact E.
Defined.

Lemma initialize_finalize_witness :
  exists s2, C_Finalize false (demo_state [Initialize None]) = Ret (CKR_OK, s2).
Proof.
  destruct (initialize_finalize None (loaded tt) (demo_state [Initialize None]))
    as (_ & _ & _ & _ & _ & s2 & E & _).
  - reflexivity.
  - reflexivity.
  - vm_compute. reflexivity.
  - exists s2. exact E.
Defined.
