(* ===== verification/P11SignTheorems.v ===== *)
(** * Signing with a token key

    When C_SignInit accepts a key and a mechanism, and what C_Sign hands to the
    secure-key library and gives back to the caller. *)

From stdpp Require Import base numbers list gmap.
From S2P Require Import Prelude SkTypes AttrCodec P11Types P11Template P11State P11Sessions.
From S2P Require Import P11Objects P11General P11Api P11Crypto P11Invariant P11Theorems.

Section SignInit.
Context {T : Type} `{Allocator, HI : Indet, SK_FUNCTION_LIST T, Loader}.

(** What [sign_init] decides from the object and the mechanism, memory aside. *)
Definition sign_decision (o : OBJECT) (mech : CK_MECHANISM) : Z :=
  if obj_class o =? CKO_PUBLIC_KEY then CKR_KEY_FUNCTION_NOT_PERMITTED
  else if negb (bool_decide (ckm_mechanism mech ∈ rsa_sign_mechs)) then CKR_MECHANISM_INVALID
  else if negb (ckm_paramLen mech =? 0) then CKR_MECHANISM_PARAM_INVALID
  else CKR_OK.

(** The context of a signature that was started. *)
Definition started (key : Z) (mech : CK_MECHANISM) : sign_verify_context :=
  mkSVC key (mkCKM (ckm_mechanism mech) None (ckm_paramLen mech)) false false true.

Lemma mech_allowed_spec m l : Forall (fun k => 0 <= k < 2 ^ 64) l ->
  mech_allowed m (length l) (mjoin (ck_ulong <$> l)) = bool_decide (m ∈ l).
Proof.
  induction 1 as [|k l Hk _ IH]; [done |]. cbn [length fmap list_fmap mech_allowed].
  change (mjoin (ck_ulong k :: (ck_ulong <$> l))) with (ck_ulong k ++ mjoin (ck_ulong <$> l)).
  rewrite take_app_length', drop_app_length' by (unfold ck_ulong; by rewrite length_le_bytes).
  unfold ck_ulong at 1. rewrite le_val_bytes. change (8 * Z.of_nat 8) with 64.
  rewrite Z.mod_small by done. rewrite IH. destruct (m =? k) eqn:E; boolz.
  - subst. symmetry. apply bool_decide_eq_true. constructor.
  - apply bool_decide_ext. rewrite elem_of_cons. tauto.
Qed.

Lemma indet_wf ty n : 0 <= n -> ck_wf (mkCK ty (Some (indet n)) n).
Proof. intros Hn. split; cbn [ulValueLen pValue]; [done |]. rewrite indet_length by done. lia. Qed.

Lemma drop_indet n : 0 <= n -> drop (Z.to_nat n) (indet n) = [].
Proof. intros Hn. apply drop_ge. pose proof (indet_length n Hn). lia. Qed.

(** An entry whose attribute is present and not private. *)
Lemma answer_found o x a :
  private_component (ck_type x) = false ->
  p11_template_check_attr (template_list o) (ck_type x) = Some a ->
  answer o x = match pValue x with
    | None => (None, mkCK (ck_type x) None (ulValueLen a))
    | Some m =>
        if ulValueLen a <=? ulValueLen x
        then (None, mkCK (ck_type x) (Some (value_of a ++ drop (length (value_of a)) m)) (ulValueLen a))
        else (Some CKR_BUFFER_TOO_SMALL, mkCK (ck_type x) (pValue x) CK_ULONG_MINUS_1)
    end.
Proof. intros Hp Hc. unfold answer. rewrite Hp, andb_false_r, Hc. done. Qed.

Lemma answer_absent o x :
  private_component (ck_type x) = false ->
  p11_template_check_attr (template_list o) (ck_type x) = None ->
  answer o x = (Some CKR_ATTRIBUTE_TYPE_INVALID, mkCK (ck_type x) (pValue x) CK_ULONG_MINUS_1).
Proof. intros Hp Hc. unfold answer. rewrite Hp, andb_false_r, Hc. done. Qed.

(** The four attributes [sign_init] reads of a private key, and their values. *)
Lemma check_private_key mech mem :
  length mem = 56%nat ->
  let mechs := mkCK CKA_ALLOWED_MECHANISMS
    (Some (value_of (mkCK CKA_ALLOWED_MECHANISMS (Some (mjoin (ck_ulong <$> rsa_priv_mechs))) (7 * 8)) ++
           drop 56 mem)) 56 in
  check_sign_key mech 1 CKK_RSA CKO_PRIVATE_KEY mechs =
    if negb (bool_decide (ckm_mechanism mech ∈ rsa_sign_mechs)) then CKR_MECHANISM_INVALID
    else if negb (ckm_paramLen mech =? 0) then CKR_MECHANISM_PARAM_INVALID
    else CKR_OK.
Proof.
  intros Hm mechs. unfold check_sign_key. cbn [Z.eqb negb].
  assert (Ha : mech_allowed (ckm_mechanism mech) (Z.to_nat (ulValueLen mechs / 8)) (default [] (pValue mechs))
               = bool_decide (ckm_mechanism mech ∈ rsa_priv_mechs)).
  { rewrite <- (mech_allowed_spec _ rsa_priv_mechs) by decide_c. unfold mechs.
    cbn [pValue default from_option]. rewrite drop_ge, app_nil_r by lia. reflexivity. }
  rewrite Ha. destruct (bool_decide (_ ∈ rsa_sign_mechs)) eqn:Es.
  - apply bool_decide_eq_true in Es. rewrite bool_decide_true; [by destruct (_ =? 0) |].
    eapply elem_of_sublist; [exact Es |]. unfold rsa_sign_mechs, rsa_priv_mechs.
    repeat constructor.
  - by destruct (bool_decide _).
Qed.

Lemma malloc_tmp_run (s : lib T) :
  exists ok h, malloc_tmp s = Ret (ok, set_hp h s) /\ h_live h = h_live (hp s).
Proof.
  unfold malloc_tmp. destruct (mallocs 1 (hp s)) as [ok h] eqn:E. apply mallocs_live in E. eauto.
Qed.

Lemma read_ulong_app v r : 0 <= v < 2 ^ 64 -> read_ulong (Some (ck_ulong v ++ r)) = Ret v.
Proof.
  intros Hv. unfold read_ulong, mem_read. cbn [Z.eqb deref mbind outcome_bind].
  rewrite buf_read_ret by (unfold ck_ulong; len). cbn [fmap outcome_fmap Z.to_nat drop].
  rewrite drop_0, take_app_length' by (unfold ck_ulong; len).
  unfold ck_ulong. rewrite le_val_bytes. change (8 * Z.of_nat 8) with 64. by rewrite Z.mod_small.
Qed.

Lemma sign_init_run h x key o mech (s : lib T) :
  assoc h (sessions s) = Some x -> sess_ok x -> assoc key (objs s) = Some o -> obj_ok o ->
  sc_active (sign_ctx x) = false ->
  exists rc hp', 
    sign_init h h mech false key s =
      Ret (rc, if rc =? CKR_OK
               then set_sess (assoc_set h (with_sign_ctx x (started key mech)) (sessions s)) (set_hp hp' s)
               else set_hp hp' s) /\
    (rc = CKR_HOST_MEMORY \/ rc = sign_decision o mech).
Proof.
  intros Ex Hx Eo Ho Hact. unfold sign_init, sign_decision.
  unfold mbind at 1, st_bind at 1. rewrite (session_at_run h x) by done. rewrite Hact.
  pose proof Ho as (_ & _ & _ & _ & [(Hc & Hcl & Hk & Hs)|(Hc & Hcl & Hk & Hse & Hex & Hs & Hmech)]);
    rewrite Hc.
  - exists CKR_KEY_FUNCTION_NOT_PERMITTED, (hp s). split; [| by right].
    unfold mbind at 1, st_bind at 1.
    rewrite (get_attr_value_run h x key o [mkCK CKA_SIGN None 0]); try done; [| by repeat constructor].
    cbn [fmap list_fmap]. rewrite answer_absent by done. by destruct s.
  - change (CKO_PRIVATE_KEY =? CKO_PUBLIC_KEY) with false. cbv iota.
    unfold mbind at 1, st_bind at 1.
    rewrite (get_attr_value_run h x key o [mkCK CKA_SIGN None 0]); try done; [| by repeat constructor].
    cbn [fmap list_fmap]. erewrite answer_found by done. cbn [pValue fst snd ulValueLen bbool_attr last_error foldl default from_option id].
    rewrite Z.eqb_refl. cbn [negb].
    unfold mbind at 1, st_bind at 1.
    rewrite (get_attr_value_run h x key o [mkCK CKA_ALLOWED_MECHANISMS None 0; mkCK CKA_KEY_TYPE None 0;
      mkCK CKA_CLASS None 0]); try done; [| by repeat constructor].
    cbn [fmap list_fmap]. erewrite !answer_found by done.
    cbn [pValue fst snd ulValueLen ulong_attr last_error foldl default from_option id]. rewrite Z.eqb_refl. cbn [negb].
    destruct (malloc_tmp_run s) as (ok & hp' & Em & _).
    unfold mbind at 1, st_bind at 1. rewrite Em. destruct ok; cbn [negb]; [| exists CKR_HOST_MEMORY, hp'; auto].
    cbv zeta. cbn [nth default from_option id ulValueLen bbool_attr].
    unfold mbind at 1, st_bind at 1.
    rewrite (get_attr_value_run h x key o
      [mkCK CKA_SIGN (Some CK_FALSE_b) 1; mkCK CKA_ALLOWED_MECHANISMS (Some (indet 56)) 56;
       mkCK CKA_KEY_TYPE (Some (indet 8)) 8; mkCK CKA_CLASS (Some (indet 8)) 8]); try done;
      [| repeat (constructor; [first [by split | by apply indet_wf] |]); by constructor].
    set (M := mkCK CKA_ALLOWED_MECHANISMS (Some (mjoin (ck_ulong <$> rsa_priv_mechs))) (7 * 8)) in *.
    assert (A0 : answer o (mkCK CKA_SIGN (Some CK_FALSE_b) 1) = (None, mkCK CKA_SIGN (Some [1]) 1))
      by (rewrite (answer_found o _ (bbool_attr CKA_SIGN true)) by done; vm_compute; reflexivity).
    assert (A1 : answer o (mkCK CKA_ALLOWED_MECHANISMS (Some (indet 56)) 56) =
      (None, mkCK CKA_ALLOWED_MECHANISMS (Some (value_of M ++ drop 56 (indet 56))) 56))
      by (rewrite (answer_found o _ M) by done; vm_compute; reflexivity).
    assert (A2 : answer o (mkCK CKA_KEY_TYPE (Some (indet 8)) 8) =
      (None, mkCK CKA_KEY_TYPE (Some (ck_ulong CKK_RSA ++ drop 8 (indet 8))) 8))
      by (rewrite (answer_found o _ (ulong_attr CKA_KEY_TYPE CKK_RSA)) by done; vm_compute; reflexivity).
    assert (A3 : answer o (mkCK CKA_CLASS (Some (indet 8)) 8) =
      (None, mkCK CKA_CLASS (Some (ck_ulong CKO_PRIVATE_KEY ++ drop 8 (indet 8))) 8))
      by (rewrite (answer_found o _ (ulong_attr CKA_CLASS CKO_PRIVATE_KEY)) by done; vm_compute; reflexivity).
    cbn [fmap list_fmap]. rewrite A0, A1, A2, A3. cbn [fst snd last_error foldl default from_option id].
    rewrite Z.eqb_refl. cbn [negb]. cbv zeta. cbn [nth default from_option id pValue].
    unfold mbind, st_bind. rewrite !read_ulong_app by decide_c. cbn [lift].
    change (mem_read (Some [1]) 1) with (Ret [1]). cbn [fmap outcome_fmap lift le_val].
    change (1 + 256 * 0) with 1.
    rewrite (check_private_key mech (indet 56)) by (pose proof (indet_length 56 ltac:(lia)); lia).
    set (d := if negb (bool_decide _) then _ else _).
    exists d, hp'. split; [| right; reflexivity].
    destruct (d =? CKR_OK) eqn:Ed; cbn [negb]; [| done]. boolz. rewrite Ed.
    unfold set_ctx, mbind, st_bind. rewrite (session_at_run h x) by done. done.
Qed.

(** starting a signature.  On an open session without a signature in
    progress C_SignInit either runs out of memory or decides by the key and the
    mechanism alone: a public key is not permitted, only the six RSA mechanisms
    without parameter start, and exactly then the session records the key and
    the mechanism; otherwise the session is unchanged. *)
Theorem sign_init_spec h x key o mech (s : lib T) :
  lib_ok s -> lock_free s -> initialized s = true ->
  assoc h (sessions s) = Some x -> assoc key (objs s) = Some o -> sc_active (sign_ctx x) = false ->
  exists rc s', C_SignInit h (Some mech) key s = Ret (rc, s') /\
    (rc = CKR_HOST_MEMORY \/ rc = sign_decision o mech) /\
    assoc h (sessions s') = Some (if rc =? CKR_OK then with_sign_ctx x (started key mech) else x).
Proof.
  intros Hok Hf Hi Ex Eo Hact. pose proof (sess_at_ok _ _ _ Hok Ex) as Hx.
  pose proof (obj_at_ok _ _ _ Hok Eo) as Ho. unfold C_SignInit.
  match goal with |- context [locked ?b s] => destruct (locked_run b s Hf) as [l Hrun] end.
  destruct (sign_init_run h x key o mech (set_lk l s)) as (rc & hp' & E & Hrc); try done.
  eexists rc, _. split; [eapply Hrun |].
  - rewrite when_init_run by done. rewrite (with_session_run h x) by done.
    unfold mbind, st_bind. rewrite (session_at_run h x) by done. destruct Hx as (Hsl & _). rewrite Hsl.
    unfold is_object_handle_valid. change (negb (get_object_list TEE_SLOT_ID)) with false. cbv iota.
    unfold gets. rewrite (proj2 (existsb_assoc (objs (set_lk l s)) key)) by (exists o; exact Eo).
    cbn [negb]. exact E.
  - by destruct (rc =? CKR_OK).
  - split; [done |]. destruct (rc =? CKR_OK); [| done]. cbn. apply assoc_set_same. exists x. exact Ex.
Qed.

(** ** The raw signature *)

(** PKCS#1 v1.5 block type 1 for a [k]-byte modulus. *)
Definition pkcs1_type1 (k : Z) (d : list Z) : list Z :=
  [0; 1] ++ replicate (Z.to_nat (k - 3 - Z.of_nat (length d))) 255 ++ [0] ++ d.

Lemma pkcs1_block_ok k d :
  11 <= k <= MAX_RSA_KEYLEN -> Z.of_nat (length d) <= k - 11 ->
  exists b, pkcs1_block k (Z.of_nat (length d)) d = Ret b /\
    buf_read b 0 k = Ret (pkcs1_type1 k d).
Proof.
  unfold MAX_RSA_KEYLEN. intros Hk Hd. unfold pkcs1_block, MAX_RSA_KEYLEN.
  rewrite (u64_small (k - 3 - _)), u64_small, Z.max_r by lia.
  rewrite (proj2 (Z.leb_le _ _)) by lia. cbn [guard_c mbind outcome_bind]. eexists. split; [done |].
  assert (Hlen : length (pkcs1_type1 k d) = Z.to_nat k) by (unfold pkcs1_type1; len).
  assert (Hb : forall r, [0; RSA_PKCS_BT_1] ++ replicate (Z.to_nat (k - 3 - Z.of_nat (length d) + 2 - 2)) 255
                ++ [0] ++ d ++ r = pkcs1_type1 k d ++ r).
  { intros r. unfold pkcs1_type1. rewrite <- !app_assoc. f_equal. f_equal. f_equal. lia. }
  rewrite Hb. rewrite buf_read_ret by (rewrite ?length_app, ?Hlen; lia).
  rewrite drop_0, <- Hlen, take_app_length. done.
Qed.

(** A started signature with the mechanism [mech] and a key whose modulus is the
    attribute [a]. *)
Definition signing (mech h : Z) (x : session) (o : OBJECT) (a : CK_ATTRIBUTE) (s : lib T) : Prop :=
  lib_ok s /\ lock_free s /\ initialized s = true /\ lib_open (slot s) = true /\
  sk_funcs (slot s) = true /\ assoc h (sessions s) = Some x /\ sc_active (sign_ctx x) = true /\
  ckm_mechanism (sc_mech (sign_ctx x)) = mech /\
  assoc (sc_key (sign_ctx x)) (objs s) = Some o /\
  p11_template_check_attr (template_list o) CKA_MODULUS = Some a.
Definition raw_signing := signing CKM_RSA_PKCS.

(** The session after the operation ended. *)
Definition ended (h : Z) (x : session) (s : lib T) : lib T :=
  set_sess (assoc_set h (with_sign_ctx x null_sign_ctx) (sessions s)) s.

Lemma sign_modulus mech h x o a l (s : lib T) :
  signing mech h x o a s ->
  get_attr_value h (sc_key (sign_ctx x)) (Some [mkCK CKA_MODULUS None 0]) 1 (set_lk l s) =
    Ret ((CKR_OK, Some [mkCK CKA_MODULUS None (ulValueLen a)]), set_lk l s).
Proof.
  intros (Hok & _ & _ & _ & _ & Ex & _ & _ & Eo & Ea).
  eapply eq_trans;
    [apply (get_attr_value_run h x (sc_key (sign_ctx x)) o [mkCK CKA_MODULUS None 0] (set_lk l s));
       eauto using sess_at_ok, obj_at_ok; by repeat constructor |].
  cbn [fmap list_fmap]. by rewrite (answer_found o _ a).
Qed.

(** The routine of a mechanism. *)
Definition sign_routine (mech : Z) : Z -> Z -> list Z -> Z -> option (list Z) -> Z -> st (lib T) (Z * option (list Z) * Z) :=
  if mech =? CKM_RSA_PKCS then rsa_sign_pkcs else rsa_hash_sign_pkcs.

(** C_Sign with a signature in progress reaches the routine, and ends the operation
    unless it was a size query or a short buffer. *)
Lemma sign_enter mech h x o a d dl pSig n (s : lib T) rc m n' s1 l :
  signing mech h x o a s -> mech ∈ rsa_sign_mechs ->
  sign_routine mech h h d dl pSig n (set_lk l s) = Ret ((rc, m, n'), s1) -> sessions s1 = sessions s ->
  sign h h d dl pSig n (set_lk l s) =
    Ret ((rc, m, n'), if (rc =? CKR_OK) && bool_decide (pSig = None) || (rc =? CKR_BUFFER_TOO_SMALL)
                      then s1 else ended h x s1).
Proof.
  intros (Hok & _ & _ & _ & _ & Ex & Hact & Hm & Eo & Ea) Hin E Hs. unfold sign.
  unfold mbind at 1, st_bind at 1. rewrite (session_at_run h x) by done. cbv zeta. rewrite Hact, Hm.
  cbn [negb]. rewrite bool_decide_true by done.
  unfold mbind at 1, st_bind at 1. unfold sign_routine in E.
  assert ((if mech =? CKM_RSA_PKCS then rsa_sign_pkcs h h d dl pSig n else rsa_hash_sign_pkcs h h d dl pSig n) (set_lk l s)
    = Ret ((rc, m, n'), s1)) as -> by (by destruct (mech =? CKM_RSA_PKCS)).
  destruct (_ || _); [done |].
  unfold set_ctx, mbind, st_bind. rewrite (session_at_run h x) by by rewrite Hs. done.
Qed.

(** From the signature routine to the entry point. *)
Lemma c_sign_run mech h x o a d dl pSig n (s : lib T) rc m n' s1 :
  signing mech h x o a s -> mech ∈ rsa_sign_mechs ->
  (forall l, sign_routine mech h h d dl pSig n (set_lk l s) = Ret ((rc, m, n'), set_lk l s1)) ->
  sessions s1 = sessions s -> lk s1 = lk s ->
  C_Sign h (Some d) dl pSig (Some n) s =
    Ret ((rc, m, Some n'),
         if (rc =? CKR_OK) && bool_decide (pSig = None) || (rc =? CKR_BUFFER_TOO_SMALL)
         then s1 else ended h x s1).
Proof.
  intros Hr Hin E Hs Hlk. pose proof Hr as (Hok & Hf & Hi & _ & _ & Ex & _).
  pose proof (sess_at_ok _ _ _ Hok Ex) as Hx. unfold C_Sign. apply locked_intro; [done |]. intros l.
  exists (set_lk l (if (rc =? CKR_OK) && bool_decide (pSig = None) || (rc =? CKR_BUFFER_TOO_SMALL)
                    then s1 else ended h x s1)).
  split_and!; [| done |].
  - rewrite when_init_run by done. rewrite (with_session_run h x) by done.
    unfold mbind at 1, st_bind at 1.
    rewrite (sign_enter mech h x o a d dl pSig n s rc m n' (set_lk l s1) l Hr Hin (E l)) by done.
    by destruct (_ || _).
  - rewrite <- Hlk. destruct (_ || _); by destruct s1.
Qed.

Lemma raw_mech : CKM_RSA_PKCS ∈ rsa_sign_mechs.
Proof. decide_c. Qed.

(** the checks of a raw RSA signature.  A null signature buffer asks for the
    size, a short one is refused, and both keep the operation; data longer than
    the modulus less eleven bytes is refused and ends it; none of them reaches
    the token. *)
Theorem raw_sign_checks h x o a d dl pSig n (s : lib T) :
  raw_signing h x o a s -> 11 <= ulValueLen a < 2 ^ 64 ->
  (pSig = None -> C_Sign h (Some d) dl pSig (Some n) s = Ret ((CKR_OK, None, Some (ulValueLen a)), s)) /\
  (pSig <> None -> n < ulValueLen a ->
     C_Sign h (Some d) dl pSig (Some n) s = Ret ((CKR_BUFFER_TOO_SMALL, pSig, Some n), s)) /\
  (pSig <> None -> ulValueLen a <= n -> ulValueLen a - 11 < dl ->
     C_Sign h (Some d) dl pSig (Some n) s = Ret ((CKR_DATA_LEN_RANGE, pSig, Some n), ended h x s)).
Proof.
  intros Hr Hk. pose proof Hr as (Hok & Hf & Hi & _ & _ & Ex & _).
  split_and!.
  - intros ->. rewrite (c_sign_run CKM_RSA_PKCS h x o a d dl None n s CKR_OK None (ulValueLen a) s) by
      (try done; try exact raw_mech; intros l; unfold sign_routine; rewrite Z.eqb_refl; unfold rsa_sign_pkcs, mbind, st_bind; rewrite (session_at_run h x) by done;
       cbv zeta; rewrite (sign_modulus CKM_RSA_PKCS h x o a l s Hr); done). done.
  - intros Hp Hn. destruct pSig as [sg|]; [| done].
    rewrite (c_sign_run CKM_RSA_PKCS h x o a d dl (Some sg) n s CKR_BUFFER_TOO_SMALL (Some sg) n s) by
      (try done; try exact raw_mech; intros l; unfold sign_routine; rewrite Z.eqb_refl; unfold rsa_sign_pkcs, mbind, st_bind; rewrite (session_at_run h x) by done;
       cbv zeta; rewrite (sign_modulus CKM_RSA_PKCS h x o a l s Hr); cbn [nth default from_option id ulValueLen];
       rewrite Z.eqb_refl; cbn [negb]; by rewrite (proj2 (Z.ltb_lt _ _)) by lia). done.
  - intros Hp Hn Hd. destruct pSig as [sg|]; [| done].
    rewrite (c_sign_run CKM_RSA_PKCS h x o a d dl (Some sg) n s CKR_DATA_LEN_RANGE (Some sg) n s) by
      (try done; try exact raw_mech; intros l; unfold sign_routine; rewrite Z.eqb_refl; unfold rsa_sign_pkcs, mbind, st_bind; rewrite (session_at_run h x) by done;
       cbv zeta; rewrite (sign_modulus CKM_RSA_PKCS h x o a l s Hr); cbn [nth default from_option id ulValueLen];
       rewrite Z.eqb_refl; cbn [negb]; rewrite (proj2 (Z.ltb_ge _ _)) by lia;
       rewrite u64_small by lia; by rewrite (proj2 (Z.ltb_lt _ _)) by lia). done.
Qed.

Lemma mem_read_all d : mem_read (Some d) (Z.of_nat (length d)) = Ret d.
Proof.
  unfold mem_read. destruct (_ =? 0) eqn:E0; boolz; [by destruct d |]. cbn [deref mbind outcome_bind].
  rewrite buf_read_ret by lia. by rewrite drop_0, Nat2Z.id, firstn_all.
Qed.

Lemma store_signature_run sg n sig : 0 <= n < 2 ^ 16 -> n <= Z.of_nat (length sg) -> Z.of_nat (length sig) <= n ->
  store_signature (Some sg) n sig = Ret (Some (sig ++ drop (length sig) sg), Z.of_nat (length sig)).
Proof.
  intros Hn Hsg Hsig. unfold store_signature, mem_store. destruct (Z.of_nat (length sig) =? 0) eqn:E0; boolz.
  - destruct sig; [| cbn in *; lia]. cbn [mbind outcome_bind app length]. unfold store_u16.
    rewrite (u16_small n), drop_0 by lia. change (u16 (Z.of_nat 0)) with 0. by replace (n - n + 0) with 0 by lia.
  - cbn [deref mbind outcome_bind]. rewrite buf_write_ret by lia. cbn [mbind outcome_bind].
    unfold store_u16. rewrite (u16_small n), (u16_small (Z.of_nat _)) by lia.
    replace (n - n + Z.of_nat (length sig)) with (Z.of_nat (length sig)) by lia. reflexivity.
Qed.

Lemma raw_sign_run h x o a d sg n (s : lib T) ret sig t' :
  raw_signing h x o a s ->
  11 <= ulValueLen a <= MAX_RSA_KEYLEN -> Z.of_nat (length d) <= ulValueLen a - 11 ->
  ulValueLen a <= n < 2 ^ 16 -> n <= Z.of_nat (length sg) -> Z.of_nat (length sig) <= n ->
  SK_Decrypt (mkMech SKM_RSA_PKCS_NOPAD) (sk_obj_handle o) (pkcs1_type1 (ulValueLen a) d) n (token s) =
    Ret (ret, sig, t') ->
  C_Sign h (Some d) (Z.of_nat (length d)) (Some sg) (Some n) s =
    if ret =? SKR_OK
    then Ret ((CKR_OK, Some (sig ++ drop (length sig) sg), Some (Z.of_nat (length sig))),
              ended h x (set_token t' s))
    else Ret ((CKR_GENERAL_ERROR, Some sg, Some n), ended h x (set_token t' s)).
Proof.
  intros Hr Hk Hd Hn Hsg Hsig Etok. pose proof Hr as (Hok & Hf & Hi & Hop & Hfu & Ex & _ & _ & Eo & _).
  pose proof (sess_at_ok _ _ _ Hok Ex) as (Hsl & _).
  destruct (pkcs1_block_ok (ulValueLen a) d Hk Hd) as (b & Eb & Ebr).
  assert (E : forall l, rsa_sign_pkcs h h d (Z.of_nat (length d)) (Some sg) n (set_lk l s) =
    if ret =? SKR_OK
    then Ret ((CKR_OK, Some (sig ++ drop (length sig) sg), Z.of_nat (length sig)), set_lk l (set_token t' s))
    else Ret ((CKR_GENERAL_ERROR, Some sg, n), set_lk l (set_token t' s))).
  { intros l. unfold rsa_sign_pkcs, MAX_RSA_KEYLEN in *. unfold mbind at 1, st_bind at 1.
    rewrite (session_at_run h x) by done. cbv zeta. unfold mbind at 1, st_bind at 1.
    rewrite (sign_modulus CKM_RSA_PKCS h x o a l s Hr). cbn [nth default from_option id ulValueLen].
    rewrite Z.eqb_refl. cbn [negb]. rewrite (proj2 (Z.ltb_ge _ _)) by lia.
    rewrite u64_small by lia. rewrite (proj2 (Z.ltb_ge _ _)) by lia.
    unfold mbind, st_bind. rewrite mem_read_all. cbn [lift]. rewrite Eb. cbn [lift]. rewrite Hsl.
    unfold get_slot_function_list. cbn [Z.eqb TEE_SLOT_ID negb get_global_slot_info]. unfold gets.
    cbn [slot set_lk]. rewrite Hfu. cbn [negb]. unfold object_at. 
    change (objs (set_lk l s)) with (objs s). rewrite Eo. rewrite u16_small by lia. rewrite Ebr. cbn [lift].
    unfold call_sk. cbn [slot set_lk token]. rewrite Hop. rewrite u16_small by lia. rewrite Etok.
    destruct (ret =? SKR_OK); cbn [negb]; [| done]. by rewrite store_signature_run by lia. }
  destruct (ret =? SKR_OK).
  - by rewrite (c_sign_run CKM_RSA_PKCS h x o a _ _ _ _ s _ _ _ (set_token t' s) Hr raw_mech E).
  - by rewrite (c_sign_run CKM_RSA_PKCS h x o a _ _ _ _ s _ _ _ (set_token t' s) Hr raw_mech E).
Qed.

(** the raw RSA signature.  For a modulus of 11 to 512 bytes, data that
    fits and a large enough signature buffer, the token's private-key operation
    is called exactly once, with the key's own handle and the PKCS#1 type 1
    block 00 01 FF..FF 00 data of the modulus length; what it returns is stored
    at the start of the caller's buffer with its length, and the operation
    ends. *)
Theorem raw_sign_spec h x o a d sg n (s : lib T) ret sig t' :
  raw_signing h x o a s ->
  11 <= ulValueLen a <= MAX_RSA_KEYLEN -> Z.of_nat (length d) <= ulValueLen a - 11 ->
  ulValueLen a <= n < 2 ^ 16 -> n <= Z.of_nat (length sg) -> Z.of_nat (length sig) <= n ->
  SK_Decrypt (mkMech SKM_RSA_PKCS_NOPAD) (sk_obj_handle o) (pkcs1_type1 (ulValueLen a) d) n (token s) =
    Ret (ret, sig, t') ->
  C_Sign h (Some d) (Z.of_nat (length d)) (Some sg) (Some n) s =
    if ret =? SKR_OK
    then Ret ((CKR_OK, Some (sig ++ drop (length sig) sg), Some (Z.of_nat (length sig))),
              ended h x (set_token t' s))
    else Ret ((CKR_GENERAL_ERROR, Some sg, Some n), ended h x (set_token t' s)).
Proof. apply raw_sign_run. Qed.

(** ** Hash and sign *)

(** A hash-and-sign operation on a message below 64 KiB: the token digests the
    message and signs the digest with the key's own handle. *)
Lemma hash_sign_run mech st dt h x o a d sg n (s : lib T) hash t1 sig t2 :
  signing mech h x o a s -> hash_sign_mechs mech = Some (st, dt) -> Z.of_nat (length d) < 2 ^ 16 ->
  0 <= ulValueLen a <= n -> n < 2 ^ 16 -> n <= Z.of_nat (length sg) ->
  SK_Digest (mkMech dt) d MAX_HASH_LEN (token s) = Ret (SKR_OK, hash, t1) -> Z.of_nat (length hash) <= MAX_HASH_LEN ->
  SK_Sign (mkMech st) (sk_obj_handle o) hash n t1 = Ret (SKR_OK, sig, t2) -> Z.of_nat (length sig) <= n ->
  C_Sign h (Some d) (Z.of_nat (length d)) (Some sg) (Some n) s =
    Ret ((CKR_OK, Some (sig ++ drop (length sig) sg), Some (Z.of_nat (length sig))), ended h x (set_token t2 s)).
Proof.
  intros Hr Hmech Hd Hk Hn Hsg Ed Hh Es Hsig. pose proof Hr as (Hok & Hf & Hi & Hop & Hfu & Ex & _ & Hm & Eo & _).
  pose proof (sess_at_ok _ _ _ Hok Ex) as (Hsl & _).
  assert (Hin : mech ∈ rsa_sign_mechs /\ (mech =? CKM_RSA_PKCS) = false).
  { unfold hash_sign_mechs in Hmech.
    repeat (destruct (mech =? _) eqn:E in Hmech; [boolz; subst mech; split; [decide_c | done] | clear E]). discriminate Hmech. }
  destruct Hin as [Hin Hne].
  rewrite (c_sign_run mech h x o a d _ _ n s CKR_OK (Some (sig ++ drop (length sig) sg)) (Z.of_nat (length sig)) (set_token t2 s) Hr Hin);
    [done | | done | done].
  intros l. unfold sign_routine. rewrite Hne. unfold rsa_hash_sign_pkcs. unfold mbind at 1, st_bind at 1.
  rewrite (session_at_run h x) by done. cbv zeta. unfold mbind at 1, st_bind at 1.
  rewrite (sign_modulus mech h x o a l s Hr). cbn [nth default from_option id ulValueLen].
  rewrite Z.eqb_refl. cbn [negb]. rewrite (proj2 (Z.ltb_ge _ _)) by lia. rewrite Hsl, Hm, Hmech.
  unfold mbind, st_bind, get_slot_function_list. cbn [Z.eqb TEE_SLOT_ID negb get_global_slot_info]. unfold gets.
  cbn [slot set_lk]. rewrite Hfu. cbn [negb]. unfold object_at. change (objs (set_lk l s)) with (objs s). rewrite Eo.
  rewrite u16_small by lia. rewrite mem_read_all. cbn [lift]. unfold call_sk. cbn [slot set_lk token]. rewrite Hop, Ed.
  rewrite Z.eqb_refl. cbn [negb]. rewrite (proj2 (Z.leb_le _ _)) by lia. cbn [guard_c lift set_token set_lk slot token].
  rewrite Hop. rewrite u16_small by lia. rewrite Es. rewrite Z.eqb_refl. cbn [negb]. by rewrite store_signature_run by lia.
Qed.

(** a hash-and-sign operation hands the data length to the token as a
    16-bit value: two messages of the same length of 64 KiB or more that agree
    on their first [length mod 65536] bytes are treated alike, result,
    signature and state. *)
Theorem hash_sign_ignores_tail h x d1 d2 dl pSig n (s : lib T) :
  assoc h (sessions s) = Some x -> sess_ok x ->
  ckm_mechanism (sc_mech (sign_ctx x)) <> CKM_RSA_PKCS ->
  2 ^ 16 <= dl -> Z.of_nat (length d1) = dl -> Z.of_nat (length d2) = dl ->
  take (Z.to_nat (dl mod 2 ^ 16)) d1 = take (Z.to_nat (dl mod 2 ^ 16)) d2 ->
  C_Sign h (Some d1) dl pSig n s = C_Sign h (Some d2) dl pSig n s.
Proof.
  intros Ex Hx Hm Hdl H1' H2' Htake. destruct n as [n|]; [| done].
  assert (Hrd : mem_read (Some d1) (u16 dl) = mem_read (Some d2) (u16 dl)).
  { pose proof (u16_bound dl). unfold mem_read. destruct (_ =? 0); [done |]. cbn [deref mbind outcome_bind].
    rewrite !buf_read_ret by lia. rewrite !drop_0. by f_equal. }
  assert (Hsign : forall l, sign h h d1 dl pSig n (set_lk l s) = sign h h d2 dl pSig n (set_lk l s)).
  { intros l. unfold sign, mbind, st_bind. rewrite !(session_at_run h x) by done.
    cbv zeta. rewrite (proj2 (Z.eqb_neq _ CKM_RSA_PKCS) Hm). destruct (negb _); [done |].
    destruct (bool_decide _); [| done]. unfold rsa_hash_sign_pkcs, mbind, st_bind.
    rewrite (session_at_run h x) by done. by rewrite Hrd. }
  unfold C_Sign, locked, mbind, st_bind, on_lock. destruct (p11_global_lock (lk s)) as [l|]; [| done].
  assert (Hb : forall d, when_initialized (fun rc => (rc, pSig, Some n))
      (with_session h (fun rc => (rc, pSig, Some n)) (fun sp => '(rc, m, n) ← sign h sp d dl pSig n; mret (rc, m, Some n)))
      (set_lk l s) =
    if initialized s then ('(rc, m, n) ← sign h h d dl pSig n; mret (rc, m, Some n)) (set_lk l s)
    else Ret ((CKR_CRYPTOKI_NOT_INITIALIZED, pSig, Some n), set_lk l s)).
  { intros d. unfold when_initialized, is_lib_initialized, gets, mbind at 1, st_bind at 1.
    cbn [initialized set_lk]. destruct (initialized s); cbn [negb]; [| done].
    by rewrite (with_session_run h x). }
  unfold mbind, st_bind in Hb. rewrite !Hb. by rewrite Hsign.
Qed.
End SignInit.

(** ** Witnesses *)

Definition demo_mech (m : Z) : CK_MECHANISM := mkCKM m None 0.
Definition demo_signing (m : Z) : lib unit :=
  demo_state (demo_calls2 ++ [SignInit 5 (Some (demo_mech m)) 3]).
Definition demo_signing_sess (m : Z) : session :=
  default (demo_sess 5) (assoc 5 (sessions (demo_signing m))).
Definition demo_modulus : CK_ATTRIBUTE := mkCK CKA_MODULUS (Some (replicate 16 129)) 16.

Lemma sign_init_spec_witness :
  exists rc s', C_SignInit 5 (Some (demo_mech CKM_RSA_PKCS)) 3 (demo_state demo_calls2) = Ret (rc, s').
Proof.
  destruct (sign_init_spec 5 (demo_sess 5) 3 (demo_obj 3) (demo_mech CKM_RSA_PKCS) (demo_state demo_calls2))
    as (rc & s' & E & _).
  - apply demo2_ok.
  - apply demo2_ok.
  - vm_compute. reflexivity.
  - vm_compute. reflexivity.
  - vm_compute. reflexivity.
  - vm_compute. reflexivity.
  - exists rc, s'. exact E.
Defined.

Lemma demo_raw_signing :
  raw_signing 5 (demo_signing_sess CKM_RSA_PKCS) (demo_obj 3) demo_modulus (demo_signing CKM_RSA_PKCS).
Proof.
  destruct (demo_ok (demo_calls2 ++ [SignInit 5 (Some (demo_mech CKM_RSA_PKCS)) 3])
    [CKR_OK; CKR_OK; CKR_OK; CKR_OK; CKR_OK] (demo_signing CKM_RSA_PKCS)) as [Hok Hf];
    [vm_compute; reflexivity |].
  split_and!; first [exact Hok | exact Hf | vm_compute; reflexivity].
Qed.

Lemma raw_sign_checks_witness :
  C_Sign 5 (Some [9]) 1 None (Some 0) (demo_signing CKM_RSA_PKCS) =
    Ret ((CKR_OK, None, Some 16), demo_signing CKM_RSA_PKCS).
Proof.
  apply (raw_sign_checks 5 (demo_signing_sess CKM_RSA_PKCS) (demo_obj 3) demo_modulus [9] 1 None 0
    (demo_signing CKM_RSA_PKCS)).
  - apply demo_raw_signing.
  - vm_compute. split; [discriminate | reflexivity].
  - reflexivity.
Defined.

Lemma raw_sign_spec_witness :
  C_Sign 5 (Some [9]) 1 (Some (zeros 16)) (Some 16) (demo_signing CKM_RSA_PKCS) =
    Ret ((CKR_OK, Some ([9; 0] ++ replicate 12 255 ++ [1; 0]), Some 16),
         ended 5 (demo_signing_sess CKM_RSA_PKCS) (demo_signing CKM_RSA_PKCS)).
Proof.
  eapply eq_trans; [apply (raw_sign_spec 5 (demo_signing_sess CKM_RSA_PKCS) (demo_obj 3) demo_modulus
    [9] (zeros 16) 16 (demo_signing CKM_RSA_PKCS) SKR_OK ([9; 0] ++ replicate 12 255 ++ [1; 0]) tt) |].
  - apply demo_raw_signing.
  - vm_compute. split; discriminate.
  - vm_compute. discriminate.
  - vm_compute. split; [discriminate | reflexivity].
  - vm_compute. discriminate.
  - vm_compute. discriminate.
  - vm_compute. reflexivity.
  - vm_compute. reflexivity.
Defined.

Lemma hash_sign_ignores_tail_witness :
  C_Sign 5 (Some (replicate (Z.to_nat 65536) 1)) 65536 (Some (zeros 16)) (Some 16) (demo_signing CKM_SHA256_RSA_PKCS) =
  C_Sign 5 (Some (replicate (Z.to_nat 65536) 2)) 65536 (Some (zeros 16)) (Some 16) (demo_signing CKM_SHA256_RSA_PKCS).
Proof.
  apply (hash_sign_ignores_tail 5 (demo_signing_sess CKM_SHA256_RSA_PKCS)).
  - vm_compute. reflexivity.
  - split_and!; vm_compute; first [reflexivity | discriminate].
  - vm_compute. discriminate.
  - vm_compute. discriminate.
  - rewrite length_replicate. vm_compute. reflexivity.
  - rewrite length_replicate. vm_compute. reflexivity.
  - reflexivity.
Defined.
