(* ===== verification/P11Stack.v ===== *)
(** * PKCS#11 on the secure-object stack

    The function list the PKCS#11 library calls is the secure-key library; here it
    is the model of that library, on libteec, the link and the trusted application.
    The theorems compose the properties of the PKCS#11 library with the refinement
    of the abstract object store. *)

From stdpp Require Import base numbers list gmap.
From S2P Require Import Prelude SkTypes AttrCodec Wires TeeClient SkLib SkLibTheorems LibTeec LibTeecTheorems.
From S2P Require Import TeeApi TeeRam TaStorage TaCrypto TeeLogic TaTheorems TaQueryTheorems TaFindTheorems TaCryptoTheorems.
From S2P Require Import Link ObjectStore Refinement RefinementReads Stack.
From S2P Require Import P11Types P11Template P11State P11Sessions P11Objects P11General P11Api P11Crypto P11Invariant P11Theorems P11SignTheorems.

(** ** The function list *)

(** The functions securekey.c puts in the list, with buffers of the given
    capacity. *)
#[export] Instance stack_functions {W} `{TEEC W} : SK_FUNCTION_LIST W := {|
  SK_EnumerateObjects p n max w :=
    '((rc, (arr, cnt)), w) ← SkLib.SK_EnumerateObjects p n (Some (zeros max)) max true w;
    Ret (rc, take (Z.to_nat (default 0 cnt)) (default [] arr), w);
  SK_GetObjectAttribute h attrs w :=
    '((rc, l), w) ← SkLib.SK_GetObjectAttribute h (Some attrs) (Z.of_nat (length attrs)) w;
    Ret (rc, default [] l, w);
  SK_Sign m h d l w :=
    '((rc, (out, n)), w) ← SkLib.SK_Sign (Some m) h (Some d) (Z.of_nat (length d)) (Some (zeros l)) (Some l) w;
    Ret (rc, take (Z.to_nat (default 0 n)) (default [] out), w);
  SK_Decrypt m h d l w :=
    '((rc, (out, n)), w) ← SkLib.SK_Decrypt (Some m) h (Some d) (Z.of_nat (length d)) (Some (zeros l)) (Some l) w;
    Ret (rc, take (Z.to_nat (default 0 n)) (default [] out), w);
  SK_Digest m d l w :=
    '((rc, (out, n)), w) ← SkLib.SK_Digest (Some m) (Some d) (Z.of_nat (length d)) (Some (zeros l)) (Some l) w;
    Ret (rc, take (Z.to_nat (default 0 n)) (default [] out), w)
|}.

Section OnStack.
Context {W S K : Type} `{HD : TeeDriver W, HS : TEE S, HC : Crypto K, HL : !TEE_laws S K}.
Context `{HDL : !Driver_laws W, HLL : !Link_laws W S K}.
Context `{HA : Allocator, HI : Indet, HLo : Loader}.

(** ** What the token answers *)

Lemma zeros_len n : 0 <= n -> Z.of_nat (length (zeros n)) = n.
Proof. intros. unfold zeros. len. Qed.

Lemma denied_not_ok rc : denied (W := W) (S := S) (K := K) rc -> rc <> SKR_OK.
Proof. destruct 1 as [rc Ho | res o _ | res _]; [by eapply api_failure_not_ok | apply map_teec_err_not_ok | apply map_teec_err_not_ok]. Qed.

(** The handles of the stored objects, as many as fit. *)
Lemma token_enumerates a (w : W) max : represents (view (secure w)) a -> 0 < max < 2 ^ 32 ->
  exists rc hs w', SK_EnumerateObjects None 0 max w = Ret (rc, hs, w') /\ represents (view (secure w')) a /\
    ((rc = SKR_OK /\ exists ids, ids ≡ₚ matches a [] /\ hs = take (Z.to_nat max) ids) \/ (rc <> SKR_OK /\ denied rc)).
Proof.
  intros HR Hmax. pose proof (zeros_len max ltac:(lia)) as Hz.
  destruct (refines_all (CFind [] (zeros max)) a _ HR) with (w := w) as (r & w1 & E & a1 & Hst & HR1); [by split; [left | lia] | done |].
  cbn [perform template] in E. rewrite Hz in E. change (Z.of_nat (length [])) with 0 in E.
  apply st_bind_inv in E as ([rc [arr n]] & w2 & E & [= <- <-]).
  unfold SK_EnumerateObjects, stack_functions. eexists _, _, w2. rewrite E. split; [reflexivity |].
  inversion Hst; subst; (split; [done |]).
  - left. split; [done |]. exists ids. split; [done |]. cbn [default from_option id]. rewrite Nat2Z.id. subst hs. rewrite take_app_length.
    f_equal. lia.
  - right. split; [by apply denied_not_ok | done].
Qed.

(** The attributes of a stored object. *)
Lemma token_reads a (w : W) h attrs : represents (view (secure w)) a ->
  legal (K := K) (CGet h attrs) ->
  exists rc l w', SK_GetObjectAttribute h attrs w = Ret (rc, l, w') /\ represents (view (secure w')) a /\
    ((rc = SKR_OK /\ exists x, a_objs a !! h = Some x /\ read_attrs (ao_attrs x) attrs = inl l) \/
     (rc <> SKR_OK /\ l = attrs /\
      (denied rc \/ a_objs a !! h = None \/ exists x e, a_objs a !! h = Some x /\ read_attrs (ao_attrs x) attrs = inr e))).
Proof.
  intros HR Hleg. destruct (refines_all _ a _ HR Hleg w eq_refl) as (r & w1 & E & a1 & Hst & HR1).
  cbn [perform] in E. apply st_bind_inv in E as ([rc l] & w2 & E & [= <- <-]).
  unfold SK_GetObjectAttribute, stack_functions. eexists _, _, w2. rewrite E. split; [reflexivity |].
  inversion Hst as [| | | | | | | |? ? x l' Hx Hl|? ? rc' Hc| | | | | |]; subst; (split; [done |]); [left; by eauto | right].
  assert (rc <> SKR_OK).
  { destruct Hc as [? | [[_ ->] | (? & ? & _ & _ & ->)]]; [by apply denied_not_ok | apply map_teec_err_not_ok..]. }
  split_and!; [done | done |]. destruct Hc as [? | [[? _] | (? & ? & ? & ? & _)]]; eauto 10.
Qed.

(** ** The library shows the store *)

(** The attributes copied from the store, with their types there. *)
Definition shown : list (Z * Z) :=
  [(CKA_LABEL, SK_ATTR_OBJECT_LABEL); (CKA_ID, SK_ATTR_OBJECT_INDEX); (CKA_MODULUS, SK_ATTR_MODULUS);
   (CKA_PUBLIC_EXPONENT, SK_ATTR_PUBLIC_EXPONENT)].

(** The attribute [c] of an object has the length and the bytes of the stored one. *)
Definition shows (x : aobj K) (t : list CK_ATTRIBUTE) (c s : Z) : Prop :=
  exists m attr, find_wire s (ao_attrs x) = Some m /\ p11_template_check_attr t c = Some attr /\
    ulValueLen attr = w_len m /\ pValue attr = w_payload m.

Definition backed (a : astate K) (o : OBJECT) : Prop :=
  exists x, a_objs a !! sk_obj_handle o = Some x /\
    Forall (fun p => shows x (template_list o) p.1 p.2) shown.

(** The token keeps the store, and every object of the library is one of it. *)
Definition mirrors (a : astate K) (s : lib W) : Prop :=
  represents (view (secure (token s))) a /\ Forall (fun p => backed a p.2) (objs s).

(** Started with a token that keeps the store [a], the call returns with one that
    does, and its result and the change of the object list satisfy [Q]. *)
Definition upholds {A} (a : astate K) (m : st (lib W) A) (Q : A -> Prop) : Prop :=
  forall s r s', mirrors a s -> m s = Ret (r, s') -> mirrors a s' /\ Q r.

Lemma upholds_ret {A} a (x : A) (Q : A -> Prop) : Q x -> upholds a (mret x) Q.
Proof. intros HQ s r s' Hm [= <- <-]. done. Qed.
Lemma upholds_bind {A B} a (m : st (lib W) A) (f : A -> st (lib W) B) P Q :
  upholds a m P -> (forall x, P x -> upholds a (f x) Q) -> upholds a (m ≫= f) Q.
Proof.
  intros Hm Hf s r s' Hs (x & s1 & E1 & E2)%st_bind_inv. destruct (Hm _ _ _ Hs E1) as [H1 HP]. by eapply Hf.
Qed.
Lemma upholds_lift {A} a (m : outcome A) : upholds a (lift m) (fun x => m = Ret x).
Proof. intros s r s' Hs [? ->]%lift_inv. by split. Qed.
Lemma upholds_mono {A} a (m : st (lib W) A) (P Q : A -> Prop) : upholds a m P -> (forall x, P x -> Q x) -> upholds a m Q.
Proof. intros Hm HPQ s r s' Hs E. destruct (Hm _ _ _ Hs E). auto. Qed.

(** Most of the library leaves the token alone and its objects as they are, or
    drops them all. *)
Definition calm (s s' : lib W) : Prop := token s' = token s /\ (objs s' = objs s \/ objs s' = []).
#[local] Instance calm_preorder : PreOrder calm.
Proof.
  split; [intros s; split; [done | by left] |]. intros s1 s2 s3 [T1 O1] [T2 O2]. split; [congruence |].
  destruct O2 as [-> | ->]; [done | by right].
Qed.

Lemma upholds_calm {A} a (m : st (lib W) A) : steps calm m -> upholds a m (fun _ => True).
Proof.
  intros Hm s r s' [HR Ho] E. split; [| done]. destruct (Hm _ _ _ E) as [Ht Hob]. split; [by rewrite Ht |].
  destruct Hob as [-> | ->]; [done | constructor].
Qed.

Ltac calm_done := split; [done | first [by left | by right]].

Lemma calm_modify f : (forall s : lib W, calm s (f s)) -> steps calm (modify f).
Proof. intros Hf s u s' [= <- <-]. apply Hf. Qed.
Lemma calm_sess l : steps calm (modify (set_sess l)).
Proof. apply calm_modify. intros s. calm_done. Qed.
Lemma calm_no_objs : steps calm (modify (set_objs [])).
Proof. apply calm_modify. intros s. calm_done. Qed.
Lemma calm_blocks b : steps calm (modify (set_blocks b)).
Proof. apply calm_modify. intros s. calm_done. Qed.
Lemma calm_initialized b : steps calm (modify (set_initialized b)).
Proof. apply calm_modify. intros s. calm_done. Qed.
Lemma calm_free x : steps calm (free_node x).
Proof. apply calm_modify. intros s. calm_done. Qed.
Lemma calm_malloc : steps calm malloc_node.
Proof. intros s r s'. unfold malloc_node. destruct (malloc _). intros [= <- <-]. calm_done. Qed.
Lemma calm_malloc_tmp : steps calm malloc_tmp.
Proof. intros s r s'. unfold malloc_tmp. destruct (mallocs _ _). intros [= <- <-]. calm_done. Qed.
Lemma calm_on_heap {A} (f : heap -> outcome (Z * A * heap)) : steps calm (on_heap f).
Proof. intros s r s'. unfold on_heap. destruct (f _) as [[[? ?] ?]|]; [| done]. intros [= <- <-]. calm_done. Qed.
Lemma calm_on_lock f : steps calm (on_lock f).
Proof. intros s r s'. unfold on_lock. destruct (f _); [| done]. intros [= <- <-]. calm_done. Qed.
Lemma calm_session_at h : steps calm (session_at h).
Proof. intros s r s'. unfold session_at. destruct (assoc _ _); [| done]. by intros [= <- <-]. Qed.
Lemma calm_object_at h : steps calm (object_at h).
Proof. intros s r s'. unfold object_at. destruct (assoc _ _); [| done]. by intros [= <- <-]. Qed.
Lemma calm_read fl i n : steps calm (read_handles fl i n).
Proof. intros s r s' ->%read_handles_pure. done. Qed.
Lemma calm_release fl : steps calm (release_block fl).
Proof.
  intros s r s'. unfold release_block. destruct fl; [| by intros [= <- <-]]. destruct (_ !! _); [| done].
  intros [= <- <-]. calm_done.
Qed.
Lemma calm_find_into x pT n : steps calm (find_into x pT n).
Proof.
  intros s c s'. unfold find_into. destruct (_ !! _); destruct (find_matching_objects _ _ _ _) as [[? ?]|];
    try done; intros [= <- <-]; calm_done.
Qed.
Lemma calm_open : steps calm open_shared_lib.
Proof. intros s r s'. unfold open_shared_lib. destruct dlopen_ok; intros [= <- <-]; calm_done. Qed.
Lemma calm_close b : steps calm (close_shared_lib b).
Proof.
  intros s r s'. unfold close_shared_lib. destruct b; [| by intros [= <- <-]]. destruct (lib_open _); [| done].
  intros [= <- <-]. calm_done.
Qed.
Lemma calm_function_list sl : steps calm (get_function_list sl).
Proof.
  intros s r s'. unfold get_function_list. repeat case_match; intros [= <- <-]; calm_done.
Qed.
Lemma calm_set_lib f g h : steps calm (modify (fun s => set_lib (f s) (g s) (h s) s)).
Proof. apply calm_modify. intros s. calm_done. Qed.
Lemma calm_init_lock args : steps calm (p11_init_lock args).
Proof.
  intros s r s'. unfold p11_init_lock, create_global_lock. repeat case_match; intros [= <- <-]; try done; calm_done.
Qed.

Hint Resolve calm_sess calm_no_objs calm_blocks calm_initialized calm_free calm_malloc calm_malloc_tmp calm_on_heap
  calm_on_lock calm_session_at calm_object_at calm_read calm_release calm_find_into calm_open calm_close
  calm_function_list calm_set_lib calm_init_lock : steps.

Lemma calm_free_nodes l : steps calm (free_nodes l).
Proof. induction l as [|x l IH]; cbn [free_nodes]; steps_auto. Qed.
Hint Resolve calm_free_nodes : steps.

Lemma calm_session_valid h : steps calm (is_session_valid h).
Proof. unfold is_session_valid. steps_auto. Qed.
Hint Resolve calm_session_valid : steps.
Lemma calm_get_session h : steps calm (get_session h).
Proof. unfold get_session. steps_auto. Qed.
Hint Resolve calm_get_session : steps.
Lemma calm_get_attr h o p n : steps calm (get_attr_value h o p n).
Proof. unfold get_attr_value, is_object_handle_valid. steps_auto. Qed.
Hint Resolve calm_get_attr : steps.

(** The calls that do not ask the token. *)
Definition asks_token (c : P11Invariant.call) : bool :=
  match c with FindObjectsInit _ _ _ | Sign _ _ _ _ _ => true | _ => false end.

Lemma calm_run c : asks_token c = false -> steps calm (run c).
Proof.
  destruct c; intros Hc; try discriminate Hc; cbn [run];
    unfold C_Initialize, C_Finalize, C_GetSlotList, C_OpenSession, C_CloseSession, C_CloseAllSessions, C_GetSessionInfo,
      C_GetAttributeValue, C_FindObjects, C_FindObjectsFinal, C_SignInit, initialize_slot, destroy_slot, locked, when_initialized, with_session,
      create_session, delete_session, destroy_session_list, destroy_object_list, initialize_object_list, initialize_session_list,
      get_session_info, set_session, is_object_handle_valid, sign_init, set_ctx, pkcs_lib_init, pkcs_lib_finish, is_lib_initialized.
  all: steps_auto. all: apply calm_modify; intros s; calm_done.
Qed.

(** ** Loading the token's objects *)

Lemma upholds_sk {A} a (f : W -> outcome (Z * A * W)) (Q : Z * A -> Prop) :
  (forall w, represents (view (secure w)) a -> exists rc x w', f w = Ret (rc, x, w') /\ represents (view (secure w')) a /\ Q (rc, x)) ->
  upholds a (call_sk f) Q.
Proof.
  intros Hf s r s' [HR Ho] E. unfold call_sk in E. destruct (lib_open _); [| done].
  destruct (Hf _ HR) as (rc & x & w' & E' & HR' & HQ). rewrite E' in E. injection E as <- <-. done.
Qed.

(** The types the library asks for, and what it makes of an answer. *)
Lemma map_copied c s sk h rc ck h' : (c, s) ∈ shown -> sa_type sk = s ->
  map_sk_to_pkcs_attr sk h = Ret (rc, Some ck, h') ->
  exists v, mem_read (sa_value sk) (sa_valueLen sk) = Ret v /\ ck = mkCK c (Some v) (sa_valueLen sk).
Proof.
  intros Hs Hty. unfold shown in Hs. rewrite !elem_of_cons, elem_of_nil in Hs.
  assert (Hc : map_sk_to_pkcs_attr sk h = map_copy c sk h).
  { unfold map_sk_to_pkcs_attr. rewrite Hty. by destruct Hs as [[= -> ->] | [[= -> ->] | [[= -> ->] | [[= -> ->] | []]]]]. }
  rewrite Hc. unfold map_copy. destruct (mallocs 1 h) as [[] h1]; cbn [negb]; [| discriminate].
  destruct (mem_read _ _) as [v|]; [| discriminate]. intros [= <- <- <-]. by exists v.
Qed.

Lemma map_bits sk h rc ck h' : sa_type sk = SK_ATTR_MODULUS_BITS -> map_sk_to_pkcs_attr sk h = Ret (rc, Some ck, h') ->
  ck_type ck = CKA_MODULUS_BITS.
Proof.
  intros Hty. unfold map_sk_to_pkcs_attr. rewrite Hty. cbn [Z.eqb SK_ATTR_MODULUS_BITS SK_ATTR_OBJECT_TYPE SK_ATTR_KEY_TYPE
    SK_ATTR_OBJECT_LABEL SK_ATTR_OBJECT_INDEX Pos.eqb]. destruct (mallocs 1 h) as [[] h1]; cbn [negb]; [| discriminate].
  destruct (mem_read _ _) as [v|]; [| discriminate]. by intros [= <- <- <-].
Qed.

Lemma added_attr obj ck h rc obj' h' : p11_is_attribute_defined (ck_type ck) = true ->
  p11_template_add_attr obj [ck] h = Ret (rc, obj', h') -> rc = CKR_OK ->
  exists v, mem_read (pValue ck) (ulValueLen ck) = Ret v /\
    obj' = set_template obj (p11_template_update_attr (template_list obj)
             (mkCK (ck_type ck) (if ulValueLen ck =? 0 then None else Some v) (ulValueLen ck))).
Proof.
  intros Hd E Hrc. cbn [p11_template_add_attr] in E. rewrite Hd in E. cbn [negb] in E.
  destruct (mallocs 1 h) as [[] h1]; cbn [negb] in E; [| by injection E as <- <- <-].
  destruct (mem_read _ _) as [v|]; [| discriminate]. cbn [mbind outcome_bind] in E.
  destruct (mallocs 1 h1) as [[] h2]; cbn [negb] in E; [| by injection E as <- <- <-]. injection E as <- <- <-. by exists v.
Qed.

(** An object of the store, as any state that represents it has it. *)
Definition known (a : astate K) (h : Z) (x : aobj K) : Prop :=
  0 <= h < 2 ^ 32 /\ a_objs a !! h = Some x /\ Forall wire_ok (ao_attrs x) /\ Forall wire_full (ao_attrs x).

Lemma rep_known v a h x : represents v a -> a_objs a !! h = Some x -> known a h x.
Proof.
  intros HR Hx. destruct (rep_objs _ _ HR _ _ Hx) as (Hh & o & _ & (_ & _ & _ & He & Hf)).
  split_and!; [lia | lia | done | by apply encodes_ok in He as [? _] | done].
Qed.

Lemma known_wire a h x s m : known a h x -> find_wire s (ao_attrs x) = Some m ->
  w_type m = s /\ 0 <= w_len m < 2 ^ 15 /\
  match w_payload m with None => w_len m = 0 | Some v => 0 < w_len m /\ Z.of_nat (length v) = w_len m end.
Proof.
  intros (_ & _ & Hok & Hf) Hm. apply find_wire_in in Hm as [Hin <-]. rewrite Forall_forall in Hok, Hf.
  destruct (Hok m Hin) as (_ & Hl & Hp). specialize (Hf m Hin). unfold wire_full in Hf. destruct (w_payload m); lia.
Qed.

(** A read with a buffer of the stored length gives the value. *)
Lemma read_exact a h x s m l : known a h x -> find_wire s (ao_attrs x) = Some m ->
  read_attrs (ao_attrs x) [mkSK s (Some (indet (w_len m))) (w_len m)] = inl l ->
  exists y, l = [y] /\ sa_type y = s /\ sa_valueLen y = w_len m /\ mem_read (sa_value y) (w_len m) = Ret (default [] (w_payload m)).
Proof.
  intros Hk Hm. destruct (known_wire a h x s m Hk Hm) as (Ht & Hl & Hp). cbn [read_attrs]. unfold read_attr. cbn [sa_type sa_valueLen].
  rewrite Hm. destruct (w_len m =? 0) eqn:E0; boolz; [| rewrite Z.ltb_irrefl]; intros [= <-]; eexists; (split; [reflexivity |]).
  - split_and!; [done | done |]. unfold mem_read. rewrite E0. destruct (w_payload m); [lia | done].
  - split_and!; [done | done |]. unfold fill, mem_read. cbn [sa_value]. rewrite (proj2 (Z.eqb_neq _ _)) by done.
    destruct (w_payload m) as [v|]; [| done]. cbn [fmap option_fmap option_map deref mbind outcome_bind default from_option id].
    destruct Hp as [_ Hv]. rewrite buf_read_ret by (rewrite ?length_app; lia). rewrite drop_0, <- Hv, Nat2Z.id, take_app_length. done.
Qed.

Lemma reads_legal h s n v : 0 <= h < 2 ^ 32 -> s ∈ SK_ATTR_OBJECT_TYPE :: SK_ATTR_KEY_TYPE :: rsa_pub_attr_type -> 0 <= n < 2 ^ 15 ->
  n <= Z.of_nat (length v) -> legal (K := K) (CGet h [mkSK s (Some v) n]).
Proof.
  intros Hh Hs Hn Hv. assert (0 <= s < 2 ^ 32 /\ packable s = true) as [Hs1 Hs2].
  { apply list_elem_of_In in Hs. cbn in Hs. destruct Hs as [<- | [<- | [<- | [<- | [<- | [<- | [<- | []]]]]]]]; split; try done; decide_c. }
  split_and!; [lia | lia | | by repeat constructor]. split_and!; [| done |].
  - constructor; [| constructor]. split_and!; cbn; lia.
  - unfold_ent. cbn [length values_size sa_valueLen]. pose proof (ROUNDUP_4_bounds n). destruct (n =? 0); lia.
Qed.

(** The object after one attribute more, if that is shown. *)
Lemma shows_update x t c s m ck : find_wire s (ao_attrs x) = Some m -> ck_type ck = c ->
  ulValueLen ck = w_len m -> pValue ck = w_payload m -> shows x (p11_template_update_attr t ck) c s.
Proof. intros Hm Hc Hl Hv. exists m, ck. split_and!; [done | | done | done]. by rewrite check_update, Hc, Z.eqb_refl. Qed.
Lemma shows_other x t c s ck : ck_type ck <> c -> shows x t c s -> shows x (p11_template_update_attr t ck) c s.
Proof.
  intros Hc (m & attr & Hm & Ha & Hl & Hv). exists m, attr. split_and!; [done | | done | done].
  rewrite check_update, (proj2 (Z.eqb_neq _ _)); [done | congruence].
Qed.

(** One answer, translated and added to the object. *)
Definition adds_shown (x : aobj K) (obj : OBJECT) (s : Z) (r : Z * OBJECT) : Prop :=
  r.1 = CKR_OK -> sk_obj_handle r.2 = sk_obj_handle obj /\
    forall c s', (c, s') ∈ shown -> s' = s \/ shows x (template_list obj) c s' -> shows x (template_list r.2) c s'.

Lemma shown_inj c c' s s' : (c, s) ∈ shown -> (c', s') ∈ shown -> (c = c' <-> s = s').
Proof.
  unfold shown. rewrite !elem_of_cons, !elem_of_nil.
  intros [[= -> ->] | [[= -> ->] | [[= -> ->] | [[= -> ->] | []]]]] [[= -> ->] | [[= -> ->] | [[= -> ->] | [[= -> ->] | []]]]]; done.
Qed.

Lemma add_answer_shows a h x obj s m y hp rc ck hp' rc' obj' hp2 : known a h x ->
  s ∈ rsa_pub_attr_type -> find_wire s (ao_attrs x) = Some m -> sa_type y = s -> sa_valueLen y = w_len m ->
  mem_read (sa_value y) (w_len m) = Ret (default [] (w_payload m)) ->
  map_sk_to_pkcs_attr y hp = Ret (rc, Some ck, hp') -> p11_template_add_attr obj [ck] hp' = Ret (rc', obj', hp2) ->
  adds_shown x obj s (rc', obj').
Proof.
  intros Hk Hs Hm Hty Hlen Hrd Hmap Hadd Hrc. cbn [fst snd] in *.
  assert (Hcase : (exists c, (c, s) ∈ shown) \/ s = SK_ATTR_MODULUS_BITS).
  { apply list_elem_of_In in Hs. cbn in Hs. unfold shown.
    destruct Hs as [<- | [<- | [<- | [<- | [<- | []]]]]]; [left; eexists; rewrite !elem_of_cons; eauto 10.. | by right]. }
  destruct Hcase as [[c Hc] | ->].
  - destruct (map_copied c s y hp rc ck hp' Hc Hty Hmap) as (v & Ev & ->). rewrite Hlen, Hrd in Ev. injection Ev as <-.
    apply added_attr in Hadd as (v & Ev & ->); [| | done].
    2: { unfold shown in Hc. rewrite !elem_of_cons, elem_of_nil in Hc. by destruct Hc as [[= -> _] | [[= -> _] | [[= -> _] | [[= -> _] | []]]]]. }
    cbn [ck_type ulValueLen pValue] in *. rewrite Hlen in *. split; [done |]. intros c' s' Hc' Hor. cbn [template_list set_template].
    destruct (decide (s' = s)) as [-> | Hne].
    + assert (c' = c) as -> by (by apply (shown_inj c' c s s Hc' Hc)). apply (shows_update _ _ _ _ m); [done.. |].
      cbn [pValue]. destruct (known_wire a h x s m Hk Hm) as (_ & _ & Hp). destruct (w_payload m) as [w|]; [| by rewrite Hp].
      destruct Hp as [Hp0 Hp]. cbn [default from_option id] in Ev. rewrite (proj2 (Z.eqb_neq _ _)) by lia. f_equal.
      unfold mem_read in Ev. rewrite (proj2 (Z.eqb_neq _ _)) in Ev by lia. cbn [deref mbind outcome_bind] in Ev.
      rewrite buf_read_ret in Ev by lia. injection Ev as <-. rewrite drop_0, <- Hp, Nat2Z.id. by rewrite firstn_all.
    + destruct Hor as [? | Hsh]; [done |]. apply shows_other; [| done]. cbn. intros ->. apply Hne. by apply (shown_inj c' c' s' s Hc' Hc).
  - apply map_bits in Hmap; [| done]. apply added_attr in Hadd as (v & _ & ->); [| by rewrite Hmap | done].
    split; [done |]. intros c' s' Hc' Hor. cbn [template_list set_template]. unfold shown in Hc'. rewrite !elem_of_cons, elem_of_nil in Hc'.
    apply shows_other; [| destruct Hor as [-> | ?]; [| done]; by destruct Hc' as [[= ] | [[= ] | [[= ] | [[= ] | []]]]]].
    cbn. rewrite Hmap. by destruct Hc' as [[= -> _] | [[= -> _] | [[= -> _] | [[= -> _] | []]]]].
Qed.

Lemma object_add_loop_shows a x l : forall obj, known a (sk_obj_handle obj) x ->
  Forall (fun y => sa_type y ∈ rsa_pub_attr_type /\ exists m, find_wire (sa_type y) (ao_attrs x) = Some m /\ sa_valueLen y = w_len m) l ->
  upholds a (object_add_loop obj l) (fun r => r.1 = CKR_OK -> sk_obj_handle r.2 = sk_obj_handle obj /\
    forall c s, (c, s) ∈ shown -> s ∈ (sa_type <$> l) \/ shows x (template_list obj) c s -> shows x (template_list r.2) c s).
Proof.
  induction l as [|y l IH]; intros obj Hk Hl; cbn [object_add_loop].
  { apply upholds_ret. intros _. split; [done |]. intros c s _ [[]%elem_of_nil | ?]. done. }
  apply Forall_cons in Hl as [(Hs & m & Hm & Hlen) Hl]. destruct (known_wire _ _ _ _ _ Hk Hm) as (_ & Hml & _).
  assert ((i16 (sa_valueLen y) =? -1) = false) as ->.
  { rewrite Hlen. unfold i16. rewrite u16_small by lia. rewrite (proj2 (Z.ltb_lt _ _)) by lia. apply Z.eqb_neq. lia. }
  eapply upholds_bind; [apply upholds_calm, calm_malloc_tmp | intros ok _]. destruct (negb ok); [by apply upholds_ret |].
  eapply upholds_bind.
  { apply (upholds_sk _ _ (fun r => r.1 = SKR_OK -> exists y', r.2 = [y'] /\ sa_type y' = sa_type y /\ sa_valueLen y' = w_len m /\
      mem_read (sa_value y') (w_len m) = Ret (default [] (w_payload m)))). intros w HR. rewrite Hlen.
    destruct (token_reads a w (sk_obj_handle obj) [mkSK (sa_type y) (Some (indet (w_len m))) (w_len m)] HR) as (rc & l' & w' & E & HR' & Hres).
    { destruct Hk as (? & _). apply reads_legal; [done | by do 2 (apply elem_of_cons; right) | done |]. rewrite indet_length; lia. }
    exists rc, l', w'. split_and!; [done | done |]. cbn [fst snd]. intros Hrc.
    destruct Hres as [(_ & x' & Hx' & Hrd) | (? & _)]; [| done]. pose proof Hk as (_ & Hx & _). rewrite Hx in Hx'. injection Hx' as <-.
    by eapply read_exact. }
  intros [ret l'] Hret. cbn [fst snd] in Hret. destruct (ret =? SKR_OK) eqn:Er; cbn [negb]; [| by apply upholds_ret].
  boolz. destruct (Hret Er) as (y' & -> & Ht & Hl' & Hrd).
  eapply upholds_bind; [apply upholds_lift | intros sk [= <-]].
  (* the translation and the insertion *)
  intros s0 r s' Hmir E. apply st_bind_inv in E as ([rc ck] & s1 & E1 & E).
  destruct (upholds_calm a _ (calm_on_heap _) _ _ _ Hmir E1) as [Hmir1 _]. unfold on_heap in E1.
  destruct (map_sk_to_pkcs_attr y' (hp s0)) as [[[rc0 ck0] h0]|] eqn:Emap; [| done]. injection E1 as -> -> <-.
  destruct (negb _); [by injection E as <- <- |].
  apply st_bind_inv in E as (ck1 & s2 & [Eck ->]%lift_inv & E). destruct ck as [ck|]; [| discriminate]. injection Eck as <-.
  apply st_bind_inv in E as ([rc1 obj1] & s3 & E3 & E).
  destruct (upholds_calm a _ (calm_on_heap _) _ _ _ Hmir1 E3) as [Hmir3 _]. unfold on_heap in E3.
  destruct (p11_template_add_attr obj [ck] _) as [[[rc2 obj2] h2]|] eqn:Eadd; [| done]. injection E3 as -> -> <-.
  destruct (rc1 =? CKR_OK) eqn:Erc; cbn [negb] in E; [| injection E as <- <-; split; [done |]; cbn; intros Hc; by boolz]. boolz.
  destruct (add_answer_shows a _ x obj (sa_type y) m y' _ _ _ _ _ _ _ Hk Hs Hm Ht Hl' Hrd Emap Eadd Erc) as [Hh Hsh]. cbn [snd] in *.
  destruct (IH obj1) with (s := set_hp h2 (set_hp h0 s0)) (r := r) (s' := s') as [Hmir' Hr]; [by rewrite Hh | done | done | done |].
  split; [done |]. intros Hok. destruct (Hr Hok) as [Hh' Hall]. split; [congruence |].
  intros c s Hc Hor. apply Hall; [done |]. destruct Hor as [Hin | Hin]; [| right; by apply Hsh; [| right]].
  rewrite fmap_cons in Hin. apply elem_of_cons in Hin as [-> | Hin]; [right; by apply Hsh; [| left] | by left].
Qed.

(** A length query gives the lengths. *)
Lemma read_lengths ws tys l : read_attrs ws ((fun ty => mkSK ty None 0) <$> tys) = inl l ->
  sa_type <$> l = tys /\ Forall (fun y => exists m, find_wire (sa_type y) ws = Some m /\ sa_valueLen y = w_len m) l.
Proof.
  revert l. induction tys as [|ty tys IH]; intros l; [by intros [= <-] |]. rewrite fmap_cons. cbn [read_attrs].
  destruct (read_attrs ws _) as [r|]; [| done]. unfold read_attr. cbn [sa_type sa_valueLen].
  destruct (find_wire ty ws) as [m|] eqn:Em; [| done]. cbn. intros [= <-]. destruct (IH r eq_refl) as [Ht Hf].
  rewrite fmap_cons. cbn. split; [by f_equal |]. constructor; [by exists m | done].
Qed.

Lemma object_add_template_shows a obj tys x : known a (sk_obj_handle obj) x ->
  tys = rsa_pub_attr_type \/ tys = rsa_priv_attr_type ->
  upholds a (object_add_template obj tys) (fun r => r.1 = CKR_OK -> sk_obj_handle r.2 = sk_obj_handle obj /\
    Forall (fun p => shows x (template_list r.2) p.1 p.2) shown).
Proof.
  intros Hk Htys. unfold object_add_template.
  eapply upholds_bind; [apply upholds_calm; unfold get_slot_function_list; steps_auto | intros fl _].
  destruct (negb fl); [by apply upholds_ret |]. cbv zeta.
  eapply upholds_bind.
  { apply (upholds_sk _ _ (fun r => r.1 = SKR_OK -> read_attrs (ao_attrs x) ((fun ty => mkSK ty None 0) <$> tys) = inl r.2)).
    intros w HR. destruct (token_reads a w (sk_obj_handle obj) ((fun ty => mkSK ty None 0) <$> tys) HR) as (rc & l & w' & E & HR' & Hres).
    { destruct Hk as (? & _). cbn -[attrs_ok]. split_and!; [lia | lia | |]; destruct Htys as [-> | ->]; try decide_c; by repeat constructor. }
    exists rc, l, w'. split_and!; [done | done |]. cbn [fst snd]. intros Hrc.
    destruct Hres as [(_ & x' & Hx' & Hrd) | (? & _)]; [| done]. destruct Hk as (_ & Hx & _). congruence. }
  intros [ret l] Hret. cbn [fst snd] in Hret. destruct (ret =? SKR_OK) eqn:Er; cbn [negb]; [| by apply upholds_ret]. boolz.
  apply read_lengths in Hret as [Ht Hf]; [| done].
  eapply upholds_mono; [apply (object_add_loop_shows a x) |]; [done | |].
  - apply Forall_forall. intros y Hy. rewrite Forall_forall in Hf. split; [| by apply Hf].
    assert (sa_type y ∈ tys) as Hin by (rewrite <- Ht; by apply list_elem_of_fmap_2).
    destruct Htys as [-> | ->]; [done |]. unfold rsa_priv_attr_type, rsa_pub_attr_type in *. rewrite !elem_of_cons in *. tauto.
  - intros r Hr Hok. destruct (Hr Hok) as [Hh Hall]. split; [done |]. apply Forall_forall. intros [c s] Hin. apply Hall; [done |].
    left. rewrite Ht. clear - Hin Htys. unfold shown in Hin. rewrite !elem_of_cons, elem_of_nil in Hin.
    destruct Htys as [-> | ->]; destruct Hin as [[= -> ->] | [[= -> ->] | [[= -> ->] | [[= -> ->] | []]]]]; decide_c.
Qed.

Lemma defaults_show x obj class h obj' h' : class = CKO_PUBLIC_KEY \/ class = CKO_PRIVATE_KEY ->
  Forall (fun p => shows x (template_list obj) p.1 p.2) shown ->
  p11_template_add_default_attr (set_class obj class CKK_RSA) h = (CKR_OK, obj', h') ->
  sk_obj_handle obj' = sk_obj_handle obj /\ Forall (fun p => shows x (template_list obj') p.1 p.2) shown.
Proof.
  intros Hcl Hsh E. apply add_default_attr_cases in E as [Ho Hcases].
  assert (Hcase : exists L, (L = common_defaults ++ privk_defaults \/ L = common_defaults ++ pubk_defaults) /\
            template_list obj' = update_all (template_list obj) L).
  { destruct Hcases as [(_ & _ & [[_ Ha]|[? _]])|[(_ & _ & [[_ Ha]|[? _]])|[[?|[? _]] _]]]; try done; eauto. }
  destruct Hcase as (L & HLd & Ht). split; [by rewrite Ho |]. rewrite Ht.
  rewrite Forall_forall in Hsh |- *. intros [c s] Hin. destruct (Hsh _ Hin) as (m & attr & Hm & Ha & Hl & Hv). cbn [fst snd] in *.
  exists m, attr. split_and!; [done | | done | done]. rewrite check_update_all.
  assert (p11_template_check_attr (reverse L) c = None) as ->; [| done].
  clear - HLd Hin. unfold shown in Hin. rewrite !elem_of_cons, elem_of_nil in Hin.
  destruct HLd as [-> | ->]; destruct Hin as [[= -> ->] | [[= -> ->] | [[= -> ->] | [[= -> ->] | []]]]]; reflexivity.
Qed.

(** A created node, inserted with its class and defaults. *)
Lemma insert_key_upholds a class h rc node : class = CKO_PUBLIC_KEY \/ class = CKO_PRIVATE_KEY ->
  (rc = CKR_OK -> exists p o x, node = Some (p, o) /\ a_objs a !! h = Some x /\ sk_obj_handle o = h /\
     Forall (fun q => shows x (template_list o) q.1 q.2) shown) ->
  upholds a (insert_key_object class (rc, node)) (fun _ => True).
Proof.
  intros Hcl Hn s r s' Hmir E. unfold insert_key_object in E. destruct (rc =? CKR_OK) eqn:Erc; cbn [negb] in E; [| by injection E as <- <-].
  boolz. destruct (Hn Erc) as (p & o & x & -> & Hx & Hh & Hsh).
  apply st_bind_inv in E as ([p' o'] & s0 & [E0 ->]%lift_inv & E). injection E0 as <- <-.
  apply st_bind_inv in E as ([rc1 o1] & s1 & E1 & E).
  destruct (upholds_calm a _ (calm_on_heap _) _ _ _ Hmir E1) as [[HR1 Ho1] _]. unfold on_heap in E1.
  destruct (p11_template_add_default_attr _ _) as [[rc2 o2] h2] eqn:Ed. injection E1 as -> -> <-.
  destruct (rc1 =? CKR_OK) eqn:Er1; cbn [negb] in E; [| by injection E as <- <-]. boolz. subst rc1.
  destruct (defaults_show x o class _ _ _ Hcl Hsh Ed) as [Hh' Hsh']. inv_st. split; [| done]. split; [done |].
  cbn. constructor; [| done]. exists x. cbn. by rewrite Hh'.
Qed.

Lemma create_key_upholds a tys h x slotID : known a h x -> tys = rsa_pub_attr_type \/ tys = rsa_priv_attr_type ->
  upholds a
    (p ← malloc_node;
     match p with
     | None => mret (CKR_HOST_MEMORY, None)
     | Some key =>
         '(rc, obj) ← object_add_template (mkObj h 0 0 [] slotID) tys;
         if negb (rc =? CKR_OK) then free_node key;; mret (rc, None)
         else mret (CKR_OK, Some (key, obj))
     end)
    (fun r => r.1 = CKR_OK -> exists p o x, r.2 = Some (p, o) /\ a_objs a !! h = Some x /\ sk_obj_handle o = h /\
       Forall (fun q => shows x (template_list o) q.1 q.2) shown).
Proof.
  intros Hk Htys. eapply upholds_bind; [apply upholds_calm, calm_malloc | intros [p|] _]; [| by apply upholds_ret].
  eapply upholds_bind; [by apply (object_add_template_shows a (mkObj h 0 0 [] slotID) tys x) |].
  intros [rc o] Hr. cbn [fst snd sk_obj_handle] in Hr. destruct (rc =? CKR_OK) eqn:Er; cbn [negb]; boolz.
  - apply upholds_ret. intros _. destruct (Hr Er) as [Hh Hsh]. exists p, o, x. split_and!; [done | by destruct Hk as (_ & ? & _) | done | done].
  - eapply upholds_bind; [apply upholds_calm, calm_free | intros _ _]. by apply upholds_ret.
Qed.

Lemma add_token_upholds a h x ot kt slotID : known a h x -> upholds a (add_token_object h ot kt slotID) (fun _ => True).
Proof.
  intros Hk. unfold add_token_object, create_rsa_pub_key_object, create_rsa_priv_key_object.
  assert (Hpub : forall m : Z -> st (lib W) Z, (forall rc, upholds a (m rc) (fun _ => True)) -> upholds a (created ← create_rsa_pub_key_object h slotID;
    rc ← insert_key_object CKO_PUBLIC_KEY created; m rc) (fun _ => True)).
  { intros m Hm. eapply upholds_bind; [by eapply create_key_upholds; [exact Hk | left] |]. intros [rc node] Hn.
    eapply upholds_bind; [by eapply insert_key_upholds; [left | exact Hn] | intros rc' _]. apply Hm. }
  destruct (ot =? SK_KEY_PAIR); [| destruct (ot =? SK_PUBLIC_KEY); [| by apply upholds_ret]];
    (destruct (kt =? SKK_RSA); [| by apply upholds_ret]).
  - apply Hpub. intros rc. destruct (negb _); [by apply upholds_ret |].
    eapply upholds_bind; [by eapply create_key_upholds; [exact Hk | right] |]. intros [rc' node] Hn. by eapply insert_key_upholds; [right | exact Hn].
  - eapply upholds_bind; [by eapply create_key_upholds; [exact Hk | left] |]. intros [rc' node] Hn. by eapply insert_key_upholds; [left | exact Hn].
Qed.

Lemma types_legal h ot kt : 0 <= h < 2 ^ 32 -> Z.of_nat (length ot) = 4 -> Z.of_nat (length kt) = 4 ->
  legal (K := K) (CGet h [mkSK SK_ATTR_OBJECT_TYPE (Some ot) 4; mkSK SK_ATTR_KEY_TYPE (Some kt) 4]).
Proof.
  intros Hh Hot Hkt. split_and!; [lia | lia | | by repeat constructor]. split_and!; [| done | decide_c].
  do 2 (apply Forall_cons; split; [split_and!; cbn; unfold SK_ATTR_OBJECT_TYPE, SK_ATTR_KEY_TYPE; lia |]). constructor.
Qed.

Lemma get_all_loop_upholds a slotID hs : forall ot kt, Forall (fun h => exists x, known a h x) hs ->
  Z.of_nat (length ot) = 4 -> Z.of_nat (length kt) = 4 -> upholds a (get_all_loop hs ot kt slotID) (fun _ => True).
Proof.
  induction hs as [|h hs IH]; intros ot kt Hhs Hot Hkt; cbn [get_all_loop]; [by apply upholds_ret |].
  apply Forall_cons in Hhs as [[x Hk] Hhs]. cbv zeta.
  eapply upholds_bind.
  { apply (upholds_sk _ _ (fun _ => True)). intros w HR.
    destruct (token_reads a w h [mkSK SK_ATTR_OBJECT_TYPE (Some ot) 4; mkSK SK_ATTR_KEY_TYPE (Some kt) 4] HR) as (rc & l & w' & E & HR' & _);
      [| by eauto 10].
    destruct Hk as (? & _). by apply types_legal. }
  intros [ret l] _. destruct (negb _); [by apply upholds_ret |].
  eapply upholds_bind; [apply upholds_lift | intros a0 _]. eapply upholds_bind; [apply upholds_lift | intros a1 _].
  eapply upholds_bind; [apply upholds_lift | intros ot' Hot']. eapply upholds_bind; [apply upholds_lift | intros kt' Hkt'].
  eapply upholds_bind; [eapply add_token_upholds; exact Hk |]. intros rc _. destruct (negb _); [by apply upholds_ret |].
  apply IH; [done | eapply mem_read_length, Hot' | eapply mem_read_length, Hkt'].
Qed.

Lemma get_all_upholds a slotID : upholds a (get_all_token_objects slotID) (fun _ => True).
Proof.
  unfold get_all_token_objects. eapply upholds_bind; [apply upholds_calm; unfold get_slot_function_list; steps_auto | intros fl _].
  destruct (negb fl); [by apply upholds_ret |].
  eapply upholds_bind.
  { apply (upholds_sk _ _ (fun r => r.1 = SKR_OK -> Forall (fun h => exists x, known a h x) r.2)). intros w HR.
    destruct (token_enumerates a w MAX_FIND_LIST_OBJECTS HR ltac:(unfold MAX_FIND_LIST_OBJECTS; lia)) as (rc & hs & w' & E & HR' & Hres).
    exists rc, hs, w'. split_and!; [done | done |]. cbn [fst snd]. intros Hrc.
    destruct Hres as [(_ & ids & Hids & ->) | [? _]]; [| done]. apply Forall_take, Forall_forall. intros h Hin. rewrite Hids in Hin.
    apply matches_elem in Hin as (x & Hx & _). exists x. by eapply rep_known. }
  intros [ret hs] Hhs. cbn [fst snd] in Hhs. destruct (ret =? SKR_OK) eqn:Er; cbn [negb]; [| by apply upholds_ret]. boolz.
  apply get_all_loop_upholds; [by apply Hhs | by apply indet_length.. ].
Qed.

Lemma find_init_upholds a h p n : upholds a (C_FindObjectsInit h p n) (fun _ => True).
Proof.
  assert (Hlocked : forall A (m : st (lib W) A), upholds a m (fun _ => True) -> upholds a (locked m) (fun _ => True)).
  { intros A m Hm. unfold locked. eapply upholds_bind; [apply upholds_calm, calm_on_lock | intros _ _].
    eapply upholds_bind; [exact Hm | intros r _]. eapply upholds_bind; [apply upholds_calm, calm_on_lock | intros _ _]. by apply upholds_ret. }
  unfold C_FindObjectsInit. apply Hlocked. unfold when_initialized, is_lib_initialized.
  eapply upholds_bind; [apply upholds_calm; steps_auto | intros i _]. destruct (negb i); [by apply upholds_ret |].
  destruct (_ && _); [by apply upholds_ret |]. unfold with_session.
  eapply upholds_bind; [apply upholds_calm; steps_auto | intros v _]. destruct (negb v); [by apply upholds_ret |].
  eapply upholds_bind; [apply upholds_calm; steps_auto | intros [sp|] _]; [| by apply upholds_ret].
  eapply upholds_bind; [apply upholds_calm; steps_auto | intros sess _]. destruct (op_active sess); [by apply upholds_ret |].
  destruct (negb _); [by apply upholds_ret |]. eapply upholds_bind; [apply upholds_calm; steps_auto | intros l _].
  eapply upholds_bind; [destruct l; [apply get_all_upholds | by apply upholds_ret] | intros rc _].
  apply upholds_calm. unfold find_block, set_session. steps_auto.
Qed.

(** ** The library is a faithful view of the store *)

(** A history without signatures. *)
Definition no_signature (c : P11Invariant.call) : Prop := match c with Sign _ _ _ _ _ => False | _ => True end.

Lemma run_calls_mirrors a cs : Forall no_signature cs -> forall s0 rcs s, mirrors a s0 ->
  run_calls cs s0 = Ret (rcs, s) -> mirrors a s.
Proof.
  induction 1 as [|c cs Hc _ IH]; intros s0 rcs s Hm E; cbn [run_calls] in E; [by injection E as <- <- |].
  apply st_bind_inv in E as (rc & s1 & E1 & E). apply st_bind_inv in E as (l & s2 & E2 & [= <- <-]).
  eapply IH; [| exact E2]. destruct (asks_token c) eqn:Ha.
  - destruct c; try discriminate Ha; [| done]. cbn [run] in E1. by eapply find_init_upholds in E1 as [? _].
  - by eapply upholds_calm in E1 as [? _]; [| apply calm_run |].
Qed.

Lemma loaded_mirrors a (w : W) : represents (view (secure w)) a -> mirrors a (loaded w).
Proof. intros HR. split; [done | constructor]. Qed.

(** C2: The PKCS#11 library shows the store.  Started on a token whose secure world
    keeps a store of objects, the library can make any calls but signatures, with
    any arguments and any failures of allocator, loader and the system below: the
    store stays exactly as it is, and every object the library has is an object of
    the store under its handle, with the label, identifier, modulus and public
    exponent stored there, byte for byte. *)
Theorem token_shows_store (cs : list P11Invariant.call) (a : astate K) (w : W) rcs (s : lib W) :
  represents (view (secure w)) a -> Forall no_signature cs -> run_calls cs (loaded w) = Ret (rcs, s) ->
  represents (view (secure (token s))) a /\ Forall (fun p => backed a p.2) (objs s).
Proof. intros HR Hcs E. by eapply run_calls_mirrors; [exact Hcs | apply loaded_mirrors | exact E]. Qed.

(** ** Signatures with the stored key *)

(** A cryptographic call of the stack, as a step of the store. *)
Lemma token_runs a (w : W) c m : represents (view (secure w)) a -> legal (K := K) c ->
  perform c = ('(rc, (o, n)) ← m; mret (RBytes rc o n)) ->
  exists rc o n w' a', m w = Ret ((rc, (o, n)), w') /\ astep denied a c (RBytes rc o n) a' /\ represents (view (secure w')) a'.
Proof.
  intros HR Hleg Hp. destruct (refines_all c a _ HR Hleg w eq_refl) as (r & w1 & E & a1 & Hst & HR1).
  rewrite Hp in E. apply st_bind_inv in E as ([rc [o n]] & w2 & E & [= <- <-]). by exists rc, o, n, w2, a1.
Qed.

Lemma token_decrypts a (w : W) m h d l : represents (view (secure w)) a -> 0 <= l ->
  legal (K := K) (CDecrypt m h d (zeros l)) ->
  exists rc out w', SK_Decrypt m h d l w = Ret (rc, out, w') /\ represents (view (secure w')) a /\
    ((rc = SKR_OK /\ crypt decrypt_algorithm decrypt_of a (mechanism m) h d (Some out)) \/
     crypt_cause denied decrypt_algorithm decrypt_of a (mechanism m) h d l rc).
Proof.
  intros HR Hl Hleg. pose proof (zeros_len l Hl) as Hz.
  destruct (token_runs a w _ _ HR Hleg eq_refl) as (rc & o & n & w' & a' & E & Hst & HR'). rewrite Hz in E.
  unfold SK_Decrypt, stack_functions. rewrite E. eexists _, _, w'. split; [reflexivity |].
  inversion Hst; subst; (split; [done |]); [left | right; by rewrite <- Hz].
  split; [done |]. cbn [default from_option id]. rewrite Nat2Z.id. unfold filled_with. by rewrite take_app_length.
Qed.

Lemma token_signs a (w : W) m h d l : represents (view (secure w)) a -> 0 <= l ->
  legal (K := K) (CSign m h d (zeros l)) ->
  exists rc out w', SK_Sign m h d l w = Ret (rc, out, w') /\ represents (view (secure w')) a /\
    ((rc = SKR_OK /\ crypt sign_algorithm sign_of a (mechanism m) h d (Some out)) \/
     crypt_cause denied sign_algorithm sign_of a (mechanism m) h d l rc).
Proof.
  intros HR Hl Hleg. pose proof (zeros_len l Hl) as Hz.
  destruct (token_runs a w _ _ HR Hleg eq_refl) as (rc & o & n & w' & a' & E & Hst & HR'). rewrite Hz in E.
  unfold SK_Sign, stack_functions. rewrite E. eexists _, _, w'. split; [reflexivity |].
  inversion Hst; subst; (split; [done |]); [left | right; by rewrite <- Hz].
  split; [done |]. cbn [default from_option id]. rewrite Nat2Z.id. unfold filled_with. by rewrite take_app_length.
Qed.

Lemma token_digests a (w : W) m d l : represents (view (secure w)) a -> 0 <= l ->
  legal (K := K) (CDigest m d (zeros l)) ->
  exists rc out w', SK_Digest m d l w = Ret (rc, out, w') /\ represents (view (secure w')) a /\
    ((rc = SKR_OK /\ exists alg size, digest_algorithm (mechanism m) = Some (alg, size) /\ out = digest_of alg d) \/
     denied rc \/ digest_algorithm (mechanism m) = None \/
     exists alg size, digest_algorithm (mechanism m) = Some (alg, size) /\ (l < size \/ l < Z.of_nat (length (digest_of alg d)))).
Proof.
  intros HR Hl Hleg. pose proof (zeros_len l Hl) as Hz.
  destruct (token_runs a w _ _ HR Hleg eq_refl) as (rc & o & n & w' & a' & E & Hst & HR'). rewrite Hz in E.
  unfold SK_Digest, stack_functions. rewrite E. eexists _, _, w'. split; [reflexivity |].
  inversion Hst as [| | | | | | | | | | | | | |? ? ? alg size Ha Hs Hls|? ? ? rc' Hc]; subst; (split; [done |]); [left | right].
  - split; [done |]. exists alg, size. split; [done |]. cbn [default from_option id]. rewrite Nat2Z.id.
    unfold filled_with. by rewrite take_app_length.
  - destruct Hc as [? | [[? _] | (alg & size & ? & _ & ?)]]; [by left | right; by left |]. right. right. rewrite <- Hz. by exists alg, size.
Qed.

(** A key operation that has nothing to fail for succeeds. *)
Lemma crypt_succeeds algorithms op_of a m h d l rc (x : aobj K) alg sig : ~ denied rc ->
  a_objs a !! h = Some x -> algorithms m = Some alg -> op_of alg (ao_key x) d = Ret (Some sig) -> Z.of_nat (length sig) <= l ->
  crypt_cause (denied (W := W) (S := S) (K := K)) algorithms op_of a m h d l rc -> False.
Proof.
  intros Hup Hx Ha Hop Hl [? | [[? _] | [[? _] | [[(o & alg' & Ho & Ha' & Hn) _] | (s & (o & alg' & Ho & Ha' & Hs) & Hle & _)]]]]; try congruence.
  rewrite Hx in Ho. injection Ho as <-. rewrite Ha in Ha'. injection Ha' as <-. rewrite Hop in Hs. injection Hs as <-. lia.
Qed.

(** C7: A signature of PKCS#11 is one with the stored key.  While nothing below fails,
    a raw RSA signature that was started with a private key object the library shows
    returns, and gives the caller the private-key operation of the key stored under
    the object's handle on the PKCS#1 type 1 block of the data; the store stays as it
    is. *)
Theorem pkcs11_signs_raw (cs : list P11Invariant.call) (a : astate K) (w : W) rcs (s : lib W)
    h x o attr ob d sg n sig :
  (forall rc, ~ denied (W := W) (S := S) (K := K) rc) ->
  represents (view (secure w)) a -> Forall no_signature cs -> run_calls cs (loaded w) = Ret (rcs, s) ->
  raw_signing h x o attr s -> a_objs a !! sk_obj_handle o = Some ob ->
  11 <= ulValueLen attr <= MAX_RSA_KEYLEN -> Z.of_nat (length d) <= ulValueLen attr - 11 ->
  ulValueLen attr <= n < 2 ^ 16 -> n <= Z.of_nat (length sg) ->
  (forall k : K, decrypt_of TEE_ALG_RSA_NOPAD k (pkcs1_type1 (ulValueLen attr) d) <> Undef) ->
  decrypt_of TEE_ALG_RSA_NOPAD (ao_key ob) (pkcs1_type1 (ulValueLen attr) d) = Ret (Some sig) -> Z.of_nat (length sig) <= n ->
  exists s', C_Sign h (Some d) (Z.of_nat (length d)) (Some sg) (Some n) s =
      Ret ((CKR_OK, Some (sig ++ drop (length sig) sg), Some (Z.of_nat (length sig))), s') /\
    represents (view (secure (token s'))) a.
Proof.
  intros Hup HR Hcs E Hr Hob Hk Hd Hn Hsg Hdef Hsig Hlen.
  destruct (run_calls_mirrors a cs Hcs _ _ _ (loaded_mirrors a w HR) E) as [HRs _].
  destruct (rep_objs _ _ HRs _ _ Hob) as [Hh _]. unfold MAX_RSA_KEYLEN in Hk.
  assert (Hb : Z.of_nat (length (pkcs1_type1 (ulValueLen attr) d)) = ulValueLen attr) by (unfold pkcs1_type1; len).
  destruct (token_decrypts a (token s) (mkMech SKM_RSA_PKCS_NOPAD) (sk_obj_handle o) (pkcs1_type1 (ulValueLen attr) d) n HRs ltac:(lia))
    as (rc & out & w' & Etok & HR' & Hres).
  { pose proof (zeros_len n ltac:(lia)). split_and!; [lia.. |]. intros k alg [= <-]. apply Hdef. }
  destruct Hres as [[-> (o' & alg & Ho & [= <-] & Hout)] | Hc].
  2: { exfalso. by eapply (crypt_succeeds _ _ a) in Hc. }
  rewrite Hob in Ho. injection Ho as <-. rewrite Hsig in Hout. injection Hout as <-.
  rewrite (raw_sign_run h x o attr d sg n s SKR_OK sig w'); try done. eexists. split; [reflexivity |]. done.
Qed.

(** C31: The same for hash-and-sign.  The signature of a message below 64 KiB is the
    stored key's signature of the message's digest. *)
Theorem pkcs11_signs_hash (cs : list P11Invariant.call) (a : astate K) (w : W) rcs (s : lib W)
    mech st dt alg halg hsize h x o attr ob d sg n sig :
  (forall rc, ~ denied (W := W) (S := S) (K := K) rc) ->
  represents (view (secure w)) a -> Forall no_signature cs -> run_calls cs (loaded w) = Ret (rcs, s) ->
  signing mech h x o attr s -> hash_sign_mechs mech = Some (st, dt) ->
  sign_algorithm st = Some alg -> digest_algorithm dt = Some (halg, hsize) ->
  a_objs a !! sk_obj_handle o = Some ob -> 0 < Z.of_nat (length d) < 2 ^ 16 ->
  0 <= ulValueLen attr <= n -> 0 < n < 2 ^ 16 -> n <= Z.of_nat (length sg) ->
  0 < Z.of_nat (length (digest_of (K := K) halg d)) <= MAX_HASH_LEN ->
  (forall k : K, sign_of alg k (digest_of (K := K) halg d) <> Undef) ->
  sign_of alg (ao_key ob) (digest_of (K := K) halg d) = Ret (Some sig) -> Z.of_nat (length sig) <= n ->
  exists s', C_Sign h (Some d) (Z.of_nat (length d)) (Some sg) (Some n) s =
      Ret ((CKR_OK, Some (sig ++ drop (length sig) sg), Some (Z.of_nat (length sig))), s') /\
    represents (view (secure (token s'))) a.
Proof.
  intros Hup HR Hcs E Hr Hm Halg Hdig Hob Hd Hk Hn Hsg Hhash Hdef Hsig Hlen. unfold MAX_HASH_LEN in Hhash.
  destruct (run_calls_mirrors a cs Hcs _ _ _ (loaded_mirrors a w HR) E) as [HRs _].
  destruct (rep_objs _ _ HRs _ _ Hob) as [Hh _].
  assert (Hsize : hsize <= 64).
  { unfold digest_algorithm in Hdig. revert Hdig. repeat case_match; intros [= <- <-]; done. }
  destruct (token_digests a (token s) (mkMech dt) d MAX_HASH_LEN HRs) as (rc & hash & w1 & Ed & HR1 & Hres);
    [done | by split_and!; [lia.. | | ] | ].
  cbn [mechanism] in Hres.
  destruct Hres as [(-> & alg' & sz' & Ha' & ->) | [? | [? | (alg' & sz' & Ha' & ?)]]]; [| by destruct (Hup rc) | congruence |].
  2: { rewrite Hdig in Ha'. injection Ha' as <- <-. unfold MAX_HASH_LEN in *. lia. }
  rewrite Hdig in Ha'. injection Ha' as <- <-.
  destruct (token_signs a w1 (mkMech st) (sk_obj_handle o) (digest_of (K := K) halg d) n HR1 ltac:(lia))
    as (rc & out & w' & Etok & HR' & Hres).
  { pose proof (zeros_len n ltac:(lia)). split_and!; [lia.. |]. cbn. intros k alg' Ha'. rewrite Halg in Ha'. injection Ha' as <-. apply Hdef. }
  destruct Hres as [[-> (o' & alg' & Ho & Ha' & Hout)] | Hc].
  2: { exfalso. by eapply (crypt_succeeds _ _ a) in Hc. }
  cbn in Ha'. rewrite Halg in Ha'. injection Ha' as <-. rewrite Hob in Ho. injection Ho as <-. rewrite Hsig in Hout. injection Hout as <-.
  rewrite (hash_sign_run mech st dt h x o attr d sg n s (digest_of (K := K) halg d) w1 sig w'); try done; try lia.
  2: { unfold MAX_HASH_LEN. lia. }
  eexists. split; [reflexivity |]. done.
Qed.

(** ** A key without a label *)

(** A stored RSA key pair without a label. *)
Definition unlabelled (x : aobj K) : Prop :=
  find_wire SK_ATTR_OBJECT_TYPE (ao_attrs x) = Some (mkWire SK_ATTR_OBJECT_TYPE 4 (Some (le_bytes 4 SK_KEY_PAIR))) /\
  find_wire SK_ATTR_KEY_TYPE (ao_attrs x) = Some (mkWire SK_ATTR_KEY_TYPE 4 (Some (le_bytes 4 SKK_RSA))) /\
  find_wire SK_ATTR_OBJECT_LABEL (ao_attrs x) = None.

Lemma read_types x ot kt l : unlabelled x ->
  read_attrs (ao_attrs x) [mkSK SK_ATTR_OBJECT_TYPE (Some ot) 4; mkSK SK_ATTR_KEY_TYPE (Some kt) 4] = inl l ->
  l = [mkSK SK_ATTR_OBJECT_TYPE (Some (le_bytes 4 SK_KEY_PAIR ++ drop 4 ot)) 4;
       mkSK SK_ATTR_KEY_TYPE (Some (le_bytes 4 SKK_RSA ++ drop 4 kt)) 4].
Proof. intros (H1 & H2 & _). cbn [read_attrs]. unfold read_attr. cbn [sa_type sa_valueLen]. rewrite H1, H2. by intros [= <-]. Qed.

Lemma read_no_label x l : unlabelled x -> read_attrs (ao_attrs x) ((fun ty => mkSK ty None 0) <$> rsa_pub_attr_type) <> inl l.
Proof.
  intros (_ & _ & Hl). unfold rsa_pub_attr_type. rewrite fmap_cons. cbn [read_attrs]. destruct (read_attrs _ _); [| done].
  unfold read_attr. cbn [sa_type]. by rewrite Hl.
Qed.

Lemma read_word n r : mem_read (Some (le_bytes 4 n ++ r)) 4 = Ret (le_bytes 4 n).
Proof. unfold mem_read. cbn [Z.eqb deref mbind outcome_bind]. by rewrite buf_read_ret by (rewrite ?length_app, ?length_le_bytes; lia). Qed.

(** It cannot be loaded. *)
Lemma add_unlabelled a h x slotID : known a h x -> unlabelled x ->
  upholds a (add_token_object h SK_KEY_PAIR SKK_RSA slotID) (fun rc => rc <> CKR_OK).
Proof.
  intros Hk Hu. unfold add_token_object. rewrite !Z.eqb_refl. unfold create_rsa_pub_key_object.
  eapply upholds_bind with (P := fun r => r.1 <> CKR_OK).
  - eapply upholds_bind; [apply upholds_calm, calm_malloc | intros [p|] _]; [| by apply upholds_ret].
    eapply upholds_bind with (P := fun r => r.1 <> CKR_OK).
    + unfold object_add_template. eapply upholds_bind; [apply upholds_calm; unfold get_slot_function_list; steps_auto | intros fl _].
      destruct (negb fl); [by apply upholds_ret |]. cbv zeta. eapply upholds_bind with (P := fun r => r.1 <> SKR_OK).
      * apply upholds_sk. intros w HR. cbn [sk_obj_handle].
        destruct (token_reads a w h ((fun ty => mkSK ty None 0) <$> rsa_pub_attr_type) HR) as (rc & l & w' & E & HR' & Hres).
        { destruct Hk as (? & _). cbn -[attrs_ok]. split_and!; [lia | lia | decide_c | by repeat constructor]. }
        exists rc, l, w'. split_and!; [done | done |]. cbn. destruct Hres as [(_ & x' & Hx' & Hrd) | (? & _)]; [| done].
        destruct Hk as (_ & Hx & _). rewrite Hx in Hx'. injection Hx' as <-. by apply read_no_label in Hrd.
      * intros [ret l] Hret. cbn in Hret. rewrite (proj2 (Z.eqb_neq _ _)) by done. by apply upholds_ret.
    + intros [rc o] Hrc. cbn in Hrc. rewrite (proj2 (Z.eqb_neq _ _)) by done. cbn [negb].
      eapply upholds_bind; [apply upholds_calm, calm_free | intros _ _]. by apply upholds_ret.
  - intros [rc node] Hrc. cbn in Hrc. unfold insert_key_object. rewrite (proj2 (Z.eqb_neq _ _)) by done. cbn [negb].
    eapply upholds_bind with (P := fun rc => rc <> CKR_OK); [by apply upholds_ret |]. intros rc' Hrc'.
    rewrite (proj2 (Z.eqb_neq _ _)) by done. by apply upholds_ret.
Qed.

Lemma get_all_loop_blocked a slotID h0 x hs : known a h0 x -> unlabelled x -> h0 ∈ hs -> forall ot kt,
  Forall (fun h => exists x, known a h x) hs ->
  Z.of_nat (length ot) = 4 -> Z.of_nat (length kt) = 4 -> upholds a (get_all_loop hs ot kt slotID) (fun rc => rc <> CKR_OK).
Proof.
  intros Hk Hu. induction hs as [|h hs IH]; intros Hin ot kt Hhs Hot Hkt; [by apply elem_of_nil in Hin |].
  cbn [get_all_loop]. apply Forall_cons in Hhs as [[y Hy] Hhs]. cbv zeta.
  eapply upholds_bind with (P := fun r => r.1 = SKR_OK -> h = h0 ->
     r.2 = [mkSK SK_ATTR_OBJECT_TYPE (Some (le_bytes 4 SK_KEY_PAIR ++ drop 4 ot)) 4;
            mkSK SK_ATTR_KEY_TYPE (Some (le_bytes 4 SKK_RSA ++ drop 4 kt)) 4]).
  { apply upholds_sk. intros w HR.
    destruct (token_reads a w h [mkSK SK_ATTR_OBJECT_TYPE (Some ot) 4; mkSK SK_ATTR_KEY_TYPE (Some kt) 4] HR) as (rc & l & w' & E & HR' & Hres).
    { destruct Hy as (? & _). by apply types_legal. }
    exists rc, l, w'. split_and!; [done | done |]. cbn. intros Hrc ->. destruct Hres as [(_ & x' & Hx' & Hrd) | (? & _)]; [| done].
    destruct Hk as (_ & Hx & _). rewrite Hx in Hx'. injection Hx' as <-. by eapply read_types. }
  intros [ret l] Hret. cbn [fst snd] in Hret. destruct (ret =? SKR_OK) eqn:Er; cbn [negb]; [boolz | by apply upholds_ret].
  eapply upholds_bind; [apply upholds_lift | intros a0 Ha0]. eapply upholds_bind; [apply upholds_lift | intros a1 Ha1].
  eapply upholds_bind; [apply upholds_lift | intros ot' Hot']. eapply upholds_bind; [apply upholds_lift | intros kt' Hkt'].
  destruct (decide (h = h0)) as [-> | Hne].
  - rewrite (Hret Er eq_refl) in Ha0, Ha1.
    assert (a0 = mkSK SK_ATTR_OBJECT_TYPE (Some (le_bytes 4 SK_KEY_PAIR ++ drop 4 ot)) 4) as -> by (by injection Ha0).
    assert (a1 = mkSK SK_ATTR_KEY_TYPE (Some (le_bytes 4 SKK_RSA ++ drop 4 kt)) 4) as -> by (by injection Ha1).
    cbn [sa_value] in Hot', Hkt'. rewrite read_word in Hot', Hkt'.
    assert (ot' = le_bytes 4 SK_KEY_PAIR) as -> by congruence. assert (kt' = le_bytes 4 SKK_RSA) as -> by congruence.
    rewrite !le_val_bytes. change (SK_KEY_PAIR `mod` _) with SK_KEY_PAIR. change (SKK_RSA `mod` _) with SKK_RSA.
    eapply upholds_bind; [by apply (add_unlabelled a h0 x) |]. intros rc Hrc. rewrite (proj2 (Z.eqb_neq _ _)) by done. by apply upholds_ret.
  - eapply upholds_bind; [eapply add_token_upholds; exact Hy |]. intros rc _. destruct (rc =? CKR_OK) eqn:Erc; cbn [negb]; boolz; [| by apply upholds_ret].
    apply IH; [by apply elem_of_cons in Hin as [-> | ?] | done | eapply mem_read_length, Hot' | eapply mem_read_length, Hkt'].
Qed.

(** The steps of a search before the object list is read. *)
Lemma calm_empty {A} a (m : st (lib W) A) s r s' : steps calm m -> mirrors a s -> objs s = [] -> m s = Ret (r, s') ->
  mirrors a s' /\ objs s' = [].
Proof.
  intros Hm Hs Ho E. split; [by eapply upholds_calm in E as [? _] |]. destruct (Hm _ _ _ E) as [_ [-> | ?]]; done.
Qed.

Lemma get_all_blocked a slotID h0 x : known a h0 x -> unlabelled x -> (size (a_objs a) <= Z.to_nat MAX_FIND_LIST_OBJECTS)%nat ->
  upholds a (get_all_token_objects slotID) (fun rc => rc <> CKR_OK).
Proof.
  intros Hk Hu Hsize. unfold get_all_token_objects.
  eapply upholds_bind; [apply upholds_calm; unfold get_slot_function_list; steps_auto | intros fl _].
  destruct (negb fl); [by apply upholds_ret |].
  eapply upholds_bind with (P := fun r => r.1 = SKR_OK -> h0 ∈ r.2 /\ Forall (fun h => exists x, known a h x) r.2).
  { apply upholds_sk. intros w HR.
    destruct (token_enumerates a w MAX_FIND_LIST_OBJECTS HR ltac:(unfold MAX_FIND_LIST_OBJECTS; lia)) as (rc & hs & w' & E & HR' & Hres).
    exists rc, hs, w'. split_and!; [done | done |]. cbn [fst snd]. intros Hrc.
    destruct Hres as [(_ & ids & Hids & ->) | [? _]]; [| done]. rewrite take_ge.
    - split; [rewrite Hids; apply matches_elem; destruct Hk as (_ & Hx & _); by exists x |].
      apply Forall_forall. intros h Hin. rewrite Hids in Hin. apply matches_elem in Hin as (y & Hy & _). exists y. by eapply rep_known.
    - rewrite Hids. unfold matches. rewrite length_fmap. etrans; [apply length_filter |].
      by rewrite length_map_to_list. }
  intros [ret hs] Hhs. cbn [fst snd] in Hhs. destruct (ret =? SKR_OK) eqn:Er; cbn [negb]; [| by apply upholds_ret]. boolz.
  destruct (Hhs Er) as [Hin Hall]. apply (get_all_loop_blocked a slotID h0 x); try done; by apply indet_length.
Qed.

(** One key without a label hides the whole token.  If an RSA key pair was stored
    without a label, which the trusted application accepts, the first search of a
    PKCS#11 client never succeeds, whatever the other keys: the size query for all
    attributes at once fails, although the loop behind it skips an attribute whose
    length is -1. *)
Theorem unlabelled_key_hides_token (cs : list P11Invariant.call) (a : astate K) (w : W) rcs (s : lib W)
    h0 x hS p n rc s' :
  represents (view (secure w)) a -> Forall no_signature cs -> run_calls cs (loaded w) = Ret (rcs, s) -> objs s = [] ->
  a_objs a !! h0 = Some x -> unlabelled x -> (size (a_objs a) <= Z.to_nat MAX_FIND_LIST_OBJECTS)%nat ->
  C_FindObjectsInit hS p n s = Ret (rc, s') -> rc <> CKR_OK.
Proof.
  intros HR Hcs Erun Ho Hx Hu Hsize E. pose proof (run_calls_mirrors a cs Hcs _ _ _ (loaded_mirrors a w HR) Erun) as Hm.
  assert (Hk : known a h0 x) by (destruct Hm; by eapply rep_known). unfold C_FindObjectsInit, locked in E.
  apply st_bind_inv in E as (u & s1 & E1 & E). destruct (calm_empty a _ _ _ _ (calm_on_lock _) Hm Ho E1) as [Hm1 Ho1].
  apply st_bind_inv in E as (r & s2 & E2 & E). apply st_bind_inv in E as (u' & s3 & _ & [= <- _]).
  unfold when_initialized, is_lib_initialized in E2. apply st_bind_inv in E2 as (i & s4 & [= <- <-] & E2).
  destruct (negb _); [by injection E2 as <- _ |]. destruct (_ && _); [by injection E2 as <- _ |]. unfold with_session in E2.
  apply st_bind_inv in E2 as (v & s5 & E5 & E2). destruct (calm_empty a _ _ _ _ (calm_session_valid _) Hm1 Ho1 E5) as [Hm5 Ho5].
  destruct (negb v); [by injection E2 as <- _ |].
  apply st_bind_inv in E2 as (sp & s6 & E6 & E2). destruct (calm_empty a _ _ _ _ (calm_get_session _) Hm5 Ho5 E6) as [Hm6 Ho6].
  destruct sp as [sp|]; [| by injection E2 as <- _].
  apply st_bind_inv in E2 as (sess & s7 & E7 & E2). destruct (calm_empty a _ _ _ _ (calm_session_at _) Hm6 Ho6 E7) as [Hm7 Ho7].
  destruct (op_active sess); [by injection E2 as <- _ |]. destruct (negb _); [by injection E2 as <- _ |].
  apply st_bind_inv in E2 as (l & s8 & [= <- <-] & E2). rewrite Ho7 in E2.
  apply st_bind_inv in E2 as (rc' & s9 & E9 & E2). eapply get_all_blocked in E9 as [_ Hrc]; [| exact Hk | done | done | done].
  rewrite (proj2 (Z.eqb_neq _ _)) in E2 by done. by injection E2 as <- _.
Qed.
End OnStack.

(** ** A run of the whole stack *)

(** A key pair with what the PKCS#11 library reads, and its private exponent. *)
Definition p11_attrs : list SK_ATTRIBUTE :=
  [mkSK SK_ATTR_OBJECT_TYPE (Some (le_bytes 4 SK_KEY_PAIR)) 4;
   mkSK SK_ATTR_KEY_TYPE (Some (le_bytes 4 SKK_RSA)) 4;
   mkSK SK_ATTR_MODULUS_BITS (Some (le_bytes 4 128)) 4;
   mkSK SK_ATTR_OBJECT_LABEL (Some [107; 49]) 2;
   mkSK SK_ATTR_OBJECT_INDEX (Some [7; 0; 0; 0]) 4;
   mkSK SK_ATTR_MODULUS (Some (replicate 16 129)) 16;
   mkSK SK_ATTR_PUBLIC_EXPONENT (Some [1; 0; 1]) 3;
   mkSK SK_ATTR_PRIVATE_EXPONENT (Some [9; 9; 9]) 3].

Definition p11_key : ram_key :=
  [mkTeeAttr TEE_ATTR_RSA_MODULUS (Some (replicate 16 129)) 16; mkTeeAttr TEE_ATTR_RSA_PUBLIC_EXPONENT (Some [1; 0; 1]) 3;
   mkTeeAttr TEE_ATTR_RSA_PRIVATE_EXPONENT (Some [9; 9; 9]) 3].
Definition p11_object : aobj ram_key := mkAobj TEE_TYPE_RSA_KEYPAIR 128 p11_key (public (client_wire <$> p11_attrs)).
Definition p11_store : astate ram_key := add_obj p11_object no_objects.

(** The secure world after a client stored that key. *)
Definition p11_token : ram :=
  match perform (CCreate p11_attrs) ram_empty with Ret (_, w) => w | Undef => ram_empty end.

Lemma p11_attrs_legal : legal (K := ram_key) (CCreate p11_attrs).
Proof.
  split_and!.
  - decide_c.
  - repeat constructor.
  - repeat constructor; vm_compute in H; injection H as <-; cbn; try lia; eexists; reflexivity.
  - discriminate.
  - discriminate.
  - eexists [_]. vm_compute. reflexivity.
Qed.

Lemma p11_token_represents : represents (view (K := ram_key) (secure (W := ram) p11_token)) p11_store.
Proof.
  destruct (refines_all (W := ram) (S := ram) (K := ram_key) (CCreate p11_attrs) no_objects (view (secure (W := ram) ram_empty)))
    with (w := ram_empty) as (r & w & E & a & Hst & HR); [exact ram_represents | exact p11_attrs_legal | reflexivity |].
  unfold p11_token. rewrite E. vm_compute in E. injection E as <- _.
  inversion Hst as [? ty size parts k ws Hreq Hpop Hfree| | | | | | | | | | | | | | |]; subst.
  vm_compute in Hreq. injection Hreq as <- <- <-. vm_compute in Hpop. injection Hpop as <-. exact HR.
Qed.

Notation p11_run cs := (run_calls (T := ram) cs (loaded p11_token)).
Definition p11_state (cs : list P11Invariant.call) : lib ram :=
  match p11_run cs with Ret (_, s) => s | Undef => loaded p11_token end.

(** A client initialises the library, opens a session and searches; then it starts
    a signature in a second session. *)
Definition p11_browse : list P11Invariant.call :=
  [Initialize (Some (mkInit None false false false CKF_OS_LOCKING_OK false));
   OpenSession TEE_SLOT_ID CKF_SERIAL_SESSION true; FindObjectsInit 1 None 0; FindObjects 1 true 10 true;
   OpenSession TEE_SLOT_ID CKF_SERIAL_SESSION true].
Definition p11_sign (mech : Z) : list P11Invariant.call := p11_browse ++ [SignInit 5 (Some (demo_mech mech)) 3].

Lemma token_shows_store_witness :
  p11_run p11_browse = Ret (replicate 5 CKR_OK, p11_state p11_browse) /\ (objs (p11_state p11_browse)).*1 = [3; 2] /\
  Forall (fun p => backed p11_store p.2) (objs (p11_state p11_browse)).
Proof.
  assert (E : p11_run p11_browse = Ret (replicate 5 CKR_OK, p11_state p11_browse)) by (vm_compute; reflexivity).
  split_and!; [exact E | vm_compute; reflexivity |].
  apply (token_shows_store (W := ram) (S := ram) (K := ram_key) p11_browse p11_store p11_token (replicate 5 CKR_OK) (p11_state p11_browse)).
  - exact p11_token_represents.
  - repeat constructor.
  - exact E.
Defined.

Definition p11_session (mech : Z) : session := default (demo_sess 5) (assoc 5 (sessions (p11_state (p11_sign mech)))).
Definition p11_private (mech : Z) : OBJECT := default (demo_obj 3) (assoc 3 (objs (p11_state (p11_sign mech)))).
Definition p11_modulus : CK_ATTRIBUTE := mkCK CKA_MODULUS (Some (replicate 16 129)) 16.

Lemma p11_signing mech : p11_run (p11_sign mech) = Ret (replicate 6 CKR_OK, p11_state (p11_sign mech)) ->
  initialized (p11_state (p11_sign mech)) = true -> lib_open (slot (p11_state (p11_sign mech))) = true ->
  sk_funcs (slot (p11_state (p11_sign mech))) = true ->
  assoc 5 (sessions (p11_state (p11_sign mech))) = Some (p11_session mech) -> sc_active (sign_ctx (p11_session mech)) = true ->
  ckm_mechanism (sc_mech (sign_ctx (p11_session mech))) = mech ->
  assoc (sc_key (sign_ctx (p11_session mech))) (objs (p11_state (p11_sign mech))) = Some (p11_private mech) ->
  p11_template_check_attr (template_list (p11_private mech)) CKA_MODULUS = Some p11_modulus ->
  signing mech 5 (p11_session mech) (p11_private mech) p11_modulus (p11_state (p11_sign mech)).
Proof.
  intros E. intros. destruct (reachable_inv (p11_state (p11_sign mech))) as [Hok Hf]; [by eapply run_calls_reachable |]. by split_and!.
Qed.

Lemma pkcs11_signs_raw_witness :
  exists s', C_Sign 5 (Some [9]) 1 (Some (zeros 32)) (Some 32) (p11_state (p11_sign CKM_RSA_PKCS)) =
    Ret ((CKR_OK, Some ((2 :: tail (pkcs1_type1 16 [9])) ++ zeros 16), Some 16), s') /\
    represents (view (K := ram_key) (secure (W := ram) (token s'))) p11_store.
Proof.
  destruct (pkcs11_signs_raw (W := ram) (S := ram) (K := ram_key) (p11_sign CKM_RSA_PKCS) p11_store p11_token (replicate 6 CKR_OK)
    (p11_state (p11_sign CKM_RSA_PKCS)) 5 (p11_session CKM_RSA_PKCS) (p11_private CKM_RSA_PKCS) p11_modulus p11_object [9] (zeros 32) 32
    (2 :: tail (pkcs1_type1 16 [9]))) as (s' & E & HR).
  - exact ram_never_denied.
  - exact p11_token_represents.
  - repeat constructor.
  - vm_compute. reflexivity.
  - apply p11_signing; vm_compute; reflexivity.
  - vm_compute. reflexivity.
  - vm_compute. split; discriminate.
  - vm_compute. discriminate.
  - vm_compute. split; [discriminate | reflexivity].
  - vm_compute. discriminate.
  - discriminate.
  - vm_compute. reflexivity.
  - vm_compute. discriminate.
  - exists s'. split; [exact E | exact HR].
Defined.

Lemma pkcs11_signs_hash_witness :
  exists s', C_Sign 5 (Some [9]) 1 (Some (zeros 32)) (Some 32) (p11_state (p11_sign CKM_SHA1_RSA_PKCS)) =
    Ret ((CKR_OK, Some ([1; 3; 9] ++ zeros 29), Some 3), s') /\
    represents (view (K := ram_key) (secure (W := ram) (token s'))) p11_store.
Proof.
  destruct (pkcs11_signs_hash (W := ram) (S := ram) (K := ram_key) (p11_sign CKM_SHA1_RSA_PKCS) p11_store p11_token (replicate 6 CKR_OK)
    (p11_state (p11_sign CKM_SHA1_RSA_PKCS)) CKM_SHA1_RSA_PKCS SKM_RSASSA_PKCS1_V1_5_SHA1 SKM_SHA1
    TEE_ALG_RSASSA_PKCS1_V1_5_SHA1 TEE_ALG_SHA1 TEE_SHA1_HASH_SIZE 5 (p11_session CKM_SHA1_RSA_PKCS) (p11_private CKM_SHA1_RSA_PKCS)
    p11_modulus p11_object [9] (zeros 32) 32 [1; 3; 9]) as (s' & E & HR).
  - exact ram_never_denied.
  - exact p11_token_represents.
  - repeat constructor.
  - vm_compute. reflexivity.
  - apply p11_signing; vm_compute; reflexivity.
  - reflexivity.
  - reflexivity.
  - reflexivity.
  - vm_compute. reflexivity.
  - vm_compute. split; reflexivity.
  - vm_compute. split; discriminate.
  - vm_compute. split; reflexivity.
  - vm_compute. discriminate.
  - vm_compute. split; [reflexivity | discriminate].
  - discriminate.
  - vm_compute. reflexivity.
  - vm_compute. discriminate.
  - exists s'. split; [exact E | exact HR].
Defined.

(** The same key pair, stored without its label. *)
Definition bare_attrs : list SK_ATTRIBUTE := filter (fun x => sa_type x <> SK_ATTR_OBJECT_LABEL) p11_attrs.
Definition bare_object : aobj ram_key := mkAobj TEE_TYPE_RSA_KEYPAIR 128 p11_key (public (client_wire <$> bare_attrs)).
Definition bare_store : astate ram_key := add_obj bare_object no_objects.
Definition bare_token : ram :=
  match perform (CCreate bare_attrs) ram_empty with Ret (_, w) => w | Undef => ram_empty end.

Lemma bare_attrs_legal : legal (K := ram_key) (CCreate bare_attrs).
Proof.
  split_and!.
  - decide_c.
  - repeat constructor.
  - repeat constructor; vm_compute in H; injection H as <-; cbn; try lia; eexists; reflexivity.
  - discriminate.
  - discriminate.
  - eexists [_]. vm_compute. reflexivity.
Qed.

Lemma bare_token_represents : represents (view (K := ram_key) (secure (W := ram) bare_token)) bare_store.
Proof.
  destruct (refines_all (W := ram) (S := ram) (K := ram_key) (CCreate bare_attrs) no_objects (view (secure (W := ram) ram_empty)))
    with (w := ram_empty) as (r & w & E & a & Hst & HR); [exact ram_represents | exact bare_attrs_legal | reflexivity |].
  unfold bare_token. rewrite E. vm_compute in E. injection E as <- _.
  inversion Hst as [? ty size parts k ws Hreq Hpop Hfree| | | | | | | | | | | | | | |]; subst.
  vm_compute in Hreq. injection Hreq as <- <- <-. vm_compute in Hpop. injection Hpop as <-. exact HR.
Qed.

Definition bare_calls : list P11Invariant.call :=
  [Initialize (Some (mkInit None false false false CKF_OS_LOCKING_OK false)); OpenSession TEE_SLOT_ID CKF_SERIAL_SESSION true].
Definition bare_state : lib ram :=
  match run_calls (T := ram) bare_calls (loaded bare_token) with Ret (_, s) => s | Undef => loaded bare_token end.
Definition bare_searched : lib ram :=
  match C_FindObjectsInit (T := ram) 1 None 0 bare_state with Ret (_, s) => s | Undef => bare_state end.

Lemma unlabelled_key_hides_token_witness :
  C_FindObjectsInit (T := ram) 1 None 0 bare_state = Ret (CKR_GENERAL_ERROR, bare_searched) /\ CKR_GENERAL_ERROR <> CKR_OK.
Proof.
  assert (E : C_FindObjectsInit (T := ram) 1 None 0 bare_state = Ret (CKR_GENERAL_ERROR, bare_searched)) by (vm_compute; reflexivity).
  split; [exact E |].
  apply (unlabelled_key_hides_token (W := ram) (S := ram) (K := ram_key) bare_calls bare_store bare_token [CKR_OK; CKR_OK] bare_state
    0 bare_object 1 None 0 CKR_GENERAL_ERROR bare_searched).
  - exact bare_token_represents.
  - repeat constructor.
  - vm_compute. reflexivity.
  - vm_compute. reflexivity.
  - vm_compute. reflexivity.
  - split_and!; vm_compute; reflexivity.
  - vm_compute. repeat constructor.
  - exact E.
Defined.
