(* ===== verification/EngSobj.v ===== *)
(** * The OpenSSL engine (eng_secure_obj.c) and the key files it works on (sobj_app.c)

    The engine replaces the private-key operations of OpenSSL.  A key file the command
    line tool writes for a stored key has the public parts of that key, and in place of
    the private exponent a number with a mark and the identifier of the object; the engine
    recognises the mark, looks for the object in the secure world and has the operation
    done there.  Any other key goes to OpenSSL's own functions.

    [eng] is the secure-key library's world with the heap of the process: the blocks in
    use and the number of allocations so far.  Numbers of OpenSSL are the type [B] of the
    class [OpenSSL], with the operations the two programs use of it. *)

From stdpp Require Import base numbers list gmap strings.
From S2P Require Import Prelude SkTypes AttrCodec TeeClient SkLib.

(** ** OpenSSL *)

(** The numbers of a key; [rsa_crt] are the five that speed it up. *)
Record RSA (B : Type) := mkRSA { rsa_n : B; rsa_e : B; rsa_d : B; rsa_crt : list B }.
Arguments mkRSA {_}. Arguments rsa_n {_}. Arguments rsa_e {_}. Arguments rsa_d {_}. Arguments rsa_crt {_}.

Class OpenSSL (B : Type) := {
  (** The bytes of a number, the most significant first; the number of some bytes. *)
  BN_bn2bin : B -> list Z;
  BN_bin2bn : list Z -> option B;
  (** The text of a key file and the key read from it. *)
  PEM_write_bio_RSAPrivateKey : RSA B -> list Z;
  PEM_read_PrivateKey : list Z -> option (RSA B);
  (** OpenSSL's own private-key functions: the result and the output buffer. *)
  ssleay_rsa_priv_enc : Z -> list Z -> list Z -> RSA B -> Z -> outcome (Z * list Z);
  ssleay_rsa_priv_dec : Z -> list Z -> list Z -> RSA B -> Z -> outcome (Z * list Z) }.

Definition RSA_size {B} `{OpenSSL B} (r : RSA B) : Z := Z.of_nat (length (BN_bn2bin (rsa_n r))).

Definition RSA_PKCS1_PADDING : Z := 1.
Definition RSA_PKCS1_PADDING_SIZE : Z := 11.

(** The result and the block. *)
Definition RSA_padding_add_PKCS1_type_1 (to : list Z) (tlen : Z) (from : list Z) (flen : Z) : outcome (Z * list Z) :=
  if tlen - RSA_PKCS1_PADDING_SIZE <? flen then Ret (0, to)
  else
    d ← buf_read from 0 (u32 flen);
    to ← buf_write to 0 ([0; 1] ++ replicate (Z.to_nat (tlen - 3 - flen)) 0xff ++ [0] ++ d);
    Ret (1, to).

(** The loop of the check: the index of the first zero byte from [i] on. *)
Fixpoint zero_loop (em : list Z) (i zero_index : Z) (found : bool) : Z :=
  match em with
  | [] => zero_index
  | c :: em => zero_loop em (i + 1) (if negb found && (c =? 0) then i else zero_index) (found || (c =? 0))
  end.

(** [ok] says whether there is memory for the copy of the block. *)
Definition RSA_padding_check_PKCS1_type_2 (ok : bool) (to : list Z) (tlen : Z) (from : list Z) (flen num : Z) : outcome (Z * list Z) :=
  if (tlen <? 0) || (flen <? 0) then Ret (-1, to)
  else if num <? flen then Ret (-1, to)
  else if num <? 11 then Ret (-1, to)
  else if negb ok then Ret (-1, to)
  else
    d ← buf_read from 0 flen;
    let em := zeros (num - flen) ++ d in
    let zero_index := zero_loop (drop 2 em) 2 0 false in
    let mlen := num - (zero_index + 1) in
    if (nth 0 em 0 =? 0) && (nth 1 em 0 =? 2) && (10 <=? zero_index) && (mlen <=? tlen) then
      to ← buf_write to 0 (drop (Z.to_nat (zero_index + 1)) em);
      Ret (mlen, to)
    else Ret (-1, to).

(** ** The mark *)

Definition SOBJ_KEY_ID : Z := 0xE1E2E3E4.
Definition MAX_SEC_OBJECTS : Z := 50.

Section Engine.
Context {W B : Type} `{TEEC W} `{OpenSSL B}.
(** Whether [char] is signed; whether the [n]-th allocation of that many bytes succeeds,
    and what the block holds. *)
Context (char_signed : bool) (malloc_ok : nat -> Z -> bool) (junk : nat -> Z -> list Z).

Record eng := mkEng { en_sys : W; en_heap : gset Z; en_count : nat }.

Definition sys {A} (m : st W A) : st eng A := fun s =>
  '(a, w) ← m (en_sys s);
  Ret (a, mkEng w (en_heap s) (en_count s)).

Definition e_malloc (n : Z) : st eng (option (Z * list Z)) := fun s =>
  let c := en_count s in
  if malloc_ok c n then
    let b := above (en_heap s) in Ret (Some (b, junk c n), mkEng (en_sys s) ({[b]} ∪ en_heap s) (S c))
  else Ret (None, mkEng (en_sys s) (en_heap s) (S c)).
Definition e_free (b : Z) : st eng unit := fun s =>
  guard_c (bool_decide (b ∈ en_heap s));;
  Ret (tt, mkEng (en_sys s) (en_heap s ∖ {[b]}) (en_count s)).
Definition free_opt (b : option Z) : st eng unit := match b with None => mret tt | Some b => e_free b end.
(** [if (p) free(p);] for each pointer. *)
Fixpoint cleanup (l : list (option Z)) : st eng unit :=
  match l with [] => mret tt | b :: l => free_opt b;; cleanup l end.

(** A character of [priv_exp] as an [int]. *)
Definition char_at (p : list Z) (i : Z) : outcome Z :=
  c ← deref (p !! Z.to_nat (u32 i));
  Ret (if char_signed && (128 <=? c) then c - 256 else c).

(** The inner loop over [i] from 5 to 8. *)
Fixpoint key_id_loop (p : list Z) (rsa_key_len j : Z) (l : list Z) (id : Z) : outcome Z :=
  match l with
  | [] => Ret id
  | i :: l =>
      c ← char_at p (rsa_key_len - i - j * 4);
      key_id_loop p rsa_key_len j l (Z.lor id (u32 (Z.shiftl c (8 * (i - 5)))))
  end.
Definition sobj_key_id (p : list Z) (rsa_key_len j : Z) : outcome Z := key_id_loop p rsa_key_len j [5; 6; 7; 8] 0.

(** What the search comes to: not a key of ours, a failure with its result, or an object;
    [attr] is the block [attrs[0].value] points to. *)
Inductive located := Foreign | Failed (ret : Z) (attr : option Z) | Located (hObject : Z) (attr : option Z).

Definition search_attrs (key_index : Z) : list SK_ATTRIBUTE :=
  [mkSK SK_ATTR_OBJECT_TYPE (Some (le_bytes 4 SK_KEY_PAIR)) 4; mkSK SK_ATTR_KEY_TYPE (Some (le_bytes 4 SKK_RSA)) 4;
   mkSK SK_ATTR_OBJECT_INDEX (Some (le_bytes 4 key_index)) 4].

(** The loop over the handles; each round clears [attrs], and the pointer in it. *)
Fixpoint find_modulus (hs : list Z) (modulus : list Z) (rsa_key_len : Z) (attr : option Z) : st eng located :=
  match hs with
  | [] => mret (Failed (-1) attr)
  | h :: hs =>
      r ← sys (SK_GetObjectAttribute h (Some [mkSK SK_ATTR_MODULUS None 0]) 1);
      if negb (r.1 =? SKR_OK) then find_modulus hs modulus rsa_key_len None
      else
        a ← lift (deref (r.2 ≫= head));
        v ← (if negb (i16 (sa_valueLen a) =? -1) then
               m ← e_malloc (sa_valueLen a);
               mret (match m with Some (b, c) => Some (Some b, Some c) | None => None end)
             else mret (Some (None, sa_value a)));
        match v with
        | None => mret (Failed 0 None)
        | Some (attr, value) =>
            r ← sys (SK_GetObjectAttribute h (Some [mkSK (sa_type a) value (sa_valueLen a)]) 1);
            if negb (r.1 =? SKR_OK) then find_modulus hs modulus rsa_key_len attr
            else
              a ← lift (deref (r.2 ≫= head));
              v ← lift (mem_read (sa_value a) rsa_key_len);
              if bool_decide (v = modulus) then mret (if h =? 0xFFFF then Failed (-1) attr else Located h attr)
              else find_modulus hs modulus rsa_key_len attr
        end
  end.

(** The first half of both functions, from the two numbers of the key on. *)
Definition locate (priv_exp modulus : list Z) (rsa_key_len : Z) : st eng located :=
  id0 ← lift (sobj_key_id priv_exp rsa_key_len 0);
  id1 ← lift (sobj_key_id priv_exp rsa_key_len 1);
  if negb ((id0 =? SOBJ_KEY_ID) && (id1 =? SOBJ_KEY_ID)) then mret Foreign
  else
    c ← lift (char_at priv_exp (rsa_key_len - 1));
    let key_index := u32 c in
    r ← sys (SK_EnumerateObjects (Some (search_attrs key_index)) 3 (Some (zeros MAX_SEC_OBJECTS)) MAX_SEC_OBJECTS true);
    let '(sk_ret, (arr, objCount)) := r in
    if negb (sk_ret =? SKR_OK) then mret (Failed (-1) None)
    else
      n ← lift (deref objCount);
      arr ← lift (deref arr);
      if n =? 0 then mret (Failed (-1) None)
      else find_modulus (take (Z.to_nat n) arr) modulus rsa_key_len None.

(** The two copies of the key's numbers; [k] goes on with them. *)
Definition with_numbers (rsa : RSA B) (to : list Z)
    (k : Z -> Z -> list Z -> list Z -> st eng (Z * list Z)) : st eng (Z * list Z) :=
  let rsa_key_len := RSA_size rsa in
  p ← e_malloc rsa_key_len;
  match p with
  | None => mret (-1, to)
  | Some (b1, priv_exp) =>
      m ← e_malloc rsa_key_len;
      match m with
      | None => cleanup [Some b1];; mret (-1, to)
      | Some (b2, modulus) =>
          priv_exp ← lift (buf_write priv_exp 0 (BN_bn2bin (rsa_d rsa)));
          modulus ← lift (buf_write modulus 0 (BN_bn2bin (rsa_n rsa)));
          k b1 b2 priv_exp modulus
      end
  end.

(** The result and the output buffer. *)
Definition secure_obj_rsa_priv_enc (flen : Z) (from to : list Z) (rsa : RSA B) (padding : Z) : st eng (Z * list Z) :=
  let rsa_key_len := RSA_size rsa in
  with_numbers rsa to (fun b1 b2 priv_exp modulus =>
    l ← locate priv_exp modulus rsa_key_len;
    match l with
    | Foreign => cleanup [Some b2; Some b1];; lift (ssleay_rsa_priv_enc flen from to rsa padding)
    | Failed ret attr => cleanup [Some b2; Some b1; attr];; mret (ret, to)
    | Located h attr =>
        p ← e_malloc rsa_key_len;
        match p with
        | None => cleanup [Some b2; Some b1; attr];; mret (-1, to)
        | Some (b3, padded_from) =>
            x ← lift (if padding =? RSA_PKCS1_PADDING then RSA_padding_add_PKCS1_type_1 padded_from rsa_key_len from flen
                      else Ret (0, padded_from));
            let '(ok, padded_from) := x in
            if ok =? 0 then cleanup [Some b3; Some b2; Some b1; attr];; mret (-1, to)
            else
              r ← sys (SK_Decrypt (Some (mkMech SKM_RSA_PKCS_NOPAD)) h (Some padded_from) (u16 rsa_key_len) (Some to) (Some (u16 rsa_key_len)));
              let '(sk_ret, (out, _)) := r in
              cleanup [Some b3; Some b2; Some b1; attr];;
              mret (if sk_ret =? SKR_OK then rsa_key_len else -1, default to out)
        end
    end).

Definition secure_obj_rsa_priv_dec (flen : Z) (from to : list Z) (rsa : RSA B) (padding : Z) : st eng (Z * list Z) :=
  let rsa_key_len := RSA_size rsa in
  with_numbers rsa to (fun b1 b2 priv_exp modulus =>
    l ← locate priv_exp modulus rsa_key_len;
    match l with
    | Foreign => cleanup [Some b2; Some b1];; lift (ssleay_rsa_priv_dec flen from to rsa padding)
    | Failed ret attr => cleanup [Some b2; Some b1; attr];; mret (ret, to)
    | Located h attr =>
        p ← e_malloc rsa_key_len;
        match p with
        | None => cleanup [Some b2; Some b1; attr];; mret (-1, to)
        | Some (b3, padded_to) =>
            r ← sys (SK_Decrypt (Some (mkMech SKM_RSA_PKCS_NOPAD)) h (Some from) (u16 flen) (Some padded_to) (Some (u16 rsa_key_len)));
            let '(sk_ret, (out, out_len)) := r in
            if negb (sk_ret =? SKR_OK) then cleanup [Some b3; Some b2; Some b1; attr];; mret (-1, to)
            else
              x ← (if padding =? RSA_PKCS1_PADDING then
                     n ← lift (deref out_len);
                     e ← e_malloc rsa_key_len;
                     x ← lift (RSA_padding_check_PKCS1_type_2 (bool_decide (is_Some e)) to rsa_key_len (default padded_to out) n rsa_key_len);
                     free_opt (fst <$> e);;
                     mret x
                   else mret (-1, to));
              cleanup [Some b3; Some b2; Some b1; attr];;
              mret x
        end
    end).
End Engine.
Arguments eng : clear implicits.

(** ** Registration *)

Inductive rsa_function := Ssleay (member : string) | SecureObjPrivEnc | SecureObjPrivDec.

Record RSA_METHOD := mkMeth {
  rm_name : string; rm_pub_enc : option rsa_function; rm_pub_dec : option rsa_function; rm_priv_enc : option rsa_function;
  rm_priv_dec : option rsa_function; rm_mod_exp : option rsa_function; rm_bn_mod_exp : option rsa_function; rm_sign : option rsa_function;
  rm_verify : option rsa_function; rm_keygen : option rsa_function }.

(** The result and [secureobj_rsa]; the arguments are the answers of [ENGINE_set_id],
    [ENGINE_set_name], [ENGINE_set_RSA] and [ENGINE_set_default_RSA]. *)
Definition bind (set_id set_name set_RSA set_default : bool) (meth : RSA_METHOD) : Z * RSA_METHOD :=
  if negb set_id || negb set_name then (0, meth)
  else if negb set_RSA then (0, meth)
  else
    let s x := Some (Ssleay x) in
    let meth := mkMeth "Secure Object RSA Engine" (s "rsa_pub_enc") (s "rsa_pub_dec") (Some SecureObjPrivEnc) (Some SecureObjPrivDec)
                  (s "rsa_mod_exp") (s "bn_mod_exp") None None (s "rsa_keygen") in
    (if set_default then 1 else 0, meth).

(** ** Key files *)

Section KeyFile.
Context {B : Type} `{OpenSSL B}.

(** The stores [priv_key_exp_temp[len - i - j * 4] = SOBJ_KEY_ID >> 8 * (i - 5)]. *)
Fixpoint mark_loop (p : list Z) (len : Z) (l : list (Z * Z)) : outcome (list Z) :=
  match l with
  | [] => Ret p
  | (j, i) :: l =>
      p ← buf_write p (u32 (len - i - j * 4)) [u8 (Z.shiftr SOBJ_KEY_ID (8 * (i - 5)))];
      mark_loop p len l
  end.

(** [generated] is the key of [RSA_generate_key_ex]; [rsa_ok], [bn_ok], [mem_ok], [bio_ok]
    and [copy_ok] are the outcomes of the allocations, [junk] the new block.  A failure
    before [out] is assigned ends in a read of it.  The result is the text of the file with
    a NUL at its end. *)
Definition generate_fake_private_RSA_key (rsa_ok bn_ok mem_ok bio_ok copy_ok : bool) (junk : list Z) (generated : RSA B)
    (obj_id : Z) (pub_exp modulus : list Z) : outcome (option (list Z)) :=
  guard_c (rsa_ok && bn_ok);;
  e ← deref (BN_bin2bn pub_exp);
  n ← deref (BN_bin2bn modulus);
  let len := RSA_size (mkRSA n e (rsa_d generated) (rsa_crt generated)) in
  guard_c mem_ok;;
  p ← buf_write junk 0 (BN_bn2bin (rsa_d generated));
  p ← buf_write p 0 [0x10];
  p ← buf_write p (u32 (len - 1)) [u8 obj_id];
  p ← mark_loop p len [(0, 5); (0, 6); (0, 7); (0, 8); (1, 5); (1, 6); (1, 7); (1, 8)];
  d ← deref (BN_bin2bn p);
  Ret (if bio_ok && copy_ok then Some (PEM_write_bio_RSAPrivateKey (mkRSA n e d (rsa_crt generated)) ++ [0]) else None).
End KeyFile.
