(* ===== verification/EngTheorems.v ===== *)
(** * Theorems on the OpenSSL engine

    A key file the command line tool writes for a stored key makes the engine use that
    key, and only such a file does. *)

From stdpp Require Import base numbers list gmap strings.
From S2P Require Import Prelude SkTypes AttrCodec Wires TeeClient SkLib SkLibTheorems LibTeec LibTeecTheorems.
From S2P Require Import TeeApi TeeRam TaStorage TaCrypto TeeLogic TaTheorems TaQueryTheorems TaFindTheorems TaCryptoTheorems.
From S2P Require Import Link ObjectStore Refinement RefinementReads Stack.
From S2P Require Import P11Types P11State P11SignTheorems P11Stack EngSobj.

(** ** OpenSSL *)

(** The bytes of a number have no leading zero. *)
Fixpoint strip (bs : list Z) : list Z :=
  match bs with
  | [] => []
  | b :: r => if b =? 0 then strip r else bs
  end.

Class OpenSSL_laws (B : Type) `{OpenSSL B} := {
  bin2bn_law bs b : BN_bin2bn bs = Some b -> BN_bn2bin b = strip bs;
  pem_law r : PEM_read_PrivateKey (PEM_write_bio_RSAPrivateKey r) = Some r }.

Lemma strip_head b bs : b <> 0 -> strip (b :: bs) = b :: bs.
Proof. intros Hb. cbn [strip]. by rewrite (proj2 (Z.eqb_neq _ _) Hb). Qed.

(** ** The mark *)

Lemma buf_write_byte (p : list Z) k b : (k < length p)%nat -> buf_write p (Z.of_nat k) [b] = Ret (<[k:=b]> p).
Proof.
  intros Hk. rewrite buf_write_ret by (cbn [length]; lia). f_equal. unfold splice. rewrite Nat2Z.id, insert_take_drop by done.
  cbn [length app]. by rewrite Nat.add_1_r.
Qed.

(** The byte of the mark that belongs at the end minus [i] and [j] words. *)
Definition mark_byte (i : Z) : Z := u8 (Z.shiftr SOBJ_KEY_ID (8 * (i - 5))).
Definition mark_places : list (Z * Z) := [(0, 5); (0, 6); (0, 7); (0, 8); (1, 5); (1, 6); (1, 7); (1, 8)].

(** A private exponent of a key file for the object [id]. *)
Definition marked (p : list Z) (id : Z) : Prop :=
  head p = Some 0x10 /\ p !! (length p - 1)%nat = Some (u8 id) /\
  Forall (fun ji => p !! Z.to_nat (Z.of_nat (length p) - ji.2 - ji.1 * 4) = Some (mark_byte ji.2)) mark_places.

Lemma mark_loop_ret p len : Z.of_nat (length p) = len -> len < 2 ^ 32 -> forall l, Forall (fun ji => 0 <= len - ji.2 - ji.1 * 4 < len) l ->
  exists q, mark_loop p len l = Ret q /\ length q = length p /\
    (forall k, (forall ji, ji ∈ l -> k <> Z.to_nat (len - ji.2 - ji.1 * 4)) -> q !! k = p !! k) /\
    (NoDup ((fun ji => Z.to_nat (len - ji.2 - ji.1 * 4)) <$> l) ->
     Forall (fun ji => q !! Z.to_nat (len - ji.2 - ji.1 * 4) = Some (mark_byte ji.2)) l).
Proof.
  intros Hp Hlen l. revert p Hp. induction l as [|[j i] l IH]; intros p Hp Hl; [by exists p |].
  apply Forall_cons in Hl as [Hji Hl]. cbn [fst snd] in Hji. cbn [mark_loop]. set (k := Z.to_nat (len - i - j * 4)).
  assert (Hk : u32 (len - i - j * 4) = Z.of_nat k) by (rewrite u32_small by lia; lia).
  rewrite Hk, buf_write_byte by lia. cbn [mbind outcome_bind]. fold (mark_byte i).
  destruct (IH (<[k:=mark_byte i]> p)) as (q & -> & Hq & Hother & Hmark); [by rewrite length_insert | done |].
  rewrite length_insert in Hq. exists q. split; [done |]. split; [done |]. split.
  - intros n Hn. rewrite Hother by (intros; apply Hn; by constructor). apply list_lookup_insert_ne. intros Hkn. apply (Hn (j, i)); [constructor | by subst n].
  - rewrite fmap_cons. intros [Hnin Hnd]%NoDup_cons. constructor; [| by apply Hmark]. cbn [fst snd]. fold k. rewrite Hother.
    + apply list_lookup_insert_eq. lia.
    + intros ji Hin Hji'. apply Hnin. apply list_elem_of_fmap. exists ji. by split.
Qed.

Lemma mark_places_nodup len : 12 <= len -> NoDup ((fun ji : Z * Z => Z.to_nat (len - ji.2 - ji.1 * 4)) <$> mark_places).
Proof.
  intros Hlen. unfold mark_places. rewrite !fmap_cons, fmap_nil. cbn [fst snd].
  repeat (constructor; [rewrite ?elem_of_cons, ?elem_of_nil; lia |]). constructor.
Qed.

Section Mark.
Context {B : Type} `{HO : OpenSSL B, HOL : !OpenSSL_laws B}.

(** The file written for an object has its public numbers and the mark. *)
Lemma fake_key_marked junk (g : RSA B) id pub_exp modulus text :
  generate_fake_private_RSA_key true true true true true junk g id pub_exp modulus = Ret (Some text) ->
  length junk = length modulus -> strip modulus = modulus -> 13 <= Z.of_nat (length modulus) < 2 ^ 32 ->
  exists r body, text = body ++ [0] /\ PEM_read_PrivateKey body = Some r /\ BN_bn2bin (rsa_n r) = modulus /\
    length (BN_bn2bin (rsa_d r)) = length modulus /\ marked (BN_bn2bin (rsa_d r)) id.
Proof.
  intros E Hj Hs Hlen. unfold generate_fake_private_RSA_key in E. cbn [andb guard_c mbind outcome_bind] in E.
  destruct (BN_bin2bn pub_exp) as [e|]; [| done]. cbn [deref mbind outcome_bind] in E.
  destruct (BN_bin2bn modulus) as [n|] eqn:En; [| done]. cbn [deref mbind outcome_bind] in E.
  pose proof (bin2bn_law _ _ En) as Hn. rewrite Hs in Hn.
  unfold RSA_size in E. cbn [rsa_n] in E. rewrite Hn in E. set (len := Z.of_nat (length modulus)) in *.
  destruct (buf_write junk 0 _) as [p1|] eqn:E1; [| done]. cbn [mbind outcome_bind] in E. apply buf_write_length in E1.
  rewrite (buf_write_byte p1 0) in E by lia. cbn [mbind outcome_bind] in E.
  replace (u32 (len - 1)) with (Z.of_nat (length modulus - 1)) in E by (rewrite u32_small by lia; lia).
  rewrite buf_write_byte in E by (rewrite length_insert; lia). cbn [mbind outcome_bind] in E.
  set (p3 := <[_:=_]> _) in E. assert (Hp3 : Z.of_nat (length p3) = len) by (unfold p3; rewrite !length_insert; lia).
  destruct (mark_loop_ret p3 len Hp3 ltac:(lia) mark_places) as (q & Eq & Hq & Hother & Hmark).
  { repeat constructor; cbn [fst snd]; lia. }
  fold mark_places in E. rewrite Eq in E. cbn [mbind outcome_bind] in E.
  destruct (BN_bin2bn q) as [d|] eqn:Ed; [| done]. cbn [deref mbind outcome_bind] in E. injection E as <-.
  pose proof (bin2bn_law _ _ Ed) as Hd.
  assert (Hq0 : q !! 0%nat = Some 0x10).
  { rewrite Hother by (intros ji Hin; repeat (apply elem_of_cons in Hin as [-> | Hin]; [cbn [fst snd]; lia |]); by apply elem_of_nil in Hin).
    unfold p3. rewrite list_lookup_insert_ne by lia. apply list_lookup_insert_eq. lia. }
  assert (Hsq : strip q = q) by (destruct q; [done |]; injection Hq0 as ->; by apply strip_head). rewrite Hsq in Hd.
  exists (mkRSA n e d (rsa_crt g)), (PEM_write_bio_RSAPrivateKey (mkRSA n e d (rsa_crt g))). rewrite pem_law. cbn [rsa_n rsa_d]. rewrite Hd.
  split_and!; [done | done | done | lia |]. assert (Hql : Z.of_nat (length q) = len) by lia. split_and!.
  - by destruct q; [| injection Hq0 as ->].
  - rewrite Hother by (intros ji Hin; repeat (apply elem_of_cons in Hin as [-> | Hin]; [cbn [fst snd]; lia |]); by apply elem_of_nil in Hin).
    unfold p3. replace (length q - 1)%nat with (length modulus - 1)%nat by lia. apply list_lookup_insert_eq. rewrite length_insert. lia.
  - rewrite Hql. apply Hmark, mark_places_nodup. lia.
Qed.

(** The engine recognises it where [char] is unsigned; where it is signed, the sign of the
    first byte covers the others. *)
Lemma mark_recognised p id j : marked p id -> 13 <= Z.of_nat (length p) < 2 ^ 32 -> j = 0 \/ j = 1 ->
  sobj_key_id false p (Z.of_nat (length p)) j = Ret SOBJ_KEY_ID.
Proof.
  intros (_ & _ & Hm) Hl Hj. unfold mark_places in Hm. rewrite !Forall_cons in Hm. cbn [fst snd] in Hm.
  destruct Hm as (M1 & M2 & M3 & M4 & M5 & M6 & M7 & M8 & _). unfold sobj_key_id. cbn [key_id_loop]. unfold char_at.
  destruct Hj as [-> | ->]; rewrite !u32_small by lia; rewrite ?M1, ?M2, ?M3, ?M4, ?M5, ?M6, ?M7, ?M8; reflexivity.
Qed.
Lemma mark_signed_char p id : marked p id -> 13 <= Z.of_nat (length p) < 2 ^ 32 ->
  sobj_key_id true p (Z.of_nat (length p)) 0 = Ret 0xffffffe4.
Proof.
  intros (_ & _ & Hm) Hl. unfold mark_places in Hm. rewrite !Forall_cons in Hm. cbn [fst snd] in Hm.
  destruct Hm as (M1 & M2 & M3 & M4 & _). unfold sobj_key_id. cbn [key_id_loop]. unfold char_at.
  rewrite !u32_small by lia. rewrite ?M1, ?M2, ?M3, ?M4. reflexivity.
Qed.
End Mark.

(** ** The heap *)

(** The heap after a search that passed [n] other objects: a block for each of them that
    nothing points to any more, and the one of the object found. *)
Definition lost (n : nat) (b : Z) (X Y : gset Z) : Prop :=
  exists L, Y = {[b]} ∪ (L ∪ X) /\ L ## X /\ b ∉ L ∪ X /\ size L = n.

Lemma lost_none X : lost 0 (above X) X ({[above X]} ∪ X).
Proof. pose proof (above_not_in X). exists ∅. split_and!; [set_solver | set_solver | set_solver | apply size_empty]. Qed.
Lemma lost_more n b X Y : lost n b ({[above X]} ∪ X) Y -> lost (S n) b X Y.
Proof.
  pose proof (above_not_in X). intros (L & -> & Hd & Hb & Hsz). exists ({[above X]} ∪ L). split_and!; [set_solver | set_solver | set_solver |].
  rewrite size_union by set_solver. by rewrite size_singleton, Hsz.
Qed.

(** Blocks in use are freed. *)
Lemma cleanup_run {W} (bs : list Z) : forall s : eng W, NoDup bs -> Forall (.∈ en_heap s) bs ->
  cleanup (Some <$> bs) s = Ret (tt, mkEng (en_sys s) (en_heap s ∖ list_to_set bs) (en_count s)).
Proof.
  induction bs as [|b bs IH]; intros s Hnd Hin.
  - replace (en_heap s ∖ list_to_set []) with (en_heap s) by set_solver. by destruct s.
  - apply NoDup_cons in Hnd as [Hb Hnd]. apply Forall_cons in Hin as [Hb' Hin]. rewrite fmap_cons. cbn [cleanup free_opt].
    rewrite (st_run _ _ s tt (mkEng (en_sys s) (en_heap s ∖ {[b]}) (en_count s))) by (unfold e_free; by rewrite bool_decide_true).
    rewrite IH; cbn [en_sys en_heap en_count]; [| done |].
    { by replace (en_heap s ∖ list_to_set (b :: bs)) with (en_heap s ∖ {[b]} ∖ list_to_set bs) by set_solver. }
    apply Forall_forall. intros x Hx. apply (proj1 (Forall_forall _ _) Hin) in Hx as ?. set_solver.
Qed.

(** [n] blocks more. *)
Definition leaked (n : nat) (X Y : gset Z) : Prop := exists L, Y = L ∪ X /\ L ## X /\ size L = n.

(** The blocks of a call: two for the numbers of the key, those of the search, and one more. *)
Lemma blocks_freed n b X Y : let b1 := above X in let b2 := above ({[b1]} ∪ X) in
  lost n b ({[b2]} ∪ ({[b1]} ∪ X)) Y -> let b3 := above Y in
  NoDup [b3; b2; b1; b] /\ Forall (.∈ {[b3]} ∪ Y) [b3; b2; b1; b] /\ leaked n X (({[b3]} ∪ Y) ∖ list_to_set [b3; b2; b1; b]).
Proof.
  intros b1 b2 (L & HY & Hd & Hb & Hsz) b3. pose proof (above_not_in X) as H1. pose proof (above_not_in ({[b1]} ∪ X)) as H2. pose proof (above_not_in Y) as H3.
  fold b1 in H1. fold b2 in H2. fold b3 in H3. clearbody b1 b2 b3. subst Y. split_and!.
  - repeat (constructor; [set_solver |]). constructor.
  - repeat (constructor; [set_solver |]). constructor.
  - exists L. split_and!; [| set_solver | done]. apply set_eq. intros z. cbn [list_to_set]. set_solver.
Qed.

(** ** The search on the stack *)

Section OnStack.
Context {W S K B : Type} `{HD : TeeDriver W, HS : TEE S, HC : Crypto K, HL : !TEE_laws S K}.
Context `{HDL : !Driver_laws W, HLL : !Link_laws W S K}.
Context `{HO : OpenSSL B, HOL : !OpenSSL_laws B}.
(** Nothing below fails: neither the system nor an allocation. *)
Context (junk : nat -> Z -> list Z) (Hjunk : forall c n, 0 <= n -> Z.of_nat (length (junk c n)) = n).
Context (malloc_ok : nat -> Z -> bool) (Hmem : forall c n, malloc_ok c n = true).
Context (Hup : forall rc, ~ denied (W := W) (S := S) (K := K) rc).

Lemma sys_run {A} (m : st W A) s a w : m (en_sys s) = Ret (a, w) -> sys m s = Ret (a, mkEng w (en_heap s) (en_count s)).
Proof. intros E. unfold sys. by rewrite E. Qed.

(** The modulus stored with an object. *)
Definition modulus_of (x : aobj K) : list Z :=
  match find_wire SK_ATTR_MODULUS (ao_attrs x) with Some m => default [] (w_payload m) | None => [] end.

Lemma modulus_wire a h x : known a h x -> (0 < length (modulus_of x))%nat ->
  exists m, find_wire SK_ATTR_MODULUS (ao_attrs x) = Some m /\ w_type m = SK_ATTR_MODULUS /\ w_payload m = Some (modulus_of x) /\
    w_len m = Z.of_nat (length (modulus_of x)) /\ 0 < w_len m < 2 ^ 15.
Proof.
  intros Hk Hl. unfold modulus_of in *. destruct (find_wire _ _) as [m|] eqn:Em; [| cbn in Hl; lia].
  destruct (known_wire _ _ _ _ _ Hk Em) as (Ht & Hlen & Hp). exists m. destruct (w_payload m) as [v|]; cbn [default from_option id length] in *; [| lia].
  split_and!; try done; lia.
Qed.

(** A read of attributes the object has. *)
Lemma stack_reads a (w : W) h x attrs l : represents (view (secure w)) a -> a_objs a !! h = Some x ->
  legal (K := K) (CGet h attrs) -> read_attrs (ao_attrs x) attrs = inl l ->
  exists w', SkLib.SK_GetObjectAttribute h (Some attrs) (Z.of_nat (length attrs)) w = Ret ((SKR_OK, Some l), w') /\ represents (view (secure w')) a.
Proof.
  intros HR Hx Hleg Hl. destruct (refines_all _ a _ HR Hleg w eq_refl) as (r & w1 & E & a1 & Hst & HR1).
  cbn [perform] in E. apply st_bind_inv in E as ([rc l'] & w2 & E & [= <- <-]). exists w2.
  inversion Hst as [| | | | | | | |? ? x' l2 Hx' Hl2|? ? rc' Hc| | | | | |]; subst.
  - rewrite Hx in Hx'. injection Hx' as <-. rewrite Hl in Hl2. injection Hl2 as <-. by split.
  - destruct Hc as [Hd | [[Hn _] | (x' & e & Hx' & He & _)]]; [by apply Hup in Hd | congruence |].
    rewrite Hx in Hx'. injection Hx' as <-. congruence.
Qed.

Lemma malloc_run s n : e_malloc malloc_ok junk n s =
  Ret (Some (above (en_heap s), junk (en_count s) n), mkEng (en_sys s) ({[above (en_heap s)]} ∪ en_heap s) (Datatypes.S (en_count s))) (A := _ * eng W).
Proof. unfold e_malloc. by rewrite Hmem. Qed.

(** One round of the search: a block for the modulus, which is compared. *)
Lemma round_run a h x hs md attr (s : eng W) : represents (view (secure (en_sys s))) a -> a_objs a !! h = Some x ->
  (0 < length md <= length (modulus_of x))%nat ->
  exists w', represents (view (secure w')) a /\
    find_modulus malloc_ok junk (h :: hs) md (Z.of_nat (length md)) attr s =
    (if bool_decide (take (length md) (modulus_of x) = md)
     then mret (if h =? 0xFFFF then Failed (-1) (Some (above (en_heap s))) else Located h (Some (above (en_heap s))))
     else find_modulus malloc_ok junk hs md (Z.of_nat (length md)) (Some (above (en_heap s))))
      (mkEng w' ({[above (en_heap s)]} ∪ en_heap s) (Datatypes.S (en_count s))).
Proof.
  intros HR Hx Hl. pose proof (rep_known _ _ _ _ HR Hx) as Hk. pose proof Hk as (Hh & _).
  destruct (modulus_wire a h x Hk ltac:(lia)) as (m & Em & Ht & Hp & Hlen & Hb).
  destruct (stack_reads a (en_sys s) h x [mkSK SK_ATTR_MODULUS None 0] [mkSK SK_ATTR_MODULUS None (w_len m)] HR Hx) as (w1 & E1 & HR1).
  { split_and!; [lia | lia | decide_c | by repeat constructor]. }
  { cbn [read_attrs]. unfold read_attr. cbn [sa_type sa_valueLen sa_value]. by rewrite Em. }
  pose proof (Hjunk (en_count s) (w_len m) ltac:(lia)) as Hj.
  destruct (stack_reads a w1 h x [mkSK SK_ATTR_MODULUS (Some (junk (en_count s) (w_len m))) (w_len m)]
              [mkSK SK_ATTR_MODULUS (Some (modulus_of x)) (w_len m)] HR1 Hx) as (w2 & E2 & HR2).
  { apply reads_legal; [lia | | lia | lia]. repeat (first [by left | right]). }
  { cbn [read_attrs]. unfold read_attr. cbn [sa_type sa_valueLen]. rewrite Em, (proj2 (Z.eqb_neq _ _)), Z.ltb_irrefl by lia.
    unfold fill. cbn [sa_value]. rewrite Ht, Hp. cbn [fmap option_fmap option_map]. by rewrite drop_ge, app_nil_r by lia. }
  exists w2. split; [done |]. cbn [find_modulus]. change (Z.of_nat (length [_])) with 1 in E1, E2.
  rewrite (st_run _ _ _ _ _ (sys_run _ _ _ _ E1)). cbn [fst snd]. rewrite Z.eqb_refl. cbn [negb].
  rewrite (st_run _ _ _ (mkSK SK_ATTR_MODULUS None (w_len m)) (mkEng w1 (en_heap s) (en_count s))) by done. cbn [sa_valueLen sa_type sa_value].
  rewrite i16_small by lia. rewrite (proj2 (Z.eqb_neq (w_len m) (-1))) by lia. cbn [negb].
  rewrite (st_run _ _ _ (Some (Some (above (en_heap s)), Some (junk (en_count s) (w_len m))))
    (mkEng w1 ({[above (en_heap s)]} ∪ en_heap s) (Datatypes.S (en_count s)))) by (rewrite (st_run _ _ _ _ _ (malloc_run _ _)); done).
  rewrite (st_run _ _ _ _ _ (sys_run _ (mkEng w1 ({[above (en_heap s)]} ∪ en_heap s) (Datatypes.S (en_count s))) _ _ E2)). cbn [fst snd en_heap en_count]. rewrite Z.eqb_refl. cbn [negb].
  rewrite (st_run _ _ _ (mkSK SK_ATTR_MODULUS (Some (modulus_of x)) (w_len m)) (mkEng w2 ({[above (en_heap s)]} ∪ en_heap s) (Datatypes.S (en_count s)))) by done.
  rewrite (st_run _ _ _ (take (length md) (modulus_of x)) (mkEng w2 ({[above (en_heap s)]} ∪ en_heap s) (Datatypes.S (en_count s)))).
  - by case_bool_decide.
  - cbn [sa_value]. unfold mem_read, lift. rewrite (proj2 (Z.eqb_neq _ _)) by lia. cbn [deref mbind outcome_bind].
    rewrite buf_read_ret by lia. by rewrite drop_0, Nat2Z.id.
Qed.

(** The objects that answer the search for an identifier, and those whose modulus begins with
    the key's: the code compares as many bytes as the key's modulus has. *)
Definition candidates (a : astate K) (id : Z) : list Z := matches a (client_wire <$> search_attrs id).
Definition hits (a : astate K) (md : list Z) (h : Z) : bool :=
  match a_objs a !! h with Some x => bool_decide (take (length md) (modulus_of x) = md) | None => false end.

(** Few enough, none with the handle that stands for none, and none with a shorter modulus. *)
Definition searchable (a : astate K) (id : Z) (md : list Z) : Prop :=
  Z.of_nat (length (candidates a id)) <= MAX_SEC_OBJECTS /\
  Forall (fun h => h <> 0xFFFF /\ exists x, a_objs a !! h = Some x /\ (length md <= length (modulus_of x))%nat) (candidates a id).

Lemma first_hit (f : Z -> bool) l : (exists h, h ∈ l /\ f h = true) ->
  exists pre h post, l = pre ++ h :: post /\ Forall (fun h => f h = false) pre /\ f h = true.
Proof.
  induction l as [|y l IH]; intros (h & Hin & Hf); [by apply elem_of_nil in Hin |]. destruct (f y) eqn:Ey; [by exists [], y, l |].
  destruct IH as (pre & h' & post & -> & Hp & Hh).
  { exists h. apply elem_of_cons in Hin as [-> | ?]; [congruence | done]. }
  exists (y :: pre), h', post. split_and!; [done | by constructor | done].
Qed.

Lemma find_run a md h x post : a_objs a !! h = Some x -> hits a md h = true -> h <> 0xFFFF -> (0 < length md <= length (modulus_of x))%nat ->
  forall pre attr (s : eng W), represents (view (secure (en_sys s))) a ->
  Forall (fun h => hits a md h = false) pre -> Forall (fun h => exists x, a_objs a !! h = Some x /\ (length md <= length (modulus_of x))%nat) pre ->
  exists s' b, find_modulus malloc_ok junk (pre ++ h :: post) md (Z.of_nat (length md)) attr s = Ret (Located h (Some b), s') /\
    represents (view (secure (en_sys s'))) a /\ lost (length pre) b (en_heap s) (en_heap s').
Proof.
  intros Hx Hh Hne Hl. unfold hits in Hh. rewrite Hx in Hh. induction pre as [|h0 pre IH]; intros attr s HR Hp Hc.
  - destruct (round_run a h x post md attr s HR Hx Hl) as (w & HR' & E). rewrite Hh, (proj2 (Z.eqb_neq _ _) Hne) in E.
    eexists _, _. split; [exact E |]. split; [done |]. apply lost_none.
  - apply Forall_cons in Hp as [Hp0 Hp]. apply Forall_cons in Hc as [(y & Hy & Hly) Hc].
    destruct (round_run a h0 y (pre ++ h :: post) md attr s HR Hy ltac:(lia)) as (w & HR' & E). cbn [app]. rewrite E.
    unfold hits in Hp0. rewrite Hy in Hp0. rewrite Hp0. set (s1 := mkEng _ _ _).
    destruct (IH (Some (above (en_heap s))) s1 HR' Hp Hc) as (s' & b & E' & HR'' & Hlost). exists s', b. split; [done |]. split; [done |].
    by apply lost_more.
Qed.

(** The handles of the objects that match a template. *)
Lemma stack_finds a (w : W) attrs max : represents (view (secure w)) a -> attrs_ok attrs -> attrs <> [] -> 0 < max < 2 ^ 32 ->
  exists ids w', ids ≡ₚ matches a (client_wire <$> attrs) /\
    SkLib.SK_EnumerateObjects (Some attrs) (Z.of_nat (length attrs)) (Some (zeros max)) max true w =
      Ret ((SKR_OK, (Some (take (Z.to_nat max) ids ++ drop (length (take (Z.to_nat max) ids)) (zeros max)), Some (Z.of_nat (length (take (Z.to_nat max) ids))))), w') /\
    represents (view (secure w')) a.
Proof.
  intros HR Hok Hne Hmax. pose proof (zeros_len max ltac:(lia)) as Hz.
  destruct (refines_all (CFind attrs (zeros max)) a _ HR) with (w := w) as (r & w1 & E & a1 & Hst & HR1); [by split; [right | lia] | done |].
  cbn [perform] in E. rewrite Hz in E. unfold template in E. destruct attrs as [|at0 attrs]; [done |].
  apply st_bind_inv in E as ([rc [arr n]] & w2 & E & [= <- <-]). inversion Hst; subst; [| by destruct (Hup rc)].
  exists ids, w2. split; [done |]. split; [| done]. rewrite E. subst hs. replace (length (zeros max)) with (Z.to_nat max) by lia. done.
Qed.

Lemma search_attrs_ok id : attrs_ok (search_attrs id).
Proof.
  unfold search_attrs. split_and!; [| done |].
  - repeat (constructor; [split_and!; cbn -[le_bytes]; rewrite ?length_le_bytes; try lia; done |]). constructor.
  - unfold_ent. cbn [length values_size sa_valueLen]. decide_c.
Qed.

(** The mark leads to an object with the identifier and the modulus. *)
Lemma locate_run a id p md (s : eng W) h0 : represents (view (secure (en_sys s))) a ->
  marked p id -> length p = length md -> 13 <= Z.of_nat (length md) < 2 ^ 15 -> 0 <= id < 256 ->
  searchable a id md -> h0 ∈ candidates a id -> hits a md h0 = true ->
  exists s' b h n, locate false malloc_ok junk p md (Z.of_nat (length md)) s = Ret (Located h (Some b), s') /\
    represents (view (secure (en_sys s'))) a /\ h ∈ candidates a id /\ hits a md h = true /\
    lost n b (en_heap s) (en_heap s') /\ (n < length (candidates a id))%nat.
Proof.
  intros HR Hm Hpl Hlen Hid [Hfew Hall] Hin Hhit. unfold locate. rewrite <- Hpl.
  rewrite (st_run _ _ s SOBJ_KEY_ID s) by (unfold lift; rewrite (mark_recognised p id) by (first [done | lia | auto]); done).
  rewrite (st_run _ _ s SOBJ_KEY_ID s) by (unfold lift; rewrite (mark_recognised p id) by (first [done | lia | auto]); done).
  rewrite Z.eqb_refl. cbn [andb negb].
  rewrite (st_run _ _ s id s).
  2: { unfold lift, char_at. rewrite u32_small by lia. replace (Z.to_nat _) with (length p - 1)%nat by lia. destruct Hm as (_ & -> & _).
       unfold u8. rewrite Z.mod_small by lia. done. }
  rewrite (u32_small id) by lia.
  destruct (stack_finds a (en_sys s) (search_attrs id) MAX_SEC_OBJECTS HR (search_attrs_ok id)) as (ids & w1 & Hids & E1 & HR1); [done | done |].
  fold (candidates a id) in Hids. change (Z.of_nat (length (search_attrs id))) with 3 in E1.
  assert (Hlen' : length ids = length (candidates a id)) by (by rewrite Hids). unfold MAX_SEC_OBJECTS in Hfew.
  rewrite take_ge in E1 by (unfold MAX_SEC_OBJECTS; lia).
  rewrite (st_run _ _ _ _ _ (sys_run _ _ _ _ E1)). cbn [fst snd]. rewrite Z.eqb_refl. cbn [negb].
  set (s1 := mkEng w1 (en_heap s) (en_count s)). rewrite (st_run _ _ s1 (Z.of_nat (length ids)) s1) by done. rewrite (st_run _ _ s1 (ids ++ drop (length ids) (zeros MAX_SEC_OBJECTS)) s1) by done.
  destruct (first_hit (hits a md) ids) as (pre & h & post & -> & Hpre & Hh); [exists h0; by rewrite Hids |].
  rewrite (proj2 (Z.eqb_neq _ _)) by (rewrite length_app; cbn [length]; lia). rewrite Nat2Z.id, take_app_length.
  assert (Hall' : Forall (fun h => h <> 0xFFFF /\ exists x, a_objs a !! h = Some x /\ (length md <= length (modulus_of x))%nat) (pre ++ h :: post)) by (by rewrite Hids).
  apply Forall_app in Hall' as [Hp' [[Hne (x & Hx & Hl)] _]%Forall_cons].
  destruct (find_run a md h x post Hx Hh Hne ltac:(lia) pre None s1 HR1 Hpre) as (s' & b & E & HR' & Hlost); [by eapply Forall_impl; [exact Hp' | intros ? [_ ?]] |].
  exists s', b, h, (length pre). rewrite Hpl. split; [exact E |]. split; [done |]. split; [rewrite <- Hids; set_solver |]. split; [done |]. split; [done |].
  rewrite length_app in Hlen'. cbn [length] in Hlen'. lia.
Qed.

(** A private-key operation with a stored key. *)
Lemma stack_decrypts a (w : W) h x d out sig : represents (view (secure w)) a -> a_objs a !! h = Some x ->
  0 < Z.of_nat (length d) < 2 ^ 16 -> 0 < Z.of_nat (length out) < 2 ^ 16 -> (forall k : K, decrypt_of TEE_ALG_RSA_NOPAD k d <> Undef) ->
  decrypt_of TEE_ALG_RSA_NOPAD (ao_key x) d = Ret (Some sig) -> Z.of_nat (length sig) <= Z.of_nat (length out) ->
  exists w', SkLib.SK_Decrypt (Some (mkMech SKM_RSA_PKCS_NOPAD)) h (Some d) (Z.of_nat (length d)) (Some out) (Some (Z.of_nat (length out))) w =
      Ret ((SKR_OK, (Some (filled_with sig out), Some (Z.of_nat (length sig)))), w') /\ represents (view (secure w')) a.
Proof.
  intros HR Hx Hd Hout Hdef Hsig Hlen. pose proof (rep_known _ _ _ _ HR Hx) as (Hh & _).
  assert (Hleg : legal (K := K) (CDecrypt (mkMech SKM_RSA_PKCS_NOPAD) h d out)) by (split_and!; [lia.. |]; intros k alg [= <-]; apply Hdef).
  destruct (token_runs a w _ _ HR Hleg eq_refl) as (rc & o & n & w' & a' & E & Hst & HR').
  exists w'. rewrite E. inversion Hst as [| | | | | | | | | | | |? ? ? ? s0 Hc Hl|? ? ? ? rc' Hc| |]; subst.
  - destruct Hc as (o' & alg & Ho & [= <-] & Hop). rewrite Hx in Ho. injection Ho as <-. rewrite Hsig in Hop. injection Hop as <-. by split.
  - exfalso. eapply crypt_succeeds in Hc; [done | apply Hup | done | reflexivity | done | done].
Qed.

(** The copies of the numbers of a key that has the size of its modulus. *)
Lemma with_numbers_run (rsa : RSA B) to k (s : eng W) : length (BN_bn2bin (rsa_d rsa)) = length (BN_bn2bin (rsa_n rsa)) ->
  let b1 := above (en_heap s) in let b2 := above ({[b1]} ∪ en_heap s) in
  with_numbers malloc_ok junk rsa to k s =
    k b1 b2 (BN_bn2bin (rsa_d rsa)) (BN_bn2bin (rsa_n rsa)) (mkEng (en_sys s) ({[b2]} ∪ ({[b1]} ∪ en_heap s)) (Datatypes.S (Datatypes.S (en_count s)))).
Proof.
  intros Hl b1 b2. unfold with_numbers, RSA_size. set (len := Z.of_nat _).
  assert (Hw : forall c v, Z.of_nat (length v) = len -> buf_write (junk c len) 0 v = Ret v).
  { intros c v Hv. pose proof (Hjunk c len ltac:(lia)). rewrite buf_write_ret by lia. unfold splice. cbn [Z.to_nat take app].
    by rewrite drop_ge, app_nil_r by lia. }
  rewrite (st_run _ _ _ _ _ (malloc_run _ _)). rewrite (st_run _ _ _ _ _ (malloc_run _ _)). cbn [en_heap en_count en_sys]. fold b1. fold b2.
  rewrite (st_run _ _ _ (BN_bn2bin (rsa_d rsa)) (mkEng (en_sys s) ({[b2]} ∪ ({[b1]} ∪ en_heap s)) (Datatypes.S (Datatypes.S (en_count s)))))
    by (unfold lift; rewrite Hw by lia; done).
  by rewrite (st_run _ _ _ (BN_bn2bin (rsa_n rsa)) (mkEng (en_sys s) ({[b2]} ∪ ({[b1]} ∪ en_heap s)) (Datatypes.S (Datatypes.S (en_count s)))))
    by (unfold lift; rewrite Hw by lia; done).
Qed.

Lemma padding_run len to d : Z.of_nat (length to) = len -> Z.of_nat (length d) <= len - 11 -> len < 2 ^ 32 ->
  RSA_padding_add_PKCS1_type_1 to len d (Z.of_nat (length d)) = Ret (1, pkcs1_type1 len d).
Proof.
  intros Hto Hd Hlen. unfold RSA_padding_add_PKCS1_type_1, RSA_PKCS1_PADDING_SIZE. rewrite (proj2 (Z.ltb_ge _ _)) by lia.
  rewrite u32_small, buf_read_ret by lia. cbn [mbind outcome_bind]. change (Z.to_nat 0) with 0%nat. rewrite drop_0, Nat2Z.id, take_ge by lia.
  fold (pkcs1_type1 len d). assert (Hb : Z.of_nat (length (pkcs1_type1 len d)) = len) by (unfold pkcs1_type1; len).
  rewrite buf_write_ret by lia. unfold splice. cbn [Z.to_nat take app mbind outcome_bind]. by rewrite drop_ge, app_nil_r by lia.
Qed.

(** A key file, its key, and a stored key it stands for. *)
Definition stands_for (a : astate K) (id : Z) (md : list Z) (rsa : RSA B) : Prop :=
  (exists junkb g pub_exp body, length junkb = length md /\
     generate_fake_private_RSA_key true true true true true junkb g id pub_exp md = Ret (Some (body ++ [0])) /\
     PEM_read_PrivateKey body = Some rsa) /\
  strip md = md /\ 13 <= Z.of_nat (length md) < 2 ^ 15 /\ 0 <= id < 256 /\
  searchable a id md /\ exists h, h ∈ candidates a id /\ hits a md h = true.

Lemma stands_key a id md rsa : stands_for a id md rsa ->
  BN_bn2bin (rsa_n rsa) = md /\ length (BN_bn2bin (rsa_d rsa)) = length md /\ marked (BN_bn2bin (rsa_d rsa)) id.
Proof.
  intros ((junkb & g & e & body & Hj & E & Hpem) & Hs & Hlen & _).
  destruct (fake_key_marked _ _ _ _ _ _ E Hj Hs ltac:(lia)) as (r & body' & Hb & Hr & Hn & Hd & Hm).
  apply app_inj_tail in Hb as [-> _]. rewrite Hpem in Hr. injection Hr as ->. done.
Qed.

(** The objects with that modulus all have a key that answers [d] with [sig]. *)
Definition answers (a : astate K) (id : Z) (md d sig : list Z) : Prop :=
  (forall k : K, decrypt_of TEE_ALG_RSA_NOPAD k d <> Undef) /\
  forall h x, h ∈ candidates a id -> hits a md h = true -> a_objs a !! h = Some x -> decrypt_of TEE_ALG_RSA_NOPAD (ao_key x) d = Ret (Some sig).

Lemma hits_object a md h : hits a md h = true -> exists x, a_objs a !! h = Some x.
Proof. unfold hits. destruct (a_objs a !! h) as [x|]; [by exists x | done]. Qed.

(** C21: The engine signs with the stored key.  A key file that the command line tool writes
    for an object, read back by OpenSSL, makes the engine's private-key encryption succeed
    while nothing below fails and [char] is unsigned: the output is the private-key
    operation of a stored key with that identifier, whose modulus begins with the key's, on
    the PKCS#1 type 1 block of the data (bytes of the output past a shorter result stay as
    they were), the result is the size of the modulus, and the store stays as it is.  The
    identifier is below 256, at most 50 objects have it, none of them with the handle 0xFFFF
    or a shorter modulus, and those with the modulus answer alike.
    The memory of the call is freed but for the moduli of the objects that came first in
    the search, a block each. *)
Theorem engine_signs a (s : eng W) id md rsa d to sig :
  represents (view (secure (en_sys s))) a -> stands_for a id md rsa ->
  let len := Z.of_nat (length md) in
  Z.of_nat (length d) <= len - 11 -> Z.of_nat (length to) = len -> answers a id md (pkcs1_type1 len d) sig -> Z.of_nat (length sig) <= len ->
  exists s' n, secure_obj_rsa_priv_enc false malloc_ok junk (Z.of_nat (length d)) d to rsa RSA_PKCS1_PADDING s =
      Ret ((len, sig ++ drop (length sig) to), s') /\
    represents (view (secure (en_sys s'))) a /\ leaked n (en_heap s) (en_heap s') /\ (n < length (candidates a id))%nat.
Proof.
  intros HR Hst len Hd Hto [Hdef Hans] Hsig. destruct (stands_key a id md rsa Hst) as (Hn & Hdl & Hm). destruct Hst as (_ & _ & Hlen & Hid & Hsr & h0 & Hin & Hhit).
  fold len in Hlen. unfold secure_obj_rsa_priv_enc, RSA_size. rewrite with_numbers_run, Hn by (by rewrite Hn). fold len. set (s1 := mkEng _ _ _).
  destruct (locate_run a id (BN_bn2bin (rsa_d rsa)) md s1 h0 HR Hm Hdl Hlen Hid Hsr Hin Hhit) as (s2 & b & h & n & E & HR2 & Hh & Hhit2 & Hlost & Hn2).
  fold len in E. rewrite (st_run _ _ _ _ _ E). cbn beta iota. rewrite (st_run _ _ _ _ _ (malloc_run _ _)). cbn beta iota. rewrite Z.eqb_refl.
  pose proof (Hjunk (en_count s2) len ltac:(lia)) as Hj. set (s3 := mkEng _ _ _).
  rewrite (st_run _ _ s3 (1, pkcs1_type1 len d) s3) by (unfold lift; rewrite padding_run by lia; done). cbn beta iota. change (1 =? 0) with false. cbv iota.
  destruct (hits_object _ _ _ Hhit2) as [x Hx]. assert (Hb : Z.of_nat (length (pkcs1_type1 len d)) = len) by (unfold pkcs1_type1; len).
  destruct (stack_decrypts a (en_sys s3) h x (pkcs1_type1 len d) to sig HR2 Hx) as (w4 & E4 & HR4); [lia | lia | done | by eapply Hans | lia |].
  rewrite Hb, Hto in E4. rewrite (u16_small len) by lia. rewrite (st_run _ _ _ _ _ (sys_run _ _ _ _ E4)). cbn beta iota.
  destruct (blocks_freed n b (en_heap s) (en_heap s2) Hlost) as (Hnd & Hall & Hleak). set (s4 := mkEng w4 _ _).
  rewrite (st_run _ _ _ _ _ (cleanup_run _ s4 Hnd Hall)). rewrite Z.eqb_refl. eexists _, n. split; [reflexivity |]. done.
Qed.

Lemma zero_loop_found l : forall i z, zero_loop l i z true = z.
Proof. induction l as [|c l IH]; intros i z; [done |]. cbn [zero_loop negb andb orb]. apply IH. Qed.
Lemma zero_loop_at ps msg : Forall (fun c => c <> 0) ps -> forall i, zero_loop (ps ++ 0 :: msg) i 0 false = i + Z.of_nat (length ps).
Proof.
  induction 1 as [|c ps Hc _ IH]; intros i; cbn [app zero_loop length].
  - rewrite zero_loop_found. cbn [negb andb Z.eqb]. lia.
  - rewrite (proj2 (Z.eqb_neq _ _) Hc). cbn [negb andb orb]. rewrite IH. lia.
Qed.

(** The check finds the message of a block, leading zeros or not. *)
Lemma check_run len to from out ps msg : 11 <= len -> Z.of_nat (length out) <= len ->
  buf_read from 0 (Z.of_nat (length out)) = Ret out -> zeros (len - Z.of_nat (length out)) ++ out = [0; 2] ++ ps ++ [0] ++ msg ->
  Forall (fun c => c <> 0) ps -> (8 <= length ps)%nat -> (length msg <= length to)%nat ->
  RSA_padding_check_PKCS1_type_2 true to len from (Z.of_nat (length out)) len = Ret (Z.of_nat (length msg), msg ++ drop (length msg) to).
Proof.
  intros Hlen Hout Hread Hem Hps Hps8 Hto. unfold RSA_padding_check_PKCS1_type_2.
  rewrite !(proj2 (Z.ltb_ge _ _)) by lia. cbn [orb negb]. rewrite Hread. cbn [mbind outcome_bind]. rewrite Hem.
  pose proof (zeros_len (len - Z.of_nat (length out)) ltac:(lia)) as Hz.
  assert (Hl : len = Z.of_nat (length ps) + 3 + Z.of_nat (length msg)).
  { apply (f_equal length) in Hem. rewrite !length_app in Hem. cbn [length] in Hem. lia. }
  cbn [app nth drop Z.eqb]. change (ps ++ 0 :: msg) with (ps ++ 0 :: msg). rewrite drop_0, zero_loop_at by done. cbn [andb].
  rewrite (proj2 (Z.leb_le 10 _)), (proj2 (Z.leb_le (_ - _) _)) by lia. cbn [andb].
  assert (Hdrop : drop (Z.to_nat (2 + Z.of_nat (length ps) + 1)) (0 :: 2 :: ps ++ 0 :: msg) = msg).
  { replace (Z.to_nat _) with (length (0 :: 2 :: ps ++ [0])) by (cbn [length]; rewrite length_app; cbn [length]; lia).
    change (0 :: 2 :: ps ++ 0 :: msg) with ((0 :: 2 :: ps) ++ [0] ++ msg). rewrite app_assoc. by rewrite drop_app_length. }
  rewrite Hdrop, buf_write_ret by lia. unfold splice. cbn [Z.to_nat take app mbind outcome_bind]. do 3 f_equal. lia.
Qed.

(** The engine decrypts with the stored key.  With such a key file the private-key
    decryption of a message that was encrypted for the stored key, with PKCS#1 type 2
    padding, returns the length of the message and the message, also when the operation
    returns the block without its leading zeros; the store stays as it is. *)
Theorem engine_decrypts a (s : eng W) id md rsa c to out ps msg :
  represents (view (secure (en_sys s))) a -> stands_for a id md rsa ->
  let len := Z.of_nat (length md) in
  0 < Z.of_nat (length c) < 2 ^ 16 -> answers a id md c out -> Z.of_nat (length out) <= len ->
  zeros (len - Z.of_nat (length out)) ++ out = [0; 2] ++ ps ++ [0] ++ msg -> Forall (fun c => c <> 0) ps -> (8 <= length ps)%nat ->
  (length msg <= length to)%nat ->
  exists s' n, secure_obj_rsa_priv_dec false malloc_ok junk (Z.of_nat (length c)) c to rsa RSA_PKCS1_PADDING s =
      Ret ((Z.of_nat (length msg), msg ++ drop (length msg) to), s') /\
    represents (view (secure (en_sys s'))) a /\ leaked n (en_heap s) (en_heap s') /\ (n < length (candidates a id))%nat.
Proof.
  intros HR Hst len Hc [Hdef Hans] Hout Hem Hps Hps8 Hto. destruct (stands_key a id md rsa Hst) as (Hn & Hdl & Hm).
  destruct Hst as (_ & _ & Hlen & Hid & Hsr & h0 & Hin & Hhit).
  fold len in Hlen. unfold secure_obj_rsa_priv_dec, RSA_size. rewrite with_numbers_run, Hn by (by rewrite Hn). fold len. set (s1 := mkEng _ _ _).
  destruct (locate_run a id (BN_bn2bin (rsa_d rsa)) md s1 h0 HR Hm Hdl Hlen Hid Hsr Hin Hhit) as (s2 & b & h & n & E & HR2 & Hh & Hhit2 & Hlost & Hn2).
  fold len in E. rewrite (st_run _ _ _ _ _ E). cbn beta iota. rewrite (st_run _ _ _ _ _ (malloc_run _ _)). cbn beta iota. rewrite Z.eqb_refl.
  pose proof (Hjunk (en_count s2) len ltac:(lia)) as Hj. set (jb := junk (en_count s2) len) in *. set (s3 := mkEng _ _ _).
  destruct (hits_object _ _ _ Hhit2) as [x Hx].
  destruct (stack_decrypts a (en_sys s3) h x c jb out HR2 Hx) as (w4 & E4 & HR4); [lia | lia | done | by eapply Hans | lia |].
  rewrite Hj in E4. rewrite (u16_small len), (u16_small (Z.of_nat (length c))) by lia. rewrite (st_run _ _ _ _ _ (sys_run _ _ _ _ E4)). cbn beta iota.
  rewrite Z.eqb_refl. cbn [negb]. set (s4 := mkEng w4 _ _).
  destruct (blocks_freed n b (en_heap s) (en_heap s2) Hlost) as (Hnd & Hall & Hleak).
  set (s5 := mkEng w4 (en_heap s4) (Datatypes.S (en_count s4))).
  assert (Hcheck : RSA_padding_check_PKCS1_type_2 true to len (filled_with out jb) (Z.of_nat (length out)) len = Ret (Z.of_nat (length msg), msg ++ drop (length msg) to)).
  { apply (check_run len to _ out ps msg); try done; [lia |]. unfold filled_with. rewrite buf_read_ret by (rewrite ?length_app; lia).
    change (Z.to_nat 0) with 0%nat. by rewrite drop_0, Nat2Z.id, take_app_length. }
  rewrite (st_run _ _ s4 (Z.of_nat (length msg), msg ++ drop (length msg) to) s5).
  2: { rewrite (st_run _ _ s4 (Z.of_nat (length out)) s4) by done. rewrite (st_run _ _ _ _ _ (malloc_run _ _)).
       set (s6 := mkEng _ _ _). rewrite (st_run _ _ s6 (Z.of_nat (length msg), msg ++ drop (length msg) to) s6).
       2: { unfold lift. rewrite bool_decide_true by (by eexists). cbn [default from_option Datatypes.id]. by rewrite Hcheck. }
       cbn [fmap option_fmap option_map free_opt fst]. rewrite (st_run _ _ s6 tt s5); [done |]. unfold e_free. cbn [s6 en_heap en_sys en_count].
       rewrite bool_decide_true by set_solver. cbn [guard_c mbind outcome_bind]. unfold s5. pose proof (above_not_in (en_heap s4)).
       do 2 f_equal. apply (f_equal (fun X => mkEng w4 X _)). set_solver. }
  rewrite (st_run _ _ _ _ _ (cleanup_run _ s5 Hnd Hall)). eexists _, n. split; [reflexivity |]. done.
Qed.

(** Any other key goes to OpenSSL: the secure world is not asked and nothing is leaked. *)
Lemma two_freed X : let b1 := above X in let b2 := above ({[b1]} ∪ X) in
  NoDup [b2; b1] /\ Forall (.∈ {[b2]} ∪ ({[b1]} ∪ X)) [b2; b1] /\ ({[b2]} ∪ ({[b1]} ∪ X)) ∖ list_to_set [b2; b1] = X.
Proof.
  clear. intros b1 b2. pose proof (above_not_in X) as H1. pose proof (above_not_in ({[b1]} ∪ X)) as H2. fold b1 in H1. fold b2 in H2. clearbody b1 b2. split_and!.
  - repeat (constructor; [set_solver |]). constructor.
  - repeat (constructor; [set_solver |]). constructor.
  - apply set_eq. intros z. cbn [list_to_set]. set_solver.
Qed.

Theorem engine_passes_on cs (rsa : RSA B) flen from to padding (s : eng W) i0 i1 :
  length (BN_bn2bin (rsa_d rsa)) = length (BN_bn2bin (rsa_n rsa)) ->
  sobj_key_id cs (BN_bn2bin (rsa_d rsa)) (RSA_size rsa) 0 = Ret i0 -> sobj_key_id cs (BN_bn2bin (rsa_d rsa)) (RSA_size rsa) 1 = Ret i1 ->
  ~ (i0 = SOBJ_KEY_ID /\ i1 = SOBJ_KEY_ID) ->
  let s' := mkEng (en_sys s) (en_heap s) (Datatypes.S (Datatypes.S (en_count s))) in
  secure_obj_rsa_priv_enc cs malloc_ok junk flen from to rsa padding s = lift (ssleay_rsa_priv_enc flen from to rsa padding) s' /\
  secure_obj_rsa_priv_dec cs malloc_ok junk flen from to rsa padding s = lift (ssleay_rsa_priv_dec flen from to rsa padding) s'.
Proof.
  intros Hl E0 E1 Hne s'. unfold secure_obj_rsa_priv_enc, secure_obj_rsa_priv_dec. rewrite !with_numbers_run by done. set (s1 := mkEng _ _ _).
  assert (El : locate cs malloc_ok junk (BN_bn2bin (rsa_d rsa)) (BN_bn2bin (rsa_n rsa)) (RSA_size rsa) s1 = Ret (Foreign, s1)).
  { unfold locate. rewrite (st_run _ _ s1 i0 s1) by (unfold lift; by rewrite E0). rewrite (st_run _ _ s1 i1 s1) by (unfold lift; by rewrite E1).
    destruct (Z.eqb_spec i0 SOBJ_KEY_ID), (Z.eqb_spec i1 SOBJ_KEY_ID); try done. by destruct Hne. }
  rewrite !(st_run _ _ _ _ _ El). destruct (two_freed (en_heap s)) as (Hnd & Hall & Hx).
  rewrite !(st_run _ _ _ _ _ (cleanup_run _ s1 Hnd Hall)). cbn [s1 en_sys en_heap en_count]. by rewrite Hx.
Qed.
End OnStack.

(** ** A key file on the whole stack *)

(** Numbers as their bytes; a file as the numbers, each behind its length. *)
Definition toy_write (l : list (list Z)) : list Z := concat ((fun b => Z.of_nat (length b) :: b) <$> l).
Fixpoint toy_read (fuel : nat) (t : list Z) : list (list Z) :=
  match fuel, t with
  | S fuel, n :: t => take (Z.to_nat n) t :: toy_read fuel (drop (Z.to_nat n) t)
  | _, _ => []
  end.
Lemma toy_read_write l : forall fuel, (length (toy_write l) <= fuel)%nat -> toy_read fuel (toy_write l) = l.
Proof.
  induction l as [|b l IH]; intros fuel Hf; [by destruct fuel |]. unfold toy_write in *. rewrite fmap_cons in *. cbn [concat app length] in *.
  rewrite length_app in Hf. destruct fuel as [|fuel]; [lia |]. cbn [toy_read]. rewrite Nat2Z.id, take_app_length, drop_app_length. f_equal. apply IH. lia.
Qed.

#[local] Instance toy_openssl : OpenSSL (list Z) := {
  BN_bn2bin b := b;
  BN_bin2bn bs := Some (strip bs);
  PEM_write_bio_RSAPrivateKey r := toy_write (rsa_n r :: rsa_e r :: rsa_d r :: rsa_crt r);
  PEM_read_PrivateKey t := match toy_read (length t) t with n :: e :: d :: crt => Some (mkRSA n e d crt) | _ => None end;
  ssleay_rsa_priv_enc flen from to r padding := Ret (-1, to);
  ssleay_rsa_priv_dec flen from to r padding := Ret (-1, to) }.
#[local] Instance toy_openssl_laws : OpenSSL_laws (list Z).
Proof.
  split.
  - by intros bs b [= <-].
  - intros [n e d crt]. cbn -[toy_read toy_write]. by rewrite toy_read_write.
Qed.

(** A private exponent, the key file for object 7 of the store of P11Stack.v, and the engine. *)
Definition ex_generated : RSA (list Z) := mkRSA [] [] (replicate 16 200) [[3]; [5]].
Definition ex_md : list Z := replicate 16 129.
Definition ex_body : list Z :=
  match generate_fake_private_RSA_key true true true true true (zeros 16) ex_generated 7 [1; 0; 1] ex_md with
  | Ret (Some t) => take (length t - 1) t
  | _ => []
  end.
Definition ex_rsa : RSA (list Z) := default ex_generated (PEM_read_PrivateKey ex_body).
Definition ex_eng : eng ram := mkEng p11_token {[ 5; 6 ]} 0.
Definition ex_junk (c : nat) (n : Z) : list Z := zeros n.
Definition ex_have (c : nat) (n : Z) : bool := true.

Lemma ex_stands : stands_for p11_store 7 ex_md ex_rsa.
Proof.
  split_and!.
  - exists (zeros 16), ex_generated, [1; 0; 1], ex_body. split_and!; vm_compute; reflexivity.
  - vm_compute. reflexivity.
  - decide_c.
  - decide_c.
  - lia.
  - lia.
  - split; [decide_c |]. change (candidates p11_store 7) with [0]. constructor; [| constructor]. split; [discriminate |].
    exists p11_object. split; [reflexivity | decide_c].
  - exists 0. split; [vm_compute; left | vm_compute; reflexivity].
Qed.

Lemma engine_signs_witness :
  exists s', secure_obj_rsa_priv_enc false ex_have ex_junk 2 [8; 9] (zeros 16) ex_rsa RSA_PKCS1_PADDING ex_eng =
      Ret ((16, 2 :: tail (pkcs1_type1 16 [8; 9])), s') /\ en_heap s' = {[ 5; 6 ]}.
Proof.
  destruct (engine_signs (W := ram) (S := ram) (K := ram_key) ex_junk) with (malloc_ok := ex_have) (a := p11_store) (s := ex_eng) (id := 7) (md := ex_md)
    (rsa := ex_rsa) (d := [8; 9]) (to := zeros 16) (sig := 2 :: tail (pkcs1_type1 16 [8; 9])) as (s' & n & E & _ & (L & HL & _ & Hs) & Hn).
  - intros c n Hn. apply zeros_len. done.
  - reflexivity.
  - exact ram_never_denied.
  - exact p11_token_represents.
  - exact ex_stands.
  - decide_c.
  - reflexivity.
  - split; [discriminate | reflexivity].
  - decide_c.
  - exists s'. split; [exact E |]. change (length (candidates p11_store 7)) with 1%nat in Hn.
    assert (size L = 0%nat) as ->%size_empty_inv%leibniz_equiv by lia. rewrite HL. apply (left_id_L ∅ (∪)).
Defined.

(** The toy key operation puts a 2 in place of the first byte. *)
Lemma engine_decrypts_witness :
  exists s', secure_obj_rsa_priv_dec false ex_have ex_junk 15 (77 :: replicate 9 3 ++ [0; 11; 12; 13; 14]) (zeros 4) ex_rsa RSA_PKCS1_PADDING ex_eng =
      Ret ((4, [11; 12; 13; 14]), s').
Proof.
  destruct (engine_decrypts (W := ram) (S := ram) (K := ram_key) ex_junk) with (malloc_ok := ex_have) (a := p11_store) (s := ex_eng) (id := 7) (md := ex_md)
    (rsa := ex_rsa) (c := 77 :: replicate 9 3 ++ [0; 11; 12; 13; 14]) (to := zeros 4) (out := 2 :: replicate 9 3 ++ [0; 11; 12; 13; 14])
    (ps := replicate 9 3) (msg := [11; 12; 13; 14]) as (s' & n & E & _).
  - intros c n Hn. apply zeros_len. done.
  - reflexivity.
  - exact ram_never_denied.
  - exact p11_token_represents.
  - exact ex_stands.
  - decide_c.
  - split; [discriminate | reflexivity].
  - decide_c.
  - reflexivity.
  - repeat constructor; discriminate.
  - decide_c.
  - decide_c.
  - exists s'. exact E.
Defined.
