(* ===== verification/FsCore.v ===== *)
(** * Conventions of the file layers of the trusted OS (optee_os/core/tee)

    Fallible functions return a [TEE_Result]: [ex W A] is such a function over a world
    [W], an [A] on success and the error code otherwise, with the early return as its
    bind.  A failed [assert] is undefined.  [wpx] is its total correctness predicate: the
    call is defined and its result and final world satisfy the postcondition. *)

From stdpp Require Import base numbers list.
From S2P Require Import Prelude SkTypes.

Definition TEE_ERROR_CORRUPT_OBJECT : Z := 0xf0100001.
Definition TEE_ERROR_SECURITY : Z := 0xffff000f.
Definition TEE_ERROR_MAC_INVALID : Z := 0xffff3071.

(** The bytes of a structure member. *)
Definition field (b : list Z) (off n : nat) : list Z := take n (drop off b).
Lemma field_mid a b c n m : length a = n -> length b = m -> field (a ++ b ++ c) n m = b.
Proof. intros <- <-. unfold field. by rewrite drop_app_length, take_app_length. Qed.

(** ** The error monad *)

Definition ex (W A : Type) : Type := W -> outcome ((A + Z) * W).

#[export] Instance ex_ret {W} : MRet (ex W) := fun A a w => Ret (inl a, w).
#[export] Instance ex_bind {W} : MBind (ex W) := fun A B f m w =>
  match m w with
  | Ret (inl a, w) => f a w
  | Ret (inr e, w) => Ret (inr e, w)
  | Undef => Undef
  end.

Section Ops.
Context {W : Type}.

(** [return e]; a C expression that may be undefined; a call that cannot fail; and the
    result code of a call kept as a value. *)
Definition throw {A} (e : Z) : ex W A := fun w => Ret (inr e, w).
Definition pure_c {A} (m : outcome A) : ex W A := fun w =>
  match m with Ret a => Ret (inl a, w) | Undef => Undef end.
Definition assert_c (b : bool) : ex W unit := pure_c (guard_c b).
Definition call {A} (m : st W A) : ex W A := fun w =>
  match m w with Ret (a, w) => Ret (inl a, w) | Undef => Undef end.
Definition attempt {A} (m : ex W A) : ex W (A + Z) := fun w =>
  match m w with Ret (r, w) => Ret (inl r, w) | Undef => Undef end.
Definition rethrow {A} (r : A + Z) : ex W A := fun w => Ret (r, w).
End Ops.

(** ** A world with an object beside it *)

Section Object.
Context {W D : Type}.
(** A call on the world, the object, and an update of it. *)
Definition onW {A} (m : ex W A) : ex (W * D) A := fun '(w, d) =>
  match m w with Ret (r, w) => Ret (r, (w, d)) | Undef => Undef end.
Definition get_d : ex (W * D) D := fun '(w, d) => Ret (inl d, (w, d)).
Definition put_d (d : D) : ex (W * D) unit := fun '(w, _) => Ret (inl tt, (w, d)).
Definition upd_d (f : D -> D) : ex (W * D) unit := fun '(w, d) => Ret (inl tt, (w, f d)).
End Object.

(** The code a function returns. *)
Definition code {A} (r : A + Z) : Z := match r with inl _ => TEE_SUCCESS | inr e => e end.

(** ** Allocation: [None] when it fails, otherwise the block, with whatever it holds *)

Class HeapOps (W : Type) := {
  malloc : Z -> st W (option (list Z));
  realloc : list Z -> Z -> st W (option (list Z)) }.

(** What the allocator promises: a block of the size asked for, with the old contents. *)
Definition is_block (n : Z) (p : list Z) : Prop := Z.of_nat (length p) = n /\ Forall is_byte p.

(** ** Total correctness *)

Definition wpx {W A} (m : ex W A) (w : W) (Q : A + Z -> W -> Prop) : Prop :=
  exists r w', m w = Ret (r, w') /\ Q r w'.

Section Wp.
Context {W : Type}.
Implicit Types (w : W).

Lemma wpx_ret {A} (a : A) w Q : Q (inl a) w -> wpx (mret a) w Q.
Proof. intros H. by exists (inl a), w. Qed.
Lemma wpx_throw {A} e w (Q : A + Z -> W -> Prop) : Q (inr e) w -> wpx (throw e) w Q.
Proof. intros H. by exists (inr e), w. Qed.
Lemma wpx_rethrow {A} (r : A + Z) w Q : Q r w -> wpx (rethrow r) w Q.
Proof. intros H. by exists r, w. Qed.
Lemma wpx_pure {A} (m : outcome A) a w Q : m = Ret a -> Q (inl a) w -> wpx (pure_c m) w Q.
Proof. intros -> H. by exists (inl a), w. Qed.
Lemma wpx_assert b w Q : b = true -> Q (inl tt) w -> wpx (assert_c b) w Q.
Proof. intros -> H. by exists (inl tt), w. Qed.
Lemma wpx_call {A} (m : st W A) a w w' Q : m w = Ret (a, w') -> Q (inl a) w' -> wpx (call m) w Q.
Proof. intros E H. exists (inl a), w'. unfold call. by rewrite E. Qed.
Lemma wpx_attempt {A} (m : ex W A) w Q : wpx m w (fun r w' => Q (inl r) w') -> wpx (attempt m) w Q.
Proof. intros (r & w' & E & H). exists (inl r), w'. unfold attempt. by rewrite E. Qed.

Lemma wpx_bind {A B} (m : ex W A) (f : A -> ex W B) w Q :
  wpx m w (fun r w' => match r with inl a => wpx (f a) w' Q | inr e => Q (inr e) w' end) ->
  wpx (m ≫= f) w Q.
Proof.
  intros (r & w' & E & H). unfold wpx, mbind, ex_bind. rewrite E. destruct r as [a|e]; [done |].
  by exists (inr e), w'.
Qed.

(** Two calls in a row as one. *)
Lemma wpx_assoc {A B C} (m : ex W A) (f : A -> ex W B) (g : B -> ex W C) w Q :
  wpx (x ← (y ← m; f y); g x) w Q -> wpx (y ← m; x ← f y; g x) w Q.
Proof.
  intros (r & w' & E & HQ). exists r, w'. split; [| done]. revert E. unfold mbind, ex_bind. by destruct (m w) as [[[y|e] w1]|].
Qed.

Lemma wpx_mono {A} (m : ex W A) w (Q Q' : A + Z -> W -> Prop) :
  wpx m w Q -> (forall r w', Q r w' -> Q' r w') -> wpx m w Q'.
Proof. intros (r & w' & E & H) HQ. exists r, w'. auto. Qed.

(** Two postconditions of one call. *)
Lemma wpx_and {A} (m : ex W A) w (Q Q' : A + Z -> W -> Prop) :
  wpx m w Q -> wpx m w Q' -> wpx m w (fun r w' => Q r w' /\ Q' r w').
Proof.
  intros (r & w' & E & H) (r' & w'' & E' & H'). rewrite E in E'. injection E' as <- <-.
  by exists r, w'.
Qed.

Lemma wpx_eq {A} (m : ex W A) w Q r w' : wpx m w Q -> m w = Ret (r, w') -> Q r w'.
Proof. intros (r1 & w1 & E & H) E'. rewrite E in E'. by injection E' as <- <-. Qed.

End Wp.

Section WpObject.
Context {W D : Type}.
Implicit Types (w : W) (d : D).

Lemma wpx_onW {A} (m : ex W A) w d (Q : A + Z -> W * D -> Prop) :
  wpx m w (fun r w' => Q r (w', d)) -> wpx (onW m) (w, d) Q.
Proof. intros (r & w' & E & HQ). exists r, (w', d). unfold onW. by rewrite E. Qed.
Lemma wpx_get_d (s : W * D) (Q : D + Z -> W * D -> Prop) : Q (inl (snd s)) s -> wpx get_d s Q.
Proof. intros HQ. exists (inl (snd s)), s. by destruct s. Qed.
Lemma wpx_put_d d (s : W * D) (Q : unit + Z -> W * D -> Prop) : Q (inl tt) (fst s, d) -> wpx (put_d d) s Q.
Proof. intros HQ. exists (inl tt), (fst s, d). by destruct s. Qed.
Lemma wpx_upd_d f (s : W * D) (Q : unit + Z -> W * D -> Prop) : Q (inl tt) (fst s, f (snd s)) -> wpx (upd_d f) s Q.
Proof. intros HQ. exists (inl tt), (fst s, f (snd s)). by destruct s. Qed.
Lemma wpx_onW_pair {A B C} (m : ex W A) (f : A -> ex W B) (g : B -> ex (W * D) C) (s : W * D) Q :
  wpx (x ← onW (y ← m; f y); g x) s Q -> wpx (y ← onW m; x ← onW (f y); g x) s Q.
Proof.
  destruct s as [w d]. intros (r & w' & E & HQ). exists r, w'. split; [| done]. revert E. unfold mbind, ex_bind, onW.
  by destruct (m w) as [[[y|e] w1]|].
Qed.
End WpObject.

(** One step of a monadic definition. *)
Ltac wpx_step :=
  first
    [ apply wpx_ret | apply wpx_throw | apply wpx_rethrow
    | apply wpx_attempt | apply wpx_bind
    | eapply wpx_pure; [reflexivity |] ].
Ltac wpx_steps := repeat (wpx_step; cbn beta iota).
