(* ===== verification/Bitstring.v ===== *)
(** * Bit strings (lib/libutils/ext/include/bitstring.h)

    The bytes of a bit string, [None] of the outcome when an index is outside them.  Under
    it: each macro in terms of the bits [bitn] it reads and writes. *)

From stdpp Require Import base numbers list.
From S2P Require Import Prelude.

Definition _bit_byte (bit : Z) : Z := Z.shiftr bit 3.
Definition _bit_mask (bit : Z) : Z := Z.shiftl 1 (Z.land bit 0x7).
Definition bitstr_size (nbits : Z) : Z := Z.shiftr (nbits + 7) 3.

(** [name[i]] and [name[i] = v], [v] cut to a byte. *)
Definition byte_at (name : list Z) (i : Z) : outcome Z :=
  guard_c (0 <=? i);; deref (name !! Z.to_nat i).
Definition set_byte (name : list Z) (i v : Z) : outcome (list Z) :=
  guard_c ((0 <=? i) && (i <? Z.of_nat (length name)));; Ret (<[Z.to_nat i := u8 v]> name).

Definition bit_test (name : list Z) (bit : Z) : outcome bool :=
  b ← byte_at name (_bit_byte bit); Ret (negb (Z.land b (_bit_mask bit) =? 0)).
Definition bit_set (name : list Z) (bit : Z) : outcome (list Z) :=
  b ← byte_at name (_bit_byte bit); set_byte name (_bit_byte bit) (Z.lor b (_bit_mask bit)).
Definition bit_clear (name : list Z) (bit : Z) : outcome (list Z) :=
  b ← byte_at name (_bit_byte bit); set_byte name (_bit_byte bit) (Z.land b (Z.lnot (_bit_mask bit))).

(** [while (++startbyte < stopbyte) name[startbyte] = 0], over that many bytes. *)
Fixpoint zero_bytes (name : list Z) (startbyte : Z) (k : nat) : outcome (list Z) :=
  match k with
  | O => Ret name
  | S k => name ← set_byte name startbyte 0; zero_bytes name (startbyte + 1) k
  end.

Definition bit_nclear (name : list Z) (start stop : Z) : outcome (list Z) :=
  let startbyte := _bit_byte start in
  let stopbyte := _bit_byte stop in
  let lo := Z.shiftr 0xff (8 - Z.land start 0x7) in
  let hi := Z.shiftl 0xff (Z.land stop 0x7 + 1) in
  if startbyte =? stopbyte then
    b ← byte_at name startbyte; set_byte name startbyte (Z.land b (Z.lor lo hi))
  else
    b ← byte_at name startbyte;
    name ← set_byte name startbyte (Z.land b lo);
    name ← zero_bytes name (startbyte + 1) (Z.to_nat (stopbyte - startbyte - 1));
    b ← byte_at name stopbyte;
    set_byte name stopbyte (Z.land b hi).

(** [for (lb = ...; lb & 1; ++value, lb >>= 1);]: a byte has at most eight ones. *)
Fixpoint count_ones (fuel : nat) (lb value : Z) : Z :=
  match fuel with
  | O => value
  | S fuel => if Z.odd lb then count_ones fuel (Z.shiftr lb 1) (value + 1) else value
  end.

(** The search from byte [byte] over [k] bytes. *)
Fixpoint ffc_bytes (name : list Z) (byte : Z) (k : nat) : outcome Z :=
  match k with
  | O => Ret (-1)
  | S k =>
      b ← byte_at name byte;
      if b =? 0xff then ffc_bytes name (byte + 1) k
      else Ret (count_ones 8 b (Z.shiftl byte 3))
  end.

Definition bit_ffc (name : list Z) (nbits : Z) : outcome Z :=
  value ← (if 0 <? nbits then ffc_bytes name 0 (Z.to_nat (_bit_byte (nbits - 1) + 1)) else Ret (-1));
  Ret (if nbits <=? value then -1 else value).

(** ** The bits of a byte list *)

Definition bitn (name : list Z) (i : Z) : bool :=
  match name !! Z.to_nat (i / 8) with Some b => Z.testbit b (i mod 8) | None => false end.
Definition holds_bits (name : list Z) (nbits : Z) : Prop := nbits <= 8 * Z.of_nat (length name).
Definition bits_ok (name : list Z) : Prop := Forall is_byte name.

Lemma bit_byte_div i : _bit_byte i = i / 8.
Proof. unfold _bit_byte. by rewrite Z.shiftr_div_pow2. Qed.
Lemma land7 i : Z.land i 0x7 = i mod 8.
Proof. change 0x7 with (Z.ones 3). by rewrite Z.land_ones. Qed.
Lemma bit_mask_pow i : _bit_mask i = 2 ^ (i mod 8).
Proof. unfold _bit_mask. rewrite land7, Z.shiftl_1_l. done. Qed.
Lemma bitstr_size_div n : bitstr_size n = (n + 7) / 8.
Proof. unfold bitstr_size. by rewrite Z.shiftr_div_pow2. Qed.

Lemma byte_bits b : is_byte b -> (forall k, 0 <= k < 8 -> Z.testbit b k = true) -> b = 0xff.
Proof.
  intros Hb H. change 0xff with (Z.ones 8). apply Z.bits_inj'. intros k Hk.
  destruct (decide (k < 8)).
  - rewrite Z.ones_spec_low by lia. apply H. lia.
  - rewrite Z.ones_spec_high by lia. unfold is_byte in Hb. change 256 with (2 ^ 8) in Hb.
    rewrite <- (Z.mod_small b (2 ^ 8)) by lia. apply Z.mod_pow2_bits_high. lia.
Qed.

Section Bytes.
Implicit Types (name : list Z) (i j : Z).

Lemma byte_at_ret name i : 0 <= i < Z.of_nat (length name) ->
  exists b, byte_at name i = Ret b /\ name !! Z.to_nat i = Some b.
Proof.
  intros Hi. destruct (lookup_lt_is_Some_2 name (Z.to_nat i)) as [b Hb]; [lia |].
  exists b. unfold byte_at. rewrite (proj2 (Z.leb_le 0 i)) by lia. by rewrite Hb.
Qed.

Lemma set_byte_ret name i v : 0 <= i < Z.of_nat (length name) ->
  set_byte name i v = Ret (<[Z.to_nat i := u8 v]> name).
Proof.
  intros Hi. unfold set_byte. by rewrite (proj2 (Z.leb_le 0 i)), (proj2 (Z.ltb_lt i _)) by lia.
Qed.

Lemma u8_byte v : is_byte (u8 v).
Proof. unfold u8, is_byte. apply Z.mod_pos_bound. lia. Qed.

Lemma insert_bits_ok name k v : bits_ok name -> bits_ok (<[k := u8 v]> name).
Proof. intros H. apply Forall_insert; [done | apply u8_byte]. Qed.

Lemma bitn_insert name k v j : 0 <= j -> 0 <= k < Z.of_nat (length name) ->
  bitn (<[Z.to_nat k := u8 v]> name) j = if j / 8 =? k then Z.testbit v (j mod 8) else bitn name j.
Proof.
  intros Hj Hk. unfold bitn. destruct (Z.eqb_spec (j / 8) k) as [-> | Hn].
  - rewrite list_lookup_insert_eq by lia. unfold u8. apply Z.mod_pow2_bits_low.
    pose proof (Z.mod_pos_bound j 8). lia.
  - rewrite list_lookup_insert_ne; [done |]. pose proof (Z.div_pos j 8). lia.
Qed.

(** A position is its byte and the bit within it. *)
Lemma bit_pos i j : (i =? j) = (j / 8 =? i / 8) && (j mod 8 =? i mod 8).
Proof.
  pose proof (Z.div_mod i 8). pose proof (Z.div_mod j 8).
  destruct (Z.eqb_spec i j) as [-> | Hn]; [by rewrite !Z.eqb_refl |].
  destruct (Z.eqb_spec (j / 8) (i / 8)), (Z.eqb_spec (j mod 8) (i mod 8)); try done. lia.
Qed.

Lemma in_bytes name i : 0 <= i < 8 * Z.of_nat (length name) -> 0 <= i / 8 < Z.of_nat (length name).
Proof. intros H. split; [apply Z.div_pos; lia | apply Z.div_lt_upper_bound; lia]. Qed.

Lemma bit_test_spec name i : 0 <= i < 8 * Z.of_nat (length name) ->
  bit_test name i = Ret (bitn name i).
Proof.
  intros Hi. unfold bit_test. rewrite bit_byte_div, bit_mask_pow.
  destruct (byte_at_ret name (i / 8)) as (b & E & Hb); [by apply in_bytes |].
  rewrite E. cbn. f_equal. unfold bitn. rewrite Hb.
  rewrite Z.land_comm, <- (Z.shiftl_1_l (i mod 8)).
  destruct (Z.testbit b (i mod 8)) eqn:T.
  - destruct (Z.eqb_spec (Z.land (Z.shiftl 1 (i mod 8)) b) 0) as [Z0|]; [| done].
    apply (f_equal (fun z => Z.testbit z (i mod 8))) in Z0.
    rewrite Z.land_spec, T, Z.shiftl_spec, Z.sub_diag, Z.bits_0 in Z0; [done |].
    apply Z.mod_pos_bound. lia.
  - destruct (Z.eqb_spec (Z.land (Z.shiftl 1 (i mod 8)) b) 0) as [|N]; [done |]. destruct N.
    apply Z.bits_inj'. intros k Hk. rewrite Z.land_spec, Z.shiftl_1_l, Z.bits_0.
    destruct (decide (k = i mod 8)) as [-> |]; [rewrite T; apply andb_false_r |].
    rewrite Z.pow2_bits_false by congruence. done.
Qed.

(** What an update of a bit string does: same size, and the bits as [f] says. *)
Definition bits_upd name name' (f : Z -> bool -> bool) : Prop :=
  length name' = length name /\ (bits_ok name -> bits_ok name') /\
  forall j, 0 <= j < 8 * Z.of_nat (length name) -> bitn name' j = f j (bitn name j).

Lemma bits_upd_trans n1 n2 n3 f g :
  bits_upd n1 n2 f -> bits_upd n2 n3 g -> bits_upd n1 n3 (fun j b => g j (f j b)).
Proof.
  intros (L1 & O1 & B1) (L2 & O2 & B2). split_and!; [congruence | auto |].
  intros j Hj. rewrite B2 by (rewrite L1; done). by rewrite B1.
Qed.

Lemma bits_upd_ext n1 n2 f g :
  bits_upd n1 n2 f -> (forall j b, 0 <= j -> f j b = g j b) -> bits_upd n1 n2 g.
Proof.
  intros (L & O & B) E. split_and!; [done.. |]. intros j Hj. rewrite B by done. apply E. lia.
Qed.

(** One byte set to a function of its old value. *)
Lemma set_byte_upd name k b v : 0 <= k < Z.of_nat (length name) -> name !! Z.to_nat k = Some b ->
  bits_upd name (<[Z.to_nat k := u8 v]> name)
    (fun j x => if j / 8 =? k then Z.testbit v (j mod 8) else x).
Proof.
  intros Hk Hb. split_and!; [by rewrite length_insert | apply insert_bits_ok |].
  intros j Hj. by rewrite bitn_insert by lia.
Qed.

Lemma byte_update name k (F : Z -> Z) f : 0 <= k < Z.of_nat (length name) ->
  (forall b j, name !! Z.to_nat k = Some b -> 0 <= j -> j / 8 = k -> Z.testbit (F b) (j mod 8) = f j (Z.testbit b (j mod 8))) ->
  (forall j b, j / 8 <> k -> f j b = b) ->
  exists name', (b ← byte_at name k; set_byte name k (F b)) = Ret name' /\ bits_upd name name' f.
Proof.
  intros Hk HF Hf. destruct (byte_at_ret name k Hk) as (b & E & Hb). rewrite E, ret_bind, set_byte_ret by done.
  eexists. split; [done |]. split_and!; [by rewrite length_insert | apply insert_bits_ok |].
  intros j Hj. rewrite bitn_insert by lia. destruct (Z.eqb_spec (j / 8) k) as [Ek|Nk].
  - rewrite (HF b) by (done || lia). unfold bitn. rewrite Ek, Hb. done.
  - symmetry. by apply Hf.
Qed.

Lemma bit_set_spec name i : 0 <= i < 8 * Z.of_nat (length name) ->
  exists name', bit_set name i = Ret name' /\ bits_upd name name' (fun j b => (j =? i) || b).
Proof.
  intros Hi. unfold bit_set. rewrite bit_byte_div, bit_mask_pow.
  apply byte_update; [by apply in_bytes | |].
  - intros b j _ Hj Ek. rewrite Z.lor_spec, Z.pow2_bits_eqb by (apply Z.mod_pos_bound; lia).
    rewrite (Z.eqb_sym j i), (bit_pos i j), Ek, Z.eqb_refl, (Z.eqb_sym (i mod 8)), orb_comm. done.
  - intros j b Nk. destruct (Z.eqb_spec j i) as [-> |]; done.
Qed.

Lemma bit_clear_spec name i : 0 <= i < 8 * Z.of_nat (length name) ->
  exists name', bit_clear name i = Ret name' /\ bits_upd name name' (fun j b => negb (j =? i) && b).
Proof.
  intros Hi. unfold bit_clear. rewrite bit_byte_div, bit_mask_pow.
  apply (byte_update name (i / 8) (fun b => Z.land b (Z.lnot (2 ^ (i mod 8))))); [by apply in_bytes | |].
  - intros b j _ Hj Ek. pose proof (Z.mod_pos_bound j 8). pose proof (Z.mod_pos_bound i 8).
    rewrite Z.land_spec, Z.lnot_spec, Z.pow2_bits_eqb by lia.
    rewrite (Z.eqb_sym j i), (bit_pos i j), Ek, Z.eqb_refl, (Z.eqb_sym (i mod 8)), andb_comm. done.
  - intros j b Nk. destruct (Z.eqb_spec j i) as [-> |]; done.
Qed.

Lemma lo_mask s m : 0 <= s < 8 -> 0 <= m < 8 -> Z.testbit (Z.shiftr 0xff (8 - s)) m = (m <? s).
Proof.
  intros. rewrite Z.shiftr_spec by lia. change 0xff with (Z.ones 8).
  rewrite Z.testbit_ones by lia. apply eq_bool_prop_intro. split; intros; apply Is_true_true in H1; apply Is_true_true; boolz; try (apply Z.ltb_lt; lia).
  apply andb_true_iff. split; [apply Z.leb_le | apply Z.ltb_lt]; lia.
Qed.

Lemma hi_mask e m : 0 <= e < 8 -> 0 <= m < 8 -> Z.testbit (Z.shiftl 0xff (e + 1)) m = (e <? m).
Proof.
  intros. rewrite Z.shiftl_spec by lia. change 0xff with (Z.ones 8).
  destruct (Z.ltb_spec e m).
  - rewrite Z.testbit_ones by lia. apply andb_true_iff. split; [apply Z.leb_le | apply Z.ltb_lt]; lia.
  - apply Z.testbit_neg_r. lia.
Qed.

Lemma zero_bytes_spec k : forall name a, 0 <= a -> a + Z.of_nat k <= Z.of_nat (length name) ->
  exists name', zero_bytes name a k = Ret name' /\
    bits_upd name name' (fun j b => negb ((a <=? j / 8) && (j / 8 <? a + Z.of_nat k)) && b).
Proof.
  induction k as [|k IH]; intros name a Ha Hk; cbn [zero_bytes].
  - exists name. split; [done |]. split_and!; [done.. |]. intros j Hj.
    destruct (Z.leb_spec a (j / 8)), (Z.ltb_spec (j / 8) (a + Z.of_nat 0)); try done. lia.
  - destruct (lookup_lt_is_Some_2 name (Z.to_nat a)) as [b Hb]; [lia |].
    rewrite set_byte_ret, ret_bind by lia.
    destruct (IH (<[Z.to_nat a := u8 0]> name) (a + 1)) as (n' & E & U); [lia | len |].
    exists n'. split; [done |].
    eapply bits_upd_ext; [eapply bits_upd_trans; [eapply (set_byte_upd name a b 0); [lia | done] | exact U] |].
    intros j c Hj. cbn beta. rewrite Z.bits_0.
    destruct (Z.eqb_spec (j / 8) a), (Z.leb_spec (a + 1) (j / 8)), (Z.ltb_spec (j / 8) (a + 1 + Z.of_nat k)),
      (Z.leb_spec a (j / 8)), (Z.ltb_spec (j / 8) (a + Z.of_nat (S k))); try done; lia.
Qed.

Lemma bit_nclear_spec name start stop :
  0 <= start <= stop -> stop < 8 * Z.of_nat (length name) ->
  exists name', bit_nclear name start stop = Ret name' /\
    bits_upd name name' (fun j b => negb ((start <=? j) && (j <=? stop)) && b).
Proof.
  intros Hs Hl. unfold bit_nclear. rewrite !bit_byte_div, !land7.
  pose proof (Z.mod_pos_bound start 8). pose proof (Z.mod_pos_bound stop 8).
  pose proof (Z.div_mod start 8). pose proof (Z.div_mod stop 8).
  assert (Hss : start / 8 <= stop / 8) by (apply Z.div_le_mono; lia).
  pose proof (in_bytes name stop). pose proof (Z.div_pos start 8).
  destruct (Z.eqb_spec (start / 8) (stop / 8)) as [E|N].
  - apply (byte_update name (start / 8) (fun b => Z.land b (Z.lor _ _))); [lia | |].
    + intros b j _ Hj Ek. pose proof (Z.mod_pos_bound j 8). pose proof (Z.div_mod j 8).
      rewrite Z.land_spec, Z.lor_spec, lo_mask, hi_mask, andb_comm by lia. f_equal.
      destruct (Z.ltb_spec (j mod 8) (start mod 8)), (Z.ltb_spec (stop mod 8) (j mod 8)),
        (Z.leb_spec start j), (Z.leb_spec j stop); try done; lia.
    + intros j b Nk. pose proof (Z.mod_pos_bound j 8). pose proof (Z.div_mod j 8).
      destruct (Z.leb_spec start j), (Z.leb_spec j stop); try done. nia.
  - destruct (byte_update name (start / 8) (fun b => Z.land b (Z.shiftr 0xff (8 - start mod 8)))
      (fun j b => negb ((j / 8 =? start / 8) && (start <=? j)) && b)) as (n1 & E1 & U1); [lia | | |].
    { intros b j _ Hj Ek. pose proof (Z.mod_pos_bound j 8). pose proof (Z.div_mod j 8).
      rewrite Z.land_spec, lo_mask, andb_comm, Ek, Z.eqb_refl by lia. f_equal.
      destruct (Z.ltb_spec (j mod 8) (start mod 8)), (Z.leb_spec start j); try done; lia. }
    { intros j b Nk. destruct (Z.eqb_spec (j / 8) (start / 8)); done. }
    apply outcome_bind_inv in E1 as (b1 & Eb1 & E1). rewrite Eb1, ret_bind, E1, ret_bind.
    assert (Hl1 : length n1 = length name) by apply U1.
    destruct (zero_bytes_spec (Z.to_nat (stop / 8 - start / 8 - 1)) n1 (start / 8 + 1)) as (n2 & E2 & U2); [lia.. |].
    rewrite E2, ret_bind. assert (Hl2 : length n2 = length n1) by apply U2.
    destruct (byte_update n2 (stop / 8) (fun b => Z.land b (Z.shiftl 0xff (stop mod 8 + 1)))
      (fun j b => negb ((j / 8 =? stop / 8) && (j <=? stop)) && b)) as (n3 & E3 & U3); [lia | | |].
    { intros b j _ Hj Ek. pose proof (Z.mod_pos_bound j 8). pose proof (Z.div_mod j 8).
      rewrite Z.land_spec, hi_mask, andb_comm, Ek, Z.eqb_refl by lia. f_equal.
      destruct (Z.ltb_spec (stop mod 8) (j mod 8)), (Z.leb_spec j stop); try done; lia. }
    { intros j b Nk. destruct (Z.eqb_spec (j / 8) (stop / 8)); done. }
    exists n3. split; [done |].
    eapply bits_upd_ext; [eapply bits_upd_trans; [eapply bits_upd_trans; [exact U1 | exact U2] | exact U3] |].
    intros j b Hj. cbn beta. pose proof (Z.mod_pos_bound j 8). pose proof (Z.div_mod j 8).
    rewrite !andb_assoc. f_equal. rewrite Z2Nat.id by lia.
    destruct (Z.eqb_spec (j / 8) (stop / 8)), (Z.leb_spec j stop), (Z.leb_spec (start / 8 + 1) (j / 8)),
      (Z.ltb_spec (j / 8) (start / 8 + 1 + (stop / 8 - start / 8 - 1))), (Z.eqb_spec (j / 8) (start / 8)), (Z.leb_spec start j); try done; nia.
Qed.

Lemma count_ones_spec fuel : forall b v, exists c, (c <= fuel)%nat /\ count_ones fuel b v = v + Z.of_nat c /\
  (forall k, 0 <= k < Z.of_nat c -> Z.testbit b k = true) /\ (c = fuel \/ Z.testbit b (Z.of_nat c) = false).
Proof.
  induction fuel as [|fuel IH]; intros b v; cbn [count_ones].
  - exists O. split_and!; [lia | lia | intros k Hk; lia | by left].
  - destruct (Z.odd b) eqn:O.
    + destruct (IH (Z.shiftr b 1) (v + 1)) as (c & Hc & E & H1 & H2). exists (S c). split_and!; [lia | lia | |].
      * intros k Hk. destruct (decide (k = 0)) as [-> |]; [by rewrite Z.bit0_odd |].
        specialize (H1 (k - 1)). rewrite Z.shiftr_spec in H1 by lia. replace (k - 1 + 1) with k in H1 by lia. apply H1. lia.
      * destruct H2 as [-> | H2]; [by left | right]. rewrite Z.shiftr_spec in H2 by lia. rewrite <- H2. f_equal. lia.
    + exists 0%nat. split_and!; [lia | lia | intros k Hk; lia | right]. by rewrite Z.bit0_odd.
Qed.

Lemma ffc_bytes_spec k : forall name a, bits_ok name -> 0 <= a -> a + Z.of_nat k <= Z.of_nat (length name) ->
  exists v, ffc_bytes name a k = Ret v /\
    ((v = -1 /\ forall j, 8 * a <= j < 8 * (a + Z.of_nat k) -> bitn name j = true) \/
     (8 * a <= v < 8 * (a + Z.of_nat k) /\ bitn name v = false /\ forall j, 8 * a <= j < v -> bitn name j = true)).
Proof.
  induction k as [|k IH]; intros name a Hok Ha Hk; cbn [ffc_bytes].
  { exists (-1). split; [done | left]. split; [done |]. intros j Hj. lia. }
  destruct (byte_at_ret name a) as (b & E & Hb); [lia |]. rewrite E, ret_bind.
  assert (Hbit : forall m, 0 <= m < 8 -> bitn name (8 * a + m) = Z.testbit b m).
  { intros m Hm. unfold bitn.
    rewrite (Z.mul_comm 8), Z.div_add_l, Z.div_small, Z.add_0_r by lia.
    by rewrite Hb, Z.add_comm, Z.mod_add, Z.mod_small by lia. }
  assert (Hbyte : forall c j, (forall m, 0 <= m < c -> Z.testbit b m = true) -> c <= 8 -> 8 * a <= j < 8 * a + c -> bitn name j = true).
  { intros c j H Hc Hj. replace j with (8 * a + (j - 8 * a)) by lia. rewrite Hbit by lia. apply H. lia. }
  assert (Hib : is_byte b) by (by eapply Forall_lookup_1).
  destruct (Z.eqb_spec b 0xff) as [-> | N].
  - assert (H8 : forall m, 0 <= m < 8 -> Z.testbit 0xff m = true).
    { intros m Hm. change 0xff with (Z.ones 8). rewrite Z.ones_spec_low by lia. done. }
    destruct (IH name (a + 1)) as (v & Ev & [(-> & H) | (Hv & Hc & H)]); [done | lia | lia | |]; (eexists; split; [done |]).
    + left. split; [done |]. intros j Hj. destruct (decide (j < 8 * (a + 1))); [apply (Hbyte 8); (done || lia) | apply H; lia].
    + right. split_and!; [lia | lia | done |]. intros j Hj.
      destruct (decide (j < 8 * (a + 1))); [apply (Hbyte 8); (done || lia) | apply H; lia].
  - destruct (count_ones_spec 8 b (Z.shiftl a 3)) as (c & Hc & E' & H1 & H2). rewrite E'.
    rewrite Z.shiftl_mul_pow2 by lia. change (2 ^ 3) with 8. eexists. split; [done | right].
    assert (Hc8 : (c < 8)%nat).
    { destruct (decide (c = 8%nat)) as [-> |]; [| lia]. destruct N. by apply byte_bits. }
    destruct H2 as [-> | H2]; [lia |]. split_and!; [lia | lia | |].
    + replace (a * 8 + Z.of_nat c) with (8 * a + Z.of_nat c) by lia. rewrite Hbit by lia. done.
    + intros j Hj. apply (Hbyte (Z.of_nat c)); [done | lia | lia].
Qed.

(** The search finds the least clear bit, or says that there is none. *)
Lemma bit_ffc_least name nbits : bits_ok name -> 0 <= nbits -> holds_bits name nbits ->
  exists v, bit_ffc name nbits = Ret v /\
    ((v = -1 /\ forall j, 0 <= j < nbits -> bitn name j = true) \/
     (0 <= v < nbits /\ bitn name v = false /\ forall j, 0 <= j < v -> bitn name j = true)).
Proof.
  unfold holds_bits. intros Hok Hn Hl. unfold bit_ffc. destruct (Z.ltb_spec 0 nbits); cycle 1.
  { rewrite ret_bind. exists (-1). rewrite (proj2 (Z.leb_gt nbits (-1))) by lia. split; [done | left].
    split; [done |]. intros j Hj. lia. }
  rewrite bit_byte_div. pose proof (Z.div_mod (nbits - 1) 8). pose proof (Z.mod_pos_bound (nbits - 1) 8).
  pose proof (Z.div_pos (nbits - 1) 8).
  destruct (ffc_bytes_spec (Z.to_nat ((nbits - 1) / 8 + 1)) name 0) as (v & -> & Hv); [done | lia | lia |].
  rewrite ret_bind. eexists. split; [done |].
  destruct Hv as [(-> & Hj) | (Hv & Hc & Hj)].
  - rewrite (proj2 (Z.leb_gt nbits (-1))) by lia. left. split; [done |]. intros j Hlt. apply Hj. lia.
  - destruct (Z.leb_spec nbits v); [left; split; [done |]; intros j Hlt; apply Hj; lia |].
    right. split_and!; [lia | lia | done |]. intros j Hlt. apply Hj. lia.
Qed.

End Bytes.
