(* ===== verification/Dirfile.v ===== *)
(** * The directory file of the secure storage (fs_dirfile.c, fs_dirfile.h)

    A file of fixed-size entries that names the objects of all trusted applications; an
    entry is free when its [oidlen] is 0.  The file is reached through the operations
    [tee_fs_dirfile_operations], the class [DirfileOps]; the open directory is [dirh], with
    the bit string of the file numbers in use.  [wdir] is the world with the open directory. *)

From stdpp Require Import base numbers list.
From S2P Require Import Prelude SkTypes FsCore Bitstring.

Definition TEE_FS_HTREE_HASH_SIZE : Z := 32.

(** A file handle; [idx] is an [int]. *)
Record fileh := mkFileh { fl_file_number : Z; fl_hash : list Z; fl_idx : Z }.
#[export] Instance fileh_eq_dec : EqDecision fileh.
Proof. solve_decision. Defined.

Record dirfile_entry := mkDent {
  de_uuid : list Z; de_oid : list Z; de_oidlen : Z; de_hash : list Z; de_file_number : Z }.
#[export] Instance dent_eq_dec : EqDecision dirfile_entry.
Proof. solve_decision. Defined.

Definition SIZEOF_DENT : Z := 120.
Definition dent_of (b : list Z) : dirfile_entry :=
  mkDent (field b 0 16) (field b 16 64) (le_val (field b 80 4)) (field b 84 32) (le_val (field b 116 4)).
Definition dent_bytes (d : dirfile_entry) : list Z :=
  de_uuid d ++ de_oid d ++ le_bytes 4 (de_oidlen d) ++ de_hash d ++ le_bytes 4 (de_file_number d).
(** [memset(&dent, 0, sizeof(dent))]. *)
Definition zero_dent : dirfile_entry := mkDent (zeros 16) (zeros 64) 0 (zeros 32) 0.
(** [dent.hash] set. *)
Definition set_hash (d : dirfile_entry) (h : list Z) : dirfile_entry :=
  mkDent (de_uuid d) (de_oid d) (de_oidlen d) h (de_file_number d).

(** The file operations a user of the directory file supplies.  [hash] is read and, on
    creation, written; a read gives the bytes read; [close] takes NULL too. *)
Class DirfileOps (W FH : Type) := {
  fop_open : bool -> option (list Z) -> option (list Z) -> option fileh -> ex W (FH * option (list Z));
  fop_close : option FH -> st W unit;
  fop_read : FH -> Z -> Z -> ex W (list Z);
  fop_write : FH -> Z -> list Z -> ex W unit;
  fop_commit_writes : FH -> ex W (list Z) }.

Record dirh (FH : Type) := mkDirh { dh_fh : FH; dh_nbits : Z; dh_files : option (list Z); dh_ndents : Z }.
Arguments mkDirh {FH} _ _ _ _.
Arguments dh_fh {FH} _.
Arguments dh_nbits {FH} _.
Arguments dh_files {FH} _.
Arguments dh_ndents {FH} _.

Section Dirfile.
Context {W FH : Type} `{!HeapOps W, !DirfileOps W FH}.

Definition wdir : Type := W * dirh FH.

(** ** The bit string of file numbers; [idx] is an [int] *)

Definition maybe_grow_files (idx : Z) : ex wdir unit :=
  d ← get_d;
  if idx <? dh_nbits d then mret tt
  else
    _ ← assert_c (idx + 1 <? 2 ^ 31);
    p ← onW (call (realloc (default [] (dh_files d)) (bitstr_size (idx + 1))));
    match p with
    | None => throw TEE_ERROR_OUT_OF_MEMORY
    | Some p =>
        p ← pure_c (bit_nclear p (dh_nbits d) idx);
        put_d (mkDirh (dh_fh d) (idx + 1) (Some p) (dh_ndents d))
    end.

Definition set_file (idx : Z) : ex wdir unit :=
  _ ← maybe_grow_files idx;
  d ← get_d;
  p ← pure_c (f ← deref (dh_files d); bit_set f idx);
  put_d (mkDirh (dh_fh d) (dh_nbits d) (Some p) (dh_ndents d)).

Definition clear_file (idx : Z) : ex wdir unit :=
  d ← get_d;
  if idx <? dh_nbits d then
    p ← pure_c (f ← deref (dh_files d); bit_clear f idx);
    put_d (mkDirh (dh_fh d) (dh_nbits d) (Some p) (dh_ndents d))
  else mret tt.

Definition test_file (idx : Z) : ex wdir bool :=
  d ← get_d;
  if idx <? dh_nbits d then pure_c (f ← deref (dh_files d); bit_test f idx)
  else mret false.

(** ** Entries: [sizeof(struct dirfile_entry) * idx] is computed in [size_t] *)

Definition read_dent (idx : Z) : ex wdir dirfile_entry :=
  d ← get_d;
  b ← onW (fop_read (dh_fh d) (u64 (SIZEOF_DENT * u64 idx)) SIZEOF_DENT);
  if Z.of_nat (length b) =? SIZEOF_DENT then mret (dent_of b) else throw TEE_ERROR_ITEM_NOT_FOUND.

Definition write_dent (n : Z) (dent : dirfile_entry) : ex wdir unit :=
  d ← get_d;
  _ ← onW (fop_write (dh_fh d) (u64 (SIZEOF_DENT * n)) (dent_bytes dent));
  d ← get_d;
  if dh_ndents d <=? n then put_d (mkDirh (dh_fh d) (dh_nbits d) (dh_files d) (u64 (n + 1))) else mret tt.

(** ** Opening *)

Definition tee_fs_dirfile_close (d : dirh FH) : st W unit := fop_close (Some (dh_fh d)).

(** The loop of [tee_fs_dirfile_open]: the number of entries read. *)
Fixpoint open_loop (fuel : nat) (n : Z) : ex wdir Z :=
  match fuel with
  | O => pure_c Undef
  | S fuel =>
      r ← attempt (read_dent (i32 n));
      match r with
      | inr e => if e =? TEE_ERROR_ITEM_NOT_FOUND then mret n else throw e
      | inl dent =>
          if de_oidlen dent =? 0 then open_loop fuel (u64 (n + 1))
          else
            dup ← test_file (i32 (de_file_number dent));
            if dup : bool then
              _ ← write_dent n zero_dent;
              open_loop fuel (u64 (n + 1))
            else
              _ ← set_file (i32 (de_file_number dent));
              open_loop fuel (u64 (n + 1))
      end
  end.

(** The label [out]: the handle with the number of entries, or closed. *)
Definition open_entries (fuel : nat) (fh : FH) : ex W (dirh FH) := fun w =>
  match open_loop fuel 0 (w, mkDirh fh 0 None 0) with
  | Ret (inl n, (w, d)) => Ret (inl (mkDirh (dh_fh d) (dh_nbits d) (dh_files d) n), w)
  | Ret (inr e, (w, d)) => ex_bind _ _ (fun _ => throw e) (call (tee_fs_dirfile_close d)) w
  | Undef => Undef
  end.

(** [calloc] of the handle, 40 bytes; [fh] is NULL when the file could not be opened. *)
Definition tee_fs_dirfile_open (fuel : nat) (create : bool) (hash : option (list Z)) : ex W (dirh FH) :=
  m ← call (malloc 40);
  match m with
  | None => throw TEE_ERROR_OUT_OF_MEMORY
  | Some _ =>
      r ← attempt (fop_open create hash None None);
      match r with
      | inl (fh, _) => open_entries fuel fh
      | inr e => _ ← call (fop_close (None : option FH)); throw e
      end
  end.

Definition tee_fs_dirfile_commit_writes : ex wdir (list Z) :=
  d ← get_d; onW (fop_commit_writes (dh_fh d)).

(** ** Operations *)

(** The number of a new file; [idx] and [hash] of the handle stay as they are. *)
Definition tee_fs_dirfile_get_tmp (dfh : fileh) : ex wdir fileh :=
  d ← get_d;
  i ← (match dh_files d with
       | Some f => i ← pure_c (bit_ffc f (dh_nbits d)); mret (if i =? -1 then dh_nbits d else i)
       | None => mret 0
       end);
  _ ← set_file i;
  mret (mkFileh i (fl_hash dfh) (fl_idx dfh)).

(** [memcmp] of [n] bytes. *)
Definition same_bytes (a b : list Z) (n : Z) : bool := bool_decide (take (Z.to_nat n) a = take (Z.to_nat n) b).

Fixpoint find_loop (fuel : nat) (uuid oid : list Z) (oidlen n first_free : Z) : ex wdir fileh :=
  match fuel with
  | O => pure_c Undef
  | S fuel =>
      r ← attempt (read_dent n);
      match r with
      | inr e =>
          if (e =? TEE_ERROR_ITEM_NOT_FOUND) && (oidlen =? 0)
          then mret (mkFileh 0 (zeros 32) (if first_free =? -1 then n else first_free))
          else throw e
      | inl dent =>
          let first_free := if (de_oidlen dent =? 0) && (first_free =? -1) then n else first_free in
          let next := (_ ← assert_c (n + 1 <? 2 ^ 31); find_loop fuel uuid oid oidlen (n + 1) first_free) in
          if negb (de_oidlen dent =? oidlen) then next
          else
            ok ← (if (oidlen =? 0) || (de_oidlen dent =? 0) then mret true else test_file (i32 (de_file_number dent)));
            _ ← assert_c ok;
            _ ← assert_c (oidlen <=? TEE_OBJECT_ID_MAX_LEN);
            if same_bytes (de_uuid dent) uuid 16 && same_bytes (de_oid dent) oid oidlen
            then mret (mkFileh (de_file_number dent) (de_hash dent) n)
            else next
      end
  end.
Definition tee_fs_dirfile_find (fuel : nat) (uuid oid : list Z) (oidlen : Z) : ex wdir fileh :=
  find_loop fuel uuid oid oidlen 0 (-1).

(** The entry [rename] writes: [oidlen] bytes of [oid] in an array of zeros. *)
Definition named_dent (uuid oid : list Z) (oidlen : Z) (dfh : fileh) : dirfile_entry :=
  mkDent uuid (splice (zeros 64) 0 (take (Z.to_nat oidlen) oid)) (u32 oidlen) (fl_hash dfh) (fl_file_number dfh).

(** The handle with its index as written back; it is returned with the code. *)
Definition tee_fs_dirfile_rename (fuel : nat) (uuid : list Z) (dfh : fileh) (oid : list Z) (oidlen : Z) :
    ex wdir (fileh * Z) :=
  if (oidlen =? 0) || (TEE_OBJECT_ID_MAX_LEN <? oidlen) then mret (dfh, TEE_ERROR_BAD_PARAMETERS)
  else
    let dent := named_dent uuid oid oidlen dfh in
    r ← (if fl_idx dfh <? 0 then
           r ← attempt (tee_fs_dirfile_find fuel uuid oid oidlen);
           r ← (match r with
                | inl dfh2 => mret (inl dfh2)
                | inr e => if e =? TEE_ERROR_ITEM_NOT_FOUND
                           then attempt (tee_fs_dirfile_find fuel uuid [] 0) else mret (inr e)
                end);
           match r with
           | inl dfh2 => mret (inl (mkFileh (fl_file_number dfh) (fl_hash dfh) (fl_idx dfh2)))
           | inr e => mret (inr e)
           end
         else mret (inl dfh));
    match r with
    | inr e => mret (dfh, e)
    | inl dfh => r ← attempt (write_dent (u64 (fl_idx dfh)) dent); mret (dfh, code r)
    end.

Definition tee_fs_dirfile_remove (dfh : fileh) : ex wdir unit :=
  dent ← read_dent (fl_idx dfh);
  if de_oidlen dent =? 0 then mret tt
  else
    let file_number := de_file_number dent in
    _ ← assert_c (fl_file_number dfh =? file_number);
    used ← test_file (i32 file_number);
    _ ← assert_c used;
    _ ← write_dent (u64 (fl_idx dfh)) zero_dent;
    clear_file (i32 file_number).

Definition tee_fs_dirfile_update_hash (dfh : fileh) : ex wdir unit :=
  dent ← read_dent (fl_idx dfh);
  _ ← assert_c (de_file_number dent =? fl_file_number dfh);
  used ← test_file (i32 (de_file_number dent));
  _ ← assert_c used;
  write_dent (u64 (fl_idx dfh)) (set_hash dent (fl_hash dfh)).

(** The search of [get_next] from index [i] on. *)
Fixpoint next_loop (fuel : nat) (uuid : list Z) (i : Z) : ex wdir (Z * dirfile_entry) :=
  match fuel with
  | O => pure_c Undef
  | S fuel =>
      dent ← read_dent i;
      if same_bytes (de_uuid dent) uuid 16 && negb (de_oidlen dent =? 0) then mret (i, dent)
      else _ ← assert_c (i + 1 <? 2 ^ 31); next_loop fuel uuid (i + 1)
  end.

(** [*idx] and the [*oidlen] bytes of the identifier, which fit the buffer of [oidlen] bytes. *)
Definition tee_fs_dirfile_get_next (fuel : nat) (uuid : list Z) (idx oidlen : Z) : ex wdir (Z * list Z) :=
  _ ← assert_c (idx + 1 <? 2 ^ 31);
  let i := if idx + 1 <? 0 then 0 else idx + 1 in
  '(i, dent) ← next_loop fuel uuid i;
  if oidlen <? de_oidlen dent then throw TEE_ERROR_SHORT_BUFFER
  else
    _ ← assert_c (de_oidlen dent <=? TEE_OBJECT_ID_MAX_LEN);
    mret (i, take (Z.to_nat (de_oidlen dent)) (de_oid dent)).

End Dirfile.
Arguments wdir : clear implicits.

(** ** File names *)

(** [%x]: lower-case hexadecimal digits without leading zeros; a [uint32_t] has at most eight. *)
Definition hex_digit (d : Z) : Z := if d <? 10 then 48 + d else 87 + d.
Fixpoint hex_digits (fuel : nat) (z : Z) (acc : list Z) : list Z :=
  match fuel with
  | O => acc
  | S fuel =>
      let acc := hex_digit (z mod 16) :: acc in
      if z / 16 =? 0 then acc else hex_digits fuel (z / 16) acc
  end.
Definition hex_str (z : Z) : list Z := hex_digits 8 (u32 z) [].
(** "dirf.db". *)
Definition dirf_db : list Z := [100; 105; 114; 102; 46; 100; 98].

(** The bytes [snprintf] writes into a buffer of [l] bytes. *)
Definition snprintf_out (l : Z) (s : list Z) : list Z :=
  if l =? 0 then [] else take (Z.to_nat (l - 1)) s ++ [0].

(** The code, the buffer and [*fnlen]. *)
Definition tee_fs_dirfile_fileh_to_fname (dfh : option fileh) (fnlen : Z) : Z * list Z * Z :=
  let s := match dfh with Some dfh => hex_str (fl_file_number dfh) | None => dirf_db end in
  let r := Z.of_nat (length s) in
  ((if fnlen <=? r then TEE_ERROR_SHORT_BUFFER else TEE_SUCCESS), snprintf_out fnlen s, r + 1).
