(* ===== verification/DirfileTheorems.v ===== *)
(** * The directory file as a finite map of names

    [DirfileLaws] is what the directory file needs of the file operations under it; every
    call on an open directory is shown to act on the entries of the file, and through them
    on the map [dir_map] from names to file numbers and hashes. *)

From stdpp Require Import base numbers list gmap.
From S2P Require Import Prelude SkTypes FsCore Bitstring Dirfile.

(** ** The file operations: an open file is its bytes *)

(** A write at [pos], over the end of the file if need be, a gap filled with zeros. *)
Definition file_write (f : list Z) (pos : nat) (b : list Z) : list Z :=
  take pos (f ++ replicate (pos - length f) 0) ++ b ++ drop (pos + length b) f.

(** An error of the file itself, not the code for running out of entries. *)
Definition io_error (e : Z) : Prop := e <> TEE_SUCCESS /\ e <> TEE_ERROR_ITEM_NOT_FOUND.

(** After an error nothing is promised of the handle; running out of entries is not an error
    of the file operations. *)
Class DirfileLaws (W FH : Type) `{!HeapOps W, !DirfileOps W FH} := {
  fop_live : W -> FH -> Prop;
  fview : W -> FH -> list Z;
  fop_realloc : forall old n w fh, 0 <= n -> Forall is_byte old -> fop_live w fh -> exists r w', realloc old n w = Ret (r, w') /\
    fop_live w' fh /\ fview w' fh = fview w fh /\
    forall p, r = Some p -> is_block n p /\ (Z.of_nat (length old) <= n -> take (length old) p = old);
  fop_close_spec : forall fh w, exists w', fop_close fh w = Ret (tt, w');
  fop_read_spec : forall fh pos len w, fop_live w fh -> 0 <= pos -> 0 <= len -> pos + len < 2 ^ 63 ->
    wpx (fop_read fh pos len) w (fun r w' =>
      match r with
      | inl b => fop_live w' fh /\ fview w' fh = fview w fh /\ b = take (Z.to_nat len) (drop (Z.to_nat pos) (fview w fh))
      | inr e => io_error e
      end);
  fop_write_spec : forall fh pos b w, fop_live w fh -> 0 <= pos -> Forall is_byte b -> pos + Z.of_nat (length b) < 2 ^ 63 ->
    wpx (fop_write fh pos b) w (fun r w' =>
      match r with
      | inl _ => fop_live w' fh /\ fview w' fh = file_write (fview w fh) (Z.to_nat pos) b
      | inr e => io_error e
      end) }.

(** A filter that keeps no value twice. *)
Lemma NoDup_filter_at {A} (P : A -> Prop) `{!forall x, Decision (P x)} (l : list A) :
  (forall i j x, l !! i = Some x -> l !! j = Some x -> P x -> i = j) -> NoDup (filter P l).
Proof.
  induction l as [|x l IH]; intros HI; [constructor |].
  assert (Hl : NoDup (filter P l)) by (apply IH; intros i j y Hi Hj Hy; assert (S i = S j) by (by eapply (HI (S i) (S j))); lia).
  destruct (decide (P x)); [rewrite filter_cons_True by done | by rewrite filter_cons_False by done].
  constructor; [| done]. intros [Hx (i & Hi)%list_elem_of_lookup_1]%list_elem_of_filter.
  by assert (0%nat = S i) by (by eapply (HI 0%nat (S i))).
Qed.

(** ** Entries and their bytes *)

Definition dent_wf (d : dirfile_entry) : Prop :=
  length (de_uuid d) = 16%nat /\ length (de_oid d) = 64%nat /\ length (de_hash d) = 32%nat /\
  0 <= de_oidlen d < 2 ^ 32 /\ 0 <= de_file_number d < 2 ^ 32 /\
  Forall is_byte (de_uuid d) /\ Forall is_byte (de_oid d) /\ Forall is_byte (de_hash d).

Lemma dent_bytes_length d : dent_wf d -> length (dent_bytes d) = 120%nat.
Proof. intros (L1 & L2 & L3 & _). unfold dent_bytes. autorewrite with len. lia. Qed.

Lemma dent_bytes_ok d : dent_wf d -> Forall is_byte (dent_bytes d).
Proof.
  intros (_ & _ & _ & _ & _ & B1 & B2 & B3). unfold dent_bytes.
  rewrite !Forall_app. split_and!; auto using le_bytes_ok.
Qed.

Lemma dent_of_bytes d : dent_wf d -> dent_of (dent_bytes d) = d.
Proof.
  intros (L1 & L2 & L3 & H1 & H2 & _). unfold dent_of, dent_bytes. destruct d as [u o l h n]; cbn [de_uuid de_oid de_oidlen de_hash de_file_number] in *.
  f_equal.
  - by apply (field_mid [] u).
  - by apply field_mid.
  - rewrite (app_assoc u), (field_mid (u ++ o)), le_val_bytes by len. apply Z.mod_small. lia.
  - rewrite (app_assoc u), (app_assoc (u ++ o)). apply field_mid; len.
  - rewrite (app_assoc u), (app_assoc (u ++ o)), (app_assoc ((u ++ o) ++ _)), <- (app_nil_r (le_bytes 4 n)).
    rewrite field_mid, le_val_bytes by len. apply Z.mod_small. lia.
Qed.

Lemma zero_dent_wf : dent_wf zero_dent.
Proof. split_and!; try done; try (cbn; lia); cbn; repeat constructor; lia. Qed.

(** The bytes of a file of entries. *)
Definition dents_bytes (l : list dirfile_entry) : list Z := concat (dent_bytes <$> l).

Lemma dents_bytes_length l : Forall dent_wf l -> length (dents_bytes l) = (120 * length l)%nat.
Proof.
  unfold dents_bytes. induction 1 as [|d l Hd _ IH]; [done |]. cbn. rewrite length_app, IH, dent_bytes_length by done. lia.
Qed.

Lemma dents_bytes_drop l i : Forall dent_wf l -> drop (120 * i) (dents_bytes l) = dents_bytes (drop i l).
Proof.
  intros H. revert i. induction H as [|d l Hd _ IH]; intros i; [unfold dents_bytes; cbn; by rewrite !drop_nil |]. destruct i as [|i]; [done |].
  replace (120 * S i)%nat with (length (dent_bytes d) + 120 * i)%nat by (rewrite dent_bytes_length by done; lia).
  unfold dents_bytes at 1. cbn [fmap list_fmap concat]. rewrite drop_app_add. apply IH.
Qed.

Lemma dents_bytes_take l i : Forall dent_wf l -> take (120 * i) (dents_bytes l) = dents_bytes (take i l).
Proof.
  intros H. revert i. induction H as [|d l Hd _ IH]; intros i; [unfold dents_bytes; cbn; by rewrite !take_nil |]. destruct i as [|i]; [done |].
  replace (120 * S i)%nat with (length (dent_bytes d) + 120 * i)%nat by (rewrite dent_bytes_length by done; lia).
  unfold dents_bytes at 1. cbn [fmap list_fmap concat]. rewrite take_app_add. cbn. f_equal. apply IH.
Qed.

Lemma dents_bytes_app l k : dents_bytes (l ++ k) = dents_bytes l ++ dents_bytes k.
Proof. unfold dents_bytes. by rewrite fmap_app, concat_app. Qed.

(** Setting entry [n], at most one past the end. *)
Definition set_dent (l : list dirfile_entry) (n : nat) (d : dirfile_entry) : list dirfile_entry :=
  take n l ++ d :: drop (S n) l.

Lemma dents_bytes_set l n d : Forall dent_wf l -> dent_wf d -> (n <= length l)%nat ->
  file_write (dents_bytes l) (120 * n) (dent_bytes d) = dents_bytes (set_dent l n d).
Proof.
  intros Hl Hd Hn. unfold file_write, set_dent. rewrite dents_bytes_app.
  replace (120 * n - length (dents_bytes l))%nat with 0%nat by (rewrite dents_bytes_length by done; lia).
  cbn [replicate]. rewrite app_nil_r, dents_bytes_take by done. f_equal.
  unfold dents_bytes at 2. cbn [fmap list_fmap concat]. f_equal. rewrite dent_bytes_length by done.
  replace (120 * n + 120)%nat with (120 * S n)%nat by lia. by apply dents_bytes_drop.
Qed.

Lemma set_dent_lt l n d : (n < length l)%nat -> set_dent l n d = <[n := d]> l.
Proof. intros H. unfold set_dent. symmetry. by apply insert_take_drop. Qed.
Lemma set_dent_end l d : set_dent l (length l) d = l ++ [d].
Proof. unfold set_dent. by rewrite firstn_all, drop_ge by lia. Qed.
Lemma set_dent_length l n d : (n <= length l)%nat -> length (set_dent l n d) = (length l `max` S n)%nat.
Proof. intros. unfold set_dent. len. Qed.
Lemma set_dent_wf l n d : Forall dent_wf l -> dent_wf d -> Forall dent_wf (set_dent l n d).
Proof. intros Hl Hd. unfold set_dent. apply Forall_app. split; [by apply Forall_take |]. constructor; [done | by apply Forall_drop]. Qed.

Lemma set_dent_lookup l n d i : (n <= length l)%nat ->
  set_dent l n d !! i = if decide (i = n) then Some d else l !! i.
Proof.
  intros Hn. destruct (decide (n = length l)) as [-> |].
  - rewrite set_dent_end. destruct (decide (i = length l)) as [-> | Hi].
    + by rewrite lookup_app_r, Nat.sub_diag by lia.
    + destruct (decide (i < length l)%nat); [by rewrite lookup_app_l by lia |].
      rewrite !lookup_ge_None_2; [done | lia | len].
  - rewrite set_dent_lt by lia. destruct (decide (i = n)) as [-> | Hi].
    + by rewrite list_lookup_insert_eq by lia.
    + by rewrite list_lookup_insert_ne by done.
Qed.

(** ** The open directory *)

Section Directory.
Context {W FH : Type} `{DirfileLaws W FH}.
Implicit Types (s : wdir W FH) (d : dirh FH) (ents : list dirfile_entry).

(** File number [i] is marked in the bit string. *)
Definition in_use d (i : Z) : bool :=
  (0 <=? i) && (i <? dh_nbits d) && match dh_files d with Some f => bitn f i | None => false end.

Definition files_ok d : Prop :=
  0 <= dh_nbits d < 2 ^ 31 /\
  match dh_files d with Some f => bits_ok f /\ Z.of_nat (length f) = bitstr_size (dh_nbits d) | None => dh_nbits d = 0 end.

(** The file holds the entries. *)
Record dir_file s ents : Prop := {
  df_live : fop_live (fst s) (dh_fh (snd s));
  df_view : fview (fst s) (dh_fh (snd s)) = dents_bytes ents;
  df_wf : Forall dent_wf ents;
  df_files : files_ok (snd s);
  df_len : Z.of_nat (length ents) < 2 ^ 31 - 1 }.

(** Every entry in use has its file number marked, and no other entry has it. *)
Record dents_ok d ents : Prop := {
  do_used : forall i e, ents !! i = Some e -> de_oidlen e <> 0 ->
    de_oidlen e <= TEE_OBJECT_ID_MAX_LEN /\ in_use d (de_file_number e) = true;
  do_nodup : forall i j e e', ents !! i = Some e -> ents !! j = Some e' ->
    de_oidlen e <> 0 -> de_oidlen e' <> 0 -> de_file_number e = de_file_number e' -> i = j }.

Definition dir_inv s ents : Prop :=
  dir_file s ents /\ dents_ok (snd s) ents /\ dh_ndents (snd s) = Z.of_nat (length ents).

Lemma bitstr_size_holds n : 0 <= n -> n <= 8 * bitstr_size n < n + 8.
Proof.
  intros Hn. rewrite bitstr_size_div. pose proof (Z.div_mod (n + 7) 8). pose proof (Z.mod_pos_bound (n + 7) 8). lia.
Qed.

Lemma files_bits d i : files_ok d -> 0 <= i < dh_nbits d ->
  exists f, dh_files d = Some f /\ bits_ok f /\ holds_bits f (dh_nbits d) /\ in_use d i = bitn f i /\
    0 <= i < 8 * Z.of_nat (length f) /\ Z.of_nat (length f) = bitstr_size (dh_nbits d).
Proof.
  intros [Hn Hf] Hi. destruct (dh_files d) as [f|] eqn:E; [| lia]. destruct Hf as [Hok Hb].
  pose proof (bitstr_size_holds (dh_nbits d)).
  exists f. unfold in_use, holds_bits in *. rewrite E, (proj2 (Z.leb_le 0 i)), (proj2 (Z.ltb_lt i (dh_nbits d))) by lia.
  split_and!; (done || lia).
Qed.

Lemma in_use_bound d i : in_use d i = true -> 0 <= i < dh_nbits d.
Proof. unfold in_use. intros E. boolz. lia. Qed.

(** Changing bits of the string, over the numbers it has room for. *)
Lemma in_use_upd d f f' g nd : dh_files d = Some f -> holds_bits f (dh_nbits d) -> bits_upd f f' g ->
  forall j, in_use (mkDirh (dh_fh d) (dh_nbits d) (Some f') nd) j =
    (0 <=? j) && (j <? dh_nbits d) && g j (in_use d j).
Proof.
  intros E Hb (L & _ & B) j. unfold in_use, holds_bits in *. cbn. rewrite E.
  destruct (Z.leb_spec 0 j), (Z.ltb_spec j (dh_nbits d)); try done. cbn. apply B. lia.
Qed.

Lemma test_file_spec s i : files_ok (snd s) -> 0 <= i ->
  wpx (test_file i) s (fun r s' => r = inl (in_use (snd s) i) /\ s' = s).
Proof.
  intros Hf Hi. unfold test_file. apply wpx_bind, wpx_get_d. destruct (Z.ltb_spec i (dh_nbits (snd s))).
  - destruct (files_bits (snd s) i) as (f & E & _ & _ & U & Hl & _); [done | lia |].
    eapply wpx_pure; [by rewrite E; cbn; rewrite bit_test_spec by done | by rewrite U].
  - apply wpx_ret. split; [| done]. unfold in_use.
    rewrite (proj2 (Z.ltb_ge i (dh_nbits (snd s)))), andb_false_r by lia. done.
Qed.

(** The open directory after a change of the bit string only. *)
Definition same_file s s' : Prop :=
  dh_fh (snd s') = dh_fh (snd s) /\ dh_ndents (snd s') = dh_ndents (snd s) /\
  fop_live (fst s') (dh_fh (snd s)) /\ fview (fst s') (dh_fh (snd s)) = fview (fst s) (dh_fh (snd s)).

Lemma dir_file_same s s' ents : dir_file s ents -> same_file s s' -> files_ok (snd s') -> dir_file s' ents.
Proof.
  intros [L V Wf F Ln] (E & _ & L' & V') F'. split; rewrite ?E; [done | by rewrite V' | done..].
Qed.

Lemma maybe_grow_files_spec s i : fop_live (fst s) (dh_fh (snd s)) -> files_ok (snd s) -> 0 <= i < 2 ^ 31 - 1 ->
  wpx (maybe_grow_files i) s (fun r s' => same_file s s' /\
    match r with
    | inl _ => files_ok (snd s') /\ i < dh_nbits (snd s') /\ forall j, in_use (snd s') j = in_use (snd s) j
    | inr e => e = TEE_ERROR_OUT_OF_MEMORY /\ snd s' = snd s
    end).
Proof.
  intros HL Hf Hi. unfold maybe_grow_files. destruct s as [w d]. cbn [fst snd] in *.
  apply wpx_bind, wpx_get_d. cbn [snd]. destruct (Z.ltb_spec i (dh_nbits d)); [by apply wpx_ret |].
  apply wpx_bind, wpx_assert; [apply Z.ltb_lt; lia |]. apply wpx_bind, wpx_onW.
  set (old := default [] (dh_files d)). destruct Hf as [Hn Hf].
  pose proof (bitstr_size_holds (i + 1)). pose proof (bitstr_size_holds (dh_nbits d)).
  destruct (fop_realloc old (bitstr_size (i + 1)) w (dh_fh d)) as (r & w' & E & HL' & HV' & Hp); [lia | | done |].
  { subst old. destruct (dh_files d); [apply Hf | constructor]. }
  eapply wpx_call; [exact E |]. destruct r as [p|]; [| by apply wpx_throw].
  destruct (Hp p eq_refl) as [[Hlen Hb] Hold].
  destruct (bit_nclear_spec p (dh_nbits d) i) as (p' & Ep & L & O & B); [lia | lia |].
  apply wpx_bind. eapply wpx_pure; [exact Ep |]. apply wpx_put_d. cbn [fst snd]. split; [done |].
  assert (Hbits : forall j, 0 <= j < dh_nbits d -> bitn p j = bitn old j).
  { intros j Hj. destruct (dh_files d) as [f|] eqn:Ef; [| lia]. destruct Hf as [_ Hf].
    subst old. cbn in *. unfold bitn. rewrite <- Hold at 1 by lia.
    pose proof (in_bytes f j). rewrite lookup_take_lt by lia. done. }
  split_and!.
  - split; cbn; [lia |]. split; [by apply O | lia].
  - cbn. lia.
  - intros j. unfold in_use. cbn. destruct (Z.leb_spec 0 j); [| done]. cbn.
    destruct (Z.ltb_spec j (i + 1)).
    + rewrite B by lia. destruct (Z.ltb_spec j (dh_nbits d)).
      * rewrite (proj2 (Z.leb_gt (dh_nbits d) j)), Hbits by lia. subst old. by destruct (dh_files d); [| lia].
      * rewrite (proj2 (Z.leb_le (dh_nbits d) j)), (proj2 (Z.leb_le j i)) by lia. done.
    + rewrite (proj2 (Z.ltb_ge j (dh_nbits d))) by lia. done.
Qed.

Lemma set_file_spec s i : fop_live (fst s) (dh_fh (snd s)) -> files_ok (snd s) -> 0 <= i < 2 ^ 31 - 1 ->
  wpx (set_file i) s (fun r s' => same_file s s' /\
    match r with
    | inl _ => files_ok (snd s') /\ forall j, in_use (snd s') j = (j =? i) || in_use (snd s) j
    | inr e => e = TEE_ERROR_OUT_OF_MEMORY /\ snd s' = snd s
    end).
Proof.
  intros HL Hf Hi. unfold set_file. apply wpx_bind. eapply wpx_mono; [by apply maybe_grow_files_spec |].
  cbn beta. intros [[]|e] [w d] (HS & HG); [| done]. destruct HG as (Hf' & Hb & HU).
  apply wpx_bind, wpx_get_d. cbn [fst snd] in *.
  destruct (files_bits d i) as (f & E & Hok & Hh & U & Hl & Hlen); [done | lia |].
  destruct (bit_set_spec f i Hl) as (f' & Ef & HB). pose proof HB as (L & O & B). apply wpx_bind.
  eapply wpx_pure; [by rewrite E; cbn; rewrite Ef |]. apply wpx_put_d. cbn [fst snd]. split; [done |].
  split; [split; cbn; [apply Hf' | split; [by apply O | by rewrite L]] |]. intros j.
  rewrite (in_use_upd d f f' _ _ E Hh HB), HU.
  destruct (Z.eqb_spec j i) as [-> |]; cbn.
  - by rewrite (proj2 (Z.leb_le 0 i)), (proj2 (Z.ltb_lt i (dh_nbits d))) by lia.
  - destruct (in_use (snd s) j) eqn:U'; [| by rewrite andb_false_r]. rewrite <- HU in U'. apply in_use_bound in U'.
    by rewrite (proj2 (Z.leb_le 0 j)), (proj2 (Z.ltb_lt j (dh_nbits d))) by lia.
Qed.

Lemma clear_file_spec s i : fop_live (fst s) (dh_fh (snd s)) -> files_ok (snd s) -> 0 <= i ->
  wpx (clear_file i) s (fun r s' => same_file s s' /\ r = inl tt /\ files_ok (snd s') /\
    forall j, in_use (snd s') j = negb (j =? i) && in_use (snd s) j).
Proof.
  intros HL Hf Hi. unfold clear_file. destruct s as [w d]. cbn [fst snd] in *. apply wpx_bind, wpx_get_d. cbn [snd].
  destruct (Z.ltb_spec i (dh_nbits d)).
  - destruct (files_bits d i) as (f & E & Hok & Hh & U & Hl & Hlen); [done | lia |].
    destruct (bit_clear_spec f i Hl) as (f' & Ef & HB). pose proof HB as (L & O & B). apply wpx_bind.
    eapply wpx_pure; [by rewrite E; cbn; rewrite Ef |]. apply wpx_put_d. cbn [fst snd]. split_and!; [done.. | |].
    + split; cbn; [apply Hf | split; [by apply O | by rewrite L]].
    + intros j. rewrite (in_use_upd d f f' _ _ E Hh HB). unfold in_use.
      destruct (0 <=? j), (j <? dh_nbits d), (j =? i); done.
  - apply wpx_ret. cbn. split_and!; [done.. |]. intros j. destruct (Z.eqb_spec j i) as [-> |]; [| done].
    unfold in_use. by rewrite (proj2 (Z.ltb_ge i (dh_nbits d))), andb_false_r by lia.
Qed.

(** ** Reading and writing entries *)

Lemma dent_pos i : 0 <= i < 2 ^ 31 -> u64 (SIZEOF_DENT * u64 i) = 120 * i.
Proof. intros Hi. unfold SIZEOF_DENT. rewrite (u64_small i), u64_small by lia. done. Qed.

Lemma read_dent_spec s ents i : dir_file s ents -> 0 <= i < 2 ^ 31 ->
  wpx (read_dent i) s (fun r s' =>
    match r with
    | inl e => ents !! Z.to_nat i = Some e /\ dir_file s' ents /\ snd s' = snd s
    | inr e => io_error e \/ e = TEE_ERROR_ITEM_NOT_FOUND /\ Z.of_nat (length ents) <= i /\ dir_file s' ents /\ snd s' = snd s
    end).
Proof.
  intros HD Hi. unfold read_dent. destruct s as [w d]. apply wpx_bind, wpx_get_d. apply wpx_bind, wpx_onW.
  cbn [fst snd]. rewrite dent_pos by done. pose proof (df_wf _ _ HD) as Hwf.
  eapply wpx_mono; [apply fop_read_spec; [apply HD | unfold SIZEOF_DENT; lia..] |].
  cbn beta. intros [b|e] w' HR; [| by left]. destruct HR as (HL' & HV' & ->).
  pose proof (df_view _ _ HD) as HV. cbn [fst snd] in HV. rewrite HV.
  replace (Z.to_nat (120 * i)) with (120 * Z.to_nat i)%nat by lia. rewrite dents_bytes_drop by done.
  assert (HD' : dir_file (w', d) ents) by (eapply (dir_file_same (w, d)); [done | done | apply HD]).
  destruct (decide (i < Z.of_nat (length ents))) as [Hlt|Hge].
  - destruct (lookup_lt_is_Some_2 ents (Z.to_nat i)) as [e He]; [lia |].
    assert (Hw : dent_wf e) by (by eapply Forall_lookup_1).
    rewrite (drop_S _ _ _ He). unfold dents_bytes. cbn [fmap list_fmap concat].
    change (Z.to_nat SIZEOF_DENT) with 120%nat.
    rewrite <- (dent_bytes_length e Hw), take_app_length, dent_bytes_length by done.
    apply wpx_ret. rewrite dent_of_bytes by done. done.
  - rewrite (drop_ge ents) by lia. change (dents_bytes []) with (@nil Z). rewrite take_nil. apply wpx_throw. right. split_and!; [done | lia | done..].
Qed.

Lemma write_dent_spec s ents n e : dir_file s ents -> dent_wf e -> 0 <= n <= Z.of_nat (length ents) -> n < 2 ^ 31 - 2 ->
  wpx (write_dent n e) s (fun r s' =>
    match r with
    | inl _ => dir_file s' (set_dent ents (Z.to_nat n) e) /\
        dh_fh (snd s') = dh_fh (snd s) /\ (forall j, in_use (snd s') j = in_use (snd s) j) /\
        dh_ndents (snd s') = Z.max (dh_ndents (snd s)) (n + 1)
    | inr e => io_error e
    end).
Proof.
  intros HD Hw Hn Hn31. unfold write_dent. destruct s as [w d]. apply wpx_bind, wpx_get_d. apply wpx_bind, wpx_onW.
  cbn [fst snd]. unfold SIZEOF_DENT. rewrite u64_small by lia.
  pose proof (df_wf _ _ HD) as Hwf. pose proof (df_len _ _ HD) as Hlen.
  eapply wpx_mono; [apply fop_write_spec; [apply HD | lia | by apply dent_bytes_ok | rewrite dent_bytes_length by done; lia] |].
  cbn beta. intros [[]|x] w' HR; [| done]. destruct HR as (HL' & HV').
  pose proof (df_view _ _ HD) as HV. cbn [fst snd] in HV. rewrite HV in HV'. replace (Z.to_nat (120 * n)) with (120 * Z.to_nat n)%nat in HV' by lia.
  rewrite dents_bytes_set in HV' by (done || lia).
  assert (HD' : forall nd, dir_file (w', mkDirh (dh_fh d) (dh_nbits d) (dh_files d) nd) (set_dent ents (Z.to_nat n) e)).
  { intros nd. split; cbn; [done | done | by apply set_dent_wf | apply HD | rewrite set_dent_length by lia; lia]. }
  apply wpx_bind, wpx_get_d. cbn [snd]. destruct (Z.leb_spec (dh_ndents d) n).
  - apply wpx_put_d. cbn. rewrite u64_small by lia. split_and!; [apply HD' | done | done | lia].
  - apply wpx_ret. cbn. specialize (HD' (dh_ndents d)). split_and!; [by destruct d | done | done | lia].
Qed.

(** ** Finding entries *)

Definition live_dent (e : dirfile_entry) : Prop := de_oidlen e <> 0.
(** The name of an entry in use: the application and the identifier. *)
Definition dent_key (e : dirfile_entry) : list Z * list Z := (de_uuid e, take (Z.to_nat (de_oidlen e)) (de_oid e)).
Definition named e (k : list Z * list Z) : Prop := live_dent e /\ dent_key e = k.

Definition unnamed ents (k : list Z * list Z) (n : Z) : Prop :=
  forall j e, Z.of_nat j < n -> ents !! j = Some e -> ~ named e k.

(** Names as callers pass them: a UUID and an identifier of 1 to 64 bytes. *)
Definition name_ok (uuid oid : list Z) : Prop :=
  length uuid = 16%nat /\ (1 <= length oid <= 64)%nat /\ Forall is_byte uuid /\ Forall is_byte oid.

Lemma same_name e uuid oid : dent_wf e -> name_ok uuid oid -> de_oidlen e = Z.of_nat (length oid) ->
  same_bytes (de_uuid e) uuid 16 && same_bytes (de_oid e) oid (Z.of_nat (length oid)) = true <-> named e (uuid, oid).
Proof.
  intros (L1 & L2 & _) (Hu & Ho & _) El. unfold same_bytes, named, live_dent, dent_key.
  rewrite andb_true_iff, !bool_decide_eq_true, El, Nat2Z.id, firstn_all.
  rewrite !(take_ge _ (Z.to_nat 16)) by lia. split; [intros [-> ->]; split; [lia | done] | by intros [_ [= -> ->]]].
Qed.

Lemma named_length e uuid oid : dent_wf e -> de_oidlen e <= 64 -> named e (uuid, oid) -> de_oidlen e = Z.of_nat (length oid).
Proof. intros (_ & L2 & _ & Hl & _) H64 [_ [= _ <-]]. len. Qed.

Lemma wf_at s ents i e : dir_file s ents -> ents !! i = Some e -> dent_wf e.
Proof. intros HD He. eapply Forall_lookup_1; [apply (df_wf _ _ HD) | done]. Qed.

Lemma file_number_i32 d e : files_ok d -> in_use d (de_file_number e) = true ->
  0 <= de_file_number e < 2 ^ 31 - 1 /\ i32 (de_file_number e) = de_file_number e.
Proof. intros [Hn _] U%in_use_bound. split; [lia |]. apply i32_small. lia. Qed.

(** The first entry with the name, or none; a free entry, or the end of the file. *)
Definition find_post s ents (k : list Z * list Z) (r : fileh + Z) s' : Prop :=
  match r with
  | inl h => exists i e, dir_file s' ents /\ snd s' = snd s /\ ents !! i = Some e /\ named e k /\
      h = mkFileh (de_file_number e) (de_hash e) (Z.of_nat i) /\ unnamed ents k (Z.of_nat i)
  | inr e => io_error e \/ e = TEE_ERROR_ITEM_NOT_FOUND /\
      dir_file s' ents /\ snd s' = snd s /\ unnamed ents k (Z.of_nat (length ents))
  end.
Definition free_post s ents (r : fileh + Z) s' : Prop :=
  match r with
  | inl h => dir_file s' ents /\ snd s' = snd s /\ 0 <= fl_idx h <= Z.of_nat (length ents) /\
      forall e, ents !! Z.to_nat (fl_idx h) = Some e -> ~ live_dent e
  | inr e => io_error e
  end.

Lemma dir_find_loop_spec uuid oid : name_ok uuid oid -> forall fuel s ents n ff,
  dir_file s ents -> dents_ok (snd s) ents -> 0 <= n <= Z.of_nat (length ents) ->
  Z.of_nat (length ents) - n < Z.of_nat fuel -> unnamed ents (uuid, oid) n ->
  wpx (find_loop fuel uuid oid (Z.of_nat (length oid)) n ff) s (find_post s ents (uuid, oid)).
Proof.
  intros Hn. induction fuel as [|fuel IH]; intros s ents n ff HD HO Hr Hf HU; [lia |].
  pose proof (df_len _ _ HD) as Hlen. destruct Hn as (Hu & Ho & HB). pose proof (conj Hu (conj Ho HB) : name_ok uuid oid) as Hn.
  cbn [find_loop]. apply wpx_bind, wpx_attempt. eapply wpx_mono; [by apply read_dent_spec; [| lia] |].
  cbn beta. intros [e|c] s' HR.
  2:{ assert (E0 : (Z.of_nat (length oid) =? 0) = false) by (apply Z.eqb_neq; lia). rewrite E0, andb_false_r.
      apply wpx_throw. destruct HR as [HR | (Ec & Hge & HD' & Es)]; [by left | right]. split_and!; [done.. |].
      intros j e Hj He. apply (HU j e); [| done]. apply lookup_lt_Some in He. lia. }
  destruct HR as (He & HD' & Es). set (ff' := if _ && _ then n else ff).
  assert (HN : ~ named e (uuid, oid) ->
    wpx (_ ← assert_c (n + 1 <? 2 ^ 31); find_loop fuel uuid oid (Z.of_nat (length oid)) (n + 1) ff') s' (find_post s ents (uuid, oid))).
  { intros Hne. apply lookup_lt_Some in He as Hlt. apply wpx_bind, wpx_assert; [apply Z.ltb_lt; lia |].
    replace (find_post s) with (find_post s') by (unfold find_post; by rewrite Es).
    apply IH; [done | by rewrite Es | lia | lia |].
    intros j e' Hj He'. destruct (decide (Z.of_nat j = n)) as [Ej|]; [| apply (HU j); [lia | done]].
    replace j with (Z.to_nat n) in He' by lia. congruence. }
  pose proof (wf_at _ _ _ _ HD He) as Hw.
  destruct (Z.eqb_spec (de_oidlen e) (Z.of_nat (length oid))) as [El|Nl]; cbn [negb].
  2:{ apply HN. intros Hnm. destruct (do_used _ _ HO _ _ He (proj1 Hnm)) as [H64 _]. by eapply Nl, named_length. }
  rewrite El. rewrite (proj2 (Z.eqb_neq (Z.of_nat (length oid)) 0)) by lia. cbn [orb].
  destruct (do_used _ _ HO _ _ He) as [H64 Hin]; [lia |].
  destruct (file_number_i32 _ _ (df_files _ _ HD) Hin) as [Hfn ->].
  apply wpx_bind. eapply wpx_mono; [apply test_file_spec; [apply HD' | lia] |]. cbn beta. intros ? ? [-> ->].
  rewrite Es, Hin. apply wpx_bind, wpx_assert; [done |]. apply wpx_bind, wpx_assert; [apply Z.leb_le; unfold TEE_OBJECT_ID_MAX_LEN; lia |].
  pose proof (same_name e uuid oid Hw Hn El) as HS.
  destruct (same_bytes _ _ _ && same_bytes _ _ _); [| apply HN; intros Hnm; by apply HS in Hnm].
  apply wpx_ret. exists (Z.to_nat n), e. rewrite Z2Nat.id by lia. split_and!; [done.. | by apply HS | done | done].
Qed.

Lemma find_free_spec uuid : forall fuel s ents n ff,
  dir_file s ents -> 0 <= n <= Z.of_nat (length ents) -> Z.of_nat (length ents) - n < Z.of_nat fuel ->
  (ff = -1 \/ 0 <= ff < n /\ exists e, ents !! Z.to_nat ff = Some e /\ ~ live_dent e) ->
  wpx (find_loop fuel uuid [] 0 n ff) s (free_post s ents).
Proof.
  induction fuel as [|fuel IH]; intros s ents n ff HD Hr Hf HF; [lia |].
  pose proof (df_len _ _ HD) as Hlen.
  cbn [find_loop]. apply wpx_bind, wpx_attempt. eapply wpx_mono; [by apply read_dent_spec; [| lia] |].
  cbn beta. intros [e|c] s' HR.
  2:{ destruct (Z.eqb_spec c TEE_ERROR_ITEM_NOT_FOUND) as [Ec|]; [| apply wpx_throw; by destruct HR as [HR | (? & _)]].
      destruct HR as [[_ ?] | (_ & Hge & HD' & Es)]; [done |]. cbn [andb Z.eqb]. apply wpx_ret. unfold free_post. cbn [fl_idx]. split; [done |]. split; [done |].
      destruct HF as [-> | (Hff & e & He & Hnl)].
      - cbn. split; [lia |]. intros e He. apply lookup_lt_Some in He. lia.
      - rewrite (proj2 (Z.eqb_neq ff (-1))) by lia. split; [lia |]. intros e' He'. assert (e' = e) as -> by congruence. done. }
  destruct HR as (He & HD' & Es). apply lookup_lt_Some in He as Hlt.
  set (ff' := if _ && _ then n else ff).
  assert (HN : wpx (_ ← assert_c (n + 1 <? 2 ^ 31); find_loop fuel uuid [] 0 (n + 1) ff') s' (free_post s ents)).
  { apply wpx_bind, wpx_assert; [apply Z.ltb_lt; lia |]. replace (free_post s) with (free_post s') by (unfold free_post; by rewrite Es).
    apply IH; [done | lia | lia |]. subst ff'. destruct (Z.eqb_spec (de_oidlen e) 0) as [E0|], (Z.eqb_spec ff (-1)); cbn [andb];
      try (destruct HF as [| (? & HF)]; [by left | right; split; [lia | done]]).
    right. split; [lia |]. exists e. split; [done |]. unfold live_dent. lia. }
  destruct (Z.eqb_spec (de_oidlen e) 0) as [E0|]; cbn [negb]; [| done]. cbn [orb Z.eqb].
  apply wpx_bind, wpx_ret, wpx_bind, wpx_assert; [done |]. apply wpx_bind, wpx_assert; [done |].
  destruct (same_bytes _ _ _ && same_bytes _ _ _); [| done]. apply wpx_ret. unfold free_post. cbn [fl_idx]. split_and!; [done | done | lia | lia |].
  intros e' He'. assert (e' = e) as -> by congruence. unfold live_dent. lia.
Qed.

(** ** The entries as a map of names *)

Lemma dents_ok_bits d d' ents : dents_ok d ents ->
  (forall i e, ents !! i = Some e -> live_dent e -> in_use d (de_file_number e) = true -> in_use d' (de_file_number e) = true) ->
  dents_ok d' ents.
Proof.
  intros [HU HN] H'. split; [| done]. intros i e He Hl. destruct (HU i e He Hl). split; [done |]. by eapply H'.
Qed.

(** A live entry put in place needs a marked number that no other entry has. *)
Lemma dents_ok_set d ents n e : dents_ok d ents -> (n <= length ents)%nat ->
  (live_dent e -> de_oidlen e <= TEE_OBJECT_ID_MAX_LEN /\ in_use d (de_file_number e) = true /\
     forall j e', j <> n -> ents !! j = Some e' -> live_dent e' -> de_file_number e' <> de_file_number e) ->
  dents_ok d (set_dent ents n e).
Proof.
  intros [HU HN] Hn He. split.
  - intros i x. rewrite set_dent_lookup by done. destruct (decide (i = n)); [| apply HU].
    intros [= <-] Hl. by destruct (He Hl) as (? & ? & _).
  - intros i j x y. rewrite !set_dent_lookup by done.
    destruct (decide (i = n)), (decide (j = n)); subst; try done; [| | by apply HN].
    + intros [= <-] Hy Hl Hl' E. destruct (He Hl) as (_ & _ & H'). by destruct (H' j y).
    + intros Hx [= <-] Hl Hl' E. destruct (He Hl') as (_ & _ & H'). by destruct (H' i x).
Qed.

Definition names ents (m : gmap (list Z * list Z) (Z * list Z)) : Prop :=
  forall k v, m !! k = Some v <-> exists i e, ents !! i = Some e /\ named e k /\ v = (de_file_number e, de_hash e).

Section Names.
Context (d : dirh FH) (ents : list dirfile_entry) (m : gmap (list Z * list Z) (Z * list Z)).
Context (HO : dents_ok d ents) (HM : names ents m).

Lemma names_at i e k : ents !! i = Some e -> named e k -> m !! k = Some (de_file_number e, de_hash e).
Proof using HM. intros He Hk. apply HM. by exists i, e. Qed.

Lemma names_unique i j e e' k : ents !! i = Some e -> ents !! j = Some e' -> named e k -> named e' k -> i = j.
Proof using HM HO.
  intros Hi Hj Hk Hk'. pose proof (names_at _ _ _ Hi Hk). pose proof (names_at _ _ _ Hj Hk').
  eapply (do_nodup _ _ HO); [done | done | apply Hk | apply Hk' | congruence].
Qed.

Lemma names_none k : unnamed ents k (Z.of_nat (length ents)) -> m !! k = None.
Proof using HM.
  intros HU. destruct (m !! k) as [v|] eqn:E; [| done]. apply HM in E as (i & e & He & Hk & _).
  destruct (HU i e); [| done..]. apply lookup_lt_Some in He. lia.
Qed.

Lemma names_insert n e k : (n <= length ents)%nat -> named e k ->
  (forall e0, ents !! n = Some e0 -> live_dent e0 -> dent_key e0 = k) ->
  (forall j e', j <> n -> ents !! j = Some e' -> ~ named e' k) ->
  names (set_dent ents n e) (<[k := (de_file_number e, de_hash e)]> m).
Proof using HM.
  intros Hn Hk H0 Hu k' v. destruct (decide (k' = k)) as [-> | Hne].
  - rewrite lookup_insert_eq. split.
    + intros [= <-]. exists n, e. by rewrite set_dent_lookup, decide_True by done.
    + intros (i & e' & He' & Hk' & ->). rewrite set_dent_lookup in He' by done.
      destruct (decide (i = n)); [by simplify_eq | by destruct (Hu i e')].
  - rewrite lookup_insert_ne, (HM k' v) by done. split.
    + intros (i & e' & He' & Hk' & ->). exists i, e'. rewrite set_dent_lookup by done.
      destruct (decide (i = n)) as [-> |]; [| done]. destruct Hne. destruct Hk' as [Hl <-]. by apply H0.
    + intros (i & e' & He' & Hk' & ->). rewrite set_dent_lookup in He' by done.
      destruct (decide (i = n)) as [-> |]; [| by exists i, e']. simplify_eq. destruct Hne, Hk, Hk'. congruence.
Qed.

Lemma names_delete n e0 k : ents !! n = Some e0 -> named e0 k -> names (set_dent ents n zero_dent) (delete k m).
Proof using HM HO.
  intros He0 Hk k' v. apply lookup_lt_Some in He0 as Hn. rewrite lookup_delete_Some, (HM k' v). split.
  - intros (Hne & i & e & He & Hk' & ->). exists i, e. rewrite set_dent_lookup by lia.
    destruct (decide (i = n)) as [-> |]; [| done]. simplify_eq. destruct Hne, Hk, Hk'. congruence.
  - intros (i & e & He & Hk' & ->). rewrite set_dent_lookup in He by lia. destruct (decide (i = n)) as [-> | Hi].
    + simplify_eq. by destruct Hk'.
    + split; [intros -> | by exists i, e]. destruct Hi. by eapply names_unique.
Qed.
End Names.

(** ** Naming, removing, updating *)

Lemma take_name oid : (length oid <= 64)%nat -> take (length oid) (splice (zeros 64) 0 (take (length oid) oid)) = oid.
Proof. intros Ho. unfold splice. rewrite firstn_all, take_0, app_nil_l. apply take_app_length. Qed.

Lemma named_dent_ok uuid oid h : name_ok uuid oid -> length (fl_hash h) = 32%nat -> Forall is_byte (fl_hash h) ->
  0 <= fl_file_number h < 2 ^ 31 ->
  let e := named_dent uuid oid (Z.of_nat (length oid)) h in
  dent_wf e /\ named e (uuid, oid) /\ de_oidlen e <= TEE_OBJECT_ID_MAX_LEN.
Proof.
  intros (Hu & Ho & Bu & Bo) Lh Bh Hf. cbn. unfold named_dent, named, live_dent, dent_key, dent_wf, TEE_OBJECT_ID_MAX_LEN.
  cbn [de_uuid de_oid de_oidlen de_hash de_file_number]. rewrite u32_small, !Nat2Z.id by lia.
  rewrite take_name by lia. split_and!; try done; try lia.
  - rewrite length_splice; [done |]. rewrite firstn_all. unfold zeros. rewrite length_replicate. lia.
  - unfold splice. rewrite firstn_all, take_0, app_nil_l. apply Forall_app. split; [done |].
    apply Forall_drop, Forall_replicate. unfold is_byte. lia.
Qed.

(** The room for names: less than [2^31] entries, the indices being [int]. *)
Definition dir_repr (cap : nat) s (m : gmap (list Z * list Z) (Z * list Z)) : Prop :=
  exists ents, dir_inv s ents /\ names ents m /\ (length ents <= cap)%nat.

Lemma find_spec fuel s ents uuid oid : name_ok uuid oid -> dir_file s ents -> dents_ok (snd s) ents ->
  (length ents < fuel)%nat ->
  wpx (tee_fs_dirfile_find fuel uuid oid (Z.of_nat (length oid))) s (find_post s ents (uuid, oid)).
Proof. intros. apply dir_find_loop_spec; [done..| lia | lia |]. intros j e Hj. lia. Qed.

Lemma write_name_spec s s1 ents m i e k : dir_inv s ents -> names ents m -> Z.of_nat (length ents) < 2 ^ 31 - 2 ->
  dent_wf e -> named e k -> de_oidlen e <= TEE_OBJECT_ID_MAX_LEN -> in_use (snd s) (de_file_number e) = true ->
  (forall k v, m !! k = Some v -> v.1 <> de_file_number e) ->
  dir_file s1 ents -> snd s1 = snd s -> 0 <= i <= Z.of_nat (length ents) ->
  (forall e0, ents !! Z.to_nat i = Some e0 -> live_dent e0 -> dent_key e0 = k) ->
  (forall j e', j <> Z.to_nat i -> ents !! j = Some e' -> ~ named e' k) ->
  wpx (write_dent i e) s1 (fun r s' =>
    match r with
    | inl _ => dir_repr (S (length ents)) s' (<[k := (de_file_number e, de_hash e)]> m)
    | inr c => io_error c
    end).
Proof.
  intros (HD & HO & Hnd) HM Hlen Hw Hk H64 HU Hfree HD1 Es1 Hi Hsl Hoth.
  eapply wpx_mono; [apply (write_dent_spec s1 ents i e); (done || lia) |]. cbn beta. intros [[]|c] s2 HR; [| done].
  destruct HR as (HD2 & Hfh & HU2 & Hnd2). exists (set_dent ents (Z.to_nat i) e). split_and!.
  - split_and!; [done | | rewrite Hnd2, Es1, Hnd, set_dent_length by lia; lia].
    apply dents_ok_bits with (d := snd s); [| intros ??? _ ?; rewrite HU2, Es1; done].
    apply dents_ok_set; [done | lia |]. intros _. split_and!; [done | done |].
    intros j e' Hj He' Hl'. apply (Hfree (dent_key e') (de_file_number e', de_hash e')). apply HM. by exists j, e'.
  - apply names_insert; [done | lia | done | done | done].
  - rewrite set_dent_length by lia. lia.
Qed.

Lemma rename_spec fuel s ents m uuid oid h :
  dir_inv s ents -> names ents m -> (length ents < fuel)%nat -> Z.of_nat (length ents) < 2 ^ 31 - 2 ->
  name_ok uuid oid -> length (fl_hash h) = 32%nat -> Forall is_byte (fl_hash h) -> fl_idx h < 0 ->
  in_use (snd s) (fl_file_number h) = true -> (forall k v, m !! k = Some v -> v.1 <> fl_file_number h) ->
  wpx (tee_fs_dirfile_rename fuel uuid h oid (Z.of_nat (length oid))) s (fun r s' =>
    exists h' c, r = inl (h', c) /\ c <> TEE_ERROR_ITEM_NOT_FOUND /\
    (c = TEE_SUCCESS -> dir_repr (S (length ents)) s' (<[(uuid, oid) := (fl_file_number h, fl_hash h)]> m))).
Proof.
  intros (HD & HO & Hnd) HM Hfuel Hlen Hn Lh Bh Hidx HU Hfree. pose proof (conj HD (conj HO Hnd) : dir_inv s ents) as HI.
  destruct (named_dent_ok uuid oid h Hn Lh Bh) as (Hw & Hk & H64).
  { pose proof (in_use_bound _ _ HU). destruct (df_files _ _ HD). lia. }
  unfold tee_fs_dirfile_rename. set (e := named_dent _ _ _ h) in *.
  assert (Ho : 1 <= Z.of_nat (length oid) <= 64) by (destruct Hn as (_ & ? & _); lia).
  rewrite (proj2 (Z.eqb_neq (Z.of_nat (length oid)) 0)) by lia.
  rewrite (proj2 (Z.ltb_ge TEE_OBJECT_ID_MAX_LEN (Z.of_nat (length oid)))) by (unfold TEE_OBJECT_ID_MAX_LEN; lia).
  cbn [orb]. rewrite (proj2 (Z.ltb_lt (fl_idx h) 0)) by lia.
  assert (HW : forall s1 i, dir_file s1 ents -> snd s1 = snd s -> 0 <= i <= Z.of_nat (length ents) ->
    (forall e0, ents !! Z.to_nat i = Some e0 -> live_dent e0 -> dent_key e0 = (uuid, oid)) ->
    (forall j e', j <> Z.to_nat i -> ents !! j = Some e' -> ~ named e' (uuid, oid)) ->
    wpx (r ← attempt (write_dent (u64 i) e); mret (mkFileh (fl_file_number h) (fl_hash h) i, code r)) s1 (fun r s' =>
      exists h' c, r = inl (h', c) /\ c <> TEE_ERROR_ITEM_NOT_FOUND /\
      (c = TEE_SUCCESS -> dir_repr (S (length ents)) s' (<[(uuid, oid) := (fl_file_number h, fl_hash h)]> m)))).
  { intros s1 i HD1 Es1 Hi Hsl Hoth. rewrite u64_small by lia. apply wpx_bind, wpx_attempt.
    eapply wpx_mono; [by eapply (write_name_spec s s1 ents m i e) |]. cbn beta. intros r s2 HR. apply wpx_ret.
    destruct r as [[]|c]; (eexists _, _; split; [done |]); cbn [code]; [done |]. destruct HR. split; [done | by intros ->]. }
  apply wpx_bind, wpx_bind, wpx_attempt. eapply wpx_mono; [by apply (find_spec fuel s ents) |].
  unfold find_post. cbn beta. intros [h2|c] s1 HF.
  - destruct HF as (i & e0 & HD1 & Es1 & He0 & Hk0 & -> & HU0). apply wpx_bind, wpx_ret, wpx_ret. cbn [fl_idx].
    apply lookup_lt_Some in He0 as Hlt. apply HW; rewrite ?Nat2Z.id; [done | done | lia | |].
    + intros e1 He1 _. assert (e1 = e0) as -> by congruence. apply Hk0.
    + intros j e' Hj He' Hk'. destruct Hj. by eapply names_unique.
  - destruct HF as [HF | (-> & HD1 & Es1 & HU1)].
    + destruct (Z.eqb_spec c TEE_ERROR_ITEM_NOT_FOUND); [by destruct HF |].
      apply wpx_bind, wpx_ret, wpx_ret, wpx_ret. destruct HF. eexists _, _. split_and!; [done.. | by intros ->].
    + rewrite Z.eqb_refl. apply wpx_bind, wpx_attempt.
      eapply wpx_mono; [apply (find_free_spec uuid fuel s1 ents); [done | lia | lia | by left] |].
      unfold free_post. cbn beta. intros [h2|c] s2 HF.
      * destruct HF as (HD2 & Es2 & Hi & Hfr). apply wpx_ret. cbn [fl_idx]. apply HW; [done | congruence | lia | |].
        -- intros e0 He0 Hl. by destruct (Hfr e0 He0).
        -- intros j e' _ He'. apply (HU1 j); [| done]. apply lookup_lt_Some in He'. lia.
      * apply wpx_ret, wpx_ret. destruct HF. eexists _, _. split_and!; [done.. | by intros ->].
Qed.

(** Writing a name at an entry of the directory, as the rename of an object does with the
    index that was found: the entries, whatever names they have. *)
Lemma rename_at_spec fuel s ents uuid oid h i e0 :
  dir_inv s ents -> ents !! i = Some e0 -> Z.of_nat (length ents) < 2 ^ 31 - 2 ->
  name_ok uuid oid -> length (fl_hash h) = 32%nat -> Forall is_byte (fl_hash h) -> fl_idx h = Z.of_nat i ->
  in_use (snd s) (fl_file_number h) = true ->
  (forall j e', j <> i -> ents !! j = Some e' -> live_dent e' -> de_file_number e' <> fl_file_number h) ->
  wpx (tee_fs_dirfile_rename fuel uuid h oid (Z.of_nat (length oid))) s (fun r s' =>
    exists h' c, r = inl (h', c) /\ c <> TEE_ERROR_ITEM_NOT_FOUND /\
    (c = TEE_SUCCESS -> dir_inv s' (<[i := named_dent uuid oid (Z.of_nat (length oid)) h]> ents) /\
       forall j, in_use (snd s') j = in_use (snd s) j)).
Proof.
  intros (HD & HO & Hnd) He0 Hlen Hn Lh Bh Hidx HU Hfree. apply lookup_lt_Some in He0 as Hlt.
  destruct (named_dent_ok uuid oid h Hn Lh Bh) as (Hw & Hk & H64).
  { pose proof (in_use_bound _ _ HU). destruct (df_files _ _ HD). lia. }
  unfold tee_fs_dirfile_rename. set (e := named_dent _ _ _ h) in *.
  assert (Ho : 1 <= Z.of_nat (length oid) <= 64) by (destruct Hn as (_ & ? & _); lia).
  rewrite (proj2 (Z.eqb_neq (Z.of_nat (length oid)) 0)) by lia.
  rewrite (proj2 (Z.ltb_ge TEE_OBJECT_ID_MAX_LEN (Z.of_nat (length oid)))) by (unfold TEE_OBJECT_ID_MAX_LEN; lia).
  cbn [orb]. rewrite Hidx, (proj2 (Z.ltb_ge (Z.of_nat i) 0)) by lia. apply wpx_bind, wpx_ret. rewrite Hidx, u64_small by lia.
  apply wpx_bind, wpx_attempt. eapply wpx_mono; [apply (write_dent_spec s ents (Z.of_nat i) e); (done || lia) |].
  cbn beta. intros r s1 HR. apply wpx_ret. destruct r as [[]|c]; (eexists _, _; split; [done |]); cbn [code].
  2:{ destruct HR. split; [done | by intros ->]. }
  split; [done |]. intros _. destruct HR as (HD1 & _ & HU1 & Hnd1). rewrite Nat2Z.id in HD1.
  rewrite <- set_dent_lt by lia. split; [| done].
  split_and!; [done | | rewrite Hnd1, Hnd, set_dent_length by lia; lia].
  apply dents_ok_bits with (d := snd s); [| intros ??? _ ?; by rewrite HU1]. apply dents_ok_set; [done | lia |]. done.
Qed.

(** Clearing an entry. *)
Lemma remove_at_spec s ents h i e : dir_inv s ents -> ents !! i = Some e -> live_dent e ->
  fl_idx h = Z.of_nat i -> fl_file_number h = de_file_number e -> Z.of_nat (length ents) < 2 ^ 31 - 2 ->
  wpx (tee_fs_dirfile_remove h) s (fun r s' =>
    match r with
    | inl _ => dir_inv s' (<[i := zero_dent]> ents) /\ in_use (snd s') (de_file_number e) = false
    | inr c => io_error c
    end).
Proof.
  intros (HD & HO & Hnd) He Hk Hidx Hfile Hlen. apply lookup_lt_Some in He as Hlt. pose proof (df_len _ _ HD) as Hl31.
  unfold tee_fs_dirfile_remove. rewrite Hidx, Hfile. apply wpx_bind.
  eapply wpx_mono; [by apply (read_dent_spec s ents); [| lia] |]. cbn beta. intros [e'|c] s1 HR.
  2:{ destruct HR as [HR | (_ & Hge & _)]; [done | lia]. }
  destruct HR as (He' & HD1 & Es1). rewrite Nat2Z.id in He'. assert (e' = e) as -> by congruence.
  destruct (Z.eqb_spec (de_oidlen e) 0); [done |]. apply wpx_bind, wpx_assert; [apply Z.eqb_refl |].
  destruct (do_used _ _ HO _ _ He Hk) as [H64 HU]. destruct (file_number_i32 _ _ (df_files _ _ HD) HU) as [Hfn ->].
  apply wpx_bind. eapply wpx_mono; [apply test_file_spec; [apply HD1 | lia] |]. cbn beta. intros ? ? [-> ->].
  rewrite Es1, HU. apply wpx_bind, wpx_assert; [done |]. apply wpx_bind. rewrite u64_small by lia.
  eapply wpx_mono; [apply (write_dent_spec s1 ents (Z.of_nat i) zero_dent); [done | apply zero_dent_wf | lia | lia] |].
  cbn beta. intros [[]|c] s2 HR; [| done]. destruct HR as (HD2 & Hfh & HU2 & Hnd2). rewrite Nat2Z.id in HD2.
  eapply wpx_mono; [apply clear_file_spec; [apply HD2 | apply HD2 | lia] |]. cbn beta.
  intros r s3 (HS & -> & Hf3 & HU3). split; [| by rewrite HU3, Z.eqb_refl]. rewrite <- set_dent_lt by lia.
  split_and!; [by eapply dir_file_same | | destruct HS as (_ & -> & _); rewrite Hnd2, Es1, Hnd, set_dent_length by lia; lia].
  assert (HO' : dents_ok (snd s) (set_dent ents i zero_dent)) by (apply dents_ok_set; [done | lia | by intros []]).
  eapply dents_ok_bits; [exact HO' |]. intros j x Hx Hl Hx'. rewrite HU3, HU2, Es1, Hx', andb_true_r.
  apply negb_true_iff, Z.eqb_neq. intros E. rewrite set_dent_lookup in Hx by lia.
  destruct (decide (j = i)) as [-> | Hj]; [simplify_eq; by destruct Hl |]. destruct Hj.
  eapply (do_nodup _ _ HO); [exact Hx | exact He | done | done | done].
Qed.

Lemma remove_spec s ents m i e k : dir_inv s ents -> names ents m -> ents !! i = Some e -> named e k ->
  Z.of_nat (length ents) < 2 ^ 31 - 2 ->
  wpx (tee_fs_dirfile_remove (mkFileh (de_file_number e) (de_hash e) (Z.of_nat i))) s (fun r s' =>
    match r with
    | inl _ => dir_repr (length ents) s' (delete k m) /\ in_use (snd s') (de_file_number e) = false
    | inr c => io_error c
    end).
Proof.
  intros HI HM He Hk Hlen. eapply wpx_mono; [by apply (remove_at_spec s ents _ i e HI He); [apply Hk | ..] |].
  cbn beta. intros [[]|c] s1 HR; [| done]. destruct HR as [HI1 HU1]. split; [| done]. apply lookup_lt_Some in He as Hlt.
  exists (<[i := zero_dent]> ents). split_and!; [done | | by rewrite length_insert].
  rewrite <- set_dent_lt by lia. eapply names_delete; [apply HI | done..].
Qed.

(** The entries after a name [k'] is written over that of entry [i], and the entry [j] that
    had it, if any, is cleared. *)
Lemma names_rename d ents m i e k e' k' : dents_ok d ents -> names ents m -> ents !! i = Some e -> named e k -> named e' k' ->
  m !! k' = None -> names (<[i := e']> ents) (<[k' := (de_file_number e', de_hash e')]> (delete k m)).
Proof.
  intros HO HM He Hk Hk' Hnone. apply lookup_lt_Some in He as Hlt.
  pose proof (names_delete d ents m HO HM i e k He Hk) as HM1. rewrite set_dent_lt in HM1 by lia.
  pose proof (names_insert _ _ HM1 i e' k') as HM2. rewrite set_dent_lt, list_insert_insert_eq in HM2 by (rewrite length_insert; lia).
  apply HM2; [rewrite length_insert; lia | done | |].
  - intros e0. rewrite list_lookup_insert_eq by lia. intros [= <-] []. done.
  - intros j x Hj. rewrite list_lookup_insert_ne by done. intros Hx Hkx. pose proof (names_at ents m HM j x k' Hx Hkx). congruence.
Qed.

Lemma names_rename_over d ents m i e k e' k' j e2 : dents_ok d ents -> names ents m -> ents !! i = Some e -> named e k ->
  named e' k' -> ents !! j = Some e2 -> named e2 k' -> j <> i ->
  names (<[j := zero_dent]> (<[i := e']> ents)) (<[k' := (de_file_number e', de_hash e')]> (delete k m)).
Proof.
  intros HO HM He Hk Hk' He2 Hk2 Hne. apply lookup_lt_Some in He2 as Hlt.
  pose proof (names_delete d ents m HO HM j e2 k' He2 Hk2) as HM1.
  assert (HO1 : dents_ok d (set_dent ents j zero_dent)) by (apply dents_ok_set; [done | lia | by intros []]).
  rewrite list_insert_insert_ne by done. rewrite set_dent_lt in HM1, HO1 by lia.
  assert (E : <[k' := (de_file_number e', de_hash e')]> (delete k m) = <[k' := (de_file_number e', de_hash e')]> (delete k (delete k' m))).
  { rewrite delete_delete. by rewrite insert_delete_eq. }
  rewrite E. eapply names_rename; [exact HO1 | done | by rewrite list_lookup_insert_ne | done | done | apply lookup_delete_eq].
Qed.

Lemma update_hash_spec s ents m i e k hash : dir_inv s ents -> names ents m -> ents !! i = Some e -> named e k ->
  Z.of_nat (length ents) < 2 ^ 31 - 2 -> length hash = 32%nat -> Forall is_byte hash ->
  wpx (tee_fs_dirfile_update_hash (mkFileh (de_file_number e) hash (Z.of_nat i))) s (fun r s' =>
    match r with
    | inl _ => dir_repr (length ents) s' (<[k := (de_file_number e, hash)]> m)
    | inr c => io_error c
    end).
Proof.
  intros (HD & HO & Hnd) HM He Hk Hlen Lh Bh. apply lookup_lt_Some in He as Hlt. pose proof (df_len _ _ HD) as Hl31.
  unfold tee_fs_dirfile_update_hash. cbn [fl_idx fl_file_number fl_hash]. apply wpx_bind.
  eapply wpx_mono; [by apply (read_dent_spec s ents); [| lia] |]. cbn beta. intros [e'|c] s1 HR.
  2:{ destruct HR as [HR | (_ & Hge & _)]; [done | lia]. }
  destruct HR as (He' & HD1 & Es1). rewrite Nat2Z.id in He'. assert (e' = e) as -> by congruence.
  apply wpx_bind, wpx_assert; [apply Z.eqb_refl |].
  destruct (do_used _ _ HO _ _ He (proj1 Hk)) as [H64 HU]. destruct (file_number_i32 _ _ (df_files _ _ HD) HU) as [Hfn ->].
  apply wpx_bind. eapply wpx_mono; [apply test_file_spec; [apply HD1 | lia] |]. cbn beta. intros ? ? [-> ->].
  rewrite Es1, HU. apply wpx_bind, wpx_assert; [done |]. rewrite u64_small by lia.
  assert (Hw : dent_wf (set_hash e hash)).
  { destruct (wf_at _ _ _ _ HD He) as (? & ? & ? & ? & ? & ? & ? & ?). unfold dent_wf, set_hash. cbn [de_uuid de_oid de_oidlen de_hash de_file_number]. split_and!; (done || lia). }
  eapply wpx_mono; [by apply (write_dent_spec s1 ents (Z.of_nat i) (set_hash e hash)); [..| lia | lia] |].
  cbn beta. intros [[]|c] s2 HR; [| done]. destruct HR as (HD2 & Hfh & HU2 & Hnd2). rewrite Nat2Z.id in HD2.
  exists (set_dent ents i (set_hash e hash)). split_and!.
  - split_and!; [done | | rewrite Hnd2, Es1, Hnd, set_dent_length by lia; lia].
    apply dents_ok_bits with (d := snd s); [| intros ??? _ ?; rewrite HU2, Es1; done].
    apply dents_ok_set; [done | lia |]. intros _. split_and!; [done | done |].
    intros j x Hj Hx Hl E. destruct Hj. eapply (do_nodup _ _ HO); [exact Hx | exact He | done | apply Hk | exact E].
  - apply (names_insert ents m HM i (set_hash e hash)); [lia | done | |].
    + intros e0 He0 _. assert (e0 = e) as -> by congruence. apply Hk.
    + intros j x Hj Hx Hkx. destruct Hj. by eapply names_unique.
  - rewrite set_dent_length by lia. lia.
Qed.

(** ** New numbers *)

Lemma get_tmp_spec s ents h : dir_inv s ents -> dh_nbits (snd s) < 2 ^ 31 - 1 ->
  wpx (tee_fs_dirfile_get_tmp h) s (fun r s' =>
    match r with
    | inl h' => dir_inv s' ents /\ 0 <= fl_file_number h' /\ in_use (snd s) (fl_file_number h') = false /\
        (forall j, 0 <= j < fl_file_number h' -> in_use (snd s) j = true) /\
        (forall j, in_use (snd s') j = (j =? fl_file_number h') || in_use (snd s) j)
    | inr e => e = TEE_ERROR_OUT_OF_MEMORY /\ dir_inv s' ents /\ snd s' = snd s
    end).
Proof.
  intros (HD & HO & Hnd) Hb. unfold tee_fs_dirfile_get_tmp. apply wpx_bind, wpx_get_d.
  assert (HI : exists i, 0 <= i < 2 ^ 31 - 1 /\ in_use (snd s) i = false /\ (forall j, 0 <= j < i -> in_use (snd s) j = true) /\
    forall Q : Z + Z -> wdir W FH -> Prop, Q (inl i) s ->
    wpx (match dh_files (snd s) with
         | Some f => i ← pure_c (bit_ffc f (dh_nbits (snd s))); mret (if i =? -1 then dh_nbits (snd s) else i)
         | None => mret 0 end) s Q).
  { destruct (df_files _ _ HD) as [Hn Hf]. destruct (dh_files (snd s)) as [f|] eqn:Ef.
    - destruct Hf as [Hok Hl]. pose proof (bitstr_size_holds (dh_nbits (snd s))) as Hs.
      destruct (bit_ffc_least f (dh_nbits (snd s)) Hok) as (v & Ev & Hv); [lia | unfold holds_bits; lia |].
      assert (Hin : forall j, 0 <= j < dh_nbits (snd s) -> in_use (snd s) j = bitn f j).
      { intros j Hj. unfold in_use. rewrite Ef, (proj2 (Z.leb_le 0 j)), (proj2 (Z.ltb_lt j (dh_nbits (snd s)))) by lia. done. }
      destruct Hv as [(-> & Hall) | (Hv & Hc & Hall)].
      + exists (dh_nbits (snd s)). split_and!; [lia | lia | | |].
        * unfold in_use. by rewrite Z.ltb_irrefl, andb_false_r.
        * intros j Hj. rewrite Hin by lia. apply Hall. lia.
        * intros Q HQ. apply wpx_bind. eapply wpx_pure; [exact Ev |]. by apply wpx_ret.
      + exists v. split_and!; [lia | lia | by rewrite Hin by lia | |].
        * intros j Hj. rewrite Hin by lia. apply Hall. lia.
        * intros Q HQ. apply wpx_bind. eapply wpx_pure; [exact Ev |]. apply wpx_ret.
          by rewrite (proj2 (Z.eqb_neq v (-1))) by lia.
    - exists 0. split_and!; [lia | lia | | intros j Hj; lia | intros Q HQ; by apply wpx_ret].
      unfold in_use. by rewrite Ef, andb_false_r. }
  destruct HI as (i & Hi & Hfree & Hleast & Hrun). apply wpx_bind, Hrun. apply wpx_bind.
  eapply wpx_mono; [apply set_file_spec; [apply HD | apply HD | done] |]. cbn beta. intros [[]|c] s1 (HS & HR).
  - destruct HR as (Hf1 & HU1). apply wpx_ret. cbn [fl_file_number]. split_and!; [split_and! | lia | done..].
    + by eapply dir_file_same.
    + eapply dents_ok_bits; [done |]. intros j e _ _ Hj. by rewrite HU1, Hj, orb_true_r.
    + destruct HS as (_ & -> & _). done.
  - destruct HR as [-> Es]. split; [done |]. split; [| done]. split; [| by rewrite Es].
    eapply dir_file_same; [done | done | rewrite Es; apply HD].
Qed.

(** ** Listing *)

Definition of_app (uuid : list Z) (e : dirfile_entry) : Prop := live_dent e /\ de_uuid e = uuid.
#[local] Instance of_app_dec uuid e : Decision (of_app uuid e).
Proof. unfold of_app, live_dent. apply _. Defined.
Definition dent_oid (e : dirfile_entry) : list Z := take (Z.to_nat (de_oidlen e)) (de_oid e).

Lemma of_app_test e uuid : dent_wf e -> length uuid = 16%nat ->
  same_bytes (de_uuid e) uuid 16 && negb (de_oidlen e =? 0) = bool_decide (of_app uuid e).
Proof.
  intros (L1 & _) Lu. apply eq_bool_prop_intro. rewrite bool_decide_spec, Is_true_true, andb_true_iff.
  unfold same_bytes, of_app, live_dent. rewrite bool_decide_eq_true, negb_true_iff, Z.eqb_neq, !take_ge by lia. tauto.
Qed.

Lemma next_loop_spec uuid : length uuid = 16%nat -> forall fuel s ents i,
  dir_file s ents -> 0 <= i < 2 ^ 31 -> Z.of_nat (length ents) - i < Z.of_nat fuel -> (0 < fuel)%nat ->
  wpx (next_loop fuel uuid i) s (fun r s' =>
    match r with
    | inl (j, e) => dir_file s' ents /\ snd s' = snd s /\ i <= j < Z.of_nat (length ents) /\ ents !! Z.to_nat j = Some e /\ of_app uuid e /\
        filter (of_app uuid) (drop (Z.to_nat i) ents) = e :: filter (of_app uuid) (drop (S (Z.to_nat j)) ents)
    | inr c => io_error c \/ c = TEE_ERROR_ITEM_NOT_FOUND /\ dir_file s' ents /\ snd s' = snd s /\
        filter (of_app uuid) (drop (Z.to_nat i) ents) = []
    end).
Proof.
  intros Lu. induction fuel as [|fuel IH]; intros s ents i HD Hi Hf Hpos; [lia |].
  pose proof (df_len _ _ HD) as Hlen. cbn [next_loop]. apply wpx_bind.
  eapply wpx_mono; [by apply (read_dent_spec s ents) |]. cbn beta. intros [e|c] s1 HR.
  2:{ destruct HR as [HR | (-> & Hge & HD1 & Es1)]; [by left | right]. by rewrite drop_ge by lia. }
  destruct HR as (He & HD1 & Es1). apply lookup_lt_Some in He as Hlt.
  rewrite (of_app_test e uuid (wf_at _ _ _ _ HD He) Lu). rewrite (drop_S _ _ _ He).
  destruct (bool_decide_reflect (of_app uuid e)) as [Ha|Ha].
  - apply wpx_ret. rewrite filter_cons_True by done. split_and!; (done || lia).
  - rewrite filter_cons_False by done. apply wpx_bind, wpx_assert; [apply Z.ltb_lt; lia |].
    eapply wpx_mono; [apply (IH s1 ents (i + 1)); [done | lia | lia | lia] |].
    cbn beta. rewrite Es1. replace (Z.to_nat (i + 1)) with (S (Z.to_nat i)) by lia.
    intros [[j e']|c] s2 HR; [| done]. destruct HR as (? & ? & ? & ? & ? & ?). split_and!; (done || lia).
Qed.

(** Reading the directory to its end, as a client does with a buffer for any identifier. *)
Fixpoint list_dir (fuel steps : nat) (uuid : list Z) (idx : Z) : ex (wdir W FH) (list (list Z)) :=
  match steps with
  | O => pure_c Undef
  | S steps =>
      r ← attempt (tee_fs_dirfile_get_next fuel uuid idx TEE_OBJECT_ID_MAX_LEN);
      match r with
      | inr e => if e =? TEE_ERROR_ITEM_NOT_FOUND then mret [] else throw e
      | inl (idx, oid) => l ← list_dir fuel steps uuid idx; mret (oid :: l)
      end
  end.

Lemma list_dir_spec uuid fuel : length uuid = 16%nat -> forall steps s ents idx,
  dir_file s ents -> dents_ok (snd s) ents -> -1 <= idx < 2 ^ 31 - 1 -> (length ents < fuel)%nat ->
  (length (drop (Z.to_nat (idx + 1)) ents) < steps)%nat ->
  wpx (list_dir fuel steps uuid idx) s (fun r s' =>
    match r with
    | inl l => dir_file s' ents /\ snd s' = snd s /\ l = dent_oid <$> filter (of_app uuid) (drop (Z.to_nat (idx + 1)) ents)
    | inr c => io_error c
    end).
Proof.
  intros Lu. induction steps as [|steps IH]; intros s ents idx HD HO Hidx Hfuel Hst; [lia |].
  pose proof (df_len _ _ HD) as Hlen. cbn [list_dir]. apply wpx_bind, wpx_attempt.
  unfold tee_fs_dirfile_get_next. apply wpx_bind, wpx_assert; [apply Z.ltb_lt; lia |].
  rewrite (proj2 (Z.ltb_ge (idx + 1) 0)) by lia. apply wpx_bind.
  eapply wpx_mono; [apply (next_loop_spec uuid Lu fuel s ents); [done | lia | lia | lia] |]. cbn beta.
  intros [[j e]|c] s1 HR.
  - destruct HR as (HD1 & Es1 & Hj & He & Ha & Hfl). destruct (do_used _ _ HO _ _ He (proj1 Ha)) as [H64 _].
    rewrite (proj2 (Z.ltb_ge TEE_OBJECT_ID_MAX_LEN (de_oidlen e))) by done.
    apply wpx_bind, wpx_assert; [by apply Z.leb_le |]. apply wpx_ret. cbn beta iota. apply wpx_bind.
    eapply wpx_mono; [apply (IH s1 ents j); [done | by rewrite Es1 | lia | done |] |].
    { rewrite length_drop in *. lia. }
    cbn beta. intros [l|c] s2 HR; [| done]. destruct HR as (HD2 & Es2 & ->). apply wpx_ret. rewrite Hfl.
    split_and!; [done | congruence |]. replace (Z.to_nat (j + 1)) with (S (Z.to_nat j)) by lia. done.
  - destruct HR as [HR | (-> & HD1 & Es1 & Hfl)].
    + rewrite (proj2 (Z.eqb_neq c TEE_ERROR_ITEM_NOT_FOUND)) by apply HR. by apply wpx_throw.
    + rewrite Z.eqb_refl. apply wpx_ret. by rewrite Hfl.
Qed.

(** ** Opening a directory file *)

(** An entry the code can have written: an identifier of at most 64 bytes and an [int] number. *)
Definition dent_sane (e : dirfile_entry) : Prop :=
  live_dent e -> de_oidlen e <= TEE_OBJECT_ID_MAX_LEN /\ de_file_number e < 2 ^ 31 - 1.

(** The entries with every number kept by its first entry only. *)
Fixpoint dedup (seen : list Z) (l : list dirfile_entry) : list dirfile_entry :=
  match l with
  | [] => []
  | e :: l =>
      if decide (de_oidlen e = 0) then e :: dedup seen l
      else if decide (de_file_number e ∈ seen) then zero_dent :: dedup seen l
      else e :: dedup (de_file_number e :: seen) l
  end.
#[local] Instance live_dent_dec e : Decision (live_dent e).
Proof. unfold live_dent. apply _. Defined.
(** The numbers of the entries in use. *)
Definition numbers (l : list dirfile_entry) : list Z := de_file_number <$> filter live_dent l.

Lemma dedup_length seen l : length (dedup seen l) = length l.
Proof. revert seen. induction l as [|e l IH]; intros seen; [done |]. cbn. repeat case_decide; cbn; by rewrite IH. Qed.

Lemma numbers_cons e l : numbers (e :: l) = if decide (live_dent e) then de_file_number e :: numbers l else numbers l.
Proof. unfold numbers. destruct (decide (live_dent e)); [by rewrite filter_cons_True | by rewrite filter_cons_False]. Qed.
Lemma numbers_at l i e : l !! i = Some e -> live_dent e -> de_file_number e ∈ numbers l.
Proof. intros He Hl. apply list_elem_of_fmap_2, list_elem_of_filter. split; [done |]. by eapply list_elem_of_lookup_2. Qed.
Lemma numbers_in l n : n ∈ numbers l -> exists i e, l !! i = Some e /\ live_dent e /\ de_file_number e = n.
Proof.
  intros (e & -> & [Hl He]%list_elem_of_filter)%list_elem_of_fmap. apply list_elem_of_lookup_1 in He as (i & Hi). by exists i, e.
Qed.

Lemma numbers_nodup l i j e e' : NoDup (numbers l) -> l !! i = Some e -> l !! j = Some e' ->
  live_dent e -> live_dent e' -> de_file_number e = de_file_number e' -> i = j.
Proof.
  revert i j. induction l as [|x l IH]; intros i j; [done |]. rewrite numbers_cons. intros Hnd Hi Hj Hl Hl' E.
  destruct i as [|i], j as [|j]; cbn in Hi, Hj; [done | | |].
  - injection Hi as ->. rewrite decide_True in Hnd by done. apply NoDup_cons in Hnd as [Hx _]. destruct Hx.
    rewrite E. by eapply numbers_at.
  - injection Hj as ->. rewrite decide_True in Hnd by done. apply NoDup_cons in Hnd as [Hx _]. destruct Hx.
    rewrite <- E. by eapply numbers_at.
  - f_equal. apply IH; try done. case_decide; [by apply NoDup_cons in Hnd as [_ ?] | done].
Qed.

Lemma dedup_numbers l : forall seen, NoDup (numbers (dedup seen l)) /\
  (forall n, n ∈ numbers (dedup seen l) <-> n ∈ numbers l /\ n ∉ seen).
Proof.
  induction l as [|e l IH]; intros seen; cbn [dedup].
  { split; [constructor |]. intros n. split; [by intros ?%not_elem_of_nil | by intros [?%not_elem_of_nil _]]. }
  unfold live_dent in *. destruct (decide (de_oidlen e = 0)) as [E0|N0].
  - rewrite !numbers_cons, !decide_False by (unfold live_dent; tauto). apply IH.
  - rewrite !(numbers_cons e l), !(decide_True (P := live_dent e)) by done.
    destruct (decide (de_file_number e ∈ seen)) as [Hin|Hin].
    + rewrite numbers_cons, decide_False by (unfold live_dent; cbn; tauto). destruct (IH seen) as [HN HI]. split; [done |].
      intros n. rewrite HI, elem_of_cons. split; [tauto |]. intros [[-> |] ?]; [done | tauto].
    + destruct (IH (de_file_number e :: seen)) as [HN HI]. rewrite numbers_cons, decide_True by done. split.
      * constructor; [| done]. rewrite HI, elem_of_cons. tauto.
      * intros n. rewrite !elem_of_cons, HI, not_elem_of_cons. destruct (decide (n = de_file_number e)) as [-> |]; tauto.
Qed.

Lemma dedup_at l : forall seen i e, dedup seen l !! i = Some e -> live_dent e -> l !! i = Some e.
Proof.
  induction l as [|x l IH]; intros seen i e; [done |]. cbn [dedup].
  repeat case_decide; destruct i as [|i]; cbn; try done; try apply IH. intros [= <-] Hl. by destruct Hl.
Qed.

Lemma dedup_id l : forall seen, NoDup (numbers l) -> (forall n, n ∈ numbers l -> n ∉ seen) -> dedup seen l = l.
Proof.
  induction l as [|e l IH]; intros seen; [done |]. cbn [dedup]. rewrite numbers_cons. unfold live_dent.
  destruct (decide (de_oidlen e = 0)) as [E0|N0].
  - rewrite decide_False by tauto. intros HN HS. by rewrite IH.
  - rewrite decide_True by done. intros [Hx HN]%NoDup_cons HS. rewrite decide_False by (apply HS; left).
    rewrite IH; [done | done |]. intros n Hn. rewrite not_elem_of_cons. split; [by intros -> | apply HS; by right].
Qed.

Lemma open_loop_spec : forall fuel l s pre seen, dir_file s (pre ++ l) -> Forall dent_sane l ->
  (forall j, in_use (snd s) j = true <-> j ∈ seen) -> (length l < fuel)%nat ->
  wpx (open_loop fuel (Z.of_nat (length pre))) s (fun r s' =>
    match r with
    | inl k => k = Z.of_nat (length (pre ++ l)) /\ dir_file s' (pre ++ dedup seen l) /\
        dh_fh (snd s') = dh_fh (snd s) /\ forall j, in_use (snd s') j = true <-> j ∈ seen \/ j ∈ numbers (dedup seen l)
    | inr c => io_error c
    end).
Proof.
  induction fuel as [|fuel IH]; intros l s pre seen HD HS HU Hf; [lia |]. pose proof (df_len _ _ HD) as Hlen.
  cbn [open_loop]. rewrite length_app in Hlen. rewrite i32_small by lia. apply wpx_bind, wpx_attempt.
  eapply wpx_mono; [apply (read_dent_spec s (pre ++ l)); [done | lia] |]. cbn beta. intros [e|c] s1 HR.
  2:{ destruct HR as [HR | (-> & Hge & HD1 & Es1)].
      - rewrite (proj2 (Z.eqb_neq c TEE_ERROR_ITEM_NOT_FOUND)) by apply HR. by apply wpx_throw.
      - rewrite Z.eqb_refl. apply wpx_ret. rewrite length_app in Hge. destruct l as [|e l]; [| cbn in Hge; lia].
        cbn [dedup]. rewrite app_nil_r in *. rewrite Es1. split_and!; [done..|].
        intros j. rewrite HU. split; [by left | by intros [? | ?%not_elem_of_nil]]. }
  destruct HR as (He & HD1 & Es1). rewrite Nat2Z.id, lookup_app_r, Nat.sub_diag in He by lia.
  destruct l as [|e' l]; [done |]. cbn in He. injection He as ->. cbn [length] in *.
  apply Forall_cons in HS as [He HS]. rewrite u64_small by lia.
  replace (Z.of_nat (length pre) + 1) with (Z.of_nat (length (pre ++ [e]))) by len.
  assert (HL : length (pre ++ e :: l) = length ((pre ++ [e]) ++ l)) by (by rewrite <- app_assoc).
  destruct (Z.eqb_spec (de_oidlen e) 0) as [E0|N0]; cbn [dedup].
  { rewrite decide_True by done. eapply wpx_mono; [apply (IH l s1 (pre ++ [e]) seen); [| done | by rewrite Es1 | lia] |].
    { by rewrite <- app_assoc. }
    cbn beta. rewrite <- HL, Es1. intros [k|c] s2 HR; [| done]. rewrite <- app_assoc in HR. cbn [app] in HR.
    rewrite numbers_cons, decide_False by (unfold live_dent; tauto). done. }
  rewrite (decide_False (P := de_oidlen e = 0)) by done. destruct (He N0) as [H64 Hfn31].
  assert (Hfn : 0 <= de_file_number e < 2 ^ 31 - 1).
  { assert (Hw : dent_wf e) by (eapply (wf_at s1 _ (length pre)); [done | by rewrite lookup_app_r, Nat.sub_diag by lia]).
    destruct Hw as (_ & _ & _ & _ & ? & _). lia. }
  rewrite i32_small by lia. apply wpx_bind. eapply wpx_mono; [apply test_file_spec; [apply HD1 | lia] |].
  cbn beta. intros ? ? [-> ->]. rewrite Es1. destruct (in_use (snd s) (de_file_number e)) eqn:EU.
  - apply HU in EU. rewrite decide_True by done. apply wpx_bind.
    eapply wpx_mono; [apply (write_dent_spec s1 (pre ++ e :: l)); [done | apply zero_dent_wf | len | lia] |].
    cbn beta. intros [[]|c] s2 HR; [| done]. destruct HR as (HD2 & Hfh2 & HU2 & _). rewrite Nat2Z.id in HD2.
    assert (Eset : set_dent (pre ++ e :: l) (length pre) zero_dent = (pre ++ [zero_dent]) ++ l).
    { unfold set_dent. rewrite take_app_length. rewrite <- app_assoc. f_equal. cbn. f_equal.
      rewrite <- (Nat.add_1_r (length pre)), drop_app_add. done. }
    rewrite Eset in HD2. replace (length (pre ++ [e])) with (length (pre ++ [zero_dent])) by len.
    eapply wpx_mono; [apply (IH l s2 (pre ++ [zero_dent]) seen); [done | done | by intros j; rewrite HU2, Es1 | lia] |].
    cbn beta. rewrite HL, Hfh2, Es1. intros [k|c] s3 HR; [| done]. rewrite numbers_cons, decide_False by (unfold live_dent; cbn; tauto).
    rewrite <- !app_assoc in *. cbn [app] in *. destruct HR as (-> & ? & ? & ?). split_and!; [len | done..].
  - rewrite decide_False by (rewrite <- HU; congruence). apply wpx_bind.
    eapply wpx_mono; [apply set_file_spec; [apply HD1 | apply HD1 | done] |]. cbn beta.
    intros [[]|c] s2 (HF & HR); [| by destruct HR as [-> _]]. destruct HR as (Hf2 & HU2).
    eapply wpx_mono; [apply (IH l s2 (pre ++ [e]) (de_file_number e :: seen)); [| done | | lia] |].
    { rewrite <- app_assoc. by eapply dir_file_same. }
    { intros j. rewrite HU2, orb_true_iff, Z.eqb_eq, Es1, HU, elem_of_cons. done. }
    cbn beta. rewrite <- HL. destruct HF as (-> & _). rewrite Es1. intros [k|c] s3 HR; [| done].
    rewrite <- app_assoc in HR. cbn [app] in HR. destruct HR as (? & ? & ? & HU3). split_and!; [done.. |].
    intros j. rewrite HU3, numbers_cons, decide_True, !elem_of_cons by done. tauto.
Qed.

(** ** The directory against its specification *)

(** What the file system asks of the directory: look a name up, give a new file a name,
    remove a name, record a new hash.  [DSetName] and [DMove] are the calls of [set_name] and
    [ree_fs_rename] where overwriting is allowed: the first writes the name of the new file
    over the entry that was found to have it, the second writes the new name over the entry of
    the old one and clears the entry that had the new name.  Where the search for the new
    name fails for another reason than its absence the request ends here with that error
    (the code goes on, with a file in an unknown state). *)
Inductive dir_req :=
| DFind (uuid oid : list Z)
| DName (uuid oid : list Z) (file_number : Z) (hash : list Z)
| DRemove (uuid oid : list Z)
| DHash (uuid oid hash : list Z)
| DSetName (uuid oid : list Z) (file_number : Z) (hash : list Z)
| DMove (uuid oid uuid' oid' : list Z).

(** The search for a name that may be there or not: its handle, or none. *)
Definition find_opt (fuel : nat) (uuid oid : list Z) : ex (wdir W FH) (option fileh) :=
  r ← attempt (tee_fs_dirfile_find fuel uuid oid (Z.of_nat (length oid)));
  match r with
  | inl h => mret (Some h)
  | inr e => if e =? TEE_ERROR_ITEM_NOT_FOUND then mret None else throw e
  end.

Definition named_or_throw (r : fileh * Z) : ex (wdir W FH) unit :=
  if snd r =? TEE_SUCCESS then mret tt else throw (snd r).

(** The end of a move: the handle of the entry that had the new name, if any, is removed. *)
Definition remove_opt (rm : option fileh) : ex (wdir W FH) (option (Z * list Z)) :=
  match rm with
  | Some h => _ ← tee_fs_dirfile_remove h; mret None
  | None => mret None
  end.

Definition dir_run (fuel : nat) (q : dir_req) : ex (wdir W FH) (option (Z * list Z)) :=
  match q with
  | DFind uuid oid =>
      h ← tee_fs_dirfile_find fuel uuid oid (Z.of_nat (length oid)); mret (Some (fl_file_number h, fl_hash h))
  | DName uuid oid n hash =>
      r ← tee_fs_dirfile_rename fuel uuid (mkFileh n hash (-1)) oid (Z.of_nat (length oid));
      _ ← named_or_throw r; mret None
  | DRemove uuid oid =>
      h ← tee_fs_dirfile_find fuel uuid oid (Z.of_nat (length oid));
      _ ← tee_fs_dirfile_remove h; mret None
  | DHash uuid oid hash =>
      h ← tee_fs_dirfile_find fuel uuid oid (Z.of_nat (length oid));
      _ ← tee_fs_dirfile_update_hash (mkFileh (fl_file_number h) hash (fl_idx h)); mret None
  | DSetName uuid oid n hash =>
      old ← find_opt fuel uuid oid;
      let idx := match old with Some h => fl_idx h | None => -1 end in
      r ← tee_fs_dirfile_rename fuel uuid (mkFileh n hash idx) oid (Z.of_nat (length oid));
      _ ← named_or_throw r; mret None
  | DMove uuid oid uuid' oid' =>
      remove_dfh ← find_opt fuel uuid' oid';
      dfh ← tee_fs_dirfile_find fuel uuid oid (Z.of_nat (length oid));
      r ← tee_fs_dirfile_rename fuel uuid' dfh oid' (Z.of_nat (length oid'));
      _ ← named_or_throw r;
      remove_opt remove_dfh
  end.

(** The specification: a finite map from names.  Moving an object to the name it has removes
    it. *)
Definition dir_spec (q : dir_req) (m : gmap (list Z * list Z) (Z * list Z)) :
    (option (Z * list Z) + Z) * gmap (list Z * list Z) (Z * list Z) :=
  match q with
  | DFind uuid oid => (match m !! (uuid, oid) with Some v => inl (Some v) | None => inr TEE_ERROR_ITEM_NOT_FOUND end, m)
  | DName uuid oid n hash => (inl None, <[(uuid, oid) := (n, hash)]> m)
  | DRemove uuid oid =>
      match m !! (uuid, oid) with
      | Some _ => (inl None, delete (uuid, oid) m)
      | None => (inr TEE_ERROR_ITEM_NOT_FOUND, m)
      end
  | DHash uuid oid hash =>
      match m !! (uuid, oid) with
      | Some v => (inl None, <[(uuid, oid) := (v.1, hash)]> m)
      | None => (inr TEE_ERROR_ITEM_NOT_FOUND, m)
      end
  | DSetName uuid oid n hash => (inl None, <[(uuid, oid) := (n, hash)]> m)
  | DMove uuid oid uuid' oid' =>
      match m !! (uuid, oid) with
      | None => (inr TEE_ERROR_ITEM_NOT_FOUND, m)
      | Some v =>
          let rest := delete (uuid, oid) m in
          (inl None, if decide ((uuid, oid) = (uuid', oid')) then rest else <[(uuid', oid') := v]> rest)
      end
  end.

(** Names and hashes of the right size; a new file has a number of its own, as [get_tmp] gives. *)
Definition dir_req_ok s (m : gmap (list Z * list Z) (Z * list Z)) (q : dir_req) : Prop :=
  match q with
  | DFind uuid oid | DRemove uuid oid => name_ok uuid oid
  | DName uuid oid n hash | DSetName uuid oid n hash => name_ok uuid oid /\ length hash = 32%nat /\ Forall is_byte hash /\
      in_use (snd s) n = true /\ forall k v, m !! k = Some v -> v.1 <> n
  | DHash uuid oid hash => name_ok uuid oid /\ length hash = 32%nat /\ Forall is_byte hash
  | DMove uuid oid uuid' oid' => name_ok uuid oid /\ name_ok uuid' oid'
  end.

(** A search with its outcome on the map, followed by a use of the entry found. *)
Lemma find_then fuel s ents m uuid oid {A} (f : fileh -> ex (wdir W FH) A) (Q : A + Z -> wdir W FH -> Prop) :
  dir_inv s ents -> names ents m -> name_ok uuid oid -> (length ents < fuel)%nat ->
  (forall i e s1, dir_inv s1 ents -> ents !! i = Some e -> named e (uuid, oid) ->
     m !! (uuid, oid) = Some (de_file_number e, de_hash e) ->
     wpx (f (mkFileh (de_file_number e) (de_hash e) (Z.of_nat i))) s1 Q) ->
  (forall s1, dir_inv s1 ents -> m !! (uuid, oid) = None -> Q (inr TEE_ERROR_ITEM_NOT_FOUND) s1) ->
  (forall c s1, io_error c -> Q (inr c) s1) ->
  wpx (h ← tee_fs_dirfile_find fuel uuid oid (Z.of_nat (length oid)); f h) s Q.
Proof.
  intros (HD & HO & Hnd) HM Hn Hf Hfound Hnone Herr. apply wpx_bind.
  eapply wpx_mono; [by apply (find_spec fuel s ents) |]. unfold find_post. cbn beta. intros [h|c] s1 HR.
  - destruct HR as (i & e & HD1 & Es1 & He & Hk & -> & _). apply Hfound; [| done.. | by eapply names_at].
    split_and!; [done | by rewrite Es1 | by rewrite Es1].
  - destruct HR as [HR | (-> & HD1 & Es1 & HU)]; [by apply Herr |]. apply Hnone; [| by eapply names_none].
    split_and!; [done | by rewrite Es1 | by rewrite Es1].
Qed.

Lemma dir_repr_mono n n' s m : (n <= n')%nat -> dir_repr n s m -> dir_repr n' s m.
Proof. intros Hn (ents & HI & HM & Hl). exists ents. split_and!; [done | done | lia]. Qed.

Lemma find_opt_then fuel s ents m uuid oid {A} (f : option fileh -> ex (wdir W FH) A) (Q : A + Z -> wdir W FH -> Prop) :
  dir_inv s ents -> names ents m -> name_ok uuid oid -> (length ents < fuel)%nat ->
  (forall i e s1, dir_inv s1 ents -> snd s1 = snd s -> ents !! i = Some e -> named e (uuid, oid) ->
     wpx (f (Some (mkFileh (de_file_number e) (de_hash e) (Z.of_nat i)))) s1 Q) ->
  (forall s1, dir_inv s1 ents -> snd s1 = snd s -> m !! (uuid, oid) = None -> wpx (f None) s1 Q) ->
  (forall c s1, io_error c -> Q (inr c) s1) ->
  wpx (h ← find_opt fuel uuid oid; f h) s Q.
Proof.
  intros (HD & HO & Hnd) HM Hn Hf Hfound Hnone Herr. apply wpx_bind. unfold find_opt. apply wpx_bind, wpx_attempt.
  eapply wpx_mono; [by apply (find_spec fuel s ents) |]. unfold find_post. cbn beta. intros [h|c] s1 HR.
  - destruct HR as (i & e & HD1 & Es1 & He & Hk & -> & _). apply wpx_ret. apply Hfound; [| done..].
    split_and!; [done | by rewrite Es1 | by rewrite Es1].
  - destruct HR as [HR | (-> & HD1 & Es1 & HU)].
    + rewrite (proj2 (Z.eqb_neq c TEE_ERROR_ITEM_NOT_FOUND)) by apply HR. apply wpx_throw. by apply Herr.
    + rewrite Z.eqb_refl. apply wpx_ret. apply Hnone; [| done | by eapply names_none].
      split_and!; [done | by rewrite Es1 | by rewrite Es1].
Qed.

(** What is done with the outcome of a rename. *)
Lemma renamed_then {A} (f : ex (wdir W FH) A) (r : fileh * Z) s (P : Prop) (Q : A + Z -> wdir W FH -> Prop) :
  snd r <> TEE_ERROR_ITEM_NOT_FOUND -> (snd r = TEE_SUCCESS -> P) -> (P -> wpx f s Q) ->
  (forall c, io_error c -> Q (inr c) s) -> wpx (_ ← named_or_throw r; f) s Q.
Proof.
  intros Hnf Hok Hrun Herr. apply wpx_bind. unfold named_or_throw. destruct (Z.eqb_spec (snd r) TEE_SUCCESS) as [E|N].
  - apply wpx_ret. by apply Hrun, Hok.
  - apply wpx_throw. apply Herr. by split.
Qed.

(** A new file under a name that may be taken: the new number and hash replace the old. *)
Lemma set_name_spec fuel s ents m uuid oid n hash : dir_inv s ents -> names ents m -> dir_req_ok s m (DSetName uuid oid n hash) ->
  (length ents < fuel)%nat -> Z.of_nat (length ents) < 2 ^ 31 - 2 ->
  wpx (dir_run fuel (DSetName uuid oid n hash)) s (fun r s' =>
    r = inl None /\ dir_repr (S (length ents)) s' (<[(uuid, oid) := (n, hash)]> m) \/ exists e, r = inr e /\ io_error e).
Proof.
  intros HI HM (Hn & Lh & Bh & HU & Hfree) Hf Hc. cbn [dir_run].
  apply (find_opt_then fuel s ents m); [done | done | done | done | | | eauto].
  - intros i e s1 HI1 Es1 He Hk. cbn [fl_idx]. apply wpx_bind. eapply wpx_mono.
    { apply (rename_at_spec fuel s1 ents uuid oid (mkFileh n hash (Z.of_nat i)) i e); (done || rewrite ?Es1; try done).
      intros j e' _ He' Hl'. apply (Hfree (dent_key e') (de_file_number e', de_hash e')). apply HM. by exists j, e'. }
    cbn beta. intros r s2 (h' & c & -> & Hnf & Hok). cbn [fl_file_number fl_hash] in Hok.
    eapply renamed_then; [done | exact Hok | | eauto]. intros [HI2 _]. apply wpx_ret. left. split; [done |].
    destruct (named_dent_ok uuid oid (mkFileh n hash (Z.of_nat i)) Hn Lh Bh) as (_ & Hk' & _).
    { pose proof (in_use_bound _ _ HU). destruct HI as (HD & _). destruct (df_files _ _ HD). cbn. lia. }
    apply lookup_lt_Some in He as Hlt. eexists. split_and!; [exact HI2 | | rewrite length_insert; lia].
    rewrite <- set_dent_lt by lia. apply (names_insert ents m HM i); [lia | done | |].
    + intros e0 He0 _. assert (e0 = e) as -> by congruence. apply Hk.
    + intros j x Hj Hx Hkx. destruct Hj. destruct HI as (_ & HO & _). by eapply names_unique.
  - intros s1 HI1 Es1 _. apply wpx_bind.
    eapply wpx_mono; [apply (rename_spec fuel s1 ents m uuid oid (mkFileh n hash (-1))); (done || rewrite ?Es1; done) |].
    cbn beta. intros r s2 (h' & c & -> & Hnf & Hok). cbn [fl_file_number fl_hash] in Hok.
    eapply renamed_then; [done | exact Hok | | eauto]. intros HR. apply wpx_ret. by left.
Qed.

(** What a move returns and leaves. *)
Definition moved ents (m : gmap (list Z * list Z) (Z * list Z)) (uuid oid uuid' oid' : list Z)
    (r : option (Z * list Z) + Z) s' : Prop :=
  let q := dir_spec (DMove uuid oid uuid' oid') m in
  r = fst q /\ dir_repr (length ents) s' (snd q) \/ exists e, r = inr e /\ io_error e.

(** The middle of a move: the entry of the old name is found and gets the new one. *)
Lemma move_entry_spec fuel s ents m uuid oid uuid' oid' rm :
  dir_inv s ents -> names ents m -> name_ok uuid oid -> name_ok uuid' oid' ->
  (length ents < fuel)%nat -> Z.of_nat (length ents) < 2 ^ 31 - 2 ->
  (forall i e s1, ents !! i = Some e -> named e (uuid, oid) -> m !! (uuid, oid) = Some (de_file_number e, de_hash e) ->
     let e' := named_dent uuid' oid' (Z.of_nat (length oid')) (mkFileh (de_file_number e) (de_hash e) (Z.of_nat i)) in
     named e' (uuid', oid') -> dir_inv s1 (<[i := e']> ents) ->
     wpx (remove_opt rm) s1 (moved ents m uuid oid uuid' oid')) ->
  wpx (dfh ← tee_fs_dirfile_find fuel uuid oid (Z.of_nat (length oid));
       r ← tee_fs_dirfile_rename fuel uuid' dfh oid' (Z.of_nat (length oid'));
       _ ← named_or_throw r;
       remove_opt rm) s (moved ents m uuid oid uuid' oid').
Proof.
  intros HI HM Hn Hn' Hf Hc Hend. apply (find_then fuel s ents m); [done | done | done | done | | |].
  - intros i e s1 HI1 He Hk Em. pose proof HI1 as (HD & HO & _). destruct (do_used _ _ HO _ _ He (proj1 Hk)) as [_ HU].
    destruct (wf_at _ _ _ _ HD He) as (_ & _ & Lh & _ & _ & _ & _ & Bh). apply wpx_bind. eapply wpx_mono.
    { apply (rename_at_spec fuel s1 ents uuid' oid' (mkFileh (de_file_number e) (de_hash e) (Z.of_nat i)) i e); try done.
      intros j x Hj Hx Hl E. destruct Hj. eapply (do_nodup _ _ HO); [exact Hx | exact He | done | apply Hk | exact E]. }
    cbn beta. intros r s2 (h' & c & -> & Hnf & Hok).
    eapply renamed_then; [done | exact Hok | | by intros c' Hc'; right; exists c']. intros [HI2 _].
    apply (Hend i e s2); [done | done | done | | done]. apply named_dent_ok; [done | done | done |].
    destruct (file_number_i32 _ _ (df_files _ _ HD) HU) as [? _]. cbn. lia.
  - intros s1 HI1 Em. left. cbn [dir_spec]. rewrite Em. split; [done |]. by exists ents.
  - intros c s1 Hc'. right. by exists c.
Qed.

(** An object under a new name. *)
Lemma move_spec fuel s ents m uuid oid uuid' oid' : dir_inv s ents -> names ents m -> name_ok uuid oid -> name_ok uuid' oid' ->
  (length ents < fuel)%nat -> Z.of_nat (length ents) < 2 ^ 31 - 2 ->
  wpx (dir_run fuel (DMove uuid oid uuid' oid')) s (moved ents m uuid oid uuid' oid').
Proof.
  intros HI HM Hn Hn' Hf Hc. pose proof HI as (_ & HO & _). cbn [dir_run].
  apply (find_opt_then fuel s ents m); [done | done | done | done | | | by intros c s1 Hc'; right; exists c].
  - intros j e2 s1 HI1 _ He2 Hk2. apply (move_entry_spec fuel s1 ents m _ _ _ _ (Some _)); [done.. |].
    intros i e s2 He Hk Em e' Hk' HI2. unfold moved. cbn [dir_spec remove_opt]. rewrite Em. cbn [fst snd].
    apply lookup_lt_Some in He as Hlt. apply wpx_bind. destruct (decide (j = i)) as [-> | Hne].
    + assert (e2 = e) as -> by congruence. rewrite decide_True by (destruct Hk, Hk2; congruence).
      eapply wpx_mono; [apply (remove_at_spec s2 _ _ i e' HI2); [by rewrite list_lookup_insert_eq | apply Hk' | done | done | by rewrite length_insert] |].
      cbn beta. intros [[]|c] s3 HR; [| eauto]. destruct HR as [HI3 _]. apply wpx_ret. left. split; [done |].
      rewrite list_insert_insert_eq in HI3. exists (<[i := zero_dent]> ents). split_and!; [done | | by rewrite length_insert].
      rewrite <- set_dent_lt by lia. by eapply names_delete.
    + assert (Hkk : (uuid, oid) <> (uuid', oid')).
      { intros E. destruct Hne. rewrite <- E in Hk2. by eapply names_unique. }
      rewrite decide_False by done.
      eapply wpx_mono; [apply (remove_at_spec s2 _ _ j e2 HI2); [by rewrite list_lookup_insert_ne | apply Hk2 | done | done | by rewrite length_insert] |].
      cbn beta. intros [[]|c] s3 HR; [| eauto]. destruct HR as [HI3 _]. apply wpx_ret. left. split; [done |].
      eexists. split_and!; [exact HI3 | | by rewrite !length_insert].
      by eapply (names_rename_over (snd s) ents m i e (uuid, oid) e' (uuid', oid') j e2).
  - intros s1 HI1 _ Hnone. apply (move_entry_spec fuel s1 ents m _ _ _ _ None); [done.. |].
    intros i e s2 He Hk Em e' Hk' HI2. unfold moved. cbn [dir_spec remove_opt]. rewrite Em. cbn [fst snd].
    apply wpx_ret. left. split; [done |]. rewrite decide_False by (intros E; congruence).
    eexists. split_and!; [exact HI2 | | by rewrite length_insert].
    by eapply (names_rename (snd s) ents m i e (uuid, oid) e' (uuid', oid')).
Qed.

(** C17: the directory file refines a finite map from names (application UUID and object
    identifier) to file numbers and hashes: looking a name up, naming a new file with or
    without an entry of that name (the number marked and no object's), moving an object to
    another name, taken or not, recording a hash and removing a name return what the map
    says and leave the directory representing the map the request specifies, unless the
    file under it reports an error; a name not in the map gives [TEE_ERROR_ITEM_NOT_FOUND],
    and moving an object to the name it has removes it.  Names have 1 to 64 bytes, and
    there are less than 2^31 - 2 entries. *)
Theorem dirfile_refines fuel cap s m q : dir_repr cap s m -> dir_req_ok s m q ->
  (cap < fuel)%nat -> Z.of_nat cap < 2 ^ 31 - 2 ->
  wpx (dir_run fuel q) s (fun r s' =>
    r = fst (dir_spec q m) /\ dir_repr (S cap) s' (snd (dir_spec q m)) \/
    exists e, r = inr e /\ io_error e).
Proof.
  intros (ents & HI & HM & Hl) Hq Hf Hc.
  assert (Hsame : forall s1, dir_inv s1 ents -> dir_repr (S cap) s1 m) by (intros s1 HI1; exists ents; split_and!; (done || lia)).
  destruct q as [uuid oid | uuid oid n hash | uuid oid | uuid oid hash | uuid oid n hash | uuid oid uuid' oid'].
  5: { eapply wpx_mono; [apply (set_name_spec fuel s ents m); (done || lia) |]. cbn beta. intros r s' [[-> HR] | ?]; [left | by right].
       split; [done |]. eapply dir_repr_mono; [| exact HR]. lia. }
  5: { destruct Hq as [Hn Hn']. eapply wpx_mono; [apply (move_spec fuel s ents m); (done || lia) |]. cbn beta. intros r s' [[-> HR] | ?]; [left | by right].
       split; [done |]. eapply dir_repr_mono; [| exact HR]. lia. }
  all: cbn [dir_run dir_spec dir_req_ok] in *.
  - apply (find_then fuel s ents m); [done | done | done | lia | | |].
    + intros i e s1 HI1 He Hk Em. apply wpx_ret. left. rewrite Em. auto.
    + intros s1 HI1 Em. left. rewrite Em. auto.
    + intros c s1 Hc'. right. eauto.
  - destruct Hq as (Hn & Lh & Bh & HU & Hfree). apply wpx_bind.
    eapply wpx_mono; [apply (rename_spec fuel s ents m uuid oid (mkFileh n hash (-1))); (done || lia) |].
    cbn beta. intros r s1 (h' & c & -> & Hnf & Hok). eapply renamed_then; [done | exact Hok | | eauto].
    intros HR. apply wpx_ret. left. split; [done |]. eapply dir_repr_mono; [| exact HR]. lia.
  - apply (find_then fuel s ents m); [done | done | done | lia | | |].
    + intros i e s1 HI1 He Hk Em. rewrite Em. apply wpx_bind.
      eapply wpx_mono; [apply (remove_spec s1 ents m i e (uuid, oid)); (done || lia) |]. cbn beta.
      intros [[]|c] s2 HR; [| right; eauto]. apply wpx_ret. left. split; [done |]. destruct HR as [HR _].
      eapply dir_repr_mono; [| exact HR]. lia.
    + intros s1 HI1 Em. left. rewrite Em. auto.
    + intros c s1 Hc'. right. eauto.
  - destruct Hq as (Hn & Lh & Bh). apply (find_then fuel s ents m); [done | done | done | lia | | |].
    + intros i e s1 HI1 He Hk Em. rewrite Em. cbn [fl_file_number fl_idx fst]. apply wpx_bind.
      eapply wpx_mono; [apply (update_hash_spec s1 ents m i e (uuid, oid) hash); (done || lia) |]. cbn beta.
      intros [[]|c] s2 HR; [| right; eauto]. apply wpx_ret. left. split; [done |]. eapply dir_repr_mono; [| exact HR]. lia.
    + intros s1 HI1 Em. left. rewrite Em. auto.
    + intros c s1 Hc'. right. eauto.
Qed.

(** C27: a number for a new file is the least one that is not marked in the bit string; no
    object of the directory has it, it is marked from then on, and no name changes. *)
Theorem dirfile_get_tmp_fresh cap s m h : dir_repr cap s m -> dh_nbits (snd s) < 2 ^ 31 - 1 ->
  wpx (tee_fs_dirfile_get_tmp h) s (fun r s' => dir_repr cap s' m /\
    match r with
    | inl h' => (forall k v, m !! k = Some v -> v.1 <> fl_file_number h') /\
        in_use (snd s) (fl_file_number h') = false /\ in_use (snd s') (fl_file_number h') = true /\
        forall j, 0 <= j < fl_file_number h' -> in_use (snd s) j = true
    | inr e => e = TEE_ERROR_OUT_OF_MEMORY
    end).
Proof.
  intros (ents & HI & HM & Hl) Hb. eapply wpx_mono; [by apply (get_tmp_spec s ents) |]. cbn beta.
  intros [h'|e] s1 HR.
  - destruct HR as (HI1 & H0 & Hfree & Hleast & HU). split; [by exists ents |]. split_and!; [| done | by rewrite HU, Z.eqb_refl | done].
    intros k v (i & e & He & Hk & ->)%HM E. cbn in E. destruct HI as (_ & HO & _).
    destruct (do_used _ _ HO i e He (proj1 Hk)) as [_ HU']. congruence.
  - destruct HR as (-> & HI1 & _). split; [by exists ents | done].
Qed.

(** C28: reading the directory of an application to its end lists exactly the identifiers of
    its objects, each once, and changes nothing. *)
Theorem dirfile_listing cap fuel steps s m uuid : dir_repr cap s m -> length uuid = 16%nat ->
  (cap < fuel)%nat -> (cap < steps)%nat ->
  wpx (list_dir fuel steps uuid (-1)) s (fun r s' =>
    match r with
    | inl l => NoDup l /\ (forall oid, oid ∈ l <-> is_Some (m !! (uuid, oid))) /\ dir_repr cap s' m
    | inr c => io_error c
    end).
Proof.
  intros (ents & HI & HM & Hl) Lu Hf Hst. pose proof HI as (HD & HO & Hnd).
  eapply wpx_mono; [apply (list_dir_spec uuid fuel Lu steps s ents (-1)); [done | done | lia | lia | rewrite length_drop; lia] |].
  cbn beta. intros [l|c] s1 HR; [| done]. destruct HR as (HD1 & Es1 & ->). cbn [Z.add Z.to_nat drop].
  assert (Hk : forall e, of_app uuid e -> named e (uuid, dent_oid e)) by (intros e [Hlv <-]; by split).
  split_and!.
  - apply NoDup_fmap_2_strong.
    + intros e e' [Ha (i & Hi)%list_elem_of_lookup_1]%list_elem_of_filter [Ha' (j & Hj)%list_elem_of_lookup_1]%list_elem_of_filter E.
      apply Hk in Ha. apply Hk in Ha'. rewrite <- E in Ha'.
      assert (i = j) as -> by (by eapply (names_unique (snd s) ents m)). congruence.
    + apply NoDup_filter_at. intros i j e Hi Hj Ha. eapply (do_nodup _ _ HO); [done | done | apply Ha | apply Ha | done].
  - intros oid. rewrite list_elem_of_fmap. setoid_rewrite list_elem_of_filter. split.
    + intros (e & -> & Ha & (i & Hi)%list_elem_of_lookup_1). eexists. eapply (names_at ents m); [done | done | by apply Hk].
    + intros [v (i & e & He & [Hlv [= <- <-]] & ->)%HM]. exists e. split; [done |]. split; [by split | by eapply list_elem_of_lookup_2].
  - exists ents. split_and!; [split_and!; [done | by rewrite Es1 | by rewrite Es1] | done | done].
Qed.

(** C29: opening a directory file keeps the entries it holds, except that of several entries
    with one file number only the first stays; the numbers marked are exactly those of the
    entries in use, which establishes the invariant of the open directory. *)
Theorem dirfile_open_repairs fuel w fh ents : fop_live w fh -> fview w fh = dents_bytes ents ->
  Forall dent_wf ents -> Forall dent_sane ents -> Z.of_nat (length ents) < 2 ^ 31 - 1 -> (length ents < fuel)%nat ->
  wpx (open_entries fuel fh) w (fun r w' =>
    match r with
    | inl d => dir_inv (w', d) (dedup [] ents) /\ (forall j, in_use d j = true <-> j ∈ numbers ents) /\
        (NoDup (numbers ents) -> dedup [] ents = ents)
    | inr c => io_error c
    end).
Proof.
  intros HL HV Hw Hs Hlen Hf. unfold open_entries.
  assert (HD : dir_file (w, mkDirh fh 0 None 0) ([] ++ ents)) by (by split).
  destruct (open_loop_spec fuel ents (w, mkDirh fh 0 None 0) [] [] HD Hs) as (r & [w1 d1] & E & HR).
  { intros j. unfold in_use. cbn. rewrite andb_false_r. split; [done | by intros ?%not_elem_of_nil]. }
  { done. }
  unfold wpx. change (Z.of_nat (length (@nil dirfile_entry))) with 0 in E. rewrite E. destruct r as [k|c].
  - destruct HR as (-> & HD1 & Hfh & HU). cbn [app snd] in *. eexists _, _. split; [done |]. cbn beta iota.
    destruct (dedup_numbers ents []) as [HN HI].
    assert (HU' : forall j, in_use d1 j = true <-> j ∈ numbers (dedup [] ents)).
    { intros j. rewrite HU. split; [by intros [?%not_elem_of_nil | ?] | by right]. }
    split_and!.
    + split_and!; [| | by rewrite dedup_length]; [destruct HD1; by split |]. split.
      * intros i e He Hl. pose proof (dedup_at ents [] i e He Hl) as He'.
        destruct (Forall_lookup_1 _ _ _ _ Hs He' Hl) as [? _]. split; [done |].
        cbn [snd]. apply HU'. by eapply numbers_at.
      * intros i j e e'. by apply numbers_nodup.
    + intros j. change (in_use _ j) with (in_use d1 j). rewrite HU', HI. split; [tauto |]. intros ?. split; [done | apply not_elem_of_nil].
    + intros Hnd. apply dedup_id; [done |]. intros n _. apply not_elem_of_nil.
  - destruct (fop_close_spec (Some (dh_fh d1)) w1) as (w2 & Ec). exists (inr c), w2. split; [| exact HR].
    unfold ex_bind, call, tee_fs_dirfile_close. rewrite Ec. done.
Qed.

End Directory.

(** ** Names of files *)

Fixpoint hex_val (l : list Z) : Z :=
  match l with
  | [] => 0
  | c :: l => (if c <? 58 then c - 48 else c - 87) * 16 ^ Z.of_nat (length l) + hex_val l
  end.

Lemma hex_digit_val d : 0 <= d < 16 ->
  (if hex_digit d <? 58 then hex_digit d - 48 else hex_digit d - 87) = d /\ 48 <= hex_digit d <= 102.
Proof. intros Hd. unfold hex_digit. destruct (Z.ltb_spec d 10), (Z.ltb_spec (48 + d) 58), (Z.ltb_spec (87 + d) 58); lia. Qed.

Lemma hex_digits_spec fuel : forall z acc, 0 <= z < 16 ^ Z.of_nat fuel -> (0 < fuel)%nat ->
  exists l, hex_digits fuel z acc = l ++ acc /\ (1 <= length l <= fuel)%nat /\
    hex_val (l ++ acc) = z * 16 ^ Z.of_nat (length acc) + hex_val acc /\ Forall (fun c => 48 <= c <= 102) l.
Proof.
  induction fuel as [|fuel IH]; intros z acc Hz Hpos; [lia |]. cbn [hex_digits].
  pose proof (Z.div_mod z 16) as Hdm. pose proof (Z.mod_pos_bound z 16) as Hmb.
  destruct (hex_digit_val (z mod 16)) as [Hv Hr]; [lia |].
  destruct (Z.eqb_spec (z / 16) 0) as [E|N].
  - exists [hex_digit (z mod 16)]. split_and!; [done | cbn; lia | cbn; lia | | by constructor].
    cbn [app hex_val]. rewrite Hv. replace (z mod 16) with z by lia. done.
  - assert (Hb : 0 <= z / 16 < 16 ^ Z.of_nat fuel).
    { split; [apply Z.div_pos; lia |]. apply Z.div_lt_upper_bound; [lia |]. rewrite Nat2Z.inj_succ, Z.pow_succ_r in Hz by lia. lia. }
    destruct fuel as [|fuel]; [cbn in Hb; lia |].
    destruct (IH (z / 16) (hex_digit (z mod 16) :: acc) Hb) as (l & E & Hl & Hval & HF); [lia |].
    exists (l ++ [hex_digit (z mod 16)]). rewrite E, <- app_assoc. split_and!; [done | len | len | |].
    + cbn [app]. rewrite Hval. cbn [hex_val length]. rewrite Hv, Nat2Z.inj_succ, Z.pow_succ_r by lia. lia.
    + apply Forall_app. split; [done | by constructor].
Qed.

Lemma hex_str_spec z : 0 <= z < 2 ^ 32 ->
  hex_val (hex_str z) = z /\ (1 <= length (hex_str z) <= 8)%nat /\ Forall (fun c => 48 <= c <= 102) (hex_str z).
Proof.
  intros Hz. unfold hex_str. rewrite u32_small by done.
  destruct (hex_digits_spec 8 z []) as (l & -> & Hl & Hv & HF); [done | lia |].
  rewrite app_nil_r in *. split_and!; [rewrite Hv; cbn; lia | lia | lia | done].
Qed.

(** A name buffer of nine bytes holds the name of any file; files with different numbers
    have different names, and none has the name of the directory file. *)
Theorem file_names_distinct h1 h2 n : 0 <= fl_file_number h1 < 2 ^ 32 -> 0 <= fl_file_number h2 < 2 ^ 32 -> 9 <= n ->
  let name h := snd (fst (tee_fs_dirfile_fileh_to_fname h n)) in
  fst (fst (tee_fs_dirfile_fileh_to_fname (Some h1) n)) = TEE_SUCCESS /\
  (name (Some h1) = name (Some h2) <-> fl_file_number h1 = fl_file_number h2) /\ name (Some h1) <> name None.
Proof.
  intros H1 H2 Hn. cbn [tee_fs_dirfile_fileh_to_fname fst snd].
  destruct (hex_str_spec _ H1) as (V1 & L1 & F1). destruct (hex_str_spec _ H2) as (V2 & L2 & F2).
  unfold snprintf_out. rewrite (proj2 (Z.eqb_neq n 0)) by lia. rewrite !take_ge by (lia || (cbn; lia)).
  split_and!.
  - by rewrite (proj2 (Z.leb_gt n _)) by lia.
  - split; [| by intros ->]. intros [E _]%app_inj_tail. congruence.
  - intros [E _]%app_inj_tail. rewrite E in F1. rewrite Forall_forall in F1. specialize (F1 105). unfold dirf_db in F1. set_solver by lia.
Qed.

(** ** A file in memory, for the witnesses *)

Module RamFile.
#[export] Instance heap : HeapOps (list Z) := {|
  malloc n := fun w => Ret (Some (zeros n), w);
  realloc old n := fun w => Ret (Some (take (Z.to_nat n) (old ++ zeros n)), w) |}.
#[export] Instance ops : DirfileOps (list Z) unit := {|
  fop_open create hash uuid dfh := mret (tt, hash);
  fop_close fh := mret tt;
  fop_read fh pos len := fun w => Ret (inl (take (Z.to_nat len) (drop (Z.to_nat pos) w)), w);
  fop_write fh pos b := fun w => Ret (inl tt, file_write w (Z.to_nat pos) b);
  fop_commit_writes fh := mret (zeros 32) |}.

#[export] Instance laws : DirfileLaws (list Z) unit.
Proof.
  refine {| fop_live _ _ := True; fview w _ := w |}.
  - intros old n w _ Hn Ho _. eexists _, _. split; [done |]. split; [done |]. split; [done |]. intros p [= <-].
    split; [split; [unfold zeros; len |] |].
    + apply Forall_take, Forall_app. split; [done |]. apply Forall_replicate. unfold is_byte. lia.
    + intros Hl. rewrite take_take, Nat.min_l by lia. apply take_app_length.
  - intros fh w. by exists w.
  - intros fh pos len w _ _ _ _. by eexists _, _.
  - intros fh pos b w _ _ _ _. by eexists _, _.
Defined.

(** An application, two objects of it, and a hash. *)
Definition app1 : list Z := replicate 16 1.
Definition obj1 : list Z := [97; 98].
Definition obj2 : list Z := [99].
Definition hash1 : list Z := replicate 32 7.
Definition dent1 : dirfile_entry := named_dent app1 obj1 2 (mkFileh 0 hash1 0).
Definition dent2 : dirfile_entry := named_dent app1 obj2 1 (mkFileh 1 hash1 1).
Definition dir1 : dirh unit := mkDirh tt 3 (Some [0x07]) 2.
Definition names1 : gmap (list Z * list Z) (Z * list Z) := <[(app1, obj1) := (0, hash1)]> {[ (app1, obj2) := (1, hash1) ]}.

Lemma repr1 : dir_repr 2 (dents_bytes [dent1; dent2], dir1) names1.
Proof.
  exists [dent1; dent2]. split_and!; [split_and! | | done].
  - split; [done | done | | | done].
    + apply Forall_cons. split; [| apply Forall_cons; split; [| constructor]]; (unfold dent_wf; split_and!; decide_c).
    + split; [cbn; lia |]. cbn. split; [constructor; [unfold is_byte; lia | constructor] | done].
  - split.
    + intros [|[|i]] e; cbn; [intros [= <-] _; by vm_compute.. | done].
    + intros [|[|i]] [|[|j]] e e'; cbn; try done; intros [= <-] [= <-]; done.
  - done.
  - intros k v. unfold names1. rewrite lookup_insert_Some, lookup_singleton_Some. split.
    + intros [[<- <-] | (Hne & <- & <-)]; [exists 0%nat, dent1 | exists 1%nat, dent2]; by vm_compute.
    + intros ([|[|i]] & e & He & [_ <-] & ->); cbn in He; [injection He as <- | injection He as <- | done].
      * left. by vm_compute.
      * right. split; [by vm_compute | by vm_compute].
Qed.
End RamFile.

(** ** Witnesses *)

Import RamFile.

(** The first object gets the name of the second. *)
Lemma dirfile_refines_witness :
  wpx (dir_run 3 (DMove app1 obj1 app1 obj2)) (dents_bytes [dent1; dent2], dir1) (fun r s' =>
    r = inl None /\ dir_repr 3 s' (<[(app1, obj2) := (0, hash1)]> (delete (app1, obj1) names1)) \/ exists e, r = inr e /\ io_error e).
Proof.
  apply (dirfile_refines 3 2 _ names1 (DMove app1 obj1 app1 obj2) repr1); [| lia | lia].
  split; unfold name_ok; split_and!; decide_c.
Defined.

Lemma dirfile_get_tmp_fresh_witness :
  wpx (tee_fs_dirfile_get_tmp (mkFileh 9 hash1 (-1))) (dents_bytes [dent1; dent2], dir1) (fun r s' =>
    dir_repr 2 s' names1 /\
    match r with
    | inl h' => (forall k v, names1 !! k = Some v -> v.1 <> fl_file_number h') /\
        in_use dir1 (fl_file_number h') = false /\ in_use (snd s') (fl_file_number h') = true /\
        forall j, 0 <= j < fl_file_number h' -> in_use dir1 j = true
    | inr e => e = TEE_ERROR_OUT_OF_MEMORY
    end).
Proof. apply (dirfile_get_tmp_fresh 2 _ names1 _ repr1). cbn. lia. Defined.

Lemma dirfile_listing_witness :
  wpx (list_dir 3 3 app1 (-1)) (dents_bytes [dent1; dent2], dir1) (fun r s' =>
    match r with
    | inl l => NoDup l /\ (forall oid, oid ∈ l <-> is_Some (names1 !! (app1, oid))) /\ dir_repr 2 s' names1
    | inr c => io_error c
    end).
Proof. apply (dirfile_listing 2 3 3 _ names1 app1 repr1); [done | lia | lia]. Defined.

(** A directory file with two entries for file number 0. *)
Definition dent1' : dirfile_entry := named_dent app1 obj2 1 (mkFileh 0 hash1 0).
Lemma dirfile_open_repairs_witness :
  numbers [dent1; dent1'] = [0; 0] /\
  wpx (open_entries 3 tt) (dents_bytes [dent1; dent1']) (fun r w' =>
    match r with
    | inl d => dir_inv (w', d) (dedup [] [dent1; dent1']) /\ (forall j, in_use d j = true <-> j ∈ [0; 0]) /\
        (NoDup [0; 0] -> dedup [] [dent1; dent1'] = [dent1; dent1'])
    | inr c => io_error c
    end).
Proof.
  split; [by vm_compute |]. apply (dirfile_open_repairs 3 _ tt [dent1; dent1']); [done | done | | | cbn; lia | cbn; lia].
  - repeat (apply Forall_cons; split); [| | constructor]; (unfold dent_wf; split_and!; decide_c).
  - repeat (apply Forall_cons; split); [| | constructor]; intros _; by vm_compute.
Defined.

Lemma file_names_distinct_witness :
  let name h := snd (fst (tee_fs_dirfile_fileh_to_fname h 9)) in
  fst (fst (tee_fs_dirfile_fileh_to_fname (Some (mkFileh 17 hash1 0)) 9)) = TEE_SUCCESS /\
  (name (Some (mkFileh 17 hash1 0)) = name (Some (mkFileh 1 hash1 0)) <-> 17 = 1) /\
  name (Some (mkFileh 17 hash1 0)) <> name None.
Proof. apply (file_names_distinct (mkFileh 17 hash1 0) (mkFileh 1 hash1 0) 9); cbn; lia. Defined.

(** The names of files 17 and 0xdb, as the code prints them: "11" and "db". *)
Example fname_17 : tee_fs_dirfile_fileh_to_fname (Some (mkFileh 0x11 hash1 0)) 9 = (TEE_SUCCESS, [49; 49; 0], 3).
Proof. reflexivity. Qed.
Example fname_short : tee_fs_dirfile_fileh_to_fname None 4 = (TEE_ERROR_SHORT_BUFFER, [100; 105; 114; 0], 8).
Proof. reflexivity. Qed.
