(* ===== verification/Htree.v ===== *)
(** * The hash tree file of the secure storage (fs_htree.c, fs_htree.h)

    A file is a header and a binary tree of nodes, each with the data block of the same
    number; header, nodes and blocks have two versions in the file, one of them committed.
    [htree] is a node with its children or NULL: the node a [parent] field points to is the
    enclosing one.  A pointer to a node is its position, the path from the root.  The
    storage callbacks and the cryptographic operations are the classes [HtreeStorage] and
    [HtreeCrypto]. *)

From stdpp Require Import base numbers list.
From S2P Require Import Prelude SkTypes FsCore Dirfile.

(** ** Images: what is stored *)

Definition TEE_FS_HTREE_IV_SIZE : Z := 16.
Definition TEE_FS_HTREE_FEK_SIZE : Z := 16.
Definition TEE_FS_HTREE_TAG_SIZE : Z := 16.
Definition UINT_MAX : Z := 2 ^ 32 - 1.

Record node_image := mkNi { ni_hash : list Z; ni_iv : list Z; ni_tag : list Z; ni_flags : Z }.
Definition SIZEOF_NODE_IMAGE : Z := 66.
(** The bytes of a node image after the hash, which [calc_node_hash] starts with. *)
Definition ni_data (ni : node_image) : list Z := ni_iv ni ++ ni_tag ni ++ le_bytes 2 (ni_flags ni).
Definition ni_bytes (ni : node_image) : list Z := ni_hash ni ++ ni_data ni.
Definition ni_of (b : list Z) : node_image :=
  mkNi (field b 0 32) (field b 32 16) (field b 48 16) (le_val (field b 64 2)).
Definition zero_ni : node_image := mkNi (zeros 32) (zeros 16) (zeros 16) 0.

(** [struct tee_fs_htree_imeta], with its padding. *)
Record imeta_t := mkImeta { im_length : Z; im_max_node_id : Z }.
Definition SIZEOF_IMETA : Z := 16.
Definition imeta_bytes (im : imeta_t) : list Z := le_bytes 8 (im_length im) ++ le_bytes 4 (im_max_node_id im) ++ zeros 4.
Definition imeta_of (b : list Z) : imeta_t := mkImeta (le_val (field b 0 8)) (le_val (field b 8 4)).

Record image := mkImage { hd_iv : list Z; hd_tag : list Z; hd_enc_fek : list Z; hd_imeta : list Z; hd_counter : Z }.
Definition SIZEOF_IMAGE : Z := 68.
Definition image_bytes (h : image) : list Z := hd_iv h ++ hd_tag h ++ hd_enc_fek h ++ hd_imeta h ++ le_bytes 4 (hd_counter h).
Definition image_of (b : list Z) : image :=
  mkImage (field b 0 16) (field b 16 16) (field b 32 16) (field b 48 16) (le_val (field b 64 4)).
Definition zero_image : image := mkImage (zeros 16) (zeros 16) (zeros 16) (zeros 16) 0.

Definition BLOCK_NUM_TO_NODE_ID (num : Z) : Z := u64 (num + 1).
Definition HTREE_NODE_COMMITTED_BLOCK : Z := Z.shiftl 1 0.
Definition HTREE_NODE_COMMITTED_CHILD (n : Z) : Z := Z.shiftl 1 (1 + n).
(** [!!(flags & f)]. *)
Definition flag_set (flags f : Z) : bool := negb (Z.land flags f =? 0).

(** ** The tree in memory *)

Record htree_node := mkNode { n_id : Z; n_dirty : bool; n_block_updated : bool; n_node : node_image }.
Inductive htree := Null | Node (n : htree_node) (c0 c1 : htree).

Record tee_fs_htree := mkHt {
  ht_root : htree; ht_head : image; ht_fek : list Z; ht_imeta : imeta_t; ht_dirty : bool; ht_uuid : option (list Z) }.

(** [calloc]: a new node with its id. *)
Definition new_node (id : Z) : htree_node := mkNode id false false zero_ni.
Definition set_dirty (n : htree_node) (b : bool) : htree_node := mkNode (n_id n) b (n_block_updated n) (n_node n).
Definition set_block_updated (n : htree_node) (b : bool) : htree_node := mkNode (n_id n) (n_dirty n) b (n_node n).
Definition set_image (n : htree_node) (ni : node_image) : htree_node := mkNode (n_id n) (n_dirty n) (n_block_updated n) ni.
Definition ni_set_hash (ni : node_image) (h : list Z) : node_image := mkNi h (ni_iv ni) (ni_tag ni) (ni_flags ni).
Definition ni_set_iv (ni : node_image) (iv : list Z) : node_image := mkNi (ni_hash ni) iv (ni_tag ni) (ni_flags ni).
Definition ni_set_tag (ni : node_image) (t : list Z) : node_image := mkNi (ni_hash ni) (ni_iv ni) t (ni_flags ni).
Definition ni_set_flags (ni : node_image) (f : Z) : node_image := mkNi (ni_hash ni) (ni_iv ni) (ni_tag ni) f.
(** [flags ^= f] on the [uint16_t]. *)
Definition ni_flip (ni : node_image) (f : Z) : node_image := ni_set_flags ni (u16 (Z.lxor (ni_flags ni) f)).

Definition set_root (ht : tee_fs_htree) (t : htree) : tee_fs_htree :=
  mkHt t (ht_head ht) (ht_fek ht) (ht_imeta ht) (ht_dirty ht) (ht_uuid ht).
Definition set_head (ht : tee_fs_htree) (h : image) : tee_fs_htree :=
  mkHt (ht_root ht) h (ht_fek ht) (ht_imeta ht) (ht_dirty ht) (ht_uuid ht).
Definition set_fek (ht : tee_fs_htree) (k : list Z) : tee_fs_htree :=
  mkHt (ht_root ht) (ht_head ht) k (ht_imeta ht) (ht_dirty ht) (ht_uuid ht).
Definition set_imeta (ht : tee_fs_htree) (im : imeta_t) : tee_fs_htree :=
  mkHt (ht_root ht) (ht_head ht) (ht_fek ht) im (ht_dirty ht) (ht_uuid ht).
Definition set_ht_dirty (ht : tee_fs_htree) (b : bool) : tee_fs_htree :=
  mkHt (ht_root ht) (ht_head ht) (ht_fek ht) (ht_imeta ht) b (ht_uuid ht).
Definition hd_set_iv (h : image) (iv : list Z) : image := mkImage iv (hd_tag h) (hd_enc_fek h) (hd_imeta h) (hd_counter h).
Definition hd_set_tag (h : image) (t : list Z) : image := mkImage (hd_iv h) t (hd_enc_fek h) (hd_imeta h) (hd_counter h).
Definition hd_set_enc_fek (h : image) (k : list Z) : image := mkImage (hd_iv h) (hd_tag h) k (hd_imeta h) (hd_counter h).
Definition hd_set_imeta (h : image) (b : list Z) : image := mkImage (hd_iv h) (hd_tag h) (hd_enc_fek h) b (hd_counter h).
Definition hd_set_counter (h : image) (c : Z) : image := mkImage (hd_iv h) (hd_tag h) (hd_enc_fek h) (hd_imeta h) c.
Definition set_max_node_id (im : imeta_t) (m : Z) : imeta_t := mkImeta (im_length im) m.

(** ** Pointers to nodes: positions in the tree; [child[b]] is one step further *)

Definition child (t : htree) (b : bool) : htree :=
  match t with Null => Null | Node _ c0 c1 => if b then c1 else c0 end.
Fixpoint sub (t : htree) (p : list bool) : htree :=
  match p with [] => t | b :: p => sub (child t b) p end.
(** [*p]. *)
Definition node_at (t : htree) (p : list bool) : option htree_node :=
  match sub t p with Node n _ _ => Some n | Null => None end.
(** [*p = f *p], and [p->child[b] = c]. *)
Fixpoint upd_node (t : htree) (p : list bool) (f : htree_node -> htree_node) : htree :=
  match t, p with
  | Null, _ => Null
  | Node n c0 c1, [] => Node (f n) c0 c1
  | Node n c0 c1, b :: p => if b : bool then Node n c0 (upd_node c1 p f) else Node n (upd_node c0 p f) c1
  end.
Fixpoint set_child (t : htree) (p : list bool) (b : bool) (c : htree) : htree :=
  match t, p with
  | Null, _ => Null
  | Node n c0 c1, [] => if b then Node n c0 c else Node n c c1
  | Node n c0 c1, d :: p => if d : bool then Node n c0 (set_child c1 p b c) else Node n (set_child c0 p b c) c1
  end.

(** [sizeof(unsigned int) * 8 - __builtin_clz(node_id)]. *)
Definition node_id_to_level (node_id : Z) : outcome Z :=
  guard_c ((0 <? node_id) && (node_id <? UINT_MAX));; Ret (Z.log2 node_id + 1).

(** The loop of [find_closest_node] from [node]; [k] is [level - n]. *)
Fixpoint find_closest (root : htree) (node : list bool) (node_id : Z) (k : nat) : list bool :=
  match k with
  | O => node
  | S k =>
      let next := node ++ [Z.odd (Z.shiftr node_id (Z.of_nat k))] in
      match sub root next with Null => node | Node _ _ _ => find_closest root next node_id k end
  end.
Definition find_closest_node (root : htree) (node_id : Z) : outcome (list bool) :=
  level ← node_id_to_level node_id; Ret (find_closest root [] node_id (Z.to_nat (level - 1))).

(** [node->id]. *)
Definition id_at (root : htree) (p : list bool) : outcome Z := n_id <$> deref (node_at root p).

Definition find_node (root : htree) (node_id : Z) : outcome (option (list bool)) :=
  node ← find_closest_node root node_id;
  id ← id_at root node;
  Ret (if id =? node_id then Some node else None).

(** ** Interfaces *)

Inductive htype := TYPE_HEAD | TYPE_NODE | TYPE_BLOCK.
#[export] Instance htype_eq_dec : EqDecision htype.
Proof. solve_decision. Defined.

(** [struct tee_fs_htree_storage]; a read gives the bytes read, a write takes those in the buffer. *)
Class HtreeStorage (W : Type) := {
  rpc_op : Type;
  block_size : Z;
  rpc_read_init : htype -> Z -> Z -> ex W rpc_op;
  rpc_read_final : rpc_op -> ex W (list Z);
  rpc_write_init : htype -> Z -> Z -> ex W rpc_op;
  rpc_write_final : rpc_op -> list Z -> ex W unit }.

Definition TEE_MODE_ENCRYPT : Z := 0.
Definition TEE_MODE_DECRYPT : Z := 1.

(** [crypto_ops] with the algorithms the tree uses, and [tee_fs_fek_crypt]. *)
Class HtreeCrypto (W : Type) := {
  hash_ctx : Type;
  authenc_ctx : Type;
  prng_read : Z -> ex W (list Z);
  hash_supported : bool;
  hash_get_ctx_size : ex W Z;
  hash_init : ex W hash_ctx;
  hash_update : hash_ctx -> list Z -> ex W hash_ctx;
  hash_final : hash_ctx -> Z -> ex W (list Z);
  authenc_get_ctx_size : ex W Z;
  authenc_op_init : Z -> list Z -> list Z -> Z -> Z -> Z -> ex W authenc_ctx;
  authenc_update_aad : authenc_ctx -> Z -> list Z -> ex W authenc_ctx;
  (** The output and the tag, as long as reported. *)
  authenc_enc_final : authenc_ctx -> list Z -> ex W (list Z * list Z);
  authenc_dec_final : authenc_ctx -> list Z -> list Z -> ex W (list Z);
  fek_crypt : option (list Z) -> Z -> list Z -> ex W (list Z) }.

Section Htree.
Context {W : Type} `{!HeapOps W, !HtreeStorage W, !HtreeCrypto W}.

(** The world with the open tree. *)
Definition wht : Type := W * tee_fs_htree.

(** ** Storage *)

Definition rpc_read (type : htype) (idx vers dlen : Z) : ex W (list Z) :=
  op ← rpc_read_init type idx vers;
  p ← rpc_read_final op;
  if Z.of_nat (length p) =? dlen then mret p else throw TEE_ERROR_CORRUPT_OBJECT.
Definition rpc_read_head (vers : Z) : ex W image := b ← rpc_read TYPE_HEAD 0 vers SIZEOF_IMAGE; mret (image_of b).
Definition rpc_read_node (node_id vers : Z) : ex W node_image :=
  b ← rpc_read TYPE_NODE (u64 (node_id - 1)) vers SIZEOF_NODE_IMAGE; mret (ni_of b).

Definition rpc_write (type : htype) (idx vers : Z) (data : list Z) : ex W unit :=
  op ← rpc_write_init type idx vers; rpc_write_final op data.
Definition rpc_write_head (vers : Z) (head : image) : ex W unit := rpc_write TYPE_HEAD 0 vers (image_bytes head).
Definition rpc_write_node (node_id vers : Z) (node : node_image) : ex W unit :=
  rpc_write TYPE_NODE (u64 (node_id - 1)) vers (ni_bytes node).

(** ** Traversal: the callback may change the node and its parent *)

Definition traverse_cb : Type := option htree_node -> htree_node -> htree -> htree -> ex W (option htree_node * htree_node).

Fixpoint traverse_post_order (cb : traverse_cb) (parent : option htree_node) (node : htree) :
    ex W (option htree_node * htree) :=
  match node with
  | Null => mret (parent, Null)
  | Node n c0 c1 =>
      '(p, c0) ← traverse_post_order cb (Some n) c0;
      let n := default n p in
      '(p, c1) ← traverse_post_order cb (Some n) c1;
      let n := default n p in
      '(parent, n) ← cb parent n c0 c1;
      mret (parent, Node n c0 c1)
  end.
Definition htree_traverse_post_order (cb : traverse_cb) (root : htree) : ex W htree :=
  '(_, t) ← traverse_post_order cb None root; mret t.

(** ** Nodes *)

(** The loop of [get_node] from [n] on, [k] nodes to go; [node] is the node last seen. *)
Fixpoint add_nodes (k : nat) (n : Z) (node : list bool) : ex wht (list bool) :=
  match k with
  | O => mret node
  | S k =>
      ht ← get_d;
      node ← pure_c (find_closest_node (ht_root ht) n);
      id ← pure_c (id_at (ht_root ht) node);
      if id =? n then add_nodes k (n + 1) node
      else
        _ ← assert_c (Z.shiftr n 1 =? id);
        _ ← assert_c (match child (sub (ht_root ht) node) (Z.odd n) with Null => true | _ => false end);
        m ← onW (call (malloc 104));
        match m with
        | None => throw TEE_ERROR_OUT_OF_MEMORY
        | Some _ =>
            _ ← put_d (set_root ht (set_child (ht_root ht) node (Z.odd n) (Node (new_node n) Null Null)));
            add_nodes k (n + 1) (node ++ [Z.odd n])
        end
  end.

Definition get_node (create : bool) (node_id : Z) : ex wht (list bool) :=
  ht ← get_d;
  node ← pure_c (find_closest_node (ht_root ht) node_id);
  id ← pure_c (id_at (ht_root ht) node);
  if id =? node_id then mret node
  else if negb create then throw TEE_ERROR_GENERIC
  else
    node ← add_nodes (Z.to_nat (node_id - id)) (id + 1) node;
    ht ← get_d;
    id ← pure_c (id_at (ht_root ht) node);
    _ ← (if im_max_node_id (ht_imeta ht) <? id
         then put_d (set_imeta ht (set_max_node_id (ht_imeta ht) (u32 id))) else mret tt);
    mret node.

Definition get_idx_from_counter (counter0 counter1 : Z) : Z :=
  if Z.land counter0 1 =? 0 then
    if Z.land counter1 1 =? 0 then 0
    else if counter1 <? counter0 then 0 else 1
  else if negb (Z.land counter1 1 =? 0) then 1 else -1.

Definition set_root_image (ni : node_image) : ex wht unit :=
  upd_d (fun ht => set_root ht (upd_node (ht_root ht) [] (fun n => set_image n ni))).

(** One turn of the loop that looks for the root with the hash. *)
Definition root_with_hash (hash : list Z) (idx : Z) : ex wht bool :=
  ni ← onW (rpc_read_node 1 idx);
  _ ← set_root_image ni;
  if bool_decide (ni_hash ni = hash) then
    head ← onW (rpc_read_head idx);
    _ ← upd_d (fun ht => set_head ht head);
    mret true
  else mret false.

Definition init_head_from_data (hash : option (list Z)) : ex wht unit :=
  _ ← (match hash with
       | Some hash =>
           found ← root_with_hash hash 0;
           if found : bool then mret tt
           else
             found ← root_with_hash hash 1;
             if found : bool then mret tt else throw TEE_ERROR_SECURITY
       | None =>
           head0 ← onW (rpc_read_head 0);
           head1 ← onW (rpc_read_head 1);
           let idx := get_idx_from_counter (hd_counter head0) (hd_counter head1) in
           if idx <? 0 then throw TEE_ERROR_SECURITY
           else
             ni ← onW (rpc_read_node 1 idx);
             _ ← set_root_image ni;
             upd_d (fun ht => set_head ht (if idx =? 0 then head0 else head1))
       end);
  upd_d (fun ht => set_root ht (upd_node (ht_root ht) [] (fun n => mkNode 1 (n_dirty n) (n_block_updated n) (n_node n)))).

(** The loop of [init_tree_from_data], [k] nodes to go. *)
Fixpoint read_nodes (k : nat) (node_id : Z) : ex wht unit :=
  match k with
  | O => mret tt
  | S k =>
      ht ← get_d;
      node ← pure_c (find_node (ht_root ht) (Z.shiftr node_id 1));
      match node with
      | None => throw TEE_ERROR_GENERIC
      | Some node =>
          n ← pure_c (deref (node_at (ht_root ht) node));
          let committed_version := Z.b2z (flag_set (ni_flags (n_node n)) (HTREE_NODE_COMMITTED_CHILD (Z.land node_id 1))) in
          ni ← onW (rpc_read_node node_id committed_version);
          nc ← get_node true node_id;
          _ ← upd_d (fun ht => set_root ht (upd_node (ht_root ht) nc (fun n => set_image n ni)));
          read_nodes k (node_id + 1)
      end
  end.
Definition init_tree_from_data : ex wht unit :=
  ht ← get_d; read_nodes (Z.to_nat (im_max_node_id (ht_imeta ht) - 1)) 2.

(** ** Cryptography *)

(** The hash field of a child. *)
Definition child_hash (t : htree) : option (list Z) :=
  match t with Node n _ _ => Some (ni_hash (n_node n)) | Null => None end.
Definition hash_child (ctx : hash_ctx) (t : htree) : ex W hash_ctx :=
  match child_hash t with Some h => hash_update ctx h | None => mret ctx end.

Definition calc_node_hash (n : htree_node) (c0 c1 : htree) : ex W (list Z) :=
  ctx ← hash_init;
  ctx ← hash_update ctx (ni_data (n_node n));
  ctx ← hash_child ctx c0;
  ctx ← hash_child ctx c1;
  hash_final ctx TEE_FS_HTREE_HASH_SIZE.

(** [ni] is a node of the tree, or NULL for the header.  The context, once the vector is there. *)
Definition authenc_start (mode : Z) (ni : option (list bool)) (payload_len : Z) : ex wht authenc_ctx :=
  ht ← get_d;
  iv ← pure_c (match ni with
               | Some p => (fun n => ni_iv (n_node n)) <$> deref (node_at (ht_root ht) p)
               | None => Ret (hd_iv (ht_head ht))
               end);
  let aad_len := TEE_FS_HTREE_FEK_SIZE + TEE_FS_HTREE_IV_SIZE +
    (match ni with Some _ => 0 | None => TEE_FS_HTREE_HASH_SIZE + 4 end) in
  ctx_size ← onW authenc_get_ctx_size;
  m ← onW (call (malloc ctx_size));
  match m with
  | None => throw TEE_ERROR_OUT_OF_MEMORY
  | Some _ =>
      ctx ← onW (authenc_op_init mode (ht_fek ht) iv TEE_FS_HTREE_TAG_SIZE aad_len payload_len);
      ctx ← (match ni with
             | Some _ => mret ctx
             | None =>
                 root ← pure_c (deref (node_at (ht_root ht) []));
                 ctx ← onW (authenc_update_aad ctx mode (take (Z.to_nat TEE_FS_HTREE_FEK_SIZE) (ni_hash (n_node root))));
                 onW (authenc_update_aad ctx mode (le_bytes 4 (hd_counter (ht_head ht))))
             end);
      ctx ← onW (authenc_update_aad ctx mode (hd_enc_fek (ht_head ht)));
      onW (authenc_update_aad ctx mode iv)
  end.

(** The tree with a new vector for the node or the header. *)
Definition with_iv (ni : option (list bool)) (iv : list Z) (ht : tee_fs_htree) : tee_fs_htree :=
  match ni with
  | Some p => set_root ht (upd_node (ht_root ht) p (fun n => set_image n (ni_set_iv (n_node n) iv)))
  | None => set_head ht (hd_set_iv (ht_head ht) iv)
  end.
Definition authenc_init (mode : Z) (ni : option (list bool)) (payload_len : Z) : ex wht authenc_ctx :=
  _ ← (if mode =? TEE_MODE_ENCRYPT then iv ← onW (prng_read TEE_FS_HTREE_IV_SIZE); upd_d (with_iv ni iv) else mret tt);
  authenc_start mode ni payload_len.

Definition authenc_decrypt_final (ctx : authenc_ctx) (tag crypt : list Z) (len : Z) : ex W (list Z) :=
  r ← attempt (authenc_dec_final ctx crypt tag);
  match r with
  | inl plain => if Z.of_nat (length plain) =? len then mret plain else throw TEE_ERROR_GENERIC
  | inr e => throw (if e =? TEE_ERROR_MAC_INVALID then TEE_ERROR_CORRUPT_OBJECT else e)
  end.

Definition authenc_encrypt_final (ctx : authenc_ctx) (plain : list Z) (len : Z) : ex W (list Z * list Z) :=
  '(crypt, tag) ← authenc_enc_final ctx plain;
  if (Z.of_nat (length crypt) =? len) && (Z.of_nat (length tag) =? TEE_FS_HTREE_TAG_SIZE)
  then mret (crypt, tag) else throw TEE_ERROR_GENERIC.

Definition verify_root : ex wht unit :=
  ht ← get_d;
  fek ← onW (fek_crypt (ht_uuid ht) TEE_MODE_DECRYPT (hd_enc_fek (ht_head ht)));
  _ ← upd_d (fun ht => set_fek ht fek);
  ctx ← authenc_init TEE_MODE_DECRYPT None SIZEOF_IMETA;
  ht ← get_d;
  im ← onW (authenc_decrypt_final ctx (hd_tag (ht_head ht)) (hd_imeta (ht_head ht)) SIZEOF_IMETA);
  upd_d (fun ht => set_imeta ht (imeta_of im)).

Definition verify_node : traverse_cb := fun parent n c0 c1 =>
  digest ← calc_node_hash n c0 c1;
  if bool_decide (digest = ni_hash (n_node n)) then mret (parent, n) else throw TEE_ERROR_CORRUPT_OBJECT.

Definition verify_tree : ex wht unit :=
  if negb hash_supported then throw TEE_ERROR_NOT_SUPPORTED
  else
    size ← onW hash_get_ctx_size;
    m ← onW (call (malloc size));
    match m with
    | None => throw TEE_ERROR_OUT_OF_MEMORY
    | Some _ => ht ← get_d; _ ← onW (htree_traverse_post_order verify_node (ht_root ht)); mret tt
    end.

Definition init_root_node : ex wht unit :=
  size ← onW hash_get_ctx_size;
  m ← onW (call (malloc size));
  match m with
  | None => throw TEE_ERROR_OUT_OF_MEMORY
  | Some _ =>
      _ ← upd_d (fun ht => set_root ht (upd_node (ht_root ht) [] (fun n => mkNode 1 (n_dirty n) (n_block_updated n) (n_node n))));
      ht ← get_d;
      root ← pure_c (deref (node_at (ht_root ht) []));
      digest ← onW (calc_node_hash root (child (ht_root ht) false) (child (ht_root ht) true));
      set_root_image (ni_set_hash (n_node root) digest)
  end.

(** ** The tree as its users have it: NULL once an operation has failed *)

Definition whtp : Type := W * option tee_fs_htree.

(** [tee_fs_htree_close] frees the nodes and the tree and clears the pointer. *)
Definition tee_fs_htree_close : ex whtp unit := put_d None.

(** An operation on an open tree; [out]: on an error the tree is closed. *)
Definition on_ht {A} (m : ex wht A) : ex whtp A := fun '(w, o) =>
  match o with
  | None => Ret (inr TEE_ERROR_CORRUPT_OBJECT, (w, None))
  | Some ht =>
      match m (w, ht) with
      | Ret (inl a, (w, ht)) => Ret (inl a, (w, Some ht))
      | Ret (inr e, (w, ht)) => ex_bind _ _ (fun _ => throw e) tee_fs_htree_close (w, Some ht)
      | Undef => Undef
      end
  end.

(** ** Writing the tree back *)

Definition htree_sync_node_to_storage (counter : Z) : traverse_cb := fun parent n c0 c1 =>
  _ ← assert_c (implb (n_block_updated n) (n_dirty n));
  if negb (n_dirty n) then mret (parent, n)
  else
    let '(parent, vers) :=
      match parent with
      | Some p =>
          let f := HTREE_NODE_COMMITTED_CHILD (Z.land (n_id n) 1) in
          let ni := ni_flip (n_node p) f in
          (Some (set_image (set_dirty p true) ni), flag_set (ni_flags ni) f)
      | None => (None, Z.land counter 1 =? 0)
      end in
    digest ← calc_node_hash n c0 c1;
    let n := mkNode (n_id n) false false (ni_set_hash (n_node n) digest) in
    _ ← rpc_write_node (n_id n) (Z.b2z vers) (n_node n);
    mret (parent, n).

Definition update_root : ex wht unit :=
  _ ← upd_d (fun ht => set_head ht (hd_set_counter (ht_head ht) (u32 (hd_counter (ht_head ht) + 1))));
  ctx ← authenc_init TEE_MODE_ENCRYPT None SIZEOF_IMETA;
  ht ← get_d;
  '(crypt, tag) ← onW (authenc_encrypt_final ctx (imeta_bytes (ht_imeta ht)) SIZEOF_IMETA);
  upd_d (fun ht => set_head ht (hd_set_imeta (hd_set_tag (ht_head ht) tag) crypt)).

(** From the traversal to [out]; the result is the new root hash. *)
Definition sync_body : ex wht (list Z) :=
  ht ← get_d;
  t ← onW (htree_traverse_post_order (htree_sync_node_to_storage (hd_counter (ht_head ht))) (ht_root ht));
  _ ← upd_d (fun ht => set_root ht t);
  _ ← update_root;
  ht ← get_d;
  _ ← onW (rpc_write_head (Z.land (hd_counter (ht_head ht)) 1) (ht_head ht));
  _ ← upd_d (fun ht => set_ht_dirty ht false);
  root ← pure_c (deref (node_at (ht_root ht) []));
  mret (ni_hash (n_node root)).

(** [None]: the hash is left as it was. *)
Definition tee_fs_htree_sync_to_storage : ex whtp (option (list Z)) :=
  o ← get_d;
  match o with
  | None => throw TEE_ERROR_CORRUPT_OBJECT
  | Some ht =>
      if negb (ht_dirty ht) then mret None
      else
        size ← onW hash_get_ctx_size;
        m ← onW (call (malloc size));
        match m with
        | None => throw TEE_ERROR_OUT_OF_MEMORY
        | Some _ => h ← on_ht sync_body; mret (Some h)
        end
  end.

(** ** Opening *)

(** The zeroed structure of [calloc], 240 bytes. *)
Definition new_ht (uuid : option (list Z)) : tee_fs_htree :=
  mkHt (Node (new_node 0) Null Null) zero_image (zeros 16) (mkImeta 0 0) false uuid.

Definition open_create : ex whtp (option (list Z)) :=
  _ ← on_ht (fek ← onW (prng_read TEE_FS_HTREE_FEK_SIZE);
             _ ← upd_d (fun ht => set_fek ht fek);
             ht ← get_d;
             enc_fek ← onW (fek_crypt (ht_uuid ht) TEE_MODE_ENCRYPT (ht_fek ht));
             _ ← upd_d (fun ht => set_head ht (hd_set_enc_fek (ht_head ht) enc_fek));
             _ ← init_root_node;
             upd_d (fun ht => set_ht_dirty ht true));
  hash ← tee_fs_htree_sync_to_storage;
  _ ← onW (rpc_write_head 0 zero_image);
  mret hash.

Definition open_existing (hash : option (list Z)) : ex wht unit :=
  _ ← init_head_from_data hash;
  _ ← verify_root;
  _ ← init_tree_from_data;
  verify_tree.

(** [out]: the tree, and the hash where it was written; on an error the tree is closed. *)
Definition open_tree (create : bool) (hash uuid : option (list Z)) : ex W (tee_fs_htree * option (list Z)) := fun w =>
  match (if create then open_create else (_ ← on_ht (open_existing hash); mret None)) (w, Some (new_ht uuid)) with
  | Ret (inl h, (w, Some ht)) => Ret (inl (ht, h), w)
  | Ret (inr e, (w, _)) => Ret (inr e, w)
  | Ret (inl _, (_, None)) | Undef => Undef
  end.
Definition tee_fs_htree_open (create : bool) (hash uuid : option (list Z)) : ex W (tee_fs_htree * option (list Z)) :=
  m ← call (malloc 240);
  match m with
  | None => throw TEE_ERROR_OUT_OF_MEMORY
  | Some _ => open_tree create hash uuid
  end.

Definition tee_fs_htree_get_meta (ht : tee_fs_htree) : Z := im_length (ht_imeta ht).

(** ** Blocks *)

Definition get_block_node (create : bool) (block_num : Z) : ex wht (list bool) :=
  get_node create (BLOCK_NUM_TO_NODE_ID block_num).

(** The committed version of the block of a node. *)
Definition block_vers (n : htree_node) : Z := Z.b2z (flag_set (ni_flags (n_node n)) HTREE_NODE_COMMITTED_BLOCK).

Definition tee_fs_htree_write_block (block_num : Z) (block : list Z) : ex whtp unit := on_ht (
  node ← get_block_node true block_num;
  _ ← upd_d (fun ht => set_root ht (upd_node (ht_root ht) node (fun n =>
        if n_block_updated n then n else set_image n (ni_flip (n_node n) HTREE_NODE_COMMITTED_BLOCK))));
  ht ← get_d;
  n ← pure_c (deref (node_at (ht_root ht) node));
  op ← onW (rpc_write_init TYPE_BLOCK block_num (block_vers n));
  ctx ← authenc_init TEE_MODE_ENCRYPT (Some node) block_size;
  '(enc_block, tag) ← onW (authenc_encrypt_final ctx block block_size);
  _ ← upd_d (fun ht => set_root ht (upd_node (ht_root ht) node (fun n => set_image n (ni_set_tag (n_node n) tag))));
  _ ← onW (rpc_write_final op enc_block);
  upd_d (fun ht => set_ht_dirty (set_root ht (upd_node (ht_root ht) node (fun n =>
        set_dirty (set_block_updated n true) true))) true)).

Definition tee_fs_htree_read_block (block_num : Z) : ex whtp (list Z) := on_ht (
  node ← get_block_node false block_num;
  ht ← get_d;
  n ← pure_c (deref (node_at (ht_root ht) node));
  op ← onW (rpc_read_init TYPE_BLOCK block_num (block_vers n));
  enc_block ← onW (rpc_read_final op);
  if negb (Z.of_nat (length enc_block) =? block_size) then throw TEE_ERROR_CORRUPT_OBJECT
  else
    ctx ← authenc_init TEE_MODE_DECRYPT (Some node) block_size;
    onW (authenc_decrypt_final ctx (ni_tag (n_node n)) enc_block block_size)).

(** The loop of [tee_fs_htree_truncate], [k] nodes to go. *)
Fixpoint drop_nodes (k : nat) : ex wht unit :=
  match k with
  | O => mret tt
  | S k =>
      ht ← get_d;
      let m := im_max_node_id (ht_imeta ht) in
      node ← pure_c (find_closest_node (ht_root ht) m);
      id ← pure_c (id_at (ht_root ht) node);
      _ ← assert_c (id =? m);
      _ ← assert_c (match sub (ht_root ht) node with Node _ Null Null => true | _ => false end);
      _ ← assert_c (bool_decide (last node = Some (Z.odd id)));
      _ ← put_d (set_ht_dirty (set_imeta (set_root ht (set_child (ht_root ht) (removelast node) (Z.odd id) Null))
                   (set_max_node_id (ht_imeta ht) (m - 1))) true);
      drop_nodes k
  end.
Definition tee_fs_htree_truncate (block_num : Z) : ex whtp unit :=
  o ← get_d;
  match o with
  | None => throw TEE_ERROR_CORRUPT_OBJECT
  | Some ht => on_ht (drop_nodes (Z.to_nat (im_max_node_id (ht_imeta ht) - BLOCK_NUM_TO_NODE_ID block_num)))
  end.

End Htree.
Arguments wht : clear implicits.
Arguments whtp : clear implicits.
