(* ===== verification/HtreeRam.v ===== *)
(** * A storage in memory and simple cryptography for the hash tree

    Instances of the interfaces of [Htree.v] that run: the file as an association list from
    (type, index, version) to bytes, a hash and a seal that are sums, keys in the clear, and
    a counter for random numbers.  The witnesses and the examples evaluate the tree on them. *)

From stdpp Require Import base numbers list.
From S2P Require Import Prelude SkTypes FsCore Dirfile Htree.

Module HtreeRam.

Definition ram_key : Type := htype * Z * Z.
(** [f]: whether writes can fail; [r_fail]: the number of writes that still succeed then, if
    they are limited. *)
Record ram (f : bool) := mkRam { r_store : list (ram_key * list Z); r_seed : Z; r_fail : option nat }.
Arguments mkRam {f}.
Arguments r_store {f}.
Arguments r_seed {f}.
Arguments r_fail {f}.

Fixpoint assoc (k : ram_key) (l : list (ram_key * list Z)) : option (list Z) :=
  match l with
  | [] => None
  | (k', v) :: l => if decide (k' = k) then Some v else assoc k l
  end.

#[export] Instance ram_heap {f} : HeapOps (ram f) := {|
  malloc n := fun w => Ret (Some (zeros n), w);
  realloc old n := fun w => Ret (Some (take (Z.to_nat n) (old ++ zeros n)), w) |}.

Definition ram_write {f} (k : ram_key) (b : list Z) : ex (ram f) unit := fun w =>
  match (if f then r_fail w else None) with
  | None => Ret (inl tt, mkRam ((k, b) :: r_store w) (r_seed w) (r_fail w))
  | Some (S n) => Ret (inl tt, mkRam ((k, b) :: r_store w) (r_seed w) (Some n))
  | Some O => Ret (inr TEE_ERROR_GENERIC, w)
  end.

#[export] Instance ram_storage {f} : HtreeStorage (ram f) := {|
  rpc_op := ram_key;
  block_size := 4;
  rpc_read_init t i v := mret (t, i, v);
  rpc_read_final k := fun w => Ret (inl (default [] (assoc k (r_store w))), w);
  rpc_write_init t i v := mret (t, i, v);
  rpc_write_final := ram_write |}.

Definition sum (b : list Z) : Z := foldl (fun a x => Z.land (a * 257 + x + 1) (Z.ones 40)) 0 b.
Definition ram_hash (b : list Z) : list Z := le_bytes 32 (sum b).
Definition ram_seal (key iv aad plain : list Z) : list Z * list Z := (plain, le_bytes 16 (sum (key ++ iv ++ aad ++ plain))).
Definition ram_open (key iv aad crypt tag : list Z) : option (list Z) :=
  if decide (tag = le_bytes 16 (sum (key ++ iv ++ aad ++ crypt))) then Some crypt else None.

#[export] Instance ram_crypto {f} : HtreeCrypto (ram f) := {|
  hash_ctx := list Z;
  authenc_ctx := list Z * list Z * list Z;
  prng_read n := fun w => Ret (inl (le_bytes (Z.to_nat n) (r_seed w)), mkRam (r_store w) (r_seed w + 1) (r_fail w));
  hash_supported := true;
  hash_get_ctx_size := mret 8;
  hash_init := mret [];
  hash_update c b := mret (c ++ b);
  hash_final c n := mret (ram_hash c);
  authenc_get_ctx_size := mret 8;
  authenc_op_init mode key iv taglen aadlen len := mret (key, iv, []);
  authenc_update_aad c mode b := mret (c.1, c.2 ++ b);
  authenc_enc_final c plain := mret (ram_seal c.1.1 c.1.2 c.2 plain);
  authenc_dec_final c crypt tag := match ram_open c.1.1 c.1.2 c.2 crypt tag with
    | Some plain => mret plain | None => throw TEE_ERROR_MAC_INVALID end;
  fek_crypt uuid mode b := mret b |}.

Definition ram0 {f} : ram f := mkRam [] 1 None.

(** A sequence of calls on an open tree, for the examples. *)
Inductive hcall := HWrite (n : Z) (b : list Z) | HSync | HTrunc (n : Z).
Definition hcall_run (c : hcall) : ex (whtp (ram true)) (option (list Z)) :=
  match c with
  | HWrite n b => _ ← tee_fs_htree_write_block n b; mret None
  | HSync => tee_fs_htree_sync_to_storage
  | HTrunc n => _ ← tee_fs_htree_truncate n; mret None
  end.
Fixpoint hcalls (l : list hcall) (hash : option (list Z)) : ex (whtp (ram true)) (option (list Z)) :=
  match l with
  | [] => mret hash
  | c :: l => h ← hcall_run c; hcalls l (match h with Some h => Some h | None => hash end)
  end.

(** Create a file, make the calls, close it, open it again with the last hash and read blocks. *)
Definition file_session (l : list hcall) (with_hash : bool) (blocks : list Z) : ex (ram true) (Z * list (list Z)) := fun w =>
  match tee_fs_htree_open true None None w with
  | Ret (inl (ht, h), w) =>
      match hcalls l h (w, Some ht) with
      | Ret (inl h, (w, _)) =>
          match tee_fs_htree_open false (if with_hash then h else None) None w with
          | Ret (inl (ht, _), w) =>
              match (foldr (fun n m => b ← tee_fs_htree_read_block n; r ← m; mret (b :: r)) (mret []) blocks) (w, Some ht) with
              | Ret (inl r, (w, _)) => Ret (inl (im_max_node_id (ht_imeta ht), r), w)
              | Ret (inr e, (w, _)) => Ret (inr e, w)
              | Undef => Undef
              end
          | Ret (inr e, w) => Ret (inr e, w)
          | Undef => Undef
          end
      | Ret (inr e, (w, _)) => Ret (inr e, w)
      | Undef => Undef
      end
  | Ret (inr e, w) => Ret (inr e, w)
  | Undef => Undef
  end.
Definition result {A} (m : ex (ram true) A) : outcome (A + Z) := fst <$> m ram0.

(** ** The tree at work *)

Definition blk (n : Z) : list Z := replicate 4 n.

(** Three blocks written and committed are there when the file is opened again, with the
    hash of the root or with the counters of the headers. *)
Example session_hash : result (file_session [HWrite 0 (blk 1); HWrite 1 (blk 2); HWrite 2 (blk 3); HSync] true [0; 1; 2]) =
  Ret (inl (3, [blk 1; blk 2; blk 3])).
Proof. vm_compute. reflexivity. Qed.
Example session_counter : result (file_session [HWrite 0 (blk 1); HWrite 1 (blk 2); HWrite 2 (blk 3); HSync; HWrite 1 (blk 4); HSync] false [0; 1; 2]) =
  Ret (inl (3, [blk 1; blk 4; blk 3])).
Proof. vm_compute. reflexivity. Qed.

(** What is written after the last commit is not there. *)
Example session_uncommitted : result (file_session [HWrite 0 (blk 1); HWrite 1 (blk 2); HSync; HWrite 1 (blk 4)] false [0; 1]) =
  Ret (inl (2, [blk 1; blk 2])).
Proof. vm_compute. reflexivity. Qed.

(** A file created without a block cannot be opened: its root node is not dirty and so is
    never written, while the header is. *)
Example fresh_file_corrupt : result (file_session [] true []) = Ret (inr TEE_ERROR_CORRUPT_OBJECT) /\
  result (file_session [] false []) = Ret (inr TEE_ERROR_CORRUPT_OBJECT).
Proof. vm_compute. done. Qed.

(** Truncation marks no node dirty.  Committed with nothing else changed it is lost when the
    file is opened with the hash, and the file is corrupt when it is opened by the counters. *)
Definition five : list hcall := [HWrite 0 (blk 1); HWrite 1 (blk 2); HWrite 2 (blk 3); HWrite 3 (blk 4); HWrite 4 (blk 5); HSync].
Example truncate_lost : result (file_session (five ++ [HTrunc 0; HSync]) true [4]) = Ret (inl (5, [blk 5])) /\
  result (file_session (five ++ [HTrunc 0; HSync]) false []) = Ret (inr TEE_ERROR_CORRUPT_OBJECT).
Proof. vm_compute. done. Qed.

(** With a block written after it the file is corrupt: the hash of the parent of a node cut
    off is not computed again. *)
Example truncate_write_corrupt : result (file_session (five ++ [HTrunc 2; HWrite 0 (blk 6); HSync]) true []) =
  Ret (inr TEE_ERROR_CORRUPT_OBJECT).
Proof. vm_compute. done. Qed.

(** A block written more than one past the end leaves nodes that are never stored. *)
Example sparse_write_corrupt : result (file_session [HWrite 0 (blk 1); HWrite 3 (blk 2); HSync] true []) =
  Ret (inr TEE_ERROR_CORRUPT_OBJECT).
Proof. vm_compute. done. Qed.

End HtreeRam.
