(* ===== verification/HtreeShape.v ===== *)
(** * Positions, node numbers and the shape of the tree

    Node [n] has the children [2n] and [2n+1]: the number of a node is its position read as
    a binary number.  [wft t m] is the invariant of the cached tree: it has exactly the nodes
    1 to [m], each where its number says. *)

From stdpp Require Import base numbers list.
From S2P Require Import Prelude SkTypes FsCore Dirfile Htree.

Definition id_of (p : list bool) : Z := foldl (fun a b => 2 * a + Z.b2z b) 1 p.

Lemma id_of_snoc p b : id_of (p ++ [b]) = 2 * id_of p + Z.b2z b.
Proof. unfold id_of. by rewrite foldl_app. Qed.

Lemma id_of_bounds p : 2 ^ Z.of_nat (length p) <= id_of p < 2 ^ (Z.of_nat (length p) + 1).
Proof.
  induction p as [|b p IH] using rev_ind; [done |]. rewrite id_of_snoc, length_app. cbn [length].
  rewrite Nat2Z.inj_add. change (Z.of_nat 1) with 1. rewrite !Z.pow_add_r in * by lia. destruct b; cbn; lia.
Qed.
Lemma id_of_pos p : 1 <= id_of p.
Proof. pose proof (id_of_bounds p). pose proof (Z.pow_pos_nonneg 2 (Z.of_nat (length p))). lia. Qed.
Lemma id_of_log2 p : Z.log2 (id_of p) = Z.of_nat (length p).
Proof. apply Z.log2_unique; [lia |]. pose proof (id_of_bounds p). by rewrite <- Z.add_1_r. Qed.

Lemma id_of_snoc_half p b : id_of (p ++ [b]) / 2 = id_of p /\ Z.odd (id_of (p ++ [b])) = b.
Proof.
  rewrite id_of_snoc. split.
  - rewrite (Z.mul_comm 2), Z.div_add_l by lia. destruct b; [change (Z.b2z true / 2) with 0 | change (Z.b2z false / 2) with 0]; lia.
  - rewrite Z.odd_add, Z.odd_mul. cbn. by destruct b.
Qed.

Lemma id_of_inj p q : id_of p = id_of q -> p = q.
Proof.
  revert q. induction p as [|b p IH] using rev_ind; intros q E.
  - destruct q as [|c q _] using rev_ind; [done |]. rewrite id_of_snoc in E. cbn in E. pose proof (id_of_pos q). destruct c; cbn in E; lia.
  - destruct q as [|c q _] using rev_ind.
    { rewrite id_of_snoc in E. cbn in E. pose proof (id_of_pos p). destruct b; cbn in E; lia. }
    pose proof (id_of_snoc_half p b) as [H1 H2]. pose proof (id_of_snoc_half q c) as [H3 H4]. rewrite E in H1, H2.
    f_equal; [apply IH; congruence | congruence].
Qed.

(** The position of a number. *)
Fixpoint path_pos (n : positive) : list bool :=
  match n with xH => [] | xO n => path_pos n ++ [false] | xI n => path_pos n ++ [true] end.
Definition path_of (id : Z) : list bool := path_pos (Z.to_pos id).
Lemma id_path id : 1 <= id -> id_of (path_of id) = id.
Proof.
  intros H. unfold path_of. rewrite <- (Z2Pos.id id) at 2 by lia. generalize (Z.to_pos id) as n. clear H.
  induction n as [n IH|n IH|]; cbn [path_pos]; rewrite ?id_of_snoc, ?IH; cbn; lia.
Qed.

Lemma id_of_bit p b q : Z.odd (Z.shiftr (id_of (p ++ b :: q)) (Z.of_nat (length q))) = b.
Proof.
  induction q as [|c q IH] using rev_ind.
  - rewrite Z.shiftr_0_r. apply id_of_snoc_half.
  - rewrite length_app, (Nat.add_comm (length q)). cbn [length Nat.add].
    rewrite app_comm_cons, app_assoc, id_of_snoc, Nat2Z.inj_succ, <- Z.add_1_l, <- Z.shiftr_shiftr by lia.
    etransitivity; [| exact IH]. do 2 f_equal. rewrite Z.shiftr_div_pow2 by lia. change (2 ^ 1) with 2.
    rewrite (Z.mul_comm 2), Z.div_add_l by lia. destruct c; [change (Z.b2z true / 2) with 0 | change (Z.b2z false / 2) with 0]; lia.
Qed.

(** ** Subtrees and nodes *)

Lemma sub_app t p q : sub t (p ++ q) = sub (sub t p) q.
Proof. revert t. induction p as [|b p IH]; intros t; [done |]. cbn. apply IH. Qed.
Lemma sub_null p : sub Null p = Null.
Proof. induction p as [|b p IH]; [done |]. cbn. apply IH. Qed.
Lemma sub_snoc t p b : sub t (p ++ [b]) = child (sub t p) b.
Proof. by rewrite sub_app. Qed.
Lemma node_at_null p : node_at Null p = None.
Proof. unfold node_at. by rewrite sub_null. Qed.
Lemma node_at_cons t b p : node_at t (b :: p) = node_at (child t b) p.
Proof. done. Qed.
Lemma node_at_app t p q : node_at t (p ++ q) = node_at (sub t p) q.
Proof. unfold node_at. by rewrite sub_app. Qed.
Lemma node_at_sub t p n : node_at t p = Some n -> exists c0 c1, sub t p = Node n c0 c1.
Proof. unfold node_at. destruct (sub t p); [done |]. intros [= ->]. eauto. Qed.

Lemma tree_ext t1 : forall t2, (forall p, node_at t1 p = node_at t2 p) -> t1 = t2.
Proof.
  induction t1 as [|n c0 IH0 c1 IH1]; intros [|m d0 d1] E; pose proof (E []) as E0; cbn in E0; try done.
  injection E0 as ->. f_equal; [apply IH0; intros p; apply (E (false :: p)) | apply IH1; intros p; apply (E (true :: p))].
Qed.

Lemma node_at_upd t p f q : node_at (upd_node t p f) q = if decide (q = p) then f <$> node_at t q else node_at t q.
Proof.
  revert p q. induction t as [|n c0 IH0 c1 IH1]; intros p q.
  - cbn. rewrite node_at_null. by destruct (decide (q = p)).
  - destruct p as [|b p], q as [|c q]; cbn [upd_node].
    + by rewrite decide_True.
    + by rewrite decide_False.
    + rewrite decide_False by done. by destruct b.
    + destruct b, c; rewrite !node_at_cons; cbn [child].
      * rewrite IH1. destruct (decide (q = p)) as [-> |]; [by rewrite decide_True | by rewrite decide_False by congruence].
      * by rewrite decide_False by congruence.
      * by rewrite decide_False by congruence.
      * rewrite IH0. destruct (decide (q = p)) as [-> |]; [by rewrite decide_True | by rewrite decide_False by congruence].
Qed.

(** A leaf put in, or taken out, at a free place below [p]. *)
Lemma node_at_set_child t p b c q : is_Some (node_at t p) ->
  node_at (set_child t p b c) q =
    if decide (p ++ [b] = take (S (length p)) q) then node_at c (drop (S (length p)) q) else node_at t q.
Proof.
  revert p q. induction t as [|n c0 IH0 c1 IH1]; intros p q Hp; [rewrite node_at_null in Hp; by destruct Hp |].
  destruct p as [|d p]; cbn [set_child app length].
  - destruct q as [|e q]; [by destruct b; rewrite decide_False|]. cbn [take drop]. rewrite take_0, drop_0.
    destruct b, e; rewrite !node_at_cons; cbn [child];
      ((rewrite decide_True by done) || (rewrite decide_False by congruence)); done.
  - destruct q as [|e q]; [by destruct d; rewrite decide_False |]. rewrite node_at_cons in Hp. cbn [take drop].
    destruct d, e; rewrite !node_at_cons; cbn [child] in *; try (by rewrite decide_False by congruence).
    + rewrite IH1 by done. destruct (decide (p ++ [b] = take (S (length p)) q)) as [E|];
        [by rewrite decide_True by congruence | by rewrite decide_False by congruence].
    + rewrite IH0 by done. destruct (decide (p ++ [b] = take (S (length p)) q)) as [E|];
        [by rewrite decide_True by congruence | by rewrite decide_False by congruence].
Qed.

Lemma node_at_below t p q : node_at t p = None -> node_at t (p ++ q) = None.
Proof. intros E. rewrite node_at_app. unfold node_at in E. destruct (sub t p); [apply node_at_null | done]. Qed.

Lemma node_at_leaf n p : node_at (Node n Null Null) p = match p with [] => Some n | _ => None end.
Proof. destruct p as [|b p]; [done |]. rewrite node_at_cons. cbn. destruct b; apply node_at_null. Qed.

Lemma node_at_add t p b n q : is_Some (node_at t p) -> node_at t (p ++ [b]) = None ->
  node_at (set_child t p b (Node n Null Null)) q = if decide (q = p ++ [b]) then Some n else node_at t q.
Proof.
  intros Hp Hb. rewrite node_at_set_child by done. rewrite node_at_leaf.
  destruct (decide (p ++ [b] = take (S (length p)) q)) as [E|N].
  - assert (Eq : q = (p ++ [b]) ++ drop (S (length p)) q) by (rewrite E; symmetry; apply take_drop).
    destruct (drop (S (length p)) q) as [|c r].
    + rewrite app_nil_r in Eq. by rewrite decide_True.
    + rewrite decide_False, Eq, node_at_below; [done | done |]. intros ->.
      apply (f_equal length) in Eq. rewrite !length_app in Eq. cbn in Eq. lia.
  - destruct (decide (q = p ++ [b])) as [-> |]; [| done]. destruct N. rewrite take_ge; [done |]. rewrite length_app. cbn. lia.
Qed.

(** ** The shape of the tree *)

Definition wft (t : htree) (m : Z) : Prop :=
  forall p, (is_Some (node_at t p) <-> id_of p <= m) /\ forall n, node_at t p = Some n -> n_id n = id_of p.

Lemma wft_at t m p : wft t m -> id_of p <= m -> exists n, node_at t p = Some n /\ n_id n = id_of p.
Proof. intros Hw Hp. destruct (Hw p) as [[_ H1] H2]. destruct (H1 Hp) as [n Hn]. exists n. auto. Qed.
Lemma wft_none t m p : wft t m -> m < id_of p -> node_at t p = None.
Proof. intros Hw Hp. destruct (node_at t p) eqn:E; [| done]. assert (id_of p <= m) by (apply (Hw p); by rewrite E). lia. Qed.

(** Replacing nodes by nodes with the same number keeps the shape. *)
Lemma wft_same t t' m : wft t m -> (forall p, option_map n_id (node_at t' p) = option_map n_id (node_at t p)) -> wft t' m.
Proof.
  intros Hw E p. specialize (E p). destruct (Hw p) as [H1 H2].
  destruct (node_at t p) as [n|], (node_at t' p) as [n'|]; cbn in E; try done.
  injection E as E. split; [rewrite <- H1; split; intros _; eauto |]. intros ? [= <-]. rewrite E. by apply H2.
Qed.

Lemma wft_upd t m p f : wft t m -> (forall n, n_id (f n) = n_id n) -> wft (upd_node t p f) m.
Proof.
  intros Hw Hf. apply wft_same with (t := t); [done |]. intros q. rewrite node_at_upd.
  destruct (decide (q = p)); [| done]. destruct (node_at t q); cbn; [by rewrite Hf | done].
Qed.

Lemma wft_root t m : wft t m -> 1 <= m -> exists n c0 c1, t = Node n c0 c1 /\ n_id n = 1.
Proof.
  intros Hw Hm. destruct (wft_at t m [] Hw Hm) as (n & Hn & Hi). destruct t as [|n' c0 c1]; [done |].
  cbn in Hn. injection Hn as ->. by exists n, c0, c1.
Qed.

(** ** Searching *)

Lemma find_closest_walk t m : wft t m -> forall q p, id_of p <= m ->
  exists q1 q2, q = q1 ++ q2 /\ find_closest t p (id_of (p ++ q)) (length q) = p ++ q1 /\ id_of (p ++ q1) <= m /\
    (q2 = [] \/ exists b q2', q2 = b :: q2' /\ m < id_of (p ++ q1 ++ [b])).
Proof.
  intros Hw. induction q as [|b q IH]; intros p Hp.
  - exists [], []. cbn. rewrite !app_nil_r. split_and!; auto.
  - cbn [length find_closest]. rewrite id_of_bit.
    assert (Eq : p ++ b :: q = (p ++ [b]) ++ q) by (by rewrite <- app_assoc).
    destruct (decide (id_of (p ++ [b]) <= m)) as [Hle|Hgt].
    + destruct (wft_at t m _ Hw Hle) as (n & Hn & _). apply node_at_sub in Hn as (c0 & c1 & ->).
      rewrite Eq. destruct (IH (p ++ [b]) Hle) as (q1 & q2 & -> & -> & Hq & Hr).
      exists (b :: q1), q2. rewrite <- !app_assoc in *. cbn in *. split_and!; [done | done | done |].
      destruct Hr as [-> | (c & q2' & -> & Hc)]; [by left | right]. exists c, q2'. by rewrite <- app_assoc in Hc.
    + assert (Hnone : node_at t (p ++ [b]) = None) by (eapply wft_none; [done | lia]).
      unfold node_at in Hnone. destruct (sub t (p ++ [b])); [| done].
      exists [], (b :: q). rewrite app_nil_r. split_and!; [done | done | done |]. right. exists b, q. split; [done | cbn; lia].
Qed.

Lemma find_closest_node_run t p : id_of p < UINT_MAX ->
  find_closest_node t (id_of p) = Ret (find_closest t [] (id_of p) (length p)).
Proof.
  intros Hp. pose proof (id_of_pos p). unfold find_closest_node, node_id_to_level.
  rewrite (proj2 (Z.ltb_lt 0 (id_of p))), (proj2 (Z.ltb_lt (id_of p) UINT_MAX)) by lia. cbn.
  rewrite id_of_log2. do 2 f_equal. lia.
Qed.

(** A node of the tree is found where it is. *)
Lemma find_closest_node_at t m p : wft t m -> 1 <= m -> id_of p <= m -> id_of p < UINT_MAX ->
  find_closest_node t (id_of p) = Ret p.
Proof.
  intros Hw Hm Hp HM. rewrite find_closest_node_run by lia. f_equal.
  destruct (find_closest_walk t m Hw p []) as (q1 & q2 & Eq & E & Hq & Hr); [done |]. cbn [app] in *. rewrite E.
  destruct Hr as [-> | (b & q2' & -> & Hb)]; [by rewrite app_nil_r in Eq |].
  exfalso. subst p. clear -Hp Hb. replace (q1 ++ b :: q2') with ((q1 ++ [b]) ++ q2') in Hp by (by rewrite <- app_assoc).
  revert Hp. generalize (q1 ++ [b]) as r, Hb. clear. intros r. induction q2' as [|c q IH] using rev_ind; intros Hb Hp.
  - rewrite app_nil_r in Hp. lia.
  - rewrite app_assoc, id_of_snoc in Hp. apply IH; [done |]. pose proof (id_of_pos (r ++ q)). destruct c; cbn in Hp; lia.
Qed.

Lemma id_of_prefix p q : id_of p <= id_of (p ++ q).
Proof.
  induction q as [|b q IH] using rev_ind; [by rewrite app_nil_r |]. rewrite app_assoc, id_of_snoc.
  pose proof (id_of_pos (p ++ q)). destruct b; cbn; lia.
Qed.

(** For a node that is not there the search ends at a node above it. *)
Lemma find_closest_node_above t m p : wft t m -> 1 <= m -> m < id_of p -> id_of p < UINT_MAX ->
  exists q r, find_closest_node t (id_of p) = Ret q /\ p = q ++ r /\ id_of q <= m.
Proof.
  intros Hw Hm Hp HM. rewrite find_closest_node_run by lia.
  destruct (find_closest_walk t m Hw p []) as (q1 & q2 & Eq & E & Hq & _); [done |]. cbn [app] in *.
  exists q1, q2. by rewrite E.
Qed.

(** The parent of the next node is in the tree. *)
Lemma find_closest_node_next t m p b : wft t m -> 1 <= m -> id_of (p ++ [b]) = m + 1 -> m + 1 < UINT_MAX ->
  find_closest_node t (m + 1) = Ret p /\ id_of p <= m.
Proof.
  intros Hw Hm Hp HM. assert (Hle : id_of p <= m) by (pose proof (id_of_snoc p b); pose proof (id_of_pos p); destruct b; cbn [Z.b2z] in *; lia).
  split; [| done]. rewrite <- Hp. rewrite find_closest_node_run by lia. f_equal.
  destruct (find_closest_walk t m Hw (p ++ [b]) []) as (q1 & q2 & Eq & E & Hq & Hr); [done |]. cbn [app] in *. rewrite E.
  revert Eq Hr. induction q2 as [|c q2 _] using rev_ind; intros Eq Hr; [rewrite app_nil_r in Eq; rewrite <- Eq in Hq; lia |].
  rewrite app_assoc in Eq. apply app_inj_tail in Eq as [Eq <-]; rewrite Eq in *. destruct q2 as [|d q2]; [by rewrite app_nil_r |].
  destruct Hr as [Hr | (e & q2' & [= <- <-] & He)]; [done |].
  pose proof (id_of_prefix (q1 ++ [d]) q2) as Hpre. rewrite <- app_assoc in Hpre. cbn in Hpre. lia.
Qed.
