(* ===== verification/HtreeLaws.v ===== *)
(** * What the hash tree needs of its storage and its cryptography

    [hview] is what is stored under a type, an index and a version; a write changes the entry
    it addresses and no other entry that is complete.  [flaky] says whether the environment may
    fail: where it may not, every call below succeeds.  The seal of an authenticated
    encryption opens to what was sealed.  Under it: the calls of the tree that only read, or
    write one entry, in these terms. *)

From stdpp Require Import base numbers list.
From S2P Require Import Prelude SkTypes FsCore Dirfile Htree HtreeShape.

Section Sizes.
Context {W : Type} `{!HtreeStorage W}.
Definition tsize (t : htype) : Z :=
  match t with TYPE_HEAD => SIZEOF_IMAGE | TYPE_NODE => SIZEOF_NODE_IMAGE | TYPE_BLOCK => block_size end.
(** The entries the tree addresses. *)
Definition max_idx (t : htype) : Z := match t with TYPE_HEAD => 1 | TYPE_NODE | TYPE_BLOCK => 2 ^ 32 end.
Definition key_ok (t : htype) (i v : Z) : Prop := 0 <= i < max_idx t /\ (v = 0 \/ v = 1).
End Sizes.

(** The allocator and the cryptography: [same] says that the storage is as it was. *)
Class CryptoLaws (W : Type) `{!HeapOps W, !HtreeCrypto W} (same : W -> W -> Prop) (fails : Prop) := {
  h_malloc : forall n w, exists r w', malloc n w = Ret (r, w') /\ same w w' /\ (r = None -> fails);
  h_prng : forall n w, 0 <= n ->
    wpx (prng_read n) w (fun r w' => same w w' /\ match r with inl b => Z.of_nat (length b) = n | inr _ => fails end);
  hash_fn : list Z -> list Z;
  hash_fn_length : forall x, length (hash_fn x) = 32%nat;
  hctx : hash_ctx -> list Z -> Prop;
  h_hash_supported : hash_supported = true;
  h_hash_size : forall w, wpx hash_get_ctx_size w (fun r w' => same w w' /\ match r with inl _ => True | inr _ => fails end);
  h_hash_init : forall w, wpx hash_init w (fun r w' => same w w' /\ match r with inl c => hctx c [] | inr _ => fails end);
  h_hash_update : forall c x b w, hctx c x ->
    wpx (hash_update c b) w (fun r w' => same w w' /\ match r with inl c => hctx c (x ++ b) | inr _ => fails end);
  h_hash_final : forall c x w, hctx c x ->
    wpx (hash_final c TEE_FS_HTREE_HASH_SIZE) w (fun r w' => same w w' /\ match r with inl h => h = hash_fn x | inr _ => fails end);
  aead_seal : list Z -> list Z -> list Z -> list Z -> list Z * list Z;
  aead_open : list Z -> list Z -> list Z -> list Z -> list Z -> option (list Z);
  aead_seal_length : forall k iv a p, length (fst (aead_seal k iv a p)) = length p /\ length (snd (aead_seal k iv a p)) = 16%nat;
  aead_open_length : forall k iv a c t p, aead_open k iv a c t = Some p -> length p = length c;
  aead_open_seal : forall k iv a p, aead_open k iv a (fst (aead_seal k iv a p)) (snd (aead_seal k iv a p)) = Some p;
  actx : authenc_ctx -> list Z -> list Z -> list Z -> Prop;
  h_authenc_size : forall w, wpx authenc_get_ctx_size w (fun r w' => same w w' /\ match r with inl _ => True | inr _ => fails end);
  h_authenc_init : forall mode k iv tl al pl w,
    wpx (authenc_op_init mode k iv tl al pl) w (fun r w' => same w w' /\ match r with inl c => actx c k iv [] | inr _ => fails end);
  h_authenc_aad : forall c k iv a mode b w, actx c k iv a ->
    wpx (authenc_update_aad c mode b) w (fun r w' => same w w' /\ match r with inl c => actx c k iv (a ++ b) | inr _ => fails end);
  h_authenc_enc : forall c k iv a p w, actx c k iv a ->
    wpx (authenc_enc_final c p) w (fun r w' => same w w' /\ match r with inl ct => ct = aead_seal k iv a p | inr _ => fails end);
  h_authenc_dec : forall c k iv a ct t w, actx c k iv a ->
    wpx (authenc_dec_final c ct t) w (fun r w' => same w w' /\
      match r with inl p => aead_open k iv a ct t = Some p | inr _ => fails \/ aead_open k iv a ct t = None end);
  fek_enc : option (list Z) -> list Z -> list Z;
  fek_dec : option (list Z) -> list Z -> list Z;
  fek_dec_enc : forall u k, fek_dec u (fek_enc u k) = k;
  fek_enc_length : forall u k, length (fek_enc u k) = length k;
  h_fek : forall u mode k w, mode = TEE_MODE_ENCRYPT \/ mode = TEE_MODE_DECRYPT ->
    wpx (fek_crypt u mode k) w (fun r w' => same w w' /\
      match r with inl k' => k' = (if mode =? TEE_MODE_ENCRYPT then fek_enc u k else fek_dec u k) | inr _ => fails end) }.

Class HtreeLaws (W : Type) `{!HeapOps W, !HtreeStorage W, !HtreeCrypto W} := {
  flaky : Prop;
  hview : W -> htype -> Z -> Z -> list Z;
  sameV (w w' : W) : Prop := forall t i v, hview w' t i v = hview w t i v;
  fullV (w : W) (t : htype) (i v : Z) : Prop := Z.of_nat (length (hview w t i v)) = tsize t;
  block_size_pos : 0 < block_size;
  op_for : rpc_op -> htype -> Z -> Z -> Prop;
  h_read : forall t i v w, key_ok t i v ->
    wpx (op ← rpc_read_init t i v; rpc_read_final op) w (fun r w' =>
      sameV w w' /\ match r with inl b => b = hview w t i v | inr _ => flaky end);
  h_write_init : forall t i v w, key_ok t i v ->
    wpx (rpc_write_init t i v) w (fun r w' => sameV w w' /\ match r with inl op => op_for op t i v | inr _ => flaky end);
  h_write_final : forall op t i v b w, op_for op t i v -> key_ok t i v -> Z.of_nat (length b) = tsize t ->
    wpx (rpc_write_final op b) w (fun r w' =>
      (forall t' i' v', (t', i', v') <> (t, i, v) -> key_ok t' i' v' -> fullV w t' i' v' -> hview w' t' i' v' = hview w t' i' v') /\
      match r with inl _ => hview w' t i v = b | inr _ => flaky end);
  h_crypto :: CryptoLaws W sameV flaky }.

#[export] Instance sameV_preorder `{HtreeLaws W} : PreOrder sameV.
Proof. split; [intros w t i v; done | intros a c d H1 H2 t i v]. by rewrite H2, H1. Qed.

Section Laws.
Context {W : Type} `{HtreeLaws W}.
Implicit Types (w : W) (ht : tee_fs_htree) (s : wht W).

(** ** Calls that leave the storage as it is *)

(** Defined, the storage as before, and [Q] of the result unless the environment failed. *)
Definition quiet {A} (m : ex W A) w (Q : A -> Prop) : Prop :=
  wpx m w (fun r w' => sameV w w' /\ match r with inl a => Q a | inr _ => flaky end).
(** The same with the tree beside the world. *)
Definition quietT {A} (m : ex (wht W) A) s (Q : A -> tee_fs_htree -> Prop) : Prop :=
  wpx m s (fun r s' => sameV (fst s) (fst s') /\ match r with inl a => Q a (snd s') | inr _ => flaky end).

Lemma quiet_ret {A} (a : A) w (Q : A -> Prop) : Q a -> quiet (mret a) w Q.
Proof. intros HQ. by apply wpx_ret. Qed.
Lemma quiet_bind {A B} (m : ex W A) (f : A -> ex W B) w (P : A -> Prop) Q :
  quiet m w P -> (forall a w', sameV w w' -> P a -> quiet (f a) w' Q) -> quiet (m ≫= f) w Q.
Proof.
  intros Hm Hf. apply wpx_bind. eapply wpx_mono; [exact Hm |]. cbn beta. intros [a|e] w' [HS HP]; [| done].
  eapply wpx_mono; [by apply (Hf a w') |]. cbn beta. intros r w2 [HS2 HQ]. split; [by transitivity w' | done].
Qed.
Lemma quiet_mono {A} (m : ex W A) w (P Q : A -> Prop) : quiet m w P -> (forall a, P a -> Q a) -> quiet m w Q.
Proof. intros Hm HPQ. eapply wpx_mono; [exact Hm |]. cbn beta. intros [a|e] w' [HS HP]; split; auto. Qed.

Lemma quietT_ret {A} (a : A) s (Q : A -> tee_fs_htree -> Prop) : Q a (snd s) -> quietT (mret a) s Q.
Proof. intros HQ. by apply wpx_ret. Qed.
Lemma quietT_bind {A B} (m : ex (wht W) A) (f : A -> ex (wht W) B) s (P : A -> tee_fs_htree -> Prop) Q :
  quietT m s P -> (forall a s', sameV (fst s) (fst s') -> P a (snd s') -> quietT (f a) s' Q) -> quietT (m ≫= f) s Q.
Proof.
  intros Hm Hf. apply wpx_bind. eapply wpx_mono; [exact Hm |]. cbn beta. intros [a|e] s' [HS HP]; [| done].
  eapply wpx_mono; [by apply (Hf a s') |]. cbn beta. intros r s2 [HS2 HQ]. split; [by transitivity (fst s') | done].
Qed.
Lemma quietT_onW {A} (m : ex W A) s (Q : A -> Prop) : quiet m (fst s) Q -> quietT (onW m) s (fun a ht => Q a /\ ht = snd s).
Proof.
  intros Hm. destruct s as [w ht]. apply wpx_onW. eapply wpx_mono; [exact Hm |]. cbn beta.
  intros [a|e] w' [HS HQ]; by split.
Qed.
Lemma quietT_get s : quietT get_d s (fun a ht => a = snd s /\ ht = snd s).
Proof. by apply wpx_get_d. Qed.
Lemma quietT_upd f s : quietT (upd_d f) s (fun _ ht => ht = f (snd s)).
Proof. by apply wpx_upd_d. Qed.
Lemma quietT_put ht s : quietT (put_d ht) s (fun _ ht' => ht' = ht).
Proof. by apply wpx_put_d. Qed.
Lemma quietT_pure {A} (m : outcome A) a s : m = Ret a -> quietT (pure_c m) s (fun a' ht => a' = a /\ ht = snd s).
Proof. intros ->. by eapply wpx_pure. Qed.
Lemma quietT_assert b s : b = true -> quietT (assert_c b) s (fun _ ht => ht = snd s).
Proof. intros ->. by apply wpx_assert. Qed.
Lemma quietT_mono {A} (m : ex (wht W) A) s (P Q : A -> tee_fs_htree -> Prop) :
  quietT m s P -> (forall a ht, P a ht -> Q a ht) -> quietT m s Q.
Proof. intros Hm HPQ. eapply wpx_mono; [exact Hm |]. cbn beta. intros [a|e] s' [HS HP]; split; auto. Qed.

Lemma quiet_malloc n w : quiet (call (malloc n)) w (fun r => r = None -> flaky).
Proof. destruct (h_malloc n w) as (r & w' & E & HS & HF). eapply wpx_call; [exact E | done]. Qed.

(** An allocation before the rest. *)
Lemma quietT_malloc {A} n s (f : ex (wht W) A) Q :
  (forall s', sameV (fst s) (fst s') -> snd s' = snd s -> quietT f s' Q) ->
  quietT (m ← onW (call (malloc n)); match m with None => throw TEE_ERROR_OUT_OF_MEMORY | Some _ => f end) s Q.
Proof.
  intros Hf. eapply quietT_bind; [apply quietT_onW, quiet_malloc |]. cbn beta. intros [p|] s' HS [HN Es].
  - by apply Hf.
  - apply wpx_throw. split; [done | by apply HN].
Qed.

(** ** Images and their bytes *)

Definition ni_wf (ni : node_image) : Prop :=
  length (ni_hash ni) = 32%nat /\ length (ni_iv ni) = 16%nat /\ length (ni_tag ni) = 16%nat /\ 0 <= ni_flags ni < 2 ^ 16.
Lemma ni_bytes_length ni : ni_wf ni -> length (ni_bytes ni) = 66%nat.
Proof. intros (L1 & L2 & L3 & _). unfold ni_bytes, ni_data. len. Qed.
Lemma ni_of_bytes ni : ni_wf ni -> ni_of (ni_bytes ni) = ni.
Proof.
  intros (L1 & L2 & L3 & Hf). unfold ni_of, ni_bytes, ni_data. destruct ni as [h iv t f]; cbn [ni_hash ni_iv ni_tag ni_flags] in *.
  f_equal.
  - by apply (field_mid [] h).
  - by apply field_mid.
  - rewrite (app_assoc h). apply field_mid; len.
  - rewrite (app_assoc h), (app_assoc (h ++ iv)), <- (app_nil_r (le_bytes 2 f)).
    rewrite field_mid, le_val_bytes by len. apply Z.mod_small. lia.
Qed.

Definition head_wf (h : image) : Prop :=
  length (hd_iv h) = 16%nat /\ length (hd_tag h) = 16%nat /\ length (hd_enc_fek h) = 16%nat /\
  length (hd_imeta h) = 16%nat /\ 0 <= hd_counter h < 2 ^ 32.
Lemma image_bytes_length h : head_wf h -> length (image_bytes h) = 68%nat.
Proof. intros (L1 & L2 & L3 & L4 & _). unfold image_bytes. len. Qed.
Lemma image_of_bytes h : head_wf h -> image_of (image_bytes h) = h.
Proof.
  intros (L1 & L2 & L3 & L4 & Hc). unfold image_of, image_bytes.
  destruct h as [iv t k im c]; cbn [hd_iv hd_tag hd_enc_fek hd_imeta hd_counter] in *. f_equal.
  - by apply (field_mid [] iv).
  - by apply field_mid.
  - rewrite (app_assoc iv). apply field_mid; len.
  - rewrite (app_assoc iv), (app_assoc (iv ++ t)). apply field_mid; len.
  - rewrite (app_assoc iv), (app_assoc (iv ++ t)), (app_assoc ((iv ++ t) ++ k)), <- (app_nil_r (le_bytes 4 c)).
    rewrite field_mid, le_val_bytes by len. apply Z.mod_small. lia.
Qed.

Definition imeta_wf (im : imeta_t) : Prop := 0 <= im_length im < 2 ^ 64 /\ 0 <= im_max_node_id im < 2 ^ 32.
Lemma imeta_bytes_length im : length (imeta_bytes im) = 16%nat.
Proof. unfold imeta_bytes, zeros. len. Qed.
Lemma imeta_of_bytes im : imeta_wf im -> imeta_of (imeta_bytes im) = im.
Proof.
  intros [H1 H2]. unfold imeta_of, imeta_bytes. destruct im as [l m]; cbn [im_length im_max_node_id] in *. f_equal.
  - etransitivity; [apply f_equal, (field_mid [] (le_bytes 8 l)); len |]. rewrite le_val_bytes. apply Z.mod_small. lia.
  - rewrite field_mid, le_val_bytes by len. apply Z.mod_small. lia.
Qed.

(** ** Reading and writing entries *)

Lemma quiet_read t i v w : key_ok t i v -> fullV w t i v -> quiet (rpc_read t i v (tsize t)) w (fun b => b = hview w t i v).
Proof.
  intros Hk Hf. unfold rpc_read. apply wpx_assoc, wpx_bind. eapply wpx_mono; [by apply h_read |]. cbn beta. intros [b|e] w' [HS HR]; [| done]. subst b.
  unfold fullV in Hf. rewrite (proj2 (Z.eqb_eq _ _) Hf). apply wpx_ret. done.
Qed.

Lemma quiet_read_head w vers h : vers = 0 \/ vers = 1 -> head_wf h -> hview w TYPE_HEAD 0 vers = image_bytes h ->
  quiet (rpc_read_head vers) w (fun h' => h' = h).
Proof.
  intros Hv Hw E. unfold rpc_read_head. eapply quiet_bind.
  - apply (quiet_read TYPE_HEAD 0 vers w); [split; [unfold max_idx; lia | done] |]. unfold fullV. rewrite E, image_bytes_length by done. done.
  - cbn beta. intros b w' _ ->. apply quiet_ret. by rewrite E, image_of_bytes.
Qed.

Lemma quiet_read_node w id vers ni : 1 <= id < 2 ^ 32 -> vers = 0 \/ vers = 1 -> ni_wf ni ->
  hview w TYPE_NODE (id - 1) vers = ni_bytes ni -> quiet (rpc_read_node id vers) w (fun ni' => ni' = ni).
Proof.
  intros Hi Hv Hw E. unfold rpc_read_node. rewrite u64_small by lia. eapply quiet_bind.
  - apply (quiet_read TYPE_NODE (id - 1) vers w); [split; [unfold max_idx; lia | done] |]. unfold fullV. rewrite E, ni_bytes_length by done. done.
  - cbn beta. intros b w' _ ->. apply quiet_ret. by rewrite E, ni_of_bytes.
Qed.

(** Every complete entry but one is as it was. *)
Definition keepsV (t : htype) (i v : Z) w w' : Prop :=
  forall t' i' v', (t', i', v') <> (t, i, v) -> key_ok t' i' v' -> fullV w t' i' v' -> hview w' t' i' v' = hview w t' i' v'.

Lemma write_entry t i v b w : key_ok t i v -> Z.of_nat (length b) = tsize t ->
  wpx (rpc_write t i v b) w (fun r w' => keepsV t i v w w' /\ match r with inl _ => hview w' t i v = b | inr _ => flaky end).
Proof.
  intros Hk Hb. unfold rpc_write. apply wpx_bind. eapply wpx_mono; [by apply h_write_init |]. cbn beta.
  intros [op|e] w' [HS HR]; [| split; [by intros ????? | done]].
  eapply wpx_mono; [by eapply h_write_final |]. cbn beta. intros r w2 [HK HR2]. split; [| done].
  intros t' i' v' Hne Hk' Hf. rewrite <- HS. apply HK; [done | done |]. unfold fullV in *. by rewrite HS.
Qed.

(** ** Hashes and seals *)

(** What the hash of a node is computed over. *)
Definition node_input (n : htree_node) (h0 h1 : option (list Z)) : list Z :=
  ni_data (n_node n) ++ default [] h0 ++ default [] h1.

Lemma quiet_hash_child c x t w : hctx c x -> quiet (hash_child c t) w (fun c => hctx c (x ++ default [] (child_hash t))).
Proof.
  intros Hc. unfold hash_child. destruct (child_hash t) as [h|]; cbn [default].
  - by apply h_hash_update.
  - apply quiet_ret. by rewrite app_nil_r.
Qed.

Lemma quiet_calc_node_hash n c0 c1 w :
  quiet (calc_node_hash n c0 c1) w (fun h => h = hash_fn (node_input n (child_hash c0) (child_hash c1))).
Proof.
  unfold calc_node_hash. eapply quiet_bind; [apply h_hash_init |]. cbn beta. intros c w1 _ Hc.
  eapply quiet_bind; [by apply (h_hash_update c []) |]. cbn beta. clear c Hc. intros c w2 _ Hc.
  eapply quiet_bind; [by apply quiet_hash_child |]. cbn beta. clear c Hc. intros c w3 _ Hc.
  eapply quiet_bind; [by apply quiet_hash_child |]. cbn beta. clear c Hc. intros c w4 _ Hc.
  eapply quiet_mono; [by apply h_hash_final |]. cbn beta. intros h ->. unfold node_input. cbn [app]. by rewrite app_assoc.
Qed.

(** The additional data of a block, and of the header. *)
Definition block_aad (ht : tee_fs_htree) (iv : list Z) : list Z := hd_enc_fek (ht_head ht) ++ iv.
Definition root_hash (t : htree) : list Z := match t with Node n _ _ => ni_hash (n_node n) | Null => [] end.
Definition head_aad (ht : tee_fs_htree) (iv : list Z) : list Z :=
  take 16 (root_hash (ht_root ht)) ++ le_bytes 4 (hd_counter (ht_head ht)) ++ hd_enc_fek (ht_head ht) ++ iv.

Definition iv_of (ni : option (list bool)) (ht : tee_fs_htree) : option (list Z) :=
  match ni with
  | Some p => option_map (fun n => ni_iv (n_node n)) (node_at (ht_root ht) p)
  | None => Some (hd_iv (ht_head ht))
  end.
Definition aad_of (ni : option (list bool)) (ht : tee_fs_htree) (iv : list Z) : list Z :=
  match ni with Some _ => block_aad ht iv | None => head_aad ht iv end.

(** From the vector on. *)
Lemma quietT_start mode ni len iv s : iv_of ni (snd s) = Some iv -> is_Some (node_at (ht_root (snd s)) []) ->
  quietT (authenc_start mode ni len) s (fun c ht => ht = snd s /\ actx c (ht_fek ht) iv (aad_of ni ht iv)).
Proof.
  intros Hiv [root Hr]. unfold authenc_start.
  eapply quietT_bind; [apply quietT_get |]. cbn beta. intros ht s2 HS2 [-> E2].
  eapply (quietT_bind _ _ _ (fun a ht => a = iv /\ ht = snd s)).
  { eapply quietT_mono; [apply quietT_pure with (a := iv) |].
    - destruct ni as [p|]; cbn in *; [| congruence]. destruct (node_at (ht_root (snd s)) p); cbn in *; congruence.
    - cbn beta. intros a ht [-> ->]. by rewrite E2. }
  cbn beta. intros ? s3 HS3 [-> E3]. eapply quietT_bind; [apply quietT_onW, h_authenc_size |]. cbn beta.
  intros sz s4 HS4 [_ E4]. apply quietT_malloc. intros s5 HS5 E5.
  eapply quietT_bind; [apply quietT_onW, h_authenc_init |]. cbn beta. intros c s6 HS6 [Hc E6].
  assert (Es : snd s6 = snd s) by congruence. clear E2 E3 E4 E5 E6.
  eapply (quietT_bind _ _ _ (fun c ht => ht = snd s /\ actx c (ht_fek (snd s)) iv
    (match ni with Some _ => [] | None => take 16 (root_hash (ht_root (snd s))) ++ le_bytes 4 (hd_counter (ht_head (snd s))) end))).
  { destruct ni as [p|]; [by apply quietT_ret |].
    eapply quietT_bind; [by eapply quietT_pure; rewrite Hr |]. cbn beta. intros ? s7 HS7 [-> E7].
    eapply quietT_bind; [apply quietT_onW; by eapply h_authenc_aad |]. cbn beta. intros c1 s8 HS8 [Hc1 E8].
    eapply quietT_mono; [apply quietT_onW; by eapply h_authenc_aad |]. cbn beta. intros c2 ht [Hc2 ->].
    split; [congruence |]. cbn [app] in Hc2. unfold root_hash. unfold node_at in Hr. cbn in Hr.
    destruct (ht_root (snd s)); [done |]. by injection Hr as ->. }
  cbn beta. clear c Hc. intros c s7 HS7 [E7 Hc]. eapply quietT_bind; [apply quietT_onW; by eapply h_authenc_aad |].
  cbn beta. clear Hc. intros c' s8 HS8 [Hc E8]. eapply quietT_mono; [apply quietT_onW; by eapply h_authenc_aad |].
  cbn beta. intros c2 ht [Hc2 ->]. rewrite E8, E7. split; [done |].
  destruct ni as [p|]; cbn [aad_of app] in *; [done |]. unfold head_aad. by rewrite <- !app_assoc in Hc2.
Qed.

Lemma quietT_init_dec ni len iv s : iv_of ni (snd s) = Some iv -> is_Some (node_at (ht_root (snd s)) []) ->
  quietT (authenc_init TEE_MODE_DECRYPT ni len) s (fun c ht => ht = snd s /\ actx c (ht_fek ht) iv (aad_of ni ht iv)).
Proof.
  intros Hiv Hr. unfold authenc_init. eapply quietT_bind; [by apply quietT_ret with (Q := fun _ ht => ht = snd s) |].
  cbn beta. intros _ s1 _ E. rewrite <- E in *. by apply quietT_start.
Qed.

Lemma with_iv_root ni iv ht : is_Some (node_at (ht_root ht) []) -> is_Some (node_at (ht_root (with_iv ni iv ht)) []).
Proof. intros [n Hn]. destruct ni as [p|]; cbn; [rewrite node_at_upd; destruct (decide _) |]; rewrite Hn; eauto. Qed.
Lemma with_iv_of ni iv ht : is_Some (iv_of ni ht) -> iv_of ni (with_iv ni iv ht) = Some iv.
Proof.
  destruct ni as [p|]; [| done]. cbn. rewrite node_at_upd, decide_True by done. destruct (node_at (ht_root ht) p); [done |].
  by intros [? ?].
Qed.

Lemma quietT_init_enc ni len s : is_Some (iv_of ni (snd s)) -> is_Some (node_at (ht_root (snd s)) []) ->
  quietT (authenc_init TEE_MODE_ENCRYPT ni len) s (fun c ht => exists iv, length iv = 16%nat /\
    ht = with_iv ni iv (snd s) /\ actx c (ht_fek ht) iv (aad_of ni ht iv)).
Proof.
  intros Hiv Hr. unfold authenc_init. rewrite Z.eqb_refl.
  eapply (quietT_bind _ _ _ (fun _ ht => exists iv, length iv = 16%nat /\ ht = with_iv ni iv (snd s))).
  - eapply quietT_bind; [apply quietT_onW, h_prng; unfold TEE_FS_HTREE_IV_SIZE; lia |]. cbn beta. intros iv s1 _ [Hl E1].
    eapply quietT_mono; [apply quietT_upd |]. cbn beta. intros _ ht ->. exists iv. unfold TEE_FS_HTREE_IV_SIZE in Hl.
    split; [lia | congruence].
  - cbn beta. intros _ s1 _ (iv & Hl & E1).
    eapply quietT_mono; [apply (quietT_start _ ni len iv); rewrite E1; [by apply with_iv_of | by apply with_iv_root] |].
    cbn beta. intros c ht [-> Hc]. exists iv. rewrite E1 in *. done.
Qed.

Lemma quiet_decrypt c k iv a tag ct p len w : actx c k iv a -> aead_open k iv a ct tag = Some p ->
  Z.of_nat (length ct) = len -> quiet (authenc_decrypt_final c tag ct len) w (fun p' => p' = p).
Proof.
  intros Hc Ho Hl. unfold authenc_decrypt_final. apply wpx_bind, wpx_attempt. eapply wpx_mono; [by apply h_authenc_dec |].
  cbn beta. intros [p'|e] w1 [HS HR].
  - assert (p' = p) as -> by congruence. apply aead_open_length in Ho. rewrite Ho, (proj2 (Z.eqb_eq _ _) Hl). by apply wpx_ret.
  - apply wpx_throw. split; [done |]. destruct HR as [? | HR]; [done | congruence].
Qed.

Lemma quiet_encrypt c k iv a p len w : actx c k iv a -> Z.of_nat (length p) = len ->
  quiet (authenc_encrypt_final c p len) w (fun r => r = aead_seal k iv a p).
Proof.
  intros Hc Hl. unfold authenc_encrypt_final. eapply quiet_bind; [by apply h_authenc_enc |]. cbn beta.
  intros [ct t] w1 _ E. pose proof (aead_seal_length k iv a p) as [L1 L2]. rewrite <- E in *. cbn [fst snd] in *.
  rewrite L1, L2, (proj2 (Z.eqb_eq _ _) Hl). cbn [andb Z.of_nat]. by apply quiet_ret.
Qed.

(** ** Finding and adding nodes *)

(** [ht] has the nodes 1 to [m]. *)
Definition nodes_of (ht : tee_fs_htree) : Z := Z.max 1 (im_max_node_id (ht_imeta ht)).
Definition ht_shape (ht : tee_fs_htree) : Prop := wft (ht_root ht) (nodes_of ht) /\ nodes_of ht < UINT_MAX - 1.

Lemma id_at_node t m p : wft t m -> id_of p <= m -> id_at t p = Ret (id_of p).
Proof. intros Hw Hp. destruct (wft_at t m p Hw Hp) as (n & Hn & Hi). unfold id_at. rewrite Hn. cbn. by rewrite Hi. Qed.

Lemma get_node_found create p s : ht_shape (snd s) -> id_of p <= nodes_of (snd s) ->
  quietT (get_node create (id_of p)) s (fun q ht => q = p /\ ht = snd s).
Proof.
  intros [Hw HM] Hp. unfold get_node. eapply quietT_bind; [apply quietT_get |]. cbn beta. intros ht s1 _ [-> E1].
  eapply quietT_bind; [eapply quietT_pure; eapply find_closest_node_at; [done | unfold nodes_of; lia | done | lia] |].
  cbn beta. intros ? s2 _ [-> E2]. eapply quietT_bind; [by eapply quietT_pure, id_at_node |]. cbn beta.
  intros ? s3 _ [-> E3]. rewrite Z.eqb_refl. apply quietT_ret. split; [done | congruence].
Qed.

(** The nodes a tree gets when it grows from [m] to [m'] nodes: zeroed. *)
Definition grown (t t' : htree) (m m' : Z) : Prop :=
  forall q, node_at t' q = if decide (id_of q <= m) then node_at t q
                           else if decide (id_of q <= m') then Some (new_node (id_of q)) else None.

Lemma tree_grown_refl t m : wft t m -> grown t t m m.
Proof.
  intros Hw q. destruct (decide (id_of q <= m)); [done |]. apply wft_none with (m := m); [done | lia].
Qed.

Lemma grown_wft t t' m m' : wft t m -> m <= m' -> grown t t' m m' -> wft t' m'.
Proof.
  intros Hw Hm Hg q. rewrite (Hg q). destruct (Hw q) as [H1 H2].
  destruct (decide (id_of q <= m)).
  - split; [rewrite H1; lia | done].
  - destruct (decide (id_of q <= m')); split; try done; try (by intros ? [= <-]).
Qed.

(** One node more. *)
Lemma grown_next t t' m p b : wft t m -> 1 <= m -> id_of (p ++ [b]) = m + 1 ->
  t' = set_child t p b (Node (new_node (m + 1)) Null Null) -> grown t t' m (m + 1).
Proof.
  intros Hw Hm Hp -> q. pose proof (id_of_snoc p b) as Es. pose proof (id_of_pos p) as Ep.
  assert (Hle : id_of p <= m) by (destruct b; cbn [Z.b2z] in *; lia).
  destruct (wft_at t m p Hw Hle) as (n & Hn & _).
  rewrite node_at_add; [| by rewrite Hn | eapply wft_none; [done | lia]].
  destruct (decide (q = p ++ [b])) as [-> | Hq].
  - rewrite decide_False, decide_True by lia. by rewrite Hp.
  - destruct (decide (id_of q <= m)); [done |]. rewrite decide_False; [eapply wft_none; [done | lia] |].
    intros ?. apply Hq, id_of_inj. lia.
Qed.

Lemma tree_grown_trans t t1 t2 m m1 m2 : m <= m1 <= m2 -> grown t t1 m m1 -> grown t1 t2 m1 m2 -> grown t t2 m m2.
Proof.
  intros Hm G1 G2 q. rewrite (G2 q), (G1 q). repeat case_decide; (done || lia).
Qed.

Lemma path_snoc n : 2 <= n -> exists p b, id_of (p ++ [b]) = n /\ Z.odd n = b /\ Z.shiftr n 1 = id_of p.
Proof.
  intros Hn. pose proof (id_path n) as E. destruct (path_of n) as [|b p _] using rev_ind; [cbn in E; lia |].
  specialize (E ltac:(lia)). exists p, b. pose proof (id_of_snoc_half p b) as [H1 H2]. rewrite E in *.
  split_and!; [done | done |]. rewrite Z.shiftr_div_pow2 by lia. done.
Qed.

Lemma add_nodes_spec k : forall n node s m, wft (ht_root (snd s)) m -> 1 <= m -> 2 <= n <= m + 1 -> n + Z.of_nat k <= UINT_MAX ->
  quietT (add_nodes k n node) s (fun q ht => exists t', ht = set_root (snd s) t' /\
    grown (ht_root (snd s)) t' m (Z.max m (n + Z.of_nat k - 1)) /\ (if k is O then q = node else id_of q = n + Z.of_nat k - 1)).
Proof.
  induction k as [|k IH]; intros n node s m Hw Hm Hn HU; cbn [add_nodes].
  { apply quietT_ret. exists (ht_root (snd s)). split; [by destruct (snd s) |]. split; [| done].
    rewrite Z.max_l by lia. by apply tree_grown_refl. }
  eapply quietT_bind; [apply quietT_get |]. cbn beta. intros ht s1 HS1 [-> E1].
  destruct (path_snoc n) as (p & b & Ep & Eb & Esh); [lia |].
  assert (Hfin : forall (q : list bool) (h : Z), (if k is O then q = p ++ [b] else id_of q = n + 1 + Z.of_nat k - 1) ->
    id_of q = n + Z.of_nat (S k) - 1) by (intros q h Hq; destruct k; [subst q; lia | lia]).
  destruct (decide (n <= m)) as [Hle|Hgt].
  - eapply quietT_bind; [eapply quietT_pure; rewrite <- Ep; eapply find_closest_node_at; [done | done | lia | lia] |].
    cbn beta. intros ? s2 HS2 [-> E2]. eapply quietT_bind; [eapply quietT_pure, id_at_node; [done | lia] |]. cbn beta.
    intros ? s3 HS3 [-> E3]. rewrite Ep, Z.eqb_refl.
    eapply quietT_mono; [apply (IH (n + 1) (p ++ [b]) s3 m); rewrite ?E3, ?E2, ?E1; (done || lia) |]. cbn beta.
    intros q ht (t' & -> & Hg & Hq). exists t'. rewrite E3, E2, E1 in *. split; [done |].
    replace (n + Z.of_nat (S k) - 1) with (n + 1 + Z.of_nat k - 1) by lia. split; [done |].
    rewrite (Hfin q 0 Hq). lia.
  - assert (n = m + 1) as -> by lia.
    destruct (find_closest_node_next (ht_root (snd s)) m p b Hw Hm Ep) as [Ef Hpm]; [lia |].
    eapply quietT_bind; [by eapply quietT_pure |]. cbn beta. intros ? s2 HS2 [-> E2].
    eapply quietT_bind; [by eapply quietT_pure, id_at_node |]. cbn beta. intros ? s3 HS3 [-> E3].
    rewrite (proj2 (Z.eqb_neq (id_of p) (m + 1))) by lia.
    eapply quietT_bind; [by apply quietT_assert; rewrite Esh, Z.eqb_refl |]. cbn beta. intros _ s4 HS4 E4.
    eapply quietT_bind; [apply quietT_assert |].
    { rewrite Eb, <- sub_snoc. assert (Hnone : node_at (ht_root (snd s)) (p ++ [b]) = None) by (eapply wft_none; [done | lia]).
      unfold node_at in Hnone. by destruct (sub _ _). }
    cbn beta. intros _ s5 HS5 E5. apply quietT_malloc. intros s6 HS6 E6. rewrite Eb.
    eapply quietT_bind; [apply quietT_put |]. cbn beta. intros _ s7 HS7 E7.
    set (t1 := set_child _ p b _) in *.
    assert (G1 : grown (ht_root (snd s)) t1 m (m + 1)) by (by eapply grown_next).
    assert (Hw1 : wft t1 (m + 1)) by (eapply grown_wft; [exact Hw | lia | exact G1]).
    eapply quietT_mono; [apply (IH (m + 1 + 1) (p ++ [b]) s7 (m + 1)); rewrite ?E7; [exact Hw1 | lia | lia | lia] |].
    cbn beta. intros q ht (t' & -> & Hg & Hq). exists t'. rewrite E7 in *. split; [done |]. cbn [ht_root set_root] in Hg.
    replace (m + 1 + Z.of_nat (S k) - 1) with (m + 1 + 1 + Z.of_nat k - 1) by lia. split.
    + rewrite Z.max_r in * by lia. eapply tree_grown_trans; [| exact G1 | exact Hg]. lia.
    + rewrite (Hfin q 0 Hq). lia.
Qed.

(** The tree grown to hold node [id_of p]. *)
Definition grow_to (ht : tee_fs_htree) (t' : htree) (id : Z) : tee_fs_htree :=
  set_imeta (set_root ht t') (set_max_node_id (ht_imeta ht) id).

Lemma get_node_new p s : ht_shape (snd s) -> nodes_of (snd s) < id_of p -> id_of p < UINT_MAX - 1 ->
  quietT (get_node true (id_of p)) s (fun q ht => q = p /\ exists t', ht = grow_to (snd s) t' (id_of p) /\
    grown (ht_root (snd s)) t' (nodes_of (snd s)) (id_of p)).
Proof.
  intros [Hw HM] Hp HU. assert (Hm1 : 1 <= nodes_of (snd s)) by (unfold nodes_of; lia).
  unfold get_node. eapply quietT_bind; [apply quietT_get |]. cbn beta. intros ht s1 _ [-> E1].
  destruct (find_closest_node_above (ht_root (snd s)) _ p Hw Hm1 Hp) as (q0 & r0 & Ef & -> & Hq0); [lia |].
  eapply quietT_bind; [by eapply quietT_pure |]. cbn beta. intros ? s2 _ [-> E2].
  eapply quietT_bind; [by eapply quietT_pure, id_at_node |]. cbn beta. intros ? s3 _ [-> E3].
  rewrite (proj2 (Z.eqb_neq (id_of q0) (id_of (q0 ++ r0)))) by lia. cbn [negb]. pose proof (id_of_pos q0) as Hpos.
  eapply quietT_bind; [apply (add_nodes_spec _ _ _ s3 (nodes_of (snd s))); rewrite ?E3, ?E2, ?E1; (done || lia) |].
  cbn beta. intros q s4 _ (t' & E4 & Hg & Hq).
  assert (Hid : id_of q = id_of (q0 ++ r0)) by (destruct (Z.to_nat (id_of (q0 ++ r0) - id_of q0)) eqn:?; lia).
  assert (q = q0 ++ r0) as -> by (by apply id_of_inj). rewrite E3, E2, E1 in *.
  replace (Z.max _ _) with (id_of (q0 ++ r0)) in Hg by lia.
  eapply quietT_bind; [apply quietT_get |]. cbn beta. intros ht s5 _ [-> E5]. rewrite E4. cbn [ht_root ht_imeta set_root].
  eapply quietT_bind; [eapply quietT_pure, id_at_node; [eapply grown_wft; [exact Hw | | exact Hg]; lia | lia] |].
  cbn beta. intros ? s6 _ [-> E6].
  rewrite (proj2 (Z.ltb_lt (im_max_node_id (ht_imeta (snd s))) (id_of (q0 ++ r0)))) by (unfold nodes_of in *; lia).
  eapply quietT_bind; [apply quietT_put |]. cbn beta. intros _ s7 _ E7. apply quietT_ret. split; [done |]. exists t'.
  rewrite E7, u32_small by (unfold UINT_MAX in *; lia). done.
Qed.

Lemma grow_to_shape ht t' id : ht_shape ht -> nodes_of ht < id -> id < UINT_MAX - 1 ->
  grown (ht_root ht) t' (nodes_of ht) id -> ht_shape (grow_to ht t' id) /\ nodes_of (grow_to ht t' id) = id.
Proof.
  intros [Hw HM] Hp HU Hg. assert (E : nodes_of (grow_to ht t' id) = id) by (unfold nodes_of in *; cbn in *; lia).
  split; [| done]. split; rewrite E; [| done]. eapply grown_wft; [exact Hw | | exact Hg]. lia.
Qed.

End Laws.
