(* ===== verification/HtreeBlocks.v ===== *)
(** * Reading and writing blocks of the hash tree

    [block_of] is the block the tree and the storage together hold.  Reading gives it or an
    error; writing sets it, leaves the other blocks, and touches only the version of the block
    that is not committed. *)

From stdpp Require Import base numbers list.
From S2P Require Import Prelude SkTypes FsCore Dirfile Htree HtreeShape HtreeLaws.

Section Blocks.
Context {W : Type} `{HtreeLaws W}.
Implicit Types (w : W) (ht : tee_fs_htree).

(** The sizes of everything the tree holds. *)
Record ht_ok ht : Prop := {
  ho_shape : ht_shape ht;
  ho_nodes : forall p n, node_at (ht_root ht) p = Some n -> ni_wf (n_node n);
  ho_head : head_wf (ht_head ht);
  ho_imeta : imeta_wf (ht_imeta ht) }.

(** The block behind a node. *)
Definition open_block w ht (n : htree_node) (num : Z) : option (list Z) :=
  let ct := hview w TYPE_BLOCK num (block_vers n) in
  if Z.of_nat (length ct) =? block_size
  then aead_open (ht_fek ht) (ni_iv (n_node n)) (block_aad ht (ni_iv (n_node n))) ct (ni_tag (n_node n)) else None.
Definition block_of w ht (num : Z) : option (list Z) :=
  match node_at (ht_root ht) (path_of (num + 1)) with Some n => open_block w ht n num | None => None end.

Lemma block_vers_01 n : block_vers n = 0 \/ block_vers n = 1.
Proof. unfold block_vers. destruct (flag_set _ _); auto. Qed.

Lemma root_there ht : ht_shape ht -> is_Some (node_at (ht_root ht) []).
Proof. intros [Hw _]. apply (Hw []). unfold nodes_of. cbn. lia. Qed.

(** A call on the tree that leaves the storage alone, seen by the user of the tree. *)
Lemma on_ht_wp {A} (m : ex (wht W) A) w ht (Q : A + Z -> whtp W -> Prop) :
  wpx m (w, ht) (fun r s' => match r with inl a => Q (inl a) (fst s', Some (snd s')) | inr e => Q (inr e) (fst s', None) end) ->
  wpx (on_ht m) (w, Some ht) Q.
Proof. intros ([a|e] & [w' ht'] & E & HQ); unfold wpx, on_ht; rewrite E; eauto. Qed.

Lemma read_block_spec w ht num : ht_ok ht -> 0 <= num -> num + 1 <= nodes_of ht ->
  wpx (tee_fs_htree_read_block num) (w, Some ht) (fun r s' => sameV w (fst s') /\
    match r with
    | inl b => block_of w ht num = Some b /\ snd s' = Some ht
    | inr _ => (flaky \/ block_of w ht num = None) /\ snd s' = None
    end).
Proof.
  intros HO Hn0 Hn. destruct (ho_shape _ HO) as [Hw HM]. pose proof (id_path (num + 1) ltac:(lia)) as Eid.
  destruct (wft_at _ _ (path_of (num + 1)) Hw) as (n & Hnode & _); [lia |].
  assert (Eb : block_of w ht num = open_block w ht n num) by (unfold block_of; by rewrite Hnode).
  unfold tee_fs_htree_read_block. apply on_ht_wp. unfold get_block_node, BLOCK_NUM_TO_NODE_ID.
  rewrite u64_small by (unfold UINT_MAX in *; lia). rewrite <- Eid.
  apply wpx_bind. eapply wpx_mono; [apply (get_node_found false (path_of (num + 1))); [by split | cbn; lia] |].
  cbn beta. intros [q|e] [w1 ht1] [HS1 HR]; cbn [fst snd] in *; [| by split; [| split; [left |]]]. destruct HR as [-> ->].
  apply wpx_bind, wpx_get_d. cbn [snd]. apply wpx_bind. eapply wpx_pure; [by rewrite Hnode |].
  apply wpx_onW_pair, wpx_bind, wpx_onW. eapply wpx_mono; [apply h_read; split; [unfold max_idx, UINT_MAX in *; lia | apply block_vers_01] |].
  cbn beta. intros [ct|e] w2 [HS2 Hct]; [| split; [by transitivity w1 | auto]]. rewrite HS1 in Hct.
  unfold open_block in Eb. rewrite <- Hct in Eb.
  destruct (Z.eqb_spec (Z.of_nat (length ct)) block_size) as [El|Nl]; cbn [negb].
  2:{ apply wpx_throw. cbn [fst snd]. split; [by transitivity w1 | auto]. }
  apply wpx_bind. eapply wpx_mono; [apply (quietT_init_dec (Some (path_of (num + 1))) block_size (ni_iv (n_node n)) (w2, ht)) |].
  { cbn. by rewrite Hnode. } { by apply root_there. }
  cbn beta. intros [c|e] [w3 ht3] [HS3 HR]; cbn [fst snd] in *; [| split; [by do 2 (etransitivity; [done |]) | auto]].
  destruct HR as [-> Hc]. apply wpx_onW. cbn [aad_of] in Hc.
  unfold authenc_decrypt_final. apply wpx_bind, wpx_attempt. eapply wpx_mono; [by apply h_authenc_dec |].
  cbn beta. intros [p'|e] w4 [HS4 HR4].
  - rewrite (aead_open_length _ _ _ _ _ _ HR4), (proj2 (Z.eqb_eq _ _) El). apply wpx_ret. cbn [fst snd].
    split; [by do 3 (etransitivity; [done |]) | by rewrite Eb].
  - apply wpx_throw. cbn [fst snd]. split; [by do 3 (etransitivity; [done |]) |]. rewrite Eb. tauto.
Qed.

(** ** Writing *)

(** The node of a block after it was written: the version flipped unless it was already. *)
Definition flags_written (n : htree_node) : Z :=
  if n_block_updated n then ni_flags (n_node n) else u16 (Z.lxor (ni_flags (n_node n)) HTREE_NODE_COMMITTED_BLOCK).
Definition node_written (iv tag : list Z) (n : htree_node) : htree_node :=
  mkNode (n_id n) true true (mkNi (ni_hash (n_node n)) iv tag (flags_written n)).
Definition vers_written (n : htree_node) : Z := Z.b2z (flag_set (flags_written n) HTREE_NODE_COMMITTED_BLOCK).

(** The tree before the write: with the node of the block. *)
Definition with_node ht (num : Z) ht' : Prop :=
  ht_shape ht' /\ (if decide (num + 1 <= nodes_of ht) then ht' = ht
  else exists t', ht' = grow_to ht t' (num + 1) /\ grown (ht_root ht) t' (nodes_of ht) (num + 1) /\ nodes_of ht' = num + 1).

Lemma get_block_node_spec w ht num : ht_shape ht -> 0 <= num -> num + 1 < UINT_MAX - 1 ->
  quietT (get_block_node true num) (w, ht) (fun q ht' => q = path_of (num + 1) /\ with_node ht num ht').
Proof.
  intros HS Hn0 Hn. pose proof (id_path (num + 1) ltac:(lia)) as Eid. unfold get_block_node, BLOCK_NUM_TO_NODE_ID.
  rewrite u64_small by (unfold UINT_MAX in *; lia). unfold with_node. rewrite <- Eid.
  destruct (decide (id_of (path_of (num + 1)) <= nodes_of ht)) as [Hle|Hgt].
  - eapply quietT_mono; [by apply get_node_found |]. cbn beta. intros q ht' [-> ->]. rewrite Eid. done.
  - eapply quietT_mono; [apply (get_node_new (path_of (num + 1)) (w, ht)); cbn [snd]; [done | lia | lia] |]. cbn beta.
    intros q ht' (-> & t' & -> & Hg). rewrite Eid in *. split; [done |]. cbn [snd] in *.
    destruct (grow_to_shape ht t' (num + 1)) as [HS' Hm]; [done | lia | lia | done |]. split; [done |]. by exists t'.
Qed.

Lemma upd_upd t p f g : upd_node (upd_node t p f) p g = upd_node t p (fun n => g (f n)).
Proof.
  apply tree_ext. intros q. rewrite !node_at_upd. destruct (decide (q = p)); [| done]. by destruct (node_at t q).
Qed.
Lemma upd_ext t p f g : (forall n, node_at t p = Some n -> f n = g n) -> upd_node t p f = upd_node t p g.
Proof.
  intros E. apply tree_ext. intros q. rewrite !node_at_upd. destruct (decide (q = p)) as [-> |]; [| done].
  destruct (node_at t p) as [n|]; cbn; [by rewrite E | done].
Qed.

(** The tree after the block of the node at [p] was written. *)
Definition ht_written ht p iv tag : tee_fs_htree :=
  set_ht_dirty (set_root ht (upd_node (ht_root ht) p (node_written iv tag))) true.

(** The version a write of the block goes to. *)
Definition wvers ht (num : Z) : Z :=
  match node_at (ht_root ht) (path_of (num + 1)) with Some n => vers_written n | None => 1 end.

Lemma with_node_at ht num ht' : ht_shape ht -> 0 <= num -> with_node ht num ht' ->
  exists n, node_at (ht_root ht') (path_of (num + 1)) = Some n /\ vers_written n = wvers ht num.
Proof.
  intros HS Hn [HS' Hw]. pose proof (id_path (num + 1) ltac:(lia)) as Eid. unfold wvers.
  destruct (decide (num + 1 <= nodes_of ht)) as [Hle|Hgt].
  - subst ht'. destruct (wft_at _ _ (path_of (num + 1)) (proj1 HS)) as (n & Hnode & _); [lia |]. exists n. by rewrite Hnode.
  - destruct Hw as (t' & -> & Hg & _). exists (new_node (num + 1)). cbn [ht_root grow_to set_imeta set_root].
    rewrite (Hg (path_of (num + 1))), Eid, decide_False, decide_True by lia. split; [done |].
    rewrite (wft_none _ _ (path_of (num + 1)) (proj1 HS)) by lia. done.
Qed.

Lemma sameV_keepsV t i v w w' : sameV w w' -> keepsV t i v w w'.
Proof. intros HS t' i' v' _ _ _. apply HS. Qed.
Lemma sameV_keepsV_trans t i v w w1 w' : sameV w w1 -> keepsV t i v w1 w' -> keepsV t i v w w'.
Proof. intros HS HK t' i' v' Hne Hk Hf. rewrite <- (HS t' i' v'). apply HK; [done | done |]. unfold fullV in *. by rewrite HS. Qed.

Lemma ht_written_eq ht p n iv tag : node_at (ht_root ht) p = Some n ->
  let f1 := fun n => if n_block_updated n then n else set_image n (ni_flip (n_node n) HTREE_NODE_COMMITTED_BLOCK) in
  let ht1 := set_root ht (upd_node (ht_root ht) p f1) in
  let ht2 := with_iv (Some p) iv ht1 in
  let ht3 := set_root ht2 (upd_node (ht_root ht2) p (fun n => set_image n (ni_set_tag (n_node n) tag))) in
  set_ht_dirty (set_root ht3 (upd_node (ht_root ht3) p (fun n => set_dirty (set_block_updated n true) true))) true =
  ht_written ht p iv tag.
Proof.
  intros Hn. cbn. unfold ht_written. f_equal. rewrite !upd_upd. unfold set_root. cbn. f_equal. apply upd_ext.
  intros n' _. unfold node_written, flags_written. destruct n' as [id d bu [h iv' t f]]; destruct bu; done.
Qed.

Lemma write_block_spec w ht num b : ht_shape ht -> 0 <= num -> num + 1 < UINT_MAX - 1 ->
  Z.of_nat (length b) = block_size ->
  wpx (tee_fs_htree_write_block num b) (w, Some ht) (fun r s' => keepsV TYPE_BLOCK num (wvers ht num) w (fst s') /\
    match r with
    | inl _ => exists ht1 iv, let seal := aead_seal (ht_fek ht) iv (block_aad ht iv) b in length iv = 16%nat /\
        with_node ht num ht1 /\ snd s' = Some (ht_written ht1 (path_of (num + 1)) iv (snd seal)) /\
        hview (fst s') TYPE_BLOCK num (wvers ht num) = fst seal
    | inr _ => flaky /\ snd s' = None
    end).
Proof.
  intros HS Hn0 Hn Hb. unfold tee_fs_htree_write_block. apply on_ht_wp. apply wpx_bind.
  eapply wpx_mono; [by apply get_block_node_spec |]. cbn beta.
  intros [q|e] [w1 ht1] [HS1 HR]; cbn [fst snd] in *; [| by split; [apply sameV_keepsV | split]].
  destruct HR as [-> Hwn]. destruct (with_node_at ht num ht1 HS Hn0 Hwn) as (n & Hnode & Ev).
  assert (Efek : ht_fek ht1 = ht_fek ht /\ ht_head ht1 = ht_head ht).
  { destruct Hwn as [_ Hwn]. destruct (decide _); [by subst ht1 |]. by destruct Hwn as (t' & -> & _). }
  destruct Efek as [Efek Ehead]. set (p := path_of (num + 1)) in *.
  apply wpx_bind, wpx_upd_d. cbn [fst snd]. apply wpx_bind, wpx_get_d. cbn [snd ht_root set_root].
  set (f1 := fun n : htree_node => if n_block_updated n then n else _).
  apply wpx_bind. eapply wpx_pure; [by rewrite node_at_upd, decide_True, Hnode by done |].
  assert (Ev' : block_vers (f1 n) = wvers ht num).
  { rewrite <- Ev. unfold block_vers, vers_written, flags_written, f1. by destruct (n_block_updated n). }
  rewrite Ev'. apply wpx_bind, wpx_onW. eapply wpx_mono.
  { apply (h_write_init TYPE_BLOCK num (wvers ht num)). split; [unfold max_idx, UINT_MAX in *; lia |]. rewrite <- Ev'. apply block_vers_01. }
  cbn beta. intros [op|e] w2 [HS2 Hop]; cbn [fst snd]; [| split; [apply sameV_keepsV; by transitivity w1 | done]].
  set (ht2 := set_root ht1 (upd_node (ht_root ht1) p f1)).
  apply wpx_bind. eapply wpx_mono; [apply (quietT_init_enc (Some p) block_size (w2, ht2)) |].
  { cbn. rewrite node_at_upd, decide_True, Hnode by done. cbn. eauto. }
  { cbn. rewrite node_at_upd. destruct (root_there ht1 (proj1 Hwn)) as [r Hr]. rewrite Hr. destruct (decide _); cbn; eauto. }
  cbn beta. intros [c|e] [w3 ht3] [HS3 HR]; cbn [fst snd] in *; [| split; [apply sameV_keepsV; by do 2 (etransitivity; [done |]) | done]].
  destruct HR as (iv & Hiv & -> & Hc). apply wpx_bind, wpx_onW.
  eapply wpx_mono; [by eapply (quiet_encrypt _ _ _ _ b block_size) |]. cbn beta.
  intros [[ct tag]|e] w4 [HS4 HR]; cbn [fst snd] in *; [| split; [apply sameV_keepsV; by do 3 (etransitivity; [done |]) | done]].
  apply wpx_bind, wpx_upd_d. cbn [fst snd]. apply wpx_bind, wpx_onW.
  assert (Eseal : aead_seal (ht_fek ht) iv (block_aad ht iv) b = (ct, tag)).
  { rewrite HR. cbn [aad_of with_iv]. unfold block_aad. cbn. by rewrite Efek, Ehead. }
  eapply wpx_mono; [apply (h_write_final op TYPE_BLOCK num (wvers ht num) ct w4 Hop) |].
  { split; [unfold max_idx, UINT_MAX in *; lia |]. rewrite <- Ev'. apply block_vers_01. }
  { pose proof (aead_seal_length (ht_fek ht) iv (block_aad ht iv) b) as [L _]. rewrite Eseal in L. cbn in *. lia. }
  cbn beta. intros [[]|e] w5 [HK HR5]; cbn [fst snd];
    (assert (HK' : keepsV TYPE_BLOCK num (wvers ht num) w w5) by
      (eapply sameV_keepsV_trans; [| exact HK]; by do 3 (etransitivity; [done |]))).
  - apply wpx_upd_d. cbn [fst snd]. split; [done |]. exists ht1, iv. rewrite Eseal. cbn [fst snd]. split_and!; [done.. | | done].
    f_equal. by apply (ht_written_eq ht1 p n iv tag).
  - split; [done | done].
Qed.

(** ** The blocks after a write *)

Lemma with_node_other ht num ht1 p n : ht_shape ht -> with_node ht num ht1 -> node_at (ht_root ht) p = Some n ->
  node_at (ht_root ht1) p = Some n.
Proof.
  intros HS [_ Hw] Hn. destruct (decide (num + 1 <= nodes_of ht)); [by subst ht1 |].
  destruct Hw as (t' & -> & Hg & _). cbn. rewrite (Hg p), decide_True; [done |]. apply (proj1 HS p). by rewrite Hn.
Qed.

Lemma ht_written_at ht p iv tag q : node_at (ht_root (ht_written ht p iv tag)) q =
  if decide (q = p) then node_written iv tag <$> node_at (ht_root ht) q else node_at (ht_root ht) q.
Proof. cbn. apply node_at_upd. Qed.

Lemma path_of_inj a b : 1 <= a -> 1 <= b -> path_of a = path_of b -> a = b.
Proof. intros Ha Hb E. rewrite <- (id_path a), <- (id_path b), E by done. done. Qed.

Lemma open_block_full w ht n num b : open_block w ht n num = Some b -> fullV w TYPE_BLOCK num (block_vers n).
Proof. unfold open_block, fullV. destruct (Z.eqb_spec (Z.of_nat (length (hview w TYPE_BLOCK num (block_vers n)))) block_size); [done | done]. Qed.

(** What a successful write leaves: the block written, and every other block. *)
Lemma written_blocks w w' ht num b ht1 iv : ht_shape ht -> 0 <= num -> num + 1 < UINT_MAX - 1 ->
  Z.of_nat (length b) = block_size -> keepsV TYPE_BLOCK num (wvers ht num) w w' -> with_node ht num ht1 ->
  let seal := aead_seal (ht_fek ht) iv (block_aad ht iv) b in
  let ht' := ht_written ht1 (path_of (num + 1)) iv (snd seal) in
  hview w' TYPE_BLOCK num (wvers ht num) = fst seal ->
  block_of w' ht' num = Some b /\
  forall k c, 0 <= k -> k + 1 < UINT_MAX -> k <> num -> block_of w ht k = Some c -> block_of w' ht' k = Some c.
Proof.
  intros HS Hn0 Hn Hb HK Hwn seal ht' Hv. destruct (with_node_at ht num ht1 HS Hn0 Hwn) as (n & Hnode & Ev).
  assert (Efek : ht_fek ht1 = ht_fek ht /\ ht_head ht1 = ht_head ht).
  { destruct Hwn as [_ Hwn]. destruct (decide _); [by subst ht1 |]. by destruct Hwn as (t' & -> & _). }
  destruct Efek as [Efek Ehead]. split.
  - unfold block_of, ht'. rewrite ht_written_at, decide_True, Hnode by done. cbn [option_fmap fmap option_map].
    unfold open_block. assert (Ebv : block_vers (node_written iv (snd seal) n) = wvers ht num) by (rewrite <- Ev; done).
    rewrite Ebv, Hv. pose proof (aead_seal_length (ht_fek ht) iv (block_aad ht iv) b) as [L _]. fold seal in L.
    rewrite L, (proj2 (Z.eqb_eq _ _) Hb). cbn. unfold block_aad. cbn. rewrite Efek, Ehead. apply aead_open_seal.
  - intros k c Hk0 Hk Hne Hc. unfold block_of, ht' in *. rewrite ht_written_at, decide_False.
    2:{ intros E. apply path_of_inj in E; lia. }
    destruct (node_at (ht_root ht) (path_of (k + 1))) as [nk|] eqn:Ek; [| done].
    rewrite (with_node_other ht num ht1 _ nk HS Hwn Ek). pose proof (open_block_full _ _ _ _ _ Hc) as Hf.
    unfold open_block in *. rewrite HK; [| intros [= ?]; lia | split; [unfold max_idx, UINT_MAX in *; lia | apply block_vers_01] | done].
    cbn. unfold block_aad in *. cbn. rewrite Efek, Ehead. done.
Qed.

End Blocks.
