(* ===== verification/HtreeSync.v ===== *)
(** * Writing the tree back

    [stored w base t v] says that the storage holds the nodes of [t], the subtree at position
    [base] whose version in its parent is [v], each in the version its parent says is
    committed; [hashed t] that every node has the hash of its data and its children.  [relt]
    relates the tree in memory to the tree last committed.  The traversal that writes the tree
    back leaves the committed tree stored, however it ends, and when it succeeds the new tree
    is stored beside it. *)

From stdpp Require Import base numbers list.
From S2P Require Import Prelude SkTypes FsCore Dirfile Htree HtreeShape HtreeLaws HtreeBlocks.

(** ** Flags *)

Lemma flag_set_bit f k : 0 <= k -> flag_set f (Z.shiftl 1 k) = Z.testbit f k.
Proof.
  intros Hk. unfold flag_set. rewrite Z.shiftl_1_l. destruct (Z.testbit f k) eqn:T.
  - destruct (Z.eqb_spec (Z.land f (2 ^ k)) 0) as [E|]; [| done].
    apply (f_equal (fun z => Z.testbit z k)) in E. rewrite Z.land_spec, T, Z.pow2_bits_true, Z.bits_0 in E by lia. done.
  - destruct (Z.eqb_spec (Z.land f (2 ^ k)) 0) as [|N]; [done |]. destruct N. apply Z.bits_inj'. intros j Hj.
    rewrite Z.land_spec, Z.bits_0. destruct (decide (j = k)) as [-> |]; [by rewrite T |].
    rewrite Z.pow2_bits_false by congruence. apply andb_false_r.
Qed.

(** The version of a child that is committed. *)
Definition cvers (n : htree_node) (b : bool) : bool :=
  flag_set (ni_flags (n_node n)) (HTREE_NODE_COMMITTED_CHILD (Z.b2z b)).

Lemma flip_bit f k j : 0 <= f < 2 ^ 16 -> 0 <= k < 16 -> 0 <= j ->
  Z.testbit (u16 (Z.lxor f (Z.shiftl 1 k))) j = if j =? k then negb (Z.testbit f j) else Z.testbit f j.
Proof.
  intros Hf Hk Hj. unfold u16. destruct (decide (j < 16)).
  - rewrite Z.mod_pow2_bits_low, Z.lxor_spec, Z.shiftl_1_l, Z.pow2_bits_eqb, (Z.eqb_sym k j) by lia.
    destruct (j =? k); [by rewrite xorb_true_r | by rewrite xorb_false_r].
  - rewrite Z.mod_pow2_bits_high by lia. rewrite (proj2 (Z.eqb_neq j k)) by lia.
    rewrite <- (Z.mod_small f (2 ^ 16)) by lia. by rewrite Z.mod_pow2_bits_high by lia.
Qed.

Lemma cvers_bit n b : cvers n b = Z.testbit (ni_flags (n_node n)) (1 + Z.b2z b).
Proof. unfold cvers, HTREE_NODE_COMMITTED_CHILD. apply flag_set_bit. destruct b; cbn; lia. Qed.
Lemma block_vers_bit n : block_vers n = Z.b2z (Z.testbit (ni_flags (n_node n)) 0).
Proof. unfold block_vers, HTREE_NODE_COMMITTED_BLOCK. by rewrite flag_set_bit. Qed.

(** A parent told that a child was written. *)
Definition flipc (n : htree_node) (b : bool) : htree_node :=
  set_image (set_dirty n true) (ni_flip (n_node n) (HTREE_NODE_COMMITTED_CHILD (Z.b2z b))).
Definition flipc_if (d : bool) (n : htree_node) (b : bool) : htree_node := if d then flipc n b else n.

Section Flip.
Context (n : htree_node) (Hw : ni_wf (n_node n)).
Lemma flipc_bit b j : 0 <= j -> Z.testbit (ni_flags (n_node (flipc n b))) j =
  if j =? 1 + Z.b2z b then negb (Z.testbit (ni_flags (n_node n)) j) else Z.testbit (ni_flags (n_node n)) j.
Proof using Hw.
  intros Hj. cbn. unfold HTREE_NODE_COMMITTED_CHILD. apply flip_bit; [apply Hw | destruct b; cbn; lia | done].
Qed.
Lemma flipc_cvers b c : cvers (flipc n b) c = if eqb b c then negb (cvers n c) else cvers n c.
Proof using Hw. rewrite !cvers_bit, flipc_bit by (destruct c; cbn; lia). by destruct b, c. Qed.
Lemma flipc_block b : block_vers (flipc n b) = block_vers n.
Proof using Hw. rewrite !block_vers_bit, flipc_bit by lia. by destruct b. Qed.
Lemma flipc_wf b : ni_wf (n_node (flipc n b)).
Proof using Hw. destruct Hw as (? & ? & ? & ?). split_and!; try done; cbn; apply u16_bound. Qed.
End Flip.

Lemma flipc_if_wf d n b : ni_wf (n_node n) -> ni_wf (n_node (flipc_if d n b)).
Proof. intros Hw. destruct d; [by apply flipc_wf | done]. Qed.
Lemma flipc_if_cvers d n b c : ni_wf (n_node n) -> cvers (flipc_if d n b) c = if eqb b c then xorb d (cvers n c) else cvers n c.
Proof. intros Hw. destruct d; cbn [flipc_if]; [rewrite flipc_cvers by done; by destruct b, c | by destruct b, c]. Qed.
Lemma flipc_if_block d n b : ni_wf (n_node n) -> block_vers (flipc_if d n b) = block_vers n.
Proof. intros Hw. destruct d; [by apply flipc_block | done]. Qed.

(** ** Trees in memory and in the storage *)

Fixpoint imgs_wf (t : htree) : Prop :=
  match t with Null => True | Node n c0 c1 => ni_wf (n_node n) /\ imgs_wf c0 /\ imgs_wf c1 end.
Fixpoint idok (base : list bool) (t : htree) : Prop :=
  match t with
  | Null => True
  | Node n c0 c1 => n_id n = id_of base /\ id_of base < 2 ^ 32 /\ idok (base ++ [false]) c0 /\ idok (base ++ [true]) c1
  end.
Fixpoint clean (t : htree) : Prop :=
  match t with Null => True | Node n c0 c1 => n_dirty n = false /\ n_block_updated n = false /\ clean c0 /\ clean c1 end.
(** Something below or at the node was written. *)
Fixpoint sdirty (t : htree) : bool :=
  match t with Null => false | Node n c0 c1 => n_dirty n || sdirty c0 || sdirty c1 end.

(** The tree in memory and the tree committed: a node that is not dirty is the committed one;
    a dirty one has the other version of its block, and the same versions of its children;
    nodes are added but not taken away. *)
Fixpoint relt (t t0 : htree) : Prop :=
  match t with
  | Null => t0 = Null
  | Node n c0 c1 =>
      n_dirty n = n_block_updated n /\
      match t0 with
      | Null => n_dirty n = true /\ relt c0 Null /\ relt c1 Null
      | Node m d0 d1 =>
          (n_dirty n = false -> n_node n = n_node m) /\
          (n_dirty n = true -> block_vers n = 1 - block_vers m) /\
          cvers n false = cvers m false /\ cvers n true = cvers m true /\ relt c0 d0 /\ relt c1 d1
      end
  end.

Lemma relt_clean t : clean t -> relt t t.
Proof. induction t as [|n c0 IH0 c1 IH1]; [done |]. cbn. intros (E1 & E2 & H0 & H1). rewrite E1, E2. split_and!; auto. done. Qed.

Section Stored.
Context {W : Type} `{HtreeLaws W}.
Implicit Types (w : W) (t : htree) (base p q : list bool).

(** The version of the node at [q] below a subtree whose own version is [v]. *)
Fixpoint vers_in t (v : bool) q : bool :=
  match t, q with
  | Node n c0 c1, b :: q => vers_in (child t b) (cvers n b) q
  | _, _ => v
  end.
Definition stored w base t (v : bool) : Prop :=
  forall q n, node_at t q = Some n ->
    hview w TYPE_NODE (id_of (base ++ q) - 1) (Z.b2z (vers_in t v q)) = ni_bytes (n_node n).

Lemma stored_null w base v : stored w base Null v.
Proof. intros q n. by rewrite node_at_null. Qed.
Lemma stored_node w base n c0 c1 v : stored w base (Node n c0 c1) v <->
  hview w TYPE_NODE (id_of base - 1) (Z.b2z v) = ni_bytes (n_node n) /\
  stored w (base ++ [false]) c0 (cvers n false) /\ stored w (base ++ [true]) c1 (cvers n true).
Proof.
  split.
  - intros Hs. split_and!.
    + specialize (Hs [] n eq_refl). by rewrite app_nil_r in Hs.
    + intros q m Hq. rewrite <- app_assoc. apply (Hs (false :: q) m Hq).
    + intros q m Hq. rewrite <- app_assoc. apply (Hs (true :: q) m Hq).
  - intros (E & H0 & H1) [|b q] m Hq.
    + cbn in Hq. injection Hq as <-. by rewrite app_nil_r.
    + replace (base ++ b :: q) with ((base ++ [b]) ++ q) by (by rewrite <- app_assoc). destruct b; [by apply H1 | by apply H0].
Qed.

Fixpoint hashed t : Prop :=
  match t with
  | Null => True
  | Node n c0 c1 => ni_hash (n_node n) = hash_fn (node_input n (child_hash c0) (child_hash c1)) /\ hashed c0 /\ hashed c1
  end.

(** Entries other than the nodes below [base] are as they were, where they were complete. *)
Definition frame base w w' : Prop :=
  forall (ty : htype) i v, key_ok ty i v -> fullV w ty i v -> (ty = TYPE_NODE -> forall q, i <> id_of (base ++ q) - 1) ->
    hview w' ty i v = hview w ty i v.

Lemma frame_refl base w w' : sameV w w' -> frame base w w'.
Proof. intros HS t i v _ _ _. apply HS. Qed.
Lemma frame_trans base w w1 w2 : frame base w w1 -> frame base w1 w2 -> frame base w w2.
Proof.
  intros F1 F2 t i v Hk Hf Hn. rewrite <- (F1 t i v Hk Hf Hn). apply F2; [done | | done].
  unfold fullV in *. by rewrite (F1 t i v Hk Hf Hn).
Qed.
Lemma frame_up base b w w' : frame (base ++ [b]) w w' -> frame base w w'.
Proof. intros F t i v Hk Hf Hn. apply F; [done | done |]. intros Et q. rewrite <- app_assoc. by apply Hn. Qed.

(** A node entry that is there. *)
Lemma stored_full w base (v : bool) ni : id_of base < 2 ^ 32 -> ni_wf ni ->
  hview w TYPE_NODE (id_of base - 1) (Z.b2z v) = ni_bytes ni ->
  key_ok TYPE_NODE (id_of base - 1) (Z.b2z v) /\ fullV w TYPE_NODE (id_of base - 1) (Z.b2z v).
Proof.
  intros Hb Hw E. pose proof (id_of_pos base). split; [split; [unfold max_idx; lia | destruct v; auto] |].
  unfold fullV. by rewrite E, ni_bytes_length.
Qed.

Lemma imgs_wf_at t : imgs_wf t <-> forall q n, node_at t q = Some n -> ni_wf (n_node n).
Proof.
  induction t as [|n c0 IH0 c1 IH1]; [split; [intros _ q n; by rewrite node_at_null | done] |]. cbn. rewrite IH0, IH1. split.
  - intros (Hw & H0 & H1) [|b q] m Hq; [by injection Hq as <- |]. rewrite node_at_cons in Hq. destruct b; eauto.
  - intros HW. split_and!; [by apply (HW []) | intros q m Hq; by apply (HW (false :: q)) | intros q m Hq; by apply (HW (true :: q))].
Qed.
Lemma idok_at base t : idok base t <-> forall q n, node_at t q = Some n -> n_id n = id_of (base ++ q) /\ id_of (base ++ q) < 2 ^ 32.
Proof.
  revert base. induction t as [|n c0 IH0 c1 IH1]; intros base; [split; [intros _ q n; by rewrite node_at_null | done] |].
  cbn. rewrite IH0, IH1. split.
  - intros (Hi & Hb & H0 & H1) [|b q] m Hq; [injection Hq as <-; by rewrite app_nil_r |]. rewrite node_at_cons in Hq.
    replace (base ++ b :: q) with ((base ++ [b]) ++ q) by (by rewrite <- app_assoc). destruct b; eauto.
  - intros HW. destruct (HW [] n eq_refl) as [E1 E2]. rewrite app_nil_r in *. split_and!; [done | done | |].
    + intros q m Hq. rewrite <- app_assoc. apply (HW (false :: q) m Hq).
    + intros q m Hq. rewrite <- app_assoc. apply (HW (true :: q) m Hq).
Qed.

(** A stored tree survives what leaves its entries alone. *)
Lemma stored_keep t base v w w' : imgs_wf t -> idok base t -> stored w base t v ->
  (forall q, is_Some (node_at t q) -> let i := id_of (base ++ q) - 1 in let u := Z.b2z (vers_in t v q) in
     key_ok TYPE_NODE i u -> fullV w TYPE_NODE i u -> hview w' TYPE_NODE i u = hview w TYPE_NODE i u) ->
  stored w' base t v.
Proof.
  intros Hw Hi Hs HF q n Hq. rewrite <- (Hs q n Hq). destruct (proj1 (idok_at base t) Hi q n Hq) as [_ Hb].
  destruct (stored_full w (base ++ q) (vers_in t v q) (n_node n)) as [Hk Hf]; [done | by eapply imgs_wf_at | by apply Hs |].
  apply HF; [by rewrite Hq | done | done].
Qed.

Lemma stored_same t base v w w' : sameV w w' -> stored w base t v -> stored w' base t v.
Proof. intros HS Hs q n Hq. rewrite HS. by apply Hs. Qed.

(** Positions below different children are different nodes. *)
Lemma below_ne base b q q' : id_of ((base ++ [b]) ++ q) - 1 <> id_of ((base ++ [negb b]) ++ q') - 1.
Proof.
  intros E. assert (E' : id_of ((base ++ [b]) ++ q) = id_of ((base ++ [negb b]) ++ q')) by lia.
  apply id_of_inj in E'. rewrite <- !app_assoc in E'. apply app_inv_head in E'. destruct b; done.
Qed.

Lemma stored_frame_other t base b v w w' : imgs_wf t -> idok (base ++ [negb b]) t -> frame (base ++ [b]) w w' ->
  stored w (base ++ [negb b]) t v -> stored w' (base ++ [negb b]) t v.
Proof.
  intros Hw Hi HF Hs. eapply stored_keep; [done.. |]. intros q _ i u Hk Hf. apply HF; [done | done |].
  intros _ q' E. symmetry in E. by apply below_ne in E.
Qed.

(** ** One node *)

(** The parent of the subtree at [base], or none for the root; [v0] is the version of the
    subtree it has committed. *)
Definition pcond (counter : Z) (parent : option htree_node) (b : bool) base (v0 : bool) : Prop :=
  match parent with
  | Some pn => cvers pn b = v0 /\ ni_wf (n_node pn) /\ Z.land (id_of base) 1 = Z.b2z b
  | None => v0 = negb (Z.land counter 1 =? 0)
  end.

Definition node_synced (n : htree_node) (c0 c1 : htree) : htree_node :=
  mkNode (n_id n) false false (ni_set_hash (n_node n) (hash_fn (node_input n (child_hash c0) (child_hash c1)))).

Lemma node_synced_wf n c0 c1 : ni_wf (n_node n) -> ni_wf (n_node (node_synced n c0 c1)).
Proof. intros (_ & H1 & H2 & H3). unfold ni_wf. cbn. split_and!; [apply hash_fn_length | done | done | lia | lia]. Qed.

Lemma sync_node_spec counter parent b base v0 n c0 c1 w : ni_wf (n_node n) -> n_id n = id_of base -> id_of base < 2 ^ 32 ->
  implb (n_block_updated n) (n_dirty n) = true -> pcond counter parent b base v0 ->
  wpx (htree_sync_node_to_storage counter parent n c0 c1) w (fun r w' =>
    if n_dirty n then keepsV TYPE_NODE (id_of base - 1) (Z.b2z (negb v0)) w w' /\
      match r with
      | inl (parent', n1) => parent' = option_map (fun pn => flipc pn b) parent /\ n1 = node_synced n c0 c1 /\
          hview w' TYPE_NODE (id_of base - 1) (Z.b2z (negb v0)) = ni_bytes (n_node n1)
      | inr _ => flaky
      end
    else r = inl (parent, n) /\ w' = w).
Proof.
  intros Hw Hid Hb Himp Hp. unfold htree_sync_node_to_storage. apply wpx_bind, wpx_assert; [done |].
  destruct (n_dirty n) eqn:Ed; cbn [negb]; [| by apply wpx_ret].
  set (pv := match parent with Some p => _ | None => _ end).
  assert (Epv : pv = (option_map (fun pn => flipc pn b) parent, negb v0)).
  { unfold pv. destruct parent as [pn|]; cbn [pcond option_map] in *.
    - destruct Hp as (Hv & Hwp & Hland). rewrite Hid, Hland. f_equal. change (flag_set _ _) with (cvers (flipc pn b) b).
      rewrite flipc_cvers, eqb_reflx by done. by rewrite Hv.
    - by rewrite Hp, negb_involutive. }
  rewrite Epv. apply wpx_bind. eapply wpx_mono; [apply quiet_calc_node_hash |]. cbn beta.
  intros [h|e] w1 [HS HR]; [| split; [by apply sameV_keepsV | done]]. subst h. cbn zeta beta.
  pose proof (id_of_pos base) as Hpos. apply wpx_bind. unfold rpc_write_node. cbn [n_id n_node]. rewrite Hid, u64_small by lia.
  eapply wpx_mono; [apply (write_entry TYPE_NODE (id_of base - 1)) |].
  { split; [unfold max_idx; lia | destruct v0; cbn; auto]. } { pose proof (ni_bytes_length _ (node_synced_wf n c0 c1 Hw)) as L. cbn in L |- *. by rewrite L. }
  cbn beta. intros [[]|e] w2 [HK HR].
  - apply wpx_ret. split; [by eapply sameV_keepsV_trans |]. split_and!; [done | unfold node_synced; by rewrite Hid | done].
  - split; [by eapply sameV_keepsV_trans | done].
Qed.

(** ** The traversal *)

Definition same_info (n n1 : htree_node) : Prop :=
  n_id n1 = n_id n /\ ni_iv (n_node n1) = ni_iv (n_node n) /\ ni_tag (n_node n1) = ni_tag (n_node n) /\ block_vers n1 = block_vers n.
Fixpoint same_blocks t t1 : Prop :=
  match t, t1 with
  | Null, Null => True
  | Node n c0 c1, Node n1 d0 d1 => same_info n n1 /\ same_blocks c0 d0 /\ same_blocks c1 d1
  | _, _ => False
  end.

Lemma same_blocks_idok t : forall base t1, same_blocks t t1 -> idok base t -> idok base t1.
Proof.
  induction t as [|n c0 IH0 c1 IH1]; intros base [|n1 d0 d1]; cbn; try done.
  intros ((-> & _) & H0 & H1) (E & Hb & I0 & I1). auto.
Qed.

(** The root of a tree written back says that the other version of a child is committed
    exactly when the child was written. *)
Definition root_flips t t1 : Prop :=
  match t, t1 with
  | Node n c0 c1, Node n1 _ _ => cvers n1 false = xorb (sdirty c0) (cvers n false) /\ cvers n1 true = xorb (sdirty c1) (cvers n true)
  | _, _ => True
  end.

Definition sync_post base t t0 (v0 : bool) parent b w (r : (option htree_node * htree) + Z) w' : Prop :=
  frame base w w' /\ stored w' base t0 v0 /\
  match r with
  | inl (parent', t1) =>
      parent' = option_map (fun pn => flipc_if (sdirty t) pn b) parent /\ stored w' base t1 (xorb (sdirty t) v0) /\
      hashed t1 /\ imgs_wf t1 /\ clean t1 /\ same_blocks t t1 /\ (sdirty t = false -> child_hash t1 = child_hash t0) /\
      root_flips t t1
  | inr _ => flaky
  end.

(** The node entries of a committed tree survive a write to the other version of its root. *)
Lemma stored_keepsV t0 base v0 w w' : imgs_wf t0 -> idok base t0 -> stored w base t0 v0 ->
  keepsV TYPE_NODE (id_of base - 1) (Z.b2z (negb v0)) w w' -> stored w' base t0 v0.
Proof.
  intros Hw Hi Hs HK. eapply stored_keep; [done.. |]. intros q Hq i u Hk Hf. apply HK; [| done | done].
  intros [= Ei Eu]. assert (Eq : base ++ q = base) by (apply id_of_inj; lia).
  assert (q = []) as -> by (apply (app_inv_head base); by rewrite app_nil_r).
  destruct t0; [by destruct Hq |]. subst u. cbn in Eu. by destruct v0.
Qed.

Lemma stored_child_keepsV t base b v (u : bool) w w' : imgs_wf t -> idok (base ++ [b]) t -> stored w (base ++ [b]) t v ->
  keepsV TYPE_NODE (id_of base - 1) (Z.b2z u) w w' -> stored w' (base ++ [b]) t v.
Proof.
  intros Hw Hi Hs HK. eapply stored_keep; [done.. |]. intros q Hq i x Hk Hf. apply HK; [| done | done].
  intros [= Ei _]. assert (Eq : (base ++ [b]) ++ q = base) by (apply id_of_inj; lia).
  apply (f_equal length) in Eq. rewrite !length_app in Eq. cbn in Eq. lia.
Qed.

Lemma keepsV_frame base w w' u : keepsV TYPE_NODE (id_of base - 1) u w w' -> frame base w w'.
Proof.
  intros HK ty i v Hk Hf Hn. apply HK; [| done | done]. intros [= -> -> ->]. apply (Hn eq_refl []). by rewrite app_nil_r.
Qed.

(** The children of the committed node, none for a new one. *)
Lemma relt_children n c0 c1 t0 : relt (Node n c0 c1) t0 -> relt c0 (child t0 false) /\ relt c1 (child t0 true).
Proof. cbn. intros [_ Hr]. destruct t0 as [|m d0 d1]; cbn; tauto. Qed.
Lemma imgs_wf_child t b : imgs_wf t -> imgs_wf (child t b).
Proof. destruct t as [|n c0 c1]; [done |]. cbn. intros (_ & ? & ?). by destruct b. Qed.
Lemma idok_child base t b : idok base t -> idok (base ++ [b]) (child t b).
Proof. destruct t as [|n c0 c1]; [done |]. cbn. intros (_ & _ & ? & ?). by destruct b. Qed.
Lemma hashed_child t b : hashed t -> hashed (child t b).
Proof. destruct t as [|n c0 c1]; [done |]. cbn. intros (_ & ? & ?). by destruct b. Qed.
Lemma stored_child w base n c0 c1 t0 v b : relt (Node n c0 c1) t0 -> stored w base t0 v ->
  stored w (base ++ [b]) (child t0 b) (cvers n b).
Proof.
  intros [_ Hr] Hs. destruct t0 as [|m d0 d1]; [apply stored_null |]. apply stored_node in Hs as (_ & H0 & H1).
  destruct Hr as (_ & _ & E0 & E1 & _). destruct b; cbn [child]; [by rewrite E1 | by rewrite E0].
Qed.

(** Writes below one child leave the committed tree stored, if they leave the part below it. *)
Lemma stored_join w w' base t0 v n c0 c1 b : relt (Node n c0 c1) t0 -> imgs_wf t0 -> idok base t0 -> stored w base t0 v ->
  frame (base ++ [b]) w w' -> stored w' (base ++ [b]) (child t0 b) (cvers n b) -> stored w' base t0 v.
Proof.
  intros [_ Hr] Hw Hi Hs HF Hb. destruct t0 as [|m d0 d1]; [apply stored_null |]. destruct Hr as (_ & _ & E0 & E1 & _).
  pose proof Hs as (E & H0 & H1)%stored_node. destruct Hw as (Hw & Hw0 & Hw1), Hi as (_ & Hlt & Hi0 & Hi1).
  apply stored_node. split.
  - rewrite <- E. destruct (stored_full w base v (n_node m)) as [Hk Hf]; [done.. |]. apply HF; [done | done |].
    intros _ q Eq. assert (Eq' : base = (base ++ [b]) ++ q) by (apply id_of_inj; lia).
    apply (f_equal length) in Eq'. rewrite !length_app in Eq'. cbn in Eq'. lia.
  - destruct b; cbn [child] in Hb.
    + rewrite E1 in Hb. split; [| done]. by eapply (stored_frame_other d0 base true).
    + rewrite E0 in Hb. split; [done |]. by eapply (stored_frame_other d1 base false).
Qed.

Lemma land_snoc base b : Z.land (id_of (base ++ [b])) 1 = Z.b2z b.
Proof.
  change 1 with (Z.ones 1). rewrite Z.land_ones by lia. change (2 ^ 1) with 2. rewrite id_of_snoc, Z.add_comm, Z.mul_comm, Z.mod_add by lia.
  by destruct b.
Qed.

Lemma flipc_if_info d n b : ni_wf (n_node n) -> same_info n (flipc_if d n b) /\ n_block_updated (flipc_if d n b) = n_block_updated n /\
  n_dirty (flipc_if d n b) = d || n_dirty n.
Proof.
  intros Hw. pose proof (flipc_if_block d n b Hw). destruct d; cbn [flipc_if] in *; split_and!; done.
Qed.

(** The node once its children have been written. *)
Definition flipped (n : htree_node) (c0 c1 : htree) : htree_node := flipc_if (sdirty c1) (flipc_if (sdirty c0) n false) true.

Lemma flipped_facts n c0 c1 : ni_wf (n_node n) -> let f := flipped n c0 c1 in
  ni_wf (n_node f) /\ same_info n f /\ n_block_updated f = n_block_updated n /\ n_dirty f = sdirty (Node n c0 c1) /\
  cvers f false = xorb (sdirty c0) (cvers n false) /\ cvers f true = xorb (sdirty c1) (cvers n true).
Proof.
  intros Hwn. cbn zeta.
  pose proof (flipc_if_wf (sdirty c0) n false Hwn) as Hw1.
  destruct (flipc_if_info (sdirty c0) n false Hwn) as ((I1 & I2 & I3 & I4) & B1 & D1).
  destruct (flipc_if_info (sdirty c1) _ true Hw1) as ((J1 & J2 & J3 & J4) & B2 & D2). unfold flipped.
  split_and!; [by apply flipc_if_wf | split_and!; congruence | congruence | | |].
  - rewrite D2, D1. cbn. destruct (n_dirty n), (sdirty c0), (sdirty c1); done.
  - rewrite flipc_if_cvers, flipc_if_cvers by done. done.
  - rewrite flipc_if_cvers, flipc_if_cvers by done. done.
Qed.

(** A node whose children have been written: [d0] and [d1] for [c0] and [c1]. *)
Section NodeDone.
Context (base : list bool) (t0 : htree) (v0 : bool) (n : htree_node) (c0 c1 d0 d1 : htree) (w w2 : W).
Context (Hr : relt (Node n c0 c1) t0) (Hwn : ni_wf (n_node n)) (Hw0 : imgs_wf t0) (Hi0 : idok base t0) (Hh : hashed t0).
Context (Hi : idok base (Node n c0 c1)) (HF : frame base w w2) (Hst2 : stored w2 base t0 v0).
Context (Hsd0 : stored w2 (base ++ [false]) d0 (xorb (sdirty c0) (cvers n false))).
Context (Hsd1 : stored w2 (base ++ [true]) d1 (xorb (sdirty c1) (cvers n true))).
Context (Hhd0 : hashed d0) (Hhd1 : hashed d1) (Hwd0 : imgs_wf d0) (Hwd1 : imgs_wf d1) (Hcd0 : clean d0) (Hcd1 : clean d1).
Context (Hbd0 : same_blocks c0 d0) (Hbd1 : same_blocks c1 d1).
Context (Hch0 : sdirty c0 = false -> child_hash d0 = child_hash (child t0 false)).
Context (Hch1 : sdirty c1 = false -> child_hash d1 = child_hash (child t0 true)).

Lemma done_dirty parent b w3 : sdirty (Node n c0 c1) = true ->
  keepsV TYPE_NODE (id_of base - 1) (Z.b2z (negb v0)) w2 w3 ->
  hview w3 TYPE_NODE (id_of base - 1) (Z.b2z (negb v0)) = ni_bytes (n_node (node_synced (flipped n c0 c1) d0 d1)) ->
  sync_post base (Node n c0 c1) t0 v0 parent b w (inl (option_map (fun pn => flipc pn b) parent, Node (node_synced (flipped n c0 c1) d0 d1) d0 d1)) w3.
Proof using All.
  intros Hd HK Hv. destruct (flipped_facts n c0 c1 Hwn) as (Hwf & (I1 & I2 & I3 & I4) & _ & _ & E0 & E1).
  pose proof Hi as (_ & _ & Hic0 & Hic1).
  split; [eapply frame_trans; [exact HF | by eapply keepsV_frame] |]. split; [by eapply stored_keepsV |].
  rewrite Hd. split_and!; [done | | | | | | done | by split].
  - rewrite xorb_true_l. apply stored_node. split; [done |].
    change (cvers (node_synced (flipped n c0 c1) d0 d1)) with (cvers (flipped n c0 c1)). rewrite E0, E1.
    split; (eapply stored_child_keepsV; [done | by eapply same_blocks_idok | done | done]).
  - split_and!; done.
  - split_and!; [by apply node_synced_wf | done | done].
  - done.
  - split; [| done]. done.
Qed.

Lemma done_clean parent b : sdirty (Node n c0 c1) = false ->
  sync_post base (Node n c0 c1) t0 v0 parent b w (inl (parent, Node (flipped n c0 c1) d0 d1)) w2.
Proof using All.
  intros Hd. destruct (flipped_facts n c0 c1 Hwn) as (Hwf & HI & Hbu & Hdi & E0 & E1). rewrite Hd in Hdi.
  pose proof Hd as Hd'. cbn in Hd'. apply orb_false_iff in Hd' as [[Hdn Hdc0]%orb_false_iff Hdc1].
  assert (En : flipped n c0 c1 = n) by (unfold flipped; by rewrite Hdc0, Hdc1). rewrite En in *.
  specialize (Hch0 Hdc0). specialize (Hch1 Hdc1).
  destruct t0 as [|m m0 m1]; [destruct Hr as (_ & ? & _); congruence |].
  pose proof Hr as (Hbd & Hnode & _ & V0 & V1 & _). specialize (Hnode Hdn).
  split; [done |]. split; [done |]. rewrite Hd. split_and!; [by destruct parent | | | | | | intros _; cbn; by rewrite Hnode | by split].
  - rewrite xorb_false_l, Hdc0, Hdc1, !xorb_false_l in *. apply stored_node in Hst2 as (E & _). apply stored_node. by rewrite Hnode.
  - split_and!; [| done | done]. pose proof Hh as (Eh & _). rewrite Hnode, Eh, Hch0, Hch1. unfold node_input. by rewrite Hnode.
  - by split_and!.
  - split_and!; [done | congruence | done | done].
  - by split_and!.
Qed.
End NodeDone.

Lemma sync_sub counter t : forall t0 base parent b v0 w, relt t t0 -> imgs_wf t -> imgs_wf t0 -> idok base t -> idok base t0 ->
  stored w base t0 v0 -> hashed t0 -> pcond counter parent b base v0 ->
  wpx (traverse_post_order (htree_sync_node_to_storage counter) parent t) w (sync_post base t t0 v0 parent b w).
Proof.
  induction t as [|n c0 IH0 c1 IH1]; intros t0 base parent b v0 w Hr Hw Hw0 Hi Hi0 Hs Hh Hp; cbn [traverse_post_order].
  { cbn in Hr. subst t0. apply wpx_ret. split; [by apply frame_refl |]. split; [apply stored_null |].
    cbn [sdirty]. split_and!; [by destruct parent | apply stored_null | done..]. }
  pose proof (relt_children _ _ _ _ Hr) as [Hr0 Hr1]. pose proof Hw as (Hwn & Hwc0 & Hwc1). pose proof Hi as (Hid & Hlt & Hic0 & Hic1).
  apply wpx_bind. eapply wpx_mono.
  { apply (IH0 (child t0 false) (base ++ [false]) (Some n) false (cvers n false) w);
      auto using imgs_wf_child, idok_child, hashed_child; [by eapply stored_child |]. split_and!; [done | done | apply land_snoc]. }
  cbn beta. intros r w1 (HF1 & Hs1 & HR1). assert (Hst1 : stored w1 base t0 v0) by (by eapply stored_join).
  destruct r as [[p1 d0]|e]; [| split_and!; [by eapply frame_up | done | done]].
  destruct HR1 as (-> & Hsd0 & Hhd0 & Hwd0 & Hcd0 & Hbd0 & Hch0 & _). cbn [option_map default].
  set (n1 := flipc_if (sdirty c0) n false) in *.
  assert (Hwn1 : ni_wf (n_node n1)) by (by apply flipc_if_wf).
  assert (En1 : cvers n1 true = cvers n true) by (unfold n1; by rewrite flipc_if_cvers by done).
  apply wpx_bind. eapply wpx_mono.
  { apply (IH1 (child t0 true) (base ++ [true]) (Some n1) true (cvers n1 true) w1);
      auto using imgs_wf_child, idok_child, hashed_child; [rewrite En1; by eapply stored_child |].
    split_and!; [done | done | apply land_snoc]. }
  cbn beta. intros r w2 (HF2 & Hs2 & HR2). rewrite En1 in *. assert (Hst2 : stored w2 base t0 v0) by (by eapply stored_join).
  assert (HF : frame base w w2) by (eapply frame_trans; eapply frame_up; done).
  destruct r as [[p2 d1]|e]; [| by split_and!].
  destruct HR2 as (-> & Hsd1 & Hhd1 & Hwd1 & Hcd1 & Hbd1 & Hch1 & _). cbn [option_map default].
  assert (Hid0 : idok (base ++ [false]) d0) by (by eapply same_blocks_idok).
  assert (Hid1 : idok (base ++ [true]) d1) by (by eapply same_blocks_idok).
  assert (Hsd0' : stored w2 (base ++ [false]) d0 (xorb (sdirty c0) (cvers n false))) by (by eapply (stored_frame_other d0 base true)).
  set (n2 := flipc_if (sdirty c1) n1 true) in *.

  destruct (flipped_facts n c0 c1 Hwn) as (Hwf & (Hidf & _) & Hbuf & Hdf & _). change (flipped n c0 c1) with n2 in Hwf, Hidf, Hbuf, Hdf.
  apply wpx_bind. eapply wpx_mono.
  { apply (sync_node_spec counter parent b base v0 n2 d0 d1 w2); [done | congruence | done | | done].
    destruct Hr as [Ebd _]. rewrite Hbuf, Hdf, <- Ebd. cbn.
    by destruct (n_dirty n). }
  cbn beta. rewrite Hdf. intros r w3 HR. destruct (sdirty (Node n c0 c1)) eqn:Hd.
  - destruct HR as [HK HR]. destruct r as [[parent' n3]|e].
    + destruct HR as (-> & -> & Hv). apply wpx_ret. by eapply (done_dirty base t0 v0 n c0 c1 d0 d1 w w2).
    + split_and!; [eapply frame_trans; [exact HF | by eapply keepsV_frame] | by eapply stored_keepsV | done].
  - destruct HR as [-> ->]. apply wpx_ret. by eapply (done_clean base t0 v0 n c0 c1 d0 d1 w w2).
Qed.

End Stored.
