(* ===== verification/HtreeCommit.v ===== *)
(** * Committing the tree: what is on the storage

    [committed w sn] says that the storage holds the tree [sn] (as opening it gives it), its
    header included.  [hinv w ht osn] is the invariant of an open tree [ht] over the version
    [osn] last committed, if any.  Writing blocks leaves the committed version as it is; so does
    writing the tree back, which adds the new version beside it. *)

From stdpp Require Import base numbers list.
From S2P Require Import Prelude SkTypes FsCore Dirfile Htree HtreeShape HtreeLaws HtreeBlocks HtreeSync.

(** ** The tree in memory and the committed one, node by node *)

Definition rel_node (n : option htree_node) (m : option htree_node) : Prop :=
  match n, m with
  | None, None => True
  | None, Some _ => False
  | Some n, None => n_dirty n = n_block_updated n /\ n_dirty n = true
  | Some n, Some m => n_dirty n = n_block_updated n /\ (n_dirty n = false -> n_node n = n_node m) /\
      (n_dirty n = true -> block_vers n = 1 - block_vers m) /\ cvers n false = cvers m false /\ cvers n true = cvers m true
  end.

Lemma relt_at t : forall t0, relt t t0 <-> forall q, rel_node (node_at t q) (node_at t0 q).
Proof.
  induction t as [|n c0 IH0 c1 IH1]; intros t0.
  - cbn. split; [intros -> q; by rewrite node_at_null |]. intros HR. specialize (HR []). by destruct t0.
  - destruct t0 as [|m d0 d1]; cbn [relt]; rewrite ?IH0, ?IH1.
    + split.
      * intros (E & Hd & H0 & H1) [|b q]; [done |]. rewrite !node_at_cons. destruct b; [apply H1 | apply H0].
      * intros HR. destruct (HR []) as [E Hd]. split_and!; [done | done | |];
          intros q; [apply (HR (false :: q)) | apply (HR (true :: q))].
    + split.
      * intros (E & H1 & H2 & H3 & H4 & R0 & R1) [|b q]; [done |]. rewrite !node_at_cons. destruct b; [apply R1 | apply R0].
      * intros HR. destruct (HR []) as (E & H1 & H2 & H3 & H4). split_and!; try done;
          intros q; [apply (HR (false :: q)) | apply (HR (true :: q))].
Qed.

Lemma sdirty_at t : sdirty t = true <-> exists q n, node_at t q = Some n /\ n_dirty n = true.
Proof.
  induction t as [|n c0 IH0 c1 IH1]; cbn; [split; [done |]; intros (q & n & Hn & _); by rewrite node_at_null in Hn |].
  rewrite !orb_true_iff, IH0, IH1. split.
  - intros [[Hd | (q & m & Hm)] | (q & m & Hm)]; [by exists [], n | by exists (false :: q), m | by exists (true :: q), m].
  - intros ([|b q] & m & Hm & Hd); [left; left; by injection Hm as -> |]. rewrite node_at_cons in Hm.
    destruct b; [right | left; right]; by exists q, m.
Qed.

Lemma clean_at t : clean t <-> forall q n, node_at t q = Some n -> n_dirty n = false /\ n_block_updated n = false.
Proof.
  induction t as [|n c0 IH0 c1 IH1]; cbn; [split; [intros _ q n; by rewrite node_at_null | done] |]. rewrite IH0, IH1. split.
  - intros (H1 & H2 & H3 & H4) [|b q] m Hm; [by injection Hm as <- |]. rewrite node_at_cons in Hm. destruct b; eauto.
  - intros HC. destruct (HC [] n eq_refl). split_and!; [done | done | |]; intros q; [apply (HC (false :: q)) | apply (HC (true :: q))].
Qed.

Section WrittenNode.
Context (n : htree_node) (iv tag : list Z) (Hf : 0 <= ni_flags (n_node n) < 2 ^ 16).
Lemma flags_written_bit j : 0 <= j -> Z.testbit (flags_written n) j =
  if negb (n_block_updated n) && (j =? 0) then negb (Z.testbit (ni_flags (n_node n)) j) else Z.testbit (ni_flags (n_node n)) j.
Proof using Hf.
  intros Hj. unfold flags_written, HTREE_NODE_COMMITTED_BLOCK. destruct (n_block_updated n); [done |]. cbn [negb andb].
  apply flip_bit; [done | lia | done].
Qed.
Lemma written_cvers b : cvers (node_written iv tag n) b = cvers n b.
Proof using Hf.
  rewrite !cvers_bit. cbn [node_written n_node ni_flags]. rewrite flags_written_bit by (destruct b; cbn; lia).
  destruct b; cbn [Z.b2z]; by rewrite andb_false_r.
Qed.
Lemma vers_written_bit : vers_written n = Z.b2z (if n_block_updated n then Z.testbit (ni_flags (n_node n)) 0 else negb (Z.testbit (ni_flags (n_node n)) 0)).
Proof using Hf.
  unfold vers_written, HTREE_NODE_COMMITTED_BLOCK. rewrite flag_set_bit, flags_written_bit by lia. by destruct (n_block_updated n).
Qed.
End WrittenNode.

(** A write goes to the version of the block that is not committed. *)
Lemma written_rel n m iv tag : 0 <= ni_flags (n_node n) < 2 ^ 16 -> rel_node (Some n) (Some m) ->
  rel_node (Some (node_written iv tag n)) (Some m) /\ vers_written n = 1 - block_vers m.
Proof.
  intros Hf (E & H1 & H2 & H3 & H4).
  assert (Ev : vers_written n = 1 - block_vers m).
  { rewrite (vers_written_bit n Hf), block_vers_bit. rewrite <- E. destruct (n_dirty n) eqn:Ed.
    - specialize (H2 eq_refl). rewrite !block_vers_bit in H2. done.
    - rewrite (H1 eq_refl). by destruct (Z.testbit _ 0). }
  split; [| done]. cbn [rel_node]. rewrite !written_cvers by done. split_and!; try done.
Qed.

Lemma b2z_01 b : Z.b2z b = 0 \/ Z.b2z b = 1.
Proof. destruct b; auto. Qed.

Section Commit.
Context {W : Type} `{HtreeLaws W}.
Implicit Types (w : W) (ht sn : tee_fs_htree).

(** The version in which the header and the root node of a tree are stored. *)
Definition head_vers (h : image) : bool := negb (Z.land (hd_counter h) 1 =? 0).

Record committed w sn : Prop := {
  cm_ok : ht_ok sn;
  cm_clean : clean (ht_root sn);
  cm_dirty : ht_dirty sn = false;
  cm_hashed : hashed (ht_root sn);
  cm_stored : stored w [] (ht_root sn) (head_vers (ht_head sn));
  cm_head : hview w TYPE_HEAD 0 (Z.b2z (head_vers (ht_head sn))) = image_bytes (ht_head sn);
  cm_seal : aead_open (ht_fek sn) (hd_iv (ht_head sn)) (head_aad sn (hd_iv (ht_head sn))) (hd_imeta (ht_head sn)) (hd_tag (ht_head sn)) =
            Some (imeta_bytes (ht_imeta sn));
  cm_fek : fek_dec (ht_uuid sn) (hd_enc_fek (ht_head sn)) = ht_fek sn }.

(** The committed tree below [osn], none before the first commit. *)
Definition old_root (osn : option tee_fs_htree) : htree := match osn with Some sn => ht_root sn | None => Null end.

(** An open tree over the version last committed: the same key and header, and every node
    related.  Something is dirty exactly when the tree says so. *)
Record hinv w ht (osn : option tee_fs_htree) : Prop := {
  hi_ok : ht_ok ht;
  hi_rel : relt (ht_root ht) (old_root osn);
  hi_dirty : ht_dirty ht = sdirty (ht_root ht);
  hi_fek : fek_dec (ht_uuid ht) (hd_enc_fek (ht_head ht)) = ht_fek ht;
  hi_old : match osn with
           | Some sn => committed w sn /\ ht_head ht = ht_head sn /\ ht_fek ht = ht_fek sn /\ ht_uuid ht = ht_uuid sn
           | None => True
           end }.

(** What an operation leaves of the committed version: the tree and its blocks. *)
Definition old_kept w w' (osn : option tee_fs_htree) : Prop :=
  match osn with
  | Some sn => committed w' sn /\ forall k b, 0 <= k -> block_of w sn k = Some b -> block_of w' sn k = Some b
  | None => True
  end.

Lemma ht_idok ht : ht_shape ht -> idok [] (ht_root ht).
Proof.
  intros [Hw HM]. apply idok_at. intros q n Hq. cbn [app]. destruct (Hw q) as [H1 H2]. split; [by apply H2 |].
  assert (id_of q <= nodes_of ht) by (apply H1; by rewrite Hq). unfold UINT_MAX in *. lia.
Qed.
Lemma ht_imgs ht : ht_ok ht -> imgs_wf (ht_root ht).
Proof. intros HO. apply imgs_wf_at, HO. Qed.

Lemma committed_keep w w' sn : committed w sn ->
  (forall ty i v, ty <> TYPE_BLOCK -> key_ok ty i v -> fullV w ty i v -> hview w' ty i v = hview w ty i v) -> committed w' sn.
Proof.
  intros HC HK. destruct HC as [HO Hc Hd Hh Hs Hhd Hse Hf]. split; try done.
  - eapply stored_keep; [by apply ht_imgs | apply ht_idok, HO | done |]. intros q _ i u Hk Hfu. by apply HK.
  - rewrite <- Hhd. apply HK; [done | split; [unfold max_idx; lia | apply b2z_01] |].
    unfold fullV. rewrite Hhd, image_bytes_length; [done | apply HO].
Qed.

Lemma node_block_bound ht k n : ht_shape ht -> 0 <= k -> node_at (ht_root ht) (path_of (k + 1)) = Some n -> k + 1 < UINT_MAX - 1.
Proof.
  intros [Hw HM] Hk Hn. pose proof (id_path (k + 1) ltac:(lia)) as E. destruct (Hw (path_of (k + 1))) as [H1 _].
  assert (id_of (path_of (k + 1)) <= nodes_of ht) by (apply H1; by rewrite Hn). lia.
Qed.

(** Blocks of a tree survive what leaves their entries alone. *)
Lemma block_of_keep w w' sn k b : ht_shape sn -> 0 <= k ->
  (forall n, node_at (ht_root sn) (path_of (k + 1)) = Some n -> key_ok TYPE_BLOCK k (block_vers n) ->
     fullV w TYPE_BLOCK k (block_vers n) -> hview w' TYPE_BLOCK k (block_vers n) = hview w TYPE_BLOCK k (block_vers n)) ->
  block_of w sn k = Some b -> block_of w' sn k = Some b.
Proof.
  intros HS Hk HF. unfold block_of. destruct (node_at _ _) as [n|] eqn:En; [| done]. intros Hb.
  pose proof (open_block_full _ _ _ _ _ Hb) as Hf. pose proof (node_block_bound _ _ _ HS Hk En).
  unfold open_block in *. rewrite HF; [done | done | split; [unfold max_idx, UINT_MAX in *; lia | apply block_vers_01] | done].
Qed.

Lemma old_kept_same w w' ht osn : hinv w ht osn -> sameV w w' -> old_kept w w' osn.
Proof.
  intros HI HS. destruct osn as [sn|]; [| done]. destruct (hi_old _ _ _ HI) as (HC & _). split.
  - eapply committed_keep; [done |]. intros. apply HS.
  - intros k b Hk. apply block_of_keep; [apply HC | done |]. intros. apply HS.
Qed.

(** ** Writing a block *)

Lemma rel_node_new ht osn p : relt (ht_root ht) (old_root osn) -> node_at (ht_root ht) p = None -> node_at (old_root osn) p = None.
Proof. intros HR Hn. pose proof (proj1 (relt_at _ _) HR p) as Hq. rewrite Hn in Hq. by destruct (node_at (old_root osn) p). Qed.

(** The write leaves the committed version alone. *)
Lemma write_old_kept w w' ht osn num : hinv w ht osn -> 0 <= num -> keepsV TYPE_BLOCK num (wvers ht num) w w' -> old_kept w w' osn.
Proof.
  intros HI Hn HK. destruct osn as [sn|]; [| done]. destruct (hi_old _ _ _ HI) as (HC & _). split.
  - eapply committed_keep; [done |]. intros ty i v Hty Hk Hf. apply HK; [| done | done]. by intros [= -> _ _].
  - intros k b Hk. apply block_of_keep; [apply HC | done |]. intros m Hm Hko Hfu. apply HK; [| done | done].
    intros [= -> Ev]. pose proof (proj1 (relt_at _ _) (hi_rel _ _ _ HI) (path_of (num + 1))) as HR. cbn [old_root] in HR.
    rewrite Hm in HR. unfold wvers in Ev. destruct (node_at (ht_root ht) (path_of (num + 1))) as [n|] eqn:En; [| done].
    destruct (written_rel n m [] [] (proj2 (proj2 (proj2 (ho_nodes _ (hi_ok _ _ _ HI) _ _ En)))) HR) as [_ E].
    rewrite E in Ev. destruct (block_vers_01 m); lia.
Qed.

Lemma node_written_wf n iv tag : ni_wf (n_node n) -> length iv = 16%nat -> length tag = 16%nat -> ni_wf (n_node (node_written iv tag n)).
Proof.
  intros (L1 & L2 & L3 & Hf) Hi Ht. unfold ni_wf. cbn [node_written n_node ni_hash ni_iv ni_tag ni_flags]. split_and!; try done;
    unfold flags_written; destruct (n_block_updated n); try lia; apply u16_bound.
Qed.

(** The nodes of the tree after a write at most one past the end. *)
Lemma written_at ht num ht1 iv tag : ht_shape ht -> 0 <= num <= nodes_of ht -> with_node ht num ht1 ->
  let p := path_of (num + 1) in
  exists n, (node_at (ht_root ht) p = Some n \/ node_at (ht_root ht) p = None /\ n = new_node (num + 1)) /\
    forall q, node_at (ht_root (ht_written ht1 p iv tag)) q = if decide (q = p) then Some (node_written iv tag n) else node_at (ht_root ht) q.
Proof.
  intros HS Hn [HS1 Hw] p. pose proof (id_path (num + 1) ltac:(lia)) as Eid. fold p in Eid.
  destruct (decide (num + 1 <= nodes_of ht)) as [Hle|Hgt].
  - subst ht1. destruct (wft_at _ _ p (proj1 HS)) as (n & Hnode & _); [lia |]. exists n. split; [by left |].
    intros q. rewrite ht_written_at. destruct (decide (q = p)) as [-> |]; [by rewrite Hnode | done].
  - destruct Hw as (t' & -> & Hg & _). exists (new_node (num + 1)). split.
    + right. split; [| done]. eapply wft_none; [apply HS | lia].
    + intros q. rewrite ht_written_at. cbn [ht_root grow_to set_imeta set_root]. rewrite (Hg q).
      destruct (decide (q = p)) as [-> | Hq].
      * rewrite decide_False, decide_True, Eid by lia. done.
      * destruct (decide (id_of q <= nodes_of ht)); [done |]. rewrite decide_False.
        -- symmetry. eapply wft_none; [apply HS | lia].
        -- intros ?. apply Hq, id_of_inj. lia.
Qed.

Lemma with_node_same ht num ht1 : with_node ht num ht1 ->
  ht_head ht1 = ht_head ht /\ ht_fek ht1 = ht_fek ht /\ ht_uuid ht1 = ht_uuid ht /\ im_length (ht_imeta ht1) = im_length (ht_imeta ht).
Proof. intros [_ Hw]. destruct (decide _); [by subst ht1 |]. by destruct Hw as (t' & -> & _). Qed.

Lemma write_ok ht num ht1 iv tag : ht_ok ht -> 0 <= num <= nodes_of ht -> num + 1 < UINT_MAX - 1 -> with_node ht num ht1 ->
  length iv = 16%nat -> length tag = 16%nat -> ht_ok (ht_written ht1 (path_of (num + 1)) iv tag).
Proof.
  intros HO Hn HU Hwn Hi Ht. destruct (written_at ht num ht1 iv tag (ho_shape _ HO) Hn Hwn) as (n & Hnode & Hat).
  pose proof (with_node_same _ _ _ Hwn) as (Eh & _ & _ & El). split.
  - destruct Hwn as [HS1 _]. destruct HS1 as [Hw1 HM1]. split; [| done]. apply wft_upd; [done |]. by intros [].
  - intros q m Hq. rewrite Hat in Hq. destruct (decide (q = _)); [| by eapply (ho_nodes _ HO)].
    injection Hq as <-. apply node_written_wf; [| done | done]. destruct Hnode as [Hnode | [_ ->]]; [by eapply (ho_nodes _ HO) |].
    cbn. unfold ni_wf. cbn. split_and!; (done || lia).
  - cbn. rewrite Eh. apply HO.
  - destruct (ho_imeta _ HO) as [H1 H2]. split; cbn; [by rewrite El |]. destruct Hwn as [_ Hwn].
    destruct (decide _); [by subst ht1 |]. destruct Hwn as (t' & -> & _). cbn. unfold UINT_MAX in *. lia.
Qed.

Lemma write_hinv w w' ht osn num ht1 iv tag : hinv w ht osn -> 0 <= num <= nodes_of ht -> num + 1 < UINT_MAX - 1 ->
  with_node ht num ht1 -> length iv = 16%nat -> length tag = 16%nat -> old_kept w w' osn ->
  hinv w' (ht_written ht1 (path_of (num + 1)) iv tag) osn.
Proof.
  intros HI Hn HU Hwn Hi Ht HK. pose proof (hi_ok _ _ _ HI) as HO.
  destruct (written_at ht num ht1 iv tag (ho_shape _ HO) Hn Hwn) as (n & Hnode & Hat).
  pose proof (with_node_same _ _ _ Hwn) as (Eh & Ef & Eu & El). set (ht' := ht_written ht1 _ iv tag) in *.
  assert (Hp : node_at (ht_root ht') (path_of (num + 1)) = Some (node_written iv tag n)) by (rewrite Hat; by rewrite decide_True).
  split.
  - by apply (write_ok ht num ht1).
  - apply relt_at. intros q. rewrite Hat. pose proof (proj1 (relt_at _ _) (hi_rel _ _ _ HI) q) as HR.
    destruct (decide (q = path_of (num + 1))) as [-> |]; [| done].
    destruct Hnode as [Hnode | [Hnone ->]].
    + rewrite Hnode in HR. destruct (node_at (old_root osn) (path_of (num + 1))) as [m|]; [| done].
      eapply written_rel; [apply (ho_nodes _ HO _ _ Hnode) | done].
    + rewrite Hnone in HR. by destruct (node_at (old_root osn) (path_of (num + 1))).
  - cbn [ht_dirty ht' ht_written set_ht_dirty]. symmetry. apply sdirty_at. by eexists _, _.
  - cbn. by rewrite Eu, Eh, Ef, (hi_fek _ _ _ HI).
  - destruct osn as [sn|]; [| done]. destruct HK as [HC _]. destruct (hi_old _ _ _ HI) as (_ & E1 & E2 & E3).
    cbn. rewrite Eh, Ef, Eu. done.
Qed.

(** The first block of a new file. *)
Definition fresh ht : Prop :=
  ht_ok ht /\ nodes_of ht = 1 /\ fek_dec (ht_uuid ht) (hd_enc_fek (ht_head ht)) = ht_fek ht.
Lemma write_fresh w' ht ht1 iv tag : fresh ht -> with_node ht 0 ht1 -> length iv = 16%nat -> length tag = 16%nat ->
  hinv w' (ht_written ht1 (path_of 1) iv tag) None.
Proof.
  intros (HO & H1 & Hf) Hwn Hi Ht.
  destruct (written_at ht 0 ht1 iv tag (ho_shape _ HO) ltac:(lia) Hwn) as (n & Hnode & Hat). change (0 + 1) with 1 in *.
  pose proof (with_node_same _ _ _ Hwn) as (Eh & Ef & Eu & El). set (ht' := ht_written ht1 _ iv tag) in *.
  assert (Hp : node_at (ht_root ht') (path_of 1) = Some (node_written iv tag n)) by (rewrite Hat; by rewrite decide_True).
  split; [| | | | done].
  - apply (write_ok ht 0); [done | lia | unfold UINT_MAX; lia | done | done | done].
  - apply relt_at. intros q. rewrite Hat. cbn [old_root]. rewrite node_at_null.
    destruct (decide (q = path_of 1)) as [-> | Hq]; [done |].
    rewrite (wft_none _ _ q (proj1 (ho_shape _ HO))); [exact I |]. rewrite H1. pose proof (id_of_pos q).
    destruct (decide (id_of q = 1)); [| lia]. destruct Hq. apply id_of_inj. by rewrite id_path by lia.
  - cbn [ht_dirty ht' ht_written set_ht_dirty]. symmetry. apply sdirty_at. by eexists _, _.
  - cbn. by rewrite Eu, Eh, Ef.
Qed.

(** ** Writing the tree back *)

Lemma same_blocks_at t : forall t1 q, same_blocks t t1 ->
  match node_at t q, node_at t1 q with Some n, Some n1 => same_info n n1 | None, None => True | _, _ => False end.
Proof.
  induction t as [|n c0 IH0 c1 IH1]; intros [|n1 d0 d1] q; cbn [same_blocks]; try done; [by rewrite node_at_null |].
  intros (HI & H0 & H1). destruct q as [|b q]; [done |]. rewrite !node_at_cons. destruct b; [by apply IH1 | by apply IH0].
Qed.
Lemma same_blocks_wft t t1 m : same_blocks t t1 -> wft t m -> wft t1 m.
Proof.
  intros HB Hw. eapply wft_same; [exact Hw |]. intros q. pose proof (same_blocks_at t t1 q HB) as HQ.
  destruct (node_at t q), (node_at t1 q); cbn; try done. by destruct HQ as (-> & _).
Qed.

(** The traversal, over the whole tree. *)
Lemma sync_traverse w ht osn : hinv w ht osn ->
  wpx (htree_traverse_post_order (htree_sync_node_to_storage (hd_counter (ht_head ht))) (ht_root ht)) w (fun r w' =>
    frame [] w w' /\ stored w' [] (old_root osn) (head_vers (ht_head ht)) /\
    match r with
    | inl t1 => stored w' [] t1 (xorb (sdirty (ht_root ht)) (head_vers (ht_head ht))) /\
        hashed t1 /\ imgs_wf t1 /\ clean t1 /\ same_blocks (ht_root ht) t1 /\ root_flips (ht_root ht) t1
    | inr _ => flaky
    end).
Proof.
  intros HI. unfold htree_traverse_post_order. apply wpx_bind.
  assert (HT : imgs_wf (old_root osn) /\ idok [] (old_root osn) /\ stored w [] (old_root osn) (head_vers (ht_head ht)) /\ hashed (old_root osn)).
  { pose proof (hi_old _ _ _ HI) as HO. destruct osn as [sn|]; cbn [old_root].
    - destruct HO as ([HO _ _ Hh Hs _ _ _] & -> & _). split_and!; [by apply ht_imgs | apply ht_idok, HO | done | done].
    - split_and!; try done. apply stored_null. }
  destruct HT as (Hw0 & Hi0 & Hs0 & Hh0).
  eapply wpx_mono; [apply (sync_sub _ _ (old_root osn) [] None false (head_vers (ht_head ht))) |].
  - apply HI. - apply ht_imgs, HI. - done. - apply ht_idok, HI. - done. - done. - done. - done.
  - cbn beta. intros r w' (HF & Hs & HR). destruct r as [[p t1]|e]; [apply wpx_ret |].
    + destruct HR as (_ & Hst & Hh & Hw & Hc & Hb & _ & Hfl). by split_and!.
    + by split_and!.
Qed.

Lemma land1_b2z c : Z.land c 1 = Z.b2z (negb (Z.land c 1 =? 0)).
Proof.
  change 1 with (Z.ones 1). rewrite Z.land_ones by lia. change (2 ^ 1) with 2. pose proof (Z.mod_pos_bound c 2).
  destruct (Z.eqb_spec (c mod 2) 0); cbn; lia.
Qed.
Lemma counter_flip c : 0 <= c < 2 ^ 32 -> negb (Z.land (u32 (c + 1)) 1 =? 0) = negb (negb (Z.land c 1 =? 0)).
Proof.
  intros Hc. change 1 with (Z.ones 1) at 2 3. rewrite !Z.land_ones by lia. change (2 ^ 1) with 2. unfold u32.
  destruct (decide (c = 2 ^ 32 - 1)) as [-> |]; [done |]. rewrite (Z.mod_small (c + 1)) by lia.
  pose proof (Z.mod_pos_bound c 2). pose proof (Z.mod_pos_bound (c + 1) 2). pose proof (Z.div_mod c 2). pose proof (Z.div_mod (c + 1) 2).
  destruct (Z.eqb_spec ((c + 1) mod 2) 0), (Z.eqb_spec (c mod 2) 0); cbn; lia.
Qed.

(** The header of the new version. *)
Definition next_head ht (iv : list Z) : image :=
  let h := hd_set_counter (ht_head ht) (u32 (hd_counter (ht_head ht) + 1)) in
  let seal := aead_seal (ht_fek ht) iv (head_aad (set_head ht h) iv) (imeta_bytes (ht_imeta ht)) in
  mkImage iv (snd seal) (hd_enc_fek (ht_head ht)) (fst seal) (hd_counter h).

Lemma update_root_spec w ht : is_Some (node_at (ht_root ht) []) ->
  quietT update_root (w, ht) (fun _ ht' => exists iv, length iv = 16%nat /\ ht' = set_head ht (next_head ht iv)).
Proof.
  intros Hr. unfold update_root. eapply quietT_bind; [apply quietT_upd |]. cbn beta. intros _ s1 _ E1. cbn [snd] in E1.
  eapply quietT_bind; [apply (quietT_init_enc None SIZEOF_IMETA s1); [by eexists | by rewrite E1] |]. cbn beta.
  intros c s2 _ (iv & Hiv & E2 & Hc). rewrite E1 in *. cbn [aad_of with_iv] in *.
  eapply quietT_bind; [apply quietT_get |]. cbn beta. intros ? s3 _ [-> E3]. rewrite E2 in *.
  eapply quietT_bind; [eapply quietT_onW, quiet_encrypt; [exact Hc | by rewrite imeta_bytes_length] |].
  cbn beta. intros [ct tag] s4 _ [Eseal E4]. eapply quietT_mono; [apply quietT_upd |]. cbn beta. intros _ ht' ->.
  exists iv. split; [done |]. rewrite E4, E3. unfold next_head. cbn in *.
  change (head_aad _ iv) with (head_aad (set_head ht (hd_set_counter (ht_head ht) (u32 (hd_counter (ht_head ht) + 1)))) iv) in Eseal.
  rewrite <- Eseal. done.
Qed.

Lemma next_head_wf ht iv : head_wf (ht_head ht) -> length iv = 16%nat -> head_wf (next_head ht iv).
Proof.
  intros (_ & _ & L3 & _ & _) Hi. unfold next_head, head_wf. cbn.
  set (seal := aead_seal _ _ _ _). pose proof (aead_seal_length (ht_fek ht) iv (head_aad (set_head ht (hd_set_counter (ht_head ht) (u32 (hd_counter (ht_head ht) + 1)))) iv) (imeta_bytes (ht_imeta ht))) as [S1 S2].
  fold seal in S1, S2. rewrite imeta_bytes_length in S1. pose proof (u32_bound (hd_counter (ht_head ht) + 1)). split_and!; (done || lia).
Qed.

Lemma next_head_vers ht iv : head_wf (ht_head ht) -> head_vers (next_head ht iv) = negb (head_vers (ht_head ht)).
Proof. intros (_ & _ & _ & _ & Hc). unfold head_vers, next_head. cbn [hd_counter hd_set_counter]. by rewrite counter_flip. Qed.

(** A committed version survives a write of node entries that leaves its own, and of the
    other header. *)
Lemma committed_nodes w w' sn : committed w sn -> frame [] w w' -> stored w' [] (ht_root sn) (head_vers (ht_head sn)) -> committed w' sn.
Proof.
  intros HC HF Hs. destruct HC as [HO Hc Hd Hh _ Hhd Hse Hf]. split; try done.
  rewrite <- Hhd. apply HF; [split; [unfold max_idx; lia | apply b2z_01] | | done].
  unfold fullV. rewrite Hhd, image_bytes_length; [done | apply HO].
Qed.

Lemma old_nodes w w' ht osn : hinv w ht osn -> frame [] w w' -> stored w' [] (old_root osn) (head_vers (ht_head ht)) -> old_kept w w' osn.
Proof.
  intros HI HF Hs. destruct osn as [sn|]; [| done]. destruct (hi_old _ _ _ HI) as (HC & Eh & _). rewrite Eh in Hs. split.
  - by eapply committed_nodes.
  - intros k b Hk. apply block_of_keep; [apply HC | done |]. intros n _ Hko Hf. by apply HF.
Qed.

Lemma old_kept_trans w w1 w2 osn : old_kept w w1 osn -> old_kept w1 w2 osn -> old_kept w w2 osn.
Proof. destruct osn as [sn|]; [| done]. intros [_ B1] [C2 B2]. split; [done |]. eauto. Qed.

Lemma old_head w0 w w' ht osn v : hinv w0 ht osn -> old_kept w w osn -> keepsV TYPE_HEAD 0 (Z.b2z v) w w' ->
  v = negb (head_vers (ht_head ht)) -> old_kept w w' osn.
Proof.
  intros HI HK0 HK Ev. destruct osn as [sn|]; [| done]. destruct HK0 as [HC _]. destruct (hi_old _ _ _ HI) as (_ & Eh & _). split.
  - destruct HC as [HO Hc Hd Hh Hs Hhd Hse Hf]. split; try done.
    + eapply stored_keep; [by apply ht_imgs | apply ht_idok, HO | done |]. intros q _ i u Hk Hfu. by apply HK.
    + rewrite <- Hhd. apply HK; [| split; [unfold max_idx; lia | apply b2z_01] |].
      * rewrite Ev, Eh. intros [= E]. by destruct (head_vers (ht_head sn)).
      * unfold fullV. rewrite Hhd, image_bytes_length; [done | apply HO].
  - intros k b Hk. apply block_of_keep; [apply HC | done |]. intros n _ Hko Hf. by apply HK.
Qed.

(** The tree once it is written back. *)
Definition ht_synced ht (t1 : htree) (iv : list Z) : tee_fs_htree :=
  set_ht_dirty (set_head (set_root ht t1) (next_head (set_root ht t1) iv)) false.

Lemma synced_ok ht t1 iv : ht_ok ht -> same_blocks (ht_root ht) t1 -> imgs_wf t1 -> length iv = 16%nat -> ht_ok (ht_synced ht t1 iv).
Proof.
  intros HO HB Hw Hi. destruct (ho_shape _ HO) as [Hs HM]. split.
  - split; [by eapply same_blocks_wft | done].
  - apply imgs_wf_at, Hw.
  - apply next_head_wf; [apply HO | done].
  - apply HO.
Qed.

(** Blocks are those of the tree before. *)
Lemma synced_blocks w w' ht t1 iv k b : ht_shape ht -> 0 <= k -> same_blocks (ht_root ht) t1 ->
  (forall i v, key_ok TYPE_BLOCK i v -> fullV w TYPE_BLOCK i v -> hview w' TYPE_BLOCK i v = hview w TYPE_BLOCK i v) ->
  block_of w ht k = Some b -> block_of w' (ht_synced ht t1 iv) k = Some b.
Proof.
  intros HS Hk HB HF. unfold block_of. cbn [ht_root ht_synced set_ht_dirty set_head set_root].
  pose proof (same_blocks_at _ t1 (path_of (k + 1)) HB) as HI.
  destruct (node_at (ht_root ht) (path_of (k + 1))) as [n|] eqn:En; [| done].
  destruct (node_at t1 (path_of (k + 1))) as [n1|]; [| done]. destruct HI as (_ & E1 & E2 & E3). intros Hb.
  pose proof (open_block_full _ _ _ _ _ Hb) as Hf. pose proof (node_block_bound _ _ _ HS Hk En).
  unfold open_block in *. rewrite E1, E2, E3, HF; [done | split; [unfold max_idx, UINT_MAX in *; lia | apply block_vers_01] | done].
Qed.

Lemma synced_committed w ht t1 iv v : ht_ok ht -> fek_dec (ht_uuid ht) (hd_enc_fek (ht_head ht)) = ht_fek ht ->
  same_blocks (ht_root ht) t1 -> imgs_wf t1 -> clean t1 -> hashed t1 -> length iv = 16%nat ->
  v = head_vers (next_head (set_root ht t1) iv) -> stored w [] t1 v ->
  hview w TYPE_HEAD 0 (Z.b2z v) = image_bytes (next_head (set_root ht t1) iv) -> committed w (ht_synced ht t1 iv).
Proof.
  intros HO Hf HB Hw Hc Hh Hi -> Hs Hhd. split; try done; [by apply synced_ok |].
  cbn [ht_synced set_ht_dirty ht_fek ht_head set_head set_root ht_imeta hd_iv hd_imeta hd_tag next_head].
  change (head_aad _ iv) with (head_aad (set_head (set_root ht t1) (hd_set_counter (ht_head ht) (u32 (hd_counter (ht_head ht) + 1)))) iv).
  apply aead_open_seal.
Qed.

(** The result of writing a tree back: the old version is kept; on success the new one is
    committed too, with the same blocks. *)
Definition sync_result w ht osn (r : list Z + Z) w' ht' : Prop :=
  old_kept w w' osn /\
  match r with
  | inl h => committed w' ht' /\ h = root_hash (ht_root ht') /\ head_vers (ht_head ht') = negb (head_vers (ht_head ht)) /\
      nodes_of ht' = nodes_of ht /\ ht_uuid ht' = ht_uuid ht /\ ht_imeta ht' = ht_imeta ht /\
      same_blocks (ht_root ht) (ht_root ht') /\ root_flips (ht_root ht) (ht_root ht') /\
      forall k b, 0 <= k -> block_of w ht k = Some b -> block_of w' ht' k = Some b
  | inr _ => flaky
  end.

Lemma sync_body_spec w ht osn : hinv w ht osn -> sdirty (ht_root ht) = true ->
  wpx sync_body (w, ht) (fun r s' => sync_result w ht osn r (fst s') (snd s')).
Proof.
  intros HI Hd. unfold sync_body, sync_result. pose proof (hi_ok _ _ _ HI) as HO. apply wpx_bind, wpx_get_d. cbn [snd].
  apply wpx_bind, wpx_onW. eapply wpx_mono; [by apply (sync_traverse w ht osn) |]. cbn beta.
  intros r w1 (HF & Hst & HR). pose proof (old_nodes _ _ _ _ HI HF Hst) as HK1. destruct r as [t1|e]; [| by split].
  destruct HR as (Hs1 & Hh1 & Hw1 & Hc1 & HB & Hfl). rewrite Hd, xorb_true_l in Hs1.
  apply wpx_bind, wpx_upd_d. cbn [fst snd].
  assert (Hr1 : exists n1, node_at t1 [] = Some n1).
  { pose proof (same_blocks_at _ t1 [] HB) as Hq. destruct (root_there ht (ho_shape _ HO)) as [n Hn]. rewrite Hn in Hq.
    destruct (node_at t1 []); [eauto | done]. }
  destruct Hr1 as [n1 Hn1]. apply wpx_bind. eapply wpx_mono; [apply update_root_spec; cbn; by rewrite Hn1 |]. cbn beta.
  intros [[]|e] [w2 ht2] [HS2 HR2]; cbn [fst snd] in *.
  2:{ split; [| done]. eapply old_kept_trans; [exact HK1 |]. destruct osn as [sn|]; [| done]. destruct HK1 as [HC1 _].
      split; [eapply committed_keep; [done |]; intros; apply HS2 |].
      intros k b Hk. apply block_of_keep; [apply HC1 | done |]. intros. apply HS2. }
  destruct HR2 as (iv & Hiv & ->). apply wpx_bind, wpx_get_d. cbn [snd].
  assert (Hhw : head_wf (next_head (set_root ht t1) iv)) by (apply next_head_wf; [apply HO | done]).
  assert (Ehv : head_vers (next_head (set_root ht t1) iv) = negb (head_vers (ht_head ht))) by (apply (next_head_vers (set_root ht t1) iv), HO).
  cbn [ht_head set_head]. rewrite land1_b2z. change (negb (Z.land (hd_counter ?h) 1 =? 0)) with (head_vers h).
  assert (HK2 : old_kept w2 w2 osn).
  { destruct osn as [sn|]; [| done]. destruct HK1 as [HC1 _]. split; [| done]. eapply committed_keep; [done |]. intros; apply HS2. }
  assert (HK12 : old_kept w w2 osn).
  { destruct osn as [sn|]; [| done]. destruct HK1 as [HC1 HB1]. split; [apply HK2 |]. intros k b Hk Hb.
    eapply block_of_keep; [apply HC1 | done | | by eapply HB1]. intros. apply HS2. }
  apply wpx_bind, wpx_onW. eapply wpx_mono; [apply (write_entry TYPE_HEAD 0) |].
  { split; [unfold max_idx; lia | apply b2z_01]. } { by rewrite image_bytes_length. }
  cbn beta. intros r w3 [HK HR3].
  assert (HK3 : old_kept w w3 osn) by (eapply old_kept_trans; [exact HK12 | by eapply old_head]).
  destruct r as [[]|e]; [| by split]. apply wpx_bind, wpx_upd_d. cbn [fst snd]. apply wpx_bind.
  eapply wpx_pure; [cbn; by rewrite Hn1 |]. apply wpx_ret. cbn [fst snd]. split; [done |].
  change (set_ht_dirty _ false) with (ht_synced ht t1 iv). split_and!.
  - eapply (synced_committed w3 ht t1 iv); [done | apply HI | done | done | done | done | done | reflexivity | | exact HR3].
    rewrite Ehv. eapply stored_keep; [done | eapply same_blocks_idok; [exact HB | apply ht_idok, HO] | by eapply stored_same |].
    intros q _ i u Hk Hf. by apply HK.
  - cbn. destruct t1 as [|? ? ?]; [done |]. cbn in Hn1. by injection Hn1 as ->.
  - done.
  - done.
  - done.
  - done.
  - done.
  - done.
  - intros k b Hk. apply synced_blocks; [apply HO | done | done |]. intros i v Hko Hf.
    rewrite HK; [by rewrite HS2; apply HF | done | done |]. unfold fullV in *. rewrite HS2. by rewrite HF.
Qed.

End Commit.
