(* ===== verification/HtreeOpen.v ===== *)
(** * Opening the hash tree

    A version that is committed and that the storage offers under its hash opens to the tree
    that was committed; whatever opens under a hash has the hashes of its nodes right. *)

From stdpp Require Import base numbers list.
From S2P Require Import Prelude SkTypes FsCore Dirfile Htree HtreeShape HtreeLaws HtreeBlocks HtreeSync HtreeCommit.

Lemma vers_in_snoc t : forall v p n b, node_at t p = Some n -> vers_in t v (p ++ [b]) = cvers n b.
Proof.
  induction t as [|m c0 IH0 c1 IH1]; intros v p n b Hp; [by rewrite node_at_null in Hp |].
  destruct p as [|d p]; cbn [app vers_in].
  - injection Hp as ->. cbn. destruct b, c0, c1; done.
  - rewrite node_at_cons in Hp. destruct d; cbn [child] in *; eauto.
Qed.

Section Open.
Context {W : Type} `{HtreeLaws W}.
Implicit Types (w : W) (ht sn : tee_fs_htree) (s : wht W).

(** ** Loading the nodes *)

(** Node [id_of p] put into a tree that has all nodes before it, [im_max_node_id] as read. *)
Lemma get_node_load p b s m : wft (ht_root (snd s)) m -> 1 <= m -> id_of (p ++ [b]) = m + 1 -> m + 1 < UINT_MAX ->
  m + 1 <= im_max_node_id (ht_imeta (snd s)) ->
  quietT (get_node true (m + 1)) s (fun q ht => q = p ++ [b] /\ exists t', ht = set_root (snd s) t' /\
    grown (ht_root (snd s)) t' m (m + 1)).
Proof.
  intros Hw Hm Hp HU HM. destruct (find_closest_node_next _ m p b Hw Hm Hp HU) as [Ef Hle].
  pose proof (id_of_pos p) as Hpos. unfold get_node. eapply quietT_bind; [apply quietT_get |]. cbn beta. intros ht s1 _ [-> E1].
  eapply quietT_bind; [by eapply quietT_pure |]. cbn beta. intros ? s2 _ [-> E2].
  eapply quietT_bind; [by eapply quietT_pure, id_at_node |]. cbn beta. intros ? s3 _ [-> E3].
  rewrite (proj2 (Z.eqb_neq (id_of p) (m + 1))) by lia. cbn [negb].
  eapply quietT_bind; [apply (add_nodes_spec _ _ _ s3 m); rewrite ?E3, ?E2, ?E1; (done || lia) |]. cbn beta.
  intros q s4 _ (t' & E4 & Hg & Hq). rewrite E3, E2, E1 in *.
  replace (Z.max _ _) with (m + 1) in Hg by lia.
  assert (q = p ++ [b]) as -> by (apply id_of_inj; destruct (Z.to_nat (m + 1 - id_of p)) eqn:?; lia).
  eapply quietT_bind; [apply quietT_get |]. cbn beta. intros ht s5 _ [-> E5]. rewrite E4. cbn [ht_root ht_imeta set_root].
  eapply quietT_bind; [eapply quietT_pure, id_at_node; [eapply grown_wft; [exact Hw | | exact Hg]; lia | lia] |].
  cbn beta. intros ? s6 _ [-> E6]. rewrite (proj2 (Z.ltb_ge _ _)) by lia.
  eapply quietT_bind; [by apply quietT_ret with (Q := fun _ ht => ht = snd s6) |]. cbn beta. intros _ s7 _ E7.
  apply quietT_ret. split; [done |]. exists t'. split; [congruence | done].
Qed.

(** The tree once the nodes up to [m] are loaded. *)
Definition loaded (t t0 : htree) (m : Z) : Prop :=
  forall q, node_at t q = if decide (id_of q <= m) then node_at t0 q else None.

Lemma loaded_wft t t0 m m0 : wft t0 m0 -> m <= m0 -> loaded t t0 m -> wft t m.
Proof.
  intros Hw Hm HL q. rewrite (HL q). destruct (Hw q) as [H1 H2]. destruct (decide (id_of q <= m)).
  - split; [rewrite H1; lia | done].
  - split; [| done]. split; [by intros [] | done].
Qed.
Lemma loaded_all t t0 m : wft t0 m -> loaded t t0 m -> t = t0.
Proof.
  intros Hw HL. apply tree_ext. intros q. rewrite (HL q). destruct (decide (id_of q <= m)); [done |].
  symmetry. eapply wft_none; [done | lia].
Qed.

(** One node more. *)
Lemma loaded_next t t' t0 p n : loaded t t0 (id_of p - 1) -> grown t t' (id_of p - 1) (id_of p) ->
  node_at t0 p = Some n -> n_id n = id_of p -> n_dirty n = false -> n_block_updated n = false ->
  loaded (upd_node t' p (fun m => set_image m (n_node n))) t0 (id_of p).
Proof.
  intros HL Hg Hn Hid Hd Hb q. rewrite node_at_upd, (Hg q), (HL q). destruct (decide (q = p)) as [-> | Hq].
  - rewrite decide_False, !decide_True, Hn by lia. cbn. unfold new_node, set_image. cbn. destruct n; cbn in *. congruence.
  - assert (id_of q <> id_of p) by (by intros ?%id_of_inj). repeat case_decide; (done || lia).
Qed.

Lemma land1_odd n : Z.land n 1 = Z.b2z (Z.odd n).
Proof. change 1 with (Z.ones 1). rewrite Z.land_ones by lia. rewrite Zmod_odd. by destruct (Z.odd n). Qed.

Lemma find_node_at t m p : wft t m -> id_of p <= m -> m < UINT_MAX -> find_node t (id_of p) = Ret (Some p).
Proof.
  intros Hw Hp HU. unfold find_node. pose proof (id_of_pos p). rewrite (find_closest_node_at t m p) by (done || lia).
  cbn. rewrite (id_at_node t m p) by done. cbn. by rewrite Z.eqb_refl.
Qed.

(** The tree [sn] as it is put together from what is stored. *)
Lemma read_nodes_spec w0 sn k : forall s m, committed w0 sn -> sameV w0 (fst s) -> 1 <= m -> m + Z.of_nat k = nodes_of sn ->
  (k <> O -> m + Z.of_nat k = im_max_node_id (ht_imeta sn)) ->
  ht_imeta (snd s) = ht_imeta sn -> loaded (ht_root (snd s)) (ht_root sn) m ->
  quietT (read_nodes k (m + 1)) s (fun _ ht => ht = set_root (snd s) (ht_root sn)).
Proof.
  induction k as [|k IH]; intros s m HC HS Hm Hk Hkm Him HL; cbn [read_nodes].
  - apply quietT_ret. assert (E : ht_root (snd s) = ht_root sn).
    { apply (loaded_all _ _ m); [| done]. replace m with (nodes_of sn) by lia. apply HC. }
    rewrite <- E. by destruct (snd s).
  - destruct (ho_shape _ (cm_ok _ _ HC)) as [Hw0 HU]. assert (Hw : wft (ht_root (snd s)) m) by (eapply loaded_wft; [exact Hw0 | lia | done]).
    destruct (path_snoc (m + 1)) as (p & b & Ep & Eb & Esh); [lia |].
    assert (Hpm : id_of p <= m) by (pose proof (id_of_snoc p b); pose proof (id_of_pos p); destruct b; cbn [Z.b2z] in *; lia).
    destruct (wft_at _ _ p Hw0) as (n & Hn & _); [lia |]. destruct (wft_at _ _ (p ++ [b]) Hw0) as (c & Hc & Hcid); [lia |].
    eapply quietT_bind; [apply quietT_get |]. cbn beta. intros ht s1 HS1 [-> E1].
    eapply quietT_bind; [eapply quietT_pure; rewrite Esh; eapply find_node_at; [exact Hw | done | lia] |]. cbn beta.
    intros ? s2 HS2 [-> E2]. eapply quietT_bind; [eapply quietT_pure; by rewrite (HL p), decide_True, Hn by lia |]. cbn beta.
    intros ? s3 HS3 [-> E3]. cbn zeta. rewrite land1_odd, Eb. change (flag_set _ _) with (cvers n b).
    assert (HS03 : sameV w0 (fst s3)) by (by do 3 (etransitivity; [eassumption |])).
    eapply quietT_bind; [apply quietT_onW, (quiet_read_node _ (m + 1) _ (n_node c)) |].
    { unfold UINT_MAX in *. lia. } { apply b2z_01. } { by apply (ho_nodes _ (cm_ok _ _ HC) (p ++ [b])). }
    { rewrite HS03. pose proof (cm_stored _ _ HC (p ++ [b]) c Hc) as Hst. cbn [app] in Hst. rewrite Ep in Hst.
      by rewrite (vers_in_snoc _ _ p n b Hn) in Hst. }
    cbn beta. intros ? s4 HS4 [-> E4]. assert (E04 : snd s4 = snd s) by congruence.
    eapply quietT_bind; [apply (get_node_load p b s4 m); rewrite ?E04, ?Him; (done || lia) |]. cbn beta.
    intros ? s5 HS5 (-> & t' & E5 & Hg). eapply quietT_bind; [apply quietT_upd |]. cbn beta. intros _ s6 HS6 E6.
    rewrite E5, E04 in *. cbn in E6.
    destruct (proj1 (clean_at _) (cm_clean _ _ HC) _ _ Hc) as [Hcd Hcb].
    eapply quietT_mono; [apply (IH s6 (m + 1)); rewrite ?E6 |]; cbn [ht_root ht_imeta set_root].
    + done. + by do 3 (etransitivity; [eassumption |]). + lia. + lia. + lia. + done.
    + rewrite <- Ep in Hg |- *. replace m with (id_of (p ++ [b]) - 1) in Hg, HL by lia. by eapply loaded_next.
    + cbn beta. intros _ ht ->. rewrite E6. done.
Qed.

(** ** Verification of what was loaded *)

Lemma verify_sub t : forall parent w, hashed t -> quiet (traverse_post_order verify_node parent t) w (fun r => r = (parent, t)).
Proof.
  induction t as [|n c0 IH0 c1 IH1]; intros parent w; cbn [traverse_post_order hashed]; [intros _; by apply quiet_ret |].
  intros (Hn & H0 & H1). eapply quiet_bind; [by apply IH0 |]. cbn beta. intros ? w1 _ ->. cbn [default].
  eapply quiet_bind; [by apply IH1 |]. cbn beta. intros ? w2 _ ->. cbn [default].
  eapply (quiet_bind _ _ _ (fun r => r = (parent, n))).
  - unfold verify_node. eapply quiet_bind; [apply quiet_calc_node_hash |]. cbn beta. intros h w3 _ ->.
    rewrite bool_decide_true by done. by apply quiet_ret.
  - cbn beta. intros ? w3 _ ->. by apply quiet_ret.
Qed.

Lemma verify_tree_ok s : hashed (ht_root (snd s)) -> quietT verify_tree s (fun _ ht => ht = snd s).
Proof.
  intros Hh. unfold verify_tree. rewrite h_hash_supported. cbn [negb].
  eapply quietT_bind; [apply quietT_onW, h_hash_size |]. cbn beta. intros sz s1 _ [_ E1].
  apply quietT_malloc. intros s2 _ E2. eapply quietT_bind; [apply quietT_get |]. cbn beta. intros ? s3 _ [-> E3].
  eapply (quietT_bind _ _ _ (fun _ ht => ht = snd s)).
  - eapply quietT_mono; [apply quietT_onW with (Q := fun _ => True) |].
    + unfold htree_traverse_post_order. eapply quiet_bind; [apply verify_sub; by rewrite E2, E1 |]. cbn beta.
      intros ? w4 _ ->. by apply quiet_ret.
    + cbn beta. intros _ ht [_ ->]. congruence.
  - cbn beta. intros _ s4 _ E4. by apply quietT_ret.
Qed.

(** The header: the key comes out of it, and the meta data. *)
Lemma verify_root_ok s fek im : is_Some (node_at (ht_root (snd s)) []) -> length (hd_imeta (ht_head (snd s))) = 16%nat ->
  fek = fek_dec (ht_uuid (snd s)) (hd_enc_fek (ht_head (snd s))) -> imeta_wf im ->
  (let h := ht_head (snd s) in aead_open fek (hd_iv h) (head_aad (snd s) (hd_iv h)) (hd_imeta h) (hd_tag h) = Some (imeta_bytes im)) ->
  quietT verify_root s (fun _ ht => ht = set_imeta (set_fek (snd s) fek) im).
Proof.
  intros Hr Hl Hf Hw Ho. unfold verify_root. eapply quietT_bind; [apply quietT_get |]. cbn beta. intros ? s1 _ [-> E1].
  eapply quietT_bind; [apply quietT_onW, h_fek; by right |]. cbn beta. intros ? s2 _ [-> E2]. cbn [Z.eqb TEE_MODE_DECRYPT TEE_MODE_ENCRYPT].
  rewrite <- Hf. eapply quietT_bind; [apply quietT_upd |]. cbn beta. intros _ s3 _ E3.
  assert (E03 : snd s3 = set_fek (snd s) fek) by congruence.
  eapply quietT_bind; [apply (quietT_init_dec None _ (hd_iv (ht_head (snd s)))); rewrite E03; [done | done] |]. cbn beta.
  intros c s4 _ [E4 Hc]. eapply quietT_bind; [apply quietT_get |]. cbn beta. intros ? s5 _ [-> E5].
  rewrite E4, E03 in *. cbn [ht_fek set_fek aad_of ht_head] in *.
  eapply quietT_bind; [apply quietT_onW; eapply quiet_decrypt; [exact Hc | exact Ho | by rewrite Hl] |]. cbn beta.
  intros ? s6 _ [-> E6]. eapply quietT_mono; [apply quietT_upd |]. cbn beta. intros _ ht ->.
  by rewrite E6, E5, imeta_of_bytes.
Qed.

(** ** The root with the hash *)

(** The version [sn] is the one found under its hash: it is looked for in version 0 first. *)
Definition offered w sn : Prop :=
  head_vers (ht_head sn) = false \/
  fullV w TYPE_NODE 0 0 /\ ni_hash (ni_of (hview w TYPE_NODE 0 0)) <> root_hash (ht_root sn).

Lemma quiet_read_root w v : v = 0 \/ v = 1 -> fullV w TYPE_NODE 0 v ->
  quiet (rpc_read_node 1 v) w (fun ni => ni = ni_of (hview w TYPE_NODE 0 v)).
Proof.
  intros Hv Hf. unfold rpc_read_node. change (u64 (1 - 1)) with 0. eapply quiet_bind.
  - apply (quiet_read TYPE_NODE 0 v w); [split; [unfold max_idx; lia | done] | done].
  - cbn beta. intros b w' _ ->. by apply quiet_ret.
Qed.

(** The tree before the nodes are loaded: the root and the header. *)
Definition with_root ht (ni : node_image) : tee_fs_htree := set_root ht (upd_node (ht_root ht) [] (fun n => set_image n ni)).

Lemma root_miss hash s v : v = 0 \/ v = 1 -> fullV (fst s) TYPE_NODE 0 v -> ni_hash (ni_of (hview (fst s) TYPE_NODE 0 v)) <> hash ->
  quietT (root_with_hash hash v) s (fun b ht => b = false /\ exists ni, ht = with_root (snd s) ni).
Proof.
  intros Hv Hf Hne. unfold root_with_hash. eapply quietT_bind; [by apply quietT_onW, quiet_read_root |]. cbn beta.
  intros ? s1 _ [-> E1]. eapply quietT_bind; [apply quietT_upd |]. cbn beta. intros _ s2 _ E2.
  rewrite bool_decide_false by done. apply quietT_ret. split; [done |]. rewrite E2, E1. by eexists.
Qed.

Lemma root_hit w0 sn n s : committed w0 sn -> sameV w0 (fst s) -> node_at (ht_root sn) [] = Some n ->
  quietT (root_with_hash (root_hash (ht_root sn)) (Z.b2z (head_vers (ht_head sn)))) s (fun b ht => b = true /\
    ht = set_head (with_root (snd s) (n_node n)) (ht_head sn)).
Proof.
  intros HC HS Hn. unfold root_with_hash.
  eapply quietT_bind; [apply quietT_onW, (quiet_read_node _ 1 _ (n_node n)) |].
  { lia. } { apply b2z_01. } { by apply (ho_nodes _ (cm_ok _ _ HC) []). }
  { rewrite HS. rewrite <- (cm_stored _ _ HC [] n Hn). cbn [app id_of foldl]. by destruct (ht_root sn). }
  cbn beta. intros ? s1 HS1 [-> E1]. eapply quietT_bind; [apply quietT_upd |]. cbn beta. intros _ s2 HS2 E2.
  rewrite bool_decide_true.
  2:{ unfold root_hash. destruct (ht_root sn); [done |]. cbn in Hn. by injection Hn as ->. }
  eapply quietT_bind; [apply quietT_onW, (quiet_read_head _ _ (ht_head sn)); [apply b2z_01 | apply HC |] |].
  { rewrite HS2, HS1, HS. apply HC. }
  cbn beta. intros ? s3 HS3 [-> E3]. eapply quietT_bind; [apply quietT_upd |]. cbn beta. intros _ s4 HS4 E4.
  apply quietT_ret. split; [done |]. by rewrite E4, E3, E2, E1.
Qed.

Lemma with_root_again ht a b : with_root (with_root ht a) b = with_root ht b.
Proof. unfold with_root. destruct ht as [[|n c0 c1] ? ? ? ? ?]; done. Qed.

Lemma init_head_ok w0 sn n s : committed w0 sn -> offered w0 sn -> sameV w0 (fst s) -> node_at (ht_root sn) [] = Some n ->
  ht_root (snd s) = Node (new_node 0) Null Null ->
  quietT (init_head_from_data (Some (root_hash (ht_root sn)))) s (fun _ ht =>
    ht = set_head (set_root (snd s) (Node (mkNode 1 false false (n_node n)) Null Null)) (ht_head sn)).
Proof.
  intros HC HO HS Hn Hr. unfold init_head_from_data.
  eapply (quietT_bind _ _ _ (fun _ ht => ht = set_head (with_root (snd s) (n_node n)) (ht_head sn))).
  - pose proof (root_hit w0 sn n) as HH. destruct (head_vers (ht_head sn)) eqn:Ev; cbn [Z.b2z] in HH.
    + destruct HO as [HO | [Hf Hne]]; [congruence |].
      eapply quietT_bind; [apply root_miss; [by left | unfold fullV in *; by rewrite HS | by rewrite HS] |]. cbn beta.
      intros ? s1 HS1 (-> & ni & E1). eapply quietT_bind; [apply HH; [done | by etransitivity | done] |]. cbn beta.
      intros ? s2 HS2 (-> & E2). apply quietT_ret. by rewrite E2, E1, with_root_again.
    + eapply quietT_bind; [by apply HH |]. cbn beta. intros ? s1 HS1 (-> & E1). by apply quietT_ret.
  - cbn beta. intros _ s1 _ E1. eapply quietT_mono; [apply quietT_upd |]. cbn beta. intros _ ht ->.
    rewrite E1. unfold with_root. rewrite Hr. done.
Qed.

(** ** A committed version opens *)

Lemma open_existing_ok w0 sn s : committed w0 sn -> offered w0 sn -> sameV w0 (fst s) -> snd s = new_ht (ht_uuid sn) ->
  quietT (open_existing (Some (root_hash (ht_root sn)))) s (fun _ ht => ht = sn).
Proof.
  intros HC HO HS Es. pose proof (cm_ok _ _ HC) as Hok. destruct (root_there sn (ho_shape _ Hok)) as [n Hn].
  destruct (proj1 (clean_at _) (cm_clean _ _ HC) _ _ Hn) as [Hnd Hnb]. destruct (ho_shape _ Hok) as [Hw HU].
  assert (Hid : n_id n = 1) by (by apply (Hw [])).
  unfold open_existing. eapply quietT_bind; [apply (init_head_ok w0 sn n s); [done | done | done | done | by rewrite Es] |].
  cbn beta. intros _ s1 HS1 E1. rewrite Es in E1.
  assert (Erh : root_hash (ht_root sn) = ni_hash (n_node n)) by (destruct (ht_root sn); [done |]; by injection Hn as ->).
  eapply quietT_bind; [apply (verify_root_ok s1 (ht_fek sn) (ht_imeta sn)) |]; rewrite ?E1; cbn [ht_root ht_head ht_uuid set_head set_root new_ht].
  { by eexists. } { apply Hok. } { symmetry. apply HC. } { apply Hok. }
  { pose proof (cm_seal _ _ HC) as Hse. unfold head_aad in *. cbn [ht_root set_head set_root ht_head root_hash n_node]. by rewrite Erh in Hse. }
  cbn beta. intros _ s2 HS2 E2. eapply (quietT_bind _ _ _ (fun _ ht => ht = sn)).
  - unfold init_tree_from_data. eapply quietT_bind; [apply quietT_get |]. cbn beta. intros ? s3 HS3 [-> E3].
    rewrite E2. cbn [ht_imeta set_imeta].
    eapply quietT_mono; [apply (read_nodes_spec w0 sn _ s3 1); rewrite ?E3, ?E2; cbn [ht_imeta set_imeta ht_root set_fek set_head set_root] |].
    + done. + by do 3 (etransitivity; [eassumption |]). + lia. + unfold nodes_of. lia. + unfold nodes_of. lia. + done.
    + intros q. rewrite node_at_leaf. destruct q as [|b q].
      * rewrite decide_True by done. rewrite Hn. f_equal. destruct n; cbn in *. congruence.
      * rewrite decide_False; [done |]. intros Hq. pose proof (id_of_bounds (b :: q)) as Hb.
        assert (2 ^ 1 <= 2 ^ Z.of_nat (length (b :: q))) by (apply Z.pow_le_mono_r; cbn [length]; lia). lia.
    + cbn beta. intros _ ht ->. rewrite E3, E2. pose proof (cm_dirty _ _ HC). destruct sn as [r hd fk im d u]. cbn in *. by subst d.
  - cbn beta. intros _ s4 HS4 E4. eapply quietT_mono; [apply verify_tree_ok; rewrite E4; apply HC |]. cbn beta. intros _ ht ->. done.
Qed.

Lemma open_committed w sn : committed w sn -> offered w sn ->
  wpx (tee_fs_htree_open false (Some (root_hash (ht_root sn))) (ht_uuid sn)) w (fun r w' => sameV w w' /\
    match r with inl (ht, h) => ht = sn /\ h = None | inr _ => flaky end).
Proof.
  intros HC HO. unfold tee_fs_htree_open. apply wpx_bind. eapply wpx_mono; [apply quiet_malloc |]. cbn beta.
  intros [[m|]|e] w1 [HS1 HN]; [| apply wpx_throw; split; [done | by apply HN] | done].
  destruct (open_existing_ok w sn (w1, new_ht (ht_uuid sn)) HC HO HS1 eq_refl) as (r & [w2 ht2] & E & HS2 & HR).
  unfold wpx, open_tree. unfold mbind at 1, ex_bind at 1. unfold on_ht at 1. rewrite E. cbn [fst snd] in *.
  destruct r as [[]|e].
  - eexists _, _. split; [reflexivity |]. split; [by etransitivity | done].
  - eexists _, _. split; [reflexivity |]. split; [by etransitivity | done].
Qed.

End Open.
