(* ===== verification/HtreeSpec.v ===== *)
(** * What a hash tree file promises

    The file as its users see it: the blocks now and the blocks of the last commit with its
    hash, if there was one.  [astep] says what a call does to it; an error closes the file and
    leaves the commit.  Under it: the calls of fs_htree.c do that. *)

From stdpp Require Import base numbers list.
From S2P Require Import Prelude SkTypes FsCore Dirfile Htree HtreeShape HtreeLaws HtreeBlocks HtreeSync HtreeCommit HtreeOpen.

(** ** The abstract file *)

Inductive hop := HopWrite (k : nat) (b : list Z) | HopRead (k : nat) | HopSync.
Inductive answer := AUnit | ABlock (b : list Z) | AHash (h : option (list Z)).
Record afile := mkAfile { a_cur : option (list (list Z)); a_com : option (list Z * list (list Z)) }.

(** A block set, or added at the end. *)
Definition put_block (k : nat) (b : list Z) (bs : list (list Z)) : list (list Z) :=
  if decide (k < length bs)%nat then <[k := b]> bs else bs ++ [b].

Inductive astep (may_fail : Prop) : afile -> hop -> answer + Z -> afile -> Prop :=
  | as_closed op c : astep may_fail (mkAfile None c) op (inr TEE_ERROR_CORRUPT_OBJECT) (mkAfile None c)
  | as_write k b bs c : astep may_fail (mkAfile (Some bs) c) (HopWrite k b) (inl AUnit) (mkAfile (Some (put_block k b bs)) c)
  | as_read k b bs c : bs !! k = Some b ->
      astep may_fail (mkAfile (Some bs) c) (HopRead k) (inl (ABlock b)) (mkAfile (Some bs) c)
  | as_sync h bs c : astep may_fail (mkAfile (Some bs) c) HopSync (inl (AHash (Some h))) (mkAfile (Some bs) (Some (h, bs)))
  | as_sync_clean bs c : match c with Some (_, cbs) => cbs = bs | None => bs = [] end ->
      astep may_fail (mkAfile (Some bs) c) HopSync (inl (AHash None)) (mkAfile (Some bs) c)
  | as_error op e bs c : may_fail -> astep may_fail (mkAfile (Some bs) c) op (inr e) (mkAfile None c)
  | as_error_sync e bs c : may_fail -> astep may_fail (mkAfile (Some bs) c) HopSync (inr e) (mkAfile (Some bs) c).

(** A run of the abstract file. *)
Inductive aruns (may_fail : Prop) : afile -> list hop -> list (answer + Z) -> afile -> Prop :=
  | ar_nil a : aruns may_fail a [] [] a
  | ar_cons a op r a' ops rs a'' : astep may_fail a op r a' -> aruns may_fail a' ops rs a'' ->
      aruns may_fail a (op :: ops) (r :: rs) a''.

Section Spec.
Context {W : Type} `{HtreeLaws W}.
Implicit Types (w : W) (ht sn : tee_fs_htree) (a : afile).

(** ** The calls *)

Definition hop_run (op : hop) : ex (whtp W) answer :=
  match op with
  | HopWrite k b => _ ← tee_fs_htree_write_block (Z.of_nat k) b; mret AUnit
  | HopRead k => b ← tee_fs_htree_read_block (Z.of_nat k); mret (ABlock b)
  | HopSync => h ← tee_fs_htree_sync_to_storage; mret (AHash h)
  end.
(** The calls one after the other, whether they fail or not. *)
Fixpoint hops_run (ops : list hop) (s : whtp W) : outcome (list (answer + Z) * whtp W) :=
  match ops with
  | [] => Ret ([], s)
  | op :: ops => '(r, s) ← hop_run op s; '(rs, s) ← hops_run ops s; Ret (r :: rs, s)
  end.

(** Calls on a file of [n] blocks: writes leave no gap, reads are of blocks there are. *)
Fixpoint hops_ok (n : nat) (ops : list hop) : Prop :=
  match ops with
  | [] => True
  | HopWrite k b :: ops => (k <= n)%nat /\ Z.of_nat k + 1 < UINT_MAX - 1 /\ Z.of_nat (length b) = block_size /\ hops_ok (Nat.max n (S k)) ops
  | HopRead k :: ops => (k < n)%nat /\ hops_ok n ops
  | HopSync :: ops => hops_ok n ops
  end.
Definition hop_ok (n : nat) (op : hop) : Prop :=
  match op with
  | HopWrite k b => (k <= n)%nat /\ Z.of_nat k + 1 < UINT_MAX - 1 /\ Z.of_nat (length b) = block_size
  | HopRead k => (k < n)%nat
  | HopSync => True
  end.

(** ** The file behind the tree *)

Definition holds w ht (bs : list (list Z)) : Prop :=
  nodes_of ht = Z.of_nat (length bs) /\ forall k b, bs !! k = Some b -> block_of w ht (Z.of_nat k) = Some b.

Definition collision : Prop := exists x y, x <> y /\ hash_fn x = hash_fn y.

(** The version [sn] is the commit with this hash and these blocks. *)
Definition commit_of w (u : option (list Z)) sn (h : list Z) (bs : list (list Z)) : Prop :=
  committed w sn /\ holds w sn bs /\ root_hash (ht_root sn) = h /\ ht_uuid sn = u.

(** An open tree with its blocks, over the version [osn] committed, if there is one. *)
Definition open_at w ht (osn : option tee_fs_htree) (bs : list (list Z)) : Prop :=
  match osn with
  | Some sn => (offered w sn \/ collision) /\ hinv w ht (Some sn) /\ holds w ht bs
  | None => head_vers (ht_head ht) = true /\ (fresh ht /\ ht_dirty ht = false /\ bs = [] \/ hinv w ht None /\ holds w ht bs)
  end.
Definition open_of w ht u (c : option (list Z * list (list Z))) (bs : list (list Z)) : Prop :=
  match c with
  | Some (h, cbs) => exists sn, commit_of w u sn h cbs /\ open_at w ht (Some sn) bs
  | None => open_at w ht None bs
  end.

Definition hrel w (o : option tee_fs_htree) (u : option (list Z)) a : Prop :=
  match o, a_cur a with
  | Some ht, Some bs => ht_uuid ht = u /\ open_of w ht u (a_com a) bs
  | None, None => match a_com a with Some (h, cbs) => exists sn, commit_of w u sn h cbs | None => True end
  | _, _ => False
  end.

(** ** What is kept *)

Lemma holds_keep w w' sn bs : (forall k b, 0 <= k -> block_of w sn k = Some b -> block_of w' sn k = Some b) -> holds w sn bs -> holds w' sn bs.
Proof. intros HK [Hn Hb]. split; [done |]. intros k b Hk. apply HK; [lia | by apply Hb]. Qed.

Lemma commit_kept w w' u sn h bs : old_kept w w' (Some sn) -> commit_of w u sn h bs -> commit_of w' u sn h bs.
Proof. intros [HC HK] (_ & Hh & Hr & Hu). split_and!; [done | by eapply holds_keep | done | done]. Qed.

Lemma offered_keep w w' sn : (fullV w TYPE_NODE 0 0 -> hview w' TYPE_NODE 0 0 = hview w TYPE_NODE 0 0) -> offered w sn -> offered w' sn.
Proof.
  intros HK [Hv | [Hf Hne]]; [by left | right]. unfold fullV in *. rewrite (HK Hf). done.
Qed.

Lemma put_block_length k b bs : length (put_block k b bs) = Nat.max (length bs) (S k) \/ (length bs < k)%nat.
Proof. unfold put_block. case_decide; [left; rewrite length_insert; lia |]. destruct (decide (k = length bs)); [left; rewrite length_app; cbn; lia | right; lia]. Qed.
Lemma put_block_lookup k b bs j c : (k <= length bs)%nat -> put_block k b bs !! j = Some c -> j = k /\ c = b \/ j <> k /\ bs !! j = Some c.
Proof.
  intros Hk. unfold put_block. case_decide.
  - intros [(-> & -> & _) | [? ?]]%list_lookup_insert_Some; [by left | right; split; [congruence | done]].
  - intros [Hj | [? Hj]]%lookup_app_Some; [right; split; [| done]; apply lookup_lt_Some in Hj; lia | left].
    apply list_lookup_singleton_Some in Hj as [? ->]. split; [unfold max_idx; lia | done].
Qed.

(** The blocks after a write. *)
Lemma write_holds w w' ht bs k b ht1 iv : ht_shape ht -> nodes_of ht = Z.max 1 (Z.of_nat (length bs)) ->
  (forall j c, bs !! j = Some c -> block_of w ht (Z.of_nat j) = Some c) -> (k <= length bs)%nat ->
  Z.of_nat k + 1 < UINT_MAX - 1 -> Z.of_nat (length b) = block_size -> keepsV TYPE_BLOCK (Z.of_nat k) (wvers ht (Z.of_nat k)) w w' ->
  with_node ht (Z.of_nat k) ht1 ->
  let seal := aead_seal (ht_fek ht) iv (block_aad ht iv) b in
  hview w' TYPE_BLOCK (Z.of_nat k) (wvers ht (Z.of_nat k)) = fst seal ->
  holds w' (ht_written ht1 (path_of (Z.of_nat k + 1)) iv (snd seal)) (put_block k b bs).
Proof.
  intros HS Hn Hbs Hk HU Hb HK Hwn seal Hv.
  destruct (written_blocks w w' ht (Z.of_nat k) b ht1 iv HS) as [B1 B2]; [lia | done | done | done | done | done |]. split.
  - destruct (put_block_length k b bs) as [-> |]; [| lia]. change (nodes_of (ht_written ht1 _ _ _)) with (nodes_of ht1).
    destruct Hwn as [_ Hwn]. destruct (decide (Z.of_nat k + 1 <= nodes_of ht)); [subst ht1; lia |].
    destruct Hwn as (t' & _ & _ & ->). lia.
  - intros j c [[-> ->] | [Hne Hj]]%put_block_lookup; [done | | done]. pose proof (lookup_lt_Some _ _ _ Hj).
    destruct HS as [_ HM]. apply B2; [lia | lia | lia | by apply Hbs].
Qed.


(** ** Writing and reading blocks *)

Lemma open_facts w ht osn bs : open_at w ht osn bs ->
  ht_ok ht /\ nodes_of ht = Z.max 1 (Z.of_nat (length bs)) /\ forall j b, bs !! j = Some b -> block_of w ht (Z.of_nat j) = Some b.
Proof.
  assert (Hholds : holds w ht bs -> nodes_of ht = Z.max 1 (Z.of_nat (length bs))) by (intros [E _]; rewrite <- E; unfold nodes_of; lia).
  unfold open_at. destruct osn as [sn|].
  - intros (_ & HI & Hh). split_and!; [apply HI | auto | apply Hh].
  - intros [_ [((HO & Hn & _) & _ & ->) | [HI Hh]]]; [by split_and! | split_and!; [apply HI | auto | apply Hh]].
Qed.

(** What a call leaves: the version committed. *)
Lemma open_kept w w' ht osn bs : open_at w ht osn bs -> (hinv w ht osn -> old_kept w w' osn) -> old_kept w w' osn.
Proof. destruct osn as [sn|]; [| done]. intros (_ & HI & _) HK. by apply HK. Qed.

Lemma write_at w ht osn bs k b : open_at w ht osn bs -> hop_ok (length bs) (HopWrite k b) ->
  wpx (tee_fs_htree_write_block (Z.of_nat k) b) (w, Some ht) (fun r s' => old_kept w (fst s') osn /\
    match r with
    | inl _ => exists ht', snd s' = Some ht' /\ open_at (fst s') ht' osn (put_block k b bs) /\
        ht_uuid ht' = ht_uuid ht /\ im_length (ht_imeta ht') = im_length (ht_imeta ht) /\ ht_dirty ht' = true
    | inr _ => flaky /\ snd s' = None
    end).
Proof.
  intros HO (Hk & HU & Hb). destruct (open_facts _ _ _ _ HO) as (Hok & Hn & Hbs).
  eapply wpx_mono; [apply write_block_spec; [apply Hok | lia | done | done] |]. cbn beta. intros r [w' o'] [HK HR]; cbn [fst snd] in *.
  assert (HKo : old_kept w w' osn) by (eapply open_kept; [done |]; intros HI; apply (write_old_kept w w' ht _ (Z.of_nat k)); [done | lia | done]).
  split; [done |]. destruct r as [[]|e]; [| done]. destruct HR as (ht1 & iv & Hiv & Hwn & -> & Hv).
  pose proof (with_node_same _ _ _ Hwn) as (Eh & _ & Eu & El). eexists. split; [reflexivity |]. split; [| by split_and!].
  set (seal := aead_seal _ _ _ _) in *. pose proof (proj2 (aead_seal_length (ht_fek ht) iv (block_aad ht iv) b)) as Ht. fold seal in Ht.
  assert (Hh : holds w' (ht_written ht1 (path_of (Z.of_nat k + 1)) iv (snd seal)) (put_block k b bs)).
  { eapply write_holds; [apply Hok | done | done | done | done | done | done | done | done]. }
  assert (Hinv : hinv w ht osn -> hinv w' (ht_written ht1 (path_of (Z.of_nat k + 1)) iv (snd seal)) osn).
  { intros HI. eapply write_hinv; [done | lia | done | done | done | done | done]. }
  destruct osn as [sn|]; cbn [open_at] in HO |- *.
  - destruct HO as (Hoff & HI & _). split_and!; [| by apply Hinv | done].
    destruct Hoff as [Hoff | ?]; [left | by right]. eapply offered_keep; [| done]. intros Hf. apply HK; [done | | done]. split; [unfold max_idx; lia | auto].
  - destruct HO as [Ehv HO]. split; [cbn; by rewrite Eh |]. right. split; [| done]. destruct HO as [(Hfr & _ & ->) | [HI _]]; [| by apply Hinv].
    cbn [length] in Hk. assert (k = O) as -> by lia. by apply (write_fresh w' ht ht1).
Qed.

Lemma hinv_same w w' ht osn : sameV w w' -> hinv w ht osn -> hinv w' ht osn.
Proof.
  intros HS HI. pose proof (old_kept_same w w' ht osn HI HS) as HK. destruct HI as [H1 H2 H3 H4 H5]. split; try done.
  destruct osn as [sn|]; [| done]. split; [apply HK | apply H5].
Qed.
Lemma open_same w w' ht osn bs : sameV w w' -> open_at w ht osn bs -> open_at w' ht osn bs.
Proof.
  intros HS. assert (Hh : forall ht bs, holds w ht bs -> holds w' ht bs).
  { intros ht' bs'. apply holds_keep. intros k b _. unfold block_of, open_block. destruct (node_at _ _); [| done]. by rewrite HS. }
  destruct osn as [sn|]; cbn.
  - intros (Hoff & HI & Hbs). split_and!; [| by eapply hinv_same | auto].
    destruct Hoff; [left | by right]. eapply offered_keep; [| done]. intros _. apply HS.
  - intros [? [? | [HI Hbs]]]; (split; [done |]); [by left | right]. split; [by eapply hinv_same | auto].
Qed.

Lemma read_at w ht osn bs k b : open_at w ht osn bs -> bs !! k = Some b ->
  wpx (tee_fs_htree_read_block (Z.of_nat k)) (w, Some ht) (fun r s' => sameV w (fst s') /\
    match r with inl b' => b' = b /\ snd s' = Some ht | inr _ => flaky /\ snd s' = None end).
Proof.
  intros HO Hb. destruct (open_facts _ _ _ _ HO) as (Hok & Hn & Hbs). pose proof (lookup_lt_Some _ _ _ Hb) as Hlt. specialize (Hbs k b Hb).
  eapply wpx_mono; [apply read_block_spec; [done | lia | lia] |]. cbn beta. intros [b'|e] [w' o'] [HS HR]; cbn [fst snd] in *; (split; [done |]).
  - destruct HR as [Eb ->]. split; [congruence | done].
  - destruct HR as [[? | ?] ->]; [done | congruence].
Qed.

(** ** Writing back *)

Lemma node_input_inj n m h0 h1 k0 k1 : length (ni_data (n_node n)) = length (ni_data (n_node m)) ->
  node_input n h0 h1 = node_input m k0 k1 -> ni_data (n_node n) = ni_data (n_node m) /\ default [] h0 ++ default [] h1 = default [] k0 ++ default [] k1.
Proof. intros L E. by apply app_inj_1 in E. Qed.
Lemma ni_data_length ni : ni_wf ni -> length (ni_data ni) = 34%nat.
Proof. intros (_ & L2 & L3 & _). unfold ni_data. len. Qed.
Lemma ni_data_flags x y : ni_wf x -> ni_wf y -> ni_data x = ni_data y -> ni_flags x = ni_flags y.
Proof.
  intros (_ & L2 & L3 & Hf) (_ & M2 & M3 & Hg) E. unfold ni_data in E. apply app_inj_1 in E as [_ E]; [| congruence].
  apply app_inj_1 in E as [_ E]; [| congruence]. apply (f_equal le_val) in E. rewrite !le_val_bytes in E.
  change (2 ^ (8 * Z.of_nat 2)) with (2 ^ 16) in E. rewrite !Z.mod_small in E by lia. done.
Qed.

(** A new version has flags of its own in the root. *)
Lemma root_flags_new ht sn ht' n' m w : hinv w ht (Some sn) -> sdirty (ht_root ht) = true ->
  same_blocks (ht_root ht) (ht_root ht') -> root_flips (ht_root ht) (ht_root ht') ->
  node_at (ht_root ht') [] = Some n' -> node_at (ht_root sn) [] = Some m -> ni_flags (n_node n') <> ni_flags (n_node m).
Proof.
  intros HI Hd HB HF Hn' Hm Ef. pose proof (hi_rel _ _ _ HI) as HR. cbn [old_root] in HR.
  destruct (ht_root ht) as [|n c0 c1]; [done |]. destruct (ht_root ht') as [|? d0 d1]; [done |]. destruct (ht_root sn) as [|? e0 e1]; [done |].
  injection Hn' as ->. injection Hm as ->. destruct HB as ((_ & _ & _ & Ebv) & _), HF as [F0 F1], HR as (_ & _ & Hdb & V0 & V1 & _).
  assert (Eb : block_vers n' = block_vers m) by (unfold block_vers; by rewrite Ef).
  assert (Ec : forall b, cvers n' b = cvers m b) by (intros b; unfold cvers; by rewrite Ef).
  cbn in Hd. destruct (n_dirty n); [specialize (Hdb eq_refl); destruct (block_vers_01 m); lia |]. cbn in Hd.
  rewrite Ec, V0 in F0. rewrite Ec, V1 in F1. destruct (sdirty c0), (sdirty c1); try done;
    [destruct (cvers m false) | destruct (cvers m false) | destruct (cvers m true)]; done.
Qed.

Lemma sync_hash_new w w' ht sn ht' : hinv w ht (Some sn) -> sdirty (ht_root ht) = true -> committed w' ht' ->
  same_blocks (ht_root ht) (ht_root ht') -> root_flips (ht_root ht) (ht_root ht') ->
  root_hash (ht_root ht') <> root_hash (ht_root sn) \/ collision.
Proof.
  intros HI Hd HC' HB HF. destruct (hi_old _ _ _ HI) as (HC & _).
  destruct (root_there ht' (ho_shape _ (cm_ok _ _ HC'))) as [n' Hn']. destruct (root_there sn (ho_shape _ (cm_ok _ _ HC))) as [m Hm].
  pose proof (root_flags_new ht sn ht' n' m w HI Hd HB HF Hn' Hm) as Hne.
  pose proof (ho_nodes _ (cm_ok _ _ HC') _ _ Hn') as Hw'. pose proof (ho_nodes _ (cm_ok _ _ HC) _ _ Hm) as Hw.
  pose proof (cm_hashed _ _ HC') as Hh'. pose proof (cm_hashed _ _ HC) as Hh.
  destruct (ht_root ht') as [|? d0 d1]; [done |]. destruct (ht_root sn) as [|? e0 e1]; [done |].
  injection Hn' as ->. injection Hm as ->. destruct Hh' as (E' & _), Hh as (E & _). cbn [root_hash].
  destruct (decide (ni_hash (n_node n') = ni_hash (n_node m))) as [Eq|]; [right | by left].
  eexists _, _. split; [| rewrite <- E', <- E; exact Eq]. intros Hin. apply Hne.
  apply node_input_inj in Hin as [Hin _]; [by apply ni_data_flags | by rewrite !ni_data_length].
Qed.

Lemma offered_new w' sn ht' : committed w' sn -> head_vers (ht_head ht') = negb (head_vers (ht_head sn)) ->
  root_hash (ht_root ht') <> root_hash (ht_root sn) -> offered w' ht'.
Proof.
  intros HC Hv Hne. destruct (head_vers (ht_head sn)) eqn:Ev; [by left | right].
  destruct (root_there sn (ho_shape _ (cm_ok _ _ HC))) as [m Hm]. pose proof (ho_nodes _ (cm_ok _ _ HC) _ _ Hm) as Hw.
  pose proof (cm_stored _ _ HC [] m Hm) as Hst. rewrite Ev in Hst. cbn [app id_of foldl] in Hst.
  destruct (ht_root sn) as [|? e0 e1]; [done |]. injection Hm as ->. change (1 - 1) with 0 in Hst. cbn [vers_in Z.b2z] in Hst.
  unfold fullV. rewrite Hst, ni_bytes_length, ni_of_bytes by done. split; [done |]. cbn [root_hash] in Hne. congruence.
Qed.

(** The tree with nothing dirty holds what is committed. *)
Lemma clean_nodes ht sn w : hinv w ht (Some sn) -> sdirty (ht_root ht) = false ->
  forall q, option_map n_node (node_at (ht_root ht) q) = option_map n_node (node_at (ht_root sn) q).
Proof.
  intros HI Hd q. pose proof (proj1 (relt_at _ _) (hi_rel _ _ _ HI) q) as HR. cbn [old_root] in HR.
  destruct (node_at (ht_root ht) q) as [n|] eqn:En; [| by destruct (node_at (ht_root sn) q)].
  assert (Hnd : n_dirty n = false).
  { destruct (n_dirty n) eqn:E; [| done]. assert (sdirty (ht_root ht) = true) by (apply sdirty_at; eauto). congruence. }
  destruct (node_at (ht_root sn) q) as [m|]; cbn in *; [| destruct HR; congruence]. destruct HR as (_ & Hnm & _). by rewrite Hnm.
Qed.
Lemma wft_size t t' m m' : wft t m -> wft t' m' -> 1 <= m -> 1 <= m' -> (forall q, is_Some (node_at t q) <-> is_Some (node_at t' q)) -> m = m'.
Proof.
  intros Hw Hw' Hm Hm' HE. assert (Hle : forall k, 1 <= k -> k <= m <-> k <= m').
  { intros k Hk. rewrite <- (id_path k) by done. destruct (Hw (path_of k)) as [<- _], (Hw' (path_of k)) as [<- _]. apply HE. }
  pose proof (proj1 (Hle m Hm)). pose proof (proj2 (Hle m' Hm')). lia.
Qed.
Lemma clean_blocks w ht sn bs cbs : hinv w ht (Some sn) -> sdirty (ht_root ht) = false -> holds w ht bs -> holds w sn cbs -> cbs = bs.
Proof.
  intros HI Hd [Hn Hb] [Hn' Hb']. pose proof (clean_nodes _ _ _ HI Hd) as HE.
  destruct (hi_old _ _ _ HI) as (HC & Eh & Ef & _).
  assert (El : length bs = length cbs).
  { enough (nodes_of ht = nodes_of sn) by lia. eapply wft_size; [apply HI | apply HC | unfold nodes_of; lia | unfold nodes_of; lia |].
    intros q. specialize (HE q). destruct (node_at (ht_root ht) q), (node_at (ht_root sn) q); done || (split; by intros [? [=]]). }
  apply list_eq. intros k. destruct (bs !! k) as [b|] eqn:Ek, (cbs !! k) as [c|] eqn:Ek'.
  - apply Hb in Ek. apply Hb' in Ek'. unfold block_of in *. specialize (HE (path_of (Z.of_nat k + 1))).
    destruct (node_at (ht_root ht) _) as [n|], (node_at (ht_root sn) _) as [m|]; try done. cbn in HE. injection HE as HE.
    unfold open_block, block_aad, block_vers in *. rewrite HE, Eh, Ef in Ek. congruence.
  - apply lookup_lt_Some in Ek. apply lookup_ge_None in Ek'. lia.
  - apply lookup_lt_Some in Ek'. apply lookup_ge_None in Ek. lia.
  - done.
Qed.


Lemma clean_sdirty t : clean t -> sdirty t = false.
Proof. induction t as [|n c0 IH0 c1 IH1]; [done |]. cbn. intros (-> & _ & H0 & H1). by rewrite IH0, IH1. Qed.
Lemma committed_hinv w sn : committed w sn -> hinv w sn (Some sn).
Proof.
  intros HC. pose proof HC as [HO Hc Hd _ _ _ _ Hf]. split; try done; [by apply relt_clean |]. by rewrite Hd, clean_sdirty.
Qed.

(** The tree written back is the new commit. *)
Lemma synced_open w w' ht bs ht' h osn : hinv w ht osn -> holds w ht bs ->
  match osn with Some _ => True | None => head_vers (ht_head ht) = true end -> sdirty (ht_root ht) = true ->
  sync_result w ht osn (inl h) w' ht' -> open_at w' ht' (Some ht') bs.
Proof.
  intros HI Hh Hc Hd (HK & HC' & -> & Hv & Hn & Hu' & _ & HB & HF & Hbl). cbn [open_at].
  split_and!; [| by apply committed_hinv |].
  - destruct osn as [sn|].
    + destruct (hi_old _ _ _ HI) as (_ & Eh & _). destruct HK as [HK _].
      destruct (sync_hash_new w w' ht sn ht' HI Hd HC' HB HF) as [Hne | ?]; [left | by right].
      eapply offered_new; [exact HK | congruence | done].
    + left. left. by rewrite Hv, Hc.
  - destruct Hh as [H1 H2]. split; [congruence |]. intros k b Hk. apply Hbl; [lia | by apply H2].
Qed.

(** An open tree that is dirty has everything a write-back needs. *)
Lemma open_dirty w ht osn bs : open_at w ht osn bs -> ht_dirty ht = true ->
  hinv w ht osn /\ holds w ht bs /\ match osn with Some _ => True | None => head_vers (ht_head ht) = true end.
Proof.
  destruct osn as [sn|]; cbn [open_at]; [by intros (_ & HI & Hbs) _ |].
  intros [Hv [(_ & E & _) | [HI Hbs]]] Ed; [congruence | done].
Qed.

Lemma sync_at w ht osn bs : open_at w ht osn bs ->
  wpx tee_fs_htree_sync_to_storage (w, Some ht) (fun r s' => old_kept w (fst s') osn /\
    match r with
    | inl (Some h) => exists ht', snd s' = Some ht' /\ committed (fst s') ht' /\ h = root_hash (ht_root ht') /\
        open_at (fst s') ht' (Some ht') bs /\ ht_imeta ht' = ht_imeta ht /\ ht_uuid ht' = ht_uuid ht
    | inl None => sameV w (fst s') /\ snd s' = Some ht /\ ht_dirty ht = false
    | inr _ => flaky /\ (snd s' = None \/ sameV w (fst s') /\ snd s' = Some ht)
    end).
Proof.
  intros HO. unfold tee_fs_htree_sync_to_storage. apply wpx_bind, wpx_get_d. cbn [snd].
  assert (Hsame : forall w', sameV w w' -> old_kept w w' osn) by (intros w' HS; eapply open_kept; [done |]; intros HI; by eapply old_kept_same).
  destruct (ht_dirty ht) eqn:Ed; cbn [negb]; [| apply wpx_ret; cbn [fst snd]; split; [by apply Hsame | done]].
  apply wpx_bind, wpx_onW. eapply wpx_mono; [apply h_hash_size |]. cbn beta.
  intros [sz|e] w1 [HS1 HR1]; cbn [fst snd]; [| split; [by apply Hsame |]; split; [done | by right]].
  apply wpx_bind, wpx_onW. eapply wpx_mono; [apply quiet_malloc |]. cbn beta. intros m w2 [HS2 HR2].
  assert (HS : sameV w w2) by (by etransitivity).
  destruct m as [[m|]|e]; [| apply wpx_throw; cbn [fst snd]; split; [by apply Hsame |]; split; [by apply HR2 | by right]
    | cbn [fst snd]; split; [by apply Hsame |]; split; [done | by right]].
  destruct (open_dirty w2 ht osn bs (open_same _ _ _ _ _ HS HO) Ed) as (HI & Hbs & Hc).
  assert (Hd : sdirty (ht_root ht) = true) by (by rewrite <- (hi_dirty _ _ _ HI)).
  apply wpx_bind, on_ht_wp. eapply wpx_mono; [by apply (sync_body_spec w2 ht osn) |]. cbn beta.
  intros r [w3 ht3] HR; cbn [fst snd] in *. pose proof HR as [HK HR'].
  assert (HK3 : old_kept w w3 osn) by (eapply old_kept_trans; [by apply Hsame | done]). destruct r as [h|e].
  - apply wpx_ret. cbn [fst snd]. split; [done |]. exists ht3. split; [done |]. destruct HR' as (HC & Eh & _ & _ & Eu & Ei & _).
    split_and!; [done | done | by eapply (synced_open w2) | done | done].
  - split; [done |]. split; [done | by left].
Qed.

(** Before the first commit there is something to write back. *)
Lemma hinv_none_dirty w ht : hinv w ht None -> ht_dirty ht = true.
Proof.
  intros HI. pose proof (hi_dirty _ _ _ HI) as ->. pose proof (hi_rel _ _ _ HI) as HR. cbn [old_root] in HR.
  destruct (root_there ht (ho_shape _ (hi_ok _ _ _ HI))) as [n Hn]. destruct (ht_root ht) as [|? ? ?]; [done |].
  cbn in HR |- *. by destruct HR as (_ & -> & _).
Qed.

(** ** Steps of the abstract file *)

(** The result of a call: a step of the abstract file. *)
Definition simulates u a op (r : answer + Z) (s : whtp W) : Prop := exists a', astep flaky a op r a' /\ hrel (fst s) (snd s) u a'.

(** The version the commit is, and the commit after a call that leaves the version. *)
Definition version_of w u (osn : option tee_fs_htree) (c : option (list Z * list (list Z))) : Prop :=
  match osn, c with Some sn, Some (h, cbs) => commit_of w u sn h cbs | None, None => True | _, _ => False end.
Lemma open_version w ht u c bs : open_of w ht u c bs <-> exists osn, version_of w u osn c /\ open_at w ht osn bs.
Proof.
  destruct c as [[h cbs]|]; cbn [open_of]; split.
  - intros (sn & HC & HO). by exists (Some sn).
  - intros ([sn|] & HC & HO); [by exists sn | done].
  - intros HO. by exists None.
  - by intros ([sn|] & HC & HO).
Qed.
Lemma version_kept w w' u osn c : version_of w u osn c -> old_kept w w' osn -> version_of w' u osn c.
Proof. destruct osn as [sn|], c as [[h cbs]|]; try done. cbn. intros HC HK. by eapply commit_kept. Qed.
Lemma closed_rel w u osn c : version_of w u osn c -> hrel w None u (mkAfile None c).
Proof. destruct osn as [sn|], c as [[h cbs]|]; try done. cbn. eauto. Qed.
Lemma open_rel w ht u osn c bs : version_of w u osn c -> open_at w ht osn bs -> ht_uuid ht = u -> hrel w (Some ht) u (mkAfile (Some bs) c).
Proof. intros HV HO Hu. split; [done |]. apply open_version. eauto. Qed.

Lemma sim_write w ht u c bs k b : ht_uuid ht = u -> open_of w ht u c bs -> hop_ok (length bs) (HopWrite k b) ->
  wpx (hop_run (HopWrite k b)) (w, Some ht) (simulates u (mkAfile (Some bs) c) (HopWrite k b)).
Proof.
  intros Hu (osn & HV & HO)%open_version Hok. cbn [hop_run]. apply wpx_bind. eapply wpx_mono; [by apply (write_at w ht osn bs k b) |].
  cbn beta. intros [[]|e] [w' o'] [HK HR]; cbn [fst snd] in *; pose proof (version_kept _ _ _ _ _ HV HK) as HV'.
  - destruct HR as (ht' & -> & HO' & Eu & _). apply wpx_ret. eexists. split; [constructor |]. eapply open_rel; [done | done | congruence].
  - destruct HR as [Hf ->]. exists (mkAfile None c). split; [by constructor | by eapply closed_rel].
Qed.

Lemma sim_read w ht u c bs k : ht_uuid ht = u -> open_of w ht u c bs -> hop_ok (length bs) (HopRead k) ->
  wpx (hop_run (HopRead k)) (w, Some ht) (simulates u (mkAfile (Some bs) c) (HopRead k)).
Proof.
  intros Hu (osn & HV & HO)%open_version Hk. cbn in Hk. cbn [hop_run]. apply wpx_bind. destruct (lookup_lt_is_Some_2 bs k Hk) as [b Hb].
  eapply wpx_mono; [by apply (read_at w ht osn bs k b) |]. cbn beta. intros r [w' o'] [HS HR]; cbn [fst snd] in *.
  assert (HV' : version_of w' u osn c).
  { eapply version_kept; [done |]. eapply open_kept; [done |]. intros HI. by eapply old_kept_same. }
  destruct r as [b'|e].
  - destruct HR as [-> ->]. apply wpx_ret. eexists. split; [by constructor |]. eapply open_rel; [done | by eapply open_same | done].
  - destruct HR as [Hf ->]. exists (mkAfile None c). split; [by constructor | by eapply closed_rel].
Qed.

Lemma sim_sync w ht u c bs : ht_uuid ht = u -> open_of w ht u c bs ->
  wpx (hop_run HopSync) (w, Some ht) (simulates u (mkAfile (Some bs) c) HopSync).
Proof.
  intros Hu (osn & HV & HO)%open_version. cbn [hop_run]. apply wpx_bind. eapply wpx_mono; [by apply (sync_at w ht osn bs) |].
  cbn beta. intros r [w' o'] [HK HR]; cbn [fst snd] in *. pose proof (version_kept _ _ _ _ _ HV HK) as HV'.
  destruct r as [[h|]|e].
  - destruct HR as (ht' & -> & HC & -> & HO' & _ & Eu). apply wpx_ret. eexists. split; [apply as_sync |].
    assert (Hh : holds w' ht' bs) by apply HO'. eapply (open_rel w' ht' u (Some ht')); [| done | congruence]. cbn. split_and!; [done | done | done | congruence].
  - destruct HR as (HS & -> & Ed). apply wpx_ret. exists (mkAfile (Some bs) c). split; [| by eapply open_rel; [done | by eapply open_same | done]].
    constructor. destruct osn as [sn|], c as [[h cbs]|]; try done; cbn [open_at version_of] in HO, HV.
    + destruct HO as (_ & HI & Hbs). eapply (clean_blocks w ht sn); [done | by rewrite <- (hi_dirty _ _ _ HI) | done | apply HV].
    + destruct HO as [_ [(_ & _ & ->) | [HI _]]]; [done |]. by apply hinv_none_dirty in HI; rewrite Ed in HI.
  - destruct HR as [Hf [-> | [HS ->]]].
    + exists (mkAfile None c). split; [by apply as_error | by eapply closed_rel].
    + exists (mkAfile (Some bs) c). split; [by apply as_error_sync |]. by eapply open_rel; [done | by eapply open_same | done].
Qed.

(** ** Every call *)

Lemma sim_closed w op : wpx (hop_run op) (w, None) (fun r s => r = inr TEE_ERROR_CORRUPT_OBJECT /\ s = (w, None)).
Proof. destruct op; cbn [hop_run]; apply wpx_bind; by eexists _, _. Qed.

Lemma sim_step w o u a op : hrel w o u a -> (forall bs, a_cur a = Some bs -> hop_ok (length bs) op) ->
  wpx (hop_run op) (w, o) (simulates u a op).
Proof.
  intros HR Hok. destruct o as [ht|], a as [[bs|] c]; try done.
  - destruct HR as [Hu HO]. specialize (Hok bs eq_refl). destruct op as [k b|k|]; [by apply sim_write | by apply sim_read | by apply sim_sync].
  - eapply wpx_mono; [apply (sim_closed w op) |]. cbn beta. intros r s' [-> ->]. exists (mkAfile None c). split; [by constructor | done].
Qed.

Lemma hops_ok_cons n op ops : hops_ok n (op :: ops) -> hop_ok n op /\
  exists n', hops_ok n' ops /\ n' = match op with HopWrite k _ => Nat.max n (S k) | _ => n end.
Proof. destruct op as [k b|k|]; cbn; [intros (? & ? & ? & ?) | intros [? ?] | intros ?]; eauto 10. Qed.

(** The number of blocks after a step. *)
Lemma astep_length may_fail a op r a' bs' : astep may_fail a op r a' -> a_cur a' = Some bs' ->
  exists bs, a_cur a = Some bs /\ (hop_ok (length bs) op -> length bs' = match op with HopWrite k _ => Nat.max (length bs) (S k) | _ => length bs end).
Proof.
  destruct 1; cbn; intros E; try done; injection E as <-; eexists; (split; [reflexivity |]); try done.
  intros (Hk & _). destruct (put_block_length k b bs); [done | lia].
Qed.

Lemma sim_steps ops : forall w o u a, hrel w o u a -> (forall bs, a_cur a = Some bs -> hops_ok (length bs) ops) ->
  exists rs w' o' a', hops_run ops (w, o) = Ret (rs, (w', o')) /\ aruns flaky a ops rs a' /\ hrel w' o' u a'.
Proof.
  induction ops as [|op ops IH]; intros w o u a HR Hok; [exists [], w, o, a; split_and!; [done | constructor | done] |].
  assert (Hop : forall bs, a_cur a = Some bs -> hop_ok (length bs) op) by (intros bs Hb; by apply hops_ok_cons with (ops := ops), Hok).
  destruct (sim_step w o u a op HR Hop) as (r & [w1 o1] & E & a1 & Hst & HR1). cbn [fst snd] in *.
  destruct (IH w1 o1 u a1 HR1) as (rs & w2 & o2 & a2 & E2 & Hrs & HR2).
  { intros bs1 Hb1. destruct (astep_length _ _ _ _ _ _ Hst Hb1) as (bs & Hb & Hl). specialize (Hl (Hop bs Hb)).
    destruct (hops_ok_cons _ _ _ (Hok bs Hb)) as [_ (n' & Hn' & ->)]. by rewrite Hl. }
  exists (r :: rs), w2, o2, a2. cbn [hops_run]. split_and!; [| by econstructor | done].
  unfold mbind, outcome_bind. rewrite E. cbn. unfold mbind, outcome_bind. by rewrite E2.
Qed.


(** ** Creating a file *)

Definition blank (n : htree_node) : htree := Node n Null Null.

Lemma init_root_spec s : ht_root (snd s) = blank (new_node 0) ->
  quietT init_root_node s (fun _ ht => exists h, length h = 32%nat /\
    ht = set_root (snd s) (blank (mkNode 1 false false (ni_set_hash zero_ni h)))).
Proof.
  intros Er. unfold init_root_node. eapply quietT_bind; [apply quietT_onW, h_hash_size |]. cbn beta. intros sz s1 _ [_ E1].
  apply quietT_malloc. intros s2 _ E2. eapply quietT_bind; [apply quietT_upd |]. cbn beta. intros _ s3 _ E3.
  rewrite E2, E1, Er in E3. cbn in E3. eapply quietT_bind; [apply quietT_get |]. cbn beta. intros ? s4 _ [-> E4]. rewrite E3 in *. cbn [ht_root set_root].
  eapply quietT_bind; [by eapply quietT_pure |]. cbn beta. intros ? s5 _ [-> E5].
  eapply quietT_bind; [apply quietT_onW, quiet_calc_node_hash |]. cbn beta. intros ? s6 _ [-> E6].
  eapply quietT_mono; [apply quietT_upd |]. cbn beta. intros _ ht ->. rewrite E6, E5, E4.
  eexists. split; [apply hash_fn_length |]. done.
Qed.

(** Writing back a tree whose only node is not dirty writes the header alone. *)
Lemma sync_blank w ht n : ht_root ht = blank n -> n_dirty n = false -> n_block_updated n = false -> head_wf (ht_head ht) ->
  wpx sync_body (w, ht) (fun r s' => match r with
    | inl _ => exists iv, length iv = 16%nat /\ snd s' = set_ht_dirty (set_head ht (next_head ht iv)) false
    | inr _ => flaky
    end).
Proof.
  intros Er Hd Hb Hw. unfold sync_body. apply wpx_bind, wpx_get_d. cbn [snd]. rewrite Er. apply wpx_bind, wpx_onW.
  eapply wpx_mono with (Q := fun r w' => r = inl (blank n) /\ w' = w).
  { eexists _, _. split; [| done]. unfold htree_traverse_post_order, blank. cbn. unfold mbind, ex_bind, htree_sync_node_to_storage. cbn.
    rewrite Hd, Hb. done. }
  cbn beta. intros r w1 [-> ->]. apply wpx_bind, wpx_upd_d. cbn [fst snd].
  assert (E0 : set_root ht (blank n) = ht) by (rewrite <- Er; by destruct ht). rewrite E0.
  assert (Hn : node_at (ht_root ht) [] = Some n) by (by rewrite Er).
  apply wpx_bind. eapply wpx_mono; [apply (update_root_spec w ht); by rewrite Hn |]. cbn beta.
  intros [[]|e] [w2 ht2] [HS2 HR]; cbn [fst snd] in *; [| done]. destruct HR as (iv & Hiv & ->).
  apply wpx_bind, wpx_get_d. cbn [snd ht_head set_head]. rewrite land1_b2z. apply wpx_bind, wpx_onW.
  eapply wpx_mono; [apply (write_entry TYPE_HEAD 0); [split; [unfold max_idx; lia | apply b2z_01] |] |].
  { by rewrite image_bytes_length by (by apply next_head_wf). }
  cbn beta. intros [[]|e] w3 [_ HR3]; [| done]. apply wpx_bind, wpx_upd_d. cbn [fst snd]. apply wpx_bind.
  eapply wpx_pure; [cbn; by rewrite Hn |]. apply wpx_ret. cbn [snd]. by exists iv.
Qed.

(** What the creation has before it writes anything. *)
Definition before_create u (ht : tee_fs_htree) : Prop := exists fek h, length fek = 16%nat /\ length h = 32%nat /\
  ht = set_ht_dirty (set_root (set_head (set_fek (new_ht u) fek) (hd_set_enc_fek zero_image (fek_enc u fek)))
    (blank (mkNode 1 false false (ni_set_hash zero_ni h)))) true.

Lemma before_create_head u ht : before_create u ht -> head_wf (ht_head ht).
Proof. intros (fek & h & Hf & Hh & ->). cbn. unfold head_wf. cbn. rewrite fek_enc_length. split_and!; (done || lia). Qed.

Lemma created_fresh u ht iv : before_create u ht -> length iv = 16%nat ->
  let ht' := set_ht_dirty (set_head ht (next_head ht iv)) false in
  fresh ht' /\ ht_dirty ht' = false /\ ht_uuid ht' = u /\ head_vers (ht_head ht') = true /\ im_length (ht_imeta ht') = 0.
Proof.
  intros Hbc Hiv. pose proof (before_create_head _ _ Hbc) as Hhw. destruct Hbc as (fek & h & Hf & Hh & ->). cbn zeta.
  split_and!; try done. split_and!; [| done | cbn; apply fek_dec_enc].
  set (ht' := set_ht_dirty (set_head _ _) false). assert (Er : ht_root ht' = Node (mkNode 1 false false (ni_set_hash zero_ni h)) Null Null) by done.
  assert (En : nodes_of ht' = 1) by done. split.
  - split; rewrite En; [| unfold UINT_MAX; lia]. intros p. rewrite Er, node_at_leaf.
    destruct p as [|b p]; [split; [done |]; by intros ? [= <-] |]. split; [| done]. split; [by intros [] |].
    intros Hp. pose proof (id_of_bounds (b :: p)) as Hb.
    assert (2 ^ 1 <= 2 ^ Z.of_nat (length (b :: p))) by (apply Z.pow_le_mono_r; cbn [length]; lia). lia.
  - intros p n. rewrite Er, node_at_leaf. destruct p; [intros [= <-] | done].
    unfold ni_wf. cbn. split_and!; (done || lia).
  - by apply next_head_wf.
  - unfold imeta_wf. cbn. lia.
Qed.

(** Up to the write-back nothing is stored. *)
Lemma before_create_spec w u : quietT
  (fek ← onW (prng_read TEE_FS_HTREE_FEK_SIZE);
   _ ← upd_d (fun ht => set_fek ht fek);
   ht ← get_d;
   enc_fek ← onW (fek_crypt (ht_uuid ht) TEE_MODE_ENCRYPT (ht_fek ht));
   _ ← upd_d (fun ht => set_head ht (hd_set_enc_fek (ht_head ht) enc_fek));
   _ ← init_root_node;
   upd_d (fun ht => set_ht_dirty ht true)) (w, new_ht u) (fun _ => before_create u).
Proof.
  eapply quietT_bind; [apply quietT_onW, h_prng; unfold TEE_FS_HTREE_FEK_SIZE; lia |]. cbn beta. intros fek s1 _ [Hl E1].
  eapply quietT_bind; [apply quietT_upd |]. cbn beta. intros _ s2 _ E2.
  eapply quietT_bind; [apply quietT_get |]. cbn beta. intros ? s3 _ [-> E3].
  eapply quietT_bind; [apply quietT_onW, h_fek; by left |]. cbn beta. intros ? s4 _ [-> E4]. rewrite Z.eqb_refl.
  eapply quietT_bind; [apply quietT_upd |]. cbn beta. intros _ s5 _ E5.
  rewrite E4, E3, E2, E1 in E5. cbn in E5.
  eapply quietT_bind; [apply init_root_spec; by rewrite E5 |]. cbn beta. intros _ s6 _ (h & Hh & E6).
  eapply quietT_mono; [apply quietT_upd |]. cbn beta. intros _ ht ->. rewrite E6, E5. exists fek, h.
  unfold TEE_FS_HTREE_FEK_SIZE in Hl. split; [lia |]. done.
Qed.

Definition created u (ht : tee_fs_htree) : Prop :=
  fresh ht /\ ht_dirty ht = false /\ ht_uuid ht = u /\ head_vers (ht_head ht) = true /\ im_length (ht_imeta ht) = 0.
Lemma open_create_spec w u : wpx open_create (w, Some (new_ht u)) (fun r s' =>
  match r with inl _ => exists ht, snd s' = Some ht /\ created u ht | inr _ => flaky end).
Proof.
  unfold open_create. apply wpx_bind, on_ht_wp. eapply wpx_mono; [apply before_create_spec |].
  cbn beta. intros [[]|e] [w2 ht2] [_ Hbc]; cbn [fst snd] in *; [| done].
  apply wpx_bind. unfold tee_fs_htree_sync_to_storage. apply wpx_bind, wpx_get_d. cbn [snd].
  assert (Ed : ht_dirty ht2 = true) by (by destruct Hbc as (? & ? & _ & _ & ->)). rewrite Ed. cbn [negb].
  apply wpx_bind, wpx_onW. eapply wpx_mono; [apply h_hash_size |]. cbn beta. intros [sz|e] w3 [_ ?]; [| done].
  apply wpx_bind, wpx_onW. eapply wpx_mono; [apply quiet_malloc |]. cbn beta.
  intros [[m'|]|e] w4 [_ HN']; [| apply wpx_throw; by apply HN' | done].
  apply wpx_bind, on_ht_wp. pose proof (before_create_head _ _ Hbc) as Hhw.
  eapply wpx_mono; [eapply (sync_blank w4 ht2 (mkNode 1 false false (ni_set_hash zero_ni (root_hash (ht_root ht2))))); [| done | done | done] |].
  { by destruct Hbc as (? & ? & _ & _ & ->). }
  cbn beta. intros [h|e] [w5 ht5] HR; cbn [fst snd] in *; [| done]. destruct HR as (iv & Hiv & ->). apply wpx_ret.
  apply wpx_bind, wpx_onW. eapply wpx_mono; [apply (write_entry TYPE_HEAD 0 0); [split; [unfold max_idx; lia | auto] | done] |]. cbn beta.
  intros [[]|e] w6 [_ HR6]; [| done]. apply wpx_ret. cbn [snd]. eexists. split; [reflexivity |]. by apply created_fresh.
Qed.
Lemma create_fresh w u hash : wpx (tee_fs_htree_open true hash u) w (fun r w' => match r with inl (ht, _) => created u ht | inr _ => flaky end).
Proof.
  unfold tee_fs_htree_open. apply wpx_bind. eapply wpx_mono; [apply quiet_malloc |]. cbn beta.
  intros [[m|]|e] w1 [HS1 HN]; [| apply wpx_throw; by apply HN | done].
  destruct (open_create_spec w1 u) as (r & [w2 o2] & E & HR). unfold wpx, open_tree. rewrite E. cbn [fst snd] in HR.
  destruct r as [h|e]; [destruct HR as (ht & -> & HR) |]; by eexists _, _.
Qed.
Lemma create_spec w u hash : wpx (tee_fs_htree_open true hash u) w (fun r w' =>
  match r with inl (ht, _) => hrel w' (Some ht) u (mkAfile (Some []) None) | inr _ => flaky end).
Proof.
  eapply wpx_mono; [apply (create_fresh w u hash) |]. cbn beta. intros [[ht h]|e] w' HR; [| done].
  destruct HR as (Hfr & Hd & Hu & Hv & _). cbn. split_and!; [done | done | by left].
Qed.

(** ** Opening it again *)

Lemma reopen_spec w sn u h bs : commit_of w u sn h bs -> offered w sn ->
  wpx (tee_fs_htree_open false (Some h) u) w (fun r w' => sameV w w' /\
    match r with inl (ht, _) => hrel w' (Some ht) u (mkAfile (Some bs) (Some (h, bs))) | inr _ => flaky end).
Proof.
  intros HC Hoff. pose proof HC as (Hcm & Hbs & <- & <-). eapply wpx_mono; [by apply open_committed |]. cbn beta.
  intros [[ht h]|e] w' [HS HR]; split; try done. destruct HR as [-> ->].
  eapply (open_rel w' sn _ (Some sn)); [| | done].
  - eapply version_kept; [exact HC |]. by eapply old_kept_same; [apply committed_hinv |].
  - eapply open_same; [done |]. cbn. split_and!; [by left | by apply committed_hinv | done].
Qed.

End Spec.
