(* ===== verification/HtreeTamper.v ===== *)
(** * What a root hash binds

    [wlpx] is partial correctness: what holds of a call that returns.  A file that opens under
    a hash has nodes whose hashes are right up to the root, so two files that open under the
    same hash have the same nodes, or show two inputs with one hash. *)

From stdpp Require Import base numbers list.
From S2P Require Import Prelude SkTypes FsCore Dirfile Htree HtreeShape HtreeLaws HtreeBlocks HtreeSync HtreeCommit HtreeOpen HtreeSpec.

(** ** Partial correctness *)

Definition wlpx {W A} (m : ex W A) (w : W) (Q : A -> W -> Prop) : Prop := forall a w', m w = Ret (inl a, w') -> Q a w'.

Section Wlp.
Context {W : Type}.
Implicit Types (w : W).
Lemma wlpx_bind {A B} (m : ex W A) (f : A -> ex W B) w Q : wlpx m w (fun a w' => wlpx (f a) w' Q) -> wlpx (m ≫= f) w Q.
Proof.
  intros Hm b w'. unfold mbind, ex_bind. destruct (m w) as [[[a|e] w1]|] eqn:E; [| done | done]. by apply Hm.
Qed.
Lemma wlpx_ret {A} (a : A) w (Q : A -> W -> Prop) : Q a w -> wlpx (mret a) w Q.
Proof. intros HQ a' w' E. by injection E as <- <-. Qed.
Lemma wlpx_throw {A} e w (Q : A -> W -> Prop) : wlpx (throw e) w Q.
Proof. done. Qed.
Lemma wlpx_any {A} (m : ex W A) w : wlpx m w (fun _ _ => True).
Proof. done. Qed.
Lemma wlpx_mono {A} (m : ex W A) w (P Q : A -> W -> Prop) : wlpx m w P -> (forall a w', P a w' -> Q a w') -> wlpx m w Q.
Proof. intros Hm HPQ a w' E. by apply HPQ, Hm. Qed.
Lemma wpx_wlpx {A} (m : ex W A) w Q : wpx m w Q -> wlpx m w (fun a w' => Q (inl a) w').
Proof. intros Hm a w' E. by eapply wpx_eq in Hm. Qed.
End Wlp.

Section WlpObject.
Context {W D : Type}.
Implicit Types (s : W * D).
Lemma wlpx_onW {A} (m : ex W A) s (Q : A -> Prop) : wlpx m (fst s) (fun a _ => Q a) ->
  wlpx (onW m) s (fun a s' => Q a /\ snd s' = snd s).
Proof.
  destruct s as [w d]. intros Hm a s' E. cbn in *. destruct (m w) as [[r w1]|] eqn:Em; [| done].
  injection E as -> <-. split; [by eapply Hm | done].
Qed.
Lemma wlpx_get s : wlpx get_d s (fun d s' => d = snd s /\ s' = s).
Proof. destruct s as [w0 d0]. intros d s' E. by injection E as <- <-. Qed.
Lemma wlpx_upd f s : wlpx (upd_d f) s (fun _ s' => snd s' = f (snd s)).
Proof. destruct s as [w0 d0]. intros d s' E. by injection E as <- <-. Qed.
Lemma wlpx_put d s : wlpx (put_d d) s (fun _ s' => snd s' = d).
Proof. destruct s as [w0 d0]. intros d' s' E. by injection E as <- <-. Qed.
Lemma wlpx_pure {A} (m : outcome A) s : wlpx (pure_c m) s (fun a s' => m = Ret a /\ s' = s).
Proof. intros a s' E. unfold pure_c in E. destruct m; [| done]. by injection E as <- <-. Qed.
End WlpObject.

Section Tamper.
Context {W : Type} `{HtreeLaws W}.
Implicit Types (w : W) (s : wht W) (t : htree).

(** ** Trees whose hashes bind them *)

Definition sized_ni (ni : node_image) : Prop := length (ni_hash ni) = 32%nat /\ length (ni_data ni) = 34%nat.
Definition sized t : Prop := forall p n, node_at t p = Some n -> sized_ni (n_node n).
Definition shaped t : Prop := forall p, node_at t (p ++ [false]) = None -> node_at t (p ++ [true]) = None.
Definition data_at t p : option (list Z) := option_map (fun n => ni_data (n_node n)) (node_at t p).

Lemma wft_shaped t m : wft t m -> shaped t.
Proof.
  intros Hw p Hn. destruct (node_at t (p ++ [true])) eqn:E; [| done]. exfalso.
  assert (id_of (p ++ [true]) <= m) by (apply (Hw (p ++ [true])); by rewrite E).
  assert (Hs : is_Some (node_at t (p ++ [false]))) by (apply Hw; rewrite !id_of_snoc in *; cbn in *; lia).
  rewrite Hn in Hs. by destruct Hs.
Qed.
Lemma sized_child n c0 c1 b : sized (Node n c0 c1) -> sized (child (Node n c0 c1) b).
Proof. intros HS p m Hp. by apply (HS (b :: p)). Qed.
Lemma shaped_child n c0 c1 b : shaped (Node n c0 c1) -> shaped (child (Node n c0 c1) b).
Proof. intros HS p Hp. by apply (HS (b :: p)). Qed.

(** The hashes of the children out of what was hashed. *)
Lemma child_hashes n c0 c1 m d0 d1 : sized (Node n c0 c1) -> sized (Node m d0 d1) -> shaped (Node n c0 c1) -> shaped (Node m d0 d1) ->
  default [] (child_hash c0) ++ default [] (child_hash c1) = default [] (child_hash d0) ++ default [] (child_hash d1) ->
  child_hash c0 = child_hash d0 /\ child_hash c1 = child_hash d1.
Proof.
  intros S1 S2 H1 H2 E. pose proof (f_equal length E) as L. rewrite !length_app in L.
  assert (Hlen : forall n c0 c1 b, sized (Node n c0 c1) ->
    match child (Node n c0 c1) b with Null => True | Node k _ _ => length (ni_hash (n_node k)) = 32%nat end).
  { clear. intros n c0 c1 b HS. destruct (child (Node n c0 c1) b) as [|k ? ?] eqn:E; [done |].
    apply (HS [b] k). unfold node_at. cbn [sub]. by rewrite E. }
  pose proof (Hlen _ _ _ false S1) as L1. pose proof (Hlen _ _ _ true S1) as L2. pose proof (Hlen _ _ _ false S2) as L3. pose proof (Hlen _ _ _ true S2) as L4.
  specialize (H1 []). specialize (H2 []). cbn in H1, H2, L1, L2, L3, L4.
  destruct c0 as [|k0 ? ?], c1 as [|k1 ? ?], d0 as [|j0 ? ?], d1 as [|j1 ? ?]; cbn in *;
    try (specialize (H1 eq_refl)); try (specialize (H2 eq_refl)); try done; try lia.
  - rewrite !app_nil_r in E. by rewrite E.
  - apply app_inj_1 in E as [-> ->]; [done | congruence].
Qed.

Lemma hashes_bind t1 : forall t2, sized t1 -> sized t2 -> shaped t1 -> shaped t2 -> hashed t1 -> hashed t2 ->
  child_hash t1 = child_hash t2 -> (forall p, data_at t1 p = data_at t2 p) \/ collision.
Proof.
  induction t1 as [|n c0 IH0 c1 IH1]; intros [|m d0 d1] S1 S2 P1 P2 H1 H2 E; cbn [child_hash] in E; try done; [by left |].
  injection E as E. destruct H1 as (E1 & H1 & H1'), H2 as (E2 & H2 & H2').
  destruct (decide (node_input n (child_hash c0) (child_hash c1) = node_input m (child_hash d0) (child_hash d1))) as [Ein|Nin].
  2:{ right. eexists _, _. split; [exact Nin | congruence]. }
  apply node_input_inj in Ein as [Ed Ec].
  2:{ by rewrite (proj2 (S1 [] n eq_refl)), (proj2 (S2 [] m eq_refl)). }
  destruct (child_hashes n c0 c1 m d0 d1 S1 S2 P1 P2 Ec) as [Ec0 Ec1].
  destruct (IH0 d0) as [D0 | ?]; [apply (sized_child _ _ _ false S1) | apply (sized_child _ _ _ false S2) |
    apply (shaped_child _ _ _ false P1) | apply (shaped_child _ _ _ false P2) | done | done | done | | by right].
  destruct (IH1 d1) as [D1 | ?]; [apply (sized_child _ _ _ true S1) | apply (sized_child _ _ _ true S2) |
    apply (shaped_child _ _ _ true P1) | apply (shaped_child _ _ _ true P2) | done | done | done | | by right].
  left. intros [|b p]; [cbn; by rewrite Ed |]. unfold data_at. rewrite !node_at_cons. destruct b; [apply D1 | apply D0].
Qed.

(** ** What opens *)

Lemma field_length b i n : (i + n <= length b)%nat -> length (field b i n) = n.
Proof. intros Hl. unfold field. rewrite length_take, length_drop. lia. Qed.
Lemma sized_of b : length b = 66%nat -> sized_ni (ni_of b).
Proof.
  intros Hl. unfold sized_ni, ni_data, ni_of. cbn [ni_hash ni_iv ni_tag ni_flags].
  rewrite !length_app, !field_length, length_le_bytes by lia. done.
Qed.
Lemma read_node_sized id v w : wlpx (rpc_read_node id v) w (fun ni _ => sized_ni ni).
Proof.
  unfold rpc_read_node. apply wlpx_bind. eapply wlpx_mono with (P := fun b _ => length b = 66%nat).
  - unfold rpc_read. apply wlpx_bind, (wlpx_mono _ _ _ _ (wlpx_any _ _)). intros op w1 _.
    apply wlpx_bind, (wlpx_mono _ _ _ _ (wlpx_any _ _)). intros b w2 _. unfold SIZEOF_NODE_IMAGE.
    destruct (Z.eqb_spec (Z.of_nat (length b)) 66); [apply wlpx_ret; lia | apply wlpx_throw].
  - cbn beta. intros b w' Hb. apply wlpx_ret. by apply sized_of.
Qed.

(** A tree of the right shape and sizes, with this image at its root. *)
Definition tree_of (m : Z) (ni : node_image) t : Prop :=
  wft t m /\ sized t /\ option_map n_node (node_at t []) = Some ni.

Lemma read_nodes_any k : forall m ni s, tree_of m ni (ht_root (snd s)) -> 1 <= m ->
  (k <> O -> m + Z.of_nat k <= im_max_node_id (ht_imeta (snd s))) ->
  wlpx (read_nodes k (m + 1)) s (fun _ s' => exists m', tree_of m' ni (ht_root (snd s'))).
Proof.
  induction k as [|k IH]; intros m ni s HT Hm Hk; cbn [read_nodes]; [apply wlpx_ret; eauto |].
  apply wlpx_bind. eapply wlpx_mono; [apply wlpx_get |]. cbn beta. intros ? s1 [-> ->].
  apply wlpx_bind. eapply wlpx_mono; [apply wlpx_pure |]. cbn beta. intros node s1 [_ ->]. destruct node as [node|]; [| apply wlpx_throw].
  apply wlpx_bind. eapply wlpx_mono; [apply wlpx_pure |]. cbn beta. intros n s1 [_ ->]. cbn zeta.
  apply wlpx_bind. eapply wlpx_mono; [apply wlpx_onW, read_node_sized |]. cbn beta. intros ni' s1 [Hni E1].
  destruct HT as (Hw & Hs & Hr). destruct (decide (m + 1 < UINT_MAX)) as [HU|HU].
  2:{ apply wlpx_bind. intros a s' E. unfold get_node, mbind, ex_bind, get_d in E. destruct s1 as [w1 ht1].
      unfold find_closest_node, node_id_to_level in E. rewrite (proj2 (Z.ltb_ge (m + 1) UINT_MAX)), andb_false_r in E by lia. done. }
  destruct (path_snoc (m + 1)) as (p & b & Ep & Eb & Esh); [lia |].
  apply wlpx_bind. eapply wlpx_mono; [eapply wpx_wlpx, (get_node_load p b s1 m); rewrite ?E1; (done || lia) |]. cbn beta.
  intros nc s2 [_ (-> & t' & E2 & Hg)]. rewrite E1 in *.
  apply wlpx_bind. eapply wlpx_mono; [apply wlpx_upd |]. cbn beta. intros _ s3 E3. rewrite E2 in E3. cbn in E3.
  apply (IH (m + 1) ni s3); rewrite ?E3; cbn [ht_root ht_imeta set_root]; [| lia | lia].
  assert (Hpb : [] <> p ++ [b]) by (by destruct p). split_and!.
  - apply wft_upd; [| done]. eapply grown_wft; [exact Hw | lia | done].
  - intros q c. rewrite node_at_upd, (Hg q). destruct (decide (q = p ++ [b])) as [-> |].
    + destruct (decide _); [lia |]. rewrite decide_True by lia. intros [= <-]. done.
    + destruct (decide _); [apply Hs |]. destruct (decide _); [| done]. intros [= <-]. done.
  - rewrite node_at_upd, decide_False, (Hg []), decide_True by (done || cbn; lia). done.
Qed.

Lemma verify_sub_any t : forall parent w, wlpx (traverse_post_order verify_node parent t) w (fun r _ => r = (parent, t) /\ hashed t).
Proof.
  induction t as [|n c0 IH0 c1 IH1]; intros parent w; cbn [traverse_post_order]; [by apply wlpx_ret |].
  apply wlpx_bind. eapply wlpx_mono; [apply IH0 |]. cbn beta. intros ? w1 [-> H0]. cbn [default].
  apply wlpx_bind. eapply wlpx_mono; [apply IH1 |]. cbn beta. intros ? w2 [-> H1]. cbn [default].
  apply wlpx_bind. eapply wlpx_mono with (P := fun r _ => r = (parent, n) /\ ni_hash (n_node n) = hash_fn (node_input n (child_hash c0) (child_hash c1))).
  - unfold verify_node. apply wlpx_bind. eapply wlpx_mono; [eapply wpx_wlpx, quiet_calc_node_hash |]. cbn beta.
    intros h w3 [_ ->]. case_bool_decide as E; [apply wlpx_ret; by split | apply wlpx_throw].
  - cbn beta. intros ? w3 [-> Hn]. apply wlpx_ret. done.
Qed.


(** The root and the header: the root has the hash. *)
Lemma root_with_hash_any hash v s : wlpx (root_with_hash hash v) s (fun b s' => exists ni, sized_ni ni /\
  ht_root (snd s') = upd_node (ht_root (snd s)) [] (fun n => set_image n ni) /\ (b = true -> ni_hash ni = hash)).
Proof.
  unfold root_with_hash. apply wlpx_bind. eapply wlpx_mono; [apply wlpx_onW, read_node_sized |]. cbn beta. intros ni s1 [Hni E1].
  apply wlpx_bind. eapply wlpx_mono; [apply wlpx_upd |]. cbn beta. intros _ s2 E2. rewrite E1 in E2.
  case_bool_decide as Eh; [| apply wlpx_ret; exists ni; rewrite E2; done].
  apply wlpx_bind. eapply wlpx_mono; [apply wlpx_onW with (Q := fun _ => True), wlpx_any |]. cbn beta. intros hd s3 [_ E3].
  apply wlpx_bind. eapply wlpx_mono; [apply wlpx_upd |]. cbn beta. intros _ s4 E4. apply wlpx_ret. exists ni. rewrite E4, E3, E2. done.
Qed.

Lemma init_head_any hash s : ht_root (snd s) = Node (new_node 0) Null Null ->
  wlpx (init_head_from_data (Some hash)) s (fun _ s' => exists ni, ni_hash ni = hash /\ tree_of 1 ni (ht_root (snd s'))).
Proof.
  intros Er. unfold init_head_from_data. apply wlpx_bind.
  eapply wlpx_mono with (P := fun _ s' => exists ni, sized_ni ni /\ ni_hash ni = hash /\ ht_root (snd s') = Node (set_image (new_node 0) ni) Null Null).
  - apply wlpx_bind. eapply wlpx_mono; [apply root_with_hash_any |]. cbn beta. intros b s1 (ni & Hs & E1 & Hh). rewrite Er in E1. cbn in E1.
    destruct b; [apply wlpx_ret; eauto |]. apply wlpx_bind. eapply wlpx_mono; [apply root_with_hash_any |]. cbn beta.
    intros b s2 (ni2 & Hs2 & E2 & Hh2). rewrite E1 in E2. cbn in E2. destruct b; [apply wlpx_ret; eauto | apply wlpx_throw].
  - cbn beta. intros _ s1 (ni & Hs & Hh & E1). eapply wlpx_mono; [apply wlpx_upd |]. cbn beta. intros _ s2 E2. rewrite E2. cbn [ht_root set_root].
    rewrite E1. cbn. exists ni. split; [done |]. split_and!; [| | done].
    + intros q. rewrite node_at_leaf. destruct q as [|b q]; [split; [done |]; by intros ? [= <-] |]. split; [| done]. split; [by intros [] |].
      intros Hp. pose proof (id_of_bounds (b :: q)) as Hb.
      assert (2 ^ 1 <= 2 ^ Z.of_nat (length (b :: q))) by (apply Z.pow_le_mono_r; cbn [length]; lia). lia.
    + intros q n. rewrite node_at_leaf. destruct q; [by intros [= <-] | done].
Qed.

(** A call on the world leaves the tree. *)
Lemma wlpx_world {A} (m : ex W A) s : wlpx (onW m) s (fun _ s' => snd s' = snd s).
Proof. eapply wlpx_mono; [apply (wlpx_onW m s (fun _ => True)), wlpx_any |]. cbn beta. by intros a s' [_ ?]. Qed.

Lemma authenc_start_any mode ni len s : wlpx (authenc_start mode ni len) s (fun _ s' => snd s' = snd s).
Proof.
  unfold authenc_start. apply wlpx_bind. eapply wlpx_mono; [apply wlpx_get |]. cbn beta. intros ? s1 [-> ->].
  apply wlpx_bind. eapply wlpx_mono; [apply wlpx_pure |]. cbn beta. intros iv s1 [_ ->]. cbn zeta.
  apply wlpx_bind. eapply wlpx_mono; [apply wlpx_world |]. cbn beta. intros sz s1 E1.
  apply wlpx_bind. eapply wlpx_mono; [apply wlpx_world |]. cbn beta. intros m s2 E2. destruct m as [m|]; [| apply wlpx_throw].
  apply wlpx_bind. eapply wlpx_mono; [apply wlpx_world |]. cbn beta. intros c s3 E3.
  apply wlpx_bind. eapply wlpx_mono with (P := fun _ s' => snd s' = snd s3).
  - destruct ni as [p|]; [by apply wlpx_ret |]. apply wlpx_bind. eapply wlpx_mono; [apply wlpx_pure |]. cbn beta. intros r s4 [_ ->].
    apply wlpx_bind. eapply wlpx_mono; [apply wlpx_world |]. cbn beta. intros c1 s4 E4.
    eapply wlpx_mono; [apply wlpx_world |]. cbn beta. intros c2 s5 E5. congruence.
  - cbn beta. intros c1 s4 E4. apply wlpx_bind. eapply wlpx_mono; [apply wlpx_world |]. cbn beta. intros c2 s5 E5.
    eapply wlpx_mono; [apply wlpx_world |]. cbn beta. intros c3 s6 E6. congruence.
Qed.

Lemma verify_root_any s : wlpx verify_root s (fun _ s' => ht_root (snd s') = ht_root (snd s)).
Proof.
  unfold verify_root. apply wlpx_bind. eapply wlpx_mono; [apply wlpx_get |]. cbn beta. intros ? s1 [-> ->].
  apply wlpx_bind. eapply wlpx_mono; [apply wlpx_world |]. cbn beta. intros fek s1 E1.
  apply wlpx_bind. eapply wlpx_mono; [apply wlpx_upd |]. cbn beta. intros _ s2 E2.
  apply wlpx_bind. eapply wlpx_mono with (P := fun _ s' => snd s' = snd s2).
  { unfold authenc_init. apply wlpx_bind, wlpx_ret. apply authenc_start_any. }
  cbn beta. intros c s3 E3. apply wlpx_bind. eapply wlpx_mono; [apply wlpx_get |]. cbn beta. intros ? s4 [-> ->].
  apply wlpx_bind. eapply wlpx_mono; [apply wlpx_world |]. cbn beta. intros im s4 E4.
  eapply wlpx_mono; [apply wlpx_upd |]. cbn beta. intros _ s5 E5. rewrite E5, E4, E3, E2, E1. done.
Qed.

Lemma verify_tree_any s : wlpx verify_tree s (fun _ s' => hashed (ht_root (snd s')) /\ snd s' = snd s).
Proof.
  unfold verify_tree. destruct (negb hash_supported); [apply wlpx_throw |].
  apply wlpx_bind. eapply wlpx_mono; [apply wlpx_world |]. cbn beta. intros sz s1 E1.
  apply wlpx_bind. eapply wlpx_mono; [apply wlpx_world |]. cbn beta. intros m s2 E2. destruct m as [m|]; [| apply wlpx_throw].
  apply wlpx_bind. eapply wlpx_mono; [apply wlpx_get |]. cbn beta. intros ? s3 [-> ->].
  apply wlpx_bind. eapply wlpx_mono; [apply wlpx_onW with (Q := fun t => hashed (ht_root (snd s2))) |].
  - unfold htree_traverse_post_order. apply wlpx_bind. eapply wlpx_mono; [apply verify_sub_any |]. cbn beta. intros ? w' [-> Hh]. by apply wlpx_ret.
  - cbn beta. intros t s3 [Hh E3]. apply wlpx_ret. rewrite E3. split; [done | congruence].
Qed.

(** Whatever opens under a hash. *)
Lemma opened w w' h u ht r : tee_fs_htree_open false (Some h) u w = Ret (inl (ht, r), w') ->
  exists m ni, tree_of m ni (ht_root ht) /\ ni_hash ni = h /\ hashed (ht_root ht).
Proof.
  intros E. unfold tee_fs_htree_open in E. revert E. unfold mbind at 1, ex_bind at 1.
  destruct (call (malloc 240) w) as [[[[m|]|e] w1]|] eqn:Em; try done. unfold open_tree, mbind, ex_bind, on_ht.
  destruct (open_existing (Some h) (w1, new_ht u)) as [[[[]|e] [w2 ht2]]|] eqn:Eo; try done. cbn. intros [= -> <- <-].
  enough (Hw : wlpx (open_existing (Some h)) (w1, new_ht u) (fun _ s' => exists m ni, tree_of m ni (ht_root (snd s')) /\ ni_hash ni = h /\ hashed (ht_root (snd s'))))
    by apply (Hw _ _ Eo). clear.
  unfold open_existing. apply wlpx_bind. eapply wlpx_mono; [by apply init_head_any |]. cbn beta. intros _ s1 (ni & Hh & HT).
  apply wlpx_bind. eapply wlpx_mono; [apply verify_root_any |]. cbn beta. intros _ s2 E2. rewrite <- E2 in HT.
  apply wlpx_bind. eapply wlpx_mono with (P := fun _ s' => exists m', tree_of m' ni (ht_root (snd s'))).
  - unfold init_tree_from_data. apply wlpx_bind. eapply wlpx_mono; [apply wlpx_get |]. cbn beta. intros ? s3 [-> ->].
    apply (read_nodes_any _ 1 ni s2); [done | done |]. lia.
  - cbn beta. intros _ s3 (m' & HT'). eapply wlpx_mono; [apply verify_tree_any |]. cbn beta. intros _ s4 [Hha E4]. exists m', ni. by rewrite E4 in *.
Qed.

End Tamper.
