(* ===== verification/HtreeTheorems.v ===== *)
(** * The hash tree file: theorems

    Calls refine the abstract file; a commit survives whatever comes after it; a root hash binds
    the file; a file written and committed is read back.  [HtreeRamLaws] shows that the laws
    hold of the storage in memory. *)

From stdpp Require Import base numbers list.
From S2P Require Import Prelude SkTypes FsCore Dirfile Htree HtreeRam HtreeShape HtreeLaws HtreeBlocks HtreeSync HtreeCommit HtreeOpen HtreeSpec HtreeTamper.

(** ** The laws hold of the storage in memory *)

Module HtreeRamLaws.
Import HtreeRam.

Section RamLaws.
Context {f : bool}.
Implicit Types (w : ram f).
Definition ram_view w (t : htype) (i v : Z) : list Z := default [] (assoc (t, i, v) (r_store w)).
Lemma ram_view_write w k b t i v s n : ram_view (mkRam ((k, b) :: r_store w) s n : ram f) t i v = if decide (k = (t, i, v)) then b else ram_view w t i v.
Proof. unfold ram_view. cbn. by destruct (decide (k = (t, i, v))). Qed.
Lemma ram_open_length k iv a c t p : ram_open k iv a c t = Some p -> length p = length c.
Proof. unfold ram_open. case_decide; [by intros [= <-] | done]. Qed.

Definition ram_same w w' : Prop := forall t i v, ram_view w' t i v = ram_view w t i v.
Definition ram_crypto_laws : CryptoLaws (ram f) ram_same (f = true).
Proof.
  refine {| hash_fn := ram_hash; hctx := eq; aead_seal := ram_seal; aead_open := ram_open;
    actx := fun c k iv a => c = (k, iv, a); fek_enc := fun _ k => k; fek_dec := fun _ k => k |}; try done.
  - intros n w. by eexists _, w.
  - intros n w Hn. eexists _, _. split; [reflexivity |]. split; [done |]. rewrite length_le_bytes. lia.
  - intros w. by eexists _, w.
  - intros w. by eexists _, w.
  - intros c x b w <-. by eexists _, w.
  - intros c x w <-. by eexists _, w.
  - intros k iv a c t p. apply ram_open_length.
  - intros k iv a p. unfold ram_open, ram_seal. cbn. by rewrite decide_True.
  - intros w. by eexists _, w.
  - intros mode k iv tl al pl w. by eexists _, w.
  - intros c k iv a mode b w ->. by eexists _, w.
  - intros c k iv a p w ->. by eexists _, w.
  - intros c k iv a ct t w ->. unfold wpx. cbn. destruct (ram_open k iv a ct t) as [p|] eqn:E; eexists _, w; (split; [reflexivity |]); (split; [done |]); auto.
  - intros u mode k w _. eexists _, w. split; [reflexivity |]. split; [done |]. by destruct (mode =? TEE_MODE_ENCRYPT).
Defined.

#[export] Instance ram_laws : HtreeLaws (ram f).
Proof.
  refine {| flaky := f = true; hview := ram_view; op_for := fun op t i v => op = (t, i, v); h_crypto := ram_crypto_laws |}; try done.
  - intros t i v w _. by eexists _, w.
  - intros t i v w _. by eexists _, w.
  - intros op t i v b w -> _ _. unfold wpx. cbn. unfold ram_write. destruct (if f then r_fail w else None) as [[|n]|] eqn:E.
    + eexists _, _. split; [reflexivity |]. split; [done |]. by destruct f.
    + eexists _, _. split; [reflexivity |]. split; [intros t' i' v' Hne _ _ |]; rewrite ram_view_write; [by rewrite decide_False | by rewrite decide_True].
    + eexists _, _. split; [reflexivity |]. split; [intros t' i' v' Hne _ _ |]; rewrite ram_view_write; [by rewrite decide_False | by rewrite decide_True].
Defined.
End RamLaws.
End HtreeRamLaws.

(** ** Runs of the abstract file *)

(** Blocks written in order from [k] on, and read in order. *)
Fixpoint writes (k : nat) (bs : list (list Z)) : list hop :=
  match bs with [] => [] | b :: bs => HopWrite k b :: writes (S k) bs end.
Fixpoint reads (k n : nat) : list hop :=
  match n with O => [] | S n => HopRead k :: reads (S k) n end.

Section Runs.
Context (may_fail : Prop) (Hnf : ~ may_fail).
Lemma aruns_app a ops1 ops2 rs a' : aruns may_fail a (ops1 ++ ops2) rs a' ->
  exists rs1 rs2 a1, rs = rs1 ++ rs2 /\ aruns may_fail a ops1 rs1 a1 /\ aruns may_fail a1 ops2 rs2 a'.
Proof using Type.
  revert a rs. induction ops1 as [|op ops1 IH]; intros a rs; cbn [app]; [intros Ha; exists [], rs, a; split_and!; [done | constructor | done] |].
  inversion 1 as [|? ? r a2 ? ? ? Hst Hrs]; subst. apply IH in Hrs as (rs1 & rs2 & a1 & -> & H1 & H2).
  exists (r :: rs1), rs2, a1. split_and!; [done | by eapply ar_cons | done].
Qed.
Lemma aruns_writes bs : forall pre c rs a', aruns may_fail (mkAfile (Some pre) c) (writes (length pre) bs) rs a' -> a' = mkAfile (Some (pre ++ bs)) c.
Proof using Hnf.
  induction bs as [|b bs IH]; intros pre c rs a'; cbn [writes]; inversion 1 as [|? ? ? a1 ? ? ? Hst Hrs]; subst; [by rewrite app_nil_r |].
  inversion Hst; subst; [| done]. replace (put_block (length pre) b pre) with (pre ++ [b]) in Hrs.
  - replace (S (length pre)) with (length (pre ++ [b])) in Hrs by (rewrite length_app; cbn; lia). apply IH in Hrs as ->. by rewrite <- app_assoc.
  - unfold put_block. by rewrite decide_False by lia.
Qed.
Lemma aruns_reads bs c n : forall k rs a', aruns may_fail (mkAfile (Some bs) c) (reads k n) rs a' -> (k + n = length bs)%nat ->
  rs = map (fun b => inl (ABlock b)) (drop k bs).
Proof using Hnf.
  induction n as [|n IH]; intros k rs a'; cbn [reads]; inversion 1 as [|? ? ? a1 ? ? ? Hst Hrs]; subst; intros Hn; [by rewrite drop_ge by lia |].
  inversion Hst; subst; [| done]. erewrite drop_S by eassumption. cbn. f_equal. apply (IH _ _ _ Hrs). lia.
Qed.
End Runs.

Section Theorems.
Context {W : Type} `{HtreeLaws W}.
Implicit Types (w : W) (ht sn : tee_fs_htree) (a : afile).

(** C3: on an open file, reads of blocks it has, writes of whole blocks it has or of the next
    one after them (less than 2^32 - 2 in all), and synchronisations, in any order and whether
    or not the environment fails, are defined and do what the abstract file does: a block written is the block read until it is
    written again, a successful synchronisation commits the blocks there are, and an error
    closes the file and leaves the commit.  Errors come from the environment only.  Writes
    that leave a gap before them and truncations are not among the calls. *)
Theorem htree_refines ops w o u a : hrel w o u a -> (forall bs, a_cur a = Some bs -> hops_ok (length bs) ops) ->
  exists rs w' o' a', hops_run ops (w, o) = Ret (rs, (w', o')) /\ aruns flaky a ops rs a' /\ hrel w' o' u a'.
Proof. apply sim_steps. Qed.

(** C4: whatever reads of blocks there are, writes of blocks there are or of the next one, and
    synchronisations are made on a file, and wherever they are interrupted by an error, the
    version of the last successful synchronisation is still stored, and opening the file with
    its hash gives its blocks, provided that it is in version 0 or that the root node stored
    in version 0, where the file is looked for first, is complete and has another hash.
    Writes that leave a gap and truncations are not among the calls. *)
Theorem htree_commit_atomic ops w o u a rs w' o' : hrel w o u a -> (forall bs, a_cur a = Some bs -> hops_ok (length bs) ops) ->
  hops_run ops (w, o) = Ret (rs, (w', o')) ->
  exists a', aruns flaky a ops rs a' /\ forall h bs, a_com a' = Some (h, bs) ->
    exists sn, commit_of w' u sn h bs /\ (offered w' sn ->
      wpx (tee_fs_htree_open false (Some h) u) w' (fun r w'' => sameV w' w'' /\
        match r with inl (ht, _) => hrel w'' (Some ht) u (mkAfile (Some bs) (Some (h, bs))) | inr _ => flaky end)).
Proof.
  intros HR Hok E. destruct (sim_steps ops w o u a HR Hok) as (rs1 & w1 & o1 & a' & E1 & Ha & HR'). rewrite E in E1. injection E1 as <- <- <-.
  exists a'. split; [done |]. intros h bs Hc. assert (Hcm : exists sn, commit_of w' u sn h bs).
  { unfold hrel in HR'. rewrite Hc in HR'. destruct o', (a_cur a'); try done. destruct HR' as (_ & sn & HC & _). eauto. }
  destruct Hcm as [sn HC]. exists sn. split; [done |]. intros Hoff. by eapply reopen_spec.
Qed.


Lemma writes_ok bs : forall k, Forall (fun b => Z.of_nat (length b) = block_size) bs -> Z.of_nat (k + length bs) < UINT_MAX - 1 ->
  hops_ok k (writes k bs ++ [HopSync]).
Proof.
  induction bs as [|b bs IH]; intros k HF HU; [done |]. apply Forall_cons in HF as [Hb HF]. cbn [writes app hops_ok length] in *.
  split_and!; [lia | lia | done |]. replace (Nat.max k (S k)) with (S k) by lia. apply IH; [done | lia].
Qed.
Lemma reads_ok m n : forall k, (k + n <= m)%nat -> hops_ok m (reads k n).
Proof. induction n as [|n IH]; intros k Hk; [done |]. cbn. split; [lia |]. apply IH. lia. Qed.

(** A file created, written and committed. *)
Lemma written_file w ht u bs : ~ flaky -> bs <> [] -> Forall (fun b => Z.of_nat (length b) = block_size) bs ->
  Z.of_nat (length bs) < UINT_MAX - 1 -> hrel w (Some ht) u (mkAfile (Some []) None) ->
  exists rs w' o' h, hops_run (writes 0 bs ++ [HopSync]) (w, Some ht) = Ret (rs ++ [inl (AHash (Some h))], (w', o')) /\
    hrel w' o' u (mkAfile (Some bs) (Some (h, bs))).
Proof.
  intros Hnf Hne Hbl Hlen HR.
  destruct (sim_steps (writes 0 bs ++ [HopSync]) w (Some ht) u _ HR) as (rs & w' & o' & a' & E & Ha & HR').
  { intros ? [= <-]. by apply writes_ok. }
  apply aruns_app in Ha as (rs1 & rs2 & a1 & -> & H1 & H2). apply (aruns_writes _ Hnf bs []) in H1. subst a1. cbn [app] in H2.
  inversion H2 as [|? ? ? ? ? ? ? Hst Hnil]; subst. inversion Hnil; subst. inversion Hst; subst; try done.
  by exists rs1, w', o', h.
Qed.

End Theorems.

(** ** Witnesses *)

Import HtreeRam HtreeRamLaws.

Definition some_ops : list hop := [HopWrite 0 (blk 1); HopWrite 1 (blk 2); HopSync; HopWrite 0 (blk 3); HopRead 0; HopSync; HopWrite 2 (blk 4)].
Lemma some_ops_ok {f} : hops_ok (W := ram f) 0 some_ops.
Proof. cbn. unfold UINT_MAX. repeat split; lia. Qed.

(** A new file in memory. *)
Lemma new_file : exists ht h w, tee_fs_htree_open true None None (ram0 : ram false) = Ret (inl (ht, h), w) /\
  hrel w (Some ht) None (mkAfile (Some []) None).
Proof. destruct (create_spec (ram0 : ram false) None None) as ([[ht h]|e] & w & E & HR); [| done]. by exists ht, h, w. Qed.

Lemma htree_refines_witness : exists w ht rs w' o' a', hops_run some_ops (w : ram false, Some ht) = Ret (rs, (w', o')) /\
  aruns (false = true) (mkAfile (Some []) None) some_ops rs a' /\ hrel w' o' None a'.
Proof.
  destruct new_file as (ht & h & w & E & HR).
  destruct (htree_refines some_ops w (Some ht) None (mkAfile (Some []) None) HR) as (rs & w' & o' & a' & HH).
  { intros ? [= <-]. apply some_ops_ok. }
  by exists w, ht, rs, w', o', a'.
Defined.

Lemma htree_commit_atomic_witness : exists w ht rs w' o', hops_run some_ops (w : ram false, Some ht) = Ret (rs, (w', o')) /\
  exists a', aruns (false = true) (mkAfile (Some []) None) some_ops rs a' /\ forall h bs, a_com a' = Some (h, bs) ->
    exists sn, commit_of w' None sn h bs /\ (offered w' sn ->
      wpx (tee_fs_htree_open false (Some h) None) w' (fun r w'' => sameV w' w'' /\
        match r with inl (ht, _) => hrel w'' (Some ht) None (mkAfile (Some bs) (Some (h, bs))) | inr _ => false = true end)).
Proof.
  destruct new_file as (ht & h & w & E & HR).
  assert (Hok : forall bs, a_cur (mkAfile (Some []) None) = Some bs -> hops_ok (W := ram false) (length bs) some_ops).
  { intros ? [= <-]. apply some_ops_ok. }
  destruct (sim_steps some_ops w (Some ht) None _ HR Hok) as (rs & w' & o' & a' & E' & _).
  exists w, ht, rs, w', o'. split; [exact E' |].
  exact (htree_commit_atomic some_ops w (Some ht) None (mkAfile (Some []) None) rs w' o' HR Hok E').
Defined.

(** The storage and the last hash after calls on a new file. *)
Definition file_after (ops : list hop) : ram false * option (list Z) :=
  match tee_fs_htree_open true None None ram0 with
  | Ret (inl (ht, _), w) =>
      match hops_run ops (w, Some ht) with
      | Ret (rs, (w, _)) => (w, foldl (fun h r => match r with inl (AHash (Some h)) => Some h | _ => h end) None rs)
      | Undef => (ram0, None)
      end
  | _ => (ram0, None)
  end.
(** A file, and the same with calls after the commit. *)
Definition file1 : ram false * option (list Z) := file_after (take 3 some_ops).
Definition file2 : ram false * option (list Z) := file_after (take 5 some_ops).



(** A write-back interrupted at its first write leaves the commit before it. *)
Example interrupted_sync : exists w ht h0 w1 h w2 ht2,
  tee_fs_htree_open true None None (ram0 : ram true) = Ret (inl (ht, h0), w) /\
  hops_run (take 3 some_ops) (w, Some ht) = Ret ([inl AUnit; inl AUnit; inl (AHash (Some h))], (w1, Some ht2)) /\
  fst <$> hops_run [HopWrite 0 (blk 3); HopSync; HopRead 0] (mkRam (r_store w1) (r_seed w1) (Some 1%nat) : ram true, Some ht2) =
    Ret ([inl AUnit; inr TEE_ERROR_GENERIC; inr TEE_ERROR_CORRUPT_OBJECT]) /\
  (snd <$> hops_run [HopWrite 0 (blk 3); HopSync; HopRead 0] (mkRam (r_store w1) (r_seed w1) (Some 1%nat) : ram true, Some ht2)) = Ret (w2, None) /\
  exists ht3 r w3, tee_fs_htree_open false (Some h) None w2 = Ret (inl (ht3, r), w3) /\
    fst <$> hops_run [HopRead 0; HopRead 1] (w3, Some ht3) = Ret [inl (ABlock (blk 1)); inl (ABlock (blk 2))].
Proof. do 7 eexists. repeat (split; [vm_compute; reflexivity |]). do 3 eexists. split; [vm_compute; reflexivity | vm_compute; reflexivity]. Qed.
