(* ===== verification/ReeFs.v ===== *)
(** * The secure file system on the normal world's files (tee_ree_fs.c)

    Objects are hash tree files in files of the normal world; the directory file, itself such a
    file, names them.  The RPC calls of tee_fs_rpc.c are the class [FsRpc] over a world [R].
    A file handle is an address in the table of open files of [fsw]; the directory handle all
    operations share is in [rees], with its reference count, and has a number of its own, so
    that a handle kept after the directory was closed is recognised. *)

From stdpp Require Import base numbers list.
From S2P Require Import Prelude SkTypes FsCore Bitstring Dirfile Htree.

Definition BLOCK_SHIFT : Z := 12.
Definition BLOCK_SIZE : Z := Z.shiftl 1 BLOCK_SHIFT.

(** [ROUNDUP(v, BLOCK_SIZE)] on a [uint64_t]. *)
Definition roundup_block (v : Z) : Z := Z.land (u64 (v + (BLOCK_SIZE - 1))) (Z.lnot (BLOCK_SIZE - 1)).

(** The argument is converted to [int]. *)
Definition pos_to_block_num (position : Z) : Z := Z.shiftr (i32 position) BLOCK_SHIFT.

(** ** Where the elements of a tree are in the file: offset and size *)

Definition block_nodes : Z := BLOCK_SIZE / (SIZEOF_NODE_IMAGE * 2).
Definition get_offs_size (type : htype) (idx vers : Z) : outcome (Z * Z) :=
  guard_c ((vers =? 0) || (vers =? 1));;
  Ret (match type with
  | TYPE_HEAD => (u64 (SIZEOF_IMAGE * vers), SIZEOF_IMAGE)
  | TYPE_NODE =>
      let pbn := u64 (1 + idx / block_nodes * block_nodes * 2) in
      (u64 (pbn * BLOCK_SIZE + 2 * SIZEOF_NODE_IMAGE * (idx mod block_nodes) + SIZEOF_NODE_IMAGE * vers), SIZEOF_NODE_IMAGE)
  | TYPE_BLOCK =>
      let bidx := u64 (2 * idx + vers) in
      let pbn := u64 (2 + bidx + bidx / (block_nodes * 2 - 1)) in
      (u64 (pbn * BLOCK_SIZE), BLOCK_SIZE)
  end).

(** ** The calls to the normal world; files are named by their handle, the directory by none *)

Class FsRpc (R : Type) := {
  fs_op : Type;
  tee_fs_rpc_open_dfh : option fileh -> ex R Z;
  tee_fs_rpc_create_dfh : option fileh -> ex R Z;
  tee_fs_rpc_close : Z -> ex R unit;
  tee_fs_rpc_read_init : Z -> Z -> Z -> ex R fs_op;
  tee_fs_rpc_read_final : fs_op -> ex R (list Z);
  tee_fs_rpc_write_init : Z -> Z -> Z -> ex R fs_op;
  tee_fs_rpc_write_final : fs_op -> list Z -> ex R unit;
  tee_fs_rpc_truncate : Z -> Z -> ex R unit;
  tee_fs_rpc_remove_dfh : option fileh -> ex R unit }.

Record tee_fs_fd := mkFd { f_ht : option tee_fs_htree; f_fd : Z; f_dfh : fileh; f_uuid : option (list Z) }.
Definition set_f_ht (f : tee_fs_fd) (ht : option tee_fs_htree) : tee_fs_fd := mkFd ht (f_fd f) (f_dfh f) (f_uuid f).
Definition set_f_dfh (f : tee_fs_fd) (dfh : fileh) : tee_fs_fd := mkFd (f_ht f) (f_fd f) dfh (f_uuid f).
Definition dfh_set_hash (dfh : fileh) (h : list Z) : fileh := mkFileh (fl_file_number dfh) h (fl_idx dfh).
Definition dfh_set_idx (dfh : fileh) (i : Z) : fileh := mkFileh (fl_file_number dfh) (fl_hash dfh) i.
Definition set_length (ht : tee_fs_htree) (l : Z) : tee_fs_htree := set_imeta ht (mkImeta l (im_max_node_id (ht_imeta ht))).

Section ReeFile.
Context {R : Type} `{!HeapOps R, !HtreeCrypto R, !FsRpc R}.

(** [ree_fs_storage_ops] with the descriptor its [aux] argument holds. *)
Definition ree_fs_rpc_read_init (fd : Z) (type : htype) (idx vers : Z) : ex R fs_op :=
  '(offs, size) ← pure_c (get_offs_size type idx vers); tee_fs_rpc_read_init fd offs size.
Definition ree_fs_rpc_write_init (fd : Z) (type : htype) (idx vers : Z) : ex R fs_op :=
  '(offs, size) ← pure_c (get_offs_size type idx vers); tee_fs_rpc_write_init fd offs size.
Definition ree_fs_storage_ops (fd : Z) : HtreeStorage R := {|
  rpc_op := fs_op;
  block_size := BLOCK_SIZE;
  rpc_read_init := ree_fs_rpc_read_init fd;
  rpc_read_final := tee_fs_rpc_read_final;
  rpc_write_init := ree_fs_rpc_write_init fd;
  rpc_write_final := tee_fs_rpc_write_final |}.

(** ** An open file *)

Definition wfd : Type := R * tee_fs_fd.

(** A call on the tree of the file. *)
Definition on_tree {A} (m : HtreeStorage R -> ex (whtp R) A) : ex wfd A := fun '(w, f) =>
  match m (ree_fs_storage_ops (f_fd f)) (w, f_ht f) with
  | Ret (r, (w, o)) => Ret (r, (w, set_f_ht f o))
  | Undef => Undef
  end.
(** [tee_fs_htree_get_meta(fdp->ht)->length]. *)
Definition meta_length : ex wfd Z := f ← get_d; ht ← pure_c (deref (f_ht f)); mret (tee_fs_htree_get_meta ht).
Definition set_meta_length (l : Z) : ex wfd unit :=
  f ← get_d; ht ← pure_c (deref (f_ht f)); put_d (set_f_ht f (Some (set_length ht l))).

(** The part of a block from [pos] on, of at most [remain] bytes. *)
Definition chunk (pos remain : Z) : Z :=
  let offset := pos mod BLOCK_SIZE in
  let size := Z.min remain BLOCK_SIZE in
  if BLOCK_SIZE <? size + offset then BLOCK_SIZE - offset else size.

(** The loop of [out_of_place_write], [k] blocks to go; without [data_ptr] zeros are written.
    The result is the position after it. *)
Fixpoint write_blocks (k : nat) (start_block_num pos : Z) (data_ptr : option (list Z)) (remain_bytes : Z) : ex wfd Z :=
  match k with
  | O => mret pos
  | S k =>
      let offset := pos mod BLOCK_SIZE in
      let size_to_write := chunk pos remain_bytes in
      length ← meta_length;
      block ← (if u64 (start_block_num * BLOCK_SIZE) <? roundup_block length
               then on_tree (fun S => tee_fs_htree_read_block start_block_num) else mret (zeros BLOCK_SIZE));
      data ← pure_c (match data_ptr with
                     | Some d => guard_c (size_to_write <=? Z.of_nat (Datatypes.length d));; Ret (take (Z.to_nat size_to_write) d)
                     | None => Ret (zeros size_to_write)
                     end);
      _ ← on_tree (fun S => tee_fs_htree_write_block start_block_num (splice block (Z.to_nat offset) data));
      write_blocks k (u64 (start_block_num + 1)) (u64 (pos + size_to_write))
        (drop (Z.to_nat size_to_write) <$> data_ptr) (u64 (remain_bytes - size_to_write))
  end.

(** [res] has no value when the loop is not entered. *)
Definition out_of_place_write (pos : Z) (buf : option (list Z)) (len : Z) : ex wfd unit :=
  let start_block_num := u64 (pos_to_block_num pos) in
  let end_block_num := u64 (pos_to_block_num (u64 (pos + len - 1))) in
  _ ← meta_length;
  m ← onW (call (malloc BLOCK_SIZE));
  match m with
  | None => throw TEE_ERROR_OUT_OF_MEMORY
  | Some _ =>
      _ ← assert_c (start_block_num <=? end_block_num);
      pos ← write_blocks (Z.to_nat (end_block_num - start_block_num + 1)) start_block_num pos buf len;
      length ← meta_length;
      if length <? pos then set_meta_length pos else mret tt
  end.

(** [new_file_len] is a [tee_fs_off_t], converted to [size_t] for the comparison. *)
Definition ree_fs_ftruncate_internal (new_file_len : Z) : ex wfd unit :=
  length ← meta_length;
  if length <? u64 new_file_len then out_of_place_write length None (u64 (new_file_len - length))
  else
    '(offs, sz) ← pure_c (get_offs_size TYPE_BLOCK (u64 (Z.quot (Z.land (new_file_len + (BLOCK_SIZE - 1)) (Z.lnot (BLOCK_SIZE - 1))) BLOCK_SIZE)) 1);
    _ ← on_tree (fun S => tee_fs_htree_truncate (u64 (Z.quot new_file_len BLOCK_SIZE)));
    f ← get_d;
    _ ← onW (tee_fs_rpc_truncate (f_fd f) (u64 (offs + sz)));
    set_meta_length (u64 new_file_len).

(** The loop of [ree_fs_read_primitive]; block numbers are [int]. *)
Fixpoint read_blocks (k : nat) (start_block_num pos remain_bytes : Z) : ex wfd (list Z) :=
  match k with
  | O => mret []
  | S k =>
      let size_to_read := chunk pos remain_bytes in
      block ← on_tree (fun S => tee_fs_htree_read_block (u64 start_block_num));
      rest ← read_blocks k (start_block_num + 1) (u64 (pos + size_to_read)) (u64 (remain_bytes - size_to_read));
      mret (take (Z.to_nat size_to_read) (drop (Z.to_nat (pos mod BLOCK_SIZE)) block) ++ rest)
  end.

(** How much is read of [len] bytes asked for. *)
Definition read_len (pos len length : Z) : Z :=
  if (u64 (pos + len) <? len) || (length <? pos) then 0
  else if length <? u64 (pos + len) then u64 (length - pos) else len.
(** Where the loop is not entered the buffer holds bytes nobody wrote. *)
Definition ree_fs_read_primitive (pos len : Z) : ex wfd (list Z) :=
  length ← meta_length;
  let remain_bytes := read_len pos len length in
  if remain_bytes =? 0 then mret []
  else
    let start_block_num := pos_to_block_num pos in
    let end_block_num := pos_to_block_num (u64 (pos + remain_bytes - 1)) in
    m ← onW (call (malloc BLOCK_SIZE));
    match m with
    | None => throw TEE_ERROR_OUT_OF_MEMORY
    | Some _ =>
        _ ← assert_c (start_block_num <=? end_block_num);
        read_blocks (Z.to_nat (end_block_num - start_block_num + 1)) start_block_num pos remain_bytes
    end.

(** [len] is the length of the buffer. *)
Definition ree_fs_write_primitive (pos : Z) (buf : list Z) : ex wfd unit :=
  let len := Z.of_nat (length buf) in
  if len =? 0 then mret tt
  else
    file_size ← meta_length;
    if u64 (pos + len) <? len then throw TEE_ERROR_BAD_PARAMETERS
    else
      _ ← (if file_size <? pos then ree_fs_ftruncate_internal (i64 pos) else mret tt);
      out_of_place_write pos (Some buf) len.

(** [tee_fs_htree_sync_to_storage(&fdp->ht, fdp->dfh.hash)]. *)
Definition sync_file : ex wfd unit :=
  h ← on_tree (fun S => tee_fs_htree_sync_to_storage);
  match h with
  | Some h => upd_d (fun f => set_f_dfh f (dfh_set_hash (f_dfh f) h))
  | None => mret tt
  end.
End ReeFile.
Arguments wfd : clear implicits.

(** ** Open files: handles are addresses in a table; a closed one is gone *)

Record fsw (R : Type) := mkFsw { s_rpc : R; s_fds : list (option tee_fs_fd) }.
Arguments mkFsw {R} _ _.
Arguments s_rpc {R} _.
Arguments s_fds {R} _.

Section ReeFiles.
Context {R : Type} `{!HeapOps R, !HtreeCrypto R, !FsRpc R}.
Implicit Types (w : fsw R).

Definition onR {A} (m : ex R A) : ex (fsw R) A := fun w =>
  match m (s_rpc w) with Ret (r, s) => Ret (r, mkFsw s (s_fds w)) | Undef => Undef end.
(** [fdp], and a call on the file it points to. *)
Definition get_fd (h : nat) : ex (fsw R) tee_fs_fd := fun w => pure_c (deref (mjoin (s_fds w !! h))) w.
Definition on_fd {A} (h : nat) (m : ex (wfd R) A) : ex (fsw R) A := fun w =>
  match mjoin (s_fds w !! h) with
  | Some f =>
      match m (s_rpc w, f) with
      | Ret (r, (s, f)) => Ret (r, mkFsw s (<[h:=Some f]> (s_fds w)))
      | Undef => Undef
      end
  | None => Undef
  end.
Definition new_fd (f : tee_fs_fd) : ex (fsw R) nat := fun w =>
  Ret (inl (length (s_fds w)), mkFsw (s_rpc w) (s_fds w ++ [Some f])).
Definition free_fd (h : nat) : ex (fsw R) unit := fun w => Ret (inl tt, mkFsw (s_rpc w) (<[h:=None]> (s_fds w))).

(** A call whose result is not looked at. *)
Definition ignore {A} (m : ex R A) : ex (fsw R) unit := _ ← onR (attempt m); mret tt.

(** [hash], where it is given with [dfh], is the hash in [dfh]: a hash written back is there. *)
Definition ree_fs_open_primitive (create : bool) (hash uuid : option (list Z)) (dfh : option fileh) :
    ex (fsw R) (nat * option (list Z)) :=
  m ← onR (call (malloc 64));
  match m with
  | None => throw TEE_ERROR_OUT_OF_MEMORY
  | Some _ =>
      let failed fd e :=
        (_ ← (if fd =? -1 then mret tt else ignore (tee_fs_rpc_close fd));
         _ ← (if create then ignore (tee_fs_rpc_remove_dfh dfh) else mret tt);
         throw e) in
      r ← onR (attempt (if create then tee_fs_rpc_create_dfh dfh else tee_fs_rpc_open_dfh dfh));
      match r with
      | inr e => failed (-1) e
      | inl fd =>
          r ← onR (attempt (tee_fs_htree_open (HtreeStorage0 := ree_fs_storage_ops fd) create hash uuid));
          match r with
          | inr e => failed fd e
          | inl (ht, h) =>
              let dfh := match dfh with
                         | Some dfh => match h with Some h => dfh_set_hash dfh h | None => dfh end
                         | None => mkFileh 0 (zeros 32) (-1)
                         end in
              p ← new_fd (mkFd (Some ht) fd dfh uuid);
              mret (p, h)
          end
      end
  end.

Definition ree_fs_close_primitive (fh : option nat) : ex (fsw R) unit :=
  match fh with
  | None => mret tt
  | Some h =>
      _ ← on_fd h (on_tree (fun S => tee_fs_htree_close));
      f ← get_fd h;
      _ ← ignore (tee_fs_rpc_close (f_fd f));
      free_fd h
  end.

Definition ree_dirf_commit_writes (h : nat) : ex (fsw R) (list Z) :=
  _ ← on_fd h sync_file; f ← get_fd h; mret (fl_hash (f_dfh f)).

(** [ree_dirf_ops], under the directory file. *)
#[export] Instance fsw_heap : HeapOps (fsw R) := {|
  malloc n := fun w => '(p, s) ← malloc n (s_rpc w); Ret (p, mkFsw s (s_fds w));
  realloc old n := fun w => '(p, s) ← realloc old n (s_rpc w); Ret (p, mkFsw s (s_fds w)) |}.
#[export] Instance ree_dirf_ops : DirfileOps (fsw R) nat := {|
  fop_open := ree_fs_open_primitive;
  fop_close fh := fun w => '(_, w) ← ree_fs_close_primitive fh w; Ret (tt, w);
  fop_read h pos len := on_fd h (ree_fs_read_primitive pos len);
  fop_write h pos buf := on_fd h (ree_fs_write_primitive pos buf);
  fop_commit_writes := ree_dirf_commit_writes |}.
End ReeFiles.

(** ** The directory: [ree_fs_dirh] with the number of its handle, and [ree_fs_dirh_refcount] *)

Record rees (R : Type) := mkRees { r_fs : fsw R; r_dirh : option (nat * dirh nat); r_refcount : Z; r_next : nat }.
Arguments mkRees {R} _ _ _ _.
Arguments r_fs {R} _.
Arguments r_dirh {R} _.
Arguments r_refcount {R} _.
Arguments r_next {R} _.

(** [struct tee_pobj], as far as it is used, and [struct tee_fs_dir]. *)
Record tee_pobj := mkPobj { po_uuid : list Z; po_obj_id : list Z }.
Definition po_obj_id_len (po : tee_pobj) : Z := Z.of_nat (length (po_obj_id po)).
Record tee_fs_dir := mkDir { td_dirh : nat; td_idx : Z; td_uuid : list Z }.

Section ReeFs.
Context {R : Type} `{!HeapOps R, !HtreeCrypto R, !FsRpc R} (fuel : nat).
Implicit Types (w : rees R).

Definition onF {A} (m : ex (fsw R) A) : ex (rees R) A := fun w =>
  match m (r_fs w) with Ret (r, s) => Ret (r, mkRees s (r_dirh w) (r_refcount w) (r_next w)) | Undef => Undef end.
(** A call on the directory handle [g], which has to be the one that is open. *)
Definition on_dir {A} (g : nat) (m : ex (wdir (fsw R) nat) A) : ex (rees R) A := fun w =>
  match r_dirh w with
  | Some (g', d) =>
      if decide (g = g') then
        match m (r_fs w, d) with
        | Ret (r, (s, d)) => Ret (r, mkRees s (Some (g, d)) (r_refcount w) (r_next w))
        | Undef => Undef
        end
      else Undef
  | None => Undef
  end.
Definition set_refcount (c : Z) : ex (rees R) unit := fun w => Ret (inl tt, mkRees (r_fs w) (r_dirh w) c (r_next w)).
Definition get_refcount : ex (rees R) Z := fun w => Ret (inl (r_refcount w), w).
Definition get_ree_fs_dirh : ex (rees R) (option nat) := fun w => Ret (inl (fst <$> r_dirh w), w).
Definition set_ree_fs_dirh (d : dirh nat) : ex (rees R) nat := fun w =>
  Ret (inl (r_next w), mkRees (r_fs w) (Some (r_next w, d)) (r_refcount w) (S (r_next w))).

(** Without CFG_RPMB_FS. *)
Definition open_dirh : ex (rees R) nat :=
  r ← attempt (onF (tee_fs_dirfile_open fuel false None));
  match r with
  | inl d => set_ree_fs_dirh d
  | inr _ => d ← onF (tee_fs_dirfile_open fuel true None); set_ree_fs_dirh d
  end.
Definition commit_dirh_writes (g : nat) : ex (rees R) unit := _ ← on_dir g tee_fs_dirfile_commit_writes; mret tt.
Definition close_dirh : ex (rees R) unit := fun w =>
  match r_dirh w with
  | Some (_, d) => '(_, s) ← tee_fs_dirfile_close d (r_fs w); Ret (inl tt, mkRees s None (r_refcount w) (r_next w))
  | None => Undef
  end.

Definition get_dirh : ex (rees R) nat :=
  o ← get_ree_fs_dirh;
  g ← (match o with Some g => mret g | None => open_dirh end);
  c ← get_refcount;
  _ ← set_refcount (u64 (c + 1));
  _ ← assert_c (negb (u64 (c + 1) =? 0));
  mret g.

Definition put_dirh_primitive (close : bool) : ex (rees R) unit :=
  c ← get_refcount;
  _ ← assert_c (negb (c =? 0));
  _ ← set_refcount (u64 (c - 1));
  o ← get_ree_fs_dirh;
  match o with
  | Some _ => if (u64 (c - 1) =? 0) || close then close_dirh else mret tt
  | None => mret tt
  end.
Definition put_dirh (g : nat) (close : bool) : ex (rees R) unit :=
  o ← get_ree_fs_dirh;
  _ ← assert_c (bool_decide (o = Some g));
  put_dirh_primitive close.

(** The label [out]: the handle is given back, and the directory closed on an error. *)
Definition with_dirh {A} (f : nat -> ex (rees R) A) : ex (rees R) A :=
  g ← get_dirh;
  r ← attempt (f g);
  _ ← put_dirh g (match r with inl _ => false | inr _ => true end);
  rethrow r.

(** ** The operations; the lock around each is not shown *)

(** The handle and the size. *)
Definition ree_fs_open (po : tee_pobj) : ex (rees R) (nat * Z) :=
  g ← get_dirh;
  r ← attempt (
    dfh ← on_dir g (tee_fs_dirfile_find fuel (po_uuid po) (po_obj_id po) (po_obj_id_len po));
    r ← attempt (onF (ree_fs_open_primitive false (Some (fl_hash dfh)) (Some (po_uuid po)) (Some dfh)));
    match r with
    | inr e => throw (if e =? TEE_ERROR_ITEM_NOT_FOUND then TEE_ERROR_CORRUPT_OBJECT else e)
    | inl (h, _) => size ← onF (on_fd h meta_length); mret (h, size)
    end);
  _ ← (match r with inr _ => put_dirh g false | inl _ => mret tt end);
  rethrow r.

Definition set_name (g h : nat) (po : tee_pobj) (overwrite : bool) : ex (rees R) unit :=
  r ← attempt (on_dir g (tee_fs_dirfile_find fuel (po_uuid po) (po_obj_id po) (po_obj_id_len po)));
  if negb overwrite && match r with inl _ => true | inr _ => false end then throw TEE_ERROR_ACCESS_CONFLICT
  else
    let idx := match r with inl old_dfh => fl_idx old_dfh | inr _ => -1 end in
    _ ← onF (on_fd h (upd_d (fun f => set_f_dfh f (dfh_set_idx (f_dfh f) idx))));
    f ← onF (get_fd h);
    '(dfh, res) ← on_dir g (tee_fs_dirfile_rename fuel (po_uuid po) (f_dfh f) (po_obj_id po) (po_obj_id_len po));
    _ ← onF (on_fd h (upd_d (fun f => set_f_dfh f dfh)));
    if negb (res =? TEE_SUCCESS) then throw res
    else
      _ ← commit_dirh_writes g;
      match r with
      | inl old_dfh => onF (ignore (tee_fs_rpc_remove_dfh (Some (dfh_set_idx old_dfh (-1)))))
      | inr _ => mret tt
      end.

Definition ree_fs_close (fh : option nat) : ex (rees R) (option nat) :=
  match fh with
  | None => mret None
  | Some h => _ ← put_dirh_primitive false; _ ← onF (ree_fs_close_primitive (Some h)); mret None
  end.

(** A part of the new file: written where it is there and not empty. *)
Definition create_part (h : nat) (pos : Z) (part : option (list Z)) : ex (rees R) Z :=
  match part with
  | Some (b :: l) =>
      _ ← onF (on_fd h (ree_fs_write_primitive pos (b :: l)));
      mret (u64 (pos + Z.of_nat (length (b :: l))))
  | _ => mret pos
  end.
(** [junk]: what the unassigned local handle holds. *)
Definition ree_fs_create (junk : fileh) (po : tee_pobj) (overwrite : bool) (head attr data : option (list Z)) : ex (rees R) nat :=
  g ← get_dirh;
  r ← attempt (dfh ← on_dir g (tee_fs_dirfile_get_tmp junk);
               '(h, _) ← onF (ree_fs_open_primitive true (Some (fl_hash dfh)) (Some (po_uuid po)) (Some dfh));
               mret (dfh, h));
  match r with
  | inr e => _ ← put_dirh g true; throw e
  | inl (dfh, h) =>
      r ← attempt (
        pos ← create_part h 0 head;
        pos ← create_part h pos attr;
        _ ← create_part h pos data;
        _ ← onF (on_fd h sync_file);
        set_name g h po overwrite);
      match r with
      | inr e =>
          _ ← put_dirh g true;
          _ ← onF (ree_fs_close_primitive (Some h));
          _ ← onF (ignore (tee_fs_rpc_remove_dfh (Some dfh)));
          throw e
      | inl _ => mret h
      end
  end.

Definition ree_fs_read (h : nat) (pos len : Z) : ex (rees R) (list Z) := onF (on_fd h (ree_fs_read_primitive pos len)).

Definition ree_fs_write (h : nat) (pos : Z) (buf : list Z) : ex (rees R) unit := with_dirh (fun g =>
  _ ← onF (on_fd h (ree_fs_write_primitive pos buf));
  _ ← onF (on_fd h sync_file);
  f ← onF (get_fd h);
  _ ← on_dir g (tee_fs_dirfile_update_hash (f_dfh f));
  commit_dirh_writes g).

Definition ree_fs_rename (old : tee_pobj) (new : option tee_pobj) (overwrite : bool) : ex (rees R) unit :=
  match new with
  | None => throw TEE_ERROR_BAD_PARAMETERS
  | Some new => with_dirh (fun g =>
      r ← attempt (on_dir g (tee_fs_dirfile_find fuel (po_uuid new) (po_obj_id new) (po_obj_id_len new)));
      match r with
      | inl _ => if negb overwrite then throw TEE_ERROR_ACCESS_CONFLICT else mret tt
      | inr _ => mret tt
      end ;;
      dfh ← on_dir g (tee_fs_dirfile_find fuel (po_uuid old) (po_obj_id old) (po_obj_id_len old));
      '(_, res) ← on_dir g (tee_fs_dirfile_rename fuel (po_uuid new) dfh (po_obj_id new) (po_obj_id_len new));
      if negb (res =? TEE_SUCCESS) then throw res
      else
        _ ← (match r with
             | inl remove_dfh => if fl_idx remove_dfh =? -1 then mret tt else on_dir g (tee_fs_dirfile_remove remove_dfh)
             | inr _ => mret tt
             end);
        _ ← commit_dirh_writes g;
        match r with
        | inl remove_dfh => if fl_idx remove_dfh =? -1 then mret tt else onF (ignore (tee_fs_rpc_remove_dfh (Some remove_dfh)))
        | inr _ => mret tt
        end)
  end.

Definition ree_fs_remove (po : tee_pobj) : ex (rees R) unit := with_dirh (fun g =>
  dfh ← on_dir g (tee_fs_dirfile_find fuel (po_uuid po) (po_obj_id po) (po_obj_id_len po));
  _ ← on_dir g (tee_fs_dirfile_remove dfh);
  _ ← commit_dirh_writes g;
  _ ← onF (ignore (tee_fs_rpc_remove_dfh (Some dfh)));
  r ← attempt (on_dir g (tee_fs_dirfile_find fuel (po_uuid po) (po_obj_id po) (po_obj_id_len po)));
  assert_c (match r with inl _ => false | inr _ => true end)).

(** The first two tests are for success where an error is meant. *)
Definition ree_fs_truncate (h : nat) (len : Z) : ex (rees R) unit := with_dirh (fun g =>
  r ← attempt (onF (on_fd h (ree_fs_ftruncate_internal (i64 len))));
  match r with
  | inl _ => mret tt
  | inr _ =>
      r ← attempt (onF (on_fd h sync_file));
      match r with
      | inl _ => mret tt
      | inr _ => f ← onF (get_fd h); on_dir g (tee_fs_dirfile_update_hash (f_dfh f))
      end
  end).

(** ** Listing *)

Definition ree_fs_opendir_rpc (uuid : list Z) : ex (rees R) tee_fs_dir :=
  m ← onF (onR (call (malloc 96)));
  match m with
  | None => throw TEE_ERROR_OUT_OF_MEMORY
  | Some _ =>
      g ← get_dirh;
      r ← attempt (on_dir g (tee_fs_dirfile_get_next fuel uuid (-1) TEE_OBJECT_ID_MAX_LEN));
      match r with
      | inl _ => mret (mkDir g (-1) uuid)
      | inr e => _ ← put_dirh g false; throw e
      end
  end.
Definition ree_fs_closedir_rpc (d : option tee_fs_dir) : ex (rees R) unit :=
  match d with Some d => put_dirh (td_dirh d) false | None => mret tt end.
(** The handle with its new index, and the identifier. *)
Definition ree_fs_readdir_rpc (d : tee_fs_dir) : ex (rees R) (tee_fs_dir * list Z) :=
  '(i, oid) ← on_dir (td_dirh d) (tee_fs_dirfile_get_next fuel (td_uuid d) (td_idx d) TEE_OBJECT_ID_MAX_LEN);
  mret (mkDir (td_dirh d) i (td_uuid d), oid).
End ReeFs.
