(* ===== verification/ReeLayout.v ===== *)
(** * Where a hash tree file lies in a file of the normal world

    Headers, nodes and blocks of a tree have places of their own in the file, so that the file
    behind a descriptor is a storage for a hash tree: [ree_htree] discharges what the tree asks
    of its storage from what the calls to the normal world promise. *)

From stdpp Require Import base numbers list.
From S2P Require Import Prelude SkTypes FsCore Dirfile Htree HtreeShape HtreeLaws ReeFs.

(** ** The layout *)

Definition region (t : htype) (i v : Z) : Z * Z :=
  match t with
  | TYPE_HEAD => (68 * v, 68)
  | TYPE_NODE => ((1 + 62 * (i / 31)) * 4096 + 132 * (i mod 31) + 66 * v, 66)
  | TYPE_BLOCK => ((2 + (2 * i + v) + (2 * i + v) / 61) * 4096, 4096)
  end.

Lemma region_bounds t i v : key_ok t i v -> 0 <= fst (region t i v) /\ fst (region t i v) + snd (region t i v) <= 2 ^ 47.
Proof.
  intros [Hi Hv]. pose proof (Z.div_mod i 31). pose proof (Z.mod_pos_bound i 31). pose proof (Z.div_mod (2 * i + v) 61).
  pose proof (Z.mod_pos_bound (2 * i + v) 61). destruct t; cbn [region fst snd max_idx] in *; lia.
Qed.

Lemma get_offs_size_region t i v : key_ok t i v -> get_offs_size t i v = Ret (region t i v).
Proof.
  intros [Hi Hv]. unfold get_offs_size. replace ((v =? 0) || (v =? 1)) with true by (destruct Hv as [-> | ->]; done). cbn [guard_c].
  change block_nodes with 31. unfold SIZEOF_IMAGE, SIZEOF_NODE_IMAGE. change BLOCK_SIZE with 4096. unfold region.
  change (mbind ?f (Ret tt)) with (f tt). cbn beta. f_equal.
  pose proof (Z.div_mod i 31). pose proof (Z.mod_pos_bound i 31). pose proof (Z.div_mod (2 * i + v) 61).
  pose proof (Z.mod_pos_bound (2 * i + v) 61). destruct t; cbn [max_idx] in *.
  - rewrite u64_small by lia. done.
  - rewrite (u64_small (1 + _)), u64_small by lia. f_equal. lia.
  - rewrite (u64_small (2 * i + v)) by lia. change (31 * 2 - 1) with 61. rewrite (u64_small (2 + _ + _)), u64_small by lia. done.
Qed.

(** Different elements have no byte in common. *)
Lemma region_disjoint t i v t' i' v' : key_ok t i v -> key_ok t' i' v' -> (t, i, v) <> (t', i', v') ->
  fst (region t i v) + snd (region t i v) <= fst (region t' i' v') \/ fst (region t' i' v') + snd (region t' i' v') <= fst (region t i v).
Proof.
  intros [Hi Hv] [Hi' Hv'] Hne. pose proof (Z.div_mod i 31). pose proof (Z.mod_pos_bound i 31). pose proof (Z.div_mod i' 31). pose proof (Z.mod_pos_bound i' 31).
  pose proof (Z.div_mod (2 * i + v) 61). pose proof (Z.mod_pos_bound (2 * i + v) 61). pose proof (Z.div_mod (2 * i' + v') 61). pose proof (Z.mod_pos_bound (2 * i' + v') 61).
  assert (Hd : t <> t' \/ i < i' \/ i' < i \/ v < v' \/ v' < v).
  { destruct (decide (t = t')) as [-> |]; [| by left]. right. destruct (decide (i = i')) as [-> |]; [| lia].
    destruct (decide (v = v')) as [-> |]; [done | lia]. }
  destruct t, t'; cbn [region fst snd max_idx] in *; try (clear Hd; lia); (destruct Hd as [Hd | Hd]; [done | lia]).
Qed.

(** ** What the calls to the normal world promise *)

(** [fs_data] is the contents of the file open under a descriptor.  A write that fails may leave
    anything in the bytes it was to write, and nothing else. *)
Class FsRpcLaws (R : Type) `{!HeapOps R, !HtreeCrypto R, !FsRpc R} := {
  fs_fails : Prop;
  fs_data : R -> Z -> list Z;
  fs_same (w w' : R) : Prop := forall fd, fs_data w' fd = fs_data w fd;
  fs_op_for : fs_op -> Z -> Z -> Z -> Prop;
  fs_read : forall fd offs len w, 0 <= offs < 2 ^ 63 -> 0 <= len ->
    wpx (op ← tee_fs_rpc_read_init fd offs len; tee_fs_rpc_read_final op) w (fun r w' => fs_same w w' /\
      match r with inl b => b = field (fs_data w fd) (Z.to_nat offs) (Z.to_nat len) | inr _ => fs_fails end);
  fs_write_init : forall fd offs len w, 0 <= offs < 2 ^ 63 -> 0 <= len ->
    wpx (tee_fs_rpc_write_init fd offs len) w (fun r w' => fs_same w w' /\
      match r with inl op => fs_op_for op fd offs len | inr _ => fs_fails end);
  fs_write_final : forall op fd offs len b w, fs_op_for op fd offs len -> 0 <= offs -> Z.of_nat (length b) = len ->
    wpx (tee_fs_rpc_write_final op b) w (fun r w' =>
      (forall j x, fs_data w fd !! j = Some x -> Z.of_nat j < offs \/ offs + len <= Z.of_nat j -> fs_data w' fd !! j = Some x) /\
      match r with inl _ => field (fs_data w' fd) (Z.to_nat offs) (Z.to_nat len) = b | inr _ => fs_fails end);
  fs_close : forall fd w, wpx (tee_fs_rpc_close fd) w (fun _ _ => True);
  fs_crypto :: CryptoLaws R fs_same fs_fails }.

Lemma lookup_field b off n k : (k < n)%nat -> field b off n !! k = b !! (off + k)%nat.
Proof. intros Hk. unfold field. by rewrite lookup_take, decide_True, lookup_drop. Qed.

(** A part of a file whose bytes are kept. *)
Lemma field_kept d d' off n : length (field d off n) = n ->
  (forall j x, (off <= j < off + n)%nat -> d !! j = Some x -> d' !! j = Some x) -> field d' off n = field d off n.
Proof.
  intros Hl HK. apply list_eq. intros k. destruct (decide (k < n)%nat) as [Hk|Hk].
  - rewrite !lookup_field by done. destruct (lookup_lt_is_Some_2 (field d off n) k) as [x Hx]; [lia |].
    rewrite lookup_field in Hx by done. rewrite Hx. apply HK; [lia | done].
  - unfold field in *. rewrite !lookup_ge_None_2; [done | lia |]. rewrite length_take. lia.
Qed.

(** Laws that say less of the storage. *)
Definition crypto_weaken {W} `{!HeapOps W, !HtreeCrypto W} (same same' : W -> W -> Prop) (fails : Prop) :
  (forall w w', same w w' -> same' w w') -> CryptoLaws W same fails -> CryptoLaws W same' fails.
Proof.
  intros HS C. refine {| hash_fn := hash_fn; hctx := hctx; aead_seal := aead_seal; aead_open := aead_open;
    actx := actx; fek_enc := fek_enc; fek_dec := fek_dec |}.
  - intros n w. destruct (h_malloc n w) as (r & w' & E & H1 & H2). eauto 10.
  - intros n w Hn. eapply wpx_mono; [by apply h_prng |]. cbn beta. intros r w' [? ?]. eauto.
  - apply hash_fn_length.
  - apply h_hash_supported.
  - intros w. eapply wpx_mono; [by apply h_hash_size |]. cbn beta. intros r w' [? ?]. eauto.
  - intros w. eapply wpx_mono; [by apply h_hash_init |]. cbn beta. intros r w' [? ?]. eauto.
  - intros c x b w Hc. eapply wpx_mono; [by apply h_hash_update |]. cbn beta. intros r w' [? ?]. eauto.
  - intros c x w Hc. eapply wpx_mono; [by apply h_hash_final |]. cbn beta. intros r w' [? ?]. eauto.
  - apply aead_seal_length.
  - apply aead_open_length.
  - apply aead_open_seal.
  - intros w. eapply wpx_mono; [by apply h_authenc_size |]. cbn beta. intros r w' [? ?]. eauto.
  - intros mode k iv tl al pl w. eapply wpx_mono; [by apply h_authenc_init |]. cbn beta. intros r w' [? ?]. eauto.
  - intros c k iv a mode b w Hc. eapply wpx_mono; [by apply h_authenc_aad |]. cbn beta. intros r w' [? ?]. eauto.
  - intros c k iv a p w Hc. eapply wpx_mono; [by apply h_authenc_enc |]. cbn beta. intros r w' [? ?]. eauto.
  - intros c k iv a ct t w Hc. eapply wpx_mono; [by apply h_authenc_dec |]. cbn beta. intros r w' [? ?]. eauto.
  - apply fek_dec_enc.
  - apply fek_enc_length.
  - intros u mode k w Hm. eapply wpx_mono; [by apply h_fek |]. cbn beta. intros r w' [? ?]. eauto.
Defined.

Section ReeStorage.
Context {R : Type} `{FsRpcLaws R} (fd : Z).
Implicit Types (w : R).

Definition ree_view w (t : htype) (i v : Z) : list Z :=
  field (fs_data w fd) (Z.to_nat (fst (region t i v))) (Z.to_nat (snd (region t i v))).
Lemma ree_view_same w w' : fs_same w w' -> forall t i v, ree_view w' t i v = ree_view w t i v.
Proof. intros HS t i v. unfold ree_view. by rewrite HS. Qed.
Lemma region_size t i v : snd (region t i v) = tsize (HtreeStorage0 := ree_fs_storage_ops fd) t.
Proof. by destruct t. Qed.

(** What is written to one element leaves every other complete element. *)
Lemma ree_view_kept w w' t i v t' i' v' : key_ok t i v -> key_ok t' i' v' -> (t', i', v') <> (t, i, v) ->
  (forall j x, fs_data w fd !! j = Some x -> Z.of_nat j < fst (region t i v) \/ fst (region t i v) + snd (region t i v) <= Z.of_nat j ->
     fs_data w' fd !! j = Some x) ->
  Z.of_nat (length (ree_view w t' i' v')) = snd (region t' i' v') -> ree_view w' t' i' v' = ree_view w t' i' v'.
Proof.
  intros Hk Hk' Hne HK Hf. pose proof (region_bounds _ _ _ Hk) as [B1 _]. pose proof (region_bounds _ _ _ Hk') as [B2 _].
  pose proof (region_disjoint _ _ _ _ _ _ Hk Hk' (not_eq_sym Hne)) as HD. unfold ree_view in *. apply field_kept; [lia |].
  intros j x Hj Hx. apply HK; [done |]. assert (0 <= snd (region t' i' v')) by (by destruct t'). lia.
Qed.

(** A file of the normal world is a storage for a hash tree. *)
Definition ree_htree : @HtreeLaws R _ (ree_fs_storage_ops fd) _.
Proof.
  refine (@Build_HtreeLaws R _ (ree_fs_storage_ops fd) _ fs_fails ree_view _ (fun op t i v => fs_op_for op fd (fst (region t i v)) (snd (region t i v)))
    _ _ _ (crypto_weaken fs_same _ fs_fails ree_view_same fs_crypto)).
  - done.
  - intros t i v w Hk. pose proof (region_bounds _ _ _ Hk) as [B1 B2]. assert (B3 : 0 <= snd (region t i v)) by (by destruct t).
    cbn [rpc_read_init rpc_read_final ree_fs_storage_ops]. unfold ree_fs_rpc_read_init. rewrite (get_offs_size_region _ _ _ Hk).
    destruct (region t i v) as [offs size] eqn:Er. cbn [fst snd] in *.
    eapply wpx_mono; [apply (fs_read fd offs size w); lia |]. cbn beta. intros r w' [HS HR]. split; [by apply ree_view_same |].
    destruct r; [| done]. unfold ree_view. rewrite Er. done.
  - intros t i v w Hk. pose proof (region_bounds _ _ _ Hk) as [B1 B2]. assert (B3 : 0 <= snd (region t i v)) by (by destruct t).
    cbn [rpc_write_init ree_fs_storage_ops]. unfold ree_fs_rpc_write_init. rewrite (get_offs_size_region _ _ _ Hk).
    destruct (region t i v) as [offs size] eqn:Er. cbn [fst snd] in *.
    eapply wpx_mono; [apply (fs_write_init fd offs size w); lia |]. cbn beta. intros r w' [HS HR]. split; [by apply ree_view_same |]. done.
  - intros op t i v b w Hop Hk Hb. pose proof (region_bounds _ _ _ Hk) as [B1 B2]. rewrite <- (region_size t i v) in Hb.
    eapply wpx_mono; [apply (fs_write_final op fd _ _ b w Hop B1 Hb) |]. cbn beta. intros r w' [HK HR]. split.
    + intros t' i' v' Hne Hk' Hf. rewrite <- (region_size t' i' v') in Hf. by apply (ree_view_kept w w' t i v).
    + destruct r; [by unfold ree_view | done].
Defined.
End ReeStorage.
