(* ===== verification/ReeBytes.v ===== *)
(** * A file of the secure file system as a string of bytes

    The blocks of the hash tree one after the other, up to the length in the meta data, are the
    bytes of the file.  Reading and writing at a position does to the bytes what a file does:
    a write past the end fills the gap with zeros. *)

From stdpp Require Import base numbers list.
From S2P Require Import Prelude SkTypes FsCore Dirfile Htree HtreeShape HtreeLaws HtreeBlocks HtreeSync HtreeCommit HtreeOpen HtreeSpec ReeFs ReeLayout.

(** ** Blocks and bytes *)

Lemma splice_within a b c off x : (off + length x <= length b)%nat ->
  splice (a ++ b ++ c) (length a + off) x = a ++ splice b off x ++ c.
Proof.
  intros Hl. unfold splice. rewrite take_app_add, <- !app_assoc. f_equal. rewrite take_app_le by lia. f_equal. f_equal.
  replace (length a + off + length x)%nat with (length a + (off + length x))%nat by lia. rewrite drop_app_add, drop_app_le by lia. done.
Qed.

Section Flat.
Context (B : nat).
Definition blocks (bs : list (list Z)) : Prop := Forall (fun b => length b = B) bs.
Lemma concat_length bs : blocks bs -> length (concat bs) = (length bs * B)%nat.
Proof. induction 1 as [|b bs Hb _ IH]; [done |]. cbn. rewrite length_app, IH, Hb. lia. Qed.

(** The bytes with room for blocks up to [m]. *)
Definition padded (bs : list (list Z)) (m : nat) : list Z := concat bs ++ replicate ((m - length bs) * B) 0.

Lemma padded_length bs m : blocks bs -> length (padded bs m) = (Nat.max (length bs) m * B)%nat.
Proof. intros HB. unfold padded. rewrite length_app, length_replicate, concat_length by done. rewrite <- Nat.mul_add_distr_r. f_equal. lia. Qed.

Lemma put_flat k bs off x : blocks bs -> (k <= length bs)%nat -> (off + length x <= B)%nat ->
  concat (put_block k (splice (default (replicate B 0) (bs !! k)) off x) bs) = splice (padded bs (S k)) (k * B + off) x.
Proof.
  intros HB Hk Hx. unfold put_block, padded. destruct (decide (k < length bs)%nat) as [Hlt|Hge].
  - destruct (lookup_lt_is_Some_2 bs k Hlt) as [b Hb]. rewrite Hb. cbn [default from_option id].
    assert (Lb : length b = B) by (by apply (Forall_lookup_1 _ _ _ _ HB Hb)). replace (S k - length bs)%nat with 0%nat by lia. cbn [Nat.mul replicate]. rewrite app_nil_r.
    rewrite insert_take_drop by done. rewrite <- (take_drop_middle bs k b Hb) at 3. rewrite !concat_app. cbn [concat].
    assert (Lt : length (concat (take k bs)) = (k * B)%nat).
    { rewrite concat_length by (by apply Forall_take). rewrite length_take. f_equal. lia. }
    rewrite <- Lt. symmetry. apply splice_within. lia.
  - assert (k = length bs) as -> by lia. rewrite lookup_ge_None_2 by lia. cbn [default from_option id].
    replace (S (length bs) - length bs)%nat with 1%nat by lia. rewrite Nat.mul_1_l, concat_app. cbn [concat]. rewrite app_nil_r.
    rewrite <- (concat_length bs HB). rewrite <- (app_nil_r (replicate B 0)) at 2. rewrite splice_within by (rewrite length_replicate; lia).
    by rewrite app_nil_r.
Qed.

Lemma put_blocks k b bs : blocks bs -> length b = B -> blocks (put_block k b bs).
Proof. intros HB Hb. unfold put_block. case_decide; [by apply Forall_insert | apply Forall_app; split; [done | by constructor]]. Qed.

(** More room later. *)
Lemma padded_splice bs m m' p x bs' : (m <= m')%nat -> blocks bs -> blocks bs' -> length bs' = Nat.max (length bs) m -> (p + length x <= length (padded bs m))%nat ->
  concat bs' = splice (padded bs m) p x -> padded bs' m' = splice (padded bs m') p x.
Proof.
  intros Hm HB HB' Hl Hp E. unfold padded at 1. rewrite E, Hl.
  assert (Epad : padded bs m' = padded bs m ++ replicate ((m' - Nat.max (length bs) m) * B) 0).
  { unfold padded. rewrite <- app_assoc. f_equal. rewrite <- replicate_add. f_equal.
    destruct (decide (m <= length bs)%nat); [rewrite Nat.max_l by lia; replace (m - length bs)%nat with 0%nat by lia; lia |].
    rewrite Nat.max_r by lia. rewrite <- Nat.mul_add_distr_r. f_equal. lia. }
  rewrite Epad. pose proof (splice_within [] (padded bs m) (replicate ((m' - Nat.max (length bs) m) * B) 0) p x Hp) as Hs.
  cbn [app length Nat.add] in Hs. by rewrite Hs.
Qed.

(** The bytes of the file once the blocks hold a write. *)
Lemma file_write c bs F p x : c = take (length c) (concat bs) -> (length c <= length (concat bs))%nat -> (p <= length c)%nat ->
  F = concat bs ++ replicate (length F - length (concat bs)) 0 -> (p + length x <= length F)%nat ->
  take (Nat.max (length c) (p + length x)) (splice F p x) = splice c p x.
Proof.
  intros Hc Hl Hp HF Hx. unfold splice. assert (ET : take p F = take p c).
  { rewrite HF, take_app_le by lia. rewrite Hc. rewrite take_take. f_equal. lia. }
  rewrite ET. assert (Ltp : length (take p c) = p) by (rewrite length_take; lia).
  rewrite take_app_ge by lia. f_equal. rewrite Ltp. destruct (decide (p + length x <= length c)%nat) as [Hle|Hgt].
  - rewrite Nat.max_l by done. rewrite take_app_ge by lia. f_equal. rewrite HF. rewrite drop_app_le by lia.
    rewrite Hc at 2. rewrite skipn_firstn_comm. rewrite take_app_le by (rewrite length_drop; lia). f_equal. lia.
  - rewrite Nat.max_r by lia. rewrite (drop_ge c) by lia. rewrite app_nil_r. rewrite take_app_le by lia. apply take_ge. lia.
Qed.
End Flat.

(** ** The tree of a file *)

Section Tree.
Context {W : Type} `{HtreeLaws W}.
Implicit Types (w : W) (ht : tee_fs_htree).
Context (u : option (list Z)) (osn : option tee_fs_htree).

(** The open tree with its blocks and the length in its meta data, over the version committed,
    which has the same length where nothing is to be written back. *)
Definition tree_is w (o : option tee_fs_htree) (bs : list (list Z)) (l : Z) : Prop :=
  exists ht, o = Some ht /\ ht_uuid ht = u /\ open_at w ht osn bs /\ im_length (ht_imeta ht) = l /\
    (ht_dirty ht = true \/ forall sn, osn = Some sn -> im_length (ht_imeta sn) = l).
Definition touched (o : option tee_fs_htree) : Prop := exists ht, o = Some ht /\ ht_dirty ht = true.

Lemma tree_write w o bs l k b : tree_is w o bs l -> hop_ok (length bs) (HopWrite k b) ->
  wpx (tee_fs_htree_write_block (Z.of_nat k) b) (w, o) (fun r s' => old_kept w (fst s') osn /\
    match r with inl _ => tree_is (fst s') (snd s') (put_block k b bs) l /\ touched (snd s') | inr _ => flaky end).
Proof.
  intros (ht & -> & Hu & HO & Hl & _) Hok. eapply wpx_mono; [by apply (write_at w ht osn bs k b) |]. cbn beta.
  intros [[]|e] [w' o'] [HK HR]; cbn [fst snd] in *; (split; [done |]); [| by destruct HR].
  destruct HR as (ht' & -> & HO' & Eu & El & Ed). split; [| by exists ht']. exists ht'. split_and!; [done | congruence | done | congruence | by left].
Qed.

Lemma tree_same w w' o bs l : tree_is w o bs l -> sameV w w' -> tree_is w' o bs l.
Proof. intros (ht & -> & Hu & HO & Hl) HS. exists ht. split_and!; try done; try apply Hl. by eapply open_same. Qed.

Lemma tree_read w o bs l k b : tree_is w o bs l -> bs !! k = Some b ->
  wpx (tee_fs_htree_read_block (Z.of_nat k)) (w, o) (fun r s' => sameV w (fst s') /\
    match r with inl b' => b' = b /\ snd s' = o | inr _ => flaky end).
Proof.
  intros (ht & -> & Hu & HO & Hl) Hk. eapply wpx_mono; [by apply (read_at w ht osn bs k b) |]. cbn beta.
  intros [b'|e] [w' o'] [HS HR]; cbn [fst snd] in *; (split; [done |]); [done | by destruct HR].
Qed.

Lemma tree_kept_same w w' o bs l : tree_is w o bs l -> sameV w w' -> old_kept w w' osn.
Proof. intros (ht & _ & _ & HO & _) HS. eapply open_kept; [done |]. intros HI. by eapply old_kept_same. Qed.

Lemma open_set_length w ht bs l : open_at w ht osn bs -> 0 <= l < 2 ^ 64 -> open_at w (set_length ht l) osn bs.
Proof.
  intros HO Hl. assert (Hok : ht_ok ht -> ht_ok (set_length ht l)).
  { intros [H1 H2 H3 [H4 H5]]. by split. }
  assert (Hinv : forall osn, hinv w ht osn -> hinv w (set_length ht l) osn) by (intros o [H1 H2 H3 H4 H5]; split; auto).
  destruct osn as [sn|]; cbn [open_at] in *.
  - destruct HO as (Hoff & HI & Hb). auto.
  - destruct HO as [Hv [((HO & Hn & Hf) & Hd & ->) | [HI Hb]]]; (split; [done |]); [left | right; auto].
    split; [| done]. split; [auto | done].
Qed.
End Tree.

(** ** The bytes of an open file *)

Lemma block_num pos : 0 <= pos < 2 ^ 31 -> pos_to_block_num pos = pos / 4096.
Proof. intros Hp. unfold pos_to_block_num, BLOCK_SHIFT. rewrite i32_small, Z.shiftr_div_pow2 by lia. done. Qed.
Lemma block_num64 pos : 0 <= pos < 2 ^ 31 -> u64 (pos_to_block_num pos) = pos / 4096.
Proof. intros Hp. rewrite block_num by done. apply u64_small. pose proof (Z.div_pos pos 4096). pose proof (Z.div_le_upper_bound pos 4096 (2 ^ 31)). lia. Qed.
Lemma roundup_blocks l : 0 <= l <= 2 ^ 31 -> roundup_block l = (l + 4095) / 4096 * 4096.
Proof.
  intros Hl. unfold roundup_block. change (BLOCK_SIZE - 1) with (Z.ones 12). rewrite u64_small by (change (Z.ones 12) with 4095; lia).
  rewrite <- Z.ldiff_land, Z.ldiff_ones_r, Z.shiftr_div_pow2, Z.shiftl_mul_pow2 by lia. done.
Qed.
Lemma chunk_bounds pos rem : 0 <= pos -> 0 < rem -> let off := pos mod 4096 in
  0 <= off < 4096 /\ 0 < chunk pos rem /\ chunk pos rem <= rem /\ off + chunk pos rem <= 4096 /\
  (chunk pos rem = rem \/ off + chunk pos rem = 4096).
Proof.
  intros Hp Hr off. pose proof (Z.mod_pos_bound pos 4096 ltac:(lia)) as Hm. unfold chunk. change BLOCK_SIZE with 4096. fold off in Hm |- *.
  destruct (Z.ltb_spec 4096 (Z.min rem 4096 + off)); lia.
Qed.

(** The blocks left after the first of [k]. *)
Lemma blocks_left pos rem (k : nat) : 0 <= pos -> 0 < rem -> Z.of_nat (S k) = (pos + rem - 1) / 4096 - pos / 4096 + 1 ->
  let pos' := pos + chunk pos rem in let rem' := rem - chunk pos rem in
  k = O /\ rem' = 0 \/ 0 < rem' /\ pos' / 4096 = pos / 4096 + 1 /\ Z.of_nat k = (pos' + rem' - 1) / 4096 - pos' / 4096 + 1.
Proof.
  intros Hp Hr Hk pos' rem'. destruct (chunk_bounds pos rem Hp Hr) as (Ho & Hc & Hle & Hb & Hor).
  assert (Es : pos' + rem' = pos + rem) by (unfold pos', rem'; lia). rewrite Es. pose proof (Z.div_mod pos 4096 ltac:(lia)) as Ed.
  destruct Hor as [Hor | Hor].
  - left. split; [| unfold rem'; lia]. rewrite Hor in Hb. assert (Eq : (pos + rem - 1) / 4096 = pos / 4096).
    { symmetry. apply (Z.div_unique _ _ _ (pos mod 4096 + rem - 1)); lia. }
    lia.
  - assert (Ep : pos' / 4096 = pos / 4096 + 1) by (symmetry; apply (Z.div_unique _ _ _ 0); unfold pos'; lia).
    destruct (decide (rem' = 0)) as [E0|N0].
    + left. split; [| done]. assert (Eq : (pos + rem - 1) / 4096 = pos / 4096).
      { symmetry. apply (Z.div_unique _ _ _ (pos mod 4096 + rem - 1)); unfold rem' in *; lia. }
      lia.
    + right. unfold rem' in *. split_and!; lia.
Qed.

Section Bytes.
Context {R : Type} `{FsRpcLaws R} (fd : Z) (u : option (list Z)) (osn : option tee_fs_htree).
#[local] Instance the_storage : HtreeStorage R := ree_fs_storage_ops fd.
#[local] Instance the_laws : HtreeLaws R := ree_htree fd.
Implicit Types (w : R) (f : tee_fs_fd).
#[local] Notation B := (Z.to_nat BLOCK_SIZE).

Lemma same_sameV w w' : fs_same w w' -> sameV w w'.
Proof. intros HS t i v. exact (ree_view_same fd w w' HS t i v). Qed.

(** What a call leaves: the version committed and the handle of the file. *)
Definition fkept (s s' : wfd R) : Prop := old_kept (fst s) (fst s') osn /\ f_dfh (snd s') = f_dfh (snd s).
Lemma fkept_trans s1 s2 s3 : fkept s1 s2 -> fkept s2 s3 -> fkept s1 s3.
Proof. intros [K1 E1] [K2 E2]. split; [exact (old_kept_trans _ _ _ _ K1 K2) | congruence]. Qed.

Definition file_is w f (bs : list (list Z)) (l : Z) : Prop := f_fd f = fd /\ tree_is u osn w (f_ht f) bs l /\ blocks B bs.

Lemma file_same w w' f bs l : file_is w f bs l -> sameV w w' -> file_is w' f bs l.
Proof. intros (Ef & HT & HB) HS. split_and!; [done | | done]. by eapply tree_same. Qed.
Lemma file_kept w w' f o bs l : file_is w f bs l -> sameV w w' -> fkept (w, f) (w', set_f_ht f o).
Proof. intros (_ & HT & _) HS. split; [| done]. eapply (tree_kept_same u osn); [exact HT | exact HS]. Qed.
Lemma file_kept_same w w' f bs l : file_is w f bs l -> sameV w w' -> fkept (w, f) (w', f).
Proof. intros HF HS. pose proof (file_kept w w' f (f_ht f) bs l HF HS) as HK. by destruct f. Qed.

Lemma on_tree_wp {A} (m : HtreeStorage R -> ex (whtp R) A) w f (Q : A + Z -> wfd R -> Prop) : f_fd f = fd ->
  wpx (m (ree_fs_storage_ops fd)) (w, f_ht f) (fun r s' => Q r (fst s', set_f_ht f (snd s'))) -> wpx (on_tree m) (w, f) Q.
Proof. intros Ef (r & [w' o'] & E & HQ). unfold wpx, on_tree. rewrite Ef, E. eauto. Qed.

Lemma meta_length_wp w f bs l (Q : Z + Z -> wfd R -> Prop) : file_is w f bs l -> Q (inl l) (w, f) -> wpx meta_length (w, f) Q.
Proof.
  intros (_ & (ht & Eh & _ & _ & El & _) & _) HQ. unfold meta_length. apply wpx_bind, wpx_get_d. cbn [snd]. apply wpx_bind.
  eapply wpx_pure; [by rewrite Eh |]. apply wpx_ret. unfold tee_fs_htree_get_meta. by rewrite El.
Qed.

(** The bytes written: those given, or zeros. *)
Definition bytes_of (data : option (list Z)) (rem : Z) : list Z := match data with Some d => d | None => zeros rem end.

(** The block a write starts from. *)
Lemma read_wp w f bs l k b : file_is w f bs l -> bs !! k = Some b ->
  wpx (on_tree (fun _ => tee_fs_htree_read_block (Z.of_nat k))) (w, f) (fun r s' => fkept (w, f) s' /\
    match r with inl b' => b' = b /\ snd s' = f /\ file_is (fst s') f bs l | inr _ => fs_fails end).
Proof.
  intros HF Hb. apply on_tree_wp; [apply HF |]. eapply wpx_mono; [by apply (tree_read (W := R) u osn w (f_ht f) bs l k b); [apply HF |] |].
  cbn beta. intros r [w' o'] [HS HR]; cbn [fst snd] in *. split; [by eapply file_kept |]. destruct r as [b'|e]; [| done].
  destruct HR as [-> ->]. split_and!; [done | by destruct f | by eapply file_same].
Qed.
Lemma old_block w f bs l k : file_is w f bs l -> 0 <= l <= 2 ^ 31 -> Z.of_nat (length bs) = Z.max ((l + 4095) / 4096) (Z.of_nat k) -> Z.of_nat k <= 2 ^ 31 ->
  wpx (if u64 (Z.of_nat k * BLOCK_SIZE) <? roundup_block l then on_tree (fun _ => tee_fs_htree_read_block (Z.of_nat k)) else mret (zeros BLOCK_SIZE))
    (w, f) (fun r s' => fkept (w, f) s' /\ match r with
      | inl b => b = default (replicate B 0) (bs !! k) /\ length b = B /\ snd s' = f /\ file_is (fst s') f bs l
      | inr _ => fs_fails end).
Proof.
  intros HF Hl Hn Hk. rewrite roundup_blocks by done. change BLOCK_SIZE with 4096 at 1. rewrite u64_small by lia. pose proof HF as (_ & _ & HB).
  destruct (Z.ltb_spec (Z.of_nat k * 4096) ((l + 4095) / 4096 * 4096)) as [Hlt|Hge].
  - destruct (lookup_lt_is_Some_2 bs k) as [b Hb]; [lia |]. rewrite Hb. eapply wpx_mono; [by apply (read_wp w f bs l k b) |]. cbn beta.
    intros r s' [HK HR]. split; [done |]. destruct r as [b'|e]; [| done]. destruct HR as (-> & Es & HF').
    split_and!; [done | by apply (Forall_lookup_1 _ _ _ _ HB Hb) | done | done].
  - apply wpx_ret. cbn [fst snd]. split; [by eapply file_kept_same |]. rewrite lookup_ge_None_2 by lia.
    split_and!; [done | by unfold zeros; rewrite length_replicate | done | done].
Qed.

Lemma write_bytes_spec k : forall w f bs l s pos data rem, file_is w f bs l -> 0 <= l <= 2 ^ 31 -> 0 <= s ->
  Z.of_nat (length bs) = Z.max ((l + 4095) / 4096) s -> 0 <= pos -> 0 <= rem -> pos + rem <= 2 ^ 31 ->
  (k = O /\ rem = 0 \/ 0 < rem /\ s = pos / 4096 /\ Z.of_nat k = (pos + rem - 1) / 4096 - pos / 4096 + 1) ->
  Z.of_nat (length (bytes_of data rem)) = rem ->
  wpx (write_blocks k s pos data rem) (w, f) (fun r s' => fkept (w, f) s' /\
    match r with
    | inl pos' => pos' = pos + rem /\ (k <> O \/ touched (f_ht f) -> touched (f_ht (snd s'))) /\ exists bs', file_is (fst s') (snd s') bs' l /\
        Z.of_nat (length bs') = Z.max ((l + 4095) / 4096) (s + Z.of_nat k) /\
        concat bs' = splice (padded B bs (Z.to_nat s + k)) (Z.to_nat pos) (bytes_of data rem)
    | inr _ => fs_fails
    end).
Proof.
  induction k as [|k IH]; intros w f bs l s pos data rem HF Hl Hs Hn Hp Hr Hpr Hk Hd; cbn [write_blocks].
  { assert (rem = 0) as -> by (destruct Hk as [? | (? & _ & ?)]; [lia | pose proof (Z.div_le_mono pos (pos + rem - 1) 4096); lia]). apply wpx_ret. cbn [fst snd]. split; [by eapply file_kept_same |].
    split; [lia |]. split; [by intros [? | ?] |]. exists bs. split; [done |]. split; [lia |].
    assert (Ex : bytes_of data 0 = []) by (apply nil_length_inv; lia). rewrite Ex, splice_nil. unfold padded.
    replace (Z.to_nat s + 0 - length bs)%nat with 0%nat by lia. cbn. by rewrite app_nil_r. }
  destruct Hk as [[? _] | (Hr0 & -> & Hk)]; [done |].
  destruct (chunk_bounds pos rem Hp Hr0) as (Ho & Hc & Hcr & Hco & _). pose proof (blocks_left pos rem k Hp Hr0 Hk) as HL. cbn zeta in HL.
  set (sz := chunk pos rem) in *. change (pos mod BLOCK_SIZE) with (pos mod 4096). pose proof (Z.div_mod pos 4096 ltac:(lia)) as Ed.
  pose proof (Z.div_pos pos 4096 Hp ltac:(lia)) as Hdp. apply wpx_bind, (meta_length_wp w f bs l _ HF).
  rewrite <- (Z2Nat.id (pos / 4096)) by done. set (n := Z.to_nat (pos / 4096)) in *. assert (En : Z.of_nat n = pos / 4096) by (unfold n; lia).
  apply wpx_bind. eapply wpx_mono; [apply (old_block w f bs l n HF Hl); lia |]. cbn beta.
  intros [b|e] [w1 f1] [HK1 HR]; cbn [fst snd] in *; [| done]. destruct HR as (-> & Lb & -> & HF1).
  set (x := take (Z.to_nat sz) (bytes_of data rem)). assert (Lx : length x = Z.to_nat sz) by (unfold x; rewrite length_take; lia).
  apply wpx_bind. eapply (wpx_pure _ x).
  { unfold x. destruct data as [d|]; cbn [bytes_of] in *.
    - by rewrite (proj2 (Z.leb_le sz (Z.of_nat (length d)))) by lia.
    - unfold zeros. rewrite take_replicate. do 2 f_equal. lia. }
  destruct HF1 as (Ef1 & HT1 & HB1). apply wpx_bind, on_tree_wp; [done |].
  set (blk := splice _ _ x). assert (Lblk : length blk = B).
  { unfold blk. rewrite length_splice, Lb; [done |]. rewrite Lb, Lx. change BLOCK_SIZE with 4096. lia. }
  eapply wpx_mono; [apply (tree_write (W := R) u osn w1 (f_ht f) bs l n blk HT1) |].
  { split_and!; [lia | unfold UINT_MAX; lia |]. rewrite Lblk. done. }
  cbn beta. intros r2 [w2 o2] [HK2 HT2]; cbn [fst snd] in *.
  assert (HK12 : fkept (w, f) (w2, set_f_ht f o2)) by (eapply fkept_trans; [exact HK1 | by split]).
  destruct r2 as [[]|e]; [| done]. destruct HT2 as [HT2 Ht2]. set (bs1 := put_block n blk bs) in *. assert (HB2 : blocks B bs1) by (by apply put_blocks).
  assert (Ln : length bs1 = Nat.max (length bs) (S n)) by (destruct (put_block_length n blk bs); [done | lia]).
  rewrite u64_small by lia. rewrite (u64_small (pos + sz)), (u64_small (rem - sz)) by lia.
  set (data1 := drop (Z.to_nat sz) <$> data). assert (Ebytes : bytes_of data rem = x ++ bytes_of data1 (rem - sz)).
  { unfold x, data1. destruct data as [d|]; cbn [bytes_of fmap option_fmap option_map] in *; [by rewrite take_drop |].
    unfold zeros. rewrite take_replicate, <- replicate_add. f_equal. lia. }
  assert (Ld1 : Z.of_nat (length (bytes_of data1 (rem - sz))) = rem - sz).
  { apply (f_equal length) in Ebytes. rewrite length_app in Ebytes. lia. }
  eapply wpx_mono; [apply (IH w2 (set_f_ht f o2) bs1 l (Z.of_nat n + 1) (pos + sz) data1 (rem - sz)) |].
  { by split_and!. } { done. } { lia. } { lia. } { lia. } { lia. } { lia. } { destruct HL as [? | (H1 & H2 & H3)]; [by left | right]. split_and!; lia. } { done. }
  cbn beta. intros r3 [w3 f3] [HK3 HR]; cbn [fst snd] in *. split; [exact (fkept_trans _ _ _ HK12 HK3) |]. destruct r3 as [pos'|e]; [| done].
  destruct HR as (-> & Ht3 & bs' & HF3 & Hn3 & Hc3). split; [lia |]. split; [intros _; apply Ht3; by right |]. exists bs'. split; [done |]. split; [lia |]. rewrite Hc3.
  assert (Epos : Z.to_nat pos = (n * B + Z.to_nat (pos mod 4096))%nat) by (change BLOCK_SIZE with 4096; lia).
  assert (Hflat : concat bs1 = splice (padded B bs (S n)) (Z.to_nat pos) x).
  { rewrite Epos. unfold bs1, blk. apply put_flat; [done | lia |]. rewrite Lx. change BLOCK_SIZE with 4096. lia. }
  rewrite (padded_splice B bs (S n) (Z.to_nat (Z.of_nat n + 1) + k) (Z.to_nat pos) x bs1); [| lia | done | done | done | | done].
  - replace (Z.to_nat (pos + sz)) with (Z.to_nat pos + length x)%nat by lia. rewrite splice_adjacent.
    + rewrite <- Ebytes. do 2 f_equal. lia.
    + rewrite padded_length by done. change BLOCK_SIZE with 4096 in *. pose proof (Z.div_mod (pos + rem - 1) 4096 ltac:(lia)).
      pose proof (Z.mod_pos_bound (pos + rem - 1) 4096 ltac:(lia)). lia.
  - rewrite padded_length by done. change BLOCK_SIZE with 4096 in *. lia.
Qed.

(** ** The contents of a file *)

Definition holds_bytes (bs : list (list Z)) (c : list Z) : Prop :=
  blocks B bs /\ Z.of_nat (length bs) = (Z.of_nat (length c) + 4095) / 4096 /\ c = take (length c) (concat bs).
Definition content_is w f (c : list Z) : Prop :=
  exists bs, file_is w f bs (Z.of_nat (length c)) /\ holds_bytes bs c /\ Z.of_nat (length c) <= 2 ^ 31.

Lemma holds_bytes_room bs c : holds_bytes bs c -> (length c <= length (concat bs))%nat.
Proof.
  intros (HB & Hn & _). rewrite (concat_length _ _ HB). pose proof (Z.div_mod (Z.of_nat (length c) + 4095) 4096 ltac:(lia)).
  pose proof (Z.mod_pos_bound (Z.of_nat (length c) + 4095) 4096 ltac:(lia)). change BLOCK_SIZE with 4096. lia.
Qed.

Lemma length_splice_max (c x : list Z) p : (p <= length c)%nat -> length (splice c p x) = Nat.max (length c) (p + length x).
Proof. intros Hp. unfold splice. rewrite !length_app, length_take, length_drop. lia. Qed.

(** The number of blocks after a write of [len] bytes at [pos]. *)
Lemma blocks_after l pos len : 0 <= pos <= l -> 0 < len ->
  Z.max ((l + 4095) / 4096) (pos / 4096 + ((pos + len - 1) / 4096 - pos / 4096 + 1)) = (Z.max l (pos + len) + 4095) / 4096.
Proof.
  intros Hp Hl. replace ((pos + len - 1) / 4096 - pos / 4096 + 1) with ((pos + len - 1 + 1 * 4096) / 4096 - pos / 4096) by (rewrite Z.div_add; lia).
  replace (pos / 4096 + ((pos + len - 1 + 1 * 4096) / 4096 - pos / 4096)) with ((pos + len + 4095) / 4096) by (replace (pos + len - 1 + 1 * 4096) with (pos + len + 4095) by lia; lia).
  destruct (Z.max_spec l (pos + len)) as [[? ->] | [? ->]].
  - rewrite Z.max_r; [done |]. apply Z.div_le_mono; lia.
  - rewrite Z.max_l; [done |]. apply Z.div_le_mono; lia.
Qed.

Lemma set_meta_length_wp w f bs l l' (Q : unit + Z -> wfd R -> Prop) : file_is w f bs l -> touched (f_ht f) -> 0 <= l' < 2 ^ 64 ->
  (forall f', file_is w f' bs l' -> f_dfh f' = f_dfh f -> touched (f_ht f') -> Q (inl tt) (w, f')) -> wpx (set_meta_length l') (w, f) Q.
Proof.
  intros (Ef & (ht & Eh & Hu & HO & El & _) & HB) (ht0 & Eh0 & Hd) Hl HQ. assert (ht0 = ht) as -> by congruence.
  unfold set_meta_length. apply wpx_bind, wpx_get_d. cbn [snd]. apply wpx_bind.
  eapply wpx_pure; [by rewrite Eh |]. apply wpx_put_d. cbn [fst]. apply HQ; [| done | by eexists]. split_and!; [done | | done].
  eexists. split; [done |]. split_and!; [done | by apply open_set_length | done | by left].
Qed.

(** An allocation leaves the file. *)
Lemma malloc_file {A} w f bs l n (m : ex (wfd R) A) (Q : A + Z -> wfd R -> Prop) : file_is w f bs l ->
  (forall w', fkept (w, f) (w', f) -> file_is w' f bs l -> wpx m (w', f) Q) -> (forall w' e, fkept (w, f) (w', f) -> fs_fails -> Q (inr e) (w', f)) ->
  wpx (p ← onW (call (malloc n)); match p with None => throw TEE_ERROR_OUT_OF_MEMORY | Some _ => m end) (w, f) Q.
Proof.
  intros HF Hm He. apply wpx_bind, wpx_onW. destruct (h_malloc (CryptoLaws := fs_crypto) n w) as (p & w0 & Em & HS0%same_sameV & HN).
  eapply wpx_call; [exact Em |]. cbn beta. assert (HK : fkept (w, f) (w0, f)) by (by eapply file_kept_same).
  destruct p as [p|]; [| apply wpx_throw, He; [done | by apply HN]]. apply Hm; [done | by eapply file_same].
Qed.

(** What a call that writes does to the bytes. *)
Definition writes_to (s : wfd R) (c : list Z) (r : unit + Z) (s' : wfd R) : Prop :=
  fkept s s' /\ match r with inl _ => content_is (fst s') (snd s') c /\ touched (f_ht (snd s')) | inr _ => fs_fails end.

Lemma out_of_place_write_spec w f c pos data len : content_is w f c -> 0 <= pos <= Z.of_nat (length c) -> 0 < len -> pos + len <= 2 ^ 31 ->
  Z.of_nat (length (bytes_of data len)) = len ->
  wpx (out_of_place_write pos data len) (w, f) (writes_to (w, f) (splice c (Z.to_nat pos) (bytes_of data len))).
Proof.
  intros (bs & HF & Hbs & Hc31) Hp Hl Hpl Hd. pose proof Hbs as (HB & Hn & Hc). set (x := bytes_of data len) in *. set (L := Z.of_nat (length c)) in *.
  unfold out_of_place_write. rewrite (u64_small (pos + len - 1)), !block_num64 by lia. cbn zeta.
  pose proof (Z.div_pos pos 4096 ltac:(lia) ltac:(lia)) as Hs. pose proof (Z.div_le_mono pos (pos + len - 1) 4096 ltac:(lia) ltac:(lia)) as Hse.
  apply wpx_bind, (meta_length_wp w f bs L _ HF). apply (malloc_file w f bs L); [done | | by intros]. intros w0 HK0 HF0.
  apply wpx_bind, wpx_assert; [by apply Z.leb_le |]. set (k := Z.to_nat _). assert (Ek : Z.of_nat k = (pos + len - 1) / 4096 - pos / 4096 + 1) by (unfold k; lia).
  apply wpx_bind. eapply wpx_mono; [apply (write_bytes_spec k w0 f bs L (pos / 4096) pos data len) |].
  { done. } { unfold L in *; lia. } { done. } { rewrite Hn. symmetry. apply Z.max_l. apply Z.div_le_mono; lia. } { lia. } { lia. } { lia. } { right. by split_and!. } { done. }
  cbn beta. intros r [w1 f1] [HK1 HR]; cbn [fst snd] in *. pose proof (fkept_trans _ _ _ HK0 HK1) as HK.
  destruct r as [pos'|e]; [| done]. destruct HR as (-> & Ht1 & bs' & HF1 & Hn1 & Hc1). specialize (Ht1 ltac:(left; lia)).
  apply wpx_bind, (meta_length_wp w1 f1 bs' L _ HF1).
  assert (Lx : length (splice c (Z.to_nat pos) x) = Nat.max (length c) (Z.to_nat pos + length x)) by (apply length_splice_max; lia).
  assert (Hbs' : holds_bytes bs' (splice c (Z.to_nat pos) x)).
  { pose proof HF1 as (_ & _ & HB'). split_and!; [done | |].
    - rewrite Hn1, Ek, blocks_after by lia. rewrite Lx. unfold L. f_equal. lia.
    - rewrite Lx, Hc1. symmetry. apply (file_write c bs); [done | by apply holds_bytes_room | lia | |].
      + rewrite padded_length, (concat_length _ bs HB), <- Nat.mul_sub_distr_r by done. unfold padded. do 3 f_equal. lia.
      + rewrite padded_length by done. pose proof (Z.div_mod (pos + len - 1) 4096 ltac:(lia)). pose proof (Z.mod_pos_bound (pos + len - 1) 4096 ltac:(lia)).
        change BLOCK_SIZE with 4096. lia. }
  destruct (Z.ltb_spec L (pos + len)) as [Hlt|Hge].
  - eapply set_meta_length_wp; [done | done | lia |]. intros f2 HF2 Ed2 Ht2. split; [eapply fkept_trans; [exact HK | split; [by apply (file_kept_same w1 w1 f1 bs' L) | done]] |]. split; [| done].
    exists bs'. rewrite Lx. unfold L in *. split_and!; [| done | lia]. replace (Z.of_nat _) with (pos + len) by lia. done.
  - apply wpx_ret. split; [done |]. split; [| done]. exists bs'. rewrite Lx. unfold L in *. split_and!; [| done | lia].
    replace (Z.of_nat (Nat.max _ _)) with (Z.of_nat (length c)) by lia. done.
Qed.

(** ** Reading *)

(** The part of a block, and what follows it. *)
Lemma block_part bs n b off len : blocks B bs -> bs !! n = Some b -> (off + len <= B)%nat ->
  take len (drop off b) = field (concat bs) (n * B + off) len.
Proof.
  intros HB Hb Hl. assert (Lb : length b = B) by (by apply (Forall_lookup_1 _ _ _ _ HB Hb)). pose proof (lookup_lt_Some _ _ _ Hb) as Hlt.
  unfold field. rewrite <- (take_drop_middle bs n b Hb), concat_app. cbn [concat].
  assert (Lt : length (concat (take n bs)) = (n * B)%nat) by (rewrite (concat_length B) by (by apply Forall_take); rewrite length_take; f_equal; lia).
  rewrite <- Lt, drop_app_add, drop_app_le by lia. rewrite take_app_le; [done |]. rewrite length_drop. lia.
Qed.
Lemma field_app (F : list Z) off m n : (off + m + n <= length F)%nat -> field F off m ++ field F (off + m) n = field F off (m + n).
Proof. intros Hl. unfold field. rewrite <- drop_drop. by rewrite take_take_drop. Qed.

Lemma read_bytes_spec k : forall w f bs l pos rem, file_is w f bs l -> 0 <= pos -> 0 <= rem -> pos + rem <= 2 ^ 31 ->
  (k = O /\ rem = 0 \/ 0 < rem /\ Z.of_nat k = (pos + rem - 1) / 4096 - pos / 4096 + 1) -> pos + rem <= Z.of_nat (length (concat bs)) ->
  forall s, (0 < rem -> s = pos / 4096) ->
  wpx (read_blocks k s pos rem) (w, f) (fun r s' => fkept (w, f) s' /\
    match r with
    | inl b => b = field (concat bs) (Z.to_nat pos) (Z.to_nat rem) /\ snd s' = f /\ file_is (fst s') f bs l
    | inr _ => fs_fails
    end).
Proof.
  induction k as [|k IH]; intros w f bs l pos rem HF Hp Hr Hpr Hk Hroom s Hs; cbn [read_blocks].
  { assert (rem = 0) as -> by (destruct Hk as [? | (? & ?)]; [lia | pose proof (Z.div_le_mono pos (pos + rem - 1) 4096); lia]).
    apply wpx_ret. cbn [fst snd]. split; [by eapply file_kept_same |]. done. }
  destruct Hk as [[? _] | (Hr0 & Hk)]; [done |]. rewrite (Hs Hr0).
  destruct (chunk_bounds pos rem Hp Hr0) as (Ho & Hc & Hcr & Hco & _). pose proof (blocks_left pos rem k Hp Hr0 Hk) as HL. cbn zeta in HL.
  set (sz := chunk pos rem) in *. change (pos mod BLOCK_SIZE) with (pos mod 4096). pose proof (Z.div_mod pos 4096 ltac:(lia)) as Ed.
  pose proof (Z.div_pos pos 4096 Hp ltac:(lia)) as Hdp.
  rewrite <- (Z2Nat.id (pos / 4096)) by done. set (n := Z.to_nat (pos / 4096)) in *. assert (En : Z.of_nat n = pos / 4096) by (unfold n; lia).
  pose proof HF as (_ & _ & HB). rewrite (concat_length _ bs HB) in Hroom.
  destruct (lookup_lt_is_Some_2 bs n) as [b Hb]; [change BLOCK_SIZE with 4096 in *; lia |].
  rewrite (u64_small (Z.of_nat n)), (u64_small (pos + sz)), (u64_small (rem - sz)) by lia.
  apply wpx_bind. eapply wpx_mono; [by apply (read_wp w f bs l n b) |]. cbn beta. intros r1 [w1 f1] [HK1 HR1]; cbn [fst snd] in *.
  destruct r1 as [b'|e]; [| done]. destruct HR1 as (-> & -> & HF1).
  apply wpx_bind. eapply wpx_mono; [apply (IH w1 f bs l (pos + sz) (rem - sz) HF1) |].
  { lia. } { lia. } { lia. } { destruct HL as [? | (? & ? & ?)]; [by left | by right]. }
  { rewrite (concat_length _ bs HB). lia. } { intros ?. destruct HL as [? | (? & ? & ?)]; lia. }
  cbn beta. intros r2 [w2 f2] [HK2 HR2]; cbn [fst snd] in *. pose proof (fkept_trans _ _ _ HK1 HK2) as HK.
  destruct r2 as [rest|e]; [| done]. destruct HR2 as (-> & -> & HF2). apply wpx_ret. cbn [fst snd]. split; [done |]. split; [| done].
  rewrite (block_part bs n) by (done || (change BLOCK_SIZE with 4096; lia)).
  replace (n * B + Z.to_nat (pos mod 4096))%nat with (Z.to_nat pos) by (change BLOCK_SIZE with 4096; lia).
  replace (Z.to_nat (pos + sz)) with (Z.to_nat pos + Z.to_nat sz)%nat by lia. rewrite field_app.
  - f_equal. lia.
  - rewrite (concat_length _ bs HB). change BLOCK_SIZE with 4096 in *. lia.
Qed.

Lemma content_field c bs off n : holds_bytes bs c -> (off + n <= length c)%nat -> field (concat bs) off n = field c off n.
Proof. intros (_ & _ & Hc) Hl. rewrite Hc. unfold field. rewrite skipn_firstn_comm, take_take. f_equal. lia. Qed.

Lemma read_primitive_spec w f c pos len : content_is w f c -> 0 <= pos -> 0 <= len -> pos + len < 2 ^ 64 ->
  wpx (ree_fs_read_primitive pos len) (w, f) (fun r s' => fkept (w, f) s' /\
    match r with
    | inl b => b = field c (Z.to_nat pos) (Z.to_nat len) /\ snd s' = f /\ content_is (fst s') f c
    | inr _ => fs_fails
    end).
Proof.
  intros (bs & HF & Hbs & Hc31) Hp Hl Hpl. set (L := Z.of_nat (length c)) in *. unfold ree_fs_read_primitive.
  apply wpx_bind, (meta_length_wp w f bs L _ HF).
  set (rem := read_len pos len L). assert (Hrem : 0 <= rem /\ rem = Z.max 0 (Z.min len (L - pos))).
  { unfold rem, read_len. rewrite u64_small by lia. rewrite (proj2 (Z.ltb_ge (pos + len) len)) by lia. cbn [orb].
    destruct (Z.ltb_spec L pos); [lia |]. destruct (Z.ltb_spec L (pos + len)); [rewrite u64_small by lia; lia | lia]. }
  assert (Efield : field c (Z.to_nat pos) (Z.to_nat len) = field c (Z.to_nat pos) (Z.to_nat rem)).
  { unfold field. destruct (decide (len <= L - pos)); [by replace rem with len by lia |]. rewrite !take_ge; [done | |]; rewrite length_drop; lia. }
  rewrite Efield. cbn zeta. destruct (Z.eqb_spec rem 0) as [E0|N0].
  { apply wpx_ret. cbn [fst snd]. rewrite E0. split; [by eapply file_kept_same |]. split; [done |]. split; [done | by exists bs]. }
  rewrite (u64_small (pos + rem - 1)), !block_num by lia. apply (malloc_file w f bs L); [done | | by intros]. intros w0 HK0 HF0.
  pose proof (Z.div_le_mono pos (pos + rem - 1) 4096 ltac:(lia) ltac:(lia)) as Hse.
  apply wpx_bind, wpx_assert; [by apply Z.leb_le |]. pose proof (holds_bytes_room _ _ Hbs) as Hroom.
  eapply wpx_mono; [apply (read_bytes_spec _ w0 f bs L pos rem HF0) |].
  { lia. } { lia. } { lia. } { right. split; [lia |]. lia. } { lia. } { done. }
  cbn beta. intros r [w1 f1] [HK HR]; cbn [fst snd] in *. split; [exact (fkept_trans _ _ _ HK0 HK) |].
  destruct r as [b|e]; [| done]. destruct HR as (-> & -> & HF1). split; [| split; [done | by exists bs]]. apply content_field; [done |]. lia.
Qed.

(** ** Writing *)

(** A write past the end fills the gap with zeros. *)
Definition write_at_pos (c : list Z) (pos : Z) (buf : list Z) : list Z :=
  match buf with [] => c | _ => splice (c ++ zeros (pos - Z.of_nat (length c))) (Z.to_nat pos) buf end.

Lemma i64_small x : 0 <= x < 2 ^ 63 -> i64 x = x.
Proof. intros Hx. unfold i64. rewrite (u64_small x) by lia. by rewrite (proj2 (Z.ltb_lt x (2 ^ 63))) by lia. Qed.

Lemma grow_spec w f c len : content_is w f c -> Z.of_nat (length c) < len <= 2 ^ 31 ->
  wpx (ree_fs_ftruncate_internal len) (w, f) (writes_to (w, f) (c ++ zeros (len - Z.of_nat (length c)))).
Proof.
  intros HC Hl. pose proof HC as (bs & HF & _ & _). unfold ree_fs_ftruncate_internal. apply wpx_bind, (meta_length_wp w f bs _ _ HF).
  rewrite (u64_small len), (proj2 (Z.ltb_lt _ _)), u64_small by lia. set (n := len - Z.of_nat (length c)).
  replace (c ++ zeros n) with (splice c (Z.to_nat (Z.of_nat (length c))) (bytes_of None n)).
  - apply out_of_place_write_spec; [done | lia | lia | lia |]. cbn. unfold zeros. rewrite length_replicate. lia.
  - unfold splice. rewrite Nat2Z.id, take_ge, (drop_ge c), app_nil_r by lia. done.
Qed.

Lemma write_primitive_spec w f c pos buf : content_is w f c -> buf <> [] -> 0 <= pos -> pos + Z.of_nat (length buf) <= 2 ^ 31 ->
  wpx (ree_fs_write_primitive pos buf) (w, f) (writes_to (w, f) (write_at_pos c pos buf)).
Proof.
  intros HC Hne Hp Hb. pose proof HC as (bs & HF & Hbs & Hc31). unfold ree_fs_write_primitive, write_at_pos.
  destruct buf as [|b0 buf0]; [done |]. set (buf := b0 :: buf0) in *. rewrite (proj2 (Z.eqb_neq (Z.of_nat (length buf)) 0)) by (cbn; lia).
  apply wpx_bind, (meta_length_wp w f bs _ _ HF). rewrite (u64_small (pos + _)) by lia. rewrite (proj2 (Z.ltb_ge _ _)) by lia.
  set (L := Z.of_nat (length c)) in *. apply wpx_bind.
  eapply wpx_mono with (Q := fun r s' => fkept (w, f) s' /\
    match r with inl _ => content_is (fst s') (snd s') (c ++ zeros (pos - L)) | inr _ => fs_fails end).
  - destruct (Z.ltb_spec L pos) as [Hlt|Hge].
    + rewrite i64_small by lia. eapply wpx_mono; [apply (grow_spec w f c pos HC); unfold L in *; lia |]. cbn beta.
      intros r s' [HK HR]. split; [done |]. by destruct r as [[]|]; [destruct HR |].
    + apply wpx_ret. cbn [fst snd]. split; [by eapply file_kept_same |].
      replace (zeros (pos - L)) with (@nil Z); [by rewrite app_nil_r |]. unfold zeros. by replace (Z.to_nat (pos - L)) with 0%nat by lia.
  - cbn beta. intros r [w1 f1] [HK1 HC1]; cbn [fst snd] in *. destruct r as [[]|e]; [| done].
    eapply wpx_mono; [apply (out_of_place_write_spec w1 f1 _ pos (Some buf) (Z.of_nat (length buf)) HC1) |].
    { rewrite length_app. unfold zeros. rewrite length_replicate. unfold L. lia. } { cbn; lia. } { lia. } { done. }
    cbn beta. intros r s2 [HK2 HR2]. split; [exact (fkept_trans _ _ _ HK1 HK2) | done].
Qed.
End Bytes.
