(* ===== verification/ReeSpec.v ===== *)
(** * What a file of the secure file system promises

    The file as its users see it: its bytes, and the bytes of the last commit, if there was one.
    [bstep] says what a call does to it.  Under it: reading, writing and writing back do that, an
    error leaves the commit, and a file opened again under its hash has the bytes committed. *)

From stdpp Require Import base numbers list.
From S2P Require Import Prelude SkTypes FsCore Dirfile Htree HtreeShape HtreeLaws HtreeBlocks HtreeSync HtreeCommit HtreeOpen HtreeSpec ReeFs ReeLayout ReeBytes.

(** ** The abstract file *)

Inductive rop := RopWrite (pos : Z) (buf : list Z) | RopRead (pos len : Z) | RopSync.
Record bfile := mkBfile { b_cur : list Z; b_com : option (list Z) }.

(** What is read, and the file after the call.  A file nothing was written to is not committed. *)
Definition bstep (op : rop) (b : bfile) : list Z * bfile :=
  match op with
  | RopWrite pos buf => ([], mkBfile (write_at_pos (b_cur b) pos buf) (b_com b))
  | RopRead pos len => (field (b_cur b) (Z.to_nat pos) (Z.to_nat len), b)
  | RopSync => ([], match b_cur b with [] => b | c => mkBfile c (Some c) end)
  end.
Fixpoint bsteps (ops : list rop) (b : bfile) : list (list Z) * bfile :=
  match ops with
  | [] => ([], b)
  | op :: ops => let (r, b) := bstep op b in let (rs, b) := bsteps ops b in (r :: rs, b)
  end.

(** Calls that stay in the first 2 GiB; a read may ask for more than there is. *)
Definition rop_ok (op : rop) : Prop :=
  match op with
  | RopWrite pos buf => 0 <= pos /\ pos + Z.of_nat (length buf) <= 2 ^ 31
  | RopRead pos len => 0 <= pos /\ 0 <= len /\ pos + len < 2 ^ 64
  | RopSync => True
  end.

Section Calls.
Context {R : Type} `{!HeapOps R, !HtreeCrypto R, !FsRpc R}.
Definition rop_run (op : rop) : ex (wfd R) (list Z) :=
  match op with
  | RopWrite pos buf => _ ← ree_fs_write_primitive pos buf; mret []
  | RopRead pos len => ree_fs_read_primitive pos len
  | RopSync => _ ← sync_file; mret []
  end.
(** The calls one after the other, up to the first that fails. *)
Fixpoint rops_run (ops : list rop) : ex (wfd R) (list (list Z)) :=
  match ops with
  | [] => mret []
  | op :: ops => r ← rop_run op; rs ← rops_run ops; mret (r :: rs)
  end.
End Calls.

Section Spec.
Context {R : Type} `{FsRpcLaws R} (fd : Z) (u : option (list Z)).
#[local] Instance spec_storage : HtreeStorage R := ree_fs_storage_ops fd.
#[local] Instance spec_laws : HtreeLaws R := ree_htree fd.
Implicit Types (w : R) (f : tee_fs_fd) (b : bfile).

(** The version [sn] is the commit of these bytes, under the hash in the handle. *)
Definition commit_is w f sn (cc : list Z) : Prop :=
  exists cbs, commit_of w u sn (fl_hash (f_dfh f)) cbs /\ holds_bytes cbs cc /\
    im_length (ht_imeta sn) = Z.of_nat (length cc) /\ Z.of_nat (length cc) <= 2 ^ 31.
Definition vers_is w f (osn : option tee_fs_htree) (com : option (list Z)) : Prop :=
  match osn, com with Some sn, Some cc => commit_is w f sn cc | None, None => True | _, _ => False end.
Definition com_is w f (com : option (list Z)) : Prop :=
  match com with Some cc => exists sn, commit_is w f sn cc | None => True end.
Definition brel w f b : Prop := exists osn, content_is fd u osn w f (b_cur b) /\ vers_is w f osn (b_com b).

Lemma vers_kept osn w f w' f' com : vers_is w f osn com -> fkept fd osn (w, f) (w', f') -> vers_is w' f' osn com.
Proof.
  destruct osn as [sn|], com as [cc|]; try done. intros (cbs & HC & Hcc) [HK Ed]; cbn [fst snd] in *. exists cbs. rewrite Ed.
  split; [by eapply commit_kept | done].
Qed.
Lemma vers_com osn w f com : vers_is w f osn com -> com_is w f com.
Proof. destruct osn as [sn|], com as [cc|]; try done. intros HC. by exists sn. Qed.

(** A call that fails leaves the commit, one that succeeds is a step. *)
Definition follows (b : bfile) (op : rop) (r : list Z + Z) (s' : wfd R) : Prop :=
  match r with
  | inl a => a = fst (bstep op b) /\ brel (fst s') (snd s') (snd (bstep op b))
  | inr _ => fs_fails /\ com_is (fst s') (snd s') (b_com b)
  end.

Lemma follow_write w f b pos buf : brel w f b -> rop_ok (RopWrite pos buf) -> wpx (rop_run (RopWrite pos buf)) (w, f) (follows b (RopWrite pos buf)).
Proof.
  intros (osn & HC & HV) [Hp Hl]. cbn [rop_run]. apply wpx_bind. destruct (decide (buf = [])) as [-> | Hne].
  { unfold ree_fs_write_primitive. cbn. apply wpx_ret. cbn. apply wpx_ret. split; [done |]. by exists osn. }
  eapply wpx_mono; [by apply (write_primitive_spec fd u osn w f (b_cur b) pos buf) |]. cbn beta. intros r [w' f'] [HK HR]; cbn [fst snd] in *.
  pose proof (vers_kept _ _ _ _ _ _ HV HK) as HV'. destruct r as [[]|e]; [| split; [done | by eapply vers_com]].
  apply wpx_ret. split; [done |]. exists osn. split; [apply HR | done].
Qed.

Lemma follow_read w f b pos len : brel w f b -> rop_ok (RopRead pos len) -> wpx (rop_run (RopRead pos len)) (w, f) (follows b (RopRead pos len)).
Proof.
  intros (osn & HC & HV) (Hp & Hl & Hpl). cbn [rop_run]. eapply wpx_mono; [by apply (read_primitive_spec fd u osn w f (b_cur b) pos len) |].
  cbn beta. intros r [w' f'] [HK HR]; cbn [fst snd] in *. pose proof (vers_kept _ _ _ _ _ _ HV HK) as HV'.
  destruct r as [a|e]; [| split; [done | by eapply vers_com]]. destruct HR as (-> & -> & HC'). split; [done |]. by exists osn.
Qed.

(** Blocks determine the bytes, given their number. *)
Lemma holds_bytes_eq bs c c' : holds_bytes bs c -> holds_bytes bs c' -> length c = length c' -> c = c'.
Proof. intros (_ & _ & E) (_ & _ & E') El. by rewrite E, E', El. Qed.
Lemma holds_bytes_nil bs c : holds_bytes bs c -> bs = [] <-> c = [].
Proof.
  intros (_ & Hn & Hc). split; [intros -> | intros ->]; cbn in *; [by rewrite take_nil in Hc |]. by destruct bs.
Qed.

(** What is there when nothing is to be written back. *)
Lemma clean_com w f ht osn bs c com : open_at w ht osn bs -> ht_dirty ht = false -> holds_bytes bs c ->
  (forall sn, osn = Some sn -> im_length (ht_imeta sn) = Z.of_nat (length c)) -> vers_is w f osn com ->
  com = match c with [] => com | _ => Some c end.
Proof.
  intros HO Hd Hbs Hlen HV. destruct osn as [sn|], com as [cc|]; try done; cbn [open_at vers_is] in *.
  - destruct HV as (cbs & (_ & Hh & _) & Hcc & Hl & _). destruct HO as (_ & HI & Hb).
    assert (cbs = bs) as -> by (eapply (clean_blocks w ht sn); [done | by rewrite <- (hi_dirty _ _ _ HI) | done | done]).
    assert (cc = c) as -> by (eapply holds_bytes_eq; [done | done |]; specialize (Hlen sn eq_refl); lia). by destruct c.
  - destruct HO as [_ [(_ & _ & ->) | [HI _]]]; [| by apply hinv_none_dirty in HI; rewrite Hd in HI].
    assert (c = []) as -> by (by apply (holds_bytes_nil [])). done.
Qed.

(** A tree written back has a block, and so the file a byte. *)
Lemma committed_bytes w ht bs c : holds w ht bs -> holds_bytes bs c -> c <> [].
Proof. intros [Hn _] Hc ->. apply holds_bytes_nil in Hc as [_ Hc]. rewrite Hc in Hn by done. unfold nodes_of in Hn. cbn in Hn. lia. Qed.

Lemma follow_sync w f b : brel w f b -> wpx (rop_run RopSync) (w, f) (follows b RopSync).
Proof.
  intros (osn & (bs & HF & Hbs & Hc31) & HV). pose proof HF as (Ef & (ht & Eh & Hu & HO & El & Hcl) & HB).
  cbn [rop_run]. apply wpx_bind. unfold sync_file. apply wpx_bind, (on_tree_wp fd); [done |]. rewrite Eh.
  eapply wpx_mono; [by apply (sync_at w ht osn bs) |]. cbn beta. intros r [w' o'] [HK HR]; cbn [fst snd] in *.
  assert (HV' : vers_is w' (set_f_ht f o') osn (b_com b)) by (eapply vers_kept; [exact HV | by split]).
  destruct r as [[h|]|e]; [| | split; [by destruct HR | by eapply vers_com]].
  - destruct HR as (ht' & -> & HC & -> & HO' & Ei & Eu). pose proof HO' as (_ & _ & Hh). apply wpx_upd_d, wpx_ret. split; [done |].
    pose proof (committed_bytes w' ht' bs (b_cur b) Hh Hbs) as Hne.
    assert (Eb : snd (bstep RopSync b) = mkBfile (b_cur b) (Some (b_cur b))) by (cbn; by destruct (b_cur b)). rewrite Eb.
    exists (Some ht'). split; cbn [fst snd b_cur b_com vers_is].
    + exists bs. split_and!; [split_and!; [done | | done] | done | done]. exists ht'. split_and!; [done | congruence | done | congruence |].
      right. intros sn [= <-]. congruence.
    + exists bs. split_and!; [split_and!; [done | done | done | congruence] | done | congruence | done].
  - destruct HR as (HS & -> & Ed). apply wpx_ret, wpx_ret. split; [done |]. destruct Hcl as [Hcl | Hcl]; [congruence |].
    pose proof (clean_com _ _ _ _ _ _ _ HO Ed Hbs Hcl HV) as Ec.
    assert (Eb : snd (bstep RopSync b) = b) by (cbn; destruct b as [[|x c] com]; cbn in *; [done | by rewrite Ec]). rewrite Eb.
    exists osn. split; [| done]. exists bs. split_and!; [| done | done]. cbn [fst snd]. replace (set_f_ht f (Some ht)) with f by (rewrite <- Eh; by destruct f).
    by eapply file_same.
Qed.

Lemma follow w f b op : brel w f b -> rop_ok op -> wpx (rop_run op) (w, f) (follows b op).
Proof. intros HR Hop. destruct op; [by apply follow_write | by apply follow_read | by apply follow_sync]. Qed.

(** A file just created is empty and not committed. *)
Lemma created_brel w ht dfh uuid : created u ht -> brel w (mkFd (Some ht) fd dfh uuid) (mkBfile [] None).
Proof.
  intros (Hfr & Hd & Hu & Hv & Hl). exists None. split; [| done]. exists []. split_and!; [split_and!; [done | | by constructor] | | done].
  - exists ht. split_and!; [done | done | | done | by right]. split; [done | by left].
  - split_and!; [by constructor | done | done].
Qed.

Lemma follow_all ops : forall w f b, brel w f b -> Forall rop_ok ops ->
  wpx (rops_run ops) (w, f) (fun r s' => match r with
    | inl rs => rs = fst (bsteps ops b) /\ brel (fst s') (snd s') (snd (bsteps ops b))
    | inr _ => fs_fails /\ exists n, com_is (fst s') (snd s') (b_com (snd (bsteps (take n ops) b)))
    end).
Proof.
  induction ops as [|op ops IH]; intros w f b HR Hok; cbn [rops_run bsteps]; [by apply wpx_ret |]. apply Forall_cons in Hok as [Hop Hok].
  apply wpx_bind. eapply wpx_mono; [by apply (follow w f b op) |]. cbn beta. intros [a|e] [w1 f1]; cbn [follows fst snd].
  2:{ intros [Hf HC]. split; [done |]. by exists 0%nat. }
  destruct (bstep op b) as [a' b1] eqn:Eb. intros [-> HR1]. apply wpx_bind. eapply wpx_mono; [by apply (IH w1 f1 b1) |]. cbn beta.
  intros [rs|e] s2.
  - destruct (bsteps ops b1) as [rs' b2]. cbn [fst snd]. intros [-> HR2]. by apply wpx_ret.
  - intros (Hf & n & HC). split; [done |]. exists (S n). cbn [take bsteps]. rewrite Eb. by destruct (bsteps (take n ops) b1).
Qed.
End Spec.

(** ** Opening a file again, under another descriptor *)

Section Reopen.
Context {R : Type} `{FsRpcLaws R}.
Implicit Types (w : R) (f : tee_fs_fd).

(** Descriptors with the same bytes behind them show the same elements. *)
Lemma view_moved fd fd' w w' t i v : fs_data w' fd' = fs_data w fd -> ree_view fd' w' t i v = ree_view fd w t i v.
Proof. intros E. unfold ree_view. by rewrite E. Qed.

#[local] Notation laws fd := (ree_htree fd).
Lemma committed_moved fd fd' w w' sn : fs_data w' fd' = fs_data w fd ->
  committed (H := laws fd) w sn -> committed (H := laws fd') w' sn.
Proof.
  intros E [H1 H2 H3 H4 H5 H6 H7 H8]. split; try done.
  - intros q n Hq. etransitivity; [apply (view_moved fd fd'); exact E | by apply (H5 q n)].
  - etransitivity; [apply (view_moved fd fd'); exact E | exact H6].
Qed.
(** What a block opens to depends on the key and the bytes alone. *)
Lemma open_block_moved fd fd' w w' sn n num : fs_data w' fd' = fs_data w fd ->
  open_block (H := laws fd') w' sn n num = open_block (H := laws fd) w sn n num.
Proof.
  intros E. pose proof (view_moved fd fd' w w' TYPE_BLOCK num (block_vers n) E) as Ev. unfold open_block.
  change (hview w' TYPE_BLOCK num (block_vers n)) with (ree_view fd' w' TYPE_BLOCK num (block_vers n)). rewrite Ev.
  cbn [aead_open h_crypto ree_htree crypto_weaken block_size ree_fs_storage_ops]. reflexivity.
Qed.
Lemma holds_moved fd fd' w w' sn bs : fs_data w' fd' = fs_data w fd ->
  holds (H := laws fd) w sn bs -> holds (H := laws fd') w' sn bs.
Proof.
  intros E [Hn Hb]. split; [done |]. intros k b Hk. rewrite <- (Hb k b Hk). unfold block_of.
  destruct (node_at _ _); [by apply open_block_moved | done].
Qed.
Lemma offered_moved fd fd' w w' sn : fs_data w' fd' = fs_data w fd ->
  offered (H := laws fd) w sn -> offered (H := laws fd') w' sn.
Proof.
  intros E [Hv | [Hf Hne]]; [by left | right]. pose proof (view_moved fd fd' w w' TYPE_NODE 0 0 E) as Ev.
  split; [unfold fullV; change (hview w' TYPE_NODE 0 0) with (ree_view fd' w' TYPE_NODE 0 0); rewrite Ev; exact Hf |].
  change (hview w' TYPE_NODE 0 0) with (ree_view fd' w' TYPE_NODE 0 0). rewrite Ev. exact Hne.
Qed.
(** The hash of the handle opens the file as it was committed, unless hashes collide. *)
Lemma reopen_bytes fd u w f c cc : brel fd u w f (mkBfile c (Some cc)) -> collision (H := laws fd) \/
  forall fd' w', fs_data w' fd' = fs_data w fd ->
  wpx (tee_fs_htree_open (HtreeStorage0 := ree_fs_storage_ops fd') false (Some (fl_hash (f_dfh f))) u) w' (fun r w2 => match r with
    | inl (ht, h) => h = None /\ forall dfh, fl_hash dfh = fl_hash (f_dfh f) -> brel fd' u w2 (mkFd (Some ht) fd' dfh u) (mkBfile cc (Some cc))
    | inr _ => fs_fails
    end).
Proof.
  intros ([sn|] & HC & HV); [| done]. destruct HV as (cbs & (Hcm & Hh & <- & <-) & Hcc & Hl & H31).
  destruct HC as (bs & (_ & (ht & _ & _ & ([Hoff | ?] & _) & _) & _) & _); [right | by left]. intros fd' w' E.
  pose proof (committed_moved fd fd' w w' sn E Hcm) as Hcm'. pose proof (offered_moved fd fd' w w' sn E Hoff) as Hoff'.
  pose proof (holds_moved fd fd' w w' sn cbs E Hh) as Hh'.
  eapply wpx_mono; [exact (open_committed (H := laws fd') w' sn Hcm' Hoff') |]. cbn beta. intros [[ht' h]|e] w2 [HS HR]; [| done].
  destruct HR as [-> ->]. split; [done |]. intros dfh Edfh.
  assert (HO : open_at (H := laws fd') w2 sn (Some sn) cbs).
  { eapply (open_same (H := laws fd')); [exact HS |]. split_and!; [by left | by apply committed_hinv | done]. }
  exists (Some sn). split; [exists cbs; split_and!; [split_and!; [done | | apply Hcc] | done | done] | exists cbs; split_and!; [| done | done | done]].
  - exists sn. split_and!; [done | done | done | done |]. right. by intros ? [= <-].
  - cbn [f_dfh]. rewrite Edfh. pose proof HO as (_ & HI & HB). destruct (hi_old _ _ _ HI) as (HC2 & _). by split_and!.
Qed.
End Reopen.
