(* ===== verification/ReeTheorems.v ===== *)
(** * The secure file system on the normal world's files: theorems

    The elements of a tree do not overlap in its file; a file behaves as a string of bytes with
    a commit; a file committed is there when it is opened again.  [ReeRam] is a normal world
    that keeps its files in memory, on which the file system runs. *)

From stdpp Require Import base numbers list.
From S2P Require Import Prelude SkTypes FsCore Bitstring Dirfile Htree HtreeRam HtreeShape HtreeLaws HtreeBlocks HtreeCommit HtreeOpen HtreeSpec HtreeTheorems ReeFs ReeLayout ReeBytes ReeSpec.

(** ** A normal world in memory *)

Module ReeRam.
Import HtreeRam HtreeRamLaws.

(** A file has one descriptor: 0 is the directory. *)
Definition fd_of (dfh : option fileh) : Z := match dfh with None => 0 | Some dfh => 1 + fl_file_number dfh end.
Definition file_key (fd : Z) : ram_key := (TYPE_BLOCK, fd, 0).
Definition file_data {f} (w : ram f) (fd : Z) : list Z := ram_view w TYPE_BLOCK fd 0.
(** A file written past its end is filled up with zeros. *)
Definition file_put (d : list Z) (offs : nat) (b : list Z) : list Z := splice (d ++ replicate (offs - length d) 0) offs b.

#[export] Instance ree_ram {f} : FsRpc (ram f) := {|
  fs_op := Z * Z * Z;
  tee_fs_rpc_open_dfh dfh := fun w =>
    match assoc (file_key (fd_of dfh)) (r_store w) with Some _ => Ret (inl (fd_of dfh), w) | None => Ret (inr TEE_ERROR_ITEM_NOT_FOUND, w) end;
  tee_fs_rpc_create_dfh dfh := _ ← ram_write (file_key (fd_of dfh)) []; mret (fd_of dfh);
  tee_fs_rpc_close fd := mret tt;
  tee_fs_rpc_read_init fd offs len := mret (fd, offs, len);
  tee_fs_rpc_read_final '(fd, offs, len) := fun w => Ret (inl (field (file_data w fd) (Z.to_nat offs) (Z.to_nat len)), w);
  tee_fs_rpc_write_init fd offs len := mret (fd, offs, len);
  tee_fs_rpc_write_final '(fd, offs, len) b := fun w => ram_write (file_key fd) (file_put (file_data w fd) (Z.to_nat offs) b) w;
  tee_fs_rpc_truncate fd len := fun w =>
    ram_write (file_key fd) (take (Z.to_nat len) (file_data w fd ++ replicate (Z.to_nat len - length (file_data w fd)) 0)) w;
  tee_fs_rpc_remove_dfh dfh := fun w =>
    Ret (inl tt, mkRam (filter (fun kv => kv.1 <> file_key (fd_of dfh)) (r_store w)) (r_seed w) (r_fail w)) |}.

Lemma file_put_field d offs b : field (file_put d offs b) offs (length b) = b.
Proof.
  unfold file_put, field, splice. set (d' := d ++ _). assert (Lt : length (take offs d') = offs) by (rewrite length_take; unfold d'; rewrite length_app, length_replicate; lia).
  rewrite drop_app_length' by done. by rewrite take_app_length.
Qed.
Lemma file_put_other d offs b j x : d !! j = Some x -> (j < offs \/ offs + length b <= j)%nat -> file_put d offs b !! j = Some x.
Proof.
  intros Hj Ho. pose proof (lookup_lt_Some _ _ _ Hj) as Hl. unfold file_put, splice. set (d' := d ++ _).
  assert (Hj' : d' !! j = Some x) by (by apply lookup_app_l_Some). destruct Ho as [Ho | Ho].
  - rewrite lookup_app_l, lookup_take, decide_True by (rewrite ?length_take; unfold d'; rewrite ?length_app; lia). done.
  - assert (Lt : length (take offs d') = offs) by (rewrite length_take; unfold d'; rewrite length_app, length_replicate; lia).
    rewrite lookup_app_r, lookup_app_r, lookup_drop by lia. rewrite Lt. by replace (_ + _)%nat with j by lia.
Qed.

#[export] Instance ree_ram_laws {f} : FsRpcLaws (ram f).
Proof.
  refine {| fs_fails := f = true; fs_data := file_data; fs_op_for := fun op fd offs len => op = (fd, offs, len);
    fs_crypto := crypto_weaken ram_same _ _ _ ram_crypto_laws |}.
  - intros fd offs len w _ _. by eexists _, w.
  - intros fd offs len w _ _. by eexists _, w.
  - intros op fd offs len b w -> Ho Hb. unfold wpx. cbn. unfold ram_write. assert (Eb : Z.to_nat len = length b) by lia.
    assert (Hput : forall s n, let w' := mkRam ((file_key fd, file_put (file_data w fd) (Z.to_nat offs) b) :: r_store w) s n : ram f in
      (forall j x, file_data w fd !! j = Some x -> Z.of_nat j < offs \/ offs + len <= Z.of_nat j -> file_data w' fd !! j = Some x) /\
      field (file_data w' fd) (Z.to_nat offs) (Z.to_nat len) = b).
    { intros s n w'. unfold w', file_data at 2 4. rewrite ram_view_write, decide_True, Eb by done. split; [| apply file_put_field].
      intros j x Hj Hout. apply file_put_other; [done | lia]. }
    destruct (if f then r_fail w else None) as [[|n]|] eqn:E; eexists _, _; (split; [reflexivity |]); [| apply Hput | apply Hput].
    split; [done |]. by destruct f.
  - intros fd w. by eexists _, w.
  - intros w w' HS fd. apply HS.
Defined.

(** A file that is not empty is opened. *)
Lemma ram_reopens {f} (w1 : ram f) dfh fd w0 : fd_of (Some dfh) = fd -> file_data w1 fd <> [] -> fs_same w1 w0 ->
  wpx (tee_fs_rpc_open_dfh (Some dfh)) w0 (fun r w' => match r with inl fd' => fs_data w' fd' = fs_data w1 fd | inr _ => f = true end).
Proof.
  intros <- Hne HS. specialize (HS (fd_of (Some dfh))). cbn [fs_data ree_ram_laws] in HS. unfold wpx. cbn [tee_fs_rpc_open_dfh ree_ram].
  destruct (assoc (file_key (fd_of (Some dfh))) (r_store w0)) as [d|] eqn:Ea; eexists _, _; (split; [reflexivity |]); [done |].
  destruct Hne. rewrite <- HS. unfold file_data, ram_view. unfold file_key in Ea. by rewrite Ea.
Qed.
End ReeRam.

(** ** Theorems *)

(** C35: the headers, nodes and blocks of a tree, in their two versions, have places in the file
    that are within 2^47 bytes and have no byte in common, so that writing one element
    leaves all the others as they are. *)
Theorem ree_layout_disjoint t i v t' i' v' : key_ok t i v -> key_ok t' i' v' -> (t, i, v) <> (t', i', v') ->
  exists offs size offs' size', get_offs_size t i v = Ret (offs, size) /\ get_offs_size t' i' v' = Ret (offs', size') /\
    0 <= offs /\ offs + size <= 2 ^ 47 /\ (offs + size <= offs' \/ offs' + size' <= offs).
Proof.
  intros Hk Hk' Hne. pose proof (region_bounds _ _ _ Hk) as [B1 B2]. pose proof (region_disjoint _ _ _ _ _ _ Hk Hk' Hne) as HD.
  exists (fst (region t i v)), (snd (region t i v)), (fst (region t' i' v')), (snd (region t' i' v')).
  rewrite !get_offs_size_region, <- !surjective_pairing by done. by split_and!.
Qed.

(** The second block of nodes is physical block 63, and version 1 of data block 30 is in 64. *)
Example layout_second_nodes : get_offs_size TYPE_NODE 31 0 = Ret (63 * 4096, 66) /\ get_offs_size TYPE_BLOCK 30 1 = Ret (64 * 4096, 4096).
Proof. vm_compute. done. Qed.

Section Theorems.
Context {R : Type} `{FsRpcLaws R}.
Implicit Types (w : R) (f : tee_fs_fd) (b : bfile).

(** C5: reads, writes and write-backs of an open file, one after the other, are defined and do
    what the abstract file does: a read gives the bytes at its position up to the end, a write
    replaces them and fills a gap before them with zeros, a write-back commits the bytes there
    are.  When the environment makes one of them fail, the bytes committed by the calls before
    it are still stored under the hash in the handle. *)
Theorem ree_file_refines fd u ops w f b : brel fd u w f b -> Forall rop_ok ops ->
  wpx (rops_run ops) (w, f) (fun r s' => match r with
    | inl rs => rs = fst (bsteps ops b) /\ brel fd u (fst s') (snd s') (snd (bsteps ops b))
    | inr _ => fs_fails /\ exists n, com_is fd u (fst s') (snd s') (b_com (snd (bsteps (take n ops) b)))
    end).
Proof. apply follow_all. Qed.

(** An abstract file written back. *)
Lemma bsteps_app ops1 ops2 b : snd (bsteps (ops1 ++ ops2) b) = snd (bsteps ops2 (snd (bsteps ops1 b))).
Proof.
  revert b. induction ops1 as [|op ops1 IH]; intros b; [done |]. cbn [app bsteps]. destruct (bstep op b) as [r b1]. specialize (IH b1).
  destruct (bsteps (ops1 ++ ops2) b1), (bsteps ops1 b1). exact IH.
Qed.
Lemma bsteps_sync ops b c : b_cur (snd (bsteps ops b)) = c -> c <> [] -> snd (bsteps (ops ++ [RopSync]) b) = mkBfile c (Some c).
Proof. intros <- Hne. rewrite bsteps_app. cbn. by destruct (b_cur _). Qed.

(** Opening a file that is there: a new handle, in the next entry of the table. *)
Lemma open_primitive_wp w fds hash u dfh (P : Z -> tee_fs_htree -> R -> Prop) :
  (forall w0, fs_same w w0 -> wpx (tee_fs_rpc_open_dfh (Some dfh)) w0 (fun r w1 => match r with
     | inl fd => wpx (tee_fs_htree_open (HtreeStorage0 := ree_fs_storage_ops fd) false (Some hash) u) w1 (fun r w2 =>
         match r with inl (ht, h) => h = None /\ P fd ht w2 | inr _ => fs_fails end)
     | inr _ => fs_fails
     end)) ->
  wpx (ree_fs_open_primitive false (Some hash) u (Some dfh)) (mkFsw w fds) (fun r s' => match r with
    | inl (h, _) => exists fd ht, s_fds s' = fds ++ [Some (mkFd (Some ht) fd dfh u)] /\ h = length fds /\ P fd ht (s_rpc s')
    | inr _ => fs_fails
    end).
Proof.
  intros HP. unfold ree_fs_open_primitive. destruct (h_malloc (CryptoLaws := fs_crypto) 64 w) as (m & w0 & Em & HS & HN).
  apply wpx_bind. eexists _, _. split; [unfold onR, call; cbn; by rewrite Em |]. destruct m as [m|]; [| apply wpx_throw; by apply HN].
  destruct (HP w0 HS) as (ro & w1 & Eo & Ho). apply wpx_bind. eexists _, _. split; [unfold onR, attempt; cbn; by rewrite Eo |]. cbn beta iota.
  destruct ro as [fd|e]; [| apply wpx_bind, wpx_ret; cbn; by apply wpx_throw].
  destruct Ho as (r & w2 & E2 & H2). apply wpx_bind. eexists _, _. split; [unfold onR, attempt; cbn; by rewrite E2 |]. cbn beta iota.
  destruct r as [[ht h]|e].
  - destruct H2 as [-> H2]. apply wpx_bind. eexists _, _. split; [reflexivity |]. apply wpx_ret. cbn. by exists fd, ht.
  - apply wpx_bind. eapply wpx_mono with (Q := fun r _ => r = inl tt).
    + destruct (fd =? -1); [by apply wpx_ret |]. destruct (fs_close fd w2) as (rc & w3 & Ec & _). unfold ignore. apply wpx_bind.
      eexists _, _. split; [unfold onR, attempt; cbn; by rewrite Ec |]. by apply wpx_ret.
    + cbn beta. intros ? s ->. apply wpx_bind, wpx_ret. by apply wpx_throw.
Qed.

End Theorems.

(** ** Witnesses *)

Import HtreeRam HtreeRamLaws ReeRam.

Lemma ree_layout_disjoint_witness : exists offs size offs' size', get_offs_size TYPE_NODE 31 0 = Ret (offs, size) /\
  get_offs_size TYPE_BLOCK 30 1 = Ret (offs', size') /\ 0 <= offs /\ offs + size <= 2 ^ 47 /\ (offs + size <= offs' \/ offs' + size' <= offs).
Proof. apply (ree_layout_disjoint TYPE_NODE 31 0 TYPE_BLOCK 30 1); [split; [cbn; lia | by left] | split; [cbn; lia | by right] | done]. Defined.

(** A new file in memory, of number 4, and calls on it. *)
Definition dfh4 : fileh := mkFileh 4 (zeros 32) (-1).
Definition start : wfd (ram false) :=
  match tee_fs_htree_open (HtreeStorage0 := ree_fs_storage_ops 5) true None None ram0 with
  | Ret (inl (ht, _), w) => (w, mkFd (Some ht) 5 dfh4 None)
  | _ => (ram0, mkFd None 5 dfh4 None)
  end.
Lemma start_brel : brel 5 None (fst start) (snd start) (mkBfile [] None).
Proof.
  unfold start. destruct (create_fresh (H := ree_htree 5) (ram0 : ram false) None None) as ([[ht h]|e] & w' & E & HC); [| done].
  rewrite E. by apply created_brel.
Qed.
Definition byte_ops : list rop := [RopWrite 0 [1; 2; 3]; RopSync; RopWrite 5 [4; 5]; RopRead 0 100; RopRead 2 2].
Lemma byte_ops_ok : Forall rop_ok byte_ops.
Proof. unfold byte_ops. repeat constructor; cbn; lia. Qed.
Example byte_ops_steps : bsteps byte_ops (mkBfile [] None) =
  ([[]; []; []; [1; 2; 3; 0; 0; 4; 5]; [3; 0]], mkBfile [1; 2; 3; 0; 0; 4; 5] (Some [1; 2; 3])).
Proof. reflexivity. Qed.

Lemma ree_file_refines_witness : wpx (rops_run byte_ops) start (fun r s' => match r with
  | inl rs => rs = [[]; []; []; [1; 2; 3; 0; 0; 4; 5]; [3; 0]] /\ brel 5 None (fst s') (snd s') (mkBfile [1; 2; 3; 0; 0; 4; 5] (Some [1; 2; 3]))
  | inr _ => false = true /\ exists n, com_is 5 None (fst s') (snd s') (b_com (snd (bsteps (take n byte_ops) (mkBfile [] None))))
  end).
Proof.
  rewrite (surjective_pairing start). exact (ree_file_refines 5 None byte_ops (fst start) (snd start) (mkBfile [] None) start_brel byte_ops_ok).
Defined.

Definition after : wfd (ram false) := match rops_run (byte_ops ++ [RopSync]) start with Ret (inl _, s) => s | _ => start end.
Lemma after_run : exists rs, rops_run (byte_ops ++ [RopSync]) (fst start, snd start) = Ret (inl rs, (fst after, snd after)).
Proof.
  unfold after. rewrite <- !surjective_pairing.
  destruct (follow_all 5 None (byte_ops ++ [RopSync]) (fst start) (snd start) _ start_brel) as ([rs|e] & s & E & HH).
  - apply Forall_app. split; [apply byte_ops_ok | by repeat constructor].
  - rewrite <- surjective_pairing in E. rewrite E. exists rs. reflexivity.
  - by destruct HH.
Qed.
(** The file is there under its number, and not empty. *)
Lemma after_stored : fd_of (Some (f_dfh (snd after))) = 5 /\ file_data (fst after) 5 <> [].
Proof.
  split; [vm_compute; reflexivity |]. assert (E : bool_decide (take 1 (file_data (fst after) 5) = []) = false) by (vm_compute; reflexivity).
  intros E0. rewrite E0 in E. discriminate E.
Qed.
Lemma after_open w0 : fs_same (fst after) w0 -> wpx (tee_fs_rpc_open_dfh (Some (f_dfh (snd after)))) w0 (fun r w' =>
  match r with inl fd' => fs_data w' fd' = fs_data (fst after) 5 | inr _ => false = true end).
Proof. destruct after_stored as [Ef El]. revert Ef El. generalize (fst after) (f_dfh (snd after)). intros w1 dfh. apply ram_reopens. Qed.


(** ** The file system at work *)

Definition world0 : rees (ram false) := mkRees (mkFsw ram0 []) None 0 0.
Definition no_handle : fileh := mkFileh 0 (zeros 32) (-1).
Definition uuid7 : list Z := le_bytes 16 7.
Definition obj (n : Z) : tee_pobj := mkPobj uuid7 [65; n].
Definition fs_session {A} (m : ex (rees (ram false)) A) : outcome (A + Z) := fst <$> m world0.

(** An object created, written to and closed is found again, with what was written. *)
Example session_object : fs_session (
    h ← ree_fs_create 100 no_handle (obj 1) false (Some [1; 2; 3]) None (Some [4; 5]);
    _ ← ree_fs_write 100 h 4 [9; 9];
    _ ← ree_fs_close (Some h);
    '(h, size) ← ree_fs_open 100 (obj 1);
    b ← ree_fs_read h 0 100;
    mret (size, b)) = Ret (inl (6, [1; 2; 3; 4; 9; 9])).
Proof. vm_compute. reflexivity. Qed.

(** Under its new name after it was renamed, and not at all after it was removed. *)
Example session_rename : fs_session (
    h ← ree_fs_create 100 no_handle (obj 1) false (Some [1; 2; 3]) None (Some [4; 5]);
    _ ← ree_fs_close (Some h);
    _ ← ree_fs_rename 100 (obj 1) (Some (obj 2)) false;
    r ← attempt (ree_fs_open 100 (obj 1));
    '(h, _) ← ree_fs_open 100 (obj 2);
    b ← ree_fs_read h 0 100;
    _ ← ree_fs_close (Some h);
    _ ← ree_fs_remove 100 (obj 2);
    r' ← attempt (ree_fs_open 100 (obj 2));
    mret (r, b, r')) = Ret (inl (inr TEE_ERROR_ITEM_NOT_FOUND, [1; 2; 3; 4; 5], inr TEE_ERROR_ITEM_NOT_FOUND)).
Proof. vm_compute. reflexivity. Qed.

(** A truncation is seen by the handle and lost when the object is opened again: it is
    committed only after it failed. *)
Example session_truncate : fs_session (
    h ← ree_fs_create 100 no_handle (obj 1) false (Some [1; 2; 3]) None (Some [4; 5]);
    _ ← ree_fs_truncate 100 h 2;
    b ← ree_fs_read h 0 100;
    _ ← ree_fs_close (Some h);
    '(h, size) ← ree_fs_open 100 (obj 1);
    b' ← ree_fs_read h 0 100;
    mret (b, b')) = Ret (inl ([1; 2], [1; 2; 3; 4; 5])).
Proof. vm_compute. reflexivity. Qed.

(** A directory handle is of use until an operation fails: the directory is closed then though
    the handle counts as a reference to it. *)
Example session_stale_dir : fs_session (
    _ ← ree_fs_create 100 no_handle (obj 1) false (Some [1]) None None;
    d ← ree_fs_opendir_rpc 100 uuid7;
    '(_, oid) ← ree_fs_readdir_rpc 100 d; mret oid) = Ret (inl [65; 1]) /\
  fs_session (
    _ ← ree_fs_create 100 no_handle (obj 1) false (Some [1]) None None;
    d ← ree_fs_opendir_rpc 100 uuid7;
    _ ← attempt (ree_fs_create 100 no_handle (obj 1) false (Some [1]) None None);
    '(_, oid) ← ree_fs_readdir_rpc 100 d; mret oid) = Undef.
Proof. vm_compute. done. Qed.
