(* ===== verification/ReeRefcount.v ===== *)
(** * The reference count of the directory

    Every handle on an object or on a listing counts once, an operation that fails or that gives
    no handle leaves the count, and without a reference there is no open directory. *)

From stdpp Require Import base numbers list.
From S2P Require Import Prelude SkTypes FsCore Bitstring Dirfile Htree HtreeRam HtreeTheorems ReeFs ReeTheorems.

(** ** The calls *)

Inductive fcall :=
  | COpen (po : tee_pobj)
  | CCreate (junk : fileh) (po : tee_pobj) (overwrite : bool) (head attr data : option (list Z))
  | CClose (fh : option nat)
  | CRead (h : nat) (pos len : Z)
  | CWrite (h : nat) (pos : Z) (buf : list Z)
  | CRename (old : tee_pobj) (new : option tee_pobj) (overwrite : bool)
  | CRemove (po : tee_pobj)
  | CTruncate (h : nat) (len : Z)
  | COpendir (uuid : list Z)
  | CClosedir (d : option tee_fs_dir)
  | CReaddir (d : tee_fs_dir).

(** The references a call adds. *)
Definition gain (c : fcall) (ok : bool) : Z :=
  match c with
  | COpen _ | CCreate _ _ _ _ _ _ | COpendir _ => if ok then 1 else 0
  | CClose (Some _) | CClosedir (Some _) => -1
  | _ => 0
  end.

(** Partial correctness, of results and of errors. *)
Definition wlp {W A} (m : ex W A) (w : W) (Q : A + Z -> W -> Prop) : Prop := forall r w', m w = Ret (r, w') -> Q r w'.

Section Wlp.
Context {W : Type}.
Lemma wlp_ret {A} (a : A) (w : W) Q : Q (inl a) w -> wlp (mret a) w Q.
Proof. intros HQ r w' [= <- <-]. done. Qed.
Lemma wlp_throw {A} e (w : W) (Q : A + Z -> W -> Prop) : Q (inr e) w -> wlp (throw e) w Q.
Proof. intros HQ r w' [= <- <-]. done. Qed.
Lemma wlp_rethrow {A} (r : A + Z) (w : W) Q : Q r w -> wlp (rethrow r) w Q.
Proof. intros HQ r' w' [= <- <-]. done. Qed.
Lemma wlp_bind {A B} (m : ex W A) (f : A -> ex W B) w (Q : B + Z -> W -> Prop) :
  wlp m w (fun r w' => match r with inl a => wlp (f a) w' Q | inr e => Q (inr e) w' end) -> wlp (m ≫= f) w Q.
Proof.
  intros Hm r w'. unfold mbind, ex_bind. destruct (m w) as [[[a|e] w1]|] eqn:E; [| | done].
  - intros E2. exact (Hm _ _ E r w' E2).
  - intros [= <- <-]. exact (Hm _ _ E).
Qed.
Lemma wlp_attempt {A} (m : ex W A) w (Q : (A + Z) + Z -> W -> Prop) : wlp m w (fun r w' => Q (inl r) w') -> wlp (attempt m) w Q.
Proof. intros Hm r w'. unfold attempt. destruct (m w) as [[r1 w1]|] eqn:E; [| done]. intros [= <- <-]. by apply Hm. Qed.
Lemma wlp_mono {A} (m : ex W A) w (P Q : A + Z -> W -> Prop) : wlp m w P -> (forall r w', P r w' -> Q r w') -> wlp m w Q.
Proof. intros Hm HPQ r w' E. by apply HPQ, Hm. Qed.
Lemma wlp_assert b (w : W) (Q : unit + Z -> W -> Prop) : (b = true -> Q (inl tt) w) -> wlp (assert_c b) w Q.
Proof. intros HQ r w'. destruct b; [intros [= <- <-]; auto | done]. Qed.
End Wlp.

Section Refcount.
Context {R : Type} `{!HeapOps R, !HtreeCrypto R, !FsRpc R} (fuel : nat).
Implicit Types (w : rees R).

Definition fcall_run (c : fcall) : ex (rees R) unit :=
  match c with
  | COpen po => _ ← ree_fs_open fuel po; mret tt
  | CCreate junk po ow head attr data => _ ← ree_fs_create fuel junk po ow head attr data; mret tt
  | CClose fh => _ ← ree_fs_close fh; mret tt
  | CRead h pos len => _ ← ree_fs_read h pos len; mret tt
  | CWrite h pos buf => ree_fs_write fuel h pos buf
  | CRename old new ow => ree_fs_rename fuel old new ow
  | CRemove po => ree_fs_remove fuel po
  | CTruncate h len => ree_fs_truncate fuel h len
  | COpendir uuid => _ ← ree_fs_opendir_rpc fuel uuid; mret tt
  | CClosedir d => ree_fs_closedir_rpc d
  | CReaddir d => _ ← ree_fs_readdir_rpc fuel d; mret tt
  end.

(** Without a reference no directory is open. *)
Definition live w : Prop := 0 <= r_refcount w < 2 ^ 64 /\ (r_refcount w = 0 -> r_dirh w = None).

(** ** Parts that leave the count and the directory handle *)

Definition same_refs w w' : Prop := r_refcount w' = r_refcount w /\ fst <$> r_dirh w' = fst <$> r_dirh w.
Definition framed {A} (m : ex (rees R) A) : Prop := forall w, wlp m w (fun _ w' => same_refs w w').

Lemma same_refs_trans w1 w2 w3 : same_refs w1 w2 -> same_refs w2 w3 -> same_refs w1 w3.
Proof. intros [E1 F1] [E2 F2]. split; congruence. Qed.
Lemma same_refs_live w w' : same_refs w w' -> live w -> live w'.
Proof.
  intros [E F] [HB HN]. split; [by rewrite E |]. rewrite E. intros E0. specialize (HN E0). rewrite HN in F. by destruct (r_dirh w').
Qed.

Lemma framed_ret {A} (a : A) : framed (mret a).
Proof. intros w. by apply wlp_ret. Qed.
Lemma framed_throw {A} e : framed (throw e : ex (rees R) A).
Proof. intros w. by apply wlp_throw. Qed.
Lemma framed_bind {A B} (m : ex (rees R) A) (f : A -> ex (rees R) B) : framed m -> (forall a, framed (f a)) -> framed (m ≫= f).
Proof.
  intros Hm Hf w. apply wlp_bind. eapply wlp_mono; [apply Hm |]. cbn beta. intros [a|e] w1 H1; [| done].
  eapply wlp_mono; [apply Hf |]. cbn beta. intros r w2. by apply same_refs_trans.
Qed.
Lemma framed_attempt {A} (m : ex (rees R) A) : framed m -> framed (attempt m).
Proof. intros Hm w. apply wlp_attempt, Hm. Qed.
Lemma framed_onF {A} (m : ex (fsw R) A) : framed (onF m).
Proof. intros w r w'. unfold onF. destruct (m (r_fs w)) as [[r1 s]|]; [| done]. by intros [= <- <-]. Qed.
Lemma framed_on_dir {A} g (m : ex (wdir (fsw R) nat) A) : framed (on_dir g m).
Proof.
  intros w r w'. unfold on_dir. destruct (r_dirh w) as [[g' d]|] eqn:Ed; [| done]. destruct (decide (g = g')) as [-> |]; [| done].
  destruct (m (r_fs w, d)) as [[r1 [s d1]]|]; [| done]. intros [= <- <-]. split; [done |]. cbn. by rewrite Ed.
Qed.
Lemma framed_assert b : framed (assert_c b : ex (rees R) unit).
Proof. intros w. by apply wlp_assert. Qed.
End Refcount.

Create HintDb framed.
#[export] Hint Resolve framed_ret framed_throw framed_onF framed_on_dir framed_assert : framed.
Ltac framed := repeat first
  [ solve [auto with framed]
  | apply framed_attempt
  | apply framed_bind; [| intros ?]
  | match goal with |- framed (match ?x with _ => _ end) => destruct x end
  | match goal with |- framed (let _ := _ in _) => cbn zeta end ].

Section Counting.
Context {R : Type} `{!HeapOps R, !HtreeCrypto R, !FsRpc R} (fuel : nat).
Implicit Types (w : rees R).

(** The count after a call, given what the call adds. *)
Definition counts {A} (n : A + Z -> Z) w (r : A + Z) w' : Prop := live w' /\ r_refcount w' = r_refcount w + n r.
Definition ok_of {A} (r : A + Z) : bool := match r with inl _ => true | inr _ => false end.

Lemma framed_counts {A} (m : ex (rees R) A) w : framed m -> live w -> wlp m w (counts (fun _ => 0) w).
Proof. intros Hm HL. eapply wlp_mono; [apply Hm |]. cbn beta. intros r w' HS. split; [by eapply same_refs_live | destruct HS; lia]. Qed.

Lemma set_dirh_wlp d w : wlp (set_ree_fs_dirh d) w (fun r w' => exists g, r = inl g /\ r_refcount w' = r_refcount w /\ fst <$> r_dirh w' = Some g).
Proof. intros r w' [= <- <-]. by eexists. Qed.
Lemma open_dirh_wlp w : wlp (open_dirh fuel) w (fun r w' => r_refcount w' = r_refcount w /\
  match r with inl g => fst <$> r_dirh w' = Some g | inr _ => fst <$> r_dirh w' = fst <$> r_dirh w end).
Proof.
  unfold open_dirh. apply wlp_bind, wlp_attempt. eapply wlp_mono; [apply framed_onF |]. cbn beta. intros [d|e] w1 [E1 F1].
  - eapply wlp_mono; [apply set_dirh_wlp |]. cbn beta. intros ? w2 (g & -> & E2 & F2). split; [congruence | done].
  - apply wlp_bind. eapply wlp_mono; [apply framed_onF |]. cbn beta. intros [d|e'] w2 [E2 F2]; [| split; congruence].
    eapply wlp_mono; [apply set_dirh_wlp |]. cbn beta. intros ? w3 (g & -> & E3 & F3). split; [congruence | done].
Qed.

Lemma get_dirh_wlp w : live w -> wlp (get_dirh fuel) w (fun r w' => counts (fun r => Z.b2z (ok_of r)) w r w').
Proof.
  intros [HB HN]. unfold get_dirh. apply wlp_bind. intros ? ? [= <- <-]. apply wlp_bind.
  eapply wlp_mono with (P := fun r w' => r_refcount w' = r_refcount w /\
    match r with inl g => fst <$> r_dirh w' = Some g | inr _ => fst <$> r_dirh w' = fst <$> r_dirh w end).
  { destruct (fst <$> r_dirh w) as [g|] eqn:Eg; [by apply wlp_ret | rewrite <- Eg; apply open_dirh_wlp]. }
  cbn beta. intros [g|e] w1 [E1 F1].
  - apply wlp_bind. intros ? ? [= <- <-]. apply wlp_bind. intros ? ? [= <- <-]. apply wlp_bind, wlp_assert. intros Hne. apply wlp_ret.
    apply negb_true_iff, Z.eqb_neq in Hne. rewrite E1 in *. assert (Hu : u64 (r_refcount w + 1) = r_refcount w + 1).
    { apply u64_small. destruct (decide (r_refcount w + 1 = 2 ^ 64)) as [E|]; [rewrite E in Hne; done | lia]. }
    split; [split |]; cbn; rewrite Hu; [| lia | lia]. destruct (decide (r_refcount w + 1 = 2 ^ 64)) as [E|]; [rewrite E in Hu; done | lia].
  - split; [| cbn; lia]. eapply same_refs_live; [by split | by split].
Qed.

Lemma close_dirh_wlp w c : r_refcount w + 1 = c -> 0 < c < 2 ^ 64 -> wlp close_dirh w (fun _ w' => live w' /\ r_refcount w' = c + -1).
Proof.
  intros Ec Hc r w'. unfold close_dirh. destruct (r_dirh w) as [[g d]|]; [| done]. unfold mbind, outcome_bind.
  destruct (tee_fs_dirfile_close d (r_fs w)) as [[? s]|]; [| done]. intros [= <- <-]. split; [split; cbn; [lia | done] | cbn; lia].
Qed.
Lemma put_primitive_wlp close w : live w -> wlp (put_dirh_primitive close) w (counts (fun _ => -1) w).
Proof.
  intros [HB HN]. unfold put_dirh_primitive. apply wlp_bind. intros ? ? [= <- <-]. apply wlp_bind, wlp_assert.
  intros Hne%negb_true_iff%Z.eqb_neq. rewrite u64_small by lia. apply wlp_bind. intros ? ? [= <- <-]. apply wlp_bind. intros ? ? [= <- <-]. cbn.
  destruct (r_dirh w) as [[g d]|] eqn:Ed; cbn; [| apply wlp_ret; split; [split; cbn; [lia | done] | cbn; lia]].
  destruct (Z.eqb_spec (r_refcount w - 1) 0) as [E0|N0]; cbn [orb]; [| destruct close; cycle 1].
  2:{ apply wlp_ret. split; [split; cbn; [lia | done] | cbn; lia]. }
  all: apply (close_dirh_wlp _ (r_refcount w)); [cbn; lia | lia].
Qed.
Lemma put_dirh_wlp g close w : live w -> wlp (put_dirh g close) w (counts (fun _ => -1) w).
Proof. intros HL. unfold put_dirh. apply wlp_bind. intros ? ? [= <- <-]. apply wlp_bind, wlp_assert. intros _. by apply put_primitive_wlp. Qed.

Lemma with_dirh_wlp {A} (f : nat -> ex (rees R) A) w : (forall g, framed (f g)) -> live w -> wlp (with_dirh fuel f) w (counts (fun _ => 0) w).
Proof.
  intros Hf HL. unfold with_dirh. apply wlp_bind. eapply wlp_mono; [by apply get_dirh_wlp |]. cbn beta. intros [g|e] w1 [L1 E1]; [| by split].
  apply wlp_bind, wlp_attempt. eapply wlp_mono; [by apply framed_counts |]. cbn beta. intros r w2 [L2 E2].
  apply wlp_bind. eapply wlp_mono; [by apply put_dirh_wlp |]. cbn beta. cbn in E1. intros [?|?] w3 [L3 E3]; [apply wlp_rethrow |]; (split; [done | lia]).
Qed.
(** ** The calls *)

#[local] Notation takes w := (counts (fun r => Z.b2z (ok_of r)) w).

(** Giving the reference back on an error. *)
Lemma put_throw_wlp {A} g close e w0 w : live w -> r_refcount w = r_refcount w0 + 1 ->
  wlp (_ ← put_dirh g close; throw e : ex (rees R) A) w (takes w0).
Proof.
  intros HL E. apply wlp_bind. eapply wlp_mono; [by apply put_dirh_wlp |]. cbn beta. intros [?|?] w1 [L1 E1]; [apply wlp_throw |]; (split; [done | cbn; lia]).
Qed.

Lemma open_wlp po w : live w -> wlp (ree_fs_open fuel po) w (takes w).
Proof.
  intros HL. unfold ree_fs_open. apply wlp_bind. eapply wlp_mono; [by apply get_dirh_wlp |]. cbn beta. intros [g|e] w1 [L1 E1]; [| by split].
  apply wlp_bind, wlp_attempt. eapply wlp_mono; [apply framed_counts; [framed | done] |]. cbn beta. cbn in E1. intros [a|e] w2 [L2 E2].
  - apply wlp_bind, wlp_ret, wlp_rethrow. split; [done | cbn; lia].
  - apply put_throw_wlp; [done | lia].
Qed.

Lemma framed_commit g : framed (commit_dirh_writes (R := R) g).
Proof. unfold commit_dirh_writes. framed. Qed.
Lemma framed_set_name g h po ow : framed (set_name (R := R) fuel g h po ow).
Proof. unfold set_name. pose proof framed_commit. framed. Qed.
Lemma framed_part h pos part : framed (create_part (R := R) h pos part).
Proof. unfold create_part. framed. Qed.

Lemma create_wlp junk po ow head attr data w : live w -> wlp (ree_fs_create fuel junk po ow head attr data) w (takes w).
Proof.
  intros HL. unfold ree_fs_create. pose proof framed_part. pose proof framed_set_name.
  apply wlp_bind. eapply wlp_mono; [by apply get_dirh_wlp |]. cbn beta. intros [g|e] w1 [L1 E1]; [| by split].
  apply wlp_bind, wlp_attempt. eapply wlp_mono; [apply framed_counts; [framed | done] |]. cbn beta. cbn in E1.
  intros [[dfh h]|e] w2 [L2 E2]; [| apply put_throw_wlp; [done | lia]].
  apply wlp_bind, wlp_attempt. eapply wlp_mono; [apply framed_counts; [framed | done] |]. cbn beta.
  intros [a|e] w3 [L3 E3]; [apply wlp_ret; split; [done | cbn; lia] |].
  apply wlp_bind. eapply wlp_mono; [by apply put_dirh_wlp |]. cbn beta. intros [?|?] w4 [L4 E4]; [| split; [done | cbn; lia]].
  eapply wlp_mono with (P := fun r w' => counts (fun _ => 0) w4 r w' /\ ok_of r = false).
  - intros r w' E. split; [revert r w' E; apply framed_counts; [framed | done] |].
    revert E. unfold mbind, ex_bind. repeat (case_match; try done); by intros [= <- <-].
  - intros r w5 [[L5 E5] Er]. split; [done |]. rewrite Er. cbn. lia.
Qed.

Lemma opendir_wlp uuid w : live w -> wlp (ree_fs_opendir_rpc fuel uuid) w (takes w).
Proof.
  intros HL. unfold ree_fs_opendir_rpc. apply wlp_bind. eapply wlp_mono; [by apply framed_counts; [framed |] |]. cbn beta.
  intros [[m|]|e] w0 [L0 E0]; [| apply wlp_throw; split; [done | cbn; lia] | split; [done | cbn; lia]].
  apply wlp_bind. eapply wlp_mono; [by apply get_dirh_wlp |]. cbn beta. intros [g|e] w1 [L1 E1]; [| cbn in E1; split; [done | cbn; lia]].
  apply wlp_bind, wlp_attempt. eapply wlp_mono; [apply framed_counts; [framed | done] |]. cbn beta. cbn in E1.
  intros [a|e] w2 [L2 E2]; [apply wlp_ret; split; [done | cbn; lia] | apply put_throw_wlp; [done | lia]].
Qed.

Lemma close_wlp h w : live w -> wlp (ree_fs_close (Some h)) w (counts (fun _ => -1) w).
Proof.
  intros HL. unfold ree_fs_close. apply wlp_bind. eapply wlp_mono; [by apply put_primitive_wlp |]. cbn beta. intros [?|?] w1 [L1 E1]; [| by split].
  eapply wlp_mono; [by apply framed_counts; [framed |] |]. cbn beta. intros r w2 [L2 E2]. split; [done | lia].
Qed.

(** The calls that give a result nobody keeps. *)
Lemma unit_wlp {A} (m : ex (rees R) A) (c : fcall) w : wlp m w (fun r w' => live w' /\ r_refcount w' = r_refcount w + gain c (ok_of r)) ->
  wlp (_ ← m; mret tt) w (fun r w' => live w' /\ r_refcount w' = r_refcount w + gain c (ok_of r)).
Proof. intros Hm. apply wlp_bind. eapply wlp_mono; [exact Hm |]. cbn beta. intros [a|e] w' HH; [by apply wlp_ret | exact HH]. Qed.

Lemma fcall_wlp c w : live w -> wlp (fcall_run fuel c) w (fun r w' => live w' /\ r_refcount w' = r_refcount w + gain c (ok_of r)).
Proof.
  intros HL. pose proof framed_commit as Hc.
  destruct c as [po|junk po ow head attr data|[h|]|h pos len|h pos buf|old [new|] ow|po|h len|uuid|[d|]|d]; cbn [fcall_run]; try apply unit_wlp.
  - eapply wlp_mono; [by apply open_wlp |]. by intros [?|?] w' [? ?].
  - eapply wlp_mono; [by apply create_wlp |]. by intros [?|?] w' [? ?].
  - eapply wlp_mono; [by apply close_wlp |]. by intros r w' [? ?].
  - eapply wlp_mono; [by apply framed_counts; [unfold ree_fs_close; framed |] |]. by intros r w' [? ?].
  - eapply wlp_mono; [by apply framed_counts; [unfold ree_fs_read; framed |] |]. by intros r w' [? ?].
  - eapply wlp_mono; [by apply with_dirh_wlp; [intros g; framed |] |]. by intros r w' [? ?].
  - eapply wlp_mono; [by apply with_dirh_wlp; [intros g; framed |] |]. by intros r w' [? ?].
  - apply wlp_throw. split; [done | cbn; lia].
  - eapply wlp_mono; [by apply with_dirh_wlp; [intros g; framed |] |]. by intros r w' [? ?].
  - eapply wlp_mono; [by apply with_dirh_wlp; [intros g; framed |] |]. by intros r w' [? ?].
  - eapply wlp_mono; [by apply opendir_wlp |]. by intros [?|?] w' [? ?].
  - eapply wlp_mono; [by apply put_dirh_wlp |]. by intros r w' [? ?].
  - apply wlp_ret. split; [done | cbn; lia].
  - eapply wlp_mono; [by apply framed_counts; [unfold ree_fs_readdir_rpc; framed |] |]. by intros r w' [? ?].
Qed.
End Counting.

(** ** Runs *)

Section Runs.
Context {R : Type} `{!HeapOps R, !HtreeCrypto R, !FsRpc R} (fuel : nat).
Implicit Types (w : rees R).

(** Calls one after the other, whether they fail or not. *)
Fixpoint fcalls_run (cs : list fcall) w : outcome (list (unit + Z) * rees R) :=
  match cs with
  | [] => Ret ([], w)
  | c :: cs => '(r, w) ← fcall_run fuel c w; '(rs, w) ← fcalls_run cs w; Ret (r :: rs, w)
  end.
Definition gains (cs : list fcall) (rs : list (unit + Z)) : Z := foldr Z.add 0 (zip_with (fun c r => gain c (ok_of r)) cs rs).

(** C26: over any calls on the file system the reference count of the directory changes by the
    handles given out, for objects and for listings, less those given back, whichever calls
    fail; and when no reference is left no directory is open. *)
Theorem ree_refcount cs w rs w' : live w -> fcalls_run cs w = Ret (rs, w') -> live w' /\ r_refcount w' = r_refcount w + gains cs rs.
Proof.
  revert w rs. induction cs as [|c cs IH]; intros w rs HL; cbn [fcalls_run]; [intros [= <- <-]; split; [done | unfold gains; cbn; lia] |].
  unfold mbind, outcome_bind. destruct (fcall_run fuel c w) as [[r w1]|] eqn:E; [| done]. destruct (fcall_wlp fuel c w HL _ _ E) as [L1 E1].
  destruct (fcalls_run cs w1) as [[rs' w2]|] eqn:E2; [| done]. intros [= <- <-]. destruct (IH w1 rs' L1 E2) as [L2 E3].
  split; [done |]. rewrite E3, E1. unfold gains. cbn. lia.
Qed.
End Runs.

Import HtreeRam HtreeRamLaws ReeRam.

(** An object and a listing stay open; two calls fail. *)
Definition some_calls : list fcall :=
  [CCreate no_handle (obj 1) false (Some [1; 2]) None None; COpen (obj 1); COpendir uuid7; CWrite 1 0 [7]; COpen (obj 3);
   CClose (Some 2%nat); CCreate no_handle (obj 1) false (Some [1]) None None].
Definition some_results : list (unit + Z) := [inl tt; inl tt; inl tt; inl tt; inr TEE_ERROR_ITEM_NOT_FOUND; inl tt; inr TEE_ERROR_ACCESS_CONFLICT].
Lemma some_calls_results : fst <$> fcalls_run 100 some_calls world0 = Ret some_results.
Proof. vm_compute. reflexivity. Qed.
Lemma ree_refcount_witness : exists w, fcalls_run 100 some_calls world0 = Ret (some_results, w) /\ live w /\ r_refcount w = 2.
Proof.
  pose proof some_calls_results as E. destruct (fcalls_run 100 some_calls world0) as [[rs w]|] eqn:Er; [| done].
  cbn in E. injection E as ->. exists w. split; [reflexivity |]. apply (ree_refcount 100 some_calls world0 some_results w); [| exact Er].
  split; [cbn; lia | done].
Defined.
